(* ===== verification/_CoqProject ===== *)
-Q . S2P
Prelude.v
Errors.v
Crc32.v
Utf8.v
Epoch.v
Snprintf.v
Bitarray.v
Huffman.v
Inflate.v
Deflate.v
Db.v
Zip.v
Heap.v
Mm.v
MmInit.v
Event.v
Ring.v
Pipe.v
Pty.v
PtyView.v
PtyLine.v
PtyOps.v
FatBpb.v
FatTable.v
FatName.v
FatVolume.v
FatDir.v
FatFile.v
FatCache.v
FatRead.v
FatChain.v
FatWrite.v
VfsPath.v
Vfs.v
VfsTree.v
VfsWalk.v
VfsCount.v
VfsOps.v
FileTable.v
FileOk.v
FileIo.v
Sched.v
HddPart.v
Coff.v
Arg.v
