(* ===== verification/Prelude.v ===== *)
(** * Dancy: a verification library for the operating system's core

    Dancy is an operating system written in C: a boot loader, a kernel, a small
    C library with user programs, and build tools.  This library models the
    parts whose behaviour is decided by code of the repository and not by a
    device, and proves them correct.  Each file below is one component; it
    opens with what it models and how its state corresponds to the code.

    ** Files and sources

    - [Prelude]: machine integers, checked memory accesses, loops with fuel,
      bits, finite checks, hint databases.
    - [Errors]: common/include/kernel/error.h, the error codes of the kernel.
    - Checksums and texts: [Crc32] (common/crc32.c, common/crc32c.c), [Utf8]
      (common/utf8.c), [Epoch] (common/epoch.c), [Snprintf]
      (kernel/lib/snprintf.c).
    - Compression: [Bitarray] (kernel/lib/bitarray.c), [Huffman]
      (kernel/lib/huffman.c), [Inflate] (kernel/lib/inflate.c), [Deflate]
      (tools/dy-zip/deflate.c); [Db] (boot/init/db.c), the callback that hands
      database files to the decoder; [Zip] composes encoder and decoder.
    - Memory: [Heap] (kernel/base/heap.c), [Mm] and [MmInit] (kernel/base/mm.c),
      the allocators of the kernel for bytes and for page frames.
    - Synchronisation: [Event] (kernel/base/event.c) and [Pipe]
      (kernel/vfs/pipe.c), whose readers and writers wait for events.
    - Terminals (all kernel/vfs/pty.c): [Pty], the pseudo terminals; the proofs:
      [PtyView] (the terminal as lists), [PtyLine] (typing and line editing) and
      [PtyOps] (histories of calls).  [Ring] has the rings of bytes that they share
      with the pipes.
    - Scheduling: [Sched] (kernel/sched/sched.c), the choice of the next task.
    - File system (all common/fat.c): [FatBpb], mounting a volume; [FatTable],
      the operations on its allocation table; [FatName], the reading of paths;
      [FatVolume], the state of a volume, its descriptors and the monad of the
      computations on it; [FatDir], directories; [FatFile], the functions that
      the system calls; and the proofs about files: [FatCache] (the buffers),
      [FatRead], [FatChain] (chains that grow) and [FatWrite].

    - Virtual file system (all kernel/vfs/vfs.c): [VfsPath], path names; [Vfs],
      the tree of nodes and the operations, over any drivers (class
      [VfsDriver]); the proofs: [VfsTree] (the invariant [tree_ok], nodes that
      come and go), [VfsWalk] (paths of nodes, unused branches), [VfsCount]
      (counters, release, path of a node) and [VfsOps] (the operations, and a
      driver in memory as an instance).

    - File descriptors (all kernel/syscall/file.c): [FileTable], the table of open
      files and the tables of the tasks; [FileOk], its invariant and its calls;
      [FileIo], reading and writing through descriptors, with the nodes as a class.

    - Disks and programs: [HddPart] (kernel/misc/hdd_part.c), the partitions of
      disks; [Coff] (kernel/misc/coff.c), the loader of executables; [Arg]
      (kernel/syscall/arg.c), their arguments and environment.

    [Huffman] reads and writes through [Bitarray]; [Inflate] and [Deflate] use
    both; [Pipe] uses the events of [Event] and the codes of [Errors];
    [FatTable] works on the geometry that [FatBpb] accepts and on any block
    device (class [BlockDevice], with its laws in [BlockDeviceOk]).  The files on
    top of it are computations of the monad [M]; their theorems use the rules of
    [wp] and of [FatCache], where the invariant [good] ties the table and the
    buffers in memory to the bytes of the device.

    ** How code is modelled

    An integer is a [Z]; where the width matters the code's wrap-around is
    written out with [wrap].  An array is a list, and an access outside of it,
    undefined in C, is [None] of the option monad: a theorem that gives
    [Some _] says that there was no such access.  Where the code has one, the
    theorem says exactly when: the seek by the smallest [off_t], the string that
    is not longer than its precision, the table that [mm_init] has released.
    A structure is a record; a
    function that changes a structure answers the changed one.  Critical
    sections are single functions, and concurrency is the interleaving of
    critical sections.  What comes from outside (a device, the clock, the answer
    of a lock or of [malloc], other tasks) is an argument.

    A loop whose recursion is not structural is [while] with fuel.  The fuel is
    always an expression of the inputs that exceeds the number of turns (the
    length of a format, the number of entries of a table, the number of bits
    wanted), and every functional theorem shows the result [Some _], so the
    fuel is enough and the C loop ends; [while_enough] says that more of it
    changes nothing.

    ** What is proved

    - Files of a FAT volume (C1, C2, C3): what is written is read back; a
      write changes the bytes it should, the record and the chain, and
      nothing else; a read delivers the bytes of the device.
    - Allocation table (C20, C21, C30, C35): an accepted volume has a
      consistent geometry; the table is an array of entries for all three
      widths whatever the position of the window; a chain grows by the first
      free cluster, and deletion ends also on cyclic chains; after both the
      device holds the table of the memory, but for the bytes of FAT12 that
      the code does not mark.
    - Names and directories (C23, C37): the path buffer is what a reading of
      the path by components says, and holds well-formed record names only.
    - Compression (C4, C5): round trips of whole files; the decoder is safe
      and ends on every stream, whichever callback hands it over.
    - Virtual file system (C6, C7, C8, C9, C10, C31): the linked tree of the
      open nodes is well formed and every node in it has a reason to be
      there; every operation keeps this and never panics, whatever the
      drivers answer; opening and releasing are inverse, the counters of
      openers are exact; a failure leaves no trace, a mount changes one
      place only and is refused exactly as specified; a path name means the
      components of its specification, and the path of a node leads back to
      it.
    - Heap (C11, C12): allocation and release by what they do to the list of
      blocks, the exact reasons for a null pointer, and the invariant over
      every sequence of calls without the one defect that breaks it, an
      allocation whose place the map of blocks takes for itself.
    - Page frames (C16, C38): the free pages after the start are the usable
      ones of the memory map, up to the point where mm_init reads a table it
      has released; allocation on the bitmap of pages.
    - Events and pipes (C17, C34): a waiting task takes the first signal
      that one of its critical sections finds, and only that one, or none
      when its time is up; a pipe delivers what was accepted, in order,
      under every interleaving, and loses no wake-up.
    - File descriptors (C19, C26, C27, C36): reference counts and nodes over
      every history of calls of all tasks, and the one call without a
      defined answer; what forking, exec and seeking do; a write in several
      turns is complete and in order.
    - Pseudo terminals (C18, C32, C33): every history of calls behaves like
      a terminal made of lists; a typed line is what a program reads,
      erasing takes one character.
    - Programs (C13, C14, C28): the loader is safe for every file, stays in
      user memory and ends unless a relocation has an unknown type, the text
      section arrives, and so do the arguments.
    - Disk partitions (C15, C29): accesses through different partitions
      never meet; a cyclic chain of records is followed for ever.
    - Scheduling (C24, C25): the search equals a reference; a switch is
      always to a task that is entitled to it, and none is tried only when
      there is no such task.
    - Formatted output (C22): a refinement of a specification that reads the
      format and gives the text independently, with the one case that reads
      too far.
    - Time and checksums (C39, C40): calendar conversion is the identity
      both ways; every burst of at most 32 bits, at any bit, is detected by
      the checksums.
    - Theorems that are not in this list support these; among them are
      utf8_decode_canonical, fat_seek_correct, n_write_correct,
      pty_output_roundtrip, file_close_correct, file_dup_correct,
      find_partitions_total, read_sector_hides_errors, build_line_correct,
      heap_free_correct, heap_alloc_free, mm_alloc_free_pages,
      n_read_correct, snprintf_decimal, utf8_encode_decode,
      file_read_complete, erase_full_line, setfd_never_clears,
      huffman_code_roundtrip, allocate_cluster_correct, vfs_remove_correct,
      check_fd_correct and n_readdir_open, and the counterexamples
      heap_map_overlap_reachable, bpb_larger_than_device,
      fat12_straddling_entry_lost, create_on_full_volume_loses_directory,
      unknown_relocation_halts and last_page_wraps.

    ** Not modelled

    - Drivers, interrupt and paging set-up, consoles, ACPI and firmware calls:
      what they do is decided by registers and device memory.
    - The drivers of the virtual file system other than pipes and pseudo
      terminals, the parser of the shell and the remaining C library: pure
      enough to be modelled, and left out.  Of boot/init/db.c only the callback
      is modelled, not the search for a file by its name.
    - Steps inside the calls that hold a lock of their component: a call of
      [Vfs] (the lock of the tree), [FileTable] and [Sched] is one step.
    - Of kernel/syscall/file.c the calls that only pass something on to a node
      (getdents, poll, ioctl, getcwd, realpath).
    - Of kernel/vfs/pty.c [pty_init], which mounts the directory of the pseudo
      terminals, and [alloc_node], which fills in a node.
    - Of common/fat.c everything is modelled; the memory of the instance is
      released by [free] alone, and a failed read of [fat_io_read] leaves the
      buffer with the bytes that the device says it delivered.
    - common/ttf.c and the build tools other than the compressor: rendering,
      and host programs around files. *)

From stdpp Require Export base tactics option list list_numbers numbers.
From Stdlib Require Export ZArith Lia.

#[global] Open Scope Z_scope.

(** ** Machine integers

    A C integer is a [Z]; the places where the code relies on a fixed width
    apply [wrap] (unsigned arithmetic, conversions to an unsigned type). *)

Definition wrap (w z : Z) : Z := z mod 2 ^ w.
Abbreviation u8 := (wrap 8).
Abbreviation u16 := (wrap 16).
Abbreviation u32 := (wrap 32).
Abbreviation u64 := (wrap 64).

Lemma wrap_small w z : 0 ≤ z < 2 ^ w → wrap w z = z.
Proof. intros. by apply Z.mod_small. Qed.

Lemma wrap_range w z : 0 ≤ w → 0 ≤ wrap w z < 2 ^ w.
Proof. intros. apply Z.mod_pos_bound. by apply Z.pow_pos_nonneg. Qed.

(** A conversion to a signed type of [w] bits (two's complement, as every
    compiler the project supports defines it). *)
Definition swrap (w z : Z) : Z := (z + 2 ^ (w - 1)) mod 2 ^ w - 2 ^ (w - 1).

Definition is_byte (z : Z) : Prop := 0 ≤ z < 256.

(** ** Memory accesses

    An array is a list; reading or writing outside of it is undefined
    behaviour in C and [None] here.  The option monad of the library threads
    it, so that a result [Some _] says that the run had no such access. *)

Definition rd {A} (l : list A) (i : Z) : option A :=
  if 0 <=? i then l !! Z.to_nat i else None.

Definition wr {A} (l : list A) (i : Z) (x : A) : option (list A) :=
  if (0 <=? i) && (i <? Z.of_nat (length l))
  then Some (<[Z.to_nat i := x]> l) else None.

Declare Scope c_scope.
Delimit Scope c_scope with C.
Notation "l .[ i ]" := (rd l i)
  (at level 1, i at level 200, left associativity, format "l .[ i ]") : c_scope.
Notation "l .[ i <- x ]" := (wr l i x)
  (at level 1, i at level 200, x at level 200, left associativity,
   format "l .[ i  <-  x ]") : c_scope.
#[global] Open Scope c_scope.

(** ** Loops

    [while fuel body s] runs [body] until it answers [Done].  [None] is an
    undefined access or exhausted fuel; [while_total] is the rule that shows
    neither happens: an invariant, a measure and a fuel above it. *)

Inductive ctl (S R : Type) : Type :=
| Next (s : S)
| Done (r : R).
Arguments Next {S R} s.
Arguments Done {S R} r.

Fixpoint while {S R} (fuel : nat) (body : S → option (ctl S R)) (s : S)
  : option R :=
  match fuel with
  | O => None
  | Datatypes.S n =>
      c ← body s;
      match c with
      | Next s' => while n body s'
      | Done r => Some r
      end
  end.

Lemma while_total {S R} (I : S → Prop) (m : S → nat) (Q : R → Prop)
    (body : S → option (ctl S R)) :
  (∀ s, I s → ∃ c, body s = Some c ∧
     match c with Next s' => I s' ∧ (m s' < m s)%nat | Done r => Q r end) →
  ∀ fuel s, I s → (m s < fuel)%nat → ∃ r, while fuel body s = Some r ∧ Q r.
Proof.
  intros Hbody fuel. induction fuel as [|fuel IH]; intros s Hs Hm; [lia|].
  destruct (Hbody s Hs) as (c & Hc & Hpost). simpl. rewrite Hc. simpl.
  destruct c as [s'|r]; [|by eauto].
  destruct Hpost as [Hs' Hlt]. apply IH; [done|lia].
Qed.

(** Extra fuel does not change an answer. *)
Lemma while_mono {S R} (body : S → option (ctl S R)) fuel fuel' s r :
  while fuel body s = Some r → (fuel ≤ fuel')%nat → while fuel' body s = Some r.
Proof.
  revert fuel' s. induction fuel as [|fuel IH]; intros fuel' s Hw Hle;
    [done|].
  destruct fuel' as [|fuel']; [lia|]. simpl in *.
  destruct (body s) as [[s'|r']|]; simpl in *; [|done|done].
  apply IH; [done|lia].
Qed.

(** When every turn decreases a measure, more fuel than the measure changes
    nothing: the loop ends by itself. *)
Lemma while_enough {S R} (m : S → nat) (body : S → option (ctl S R)) :
  (∀ s s', body s = Some (Next s') → (m s' < m s)%nat) →
  ∀ f1 f2 s, (m s < f1)%nat → (m s < f2)%nat → while f1 body s = while f2 body s.
Proof.
  intros Hm f1. induction f1 as [|f1 IH]; intros [|f2] s H1 H2; try lia.
  simpl. destruct (body s) as [[s'|r]|] eqn:Hb; simpl; [|done|done].
  apply Hm in Hb. apply IH; lia.
Qed.

(** ** Accesses: the lemmas the components use *)

Lemma rd_Some {A} (l : list A) (i : Z) (x : A) :
  rd l i = Some x ↔ 0 ≤ i ∧ l !! Z.to_nat i = Some x.
Proof. unfold rd. destruct (Z.leb_spec 0 i); split; [| |done|]; intuition lia. Qed.

Lemma rd_lt {A} (l : list A) (i : Z) (x : A) :
  rd l i = Some x → 0 ≤ i < Z.of_nat (length l).
Proof. rewrite rd_Some. intros [? ?%lookup_lt_Some]. lia. Qed.

Lemma rd_is_Some {A} (l : list A) (i : Z) :
  0 ≤ i < Z.of_nat (length l) → ∃ x, rd l i = Some x.
Proof.
  intros Hi. destruct (lookup_lt_is_Some_2 l (Z.to_nat i)) as [x Hx]; [lia|].
  exists x. apply rd_Some. split; [lia|done].
Qed.

Lemma rd_None {A} (l : list A) (i : Z) :
  rd l i = None ↔ i < 0 ∨ Z.of_nat (length l) ≤ i.
Proof.
  unfold rd. destruct (Z.leb_spec 0 i).
  - rewrite lookup_ge_None. lia.
  - split; [lia|done].
Qed.

Lemma wr_Some {A} (l : list A) (i : Z) (x : A) :
  0 ≤ i < Z.of_nat (length l) → wr l i x = Some (<[Z.to_nat i := x]> l).
Proof.
  intros Hi. unfold wr.
  rewrite (proj2 (Z.leb_le _ _)), (proj2 (Z.ltb_lt _ _)) by lia. done.
Qed.

Lemma wr_Some_inv {A} (l l' : list A) (i : Z) (x : A) :
  wr l i x = Some l' →
  0 ≤ i < Z.of_nat (length l) ∧ l' = <[Z.to_nat i := x]> l.
Proof.
  unfold wr. destruct (Z.leb_spec 0 i), (Z.ltb_spec i (Z.of_nat (length l)));
    simpl; naive_solver lia.
Qed.

Lemma rd_app_l {A} (l1 l2 : list A) i :
  i < Z.of_nat (length l1) → rd (l1 ++ l2) i = rd l1 i.
Proof.
  intros Hi. unfold rd. destruct (Z.leb_spec 0 i); [|done].
  apply lookup_app_l. lia.
Qed.

Lemma rd_app_r {A} (l1 l2 : list A) i :
  Z.of_nat (length l1) ≤ i → rd (l1 ++ l2) i = rd l2 (i - Z.of_nat (length l1)).
Proof.
  intros Hi. unfold rd. rewrite !(proj2 (Z.leb_le _ _)) by lia.
  rewrite lookup_app_r by lia. f_equal. lia.
Qed.

Lemma wr_lookup {A} (l : list A) i x y :
  l.[i] = Some x → ∃ l', l.[i <- y] = Some l' ∧ l' = <[Z.to_nat i := y]> l ∧ l !! Z.to_nat i = Some x.
Proof.
  intros Hi. pose proof (rd_lt _ _ _ Hi) as Hlt. rewrite wr_Some by done. eexists. split; [done|]. split; [done|].
  by apply rd_Some in Hi as [_ Hi].
Qed.

Lemma rd_insert {A} (l : list A) i j y :
  0 ≤ i < Z.of_nat (length l) → (<[Z.to_nat i := y]> l).[j] = if decide (i = j) then Some y else l.[j].
Proof.
  intros Hi. unfold rd. destruct (Z.leb_spec 0 j); [|by rewrite decide_False by lia].
  destruct (decide (i = j)) as [->|Hne]; [by rewrite list_lookup_insert_eq by lia|].
  by rewrite list_lookup_insert_ne by lia.
Qed.

(** ** Sums over lists, and lists up to their order *)

Fixpoint total {A} (f : A → nat) (l : list A) : nat :=
  match l with [] => 0%nat | x :: l => (f x + total f l)%nat end.

Lemma total_insert {A} (f : A → nat) l i x y :
  l !! i = Some x → (total f (<[i := y]> l) + f x = total f l + f y)%nat.
Proof.
  revert i. induction l as [|z l IH]; intros [|i] Hi; try done.
  - injection Hi as ->. change (<[0%nat := y]> (x :: l)) with (y :: l). cbn [total]. lia.
  - change (<[S i := y]> (z :: l)) with (z :: <[i := y]> l). cbn [total]. specialize (IH i Hi). lia.
Qed.

Lemma total_app {A} (f : A → nat) l k : total f (l ++ k) = (total f l + total f k)%nat.
Proof. induction l as [|z l IH]; cbn [total app]; lia. Qed.

Lemma total_zero {A} (f : A → nat) l : (∀ x, x ∈ l → f x = 0%nat) → total f l = 0%nat.
Proof.
  induction l as [|z l IH]; intros Hz; [done|]. cbn [total]. rewrite (Hz z) by by left. apply IH.
  intros x Hx. apply Hz. by right.
Qed.

Lemma total_pos {A} (f : A → nat) l x : x ∈ l → (f x ≤ total f l)%nat.
Proof. induction 1 as [x l|x y l Hx IH]; cbn [total]; lia. Qed.

Lemma omap_insert {A B} (f : A → option B) l i x y :
  l !! i = Some x →
  omap f (<[i := y]> l) ++ option_list (f x) ≡ₚ omap f l ++ option_list (f y).
Proof.
  revert i. induction l as [|z l IH]; intros [|i] Hi; try done.
  - injection Hi as ->. change (<[0%nat := y]> (x :: l)) with (y :: l). cbn.
    destruct (f x) as [a|], (f y) as [b|]; cbn; rewrite ?app_nil_r; solve_Permutation.
  - change (<[S i := y]> (z :: l)) with (z :: <[i := y]> l). specialize (IH i Hi). cbn.
    destruct (f z); [constructor; exact IH|exact IH].
Qed.

Lemma perm_replace {A} (o o' a b b' c w w' : list A) :
  o' ++ w ≡ₚ o ++ w' → o ≡ₚ a ++ b ++ c → b' ++ w ≡ₚ b ++ w' → o' ≡ₚ a ++ b' ++ c.
Proof.
  intros Ho Hn Hb. apply (Permutation_app_inv_r w). rewrite Ho, Hn.
  trans (a ++ (b ++ w') ++ c); [solve_Permutation|]. rewrite <- Hb. solve_Permutation.
Qed.

(** ** Bits *)

Lemma land_ones_mod x n : 0 ≤ n → Z.land x (2 ^ n - 1) = x mod 2 ^ n.
Proof.
  intros Hn. rewrite <- Z.land_ones by done. rewrite Z.ones_equiv.
  f_equal; lia.
Qed.

(** A disjoint [lor] is a sum. *)
Lemma lor_shiftl_add a b n :
  0 ≤ n → 0 ≤ b < 2 ^ n → Z.lor (Z.shiftl a n) b = a * 2 ^ n + b.
Proof.
  intros Hn Hb. rewrite <- Z.shiftl_mul_pow2 by done.
  symmetry. apply Z.add_nocarry_lor.
  apply Z.bits_inj_0. intros i. rewrite Z.land_spec.
  destruct (Z.lt_ge_cases i 0); [by rewrite Z.testbit_neg_r|].
  destruct (Z.lt_ge_cases i n).
  - by rewrite Z.shiftl_spec_low by done.
  - rewrite andb_comm. rewrite <- (Z.mod_small b (2 ^ n)) by done.
    by rewrite Z.mod_pow2_bits_high by lia.
Qed.

Lemma bits_high_lt a n : 0 ≤ n → 0 ≤ a →
  (∀ i, n ≤ i → Z.testbit a i = false) → a < 2 ^ n.
Proof.
  intros Hn Ha Hb. destruct (Z.lt_ge_cases a (2 ^ n)) as [|Hge]; [done|exfalso].
  assert (0 < 2 ^ n) by (by apply Z.pow_pos_nonneg).
  assert (Hl : n ≤ Z.log2 a) by (apply Z.log2_le_pow2; lia).
  specialize (Hb (Z.log2 a) Hl). rewrite Z.bit_log2 in Hb by lia. done.
Qed.

Lemma testbit_high a n i : 0 ≤ a < 2 ^ n → n ≤ i → Z.testbit a i = false.
Proof.
  intros Ha Hi. destruct (Z.lt_ge_cases n 0).
  - rewrite Z.pow_neg_r in Ha by done. lia.
  - rewrite <- (Z.mod_small a (2 ^ n)) by done. apply Z.mod_pow2_bits_high. lia.
Qed.

Lemma lor_range a b n : 0 ≤ n → 0 ≤ a < 2 ^ n → 0 ≤ b < 2 ^ n →
  0 ≤ Z.lor a b < 2 ^ n.
Proof.
  intros Hn Ha Hb. assert (0 ≤ Z.lor a b) by (apply Z.lor_nonneg; lia).
  split; [done|]. apply bits_high_lt; [done|done|]. intros i Hi.
  by rewrite Z.lor_spec, !(testbit_high _ n).
Qed.

(** The [n] low bits of a number, the least significant first, and back. *)
Definition bits_of (n : nat) (z : Z) : list bool :=
  (λ i, Z.testbit z (Z.of_nat i)) <$> seq 0 n.

Fixpoint of_bits (bs : list bool) : Z :=
  match bs with
  | [] => 0
  | b :: bs' => Z.b2z b + 2 * of_bits bs'
  end.

Lemma bits_of_length n z : length (bits_of n z) = n.
Proof. unfold bits_of. by rewrite length_fmap, length_seq. Qed.

Lemma bits_of_S n z : bits_of (S n) z = Z.odd z :: bits_of n (Z.shiftr z 1).
Proof.
  unfold bits_of. cbn [seq fmap list_fmap].
  apply f_equal2; [apply Z.bit0_odd|]. rewrite <- (fmap_S_seq 0 n).
  rewrite <- list_fmap_compose. apply list_fmap_ext.
  intros i j _. unfold compose. rewrite Z.shiftr_spec by lia. f_equal. lia.
Qed.

Lemma bits_of_app n m z :
  bits_of (n + m) z = bits_of n z ++ bits_of m (Z.shiftr z (Z.of_nat n)).
Proof.
  revert z. induction n as [|n IH]; intros z; [by rewrite Z.shiftr_0_r|].
  cbn [Nat.add]. rewrite !bits_of_S, IH, Z.shiftr_shiftr by lia.
  simpl. f_equal. f_equal. f_equal. f_equal. lia.
Qed.

Lemma of_bits_range bs : 0 ≤ of_bits bs < 2 ^ Z.of_nat (length bs).
Proof.
  induction bs as [|b bs IH]; [done|]. cbn [of_bits length].
  rewrite Nat2Z.inj_succ, Z.pow_succ_r by lia. destruct b; simpl Z.b2z; lia.
Qed.

Lemma of_bits_bits_of n z : of_bits (bits_of n z) = z mod 2 ^ Z.of_nat n.
Proof.
  revert z. induction n as [|n IH]; intros z; [by rewrite Z.mod_1_r|].
  rewrite bits_of_S. cbn [of_bits]. rewrite IH, Nat2Z.inj_succ, Z.pow_succ_r by lia.
  rewrite Z.shiftr_div_pow2 by lia. change (2 ^ 1) with 2.
  rewrite Z.rem_mul_r by lia. rewrite Zmod_odd. destruct (Z.odd z); simpl; lia.
Qed.

Lemma bits_of_of_bits bs : bits_of (length bs) (of_bits bs) = bs.
Proof.
  induction bs as [|b bs IH]; [done|]. cbn [length of_bits]. rewrite bits_of_S.
  rewrite Z.add_comm, Z.odd_add, Z.odd_mul. f_equal; [by destruct b|].
  rewrite Z.shiftr_div_pow2 by lia. change (2 ^ 1) with 2.
  replace ((2 * of_bits bs + Z.b2z b) / 2) with (of_bits bs)
    by (destruct b; simpl; Z.to_euclidean_division_equations; lia).
  done.
Qed.

Lemma of_bits_app bs1 bs2 :
  of_bits (bs1 ++ bs2) = of_bits bs1 + 2 ^ Z.of_nat (length bs1) * of_bits bs2.
Proof.
  induction bs1 as [|b bs1 IH]; [simpl; lia|]. cbn [app of_bits length].
  rewrite IH, Nat2Z.inj_succ, Z.pow_succ_r by lia. lia.
Qed.

(** ** Finite checks

    A property of every number below a bound, decided by computation. *)

Fixpoint all_from (n : nat) (z : Z) (P : Z → bool) : bool :=
  match n with
  | O => true
  | S n' => if P z then all_from n' (z + 1) P else false
  end.

Definition all_below (n : Z) (P : Z → bool) : bool := all_from (Z.to_nat n) 0 P.

Lemma all_from_spec n lo P :
  all_from n lo P = true → ∀ z, lo ≤ z < lo + Z.of_nat n → P z = true.
Proof.
  revert lo. induction n as [|n IH]; intros lo H z Hz; [lia|]. simpl in H.
  destruct (P lo) eqn:E; [|done].
  destruct (decide (z = lo)) as [->|]; [done|]. apply (IH _ H). lia.
Qed.

Lemma all_below_spec n P : all_below n P = true → ∀ z, 0 ≤ z < n → P z = true.
Proof. intros H z Hz. apply (all_from_spec _ _ _ H). lia. Qed.

Lemma byte_table {A} `{EqDecision A} (f g : Z → A) :
  all_below 256 (λ c, bool_decide (f c = g c)) = true →
  ∀ c, is_byte c → f c = g c.
Proof.
  intros H c Hc. apply (bool_decide_eq_true_1 (f c = g c)).
  exact (all_below_spec 256 (λ c, bool_decide (f c = g c)) H c Hc).
Qed.

(** ** Bytes *)

Lemma mod_byte z : is_byte (z mod 256).
Proof. apply Z.mod_pos_bound. lia. Qed.

Lemma bytes_nil : Forall is_byte [].
Proof. constructor. Qed.

Lemma bytes_app l1 l2 : Forall is_byte l1 → Forall is_byte l2 → Forall is_byte (l1 ++ l2).
Proof. intros. by apply Forall_app. Qed.

Lemma bytes_take n l : Forall is_byte l → Forall is_byte (take n l).
Proof. apply Forall_take. Qed.

Lemma bytes_drop n l : Forall is_byte l → Forall is_byte (drop n l).
Proof. apply Forall_drop. Qed.

Lemma bytes_insert i x l : Forall is_byte l → is_byte x → Forall is_byte (<[i := x]> l).
Proof. intros. by apply Forall_insert. Qed.

Lemma bytes_zeros n : Forall is_byte (replicate n 0).
Proof. apply (Forall_replicate is_byte n 0). unfold is_byte. lia. Qed.

(** ** Automation *)

(** [bytes]: an array that is built from bytes holds bytes; [len]: the length
    of an array after stores and copies. *)
Create HintDb bytes discriminated.
#[export] Hint Resolve mod_byte bytes_nil bytes_app bytes_take bytes_drop bytes_insert
  bytes_zeros : bytes.

Create Rewrite HintDb len.
#[export] Hint Rewrite @length_insert @length_replicate @length_app @length_take @length_drop : len.

(** Linear arithmetic with division and modulo by constants. *)
Ltac dlia := Z.to_euclidean_division_equations; lia.

(** Split the hypotheses about every element of an explicit list. *)
Ltac decompose_bytes :=
  repeat match goal with
  | H : Forall _ (_ :: _) |- _ => apply Forall_cons_1 in H as [? ?]
  end.

(** Equality of two explicit lists of numbers. *)
Ltac list_dlia := repeat (apply f_equal2; [dlia|]); try reflexivity.

(** A store that is in bounds. *)
Ltac store :=
  rewrite wr_Some by (rewrite ?length_insert; simpl length; lia);
  cbn [mbind option_bind].

(** Run a computation whose next access is known to succeed. *)
Ltac run_step :=
  match goal with
  | H : ?e = Some _ |- context [?e] => rewrite H; simpl
  end.
Ltac run := repeat run_step.

(** A goal [l = r] about one byte [c], decided over all 256 values. *)
Ltac by_byte_table c Hc :=
  match goal with
  | |- ?l = ?r =>
      let f := eval pattern c in l in
      let g := eval pattern c in r in
      match f with
      | ?F _ =>
          match g with
          | ?G _ => refine (byte_table F G _ c Hc); vm_compute; reflexivity
          end
      end
  end.
