(* ===== verification/Errors.v ===== *)
(** The error codes of the kernel: common/include/kernel/error.h.

    A function that answers an error code answers one of these constructors;
    [de_code] is its value as an enumerator, in the order of the header. *)

From S2P Require Import Prelude.

Inductive de_error :=
| DE_SUCCESS
| DE_FAILURE
| DE_UNEXPECTED
| DE_MEMORY
| DE_ACCESS
| DE_CHECKSUM
| DE_ARGUMENT
| DE_RETRY
| DE_EMPTY
| DE_NOT_EMPTY
| DE_PIPE
| DE_UNINITIALIZED
| DE_UNSUPPORTED
| DE_PLACEHOLDER
| DE_SEARCH
| DE_INTERRUPT
| DE_BUFFER
| DE_NAME
| DE_PATH
| DE_OVERFLOW
| DE_SEQUENCE
| DE_DIRECTORY
| DE_FILE
| DE_BLOCK_READ
| DE_BLOCK_WRITE
| DE_READ
| DE_WRITE
| DE_SEEK
| DE_FULL
| DE_READ_ONLY
| DE_BUSY
| DE_TYPE
| DE_NULL
| DE_ADDRESS
| DE_ALIGNMENT
| DE_MEDIA_CHANGED
| DE_ADDRESS_MARK
| DE_OVERRUN
| DE_COFF_SIGNATURE
| DE_COFF_SIZE
| DE_COFF_HEADER
| DE_COFF_SECTION
| DE_COFF_FLAG
| DE_COFF_SYMBOL
| DE_COFF_EXTERNAL
| DE_COFF_RELOCATION
| DE_COFF_START
| DE_COFF_FORMAT
| DE_USB_STALL.

#[export] Instance de_error_eq_dec : EqDecision de_error.
Proof. solve_decision. Defined.

Definition de_errors : list de_error := [
  DE_SUCCESS; DE_FAILURE; DE_UNEXPECTED; DE_MEMORY; DE_ACCESS; DE_CHECKSUM;
  DE_ARGUMENT; DE_RETRY; DE_EMPTY; DE_NOT_EMPTY; DE_PIPE; DE_UNINITIALIZED;
  DE_UNSUPPORTED; DE_PLACEHOLDER; DE_SEARCH; DE_INTERRUPT; DE_BUFFER;
  DE_NAME; DE_PATH; DE_OVERFLOW; DE_SEQUENCE; DE_DIRECTORY; DE_FILE;
  DE_BLOCK_READ; DE_BLOCK_WRITE; DE_READ; DE_WRITE; DE_SEEK; DE_FULL;
  DE_READ_ONLY; DE_BUSY; DE_TYPE; DE_NULL; DE_ADDRESS; DE_ALIGNMENT;
  DE_MEDIA_CHANGED; DE_ADDRESS_MARK; DE_OVERRUN; DE_COFF_SIGNATURE;
  DE_COFF_SIZE; DE_COFF_HEADER; DE_COFF_SECTION; DE_COFF_FLAG;
  DE_COFF_SYMBOL; DE_COFF_EXTERNAL; DE_COFF_RELOCATION; DE_COFF_START;
  DE_COFF_FORMAT; DE_USB_STALL].

Definition de_code (e : de_error) : Z :=
  default 0 (Z.of_nat <$> (fst <$> list_find (e =.) de_errors)).

(** Zero is success and one is failure, as the comment of the header demands,
    and no two codes are equal. *)
Lemma de_code_success : de_code DE_SUCCESS = 0 ∧ de_code DE_FAILURE = 1.
Proof. done. Qed.

Lemma de_code_inj e1 e2 : de_code e1 = de_code e2 → e1 = e2.
Proof. destruct e1, e2; vm_compute; congruence. Qed.
