(* ===== verification/Crc32.v ===== *)
(** Checksums: [crc32] of common/crc32.c and [crc32c] of common/crc32c.c.

    The two functions differ in the reflected polynomial only.  Section
    [Register] studies the shift register for any polynomial whose bit 31 is
    set; the theorems instantiate it.  The object is the list of bytes at
    [obj]; reading past it is undefined and [None]. *)

From S2P Require Import Prelude.

(** One turn of the inner loop. *)
Definition crc_bit (poly crc : Z) : Z :=
  if Z.land crc 1 =? 0 then Z.shiftr crc 1
  else Z.lxor (Z.shiftr crc 1) poly.

(** One turn of the outer loop: the next byte, then CHAR_BIT inner turns. *)
Definition crc_byte (poly crc byte : Z) : Z :=
  Nat.iter 8 (crc_bit poly) (Z.lxor crc byte).

Fixpoint crc_loop (poly crc : Z) (ptr : list Z) (len : nat) : option Z :=
  match len with
  | O => Some crc
  | S len' =>
      match ptr with
      | [] => None
      | b :: ptr' => crc_loop poly (crc_byte poly crc b) ptr' len'
      end
  end.

Definition crc32 (obj : list Z) (len : nat) : option Z :=
  crc ← crc_loop 0xEDB88320 0xFFFFFFFF obj len;
  Some (Z.land (Z.lnot crc) 0xFFFFFFFF).

Definition crc32c (obj : list Z) (len : nat) : option Z :=
  crc ← crc_loop 0x82F63B78 0xFFFFFFFF obj len;
  Some (Z.land (Z.lnot crc) 0xFFFFFFFF).

Example crc32_check :
  crc32 [0x31; 0x32; 0x33; 0x34; 0x35; 0x36; 0x37; 0x38; 0x39] 9
  = Some 0xCBF43926.
Proof. reflexivity. Qed.

Example crc32c_check :
  crc32c [0x31; 0x32; 0x33; 0x34; 0x35; 0x36; 0x37; 0x38; 0x39] 9
  = Some 0xE3069283.
Proof. reflexivity. Qed.

(** The bytes of a word in memory order (least significant first). *)
Fixpoint le_bytes (n : nat) (w : Z) : list Z :=
  match n with
  | O => []
  | S n' => w mod 256 :: le_bytes n' (w / 256)
  end.

Fixpoint le_word (bs : list Z) : Z :=
  match bs with
  | [] => 0
  | b :: bs' => b + 256 * le_word bs'
  end.

Lemma le_word_bound bs :
  Forall is_byte bs → 0 ≤ le_word bs < 256 ^ Z.of_nat (length bs).
Proof.
  induction 1 as [|b bs Hb _ IH]; simpl; [lia|]. unfold is_byte in Hb.
  rewrite Nat2Z.inj_succ, Z.pow_succ_r by lia. lia.
Qed.

Lemma le_word_inj bs1 bs2 :
  Forall is_byte bs1 → Forall is_byte bs2 → length bs1 = length bs2 →
  le_word bs1 = le_word bs2 → bs1 = bs2.
Proof.
  intros H1. revert bs2. induction H1 as [|b1 bs1 Hb1 _ IH];
    intros [|b2 bs2] H2 Hlen Heq; try done.
  inversion H2 as [|? ? Hb2 H2']; subst. unfold is_byte in *. simpl in *.
  assert (b1 = b2 ∧ le_word bs1 = le_word bs2) as [-> ?] by lia.
  f_equal. apply IH; [done|lia|done].
Qed.

Lemma le_word_bytes n w :
  0 ≤ w < 256 ^ Z.of_nat n → le_word (le_bytes n w) = w.
Proof.
  revert w. induction n as [|n IH]; intros w Hw; simpl.
  - change (256 ^ Z.of_nat 0) with 1 in Hw. lia.
  - rewrite Nat2Z.inj_succ, Z.pow_succ_r in Hw by lia.
    rewrite IH; [|split]; [|apply Z.div_pos; lia|].
    + pose proof (Z.div_mod w 256). lia.
    + apply Z.div_lt_upper_bound; lia.
Qed.

Lemma le_bytes_length n w : length (le_bytes n w) = n.
Proof. revert w. induction n; intros; simpl; auto. Qed.

Lemma le_bytes_byte n w : Forall is_byte (le_bytes n w).
Proof.
  revert w. induction n; intros w; simpl; constructor; [|done].
  apply Z.mod_pos_bound. lia.
Qed.

(** Bit [i] of a message: the bits of a byte count from the lowest one. *)
Definition message_bit (m : list Z) (i : Z) : bool := Z.testbit (default 0 (m !! Z.to_nat (i / 8))) (i mod 8).

Lemma le_word_bit m i : Forall is_byte m → 0 ≤ i → Z.testbit (le_word m) i = message_bit m i.
Proof.
  intros Hm. revert i. induction Hm as [|b m Hb Hm IH]; intros i Hi.
  { unfold message_bit. cbn [le_word]. by rewrite lookup_nil, !Z.testbit_0_l. }
  cbn [le_word]. pose proof (le_word_bound m Hm) as Hw. unfold message_bit, is_byte in *.
  destruct (Z.lt_ge_cases i 8) as [Hlt|Hge].
  - rewrite Z.div_small, Z.mod_small by lia. cbn. rewrite <- (Z.mod_pow2_bits_low _ 8) by lia.
    change (2 ^ 8) with 256. rewrite Z.mul_comm, Z.mod_add, Z.mod_small by lia. done.
  - replace (i / 8) with ((i - 8) / 8 + 1) by dlia. replace (i mod 8) with ((i - 8) mod 8) by dlia.
    assert (0 ≤ (i - 8) / 8) by (apply Z.div_pos; lia).
    replace (Z.to_nat ((i - 8) / 8 + 1)) with (S (Z.to_nat ((i - 8) / 8))) by lia.
    rewrite lookup_cons_ne_0 by done. cbn [Nat.pred].
    rewrite <- IH by lia. replace i with ((i - 8) + 8) at 1 by lia.
    rewrite <- Z.shiftr_spec by lia. f_equal. rewrite Z.shiftr_div_pow2 by lia. change (2 ^ 8) with 256. dlia.
Qed.

Lemma message_bit_high m i : Z.of_nat (8 * length m) ≤ i → message_bit m i = false.
Proof.
  intros Hi. unfold message_bit. rewrite lookup_ge_None_2; [apply Z.testbit_0_l|]. dlia.
Qed.

Section Register.
Context (poly : Z) (Hpoly : 0 ≤ poly < 2 ^ 32).
Context (Htop : Z.testbit poly 31 = true).

Let reg (s : Z) : Prop := 0 ≤ s < 2 ^ 32.

Lemma reg_bits s : 0 ≤ s → (∀ i, 32 ≤ i → Z.testbit s i = false) → reg s.
Proof.
  intros Hs Hb. split; [done|].
  destruct (Z.lt_ge_cases s (2 ^ 32)) as [|Hge]; [done|exfalso].
  assert (0 < s) by lia.
  pose proof (Z.bit_log2 s ltac:(lia)) as Hlog.
  rewrite Hb in Hlog; [done|].
  apply Z.log2_le_pow2; lia.
Qed.

Lemma reg_high s i : reg s → 32 ≤ i → Z.testbit s i = false.
Proof.
  intros Hs Hi. rewrite <- (Z.mod_small s (2 ^ 32)) by done.
  by apply Z.mod_pow2_bits_high.
Qed.

Lemma reg_lxor a b : reg a → reg b → reg (Z.lxor a b).
Proof.
  intros Ha Hb. apply reg_bits.
  - apply Z.lxor_nonneg. unfold reg in *. lia.
  - intros i Hi. rewrite Z.lxor_spec, !reg_high; done.
Qed.

Lemma land_1_odd s : (Z.land s 1 =? 0) = negb (Z.odd s).
Proof.
  change 1 with (Z.ones 1). rewrite Z.land_ones by lia. change (2 ^ 1) with 2.
  rewrite Zmod_odd. by destruct (Z.odd s).
Qed.

Lemma crc_bit_odd s :
  crc_bit poly s = Z.lxor (Z.shiftr s 1) (if Z.odd s then poly else 0).
Proof.
  unfold crc_bit. rewrite land_1_odd.
  destruct (Z.odd s); simpl; [done|by rewrite Z.lxor_0_r].
Qed.

Lemma crc_bit_reg s : reg s → reg (crc_bit poly s).
Proof.
  intros Hs. rewrite crc_bit_odd. apply reg_lxor.
  - unfold reg in *. rewrite Z.shiftr_div_pow2 by lia. change (2 ^ 1) with 2. dlia.
  - destruct (Z.odd s); unfold reg; [done|lia].
Qed.

(** The register is a linear map over exclusive or. *)
Lemma crc_bit_lxor a b :
  crc_bit poly (Z.lxor a b) = Z.lxor (crc_bit poly a) (crc_bit poly b).
Proof.
  rewrite !crc_bit_odd, Z.shiftr_lxor.
  rewrite <- !Z.bit0_odd, Z.lxor_spec.
  destruct (Z.testbit a 0), (Z.testbit b 0); simpl;
    rewrite ?Z.lxor_0_r; apply Z.bits_inj'; intros i Hi;
    rewrite !Z.lxor_spec;
    destruct (Z.testbit poly i), (Z.testbit (Z.shiftr a 1) i),
      (Z.testbit (Z.shiftr b 1) i); done.
Qed.

Lemma crc_bit_even a : crc_bit poly (2 * a) = a.
Proof.
  rewrite crc_bit_odd, Z.odd_mul. simpl. rewrite Z.lxor_0_r.
  rewrite Z.shiftr_div_pow2 by lia. change (2 ^ 1) with 2. dlia.
Qed.

Lemma crc_bit_inj a b :
  reg a → reg b → crc_bit poly a = crc_bit poly b → a = b.
Proof.
  intros Ha Hb Heq.
  assert (Hodd : Z.odd a = Z.odd b).
  { apply (f_equal (λ z, Z.testbit z 31)) in Heq.
    rewrite !crc_bit_odd, !Z.lxor_spec, !Z.shiftr_spec in Heq by lia.
    change (31 + 1) with 32 in Heq. rewrite (reg_high a), (reg_high b) in Heq by (done || lia).
    rewrite !xorb_false_l in Heq.
    destruct (Z.odd a), (Z.odd b); cbv iota in Heq; rewrite ?Htop, ?Z.testbit_0_l in Heq; done. }
  rewrite !crc_bit_odd, Hodd in Heq.
  assert (Hs : Z.shiftr a 1 = Z.shiftr b 1).
  { apply (f_equal (λ z, Z.lxor z (if Z.odd b then poly else 0))) in Heq.
    by rewrite !Z.lxor_assoc, !Z.lxor_nilpotent, !Z.lxor_0_r in Heq. }
  rewrite (Z.div2_odd a), (Z.div2_odd b), Hodd.
  by rewrite !Z.div2_spec, Hs.
Qed.

Lemma iter_lxor n a b :
  Nat.iter n (crc_bit poly) (Z.lxor a b)
  = Z.lxor (Nat.iter n (crc_bit poly) a) (Nat.iter n (crc_bit poly) b).
Proof. induction n as [|n IH]; simpl; [done|]. by rewrite IH, crc_bit_lxor. Qed.

Lemma iter_reg n s : reg s → reg (Nat.iter n (crc_bit poly) s).
Proof. intros Hs. induction n; simpl; auto using crc_bit_reg. Qed.

Lemma iter_inj n a b :
  reg a → reg b →
  Nat.iter n (crc_bit poly) a = Nat.iter n (crc_bit poly) b → a = b.
Proof.
  intros Ha Hb. induction n as [|n IH]; simpl; [done|]. intros Heq.
  apply IH, crc_bit_inj; auto using iter_reg.
Qed.

Lemma iter_shift n a :
  Nat.iter n (crc_bit poly) (a * 2 ^ Z.of_nat n) = a.
Proof.
  revert a. induction n as [|n IH]; intros a; [simpl; lia|].
  rewrite Nat2Z.inj_succ, Z.pow_succ_r by lia.
  rewrite Nat.iter_succ_r.
  replace (a * (2 * 2 ^ Z.of_nat n)) with (2 * (a * 2 ^ Z.of_nat n)) by lia.
  by rewrite crc_bit_even, IH.
Qed.

Lemma byte_reg b : is_byte b → reg b.
Proof. unfold is_byte, reg. lia. Qed.

(** A byte and the bytes above it do not overlap. *)
Lemma byte_lxor_high b w : is_byte b → 0 ≤ w →
  b + 256 * w = Z.lxor b (w * 2 ^ 8).
Proof.
  intros Hb Hw. rewrite <- Z.shiftl_mul_pow2 by lia. rewrite Z.lxor_comm.
  rewrite <- Z.add_nocarry_lxor.
  { rewrite Z.shiftl_mul_pow2 by lia. lia. }
  apply Z.bits_inj'; intros i Hi. rewrite Z.land_spec, Z.testbit_0_l.
  destruct (Z.lt_ge_cases i 8).
  - by rewrite Z.shiftl_spec_low.
  - rewrite andb_comm, <- (Z.mod_small b (2 ^ 8)) by done.
    by rewrite Z.mod_pow2_bits_high by lia.
Qed.

(** The register after up to four bytes, as one shift of the whole word. *)
Lemma crc_loop_word bs s :
  Forall is_byte bs →
  crc_loop poly s bs (length bs)
  = Some (Nat.iter (8 * length bs) (crc_bit poly) (Z.lxor s (le_word bs))).
Proof.
  intros Hbs. revert s. induction Hbs as [|b bs Hb Hbs IH]; intros s.
  - simpl. by rewrite Z.lxor_0_r.
  - change (length (b :: bs)) with (S (length bs)). cbn [crc_loop].
    rewrite IH. f_equal. unfold crc_byte.
    replace (8 * S (length bs))%nat with (8 * length bs + 8)%nat by lia.
    rewrite Nat.iter_add. f_equal. cbn [le_word].
    pose proof (le_word_bound bs Hbs) as Hw.
    rewrite byte_lxor_high by (done || lia).
    change (2 ^ 8) with (2 ^ Z.of_nat 8).
    by rewrite <- Z.lxor_assoc, (iter_lxor 8 (Z.lxor s b)), (iter_shift 8).
Qed.

Lemma crc_loop_app bs1 bs2 s :
  crc_loop poly s (bs1 ++ bs2) (length (bs1 ++ bs2))
  = s' ← crc_loop poly s bs1 (length bs1);
    crc_loop poly s' bs2 (length bs2).
Proof.
  revert s. induction bs1 as [|b bs1 IH]; intros s; simpl; [done|apply IH].
Qed.

Lemma crc_loop_reg bs s : Forall is_byte bs → reg s →
  ∃ s', crc_loop poly s bs (length bs) = Some s' ∧ reg s'.
Proof.
  intros Hbs. revert s. induction Hbs as [|b bs Hb _ IH]; intros s Hs; simpl.
  - by exists s.
  - apply IH, iter_reg, reg_lxor; auto using byte_reg.
Qed.

Lemma crc_loop_state_inj bs s1 s2 : Forall is_byte bs → reg s1 → reg s2 →
  crc_loop poly s1 bs (length bs) = crc_loop poly s2 bs (length bs) → s1 = s2.
Proof.
  intros Hbs. revert s1 s2. induction Hbs as [|b bs Hb _ IH];
    intros s1 s2 H1 H2; cbn [crc_loop length]; [by intros [= ->]|].
  intros Heq%IH; try (apply iter_reg, reg_lxor; auto using byte_reg).
  apply iter_inj in Heq; try (apply reg_lxor; auto using byte_reg).
  apply (f_equal (λ z, Z.lxor z b)) in Heq.
  by rewrite !Z.lxor_assoc, !Z.lxor_nilpotent, !Z.lxor_0_r in Heq.
Qed.

Definition finish (s : Z) : Z := Z.land (Z.lnot s) 0xFFFFFFFF.

Lemma finish_lxor s : reg s → finish s = Z.lxor s 0xFFFFFFFF.
Proof.
  intros Hs. unfold finish. apply Z.bits_inj'; intros i Hi.
  rewrite Z.land_spec, Z.lnot_spec, Z.lxor_spec by done.
  change 0xFFFFFFFF with (Z.ones 32).
  destruct (Z.lt_ge_cases i 32).
  - rewrite Z.ones_spec_low by lia. by destruct (Z.testbit s i).
  - rewrite Z.ones_spec_high, reg_high by (done || lia). done.
Qed.

Lemma finish_inj s1 s2 : reg s1 → reg s2 → finish s1 = finish s2 → s1 = s2.
Proof.
  intros H1 H2. rewrite !finish_lxor by done. intros Heq.
  apply (f_equal (λ z, Z.lxor z 0xFFFFFFFF)) in Heq.
  by rewrite !Z.lxor_assoc, !Z.lxor_nilpotent, !Z.lxor_0_r in Heq.
Qed.

Definition checksum (msg : list Z) : option Z :=
  s ← crc_loop poly 0xFFFFFFFF msg (length msg); Some (finish s).

Lemma checksum_range msg : Forall is_byte msg →
  ∃ c, checksum msg = Some c ∧ 0 ≤ c < 2 ^ 32.
Proof.
  intros Hm. unfold checksum.
  destruct (crc_loop_reg msg 0xFFFFFFFF Hm ltac:(by unfold reg)) as (s & -> & Hs).
  eexists; split; [done|]. rewrite finish_lxor by done.
  by apply reg_lxor.
Qed.

(** Appending the checksum brings the register to a constant. *)
Lemma checksum_residue msg c : Forall is_byte msg →
  checksum msg = Some c →
  checksum (msg ++ le_bytes 4 c)
  = Some (finish (Nat.iter 32 (crc_bit poly) 0xFFFFFFFF)).
Proof.
  intros Hm. unfold checksum. rewrite crc_loop_app.
  destruct (crc_loop_reg msg 0xFFFFFFFF Hm ltac:(by unfold reg)) as (s & -> & Hs).
  cbn [mbind option_bind]. intros [= <-].
  rewrite crc_loop_word by apply le_bytes_byte.
  rewrite le_bytes_length, le_word_bytes.
  - rewrite finish_lxor by done.
    by rewrite <- Z.lxor_assoc, Z.lxor_nilpotent, Z.lxor_0_l.
  - rewrite finish_lxor by done. by apply reg_lxor.
Qed.

Lemma iter_zero n : Nat.iter n (crc_bit poly) 0 = 0.
Proof. rewrite <- (Z.lxor_nilpotent 0), iter_lxor. apply Z.lxor_nilpotent. Qed.

(** The checksums of two messages of the same length are equal when the register
    makes nothing of their difference. *)
Lemma checksum_difference x y :
  Forall is_byte x → Forall is_byte y → length x = length y → checksum x = checksum y →
  Nat.iter (8 * length x) (crc_bit poly) (Z.lxor (le_word x) (le_word y)) = 0.
Proof.
  intros Hx Hy Hlen. unfold checksum.
  destruct (crc_loop_reg x 0xFFFFFFFF Hx ltac:(by unfold reg)) as (sx & Ex & Hsx).
  destruct (crc_loop_reg y 0xFFFFFFFF Hy ltac:(by unfold reg)) as (sy & Ey & Hsy).
  rewrite Ex, Ey. cbn [mbind option_bind]. intros [= Heq%finish_inj]; [|done|done].
  rewrite crc_loop_word in Ex, Ey by done. injection Ex as Ex. injection Ey as Ey.
  rewrite iter_lxor in Ex, Ey. rewrite iter_lxor, <- (Z.lxor_nilpotent sx). rewrite Heq at 2. rewrite <- Ex, <- Ey, Hlen.
  set (a := Nat.iter _ _ 0xFFFFFFFF). rewrite (Z.lxor_comm a), Z.lxor_assoc, <- (Z.lxor_assoc a), Z.lxor_nilpotent.
  by rewrite Z.lxor_0_l.
Qed.

(** Two messages whose differences lie in a window of 32 bits have different
    checksums. *)
Lemma checksum_burst x y k :
  Forall is_byte x → Forall is_byte y → length x = length y → 0 ≤ k →
  (∀ i, 0 ≤ i → message_bit x i ≠ message_bit y i → k ≤ i < k + 32) →
  checksum x = checksum y → x = y.
Proof.
  intros Hx Hy Hlen Hk Hburst Hsum. pose proof (checksum_difference x y Hx Hy Hlen Hsum) as Hz.
  set (d := Z.lxor (le_word x) (le_word y)) in *.
  assert (Hbit : ∀ i, 0 ≤ i → Z.testbit d i = true → k ≤ i < k + 32).
  { intros i Hi Hd. apply Hburst; [done|]. intros E. unfold d in Hd.
    by rewrite Z.lxor_spec, !le_word_bit, E, xorb_nilpotent in Hd. }
  pose proof (le_word_bound x Hx) as Bx. pose proof (le_word_bound y Hy) as By.
  assert (Hd0 : 0 ≤ d) by (apply Z.lxor_nonneg; lia).
  assert (Hhigh : ∀ i, Z.of_nat (8 * length x) ≤ i → Z.testbit d i = false).
  { intros i Hi. unfold d. rewrite Z.lxor_spec, !le_word_bit by (done || lia).
    rewrite !message_bit_high by lia. done. }
  destruct (Z.eq_dec d 0) as [E|Hne].
  { apply le_word_inj; try done. apply (f_equal (λ z, Z.lxor z (le_word y))) in E. unfold d in E.
    by rewrite Z.lxor_assoc, Z.lxor_nilpotent, Z.lxor_0_r, Z.lxor_0_l in E. }
  exfalso. pose proof (Z.bit_log2 d ltac:(lia)) as Hlog. pose proof (Z.log2_nonneg d) as Hl0.
  destruct (Hbit _ Hl0 Hlog) as [Hkl _].
  assert (HkN : k < Z.of_nat (8 * length x)).
  { destruct (Z.lt_ge_cases k (Z.of_nat (8 * length x))); [done|]. rewrite Hhigh in Hlog by lia. done. }
  set (e := Z.shiftr d k). assert (Hde : d = e * 2 ^ Z.of_nat (Z.to_nat k)).
  { rewrite Z2Nat.id, <- Z.shiftl_mul_pow2 by lia. apply Z.bits_inj'. intros i Hi.
    destruct (Z.lt_ge_cases i k) as [Hlt|Hge].
    - rewrite Z.shiftl_spec_low by done. destruct (Z.testbit d i) eqn:Hb; [|done]. apply Hbit in Hb; lia.
    - unfold e. rewrite Z.shiftl_spec, Z.shiftr_spec by lia. f_equal. lia. }
  assert (He : reg e).
  { apply reg_bits; [by apply Z.shiftr_nonneg|]. intros i Hi. unfold e. rewrite Z.shiftr_spec by lia.
    destruct (Z.testbit d (i + k)) eqn:Hb; [|done]. apply Hbit in Hb; lia. }
  replace (8 * length x)%nat with ((8 * length x - Z.to_nat k) + Z.to_nat k)%nat in Hz by lia.
  rewrite Nat.iter_add, Hde, iter_shift in Hz.
  rewrite <- (iter_zero (8 * length x - Z.to_nat k)) in Hz. apply iter_inj in Hz; [|done|by unfold reg].
  rewrite Hz in Hde. lia.
Qed.
End Register.

(** A message followed by its own checksum, least significant byte
    first, has a checksum that does not depend on the message: the receiver's
    test.  It holds of both functions, with their own constants, and the
    functions never read outside of the message. *)
Theorem crc_residue (msg : list Z) (Hmsg : Forall is_byte msg) :
  (∃ c, crc32 msg (length msg) = Some c ∧ 0 ≤ c < 2 ^ 32 ∧
     crc32 (msg ++ le_bytes 4 c) (length msg + 4) = Some 0x2144DF1C) ∧
  (∃ c, crc32c msg (length msg) = Some c ∧ 0 ≤ c < 2 ^ 32 ∧
     crc32c (msg ++ le_bytes 4 c) (length msg + 4) = Some 0x48674BC7).
Proof.
  split.
  - destruct (checksum_range 0xEDB88320 ltac:(lia) msg Hmsg) as (c & Hc & Hr).
    exists c. split; [done|split; [done|]].
    pose proof (checksum_residue 0xEDB88320 ltac:(lia) msg c Hmsg Hc) as H.
    unfold checksum in H. by rewrite length_app, le_bytes_length in H.
  - destruct (checksum_range 0x82F63B78 ltac:(lia) msg Hmsg) as (c & Hc & Hr).
    exists c. split; [done|split; [done|]].
    pose proof (checksum_residue 0x82F63B78 ltac:(lia) msg c Hmsg Hc) as H.
    unfold checksum in H. by rewrite length_app, le_bytes_length in H.
Qed.

Lemma crc_residue_witness :
  Forall is_byte [0x44; 0x79] ∧
  ∃ c, crc32 [0x44; 0x79] 2 = Some c ∧ 0 ≤ c < 2 ^ 32 ∧
     crc32 ([0x44; 0x79] ++ le_bytes 4 c) 6 = Some 0x2144DF1C.
Proof.
  assert (H : Forall is_byte [0x44; 0x79])
    by (repeat constructor; unfold is_byte; lia).
  split; [exact H|]. exact (proj1 (crc_residue [0x44; 0x79] H)).
Defined.

(** (C40) Error detection: two different messages of the same length that differ only
    in a window of at most 32 bits, wherever it begins, have different checksums. *)
Theorem crc_detects_burst (x y : list Z) (k : Z)
    (Hx : Forall is_byte x) (Hy : Forall is_byte y) (Hlen : length x = length y) (Hk : 0 ≤ k)
    (Hburst : ∀ i, 0 ≤ i → message_bit x i ≠ message_bit y i → k ≤ i < k + 32) (Hne : x ≠ y) :
  crc32 x (length x) ≠ crc32 y (length y) ∧ crc32c x (length x) ≠ crc32c y (length y).
Proof.
  split; intros Heq; apply Hne.
  - by apply (checksum_burst 0xEDB88320 ltac:(lia) eq_refl x y k).
  - by apply (checksum_burst 0x82F63B78 ltac:(lia) eq_refl x y k).
Qed.

(** Bits 4 and 35 differ: the burst lies in five bytes. *)
Lemma crc_detects_burst_witness :
  message_bit [0x79; 0; 0; 0; 0x44] 4 ≠ message_bit [0x69; 0; 0; 0; 0x4C] 4 ∧
  message_bit [0x79; 0; 0; 0; 0x44] 35 ≠ message_bit [0x69; 0; 0; 0; 0x4C] 35 ∧
  crc32 [0x79; 0; 0; 0; 0x44] 5 ≠ crc32 [0x69; 0; 0; 0; 0x4C] 5.
Proof.
  split; [discriminate|]. split; [discriminate|].
  refine (proj1 (crc_detects_burst [0x79; 0; 0; 0; 0x44] [0x69; 0; 0; 0; 0x4C] 4 _ _ _ _ _ _));
    try (repeat constructor; unfold is_byte; lia); try reflexivity; try discriminate.
  intros i Hi Hd. destruct (Z.lt_ge_cases i 40) as [Hlt|Hge].
  - assert (H : all_below 40 (λ i, bool_decide (message_bit [0x79; 0; 0; 0; 0x44] i = message_bit [0x69; 0; 0; 0; 0x4C] i)
      || ((4 <=? i) && (i <? 36))) = true) by (vm_compute; reflexivity).
    pose proof (all_below_spec 40 _ H i (conj Hi Hlt)) as Hb. cbv beta in Hb.
    apply orb_true_iff in Hb as [Hb%bool_decide_eq_true|[Hb%Z.leb_le Hc%Z.ltb_lt]%andb_true_iff]; [by destruct Hd|lia].
  - destruct Hd. by rewrite !message_bit_high by (cbn; lia).
Defined.
