(* ===== verification/Utf8.v ===== *)
(** UTF-8: [utf8_decode] and [utf8_encode] of common/utf8.c.

    The decoder is a byte-driven state machine; its state word packs the bits
    collected so far, the length class of the sequence and the number of
    continuation bytes still expected: (bits << 4) | (class << 2) | left. *)

From S2P Require Import Prelude.

Definition UTF8_WAITING_NEXT : Z := -1.
Definition UTF8_ERROR_CONSUME : Z := -2.
Definition UTF8_ERROR_RETRY : Z := -3.

Definition utf8_table : list Z := [
  0; 0; 0; 0; 0; 0; 0; 0; 0; 0; 0; 0; 0; 0; 0; 0;
  1; 1; 1; 1; 1; 1; 1; 1; 2; 2; 2; 2; 3; 3; 4; -1].

Definition utf8_mask_table : list Z := [0x00; 0x1F; 0x0F; 0x07].

Definition utf8_overlong_table : list Z := [0x00; 0x80; 0x800; 0x10000].

(** [utf8_decode state c]: the new state and the returned value. *)
Definition utf8_decode (state c : Z) : option (Z * Z) :=
  if state =? 0 then
    if c <? 0x80 then Some (0, c)
    else
      offset ← utf8_table.[Z.shiftr c 3];
      if offset <=? 1 then Some (0, UTF8_ERROR_CONSUME)
      else
        let offset := offset - 1 in
        mask ← utf8_mask_table.[offset];
        let val := Z.land c mask in
        Some (Z.lor (Z.lor (Z.shiftl val 4) (Z.shiftl offset 2)) offset,
              UTF8_WAITING_NEXT)
  else
    let val := state in
    offset ← utf8_table.[Z.shiftr c 3];
    if negb (offset =? 1) then Some (0, UTF8_ERROR_RETRY)
    else
      let offset := Z.land val 0x0F in
      let val := Z.lor (Z.shiftl (Z.land val 0x7FFF0) 2) (Z.land c 0x3F) in
      if Z.land offset 0x03 >? 1 then
        Some (Z.lor (Z.shiftl val 4) (offset - 1), UTF8_WAITING_NEXT)
      else
        least ← utf8_overlong_table.[Z.shiftr offset 2];
        if val <? least then Some (0, UTF8_ERROR_CONSUME)
        else if ((val >=? 0xD800) && (val <=? 0xDFFF)) || (val >? 0x10FFFF)
        then Some (0, UTF8_ERROR_CONSUME)
        else Some (0, val).

(** [utf8_encode unicode out]: the number of bytes and the buffer after the
    stores. *)
Definition utf8_encode (unicode : Z) (out : list Z) : option (Z * list Z) :=
  if unicode <=? 0x7F then
    out ← out.[0 <- u8 unicode];
    Some (1, out)
  else if unicode <=? 0x07FF then
    out ← out.[0 <- u8 (0xC0 + Z.shiftr unicode 6)];
    out ← out.[1 <- u8 (0x80 + Z.land unicode 0x3F)];
    Some (2, out)
  else if (unicode >=? 0xD800) && (unicode <=? 0xDFFF) then Some (0, out)
  else if unicode <=? 0xFFFF then
    out ← out.[0 <- u8 (0xE0 + Z.shiftr unicode 12)];
    out ← out.[1 <- u8 (0x80 + Z.land (Z.shiftr unicode 6) 0x3F)];
    out ← out.[2 <- u8 (0x80 + Z.land unicode 0x3F)];
    Some (3, out)
  else if unicode <=? 0x10FFFF then
    out ← out.[0 <- u8 (0xF0 + Z.shiftr unicode 18)];
    out ← out.[1 <- u8 (0x80 + Z.land (Z.shiftr unicode 12) 0x3F)];
    out ← out.[2 <- u8 (0x80 + Z.land (Z.shiftr unicode 6) 0x3F)];
    out ← out.[3 <- u8 (0x80 + Z.land unicode 0x3F)];
    Some (4, out)
  else Some (0, out).

(** ** The specification: the Unicode scalar values and their encoding form *)

Definition scalar (u : Z) : Prop :=
  0 ≤ u < 0xD800 ∨ 0xDFFF < u ≤ 0x10FFFF.

(** The well-formed byte sequence of a scalar value. *)
Definition encoding (u : Z) : list Z :=
  if u <? 0x80 then [u]
  else if u <? 0x800 then [0xC0 + u / 64; 0x80 + u mod 64]
  else if u <? 0x10000 then
    [0xE0 + u / 4096; 0x80 + u / 64 mod 64; 0x80 + u mod 64]
  else [0xF0 + u / 262144; 0x80 + u / 4096 mod 64; 0x80 + u / 64 mod 64;
        0x80 + u mod 64].

(** The answers of the machine fed with a sequence of bytes, from [state]. *)
Fixpoint feed (state : Z) (bs : list Z) : option (Z * list Z) :=
  match bs with
  | [] => Some (state, [])
  | b :: bs' =>
      '(state', r) ← utf8_decode state b;
      '(final, rs) ← feed state' bs';
      Some (final, r :: rs)
  end.

(** A run that consumes the whole sequence to produce one value. *)
Definition decodes (bs : list Z) (v : Z) : Prop :=
  feed 0 bs
  = Some (0, replicate (length bs - 1) UTF8_WAITING_NEXT ++ [v]) ∧ bs ≠ [].

(** ** The state word as arithmetic *)

Definition pack (bits class left : Z) : Z := bits * 16 + class * 4 + left.

Lemma pack_lor val k :
  0 ≤ val → 0 ≤ k < 4 →
  Z.lor (Z.lor (Z.shiftl val 4) (Z.shiftl k 2)) k = pack val k k.
Proof.
  intros Hv Hk. rewrite <- Z.lor_assoc, (lor_shiftl_add k k 2) by lia.
  change (2 ^ 2) with 4. rewrite lor_shiftl_add by lia.
  unfold pack. lia.
Qed.

Lemma pack_low bits class left :
  0 ≤ bits → 0 ≤ class < 4 → 0 ≤ left < 4 →
  Z.land (pack bits class left) 0x0F = class * 4 + left.
Proof.
  intros. change 0x0F with (2 ^ 4 - 1). rewrite land_ones_mod by lia.
  unfold pack. change (2 ^ 4) with 16. dlia.
Qed.

Lemma pack_high bits class left :
  0 ≤ bits < 2 ^ 15 → 0 ≤ class < 4 → 0 ≤ left < 4 →
  Z.land (pack bits class left) 0x7FFF0 = bits * 16.
Proof.
  intros. change 0x7FFF0 with (Z.ldiff (2 ^ 19 - 1) (2 ^ 4 - 1)).
  assert (E : pack bits class left = Z.lor (Z.shiftl bits 4) (class * 4 + left)).
  { rewrite lor_shiftl_add by lia. unfold pack. lia. }
  rewrite E. replace (bits * 16) with (Z.shiftl bits 4)
    by (rewrite Z.shiftl_mul_pow2 by lia; lia).
  change (2 ^ 19 - 1) with (Z.ones 19). change (2 ^ 4 - 1) with (Z.ones 4).
  apply Z.bits_inj'; intros i Hi.
  rewrite Z.land_spec, Z.lor_spec, Z.ldiff_spec.
  destruct (Z.lt_ge_cases i 4).
  - rewrite Z.shiftl_spec_low, (Z.ones_spec_low 4) by lia.
    simpl. by rewrite !andb_false_r.
  - rewrite (Z.ones_spec_high 4) by lia.
    rewrite <- (Z.mod_small (class * 4 + left) (2 ^ 4)) by lia.
    rewrite Z.mod_pow2_bits_high by lia. rewrite orb_false_r, andb_true_r.
    destruct (Z.lt_ge_cases i 19).
    + by rewrite Z.ones_spec_low, andb_true_r by lia.
    + rewrite Z.shiftl_spec by lia.
      rewrite <- (Z.mod_small bits (2 ^ 15)) by done.
      by rewrite Z.mod_pow2_bits_high by lia.
Qed.

Lemma cont_bits bits c :
  0 ≤ bits → Z.lor (Z.shiftl (bits * 16) 2) (Z.land c 0x3F) = bits * 64 + c mod 64.
Proof.
  intros. change 0x3F with (2 ^ 6 - 1). rewrite land_ones_mod by lia.
  change (2 ^ 6) with 64.
  replace (Z.shiftl (bits * 16) 2) with (Z.shiftl bits 6)
    by (rewrite !Z.shiftl_mul_pow2 by lia; lia).
  rewrite lor_shiftl_add by (pose proof (Z.mod_pos_bound c 64); lia). lia.
Qed.

(** ** The transitions *)

(** The lead byte, as a table over all 256 values. *)
Lemma decode_lead c : is_byte c →
  utf8_decode 0 c = Some (
    if c <? 0x80 then (0, c)
    else if c <? 0xC0 then (0, UTF8_ERROR_CONSUME)
    else if c <? 0xE0 then (pack (c - 0xC0) 1 1, UTF8_WAITING_NEXT)
    else if c <? 0xF0 then (pack (c - 0xE0) 2 2, UTF8_WAITING_NEXT)
    else if c <? 0xF8 then (pack (c - 0xF0) 3 3, UTF8_WAITING_NEXT)
    else (0, UTF8_ERROR_CONSUME)).
Proof.
  intros Hc. by_byte_table c Hc.
Qed.

(** Which bytes continue a sequence. *)
Lemma cont_class c : is_byte c →
  utf8_table.[Z.shiftr c 3] = Some (
    if c <? 0x80 then 0 else if c <? 0xC0 then 1
    else if c <? 0xE0 then 2 else if c <? 0xF0 then 3
    else if c <? 0xF8 then 4 else -1).
Proof.
  intros Hc. by_byte_table c Hc.
Qed.

Definition overlong (class : Z) : Z :=
  if class =? 1 then 0x80 else if class =? 2 then 0x800 else 0x10000.

Lemma decode_cont bits class left c :
  is_byte c → 0 ≤ bits < 2 ^ 15 → 1 ≤ class ≤ 3 → 1 ≤ left ≤ 3 →
  utf8_decode (pack bits class left) c = Some (
    let v := bits * 64 + c mod 64 in
    if (c <? 0x80) || (0xC0 <=? c) then (0, UTF8_ERROR_RETRY)
    else if 1 <? left then (pack v class (left - 1), UTF8_WAITING_NEXT)
    else if v <? overlong class then (0, UTF8_ERROR_CONSUME)
    else if ((0xD800 <=? v) && (v <=? 0xDFFF)) || (0x10FFFF <? v)
    then (0, UTF8_ERROR_CONSUME)
    else (0, v)).
Proof.
  intros Hc Hb Hk Hl. unfold utf8_decode.
  rewrite (proj2 (Z.eqb_neq (pack bits class left) 0)) by (unfold pack; lia).
  rewrite cont_class by done. cbn [mbind option_bind].
  rewrite pack_low, pack_high, cont_bits by lia.
  change 0x03 with (2 ^ 2 - 1). rewrite land_ones_mod by lia. change (2 ^ 2) with 4.
  replace ((class * 4 + left) mod 4) with left by dlia.
  replace (Z.shiftr (class * 4 + left) 2) with class
    by (rewrite Z.shiftr_div_pow2 by lia; change (2 ^ 2) with 4; dlia).
  assert (Hov : utf8_overlong_table.[class] = Some (overlong class)).
  { assert (class = 1 ∨ class = 2 ∨ class = 3) as [-> | [-> | ->]] by lia; done. }
  rewrite Hov. cbn [mbind option_bind].
  set (v := bits * 64 + c mod 64).
  rewrite !Z.geb_leb, !Z.gtb_ltb.
  replace (Z.lor (Z.shiftl v 4) (class * 4 + left - 1))
    with (pack v class (left - 1))
    by (rewrite lor_shiftl_add by lia; unfold pack; lia).
  destruct (Z.ltb_spec c 0x80); [done|].
  destruct (Z.ltb_spec c 0xC0), (Z.leb_spec 0xC0 c); try lia; simpl.
  - destruct (1 <? left), (v <? overlong class),
      ((0xD800 <=? v) && (v <=? 0xDFFF) || (0x10FFFF <? v)); done.
  - by destruct (c <? 0xE0), (c <? 0xF0), (c <? 0xF8).
Qed.

(** ** The state invariant *)

Definition bits_bound (class left : Z) : Z :=
  (2 ^ (6 - class)) * 2 ^ (6 * (class - left)).

Definition wf_state (s : Z) : Prop :=
  s = 0 ∨ ∃ bits class left,
    s = pack bits class left ∧ 1 ≤ left ≤ class ∧ class ≤ 3 ∧
    0 ≤ bits < bits_bound class left.

Lemma wf_cases bits class left :
  1 ≤ left ≤ class → class ≤ 3 → 0 ≤ bits < bits_bound class left →
  (class = 1 ∧ left = 1 ∧ bits < 2 ^ 5) ∨
  (class = 2 ∧ left = 2 ∧ bits < 2 ^ 4) ∨ (class = 2 ∧ left = 1 ∧ bits < 2 ^ 10) ∨
  (class = 3 ∧ left = 3 ∧ bits < 2 ^ 3) ∨ (class = 3 ∧ left = 2 ∧ bits < 2 ^ 9) ∨
  (class = 3 ∧ left = 1 ∧ bits < 2 ^ 15).
Proof.
  intros Hl Hk Hb.
  assert (class = 1 ∨ class = 2 ∨ class = 3) as [-> | [-> | ->]] by lia;
  assert (left = 1 ∨ left = 2 ∨ left = 3) as [-> | [-> | ->]] by lia;
  try lia; unfold bits_bound in Hb; simpl in Hb; lia.
Qed.

Lemma wf_pack bits class left :
  1 ≤ left ≤ class → class ≤ 3 → 0 ≤ bits < bits_bound class left →
  wf_state (pack bits class left).
Proof. intros. right. by exists bits, class, left. Qed.

(** Every byte, in every state the machine reaches from 0, gives a
    defined step into such a state: no table is read out of bounds.  The
    machine is back in its initial state unless it answers
    UTF8_WAITING_NEXT, it asks to retry a byte only when that makes progress
    (the state was not initial), and a value it answers is a Unicode scalar
    value. *)
Theorem utf8_decode_invariant (s c : Z) (Hs : wf_state s) (Hc : is_byte c) :
  ∃ s' r, utf8_decode s c = Some (s', r) ∧ wf_state s' ∧
    (r = UTF8_WAITING_NEXT ↔ s' ≠ 0) ∧
    (r = UTF8_ERROR_RETRY → s ≠ 0) ∧
    (r = UTF8_WAITING_NEXT ∨ r = UTF8_ERROR_CONSUME ∨ r = UTF8_ERROR_RETRY
     ∨ scalar r).
Proof.
  unfold UTF8_WAITING_NEXT, UTF8_ERROR_CONSUME, UTF8_ERROR_RETRY, scalar.
  unfold is_byte in Hc.
  assert (H0 : wf_state 0) by by left.
  destruct Hs as [-> | (bits & class & left & -> & Hl & Hk & Hb)].
  - rewrite decode_lead by done.
    repeat (case_match; [eexists _, _; split; [done|]|]);
      try (eexists _, _; split; [done|]);
      rewrite ?Z.ltb_lt, ?Z.ltb_ge in *;
      unfold UTF8_WAITING_NEXT, UTF8_ERROR_CONSUME in *;
      (split; [first [done | apply wf_pack; unfold bits_bound; simpl; lia]|]);
      unfold pack; lia.
  - pose proof (wf_cases _ _ _ Hl Hk Hb) as Hcases.
    rewrite decode_cont by (unfold is_byte; lia). cbv zeta.
    unfold UTF8_WAITING_NEXT, UTF8_ERROR_CONSUME, UTF8_ERROR_RETRY.
    set (v := bits * 64 + c mod 64).
    assert (Hv : 0 ≤ v < 64 * bits_bound class left)
      by (unfold v; pose proof (Z.mod_pos_bound c 64); lia).
    repeat (case_match; [eexists _, _; split; [done|]|]);
      try (eexists _, _; split; [done|]);
      rewrite ?Z.ltb_lt, ?Z.ltb_ge in *;
      try (split; [done|]; unfold pack; lia).
    split; [|unfold pack; lia]. apply wf_pack; [lia|lia|]. split; [lia|].
    destruct Hcases as [(-> & -> & _)|[(-> & -> & _)|[(-> & -> & _)|[(-> & -> & _)|
      [(-> & -> & _)|(-> & -> & _)]]]]]; unfold bits_bound in *; simpl in *; lia.
Qed.

Lemma utf8_decode_invariant_witness :
  wf_state (pack 2 2 2) ∧ ∃ s' r, utf8_decode (pack 2 2 2) 0x82 = Some (s', r).
Proof.
  assert (H : wf_state (pack 2 2 2)) by (apply wf_pack; unfold bits_bound; simpl; lia).
  split; [exact H|].
  destruct (utf8_decode_invariant (pack 2 2 2) 0x82 H) as (s' & r & Hd & _);
    [unfold is_byte; lia|].
  exists s', r. exact Hd.
Defined.

(** ** Encoding and decoding *)

Lemma cont_byte x : is_byte (0x80 + x mod 64).
Proof. unfold is_byte. dlia. Qed.

(** A continuation byte in the middle of a sequence, and at its end. *)
Lemma feed_middle bits class left x bs :
  0 ≤ bits < 2 ^ 15 → 1 ≤ class ≤ 3 → 2 ≤ left ≤ 3 → 
  feed (pack bits class left) (0x80 + x mod 64 :: bs)
  = '(final, rs) ← feed (pack (bits * 64 + x mod 64) class (left - 1)) bs;
    Some (final, UTF8_WAITING_NEXT :: rs).
Proof.
  intros. cbn [feed]. rewrite decode_cont by (apply cont_byte || lia).
  cbv zeta. replace ((0x80 + x mod 64) mod 64) with (x mod 64) by dlia.
  rewrite (proj2 (Z.ltb_ge (128 + x mod 64) 128)) by dlia.
  rewrite (proj2 (Z.leb_gt 192 (128 + x mod 64))) by dlia.
  by rewrite (proj2 (Z.ltb_lt 1 left)) by lia.
Qed.

Lemma feed_end bits class x :
  0 ≤ bits < 2 ^ 15 → 1 ≤ class ≤ 3 →
  overlong class ≤ bits * 64 + x mod 64 → scalar (bits * 64 + x mod 64) →
  feed (pack bits class 1) [0x80 + x mod 64]
  = Some (0, [bits * 64 + x mod 64]).
Proof.
  intros ? ? Ho Hs. cbn [feed]. rewrite decode_cont by (apply cont_byte || lia).
  cbv zeta. replace ((0x80 + x mod 64) mod 64) with (x mod 64) by dlia.
  set (v := bits * 64 + x mod 64) in *. unfold scalar in Hs.
  rewrite (proj2 (Z.ltb_ge (128 + x mod 64) 128)) by dlia.
  rewrite (proj2 (Z.leb_gt 192 (128 + x mod 64))) by dlia.
  rewrite (proj2 (Z.ltb_ge v _)) by lia. cbn.
  destruct (Z.leb_spec 0xD800 v), (Z.leb_spec v 0xDFFF),
    (Z.ltb_spec 0x10FFFF v); simpl; try done; lia.
Qed.

Definition lead_base (class : Z) : Z :=
  if class =? 1 then 0xC0 else if class =? 2 then 0xE0 else 0xF0.

Lemma feed_lead class x bs :
  1 ≤ class ≤ 3 → 0 ≤ x < 2 ^ (6 - class) →
  feed 0 (lead_base class + x :: bs)
  = '(final, rs) ← feed (pack x class class) bs;
    Some (final, UTF8_WAITING_NEXT :: rs).
Proof.
  intros Hk Hx.
  assert (class = 1 ∨ class = 2 ∨ class = 3) as [-> | [-> | ->]] by lia;
    cbn in Hx; cbn [feed lead_base Z.eqb Pos.eqb];
    rewrite decode_lead by (unfold is_byte; lia); repeat (case_match; try lia);
    cbn [mbind option_bind]; by rewrite Z.add_simpl_l.
Qed.

Lemma feed_encoding u : scalar u → decodes (encoding u) u.
Proof.
  intros Hu. assert (Hr : 0 ≤ u ≤ 0x10FFFF) by (unfold scalar in Hu; lia).
  unfold decodes, encoding.
  destruct (Z.ltb_spec u 0x80); [|destruct (Z.ltb_spec u 0x800);
    [|destruct (Z.ltb_spec u 0x10000)]]; (split; [|done]).
  - cbn [feed]. rewrite decode_lead by (unfold is_byte; lia).
    by rewrite (proj2 (Z.ltb_lt u _)) by lia.
  - rewrite (feed_lead 1) by (cbn; dlia).
    rewrite feed_end; replace (u / 64 * 64 + u mod 64) with u by dlia;
      [done|dlia|lia|unfold overlong; simpl; lia|done].
  - rewrite (feed_lead 2) by (cbn; dlia). rewrite feed_middle by dlia.
    replace (u / 4096 * 64 + (u / 64) mod 64) with (u / 64) by dlia.
    change (2 - 1) with 1.
    rewrite feed_end; replace (u / 64 * 64 + u mod 64) with u by dlia;
      [done|dlia|lia|unfold overlong; simpl; lia|done].
  - rewrite (feed_lead 3) by (cbn; dlia). rewrite !feed_middle by dlia.
    replace (u / 262144 * 64 + (u / 4096) mod 64) with (u / 4096) by dlia.
    replace (u / 4096 * 64 + (u / 64) mod 64) with (u / 64) by dlia.
    change (3 - 1 - 1) with 1.
    rewrite feed_end; replace (u / 64 * 64 + u mod 64) with u by dlia;
      [done|dlia|lia|unfold overlong; simpl; lia|done].
Qed.

(** What a continuation byte must be for the run to go on to a value. *)
Lemma run_cont bits class left c bs v :
  is_byte c → 0 ≤ bits < 2 ^ 15 → 1 ≤ class ≤ 3 → 1 ≤ left ≤ 3 → 0 ≤ v →
  feed (pack bits class left) (c :: bs)
  = Some (0, replicate (length bs) UTF8_WAITING_NEXT ++ [v]) →
  ∃ x, c = 0x80 + x ∧ 0 ≤ x < 64 ∧
    (left = 1 ∧ bs = [] ∧ v = bits * 64 + x ∧ overlong class ≤ v ∧ scalar v ∨
     1 < left ∧ bs ≠ [] ∧
     feed (pack (bits * 64 + x) class (left - 1)) bs
     = Some (0, replicate (length bs - 1) UTF8_WAITING_NEXT ++ [v])).
Proof.
  intros Hc Hb Hk Hl Hv. cbn [feed]. rewrite decode_cont by done. cbv zeta.
  unfold is_byte in Hc. set (w := bits * 64 + c mod 64).
  assert (Hfirst : ∀ r s', r ≠ v → r ≠ UTF8_WAITING_NEXT →
    ('(final, rs) ← feed s' bs; Some (final, r :: rs))
    ≠ Some (0, replicate (length bs) UTF8_WAITING_NEXT ++ [v])).
  { intros r s' Hr1 Hr2 Heq. destruct (feed s' bs) as [[f rs]|]; [|done].
    cbn in Heq. injection Heq as _ Heq.
    destruct bs; simpl in Heq; injection Heq; done. }
  destruct (Z.ltb_spec c 0x80); simpl (_ || _).
  { intros []%Hfirst; unfold UTF8_ERROR_RETRY, UTF8_WAITING_NEXT; lia. }
  destruct (Z.leb_spec 0xC0 c); simpl (_ || _).
  { intros []%Hfirst; unfold UTF8_ERROR_RETRY, UTF8_WAITING_NEXT; lia. }
  intros Hrun. exists (c - 0x80). split; [lia|split; [lia|]].
  replace (bits * 64 + (c - 0x80)) with w by (unfold w; dlia).
  destruct (Z.ltb_spec 1 left).
  - right. split; [lia|].
    cbn [mbind option_bind] in Hrun.
    destruct bs as [|b bs].
    { simpl in Hrun. injection Hrun as Hp _. unfold pack in Hp. unfold w in Hp. dlia. }
    split; [done|].
    destruct (feed (pack w class (left - 1)) (b :: bs)) as [[f rs]|]; [|done].
    simpl in Hrun. injection Hrun as -> ->. simpl. by rewrite Nat.sub_0_r.
  - left.
    destruct (Z.ltb_spec w (overlong class)).
    { exfalso. revert Hrun. apply Hfirst; unfold UTF8_ERROR_CONSUME, UTF8_WAITING_NEXT; lia. }
    destruct ((0xD800 <=? w) && (w <=? 0xDFFF) || (0x10FFFF <? w)) eqn:Hsc.
    { exfalso. revert Hrun. apply Hfirst; unfold UTF8_ERROR_CONSUME, UTF8_WAITING_NEXT; lia. }
    assert (0 ≤ w) by (unfold w; dlia).
    destruct (decide (w = v)) as [<-|Hne].
    2:{ exfalso. revert Hrun. apply Hfirst; [done|unfold UTF8_WAITING_NEXT; lia]. }
    destruct bs as [|b bs].
    + split; [lia|]. split; [done|]. split; [done|]. split; [done|].
      unfold scalar. lia.
    + exfalso. cbn [mbind option_bind] in Hrun.
      destruct (feed 0 (b :: bs)) as [[f rs]|]; [|done]. simpl in Hrun.
      injection Hrun as _ Hw. unfold UTF8_WAITING_NEXT in Hw. lia.
Qed.

(** The whole tail of a run that produces a value. *)
Lemma run_conts (n : nat) bits class bs v :
  Forall is_byte bs → bs ≠ [] → 0 ≤ bits < 2 ^ (21 - 6 * Z.of_nat n) →
  1 ≤ class ≤ 3 → (1 ≤ n ≤ 3)%nat → 0 ≤ v →
  feed (pack bits class (Z.of_nat n)) bs
  = Some (0, replicate (length bs - 1) UTF8_WAITING_NEXT ++ [v]) →
  ∃ xs, length xs = n ∧ Forall (λ x, 0 ≤ x < 64) xs ∧
    bs = Z.add 0x80 <$> xs ∧ v = foldl (λ b x, b * 64 + x) bits xs ∧
    overlong class ≤ v ∧ scalar v.
Proof.
  revert bits bs. induction n as [|n IH]; intros bits bs Hbs Hne Hb Hk Hn Hv Hrun;
    [lia|].
  destruct Hbs as [|c bs Hc Hbs]; [done|].
  cbn [length] in Hrun. rewrite Nat.sub_1_r in Hrun. simpl (pred _) in Hrun.
  assert (2 ^ (21 - 6 * Z.of_nat (S n)) ≤ 2 ^ 15) by (apply Z.pow_le_mono_r; lia).
  apply run_cont in Hrun; [|done|lia|lia|lia|lia].
  destruct Hrun as (x & -> & Hx & [(Hl & -> & -> & Ho & Hs)|(Hl & Hn2 & Hrun)]).
  - assert (n = 0%nat) as -> by lia. exists [x].
    split; [done|split; [by constructor|done]].
  - replace (Z.of_nat (S n) - 1) with (Z.of_nat n) in Hrun by lia.
    apply IH in Hrun; [|done|done| |lia|lia|lia].
    + destruct Hrun as (xs & Hlen & Hxs & -> & -> & Ho & Hs). exists (x :: xs).
      split; [simpl; lia|]. split; [by constructor|done].
    + replace (21 - 6 * Z.of_nat n) with (21 - 6 * Z.of_nat (S n) + 6) by lia.
      rewrite Z.pow_add_r by lia. lia.
Qed.

(** The first byte of a run that needs more than one. *)
Lemma run_lead c c1 bs v :
  is_byte c → 0 ≤ v →
  feed 0 (c :: c1 :: bs)
  = Some (0, replicate (S (length bs)) UTF8_WAITING_NEXT ++ [v]) →
  ∃ class x, 1 ≤ class ≤ 3 ∧ 0 ≤ x < 2 ^ (6 - class) ∧ c = lead_base class + x ∧
    feed (pack x class class) (c1 :: bs)
    = Some (0, replicate (length bs) UTF8_WAITING_NEXT ++ [v]).
Proof.
  intros Hc Hv Hrun. unfold is_byte in Hc.
  assert (Hshape : ∃ class x, 1 ≤ class ≤ 3 ∧ 0 ≤ x < 2 ^ (6 - class) ∧
    c = lead_base class + x).
  { unfold lead_base. destruct (Z.ltb_spec c 0xC0).
    2: destruct (Z.ltb_spec c 0xE0); [by exists 1, (c - 0xC0); simpl; lia|].
    2: destruct (Z.ltb_spec c 0xF0); [by exists 2, (c - 0xE0); simpl; lia|].
    2: destruct (Z.ltb_spec c 0xF8); [by exists 3, (c - 0xF0); simpl; lia|].
    all: exfalso; cbn [feed] in Hrun; rewrite decode_lead in Hrun by done;
      repeat (case_match; try lia); cbn [mbind option_bind] in Hrun;
      destruct (utf8_decode 0 c1) as [[s1 r1]|]; try done; simpl in Hrun;
      destruct (feed s1 bs) as [[f rs]|]; try done; simpl in Hrun;
      injection Hrun as _ Hw; unfold UTF8_ERROR_CONSUME, UTF8_WAITING_NEXT in Hw;
      lia. }
  destruct Hshape as (class & x & Hk & Hx & ->). exists class, x.
  split; [done|split; [done|split; [done|]]].
  rewrite feed_lead in Hrun by done.
  destruct (feed (pack x class class) (c1 :: bs)) as [[f rs]|]; [|done].
  simpl in Hrun. by injection Hrun as -> ->.
Qed.

Lemma decodes_sound bs v :
  Forall is_byte bs → 0 ≤ v → decodes bs v → scalar v ∧ bs = encoding v.
Proof.
  intros Hbs Hv [Hrun Hne].
  destruct Hbs as [|c bs Hc Hbs]; [done|]. clear Hne.
  cbn [length] in Hrun. rewrite Nat.sub_1_r in Hrun. simpl (pred _) in Hrun.
  destruct bs as [|c1 bs].
  { unfold is_byte in Hc.
    cbn [feed] in Hrun. rewrite decode_lead in Hrun by done.
    unfold UTF8_ERROR_CONSUME, UTF8_WAITING_NEXT, pack in Hrun.
    repeat (case_match; simplify_eq/=; try lia).
    split; [unfold scalar; lia|]. unfold encoding.
    by rewrite (proj2 (Z.ltb_lt v _)) by lia. }
  apply run_lead in Hrun; [|done|done].
  destruct Hrun as (class & x & Hk & Hx & -> & Hrest).
  replace class with (Z.of_nat (Z.to_nat class)) in Hrest at 2 by lia.
  replace (length bs) with (length (c1 :: bs) - 1)%nat in Hrest by (simpl; lia).
  apply run_conts in Hrest; [|done|done| |lia|lia|lia].
  2:{ assert (2 ^ (6 - class) ≤ 2 ^ (21 - 6 * Z.of_nat (Z.to_nat class)))
        by (apply Z.pow_le_mono_r; lia). lia. }
  destruct Hrest as (xs & Hlen & Hxs & -> & Hval & Ho & Hs).
  split; [done|]. unfold encoding, overlong in *.
  assert (class = 1 ∨ class = 2 ∨ class = 3) as [-> | [-> | ->]] by lia;
    simpl in Ho, Hx; destruct xs as [|x1 [|x2 [|x3 [|]]]]; simpl in Hlen; try lia;
    decompose_bytes; simpl in Hval; unfold lead_base;
    rewrite ?(proj2 (Z.ltb_ge v _)) by lia;
    rewrite ?(proj2 (Z.ltb_lt v _)) by lia; simpl; list_dlia.
Qed.

(** ** The theorems *)

(** [utf8_encode] writes the well-formed sequence of every scalar value
    into the first bytes of [out] and leaves the rest alone, writes nothing
    and answers 0 for every other value of its argument, and the decoder
    reads the sequence back. *)
Theorem utf8_encode_decode (u : Z) (out : list Z)
    (Hu : 0 ≤ u < 2 ^ 32) (Hout : (4 ≤ length out)%nat) :
  (scalar u →
   ∃ n, utf8_encode u out = Some (Z.of_nat n, encoding u ++ drop n out) ∧
     n = length (encoding u) ∧ (1 ≤ n ≤ 4)%nat ∧
     Forall is_byte (encoding u) ∧ decodes (encoding u) u) ∧
  (¬ scalar u → utf8_encode u out = Some (0, out)).
Proof.
  destruct out as [|o0 [|o1 [|o2 [|o3 out]]]]; simpl in Hout; try lia.
  assert (Hmask : ∀ z, Z.land z 0x3F = z mod 64)
    by (intros z; change 0x3F with (2 ^ 6 - 1); apply land_ones_mod; lia).
  unfold scalar; split.
  - intros Hs. pose proof (feed_encoding u Hs) as Hdec. revert Hdec.
    unfold encoding, utf8_encode. rewrite !Z.geb_leb.
    rewrite !Hmask, !Z.shiftr_div_pow2 by lia.
    change (2 ^ 6) with 64; change (2 ^ 12) with 4096; change (2 ^ 18) with 262144.
    destruct (Z.leb_spec u 0x7F), (Z.ltb_spec u 0x80); try lia;
    [exists 1%nat|destruct (Z.leb_spec u 0x7FF), (Z.ltb_spec u 0x800); try lia;
    [exists 2%nat|rewrite (proj2 (andb_false_iff _ _)) by lia;
    destruct (Z.leb_spec u 0xFFFF), (Z.ltb_spec u 0x10000); try lia;
    [exists 3%nat|exists 4%nat; rewrite (proj2 (Z.leb_le u 0x10FFFF)) by lia]]];
    (split; [repeat store;
      rewrite !wrap_small by dlia; reflexivity|]);
    (split; [reflexivity|]); (split; [simpl; lia|]);
    (split; [|done]); repeat constructor; unfold is_byte; dlia.
  - intros Hs. unfold utf8_encode. rewrite !Z.geb_leb.
    rewrite !(proj2 (Z.leb_gt u _)) by lia.
    destruct (Z.leb_spec 0xD800 u), (Z.leb_spec u 0xDFFF),
      (Z.leb_spec u 0xFFFF), (Z.leb_spec u 0x10FFFF); simpl; try done; lia.
Qed.

Lemma utf8_encode_decode_witness :
  ∃ n, utf8_encode 0x20AC [0; 0; 0; 0; 7]
       = Some (Z.of_nat n, encoding 0x20AC ++ drop n [0; 0; 0; 0; 7]) ∧ n = 3%nat.
Proof.
  destruct (utf8_encode_decode 0x20AC [0; 0; 0; 0; 7]) as [H _]; [lia|simpl; lia|].
  destruct H as (n & Hn & Hlen & _); [unfold scalar; lia|].
  exists n. split; [exact Hn|exact Hlen].
Defined.

(** The decoder accepts no other sequence: bytes that take it from its
    initial state to a value are the encoding of that value.  So overlong
    forms, surrogates and values above 0x10FFFF are all rejected. *)
Theorem utf8_decode_canonical (bs : list Z) (v : Z)
    (Hbs : Forall is_byte bs) (Hv : 0 ≤ v) (Hdec : decodes bs v) :
  scalar v ∧ bs = encoding v.
Proof. by apply decodes_sound. Qed.

Lemma utf8_decode_canonical_witness :
  decodes [0xE2; 0x82; 0xAC] 0x20AC ∧ [0xE2; 0x82; 0xAC] = encoding 0x20AC.
Proof.
  assert (H : decodes [0xE2; 0x82; 0xAC] 0x20AC) by (split; [reflexivity|discriminate]).
  split; [exact H|].
  apply utf8_decode_canonical; [|lia|exact H].
  repeat constructor; unfold is_byte; lia.
Defined.

Example utf8_overlong_rejected : ¬ decodes [0xC0; 0x80] 0.
Proof. intros [H _]. vm_compute in H. discriminate. Qed.
