(* ===== verification/Epoch.v ===== *)
(** Calendar time: [epoch_seconds] and [epoch_convert] of common/epoch.c.

    Times are seconds since 1970-01-01T00:00:00; strings are the 19 bytes
    "YYYY-MM-DDThh:mm:ss" of the buffer the caller passes. *)

From S2P Require Import Prelude.

Definition LLONG_MIN : Z := - 2 ^ 63.

Definition leap_year (year : Z) : Z :=
  if negb (Z.rem year 4 =? 0) then 0
  else if negb (Z.rem year 100 =? 0) then 1
  else if negb (Z.rem year 400 =? 0) then 0
  else 1.

Definition days (year month : Z) : Z :=
  match month with
  | 1 => 31
  | 2 => if leap_year year =? 0 then 28 else 29
  | 3 => 31
  | 4 => 30
  | 5 => 31
  | 6 => 30
  | 7 => 31
  | 8 => 31
  | 9 => 30
  | 10 => 31
  | 11 => 30
  | 12 => 31
  | _ => 0
  end.

(** [read_number &str[off] len]: the loop of [read_number] from the value
    [val] read so far. *)
Fixpoint read_number_loop (str : list Z) (off : Z) (len : nat) (val : Z)
  : option Z :=
  match len with
  | O => Some val
  | S len' =>
      c ← str.[off];
      if (c <? 48) || (c >? 57) then Some (-1)
      else read_number_loop str (off + 1) len' (val * 10 + (c - 48))
  end.

Definition read_number (str : list Z) (off : Z) (len : nat) : option Z :=
  read_number_loop str off len 0.

(** The first loop of [write_number]: the digits of [val] into [buffer], the
    least significant first. *)
Fixpoint write_digits (n : nat) (buffer : list Z) (j val : Z) : option (list Z) :=
  match n with
  | O => Some buffer
  | S n' =>
      let r := val mod 10 in
      let val := val / 10 in
      if (val =? 0) && (r =? 0) then Some buffer
      else
        buffer ← buffer.[j <- 48 + r];
        write_digits n' buffer (j + 1) val
  end.

(** Its second loop: the digits into the string, the other way round.  [n] is
    j + 1, so the loop ends after j = 0. *)
Fixpoint write_reversed (n : nat) (str : list Z) (i : Z) (buffer : list Z)
  : option (list Z) :=
  match n with
  | O => Some str
  | S j =>
      d ← buffer.[Z.of_nat j];
      str ← str.[i <- d];
      write_reversed j str (i + 1) buffer
  end.

Definition write_number (str : list Z) (off : Z) (len : nat) (val : Z)
  : option (list Z) :=
  if (4 <? len)%nat then Some str
  else
    buffer ← write_digits len [48; 48; 48; 48] 0 val;
    write_reversed len str off buffer.

(** The two summation loops of [epoch_seconds]; [n] turns from [i]. *)
Fixpoint sum_years (n : nat) (i secs : Z) : Z :=
  match n with
  | O => secs
  | S n' =>
      sum_years n' (i + 1)
        (if leap_year i =? 0 then secs + 86400 * 365 else secs + 86400 * 366)
  end.

Fixpoint sum_months (n : nat) (year i secs : Z) : Z :=
  match n with
  | O => secs
  | S n' => sum_months n' year (i + 1) (secs + 86400 * days year i)
  end.

Definition epoch_seconds (iso : list Z) : option Z :=
  c4 ← iso.[4]; c7 ← iso.[7];
  if negb (c4 =? 45) || negb (c7 =? 45) then Some LLONG_MIN else
  c10 ← iso.[10];
  if negb (c10 =? 84) then Some LLONG_MIN else
  c13 ← iso.[13]; c16 ← iso.[16];
  if negb (c13 =? 58) || negb (c16 =? 58) then Some LLONG_MIN else
  year ← read_number iso 0 4;
  mon ← read_number iso 5 2;
  day ← read_number iso 8 2;
  hour ← read_number iso 11 2;
  min ← read_number iso 14 2;
  sec ← read_number iso 17 2;
  let ok := (mon >=? 1) && (mon <=? 12) && ((day >=? 1) && (day <=? 31))
            && ((hour >=? 0) && (hour <=? 23)) && ((min >=? 0) && (min <=? 59))
            && ((sec >=? 0) && (sec <=? 59)) in
  if negb ok || (year <? 1970) then Some LLONG_MIN
  else if day >? days year mon then Some LLONG_MIN
  else
    let secs := sum_years (Z.to_nat (year - 1970)) 1970 0 in
    let secs := sum_months (Z.to_nat (mon - 1)) year 1 secs in
    let secs := secs + 86400 * (day - 1) in
    let secs := secs + 3600 * hour in
    let secs := secs + 60 * min in
    Some (secs + sec).

(** The two loops of [epoch_convert]; a state is (year or month, seconds). *)
Definition year_step (s : Z * Z) : option (ctl (Z * Z) (Z * Z)) :=
  let '(year, seconds) := s in
  let len := if leap_year year =? 0 then 86400 * 365 else 86400 * 366 in
  if seconds <? len then Some (Done (year, seconds))
  else Some (Next (year + 1, seconds - len)).

Definition month_step (year : Z) (s : Z * Z) : option (ctl (Z * Z) (Z * Z)) :=
  let '(mon, seconds) := s in
  let len := 86400 * days year mon in
  if seconds <? len then Some (Done (mon, seconds))
  else Some (Next (mon + 1, seconds - len)).

Definition year_fuel : nat := Z.to_nat 8100.
Definition month_fuel : nat := 13.

(** The date and time of [seconds] (the code before the string is written). *)
Definition convert_fields (seconds : Z) : option (Z * Z * Z * Z * Z * Z) :=
  if seconds <? 253402300799 then
    '(year, seconds) ← while year_fuel year_step (1970, seconds);
    '(mon, seconds) ← while month_fuel (month_step year) (1, seconds);
    let day := Z.quot seconds 86400 + 1 in
    let seconds := Z.rem seconds 86400 in
    let hour := Z.quot seconds 3600 in
    let seconds := Z.rem seconds 3600 in
    Some (year, mon, day, hour, Z.quot seconds 60, Z.rem seconds 60)
  else Some (9999, 12, 31, 23, 59, 59).

Definition epoch_convert (seconds : Z) (iso : list Z) : option (list Z) :=
  '(year, mon, day, hour, min, sec) ← convert_fields seconds;
  iso ← iso.[4 <- 45];
  iso ← iso.[7 <- 45];
  iso ← iso.[10 <- 84];
  iso ← iso.[13 <- 58];
  iso ← iso.[16 <- 58];
  iso ← write_number iso 0 4 year;
  iso ← write_number iso 5 2 mon;
  iso ← write_number iso 8 2 day;
  iso ← write_number iso 11 2 hour;
  iso ← write_number iso 14 2 min;
  write_number iso 17 2 sec.

(** ** The proleptic Gregorian calendar *)

(** A year is a leap year by the rule of the calendar. *)
Definition is_leap (y : Z) : bool :=
  (y mod 4 =? 0) && (negb (y mod 100 =? 0) || (y mod 400 =? 0)).

(** Leap days up to the end of the year [y]. *)
Definition leaps (y : Z) : Z := y / 4 - y / 100 + y / 400.

(** Days from 1970-01-01 to January 1 of the year [y]. *)
Definition days_to_year (y : Z) : Z := 365 * (y - 1970) + (leaps (y - 1) - leaps 1969).

(** Days from January 1 to the first of the month [m]. *)
Definition days_to_month (y m : Z) : Z :=
  nth (Z.to_nat (m - 1)) [0; 31; 59; 90; 120; 151; 181; 212; 243; 273; 304; 334; 365] 0
  + (if is_leap y && (2 <? m) then 1 else 0).

Record datetime := Datetime {
  dt_year : Z; dt_mon : Z; dt_day : Z; dt_hour : Z; dt_min : Z; dt_sec : Z }.

Definition valid (d : datetime) : Prop :=
  1970 ≤ dt_year d ≤ 9999 ∧ 1 ≤ dt_mon d ≤ 12 ∧
  1 ≤ dt_day d ≤ days_to_month (dt_year d) (dt_mon d + 1)
                 - days_to_month (dt_year d) (dt_mon d) ∧
  0 ≤ dt_hour d ≤ 23 ∧ 0 ≤ dt_min d ≤ 59 ∧ 0 ≤ dt_sec d ≤ 59.

Definition seconds_of (d : datetime) : Z :=
  86400 * (days_to_year (dt_year d) + days_to_month (dt_year d) (dt_mon d)
           + (dt_day d - 1))
  + 3600 * dt_hour d + 60 * dt_min d + dt_sec d.

Definition digit (z : Z) : Z := 48 + z mod 10.

(** "YYYY-MM-DDThh:mm:ss" *)
Definition iso_string (d : datetime) : list Z :=
  [digit (dt_year d / 1000); digit (dt_year d / 100); digit (dt_year d / 10);
   digit (dt_year d); 45;
   digit (dt_mon d / 10); digit (dt_mon d); 45;
   digit (dt_day d / 10); digit (dt_day d); 84;
   digit (dt_hour d / 10); digit (dt_hour d); 58;
   digit (dt_min d / 10); digit (dt_min d); 58;
   digit (dt_sec d / 10); digit (dt_sec d)].

(** ** Calendar lemmas *)

Lemma leap_year_spec y : 0 ≤ y → leap_year y = if is_leap y then 1 else 0.
Proof.
  intros Hy. unfold leap_year, is_leap. rewrite !Z.rem_mod_nonneg by lia.
  destruct (Z.eqb_spec (y mod 4) 0), (Z.eqb_spec (y mod 100) 0),
    (Z.eqb_spec (y mod 400) 0); simpl; try done; dlia.
Qed.

Definition year_days (y : Z) : Z := if is_leap y then 366 else 365.

Lemma days_to_year_succ y : days_to_year (y + 1) = days_to_year y + year_days y.
Proof.
  unfold days_to_year, leaps, year_days, is_leap.
  replace (y + 1 - 1) with y by lia.
  destruct (Z.eqb_spec (y mod 4) 0), (Z.eqb_spec (y mod 100) 0),
    (Z.eqb_spec (y mod 400) 0); simpl; dlia.
Qed.

Lemma days_spec y m : 0 ≤ y → 1 ≤ m ≤ 12 →
  days y m = days_to_month y (m + 1) - days_to_month y m.
Proof.
  intros Hy Hm. assert (m = 1 ∨ m = 2 ∨ m = 3 ∨ m = 4 ∨ m = 5 ∨ m = 6 ∨ m = 7 ∨
    m = 8 ∨ m = 9 ∨ m = 10 ∨ m = 11 ∨ m = 12) as Hm' by lia.
  unfold days_to_month, days. rewrite leap_year_spec by done.
  repeat destruct Hm' as [-> | Hm']; try (by destruct (is_leap y)).
  subst. by destruct (is_leap y).
Qed.

Lemma days_pos y m : 1 ≤ m ≤ 12 → 28 ≤ days y m ≤ 31.
Proof.
  intros Hm. assert (m = 1 ∨ m = 2 ∨ m = 3 ∨ m = 4 ∨ m = 5 ∨ m = 6 ∨ m = 7 ∨
    m = 8 ∨ m = 9 ∨ m = 10 ∨ m = 11 ∨ m = 12) as Hm' by lia.
  unfold days. repeat destruct Hm' as [-> | Hm']; try lia; try subst;
    try case_match; lia.
Qed.

Lemma days_to_month_13 y : days_to_month y 13 = year_days y.
Proof. unfold days_to_month, year_days. simpl. by destruct (is_leap y). Qed.

Lemma days_to_month_1 y : days_to_month y 1 = 0.
Proof. unfold days_to_month. simpl. by rewrite andb_false_r. Qed.

Lemma sum_years_spec n i secs : 1970 ≤ i →
  sum_years n i secs
  = secs + 86400 * (days_to_year (i + Z.of_nat n) - days_to_year i).
Proof.
  revert i secs. induction n as [|n IH]; intros i secs Hi; cbn [sum_years].
  - replace (i + Z.of_nat 0) with i by lia. lia.
  - rewrite IH by lia. replace (i + Z.of_nat (S n)) with (i + 1 + Z.of_nat n) by lia.
    rewrite days_to_year_succ, leap_year_spec by lia. unfold year_days.
    destruct (is_leap i); simpl; lia.
Qed.

Lemma sum_months_spec n y i secs : 0 ≤ y → 1 ≤ i → i + Z.of_nat n ≤ 13 →
  sum_months n y i secs
  = secs + 86400 * (days_to_month y (i + Z.of_nat n) - days_to_month y i).
Proof.
  revert i secs. induction n as [|n IH]; intros i secs Hy Hi Hn; cbn [sum_months].
  - replace (i + Z.of_nat 0) with i by lia. lia.
  - rewrite IH by lia. replace (i + Z.of_nat (S n)) with (i + 1 + Z.of_nat n) by lia.
    rewrite days_spec by lia. lia.
Qed.

Lemma days_to_year_mono y y' : y < y' →
  days_to_year y + year_days y ≤ days_to_year y'.
Proof.
  intros Hy. rewrite <- days_to_year_succ.
  unfold days_to_year, leaps. dlia.
Qed.

Lemma days_to_month_mono y m m' : 1 ≤ m → m < m' → m' ≤ 13 →
  days_to_month y (m + 1) ≤ days_to_month y m'.
Proof.
  intros H1 H2 H3.
  assert (∀ k, 1 ≤ k ≤ 12 → days_to_month y k ≤ days_to_month y (k + 1)) as Hs.
  { intros k Hk. assert (k = 1 ∨ k = 2 ∨ k = 3 ∨ k = 4 ∨ k = 5 ∨ k = 6 ∨ k = 7 ∨
      k = 8 ∨ k = 9 ∨ k = 10 ∨ k = 11 ∨ k = 12) as Hk' by lia.
    unfold days_to_month. repeat destruct Hk' as [-> | Hk']; try subst;
      simpl; destruct (is_leap y); simpl; lia. }
  replace m' with (m + 1 + Z.of_nat (Z.to_nat (m' - m - 1))) by lia.
  assert (Hb : m + 1 + Z.of_nat (Z.to_nat (m' - m - 1)) ≤ 13) by lia.
  revert Hb. generalize (Z.to_nat (m' - m - 1)) as n. clear m' H2 H3.
  induction n as [|n IH]; intros Hb; [rewrite Z.add_0_r; lia|].
  etrans; [apply IH; lia|].
  replace (m + 1 + Z.of_nat (S n)) with (m + 1 + Z.of_nat n + 1) by lia.
  apply Hs. lia.
Qed.

Lemma valid_inj d d' : valid d → valid d' → seconds_of d = seconds_of d' → d = d'.
Proof.
  destruct d as [y m dd h mi s], d' as [y' m' dd' h' mi' s'].
  unfold valid, seconds_of; simpl. intros Hd Hd' Heq.
  set (D := days_to_year y + days_to_month y m + (dd - 1)) in *.
  set (D' := days_to_year y' + days_to_month y' m' + (dd' - 1)) in *.
  assert (D = D' ∧ h = h' ∧ mi = mi' ∧ s = s') as (HD & -> & -> & ->) by lia.
  assert (Hyear : ∀ y m dd, 1 ≤ m ≤ 12 →
    1 ≤ dd ≤ days_to_month y (m + 1) - days_to_month y m →
    0 ≤ days_to_month y m + (dd - 1) < year_days y).
  { intros y0 m0 dd0 Hm Hdd. rewrite <- days_to_month_13.
    pose proof (days_to_month_mono y0 m0 13 ltac:(lia) ltac:(lia) ltac:(lia)).
    assert (days_to_month y0 1 ≤ days_to_month y0 m0).
    { destruct (decide (m0 = 1)) as [->|]; [done|].
      pose proof (days_to_month_mono y0 1 m0 ltac:(lia) ltac:(lia) ltac:(lia)).
      assert (days_to_month y0 (1 + 1) = 31)
        by (unfold days_to_month; simpl; rewrite andb_false_r; lia).
      rewrite days_to_month_1. lia. }
    rewrite days_to_month_1 in *. lia. }
  pose proof (Hyear y m dd ltac:(lia) ltac:(lia)).
  pose proof (Hyear y' m' dd' ltac:(lia) ltac:(lia)).
  assert (y = y') as <-.
  { destruct (Z.lt_trichotomy y y') as [Hlt|[|Hlt]]; [|done|];
      apply days_to_year_mono in Hlt; unfold D, D' in HD; lia. }
  assert (m = m') as <-.
  { destruct (Z.lt_trichotomy m m') as [Hlt|[|Hlt]]; [|done|];
      [pose proof (days_to_month_mono y m m')|pose proof (days_to_month_mono y m' m)];
      unfold D, D' in HD; lia. }
  f_equal. unfold D, D' in HD. lia.
Qed.

(** ** Strings *)

Lemma digit_range z : 48 ≤ digit z ≤ 57.
Proof. unfold digit. dlia. Qed.

(** A digit read, and what a successful read says about the byte. *)
Lemma read_digit str off n v c :
  str.[off] = Some c →
  read_number_loop str off (S n) v
  = if (c <? 48) || (c >? 57) then Some (-1)
    else read_number_loop str (off + 1) n (v * 10 + (c - 48)).
Proof. intros H. simpl. by rewrite H. Qed.

Lemma read_two c0 c1 str off :
  str.[off] = Some c0 → str.[off + 1] = Some c1 →
  ∃ r, read_number str off 2 = Some r ∧
    (r = -1 ∨ 0 ≤ r ≤ 99 ∧ c0 = digit (r / 10) ∧ c1 = digit r).
Proof.
  intros H0 H1. unfold read_number.
  rewrite (read_digit _ _ _ _ _ H0), !Z.gtb_ltb.
  destruct (Z.ltb_spec c0 48), (Z.ltb_spec 57 c0); simpl (_ || _); eauto.
  rewrite (read_digit _ _ _ _ _ H1), !Z.gtb_ltb.
  destruct (Z.ltb_spec c1 48), (Z.ltb_spec 57 c1); simpl (_ || _); eauto.
  simpl. eexists; split; [done|]. right. unfold digit. dlia.
Qed.

Lemma read_four c0 c1 c2 c3 str off :
  str.[off] = Some c0 → str.[off + 1] = Some c1 →
  str.[off + 2] = Some c2 → str.[off + 3] = Some c3 →
  ∃ r, read_number str off 4 = Some r ∧
    (r = -1 ∨ 0 ≤ r ≤ 9999 ∧ c0 = digit (r / 1000) ∧ c1 = digit (r / 100) ∧
       c2 = digit (r / 10) ∧ c3 = digit r).
Proof.
  intros H0 H1 H2 H3. unfold read_number.
  replace (off + 2) with (off + 1 + 1) in H2 by lia.
  replace (off + 3) with (off + 1 + 1 + 1) in H3 by lia.
  rewrite (read_digit _ _ _ _ _ H0), !Z.gtb_ltb.
  destruct (Z.ltb_spec c0 48), (Z.ltb_spec 57 c0); simpl (_ || _); eauto.
  rewrite (read_digit _ _ _ _ _ H1), !Z.gtb_ltb.
  destruct (Z.ltb_spec c1 48), (Z.ltb_spec 57 c1); simpl (_ || _); eauto.
  rewrite (read_digit _ _ _ _ _ H2), !Z.gtb_ltb.
  destruct (Z.ltb_spec c2 48), (Z.ltb_spec 57 c2); simpl (_ || _); eauto.
  rewrite (read_digit _ _ _ _ _ H3), !Z.gtb_ltb.
  destruct (Z.ltb_spec c3 48), (Z.ltb_spec 57 c3); simpl (_ || _); eauto.
  simpl. eexists; split; [done|]. right. unfold digit. dlia.
Qed.

(** Reading back a number of at most two or four digits. *)
Lemma read_two_digits v str off : 0 ≤ v ≤ 99 →
  str.[off] = Some (digit (v / 10)) → str.[off + 1] = Some (digit v) →
  read_number str off 2 = Some v.
Proof.
  intros Hv H0 H1. destruct (read_two _ _ _ _ H0 H1) as (r & Hr & Hcase).
  rewrite Hr. revert Hr. unfold read_number.
  rewrite (read_digit _ _ _ _ _ H0), (read_digit _ _ _ _ _ H1), !Z.gtb_ltb.
  pose proof (digit_range (v / 10)). pose proof (digit_range v).
  rewrite !(proj2 (Z.ltb_ge _ _)) by lia. simpl. intros [= <-].
  f_equal. unfold digit. dlia.
Qed.

Lemma read_four_digits v str off : 0 ≤ v ≤ 9999 →
  str.[off] = Some (digit (v / 1000)) → str.[off + 1] = Some (digit (v / 100)) →
  str.[off + 1 + 1] = Some (digit (v / 10)) →
  str.[off + 1 + 1 + 1] = Some (digit v) →
  read_number str off 4 = Some v.
Proof.
  intros Hv H0 H1 H2 H3. unfold read_number.
  rewrite (read_digit _ _ _ _ _ H0), (read_digit _ _ _ _ _ H1),
    (read_digit _ _ _ _ _ H2), (read_digit _ _ _ _ _ H3), !Z.gtb_ltb.
  pose proof (digit_range (v / 1000)). pose proof (digit_range (v / 100)).
  pose proof (digit_range (v / 10)). pose proof (digit_range v).
  rewrite !(proj2 (Z.ltb_ge _ _)) by lia. simpl.
  f_equal. unfold digit. dlia.
Qed.

Lemma write_two v str off : 0 ≤ v ≤ 99 → 0 ≤ off →
  off + 1 < Z.of_nat (length str) →
  write_number str off 2 v
  = Some (<[Z.to_nat (off + 1) := digit v]> (<[Z.to_nat off := digit (v / 10)]> str)).
Proof.
  intros Hv Ho Hl. unfold write_number. cbn [Nat.ltb Nat.leb write_digits].
  assert (Hb : write_digits 2 [48; 48; 48; 48] 0 v
    = Some [digit v; digit (v / 10); 48; 48]).
  { cbn [write_digits].
    destruct (Z.eqb_spec (v / 10) 0), (Z.eqb_spec (v mod 10) 0); simpl;
      try (destruct (Z.eqb_spec (v / 10 / 10) 0),
        (Z.eqb_spec ((v / 10) mod 10) 0); simpl);
      f_equal; unfold digit; list_dlia. }
  cbn [write_digits] in Hb. rewrite Hb. cbn [mbind option_bind write_reversed].
  change ([digit v; digit (v / 10); 48; 48].[Z.of_nat 1]) with (Some (digit (v / 10))).
  change ([digit v; digit (v / 10); 48; 48].[Z.of_nat 0]) with (Some (digit v)).
  cbn [mbind option_bind]. rewrite wr_Some by lia. cbn [mbind option_bind].
  by rewrite wr_Some by (rewrite length_insert; lia).
Qed.

Lemma write_four v str : 0 ≤ v ≤ 9999 → (3 < length str)%nat →
  write_number str 0 4 v
  = Some (<[3%nat := digit v]> (<[2%nat := digit (v / 10)]>
      (<[1%nat := digit (v / 100)]> (<[0%nat := digit (v / 1000)]> str)))).
Proof.
  intros Hv Hl. unfold write_number. cbn [Nat.ltb Nat.leb].
  assert (Hb : write_digits 4 [48; 48; 48; 48] 0 v
    = Some [digit v; digit (v / 10); digit (v / 100); digit (v / 1000)]).
  { cbn [write_digits].
    destruct (Z.eqb_spec (v / 10) 0), (Z.eqb_spec (v mod 10) 0); simpl;
    try (destruct (Z.eqb_spec (v / 10 / 10) 0),
      (Z.eqb_spec ((v / 10) mod 10) 0); simpl);
    try (destruct (Z.eqb_spec (v / 10 / 10 / 10) 0),
      (Z.eqb_spec ((v / 10 / 10) mod 10) 0); simpl);
    try (destruct (Z.eqb_spec (v / 10 / 10 / 10 / 10) 0),
      (Z.eqb_spec ((v / 10 / 10 / 10) mod 10) 0); simpl);
    f_equal; unfold digit; list_dlia. }
  rewrite Hb. cbn [mbind option_bind write_reversed].
  set (b := [_; _; _; _]).
  change (b.[Z.of_nat 3]) with (Some (digit (v / 1000))).
  change (b.[Z.of_nat 2]) with (Some (digit (v / 100))).
  change (b.[Z.of_nat 1]) with (Some (digit (v / 10))).
  change (b.[Z.of_nat 0]) with (Some (digit v)).
  cbn [mbind option_bind].
  repeat (rewrite wr_Some by (rewrite ?length_insert; lia); cbn [mbind option_bind]).
  done.
Qed.

(** ** The search loops of [epoch_convert] *)

Lemma year_loop S : 0 ≤ S < 86400 * days_to_year 10000 →
  ∃ r, while year_fuel year_step (1970, S) = Some r ∧
    (1970 ≤ r.1 ≤ 9999 ∧ r.2 = S - 86400 * days_to_year r.1 ∧
     0 ≤ r.2 < 86400 * year_days r.1).
Proof.
  intros HS.
  refine (while_total
    (λ s : Z * Z, 1970 ≤ s.1 ≤ 9999 ∧ s.2 = S - 86400 * days_to_year s.1 ∧ 0 ≤ s.2)
    (λ s, Z.to_nat (10000 - s.1)) _ year_step _ year_fuel (1970, S) _ _).
  - intros [y s] (Hy & Hs & H0). simpl in *. unfold year_step.
    rewrite leap_year_spec by lia.
    pose proof (days_to_year_succ y) as Hsucc. unfold year_days in *.
    destruct (is_leap y) eqn:Hleap; simpl;
      (match goal with |- context [s <? ?l] => destruct (Z.ltb_spec s l) end);
      (eexists; split; [done|]); simpl; rewrite ?Hleap; [lia| |lia|];
      (destruct (decide (y = 9999)) as [->|];
        [change (9999 + 1) with 10000 in Hsucc; lia|]); lia.
  - simpl. change (days_to_year 1970) with 0. lia.
  - change (Z.to_nat (10000 - (1970, S).1)) with (Z.to_nat 8030).
    unfold year_fuel. lia.
Qed.

Lemma month_loop y S : 1970 ≤ y → 0 ≤ S < 86400 * year_days y →
  ∃ r, while month_fuel (month_step y) (1, S) = Some r ∧
    (1 ≤ r.1 ≤ 12 ∧ r.2 = S - 86400 * days_to_month y r.1 ∧
     0 ≤ r.2 < 86400 * days y r.1).
Proof.
  intros Hy HS. rewrite <- days_to_month_13 in HS.
  refine (while_total
    (λ s : Z * Z, 1 ≤ s.1 ≤ 12 ∧ s.2 = S - 86400 * days_to_month y s.1 ∧ 0 ≤ s.2)
    (λ s, Z.to_nat (13 - s.1)) _ (month_step y) _ month_fuel (1, S) _ _).
  - intros [m s] (Hm & Hs & H0). simpl in *. unfold month_step.
    pose proof (days_spec y m ltac:(lia) Hm).
    destruct (Z.ltb_spec s (86400 * days y m)); (eexists; split; [done|]); simpl;
      [lia|].
    destruct (decide (m = 12)) as [->|]; [change (12 + 1) with 13 in *; lia|]. lia.
  - simpl. rewrite days_to_month_1. lia.
  - unfold month_fuel. simpl. lia.
Qed.

(** The last second of 9999. *)
Definition epoch_max : Z := 253402300799.

Lemma last_valid : valid (Datetime 9999 12 31 23 59 59).
Proof. repeat split; vm_compute; discriminate. Qed.

Lemma convert_fields_spec s : 0 ≤ s →
  ∃ d, convert_fields s
    = Some (dt_year d, dt_mon d, dt_day d, dt_hour d, dt_min d, dt_sec d) ∧
    valid d ∧ seconds_of d = Z.min s epoch_max.
Proof.
  intros Hs. unfold convert_fields. fold epoch_max.
  assert (Hmax : 86400 * days_to_year 10000 = epoch_max + 1) by done.
  destruct (Z.ltb_spec s epoch_max).
  - destruct (year_loop s ltac:(lia)) as ([y s1] & -> & Hy & Hs1 & Hr1).
    cbn [mbind option_bind fst snd] in *.
    destruct (month_loop y s1 ltac:(lia) ltac:(lia)) as ([m s2] & -> & Hm & Hs2 & Hr2).
    cbn [mbind option_bind fst snd] in *. rewrite days_spec in Hr2 by lia.
    rewrite !Z.quot_div_nonneg, !Z.rem_mod_nonneg by (try lia; dlia).
    exists (Datetime y m (s2 / 86400 + 1) (s2 mod 86400 / 3600)
      ((s2 mod 86400) mod 3600 / 60) (((s2 mod 86400) mod 3600) mod 60)).
    split; [done|]. unfold valid, seconds_of; simpl. split; dlia.
  - exists (Datetime 9999 12 31 23 59 59). split; [done|].
    split; [exact last_valid|].
    rewrite Z.min_r by lia. done.
Qed.

Lemma days_to_month_day y m dd : 1 ≤ m ≤ 12 →
  1 ≤ dd ≤ days_to_month y (m + 1) - days_to_month y m → 1 ≤ dd ≤ 31.
Proof.
  intros Hm. assert (m = 1 ∨ m = 2 ∨ m = 3 ∨ m = 4 ∨ m = 5 ∨ m = 6 ∨ m = 7 ∨
    m = 8 ∨ m = 9 ∨ m = 10 ∨ m = 11 ∨ m = 12) as Hm' by lia.
  unfold days_to_month. repeat destruct Hm' as [-> | Hm']; try subst;
    simpl; destruct (is_leap y); simpl; lia.
Qed.

Lemma seconds_of_range d : valid d → 0 ≤ seconds_of d ≤ epoch_max.
Proof.
  intros Hd. assert (Hn : 0 ≤ seconds_of d).
  { unfold valid, seconds_of in *. destruct d as [y m dd h mi s]; simpl in *.
    assert (0 ≤ days_to_month y m).
    { destruct (decide (m = 1)) as [->|]; [by rewrite days_to_month_1|].
      pose proof (days_to_month_mono y 1 m ltac:(lia) ltac:(lia) ltac:(lia)).
      assert (days_to_month y (1 + 1) = 31)
        by (unfold days_to_month; simpl; rewrite andb_false_r; lia). lia. }
    assert (0 ≤ days_to_year y).
    { destruct (decide (y = 1970)) as [->|]; [done|].
      pose proof (days_to_year_mono 1970 y ltac:(lia)) as Hm.
      change (days_to_year 1970) with 0 in Hm.
      change (year_days 1970) with 365 in Hm. lia. }
    lia. }
  split; [done|].
  destruct (convert_fields_spec _ Hn) as (d' & _ & Hd' & Heq).
  destruct (Z.le_gt_cases (seconds_of d) epoch_max) as [|Hgt]; [done|exfalso].
  revert Hgt. destruct d as [y m dd h mi s]. clear -Hd.
  unfold valid, seconds_of, epoch_max in *; simpl in *.
  assert (days_to_month y m + (dd - 1) < year_days y).
  { rewrite <- days_to_month_13.
    pose proof (days_to_month_mono y m 13 ltac:(lia) ltac:(lia) ltac:(lia)). lia. }
  assert (days_to_year y + year_days y ≤ days_to_year 10000)
    by (apply days_to_year_mono; lia).
  assert (days_to_year 10000 = 2932897) by done. lia.
Qed.

(** ** The theorems *)

Lemma parse_iso d rest : valid d →
  epoch_seconds (iso_string d ++ rest) = Some (seconds_of d).
Proof.
  intros Hd. pose proof Hd as (Hy & Hm & Hdd & Hh & Hmi & Hs).
  pose proof (days_to_month_day _ _ _ Hm Hdd) as H31.
  unfold epoch_seconds.
  rewrite (read_four_digits (dt_year d)) by (lia || reflexivity).
  rewrite (read_two_digits (dt_mon d) _ 5) by (lia || reflexivity).
  rewrite (read_two_digits (dt_day d) _ 8) by (lia || reflexivity).
  rewrite (read_two_digits (dt_hour d) _ 11) by (lia || reflexivity).
  rewrite (read_two_digits (dt_min d) _ 14) by (lia || reflexivity).
  rewrite (read_two_digits (dt_sec d) _ 17) by (lia || reflexivity).
  set (l := iso_string d ++ rest).
  change (l.[4]) with (Some 45). change (l.[7]) with (Some 45).
  change (l.[10]) with (Some 84). change (l.[13]) with (Some 58).
  change (l.[16]) with (Some 58).
  cbn [mbind option_bind negb Z.eqb Pos.eqb orb].
  rewrite !Z.geb_leb, Z.gtb_ltb.
  match goal with |- context [negb ?b || _] => replace b with true
    by (symmetry; rewrite !andb_true_iff, !Z.leb_le; lia) end.
  rewrite days_spec by lia. rewrite (proj2 (Z.ltb_ge (dt_year d) _)) by lia.
  cbn [orb negb]. rewrite (proj2 (Z.ltb_ge _ (dt_day d))) by lia.
  rewrite sum_months_spec, sum_years_spec by lia.
  replace (1970 + Z.of_nat (Z.to_nat (dt_year d - 1970))) with (dt_year d) by lia.
  replace (1 + Z.of_nat (Z.to_nat (dt_mon d - 1))) with (dt_mon d) by lia.
  rewrite days_to_month_1. change (days_to_year 1970) with 0.
  f_equal. unfold seconds_of. lia.
Qed.

Lemma parse_sound (iso : list Z) :
  (19 ≤ length iso)%nat →
  ∃ r, epoch_seconds iso = Some r ∧
    (r = LLONG_MIN ∨ ∃ d, valid d ∧ take 19 iso = iso_string d).
Proof.
  intros Hlen. do 19 (destruct iso as [|? iso]; [simpl in Hlen; lia|]).
  clear Hlen. unfold epoch_seconds.
  set (l := _ :: _).
  destruct (read_four z z0 z1 z2 l 0) as (y & Hyr & Hy); try done.
  destruct (read_two z4 z5 l 5) as (mo & Hmr & Hm); try done.
  destruct (read_two z7 z8 l 8) as (da & Hdr & Hd); try done.
  destruct (read_two z10 z11 l 11) as (ho & Hhr & Hh); try done.
  destruct (read_two z13 z14 l 14) as (mi & Hir & Hi); try done.
  destruct (read_two z16 z17 l 17) as (se & Hsr & Hs); try done.
  rewrite Hyr, Hmr, Hdr, Hhr, Hir, Hsr.
  change (l.[4]) with (Some z3). change (l.[7]) with (Some z6).
  change (l.[10]) with (Some z9). change (l.[13]) with (Some z12).
  change (l.[16]) with (Some z15). cbn [mbind option_bind].
  destruct (Z.eqb_spec z3 45) as [->|], (Z.eqb_spec z6 45) as [->|]; simpl (_ || _); eauto.
  destruct (Z.eqb_spec z9 84) as [->|]; simpl (negb _); eauto.
  destruct (Z.eqb_spec z12 58) as [->|], (Z.eqb_spec z15 58) as [->|];
    simpl (_ || _); eauto.
  match goal with |- context [negb ?b || (y <? 1970)] => destruct b eqn:Hok end;
    [|by eauto].
  destruct (Z.ltb_spec y 1970); simpl (_ || _); [by eauto|].
  rewrite !Z.geb_leb in Hok. rewrite !andb_true_iff, !Z.leb_le in Hok.
  destruct (Z.gtb_spec da (days y mo)); [by eauto|].
  rewrite days_spec in * by lia.
  eexists; split; [done|]. right.
  exists (Datetime y mo da ho mi se). split; [unfold valid; simpl; lia|].
  unfold iso_string; simpl.
  destruct Hy as [|(_ & -> & -> & -> & ->)]; [lia|].
  destruct Hm as [|(_ & -> & ->)]; [lia|].
  destruct Hd as [|(_ & -> & ->)]; [lia|].
  destruct Hh as [|(_ & -> & ->)]; [lia|].
  destruct Hi as [|(_ & -> & ->)]; [lia|].
  destruct Hs as [|(_ & -> & ->)]; [lia|]. done.
Qed.

(** Every field has the digits that [iso_string] shows. *)
Lemma write_iso d buf : valid d → (19 ≤ length buf)%nat →
  (iso ← buf.[4 <- 45]; iso ← iso.[7 <- 45]; iso ← iso.[10 <- 84];
   iso ← iso.[13 <- 58]; iso ← iso.[16 <- 58];
   iso ← write_number iso 0 4 (dt_year d);
   iso ← write_number iso 5 2 (dt_mon d);
   iso ← write_number iso 8 2 (dt_day d);
   iso ← write_number iso 11 2 (dt_hour d);
   iso ← write_number iso 14 2 (dt_min d);
   write_number iso 17 2 (dt_sec d))
  = Some (iso_string d ++ drop 19 buf).
Proof.
  intros Hd Hlen. pose proof Hd as (Hy & Hm & Hdd & Hh & Hmi & Hs).
  pose proof (days_to_month_day _ _ _ Hm Hdd) as H31.
  do 19 (destruct buf as [|? buf]; [simpl in Hlen; lia|]). clear Hlen.
  repeat store.
  rewrite write_four by (rewrite ?length_insert; simpl; lia).
  cbn [mbind option_bind].
  do 4 (rewrite write_two by (rewrite ?length_insert; simpl length; lia);
    cbn [mbind option_bind]).
  rewrite write_two by (rewrite ?length_insert; simpl length; lia).
  reflexivity.
Qed.

Lemma epoch_convert_iso s buf : 0 ≤ s → (19 ≤ length buf)%nat →
  ∃ d, valid d ∧ seconds_of d = Z.min s epoch_max ∧
    epoch_convert s buf = Some (iso_string d ++ drop 19 buf).
Proof.
  intros Hs Hlen. destruct (convert_fields_spec s Hs) as (d & Hc & Hd & Hsec).
  exists d. split; [done|split; [done|]].
  unfold epoch_convert. rewrite Hc. cbn [mbind option_bind].
  by apply write_iso.
Qed.

(** (C39) [epoch_convert] fills the first 19 bytes of the buffer, for every
    64-bit argument, with the ISO 8601 string of a valid date and time, and
    [epoch_seconds] reads the argument back from it; arguments after
    9999-12-31T23:59:59 are brought down to that second.  In particular the
    two search loops end and no access is out of bounds. *)
Theorem epoch_roundtrip (s : Z) (buf : list Z)
    (Hs : 0 ≤ s < 2 ^ 64) (Hlen : (19 ≤ length buf)%nat) :
  ∃ d, valid d ∧
    epoch_convert s buf = Some (iso_string d ++ drop 19 buf) ∧
    epoch_seconds (iso_string d ++ drop 19 buf) = Some (Z.min s 253402300799).
Proof.
  destruct (epoch_convert_iso s buf ltac:(lia) Hlen) as (d & Hd & Hsec & Hc).
  exists d. split; [done|split; [done|]].
  by rewrite parse_iso, Hsec.
Qed.

Lemma epoch_roundtrip_witness :
  ∃ d, valid d ∧
    epoch_convert 951826154 (replicate 19 0) = Some (iso_string d ++ []) ∧
    epoch_seconds (iso_string d ++ []) = Some 951826154.
Proof. apply (epoch_roundtrip 951826154 (replicate 19 0)); simpl; lia. Defined.

(** [epoch_seconds] accepts exactly the strings of the valid dates and
    times from 1970 to 9999 and answers their number of seconds by the
    Gregorian calendar; every other string gives LLONG_MIN.  [epoch_convert]
    writes an accepted string back. *)
Theorem epoch_seconds_spec (iso : list Z) (Hlen : (19 ≤ length iso)%nat) :
  (∃ d, valid d ∧ take 19 iso = iso_string d ∧
     epoch_seconds iso = Some (seconds_of d) ∧
     0 ≤ seconds_of d ≤ 253402300799 ∧
     epoch_convert (seconds_of d) iso = Some iso) ∨
  ((∀ d, valid d → take 19 iso ≠ iso_string d) ∧
   epoch_seconds iso = Some LLONG_MIN).
Proof.
  assert (Hacc : ∀ d, valid d → take 19 iso = iso_string d →
    epoch_seconds iso = Some (seconds_of d)).
  { intros d Hd Ht. rewrite <- (take_drop 19 iso), Ht. by apply parse_iso. }
  destruct (parse_sound iso Hlen) as (r & Hr & [-> | (d & Hd & Ht)]).
  - right. split; [|done]. intros d Hd Ht. rewrite (Hacc d) in Hr by done.
    injection Hr as Hr. pose proof (seconds_of_range d Hd). unfold LLONG_MIN in Hr. lia.
  - left. exists d. pose proof (seconds_of_range d Hd) as Hrange.
    unfold epoch_max in Hrange.
    split; [done|split; [done|split; [by apply Hacc|split; [done|]]]].
    destruct (epoch_convert_iso (seconds_of d) iso ltac:(lia) Hlen)
      as (d' & Hd' & Hsec & ->).
    unfold epoch_max in Hsec. rewrite Z.min_l in Hsec by lia.
    apply valid_inj in Hsec as ->; [|done|done].
    by rewrite <- Ht, take_drop.
Qed.

Lemma epoch_seconds_spec_witness :
  epoch_seconds (iso_string (Datetime 2000 2 29 12 9 14)) = Some 951826154 ∧
  ((∃ d, valid d ∧ take 19 (iso_string (Datetime 2000 2 29 12 9 14)) = iso_string d ∧
     epoch_seconds (iso_string (Datetime 2000 2 29 12 9 14)) = Some (seconds_of d) ∧
     0 ≤ seconds_of d ≤ 253402300799 ∧
     epoch_convert (seconds_of d) (iso_string (Datetime 2000 2 29 12 9 14))
     = Some (iso_string (Datetime 2000 2 29 12 9 14))) ∨
  ((∀ d, valid d → take 19 (iso_string (Datetime 2000 2 29 12 9 14)) ≠ iso_string d) ∧
   epoch_seconds (iso_string (Datetime 2000 2 29 12 9 14)) = Some LLONG_MIN)).
Proof.
  split; [vm_compute; reflexivity|].
  apply (epoch_seconds_spec (iso_string (Datetime 2000 2 29 12 9 14))).
  simpl; lia.
Defined.
