(* ===== verification/Snprintf.v ===== *)
(** Formatted output: kernel/lib/snprintf.c.

    A string is the list of its bytes up to and with the null byte; the buffer
    [s] is a list and every [s[out++] = c] a checked write.  Each argument of the
    call is a [slot]: the number it is when it is read as an integer and the
    bytes it points to when it is read as a string.  The 64-bit build is
    modelled; the width of [long], which depends on the compiler, is the
    argument [long_bits]. *)

From S2P Require Import Prelude.

Record slot := Slot { number : Z; text : list Z }.

Record flags := Flags {
  flag_minus : bool; flag_plus : bool; flag_space : bool; flag_zero : bool; flag_alt : bool }.

Inductive length_modifier :=
| length_modifier_none | length_modifier_hh | length_modifier_h
| length_modifier_ell | length_modifier_ellell | length_modifier_j
| length_modifier_z | length_modifier_tee | length_modifier_bell.

#[export] Instance length_modifier_eq_dec : EqDecision length_modifier.
Proof. solve_decision. Defined.

Definition hex_normal : list Z :=
  [48; 49; 50; 51; 52; 53; 54; 55; 56; 57; 97; 98; 99; 100; 101; 102].
Definition hex_upcase : list Z :=
  [48; 49; 50; 51; 52; 53; 54; 55; 56; 57; 65; 66; 67; 68; 69; 70].

Definition INT_MAX : Z := 0x7FFFFFFF.
Definition INT_MIN : Z := -0x80000000.
Definition SHRT_MAX : Z := 0x7FFF.
Definition CHAR_MAX : Z := 0x7F.

(** ** The conversion specification *)

(** The loop over the flags: (c, in, flags); [None] is [return -1]. *)
Definition flags_turn (format : list Z) (x : Z * Z * flags)
  : option (ctl (Z * Z * flags) (option (Z * Z * flags))) :=
  let '(c, i, f) := x in
  let next f := c ← format.[i]; Some (Next (c, i + 1, f)) in
  if c =? 0 then Some (Done None)
  else if c =? 45 then next (Flags true (flag_plus f) (flag_space f) (flag_zero f) (flag_alt f))
  else if c =? 43 then next (Flags (flag_minus f) true (flag_space f) (flag_zero f) (flag_alt f))
  else if c =? 32 then next (Flags (flag_minus f) (flag_plus f) true (flag_zero f) (flag_alt f))
  else if c =? 48 then next (Flags (flag_minus f) (flag_plus f) (flag_space f) true (flag_alt f))
  else if c =? 35 then next (Flags (flag_minus f) (flag_plus f) (flag_space f) (flag_zero f) true)
  else Some (Done (Some (c, i, f))).

(** The loops over the digits of the width and of the precision. *)
Definition number_turn (format : list Z) (x : Z * Z * Z)
  : option (ctl (Z * Z * Z) (option (Z * Z * Z))) :=
  let '(c, i, value) := x in
  if c =? 0 then Some (Done None)
  else if negb ((48 <=? c) && (c <=? 57)) then Some (Done (Some (c, i, value)))
  else
    let value := u32 (u32 (value * 10) + (c - 48)) in
    c ← format.[i]; Some (Next (c, i + 1, value)).

Definition read_flags (format : list Z) (i : Z) : option (option (Z * Z * flags)) :=
  c ← format.[i];
  while (S (length format)) (flags_turn format) (c, i + 1, Flags false false false false false).

Definition read_number (format : list Z) (c i : Z) : option (option (Z * Z * Z)) :=
  while (S (length format)) (number_turn format) (c, i, 0).

(** The next character, where the null byte ends the call. *)
Definition read_char (format : list Z) (i : Z) : option (option (Z * Z)) :=
  c ← format.[i]; Some (if c =? 0 then None else Some (c, i + 1)).

(** The field width: c, in, the width, flag_minus and the next argument. *)
Definition read_width (format : list Z) (va : nat → slot) (c i : Z) (minus : bool) (k : nat)
  : option (option (Z * Z * Z * bool * nat)) :=
  if c =? 42 then
    let val := swrap 32 (number (va k)) in
    let '(field_width, minus) :=
      if val <? 0
      then (if val >? INT_MIN then 0 - val else INT_MAX, true)
      else (val, minus) in
    r ← read_char format i;
    Some (match r with
          | None => None
          | Some (c, i) => Some (c, i, field_width, minus, S k)
          end)
  else
    r ← read_number format c i;
    Some (match r with
          | None => None
          | Some (c, i, field_width) => Some (c, i, field_width, minus, k)
          end).

(** The precision: c, in, precision, precision_set and the next argument. *)
Definition read_precision (format : list Z) (va : nat → slot) (c i : Z) (k : nat)
  : option (option (Z * Z * Z * bool * nat)) :=
  if negb (c =? 46) then Some (Some (c, i, 0, false, k))
  else
    r ← read_char format i;
    match r with
    | None => Some None
    | Some (c, i) =>
        if c =? 42 then
          let val := swrap 32 (number (va k)) in
          let '(precision, precision_set) := if val <? 0 then (0, false) else (val, true) in
          r ← read_char format i;
          Some (match r with
                | None => None
                | Some (c, i) => Some (c, i, precision, precision_set, S k)
                end)
        else
          r ← read_number format c i;
          Some (match r with
                | None => None
                | Some (c, i, precision) => Some (c, i, precision, true, k)
                end)
    end.

Definition read_length (format : list Z) (c i : Z) : option (Z * Z * length_modifier) :=
  '(i, length) ←
    (if c =? 104 then
       c' ← format.[i];
       Some (if c' =? 104 then (i + 1, length_modifier_hh) else (i, length_modifier_h))
     else if c =? 108 then
       c' ← format.[i];
       Some (if c' =? 108 then (i + 1, length_modifier_ellell) else (i, length_modifier_ell))
     else if c =? 106 then Some (i, length_modifier_j)
     else if c =? 122 then Some (i, length_modifier_z)
     else if c =? 116 then Some (i, length_modifier_tee)
     else if c =? 76 then Some (i, length_modifier_bell)
     else Some (i, length_modifier_none));
  if decide (length = length_modifier_none) then Some (c, i, length)
  else c ← format.[i]; Some (c, i + 1, length).

Record spec := Spec {
  flag : flags;
  field_width : Z;
  precision : Z;
  precision_set : bool;
  modifier : length_modifier;
  conversion : Z }.

Inductive parsed :=
| Malformed
| Percent (i : Z)
| Conversion (sp : spec) (i : Z) (k : nat).

(** What follows a '%' at [i - 1]. *)
Definition parse (format : list Z) (va : nat → slot) (i : Z) (k : nat) : option parsed :=
  r ← read_flags format i;
  match r with
  | None => Some Malformed
  | Some (c, i, f) =>
      if c =? 37 then Some (Percent i)
      else
        r ← read_width format va c i (flag_minus f) k;
        match r with
        | None => Some Malformed
        | Some (c, i, width, minus, k) =>
            r ← read_precision format va c i k;
            match r with
            | None => Some Malformed
            | Some (c, i, precision, set, k) =>
                '(c, i, length) ← read_length format c i;
                Some (Conversion
                        (Spec (Flags minus (flag_plus f) (flag_space f) (flag_zero f) (flag_alt f))
                           width precision set length c) i k)
            end
        end
  end.

(** ** Writing

    The state of the output is the buffer and [out]; [n] is the index of the
    last byte of the buffer, which stays free for the null byte. *)

Abbreviation output := (list Z * Z)%type.

(** [while (out < n && pads--) s[out++] = c] *)
Definition fill_turn (n c : Z) (x : output * Z) : option (ctl (output * Z) output) :=
  let '((s, out), pads) := x in
  if (out <? n) && negb (pads =? 0) then
    s ← s.[out <- c]; Some (Next ((s, out + 1), pads - 1))
  else Some (Done (s, out)).

Definition fill (n c pads : Z) (o : output) : option output :=
  while (S (Z.to_nat (n - snd o))) (fill_turn n c) (o, pads).

(** [if (out < n) s[out++] = c] *)
Definition put (n c : Z) (o : output) : option output :=
  let '(s, out) := o in
  if out <? n then s ← s.[out <- c]; Some (s, out + 1) else Some o.

(** [while (len-- && out < n) s[out++] = buf[len]] *)
Fixpoint put_buf (n : Z) (buf : list Z) (len : nat) (o : output) : option output :=
  match len with
  | O => Some o
  | S len =>
      let '(s, out) := o in
      if out <? n then
        c ← buf.[Z.of_nat len]; s ← s.[out <- c]; put_buf n buf len (s, out + 1)
      else Some o
  end.

(** The padding at the end of the conversions; [base] is where the field began. *)
Definition pad_right (n base field_width : Z) (o : output) : option output :=
  let len := u32 (snd o - base) in
  if len <? field_width then fill n 32 (field_width - len) o else Some o.

(** The digits of a number, the lowest first: (buf, len, val, i). *)
Definition digits_turn (first base : Z) (alphabet : list Z) (x : list Z * Z * Z * Z)
  : option (ctl (list Z * Z * Z * Z) (list Z * Z)) :=
  let '(buf, len, val, i) := x in
  if i <? 64 then
    let remainder := Z.rem val base in
    let val := Z.quot val base in
    if negb (i =? first) && (val =? 0) && (remainder =? 0) then Some (Done (buf, len))
    else
      let remainder := if remainder <? 0 then 0 - remainder else remainder in
      c ← alphabet.[remainder];
      buf ← buf.[len <- c];
      Some (Next (buf, len + 1, val, i + 1))
  else Some (Done (buf, len)).

Definition digits (first base : Z) (alphabet : list Z) (val : Z) : option (list Z * Z) :=
  while 65 (digits_turn first base alphabet) (replicate 64 0, 0, val, first).

Definition is_wide (l : length_modifier) : bool :=
  match l with
  | length_modifier_none | length_modifier_hh | length_modifier_h => false
  | _ => true
  end.

(** The width in bits of the integer that a length modifier asks for. *)
Definition int_bits (long_bits : Z) (l : length_modifier) : Z :=
  if negb (is_wide l) then 32
  else if decide (l = length_modifier_ell) then long_bits
  else 64.

(** ** The conversions *)

(** [%d] and [%i] *)
Definition convert_d (n : Z) (sp : spec) (ival : Z) (o : output) : option output :=
  let f := flag sp in
  let base := snd o in
  let negative := ival <? 0 in
  let sign := if negative then 45 else 43 in
  let '(sign, plus) :=
    if flag_space f && negb (flag_plus f)
    then (if negb negative then 32 else sign, true)
    else (sign, flag_plus f) in
  let nochars := precision_set sp && (ival =? 0) && (precision sp =? 0) in
  let zero := if precision_set sp then false else flag_zero f in
  let pad := if zero && negb (flag_minus f) then 48 else 32 in
  '(buf, len) ← digits 0 10 hex_normal ival;
  let max := if len >? precision sp then len else precision sp in
  '(o, sign) ←
    (if negb (flag_minus f) && (max <? field_width sp) then
       let pads := field_width sp - max in
       '(o, sign, pads) ←
         (if negative || plus then
            if zero && negb (flag_minus f)
            then o ← put n sign o; Some (o, 0, pads - 1)
            else Some (o, sign, pads - 1)
          else Some (o, sign, pads));
       let pads := if nochars then pads + 1 else pads in
       o ← fill n pad pads o;
       Some (o, sign)
     else Some (o, sign));
  o ← (if negb (sign =? 0) && (negative || plus) then put n sign o else Some o);
  o ← fill n 48 (max - len) o;
  o ← (if nochars then Some o else put_buf n buf (Z.to_nat len) o);
  pad_right n base (field_width sp) o.

(** What [%u], [%x], [%X], [%p] and [%o] do after the digits. *)
Definition convert_unsigned (n : Z) (sp : spec) (precision : Z) (nochars : bool) (pad : Z)
    (buf : list Z) (len : Z) (o : output) : option output :=
  let base := snd o in
  let max := if len >? precision then len else precision in
  o ← (if negb (flag_minus (flag sp)) && (max <? field_width sp) then
         let pads := field_width sp - max in
         let pads := if nochars then pads + 1 else pads in
         fill n pad pads o
       else Some o);
  o ← fill n 48 (max - len) o;
  o ← (if (nochars : bool) then Some o else put_buf n buf (Z.to_nat len) o);
  pad_right n base (field_width sp) o.

Definition pad_char (sp : spec) (set : bool) : Z :=
  let zero := if set then false else flag_zero (flag sp) in
  if zero && negb (flag_minus (flag sp)) then 48 else 32.

Definition convert_u (n : Z) (sp : spec) (uval : Z) (o : output) : option output :=
  let nochars := precision_set sp && (uval =? 0) && (precision sp =? 0) in
  '(buf, len) ← digits 0 10 hex_normal uval;
  convert_unsigned n sp (precision sp) nochars (pad_char sp (precision_set sp)) buf len o.

(** [%x], [%X] and [%p] *)
Definition convert_x (n : Z) (sp : spec) (uval : Z) (o : output) : option output :=
  let c := conversion sp in
  let precision := if c =? 112 then 16 else precision sp in
  let set := if c =? 112 then true else precision_set sp in
  let nochars := set && (uval =? 0) && (precision =? 0) in
  '(buf, len) ← digits 2 16 (if c =? 120 then hex_normal else hex_upcase) uval;
  '(buf, len) ←
    (if flag_alt (flag sp) then
       buf ← buf.[len <- if c =? 120 then 120 else 88];
       buf ← buf.[len + 1 <- 48];
       Some (buf, len + 2)
     else Some (buf, len));
  convert_unsigned n sp precision nochars (pad_char sp set) buf len o.

Definition convert_o (n : Z) (sp : spec) (uval : Z) (o : output) : option output :=
  let nochars := precision_set sp && (uval =? 0) && (precision sp =? 0) in
  '(buf, len) ← digits 1 8 hex_normal uval;
  '(buf, len) ←
    (if flag_alt (flag sp) then
       c ← buf.[len - 1];
       if negb (c =? 48) then buf ← buf.[len <- 48]; Some (buf, len + 1) else Some (buf, len)
     else Some (buf, len));
  convert_unsigned n sp (precision sp) nochars (pad_char sp (precision_set sp)) buf len o.

Definition convert_c (n : Z) (sp : spec) (uval : Z) (o : output) : option output :=
  let base := snd o in
  let width := field_width sp in
  o ← (if negb (flag_minus (flag sp)) && (1 <? width) then fill n 32 (width - 1) o else Some o);
  o ← put n (u8 uval) o;
  pad_right n base width o.

(** The number of bytes before the null byte, at most [max]. *)
Fixpoint string_length (fuel : nat) (p : list Z) (len max : Z) : option Z :=
  match fuel with
  | O => None
  | S fuel =>
      c ← p.[len];
      if negb (c =? 0) && (len <? max) then string_length fuel p (len + 1) max else Some len
  end.

(** [while (len < max && out < n) s[out++] = p[len++]] *)
Definition put_string_turn (n : Z) (p : list Z) (max : Z) (x : output * Z)
  : option (ctl (output * Z) output) :=
  let '((s, out), len) := x in
  if (len <? max) && (out <? n) then
    c ← p.[len]; s ← s.[out <- c]; Some (Next ((s, out + 1), len + 1))
  else Some (Done (s, out)).

Definition put_string (n : Z) (p : list Z) (max : Z) (o : output) : option output :=
  while (S (length p)) (put_string_turn n p max) (o, 0).

Definition convert_s (n : Z) (sp : spec) (p : list Z) (o : output) : option output :=
  let base := snd o in
  let max := if precision_set sp then precision sp else 0xFFFFFFFF in
  max ← string_length (S (length p)) p 0 max;
  o ← (if negb (flag_minus (flag sp)) && (max <? field_width sp)
       then fill n 32 (field_width sp - max) o else Some o);
  o ← put_string n p max o;
  pad_right n base (field_width sp) o.

(** [%n]: what is stored through the pointer, whose type the modifier tells. *)
Definition convert_n (l : length_modifier) (out : Z) : Z :=
  let n_out := if out <? INT_MAX then out else INT_MAX in
  match l with
  | length_modifier_hh => if n_out <? CHAR_MAX then n_out else CHAR_MAX
  | length_modifier_h => if n_out <? SHRT_MAX then n_out else SHRT_MAX
  | _ => n_out
  end.

(** One conversion: the output, the next argument and what [%n] stores; [None]
    inside is the unsupported specifier. *)
Definition convert (long_bits n : Z) (sp : spec) (x : slot) (o : output)
  : option (option (output * list (length_modifier * Z))) :=
  let c := conversion sp in
  let w := int_bits long_bits (modifier sp) in
  let plain (r : option output) := o ← r; Some (Some (o, [])) in
  if (c =? 100) || (c =? 105) then plain (convert_d n sp (swrap w (number x)) o)
  else if c =? 117 then plain (convert_u n sp (wrap w (number x)) o)
  else if (c =? 120) || (c =? 88) || (c =? 112) then
    plain (convert_x n sp (wrap (if c =? 112 then 64 else w) (number x)) o)
  else if c =? 111 then plain (convert_o n sp (wrap w (number x)) o)
  else if c =? 99 then
    plain (convert_c n sp
             (if decide (modifier sp = length_modifier_none)
              then u64 (swrap 32 (number x)) else u64 (number x)) o)
  else if c =? 115 then plain (convert_s n sp (text x) o)
  else if c =? 110 then
    Some (Some (o, [(modifier sp, convert_n (modifier sp) (snd o))]))
  else Some None.

(** ** The function *)

(** One turn of the loop over the format; the state is the output, [in], the
    next argument and the stores of [%n]. *)
Definition vsnprintf_turn (long_bits n : Z) (format : list Z) (va : nat → slot)
    (x : output * Z * nat * list (length_modifier * Z))
  : option (ctl (output * Z * nat * list (length_modifier * Z))
                (bool * output * list (length_modifier * Z))) :=
  let '((s, out), i, k, stores) := x in
  if out <? n then
    c ← format.[i];
    if c =? 0 then Some (Done (true, (s, out), stores))
    else if negb (c =? 37) then
      s ← s.[out <- c]; Some (Next ((s, out + 1), i + 1, k, stores))
    else
      p ← parse format va (i + 1) k;
      match p with
      | Malformed => Some (Done (false, (s, out), stores))
      | Percent i => s ← s.[out <- 37]; Some (Next ((s, out + 1), i, k, stores))
      | Conversion sp i k =>
          r ← convert long_bits n sp (va k) (s, out);
          Some (match r with
                | None => Done (false, (s, out), stores)
                | Some (o, st) => Next (o, i, S k, stores ++ st)
                end)
      end
  else Some (Done (true, (s, out), stores)).

(** The value, the buffer and the stores of [%n]; the size [n] is at least 0. *)
Definition vsnprintf (long_bits : Z) (s : list Z) (n : Z) (format : list Z) (va : nat → slot)
  : option (Z * list Z * list (length_modifier * Z)) :=
  if n <? 1 then Some (-1, s, [])
  else
    '(ok, (s, out), stores) ←
      while (S (length format)) (vsnprintf_turn long_bits (n - 1) format va) ((s, 0), 0, 0%nat, []);
    s ← s.[out <- 0];
    Some (if (ok : bool) then (if out <? INT_MAX then out else INT_MAX) else -1, s, stores).

Definition snprintf := vsnprintf.

(** ** Specification: the text of a conversion without a bound *)

(** The digits of a natural number, the lowest first. *)
Fixpoint low_digits (fuel : nat) (base m : Z) : list Z :=
  match fuel with
  | O => []
  | S fuel => if m =? 0 then [] else m mod base :: low_digits fuel base (m / base)
  end.

(** The number as it is written, the highest digit first. *)
Definition numeral (base m : Z) : list Z :=
  if m =? 0 then [0] else rev (low_digits 64 base m).

Definition digit_chars (alphabet : list Z) (ds : list Z) : list Z :=
  (λ d, default 0 (alphabet.[d])) <$> ds.

Definition spaces (k : Z) : list Z := replicate (Z.to_nat k) 32.
Definition zeros (k : Z) : list Z := replicate (Z.to_nat k) 48.
Definition size (l : list Z) : Z := Z.of_nat (length l).

Definition justify (minus : bool) (width : Z) (body : list Z) : list Z :=
  if minus then body ++ spaces (width - size body) else spaces (width - size body) ++ body.

(** A number in its field: sign, at least [prec] digits, padded to [width]
    with spaces, or with zeros behind the sign. *)
Definition number_text (minus zero : bool) (width prec : Z) (sign ds : list Z) : list Z :=
  let body := zeros (prec - size ds) ++ ds in
  if zero && negb minus then sign ++ zeros (width - size sign - size body) ++ body
  else justify minus width (sign ++ body).

Definition sign_text (f : flags) (v : Z) : list Z :=
  if v <? 0 then [45] else if flag_plus f then [43] else if flag_space f then [32] else [].

(** No digit is written for the value 0 with the explicit precision 0. *)
Definition digits_text (set : bool) (prec v : Z) (ds : list Z) : list Z :=
  if set && (v =? 0) && (prec =? 0) then [] else ds.

Definition text_d (sp : spec) (v : Z) : list Z :=
  number_text (flag_minus (flag sp)) (flag_zero (flag sp) && negb (precision_set sp))
    (field_width sp) (precision sp) (sign_text (flag sp) v)
    (digits_text (precision_set sp) (precision sp) v
       (digit_chars hex_normal (numeral 10 (Z.abs v)))).

Definition text_unsigned (sp : spec) (set : bool) (prec v : Z) (ds : list Z) : list Z :=
  number_text (flag_minus (flag sp)) (flag_zero (flag sp) && negb set)
    (field_width sp) prec [] (digits_text set prec v ds).

Definition text_u (sp : spec) (v : Z) : list Z :=
  text_unsigned sp (precision_set sp) (precision sp) v (digit_chars hex_normal (numeral 10 v)).

(** A hexadecimal number; %p has always sixteen digits. *)
Definition hex_set (sp : spec) : bool := (conversion sp =? 112) || precision_set sp.
Definition hex_precision (sp : spec) : Z := if conversion sp =? 112 then 16 else precision sp.
Definition hex_digits (sp : spec) (v : Z) : list Z :=
  digit_chars (if conversion sp =? 120 then hex_normal else hex_upcase) (numeral 16 v).
Definition hex_prefix (sp : spec) : list Z := [48; if conversion sp =? 120 then 120 else 88].

(** The text of the C standard: the alternative form puts the prefix before the
    zeros, and the number 0 has none. *)
Definition standard_x (sp : spec) (v : Z) : list Z :=
  number_text (flag_minus (flag sp)) (flag_zero (flag sp) && negb (hex_set sp)) (field_width sp) (hex_precision sp)
    (if flag_alt (flag sp) && negb (v =? 0) then hex_prefix sp else [])
    (digits_text (hex_set sp) (hex_precision sp) v (hex_digits sp v)).

(** Where this function deviates: an alternative form with zeros to put in, or of
    the number 0.  Then the prefix counts as two digits. *)
Definition deviates_x (sp : spec) (v : Z) : bool :=
  flag_alt (flag sp) &&
  ((v =? 0) || (size (hex_digits sp v) <? hex_precision sp) ||
   (flag_zero (flag sp) && negb (hex_set sp) && (size (hex_digits sp v) + 2 <? field_width sp))).

Definition text_x (sp : spec) (v : Z) : list Z :=
  if deviates_x sp v
  then text_unsigned sp (hex_set sp) (hex_precision sp) v (hex_prefix sp ++ hex_digits sp v)
  else standard_x sp v.

Definition text_o (sp : spec) (v : Z) : list Z :=
  let ds := digit_chars hex_normal (numeral 8 v) in
  let ds := if flag_alt (flag sp) && negb (v =? 0) then 48 :: ds else ds in
  text_unsigned sp (precision_set sp) (precision sp) v ds.

(** The bytes before the first null byte. *)
Fixpoint cstring (p : list Z) : list Z :=
  match p with
  | [] => []
  | c :: p => if c =? 0 then [] else c :: cstring p
  end.

(** How many bytes of a string are written at most. *)
Definition string_limit (sp : spec) : Z := if precision_set sp then precision sp else 0xFFFFFFFF.

Definition text_s (sp : spec) (p : list Z) : list Z :=
  justify (flag_minus (flag sp)) (field_width sp) (take (Z.to_nat (string_limit sp)) (cstring p)).

(** The array of a string can be read: it holds a null byte or more bytes than are
    written.  (The standard asks for as many only: the code reads one more.) *)
Definition string_fits (sp : spec) (p : list Z) : bool :=
  bool_decide (0 ∈ p) || (string_limit sp <? size p).

(** The text of a conversion; [None] is the unsupported specifier. *)
Definition conversion_text (long_bits : Z) (sp : spec) (x : slot) : option (list Z) :=
  let c := conversion sp in
  let w := int_bits long_bits (modifier sp) in
  if (c =? 100) || (c =? 105) then Some (text_d sp (swrap w (number x)))
  else if c =? 117 then Some (text_u sp (wrap w (number x)))
  else if (c =? 120) || (c =? 88) || (c =? 112) then
    Some (text_x sp (wrap (if c =? 112 then 64 else w) (number x)))
  else if c =? 111 then Some (text_o sp (wrap w (number x)))
  else if c =? 99 then
    Some (justify (flag_minus (flag sp)) (field_width sp) [u8 (number x)])
  else if c =? 115 then Some (text_s sp (text x))
  else if c =? 110 then Some []
  else None.

(** ** Writing into a bounded buffer *)

Definition output_ok (n : Z) (o : output) : Prop := 0 ≤ snd o ≤ n ∧ n < size (fst o).

(** [o'] is [o] after the text [l] has been written at [out], cut at [n]. *)
Definition wrote (n : Z) (o o' : output) (l : list Z) : Prop :=
  let k := Z.min (size l) (n - snd o) in
  snd o' = snd o + k ∧
  fst o' = take (Z.to_nat (snd o)) (fst o) ++ take (Z.to_nat k) l ++
           drop (Z.to_nat (snd o + k)) (fst o).

(** A statement writes a text, wherever the output stands. *)
Definition writes (n : Z) (f : output → option output) (l : list Z) : Prop :=
  ∀ o, output_ok n o → ∃ o', f o = Some o' ∧ wrote n o o' l.

Lemma size_app l1 l2 : size (l1 ++ l2) = size l1 + size l2.
Proof. unfold size. rewrite length_app. lia. Qed.

Lemma size_nonneg l : 0 ≤ size l.
Proof. unfold size. lia. Qed.

Lemma size_zeros k : size (zeros k) = Z.max k 0.
Proof. unfold size, zeros. rewrite length_replicate. lia. Qed.

Lemma size_spaces k : size (spaces k) = Z.max k 0.
Proof. unfold size, spaces. rewrite length_replicate. lia. Qed.

Lemma wrote_ok n o o' l :
  output_ok n o → wrote n o o' l → output_ok n o' ∧ size (fst o') = size (fst o).
Proof.
  intros [Ho Hs] [Hout Hfst]. pose proof (size_nonneg l).
  assert (Hsz : size (fst o') = size (fst o)).
  { rewrite Hfst. unfold size in *. rewrite !length_app, !length_take, length_drop. lia. }
  split; [|done]. unfold output_ok. rewrite Hsz, Hout. lia.
Qed.

Lemma wrote_full n o l : snd o = n → wrote n o o l.
Proof.
  intros Hn. unfold wrote. pose proof (size_nonneg l).
  replace (Z.min (size l) (n - snd o)) with 0 by lia. change (Z.to_nat 0) with 0%nat; rewrite take_0, app_nil_l.
  rewrite Z.add_0_r. rewrite take_drop. done.
Qed.

Lemma wrote_nil n o : snd o ≤ n → wrote n o o [].
Proof.
  intros Hn. unfold wrote. replace (Z.min (size []) (n - snd o)) with 0 by (unfold size; cbn; lia).
  change (Z.to_nat 0) with 0%nat; rewrite take_0, app_nil_l. rewrite Z.add_0_r, take_drop. done.
Qed.

Lemma wrote_trans n o o1 o2 l1 l2 :
  output_ok n o → wrote n o o1 l1 → wrote n o1 o2 l2 → wrote n o o2 (l1 ++ l2).
Proof.
  intros Hok H1 H2. destruct (wrote_ok n o o1 l1 Hok H1) as [Hok1 Hsz1].
  destruct Hok as [Ho Hs], Hok1 as [Ho1 Hs1].
  destruct o as [s out], o1 as [s1 out1], o2 as [s2 out2]. unfold wrote in *.
  cbn [fst snd] in *. destruct H1 as [-> Hf1], H2 as [-> ->].
  pose proof (size_nonneg l1). pose proof (size_nonneg l2). rewrite size_app.
  set (k1 := Z.min (size l1) (n - out)) in *.
  set (k2 := Z.min (size l2) (n - (out + k1))) in *.
  assert (Hk1 : k1 = Z.min (size l1) (n - out)) by done.
  assert (Hk2 : k2 = Z.min (size l2) (n - (out + k1))) by done. clearbody k1 k2.
  replace (Z.min (size l1 + size l2) (n - out)) with (k1 + k2) by lia.
  split; [lia|]. unfold size in *.
  assert (Hl : length (take (Z.to_nat out) s ++ take (Z.to_nat k1) l1) = Z.to_nat (out + k1))
    by (rewrite length_app, !length_take; lia).
  rewrite Hf1, !(app_assoc (take (Z.to_nat out) s) (take (Z.to_nat k1) l1)).
  rewrite (take_app_le _ _ (Z.to_nat (out + k1))), (take_ge _ (Z.to_nat (out + k1))) by lia.
  rewrite drop_app_ge, Hl, drop_drop by lia. rewrite <- !app_assoc. f_equal.
  destruct (decide (k1 = Z.of_nat (length l1))).
  - rewrite (take_ge l1), take_app_ge by lia. rewrite <- app_assoc.
    do 2 f_equal; f_equal; lia.
  - assert (k2 = 0) as -> by lia. change (Z.to_nat 0) with 0%nat. rewrite take_0, app_nil_l.
    rewrite take_app_le by lia. f_equal; f_equal; lia.
Qed.

Lemma wrote_store n s out c :
  output_ok n (s, out) → out < n →
  ∃ s', s.[out <- c] = Some s' ∧ wrote n (s, out) (s', out + 1) [c].
Proof.
  intros [Ho Hs] Hlt. cbn [fst snd] in *. unfold size in *.
  exists (<[Z.to_nat out := c]> s). split; [apply wr_Some; lia|].
  unfold wrote, size. cbn [fst snd length].
  replace (Z.min (Z.of_nat 1) (n - out)) with 1 by lia. split; [done|].
  rewrite insert_take_drop by lia. cbn. do 3 f_equal; lia.
Qed.

Lemma writes_wrote n f l o o1 l1 :
  writes n f l → output_ok n o → wrote n o o1 l1 →
  ∃ o2, f o1 = Some o2 ∧ wrote n o o2 (l1 ++ l).
Proof.
  intros Hf Hok H1. destruct (wrote_ok _ _ _ _ Hok H1) as [Hok1 _].
  destruct (Hf o1 Hok1) as (o2 & H2 & Hw). exists o2. split; [done|]. by eapply wrote_trans.
Qed.

Lemma writes_seq n f g l1 l2 :
  writes n f l1 → writes n g l2 → writes n (λ o, o ← f o; g o) (l1 ++ l2).
Proof.
  intros Hf Hg o Hok. destruct (Hf o Hok) as (o1 & H1 & Hw1). rewrite H1.
  apply (writes_wrote n g l2 o o1 l1 Hg Hok Hw1).
Qed.

Lemma writes_skip n : writes n Some [].
Proof. intros o [Ho _]. exists o. split; [done|]. apply wrote_nil. lia. Qed.

Lemma writes_if n (b : bool) f g l1 l2 :
  (b = true → writes n f l1) → (b = false → writes n g l2) →
  writes n (λ o, if b then f o else g o) (if b then l1 else l2).
Proof. destruct b; auto. Qed.

Lemma writes_put n c : writes n (put n c) [c].
Proof.
  intros [s out] Hok. unfold put. destruct (Z.ltb_spec out n) as [Hlt|Hge].
  - destruct (wrote_store n s out c Hok Hlt) as (s' & Hs & Hw). rewrite Hs. cbn. eauto.
  - eexists. split; [done|]. apply wrote_full. destruct Hok as [Ho _]. cbn in *. lia.
Qed.

Lemma writes_fill n c pads : 0 ≤ pads → writes n (fill n c pads) (replicate (Z.to_nat pads) c).
Proof.
  intros Hp o Hok. unfold fill.
  destruct (while_total
    (λ x : output * Z, ∃ k, wrote n o (fst x) (replicate k c) ∧
       Z.of_nat k + snd x = pads ∧ 0 ≤ snd x)
    (λ x : output * Z, Z.to_nat (n - snd (fst x)))
    (λ r, wrote n o r (replicate (Z.to_nat pads) c))
    (fill_turn n c)) with (fuel := S (Z.to_nat (n - snd o))) (s := (o, pads)) as (r & Hw & Hr).
  - intros [[s out] p] (k & Hw & Hk & Hp0). cbn [fst snd] in *.
    destruct (wrote_ok _ _ _ _ Hok Hw) as [Hok1 _]. unfold fill_turn.
    destruct (Z.ltb_spec out n) as [Hlt|Hge]; [destruct (Z.eqb_spec p 0) as [->|Hp1]|];
      cbn [andb negb].
    + eexists; split; [done|]. cbn. by replace (Z.to_nat pads) with k by lia.
    + destruct (wrote_store n s out c Hok1 Hlt) as (s' & Hs & Hw1). rewrite Hs.
      cbn [mbind option_bind]. eexists; split; [done|]. cbn. split; [|lia].
      exists (S k). split; [|lia]. rewrite replicate_S_end. by eapply wrote_trans.
    + eexists; split; [done|]. cbn. assert (out = n) by (destruct Hok1; cbn in *; lia).
      replace (Z.to_nat pads) with (k + Z.to_nat p)%nat by lia. rewrite replicate_add.
      eapply wrote_trans; [done|exact Hw|]. by apply wrote_full.
  - exists 0%nat. split; [apply wrote_nil; destruct Hok; cbn in *; lia|]. cbn. lia.
  - cbn. lia.
  - eauto.
Qed.

(** [put_buf] writes the first [len] bytes of [buf], the last one first. *)
Lemma writes_put_buf n buf len :
  (len ≤ length buf)%nat → writes n (put_buf n buf len) (rev (take len buf)).
Proof.
  induction len as [|len IH]; intros Hlen; [apply writes_skip|].
  intros [s out] Hok. cbn [put_buf].
  destruct (lookup_lt_is_Some_2 buf len) as [c Hc]; [lia|].
  rewrite (take_S_r buf len c Hc), rev_app_distr. cbn [rev app].
  destruct (Z.ltb_spec out n) as [Hlt|Hge].
  - rewrite (proj2 (rd_Some buf (Z.of_nat len) c)) by (rewrite Nat2Z.id; split; [lia|done]).
    cbn [mbind option_bind].
    destruct (wrote_store n s out c Hok Hlt) as (s' & Hs & Hw). rewrite Hs.
    cbn [mbind option_bind].
    destruct (writes_wrote n _ _ _ _ _ (IH ltac:(lia)) Hok Hw) as (o2 & H2 & Hw2). eauto.
  - eexists. split; [done|]. apply wrote_full. destruct Hok as [Ho _]. cbn in *. lia.
Qed.

Lemma writes_put_string n p max :
  0 ≤ max ≤ size p → writes n (put_string n p max) (take (Z.to_nat max) p).
Proof.
  intros Hmax o Hok. unfold put_string, size in *.
  destruct (while_total
    (λ x : output * Z, wrote n o (fst x) (take (Z.to_nat (snd x)) p) ∧ 0 ≤ snd x ≤ max)
    (λ x : output * Z, Z.to_nat (max - snd x))
    (λ r, wrote n o r (take (Z.to_nat max) p))
    (put_string_turn n p max)) with (fuel := S (length p)) (s := (o, 0)) as (r & Hw & Hr).
  - intros [[s out] len] [Hw Hl]. cbn [fst snd] in *.
    destruct (wrote_ok _ _ _ _ Hok Hw) as [Hok1 _]. unfold put_string_turn.
    destruct (Z.ltb_spec len max) as [Hlt|Hge]; [destruct (Z.ltb_spec out n) as [Hn|Hn]|];
      cbn [andb].
    + destruct (rd_is_Some p len) as [c Hc]; [lia|]. rewrite Hc. cbn [mbind option_bind].
      destruct (wrote_store n s out c Hok1 Hn) as (s' & Hs & Hw1). rewrite Hs.
      cbn [mbind option_bind]. eexists; split; [done|]. cbn. split; [|lia]. split; [|lia].
      replace (Z.to_nat (len + 1)) with (S (Z.to_nat len)) by lia.
      apply rd_Some in Hc as [_ Hc]. rewrite (take_S_r p _ c Hc). by eapply wrote_trans.
    + eexists; split; [done|]. cbn. assert (out = n) by (destruct Hok1; cbn in *; lia).
      rewrite <- (take_drop (Z.to_nat len) p), take_app_ge by (rewrite length_take; lia).
      eapply wrote_trans; [done|exact Hw|]. by apply wrote_full.
    + eexists; split; [done|]. cbn. by replace max with len by lia.
  - split; [apply wrote_nil; destruct Hok; cbn in *; lia|cbn; lia].
  - cbn. lia.
  - eauto.
Qed.

Lemma wrote_full_inv n o o' l : snd o = n → wrote n o o' l → o' = o.
Proof.
  intros Hn [Ho Hf]. pose proof (size_nonneg l).
  replace (Z.min (size l) (n - snd o)) with 0 in Ho, Hf by lia.
  rewrite take_0, app_nil_l, Z.add_0_r, take_drop in Hf.
  destruct o, o'. cbn in *. f_equal; [done|lia].
Qed.

(** The padding at the end brings the field to its width. *)
Lemma pad_right_spec n o o1 l width :
  n < 2 ^ 32 → output_ok n o → wrote n o o1 l →
  ∃ o2, pad_right n (snd o) width o1 = Some o2 ∧ wrote n o o2 (l ++ spaces (width - size l)).
Proof.
  intros Hn Hok Hw. pose proof (size_nonneg l).
  destruct (wrote_ok _ _ _ _ Hok Hw) as [Hok1 _].
  pose proof Hok as [Ho _]. pose proof Hok1 as [Ho1 _]. pose proof Hw as [Hout _].
  unfold pad_right. rewrite wrap_small by lia.
  assert (Hfull : snd o1 = n → wrote n o o1 (l ++ spaces (width - size l)))
    by (intros; eapply wrote_trans; [done|exact Hw|by apply wrote_full]).
  destruct (Z.ltb_spec (snd o1 - snd o) width) as [Hlt|Hge].
  - destruct (decide (snd o1 = n)) as [Hf|Hnf].
    + destruct (writes_fill n 32 (width - (snd o1 - snd o)) ltac:(lia) o1 Hok1) as (o2 & H2 & Hw2).
      apply wrote_full_inv in Hw2 as ->; [|done]. eauto.
    + apply (writes_wrote n); [|done|done].
      replace (snd o1 - snd o) with (size l) by lia. apply writes_fill. lia.
  - eexists; split; [done|]. destruct (decide (snd o1 = n)); [by apply Hfull|].
    replace (spaces (width - size l)) with (@nil Z); [by rewrite app_nil_r|].
    unfold spaces. by replace (Z.to_nat (width - size l)) with 0%nat by lia.
Qed.

(** ** The digits of a number *)

Lemma low_digits_enough f1 f2 base m :
  2 ≤ base → 0 ≤ m < base ^ Z.of_nat f1 → m < base ^ Z.of_nat f2 →
  low_digits f1 base m = low_digits f2 base m.
Proof.
  revert f2 m. induction f1 as [|f1 IH]; intros f2 m Hb H1 H2.
  { assert (m = 0) as -> by (cbn in H1; lia). by destruct f2. }
  destruct f2 as [|f2]; cbn [low_digits].
  { assert (m = 0) as -> by (cbn in H2; lia). done. }
  destruct (Z.eqb_spec m 0); [done|]. f_equal. apply IH; [done| |].
  - rewrite Nat2Z.inj_succ, Z.pow_succ_r in H1 by lia.
    split; [apply Z.div_pos; lia|]. apply Z.div_lt_upper_bound; lia.
  - rewrite Nat2Z.inj_succ, Z.pow_succ_r in H2 by lia. apply Z.div_lt_upper_bound; lia.
Qed.

Lemma low_digits_length f base m :
  2 ≤ base → 0 ≤ m < base ^ Z.of_nat f → (length (low_digits f base m) ≤ f)%nat.
Proof.
  revert m. induction f as [|f IH]; intros m Hb Hm; [done|]. cbn [low_digits].
  destruct (m =? 0); cbn [length]; [lia|].
  rewrite Nat2Z.inj_succ, Z.pow_succ_r in Hm by lia.
  apply le_n_S, IH; [done|].
  split; [apply Z.div_pos; lia|]. apply Z.div_lt_upper_bound; lia.
Qed.

Lemma low_digits_range f base m d : 2 ≤ base → d ∈ low_digits f base m → 0 ≤ d < base.
Proof.
  revert m. induction f as [|f IH]; intros m Hb; cbn [low_digits]; [by intros ?%elem_of_nil|].
  destruct (m =? 0); [by intros ?%elem_of_nil|].
  intros [->|Hd]%elem_of_cons; [apply Z.mod_pos_bound; lia|by eapply IH].
Qed.

(** The number that a list of digits stands for, the highest first. *)
Definition value_of (base : Z) (ds : list Z) : Z := fold_left (λ v d, v * base + d) ds 0.

Lemma value_of_snoc base ds d : value_of base (ds ++ [d]) = value_of base ds * base + d.
Proof. unfold value_of. by rewrite fold_left_app. Qed.

Lemma value_of_low_digits f base m :
  2 ≤ base → 0 ≤ m < base ^ Z.of_nat f → value_of base (rev (low_digits f base m)) = m.
Proof.
  revert m. induction f as [|f IH]; intros m Hb Hm; [cbn in *; lia|]. cbn [low_digits].
  destruct (Z.eqb_spec m 0) as [->|Hm0]; [done|]. cbn [rev]. rewrite value_of_snoc.
  rewrite Nat2Z.inj_succ, Z.pow_succ_r in Hm by lia. rewrite IH; [|done|].
  - pose proof (Z.div_mod m base). lia.
  - split; [apply Z.div_pos; lia|]. apply Z.div_lt_upper_bound; lia.
Qed.

Lemma value_of_numeral base m : 2 ≤ base → 0 ≤ m < 2 ^ 64 → value_of base (numeral base m) = m.
Proof.
  intros Hb Hm. unfold numeral. destruct (Z.eqb_spec m 0) as [->|]; [done|].
  apply value_of_low_digits; [done|]. split; [lia|]. apply Z.lt_le_trans with (1 := proj2 Hm).
  apply Z.pow_le_mono_l. lia.
Qed.

Lemma quot_abs v b : 0 < b → Z.abs (Z.quot v b) = Z.abs v / b.
Proof.
  intros Hb. rewrite <- Z.quot_abs, (Z.abs_eq b) by lia. apply Z.quot_div_nonneg; lia.
Qed.

Lemma rem_abs v b : 0 < b → (if Z.rem v b <? 0 then 0 - Z.rem v b else Z.rem v b) = Z.abs v mod b.
Proof.
  intros Hb. rewrite <- Z.rem_mod_nonneg, Z.rem_abs_l by lia.
  destruct (Z.ltb_spec (Z.rem v b) 0); lia.
Qed.

Section Digits.
Context (first base : Z) (alphabet : list Z).
Context (Hfirst : 0 ≤ first ≤ 2) (Hbase : 8 ≤ base ≤ 16) (Halpha : length alphabet = 16%nat).

Lemma alphabet_rd d : 0 ≤ d < base → alphabet.[d] = Some (default 0 (alphabet.[d])).
Proof. intros Hd. destruct (rd_is_Some alphabet d) as [c Hc]; [lia|]. by rewrite Hc. Qed.

(** One digit is stored. *)
Lemma digits_store buf len v i :
  length buf = 64%nat → 0 ≤ len < 64 → i < 64 → (i = first ∨ v ≠ 0) →
  digits_turn first base alphabet (buf, len, v, i)
  = Some (Next (<[Z.to_nat len := default 0 (alphabet.[Z.abs v mod base])]> buf,
                len + 1, Z.quot v base, i + 1)).
Proof.
  intros Hbuf Hlen Hi Hv. unfold digits_turn. rewrite (proj2 (Z.ltb_lt _ _)) by lia.
  replace (negb (i =? first) && (Z.quot v base =? 0) && (Z.rem v base =? 0)) with false.
  - rewrite rem_abs by lia. rewrite alphabet_rd by (apply Z.mod_pos_bound; lia).
    cbn [mbind option_bind]. rewrite wr_Some by lia. done.
  - destruct (Z.eqb_spec i first); [done|]. cbn [negb andb].
    destruct (Z.eqb_spec (Z.quot v base) 0), (Z.eqb_spec (Z.rem v base) 0); try done.
    pose proof (Z.quot_rem' v base). lia.
Qed.

Lemma digits_stop buf len :
  0 < len → first + len < 64 →
  digits_turn first base alphabet (buf, len, 0, first + len) = Some (Done (buf, len)).
Proof.
  intros H1 H2. unfold digits_turn.
  rewrite (proj2 (Z.ltb_lt _ _)), (proj2 (Z.eqb_neq (first + len) first)) by lia.
  rewrite Z.quot_0_l, Z.rem_0_l by lia. done.
Qed.

Lemma digits_loop f : ∀ fuel buf len v i,
  length buf = 64%nat → Z.abs v < base ^ Z.of_nat f → 0 < len → i = first + len →
  len + Z.of_nat f ≤ 60 → (f < fuel)%nat →
  ∃ buf', let ds := low_digits f base (Z.abs v) in
    while fuel (digits_turn first base alphabet) (buf, len, v, i) = Some (buf', len + size ds) ∧
    length buf' = 64%nat ∧
    take (Z.to_nat (len + size ds)) buf' = take (Z.to_nat len) buf ++ digit_chars alphabet ds.
Proof.
  induction f as [|f IH]; intros fuel buf len v i Hbuf Hv Hlen -> Hf Hfuel;
    (destruct fuel as [|fuel]; [lia|]).
  - assert (v = 0) as -> by (cbn in Hv; lia). exists buf. cbn zeta. cbn [low_digits].
    change (size []) with 0. rewrite Z.add_0_r. cbn [while]. rewrite digits_stop by lia.
    cbn. by rewrite app_nil_r.
  - cbn [low_digits]. destruct (Z.eqb_spec (Z.abs v) 0) as [Hz|Hnz].
    { assert (v = 0) as -> by lia. exists buf. cbn zeta.
      change (size []) with 0. rewrite Z.add_0_r. cbn [while]. rewrite digits_stop by lia.
      cbn. by rewrite app_nil_r. }
    cbn [while]. rewrite digits_store by lia. cbn [mbind option_bind].
    rewrite Nat2Z.inj_succ, Z.pow_succ_r in Hv by lia.
    destruct (IH fuel (<[Z.to_nat len := default 0 (alphabet.[Z.abs v mod base])]> buf)
                (len + 1) (Z.quot v base) (first + len + 1)) as (buf' & Hw & Hl & Ht);
      [by rewrite length_insert| |lia|lia|lia|lia|].
    { rewrite quot_abs by lia. apply Z.div_lt_upper_bound; lia. }
    rewrite quot_abs in Hw, Ht by lia. exists buf'. cbn zeta.
    set (ds := low_digits f base (Z.abs v / base)) in *.
    replace (len + size (Z.abs v mod base :: ds)) with (len + 1 + size ds)
      by (unfold size; cbn [length]; lia).
    split; [done|]. split; [done|]. rewrite Ht.
    replace (Z.to_nat (len + 1)) with (S (Z.to_nat len)) by lia.
    rewrite (take_S_r _ _ (default 0 (alphabet.[Z.abs v mod base])))
      by (rewrite list_lookup_insert_eq by lia; done).
    rewrite take_insert_ge by lia. rewrite <- app_assoc. done.
Qed.

Lemma digits_spec v :
  Z.abs v < 2 ^ 64 →
  let ds := digit_chars alphabet (numeral base (Z.abs v)) in
  ∃ buf, digits first base alphabet v = Some (buf, size ds) ∧ length buf = 64%nat ∧
    take (length ds) buf = rev ds ∧ 0 < size ds ≤ 60.
Proof.
  intros Hv ds. unfold digits. cbn [while].
  rewrite digits_store by (rewrite ?length_replicate; lia || by left). cbn [mbind option_bind].
  assert (Hpow : 2 ^ 64 ≤ base ^ Z.of_nat 22).
  { apply Z.le_trans with (8 ^ Z.of_nat 22); [done|]. apply Z.pow_le_mono_l. lia. }
  destruct (digits_loop 22 64 (<[Z.to_nat 0 := default 0 (alphabet.[Z.abs v mod base])]>
              (replicate 64 0)) 1 (Z.quot v base) (first + 1)) as (buf & Hw & Hl & Ht);
    [by rewrite length_insert, length_replicate| |lia|lia|lia|lia|].
  { rewrite quot_abs by lia. apply Z.le_lt_trans with (Z.abs v); [|lia].
    apply Z.div_le_upper_bound; [lia|]. nia. }
  rewrite quot_abs in Hw, Ht by lia.
  assert (Hds : ds = rev (digit_chars alphabet
                  (Z.abs v mod base :: low_digits 22 base (Z.abs v / base)))).
  { subst ds. unfold numeral. destruct (Z.eqb_spec (Z.abs v) 0) as [->|Hnz]; [done|].
    unfold digit_chars. rewrite <- map_rev. do 2 f_equal.
    rewrite (low_digits_enough 64 23 base (Z.abs v)); [|lia| |].
    - cbn [low_digits]. by destruct (Z.eqb_spec (Z.abs v) 0).
    - split; [lia|]. apply Z.lt_le_trans with (1 := Hv). apply Z.le_trans with (1 := Hpow).
      apply Z.pow_le_mono_r; lia.
    - apply Z.lt_le_trans with (1 := Hv). apply Z.le_trans with (1 := Hpow).
      apply Z.pow_le_mono_r; lia. }
  assert (Hlow : (length (low_digits 22 base (Z.abs v / base)) ≤ 22)%nat).
  { apply low_digits_length; [lia|]. split; [apply Z.div_pos; lia|].
    apply Z.le_lt_trans with (Z.abs v); [apply Z.div_le_upper_bound; [lia|nia]|lia]. }
  assert (Hsz : size ds = 1 + size (low_digits 22 base (Z.abs v / base))).
  { rewrite Hds. unfold size, digit_chars. rewrite length_rev, length_fmap. cbn [length]. lia. }
  exists buf. rewrite Hsz. split; [exact Hw|]. split; [done|].
  split; [|unfold size in *; lia].
  replace (length ds) with (Z.to_nat (1 + size (low_digits 22 base (Z.abs v / base))))
    by (unfold size in *; lia).
  rewrite Ht, Hds, rev_involutive. done.
Qed.
End Digits.

(** ** The conversions write their texts *)

Lemma zeros_0 k : k ≤ 0 → zeros k = [].
Proof. intros. unfold zeros. by replace (Z.to_nat k) with 0%nat by lia. Qed.

Lemma spaces_0 k : k ≤ 0 → spaces k = [].
Proof. intros. unfold spaces. by replace (Z.to_nat k) with 0%nat by lia. Qed.

Lemma spaces_add a b : 0 ≤ a → 0 ≤ b → spaces a ++ spaces b = spaces (a + b).
Proof. intros. unfold spaces. rewrite <- replicate_add. f_equal. lia. Qed.

Lemma writes_ext n f l l' : writes n f l → l = l' → writes n f l'.
Proof. by intros ? <-. Qed.

(** The next statement of a conversion writes its text: [Hw] says what has been
    written since [o]. *)
Ltac write_step H :=
  match goal with
  | Hok : output_ok ?n ?o, Hw : wrote ?n ?o ?o1 ?l |- _ =>
      let o2 := fresh "o" in
      let H2 := fresh "H" in
      let Hw2 := fresh "Hw" in
      destruct (writes_wrote n _ _ o o1 l H Hok Hw) as (o2 & H2 & Hw2);
      rewrite H2; cbn [mbind option_bind]; clear H2 Hw; rename Hw2 into Hw
  end.

(** The last statement pads the field; what is left is the arithmetic of the text. *)
Ltac write_end :=
  match goal with
  | Hn : ?n < 2 ^ 32, Hok : output_ok ?n ?o, Hw : wrote ?n ?o ?o1 ?l |- context [pad_right _ _ ?w _] =>
      let o2 := fresh "o" in
      let H2 := fresh "H" in
      let Hw2 := fresh "Hw" in
      destruct (pad_right_spec n o o1 l w Hn Hok Hw) as (o2 & H2 & Hw2);
      exists o2; split; [exact H2|]; revert Hw2; clear Hw
  end.

(** Padding on the left, digits, padding on the right: the field as the
    specification has it. *)
Lemma field_text (minus zero : bool) (width prec : Z) (sign ds left : list Z) :
  left = (if negb minus && (Z.max (size ds) prec <? width - size sign)
          then (if zero then sign else []) ++
               replicate (Z.to_nat (width - size sign - Z.max (size ds) prec))
                 (if zero then 48 else 32) ++ (if zero then [] else sign)
          else sign) →
  let body := left ++ zeros (Z.max (size ds) prec - size ds) ++ ds in
  body ++ spaces (width - size body) = number_text minus zero width prec sign ds.
Proof.
  intros ->. cbv zeta. unfold number_text, justify.
  replace (zeros (prec - size ds)) with (zeros (Z.max (size ds) prec - size ds))
    by (unfold zeros; f_equal; lia).
  set (b := zeros (Z.max (size ds) prec - size ds) ++ ds).
  assert (Hb : size b = Z.max (size ds) prec) by (unfold b; rewrite size_app, size_zeros; lia).
  destruct minus; cbn [negb andb]; [by rewrite andb_false_r|].
  rewrite andb_true_r, <- Hb. pose proof (size_nonneg sign).
  destruct (Z.ltb_spec (size b) (width - size sign)) as [Hlt|Hge].
  - rewrite (spaces_0 (width - size (_ ++ b))), app_nil_r.
    + destruct zero; cbn [app].
      * rewrite app_nil_r, <- app_assoc. done.
      * rewrite size_app, <- app_assoc. unfold spaces. do 3 f_equal. lia.
    + rewrite !size_app. unfold size at 2. rewrite length_replicate.
      destruct zero; change (size []) with 0; lia.
  - rewrite size_app, (spaces_0 (width - (size sign + size b))), app_nil_r by lia.
    destruct zero; [by rewrite zeros_0 by lia|done].
Qed.

Lemma writes_left n minus max width pads pad :
  pads = width - max ∨ (max < width → 0 ≤ pads) → 
  writes n (λ o, if negb minus && (max <? width) then fill n pad pads o else Some o)
    (if negb minus && (max <? width) then replicate (Z.to_nat pads) pad else []).
Proof.
  intros Hp. apply writes_if; [intros [_ Hlt%Z.ltb_lt]%andb_prop|intros _; apply writes_skip].
  apply writes_fill. destruct Hp; lia.
Qed.

Lemma max_if a b : (if a >? b then a else b) = Z.max a b.
Proof. destruct (Z.gtb_spec a b); lia. Qed.

(** The part that the unsigned conversions share. *)
Lemma writes_unsigned n sp set prec v pad buf ds :
  n < 2 ^ 32 → 0 ≤ field_width sp → 0 ≤ prec →
  0 < size ds → take (length ds) buf = rev ds → (length ds ≤ length buf)%nat →
  pad = pad_char sp set →
  writes n (convert_unsigned n sp prec (set && (v =? 0) && (prec =? 0)) pad buf (size ds))
    (text_unsigned sp set prec v ds).
Proof.
  intros Hn Hwidth Hprec Hds Hbuf Hlen -> o Hok. unfold convert_unsigned, text_unsigned, digits_text.
  rewrite max_if. unfold pad_char. set (minus := flag_minus (flag sp)).
  set (width := field_width sp) in *. set (m := Z.max (size ds) prec).
  assert (Hm : size ds ≤ m) by lia.
  destruct (set && (v =? 0) && (prec =? 0)) eqn:Hno.
  - apply andb_prop in Hno as [[-> Hv]%andb_prop Hp%Z.eqb_eq]. subst prec.
    rewrite andb_false_r. cbn [andb negb].
    destruct (writes_left n minus m width (width - m + 1) 32 ltac:(right; lia) o Hok)
      as (o1 & H1 & Hw1).
    rewrite H1. cbn [mbind option_bind].
    write_step (writes_fill n 48 (m - size ds) ltac:(lia)).
    write_end. intros Hw. replace (number_text _ _ _ _ _ _) with (spaces width).
    2: { unfold number_text, justify. change (size []) with 0. rewrite (zeros_0 (0 - 0)) by lia.
         cbn [app andb]. change (size []) with 0. rewrite Z.sub_0_r, app_nil_r. by destruct minus. }
    refine (eq_rect _ (wrote n o _) Hw _ _).
    change (replicate (Z.to_nat (m - size ds)) 48) with (zeros (m - size ds)).
    rewrite zeros_0, app_nil_r by lia.
    destruct (negb minus && (m <? width)) eqn:E.
    + apply andb_prop in E as [_ E%Z.ltb_lt].
      change (replicate (Z.to_nat (width - m + 1)) 32) with (spaces (width - m + 1)).
      rewrite size_spaces, spaces_add by lia. f_equal. lia.
    + unfold size. cbn. by rewrite Z.sub_0_r.
  - destruct (writes_left n minus m width (width - m)
                (if (if set then false else flag_zero (flag sp)) && negb minus then 48 else 32)
                (or_introl eq_refl) o Hok) as (o1 & H1 & Hw1).
    rewrite H1. cbn [mbind option_bind].
    write_step (writes_fill n 48 (m - size ds) ltac:(lia)).
    unfold size at 1. rewrite Nat2Z.id. write_step (writes_put_buf n buf (length ds) Hlen).
    write_end. intros Hw. refine (eq_rect _ (wrote n o _) Hw _ _).
    rewrite Hbuf, rev_involutive.
    rewrite <- (app_assoc _ (replicate (Z.to_nat (m - size ds)) 48) ds).
    refine (field_text minus _ width prec [] ds _ _).
    fold m. change (size []) with 0. rewrite !Z.sub_0_r.
    destruct minus, set, (flag_zero (flag sp)), (m <? width); cbn [negb andb app];
      rewrite ?app_nil_r; reflexivity.
Qed.

Lemma writes_u n sp v :
  n < 2 ^ 32 → 0 ≤ field_width sp → 0 ≤ precision sp → 0 ≤ v < 2 ^ 64 →
  writes n (convert_u n sp v) (text_u sp v).
Proof.
  intros Hn Hw Hp Hv. unfold convert_u, text_u.
  destruct (digits_spec 0 10 hex_normal ltac:(lia) ltac:(lia) eq_refl v ltac:(lia))
    as (buf & Hd & Hl & Ht & Hs).
  rewrite Z.abs_eq in * by lia. set (ds := digit_chars hex_normal (numeral 10 v)) in *.
  intros o Hok. rewrite Hd. cbn [mbind option_bind].
  apply (writes_unsigned n sp (precision_set sp) (precision sp) v _ buf ds); try done; try lia.
  unfold size in *. lia.
Qed.

(** [buf[len++] = c] *)
Lemma buf_push buf ds c :
  take (length ds) buf = rev ds → (length ds < length buf)%nat →
  ∃ buf', buf.[size ds <- c] = Some buf' ∧ length buf' = length buf ∧
    take (length (c :: ds)) buf' = rev (c :: ds).
Proof.
  intros Ht Hl. exists (<[length ds := c]> buf). unfold size.
  rewrite wr_Some, Nat2Z.id by lia. split; [done|]. split; [apply length_insert|].
  cbn [length rev]. rewrite (take_S_r _ _ c) by (apply list_lookup_insert_eq; lia).
  by rewrite take_insert_ge, Ht by lia.
Qed.

(** Where nothing has to be put in the prefix may count as digits. *)
Lemma text_x_digits sp v :
  text_x sp v = text_unsigned sp (hex_set sp) (hex_precision sp) v
    (if flag_alt (flag sp) then hex_prefix sp ++ hex_digits sp v else hex_digits sp v).
Proof.
  unfold text_x, deviates_x, standard_x, text_unsigned. destruct (flag_alt (flag sp)); cbn [andb]; [|done].
  destruct (_ || _) eqn:E; [done|]. apply orb_false_iff in E as [[E1 E2]%orb_false_iff E3].
  rewrite E1. cbn [negb]. unfold digits_text. rewrite E1, andb_false_r. cbn [andb].
  apply Z.ltb_ge in E2. set (ds := hex_digits sp v) in *. unfold number_text.
  assert (Hp : size (hex_prefix sp) = 2) by done. rewrite !size_app, Hp. rewrite (zeros_0 (hex_precision sp - size ds)) by lia.
  rewrite (zeros_0 (hex_precision sp - (2 + size ds))) by lia. cbn [app].
  destruct (flag_zero (flag sp) && negb (hex_set sp)) eqn:Ez; cbn [andb] in *; [|done].
  apply Z.ltb_ge in E3. destruct (flag_minus (flag sp)); cbn [negb]; [done|].
  change (size []) with 0. by rewrite !zeros_0 by lia.
Qed.

Lemma writes_x n sp v :
  n < 2 ^ 32 → 0 ≤ field_width sp → 0 ≤ precision sp → 0 ≤ v < 2 ^ 64 →
  writes n (convert_x n sp v) (text_x sp v).
Proof.
  intros Hn Hw Hp Hv o Hok. rewrite text_x_digits. unfold convert_x, hex_set, hex_precision, hex_prefix, hex_digits.
  set (alphabet := if conversion sp =? 120 then hex_normal else hex_upcase).
  destruct (digits_spec 2 16 alphabet ltac:(lia) ltac:(lia)
              ltac:(unfold alphabet; by destruct (conversion sp =? 120)) v ltac:(lia))
    as (buf & Hd & Hl & Ht & Hs).
  rewrite Z.abs_eq in * by lia. set (ds := digit_chars alphabet (numeral 16 v)) in *.
  rewrite Hd. cbn [mbind option_bind]. clear Hd.
  set (x := if conversion sp =? 120 then 120 else 88).
  assert (Halt : ∃ buf', (if flag_alt (flag sp) then
       buf ← buf.[size ds <- x]; buf ← buf.[size ds + 1 <- 48]; Some (buf, size ds + 2)
     else Some (buf, size ds))
     = Some (buf', size (if flag_alt (flag sp) then [48; x] ++ ds else ds)) ∧
     length buf' = 64%nat ∧
     let ds' := if flag_alt (flag sp) then [48; x] ++ ds else ds in
     take (length ds') buf' = rev ds' ∧ 0 < size ds' ≤ 62).
  { destruct (flag_alt (flag sp)); [|exists buf; split; [done|]; split; [done|]; split; [done|lia]].
    destruct (buf_push buf ds x Ht) as (b1 & H1 & Hl1 & Ht1); [unfold size in *; lia|].
    destruct (buf_push b1 (x :: ds) 48 Ht1) as (b2 & H2 & Hl2 & Ht2);
      [unfold size in *; cbn [length]; lia|].
    rewrite H1. cbn [mbind option_bind].
    replace (size (x :: ds)) with (size ds + 1) in H2 by (unfold size; cbn [length]; lia).
    rewrite H2. cbn [mbind option_bind]. exists b2.
    split; [do 2 f_equal; unfold size; cbn [length app]; lia|]. split; [congruence|].
    split; [exact Ht2|]. unfold size in *. cbn [length app]. lia. }
  destruct Halt as (buf' & -> & Hl' & Ht' & Hs'). cbn [mbind option_bind].
  destruct (Z.eqb_spec (conversion sp) 112).
  - apply (writes_unsigned n sp true 16 v); try done; try lia. unfold size in *. lia.
  - apply (writes_unsigned n sp (precision_set sp) (precision sp) v); try done; try lia.
    unfold size in *. lia.
Qed.

(** The highest digit of a number is 0 only for the number 0. *)
Lemma low_digits_head f base m d l :
  2 ≤ base → 0 ≤ m < base ^ Z.of_nat f → rev (low_digits f base m) = d :: l → d ≠ 0.
Proof.
  revert m l. induction f as [|f IH]; intros m l Hb Hm; [done|]. cbn [low_digits].
  destruct (Z.eqb_spec m 0) as [|Hm0]; [done|].
  rewrite Nat2Z.inj_succ, Z.pow_succ_r in Hm by lia.
  assert (Hq : 0 ≤ m / base < base ^ Z.of_nat f)
    by (split; [apply Z.div_pos; lia|apply Z.div_lt_upper_bound; lia]).
  cbn [rev]. destruct (rev (low_digits f base (m / base))) as [|e l'] eqn:E.
  - cbn. intros [= <- _]. pose proof (value_of_low_digits f base (m / base) Hb Hq) as Hval.
    rewrite E in Hval. cbn in Hval. pose proof (Z.div_mod m base). nia.
  - cbn. intros [= <- _]. by apply (IH (m / base) l').
Qed.

Lemma hex_normal_zero d : 0 ≤ d < 16 → default 0 (hex_normal.[d]) = 48 → d = 0.
Proof.
  intros Hd. assert (H : all_below 16 (λ d, bool_decide
    (default 0 (hex_normal.[d]) = 48 → d = 0)) = true) by (vm_compute; reflexivity).
  apply (bool_decide_eq_true_1 _ (all_below_spec 16 _ H d Hd)).
Qed.

(** What [buf[len - 1] != '0'] asks. *)
Lemma octal_head v ds buf :
  0 ≤ v < 2 ^ 64 → ds = digit_chars hex_normal (numeral 8 v) →
  take (length ds) buf = rev ds → (length ds ≤ length buf)%nat → 0 < size ds →
  ∃ c, buf.[size ds - 1] = Some c ∧ (c =? 48) = (v =? 0).
Proof.
  intros Hv Hds Ht Hl Hs. unfold size in *.
  destruct ds as [|c ds]; [cbn in Hs; lia|]. cbn [length rev] in *. exists c. split.
  - apply rd_Some. split; [lia|].
    replace (Z.to_nat (Z.of_nat (S (length ds)) - 1)) with (length ds) by lia.
    rewrite <- (lookup_take_lt _ (S (length ds))), Ht by lia.
    rewrite lookup_app_r by (rewrite length_rev; lia). by rewrite length_rev, Nat.sub_diag.
  - unfold numeral in Hds. destruct (Z.eqb_spec v 0) as [->|Hv0]; [by inversion Hds|].
    apply Z.eqb_neq. intros ->. unfold digit_chars in Hds.
    destruct (rev (low_digits 64 8 v)) as [|d l] eqn:E; [done|]. injection Hds as Hd _.
    assert (Hin : d ∈ low_digits 64 8 v) 
      by (apply list_elem_of_In, in_rev; rewrite E; by left).
    apply low_digits_range in Hin; [|lia].
    apply low_digits_head in E; [|lia|split; [lia|apply Z.lt_le_trans with (1 := proj2 Hv); done]].
    symmetry in Hd. apply hex_normal_zero in Hd; lia.
Qed.

Lemma writes_o n sp v :
  n < 2 ^ 32 → 0 ≤ field_width sp → 0 ≤ precision sp → 0 ≤ v < 2 ^ 64 →
  writes n (convert_o n sp v) (text_o sp v).
Proof.
  intros Hn Hw Hp Hv o Hok. unfold convert_o, text_o.
  destruct (digits_spec 1 8 hex_normal ltac:(lia) ltac:(lia) eq_refl v ltac:(lia))
    as (buf & Hd & Hl & Ht & Hs).
  rewrite Z.abs_eq in * by lia. set (ds := digit_chars hex_normal (numeral 8 v)) in *.
  rewrite Hd. cbn [mbind option_bind]. clear Hd.
  destruct (octal_head v ds buf Hv eq_refl Ht) as (c & Hc & Hcv); [unfold size in *; lia|lia|].
  destruct (flag_alt (flag sp)); cbn [andb].
  2: { apply (writes_unsigned n sp (precision_set sp) (precision sp) v); try done; try lia.
       unfold size in *. lia. }
  rewrite Hc. cbn [mbind option_bind]. rewrite Hcv.
  assert (Hall : ∀ b l, take (length l) b = rev l → (length l ≤ length b)%nat → 0 < size l →
    writes n (convert_unsigned n sp (precision sp)
                (precision_set sp && (v =? 0) && (precision sp =? 0))
                (pad_char sp (precision_set sp)) b (size l))
      (text_unsigned sp (precision_set sp) (precision sp) v l))
    by (intros; by apply writes_unsigned).
  destruct (v =? 0); cbn [negb mbind option_bind].
  - apply Hall; [done| |lia|done]. unfold size in *. lia.
  - destruct (buf_push buf ds 48 Ht) as (b1 & H1 & Hl1 & Ht1); [unfold size in *; lia|].
    rewrite H1. cbn [mbind option_bind].
    replace (size ds + 1) with (size (48 :: ds)) by (unfold size; cbn [length]; lia).
    apply Hall; [done| | |done]; unfold size in *; cbn [length] in *; lia.
Qed.

(** The sign and the padding before a signed number. *)
Lemma sign_left n (minus zero signed nochars : bool) width m sgn o :
  output_ok n o → sgn ≠ 0 → 0 < m → (nochars = true → zero = false) →
  let pad := if zero && negb minus then 48 else 32 in
  let s := if signed then [sgn] else [] in
  let k := width - m - size s + (if nochars then 1 else 0) in
  ∃ o1 sgn1,
    (if negb minus && (m <? width) then
       let pads := width - m in
       '(o, sign, pads) ←
         (if signed then
            if zero && negb minus
            then o ← put n sgn o; Some (o, 0, pads - 1)
            else Some (o, sgn, pads - 1)
          else Some (o, sgn, pads));
       let pads := if nochars then pads + 1 else pads in
       o ← fill n pad pads o;
       Some (o, sign)
     else Some (o, sgn)) = Some (o1, sgn1) ∧
    ∃ o2, (if negb (sgn1 =? 0) && signed then put n sgn1 o1 else Some o1) = Some o2 ∧
      wrote n o o2
        (if negb minus && (m <? width) then
           (if zero then s else []) ++ replicate (Z.to_nat k) pad ++ (if zero then [] else s)
         else s).
Proof.
  intros Hok Hsgn Hm Hno pad s k. pose proof (proj2 (Z.eqb_neq sgn 0) Hsgn) as Hs.
  assert (Hw0 : wrote n o o []) by (apply wrote_nil; destruct Hok; lia).
  destruct (negb minus) eqn:Eminus, (Z.ltb_spec m width) as [Hlt|Hge]; cbn [andb].
  2-4: exists o, sgn; split; [done|]; rewrite Hs; cbn [negb andb];
    destruct signed; [|by exists o];
    destruct (writes_wrote n _ _ _ _ _ (writes_put n sgn) Hok Hw0) as (o2 & H2 & Hw2); eauto.
  subst pad k. rewrite andb_true_r. destruct signed, zero; cbn [mbind option_bind andb].
  - write_step (writes_put n sgn). destruct nochars; [by specialize (Hno eq_refl)|].
    write_step (writes_fill n 48 (width - m - 1) ltac:(lia)).
    eexists _, 0. split; [done|]. eexists. split; [done|]. rewrite app_nil_r.
    refine (eq_rect _ (wrote n o _) Hw0 _ _). subst s. change (size [sgn]) with 1. by rewrite Z.add_0_r.
  - write_step (writes_fill n 32 (if nochars then width - m - 1 + 1 else width - m - 1)
                  ltac:(destruct nochars; lia)).
    eexists _, sgn. split; [done|]. rewrite Hs. cbn [negb andb].
    write_step (writes_put n sgn). eexists. split; [done|].
    refine (eq_rect _ (wrote n o _) Hw0 _ _). subst s. change (size [sgn]) with 1. cbn [app].
    destruct nochars; by rewrite ?Z.add_0_r.
  - destruct nochars; [by specialize (Hno eq_refl)|].
    write_step (writes_fill n 48 (width - m) ltac:(lia)).
    eexists _, sgn. split; [done|]. rewrite andb_false_r. eexists. split; [done|].
    refine (eq_rect _ (wrote n o _) Hw0 _ _). subst s. change (size []) with 0. cbn [app].
    by rewrite app_nil_r, Z.sub_0_r, Z.add_0_r.
  - write_step (writes_fill n 32 (if nochars then width - m + 1 else width - m)
                  ltac:(destruct nochars; lia)).
    eexists _, sgn. split; [done|]. rewrite andb_false_r. eexists. split; [done|].
    refine (eq_rect _ (wrote n o _) Hw0 _ _). subst s. change (size []) with 0. cbn [app].
    rewrite app_nil_r, Z.sub_0_r. destruct nochars; by rewrite ?Z.add_0_r.
Qed.

(** The sign character and whether it is written. *)
Lemma sign_text_eq f v :
  let negative := v <? 0 in
  let '(sign, plus) :=
    if flag_space f && negb (flag_plus f)
    then (if negb negative then 32 else if negative then 45 else 43, true)
    else (if negative then 45 else 43, flag_plus f) in
  sign ≠ 0 ∧ sign_text f v = if negative || plus then [sign] else [].
Proof.
  cbv zeta. unfold sign_text. destruct (v <? 0), (flag_space f), (flag_plus f); cbn; done.
Qed.

Lemma sign_size f v : 0 ≤ size (sign_text f v) ≤ 1.
Proof.
  unfold sign_text. destruct (v <? 0), (flag_plus f), (flag_space f); unfold size; cbn; lia.
Qed.

Lemma nochars_text minus width s :
  0 ≤ width → 0 ≤ size s ≤ 1 →
  let l := if negb minus && (1 <? width)
           then replicate (Z.to_nat (width - 1 - size s + 1)) 32 ++ s else s in
  l ++ spaces (width - size l) = justify minus width s.
Proof.
  intros Hw Hs. cbv zeta. unfold justify.
  destruct minus; cbn [negb andb]; [done|]. destruct (Z.ltb_spec 1 width).
  - rewrite size_app. unfold size at 2. rewrite length_replicate.
    rewrite (spaces_0 (width - _)), app_nil_r by lia. unfold spaces. do 2 f_equal. lia.
  - destruct (decide (size s = 0)) as [Hs0|Hs1].
    + destruct s; [|by unfold size in Hs0; cbn in Hs0; lia]. by rewrite app_nil_r.
    + rewrite spaces_0 by lia. by rewrite app_nil_r.
Qed.

Lemma writes_d n sp v :
  n < 2 ^ 32 → 0 ≤ field_width sp → 0 ≤ precision sp → Z.abs v < 2 ^ 64 →
  writes n (convert_d n sp v) (text_d sp v).
Proof.
  intros Hn Hwidth Hp Hv o Hok. unfold convert_d, text_d. cbv zeta.
  destruct (digits_spec 0 10 hex_normal ltac:(lia) ltac:(lia) eq_refl v Hv)
    as (buf & Hd & Hl & Ht & Hs).
  set (ds := digit_chars hex_normal (numeral 10 (Z.abs v))) in *.
  pose proof (sign_text_eq (flag sp) v) as Hsign. cbv zeta in Hsign.
  destruct (if flag_space (flag sp) && negb (flag_plus (flag sp)) then _ else _) as [sgn plus].
  destruct Hsign as [Hsgn Hst]. rewrite Hd. cbn [mbind option_bind]. rewrite max_if.
  set (m := Z.max (size ds) (precision sp)).
  set (zero := if precision_set sp then false else flag_zero (flag sp)).
  set (nochars := precision_set sp && (v =? 0) && (precision sp =? 0)).
  assert (Hnz : nochars = true → zero = false).
  { intros [[Hset _]%andb_prop _]%andb_prop. unfold zero. by rewrite Hset. }
  destruct (sign_left n (flag_minus (flag sp)) zero ((v <? 0) || plus) nochars (field_width sp)
              m sgn o Hok Hsgn ltac:(lia) Hnz) as (o1 & sgn1 & H1 & o2 & H2 & Hw).
  cbv zeta in H1. rewrite H1. cbn [mbind option_bind]. rewrite H2. cbn [mbind option_bind].
  rewrite <- Hst in Hw. clear H1 H2.
  write_step (writes_fill n 48 (m - size ds) ltac:(lia)).
  pose proof (sign_size (flag sp) v) as Hss. set (s := sign_text (flag sp) v) in *.
  assert (Hzero : flag_zero (flag sp) && negb (precision_set sp) = zero)
    by (unfold zero; by destruct (precision_set sp), (flag_zero (flag sp))).
  unfold digits_text. rewrite Hzero. fold nochars.
  destruct nochars eqn:Hno.
  - rewrite (Hnz eq_refl) in *. cbn [andb app] in Hw.
    apply andb_prop in Hno as [[Hset Hv0%Z.eqb_eq]%andb_prop Hp0%Z.eqb_eq].
    assert (Hsz : size ds = 1) by (subst ds; by rewrite Hv0).
    assert (Hm1 : m = 1) by lia. rewrite Hm1, Hsz in Hw. cbn [mbind option_bind].
    write_end. intros Hw. refine (eq_rect _ (wrote n o _) Hw _ _).
    change (replicate (Z.to_nat (1 - 1)) 48) with (@nil Z). rewrite app_nil_r.
    rewrite (nochars_text (flag_minus (flag sp)) (field_width sp) s) by lia.
    unfold number_text. cbn [andb]. rewrite Hp0, zeros_0 by (unfold size; cbn; lia).
    by rewrite !app_nil_r.
  - unfold size at 1. rewrite Nat2Z.id.
    write_step (writes_put_buf n buf (length ds) ltac:(unfold size in *; lia)).
    write_end. intros Hw. refine (eq_rect _ (wrote n o _) Hw _ _).
    rewrite Ht, rev_involutive, <- (app_assoc _ (replicate (Z.to_nat (m - size ds)) 48) ds).
    refine (field_text (flag_minus (flag sp)) zero (field_width sp) (precision sp) s ds _ _).
    fold m. rewrite Z.add_0_r.
    destruct (flag_minus (flag sp)); cbn [negb andb]; [done|]. rewrite andb_true_r.
    destruct (Z.ltb_spec m (field_width sp)), (Z.ltb_spec m (field_width sp - size s));
      try lia; [by replace (field_width sp - m - size s) with (field_width sp - size s - m) by lia
               | |done].
    replace (Z.to_nat (field_width sp - m - size s)) with 0%nat by lia.
    destruct zero; cbn [replicate app]; by rewrite ?app_nil_r.
Qed.

Lemma writes_c n sp v :
  n < 2 ^ 32 →
  writes n (convert_c n sp v) (justify (flag_minus (flag sp)) (field_width sp) [u8 v]).
Proof.
  intros Hn o Hok. unfold convert_c, justify. change (size [u8 v]) with 1.
  destruct (writes_left n (flag_minus (flag sp)) 1 (field_width sp) (field_width sp - 1) 32
              (or_introl eq_refl) o Hok) as (o1 & H1 & Hw).
  rewrite H1. cbn [mbind option_bind]. clear H1. write_step (writes_put n (u8 v)).
  write_end. intros Hw. refine (eq_rect _ (wrote n o _) Hw _ _).
  destruct (flag_minus (flag sp)); cbn [negb andb]; [done|].
  destruct (Z.ltb_spec 1 (field_width sp)).
  - rewrite size_app. unfold size at 1. rewrite length_replicate. change (size [u8 v]) with 1.
    rewrite (spaces_0 (field_width sp - _)), app_nil_r by lia. done.
  - change (size ([] ++ [u8 v])) with 1. rewrite spaces_0 by lia. done.
Qed.

Lemma cstring_length p : (length (cstring p) ≤ length p)%nat.
Proof. induction p as [|c p IH]; cbn; [done|]. destruct (c =? 0); cbn; lia. Qed.

Lemma cstring_prefix p : take (length (cstring p)) p = cstring p.
Proof. induction p as [|c p IH]; [done|]. cbn. destruct (c =? 0); [done|]. cbn. by rewrite IH. Qed.

Lemma cstring_next p :
  In 0 p → p !! length (cstring p) = Some 0.
Proof.
  induction p as [|c p IH]; [done|]. cbn. destruct (Z.eqb_spec c 0) as [->|Hc]; [done|].
  intros [?|Hin]; [done|]. by apply IH.
Qed.

Lemma cstring_nonzero p i c : cstring p !! i = Some c → c ≠ 0.
Proof.
  revert i. induction p as [|b p IH]; intros i; [done|]. cbn.
  destruct (Z.eqb_spec b 0); [done|]. destruct i as [|i]; cbn; [by intros [= <-]|apply IH].
Qed.

Lemma cstring_whole p : ¬ In 0 p → cstring p = p.
Proof.
  induction p as [|c p IH]; [done|]. intros Hin. cbn. destruct (Z.eqb_spec c 0) as [->|]; [destruct Hin; by left|].
  rewrite IH; [done|]. intros ?. apply Hin. by right.
Qed.

Lemma cstring_rd p len c : 0 ≤ len → cstring p !! Z.to_nat len = Some c → p.[len] = Some c.
Proof.
  intros H0 Hc. apply rd_Some. split; [lia|]. pose proof (lookup_lt_Some _ _ _ Hc) as Hl.
  rewrite <- (cstring_prefix p) in Hc. by rewrite lookup_take_lt in Hc by lia.
Qed.

(** How much of a string is written. *)
Lemma string_length_spec p max fuel len :
  In 0 p ∨ max < size p → 0 ≤ len ≤ size (cstring p) → len ≤ max →
  size (cstring p) - len < Z.of_nat fuel →
  string_length fuel p len max = Some (Z.min (size (cstring p)) max).
Proof.
  intros Hin. revert len. induction fuel as [|fuel IH]; intros len Hlen Hlm Hf; [lia|].
  cbn [string_length]. pose proof (cstring_length p) as Hcl. unfold size in *.
  destruct (Z.eq_dec len (Z.of_nat (length (cstring p)))) as [->|Hne].
  - assert (Hz : In 0 p).
    { destruct Hin as [?|Hm]; [done|]. destruct (in_dec Z.eq_dec 0 p) as [|Hno]; [done|].
      rewrite cstring_whole in * by done. lia. }
    rewrite (proj2 (rd_Some p _ 0)) by (rewrite Nat2Z.id; split; [lia|by apply cstring_next]). cbn. f_equal. lia.
  - destruct (lookup_lt_is_Some_2 (cstring p) (Z.to_nat len)) as [c Hc]; [lia|].
    rewrite (cstring_rd p len c) by (done || lia). cbn [mbind option_bind]. apply cstring_nonzero in Hc.
    rewrite (proj2 (Z.eqb_neq c 0)) by done. cbn [negb andb].
    destruct (Z.ltb_spec len max); [apply IH; lia|]. f_equal. lia.
Qed.

(** An array without a null byte and not longer than what is written is read
    behind its end. *)
Lemma string_length_overread p max fuel len :
  ¬ In 0 p → size p ≤ max → 0 ≤ len ≤ size p → size p - len < Z.of_nat fuel →
  string_length fuel p len max = None.
Proof.
  intros Hno Hm. revert len. induction fuel as [|fuel IH]; intros len Hlen Hf; [lia|]. cbn [string_length].
  destruct (Z.eq_dec len (size p)) as [->|Hne].
  - destruct (p.[size p]) as [c|] eqn:Hc; [|done]. apply rd_lt in Hc. unfold size in Hc. lia.
  - destruct (lookup_lt_is_Some_2 p (Z.to_nat len)) as [c Hc]; [unfold size in *; lia|].
    rewrite (proj2 (rd_Some p len c)) by (split; [lia|done]). cbn [mbind option_bind].
    assert (c ≠ 0) by (intros ->; by apply Hno, list_elem_of_In, (list_elem_of_lookup_2 _ (Z.to_nat len))).
    rewrite (proj2 (Z.eqb_neq c 0)), (proj2 (Z.ltb_lt len max)) by (done || lia). apply IH; lia.
Qed.

Lemma string_fits_cases sp p :
  if string_fits sp p then In 0 p ∨ string_limit sp < size p else ¬ In 0 p ∧ size p ≤ string_limit sp.
Proof.
  unfold string_fits. case_bool_decide as H; cbn [orb]; [left; by apply list_elem_of_In|].
  rewrite list_elem_of_In in H. destruct (Z.ltb_spec (string_limit sp) (size p)); [by right|by split].
Qed.

Lemma convert_s_overread n sp p o : string_fits sp p = false → convert_s n sp p o = None.
Proof.
  intros Hf. pose proof (string_fits_cases sp p) as Hc. rewrite Hf in Hc. destruct Hc as [Hno Hl].
  unfold convert_s. cbv zeta. fold (string_limit sp). pose proof (size_nonneg p).
  rewrite string_length_overread; try done; unfold size in *; lia.
Qed.

Lemma writes_s n sp p :
  n < 2 ^ 32 → 0 ≤ precision sp → string_fits sp p = true → writes n (convert_s n sp p) (text_s sp p).
Proof.
  intros Hn Hp Hfit o Hok. pose proof (string_fits_cases sp p) as Hin. rewrite Hfit in Hin.
  unfold convert_s, text_s. cbv zeta. fold (string_limit sp). set (limit := string_limit sp) in *.
  assert (Hlim : 0 ≤ limit) by (unfold limit, string_limit; destruct (precision_set sp); lia).
  pose proof (cstring_length p) as Hcl.
  rewrite string_length_spec by (unfold size in *; done || lia). cbn [mbind option_bind].
  set (m := Z.min (size (cstring p)) limit).
  assert (Htake : take (Z.to_nat limit) (cstring p) = take (Z.to_nat m) p).
  { rewrite <- (cstring_prefix p) at 1. rewrite take_take. f_equal. unfold m, size. lia. }
  rewrite Htake. set (body := take (Z.to_nat m) p).
  assert (Hb : size body = m).
  { unfold body, m, size in *. rewrite length_take. lia. }
  destruct (writes_left n (flag_minus (flag sp)) m (field_width sp) (field_width sp - m) 32
              (or_introl eq_refl) o Hok) as (o1 & H1 & Hw).
  rewrite H1. cbn [mbind option_bind]. clear H1.
  write_step (writes_put_string n p m ltac:(unfold m, size in *; lia)). fold body in Hw.
  write_end. intros Hw. refine (eq_rect _ (wrote n o _) Hw _ _). unfold justify. rewrite Hb.
  destruct (flag_minus (flag sp)); cbn [negb andb app]; [by rewrite Hb|].
  destruct (Z.ltb_spec m (field_width sp)).
  - rewrite size_app, Hb. unfold size at 1. rewrite length_replicate.
    rewrite (spaces_0 (field_width sp - _)), app_nil_r by lia. done.
  - rewrite app_nil_l, Hb, !spaces_0 by lia. by rewrite app_nil_r.
Qed.

(** The conversion reads a string behind the end of its array. *)
Definition overreads (sp : spec) (x : slot) : bool := (conversion sp =? 115) && negb (string_fits sp (text x)).

(** A conversion writes its text, or is refused when it has none. *)
Lemma convert_spec long_bits n sp x o :
  n < 2 ^ 32 → 32 ≤ long_bits ≤ 64 → 0 ≤ field_width sp → 0 ≤ precision sp →
  output_ok n o →
  match conversion_text long_bits sp x with
  | None => convert long_bits n sp x o = Some None
  | Some t => if overreads sp x then convert long_bits n sp x o = None else ∃ o', convert long_bits n sp x o
      = Some (Some (o', if conversion sp =? 110
                        then [(modifier sp, convert_n (modifier sp) (snd o))] else [])) ∧
      wrote n o o' t
  end.
Proof.
  intros Hn Hl Hw Hp Hok. destruct (overreads sp x) eqn:Hover.
  { apply andb_true_iff in Hover as [E%Z.eqb_eq Hfit%negb_true_iff]. unfold conversion_text, convert. rewrite E.
    cbn [Z.eqb Pos.eqb orb]. by rewrite convert_s_overread. }
  assert (Hfit : conversion sp = 115 → string_fits sp (text x) = true).
  { intros E. unfold overreads in Hover. rewrite E in Hover. by apply negb_false_iff in Hover. }
  clear Hover. unfold conversion_text, convert. cbv zeta.
  assert (Hbits : 32 ≤ int_bits long_bits (modifier sp) ≤ 64).
  { unfold int_bits. destruct (negb _); [lia|]. destruct (decide _); lia. }
  set (w := int_bits long_bits (modifier sp)) in *.
  assert (Hpow : 2 ^ w ≤ 2 ^ 64) by (apply Z.pow_le_mono_r; lia).
  assert (Huns : ∀ z, 0 ≤ wrap w z < 2 ^ 64) by (intros z; pose proof (wrap_range w z); lia).
  assert (Hfin : ∀ f t, writes n f t → (conversion sp =? 110) = false →
    ∃ o', (o ← f o; Some (Some (o, @nil (length_modifier * Z))))
      = Some (Some (o', if conversion sp =? 110
                        then [(modifier sp, convert_n (modifier sp) (snd o))] else [])) ∧
      wrote n o o' t).
  { intros f t Hf H110. destruct (Hf o Hok) as (o' & Ho & Hwr). exists o'.
    by rewrite Ho, H110. }
  assert (H110 : ∀ k, conversion sp = k → k ≠ 110 → (conversion sp =? 110) = false)
    by (intros k -> ?; by apply Z.eqb_neq).
  destruct (Z.eqb_spec (conversion sp) 100); [|destruct (Z.eqb_spec (conversion sp) 105)];
    cbn [orb]; try (apply Hfin; [apply writes_d; try done; unfold swrap|by eapply H110]).
  1,2: assert (2 * 2 ^ (w - 1) = 2 ^ w) by (rewrite <- Z.pow_succ_r by lia; f_equal; lia);
       pose proof (Z.mod_pos_bound (number x + 2 ^ (w - 1)) (2 ^ w)); lia.
  destruct (Z.eqb_spec (conversion sp) 117); [apply Hfin; [by apply writes_u|by eapply H110]|].
  destruct (_ || _) eqn:Ex.
  { apply Hfin.
    - apply writes_x; try done. destruct (conversion sp =? 112); [|done]. by apply wrap_range.
    - apply Z.eqb_neq. intros E. rewrite E in Ex. done. }
  destruct (Z.eqb_spec (conversion sp) 111); [apply Hfin; [by apply writes_o|by eapply H110]|].
  destruct (Z.eqb_spec (conversion sp) 99).
  { apply Hfin; [|by eapply H110].
    replace (u8 (number x)) with (u8 (if decide (modifier sp = length_modifier_none)
      then u64 (swrap 32 (number x)) else u64 (number x))); [by apply writes_c|].
    unfold wrap, swrap. change (2 ^ 8) with 256. change (2 ^ 64) with 18446744073709551616.
    change (2 ^ 32) with 4294967296. change (2 ^ (32 - 1)) with 2147483648.
    destruct (decide _); dlia. }
  destruct (Z.eqb_spec (conversion sp) 115); [apply Hfin; [apply writes_s; auto|by eapply H110]|].
  destruct (Z.eqb_spec (conversion sp) 110); [|done].
  exists o. split; [done|]. apply wrote_nil. destruct Hok. lia.
Qed.

(** ** Specification: how a format is read *)

(** The longest beginning of a list whose bytes are such as [p] asks for, and the
    rest. *)
Fixpoint span (p : Z → bool) (l : list Z) : list Z * list Z :=
  match l with
  | [] => ([], [])
  | c :: l' => if p c then (c :: fst (span p l'), snd (span p l')) else ([], l)
  end.

(** What is behind a word. *)
Fixpoint strip (word l : list Z) : option (list Z) :=
  match word, l with
  | [], _ => Some l
  | _ :: _, [] => None
  | c :: word, d :: l => if c =? d then strip word l else None
  end.

Definition occurs (c : Z) (cs : list Z) : bool := existsb (Z.eqb c) cs.
Definition is_flag (c : Z) : bool := occurs c [45; 43; 32; 48; 35].
Definition is_digit (c : Z) : bool := (48 <=? c) && (c <=? 57).

Definition flags_of (cs : list Z) : flags :=
  Flags (occurs 45 cs) (occurs 43 cs) (occurs 32 cs) (occurs 48 cs) (occurs 35 cs).

(** The value of decimal digits, as an [unsigned]. *)
Definition decimal (cs : list Z) : Z := value_of 10 ((λ c, c - 48) <$> cs) mod 2 ^ 32.

(** The field width, whether an argument asks for the left, the next argument, and
    what follows: an asterisk or digits, of which there may be none. *)
Definition width_of (va : nat → slot) (k : nat) (l : list Z) : Z * bool * nat * list Z :=
  match strip [42] l with
  | Some l => let v := swrap 32 (number (va k)) in (Z.min (Z.abs v) INT_MAX, v <? 0, S k, l)
  | None => let '(cs, l) := span is_digit l in (decimal cs, false, k, l)
  end.

(** The precision: a period with an asterisk or with digits.  A negative argument is
    none. *)
Definition precision_of (va : nat → slot) (k : nat) (l : list Z) : option Z * nat * list Z :=
  match strip [46; 42] l, strip [46] l with
  | Some l, _ => let v := swrap 32 (number (va k)) in (if v <? 0 then None else Some v, S k, l)
  | None, Some l => let '(cs, l) := span is_digit l in (Some (decimal cs), k, l)
  | None, None => (None, k, l)
  end.

Definition length_modifiers : list (list Z * length_modifier) :=
  [([104; 104], length_modifier_hh); ([104], length_modifier_h);
   ([108; 108], length_modifier_ellell); ([108], length_modifier_ell);
   ([106], length_modifier_j); ([122], length_modifier_z); ([116], length_modifier_tee);
   ([76], length_modifier_bell)].

Fixpoint modifier_of (table : list (list Z * length_modifier)) (l : list Z) : length_modifier * list Z :=
  match table with
  | [] => (length_modifier_none, l)
  | (word, m) :: table => match strip word l with Some l => (m, l) | None => modifier_of table l end
  end.

Inductive directive :=
| PercentSign (l : list Z)
| Convert (sp : spec) (k : nat) (l : list Z).

(** What follows a '%': flags, and another '%' or width, precision, length modifier
    and conversion.  [None] is a format that ends before. *)
Definition read_directive (va : nat → slot) (k : nat) (l : list Z) : option directive :=
  let '(fs, l) := span is_flag l in
  match strip [37] l with
  | Some l => Some (PercentSign l)
  | None =>
      let '(width, aside, k, l) := width_of va k l in
      let '(prec, k, l) := precision_of va k l in
      let '(m, l) := modifier_of length_modifiers l in
      match l with
      | [] => None
      | c :: l =>
          let f := flags_of fs in
          Some (Convert
                  (Spec (Flags (flag_minus f || aside) (flag_plus f) (flag_space f) (flag_zero f) (flag_alt f))
                     width (default 0 prec) (bool_decide (is_Some prec)) m c) k l)
      end
  end.

(** ** Reading the format *)

(** One flag more. *)
Definition flag_step (f : flags) (c : Z) : flags :=
  if c =? 45 then Flags true (flag_plus f) (flag_space f) (flag_zero f) (flag_alt f)
  else if c =? 43 then Flags (flag_minus f) true (flag_space f) (flag_zero f) (flag_alt f)
  else if c =? 32 then Flags (flag_minus f) (flag_plus f) true (flag_zero f) (flag_alt f)
  else if c =? 48 then Flags (flag_minus f) (flag_plus f) (flag_space f) true (flag_alt f)
  else if c =? 35 then Flags (flag_minus f) (flag_plus f) (flag_space f) (flag_zero f) true
  else f.

Lemma fold_flags cs f :
  fold_left flag_step cs f
  = Flags (flag_minus f || occurs 45 cs) (flag_plus f || occurs 43 cs) (flag_space f || occurs 32 cs)
      (flag_zero f || occurs 48 cs) (flag_alt f || occurs 35 cs).
Proof.
  revert f. induction cs as [|c cs IH]; intros f; cbn [fold_left occurs existsb].
  { rewrite !orb_false_r. by destruct f. }
  fold (occurs 45 cs) (occurs 43 cs) (occurs 32 cs) (occurs 48 cs) (occurs 35 cs). rewrite IH. unfold flag_step.
  destruct (Z.eqb_spec c 45) as [->|]; [|destruct (Z.eqb_spec c 43) as [->|]; [|destruct (Z.eqb_spec c 32) as [->|];
    [|destruct (Z.eqb_spec c 48) as [->|]; [|destruct (Z.eqb_spec c 35) as [->|]]]]].
  1-5: cbn [flag_minus flag_plus flag_space flag_zero flag_alt Z.eqb Pos.eqb orb]; by rewrite ?orb_true_r.
  rewrite (proj2 (Z.eqb_neq 45 c)), (proj2 (Z.eqb_neq 43 c)), (proj2 (Z.eqb_neq 32 c)),
    (proj2 (Z.eqb_neq 48 c)), (proj2 (Z.eqb_neq 35 c)) by congruence. done.
Qed.

Lemma fold_decimal cs v :
  fold_left (λ v c, u32 (u32 (v * 10) + (c - 48))) cs (u32 v)
  = u32 (fold_left (λ v d, v * 10 + d) ((λ c, c - 48) <$> cs) v).
Proof.
  revert v. induction cs as [|c cs IH]; intros v; [done|]. cbn [fold_left fmap list_fmap].
  rewrite <- IH. f_equal. unfold wrap. change (2 ^ 32) with 4294967296.
  rewrite Z.mul_mod_idemp_l by done. by rewrite Z.add_mod_idemp_l by done.
Qed.

(** The format ends with its first null byte, at [L]. *)
Definition format_ok (format : list Z) (L : Z) : Prop :=
  0 ≤ L ∧ format.[L] = Some 0 ∧ ∀ i, 0 ≤ i < L → ∃ c, format.[i] = Some c ∧ c ≠ 0.

Section Parse.
Context (format : list Z) (L : Z) (Hformat : format_ok format L) (va : nat → slot).

(** [c] is the character before [i]. *)
Definition just_read (c i : Z) : Prop := 1 ≤ i ≤ L + 1 ∧ format.[i - 1] = Some c.

Lemma format_read i : 0 ≤ i ≤ L → ∃ c, format.[i] = Some c ∧ just_read c (i + 1).
Proof.
  intros Hi. destruct Hformat as (HL & H0 & Hc).
  assert (∃ c, format.[i] = Some c) as [c Hr].
  { destruct (decide (i = L)) as [->|]; [eauto|]. destruct (Hc i) as (c & ? & _); [lia|eauto]. }
  exists c. split; [done|]. split; [lia|]. by replace (i + 1 - 1) with i by lia.
Qed.

Lemma just_read_more c i : just_read c i → c ≠ 0 → 1 ≤ i ≤ L.
Proof.
  intros [Hi Hr] Hc. destruct Hformat as (HL & H0 & _).
  destruct (decide (i = L + 1)) as [->|]; [|lia].
  replace (L + 1 - 1) with L in Hr by lia. congruence.
Qed.

Lemma format_length : L < size format.
Proof. destruct Hformat as (HL & H0 & _). apply rd_lt in H0. unfold size. lia. Qed.

(** What is left of the format. *)
Definition rest (i : Z) : list Z := drop (Z.to_nat i) (cstring format).

Lemma format_end : L = size (cstring format).
Proof.
  destruct Hformat as (HL & H0 & Hc). pose proof (cstring_length format) as Hl.
  destruct (Z.lt_trichotomy L (size (cstring format))) as [Hlt|[?|Hlt]]; [|done|].
  - destruct (lookup_lt_is_Some_2 (cstring format) (Z.to_nat L)) as [c Hr]; [unfold size in *; lia|].
    pose proof (cstring_nonzero _ _ _ Hr). apply cstring_rd in Hr; [|done]. congruence.
  - destruct (Hc (size (cstring format))) as (c & Hr & Hne); [unfold size in *; lia|].
    assert (Hin : In 0 format) by (apply rd_Some in H0 as [_ H0]; by eapply list_elem_of_In, list_elem_of_lookup_2).
    apply cstring_next in Hin. apply rd_Some in Hr as [_ Hr]. unfold size in Hr. rewrite Nat2Z.id in Hr. congruence.
Qed.

Lemma just_read_rest c i : just_read c i → rest (i - 1) = if c =? 0 then [] else c :: rest i.
Proof.
  intros [Hi Hr]. pose proof format_end as HL. unfold rest. destruct (Z.eqb_spec c 0) as [->|Hne].
  - apply drop_ge. destruct Hformat as (_ & _ & Hc). destruct (decide (i - 1 < L)) as [Hlt|].
    + destruct (Hc (i - 1)) as (c & Hr' & Hne); [lia|]. congruence.
    + unfold size in HL. lia.
  - pose proof (just_read_more c i (conj Hi Hr) Hne) as Hi'.
    destruct (lookup_lt_is_Some_2 (cstring format) (Z.to_nat (i - 1))) as [c' Hc']; [unfold size in *; lia|].
    rewrite (drop_S _ c' _ Hc'). apply cstring_rd in Hc'; [|lia]. f_equal; [congruence|f_equal; lia].
Qed.

Lemma rest_read i : 0 ≤ i ≤ L → ∃ c, format.[i] = Some c ∧ just_read c (i + 1) ∧
  rest i = if c =? 0 then [] else c :: rest (i + 1).
Proof.
  intros Hi. destruct (format_read i Hi) as (c & Hc & Hr). exists c. split; [done|]. split; [done|].
  apply just_read_rest in Hr. by replace (i + 1 - 1) with i in Hr by lia.
Qed.

(** The loops over a part of the specification take the longest beginning: they end
    at a character that is not null, or the call ends. *)
Definition part_ok {A} (p : Z → bool) (step : A → Z → A) (a : A) (i : Z) (r : option (Z * Z * A)) : Prop :=
  match r with
  | None => snd (span p (rest (i - 1))) = []
  | Some (c', i', a') =>
      just_read c' i' ∧ c' ≠ 0 ∧ i ≤ i' ∧ snd (span p (rest (i - 1))) = c' :: rest i' ∧
      a' = fold_left step (fst (span p (rest (i - 1)))) a
  end.

Lemma part_loop {A} (turn : Z * Z * A → option (ctl (Z * Z * A) (option (Z * Z * A))))
    (p : Z → bool) (step : A → Z → A) :
  (∀ c i a, turn (c, i, a) =
     if c =? 0 then Some (Done None)
     else if p c then c' ← format.[i]; Some (Next (c', i + 1, step a c))
     else Some (Done (Some (c, i, a)))) →
  ∀ c i a, just_read c i → ∃ r, while (S (length format)) turn (c, i, a) = Some r ∧ part_ok p step a i r.
Proof.
  intros Hturn c0 i0 a0 Hr0.
  apply (while_total (λ x : Z * Z * A, let '(c, i, a) := x in just_read c i ∧ i0 ≤ i ∧
             snd (span p (rest (i0 - 1))) = snd (span p (rest (i - 1))) ∧
             fold_left step (fst (span p (rest (i0 - 1)))) a0 = fold_left step (fst (span p (rest (i - 1)))) a)
           (λ x : Z * Z * A, Z.to_nat (L + 1 - snd (fst x)))).
  - intros [[c i] a] (Hr & Hi & H1 & H2). rewrite Hturn. pose proof (just_read_rest c i Hr) as Hrest.
    destruct (Z.eqb_spec c 0) as [->|Hc]; [by eexists; split; [done|]; cbn; rewrite H1, Hrest|].
    pose proof (just_read_more c i Hr Hc) as HiL. rewrite Hrest in *. cbn [span] in *.
    destruct (p c) eqn:Hp.
    + destruct (rest_read i ltac:(lia)) as (c' & Hc' & Hr' & _). rewrite Hc'. cbn [mbind option_bind].
      eexists. split; [done|]. cbn [fst snd fold_left] in *. replace (i + 1 - 1) with i by lia.
      split; [split_and!; (done || lia)|]. lia.
    + eexists. split; [done|]. cbn [fst snd fold_left] in *. split_and!; (done || lia).
  - split_and!; (done || lia).
  - cbn. pose proof format_length. unfold size in *. destruct Hr0. lia.
Qed.

Lemma flags_ok i :
  0 ≤ i ≤ L → ∃ r, read_flags format i = Some r ∧
    match r with
    | None => snd (span is_flag (rest i)) = []
    | Some (c, i', f) => just_read c i' ∧ c ≠ 0 ∧ i + 1 ≤ i' ∧ snd (span is_flag (rest i)) = c :: rest i' ∧
        f = flags_of (fst (span is_flag (rest i)))
    end.
Proof.
  intros Hi. unfold read_flags. destruct (format_read i Hi) as (c & Hc & Hr). rewrite Hc. cbn [mbind option_bind].
  destruct (part_loop (flags_turn format) is_flag flag_step) with (c := c) (i := i + 1)
    (a := Flags false false false false false) as (r & Hw & Hpost); [|exact Hr|].
  { clear. intros c i f. unfold flags_turn, flag_step, is_flag, occurs. cbn [existsb]. rewrite orb_false_r.
    destruct (c =? 0); [done|]. repeat destruct (c =? _); reflexivity. }
  exists r. split; [exact Hw|]. unfold part_ok in Hpost. replace (i + 1 - 1) with i in Hpost by lia.
  destruct r as [[[c' i'] f]|]; [|done]. destruct Hpost as (H1 & H2 & H3 & H4 & ->). split_and!; try done.
  by rewrite fold_flags.
Qed.

Lemma number_ok c i :
  just_read c i → ∃ r, read_number format c i = Some r ∧
    match r with
    | None => snd (span is_digit (rest (i - 1))) = []
    | Some (c', i', v) => just_read c' i' ∧ c' ≠ 0 ∧ i ≤ i' ∧ snd (span is_digit (rest (i - 1))) = c' :: rest i' ∧
        v = decimal (fst (span is_digit (rest (i - 1))))
    end.
Proof.
  intros Hr. unfold read_number.
  destruct (part_loop (number_turn format) is_digit (λ v c, u32 (u32 (v * 10) + (c - 48)))) with (c := c) (i := i) (a := 0)
    as (r & Hw & Hpost); [|exact Hr|].
  { clear. intros c i v. unfold number_turn, is_digit. destruct (c =? 0); [done|]. by destruct (_ && _). }
  exists r. split; [exact Hw|]. destruct r as [[[c' i'] v]|]; [|done].
  destruct Hpost as (H1 & H2 & H3 & H4 & ->). split_and!; try done. apply (fold_decimal _ 0).
Qed.

Lemma char_ok i :
  0 ≤ i ≤ L → ∃ r, read_char format i = Some r ∧
    match r with
    | None => rest i = []
    | Some (c, i') => just_read c i' ∧ c ≠ 0 ∧ i' = i + 1 ∧ rest i = c :: rest i'
    end.
Proof.
  intros Hi. unfold read_char. destruct (rest_read i Hi) as (c & Hc & Hr & Hrest). rewrite Hc, Hrest.
  cbn [mbind option_bind]. eexists. split; [done|]. by destruct (Z.eqb_spec c 0).
Qed.

Lemma decimal_nonneg cs : 0 ≤ decimal cs.
Proof. unfold decimal. by apply Z.mod_pos_bound. Qed.

Lemma swrap_32 z : - 2147483648 ≤ swrap 32 z < 2147483648.
Proof. unfold swrap. change (2 ^ (32 - 1)) with 2147483648. change (2 ^ 32) with 4294967296. dlia. Qed.

Lemma width_ok c i minus k :
  just_read c i → c ≠ 0 → ∃ r, read_width format va c i minus k = Some r ∧
    let '(width, aside, k', l) := width_of va k (rest (i - 1)) in
    match r with
    | None => l = []
    | Some (c', i', width', minus', k'') =>
        just_read c' i' ∧ c' ≠ 0 ∧ i ≤ i' ∧ l = c' :: rest i' ∧
        0 ≤ width' ∧ width' = width ∧ minus' = minus || aside ∧ k'' = k'
    end.
Proof.
  intros Hr Hc. pose proof (just_read_more c i Hr Hc) as Hi. unfold read_width, width_of.
  rewrite (just_read_rest c i Hr). rewrite (proj2 (Z.eqb_neq c 0)) by done. cbn [strip]. rewrite (Z.eqb_sym 42 c).
  destruct (c =? 42); cycle 1.
  { destruct (number_ok c i Hr) as (r & -> & Hpost). rewrite (just_read_rest c i Hr), (proj2 (Z.eqb_neq c 0)) in Hpost by done.
    cbn [mbind option_bind]. eexists. split; [done|]. destruct (span _ _) as [cs l]. cbn [fst snd] in Hpost.
    destruct r as [[[c' i'] v]|]; [|done]. destruct Hpost as (? & ? & ? & ? & ->). rewrite orb_false_r.
    split_and!; try done. apply decimal_nonneg. }
  cbv zeta. destruct (char_ok i) as (r & H & Hpost); [lia|]. set (val := swrap 32 (number (va k))).
  pose proof (swrap_32 (number (va k))) as Hval. fold val in Hval. clearbody val.
  destruct (Z.ltb_spec val 0); rewrite H; cbn [mbind option_bind]; (eexists; split; [done|]);
    (destruct r as [[c' i']|]; [|done]); destruct Hpost as (? & ? & -> & ?); rewrite ?orb_true_r, ?orb_false_r;
    unfold INT_MAX, INT_MIN in *; split_and!; try done; try lia.
  - destruct (val >? _); lia.
  - destruct (Z.gtb_spec val (-0x80000000)); lia.
Qed.

Lemma precision_ok c i k :
  just_read c i → c ≠ 0 → ∃ r, read_precision format va c i k = Some r ∧
    let '(prec, k', l) := precision_of va k (rest (i - 1)) in
    match r with
    | None => l = []
    | Some (c', i', prec', set, k'') =>
        just_read c' i' ∧ c' ≠ 0 ∧ i ≤ i' ∧ l = c' :: rest i' ∧
        0 ≤ prec' ∧ prec' = default 0 prec ∧ set = bool_decide (is_Some prec) ∧ k'' = k'
    end.
Proof.
  intros Hr Hc. pose proof (just_read_more c i Hr Hc) as Hi. unfold read_precision, precision_of.
  rewrite (just_read_rest c i Hr). rewrite (proj2 (Z.eqb_neq c 0)) by done. cbn [strip]. rewrite (Z.eqb_sym 46 c).
  destruct (c =? 46); cbn [negb]; [|by eexists; split; [done|]; split_and!].
  destruct (char_ok i) as (r & H & Hpost); [lia|]. rewrite H. cbn [mbind option_bind].
  destruct r as [[c1 i1]|]; [|rewrite Hpost; cbn [span]; by eexists].
  destruct Hpost as (Hr1 & Hc1 & -> & Hrest). pose proof (just_read_more _ _ Hr1 Hc1) as Hi1.
  rewrite Hrest. rewrite (Z.eqb_sym 42 c1). destruct (c1 =? 42); cycle 1.
  { destruct (number_ok c1 (i + 1) Hr1) as (r & -> & Hpost). replace (i + 1 - 1) with i in Hpost by lia. rewrite Hrest in Hpost.
    cbn [mbind option_bind]. eexists. split; [done|]. destruct (span _ _) as [cs l]. cbn [fst snd] in Hpost.
    destruct r as [[[c' i'] v]|]; [|done]. destruct Hpost as (? & ? & ? & ? & ->).
    split_and!; try done; [lia|apply decimal_nonneg]. }
  cbv zeta. destruct (char_ok (i + 1)) as (r & H' & Hpost); [lia|]. set (val := swrap 32 (number (va k))).
  destruct (Z.ltb_spec val 0); rewrite H'; cbn [mbind option_bind]; (eexists; split; [done|]);
    (destruct r as [[c' i']|]; [|done]); destruct Hpost as (? & ? & -> & ?); split_and!; try done; lia.
Qed.

Lemma length_ok c i :
  just_read c i → c ≠ 0 → ∃ c' i' l, read_length format c i = Some (c', i', l) ∧
    i ≤ i' ∧ (i' ≤ L ∨ c' = 0) ∧
    modifier_of length_modifiers (rest (i - 1)) = (l, if c' =? 0 then [] else c' :: rest i').
Proof.
  intros Hr Hc. pose proof (just_read_more c i Hr Hc) as Hi. unfold read_length.
  rewrite (just_read_rest c i Hr). rewrite (proj2 (Z.eqb_neq c 0)) by done.
  destruct (rest_read i ltac:(lia)) as (c1 & Hc1 & Hr1 & Hrest).
  assert (Hnext : ∀ i1 (m : length_modifier), i ≤ i1 ≤ L → m ≠ length_modifier_none →
    ∃ c' i' l', (if decide (m = length_modifier_none) then Some (c, i1, m)
                 else c ← format.[i1]; Some (c, i1 + 1, m)) = Some (c', i', l') ∧
      i ≤ i' ∧ (i' ≤ L ∨ c' = 0) ∧ (m, rest i1) = (l', if c' =? 0 then [] else c' :: rest i')).
  { intros i1 m Hi1 Hm. rewrite decide_False by done.
    destruct (rest_read i1 ltac:(lia)) as (c2 & Hc2 & Hr2 & Hrest2). rewrite Hc2, Hrest2.
    cbn [mbind option_bind]. exists c2, (i1 + 1), m. split; [done|]. split; [lia|]. split; [|done].
    destruct (decide (c2 = 0)) as [|Hne]; [by right|left].
    pose proof (just_read_more _ _ Hr2 Hne). lia. }
  assert (Hdouble : ∀ k, k ≠ 0 → c1 = k → i + 1 ≤ L).
  { intros k Hk ->. pose proof (just_read_more _ _ Hr1 Hk). lia. }
  unfold length_modifiers. cbn [modifier_of strip].
  rewrite (Z.eqb_sym 104 c), (Z.eqb_sym 108 c), (Z.eqb_sym 106 c), (Z.eqb_sym 122 c), (Z.eqb_sym 116 c), (Z.eqb_sym 76 c).
  destruct (Z.eqb_spec c 104) as [->|]; [|destruct (Z.eqb_spec c 108) as [->|]].
  1,2: rewrite Hc1; cbn [mbind option_bind]; rewrite Hrest.
  - rewrite (Z.eqb_sym c1 104). destruct (Z.eqb_spec 104 c1) as [<-|].
    + cbn [Z.eqb Pos.eqb]. apply Hnext; [|done]. specialize (Hdouble 104 ltac:(done) eq_refl). lia.
    + destruct (Hnext i length_modifier_h ltac:(lia) ltac:(done)) as (c' & i' & l' & H1 & H2 & H3 & H4).
      exists c', i', l'. split_and!; try done. rewrite <- H4, Hrest. destruct (c1 =? 0); [done|].
      by rewrite (proj2 (Z.eqb_neq 104 c1)).
  - rewrite (Z.eqb_sym c1 108). destruct (Z.eqb_spec 108 c1) as [<-|].
    + cbn [Z.eqb Pos.eqb]. apply Hnext; [|done]. specialize (Hdouble 108 ltac:(done) eq_refl). lia.
    + destruct (Hnext i length_modifier_ell ltac:(lia) ltac:(done)) as (c' & i' & l' & H1 & H2 & H3 & H4).
      exists c', i', l'. split_and!; try done. rewrite <- H4, Hrest. destruct (c1 =? 0); [done|].
      by rewrite (proj2 (Z.eqb_neq 108 c1)).
  - destruct (c =? 106); [|destruct (c =? 122); [|destruct (c =? 116); [|destruct (c =? 76)]]];
      cbn [mbind option_bind]; try (apply Hnext; [lia|done]).
    exists c, i, length_modifier_none. split; [done|]. rewrite (proj2 (Z.eqb_neq c 0)) by done. split_and!; (done || lia).
Qed.

(** The code reads the format as it is specified. *)
Definition parsed_ok (i : Z) (k : nat) (p : parsed) : Prop :=
  match p with
  | Malformed => read_directive va k (rest i) = None
  | Percent i' => i < i' ≤ L ∧ read_directive va k (rest i) = Some (PercentSign (rest i'))
  | Conversion sp i' k' =>
      i < i' ∧ 0 ≤ field_width sp ∧ 0 ≤ precision sp ∧
      ((conversion sp = 0 ∧ read_directive va k (rest i) = None) ∨
       (i' ≤ L ∧ read_directive va k (rest i) = Some (Convert sp k' (rest i'))))
  end.

Lemma parse_ok i k : 0 ≤ i ≤ L → ∃ p, parse format va i k = Some p ∧ parsed_ok i k p.
Proof.
  intros Hi. unfold parse, parsed_ok, read_directive. destruct (flags_ok i Hi) as (r & -> & Hpost).
  cbn [mbind option_bind]. destruct (span is_flag (rest i)) as [fs l]. cbn [fst snd] in Hpost.
  destruct r as [[[c i1] f]|]; [|eexists; split; [done|]; by rewrite Hpost].
  destruct Hpost as (Hr & Hc & Hi1 & -> & ->). pose proof (just_read_more _ _ Hr Hc) as Hi1'.
  cbn [strip]. rewrite (Z.eqb_sym 37 c). destruct (c =? 37); [eexists; split; [done|]; cbn; split; [lia|done]|].
  destruct (width_ok c i1 (flag_minus (flags_of fs)) k Hr Hc) as (r & -> & Hpost).
  rewrite (just_read_rest c i1 Hr), (proj2 (Z.eqb_neq c 0)) in Hpost by done.
  cbn [mbind option_bind]. destruct (width_of va k _) as [[[w aside] k1] l1].
  destruct r as [[[[[c2 i2] w'] mi] k2]|]; [|eexists; split; [done|]; by rewrite Hpost].
  destruct Hpost as (Hr2 & Hc2 & Hi2 & -> & Hw & -> & -> & ->).
  destruct (precision_ok c2 i2 k1 Hr2 Hc2) as (r & -> & Hpost).
  rewrite (just_read_rest c2 i2 Hr2), (proj2 (Z.eqb_neq c2 0)) in Hpost by done.
  cbn [mbind option_bind]. destruct (precision_of va k1 _) as [[pr k3] l3].
  destruct r as [[[[[c3 i3] pr'] set] k4]|]; [|eexists; split; [done|]; by rewrite Hpost].
  destruct Hpost as (Hr3 & Hc3 & Hi3 & -> & Hp & -> & -> & ->).
  destruct (length_ok c3 i3 Hr3 Hc3) as (c4 & i4 & m & -> & Hi4 & Hend & Hm).
  rewrite (just_read_rest c3 i3 Hr3), (proj2 (Z.eqb_neq c3 0)) in Hm by done. rewrite Hm.
  cbn [mbind option_bind]. eexists. split; [done|]. cbn [field_width precision conversion].
  split; [lia|]. split; [done|]. split; [done|].
  destruct (Z.eqb_spec c4 0) as [->|]; [by left|right]. split; [lia|done].
Qed.
End Parse.

(** ** Specification: the text of a whole format *)

(** How a format ends: at its end; at a directive that is malformed or not
    supported; or at a string that is read behind the end of its array. *)
Inductive outcome := Finished | Refused | Overread.

#[export] Instance outcome_eq_dec : EqDecision outcome.
Proof. solve_decision. Defined.

(** What the call would write into a buffer without end for the format [l], and how it
    ends; each [%n] with the number of bytes before it, where [pos] bytes are before
    [l]. *)
Fixpoint render (fuel : nat) (long_bits : Z) (va : nat → slot) (l : list Z) (k : nat) (pos : Z)
  : option (list Z * outcome * list (length_modifier * Z)) :=
  match fuel with
  | O => None
  | S fuel =>
      let continue t l k stores :=
        '(t', r, stores') ← render fuel long_bits va l k (pos + size t);
        Some (t ++ t', r, stores ++ stores') in
      match l with
      | [] => Some ([], Finished, [])
      | c :: l =>
          if negb (c =? 37) then continue [c] l k []
          else
            match read_directive va k l with
            | None => Some ([], Refused, [])
            | Some (PercentSign l) => continue [37] l k []
            | Some (Convert sp k l) =>
                match conversion_text long_bits sp (va k) with
                | None => Some ([], Refused, [])
                | Some t =>
                    if overreads sp (va k) then Some ([], Overread, [])
                    else continue t l (S k) (if conversion sp =? 110 then [(modifier sp, pos)] else [])
                end
            end
      end
  end.

(** What [%n] stores for the conversions that were reached. *)
Definition stored (n : Z) (stores : list (length_modifier * Z)) : list (length_modifier * Z) :=
  (λ x, (fst x, convert_n (fst x) (snd x))) <$> List.filter (λ x, snd x <? n) stores.

Lemma stored_app n l1 l2 : stored n (l1 ++ l2) = stored n l1 ++ stored n l2.
Proof. unfold stored. by rewrite List.filter_app, fmap_app. Qed.

Section Render.
Context (long_bits : Z) (format : list Z) (L : Z) (va : nat → slot).
Context (Hformat : format_ok format L) (Hlong : 32 ≤ long_bits ≤ 64).
Abbreviation rest := (rest format).

Lemma no_null_conversion sp x : conversion sp = 0 → conversion_text long_bits sp x = None.
Proof. intros Hc. unfold conversion_text. by rewrite Hc. Qed.

Lemma render_total fuel : ∀ i k pos, 0 ≤ i ≤ L → L - i < Z.of_nat fuel →
  ∃ t r st, render fuel long_bits va (rest i) k pos = Some (t, r, st) ∧
    Forall (λ x, pos ≤ snd x) st.
Proof.
  induction fuel as [|fuel IH]; intros i k pos Hi Hf; [lia|]. cbn [render].
  assert (Hgo : ∀ t i' k' st, i < i' ≤ L → Forall (λ x, pos ≤ snd x) st →
    ∃ t1 r st1, ('(t', r, stores') ← render fuel long_bits va (rest i') k' (pos + size t);
       Some (t ++ t', r, st ++ stores')) = Some (t1, r, st1) ∧ Forall (λ x, pos ≤ snd x) st1).
  { intros t i' k' st Hi' Hst.
    destruct (IH i' k' (pos + size t)) as (t1 & r & st1 & H & Hst1); [lia|lia|].
    rewrite H. cbn [mbind option_bind]. eexists _, _, _. split; [done|].
    apply Forall_app. split; [done|]. eapply Forall_impl; [|exact Hst1]. cbn. intros x Hx.
    pose proof (size_nonneg t). lia. }
  destruct (rest_read format L Hformat i Hi) as (c & Hc & Hr & Hrest). rewrite Hrest.
  destruct (Z.eqb_spec c 0) as [|Hc0]; [by eexists _, _, _|].
  pose proof (just_read_more format L Hformat _ _ Hr Hc0) as Hi1.
  destruct (negb _); [apply Hgo; [lia|done]|].
  destruct (parse_ok format L Hformat va (i + 1) k ltac:(lia)) as (p & _ & Hpo).
  destruct p as [|i'|sp i' k']; cbn [parsed_ok] in Hpo.
  - rewrite Hpo. by eexists _, _, _.
  - destruct Hpo as [Hi' ->]. apply Hgo; [lia|done].
  - destruct Hpo as (Hi' & _ & _ & [[_ ->]|[Hi'' ->]]); [by eexists _, _, _|].
    destruct (conversion_text _ _ _) as [t|]; [|by eexists _, _, _]. destruct (overreads _ _); [by eexists _, _, _|].
    apply Hgo; [lia|]. destruct (conversion sp =? 110); [|done]. constructor; [cbn; lia|done].
Qed.

Section Buffer.
Context (n : Z) (s : list Z) (Hn : 0 ≤ n < 2 ^ 32) (Hs : n < size s).

Lemma vsnprintf_turn_eq s1 out i k stores :
  out < n →
  vsnprintf_turn long_bits n format va ((s1, out), i, k, stores)
  = (c ← format.[i];
     if c =? 0 then Some (Done (true, (s1, out), stores))
     else if negb (c =? 37) then
       s ← s1.[out <- c]; Some (Next ((s, out + 1), i + 1, k, stores))
     else
       p ← parse format va (i + 1) k;
       match p with
       | Malformed => Some (Done (false, (s1, out), stores))
       | Percent i => s ← s1.[out <- 37]; Some (Next ((s, out + 1), i, k, stores))
       | Conversion sp i k =>
           r ← convert long_bits n sp (va k) (s1, out);
           Some (match r with
                 | None => Done (false, (s1, out), stores)
                 | Some (o, st) => Next (o, i, S k, stores ++ st)
                 end)
       end).
Proof. intros Hlt. unfold vsnprintf_turn. by rewrite (proj2 (Z.ltb_lt out n) Hlt). Qed.

Definition finished (r : outcome) : bool := bool_decide (r = Finished).

(** The text [tp] is written and the rest is to come: what a loop gives. *)
Definition cut (tp : list Z) (stores : list (length_modifier * Z))
    (x : list Z * outcome * list (length_modifier * Z))
    (w : option (bool * output * list (length_modifier * Z))) : Prop :=
  let '(t, r, st) := x in
  if bool_decide (r = Overread) && (size (tp ++ t) <? n) then w = None
  else ∃ s2 out2, w = Some (finished r || (n <=? size (tp ++ t)), (s2, out2), stores ++ stored n st) ∧
    wrote n (s, 0) (s2, out2) (tp ++ t).

Lemma cut_stop tp stores s1 out r :
  out < n → size tp = out → wrote n (s, 0) (s1, out) tp → r ≠ Overread →
  cut tp stores ([], r, []) (Some (finished r, (s1, out), stores)).
Proof.
  intros Hlt Hpos Hw Hr. unfold cut. rewrite (bool_decide_false (r = Overread)) by done. cbn [andb].
  exists s1, out. rewrite !app_nil_r. split; [|done]. by rewrite (proj2 (Z.leb_gt _ _)), orb_false_r by lia.
Qed.

Lemma cut_more tp t stores st t1 r st1 w :
  cut (tp ++ t) (stores ++ stored n st) (t1, r, st1) w → cut tp stores (t ++ t1, r, st ++ st1) w.
Proof. unfold cut. by rewrite stored_app, !app_assoc. Qed.

(** The buffer is full: whatever comes is cut off. *)
Lemma cut_full tp stores s1 out t r st :
  out = n → out ≤ size tp → output_ok n (s1, out) → wrote n (s, 0) (s1, out) tp → Forall (λ x, size tp ≤ snd x) st →
  cut tp stores (t, r, st) (Some (true, (s1, out), stores)).
Proof.
  intros Hfull Hge Hok1 Hw Hst. unfold cut. pose proof (size_nonneg t). rewrite size_app.
  rewrite (proj2 (Z.ltb_ge _ n)), andb_false_r by lia. exists s1, out.
  rewrite (proj2 (Z.leb_le n _)), orb_true_r by lia. split.
  - replace (stored n st) with (@nil (length_modifier * Z)); [by rewrite app_nil_r|].
    unfold stored. clear -Hst Hge Hfull Hn. induction Hst as [|x st Hx _ IHst]; [done|]. cbn.
    rewrite (proj2 (Z.ltb_ge _ _)) by lia. exact IHst.
  - eapply wrote_trans; [split; cbn; lia|exact Hw|]. by apply wrote_full.
Qed.

(** The loop is the rendering, cut at [n]. *)
Lemma vsnprintf_loop fuel : ∀ i k s1 out stores tp,
  0 ≤ i ≤ L → L - i < Z.of_nat fuel → wrote n (s, 0) (s1, out) tp →
  ∃ x, render fuel long_bits va (rest i) k (size tp) = Some x ∧
    cut tp stores x (while fuel (vsnprintf_turn long_bits n format va) ((s1, out), i, k, stores)).
Proof.
  induction fuel as [|fuel IH]; intros i k s1 out stores tp Hi Hf Hw; [lia|].
  assert (Hok : output_ok n (s, 0)) by (split; cbn; lia).
  destruct (wrote_ok _ _ _ _ Hok Hw) as [Hok1 _].
  pose proof Hw as [Hout _]. cbn [fst snd] in Hout. pose proof (size_nonneg tp) as Htp.
  destruct (Z.ltb_spec out n) as [Hlt|Hge].
  2: { destruct (render_total (S fuel) i k (size tp) Hi Hf) as (t & r & st & Hr & Hst).
       exists (t, r, st). split; [exact Hr|]. cbn [while]. unfold vsnprintf_turn. rewrite (proj2 (Z.ltb_ge out n)) by lia.
       apply cut_full; try done; destruct Hok1; cbn [fst snd] in *; lia. }
  assert (Hpos : size tp = out) by lia.
  cbn [render while]. rewrite (vsnprintf_turn_eq _ _ _ _ _ Hlt).
  assert (Hgo : ∀ t i' k' st s1' out', i < i' ≤ L → wrote n (s1, out) (s1', out') t →
    ∃ x, ('(t', r, stores') ← render fuel long_bits va (rest i') k' (size tp + size t);
       Some (t ++ t', r, st ++ stores')) = Some x ∧
      cut tp stores x (while fuel (vsnprintf_turn long_bits n format va) ((s1', out'), i', k', stores ++ stored n st))).
  { intros t i' k' st s1' out' Hi' Hwt.
    destruct (IH i' k' s1' out' (stores ++ stored n st) (tp ++ t) ltac:(lia) ltac:(lia)
                (wrote_trans _ _ _ _ _ _ Hok Hw Hwt)) as ([[t1 r] st1] & Hr & Hc).
    rewrite <- size_app, Hr. cbn [mbind option_bind]. eexists. split; [done|]. by apply cut_more. }
  assert (Hput : ∀ c i' k', i < i' ≤ L →
    ∃ x, ('(t', r, stores') ← render fuel long_bits va (rest i') k' (size tp + size [c]);
       Some ([c] ++ t', r, [] ++ stores')) = Some x ∧
      cut tp stores x (r ← (s ← s1.[out <- c]; Some (Next ((s, out + 1), i', k', stores)));
       match r with
       | Next s' => while fuel (vsnprintf_turn long_bits n format va) s'
       | Done r => Some r
       end)).
  { intros c i' k' Hi'. destruct (wrote_store n s1 out c Hok1 Hlt) as (s1' & Hs1 & Hwc).
    rewrite Hs1. cbn [mbind option_bind].
    destruct (Hgo [c] i' k' [] s1' (out + 1) Hi' Hwc) as (x & H). rewrite app_nil_r in H. by exists x. }
  destruct (rest_read format L Hformat i Hi) as (c & Hc & Hr & Hrest). rewrite Hc, Hrest.
  cbn [mbind option_bind]. destruct (Z.eqb_spec c 0) as [|Hc0].
  { eexists. split; [done|]. by apply (cut_stop _ _ _ _ Finished). }
  pose proof (just_read_more format L Hformat _ _ Hr Hc0) as Hi1.
  destruct (negb _); [apply (Hput c (i + 1) k); lia|].
  assert (Hrefuse : ∃ x, Some ([], Refused, []) = Some x ∧ cut tp stores x (Some (false, (s1, out), stores))).
  { eexists. split; [done|]. by apply (cut_stop _ _ _ _ Refused). }
  destruct (parse_ok format L Hformat va (i + 1) k ltac:(lia)) as (p & -> & Hpo).
  cbn [mbind option_bind]. destruct p as [|i'|sp i' k']; cbn [parsed_ok] in Hpo.
  { by rewrite Hpo. }
  { destruct Hpo as [Hi' ->]. apply (Hput 37 i' k). lia. }
  destruct Hpo as (Hi' & Hfw & Hpr & Hdir).
  pose proof (convert_spec long_bits n sp (va k') (s1, out) ltac:(lia) Hlong Hfw Hpr Hok1) as Hcv.
  destruct Hdir as [[H0 ->]|[Hi'' ->]].
  { rewrite no_null_conversion in Hcv by done. by rewrite Hcv. }
  destruct (conversion_text long_bits sp (va k')) as [t|]; [|by rewrite Hcv].
  destruct (overreads sp (va k')).
  { rewrite Hcv. eexists. split; [done|]. unfold cut. rewrite bool_decide_true, app_nil_r by done.
    by rewrite (proj2 (Z.ltb_lt _ _)) by lia. }
  destruct Hcv as ([s1' out'] & Hcv & Hwt). rewrite Hcv. cbn [mbind option_bind snd].
  destruct (Hgo t i' (S k') (if conversion sp =? 110 then [(modifier sp, size tp)] else [])
              s1' out' ltac:(lia) Hwt) as (x & H).
  exists x. rewrite Hpos in *.
  replace (stored n (if conversion sp =? 110 then [(modifier sp, out)] else []))
    with (if conversion sp =? 110 then [(modifier sp, convert_n (modifier sp) out)] else []) in H;
    [done|].
  destruct (conversion sp =? 110); [|done]. unfold stored. cbn.
  by rewrite (proj2 (Z.ltb_lt out n)) by lia.
Qed.
End Buffer.
End Render.

Lemma null_format_ok format : In 0 format → format_ok format (size (cstring format)).
Proof.
  intros Hin. pose proof (cstring_next format Hin) as Hz. unfold size. split; [lia|]. split.
  - apply rd_Some. rewrite Nat2Z.id. split; [lia|done].
  - intros i Hi. destruct (lookup_lt_is_Some_2 (cstring format) (Z.to_nat i)) as [c Hc]; [lia|].
    exists c. split; [apply cstring_rd; [lia|done]|by eapply cstring_nonzero].
Qed.

(** The whole call on a buffer of at least one byte. *)
Lemma vsnprintf_spec long_bits s n format va :
  32 ≤ long_bits ≤ 64 → In 0 format → 1 ≤ n ≤ 2 ^ 32 → n ≤ size s →
  ∃ t r stores, render (S (length format)) long_bits va (cstring format) 0 0 = Some (t, r, stores) ∧
    let out := Z.min (size t) (n - 1) in
    vsnprintf long_bits s n format va
    = if decide (r = Overread ∧ size t < n - 1) then None
      else Some (if decide (r = Finished ∨ n - 1 ≤ size t) then Z.min out INT_MAX else -1,
                 take (Z.to_nat out) t ++ [0] ++ drop (Z.to_nat (out + 1)) s,
                 stored (n - 1) stores).
Proof.
  intros Hlong Hin Hn Hs. pose proof (null_format_ok format Hin) as Hf. pose proof (cstring_length format) as Hcl.
  destruct (vsnprintf_loop long_bits format _ va Hf Hlong (n - 1) s ltac:(lia) ltac:(lia)
              (S (length format)) 0 0 s 0 [] []) as ([[t r] st] & Hr & Hc);
    [unfold size; lia|unfold size; lia|apply wrote_nil; cbn; lia|].
  exists t, r, st. split; [exact Hr|]. cbv zeta. unfold cut in Hc. cbn [app] in Hc.
  unfold vsnprintf. rewrite (proj2 (Z.ltb_ge n 1)) by lia.
  destruct (decide (r = Overread ∧ size t < n - 1)) as [[Ho Hlt]|Hno].
  { rewrite bool_decide_true, (proj2 (Z.ltb_lt _ _)) in Hc by done. by rewrite Hc. }
  assert (E : bool_decide (r = Overread) && (size t <? n - 1) = false).
  { case_bool_decide; [|done]. apply Z.ltb_ge. destruct (Z.lt_ge_cases (size t) (n - 1)); [by destruct Hno|done]. }
  rewrite E in Hc. destruct Hc as (s2 & out2 & -> & Hwr). cbn [mbind option_bind].
  assert (Hok : output_ok (n - 1) (s, 0)) by (split; cbn; lia).
  destruct (wrote_ok _ _ _ _ Hok Hwr) as [[Ho2 _] Hsz]. destruct Hwr as [Hout Hs2].
  cbn [fst snd] in *. rewrite Z.add_0_l, Z.sub_0_r in *. unfold size in *.
  rewrite wr_Some by lia. cbn [mbind option_bind]. do 2 f_equal.
  rewrite <- Hout. f_equal.
  - unfold finished. destruct (decide (r = Finished ∨ _)) as [Hd|Hd].
    + replace (_ || _) with true; [destruct (Z.ltb_spec out2 INT_MAX); lia|].
      symmetry. apply orb_true_iff. rewrite bool_decide_eq_true, Z.leb_le. tauto.
    + rewrite bool_decide_false, (proj2 (Z.leb_gt _ _)) by (tauto || lia). done.
  - change (Z.to_nat 0) with 0%nat in Hs2. rewrite take_0, app_nil_l, <- Hout in Hs2.
    rewrite insert_take_drop by lia. rewrite Hs2.
    assert (Hl : length (take (Z.to_nat out2) t) = Z.to_nat out2) by (rewrite length_take; lia).
    rewrite take_app_le, take_ge by lia.
    rewrite drop_app_ge, Hl, drop_drop by lia. cbn [app]. do 3 f_equal. lia.
Qed.

Lemma digit_chars_length a ds : length (digit_chars a ds) = length ds.
Proof. apply length_fmap. Qed.

Lemma numeral_length m : 0 ≤ m ≤ 2 ^ 63 → (1 ≤ length (numeral 10 m) ≤ 19)%nat.
Proof.
  intros Hm. unfold numeral. destruct (Z.eqb_spec m 0) as [|Hm0]; [cbn; lia|]. rewrite length_rev.
  assert (H19 : m < 10 ^ Z.of_nat 19).
  { change (10 ^ Z.of_nat 19) with 10000000000000000000.
    change (2 ^ 63) with 9223372036854775808 in Hm. lia. }
  rewrite (low_digits_enough 64 19 10 m); [|lia| |exact H19].
  - split; [|apply low_digits_length; lia].
    cbn [low_digits]. destruct (Z.eqb_spec m 0); [done|]. cbn [length]. lia.
  - split; [lia|]. apply Z.lt_le_trans with (1 := H19). apply Z.pow_le_mono_r; lia.
Qed.

Lemma numeral_range m d : In d (numeral 10 m) → 0 ≤ d < 10.
Proof.
  unfold numeral. destruct (m =? 0); [intros [<-|[]]; lia|].
  intros Hd%in_rev%list_elem_of_In. by apply low_digits_range in Hd.
Qed.

Lemma numeral_head m d l :
  0 ≤ m < 2 ^ 64 → numeral 10 m = d :: l → d = 0 → m = 0 ∧ l = [].
Proof.
  intros Hm. unfold numeral. destruct (Z.eqb_spec m 0) as [->|Hm0]; [by intros [= <- <-]|].
  intros E ->. apply low_digits_head in E; [done|lia|].
  split; [lia|]. apply Z.lt_le_trans with (1 := proj2 Hm). by vm_compute.
Qed.

Lemma cstring_app_nul t s : ~ In 0 t → cstring (t ++ 0 :: s) = t.
Proof.
  induction t as [|c t IH]; [done|]. intros Hin. cbn.
  destruct (Z.eqb_spec c 0) as [->|]; [destruct Hin; by left|].
  rewrite IH; [done|]. intros ?. apply Hin. by right.
Qed.

(** ** Properties *)

(** (C22) [vsnprintf] is the text of its format, cut to the buffer.  For every buffer
    of at least [n] bytes, from 1 to 2^32, every format with a null byte and all arguments, the
    specified reading of the format gives a text, and the call ends within its fuel
    without an access outside the buffer, the format, the arguments or its own digit
    buffer, but in one case: it gets to a string without a null byte that is not
    longer than the precision, of which it reads the byte behind the end.  Afterwards
    the buffer begins with the first [n - 1] bytes of the text, followed by a null
    byte, and the bytes behind it are untouched; the value is the number of bytes
    written, or -1 when a malformed or unsupported directive was reached before the
    buffer was full; each [%n] that was reached stores the number of bytes before it.
    The text of a conversion is [conversion_text]; the zeros of the alternative form of
    a hexadecimal number are before its prefix, not behind it as in the C standard
    ([deviates_x]). *)
Theorem vsnprintf_refines (long_bits n : Z) (s format : list Z) (va : nat → slot) :
  32 ≤ long_bits ≤ 64 → In 0 format → 1 ≤ n ≤ 2 ^ 32 → n ≤ size s →
  ∃ t r stores, render (S (length format)) long_bits va (cstring format) 0 0 = Some (t, r, stores) ∧
    let out := Z.min (size t) (n - 1) in
    vsnprintf long_bits s n format va
    = if decide (r = Overread ∧ size t < n - 1) then None
      else Some (if decide (r = Finished ∨ n - 1 ≤ size t) then Z.min out INT_MAX else -1,
                 take (Z.to_nat out) t ++ [0] ++ drop (Z.to_nat (out + 1)) s,
                 stored (n - 1) stores).
Proof. apply vsnprintf_spec. Qed.

Definition lld : list Z := [37; 108; 108; 100; 0].

Lemma decimal_chars m : digit_chars hex_normal (numeral 10 m) = (λ d, 48 + d) <$> numeral 10 m.
Proof.
  apply map_ext_in. intros d Hd%numeral_range.
  assert (H : all_below 10 (λ d, bool_decide (default 0 (hex_normal.[d]) = 48 + d)) = true)
    by (vm_compute; reflexivity).
  exact (bool_decide_eq_true_1 _ (all_below_spec 10 _ H d Hd)).
Qed.

Lemma read_lld va k :
  read_directive va k [108; 108; 100]
  = Some (Convert (Spec (Flags false false false false false) 0 0 false length_modifier_ellell 100) k []).
Proof. reflexivity. Qed.

Lemma render_lld long_bits v p :
  - 2 ^ 63 ≤ v < 2 ^ 63 →
  render (S (length lld)) long_bits (λ _, Slot v p) (cstring lld) 0 0
  = Some ((if v <? 0 then [45] else []) ++ digit_chars hex_normal (numeral 10 (Z.abs v)), Finished, []).
Proof.
  intros Hv.
  assert (Hsw : swrap 64 v = v).
  { unfold swrap. change (2 ^ 64) with (2 * 2 ^ 63). change (2 ^ (64 - 1)) with (2 ^ 63). dlia. }
  assert (Htext : conversion_text long_bits (Spec (Flags false false false false false) 0 0 false
      length_modifier_ellell 100) (Slot v p)
    = Some ((if v <? 0 then [45] else []) ++ digit_chars hex_normal (numeral 10 (Z.abs v)))).
  { unfold conversion_text. cbn [conversion modifier number Z.eqb Pos.eqb orb].
    change (int_bits long_bits length_modifier_ellell) with 64. rewrite Hsw. f_equal.
    unfold text_d, number_text, justify, sign_text, digits_text.
    cbn [flag flag_minus flag_plus flag_space flag_zero precision_set precision field_width
         andb negb].
    unfold size. rewrite zeros_0, spaces_0 by lia. done. }
  change (cstring lld) with [37; 108; 108; 100]. cbn [length lld]. remember 5%nat as fuel eqn:Ef. cbn [render].
  change (negb (37 =? 37)) with false. cbn iota. rewrite (read_lld (λ _, Slot v p) 0), Htext. unfold overreads.
  cbn [conversion Z.eqb Pos.eqb andb]. rewrite Ef. cbn [render mbind option_bind]. by rewrite app_nil_r.
Qed.

(** Decimal numbers survive printing: for every 64-bit value, also the
    smallest, [snprintf] with [%lld] into a buffer of 21 bytes or more leaves
    there an optional minus sign and the decimal digits of its magnitude:
    between one and twenty digits without a leading zero, whose value is the
    magnitude. *)
Theorem snprintf_decimal (long_bits v n : Z) (s p : list Z) :
  32 ≤ long_bits ≤ 64 → - 2 ^ 63 ≤ v < 2 ^ 63 → 21 ≤ n ≤ 2 ^ 32 → n ≤ size s →
  ∃ ds s', snprintf long_bits s n lld (λ _, Slot v p)
      = Some (size (cstring s'), s', []) ∧
    cstring s' = (if v <? 0 then [45] else []) ++ ((λ d, 48 + d) <$> ds) ∧
    value_of 10 ds = Z.abs v ∧ (∀ d, In d ds → 0 ≤ d < 10) ∧ (1 ≤ length ds ≤ 20)%nat ∧
    (∀ l, ds = 0 :: l → l = []).
Proof.
  intros Hlong Hv Hn Hs.
  destruct (vsnprintf_spec long_bits s n lld (λ _, Slot v p) Hlong ltac:(cbn; tauto)
              ltac:(lia) Hs) as (t & r & st & Hr & Hcall).
  set (ds := numeral 10 (Z.abs v)).
  assert (Hds : (1 ≤ length ds ≤ 19)%nat) by (apply numeral_length; lia).
  set (t0 := (if v <? 0 then [45] else []) ++ digit_chars hex_normal ds).
  assert (Ht : render (S (length lld)) long_bits (λ _, Slot v p) (cstring lld) 0 0 = Some (t0, Finished, [])).
  { apply render_lld. lia. }
  rewrite Ht in Hr. injection Hr as <- <- <-. cbv zeta in Hcall. clear Ht.
  rewrite decide_False, decide_True in Hcall by (by left || by intros [? _]).
  assert (Hchars : digit_chars hex_normal ds = (λ d, 48 + d) <$> ds) by (apply decimal_chars).
  assert (Hsize : size t0 ≤ 20).
  { unfold t0. rewrite size_app. unfold size. rewrite digit_chars_length.
    destruct (v <? 0); cbn [length]; lia. }
  assert (Hnul : ~ In 0 t0).
  { unfold t0. rewrite Hchars, in_app_iff. intros [H|H].
    - destruct (v <? 0); [destruct H as [H|[]]; lia|destruct H].
    - apply in_map_iff in H as (d & Hd & Hin). apply numeral_range in Hin. lia. }
  rewrite !(Z.min_l (size t0) (n - 1)) in Hcall by lia.
  replace (Z.to_nat (size t0)) with (length t0) in Hcall by (unfold size; lia).
  rewrite (take_ge t0) in Hcall by lia.
  eexists ds, _. split; [unfold snprintf; rewrite Hcall|].
  { cbn [app]. rewrite cstring_app_nul by done. rewrite Z.min_l by (unfold INT_MAX; lia). done. }
  cbn [app]. rewrite cstring_app_nul by done. unfold t0. rewrite Hchars. split; [done|].
  split; [apply value_of_numeral; lia|]. split; [apply numeral_range|]. split; [lia|].
  intros l Hl. apply (numeral_head (Z.abs v) 0 l); [lia|done|done].
Qed.

(** *** Concrete runs *)

(** "%-5s|%+04d" *)
Definition example_format : list Z := [37; 45; 53; 115; 124; 37; 43; 48; 52; 100; 0].

Definition example_args (k : nat) : slot :=
  match k with O => Slot 0 [97; 98; 0] | _ => Slot 42 [0] end.

(** The text is cut after seven of its ten bytes. *)
Lemma vsnprintf_refines_witness :
  vsnprintf 32 (replicate 9 1) 8 example_format example_args
    = Some (7, [97; 98; 32; 32; 32; 124; 43; 0; 1], []) ∧
  ∃ t r stores,
    render (S (length example_format)) 32 example_args (cstring example_format) 0 0 = Some (t, r, stores) ∧
    let out := Z.min (size t) (8 - 1) in
    vsnprintf 32 (replicate 9 1) 8 example_format example_args
    = if decide (r = Overread ∧ size t < 8 - 1) then None
      else Some (if decide (r = Finished ∨ 8 - 1 ≤ size t) then Z.min out INT_MAX else -1,
                 take (Z.to_nat out) t ++ [0] ++ drop (Z.to_nat (out + 1)) (replicate 9 1),
                 stored (8 - 1) stores).
Proof.
  split; [vm_compute; reflexivity|].
  apply (vsnprintf_refines 32 8 (replicate 9 1) example_format example_args);
    [lia|cbn; tauto|lia|vm_compute; discriminate].
Defined.

(** The smallest number. *)
Lemma snprintf_decimal_witness :
  ∃ ds s', snprintf 64 (replicate 21 1) 21 lld (λ _, Slot (- 2 ^ 63) [0])
      = Some (size (cstring s'), s', []) ∧
    cstring s' = (if - 2 ^ 63 <? 0 then [45] else []) ++ ((λ d, 48 + d) <$> ds) ∧
    value_of 10 ds = Z.abs (- 2 ^ 63) ∧ (∀ d, In d ds → 0 ≤ d < 10) ∧ (1 ≤ length ds ≤ 20)%nat ∧
    (∀ l, ds = 0 :: l → l = []).
Proof.
  apply (snprintf_decimal 64 (- 2 ^ 63) 21 (replicate 21 1) [0]);
    [lia|lia|lia|vm_compute; discriminate].
Defined.

(** ** Deviations from the C standard

    "%.3s" of an array of three bytes without a null byte is allowed there; the
    code reads [p[3]] before it looks at the precision. *)
Lemma precision_string_overread :
  snprintf 32 (replicate 8 1) 8 [37; 46; 51; 115; 0] (λ _, Slot 0 [97; 98; 99]) = None ∧
  option_map (λ x, snd (fst x))
    (snprintf 32 (replicate 8 1) 8 [37; 46; 51; 115; 0] (λ _, Slot 0 [97; 98; 99; 100]))
  = Some [97; 98; 99; 0; 1; 1; 1; 1].
Proof. split; vm_compute; reflexivity. Qed.

(** "%#06x" of 31 is "000x1f": the zeros stand before the prefix. *)
Lemma alternative_hex_padding :
  option_map (λ x, cstring (snd (fst x)))
    (snprintf 32 (replicate 8 1) 8 [37; 35; 48; 54; 120; 0] (λ _, Slot 31 [0]))
  = Some [48; 48; 48; 120; 49; 102].
Proof. vm_compute. reflexivity. Qed.

(** The length modifiers hh and h do not narrow a number: "%hhd" of 300 is "300",
    where the standard has "44". *)
Lemma char_number_not_narrowed :
  option_map (λ x, cstring (snd (fst x)))
    (snprintf 32 (replicate 8 1) 8 [37; 104; 104; 100; 0] (λ _, Slot 300 [0]))
  = Some [51; 48; 48].
Proof. vm_compute. reflexivity. Qed.
