(* ===== verification/Bitarray.v ===== *)
(** Bit arrays: kernel/lib/bitarray.c.

    A bit array is a cursor over a byte buffer with the bits of one byte held
    back in [state].  The same structure reads ([bitarray_fetch]) and writes
    ([bitarray_shove]), least significant bit first.

    [mem] is the buffer the pointer [data] moves in and [data] the offset in
    it ([None] is the null pointer).  [callback] is a function pointer: the
    file's own [default_callback] or a function of the client, which the
    section takes as a parameter.  A client's function keeps a state of its
    own (the static variables of boot/init/db.c, say): the number in
    [client_ptr] stands for it, and a call answers with the next one. *)

From S2P Require Import Prelude.

Inductive callback_ptr := default_callback_ptr | client_ptr (k : nat).

Record bitarray := Bitarray {
  mem : list Z;
  data : option Z;
  size : Z;
  state0 : Z;
  state1 : Z;
  written : Z;
  callback : callback_ptr }.

Definition set_state (b : bitarray) (s0 s1 : Z) : bitarray :=
  Bitarray (mem b) (data b) (size b) s0 s1 (written b) (callback b).

Definition default_callback (b : bitarray) : option (Z * bitarray) := Some (-1, b).

Definition bitarray_init (buf : list Z) (ptr : option Z) (sz : Z) : bitarray :=
  Bitarray buf (if sz =? 0 then None else ptr) sz 0 0 0 default_callback_ptr.

Definition bitarray_callback (b : bitarray) (func : callback_ptr) : bitarray :=
  Bitarray (mem b) (data b) (size b) (state0 b) (state1 b) (written b) func.

Definition bitarray_clear (b : bitarray) : bitarray :=
  Bitarray (mem b) None 0 0 0 (written b) (callback b).

Section Client.
(** The functions a client may install. *)
Context (client : nat → bitarray → option (Z * bitarray)).

Definition call_callback (b : bitarray) : option (Z * bitarray) :=
  match callback b with
  | default_callback_ptr => default_callback b
  | client_ptr k => client k b
  end.

(** The two other branches of the loop body, which [bitarray_fetch] and
    [huffman_fetch] share word for word: take the next byte, or clear the
    array and ask the callback for more; [false] is [return -1].  (The
    decrement of [state[0]] that led here is overwritten on both.) *)
Definition refill (b : bitarray) : option (bool * bitarray) :=
  if negb (size b =? 0) then
    ptr ← data b;
    c ← (mem b).[ptr];
    Some (true, Bitarray (mem b) (Some (ptr + 1)) (size b - 1) 8 c
                  (written b) (callback b))
  else
    '(r, b) ← call_callback (bitarray_clear b);
    Some (negb (negb (r =? 0) || (size b =? 0)), b).

(** The first branch: one bit out of [state]. *)
Definition take_bit (b : bitarray) : Z * bitarray :=
  (Z.land (state1 b) 1,
   set_state b (state0 b - 1) (Z.shiftr (state1 b) 1)).

(** The loop of [bitarray_fetch]; a state is (b, bit, ret). *)
Definition fetch_step (bits : Z) (s : bitarray * Z * Z)
  : option (ctl (bitarray * Z * Z) (Z * bitarray)) :=
  let '(b, bit, ret) := s in
  if bit <? bits then
    if negb (state0 b =? 0) then
      let '(x, b) := take_bit b in
      if bit <? 64 then
        Some (Next (b, bit + 1, Z.lor ret (Z.shiftl x bit)))
      else None
    else
      '(go, b) ← refill b;
      Some (if (go : bool) then Next (b, bit, ret) else Done (-1, b))
  else Some (Done (Z.land ret 0x7FFFFFFF, b)).

(** At most three turns per bit: a callback, a byte, the bit. *)
Definition fetch_fuel (bits : Z) : nat := Z.to_nat (3 * bits + 3).

Definition bitarray_fetch (b : bitarray) (bits : Z) : option (Z * bitarray) :=
  while (fetch_fuel bits) (fetch_step bits) (b, 0, 0).

(** Returns the value, the pointer stored in [*data] and the array. *)
Definition bitarray_aligned_fetch (b : bitarray) (bits : Z)
  : option (Z * option Z * bitarray) :=
  let b := if negb (state0 b =? 0) then set_state b 0 0 else b in
  let ptr := data b in
  '(r, b) ← bitarray_fetch b bits;
  Some (r, ptr, b).

(** [*b->data++ = state[1]] and the four assignments after it. *)
Definition flush_byte (b : bitarray) : option bitarray :=
  ptr ← data b;
  mem ← (mem b).[ptr <- u8 (state1 b)];
  Some (Bitarray mem (Some (ptr + 1)) (size b - 1) 0 0
          (u64 (written b + 1)) (callback b)).

(** The loop of [bitarray_shove]: [n] bits left. *)
Fixpoint shove_loop (n : nat) (b : bitarray) (val : Z) : option (Z * bitarray) :=
  match n with
  | O => Some (0, b)
  | S n' =>
      if 32 <=? state0 b then None
      else
        let b := set_state b (state0 b + 1)
          (u32 (Z.lor (state1 b) (Z.shiftl (Z.land val 1) (state0 b)))) in
        let val := Z.shiftr val 1 in
        if state0 b <? 8 then shove_loop n' b val
        else if size b =? 0 then
          let t := state1 b in
          '(r, b) ← call_callback (bitarray_clear b);
          if negb (r =? 0) || (size b =? 0) then Some (-1, b)
          else
            b ← flush_byte (set_state b (state0 b) t);
            shove_loop n' b val
        else
          b ← flush_byte b;
          shove_loop n' b val
  end.

Definition bitarray_shove (b : bitarray) (bits val : Z) : option (Z * bitarray) :=
  shove_loop (Z.to_nat bits) b val.

(** Returns the status, the value stored in [*written] and the array. *)
Definition bitarray_written (b : bitarray) : option (Z * Z * bitarray) :=
  let bits := if state0 b =? 0 then 0 else u32 (8 - state0 b) in
  '(r, b) ← bitarray_shove b bits 0;
  Some (r, written b, b).

(** *** Termination: the fuel is enough whatever the client does *)

Definition fetch_measure (bits : Z) (s : bitarray * Z * Z) : nat :=
  let '(b, bit, _) := s in
  (3 * Z.to_nat (bits - bit)
   + (if (state0 b =? 0)%Z then if (size b =? 0)%Z then 2 else 1 else 0))%nat.

Lemma refill_ready b b' :
  refill b = Some (true, b') →
  state0 b' ≠ 0 ∨ (size b = 0 ∧ size b' ≠ 0).
Proof.
  unfold refill. destruct (Z.eqb_spec (size b) 0); simpl.
  - destruct (call_callback _) as [[r b1]|]; simpl; [|done].
    destruct (Z.eqb_spec r 0), (Z.eqb_spec (size b1) 0); simpl; naive_solver.
  - destruct (data b); simpl; [|done]. destruct (_.[_]); simpl; [|done].
    intros [= <-]. simpl. lia.
Qed.

Lemma fetch_step_measure bits s s' :
  fetch_step bits s = Some (Next s') →
  (fetch_measure bits s' < fetch_measure bits s)%nat.
Proof.
  destruct s as [[b bit] ret]. simpl. destruct (Z.ltb_spec bit bits); [|done].
  destruct (Z.eqb_spec (state0 b) 0); simpl.
  - destruct (refill b) as [[[] b1]|] eqn:Hr; simpl; [|done|done].
    intros [= <-]. apply refill_ready in Hr. simpl.
    destruct (Z.eqb_spec (state0 b1) 0), (Z.eqb_spec (size b1) 0),
      (Z.eqb_spec (size b) 0); lia.
  - case_match; [|done]. intros [= <-]. simpl.
    destruct (state0 b - 1 =? 0), (size b =? 0); lia.
Qed.
End Client.

(** ** Reading: the abstract stream of bits *)

Definition byte_bits (bytes : list Z) : list bool := bytes ≫= bits_of 8.

Lemma byte_bits_length bytes : length (byte_bits bytes) = (8 * length bytes)%nat.
Proof.
  induction bytes as [|c bytes IH]; [done|].
  unfold byte_bits in *. cbn [mbind list_bind].
  rewrite length_app, bits_of_length, IH. simpl. lia.
Qed.

Lemma byte_bits_app l1 l2 : byte_bits (l1 ++ l2) = byte_bits l1 ++ byte_bits l2.
Proof. apply bind_app. Qed.

(** [reads b bs]: the bits a reader gets out of [b] are [bs], and then the
    array is exhausted (its callback is the default one). *)
Definition reads (b : bitarray) (bs : list bool) : Prop :=
  callback b = default_callback_ptr ∧ 0 ≤ state0 b ≤ 8 ∧
  ∃ rest, size b = Z.of_nat (length rest) ∧
    (rest ≠ [] → ∃ off : nat, data b = Some (Z.of_nat off) ∧
       take (length rest) (drop off (mem b)) = rest) ∧
    bs = bits_of (Z.to_nat (state0 b)) (state1 b) ++ byte_bits rest.

Lemma reads_init buf (off : nat) n :
  (off + n ≤ length buf)%nat →
  reads (bitarray_init buf (Some (Z.of_nat off)) (Z.of_nat n))
        (byte_bits (take n (drop off buf))).
Proof.
  intros Hn. split; [done|]. split; [simpl; lia|].
  assert (Hlen : length (take n (drop off buf)) = n)
    by (rewrite length_take, length_drop; lia).
  exists (take n (drop off buf)). rewrite Hlen. split; [done|split; [|done]].
  intros Hne. exists off. split; [|done]. unfold bitarray_init; simpl.
  destruct (Z.eqb_spec (Z.of_nat n) 0); [|done].
  assert (n = 0%nat) as -> by lia. by rewrite take_0 in Hne.
Qed.

Section Read.
Context (client : nat → bitarray → option (Z * bitarray)).

Lemma reads_take b x bs :
  reads b (x :: bs) → state0 b ≠ 0 →
  (take_bit b).1 = Z.b2z x ∧ reads (take_bit b).2 bs.
Proof.
  intros (Hcb & Hs & rest & Hsz & Hdata & Hbs) Hne.
  replace (Z.to_nat (state0 b)) with (S (Z.to_nat (state0 b - 1))) in Hbs by lia.
  rewrite bits_of_S in Hbs. simpl in Hbs. injection Hbs as -> ->.
  unfold take_bit. split.
  - cbn [fst]. change 1 with (Z.ones 1) at 1. rewrite Z.land_ones by lia.
    change (2 ^ 1) with 2. rewrite Zmod_odd. by destruct (Z.odd _).
  - cbn [snd]. split; [done|]. split; [simpl; lia|]. by exists rest.
Qed.

Lemma reads_refill b x bs :
  reads b (x :: bs) → state0 b = 0 →
  ∃ b', refill client b = Some (true, b') ∧ reads b' (x :: bs) ∧ state0 b' = 8.
Proof.
  intros (Hcb & Hs & rest & Hsz & Hdata & Hbs) H0.
  rewrite H0 in Hbs. simpl in Hbs. destruct rest as [|c rest]; [done|].
  destruct (Hdata ltac:(done)) as (off & Hoff & Hrest). unfold refill.
  destruct (Z.eqb_spec (size b) 0) as [Hz|_]; [simpl in Hsz; lia|].
  rewrite Hoff. cbn [negb mbind option_bind].
  destruct (drop off (mem b)) as [|c' m'] eqn:Hdrop; [done|].
  simpl in Hrest. injection Hrest as <- Hrest.
  assert (Hl : mem b !! off = Some c')
    by (rewrite <- (Nat.add_0_r off), <- lookup_drop, Hdrop; done).
  rewrite (proj2 (rd_Some _ _ c')) by (split; [lia|by rewrite Nat2Z.id]).
  cbn [mbind option_bind]. eexists; split; [done|]. split; [|done].
  split; [done|]. split; [simpl; lia|]. exists rest. simpl in Hsz |- *.
  split; [lia|]. split; [|done].
  intros _. exists (S off). split; [f_equal; lia|].
  by rewrite <- Nat.add_1_r, <- drop_drop, Hdrop.
Qed.

Lemma reads_end b : reads b [] →
  state0 b = 0 ∧ refill client b = Some (false, bitarray_clear b) ∧
  reads (bitarray_clear b) [].
Proof.
  intros (Hcb & Hs & rest & Hsz & Hdata & Hbs).
  symmetry in Hbs. apply app_eq_nil in Hbs as [Hb1 Hb2].
  apply (f_equal length) in Hb1, Hb2.
  rewrite bits_of_length in Hb1. rewrite byte_bits_length in Hb2. simpl in *.
  destruct rest; [|simpl in *; lia]. simpl in Hsz.
  split; [lia|]. unfold refill, call_callback. rewrite Hsz. simpl. rewrite Hcb.
  split; [done|]. split; [done|]. split; [simpl; lia|]. by exists [].
Qed.

Lemma lor_bit ret (x : bool) bit :
  0 ≤ bit → 0 ≤ ret < 2 ^ bit →
  Z.lor ret (Z.shiftl (Z.b2z x) bit) = ret + 2 ^ bit * Z.b2z x.
Proof.
  intros Hb Hr. rewrite Z.lor_comm, lor_shiftl_add by done. lia.
Qed.

(** The loop of [bitarray_fetch] after [k] bits, and its results. *)
Definition fetch_inv (n : nat) (bs : list bool) (s : bitarray * Z * Z) : Prop :=
  ∃ k : nat, s.1.2 = Z.of_nat k ∧ (k ≤ n)%nat ∧ (k ≤ length bs)%nat ∧
    reads s.1.1 (drop k bs) ∧ s.2 = of_bits (take k bs).

Definition fetch_post (n : nat) (bs : list bool) (r : Z * bitarray) : Prop :=
  (n ≤ length bs)%nat ∧ r.1 = of_bits (take n bs) ∧ reads r.2 (drop n bs) ∨
  (length bs < n)%nat ∧ r.1 = -1 ∧ reads r.2 [].

Lemma fetch_done n bs c :
  (n ≤ 31)%nat → (n ≤ length bs)%nat → reads c (drop n bs) →
  fetch_post n bs (Z.land (of_bits (take n bs)) 0x7FFFFFFF, c).
Proof.
  intros Hn Hl Hc. left. split; [done|]. split; [|done]. simpl.
  pose proof (of_bits_range (take n bs)) as Hr. rewrite length_take_le in Hr by lia.
  change 0x7FFFFFFF with (2 ^ 31 - 1). rewrite land_ones_mod by lia.
  apply Z.mod_small. split; [lia|].
  eapply Z.lt_le_trans; [apply Hr|]. apply Z.pow_le_mono_r; lia.
Qed.

Lemma fetch_bit n bs (k : nat) c x bs' :
  (k < n)%nat → (n ≤ 31)%nat → drop k bs = x :: bs' →
  reads (take_bit c).2 bs' →
  fetch_inv n bs ((take_bit c).2, Z.of_nat k + 1,
    Z.lor (of_bits (take k bs)) (Z.shiftl (Z.b2z x) (Z.of_nat k))).
Proof.
  intros Hk Hn Hdrop Hc. exists (S k).
  assert (Hl : (k < length bs)%nat) by (apply (f_equal length) in Hdrop;
    rewrite length_drop in Hdrop; simpl in Hdrop; lia).
  assert (Hx : bs !! k = Some x)
    by (rewrite <- (Nat.add_0_r k), <- lookup_drop, Hdrop; done).
  cbn [fst snd]. split; [lia|]. split; [lia|]. split; [lia|].
  split; [by rewrite <- Nat.add_1_r, <- drop_drop, Hdrop|].
  rewrite (take_S_r _ _ x) by done. rewrite of_bits_app, length_take_le by lia.
  pose proof (of_bits_range (take k bs)) as Hr. rewrite length_take_le in Hr by lia.
  rewrite lor_bit by lia. simpl. lia.
Qed.

Lemma fetch_step_ok n bs s :
  (n ≤ 31)%nat → fetch_inv n bs s →
  ∃ c, fetch_step client (Z.of_nat n) s = Some c ∧
    match c with
    | Next s' => fetch_inv n bs s' ∧
        (fetch_measure (Z.of_nat n) s' < fetch_measure (Z.of_nat n) s)%nat
    | Done r => fetch_post n bs r
    end.
Proof.
  intros Hn (k & Hk & Hkn & Hkl & Hc & Hret). destruct s as [[c bit] ret].
  simpl in Hk, Hc, Hret. subst bit ret.
  pose proof (fetch_step_measure client (Z.of_nat n)
    (c, Z.of_nat k, of_bits (take k bs))) as Hmeas.
  unfold fetch_step in Hmeas |- *.
  destruct (Z.ltb_spec (Z.of_nat k) (Z.of_nat n)) as [Hlt|Hge].
  2:{ assert (k = n) as -> by lia. eexists; split; [done|]. by apply fetch_done. }
  destruct (drop k bs) as [|x bs'] eqn:Hdrop.
  { destruct (reads_end c Hc) as (Hz & Href & Hend). rewrite Hz, Href. cbn.
    eexists; split; [done|]. right. split; [|done].
    apply (f_equal length) in Hdrop. rewrite length_drop in Hdrop.
    simpl in Hdrop. lia. }
  destruct (Z.eqb_spec (state0 c) 0) as [Hz|Hz]; cbn [negb] in *.
  - destruct (reads_refill c x bs' Hc Hz) as (c' & Href & Hc' & H8).
    rewrite Href in *. cbn in Hmeas |- *. eexists; split; [done|].
    split; [|by apply Hmeas]. exists k. simpl. by rewrite Hdrop.
  - destruct (reads_take c x bs' Hc Hz) as [Hx Hc'].
    pose proof (fetch_bit n bs k c x bs' ltac:(lia) Hn Hdrop Hc') as Hinv.
    destruct (take_bit c) as [xz c'] eqn:Htb. simpl in Hx, Hinv. subst xz.
    rewrite (proj2 (Z.ltb_lt (Z.of_nat k) 64)) in * by lia.
    eexists; split; [done|]. split; [done|by apply Hmeas].
Qed.

(** [bitarray_fetch] answers the next bits as a number, or -1 when there are
    not enough of them; it never reads outside of the buffer. *)
Lemma fetch_spec b bs (n : nat) :
  reads b bs → (n ≤ 31)%nat →
  ∃ r, bitarray_fetch client b (Z.of_nat n) = Some r ∧ fetch_post n bs r.
Proof.
  intros Hreads Hn. unfold bitarray_fetch.
  apply (while_total (fetch_inv n bs) (fetch_measure (Z.of_nat n))).
  - intros s. by apply fetch_step_ok.
  - exists 0%nat. simpl. split; [done|]. split; [lia|]. split; [lia|].
    by rewrite drop_0.
  - unfold fetch_fuel. simpl. rewrite Z.sub_0_r.
    destruct (state0 b =? 0), (size b =? 0); lia.
Qed.
End Read.

(** ** Reading through a callback

    [readable b]: what the cursor still holds may be read.  A client keeps to
    its contract when, asked for more, it answers and leaves a readable
    array, whatever its buffers and however often it is asked; [I] is the
    invariant of the client's own state. *)

Definition readable (I : nat → Prop) (b : bitarray) : Prop :=
  (∀ k, callback b = client_ptr k → I k) ∧
  0 ≤ state0 b ≤ 8 ∧ 0 ≤ size b ∧
  (size b ≠ 0 → ∃ off : nat, data b = Some (Z.of_nat off) ∧
     (off + Z.to_nat (size b) ≤ length (mem b))%nat).

Definition hands_over (client : nat → bitarray → option (Z * bitarray))
    (I : nat → Prop) : Prop :=
  ∀ k b, callback b = client_ptr k → size b = 0 → readable I b →
  ∃ r b', client k b = Some (r, b') ∧ readable I b'.

Lemma readable_init (I : nat → Prop) buf (off : nat) n :
  (off + n ≤ length buf)%nat →
  readable I (bitarray_init buf (Some (Z.of_nat off)) (Z.of_nat n)).
Proof.
  intros Hn. split; [done|]. split; [simpl; lia|]. split; [simpl; lia|]. intros Hne. exists off.
  unfold bitarray_init in *. simpl in *. rewrite (proj2 (Z.eqb_neq _ _)) by done.
  split; [done|lia].
Qed.

Section ReadAny.
Context (client : nat → bitarray → option (Z * bitarray)).
Context (I : nat → Prop) (Hclient : hands_over client I).

Lemma readable_take b : readable I b → state0 b ≠ 0 →
  0 ≤ (take_bit b).1 ≤ 1 ∧ readable I (take_bit b).2.
Proof.
  intros (Hi & Hs & Hsz & Hd) Hne. unfold take_bit; cbn [fst snd]. split.
  - change (Z.land (state1 b) 1) with (Z.land (state1 b) (Z.ones 1)). rewrite Z.land_ones by lia.
    change (2 ^ 1) with 2. pose proof (Z.mod_pos_bound (state1 b) 2). lia.
  - split; [done|]. split; [simpl; lia|]. by split.
Qed.

Lemma readable_refill b : readable I b → state0 b = 0 →
  ∃ go b', refill client b = Some (go, b') ∧ readable I b'.
Proof.
  intros (Hi & Hs & Hsz & Hd) H0. unfold refill.
  destruct (Z.eqb_spec (size b) 0) as [Hz|Hz]; cbn [negb].
  - assert (Hc : readable I (bitarray_clear b)) by (split; [done|split; [simpl; lia|by split]]).
    unfold call_callback, default_callback.
    destruct (callback (bitarray_clear b)) as [|k] eqn:Hk; cbn [mbind option_bind].
    + by eexists _, _.
    + destruct (Hclient k _ Hk eq_refl Hc) as (r & b' & -> & Hb').
      cbn [mbind option_bind]. by eexists _, _.
  - destruct (Hd Hz) as (off & -> & Hoff). cbn [mbind option_bind].
    destruct (rd_is_Some (mem b) (Z.of_nat off) ltac:(lia)) as [c ->].
    cbn [mbind option_bind]. eexists _, _. split; [done|].
    split; [done|]. split; [simpl; lia|]. split; [simpl; lia|]. intros _. exists (S off). simpl.
    split; [f_equal; lia|lia].
Qed.

Definition any_inv (n : nat) (s : bitarray * Z * Z) : Prop :=
  readable I s.1.1 ∧ 0 ≤ s.1.2 ≤ Z.of_nat n ∧ 0 ≤ s.2 < 2 ^ s.1.2.

Definition any_post (n : nat) (r : Z * bitarray) : Prop :=
  -1 ≤ r.1 < 2 ^ Z.of_nat n ∧ readable I r.2.

Lemma any_step n s :
  (n ≤ 31)%nat → any_inv n s →
  ∃ c, fetch_step client (Z.of_nat n) s = Some c ∧
    match c with
    | Next s' => any_inv n s' ∧
        (fetch_measure (Z.of_nat n) s' < fetch_measure (Z.of_nat n) s)%nat
    | Done r => any_post n r
    end.
Proof.
  intros Hn (Hb & Hbit & Hret). destruct s as [[b bit] ret]. cbn [fst snd] in *.
  pose proof (fetch_step_measure client (Z.of_nat n) (b, bit, ret)) as Hmeas.
  assert (0 < 2 ^ Z.of_nat n) by lia.
  unfold fetch_step in Hmeas |- *.
  destruct (Z.ltb_spec bit (Z.of_nat n)) as [Hlt|Hge].
  2:{ assert (bit = Z.of_nat n) as -> by lia. eexists; split; [done|].
      split; [|done]. cbn [fst]. change 0x7FFFFFFF with (2 ^ 31 - 1).
      rewrite land_ones_mod by lia.
      assert (2 ^ Z.of_nat n ≤ 2 ^ 31) by (apply Z.pow_le_mono_r; lia).
      rewrite Z.mod_small; lia. }
  destruct (Z.eqb_spec (state0 b) 0) as [Hz|Hz]; cbn [negb] in *.
  - destruct (readable_refill b Hb Hz) as (go & b' & Href & Hb').
    rewrite Href in *. cbn [mbind option_bind] in *. destruct go.
    + eexists; split; [done|]. split; [by split|by apply Hmeas].
    + eexists; split; [done|]. split; [cbn [fst]; lia|done].
  - destruct (readable_take b Hb Hz) as [Hx Hb'].
    destruct (take_bit b) as [x b']. cbn [fst snd] in *.
    rewrite (proj2 (Z.ltb_lt bit 64)) in * by lia.
    eexists; split; [done|]. split; [|by apply Hmeas].
    split; [done|]. cbn [fst snd]. split; [lia|].
    rewrite Z.lor_comm, lor_shiftl_add by lia. rewrite Z.pow_add_r by lia. nia.
Qed.

(** [bitarray_fetch] ends and stays inside of the buffers that the callback
    hands over. *)
Lemma fetch_any b (n : nat) :
  readable I b → (n ≤ 31)%nat →
  ∃ v b', bitarray_fetch client b (Z.of_nat n) = Some (v, b') ∧
    readable I b' ∧ -1 ≤ v < 2 ^ Z.of_nat n.
Proof.
  intros Hb Hn.
  destruct (while_total (any_inv n) (fetch_measure (Z.of_nat n)) (any_post n)
    (fetch_step client (Z.of_nat n)) (λ s, any_step n s Hn)
    (fetch_fuel (Z.of_nat n)) (b, 0, 0)) as ([v b'] & Hf & Hp & Hr).
  - split; [done|]. cbn [fst snd]. split; [lia|]. split; [lia|reflexivity].
  - unfold fetch_fuel. simpl. rewrite Z.sub_0_r.
    destruct (state0 b =? 0), (size b =? 0); lia.
  - by exists v, b'.
Qed.
End ReadAny.

(** ** Writing: the bits put into the buffer so far *)

(** [writes b bs]: an array that was initialised at the start of its buffer
    and has taken the bits [bs]. *)
Definition writes (b : bitarray) (bs : list bool) : Prop :=
  callback b = default_callback_ptr ∧ 0 ≤ state0 b < 8 ∧
  0 ≤ state1 b < 2 ^ state0 b ∧
  ∃ off : nat, data b = Some (Z.of_nat off) ∧ written b = Z.of_nat off ∧
    Z.of_nat off + size b = Z.of_nat (length (mem b)) ∧ 0 ≤ size b ∧
    Z.of_nat (length (mem b)) < 2 ^ 64 ∧
    Forall is_byte (take off (mem b)) ∧
    bs = byte_bits (take off (mem b)) ++ bits_of (Z.to_nat (state0 b)) (state1 b).

(** A write that found the buffer full. *)
Definition overflowed (b : bitarray) (L : nat) : Prop :=
  data b = None ∧ size b = 0 ∧ state0 b = 0 ∧ state1 b = 0 ∧
  written b = Z.of_nat L ∧ length (mem b) = L ∧ callback b = default_callback_ptr.

Lemma writes_init buf :
  0 < Z.of_nat (length buf) < 2 ^ 64 →
  writes (bitarray_init buf (Some 0) (Z.of_nat (length buf))) [].
Proof.
  intros Hl. split; [done|]. split; [simpl; lia|]. split; [simpl; lia|].
  exists 0%nat. unfold bitarray_init; simpl.
  rewrite (proj2 (Z.eqb_neq _ _)) by lia.
  split; [done|]. split; [done|]. split; [lia|]. split; [lia|]. split; [lia|].
  split; [constructor|done].
Qed.

Lemma writes_length b bs : writes b bs →
  ∃ off : nat, data b = Some (Z.of_nat off) ∧ (off ≤ length (mem b))%nat ∧
    size b = Z.of_nat (length (mem b) - off) ∧
    length bs = (8 * off + Z.to_nat (state0 b))%nat.
Proof.
  intros (_ & Hs & _ & off & Hd & _ & Hsz & H0 & _ & _ & ->).
  exists off. split; [done|]. split; [lia|]. split; [lia|].
  rewrite length_app, bits_of_length, byte_bits_length, length_take_le by lia. lia.
Qed.

Section Write.
Context (client : nat → bitarray → option (Z * bitarray)).

(** The accumulated bit: state[1] |= (val & 1) << state[0]. *)
Lemma state_push s0 s1 (val : Z) :
  0 ≤ s0 < 8 → 0 ≤ s1 < 2 ^ s0 →
  let s1' := u32 (Z.lor s1 (Z.shiftl (Z.land val 1) s0)) in
  0 ≤ s1' < 2 ^ (s0 + 1) ∧
  bits_of (Z.to_nat (s0 + 1)) s1' = bits_of (Z.to_nat s0) s1 ++ [Z.odd val].
Proof.
  intros Hs0 Hs1. cbv zeta.
  assert (Hland : Z.land val 1 = Z.b2z (Z.odd val)).
  { change 1 with (Z.ones 1) at 1. rewrite Z.land_ones by lia.
    change (2 ^ 1) with 2. rewrite Zmod_odd. by destruct (Z.odd val). }
  rewrite Hland, lor_bit by lia.
  assert (Hp : 2 ^ (s0 + 1) = 2 * 2 ^ s0) by (rewrite Z.pow_add_r; lia).
  assert (Hs1' : 0 ≤ s1 + 2 ^ s0 * Z.b2z (Z.odd val) < 2 ^ (s0 + 1))
    by (destruct (Z.odd val); simpl; lia).
  assert (2 ^ (s0 + 1) ≤ 2 ^ 32) by (apply Z.pow_le_mono_r; lia).
  rewrite wrap_small by lia. split; [done|].
  replace (Z.to_nat (s0 + 1)) with (Z.to_nat s0 + 1)%nat by lia.
  rewrite bits_of_app, Z2Nat.id by lia. f_equal.
  - rewrite <- (bits_of_of_bits (bits_of (Z.to_nat s0) s1)).
    rewrite bits_of_length, of_bits_bits_of, Z2Nat.id by lia.
    rewrite <- (bits_of_of_bits (bits_of (Z.to_nat s0) (s1 + _))).
    rewrite bits_of_length, of_bits_bits_of, Z2Nat.id by lia.
    f_equal. rewrite Z.mul_comm, Z.mod_add by lia. done.
  - rewrite bits_of_S. simpl. f_equal.
    rewrite Z.shiftr_div_pow2 by lia.
    rewrite Z.mul_comm, Z.div_add, Z.div_small by lia.
    by destruct (Z.odd val).
Qed.

Lemma shove_bit b bs (n : nat) (val : Z) :
  writes b bs → (length bs < 8 * length (mem b) + 7)%nat →
  ∃ b', writes b' (bs ++ [Z.odd val]) ∧ length (mem b') = length (mem b) ∧
    shove_loop client (S n) b val = shove_loop client n b' (Z.shiftr val 1).
Proof.
  intros Hw Hroom. pose proof (writes_length _ _ Hw) as (off & Hd & Hoff & Hsz & Hlen).
  destruct Hw as (Hcb & Hs0 & Hs1 & off' & Hd' & Hwr & Hsz' & Hnn & Hmax & Hbytes & Hbs).
  rewrite Hd in Hd'. injection Hd' as Hd'. assert (off' = off) as -> by lia. clear Hd'.
  destruct (state_push (state0 b) (state1 b) val Hs0 Hs1) as [Hr Hpush].
  cbn [shove_loop]. rewrite (proj2 (Z.leb_gt 32 (state0 b))) by lia.
  cbv zeta in Hr, Hpush |- *.
  set (s1' := u32 _) in *. cbn [state0 set_state size].
  destruct (Z.ltb_spec (state0 b + 1) 8).
  - eexists. split; [|split; [|done]]; [|done].
    split; [done|]. split; [simpl; lia|]. split; [done|].
    exists off. cbn [data mem written size state0 state1 set_state].
    do 5 (split; [done|]). split; [done|].
    by rewrite Hpush, Hbs, app_assoc.
  - assert (Hs7 : state0 b = 7) by lia. rewrite Hs7 in *.
    change (Z.to_nat (7 + 1)) with 8%nat in Hpush. change (2 ^ (7 + 1)) with 256 in Hr.
    destruct (Z.eqb_spec (size b) 0); [lia|].
    unfold flush_byte. cbn [data set_state mem state1 size written callback].
    rewrite Hd. cbn [mbind option_bind].
    rewrite wr_Some by lia. cbn [mbind option_bind].
    eexists. split; [|split; [|done]]; [|simpl; by rewrite length_insert].
    rewrite Nat2Z.id, wrap_small by done.
    assert (Htake : take (S off) (<[off:=s1']> (mem b)) = take off (mem b) ++ [s1']).
    { rewrite (take_S_r _ _ s1') by (apply list_lookup_insert_eq; lia).
      by rewrite take_insert_ge by lia. }
    split; [done|]. split; [simpl; lia|]. split; [simpl; lia|].
    exists (S off). cbn [data mem written size state0 state1 set_state].
    split; [f_equal; lia|]. split; [rewrite wrap_small; lia|].
    rewrite length_insert. split; [lia|]. split; [lia|]. split; [lia|].
    rewrite Htake. split; [apply Forall_app_2; [done|constructor; [exact Hr|constructor]]|].
    change (bits_of (Z.to_nat 0) 0) with (@nil bool).
    rewrite byte_bits_app, app_nil_r. unfold byte_bits at 2. cbn [mbind list_bind].
    rewrite app_nil_r, Hpush, Hbs. change (Z.to_nat 7) with 7%nat. by rewrite app_assoc.
Qed.

Lemma shove_full b bs (n : nat) (val : Z) :
  writes b bs → (length bs = 8 * length (mem b) + 7)%nat →
  ∃ b', shove_loop client (S n) b val = Some (-1, b') ∧
    overflowed b' (length (mem b)).
Proof.
  intros Hw Hroom. pose proof (writes_length _ _ Hw) as (off & Hd & Hoff & Hsz & Hlen).
  destruct Hw as (Hcb & Hs0 & Hs1 & off' & Hd' & Hwr & Hsz' & _).
  rewrite Hd in Hd'. injection Hd' as Hd'. assert (off' = off) as -> by lia.
  assert (off = length (mem b) ∧ state0 b = 7) as [-> Hs7] by lia.
  cbn [shove_loop]. rewrite (proj2 (Z.leb_gt 32 (state0 b))) by lia.
  cbv zeta. cbn [state0 set_state size]. rewrite Hs7. simpl (_ <? _).
  rewrite (proj2 (Z.eqb_eq (size b) 0)) by lia. cbn iota.
  unfold call_callback. simpl. rewrite Hcb. simpl.
  eexists; split; [done|]. by repeat split.
Qed.

(** [bitarray_shove] appends the low bits of its argument, or reports with
    -1 that the buffer has no room for them; it never writes outside of the
    buffer. *)
Lemma shove_spec b bs (n : nat) (val : Z) :
  writes b bs →
  ∃ r b', bitarray_shove client b (Z.of_nat n) val = Some (r, b') ∧
    length (mem b') = length (mem b) ∧
    ((length bs + n < 8 * length (mem b) + 8)%nat ∧ r = 0 ∧
       writes b' (bs ++ bits_of n val) ∨
     (8 * length (mem b) + 8 ≤ length bs + n)%nat ∧ r = -1 ∧
       overflowed b' (length (mem b))).
Proof.
  unfold bitarray_shove. rewrite Nat2Z.id. revert b bs val.
  induction n as [|n IH]; intros b bs val Hw.
  - exists 0, b. split; [done|split; [done|]]. left.
    destruct (writes_length _ _ Hw) as (off & _ & Hoff & _ & Hlen).
    pose proof Hw as (_ & Hs & _). rewrite app_nil_r.
    split; [lia|done].
  - destruct (decide (length bs < 8 * length (mem b) + 7)%nat).
    + destruct (shove_bit b bs n val Hw ltac:(done)) as (b1 & Hw1 & Hm & ->).
      destruct (IH b1 _ (Z.shiftr val 1) Hw1) as (r & b' & Hr & Hm' & Hcase).
      exists r, b'. split; [done|]. rewrite Hm in *. split; [done|].
      rewrite length_app in Hcase. simpl in Hcase.
      rewrite bits_of_S. rewrite <- app_assoc in Hcase. simpl in Hcase.
      destruct Hcase as [(? & ? & ?)|(? & ? & ?)]; [left|right]; split; try done; lia.
    + destruct (writes_length _ _ Hw) as (off & _ & Hoff & _ & Hlen).
      pose proof Hw as (_ & Hs & _).
      destruct (shove_full b bs n val Hw ltac:(lia)) as (b' & Hr & Ho).
      exists (-1), b'. split; [done|]. split; [by destruct Ho as (_&_&_&_&_&?&_)|].
      right. split; [lia|done].
Qed.
End Write.

Section Written.
Context (client : nat → bitarray → option (Z * bitarray)).

(** [bitarray_written] pads the last byte with zero bits. *)
Lemma written_spec b bs :
  writes b bs →
  ∃ r w b', bitarray_written client b = Some (r, w, b') ∧
    length (mem b') = length (mem b) ∧
    ((length bs ≤ 8 * length (mem b))%nat ∧ r = 0 ∧
       (∃ k pad, w = Z.of_nat k ∧ (k ≤ length (mem b))%nat ∧
         byte_bits (take k (mem b')) = bs ++ replicate pad false ∧
         Forall is_byte (take k (mem b')) ∧ (pad < 8)%nat) ∨
     (8 * length (mem b) < length bs)%nat ∧ r = -1 ∧
       w = Z.of_nat (length (mem b))).
Proof.
  intros Hw. pose proof (writes_length _ _ Hw) as (off & Hd & Hoff & Hsz & Hlen).
  pose proof Hw as (_ & Hs0 & _). unfold bitarray_written.
  set (pad := if state0 b =? 0 then 0%nat else Z.to_nat (8 - state0 b)).
  replace (if state0 b =? 0 then 0 else u32 (8 - state0 b)) with (Z.of_nat pad)
    by (unfold pad; destruct (Z.eqb_spec (state0 b) 0); rewrite ?wrap_small; lia).
  destruct (shove_spec client b bs pad 0 Hw) as (r & b' & -> & Hm & Hcase).
  cbn [mbind option_bind]. exists r, (written b'), b'.
  split; [done|split; [done|]]. unfold pad in Hcase.
  destruct Hcase as [(Hroom & -> & Hw')|(Hroom & -> & Ho)].
  - left. assert (Hle : (length bs ≤ 8 * length (mem b))%nat)
      by (destruct (Z.eqb_spec (state0 b) 0); lia).
    split; [done|split; [done|]].
    pose proof (writes_length _ _ Hw') as (off' & Hd' & Hoff' & _ & Hlen').
    destruct Hw' as (_ & Hs0' & _ & off2 & Hd2 & Hwr2 & Hsz2 & _ & _ & Hby & Hbs2).
    rewrite length_app, bits_of_length in Hlen'.
    assert (Hz : state0 b' = 0) by (destruct (Z.eqb_spec (state0 b) 0); lia).
    rewrite Hz in Hbs2. change (bits_of (Z.to_nat 0) (state1 b')) with (@nil bool) in Hbs2.
    rewrite app_nil_r in Hbs2. exists off2, pad.
    split; [done|]. split.
    { rewrite Hd' in Hd2. injection Hd2 as Hd2. lia. }
    split; [|split; [done|unfold pad; destruct (Z.eqb_spec (state0 b) 0); lia]].
    rewrite <- Hbs2. fold pad. f_equal.
    clear. induction pad as [|k IH]; [done|].
    rewrite bits_of_S. change (Z.shiftr 0 1) with 0. by rewrite IH.
  - right. destruct Ho as (_ & _ & _ & _ & -> & _ & _).
    destruct (Z.eqb_spec (state0 b) 0); [lia|]. split; [lia|done].
Qed.

(** Writing and reading a sequence of fields (width, value), the way the
    clients of the file use it. *)
Fixpoint shove_all (b : bitarray) (fields : list (nat * Z))
  : option (Z * bitarray) :=
  match fields with
  | [] => Some (0, b)
  | (n, v) :: fields' =>
      '(r, b) ← bitarray_shove client b (Z.of_nat n) v;
      if r =? 0 then shove_all b fields' else Some (r, b)
  end.

Fixpoint fetch_all (b : bitarray) (widths : list nat) : option (list Z * bitarray) :=
  match widths with
  | [] => Some ([], b)
  | n :: widths' =>
      '(r, b) ← bitarray_fetch client b (Z.of_nat n);
      '(rs, b) ← fetch_all b widths';
      Some (r :: rs, b)
  end.

Definition field_bits (fields : list (nat * Z)) : list bool :=
  fields ≫= λ f, bits_of f.1 f.2.

Lemma shove_all_spec b bs fields :
  writes b bs →
  ∃ r b', shove_all b fields = Some (r, b') ∧ length (mem b') = length (mem b) ∧
    ((length bs + length (field_bits fields) < 8 * length (mem b) + 8)%nat ∧
       r = 0 ∧ writes b' (bs ++ field_bits fields) ∨
     (8 * length (mem b) + 8 ≤ length bs + length (field_bits fields))%nat ∧
       r = -1).
Proof.
  revert b bs. induction fields as [|[n v] fields IH]; intros b bs Hw.
  - exists 0, b. split; [done|split; [done|]]. left.
    pose proof (writes_length _ _ Hw) as (off & _ & Hoff & _ & Hlen).
    pose proof Hw as (_ & Hs & _).
    cbn [field_bits mbind list_bind length]. rewrite app_nil_r.
    split; [lia|done].
  - unfold field_bits in *. cbn [shove_all mbind list_bind fst snd].
    destruct (shove_spec client b bs n v Hw) as (r & b1 & -> & Hm & Hcase).
    cbn [option_bind]. rewrite length_app, bits_of_length.
    destruct Hcase as [(Hroom & -> & Hw1)|(Hroom & -> & _)]; simpl (_ =? _).
    + destruct (IH b1 _ Hw1) as (r & b' & Hr & Hm' & Hcase').
      exists r, b'. split; [done|]. rewrite Hm in *. split; [done|].
      rewrite length_app, bits_of_length, <- app_assoc in Hcase'.
      destruct Hcase' as [(? & ? & ?)|(? & ?)]; [left|right]; split; try done; lia.
    + exists (-1), b1. split; [done|split; [done|]]. right. split; [lia|done].
Qed.

Lemma fetch_all_spec b fields rest :
  Forall (λ f, (f.1 ≤ 31)%nat) fields →
  reads b (field_bits fields ++ rest) →
  ∃ b', fetch_all b fields.*1 = Some ((λ f, f.2 mod 2 ^ Z.of_nat f.1) <$> fields, b') ∧
    reads b' rest.
Proof.
  intros Hf. revert b. induction Hf as [|[n v] fields Hn Hf IH]; intros b Hr;
    [by exists b|].
  unfold field_bits in *. cbn [mbind list_bind fst snd fmap list_fmap] in *.
  rewrite <- app_assoc in Hr. cbn [fetch_all].
  destruct (fetch_spec client b _ n Hr Hn) as ([r b1] & -> & [(Hl & Hv & Hr1)|(Hl & _)]).
  2:{ rewrite length_app, bits_of_length in Hl. lia. }
  cbn [option_bind mbind]. simpl in Hv, Hr1.
  rewrite take_app_length' in Hv by (by rewrite bits_of_length).
  rewrite drop_app_length' in Hr1 by (by rewrite bits_of_length).
  destruct (IH b1 Hr1) as (b' & -> & Hr'). exists b'.
  cbn [option_bind mbind]. split; [|done]. by rewrite Hv, of_bits_bits_of.
Qed.
End Written.

(** A bit array is a faithful bit buffer.  Fields written with
    [bitarray_shove] into a fresh array over [buf] either all fit, and then
    [bitarray_written] closes the array and a reader that fetches the same
    widths (at most 31 bits each) from the written bytes gets every value
    back, modulo its width; or they do not fit in the buffer, and then a call
    answers -1.  No call reads or writes outside of the buffer, whatever the
    callbacks of other arrays do. *)
Theorem bitarray_roundtrip (client : nat → bitarray → option (Z * bitarray))
    (buf : list Z) (fields : list (nat * Z))
    (Hbuf : 0 < Z.of_nat (length buf) < 2 ^ 64)
    (Hwidth : Forall (λ f, (f.1 ≤ 31)%nat) fields) :
  let total := length (field_bits fields) in
  ∃ r b1, shove_all client
      (bitarray_init buf (Some 0) (Z.of_nat (length buf))) fields = Some (r, b1) ∧
    length (mem b1) = length buf ∧
    ((total ≤ 8 * length buf)%nat →
       r = 0 ∧
       ∃ w b2 b3, bitarray_written client b1 = Some (0, w, b2) ∧
         0 ≤ w ≤ Z.of_nat (length buf) ∧
         fetch_all client (bitarray_init (mem b2) (Some 0) w) fields.*1
         = Some ((λ f, f.2 mod 2 ^ Z.of_nat f.1) <$> fields, b3)) ∧
    ((8 * length buf < total)%nat →
       r = -1 ∨ ∃ w b2, bitarray_written client b1 = Some (-1, w, b2)).
Proof.
  cbv zeta.
  destruct (shove_all_spec client _ _ fields (writes_init buf Hbuf))
    as (r & b1 & Hs & Hm & Hcase).
  simpl in Hm, Hcase. exists r, b1. split; [done|split; [done|]].
  destruct Hcase as [(Hroom & -> & Hw)|(Hroom & ->)].
  2:{ split; [lia|by left]. }
  destruct (written_spec client b1 _ Hw) as (r & w & b2 & Hwr & Hm2 & Hcase).
  rewrite Hm in *. destruct Hcase as [(Hle & -> & k & pad & -> & Hk & Hbits & _)|(Hgt & -> & _)].
  - split; [|intros; lia]. intros _. split; [done|].
    pose proof (reads_init (mem b2) 0 k ltac:(lia)) as Hr.
    rewrite drop_0, Hbits in Hr.
    destruct (fetch_all_spec client _ fields _ Hwidth Hr) as (b3 & Hf & _).
    exists (Z.of_nat k), b2, b3. split; [done|]. split; [lia|done].
  - split; [lia|]. intros _. right. by exists w, b2.
Qed.

Lemma bitarray_roundtrip_witness :
  ∃ b1, shove_all (λ _ _, None) (bitarray_init [0; 0] (Some 0) 2)
          [(1%nat, 1); (2%nat, 1); (7%nat, 0x55)] = Some (0, b1) ∧
    ∃ w b2 b3, bitarray_written (λ _ _, None) b1 = Some (0, w, b2) ∧
      fetch_all (λ _ _, None) (bitarray_init (mem b2) (Some 0) w) [1; 2; 7]%nat
      = Some ([1; 1; 0x55], b3).
Proof.
  destruct (bitarray_roundtrip (λ _ _, None) [0; 0]
    [(1%nat, 1); (2%nat, 1); (7%nat, 0x55)]) as (r & b1 & Hs & _ & Hfit & _);
    [simpl; lia|repeat constructor|].
  destruct Hfit as (-> & w & b2 & b3 & Hw & _ & Hf); [simpl; lia|].
  exists b1. split; [exact Hs|]. exists w, b2, b3. split; [exact Hw|exact Hf].
Defined.
