(* ===== verification/Huffman.v ===== *)
(** Canonical Huffman codes: kernel/lib/huffman.c.

    [huffman_init] turns an array of bit lengths into the array of symbols in
    code order; [huffman_fetch] decodes one symbol from a bit array;
    [huffman_table] gives the (length, reversed code) pairs that an encoder
    shoves into a bit array.  The array [symbols] that the caller passes is
    aliased by the structure, so it is a field here. *)

From S2P Require Import Prelude Bitarray.

Record huffman := Huffman {
  lengths : list Z;
  symbols : list Z;
  completed : Z }.

(** The first loops of [huffman_init]: how many symbols have each length;
    [false] is [return -1]. *)
Fixpoint count_lengths (n : nat) (i : Z) (syms lens : list Z)
  : option (bool * list Z) :=
  match n with
  | O => Some (true, lens)
  | S n' =>
      len ← syms.[i];
      if len >? 15 then Some (false, lens)
      else
        c ← lens.[len];
        lens ← lens.[len <- u32 (c + 1)];
        count_lengths n' (i + 1) syms lens
  end.

(** The check of the lengths, from i = 16 - n; the answer is t, and [None]
    inside is [return -2]. *)
Fixpoint check_lengths (n : nat) (i t : Z) (lens : list Z) : option (option Z) :=
  match n with
  | O => Some (Some t)
  | S n' =>
      len ← lens.[i];
      let t := t * 2 - len in
      if t <? 0 then Some None else check_lengths n' (i + 1) t lens
  end.

(** buf[i + 1] = lengths[i] + buf[i] *)
Fixpoint start_offsets (n : nat) (i : Z) (lens buf : list Z) : option (list Z) :=
  match n with
  | O => Some buf
  | S n' =>
      len ← lens.[i];
      off ← buf.[i];
      buf ← buf.[i + 1 <- u32 (len + off)];
      start_offsets n' (i + 1) lens buf
  end.

(** The symbols above the four length bits. *)
Fixpoint place_symbols (n : nat) (i : Z) (syms buf : list Z) : option (list Z) :=
  match n with
  | O => Some syms
  | S n' =>
      e ← syms.[i];
      let len := Z.land e 0x0F in
      let sym := u32 (Z.shiftl i 4) in
      if len =? 0 then place_symbols n' (i + 1) syms buf
      else
        k ← buf.[len];
        e' ← syms.[k];
        syms ← syms.[k <- Z.lor e' sym];
        buf ← buf.[len <- u32 (k + 1)];
        place_symbols n' (i + 1) syms buf
  end.

Fixpoint drop_lengths (n : nat) (i : Z) (syms : list Z) : option (list Z) :=
  match n with
  | O => Some syms
  | S n' =>
      e ← syms.[i];
      syms ← syms.[i <- Z.shiftr e 4];
      drop_lengths n' (i + 1) syms
  end.

(** The status and the structure.  (buf[] is not initialised in the code; its
    elements 1 to 15 are set before they are read.) *)
Definition huffman_init (syms : list Z) (n : nat) : option (Z * huffman) :=
  '(ok, lens) ← count_lengths n 0 syms (replicate 16 0);
  if negb ok then Some (-1, Huffman lens syms 0)
  else
    zeros ← lens.[0];
    if zeros =? Z.of_nat n then Some (0, Huffman lens syms 0)
    else
      r ← check_lengths 15 1 1 lens;
      match r with
      | None => Some (-2, Huffman lens syms 0)
      | Some t =>
          buf ← start_offsets 14 1 lens (replicate 16 0);
          syms ← place_symbols n 0 syms buf;
          syms ← drop_lengths n 0 syms;
          Some (0, Huffman lens syms (if t =? 0 then 1 else 0))
      end.

Section Fetch.
Context (client : nat → bitarray → option (Z * bitarray)).

Record cursor := Cursor {
  cu_b : bitarray; cu_base : Z; cu_off : Z; cu_val : Z; cu_i : Z }.

Definition hfetch_step (h : huffman) (s : cursor)
  : option (ctl cursor (Z * bitarray)) :=
  let '(Cursor b base off val i) := s in
  if i <? 16 then
    if negb (state0 b =? 0) then
      len ← (lengths h).[i];
      let i := i + 1 in
      let '(x, b) := take_bit b in
      let val := u32 (Z.lor (Z.shiftl val 1) x) in
      if val <? u32 (base + len) then
        let n := u32 (val - base) in
        sym ← (symbols h).[u32 (off + n)];
        Some (Done (swrap 32 sym, b))
      else
        Some (Next (Cursor b (u32 (u32 (base + len) * 2)) (u32 (off + len)) val i))
    else
      '(go, b) ← refill client b;
      Some (if (go : bool) then Next (Cursor b base off val i) else Done (-1, b))
  else Some (Done (-2, b)).

Definition hfetch_fuel : nat := 48.

Definition huffman_fetch (h : huffman) (b : bitarray) : option (Z * bitarray) :=
  while hfetch_fuel (hfetch_step h) (Cursor b 0 0 0 1).
End Fetch.

(** rev <<= 1, rev |= bit k of val, for k below the length. *)
Fixpoint reverse_code (n : nat) (k val rev : Z) : Z :=
  match n with
  | O => rev
  | S n' =>
      reverse_code n' (k + 1) val
        (u32 (Z.lor (u32 (Z.shiftl rev 1)) (if Z.testbit val k then 1 else 0)))
  end.

(** The loop over j: the symbols of length i; [false] is [return -2]. *)
Fixpoint table_row (len : nat) (j i off val n : Z) (syms table : list Z)
  : option (bool * Z * list Z) :=
  match len with
  | O => Some (true, val, table)
  | S len' =>
      e ← syms.[u32 (off + j)];
      let sym := u32 (e * 2) in
      if sym >=? n then Some (false, val, table)
      else
        let rev := reverse_code (Z.to_nat i) 0 val 0 in
        table ← table.[sym + 0 <- i];
        table ← table.[sym + 1 <- rev];
        table_row len' (j + 1) i off (u32 (val + 1)) n syms table
  end.

(** The loop over i. *)
Fixpoint table_rows (m : nat) (i off val n : Z) (lens syms table : list Z)
  : option (Z * list Z) :=
  match m with
  | O => Some (0, table)
  | S m' =>
      len ← lens.[i];
      '(ok, val, table) ← table_row (Z.to_nat len) 0 i off val n syms table;
      if negb ok then Some (-2, table)
      else table_rows m' (i + 1) (u32 (off + len)) (u32 (val * 2)) n lens syms table
  end.

Fixpoint clear_table (n : nat) (i : Z) (table : list Z) : option (list Z) :=
  match n with
  | O => Some table
  | S n' => table ← table.[i <- 0]; clear_table n' (i + 1) table
  end.

Fixpoint sum_lengths (m : nat) (i sum : Z) (lens : list Z) : option Z :=
  match m with
  | O => Some sum
  | S m' => len ← lens.[i]; sum_lengths m' (i + 1) (u32 (sum + len)) lens
  end.

(** The status and the table.  The arrays do not overlap: the code's test for
    [table == h->symbols] is the parameter [aliased]. *)
Definition huffman_table (aliased : bool) (h : huffman) (table : list Z) (n : Z)
  : option (Z * list Z) :=
  if aliased || (n <? 0) then Some (-1, table)
  else
    table ← clear_table (Z.to_nat n) 0 table;
    sum ← sum_lengths 15 1 0 (lengths h);
    if negb (u32 (sum * 2) =? n) then Some (-1, table)
    else table_rows 15 1 0 0 n (lengths h) (symbols h) table.

Example huffman_init_comment :
  huffman_init [2; 1; 0; 3; 3] 5
  = Some (0, Huffman [1; 1; 1; 2; 0; 0; 0; 0; 0; 0; 0; 0; 0; 0; 0; 0]
               [1; 0; 3; 4; 0] 1).
Proof. reflexivity. Qed.

(** ** The canonical code *)

Section Canonical.
Context (lens : list Z).

(** The number of codes of each length; length 0 is no code. *)
Definition count (k : nat) : Z := if k is O then 0 else nth k lens 0.

(** The first code of length [k], and the index of its symbol. *)
Fixpoint base (k : nat) : Z :=
  match k with O => 0 | S k' => 2 * (base k' + count k') end.

Fixpoint offset (k : nat) : Z :=
  match k with O => 0 | S k' => offset k' + count k' end.

(** Lengths that leave a code for everyone (the check of [huffman_init]). *)
Definition kraft : Prop :=
  length lens = 16%nat ∧
  ∀ k, (k ≤ 15)%nat → 0 ≤ count k ∧ base k + count k ≤ 2 ^ Z.of_nat k.

(** The bits of the [j]-th code of length [k], in the order they are read. *)
Definition code_bits (k : nat) (j : Z) : list bool :=
  reverse (bits_of k (base k + j)).

Context (Hkraft : kraft).

Lemma base_nonneg k : (k ≤ 15)%nat → 0 ≤ base k.
Proof.
  induction k as [|k IH]; intros Hk; [done|]. cbn [base].
  pose proof (proj2 Hkraft k ltac:(lia)). specialize (IH ltac:(lia)). lia.
Qed.

(** Codes of length [k] are above all extensions of shorter codes. *)
Lemma base_above k d : (k + d ≤ 15)%nat → (1 ≤ d)%nat →
  (base k + count k) * 2 ^ Z.of_nat d ≤ base (k + d).
Proof.
  intros Hk Hd. induction d as [|d IH]; [lia|].
  rewrite Nat.add_succ_r. cbn [base]. rewrite Nat2Z.inj_succ, Z.pow_succ_r by lia.
  destruct d as [|d].
  - rewrite Nat.add_0_r. simpl. lia.
  - specialize (IH ltac:(lia) ltac:(lia)).
    pose proof (proj2 Hkraft (k + S d)%nat ltac:(lia)). lia.
Qed.

Lemma count_lookup k : (1 ≤ k ≤ 15)%nat → lens.[Z.of_nat k] = Some (count k).
Proof.
  intros Hk. apply rd_Some. split; [lia|]. rewrite Nat2Z.id.
  destruct Hkraft as [Hlen _]. unfold count. destruct k; [lia|].
  destruct (lookup_lt_is_Some_2 lens (S k) ltac:(lia)) as [x Hx].
  rewrite Hx. f_equal. symmetry. by apply nth_lookup_Some.
Qed.

Lemma offset_bound k : (k ≤ 16)%nat → 0 ≤ offset k ≤ 2 ^ Z.of_nat k.
Proof.
  induction k as [|k IH]; intros Hk; [simpl; lia|]. cbn [offset].
  pose proof (proj2 Hkraft k ltac:(lia)). specialize (IH ltac:(lia)).
  pose proof (base_nonneg k ltac:(lia)).
  rewrite Nat2Z.inj_succ, Z.pow_succ_r by lia. lia.
Qed.

(** The bits read so far of a code are a prefix of it. *)
Lemma code_prefix k j m : (m ≤ k)%nat →
  drop m (code_bits k j)
  = match (k - m)%nat with
    | O => []
    | S d => Z.testbit (base k + j) (Z.of_nat d) :: drop (S m) (code_bits k j)
    end.
Proof.
  intros Hm. unfold code_bits.
  destruct (k - m)%nat as [|d] eqn:Hd.
  - apply drop_ge. rewrite length_reverse, bits_of_length. lia.
  - assert (Hl : reverse (bits_of k (base k + j)) !! m
      = Some (Z.testbit (base k + j) (Z.of_nat d))).
    { rewrite reverse_lookup by (rewrite bits_of_length; lia).
      rewrite bits_of_length. replace (k - S m)%nat with d by lia.
      unfold bits_of. rewrite list_lookup_fmap, lookup_seq_lt by lia. done. }
    by rewrite (drop_S _ _ _ Hl).
Qed.
End Canonical.

Lemma pow_small m : (m ≤ 16)%nat → 2 ^ Z.of_nat m ≤ 2 ^ 16.
Proof. intros. apply Z.pow_le_mono_r; lia. Qed.

Section Decode.
Context (client : nat → bitarray → option (Z * bitarray)).
Context (h : huffman) (Hkraft : kraft (lengths h)).
Context (k : nat) (j sym : Z) (rest : list bool).
Context (Hk : (1 ≤ k ≤ 15)%nat) (Hj : 0 ≤ j < count (lengths h) k).
Context (Hsym : (symbols h).[offset (lengths h) k + j] = Some sym).

Let lens := lengths h.
Let code : Z := base lens k + j.

Lemma code_range : 0 ≤ code < 2 ^ Z.of_nat k.
Proof.
  pose proof (base_nonneg lens Hkraft k ltac:(lia)).
  pose proof (proj2 Hkraft k ltac:(lia)). unfold code, lens in *. lia.
Qed.

(** After [m] bits of the code the cursor holds the code's first bits and
    the first code and symbol index of length m + 1. *)
Definition hfetch_inv (s : cursor) : Prop :=
  ∃ m : nat, (m < k)%nat ∧ cu_i s = Z.of_nat (S m) ∧
    cu_base s = base lens (S m) ∧ cu_off s = offset lens (S m) ∧
    cu_val s = code / 2 ^ Z.of_nat (k - m) ∧
    reads (cu_b s) (drop m (code_bits lens k j) ++ rest).

Definition hfetch_measure (s : cursor) : nat :=
  (3 * Z.to_nat (16 - cu_i s)
   + (if (state0 (cu_b s) =? 0)%Z then if (size (cu_b s) =? 0)%Z then 2 else 1
      else 0))%nat.

(** The value with one more bit. *)
Lemma val_next (m d : nat) :
  (k - m)%nat = S d →
  Z.lor (Z.shiftl (code / 2 ^ Z.of_nat (k - m)) 1)
    (Z.b2z (Z.testbit code (Z.of_nat d))) = code / 2 ^ Z.of_nat d.
Proof.
  intros Hd. rewrite Hd.
  rewrite lor_shiftl_add by (try lia; by destruct (Z.testbit _ _); simpl; lia).
  change (2 ^ 1) with 2.
  rewrite Z.testbit_spec' by lia.
  rewrite Nat2Z.inj_succ, Z.pow_succ_r by lia.
  rewrite (Z.mul_comm 2 (2 ^ _)), <- Z.div_div by lia.
  pose proof (Z.div_mod (code / 2 ^ Z.of_nat d) 2). lia.
Qed.

Lemma hfetch_bit (m d : nat) b :
  (m < k)%nat → (k - m)%nat = S d → state0 b ≠ 0 →
  reads b (Z.testbit code (Z.of_nat d) :: drop (S m) (code_bits lens k j) ++ rest) →
  ∃ c, hfetch_step client h (Cursor b (base lens (S m)) (offset lens (S m))
      (code / 2 ^ Z.of_nat (k - m)) (Z.of_nat (S m))) = Some c ∧
    match c with
    | Next s => hfetch_inv s ∧ cu_i s = Z.of_nat (S (S m))
    | Done r => r.1 = swrap 32 sym ∧ reads r.2 rest
    end.
Proof.
  intros Hm Hd Hs0 Hr. unfold hfetch_step.
  rewrite (proj2 (Z.ltb_lt _ 16)) by lia.
  rewrite (proj2 (Z.eqb_neq (state0 b) 0)) by done. cbn [negb].
  rewrite (count_lookup lens Hkraft) by lia. cbn [mbind option_bind].
  destruct (reads_take b _ _ Hr Hs0) as [Hx Hr'].
  destruct (take_bit b) as [x b1]. cbn [fst snd] in Hx, Hr'. subst x.
  rewrite (val_next m d Hd).
  pose proof code_range as Hcode.
  pose proof (base_nonneg lens Hkraft (S m) ltac:(lia)) as Hb0.
  pose proof (proj2 Hkraft (S m) ltac:(lia)) as [Hc0 Hbm]. fold lens in Hc0, Hbm.
  pose proof (pow_small (S m) ltac:(lia)) as Hp.
  pose proof (offset_bound lens Hkraft (S m) ltac:(lia)) as Hoff.
  assert (Hv : 0 ≤ code / 2 ^ Z.of_nat d < 2 ^ Z.of_nat (S m)).
  { split; [apply Z.div_pos; lia|]. apply Z.div_lt_upper_bound; [lia|].
    rewrite <- Z.pow_add_r by lia.
    replace (Z.of_nat d + Z.of_nat (S m)) with (Z.of_nat k) by lia. lia. }
  rewrite !(wrap_small 32 (code / _)) by lia.
  rewrite (wrap_small 32 (base lens (S m) + _)) by lia.
  destruct d as [|d].
  - assert (k = S m) as Hkm by lia. change (2 ^ Z.of_nat 0) with 1.
    rewrite Z.div_1_r. unfold code in *. rewrite <- Hkm in *.
    rewrite (proj2 (Z.ltb_lt _ _)) by (unfold lens in *; lia).
    replace (base lens k + j - base lens k) with j by lia.
    unfold lens in *. rewrite (wrap_small 32 j), wrap_small by lia.
    rewrite Hsym. cbn [mbind option_bind]. eexists; split; [done|].
    split; [done|]. unfold code_bits in Hr'.
    by rewrite drop_ge in Hr' by (rewrite length_reverse, bits_of_length; lia).
  - pose proof (base_above lens Hkraft (S m) (S d) ltac:(lia) ltac:(lia)) as Hab.
    replace (S m + S d)%nat with k in Hab by lia. fold lens in Hab.
    assert (Hj0 : 0 ≤ j) by (unfold lens in *; lia).
    rewrite (proj2 (Z.ltb_ge _ _)).
    2:{ apply Z.div_le_lower_bound; [lia|]. rewrite Z.mul_comm. unfold code. lia. }
    eexists; split; [done|]. split; [|cbn [cu_i]; lia].
    exists (S m). cbn [cu_i cu_base cu_off cu_val cu_b].
    split; [lia|]. split; [lia|].
    split; [rewrite wrap_small by lia; cbn [base]; lia|].
    split; [rewrite wrap_small by lia; cbn [offset]; lia|].
    split; [by replace (k - S m)%nat with (S d) by lia|done].
Qed.

Lemma hfetch_step_ok s :
  hfetch_inv s →
  ∃ c, hfetch_step client h s = Some c ∧
    match c with
    | Next s' => hfetch_inv s' ∧ (hfetch_measure s' < hfetch_measure s)%nat
    | Done r => r.1 = swrap 32 sym ∧ reads r.2 rest
    end.
Proof.
  intros (m & Hm & Hi & Hbase & Hoff & Hval & Hr). destruct s as [b bs os vl i].
  cbn [cu_i cu_base cu_off cu_val cu_b] in *. subst i bs os vl.
  destruct (k - m)%nat as [|d] eqn:Hd; [lia|].
  rewrite code_prefix, Hd in Hr by lia. cbn [app] in Hr.
  destruct (decide (state0 b = 0)) as [Hz|Hz].
  - unfold hfetch_step. rewrite (proj2 (Z.ltb_lt _ 16)) by lia.
    rewrite (proj2 (Z.eqb_eq (state0 b) 0)) by done. cbn [negb].
    destruct (reads_refill client b _ _ Hr Hz) as (b' & Href & Hr' & H8).
    pose proof (refill_ready client b b' Href) as Hready.
    rewrite Href. cbn. eexists; split; [done|]. split.
    + exists m. cbn [cu_i cu_base cu_off cu_val cu_b]. rewrite Hd.
      rewrite code_prefix, Hd by lia. by do 5 (split; [done|]).
    + unfold hfetch_measure. cbn [cu_i cu_b]. rewrite Hz, H8. simpl.
      destruct (size b =? 0)%Z; lia.
  - rewrite <- Hd. destruct (hfetch_bit m d b Hm Hd Hz Hr) as (c & -> & Hc).
    exists c. split; [done|]. destruct c as [s'|r]; [|done].
    destruct Hc as [Hinv Hi]. split; [done|]. unfold hfetch_measure.
    cbn [cu_i cu_b]. rewrite Hi.
    destruct (state0 (cu_b s') =? 0)%Z, (size (cu_b s') =? 0)%Z,
      (state0 b =? 0)%Z, (size b =? 0)%Z; lia.
Qed.

(** [huffman_fetch] decodes every code word of the canonical code. *)
Lemma huffman_fetch_code b :
  reads b (code_bits lens k j ++ rest) →
  ∃ b', huffman_fetch client h b = Some (swrap 32 sym, b') ∧ reads b' rest.
Proof.
  intros Hr. unfold huffman_fetch.
  destruct (while_total hfetch_inv hfetch_measure
    (λ r : Z * bitarray, r.1 = swrap 32 sym ∧ reads r.2 rest)
    (hfetch_step client h)) with (fuel := hfetch_fuel) (s := Cursor b 0 0 0 1)
    as ([r b'] & -> & Hr1 & Hr2).
  - apply hfetch_step_ok.
  - exists 0%nat. cbn [cu_i cu_base cu_off cu_val cu_b].
    split; [lia|]. split; [done|]. split; [done|]. split; [done|].
    rewrite Nat.sub_0_r, drop_0. split; [|done].
    by rewrite Z.div_small by apply code_range.
  - unfold hfetch_fuel, hfetch_measure. cbn [cu_i cu_b].
    destruct (state0 b =? 0)%Z, (size b =? 0)%Z; simpl; lia.
  - simpl in Hr1. subst r. by exists b'.
Qed.
End Decode.

(** ** Decoding arbitrary bits *)

Section Total.
Context (client : nat → bitarray → option (Z * bitarray)).
Context (I : nat → Prop) (Hclient : hands_over client I).
Context (h : huffman) (Hkraft : kraft (lengths h)).
Context (Hroom : ∀ k, (k ≤ 15)%nat →
  offset (lengths h) k + count (lengths h) k ≤ Z.of_nat (length (symbols h))).

Let lens := lengths h.

Definition htotal_inv (s : cursor) : Prop :=
  ∃ m : nat, (m ≤ 15)%nat ∧ cu_i s = Z.of_nat (S m) ∧
    cu_base s = base lens (S m) ∧ cu_off s = offset lens (S m) ∧
    0 ≤ cu_val s < 2 ^ Z.of_nat m ∧ base lens (S m) ≤ 2 * cu_val s ∧
    readable I (cu_b s).

(** A symbol of the tree or one of the two error codes. *)
Definition htotal_post (r : Z * bitarray) : Prop :=
  (r.1 = -1 ∨ r.1 = -2 ∨ ∃ sym, sym ∈ symbols h ∧ r.1 = swrap 32 sym) ∧
  readable I r.2.

Lemma htotal_bit (m : nat) b val :
  (m < 15)%nat → 0 ≤ val < 2 ^ Z.of_nat m → base lens (S m) ≤ 2 * val →
  state0 b ≠ 0 → readable I b →
  ∃ c, hfetch_step client h (Cursor b (base lens (S m)) (offset lens (S m)) val
      (Z.of_nat (S m))) = Some c ∧
    match c with
    | Next s => htotal_inv s ∧ cu_i s = Z.of_nat (S (S m))
    | Done r => htotal_post r
    end.
Proof.
  intros Hm Hval Hbase Hs0 Hr. unfold hfetch_step.
  rewrite (proj2 (Z.ltb_lt _ 16)) by lia.
  rewrite (proj2 (Z.eqb_neq (state0 b) 0)) by done. cbn [negb].
  rewrite (count_lookup lens Hkraft) by lia. cbn [mbind option_bind].
  destruct (readable_take I b Hr Hs0) as [Hx Hr'].
  destruct (take_bit b) as [x b1]. cbn [fst snd] in Hx, Hr'.
  pose proof (base_nonneg lens Hkraft (S m) ltac:(lia)) as Hb0.
  pose proof (proj2 Hkraft (S m) ltac:(lia)) as [Hc0 Hbm]. fold lens in Hc0, Hbm.
  pose proof (pow_small (S m) ltac:(lia)) as Hp.
  pose proof (offset_bound lens Hkraft (S m) ltac:(lia)) as Hoff.
  pose proof (Hroom (S m) ltac:(lia)) as Hrm. fold lens in Hrm.
  assert (Hp2 : 2 ^ Z.of_nat (S m) = 2 * 2 ^ Z.of_nat m)
    by (rewrite Nat2Z.inj_succ, Z.pow_succ_r; lia).
  rewrite lor_shiftl_add by lia. change (2 ^ 1) with 2.
  rewrite !(wrap_small 32 (val * 2 + x)) by lia.
  rewrite (wrap_small 32 (base lens (S m) + _)) by lia.
  destruct (Z.ltb_spec (val * 2 + x) (base lens (S m) + count lens (S m))).
  - rewrite (wrap_small 32 (val * 2 + x - base lens (S m))) by lia.
    rewrite wrap_small by lia.
    destruct (rd_is_Some (symbols h) (offset lens (S m)
      + (val * 2 + x - base lens (S m))) ltac:(lia)) as [sym Hsym].
    rewrite Hsym. cbn [mbind option_bind]. eexists; split; [done|]. split; [|done].
    right. right. exists sym. split; [|done].
    apply rd_Some in Hsym as [_ Hsym]. by apply list_elem_of_lookup_2 in Hsym.
  - eexists; split; [done|]. split; [|cbn [cu_i]; lia].
    exists (S m). cbn [cu_i cu_base cu_off cu_val cu_b].
    split; [lia|]. split; [lia|].
    split; [rewrite wrap_small by lia; cbn [base]; lia|].
    split; [rewrite wrap_small by lia; cbn [offset]; lia|].
    split; [lia|]. split; [cbn [base] in *; lia|done].
Qed.

Lemma htotal_step s :
  htotal_inv s →
  ∃ c, hfetch_step client h s = Some c ∧
    match c with
    | Next s' => htotal_inv s' ∧ (hfetch_measure s' < hfetch_measure s)%nat
    | Done r => htotal_post r
    end.
Proof.
  intros (m & Hm & Hi & Hbase & Hoff & Hval & Hle & Hr). destruct s as [b bs0 os vl i].
  cbn [cu_i cu_base cu_off cu_val cu_b] in *. subst i bs0 os.
  destruct (decide (m = 15%nat)) as [->|].
  { eexists; split; [done|]. split; [right; by left|done]. }
  destruct (decide (state0 b = 0)) as [Hz|Hz].
  - unfold hfetch_step. rewrite (proj2 (Z.ltb_lt _ 16)) by lia.
    rewrite (proj2 (Z.eqb_eq (state0 b) 0)) by done. cbn [negb].
    destruct (readable_refill client I Hclient b Hr Hz) as (go & b' & Href & Hr').
    pose proof (refill_ready client b b') as Hready.
    rewrite Href in *. cbn [mbind option_bind]. destruct go.
    2:{ eexists; split; [done|]. split; [by left|done]. }
    specialize (Hready eq_refl). eexists; split; [done|]. split.
    + exists m. cbn [cu_i cu_base cu_off cu_val cu_b]. by do 6 (split; [done|]).
    + unfold hfetch_measure. cbn [cu_i cu_b]. rewrite Hz. simpl.
      destruct (Z.eqb_spec (state0 b') 0), (Z.eqb_spec (size b') 0),
        (Z.eqb_spec (size b) 0); lia.
  - destruct (htotal_bit m b vl ltac:(lia) Hval Hle Hz Hr) as (c & Hc & Hpost).
    rewrite Hc. exists c. split; [done|]. destruct c as [s'|r]; [|done].
    destruct Hpost as [Hinv Hi]. split; [done|]. unfold hfetch_measure.
    cbn [cu_i cu_b]. rewrite Hi.
    destruct (state0 (cu_b s') =? 0)%Z, (size (cu_b s') =? 0)%Z,
      (state0 b =? 0)%Z, (size b =? 0)%Z; lia.
Qed.

(** [huffman_fetch] answers on every stream of bits, from whatever callback. *)
Lemma huffman_fetch_total b :
  readable I b → ∃ r, huffman_fetch client h b = Some r ∧ htotal_post r.
Proof.
  intros Hr. unfold huffman_fetch. apply (while_total htotal_inv hfetch_measure).
  - apply htotal_step.
  - exists 0%nat. cbn [cu_i cu_base cu_off cu_val cu_b].
    do 4 (split; [done || lia|]). split; [simpl; lia|]. split; [simpl; lia|done].
  - unfold hfetch_fuel, hfetch_measure. cbn [cu_i cu_b].
    destruct (state0 b =? 0)%Z, (size b =? 0)%Z; simpl; lia.
Qed.
End Total.

(** ** What [huffman_init] establishes *)

Definition sumZ (l : list Z) : Z := foldr Z.add 0 l.

Lemma sumZ_insert l i x y :
  l !! i = Some y → sumZ (<[i := x]> l) = sumZ l - y + x.
Proof.
  revert i. induction l as [|z l IH]; intros [|i]; simpl; [done|done| |].
  - intros [= ->]. lia.
  - intros H. rewrite (IH _ H). lia.
Qed.

Definition u32_list (l : list Z) : Prop := Forall (λ x, 0 ≤ x < 2 ^ 32) l.

Lemma u32_list_rd l i x : u32_list l → l.[i] = Some x → 0 ≤ x < 2 ^ 32.
Proof.
  intros Hl Hx. apply rd_Some in Hx as [_ Hx].
  by apply (proj1 (Forall_lookup _ _) Hl _ _ Hx).
Qed.

Lemma u32_list_wr l i x l' :
  u32_list l → 0 ≤ x < 2 ^ 32 → l.[i <- x] = Some l' → u32_list l'.
Proof. intros Hl Hx Hw. apply wr_Some_inv in Hw as [_ ->]. by apply Forall_insert. Qed.

Lemma count_lengths_spec n i syms lens lens' :
  u32_list lens → 0 ≤ sumZ lens → sumZ lens + Z.of_nat n < 2 ^ 32 →
  count_lengths n i syms lens = Some (true, lens') →
  u32_list lens' ∧ length lens' = length lens ∧
  sumZ lens' = sumZ lens + Z.of_nat n.
Proof.
  revert i lens. induction n as [|n IH]; intros i lens Hl Hs Hn; cbn [count_lengths].
  { intros [= <-]. split; [done|split; [done|lia]]. }
  destruct (syms.[i]) as [len|]; [|done]. cbn [mbind option_bind].
  destruct (len >? 15); [done|].
  destruct (lens.[len]) as [c|] eqn:Hc; [|done]. cbn [mbind option_bind].
  destruct (lens.[len <- u32 (c + 1)]) as [lens1|] eqn:Hw; [|done].
  cbn [mbind option_bind]. intros Hrec.
  pose proof (u32_list_rd _ _ _ Hl Hc) as Hc32.
  assert (Hcs : c ≤ sumZ lens).
  { apply rd_Some in Hc as [_ Hc]. revert Hl Hc. clear. revert len.
    generalize (Z.to_nat) as f. intros f len. generalize (f len) as k. clear.
    induction lens as [|x lens IH]; intros [|k] Hl; simpl; try done;
      apply Forall_cons_1 in Hl as [Hx Hl].
    - intros [= ->]. assert (0 ≤ sumZ lens); [|lia].
      clear -Hl. induction Hl; simpl; lia.
    - intros Hk. specialize (IH k Hl Hk). lia. }
  pose proof (u32_list_wr _ _ _ _ Hl (wrap_range 32 (c + 1) ltac:(lia)) Hw) as Hl1.
  pose proof (wr_Some_inv _ _ _ _ Hw) as [Hr ->].
  assert (Hs1 : sumZ (<[Z.to_nat len:=u32 (c + 1)]> lens) = sumZ lens + 1).
  { apply rd_Some in Hc as [_ Hc]. rewrite (sumZ_insert _ _ _ _ Hc), wrap_small; lia. }
  apply IH in Hrec as (H1 & H2 & H3); [|done|lia|lia].
  rewrite length_insert in H2. rewrite Hs1 in H3.
  split; [done|split; [done|lia]].
Qed.

Lemma check_lengths_spec lens n i t t' :
  length lens = 16%nat → u32_list lens → (i + n = 16)%nat → (1 ≤ i)%nat →
  (∀ k, (k < i)%nat → 0 ≤ count lens k ∧ base lens k + count lens k ≤ 2 ^ Z.of_nat k) →
  t = 2 ^ Z.of_nat (i - 1) - (base lens (i - 1) + count lens (i - 1)) →
  check_lengths n (Z.of_nat i) t lens = Some (Some t') → kraft lens.
Proof.
  intros Hlen Hl. revert i t. induction n as [|n IH]; intros i t Hi H1 Hk Ht;
    cbn [check_lengths].
  { intros _. split; [done|]. intros k Hk15. apply Hk. lia. }
  destruct (lens.[Z.of_nat i]) as [len|] eqn:Hc; [|done]. cbn [mbind option_bind].
  destruct (Z.ltb_spec (t * 2 - len) 0); [done|]. intros Hrec.
  pose proof (u32_list_rd _ _ _ Hl Hc) as Hc32.
  assert (Hcnt : count lens i = len).
  { apply rd_Some in Hc as [_ Hc]. rewrite Nat2Z.id in Hc. unfold count.
    destruct i; [lia|]. by apply nth_lookup_Some with (d := 0) in Hc. }
  assert (Hb : base lens i = 2 * (base lens (i - 1) + count lens (i - 1)))
    by (destruct i; [lia|]; by rewrite Nat.sub_1_r).
  assert (Hp : 2 ^ Z.of_nat i = 2 * 2 ^ Z.of_nat (i - 1))
    by (rewrite <- Z.pow_succ_r by lia; f_equal; lia).
  apply (IH (S i) (t * 2 - len)); [lia|lia| | |].
  - intros k Hki. destruct (decide (k = i)) as [->|]; [|apply Hk; lia].
    rewrite Hcnt, Hb. lia.
  - replace (S i - 1)%nat with i by lia. rewrite Hcnt, Hb. lia.
  - replace (Z.of_nat (S i)) with (Z.of_nat i + 1) by lia. done.
Qed.

(** The entries of an accepted symbol array are below 2^28 where the code
    can look. *)
Lemma place_symbols_u32 n i syms buf syms' :
  u32_list syms → place_symbols n i syms buf = Some syms' →
  u32_list syms' ∧ length syms' = length syms.
Proof.
  revert i syms buf. induction n as [|n IH]; intros i syms buf Hl;
    cbn [place_symbols].
  { by intros [= <-]. }
  destruct (syms.[i]) as [e|]; [|done]. cbn [mbind option_bind].
  destruct (_ =? 0); [by apply IH|].
  destruct (buf.[_]) as [k|]; [|done]. cbn [mbind option_bind].
  destruct (syms.[k]) as [e'|] eqn:He; [|done]. cbn [mbind option_bind].
  destruct (syms.[k <- _]) as [syms1|] eqn:Hw; [|done]. cbn [mbind option_bind].
  destruct (buf.[_ <- _]) as [buf1|]; [|done]. cbn [mbind option_bind].
  intros Hrec. pose proof (u32_list_rd _ _ _ Hl He) as He32.
  assert (Hor : 0 ≤ Z.lor e' (u32 (Z.shiftl i 4)) < 2 ^ 32).
  { apply lor_range; [lia|done|apply wrap_range; lia]. }
  pose proof (u32_list_wr _ _ _ _ Hl Hor Hw) as Hl1.
  pose proof (wr_Some_inv _ _ _ _ Hw) as [_ ->].
  apply IH in Hrec as [H1 H2]; [|done]. by rewrite length_insert in H2.
Qed.

Lemma drop_lengths_spec n (i : nat) syms syms' :
  u32_list syms → drop_lengths n (Z.of_nat i) syms = Some syms' →
  u32_list syms' ∧
  (∀ p x, (p < i + n)%nat → syms' !! p = Some x →
     (p < i)%nat ∧ syms !! p = Some x ∨ 0 ≤ x < 2 ^ 28).
Proof.
  revert i syms. induction n as [|n IH]; intros i syms Hl; cbn [drop_lengths].
  { intros [= <-]. split; [done|]. intros p x Hp Hx. left. split; [lia|done]. }
  destruct (syms.[Z.of_nat i]) as [e|] eqn:He; [|done]. cbn [mbind option_bind].
  destruct (syms.[Z.of_nat i <- _]) as [syms1|] eqn:Hw; [|done].
  cbn [mbind option_bind]. replace (Z.of_nat i + 1) with (Z.of_nat (S i)) by lia.
  intros Hrec. pose proof (u32_list_rd _ _ _ Hl He) as He32.
  assert (Hsh : 0 ≤ Z.shiftr e 4 < 2 ^ 28)
    by (rewrite Z.shiftr_div_pow2 by lia; change (2 ^ 4) with 16; dlia).
  assert (Hsh' : 0 ≤ Z.shiftr e 4 < 2 ^ 32) by lia.
  pose proof (u32_list_wr _ _ _ _ Hl Hsh' Hw) as Hl1.
  pose proof (wr_Some_inv _ _ _ _ Hw) as [Hr ->]. rewrite Nat2Z.id in *.
  apply IH in Hrec as [H1 H2]; [|done]. split; [done|]. intros p x Hp Hx.
  destruct (H2 p x ltac:(lia) Hx) as [[Hp' Hx']|]; [|by right].
  destruct (decide (p = i)) as [->|Hne].
  - rewrite list_lookup_insert_eq in Hx' by lia. injection Hx' as <-. by right.
  - rewrite list_lookup_insert_ne in Hx' by done. left. split; [lia|done].
Qed.

Lemma offset_sum lens k j :
  length lens = 16%nat → u32_list lens → (k ≤ 15)%nat → j < count lens k →
  offset lens k + j < sumZ lens - nth 0 lens 0.
Proof.
  intros Hlen Hl Hk Hj.
  do 16 (destruct lens as [|? lens]; [done|]). destruct lens; [|done].
  unfold u32_list in Hl. decompose_bytes. unfold sumZ. cbn [foldr nth].
  do 16 (destruct k as [|k]; [cbn [offset count nth] in *; lia|]). lia.
Qed.

(** What the rest of the development uses of an accepted code. *)
Lemma huffman_init_spec syms n h :
  u32_list syms → Z.of_nat n < 2 ^ 32 →
  huffman_init syms n = Some (0, h) →
  kraft (lengths h) ∧
  ∀ k j s, (k ≤ 15)%nat → 0 ≤ j < count (lengths h) k →
    (symbols h).[offset (lengths h) k + j] = Some s → 0 ≤ s < 2 ^ 28.
Proof.
  intros Hsy Hn. unfold huffman_init.
  destruct (count_lengths n 0 syms _) as [[ok lens]|] eqn:Hcl; [|done].
  cbn [mbind option_bind]. destruct ok; [|done]. cbn [negb].
  apply count_lengths_spec in Hcl as (Hl & Hlen & Hsum);
    [|by repeat (constructor; [lia|]); constructor|done|simpl; lia].
  change (length (replicate 16 0)) with 16%nat in Hlen.
  change (sumZ (replicate 16 0)) with 0 in Hsum.
  destruct (lens.[0]) as [zeros|] eqn:Hz; [|done]. cbn [mbind option_bind].
  assert (Hz0 : nth 0 lens 0 = zeros).
  { apply rd_Some in Hz as [_ Hz]. by apply nth_lookup_Some with (d := 0) in Hz. }
  destruct (Z.eqb_spec zeros (Z.of_nat n)) as [Heq|Hne].
  - intros [= <-]. cbn [lengths symbols].
    assert (Hc0 : ∀ k, (k ≤ 15)%nat → count lens k = 0).
    { intros k Hk. pose proof (offset_sum lens k 0 Hlen Hl Hk) as Ho.
      assert (Hge : ∀ m, 0 ≤ count lens m).
      { intros [|m]; [done|]. unfold count. destruct (lens !! S m) eqn:E.
        - erewrite nth_lookup_Some by done.
          pose proof (proj1 (Forall_lookup _ _) Hl _ _ E). simpl in *. lia.
        - by rewrite nth_overflow by (by apply lookup_ge_None). }
      assert (0 ≤ offset lens k)
        by (clear -Hge; induction k; simpl; [lia|]; pose proof (Hge k); lia).
      pose proof (Hge k). rewrite Hz0, Hsum in Ho. lia. }
    assert (Hb0 : ∀ k, (k ≤ 15)%nat → base lens k = 0).
    { induction k as [|k IH]; intros Hk; [done|]. cbn [base].
      rewrite IH, Hc0 by lia. lia. }
    split.
    + split; [done|]. intros k Hk. rewrite Hc0, Hb0 by done.
      pose proof (Z.pow_pos_nonneg 2 (Z.of_nat k)). lia.
    + intros k j s Hk Hj. rewrite Hc0 in Hj by done. lia.
  - destruct (check_lengths 15 1 1 lens) as [[t|]|] eqn:Hck; try done.
    cbn [mbind option_bind].
    destruct (start_offsets 14 1 lens _) as [buf|]; [|done]. cbn [mbind option_bind].
    destruct (place_symbols n 0 syms buf) as [syms1|] eqn:Hp; [|done].
    cbn [mbind option_bind].
    destruct (drop_lengths n 0 syms1) as [syms2|] eqn:Hd; [|done].
    cbn [mbind option_bind]. intros [= <-]. cbn [lengths symbols]. split.
    + apply (check_lengths_spec lens 15 1 1 t); try done.
      * intros k Hk. assert (k = 0%nat) as -> by lia. done.
    + intros k j s Hk Hj Hs.
      apply place_symbols_u32 in Hp as [Hu1 _]; [|done].
      apply (drop_lengths_spec n 0) in Hd as [_ Hlow]; [|done].
      pose proof (offset_sum lens k j Hlen Hl Hk ltac:(lia)) as Ho.
      assert (0 ≤ zeros) by (pose proof (u32_list_rd _ _ _ Hl Hz); lia).
      apply rd_Some in Hs as [Hs0 Hs].
      destruct (Hlow (Z.to_nat (offset lens k + j)) s) as [[? _]|];
        [lia|done|lia|done].
Qed.

(** ** [huffman_table] *)

(** The reversed code, as the bits in the order they are shoved. *)
Lemma reverse_code_spec n (k : nat) val r m :
  0 ≤ r < 2 ^ Z.of_nat m → (m + n ≤ 32)%nat →
  reverse_code n (Z.of_nat k) val r
  = r * 2 ^ Z.of_nat n + of_bits (reverse (bits_of n (Z.shiftr val (Z.of_nat k)))).
Proof.
  revert k r m. induction n as [|n IH]; intros k r m Hr Hm; cbn [reverse_code].
  { change (2 ^ Z.of_nat 0) with 1. change (bits_of 0 _) with (@nil bool).
    rewrite reverse_nil. simpl. lia. }
  set (bit := if Z.testbit val (Z.of_nat k) then 1 else 0).
  assert (Hbit : 0 ≤ bit < 2) by (unfold bit; case_match; lia).
  assert (Hp : 2 ^ Z.of_nat (S m) = 2 * 2 ^ Z.of_nat m)
    by (rewrite Nat2Z.inj_succ, Z.pow_succ_r; lia).
  assert (Hm32 : 2 ^ Z.of_nat (S m) ≤ 2 ^ 32) by (apply Z.pow_le_mono_r; lia).
  assert (Hsh : Z.shiftl r 1 = r * 2) by (by rewrite Z.shiftl_mul_pow2).
  assert (Hr' : u32 (Z.lor (u32 (Z.shiftl r 1)) bit) = r * 2 + bit).
  { rewrite (wrap_small 32 (Z.shiftl r 1)) by lia.
    rewrite lor_shiftl_add by lia. change (2 ^ 1) with 2. apply wrap_small. lia. }
  rewrite Hr'. replace (Z.of_nat k + 1) with (Z.of_nat (S k)) by lia.
  rewrite (IH (S k) (r * 2 + bit) (S m)) by lia.
  rewrite bits_of_S, reverse_cons, of_bits_app, length_reverse, bits_of_length.
  rewrite Z.shiftr_shiftr by lia.
  replace (Z.of_nat k + 1) with (Z.of_nat (S k)) by lia.
  rewrite <- Z.bit0_odd, Z.shiftr_spec by lia. rewrite Z.add_0_l.
  rewrite (Nat2Z.inj_succ n), Z.pow_succ_r by lia.
  unfold bit. destruct (Z.testbit val (Z.of_nat k)); simpl Z.b2z; simpl of_bits; lia.
Qed.

Lemma reverse_code_bits n val :
  (n ≤ 32)%nat →
  bits_of n (reverse_code n 0 val 0) = reverse (bits_of n val).
Proof.
  intros Hn. pose proof (reverse_code_spec n 0 val 0 0 ltac:(simpl; lia) ltac:(lia)) as H.
  change (Z.of_nat 0) with 0 in H. rewrite H. rewrite Z.shiftr_0_r.
  rewrite Z.mul_0_l, Z.add_0_l.
  rewrite <- (bits_of_length n val) at 1. rewrite <- length_reverse.
  apply bits_of_of_bits.
Qed.

Section Table.
Context (h : huffman) (Hkraft : kraft (lengths h)).
Context (Hlow : ∀ k j s, (k ≤ 15)%nat → 0 ≤ j < count (lengths h) k →
  (symbols h).[offset (lengths h) k + j] = Some s → 0 ≤ s < 2 ^ 28).

Let lens := lengths h.

(** Each entry in use holds a code of its symbol. *)
Definition table_ok (table : list Z) : Prop :=
  ∀ s e1 e2, 0 ≤ s → table.[2 * s] = Some e1 → table.[2 * s + 1] = Some e2 →
  e1 = 0 ∨ ∃ (k : nat) j, (1 ≤ k ≤ 15)%nat ∧ 0 ≤ j < count lens k ∧
    (symbols h).[offset lens k + j] = Some s ∧
    e1 = Z.of_nat k ∧ bits_of k e2 = code_bits lens k j.

Lemma table_ok_wr table (k : nat) j s t1 t2 e2 :
  table_ok table → (1 ≤ k ≤ 15)%nat → 0 ≤ j < count lens k →
  (symbols h).[offset lens k + j] = Some s →
  bits_of k e2 = code_bits lens k j → 0 ≤ s →
  table.[2 * s <- Z.of_nat k] = Some t1 → t1.[2 * s + 1 <- e2] = Some t2 →
  table_ok t2.
Proof.
  intros Hok Hk Hj Hs Hbits H0 Hw1 Hw2 s' e1' e2' Hs' He1 He2.
  apply wr_Some_inv in Hw1 as [Hr1 ->]. apply wr_Some_inv in Hw2 as [Hr2 ->].
  rewrite length_insert in Hr2.
  apply rd_Some in He1 as [Hn1 He1]. apply rd_Some in He2 as [Hn2 He2].
  destruct (decide (s' = s)) as [->|Hne].
  - rewrite list_lookup_insert_ne in He1 by lia.
    rewrite list_lookup_insert_eq in He1 by lia.
    rewrite list_lookup_insert_eq in He2 by (rewrite length_insert; lia).
    injection He1 as <-. injection He2 as <-. right. by exists k, j.
  - rewrite !list_lookup_insert_ne in He1 by lia.
    rewrite !list_lookup_insert_ne in He2 by lia.
    apply (Hok s' e1' e2' Hs'); apply rd_Some; by split.
Qed.

Lemma table_row_ok len (j : nat) (k : nat) n table table' ok val' :
  (1 ≤ k ≤ 15)%nat → Z.of_nat j + Z.of_nat len = count lens k →
  table_ok table →
  table_row len (Z.of_nat j) (Z.of_nat k) (offset lens k)
    (base lens k + Z.of_nat j) n (symbols h) table = Some (ok, val', table') →
  table_ok table' ∧ (ok = true → val' = base lens k + count lens k).
Proof.
  intros Hk. pose proof (proj2 Hkraft k ltac:(lia)) as [Hc0 Hcb].
  pose proof (offset_bound lens Hkraft k ltac:(lia)) as Hob.
  pose proof (base_nonneg lens Hkraft k ltac:(lia)) as Hbn.
  pose proof (pow_small k ltac:(lia)) as Hp. fold lens in Hc0, Hcb.
  revert j table. induction len as [|len IH]; intros j table Hj Hok;
    cbn [table_row].
  { intros [= <- <- <-]. split; [done|]. intros _. lia. }
  rewrite (wrap_small 32 (offset lens k + Z.of_nat j)) by lia.
  rewrite (wrap_small 32 (base lens k + Z.of_nat j + 1)) by lia.
  destruct ((symbols h).[offset lens k + Z.of_nat j]) as [e|] eqn:He; [|done].
  cbn [mbind option_bind].
  pose proof (Hlow k (Z.of_nat j) e ltac:(lia) ltac:(unfold lens in *; lia) He) as Hs.
  rewrite (wrap_small 32 (e * 2)) by lia.
  destruct (e * 2 >=? n); [by intros [= <- _ <-]|].
  destruct (table.[e * 2 + 0 <- Z.of_nat k]) as [t1|] eqn:Hw1; [|done].
  cbn [mbind option_bind].
  destruct (t1.[e * 2 + 1 <- _]) as [t2|] eqn:Hw2; [|done].
  cbn [mbind option_bind]. rewrite Nat2Z.id in Hw2.
  replace (e * 2 + 0) with (2 * e) in Hw1 by lia.
  replace (e * 2 + 1) with (2 * e + 1) in Hw2 by lia.
  replace (Z.of_nat j + 1) with (Z.of_nat (S j)) by lia.
  replace (base lens k + Z.of_nat j + 1) with (base lens k + Z.of_nat (S j)) by lia.
  apply IH; [lia|].
  apply (table_ok_wr _ k (Z.of_nat j) e t1 _ _ Hok Hk ltac:(lia) He) in Hw2;
    [done| |lia|done].
  unfold code_bits. apply reverse_code_bits. lia.
Qed.

Lemma table_rows_ok m (k : nat) n table table' r :
  (k + m = 16)%nat → (1 ≤ k)%nat → table_ok table →
  table_rows m (Z.of_nat k) (offset lens k) (base lens k) n lens (symbols h) table
  = Some (r, table') → table_ok table'.
Proof.
  revert k table. induction m as [|m IH]; intros k table Hm Hk Hok;
    cbn [table_rows].
  { by intros [= _ <-]. }
  rewrite (count_lookup lens Hkraft) by lia. cbn [mbind option_bind].
  pose proof (proj2 Hkraft k ltac:(lia)) as [Hc0 Hcb].
  pose proof (offset_bound lens Hkraft k ltac:(lia)) as Hob.
  pose proof (base_nonneg lens Hkraft k ltac:(lia)) as Hbn.
  pose proof (pow_small k ltac:(lia)) as Hp. fold lens in Hc0, Hcb.
  destruct (table_row _ _ _ _ _ _ _ _) as [[[ok val] t1]|] eqn:Hrow; [|done].
  cbn [mbind option_bind].
  pose proof (table_row_ok (Z.to_nat (count lens k)) 0 k n table t1 ok val
    ltac:(lia) ltac:(lia) Hok) as Hrow'.
  change (Z.of_nat 0) with 0 in Hrow'. rewrite Z.add_0_r in Hrow'.
  destruct (Hrow' Hrow) as [Hok1 Hval].
  destruct ok; cbn [negb]; [|by intros [= _ <-]].
  rewrite Hval by done. rewrite !wrap_small by lia.
  replace (Z.of_nat k + 1) with (Z.of_nat (S k)) by lia.
  replace (offset lens k + count lens k) with (offset lens (S k)) by done.
  replace ((base lens k + count lens k) * 2) with (base lens (S k)) by (cbn [base]; lia).
  apply IH; [lia|lia|done].
Qed.

Lemma clear_table_ok n (i : nat) table table' :
  (∀ p x, (p < i)%nat → table !! p = Some x → x = 0) →
  clear_table n (Z.of_nat i) table = Some table' →
  (∀ p x, (p < i + n)%nat → table' !! p = Some x → x = 0).
Proof.
  revert i table. induction n as [|n IH]; intros i table Hz; cbn [clear_table].
  { intros [= <-] p x Hp. apply Hz. lia. }
  destruct (table.[Z.of_nat i <- 0]) as [t1|] eqn:Hw; [|done].
  cbn [mbind option_bind]. replace (Z.of_nat i + 1) with (Z.of_nat (S i)) by lia.
  apply wr_Some_inv in Hw as [Hr ->]. rewrite Nat2Z.id in *.
  intros Hrec p x Hp Hx. apply (IH (S i) _) with (p := p) (x := x) in Hrec;
    [done| |lia|done].
  intros q y Hq Hy. destruct (decide (q = i)) as [->|].
  - rewrite list_lookup_insert_eq in Hy by lia. by injection Hy as <-.
  - rewrite list_lookup_insert_ne in Hy by done. apply (Hz q); [lia|done].
Qed.

Lemma huffman_table_ok table n r table' :
  Z.of_nat (length table) = n →
  huffman_table false h table n = Some (r, table') → r = 0 → table_ok table'.
Proof.
  intros Hn. unfold huffman_table. simpl (false || _).
  destruct (Z.ltb_spec n 0); [lia|].
  destruct (clear_table (Z.to_nat n) 0 table) as [t0|] eqn:Hc; [|done].
  cbn [mbind option_bind].
  destruct (sum_lengths 15 1 0 (lengths h)) as [sum|]; [|done].
  cbn [mbind option_bind]. destruct (negb _); [by intros [= <- _]|].
  intros Hrows _. change 1 with (Z.of_nat 1) in Hrows.
  apply (table_rows_ok 15 1 n t0 table' r) in Hrows; [done|done|done|].
  intros s e1 e2 Hs He1 _. left. apply rd_Some in He1 as [Hr He1].
  refine (clear_table_ok (Z.to_nat n) 0 table t0 _ Hc _ _ _ He1); [intros; lia|].
  apply lookup_lt_Some in He1.
  assert (length t0 = length table); [|lia].
  clear -Hc. revert Hc. generalize 0 as i. revert table.
  induction (Z.to_nat n) as [|m IH]; intros table i; cbn [clear_table];
    [by intros [= <-]|].
  destruct (table.[i <- 0]) as [t1|] eqn:Hw; [|done]. cbn [mbind option_bind].
  apply wr_Some_inv in Hw as [_ ->]. intros Hrec%IH. by rewrite length_insert in Hrec.
Qed.
End Table.

(** [huffman_table] does not depend on what its table held before. *)
Lemma clear_table_spec n (i : nat) table :
  (i + n)%nat = length table →
  clear_table n (Z.of_nat i) table = Some (take i table ++ replicate n 0).
Proof.
  revert i table. induction n as [|n IH]; intros i table Hl; cbn [clear_table].
  - by rewrite app_nil_r, take_ge by lia.
  - rewrite wr_Some by lia. cbn [mbind option_bind]. rewrite Nat2Z.id.
    replace (Z.of_nat i + 1) with (Z.of_nat (S i)) by lia.
    rewrite IH by (rewrite length_insert; lia).
    rewrite (take_S_r _ _ 0) by (apply list_lookup_insert_eq; lia).
    by rewrite take_insert_ge, <- app_assoc by lia.
Qed.

Lemma huffman_table_cleared h table n :
  n = Z.of_nat (length table) →
  huffman_table false h table n = huffman_table false h (replicate (length table) 0) n.
Proof.
  intros ->. unfold huffman_table. rewrite Nat2Z.id.
  pose proof (clear_table_spec (length table) 0 table eq_refl) as H1.
  pose proof (clear_table_spec (length table) 0 (replicate (length table) 0)) as H2.
  rewrite length_replicate in H2. specialize (H2 eq_refl).
  change (Z.of_nat 0) with 0 in H1, H2. rewrite H1, H2, !take_0. simpl (false || _).
  by rewrite (proj2 (Z.ltb_ge (Z.of_nat (length table)) 0)) by lia.
Qed.

(** Every code in the table of an accepted code is decoded. *)
Lemma huffman_table_fetch client syms n h table0 table s len code b rest :
  u32_list syms → Z.of_nat n < 2 ^ 32 →
  huffman_init syms n = Some (0, h) →
  huffman_table false h table0 (Z.of_nat (length table0)) = Some (0, table) →
  0 ≤ s → len ≠ 0 → table.[2 * s] = Some len → table.[2 * s + 1] = Some code →
  reads b (bits_of (Z.to_nat len) code ++ rest) →
  ∃ b', huffman_fetch client h b = Some (s, b') ∧ reads b' rest.
Proof.
  intros Hsyms Hn Hinit Htable Hs Hne Hlen Hcode Hb.
  destruct (huffman_init_spec syms n h Hsyms Hn Hinit) as [Hk Hlow].
  pose proof (huffman_table_ok h Hk Hlow table0 _ 0 table eq_refl Htable eq_refl) as Hok.
  destruct (Hok s len code Hs Hlen Hcode) as [|(k & j & Hk15 & Hj & Hsym & -> & Hbits)];
    [done|].
  rewrite Nat2Z.id, Hbits in Hb.
  destruct (huffman_fetch_code client h Hk k j s rest Hk15 Hj Hsym b Hb)
    as (b' & Hf & Hr).
  pose proof (Hlow k j s ltac:(lia) Hj Hsym).
  exists b'. split; [|done]. rewrite Hf. do 2 f_equal.
  unfold swrap. change (2 ^ (32 - 1)) with (2 ^ 31).
  rewrite Z.mod_small by lia. lia.
Qed.

(** The encoder's table and the decoder agree, for every set of bit
    lengths: when [huffman_init] accepts the lengths and [huffman_table]
    accepts the result, then shoving any entry of the table that is in use,
    (length, code) for the symbol s, and fetching with [huffman_fetch] gives s
    back and consumes exactly those bits, whatever bits follow. *)
Theorem huffman_code_roundtrip
    (client : nat → bitarray → option (Z * bitarray))
    (syms : list Z) (n : nat) (h : huffman) (table0 table : list Z)
    (Hsyms : u32_list syms) (Hn : Z.of_nat n < 2 ^ 32)
    (Hinit : huffman_init syms n = Some (0, h))
    (Htable : huffman_table false h table0 (Z.of_nat (length table0)) = Some (0, table))
    (s len code : Z) (Hs : 0 ≤ s) (Hne : len ≠ 0)
    (Hlen : table.[2 * s] = Some len) (Hcode : table.[2 * s + 1] = Some code)
    (b : bitarray) (rest : list bool)
    (Hb : reads b (bits_of (Z.to_nat len) code ++ rest)) :
  ∃ b', huffman_fetch client h b = Some (s, b') ∧ reads b' rest.
Proof. by eapply huffman_table_fetch. Qed.

Lemma huffman_code_roundtrip_witness :
  ∃ b', huffman_fetch (λ _ _, None) (Huffman [0; 1; 1; 2; 0; 0; 0; 0; 0; 0; 0; 0; 0; 0; 0; 0]
      [1; 0; 2; 3] 1)
      (bitarray_init [0x03] (Some (Z.of_nat 0)) (Z.of_nat 1)) = Some (2, b') ∧
    reads b' (bits_of 5 0).
Proof.
  apply (huffman_code_roundtrip (λ _ _, None) [2; 1; 3; 3] 4 _ (replicate 8 7)
    [2; 1; 1; 0; 3; 3; 3; 7]) with (s := 2) (len := 3) (code := 3).
  - repeat (constructor; [lia|]). constructor.
  - lia.
  - vm_compute. reflexivity.
  - vm_compute. reflexivity.
  - lia.
  - lia.
  - reflexivity.
  - reflexivity.
  - exact (reads_init [0x03] 0 1 ltac:(simpl; lia)).
Defined.
