(* ===== verification/Inflate.v ===== *)
(** Inflate: kernel/lib/inflate.c.

    The stream has one block that uses the static Huffman trees.  The output
    buffer is the list [out]; [size] is the value at the pointer of that name
    on entry, and the answer holds its value on return. *)

From S2P Require Import Prelude Bitarray Huffman.

(** struct bit_code: (extra, value). *)
Definition bit_code : Type := Z * Z.
Definition extra (c : bit_code) : Z := c.1.
Definition value (c : bit_code) : Z := c.2.

Definition length_codes : list bit_code := [
  (0, 3); (0, 4); (0, 5); (0, 6); (0, 7); (0, 8); (0, 9); (0, 10);
  (1, 11); (1, 13); (1, 15); (1, 17); (2, 19); (2, 23); (2, 27); (2, 31);
  (3, 35); (3, 43); (3, 51); (3, 59); (4, 67); (4, 83); (4, 99); (4, 115);
  (5, 131); (5, 163); (5, 195); (5, 227); (0, 258)].

Definition distance_codes : list bit_code := [
  (0, 1); (0, 2); (0, 3); (0, 4); (1, 5); (1, 7); (2, 9); (2, 13);
  (3, 17); (3, 25); (4, 33); (4, 49); (5, 65); (5, 97); (6, 129); (6, 193);
  (7, 257); (7, 385); (8, 513); (8, 769); (9, 1025); (9, 1537);
  (10, 2049); (10, 3073); (11, 4097); (11, 6145); (12, 8193); (12, 12289);
  (13, 16385); (13, 24577); (0, 65535)].

Definition code_symbols : list Z :=
  replicate 144 8 ++ replicate 112 9 ++ replicate 24 7 ++ replicate 6 8
  ++ replicate 2 8.

Definition dist_symbols : list Z := replicate 32 5.

(** The status and the two trees. *)
Definition inflate_init : option (Z * huffman * huffman) :=
  '(r1, h1) ← huffman_init code_symbols 288;
  '(r2, h2) ← huffman_init dist_symbols 32;
  Some (if (r1 =? 0) && (r2 =? 0) then 0 else 1, h1, h2).

(** while (len--) out[off] = out[off - dist], off += 1 *)
Fixpoint copy_match (len : nat) (out : list Z) (off dist : Z) : option (list Z) :=
  match len with
  | O => Some out
  | S len' =>
      c ← out.[off - dist];
      out ← out.[off <- c];
      copy_match len' out (off + 1) dist
  end.

Section Inflate.
Context (client : nat → bitarray → option (Z * bitarray)).

(** One turn of the main loop; a state is (b, out, off), an answer is
    (status, b, out, off) with status 0 for the end of the block. *)
Definition inflate_step (h_code h_dist : huffman) (size : Z)
    (s : bitarray * list Z * Z)
  : option (ctl (bitarray * list Z * Z) (Z * bitarray * list Z * Z)) :=
  let '(b, out, off) := s in
  '(sym, b) ← huffman_fetch client h_code b;
  if sym =? 256 then Some (Done (0, b, out, off))
  else if sym <? 0 then Some (Done (3, b, out, off))
  else if sym <? 256 then
    if off >=? size then Some (Done (4, b, out, off))
    else
      out ← out.[off <- u8 sym];
      Some (Next (b, out, off + 1))
  else if sym >=? 286 then Some (Done (5, b, out, off))
  else
    let sym := sym - 257 in
    c ← length_codes.[sym];
    '(val, b) ← bitarray_fetch client b (extra c);
    if val <? 0 then Some (Done (5, b, out, off))
    else
      let len := u32 (value c + val) in
      if u64 (off + len) >? size then Some (Done (5, b, out, off))
      else
        '(sym, b) ← huffman_fetch client h_dist b;
        if (sym <? 0) || (sym >=? 30) then Some (Done (5, b, out, off))
        else
          c ← distance_codes.[sym];
          '(val, b) ← bitarray_fetch client b (extra c);
          if val <? 0 then Some (Done (5, b, out, off))
          else
            let dist := u32 (value c + val) in
            if dist >? off then Some (Done (4, b, out, off))
            else
              out ← copy_match (Z.to_nat len) out off dist;
              Some (Next (b, out, off + len)).

(** Every turn that goes on writes at least one byte below [size]. *)
Definition inflate_fuel (size : Z) : nat := Z.to_nat size + 2.

(** (status, b, out, *size) *)
Definition inflate (b : bitarray) (out : list Z) (size : Z)
  : option (Z * bitarray * list Z * Z) :=
  '(r, h_code, h_dist) ← inflate_init;
  if negb (r =? 0) then Some (2, b, out, size)
  else
    '(v1, b) ← bitarray_fetch client b 1;
    if negb (v1 =? 1) then Some (2, b, out, size)
    else
      '(v2, b) ← bitarray_fetch client b 2;
      if negb (v2 =? 1) then Some (2, b, out, size)
      else
        '(r, b, out, off) ←
          while (inflate_fuel size) (inflate_step h_code h_dist size) (b, out, 0);
        if negb (r =? 0) then Some (r, b, out, size)
        else if negb (size =? off) then Some (1, b, out, off)
        else Some (0, b, out, size).
End Inflate.
