(* ===== verification/Deflate.v ===== *)
(** Deflate: tools/dy-zip/deflate.c (the same code serves dy-png).

    One block with the static Huffman trees; matches are found by a search of
    the window. *)

From S2P Require Import Prelude Bitarray Huffman Inflate.

(** The encoder's copies of the two tables. *)
Definition deflate_length_codes : list bit_code := [
  (0, 3); (0, 4); (0, 5); (0, 6); (0, 7); (0, 8); (0, 9); (0, 10);
  (1, 11); (1, 13); (1, 15); (1, 17); (2, 19); (2, 23); (2, 27); (2, 31);
  (3, 35); (3, 43); (3, 51); (3, 59); (4, 67); (4, 83); (4, 99); (4, 115);
  (5, 131); (5, 163); (5, 195); (5, 227); (0, 258)].

Definition deflate_distance_codes : list bit_code := [
  (0, 1); (0, 2); (0, 3); (0, 4); (1, 5); (1, 7); (2, 9); (2, 13);
  (3, 17); (3, 25); (4, 33); (4, 49); (5, 65); (5, 97); (6, 129); (6, 193);
  (7, 257); (7, 385); (8, 513); (8, 769); (9, 1025); (9, 1537);
  (10, 2049); (10, 3073); (11, 4097); (11, 6145); (12, 8193); (12, 12289);
  (13, 16385); (13, 24577); (0, 65535)].

(** The search of both loops of [put_lendist]: the first i with
    x == codes[i].value or x < codes[i + 1].value. *)
Definition find_code_step (codes : list bit_code) (x : Z) (i : Z)
  : option (ctl Z Z) :=
  c ← codes.[i];
  if x =? value c then Some (Done i)
  else
    c' ← codes.[i + 1];
    if x <? value c' then Some (Done i) else Some (Next (i + 1)).

Definition find_code (codes : list bit_code) (x : Z) : option Z :=
  while 32 (find_code_step codes x) 0.

Section Deflate.
Context (client : nat → bitarray → option (Z * bitarray)).

(** One half of [put_lendist]: the code of [x], then its extra bits.
    [table] is code_table at entry 257, or dist_table. *)
Definition put_code (codes : list bit_code) (table : list Z) (first : Z)
    (b : bitarray) (x : Z) : option (Z * bitarray) :=
  i ← find_code codes x;
  c ← codes.[i];
  t1 ← table.[(first + i) * 2 + 0];
  t2 ← table.[(first + i) * 2 + 1];
  '(r, b) ← bitarray_shove client b t1 t2;
  if negb (r =? 0) then Some (-1, b)
  else
    let t1 := extra c in
    let t2 := u32 (x - value c) in
    if t1 =? 0 then Some (0, b)
    else
      '(r, b) ← bitarray_shove client b t1 t2;
      Some (if negb (r =? 0) then -1 else 0, b).

Definition put_lendist (code_table dist_table : list Z) (b : bitarray)
    (len dist : Z) : option (Z * bitarray) :=
  if (len <? 3) || (len >? 258) || (dist <? 1) || (dist >? 32768) then Some (-1, b)
  else
    '(r, b) ← put_code deflate_length_codes code_table 257 b len;
    if negb (r =? 0) then Some (-1, b)
    else put_code deflate_distance_codes dist_table 0 b dist.

Definition put_literal (code_table : list Z) (b : bitarray) (c : Z)
  : option (Z * bitarray) :=
  t1 ← code_table.[Z.land c 0xFF * 2 + 0];
  t2 ← code_table.[Z.land c 0xFF * 2 + 1];
  bitarray_shove client b t1 t2.

(** for (j = 2; j < limit; j++) if (d[j] != data[i + j]) break; with
    [n] = limit - j and d = &data[i] - dist. *)
Fixpoint match_len (n : nat) (data : list Z) (i dist j : Z) : option Z :=
  match n with
  | O => Some j
  | S n' =>
      d ← data.[i - dist + j];
      c ← data.[i + j];
      if d =? c then match_len n' data i dist (j + 1) else Some j
  end.

(** The search over dist, [n] distances left; the answer is
    (found_len, found_dist). *)
Fixpoint search_match (n : nat) (data : list Z) (i limit c1 c2 dist : Z)
    (found_len found_dist : Z) : option (Z * Z) :=
  match n with
  | O => Some (found_len, found_dist)
  | S n' =>
      d0 ← data.[i - dist];
      if negb (d0 =? c1) then
        search_match n' data i limit c1 c2 (dist + 1) found_len found_dist
      else
        d1 ← data.[i - dist + 1];
        if negb (d1 =? c2) then
          search_match n' data i limit c1 c2 (dist + 1) found_len found_dist
        else
          j ← match_len (Z.to_nat (limit - 2)) data i dist 2;
          if found_len <? u32 j then
            if u32 j >=? 64 then Some (u32 j, u32 dist)
            else search_match n' data i limit c1 c2 (dist + 1) (u32 j) (u32 dist)
          else
            search_match n' data i limit c1 c2 (dist + 1) found_len found_dist
  end.

(** One turn of the main loop of [lz77_compress]; a state is (b, i). *)
Definition lz77_step (code_table dist_table data : list Z) (size : Z)
    (s : bitarray * Z) : option (ctl (bitarray * Z) (Z * bitarray)) :=
  let '(b, i) := s in
  if i <? size then
    let window_size := if size <=? 524288 then 32768 else 1024 in
    let limit := if size - i <? 258 then size - i else 258 in
    c1 ← data.[i];
    c2 ← (if limit >? 2 then data.[i + 1] else Some 0);
    '(found_len, found_dist) ←
      search_match (Z.to_nat (Z.min i window_size)) data i limit c1 c2 1 2 0;
    if negb (found_dist =? 0) then
      '(r, b) ← put_lendist code_table dist_table b found_len found_dist;
      if negb (r =? 0) then Some (Done (-1, b))
      else Some (Next (b, i + found_len))
    else
      c ← data.[i];
      '(r, b) ← put_literal code_table b c;
      if negb (r =? 0) then Some (Done (-1, b))
      else Some (Next (b, i + 1))
  else Some (Done (0, b)).

Definition lz77_compress (code_table dist_table : list Z) (b : bitarray)
    (data : list Z) (size : Z) : option (Z * bitarray) :=
  c ← data.[0];
  '(r, b) ← put_literal code_table b c;
  if negb (r =? 0) then Some (-1, b)
  else while (Z.to_nat size + 1) (lz77_step code_table dist_table data size) (b, 1).

(** The two tables that [deflate_compress] builds first, with a status. *)
Definition deflate_tables (code_table dist_table : list Z)
  : option (Z * list Z * list Z) :=
  let symbols := replicate 144 8 ++ replicate 112 9 ++ replicate 24 7
                 ++ replicate 6 8 ++ replicate 2 8 in
  '(r, h) ← huffman_init symbols 288;
  if negb (r =? 0) then Some (1, code_table, dist_table)
  else
    '(r, code_table) ← huffman_table false h code_table (2 * 288);
    if negb (r =? 0) then Some (1, code_table, dist_table)
    else
      let symbols := replicate 32 5 ++ drop 32 (Huffman.symbols h) in
      '(r, h) ← huffman_init symbols 32;
      if negb (r =? 0) then Some (1, code_table, dist_table)
      else
        '(r, dist_table) ← huffman_table false h dist_table (2 * 32);
        Some (if negb (r =? 0) then 1 else 0, code_table, dist_table).

(** (status, data, *size).  [buf] is what malloc returns: no memory, or a
    buffer of *size bytes with arbitrary contents. *)
Definition deflate_compress (code_table dist_table : list Z)
    (malloc : option (list Z)) (data : list Z) (size : Z)
  : option (Z * list Z * Z) :=
  if size <? 4 then Some (1, data, size)
  else
    '(r, code_table, dist_table) ← deflate_tables code_table dist_table;
    if negb (r =? 0) then Some (1, data, size)
    else
      match malloc with
      | None => Some (1, data, size)
      | Some buf =>
          let b := bitarray_init buf (Some 0) size in
          '(_, b) ← bitarray_shove client b 1 1;
          '(_, b) ← bitarray_shove client b 2 1;
          '(r, b) ← lz77_compress code_table dist_table b data size;
          if negb (r =? 0) then Some (1, data, size)
          else
            t1 ← code_table.[2 * 256 + 0];
            t2 ← code_table.[2 * 256 + 1];
            '(_, b) ← bitarray_shove client b t1 t2;
            '(r, written, b) ← bitarray_written client b;
            if negb (r =? 0) || (written >? size - 1) then Some (1, data, size)
            else
              Some (0, take (Z.to_nat written) (mem b)
                         ++ drop (Z.to_nat written) data, written)
      end.
End Deflate.

(** ** The static trees *)

Definition fixed_code_lens : list Z := [0; 0; 0; 0; 0; 0; 0; 24; 152; 112; 0; 0; 0; 0; 0; 0].

(** The tables and trees that both programs compute, as numbers. *)
Definition static_tables : Z * list Z * list Z :=
  Eval vm_compute in default (1, [], []) (deflate_tables (replicate 576 0) (replicate 64 0)).
Definition static_trees : Z * huffman * huffman :=
  Eval vm_compute in default (1, Huffman [] [] 0, Huffman [] [] 0) inflate_init.

Definition static_code_table : list Z := static_tables.1.2.
Definition static_dist_table : list Z := static_tables.2.
Definition static_code : huffman := static_trees.1.2.
Definition static_dist : huffman := static_trees.2.

Lemma inflate_init_static : inflate_init = Some (0, static_code, static_dist).
Proof. vm_compute. reflexivity. Qed.


Lemma deflate_tables_static ct dt :
  length ct = 576%nat → length dt = 64%nat →
  deflate_tables ct dt = Some (0, static_code_table, static_dist_table).
Proof.
  intros Hc Hd. unfold deflate_tables.
  destruct (huffman_init _ 288) as [[r h]|] eqn:Hh; [|by vm_compute in Hh].
  assert (r = 0) as -> by (vm_compute in Hh; congruence). cbn [mbind option_bind].
  rewrite (huffman_table_cleared h ct) by lia. rewrite Hc.
  injection (eq_trans (eq_sym Hh) ltac:(vm_compute; reflexivity)) as ->.
  cbn [negb Z.eqb].
  destruct (huffman_table false _ (replicate 576 0) _) as [[r t]|] eqn:Ht;
    [|by vm_compute in Ht].
  injection (eq_trans (eq_sym Ht) ltac:(vm_compute; reflexivity)) as -> ->.
  cbn [mbind option_bind negb Z.eqb].
  destruct (huffman_init (replicate 32 5 ++ _) 32) as [[r h']|] eqn:Hh'; [|by vm_compute in Hh'].
  assert (r = 0) as -> by (vm_compute in Hh'; congruence). cbn [mbind option_bind].
  rewrite (huffman_table_cleared h' dt) by lia. rewrite Hd.
  injection (eq_trans (eq_sym Hh') ltac:(vm_compute; reflexivity)) as ->.
  vm_compute. reflexivity.
Qed.

(** ** Codes of symbols and tokens *)

(** The bits of entry [s] of a table. *)
Definition sym_bits (table : list Z) (s : Z) : list bool :=
  bits_of (Z.to_nat (default 0 (table.[2 * s]))) (default 0 (table.[2 * s + 1])).

(** Entry [s] holds a code word that the tree [h] knows. *)
Definition sym_check (h : huffman) (table : list Z) (s : Z) : bool :=
  match table.[2 * s], table.[2 * s + 1] with
  | Some len, Some code =>
      let k := Z.to_nat len in
      let j := of_bits (reverse (bits_of k code)) - base (lengths h) k in
      bool_decide (1 ≤ len ≤ 15 ∧ 0 ≤ j < count (lengths h) k ∧
        (symbols h).[offset (lengths h) k + j] = Some s ∧
        code_bits (lengths h) k j = bits_of k code)
  | _, _ => false
  end.

Lemma static_code_check : all_below 288 (sym_check static_code static_code_table) = true.
Proof. vm_compute. reflexivity. Qed.

Lemma static_dist_check : all_below 30 (sym_check static_dist static_dist_table) = true.
Proof. vm_compute. reflexivity. Qed.

Definition kraft_check (lens : list Z) : bool :=
  bool_decide (length lens = 16%nat) &&
  forallb (λ k, bool_decide (0 ≤ count lens k ∧ base lens k + count lens k ≤ 2 ^ Z.of_nat k))
    (seq 0 16).

Lemma kraft_check_ok lens : kraft_check lens = true → kraft lens.
Proof.
  unfold kraft_check. intros [Hl Hk]%andb_prop. split; [by apply bool_decide_eq_true_1 in Hl|].
  intros k Hk15. rewrite forallb_forall in Hk.
  specialize (Hk k ltac:(apply in_seq; lia)). by apply bool_decide_eq_true_1 in Hk.
Qed.

Lemma sym_check_fetch client h table s b rest :
  kraft_check (lengths h) = true → sym_check h table s = true → 0 ≤ s < 2 ^ 28 →
  reads b (sym_bits table s ++ rest) →
  ∃ b', huffman_fetch client h b = Some (s, b') ∧ reads b' rest.
Proof.
  intros Hk%kraft_check_ok Hc Hs. unfold sym_check, sym_bits in *.
  destruct (table.[2 * s]) as [len|]; [|done].
  destruct (table.[2 * s + 1]) as [code|]; [|done]. cbn [from_option]; unfold id.
  apply bool_decide_eq_true_1 in Hc as (Hlen & Hj & Hsym & Hbits).
  rewrite <- Hbits. intros Hb.
  destruct (huffman_fetch_code client h Hk (Z.to_nat len) _ s rest ltac:(lia) Hj Hsym b Hb)
    as (b' & Hf & Hr).
  exists b'. split; [|done]. rewrite Hf. do 2 f_equal. unfold swrap.
  change (2 ^ (32 - 1)) with (2 ^ 31). rewrite Z.mod_small by lia. lia.
Qed.

Lemma fetch_code client s b rest :
  0 ≤ s < 288 → reads b (sym_bits static_code_table s ++ rest) →
  ∃ b', huffman_fetch client static_code b = Some (s, b') ∧ reads b' rest.
Proof.
  intros Hs. apply sym_check_fetch; [vm_compute; reflexivity| |lia].
  exact (all_below_spec 288 _ static_code_check s Hs).
Qed.

Lemma fetch_dist client s b rest :
  0 ≤ s < 30 → reads b (sym_bits static_dist_table s ++ rest) →
  ∃ b', huffman_fetch client static_dist b = Some (s, b') ∧ reads b' rest.
Proof.
  intros Hs. apply sym_check_fetch; [vm_compute; reflexivity| |lia].
  exact (all_below_spec 30 _ static_dist_check s Hs).
Qed.

(** A table entry that a write finds. *)
Lemma sym_check_shove client h table s b bs :
  sym_check h table s = true → writes b bs →
  ∃ t1 t2 r b', table.[2 * s] = Some t1 ∧ table.[2 * s + 1] = Some t2 ∧
    bitarray_shove client b t1 t2 = Some (r, b') ∧ length (mem b') = length (mem b) ∧
    (r = 0 ∧ writes b' (bs ++ sym_bits table s) ∨
     r = -1 ∧ overflowed b' (length (mem b))).
Proof.
  intros Hc Hw. unfold sym_check, sym_bits in *.
  destruct (table.[2 * s]) as [len|]; [|done].
  destruct (table.[2 * s + 1]) as [code|]; [|done]. cbn [from_option]; unfold id.
  apply bool_decide_eq_true_1 in Hc as (Hlen & _).
  destruct (shove_spec client b bs (Z.to_nat len) code Hw) as (r & b' & Hs & Hm & Hcase).
  rewrite Z2Nat.id in Hs by lia. exists len, code, r, b'.
  do 4 (split; [done|]).
  destruct Hcase as [(_ & ? & ?)|(_ & ? & ?)]; [left|right]; done.
Qed.

(** The index of a length or a distance, and its bits. *)
Definition code_index (codes : list bit_code) (x : Z) : Z := default (-1) (find_code codes x).

Definition index_bits (codes : list bit_code) (table : list Z) (first x : Z) : list bool :=
  let i := code_index codes x in
  let c := default (0, 0) (codes.[i]) in
  sym_bits table (first + i) ++ bits_of (Z.to_nat (extra c)) (x - value c).

Definition index_check (codes codes' : list bit_code) (n : Z) (x : Z) : bool :=
  match find_code codes x with
  | None => false
  | Some i =>
      match codes.[i], codes'.[i] with
      | Some c, Some c' =>
          bool_decide (c = c' ∧ 0 ≤ i < n ∧ 0 ≤ extra c ≤ 13 ∧ value c ≤ x ∧
                       x - value c < 2 ^ extra c)
      | _, _ => false
      end
  end.

Definition in_range_check (lo : Z) (P : Z → bool) (x : Z) : bool := (x <? lo) || P x.

Lemma length_index_check :
  all_below 259 (in_range_check 3 (index_check deflate_length_codes length_codes 29)) = true.
Proof. vm_compute. reflexivity. Qed.

Lemma dist_index_check :
  all_below 32769 (in_range_check 1 (index_check deflate_distance_codes distance_codes 30)) = true.
Proof. vm_compute. reflexivity. Qed.

Lemma length_index x :
  3 ≤ x ≤ 258 → index_check deflate_length_codes length_codes 29 x = true.
Proof.
  intros Hx. pose proof (all_below_spec 259 _ length_index_check x ltac:(lia)) as H.
  unfold in_range_check in H. by rewrite (proj2 (Z.ltb_ge x 3)) in H by lia.
Qed.

Lemma dist_index x :
  1 ≤ x ≤ 32768 → index_check deflate_distance_codes distance_codes 30 x = true.
Proof.
  intros Hx. pose proof (all_below_spec 32769 _ dist_index_check x ltac:(lia)) as H.
  unfold in_range_check in H. by rewrite (proj2 (Z.ltb_ge x 1)) in H by lia.
Qed.


(** Writing an index with its extra bits. *)
Lemma put_code_spec client codes codes' n h table first x b bs :
  index_check codes codes' n x = true →
  (∀ s, first ≤ s < first + n → sym_check h table s = true) →
  writes b bs →
  ∃ r b', put_code client codes table first b x = Some (r, b') ∧
    length (mem b') = length (mem b) ∧
    (r = 0 ∧ writes b' (bs ++ index_bits codes table first x) ∨ r = -1).
Proof.
  unfold index_check, put_code, index_bits, code_index. intros Hi Hs Hw.
  destruct (find_code codes x) as [i|]; [|done]. cbn [from_option]; unfold id.
  cbn [mbind option_bind]. destruct (codes.[i]) as [c|]; [|done].
  destruct (codes'.[i]) as [c'|]; [|done]. cbn [from_option mbind option_bind].
  apply bool_decide_eq_true_1 in Hi as (_ & Hi & He & Hv & Hlt).
  destruct (sym_check_shove client h table (first + i) b bs (Hs (first + i) ltac:(lia)) Hw)
    as (t1 & t2 & r & b' & H1 & H2 & H3 & Hm & Hcase).
  replace ((first + i) * 2 + 0) with (2 * (first + i)) by lia.
  replace ((first + i) * 2 + 1) with (2 * (first + i) + 1) by lia.
  rewrite H1, H2. cbn [mbind option_bind]. rewrite H3. cbn [mbind option_bind].
  destruct Hcase as [[-> Hw']|[-> _]]; [|by exists (-1), b'; eauto].
  cbn [negb Z.eqb]. destruct (Z.eqb_spec (extra c) 0) as [Hz|Hz].
  { exists 0, b'. split; [done|split; [done|left]]. split; [done|].
    rewrite Hz. change (bits_of (Z.to_nat 0) _) with (@nil bool). by rewrite app_nil_r. }
  assert (2 ^ extra c ≤ 2 ^ 13) by (apply Z.pow_le_mono_r; lia).
  rewrite (wrap_small 32 (x - value c)) by lia.
  destruct (shove_spec client b' _ (Z.to_nat (extra c)) (x - value c) Hw')
    as (r2 & b2 & Hs2 & Hm2 & Hcase2).
  rewrite Z2Nat.id in Hs2 by lia. rewrite Hs2. cbn [mbind option_bind].
  destruct Hcase2 as [(_ & -> & Hw2)|(_ & -> & _)]; cbn [negb Z.eqb].
  - exists 0, b2. split; [done|split; [lia|left]]. split; [done|]. by rewrite app_assoc.
  - exists (-1), b2. split; [done|split; [lia|by right]].
Qed.

(** ** Tokens *)

Inductive token := Lit (c : Z) | Match (len dist : Z).

Definition token_bits (t : token) : list bool :=
  match t with
  | Lit c => sym_bits static_code_table c
  | Match len dist =>
      index_bits deflate_length_codes static_code_table 257 len
      ++ index_bits deflate_distance_codes static_dist_table 0 dist
  end.

Definition token_len (t : token) : Z :=
  match t with Lit _ => 1 | Match len _ => len end.

(** The token describes [data] at offset [i]. *)
Definition token_at (data : list Z) (i : Z) (t : token) : Prop :=
  i + token_len t ≤ Z.of_nat (length data) ∧
  match t with
  | Lit c => data.[i] = Some c
  | Match len dist =>
      3 ≤ len ≤ 258 ∧ 1 ≤ dist ≤ 32768 ∧ dist ≤ i ∧
      ∀ k, 0 ≤ k < len → data.[i - dist + k] = data.[i + k]
  end.

(** The tokens describe [data] from offset [i] to offset [j]. *)
Inductive tokens_at (data : list Z) : Z → list token → Z → Prop :=
| tokens_nil i : tokens_at data i [] i
| tokens_cons i t ts j :
    token_at data i t → tokens_at data (i + token_len t) ts j →
    tokens_at data i (t :: ts) j.

Lemma tokens_at_snoc data i ts j t :
  tokens_at data i ts j → token_at data j t →
  tokens_at data i (ts ++ [t]) (j + token_len t).
Proof. induction 1; intros Ht; repeat (constructor; eauto). Qed.

Lemma token_len_pos data i t : token_at data i t → 1 ≤ token_len t.
Proof. destruct t; simpl; [lia|]. intros (_ & ? & _). lia. Qed.

Lemma tokens_at_le data i ts j :
  tokens_at data i ts j → i + Z.of_nat (length ts) ≤ j.
Proof.
  induction 1 as [|i t ts j Ht _ IH]; simpl; [lia|].
  apply token_len_pos in Ht. lia.
Qed.

Section Encoder.
Context (client : nat → bitarray → option (Z * bitarray)).
Context (data : list Z) (Hbytes : Forall is_byte data).
Let size := Z.of_nat (length data).

Lemma data_rd i : 0 ≤ i < size → ∃ c, data.[i] = Some c ∧ is_byte c.
Proof.
  intros Hi. destruct (rd_is_Some data i Hi) as [c Hc]. exists c. split; [done|].
  apply rd_Some in Hc as [_ Hc]. exact (proj1 (Forall_lookup _ _) Hbytes _ _ Hc).
Qed.

Lemma match_len_spec n i dist j :
  1 ≤ dist ≤ i → 0 ≤ j → i + j + Z.of_nat n ≤ size →
  ∃ j', match_len n data i dist j = Some j' ∧ j ≤ j' ≤ j + Z.of_nat n ∧
    ∀ k, j ≤ k < j' → data.[i - dist + k] = data.[i + k].
Proof.
  intros Hd. revert j. induction n as [|n IH]; intros j Hj Hn; cbn [match_len].
  { exists j. split; [done|split; [lia|]]. intros; lia. }
  destruct (data_rd (i - dist + j) ltac:(lia)) as (d & Hd1 & _).
  destruct (data_rd (i + j) ltac:(lia)) as (c & Hc & _).
  rewrite Hd1, Hc. cbn [mbind option_bind].
  destruct (Z.eqb_spec d c) as [->|Hne].
  - destruct (IH (j + 1) ltac:(lia) ltac:(lia)) as (j' & -> & Hj' & Hk).
    exists j'. split; [done|split; [lia|]]. intros k Hkj.
    destruct (decide (k = j)) as [->|]; [by rewrite Hd1, Hc|apply Hk; lia].
  - exists j. split; [done|split; [lia|]]. intros; lia.
Qed.

(** What the search has found so far. *)
Definition found_ok (i fl fd : Z) : Prop :=
  fl = 2 ∧ fd = 0 ∨ token_at data i (Match fl fd).

Lemma search_match_spec n i limit c1 c2 dist fl fd :
  1 ≤ i → 1 ≤ limit ≤ 258 → i + limit ≤ size →
  data.[i] = Some c1 → (2 < limit → data.[i + 1] = Some c2) →
  1 ≤ dist → dist + Z.of_nat n ≤ Z.min i 32768 + 1 → found_ok i fl fd →
  ∃ fl' fd', search_match n data i limit c1 c2 dist fl fd = Some (fl', fd') ∧
    found_ok i fl' fd'.
Proof.
  intros Hi Hlim Hsz Hc1 Hc2. revert dist fl fd.
  induction n as [|n IH]; intros dist fl fd Hd Hn Hok; cbn [search_match].
  { by exists fl, fd. }
  destruct (data_rd (i - dist) ltac:(lia)) as (d0 & Hd0 & _).
  rewrite Hd0. cbn [mbind option_bind].
  destruct (Z.eqb_spec d0 c1) as [->|]; cbn [negb]; [|apply IH; [lia|lia|done]].
  destruct (data_rd (i - dist + 1) ltac:(lia)) as (d1 & Hd1 & _).
  rewrite Hd1. cbn [mbind option_bind].
  destruct (Z.eqb_spec d1 c2) as [->|]; cbn [negb]; [|apply IH; [lia|lia|done]].
  assert (Hj : ∃ j, match_len (Z.to_nat (limit - 2)) data i dist 2 = Some j ∧
    2 ≤ j ≤ Z.max 2 limit ∧ ∀ k, 2 ≤ k < j → data.[i - dist + k] = data.[i + k]).
  { destruct (Z.le_gt_cases limit 2).
    - replace (Z.to_nat (limit - 2)) with 0%nat by lia.
      exists 2. split; [done|split; [lia|]]. intros; lia.
    - destruct (match_len_spec (Z.to_nat (limit - 2)) i dist 2) as (j & Hj & Hr & Hk);
        [lia|lia|lia|]. exists j. split; [done|split; [lia|done]]. }
  destruct Hj as (j & -> & Hjr & Hjk). cbn [mbind option_bind].
  rewrite !(wrap_small 32 j), !(wrap_small 32 dist) by lia.
  destruct (Z.ltb_spec fl j) as [Hlt|Hge]; [|apply IH; [lia|lia|done]].
  assert (Hfl : 2 ≤ fl) by (destruct Hok as [[-> _]|(_ & ? & _)]; lia).
  assert (Hnew : found_ok i j dist).
  { right. unfold token_at, token_len. fold size.
    split; [lia|]. split; [lia|]. split; [lia|]. split; [lia|].
    intros k Hk. destruct (decide (k = 0)) as [->|]; [by rewrite !Z.add_0_r, Hd0|].
    destruct (decide (k = 1)) as [->|]; [by rewrite Hd1, Hc2 by lia|].
    apply Hjk. lia. }
  destruct (j >=? 64); [by exists j, dist|]. apply IH; [lia|lia|done].
Qed.

Lemma put_literal_spec b bs c :
  is_byte c → writes b bs →
  ∃ r b', put_literal client static_code_table b c = Some (r, b') ∧
    length (mem b') = length (mem b) ∧
    (r = 0 ∧ writes b' (bs ++ token_bits (Lit c)) ∨ r = -1).
Proof.
  intros Hc Hw. unfold put_literal, token_bits.
  assert (Z.land c 0xFF = c) as ->
    by (change 0xFF with (2 ^ 8 - 1); rewrite land_ones_mod by lia; by apply Z.mod_small).
  destruct (sym_check_shove client static_code static_code_table c b bs)
    as (t1 & t2 & r & b' & H1 & H2 & H3 & Hm & Hcase); [|done|].
  { apply (all_below_spec 288 _ static_code_check). unfold is_byte in Hc. lia. }
  rewrite (Z.mul_comm c 2), Z.add_0_r, H1, H2. cbn [mbind option_bind]. rewrite H3.
  exists r, b'. split; [done|split; [done|]].
  destruct Hcase as [?|[? _]]; [by left|by right].
Qed.

Lemma put_lendist_spec b bs i len dist :
  token_at data i (Match len dist) → writes b bs →
  ∃ r b', put_lendist client static_code_table static_dist_table b len dist = Some (r, b') ∧
    length (mem b') = length (mem b) ∧
    (r = 0 ∧ writes b' (bs ++ token_bits (Match len dist)) ∨ r = -1).
Proof.
  intros (_ & Hl & Hd & _) Hw. unfold put_lendist, token_bits.
  rewrite (proj2 (Z.ltb_ge len 3)), (proj2 (Z.ltb_ge dist 1)) by lia.
  rewrite !Z.gtb_ltb, (proj2 (Z.ltb_ge 258 len)), (proj2 (Z.ltb_ge 32768 dist)) by lia.
  cbn [orb].
  destruct (put_code_spec client deflate_length_codes length_codes 29 static_code
    static_code_table 257 len b bs (length_index len ltac:(lia)))
    as (r & b1 & -> & Hm1 & Hcase); [|done|].
  { intros s Hs. apply (all_below_spec 288 _ static_code_check). lia. }
  cbn [mbind option_bind]. destruct Hcase as [[-> Hw1]| ->];
    [|by exists (-1), b1; eauto]. cbn [negb Z.eqb].
  destruct (put_code_spec client deflate_distance_codes distance_codes 30 static_dist
    static_dist_table 0 dist b1 (bs ++ index_bits deflate_length_codes static_code_table 257 len)
    (dist_index dist ltac:(lia))) as (r & b2 & -> & Hm2 & Hcase); [|done|].
  { intros s Hs. apply (all_below_spec 30 _ static_dist_check). lia. }
  exists r, b2. split; [done|split; [lia|]].
  destruct Hcase as [[-> Hw2]| ->]; [left|by right]. by rewrite app_assoc.
Qed.
End Encoder.
