(* ===== verification/Db.v ===== *)
(** Database files: boot/init/db.c, the part that feeds the decoder.

    A database is an array of blocks of 65536 bytes, each with a header of 32
    bytes whose last word is its number.  [db_callback] is the read callback
    that hands one block after the other to the bit array.  Its two static
    variables, [db_offset] and [db_callback_state], are the number that
    [client_ptr] carries. *)

From S2P Require Import Prelude Bitarray.

(** misc/blob.h *)
Definition B8 (a : list Z) (b c : Z) : option Z :=
  x ← a.[b]; Some (Z.shiftl (Z.land x 0xFF) c).

Definition LE32 (a : list Z) (i : Z) : option Z :=
  b0 ← B8 a i 0; b1 ← B8 a (i + 1) 8; b2 ← B8 a (i + 2) 16; b3 ← B8 a (i + 3) 24;
  Some (Z.lor (Z.lor (Z.lor b0 b1) b2) b3).

(** The static variables as one number. *)
Definition db_static (db_offset db_callback_state : Z) : nat :=
  Z.to_nat (db_offset * 3 + (db_callback_state + 1)).

Definition db_offset (k : nat) : Z := Z.of_nat k / 3.
Definition db_callback_state (k : nat) : Z := Z.of_nat k mod 3 - 1.

Definition block_data : Z := 65504.

Section Callback.
(** The blocks in [db_array]; [db_count] is their number. *)
Context (db_array : list (list Z)).

Definition db_count : Z := Z.of_nat (length db_array).

(** The state after the check of the numbers of two blocks in a row. *)
Definition checked_state (q st : Z) : option Z :=
  if (st =? 1) && (q >? 0) then
    m1 ← db_array.[q - 1];
    m2 ← db_array.[q - 0];
    n1 ← LE32 m1 28;
    n2 ← LE32 m2 28;
    Some (if negb (u64 (n1 + 1) =? n2) then -1 else st)
  else Some st.

Definition db_callback (k : nat) (b : bitarray) : option (Z * bitarray) :=
  let offset := db_offset k in
  let q := swrap 32 (offset / block_data) in
  let r := swrap 32 (offset mod block_data) in
  if q >=? db_count then Some (-1, b)
  else
    st ← checked_state q (db_callback_state k);
    if st <? 0 then
      Some (-1, bitarray_callback b (client_ptr (db_static offset st)))
    else
      m ← db_array.[q];
      let sz := block_data - r in
      Some (0, Bitarray m (Some (32 + r)) sz (state0 b) (state1 b) (written b)
                 (client_ptr (db_static (u64 (offset + sz)) st))).

(** The invariant of the static variables: the offset is at most the end. *)
Definition db_inv (k : nat) : Prop := db_offset k ≤ block_data * db_count.

Lemma static_offset offset st :
  0 ≤ offset → -1 ≤ st ≤ 1 → db_offset (db_static offset st) = offset.
Proof.
  intros Ho Hs. unfold db_offset, db_static. rewrite Z2Nat.id by lia.
  rewrite Z.add_comm, Z.div_add, Z.div_small by lia. lia.
Qed.

Lemma LE32_defined m i :
  0 ≤ i → i + 3 < Z.of_nat (length m) → ∃ n, LE32 m i = Some n.
Proof.
  intros Hi Hm. unfold LE32, B8.
  destruct (rd_is_Some m i ltac:(lia)) as [? ->], (rd_is_Some m (i + 1) ltac:(lia)) as [? ->],
    (rd_is_Some m (i + 2) ltac:(lia)) as [? ->], (rd_is_Some m (i + 3) ltac:(lia)) as [? ->].
  cbn [mbind option_bind]. by eexists.
Qed.

Section Blocks.
Context (Hblocks : Forall (λ m, length m = Z.to_nat 65536) db_array).
Context (Hcount : db_count ≤ 1000).

Lemma block_at q : 0 ≤ q < db_count →
  ∃ m, db_array.[q] = Some m ∧ length m = Z.to_nat 65536.
Proof.
  intros Hq. destruct (rd_is_Some db_array q Hq) as [m Hm]. exists m. split; [done|].
  apply rd_Some in Hm as [_ Hm]. by apply (proj1 (Forall_lookup _ _) Hblocks _ _ Hm).
Qed.

Lemma checked_state_spec q st :
  0 ≤ q < db_count → -1 ≤ st ≤ 1 →
  ∃ st', checked_state q st = Some st' ∧ -1 ≤ st' ≤ 1.
Proof.
  intros Hq Hst. unfold checked_state.
  destruct ((st =? 1) && (q >? 0)) eqn:Hc; [|by eexists].
  apply andb_true_iff in Hc as [_ Hc]. rewrite Z.gtb_lt in Hc.
  destruct (block_at (q - 1) ltac:(lia)) as (m1 & -> & H1).
  destruct (block_at (q - 0) ltac:(lia)) as (m2 & -> & H2). cbn [mbind option_bind].
  destruct (LE32_defined m1 28 ltac:(lia) ltac:(lia)) as [n1 ->].
  destruct (LE32_defined m2 28 ltac:(lia) ltac:(lia)) as [n2 ->]. cbn [mbind option_bind].
  case_match; eexists; (split; [done|lia]).
Qed.

(** The callback keeps to its contract with the bit array. *)
Lemma db_callback_hands_over : hands_over db_callback db_inv.
Proof.
  intros k b Hk Hz (HI & Hs & Hsz & Hd). specialize (HI k Hk). unfold db_inv in *.
  assert (Ho : 0 ≤ db_offset k) by (apply Z.div_pos; lia).
  pose proof (Z.mod_pos_bound (Z.of_nat k) 3 ltac:(lia)) as Hst.
  pose proof (Z.mod_pos_bound (db_offset k) block_data ltac:(done)) as Hr.
  pose proof (Z.div_mod (db_offset k) block_data ltac:(done)) as Hdm.
  unfold db_callback, block_data in *.
  assert (Hq : 0 ≤ db_offset k / 65504 ≤ 1000).
  { split; [apply Z.div_pos; lia|]. lia. }
  assert (Hsw : ∀ z, 0 ≤ z < 2 ^ 31 → swrap 32 z = z).
  { intros z Hz'. unfold swrap. rewrite Z.mod_small; lia. }
  rewrite !Hsw by lia. rewrite Z.geb_leb.
  destruct (Z.leb_spec db_count (db_offset k / 65504)) as [Hge|Hlt].
  { exists (-1), b. split; [done|]. split; [|by split].
    intros k' Hk'. rewrite Hk in Hk'. by injection Hk' as <-. }
  destruct (checked_state_spec (db_offset k / 65504) (db_callback_state k))
    as (st & -> & Hst'); [lia|unfold db_callback_state; lia|].
  cbn [mbind option_bind]. destruct (Z.ltb_spec st 0).
  { eexists _, _. split; [done|]. split; [|by split].
    intros k' [= <-]. by rewrite static_offset. }
  destruct (block_at (db_offset k / 65504) ltac:(lia)) as (m & -> & Hm).
  cbn [mbind option_bind]. eexists _, _. split; [done|]. split.
  - intros k' [= <-]. rewrite (wrap_small 64) by lia. rewrite static_offset by lia. lia.
  - cbn [state0 size data mem]. split; [done|]. split; [lia|]. intros _.
    exists (Z.to_nat (32 + db_offset k mod 65504)). split; [f_equal; lia|]. lia.
Qed.
End Blocks.
End Callback.
