(* ===== verification/Zip.v ===== *)
(** Compression end to end: the encoder of tools/dy-zip/deflate.c against the
    decoder of kernel/lib/inflate.c, and the decoder on arbitrary streams. *)

From S2P Require Import Prelude Bitarray Db Huffman Inflate Deflate.

(** ** The encoder *)

Section Encoder.
Context (client : nat → bitarray → option (Z * bitarray)).
Context (data : list Z) (Hbytes : Forall is_byte data).
Context (L : nat) (bs : list bool).
Let size := Z.of_nat (length data).

(** The array holds the tokens of data[0 .. i). *)
Definition encoded (i : Z) (b : bitarray) : Prop :=
  length (mem b) = L ∧
  ∃ ts, tokens_at data 0 ts i ∧ writes b (bs ++ (ts ≫= token_bits)).

Lemma encoded_snoc i b' ts t :
  tokens_at data 0 ts i → token_at data i t → length (mem b') = L →
  writes b' ((bs ++ (ts ≫= token_bits)) ++ token_bits t) →
  encoded (i + token_len t) b'.
Proof.
  intros Hts Ht Hm Hw. split; [done|]. exists (ts ++ [t]).
  split; [by apply tokens_at_snoc|].
  rewrite bind_app, app_assoc. cbn [mbind list_bind]. by rewrite app_nil_r.
Qed.

Definition lz77_inv (s : bitarray * Z) : Prop := 1 ≤ s.2 ≤ size ∧ encoded s.2 s.1.

Definition lz77_post (r : Z * bitarray) : Prop :=
  r.1 = 0 ∧ encoded size r.2 ∨ r.1 = -1.

Lemma lz77_step_ok s :
  lz77_inv s →
  ∃ c, lz77_step client static_code_table static_dist_table data size s = Some c ∧
    match c with
    | Next s' => lz77_inv s' ∧ (Z.to_nat (size - s'.2) < Z.to_nat (size - s.2))%nat
    | Done r => lz77_post r
    end.
Proof.
  destruct s as [b i]. intros [Hi (HL & ts & Hts & Hw)]. cbn [fst snd] in *.
  unfold lz77_step. destruct (Z.ltb_spec i size) as [Hlt|Hge].
  2:{ assert (i = size) as -> by lia. eexists; split; [done|]. left.
      split; [done|]. split; [done|]. by exists ts. }
  cbv zeta. set (limit := if size - i <? 258 then size - i else 258).
  assert (Hlim : limit = Z.min (size - i) 258)
    by (unfold limit; destruct (Z.ltb_spec (size - i) 258); lia).
  set (ws := if size <=? 524288 then 32768 else 1024).
  assert (Hws : ws = 32768 ∨ ws = 1024) by (unfold ws; case_match; lia).
  destruct (data_rd data Hbytes i ltac:(lia)) as (c1 & Hc1 & Hb1).
  rewrite Hc1. cbn [mbind option_bind].
  assert (Hc2 : ∃ c2, (if limit >? 2 then data.[i + 1] else Some 0) = Some c2 ∧
    (2 < limit → data.[i + 1] = Some c2)).
  { rewrite Z.gtb_ltb. destruct (Z.ltb_spec 2 limit); [|exists 0; split; [done|lia]].
    destruct (data_rd data Hbytes (i + 1) ltac:(lia)) as (c2 & Hc2 & _).
    by exists c2. }
  destruct Hc2 as (c2 & -> & Hc2). cbn [mbind option_bind].
  destruct (search_match_spec data Hbytes (Z.to_nat (Z.min i ws)) i limit c1 c2 1 2 0)
    as (fl & fd & -> & Hok); try done; try lia; [by left|].
  cbn [mbind option_bind].
  destruct Hok as [[-> ->]|Hmatch]; cbn [negb Z.eqb].
  - destruct (put_literal_spec client data b _ c1 Hb1 Hw)
      as (r & b' & -> & Hm & [[-> Hw']| ->]); cbn [mbind option_bind negb Z.eqb];
      (eexists; split; [done|]); [|by right].
    split; [|cbn [snd]; lia]. split; [cbn [snd]; lia|].
    apply (encoded_snoc i b' ts (Lit c1)); [done| |lia|done].
    split; [simpl; lia|done].
  - assert (Hd : 1 ≤ fd) by (destruct Hmatch as (_ & _ & ? & _); lia).
    assert (Hl : 3 ≤ fl ∧ i + fl ≤ size) by (destruct Hmatch as (? & ? & _); simpl in *; lia).
    rewrite (proj2 (Z.eqb_neq fd 0)) by lia. cbn [negb].
    destruct (put_lendist_spec client data b _ i fl fd Hmatch Hw)
      as (r & b' & -> & Hm & [[-> Hw']| ->]); cbn [mbind option_bind negb Z.eqb];
      (eexists; split; [done|]); [|by right].
    split; [|cbn [snd]; lia]. split; [cbn [snd]; lia|].
    apply (encoded_snoc i b' ts (Match fl fd)); [done|done|lia|done].
Qed.

Lemma lz77_compress_ok b :
  1 ≤ size → writes b bs → length (mem b) = L →
  ∃ r, lz77_compress client static_code_table static_dist_table b data size = Some r ∧
    lz77_post r.
Proof.
  intros Hs Hw HL. unfold lz77_compress.
  destruct (data_rd data Hbytes 0 ltac:(lia)) as (c & Hc & Hb).
  rewrite Hc. cbn [mbind option_bind].
  destruct (put_literal_spec client data b _ c Hb Hw)
    as (r & b' & -> & Hm & [[-> Hw']| ->]); cbn [mbind option_bind negb Z.eqb];
    [|by eexists; split; [done|right]].
  apply (while_total lz77_inv (λ s, Z.to_nat (size - s.2))).
  - apply lz77_step_ok.
  - split; [cbn [snd]; lia|].
    apply (encoded_snoc 0 b' [] (Lit c)); [constructor| |cbn [fst]; lia|].
    + split; [simpl; lia|done].
    + simpl. by rewrite app_nil_r.
  - cbn [snd]. lia.
Qed.
End Encoder.

(** ** The decoder on an encoded stream *)

Section Decoder.
Context (client : nat → bitarray → option (Z * bitarray)).

(** Reading an index and its extra bits. *)
Lemma fetch_index codes codes' h table n first x b rest :
  index_check codes codes' n x = true →
  (∀ s rest b, first ≤ s < first + n → reads b (sym_bits table s ++ rest) →
     ∃ b', huffman_fetch client h b = Some (s, b') ∧ reads b' rest) →
  reads b (index_bits codes table first x ++ rest) →
  ∃ i c b1 b2, huffman_fetch client h b = Some (first + i, b1) ∧ 0 ≤ i < n ∧
    codes'.[i] = Some c ∧
    bitarray_fetch client b1 (extra c) = Some (x - value c, b2) ∧
    value c ≤ x ∧ reads b2 rest.
Proof.
  unfold index_check, index_bits, code_index. intros Hi Hf.
  destruct (find_code codes x) as [i|]; [|done]. cbn [from_option]; unfold id.
  destruct (codes.[i]) as [c|]; [|done].
  destruct (codes'.[i]) as [c'|] eqn:Hc'; [|done]. cbn [from_option].
  apply bool_decide_eq_true_1 in Hi as (-> & Hi & He & Hv & Hlt).
  rewrite <- app_assoc. intros Hb.
  destruct (Hf (first + i) _ b ltac:(lia) Hb) as (b1 & Hf1 & Hb1).
  destruct (fetch_spec client b1 _ (Z.to_nat (extra c')) Hb1 ltac:(lia))
    as ([v b2] & Hf2 & Hpost).
  rewrite Z2Nat.id in Hf2 by lia. unfold fetch_post in Hpost.
  rewrite length_app, bits_of_length in Hpost.
  destruct Hpost as [(_ & Hv1 & Hr)|(Hbad & _)]; [|lia]. cbn [fst snd] in *.
  rewrite take_app_length' in Hv1 by (by rewrite bits_of_length).
  rewrite drop_app_length' in Hr by (by rewrite bits_of_length).
  rewrite of_bits_bits_of, Z2Nat.id, Z.mod_small in Hv1 by lia. subst v.
  by exists i, c', b1, b2.
Qed.

(** The copy loop restores a match. *)
Lemma copy_match_ok data (len off : nat) out dist :
  1 ≤ dist ≤ Z.of_nat off → (off + len ≤ length data)%nat →
  length out = length data → take off out = take off data →
  (∀ k, 0 ≤ k < Z.of_nat len →
     data.[Z.of_nat off - dist + k] = data.[Z.of_nat off + k]) →
  ∃ out', copy_match len out (Z.of_nat off) dist = Some out' ∧
    length out' = length data ∧ take (off + len) out' = take (off + len) data.
Proof.
  revert off out. induction len as [|len IH]; intros off out Hd Hl Hlen Ht Hk;
    cbn [copy_match].
  { exists out. rewrite Nat.add_0_r. done. }
  destruct (rd_is_Some data (Z.of_nat off) ltac:(lia)) as [c Hc].
  assert (Hr : out.[Z.of_nat off - dist] = Some c).
  { specialize (Hk 0 ltac:(lia)). rewrite !Z.add_0_r, Hc in Hk.
    apply rd_Some in Hk as [H1 Hk]. apply rd_Some. split; [done|].
    rewrite <- (lookup_take_lt out off), Ht, lookup_take_lt by lia. done. }
  rewrite Hr. cbn [mbind option_bind]. rewrite wr_Some by lia. cbn [mbind option_bind].
  rewrite Nat2Z.id. replace (Z.of_nat off + 1) with (Z.of_nat (S off)) by lia.
  rewrite <- Nat.add_succ_comm. apply IH; [lia|lia|by rewrite length_insert| |].
  - apply rd_Some in Hc as [_ Hc]. rewrite Nat2Z.id in Hc.
    rewrite (take_S_r _ _ c) by (apply list_lookup_insert_eq; lia).
    by rewrite take_insert_ge, (take_S_r data off c), Ht by (done || lia).
  - intros k Hkl. specialize (Hk (k + 1) ltac:(lia)).
    replace (Z.of_nat (S off) - dist + k) with (Z.of_nat off - dist + (k + 1)) by lia.
    by replace (Z.of_nat (S off) + k) with (Z.of_nat off + (k + 1)) by lia.
Qed.

Context (data : list Z) (Hbytes : Forall is_byte data).
Context (Hsize : Z.of_nat (length data) < 2 ^ 63).
Let size := Z.of_nat (length data).

(** The output so far. *)
Definition decoded (off : nat) (out : list Z) : Prop :=
  length out = length data ∧ take off out = take off data.

Lemma inflate_step_ok t (off : nat) b out rest :
  token_at data (Z.of_nat off) t → reads b (token_bits t ++ rest) → decoded off out →
  ∃ b' out', inflate_step client static_code static_dist size (b, out, Z.of_nat off)
      = Some (Next (b', out', Z.of_nat off + token_len t)) ∧
    reads b' rest ∧ decoded (off + Z.to_nat (token_len t)) out'.
Proof.
  intros [Hend Ht] Hb [Hlen Htake]. unfold inflate_step. destruct t as [c|len dist].
  - cbn [token_bits token_len] in *.
    assert (Hc : is_byte c) by (apply rd_Some in Ht as [_ Ht];
      exact (proj1 (Forall_lookup _ _) Hbytes _ _ Ht)). unfold is_byte in Hc.
    destruct (fetch_code client c b rest ltac:(lia) Hb) as (b' & -> & Hb').
    cbn [mbind option_bind]. rewrite (proj2 (Z.eqb_neq c 256)) by lia.
    rewrite (proj2 (Z.ltb_ge c 0)), (proj2 (Z.ltb_lt c 256)) by lia.
    rewrite Z.geb_leb, (proj2 (Z.leb_gt size (Z.of_nat off))) by lia.
    rewrite wrap_small, wr_Some by lia. cbn [mbind option_bind]. rewrite Nat2Z.id.
    do 2 eexists. split; [done|split; [done|]]. split; [by rewrite length_insert|].
    apply rd_Some in Ht as [_ Ht]. rewrite Nat2Z.id in Ht.
    replace (off + Z.to_nat 1)%nat with (S off) by lia.
    rewrite (take_S_r _ _ c) by (apply list_lookup_insert_eq; lia).
    by rewrite take_insert_ge, (take_S_r data off c), Htake by (done || lia).
  - destruct Ht as (Hl & Hd & Hdo & Hk). cbn [token_bits token_len] in *.
    rewrite <- app_assoc in Hb.
    destruct (fetch_index deflate_length_codes length_codes static_code
      static_code_table 29 257 len b
      (index_bits deflate_distance_codes static_dist_table 0 dist ++ rest)
      (length_index len Hl)) as (i & c & b1 & b2 & -> & Hi & Hc & Hf & Hv & Hb2);
      [|done|].
    { intros s rest' b0 Hs. apply fetch_code. lia. }
    cbn [mbind option_bind]. rewrite (proj2 (Z.eqb_neq (257 + i) 256)) by lia.
    rewrite (proj2 (Z.ltb_ge (257 + i) 0)), (proj2 (Z.ltb_ge (257 + i) 256)) by lia.
    rewrite Z.geb_leb, (proj2 (Z.leb_gt 286 (257 + i))) by lia. cbv zeta.
    replace (257 + i - 257) with i by lia. rewrite Hc. cbn [mbind option_bind].
    rewrite Hf. cbn [mbind option_bind].
    rewrite (proj2 (Z.ltb_ge (len - value c) 0)) by lia.
    replace (value c + (len - value c)) with len by lia.
    rewrite (wrap_small 32 len), (wrap_small 64) by lia.
    rewrite Z.gtb_ltb, (proj2 (Z.ltb_ge size _)) by (unfold size; lia).
    destruct (fetch_index deflate_distance_codes distance_codes static_dist
      static_dist_table 30 0 dist b2 rest
      (dist_index dist Hd)) as (i2 & c2 & b3 & b4 & -> & Hi2 & Hc2 & Hf2 & Hv2 & Hb4);
      [|done|].
    { intros s rest' b0 Hs. apply fetch_dist. lia. }
    cbn [mbind option_bind]. rewrite Z.add_0_l.
    rewrite (proj2 (Z.ltb_ge i2 0)), Z.geb_leb, (proj2 (Z.leb_gt 30 i2)) by lia.
    cbn [orb]. rewrite Hc2. cbn [mbind option_bind].
    rewrite Hf2. cbn [mbind option_bind].
    rewrite (proj2 (Z.ltb_ge (dist - value c2) 0)) by lia.
    replace (value c2 + (dist - value c2)) with dist by lia.
    rewrite (wrap_small 32 dist) by lia.
    rewrite Z.gtb_ltb, (proj2 (Z.ltb_ge (Z.of_nat off) dist)) by lia.
    destruct (copy_match_ok data (Z.to_nat len) off out dist)
      as (out' & -> & Hlen' & Htake'); [lia|lia|done|done| |].
    { intros k Hkl. apply Hk. lia. }
    cbn [mbind option_bind]. by do 2 eexists.
Qed.

Lemma tokens_at_inv i ts j :
  tokens_at data i ts j →
  match ts with
  | [] => i = j
  | t :: ts' => token_at data i t ∧ tokens_at data (i + token_len t) ts' j
  end.
Proof. by destruct 1. Qed.

Lemma inflate_step_end off b out rest :
  reads b (sym_bits static_code_table 256 ++ rest) →
  ∃ b', inflate_step client static_code static_dist size (b, out, off)
    = Some (Done (0, b', out, off)).
Proof.
  intros Hb. destruct (fetch_code client 256 b rest ltac:(lia) Hb) as (b' & Hf & _).
  exists b'. unfold inflate_step. by rewrite Hf.
Qed.

Lemma inflate_loop_ok ts (off : nat) b out rest fuel :
  tokens_at data (Z.of_nat off) ts size →
  reads b ((ts ≫= token_bits) ++ sym_bits static_code_table 256 ++ rest) →
  decoded off out → (length ts < fuel)%nat →
  ∃ b', while fuel (inflate_step client static_code static_dist size)
      (b, out, Z.of_nat off) = Some (0, b', data, size).
Proof.
  revert off b out fuel. induction ts as [|t ts IH];
    intros off b out [|fuel] Hts Hb Hout Hfuel; try (simpl in Hfuel; lia);
    [apply tokens_at_inv in Hts as Heq|apply tokens_at_inv in Hts as [Ht Hts']].
  - destruct (inflate_step_end (Z.of_nat off) b out rest Hb) as [b' Hs].
    cbn [while]. rewrite Hs. cbn [mbind option_bind]. exists b'.
    destruct Hout as [Hl Ht]. rewrite !take_ge in Ht by (unfold size in *; lia).
    by rewrite Ht, Heq.
  - cbn [mbind list_bind] in Hb. rewrite <- app_assoc in Hb.
    destruct (inflate_step_ok t off b out _ Ht Hb Hout) as (b1 & out1 & Hs & Hb1 & Hout1).
    cbn [while]. rewrite Hs. cbn [mbind option_bind].
    pose proof (token_len_pos _ _ _ Ht).
    replace (Z.of_nat off + token_len t)
      with (Z.of_nat (off + Z.to_nat (token_len t))) in * by lia.
    apply (IH _ _ _ fuel Hts' Hb1 Hout1). simpl in Hfuel. lia.
Qed.

Lemma inflate_ok b out ts rest :
  tokens_at data 0 ts size →
  reads b (bits_of 1 1 ++ bits_of 2 1 ++ (ts ≫= token_bits)
           ++ sym_bits static_code_table 256 ++ rest) →
  length out = length data →
  ∃ b', inflate client b out size = Some (0, b', data, size).
Proof.
  intros Hts Hb Hlen. unfold inflate. rewrite inflate_init_static.
  cbn [mbind option_bind negb Z.eqb].
  assert (Hfetch : ∀ b (n : nat) v rest, (n ≤ 31)%nat → reads b (bits_of n v ++ rest) →
    ∃ b', bitarray_fetch client b (Z.of_nat n) = Some (v mod 2 ^ Z.of_nat n, b') ∧
      reads b' rest).
  { clear. intros b n v rest Hn Hb.
    destruct (fetch_spec client b _ n Hb Hn) as ([r b'] & -> & Hpost).
    unfold fetch_post in Hpost. rewrite length_app, bits_of_length in Hpost.
    destruct Hpost as [(_ & Hv & Hr)|(Hbad & _)]; [|lia]. cbn [fst snd] in *.
    rewrite take_app_length' in Hv by (by rewrite bits_of_length).
    rewrite drop_app_length' in Hr by (by rewrite bits_of_length).
    rewrite of_bits_bits_of in Hv. subst r. by exists b'. }
  destruct (Hfetch b 1%nat 1 _ ltac:(lia) Hb) as (b1 & Hf1 & Hb1).
  change (Z.of_nat 1) with 1 in Hf1. rewrite Hf1. cbn [mbind option_bind].
  change (1 mod 2 ^ 1) with 1. cbn [negb Z.eqb Pos.eqb].
  destruct (Hfetch b1 2%nat 1 _ ltac:(lia) Hb1) as (b2 & Hf2 & Hb2).
  change (Z.of_nat 2) with 2 in Hf2. rewrite Hf2. cbn [mbind option_bind].
  change (1 mod 2 ^ 2) with 1. cbn [negb Z.eqb Pos.eqb].
  pose proof (tokens_at_le _ _ _ _ Hts) as Hle.
  change 0 with (Z.of_nat 0) in Hts.
  destruct (inflate_loop_ok ts 0 b2 out rest (inflate_fuel size) Hts Hb2) as (b' & Hw).
  - done.
  - unfold inflate_fuel. lia.
  - change (Z.of_nat 0) with 0 in Hw. rewrite Hw. cbn [mbind option_bind negb Z.eqb].
    rewrite Z.eqb_refl. by exists b'.
Qed.
End Decoder.

(** ** Compression is lossless *)

(** What is left of [deflate_compress] after the tokens. *)
Lemma deflate_end client (data : list Z) ts b :
  length (mem b) = length data →
  writes b ((bits_of 1 1 ++ bits_of 2 1) ++ (ts ≫= token_bits)) →
  ∃ t1 t2 r0 b1 r w b2,
    static_code_table.[2 * 256 + 0] = Some t1 ∧
    static_code_table.[2 * 256 + 1] = Some t2 ∧
    bitarray_shove client b t1 t2 = Some (r0, b1) ∧
    bitarray_written client b1 = Some (r, w, b2) ∧
    length (mem b2) = length data ∧
    (r = 0 → w ≤ Z.of_nat (length data) - 1 → 0 ≤ w ∧ ∃ pad,
       byte_bits (take (Z.to_nat w) (mem b2))
       = bits_of 1 1 ++ bits_of 2 1 ++ (ts ≫= token_bits)
         ++ sym_bits static_code_table 256 ++ pad).
Proof.
  intros Hm Hw.
  destruct (sym_check_shove client static_code static_code_table 256 b _
    (all_below_spec 288 _ static_code_check 256 ltac:(lia)) Hw)
    as (t1 & t2 & r0 & b1 & H1 & H2 & H3 & Hm1 & Hcase).
  exists t1, t2, r0, b1. rewrite Z.add_0_r.
  destruct Hcase as [[-> Hw1]|[-> Ho]].
  - destruct (written_spec client b1 _ Hw1) as (r & w & b2 & Hwr & Hm2 & Hcase).
    exists r, w, b2. do 4 (split; [done|]). split; [lia|]. intros -> Hlt.
    destruct Hcase as [(_ & _ & k & pad & -> & Hk & Hbits & _)|(_ & ? & _)]; [|done].
    split; [lia|]. exists (replicate pad false). rewrite Nat2Z.id, Hbits.
    by rewrite <- !app_assoc.
  - exists 0, (Z.of_nat (length data)), b1.
    destruct Ho as (_ & _ & Hs0 & _ & Hwr & Hl & _).
    do 3 (split; [done|]). split; [|split; [lia|intros; lia]].
    unfold bitarray_written. rewrite Hs0. change (Some (0, written b1, b1) = Some (0, Z.of_nat (length data), b1)). by rewrite Hwr, Hm.
Qed.

(** The answer "not compressed". *)
Ltac kept := do 3 eexists; split; [reflexivity|split; [reflexivity|by left]].

(** (C4) Compression is lossless and safe.  On any data (and whatever the
    static tables and the memory from malloc hold) [deflate_compress] runs
    without an undefined access and ends.  Either it answers 1 and leaves the
    data and the size as they were, or it answers 0 with a smaller size, and
    the kernel's [inflate] on the new data gives the original bytes back and
    the status 0, in any buffer of the original size. *)
Theorem deflate_roundtrip (client : nat → bitarray → option (Z * bitarray))
    (code_table dist_table data : list Z) (malloc : option (list Z))
    (Hcode : length code_table = 576%nat) (Hdist : length dist_table = 64%nat)
    (Hdata : Forall is_byte data) (Hsize : Z.of_nat (length data) < 2 ^ 63)
    (Hmalloc : ∀ buf, malloc = Some buf → length buf = length data) :
  ∃ r data' size',
    deflate_compress client code_table dist_table malloc data (Z.of_nat (length data))
    = Some (r, data', size') ∧ length data' = length data ∧
    (r = 1 ∧ data' = data ∧ size' = Z.of_nat (length data) ∨
     r = 0 ∧ 0 ≤ size' < Z.of_nat (length data) ∧
       ∀ out, length out = length data →
         ∃ b, inflate client (bitarray_init data' (Some 0) size') out
                (Z.of_nat (length data))
              = Some (0, b, data, Z.of_nat (length data))).
Proof.
  unfold deflate_compress. destruct (Z.ltb_spec (Z.of_nat (length data)) 4) as [|H4];
    [kept|].
  rewrite deflate_tables_static by done. cbn [mbind option_bind negb Z.eqb].
  destruct malloc as [buf|]; [|kept].
  specialize (Hmalloc buf eq_refl). rewrite <- Hmalloc.
  pose proof (writes_init buf ltac:(lia)) as Hw0.
  set (b0 := bitarray_init _ _ _) in *.
  destruct (shove_spec client b0 [] 1 1 Hw0) as (r1 & b1 & Hs1 & Hm1 & Hc1).
  change (length (mem b0)) with (length buf) in *.
  destruct Hc1 as [(_ & -> & Hw1)|(? & _)]; [|simpl in *; lia].
  change (Z.of_nat 1) with 1 in Hs1. rewrite Hs1. cbn [mbind option_bind].
  destruct (shove_spec client b1 _ 2 1 Hw1) as (r2 & b2 & Hs2 & Hm2 & Hc2).
  destruct Hc2 as [(_ & -> & Hw2)|(? & _)]; [|simpl in *; lia].
  change (Z.of_nat 2) with 2 in Hs2. rewrite Hs2. cbn [mbind option_bind].
  rewrite Hmalloc.
  destruct (lz77_compress_ok client data Hdata (length data) _ b2 ltac:(lia) Hw2 ltac:(lia))
    as ([r b3] & -> & [[Hr (Hm3 & ts & Hts & Hw3)]|Hr]); cbn [fst snd] in *; subst r;
    cbn [mbind option_bind negb Z.eqb]; [|kept].
  destruct (deflate_end client data ts b3 Hm3 Hw3)
    as (t1 & t2 & r0 & b4 & r & w & b5 & -> & Ht2 & Hs4 & Hwr & Hm5 & Hbits).
  cbn [mbind option_bind]. rewrite Ht2. cbn [mbind option_bind]. rewrite Hs4.
  cbn [mbind option_bind]. rewrite Hwr. cbn [mbind option_bind].
  destruct (Z.eqb_spec r 0) as [->|]; cbn [negb orb]; [|kept].
  rewrite Z.gtb_ltb. destruct (Z.ltb_spec (Z.of_nat (length data) - 1) w);
    [kept|].
  destruct (Hbits eq_refl ltac:(lia)) as (Hw & pad & Hbb).
  do 3 eexists. split; [done|]. split; [rewrite length_app, length_take, length_drop; lia|].
  right. split; [done|]. split; [lia|]. intros out Hout.
  apply (inflate_ok client data Hdata ltac:(lia) _ out ts pad Hts); [|done].
  rewrite <- Hbb. set (data' := _ ++ _).
  assert (Htk : take (Z.to_nat w) data' = take (Z.to_nat w) (mem b5)).
  { unfold data'. apply take_app_length'. rewrite length_take. lia. }
  rewrite <- Htk, <- (drop_0 data') at 1.
  pose proof (reads_init data' 0 (Z.to_nat w)) as Hri.
  rewrite Z2Nat.id in Hri by lia. apply Hri.
  unfold data'. rewrite length_app, length_take, length_drop. lia.
Qed.

Lemma deflate_roundtrip_witness :
  ∃ size' data', deflate_compress (λ _ _, None) (replicate 576 7) (replicate 64 7)
      (Some (replicate 12 3)) (replicate 12 65) 12 = Some (0, data', size') ∧
    0 ≤ size' < 12 ∧
    ∃ b, inflate (λ _ _, None) (bitarray_init data' (Some 0) size') (replicate 12 0) 12
         = Some (0, b, replicate 12 65, 12).
Proof.
  destruct (deflate_roundtrip (λ _ _, None) (replicate 576 7) (replicate 64 7)
    (replicate 12 65) (Some (replicate 12 3))) as (r & data' & size' & Hc & _ & Hcase).
  - reflexivity.
  - reflexivity.
  - repeat (constructor; [unfold is_byte; lia|]). constructor.
  - simpl. lia.
  - intros buf [= <-]. reflexivity.
  - assert (Hr : r = 0).
    { destruct Hcase as [(-> & _)|(-> & _)]; [|reflexivity].
      vm_compute in Hc. discriminate. }
    destruct Hcase as [(Hr1 & _)|(_ & Hs & Hi)]; [lia|].
    exists size', data'. subst r. split; [exact Hc|]. split; [exact Hs|].
    apply Hi. reflexivity.
Defined.

(** ** The decoder on arbitrary input *)

Lemma static_code_total client I b :
  hands_over client I → readable I b →
  ∃ r b', huffman_fetch client static_code b = Some (r, b') ∧ readable I b' ∧ r < 288.
Proof.
  intros Hcl Hb. destruct (huffman_fetch_total client I Hcl static_code) with (b := b)
    as ([r b'] & Hf & Hr & Hb'); [by apply kraft_check_ok; vm_compute| |done|].
  - intros k Hk. do 16 (destruct k as [|k]; [vm_compute; congruence|]). lia.
  - exists r, b'. split; [done|split; [done|]].
    destruct Hr as [Hr|[Hr|(sym & Hin & Hr)]]; cbn [fst] in Hr; [lia|lia|].
    assert (Hall : Forall (λ s, swrap 32 s < 288) (symbols static_code)).
    { apply (bool_decide_eq_true_1 _). vm_compute. reflexivity. }
    rewrite Hr. apply list_elem_of_In in Hin. exact (proj1 (Forall_forall _ _) Hall sym Hin).
Qed.

Lemma static_dist_total client I b :
  hands_over client I → readable I b →
  ∃ r b', huffman_fetch client static_dist b = Some (r, b') ∧ readable I b'.
Proof.
  intros Hcl Hb. destruct (huffman_fetch_total client I Hcl static_dist) with (b := b)
    as ([r b'] & Hf & _ & Hb'); [by apply kraft_check_ok; vm_compute| |done|].
  - intros k Hk. do 16 (destruct k as [|k]; [vm_compute; congruence|]). lia.
  - by exists r, b'.
Qed.

Definition code_entry_check (codes : list bit_code) (i : Z) : bool :=
  match codes.[i] with
  | Some c => bool_decide (0 ≤ extra c ≤ 13 ∧ 1 ≤ value c < 2 ^ 16)
  | None => false
  end.

Lemma code_entries : all_below 29 (code_entry_check length_codes) = true ∧
  all_below 30 (code_entry_check distance_codes) = true.
Proof. by vm_compute. Qed.

(** One code with its extra bits: the fetched number is small. *)
Lemma code_fetch client I codes n i b :
  hands_over client I → all_below n (code_entry_check codes) = true → 0 ≤ i < n →
  readable I b →
  ∃ c v b', codes.[i] = Some c ∧ bitarray_fetch client b (extra c) = Some (v, b') ∧
    readable I b' ∧ 1 ≤ value c < 2 ^ 16 ∧ v < 2 ^ 13.
Proof.
  intros Hcl Hc Hi Hb. apply (all_below_spec n _ Hc) in Hi. unfold code_entry_check in Hi.
  destruct (codes.[i]) as [c|]; [|done]. apply bool_decide_eq_true_1 in Hi as [He Hv].
  destruct (fetch_any client I Hcl b (Z.to_nat (extra c)) Hb ltac:(lia))
    as (v & b' & Hf & Hr & Hv2).
  rewrite Z2Nat.id in * by lia. do 3 eexists. do 4 (split; [done|]).
  assert (2 ^ extra c ≤ 2 ^ 13) by (apply Z.pow_le_mono_r; lia). lia.
Qed.

Lemma copy_match_safe len out (off size : nat) dist :
  1 ≤ dist ≤ Z.of_nat off → (off + len ≤ size)%nat → (size ≤ length out)%nat →
  ∃ out', copy_match len out (Z.of_nat off) dist = Some out' ∧
    length out' = length out ∧ drop size out' = drop size out.
Proof.
  revert off out. induction len as [|len IH]; intros off out Hd Hl Hs; cbn [copy_match].
  { by exists out. }
  destruct (rd_is_Some out (Z.of_nat off - dist) ltac:(lia)) as [c ->].
  cbn [mbind option_bind]. store. rewrite Nat2Z.id.
  replace (Z.of_nat off + 1) with (Z.of_nat (S off)) by lia.
  destruct (IH (S off) (<[off:=c]> out)) as (out' & Hc & Hlen & Hdrop);
    [lia|lia|rewrite length_insert; lia|].
  exists out'. rewrite length_insert in Hlen. rewrite drop_insert_lt in Hdrop by lia. done.
Qed.

Section Safe.
Context (client : nat → bitarray → option (Z * bitarray)).
Context (I : nat → Prop) (Hclient : hands_over client I).
Context (out0 : list Z) (size : nat).
Context (Hsize : (size ≤ length out0)%nat) (Hmem : Z.of_nat (length out0) < 2 ^ 63).

(** The buffer is touched below [size] only. *)
Definition out_ok (out : list Z) : Prop :=
  length out = length out0 ∧ drop size out = drop size out0.

Definition safe_inv (s : bitarray * list Z * Z) : Prop :=
  0 ≤ s.2 ≤ Z.of_nat size ∧ out_ok s.1.2 ∧ readable I s.1.1.

Definition safe_post (r : Z * bitarray * list Z * Z) : Prop :=
  0 ≤ r.1.1.1 ≤ 5 ∧ r.1.1.1 ≠ 1 ∧ 0 ≤ r.2 ≤ Z.of_nat size ∧ out_ok r.1.2 ∧ readable I r.1.1.2.

Lemma inflate_step_safe s :
  safe_inv s →
  ∃ c, inflate_step client static_code static_dist (Z.of_nat size) s = Some c ∧
    match c with
    | Next s' => safe_inv s' ∧
        (Z.to_nat (Z.of_nat size - s'.2) < Z.to_nat (Z.of_nat size - s.2))%nat
    | Done r => safe_post r
    end.
Proof.
  destruct s as [[b out] off]. intros (Hoff & Hout & Hb). cbn [fst snd] in *.
  assert (Hdone : ∀ r b', 0 ≤ r ≤ 5 → r ≠ 1 → readable I b' → safe_post (r, b', out, off))
    by (intros; split; [done|split; [done|by split]]).
  unfold inflate_step.
  destruct (static_code_total client I b Hclient Hb) as (sym & b1 & -> & Hb1 & Hsym).
  cbn [mbind option_bind].
  destruct (Z.eqb_spec sym 256); [eexists; split; [done|]; by apply Hdone|].
  destruct (Z.ltb_spec sym 0); [eexists; split; [done|]; by apply Hdone|].
  pose proof Hout as [Hlen Hdrop].
  destruct (Z.ltb_spec sym 256).
  { rewrite Z.geb_leb. destruct (Z.leb_spec (Z.of_nat size) off);
      [eexists; split; [done|]; by apply Hdone|].
    store. eexists; split; [done|]. split; [|cbn [snd]; lia].
    split; [cbn [snd]; lia|]. split; [|done]. cbn [fst snd].
    split; [by rewrite length_insert|]. by rewrite drop_insert_lt by lia. }
  rewrite Z.geb_leb. destruct (Z.leb_spec 286 sym);
    [eexists; split; [done|]; by apply Hdone|]. cbv zeta.
  destruct (code_fetch client I length_codes 29 (sym - 257) b1 Hclient (proj1 code_entries)
    ltac:(lia) Hb1) as (c & v & b2 & -> & Hf & Hb2 & Hv & Hv2).
  cbn [mbind option_bind]. rewrite Hf. cbn [mbind option_bind].
  destruct (Z.ltb_spec v 0); [eexists; split; [done|]; by apply Hdone|].
  rewrite (wrap_small 32 (value c + v)), (wrap_small 64) by lia.
  rewrite Z.gtb_ltb. destruct (Z.ltb_spec (Z.of_nat size) (off + (value c + v)));
    [eexists; split; [done|]; by apply Hdone|].
  destruct (static_dist_total client I b2 Hclient Hb2) as (sym2 & b3 & -> & Hb3).
  cbn [mbind option_bind]. rewrite Z.geb_leb.
  destruct (Z.ltb_spec sym2 0); [eexists; split; [done|]; by apply Hdone|].
  destruct (Z.leb_spec 30 sym2); [eexists; split; [done|]; by apply Hdone|].
  cbn [orb].
  destruct (code_fetch client I distance_codes 30 sym2 b3 Hclient (proj2 code_entries)
    ltac:(lia) Hb3) as (c2 & v2 & b4 & -> & Hf2 & Hb4 & Hv3 & Hv4).
  cbn [mbind option_bind]. rewrite Hf2. cbn [mbind option_bind].
  destruct (Z.ltb_spec v2 0); [eexists; split; [done|]; by apply Hdone|].
  rewrite (wrap_small 32 (value c2 + v2)) by lia.
  rewrite Z.gtb_ltb. destruct (Z.ltb_spec off (value c2 + v2));
    [eexists; split; [done|]; by apply Hdone|].
  destruct (copy_match_safe (Z.to_nat (value c + v)) out (Z.to_nat off) size
    (value c2 + v2)) as (out' & Hcm & Hlen' & Hdrop'); [lia|lia|lia|].
  rewrite Z2Nat.id in Hcm by lia. rewrite Hcm. cbn [mbind option_bind].
  eexists; split; [done|]. split; [|cbn [snd]; lia].
  split; [cbn [snd]; lia|]. split; [|done].
  split; cbn [fst snd]; congruence.
Qed.
End Safe.

(** (C5) The decoder is safe on arbitrary input.  For every read callback that
    keeps to its contract (it answers, and what it hands over may be read: the
    default one, [db_callback] of boot/init/db.c, any other), every array and
    every output buffer, [inflate] ends within its fuel without an undefined
    access, leaves a readable array and writes only below the size it was
    given.  It answers 1 together with the smaller size of a block that ended
    early, or one of 0 and 2 to 5 with the size as it was. *)
Theorem inflate_safe (client : nat → bitarray → option (Z * bitarray))
    (b : bitarray) (out : list Z) (size : nat)
    (I : nat → Prop) (Hclient : hands_over client I) (Hb : readable I b)
    (Hsize : (size ≤ length out)%nat) (Hmem : Z.of_nat (length out) < 2 ^ 63) :
  ∃ r b' out' size', inflate client b out (Z.of_nat size) = Some (r, b', out', size') ∧
    readable I b' ∧ length out' = length out ∧ drop size out' = drop size out ∧
    (0 ≤ r ≤ 5) ∧ (r ≠ 1 ∧ size' = Z.of_nat size ∨ r = 1 ∧ 0 ≤ size' < Z.of_nat size).
Proof.
  unfold inflate. rewrite inflate_init_static. cbn [mbind option_bind negb Z.eqb].
  assert (Hearly : ∀ b', readable I b' → ∃ r b'' out' size',
    (Some (2, b', out, Z.of_nat size) : option (Z * bitarray * list Z * Z))
    = Some (r, b'', out', size') ∧ readable I b'' ∧
    length out' = length out ∧ drop size out' = drop size out ∧ (0 ≤ r ≤ 5) ∧
    (r ≠ 1 ∧ size' = Z.of_nat size ∨ r = 1 ∧ 0 ≤ size' < Z.of_nat size)).
  { intros b' Hb'. exists 2, b', out, (Z.of_nat size). do 4 (split; [done|]).
    split; [lia|]. left. split; [lia|done]. }
  destruct (fetch_any client I Hclient b 1 Hb ltac:(lia)) as (v1 & b1 & Hf1 & Hb1 & _).
  change (Z.of_nat 1) with 1 in Hf1. rewrite Hf1. cbn [mbind option_bind].
  destruct (Z.eqb_spec v1 1); cbn [negb]; [|by apply Hearly].
  destruct (fetch_any client I Hclient b1 2 Hb1 ltac:(lia)) as (v2 & b2 & Hf2 & Hb2 & _).
  change (Z.of_nat 2) with 2 in Hf2. rewrite Hf2. cbn [mbind option_bind].
  destruct (Z.eqb_spec v2 1); cbn [negb]; [|by apply Hearly].
  destruct (while_total (safe_inv I out size) (λ s, Z.to_nat (Z.of_nat size - s.2))
    (safe_post I out size) (inflate_step client static_code static_dist (Z.of_nat size))
    (inflate_step_safe client I Hclient out size Hsize Hmem)
    (inflate_fuel (Z.of_nat size)) (b2, out, 0))
    as ([[[r b3] out'] off] & -> & Hr & Hr1 & Hoff & [Hlen Hdrop] & Hb3).
  - split; [cbn [snd]; lia|]. by split.
  - unfold inflate_fuel. cbn [snd]. lia.
  - cbn [fst snd mbind option_bind] in *.
    destruct (Z.eqb_spec r 0) as [->|]; cbn [negb].
    2:{ exists r, b3, out', (Z.of_nat size). do 5 (split; [done|]). by left. }
    destruct (Z.eqb_spec (Z.of_nat size) off); cbn [negb].
    + exists 0, b3, out', (Z.of_nat size). do 5 (split; [done|]). left. by split.
    + exists 1, b3, out', off. do 4 (split; [done|]). split; [lia|]. right. lia.
Qed.

(** Two blocks of a database without a file in them, read from its start. *)
Lemma inflate_safe_witness :
  let blocks := [replicate (Z.to_nat 65536) 0xFF; replicate (Z.to_nat 65536) 0x11] in
  let b := bitarray_callback (bitarray_init [] None 0) (client_ptr (db_static 0 1)) in
  hands_over (db_callback blocks) (db_inv blocks) ∧
  ∃ r b' out' size', inflate (db_callback blocks) b (replicate 20 0) (Z.of_nat 16)
      = Some (r, b', out', size') ∧
    readable (db_inv blocks) b' ∧ drop 16 out' = [0; 0; 0; 0].
Proof.
  intros blocks b.
  assert (Hcl : hands_over (db_callback blocks) (db_inv blocks)).
  { apply db_callback_hands_over; [|unfold db_count; simpl length; lia].
    do 2 (constructor; [apply length_replicate|]). constructor. }
  split; [exact Hcl|].
  destruct (inflate_safe (db_callback blocks) b (replicate 20 0) 16 (db_inv blocks) Hcl)
    as (r & b' & out' & size' & H1 & H2 & _ & H3 & _).
  - split; [|split; [simpl; lia|split; [simpl; lia|done]]].
    intros k [= <-]. unfold db_inv. rewrite static_offset by lia.
    unfold db_count, block_data. simpl length. lia.
  - simpl; lia.
  - simpl; lia.
  - exists r, b', out', size'. split; [exact H1|]. split; [exact H2|exact H3].
Defined.
