(* ===== verification/Heap.v ===== *)
(** The kernel heap: kernel/base/heap.c.

    The heap is one range of addresses.  A map of 32-bit words at its start
    splits it into blocks: each word is the address where a block begins, with
    bit 0 set when the block is allocated, and the next word is where it ends.
    The last word is the end of the heap.  [heap_map] holds the first
    [heap_map_entries] words; [heap_map_addr] is the value of the pointer of
    that name.  A word stored above the map's capacity is [None].  The answer
    of [mtx_lock] is the argument [locked].  A null pointer is 0. *)

From S2P Require Import Prelude Errors.
From stdpp Require Import sorting relations.

#[local] Open Scope Z_scope.

Record heap := Heap {
  heap_map_addr : Z;
  heap_map : list Z;
  heap_map_size : Z }.

Definition heap_map_entries (h : heap) : Z := Z.of_nat (length (heap_map h)).

Definition used_bit : Z := 1.

(** (w & used_bit) != 0, and w & (~used_bit) on uint32_t. *)
Definition is_used (w : Z) : bool := negb (Z.land w used_bit =? 0).
Definition clear_used (w : Z) : Z := Z.land w 0xFFFFFFFE.

(** [spin_ok] and [mtx_ok] are the answers of [spin_trylock] and [mtx_init];
    the heap is set up before the mutex. *)
Definition heap_init (spin_ok mtx_ok : bool) (heap_addr stack_array_addr : Z)
  : de_error * option heap :=
  if negb spin_ok then (DE_UNEXPECTED, None)
  else
    let heap_size := u64 (stack_array_addr - heap_addr) in
    if heap_size <? 0x100000 then (DE_MEMORY, None)
    else if heap_size >? 0x10000000 then (DE_UNEXPECTED, None)
    else if negb (Z.land heap_size 0xFFF =? 0) || negb (Z.land heap_addr 0xFFF =? 0)
    then (DE_UNEXPECTED, None)
    else
      let h := Heap heap_addr [u32 (heap_addr + 0x1000); u32 stack_array_addr] 0x1000 in
      (if mtx_ok then DE_SUCCESS else DE_UNEXPECTED, Some h).

(** The loop of [heap_usage] from index [i]; the counters of the two pointers. *)
Fixpoint usage_loop (m : list Z) (i : nat) (allocated unallocated : Z)
  : option (Z * Z) :=
  match i with
  | O => Some (allocated, unallocated)
  | S i' =>
      b ← m.[Z.of_nat i'];
      e ← m.[Z.of_nat i];
      let e := clear_used e in
      if is_used b then
        let b := clear_used b in
        usage_loop m i' (if b <? e then allocated + u32 (e - b) else allocated) unallocated
      else
        usage_loop m i' allocated (if b <? e then unallocated + u32 (e - b) else unallocated)
  end.

Definition heap_usage (locked : bool) (h : heap) : option (Z * Z) :=
  if negb locked then Some (0, 0)
  else usage_loop (heap_map h) (length (heap_map h) - 1) 0 0.

(** The search of [heap_aligned_alloc] from index [i]: the last value of i, the
    address and map_insert.  [None] inside is [return NULL] or a search that
    found nothing (addr is 0 then). *)
Fixpoint heap_search (m : list Z) (alignment size : Z) (i : nat)
  : option (option (nat * Z * bool)) :=
  match i with
  | O => Some None
  | S i' =>
      b ← m.[Z.of_nat i'];
      if negb (is_used b) then
        e ← m.[Z.of_nat i];
        let e := clear_used e in
        if b >=? e then Some None
        else if size >? u32 (e - b) then heap_search m alignment size i'
        else
          let remainder := u32 ((e - size) mod alignment) in
          if size + remainder <=? u32 (e - b) then
            let addr := e - size - remainder in
            Some (Some (i, addr, negb (addr =? b)))
          else heap_search m alignment size i'
      else heap_search m alignment size i'
  end.

(** The map takes one more page when it is full; [None] inside is
    [return NULL]. *)
Definition heap_grow (h : heap) : option (option heap) :=
  let map_used := u32 (4 * heap_map_entries h) in
  if map_used >=? heap_map_size h then
    if map_used >? heap_map_size h then Some None
    else
      w0 ← (heap_map h).[0];
      if is_used w0 then Some None
      else
        w1 ← (heap_map h).[1];
        if u32 (w1 - w0) <? 0x2000 then Some None
        else
          let heap_map_size := heap_map_size h + 0x1000 in
          m ← (heap_map h).[0 <- u32 (heap_map_addr h + heap_map_size)];
          Some (Some (Heap (heap_map_addr h) m heap_map_size))
  else Some (Some h).

(** memmove(&heap_map[i + 1], &heap_map[i], ..), heap_map_entries += 1 and the
    store at i; the map must have room for the word. *)
Definition map_insert_word (h : heap) (i : nat) (w : Z) : option heap :=
  if 4 * (heap_map_entries h + 1) <=? heap_map_size h then
    Some (Heap (heap_map_addr h)
            (take i (heap_map h) ++ w :: drop i (heap_map h)) (heap_map_size h))
  else None.

Definition heap_place (h : heap) (i : nat) (addr : Z) (map_insert : bool)
  : option (Z * heap) :=
  let w := Z.lor (u32 addr) used_bit in
  if map_insert then
    h ← map_insert_word h i w;
    Some (addr, h)
  else
    m ← (heap_map h).[Z.of_nat (i - 1) <- w];
    Some (addr, Heap (heap_map_addr h) m (heap_map_size h)).

Definition heap_aligned_alloc (h : heap) (alignment size : Z) : option (Z * heap) :=
  if (alignment =? 0) || (alignment >? 0x2000) then Some (0, h)
  else if negb (Z.land alignment (alignment - 1) =? 0) then Some (0, h)
  else
    let alignment := if alignment <? 0x10 then 0x10 else alignment in
    if (size =? 0) || (size >? 0x10000000) then Some (0, h)
    else
      found ← heap_search (heap_map h) alignment size (length (heap_map h) - 1);
      match found with
      | None => Some (0, h)
      | Some (i, addr, map_insert) =>
          if addr =? 0 then Some (0, h)
          else
            grown ← heap_grow h;
            match grown with
            | None => Some (0, h)
            | Some h => heap_place h i addr map_insert
            end
      end.

(** The first loop of [heap_free]: words before the last one, [n] left. *)
Fixpoint free_word (n : nat) (m : list Z) (i : Z) (a : Z) : option (list Z) :=
  match n with
  | O => Some m
  | S n' =>
      b ← m.[i];
      if a =? b then m.[i <- clear_used b]
      else free_word n' m (i + 1) a
  end.

(** The second loop: two free blocks in a row become one.  (The memmove ends
    one word above the map's last one, and that word is cleared.) *)
Definition coalesce_step (s : list Z * nat) : option (ctl (list Z * nat) (list Z)) :=
  let '(m, i) := s in
  if (i <? length m - 1)%nat then
    b ← m.[Z.of_nat i - 1];
    e ← m.[Z.of_nat i];
    if is_used b || is_used e then Some (Next (m, S i))
    else Some (Next (take i m ++ drop (S i) m, i))
  else Some (Done m).

Definition heap_free (h : heap) (ptr : Z) : option heap :=
  let a := Z.lor (u32 ptr) used_bit in
  m ← free_word (length (heap_map h) - 1) (heap_map h) 0 a;
  m ← while (S (length m)) coalesce_step (m, 1%nat);
  Some (Heap (heap_map_addr h) m (heap_map_size h)).

(** The page that the map leaves when it moves up by one page. *)
Definition heap_alloc_static_page (locked : bool) (h : heap) : option (Z * heap) :=
  if negb locked then Some (0, h)
  else
    w0 ← (heap_map h).[0];
    if is_used w0 then Some (0, h)
    else
      w1 ← (heap_map h).[1];
      if u32 (w1 - w0) <? 0x2000 then Some (0, h)
      else
        let addr := heap_map_addr h + 0x1000 in
        m ← (heap_map h).[0 <- u32 (addr + heap_map_size h)];
        Some (heap_map_addr h, Heap addr m (heap_map_size h)).

Definition aligned_alloc (locked : bool) (h : heap) (alignment size : Z) : option (Z * heap) :=
  if negb locked then Some (0, h) else heap_aligned_alloc h alignment size.

(** The pointer, the bytes stored there and the heap. *)
Definition calloc (locked : bool) (h : heap) (nmemb size : Z) : option (Z * list Z * heap) :=
  let mem_size := u64 (nmemb * size) in
  if (mem_size =? 0) || negb (mem_size / nmemb =? size) then Some (0, [], h)
  else if negb locked then Some (0, [], h)
  else
    '(ptr, h) ← heap_aligned_alloc h 16 mem_size;
    Some (ptr, if ptr =? 0 then [] else replicate (Z.to_nat mem_size) 0, h).

Definition malloc (locked : bool) (h : heap) (size : Z) : option (Z * heap) :=
  if negb locked then Some (0, h) else heap_aligned_alloc h 16 size.

Definition free (locked : bool) (h : heap) (ptr : Z) : option heap :=
  if ptr =? 0 then Some h
  else if negb locked then Some h
  else heap_free h ptr.

(** The length of the string in [s] with its zero byte; [n] bytes can be read. *)
Fixpoint string_size (n : nat) (s : list Z) (i : Z) : option Z :=
  match n with
  | O => None
  | S n' => c ← s.[i]; if c =? 0 then Some (i + 1) else string_size n' s (i + 1)
  end.

Definition strdup (locked : bool) (h : heap) (s : option (list Z))
  : option (Z * list Z * heap) :=
  match s with
  | None => Some (0, [], h)
  | Some s =>
      size ← string_size (length s) s 0;
      if negb locked then Some (0, [], h)
      else
        '(ptr, h) ← heap_aligned_alloc h 16 size;
        Some (ptr, if ptr =? 0 then [] else take (Z.to_nat size) s, h)
  end.

(** ** Words *)

Lemma clear_used_eq w : 0 ≤ w < 2 ^ 32 → clear_used w = w - w mod 2.
Proof.
  intros Hw. unfold clear_used.
  replace 0xFFFFFFFE with (Z.ldiff (2 ^ 32 - 1) 1) by done.
  rewrite Z.ldiff_land, Z.land_assoc, land_ones_mod, Z.mod_small by lia.
  rewrite <- Z.ldiff_land. change 1 with (Z.ones 1) at 1.
  rewrite Z.ldiff_ones_r by lia. rewrite Z.shiftr_div_pow2, Z.shiftl_mul_pow2 by lia.
  change (2 ^ 1) with 2. dlia.
Qed.

Lemma is_used_eq w : is_used w = (w mod 2 =? 1).
Proof.
  unfold is_used, used_bit. change 1 with (2 ^ 1 - 1) at 1. rewrite land_ones_mod by lia.
  change (2 ^ 1) with 2. destruct (Z.eqb_spec (w mod 2) 0), (Z.eqb_spec (w mod 2) 1);
    simpl; dlia.
Qed.

(** A word of the map: 32 bits, the address a multiple of 16. *)
Definition word_ok (w : Z) : Prop := 0 ≤ w < 2 ^ 32 ∧ (clear_used w) mod 16 = 0.

Lemma word_free w : word_ok w → is_used w = false → clear_used w = w.
Proof.
  intros [Hw _] Hu. rewrite is_used_eq in Hu. apply Z.eqb_neq in Hu.
  rewrite clear_used_eq by done. dlia.
Qed.

Lemma word_set a :
  0 ≤ a < 2 ^ 32 → a mod 16 = 0 →
  word_ok (Z.lor a used_bit) ∧ is_used (Z.lor a used_bit) = true ∧
  clear_used (Z.lor a used_bit) = a.
Proof.
  intros Ha Hm.
  assert (Hl : Z.lor a used_bit = a + 1).
  { unfold used_bit. replace a with (Z.shiftl (a / 2) 1) at 1
      by (rewrite Z.shiftl_mul_pow2 by lia; dlia).
    rewrite lor_shiftl_add by lia. dlia. }
  assert (Hc : clear_used (a + 1) = a) by (rewrite clear_used_eq by dlia; dlia).
  rewrite Hl. split; [split; [dlia|by rewrite Hc]|]. split; [|done].
  rewrite is_used_eq. apply Z.eqb_eq. dlia.
Qed.

Lemma word_clear w :
  word_ok w →
  word_ok (clear_used w) ∧ is_used (clear_used w) = false ∧
  clear_used (clear_used w) = clear_used w.
Proof.
  intros [Hw Hm]. pose proof (clear_used_eq w Hw) as Hc.
  assert (Hr : 0 ≤ clear_used w < 2 ^ 32) by dlia.
  assert (H2 : clear_used w mod 2 = 0) by dlia.
  assert (Hi : clear_used (clear_used w) = clear_used w) by (rewrite (clear_used_eq _ Hr); lia).
  split; [split; [done|by rewrite Hi]|]. split; [|done].
  by rewrite is_used_eq, H2.
Qed.

(** ** Blocks *)

(** The allocated ([u] = true) or the free blocks, as (begin, end). *)
Fixpoint blocks_of (u : bool) (m : list Z) : list (Z * Z) :=
  match m with
  | w :: m' =>
      match m' with
      | w' :: _ =>
          if Bool.eqb (is_used w) u
          then (clear_used w, clear_used w') :: blocks_of u m'
          else blocks_of u m'
      | [] => []
      end
  | [] => []
  end.

Lemma blocks_of_cons u w w' m :
  blocks_of u (w :: w' :: m)
  = (if Bool.eqb (is_used w) u then [(clear_used w, clear_used w')] else [])
    ++ blocks_of u (w' :: m).
Proof. simpl. by destruct (Bool.eqb _ _). Qed.

Lemma blocks_of_app u l1 w l2 :
  blocks_of u (l1 ++ w :: l2) = blocks_of u (l1 ++ [w]) ++ blocks_of u (w :: l2).
Proof.
  induction l1 as [|x l1 IH]; [done|].
  destruct l1 as [|y l1]; [cbn [app]; by rewrite !blocks_of_cons, <- app_assoc|].
  cbn [app] in *. rewrite !(blocks_of_cons u x y), IH. by rewrite app_assoc.
Qed.

Lemma blocks_of_last u l w w' :
  clear_used w = clear_used w' → blocks_of u (l ++ [w]) = blocks_of u (l ++ [w']).
Proof.
  intros Hw. induction l as [|x l IH]; [done|].
  destruct l as [|y l]; [cbn [app]; by rewrite !blocks_of_cons, Hw|].
  cbn [app] in *. by rewrite !blocks_of_cons, IH.
Qed.

Lemma ss_insert l1 b e l2 a :
  StronglySorted Z.lt (l1 ++ b :: e :: l2) → b < a < e →
  StronglySorted Z.lt (l1 ++ b :: a :: e :: l2).
Proof.
  intros Hs Ha. induction l1 as [|x l1 IH]; cbn [app] in *.
  - rewrite !StronglySorted_cons, !Forall_cons_iff in Hs.
    destruct Hs as ((Hbe & Hbl) & He & Hs).
    rewrite !StronglySorted_cons, !Forall_cons_iff.
    split_and!; try done; try lia. eapply Forall_impl; [exact He|]. simpl. lia.
  - apply StronglySorted_inv in Hs as [Hs Hx]. constructor; [by apply IH|].
    rewrite Forall_app in Hx |- *. destruct Hx as [Hx1 Hx2]. split; [done|].
    apply Forall_cons_1 in Hx2 as [Hxb Hx2]. constructor; [done|]. constructor; [lia|done].
Qed.

Lemma ss_delete l1 x l2 :
  StronglySorted Z.lt (l1 ++ x :: l2) → StronglySorted Z.lt (l1 ++ l2).
Proof.
  induction l1 as [|y l1 IH]; cbn [app]; intros [Hs Hx]%StronglySorted_inv; [done|].
  constructor; [by apply IH|]. rewrite Forall_app, Forall_cons_iff in Hx.
  rewrite Forall_app. by destruct Hx as (? & _ & ?).
Qed.

(** The invariant of the heap whose range ends at [top]. *)
Record wf (top : Z) (h : heap) : Prop := {
  wf_words : Forall word_ok (heap_map h);
  wf_sorted : StronglySorted Z.lt (clear_used <$> heap_map h);
  wf_first : clear_used <$> head (heap_map h) = Some (heap_map_addr h + heap_map_size h);
  wf_last : last (heap_map h) = Some top ∧ is_used top = false;
  wf_room : 2 ≤ heap_map_entries h ∧ 4 * heap_map_entries h ≤ heap_map_size h;
  wf_size : 0 < heap_map_addr h ∧ 0 < heap_map_size h ∧
    heap_map_addr h mod 0x1000 = 0 ∧ heap_map_size h mod 0x1000 = 0 }.

Lemma wf_split top h l1 b e l2 :
  wf top h → heap_map h = l1 ++ b :: e :: l2 →
  word_ok b ∧ word_ok e ∧ clear_used b < clear_used e.
Proof.
  intros [Hw Hs _ _ _ _] Hm. rewrite Hm in *.
  apply Forall_app in Hw as [_ Hw]. decompose_bytes.
  rewrite fmap_app in Hs. apply StronglySorted_app_1_r in Hs.
  rewrite !fmap_cons in Hs. apply StronglySorted_inv in Hs as [_ Hs].
  by decompose_bytes.
Qed.

(** There is room for [size] bytes at a multiple of [alignment]. *)
Definition fits (alignment size : Z) (block : Z * Z) : Prop :=
  ∃ a, block.1 ≤ a ∧ a + size ≤ block.2 ∧ a mod alignment = 0.

Lemma rd_split {A} (l : list A) (i : nat) :
  (S i < length l)%nat →
  ∃ l1 b e l2, l = l1 ++ b :: e :: l2 ∧ length l1 = i ∧
    l.[Z.of_nat i] = Some b ∧ l.[Z.of_nat (S i)] = Some e.
Proof.
  intros Hi. destruct (lookup_lt_is_Some_2 l i ltac:(lia)) as [b Hb].
  destruct (lookup_lt_is_Some_2 l (S i) Hi) as [e He].
  exists (take i l), b, e, (drop (S (S i)) l).
  split; [|split; [rewrite length_take; lia|]].
  - rewrite <- (drop_S _ _ _ He), <- (drop_S _ _ _ Hb). by rewrite take_drop.
  - split; apply rd_Some; (split; [lia|by rewrite Nat2Z.id]).
Qed.

(** The block that a successful search has chosen. *)
Definition chosen (m : list Z) (alignment size : Z) (i : nat) (addr : Z) (ins : bool) : Prop :=
  ∃ l1 b e l2, m = l1 ++ b :: e :: l2 ∧ i = S (length l1) ∧ is_used b = false ∧
    b ≤ addr ∧ addr + size ≤ clear_used e ∧ addr mod alignment = 0 ∧
    (clear_used e - size) - addr < alignment ∧ ins = negb (addr =? b).

Lemma heap_search_spec top h alignment size (i : nat) :
  wf top h → 0 < alignment < 2 ^ 32 → 0 < size ≤ 0x10000000 →
  (i < length (heap_map h))%nat →
  ∃ r, heap_search (heap_map h) alignment size i = Some r ∧
    match r with
    | Some (i', addr, ins) => chosen (heap_map h) alignment size i' addr ins ∧ (i' ≤ i)%nat
    | None => ∀ l1 b e l2, heap_map h = l1 ++ b :: e :: l2 → (length l1 < i)%nat →
        is_used b = false → ¬ fits alignment size (b, clear_used e)
    end.
Proof.
  intros Hwf Hal Hsz. induction i as [|i IH]; intros Hi; cbn [heap_search].
  { eexists; split; [done|]. simpl; intros; lia. }
  specialize (IH ltac:(lia)).
  destruct (rd_split (heap_map h) i Hi) as (l1 & b & e & l2 & Hm & Hl1 & Hb & He).
  destruct (wf_split top h l1 b e l2 Hwf Hm) as (Hwb & Hwe & Hbe).
  rewrite Hb. cbn [mbind option_bind].
  (* a block that is passed over *)
  assert (Hskip : (is_used b = false → ¬ fits alignment size (b, clear_used e)) →
    ∃ r, heap_search (heap_map h) alignment size i = Some r ∧
    match r with
    | Some (i', addr, ins) =>
        chosen (heap_map h) alignment size i' addr ins ∧ (i' ≤ S i)%nat
    | None => ∀ l1 b e l2, heap_map h = l1 ++ b :: e :: l2 → (length l1 < S i)%nat →
        is_used b = false → ¬ fits alignment size (b, clear_used e)
    end).
  { intros Hno. destruct IH as (r & Hr & Hpost). exists r. split; [done|].
    destruct r as [[[i' addr] ins]|]; [destruct Hpost as [? ?]; split; [done|lia]|].
    intros l1' b' e' l2' Hm' Hlen Hu.
    destruct (decide (length l1' = i)) as [Heq|]; [|apply (Hpost l1' b' e' l2' Hm'); [lia|done]].
    rewrite Hm in Hm'. apply app_inj_1 in Hm' as [-> Htl]; [|lia].
    injection Htl as -> ->. by apply Hno. }
  destruct (is_used b) eqn:Hub; cbn [negb]; [apply Hskip; done|].
  rewrite He. cbn [mbind option_bind].
  rewrite (word_free b Hwb Hub) in Hbe.
  destruct Hwb as [Hb32 _]. destruct Hwe as [He32 _].
  assert (Hce : 0 ≤ clear_used e < 2 ^ 32) by (rewrite clear_used_eq by done; dlia).
  rewrite Z.geb_leb, (proj2 (Z.leb_gt (clear_used e) b)) by lia.
  rewrite (wrap_small 32 (clear_used e - b)) by lia.
  rewrite Z.gtb_ltb. destruct (Z.ltb_spec (clear_used e - b) size) as [Hlt|Hge].
  { apply Hskip. intros _ (a & H1 & H2 & _). simpl in H1, H2. lia. }
  set (r := (clear_used e - size) mod alignment).
  assert (Hr : 0 ≤ r < alignment) by (apply Z.mod_pos_bound; lia).
  rewrite (wrap_small 32 r) by lia.
  pose proof (Z.div_mod (clear_used e - size) alignment ltac:(lia)) as Hdm. fold r in Hdm.
  set (q := (clear_used e - size) / alignment) in *.
  destruct (Z.leb_spec (size + r) (clear_used e - b)) as [Hle|Hgt].
  - eexists; split; [done|]. split; [|lia].
    exists l1, b, e, l2. split; [done|split; [lia|]]. split; [done|].
    split; [lia|split; [lia|]]. split; [|split; [lia|done]].
    replace (clear_used e - size - r) with (q * alignment) by lia. apply Z.mod_mul. lia.
  - apply Hskip. intros _ (a & H1 & H2 & H3). simpl in H1, H2.
    pose proof (Z.div_mod a alignment ltac:(lia)) as Ha.
    assert (a / alignment ≤ q) by (apply Z.div_le_mono; lia). nia.
Qed.

(** One more word between a free word and its successor. *)
Lemma wf_insert top h l1 b e l2 a :
  wf top h → heap_map h = l1 ++ b :: e :: l2 → is_used b = false →
  4 * (heap_map_entries h + 1) ≤ heap_map_size h →
  b < a < clear_used e → a mod 16 = 0 →
  let m := l1 ++ b :: Z.lor a used_bit :: e :: l2 in
  wf top (Heap (heap_map_addr h) m (heap_map_size h)) ∧
  blocks_of true m ≡ₚ (a, clear_used e) :: blocks_of true (heap_map h).
Proof.
  intros Hwf Hm Hu Hroom Ha Ha16. cbv zeta.
  destruct (wf_split top h l1 b e l2 Hwf Hm) as (Hwb & Hwe & Hbe).
  destruct Hwf as [Hw Hs Hf Hl Hr Hsz]. rewrite Hm in *.
  pose proof (word_free b Hwb Hu) as Hcb.
  assert (Hce : clear_used e < 2 ^ 32)
    by (destruct Hwe as [? _]; rewrite clear_used_eq by done; dlia).
  destruct Hwb as [Hb32 _].
  destruct (word_set a ltac:(lia) Ha16) as (Hok & Hset & Hclr).
  split; [constructor; cbn [heap_map heap_map_addr heap_map_size heap_map_entries]|].
  - apply Forall_app in Hw as [Hw1 Hw2]. apply Forall_cons_1 in Hw2 as [? ?].
    apply Forall_app; split; [done|]. constructor; [done|]. by constructor.
  - rewrite fmap_app, !fmap_cons in *. rewrite Hclr. apply ss_insert; [done|lia].
  - rewrite <- Hf. by destruct l1.
  - rewrite !last_app_cons, !last_cons_cons in *. done.
  - unfold heap_map_entries in *. rewrite Hm in *. cbn [heap_map].
    rewrite !length_app in *. simpl length in *. lia.
  - done.
  - rewrite (blocks_of_app true l1 b), (blocks_of_app true l1 b (e :: l2)).
    rewrite !blocks_of_cons, Hu, Hset, Hclr. cbn [Bool.eqb app].
    symmetry. apply Permutation_middle.
Qed.

(** A whole free block is taken. *)
Lemma wf_take top h l1 b e l2 :
  wf top h → heap_map h = l1 ++ b :: e :: l2 → is_used b = false →
  let m := l1 ++ Z.lor b used_bit :: e :: l2 in
  wf top (Heap (heap_map_addr h) m (heap_map_size h)) ∧
  blocks_of true m ≡ₚ (b, clear_used e) :: blocks_of true (heap_map h).
Proof.
  intros Hwf Hm Hu. cbv zeta.
  destruct (wf_split top h l1 b e l2 Hwf Hm) as (Hwb & Hwe & Hbe).
  destruct Hwf as [Hw Hs Hf Hl Hr Hsz]. rewrite Hm in *.
  pose proof (word_free b Hwb Hu) as Hcb. destruct Hwb as [Hb32 Hb16].
  rewrite Hcb in Hb16.
  destruct (word_set b ltac:(lia) Hb16) as (Hok & Hset & Hclr).
  split; [constructor; cbn [heap_map heap_map_addr heap_map_size heap_map_entries]|].
  - apply Forall_app in Hw as [Hw1 Hw2]. apply Forall_cons_1 in Hw2 as [? ?].
    apply Forall_app; split; [done|]. by constructor.
  - rewrite fmap_app, !fmap_cons in *. by rewrite Hclr, <- Hcb.
  - rewrite <- Hf. destruct l1; [|done]. cbn. by rewrite Hclr, Hcb.
  - rewrite !last_app_cons, !last_cons_cons in *. done.
  - unfold heap_map_entries in *. rewrite Hm in *. cbn [heap_map].
    rewrite !length_app in *. simpl length in *. lia.
  - done.
  - rewrite (blocks_of_app true l1 (Z.lor b used_bit)), (blocks_of_app true l1 b (e :: l2)).
    rewrite (blocks_of_last true l1 (Z.lor b used_bit) b) by (by rewrite Hclr).
    rewrite !blocks_of_cons, Hu, Hset, Hclr. cbn [Bool.eqb app].
    symmetry. apply Permutation_middle.
Qed.

(** The answers of [heap_grow]: the heap as it was with room for a word, or a
    heap whose map was full and took the first page of the first block. *)
Definition full (h : heap) : Prop := 4 * heap_map_entries h = heap_map_size h.

(** The first block is free and has two pages, so that the map can take one. *)
Definition can_grow (h : heap) : Prop :=
  ∃ w0 w1 l, heap_map h = w0 :: w1 :: l ∧ is_used w0 = false ∧ w0 + 0x2000 ≤ clear_used w1.

Lemma heap_grow_spec top h :
  wf top h →
  ∃ r, heap_grow h = Some r ∧
    match r with
    | None => full h ∧ ¬ can_grow h
    | Some h' =>
        wf top h' ∧ 4 * (heap_map_entries h' + 1) ≤ heap_map_size h' ∧
        heap_map_addr h' = heap_map_addr h ∧
        (h' = h ∧ ¬ full h ∨
         full h ∧ heap_map_size h' = heap_map_size h + 0x1000 ∧ ∃ w0 w1 l, heap_map h = w0 :: w1 :: l ∧
           heap_map h' = (w0 + 0x1000) :: w1 :: l ∧
           is_used w0 = false ∧ is_used (w0 + 0x1000) = false ∧
           w0 + 0x2000 ≤ clear_used w1)
    end.
Proof.
  intros Hwf. pose proof Hwf as [Hw Hs Hf Hl [H2 Hr] (Ha & Hsz & Ham & Hsm)].
  unfold heap_map_entries in *.
  destruct (heap_map h) as [|w0 [|w1 l]] eqn:Hm; [by simpl in H2|by simpl in H2|].
  destruct (wf_split top h [] w0 w1 l Hwf Hm) as (Hw0 & Hw1 & H01).
  cbn in Hf. injection Hf as Hf.
  assert (Hc0 : clear_used w0 < 2 ^ 32)
    by (destruct Hw0 as [? _]; rewrite clear_used_eq by done; dlia).
  unfold heap_grow, heap_map_entries. rewrite Hm. unfold full, heap_map_entries. rewrite Hm.
  set (n := Z.of_nat (length (w0 :: w1 :: l))) in *.
  rewrite (wrap_small 32 (4 * n)) by lia. rewrite Z.geb_leb, Z.gtb_ltb.
  destruct (Z.leb_spec (heap_map_size h) (4 * n)) as [Hfull|Hnot].
  2:{ eexists; split; [done|]. split; [done|]. rewrite Hm. fold n.
      split; [dlia|]. split; [done|]. left. split; [done|lia]. }
  rewrite (proj2 (Z.ltb_ge (heap_map_size h) (4 * n))) by lia.
  cbn [mbind option_bind]. change ((w0 :: w1 :: l).[0]) with (Some w0).
  change ((w0 :: w1 :: l).[1]) with (Some w1). cbn [mbind option_bind].
  assert (Hno : is_used w0 = true ∨ clear_used w1 < w0 + 0x2000 → ¬ can_grow h).
  { intros Hor (v0 & v1 & l' & Hm' & Hu' & Hgap). rewrite Hm in Hm'. injection Hm' as <- <- <-.
    destruct Hor; [congruence|lia]. }
  destruct (is_used w0) eqn:Hu0; [eexists; split; [done|]; split; [lia|auto]|].
  pose proof (word_free w0 Hw0 Hu0) as Hfree.
  destruct Hw0 as [Hw0 Hw016]. destruct Hw1 as [Hw1 Hw116].
  pose proof (clear_used_eq w1 Hw1) as Hc1.
  rewrite (wrap_small 32 (w1 - w0)) by dlia.
  destruct (Z.ltb_spec (w1 - w0) 0x2000).
  { eexists; split; [done|]; split; [lia|]. apply Hno. right. dlia. }
  rewrite wr_Some by (simpl; lia). cbn [mbind option_bind].
  change (Z.to_nat 0) with 0%nat. cbn [list_insert insert].
  rewrite wrap_small by dlia.
  replace (heap_map_addr h + (heap_map_size h + 0x1000)) with (w0 + 0x1000) by lia.
  eexists; split; [done|]. cbn [heap_map heap_map_addr heap_map_size].
  assert (Hu0' : is_used (w0 + 0x1000) = false).
  { rewrite is_used_eq in *. apply Z.eqb_neq in Hu0. apply Z.eqb_neq. dlia. }
  assert (Hc0' : clear_used (w0 + 0x1000) = w0 + 0x1000).
  { rewrite clear_used_eq by dlia.
    rewrite is_used_eq in Hu0'. apply Z.eqb_neq in Hu0'. dlia. }
  split; [constructor; unfold heap_map_entries; cbn [heap_map heap_map_addr heap_map_size]|].
  - decompose_bytes. constructor; [split; [dlia|rewrite Hc0'; dlia]|by constructor].
  - rewrite !fmap_cons in *. rewrite Hc0'.
    rewrite !StronglySorted_cons, !Forall_cons_iff in *.
    destruct Hs as ((_ & H0l) & H1l & Hs). split_and!; try done; [dlia|].
    eapply Forall_impl; [exact H1l|]. simpl. dlia.
  - cbn. rewrite Hc0'. f_equal. lia.
  - by rewrite last_cons_cons in *.
  - change (length (w0 + 0x1000 :: w1 :: l)) with (length (w0 :: w1 :: l)). fold n. lia.
  - split_and!; [lia|lia|done|]. dlia.
  - split; [change (length (w0 + 0x1000 :: w1 :: l)) with (length (w0 :: w1 :: l)); fold n; lia|].
    split; [done|]. right. split; [lia|]. split; [done|]. exists w0, w1, l.
    do 4 (split; [done|]). dlia.
Qed.

Lemma elem_of_blocks u m b e :
  (b, e) ∈ blocks_of u m ↔
  ∃ l1 w w' l2, m = l1 ++ w :: w' :: l2 ∧ is_used w = u ∧
    b = clear_used w ∧ e = clear_used w'.
Proof.
  split.
  - induction m as [|w [|w' m] IH]; [by intros ?%elem_of_nil|by intros ?%elem_of_nil|].
    rewrite blocks_of_cons, elem_of_app. intros [Hin|Hin].
    + destruct (Bool.eqb (is_used w) u) eqn:E; [|by apply elem_of_nil in Hin].
      apply list_elem_of_singleton in Hin. injection Hin as -> ->.
      apply Bool.eqb_prop in E. by exists [], w, w', m.
    + destruct (IH Hin) as (l1 & v & v' & l2 & Hm & ?).
      exists (w :: l1), v, v', l2. split; [cbn [app]; by rewrite <- Hm|done].
  - intros (l1 & w & w' & l2 & -> & Hu & -> & ->).
    rewrite blocks_of_app, elem_of_app. right. rewrite blocks_of_cons, Hu.
    rewrite Bool.eqb_reflx. by left.
Qed.

(** Every block is between the map and the end of the heap. *)
Lemma wf_bounds top h l1 b e l2 :
  wf top h → heap_map h = l1 ++ b :: e :: l2 →
  heap_map_addr h + heap_map_size h ≤ clear_used b ∧ clear_used e ≤ top.
Proof.
  intros Hwf Hm. pose proof (wf_split top h l1 b e l2 Hwf Hm) as (Hwb & Hwe & _).
  destruct Hwf as [Hw Hs Hf [Hl Htop] _ _]. rewrite Hm in *. split.
  - destruct l1 as [|w l1]; cbn in Hf; injection Hf as <-; [done|].
    rewrite fmap_app, fmap_cons in Hs.
    pose proof (StronglySorted_app_1_elem_of _ _ _ (clear_used w) (clear_used b) Hs).
    rewrite fmap_cons in *. specialize (H ltac:(left) ltac:(left)). lia.
  - assert (Hct : clear_used top = top).
    { apply last_Some in Hl as [l Hl]. rewrite Hl in Hw.
      apply Forall_app in Hw as [_ Hw]. decompose_bytes. by apply word_free. }
    rewrite last_app_cons, last_cons_cons in Hl. destruct l2 as [|w l2].
    + injection Hl as ->. lia.
    + rewrite last_cons_cons in Hl. apply last_Some in Hl as [l Hl]. rewrite Hl in Hs.
      rewrite fmap_app, !fmap_cons, fmap_app in Hs.
      apply StronglySorted_app_1_r in Hs.
      apply StronglySorted_inv in Hs as [Hs _]. apply StronglySorted_inv in Hs as [_ He].
      rewrite Forall_app in He. destruct He as [_ He]. cbn in He. decompose_bytes. lia.
Qed.

Lemma insert_middle {A} (l1 l2 : list A) x y :
  <[length l1 := y]> (l1 ++ x :: l2) = l1 ++ y :: l2.
Proof. induction l1; simpl; congruence. Qed.

Lemma heap_place_spec top h l1 b e l2 addr :
  wf top h → 4 * (heap_map_entries h + 1) ≤ heap_map_size h →
  heap_map h = l1 ++ b :: e :: l2 → is_used b = false →
  b ≤ addr < clear_used e → addr mod 16 = 0 →
  ∃ h', heap_place h (S (length l1)) addr (negb (addr =? b)) = Some (addr, h') ∧
    wf top h' ∧
    blocks_of true (heap_map h') ≡ₚ (addr, clear_used e) :: blocks_of true (heap_map h) ∧
    h' = Heap (heap_map_addr h)
           (if addr =? b then l1 ++ Z.lor addr used_bit :: e :: l2
            else l1 ++ b :: Z.lor addr used_bit :: e :: l2) (heap_map_size h).
Proof.
  intros Hwf Hroom Hm Hu Ha H16.
  destruct (wf_split top h l1 b e l2 Hwf Hm) as (Hwb & Hwe & Hbe).
  assert (Hce : clear_used e < 2 ^ 32)
    by (destruct Hwe as [? _]; rewrite clear_used_eq by done; dlia).
  assert (Hb0 : 0 ≤ b) by (by destruct Hwb as [[? _] _]).
  unfold heap_place. rewrite wrap_small by lia.
  destruct (Z.eqb_spec addr b) as [->|Hne]; cbn [negb].
  - destruct (wf_take top h l1 b e l2 Hwf Hm Hu) as [Hwf' Hbl].
    rewrite Hm. replace (S (length l1) - 1)%nat with (length l1) by lia.
    rewrite wr_Some by (rewrite length_app; simpl; lia). cbn [mbind option_bind].
    rewrite Nat2Z.id, insert_middle. rewrite <- Hm. eauto 10.
  - destruct (wf_insert top h l1 b e l2 addr Hwf Hm Hu Hroom ltac:(lia) H16) as [Hwf' Hbl].
    unfold map_insert_word. rewrite (proj2 (Z.leb_le _ _) Hroom). cbn [mbind option_bind].
    rewrite Hm. replace (l1 ++ b :: e :: l2) with ((l1 ++ [b]) ++ e :: l2)
      by (by rewrite <- app_assoc).
    rewrite take_app_length', drop_app_length' by (rewrite length_app; simpl; lia).
    rewrite <- !app_assoc. cbn [app]. rewrite <- Hm. eauto 10.
Qed.

(** ** [heap_aligned_alloc] *)

Definition align_of (alignment : Z) : Z := if alignment <? 0x10 then 0x10 else alignment.

Definition bad_request (alignment size : Z) : Prop :=
  alignment = 0 ∨ 0x2000 < alignment ∨ Z.land alignment (alignment - 1) ≠ 0 ∨
  size = 0 ∨ 0x10000000 < size.

Definition alignment_check (a : Z) : bool :=
  (a =? 0) || negb (Z.land a (a - 1) =? 0)
  || bool_decide (0x10 ≤ align_of a ≤ 0x2000 ∧ align_of a mod 16 = 0 ∧ align_of a mod a = 0).

Lemma alignment_checked : all_below 0x2001 alignment_check = true.
Proof. vm_compute. reflexivity. Qed.

Lemma align_of_ok a :
  0 < a ≤ 0x2000 → Z.land a (a - 1) = 0 →
  0x10 ≤ align_of a ≤ 0x2000 ∧ align_of a mod 16 = 0 ∧ align_of a mod a = 0.
Proof.
  intros Ha Hl. pose proof (all_below_spec _ _ alignment_checked a ltac:(lia)) as H.
  unfold alignment_check in H. rewrite Hl, (proj2 (Z.eqb_neq a 0)) in H by lia.
  by apply bool_decide_eq_true_1 in H.
Qed.

Lemma mod_divide_trans x a b : 0 < b → 0 < a → x mod a = 0 → a mod b = 0 → x mod b = 0.
Proof.
  intros Hb Ha H1 H2. apply Z.mod_divide in H1, H2; [|lia|lia].
  apply Z.mod_divide; [lia|]. by apply (Z.divide_trans b a x).
Qed.

(** A fresh pointer: aligned, inside a block that was free, and now the begin
    of an allocated block while the other allocated blocks are as they were. *)
Definition allocated (top : Z) (h h' : heap) (alignment size ptr : Z) : Prop :=
  wf top h' ∧ ptr mod alignment = 0 ∧ ptr mod 16 = 0 ∧
  ∃ b e, (b, e) ∈ blocks_of false (heap_map h) ∧ b ≤ ptr ∧ ptr + size ≤ e ∧
    e - (ptr + size) < align_of alignment ∧
    blocks_of true (heap_map h') ≡ₚ (ptr, e) :: blocks_of true (heap_map h).

(** The map of [h] is full and [ptr] lies in or at the end of the page that
    the map takes next. *)
Definition map_overlap (h : heap) (ptr : Z) : Prop :=
  full h ∧ heap_map_addr h + heap_map_size h ≤ ptr
  ∧ ptr ≤ heap_map_addr h + heap_map_size h + 0x1000.

(** The exception: the place was chosen before the map took the page that it is
    in.  The place itself is aligned and was free. *)
Definition overlapped (h h' : heap) (alignment size ptr : Z) : Prop :=
  map_overlap h ptr ∧ ptr mod alignment = 0 ∧ ptr mod 16 = 0 ∧
  (∃ b e, (b, e) ∈ blocks_of false (heap_map h) ∧ b ≤ ptr ∧ ptr + size ≤ e) ∧
  heap_map_addr h' = heap_map_addr h ∧ heap_map_size h' = heap_map_size h + 0x1000.

(** What follows a successful search. *)
Lemma heap_commit top h (i : nat) addr ins alignment size :
  wf top h → 0 < alignment ≤ 0x2000 → Z.land alignment (alignment - 1) = 0 →
  0 < size → chosen (heap_map h) (align_of alignment) size i addr ins →
  ∃ r, (grown ← heap_grow h;
        match grown with
        | None => Some (0, h)
        | Some h => heap_place h i addr ins
        end) = Some r ∧ 0 < addr ∧
    (r = (0, h) ∧ full h ∧ ¬ can_grow h ∨
     (full h → can_grow h) ∧ r.1 = addr ∧
       (allocated top h r.2 alignment size addr ∧ ¬ map_overlap h addr ∨
        overlapped h r.2 alignment size addr)).
Proof.
  intros Hwf Hal Hpow Hsz (l1 & b & e & l2 & Hm & -> & Hu & Hba & Hae & Hmod & Hslack & ->).
  destruct (align_of_ok alignment Hal Hpow) as (Ha & Ha16 & Haa).
  pose proof (mod_divide_trans addr (align_of alignment) 16 ltac:(lia) ltac:(lia) Hmod Ha16) as H16.
  pose proof (mod_divide_trans addr (align_of alignment) alignment ltac:(lia) ltac:(lia) Hmod Haa) as Hma.
  destruct (wf_split top h l1 b e l2 Hwf Hm) as (Hwb & Hwe & Hbe).
  destruct (wf_bounds top h l1 b e l2 Hwf Hm) as [Hlow _].
  pose proof (word_free b Hwb Hu) as Hcb. rewrite Hcb in *.
  destruct (wf_size top h Hwf) as (Hpos & Hpos2 & _).
  assert (Hin : (b, clear_used e) ∈ blocks_of false (heap_map h)).
  { apply elem_of_blocks. exists l1, b, e, l2. by rewrite Hcb. }
  assert (Hfresh : ∀ h', wf top h' →
    blocks_of true (heap_map h') ≡ₚ (addr, clear_used e) :: blocks_of true (heap_map h) →
    allocated top h h' alignment size addr).
  { intros h' Hwf' Hbl. split; [done|]. split; [done|]. split; [done|].
    exists b, (clear_used e). split_and!; [done|done|done|lia|done]. }
  destruct (heap_grow_spec top h Hwf) as (r & -> & Hg). cbn [mbind option_bind].
  destruct r as [h1|]; [|eexists; split; [done|]; split; [lia|by left]].
  destruct Hg as (Hwf1 & Hroom & Haddr & [[-> Hnf]|(Hfull & Hsize & w0 & w1 & l & Hm0 & Hm1 & Hu0 & Hu0' & Hgap)]).
  - destruct (heap_place_spec top h l1 b e l2 addr Hwf1 Hroom Hm Hu ltac:(lia) H16)
      as (h' & -> & Hwf' & Hbl & _).
    eexists; split; [done|]. split; [lia|]. right. split; [done|]. split; [done|left].
    split; [by apply Hfresh|]. by intros [? _].
  - assert (Hcan : can_grow h) by (by exists w0, w1, l).
    assert (Hhd : clear_used w0 = w0 ∧ w0 = heap_map_addr h + heap_map_size h).
    { pose proof (wf_split top h [] w0 w1 l Hwf Hm0) as (Hw0 & _ & _).
      pose proof (wf_first top h Hwf) as Hf. rewrite Hm0 in Hf. cbn in Hf.
      injection Hf as Hf. pose proof (word_free w0 Hw0 Hu0). lia. }
    assert (Hsame : blocks_of true (heap_map h1) = blocks_of true (heap_map h)).
    { rewrite Hm0, Hm1, !blocks_of_cons, Hu0, Hu0'. done. }
    destruct l1 as [|w l1].
    + rewrite Hm0 in Hm. cbn [app] in Hm. injection Hm as -> -> ->.
      cbn [length]. destruct (Z.leb_spec addr (b + 0x1000)).
      * assert (∃ r, heap_place h1 1 addr (negb (addr =? b)) = Some r ∧ r.1 = addr ∧
          heap_map_addr r.2 = heap_map_addr h1 ∧ heap_map_size r.2 = heap_map_size h1)
          as (r & -> & Hr & Hr1 & Hr2).
        { unfold heap_place. destruct (addr =? b); cbn [negb].
          - rewrite wr_Some by (rewrite Hm1; simpl; lia). by eexists.
          - unfold map_insert_word. rewrite (proj2 (Z.leb_le _ _) Hroom). by eexists. }
        exists r. split; [done|]. split; [lia|]. right. split; [done|]. split; [done|].
        right. split; [split; [done|lia]|]. split; [done|]. split; [done|].
        split; [by exists b, (clear_used e)|]. lia.
      * destruct (heap_place_spec top h1 [] (b + 0x1000) e l2 addr Hwf1 Hroom Hm1 Hu0'
          ltac:(lia) H16) as (h' & Hp & Hwf' & Hbl & _).
        rewrite (proj2 (Z.eqb_neq addr (b + 0x1000))) in Hp by lia.
        rewrite (proj2 (Z.eqb_neq addr b)) by lia. cbn [length] in Hp. rewrite Hp.
        eexists; split; [done|]. split; [lia|]. right. split; [done|]. split; [done|left].
        split; [apply Hfresh; [done|]; by rewrite <- Hsame|]. intros (_ & _ & ?). lia.
    + pose proof Hm as Hm'. rewrite Hm0 in Hm'. cbn [app] in Hm'. injection Hm' as -> Htl.
      rewrite Htl in Hm1.
      destruct (heap_place_spec top h1 ((w + 0x1000) :: l1) b e l2 addr Hwf1 Hroom Hm1 Hu
        ltac:(lia) H16) as (h' & Hp & Hwf' & Hbl & _).
      cbn [length] in *. rewrite Hp.
      eexists; split; [done|]. split; [lia|]. right. split; [done|]. split; [done|left].
      split; [apply Hfresh; [done|]; by rewrite <- Hsame|]. intros (_ & _ & Hle).
      destruct l1 as [|v l1]; cbn [app] in Htl; injection Htl as -> ->; [lia|].
      pose proof (wf_sorted top h Hwf) as Hss. rewrite Hm0 in Hss. rewrite !fmap_cons in Hss.
      apply StronglySorted_inv in Hss as [Hss _]. apply StronglySorted_inv in Hss as [_ Hv].
      rewrite fmap_app, fmap_cons in Hv. apply Forall_app in Hv as [_ Hv].
      apply Forall_cons_1 in Hv as [Hv _]. lia.
Qed.

(** The requests that get a null pointer: malformed ones, those without an aligned
    place in a free block, and all of them when the map is full and cannot take
    another page. *)
Definition refused (h : heap) (alignment size : Z) : Prop :=
  bad_request alignment size ∨
  (∀ block, block ∈ blocks_of false (heap_map h) → ¬ fits (align_of alignment) size block) ∨
  full h ∧ ¬ can_grow h.

(** [heap_aligned_alloc] on every branch. *)
Lemma heap_aligned_alloc_spec top h alignment size :
  wf top h → 0 ≤ alignment → 0 ≤ size →
  ∃ ptr h', heap_aligned_alloc h alignment size = Some (ptr, h') ∧
    (ptr = 0 ∧ h' = h ∧ refused h alignment size ∨
     0 < ptr ∧ ¬ refused h alignment size ∧
       (allocated top h h' alignment size ptr ∧ ¬ map_overlap h ptr ∨
        overlapped h h' alignment size ptr)).
Proof.
  intros Hwf Hal Hsz. unfold heap_aligned_alloc, refused, bad_request.
  rewrite !Z.gtb_ltb.
  destruct (Z.eqb_spec alignment 0); [by exists 0, h; eauto 10|].
  destruct (Z.ltb_spec 0x2000 alignment); [exists 0, h; split; [done|]; left; eauto 10|].
  cbn [orb]. destruct (Z.eqb_spec (Z.land alignment (alignment - 1)) 0) as [Hpow|];
    cbn [negb]; [|exists 0, h; split; [done|]; left; eauto 10].
  fold (align_of alignment). cbv zeta.
  destruct (Z.eqb_spec size 0); [exists 0, h; split; [done|]; left; eauto 10|].
  destruct (Z.ltb_spec 0x10000000 size); [exists 0, h; split; [done|]; left; eauto 10|].
  cbn [orb].
  destruct (align_of_ok alignment ltac:(lia) Hpow) as (Ha & _ & _).
  destruct (wf_room top h Hwf) as [H2 _]. unfold heap_map_entries in H2.
  destruct (heap_search_spec top h (align_of alignment) size (length (heap_map h) - 1) Hwf
    ltac:(lia) ltac:(lia) ltac:(lia)) as (r & -> & Hr).
  cbn [mbind option_bind]. destruct r as [[[i addr] ins]|].
  - destruct Hr as [Hch _].
    destruct (heap_commit top h i addr ins alignment size Hwf ltac:(lia) Hpow ltac:(lia) Hch)
      as (r & Hc & Hpos & Hr).
    rewrite (proj2 (Z.eqb_neq addr 0)) by lia. rewrite Hc.
    destruct Hr as [[-> Hfull]|(Hr0 & Hr1 & Hr2)]; [exists 0, h; eauto 10|].
    destruct r as [ptr h']. cbn [fst snd] in *. subst ptr. exists addr, h'.
    split; [done|]. right. split; [done|]. split; [|done].
    intros [Hbad|[Hnone|[Hfull Hno]]]; [lia| |by apply Hno, Hr0].
    assert (Hfree : ∃ b e, (b, e) ∈ blocks_of false (heap_map h) ∧ b ≤ addr ∧ addr + size ≤ e ∧
      addr mod align_of alignment = 0).
    { destruct Hch as (l1 & b & e & l2 & Hm & _ & Hu & Hba & Hae & Hmod & _).
      exists b, (clear_used e). split; [|lia]. apply elem_of_blocks. exists l1, b, e, l2.
      destruct (wf_split top h l1 b e l2 Hwf Hm) as (Hwb & _). by rewrite (word_free b Hwb Hu). }
    destruct Hfree as (b & e & Hin & ? & ? & ?). apply (Hnone (b, e) Hin). by exists addr.
  - exists 0, h. split; [done|]. left. split; [done|split; [done|]]. right. left.
    intros [b e] (l1 & w & w' & l2 & Hm & Hu & -> & ->)%elem_of_blocks.
    destruct (wf_split top h l1 w w' l2 Hwf Hm) as (Hww & _).
    rewrite (word_free w Hww Hu). apply (Hr l1 w w' l2 Hm); [|done].
    rewrite Hm, length_app. simpl. lia.
Qed.

(** ** [heap_free] *)

(** The word [b] and its successors with neighbouring free blocks joined; the
    last word is the end of the heap and stays. *)
Fixpoint merge_from (b : Z) (m : list Z) : list Z :=
  match m with
  | [] => [b]
  | e :: m' =>
      match m' with
      | [] => [b; e]
      | _ :: _ => if is_used b || is_used e then b :: merge_from e m' else merge_from b m'
      end
  end.

(** No two free blocks in a row. *)
Fixpoint coalesced (m : list Z) : Prop :=
  match m with
  | w :: m' =>
      match m' with
      | w' :: _ :: _ => is_used w || is_used w' = true ∧ coalesced m'
      | _ => True
      end
  | [] => True
  end.

Lemma merge_from_cons b e x m :
  merge_from b (e :: x :: m)
  = if is_used b || is_used e then b :: merge_from e (x :: m) else merge_from b (x :: m).
Proof. done. Qed.

Lemma merge_head b m : ∃ t, merge_from b m = b :: t.
Proof.
  revert b. induction m as [|e [|x m] IH]; intros b; [by eexists|by eexists|].
  rewrite merge_from_cons. destruct (_ || _); [by eexists|apply IH].
Qed.

Lemma merge_sublist b m : merge_from b m `sublist_of` b :: m.
Proof.
  revert b. induction m as [|e [|x m] IH]; intros b; [done|done|].
  rewrite merge_from_cons. destruct (_ || _).
  - apply sublist_skip, IH.
  - etrans; [apply IH|]. by apply sublist_skip, sublist_cons.
Qed.

Lemma merge_last b m : last (merge_from b m) = last (b :: m).
Proof.
  revert b. induction m as [|e [|x m] IH]; intros b; [done|done|].
  rewrite merge_from_cons. rewrite !last_cons_cons. destruct (_ || _).
  - destruct (merge_head e (x :: m)) as [t Ht]. rewrite Ht, last_cons_cons, <- Ht, IH.
    by rewrite last_cons_cons.
  - by rewrite IH, last_cons_cons.
Qed.

Lemma merge_blocks b m : blocks_of true (merge_from b m) = blocks_of true (b :: m).
Proof.
  revert b. induction m as [|e [|x m] IH]; intros b; [done|done|].
  rewrite merge_from_cons, (blocks_of_cons true b e).
  destruct (is_used b) eqn:Hb, (is_used e) eqn:He; cbn [orb].
  1-3: destruct (merge_head e (x :: m)) as [t Ht];
    rewrite Ht, (blocks_of_cons true b e), Hb, <- Ht, IH; done.
  rewrite IH, !blocks_of_cons, Hb, He. done.
Qed.

Lemma merge_coalesced b m : coalesced (merge_from b m).
Proof.
  revert b. induction m as [|e [|x m] IH]; intros b; [done|done|].
  rewrite merge_from_cons. destruct (is_used b || is_used e) eqn:E; [|apply IH].
  specialize (IH e). destruct (merge_head e (x :: m)) as [t Ht]. rewrite Ht in *.
  destruct t; [done|]. by split.
Qed.

Lemma merge_id b m : coalesced (b :: m) → merge_from b m = b :: m.
Proof.
  revert b. induction m as [|e [|x m] IH]; intros b; [done|done|].
  intros [Hu Hc]. rewrite merge_from_cons, Hu. by rewrite IH.
Qed.

Lemma coalesce_step_end pre b m :
  (length m ≤ 1)%nat →
  coalesce_step (pre ++ b :: m, S (length pre)) = Some (Done (pre ++ b :: m)).
Proof.
  intros Hm. unfold coalesce_step. rewrite length_app. simpl length.
  by rewrite (proj2 (Nat.ltb_ge _ _)) by lia.
Qed.

Lemma coalesce_step_next pre b e x m :
  coalesce_step (pre ++ b :: e :: x :: m, S (length pre))
  = Some (Next (if is_used b || is_used e
                then ((pre ++ [b]) ++ e :: x :: m, S (length (pre ++ [b])))
                else (pre ++ b :: x :: m, S (length pre)))).
Proof.
  unfold coalesce_step. rewrite length_app. simpl length.
  rewrite (proj2 (Nat.ltb_lt _ _)) by lia.
  assert (Hb : (pre ++ b :: e :: x :: m).[Z.of_nat (S (length pre)) - 1] = Some b).
  { apply rd_Some. split; [lia|]. rewrite lookup_app_r by lia.
    by replace (Z.to_nat (Z.of_nat (S (length pre)) - 1) - length pre)%nat with 0%nat by lia. }
  assert (He : (pre ++ b :: e :: x :: m).[Z.of_nat (S (length pre))] = Some e).
  { apply rd_Some. split; [lia|]. rewrite lookup_app_r by lia.
    by replace (Z.to_nat (Z.of_nat (S (length pre))) - length pre)%nat with 1%nat by lia. }
  rewrite Hb, He. cbn [mbind option_bind].
  replace (pre ++ b :: e :: x :: m) with ((pre ++ [b]) ++ e :: x :: m)
    by (by rewrite <- app_assoc).
  destruct (is_used b || is_used e).
  - do 3 f_equal. rewrite length_app. simpl. lia.
  - rewrite take_app_length' by (rewrite length_app; simpl; lia).
    rewrite <- (Nat.add_1_r (S _)), <- drop_drop.
    rewrite drop_app_length' by (rewrite length_app; simpl; lia).
    by rewrite <- app_assoc.
Qed.

Lemma coalesce_loop pre b m fuel :
  (length m < fuel)%nat →
  while fuel coalesce_step (pre ++ b :: m, S (length pre)) = Some (pre ++ merge_from b m).
Proof.
  revert pre b m. induction fuel as [|fuel IH]; intros pre b m Hf; [lia|].
  cbn [while]. destruct m as [|e [|x m]].
  - by rewrite coalesce_step_end by (simpl; lia).
  - by rewrite coalesce_step_end by (simpl; lia).
  - rewrite coalesce_step_next, merge_from_cons. cbn [mbind option_bind].
    destruct (is_used b || is_used e).
    + rewrite IH by (simpl in *; lia). by rewrite <- app_assoc.
    + rewrite IH by (simpl in *; lia). done.
Qed.

Lemma free_word_hit n pre l1 a l2 :
  Forall (λ w, w ≠ a) l1 → (length l1 < n)%nat →
  free_word n (pre ++ l1 ++ a :: l2) (Z.of_nat (length pre)) a
  = Some (pre ++ l1 ++ clear_used a :: l2).
Proof.
  revert pre l1. induction n as [|n IH]; intros pre l1 Hne Hn; [lia|].
  cbn [free_word]. destruct l1 as [|w l1]; cbn [app].
  - rewrite rd_app_r by lia. rewrite Z.sub_diag. cbn [mbind option_bind].
    change ((a :: l2).[0]) with (Some a). cbn [mbind option_bind].
    rewrite Z.eqb_refl, wr_Some by (rewrite length_app; simpl; lia).
    by rewrite Nat2Z.id, insert_middle.
  - rewrite rd_app_r by lia. rewrite Z.sub_diag.
    change ((w :: l1 ++ a :: l2).[0]) with (Some w). cbn [mbind option_bind].
    apply Forall_cons_1 in Hne as [Hw Hne].
    rewrite (proj2 (Z.eqb_neq a w)) by congruence.
    specialize (IH (pre ++ [w]) l1 Hne ltac:(simpl in *; lia)).
    rewrite length_app, <- !app_assoc in IH. cbn [app length] in IH.
    rewrite Nat2Z.inj_add in IH. exact IH.
Qed.

Lemma free_word_miss n pre l a :
  Forall (λ w, w ≠ a) l → (n ≤ length l)%nat →
  free_word n (pre ++ l) (Z.of_nat (length pre)) a = Some (pre ++ l).
Proof.
  revert pre l. induction n as [|n IH]; intros pre l Hne Hn; [done|].
  destruct l as [|w l]; [simpl in Hn; lia|].
  cbn [free_word]. rewrite rd_app_r by lia. rewrite Z.sub_diag.
  change ((w :: l).[0]) with (Some w). cbn [mbind option_bind].
  apply Forall_cons_1 in Hne as [Hw Hne].
  rewrite (proj2 (Z.eqb_neq a w)) by congruence.
  specialize (IH (pre ++ [w]) l Hne ltac:(simpl in *; lia)).
  rewrite length_app, <- !app_assoc in IH. cbn [app length] in IH.
  rewrite Nat2Z.inj_add in IH. exact IH.
Qed.

Lemma sublist_all {A} (P : A → Prop) l1 l2 :
  l1 `sublist_of` l2 → Forall P l2 → Forall P l1.
Proof.
  induction 1; [done| |]; intros [? ?]%Forall_cons_1; [constructor|]; eauto.
Qed.

Lemma ss_sublist l1 l2 :
  l1 `sublist_of` l2 → StronglySorted Z.lt l2 → StronglySorted Z.lt l1.
Proof.
  induction 1 as [|x l1 l2 Hl IH|x l1 l2 Hl IH]; intros Hs; [constructor| |];
    apply StronglySorted_inv in Hs as [Hs Hx].
  - constructor; [by apply IH|]. by eapply sublist_all.
  - by apply IH.
Qed.

(** A map whose words have been changed without moving its ends. *)
Lemma wf_remap top h m :
  wf top h → Forall word_ok m → (2 ≤ length m ≤ length (heap_map h))%nat →
  StronglySorted Z.lt (clear_used <$> m) →
  clear_used <$> head m = clear_used <$> head (heap_map h) →
  last m = last (heap_map h) →
  wf top (Heap (heap_map_addr h) m (heap_map_size h)).
Proof.
  intros [Hw Hs Hf Hl Hr Hsz] Hw' Hlen Hs' Hh Hl'. unfold heap_map_entries in *.
  constructor; cbn [heap_map heap_map_addr heap_map_size]; unfold heap_map_entries;
    cbn [heap_map]; [done|done|by rewrite Hh|by rewrite Hl'|lia|done].
Qed.

(** The second loop of [heap_free] on a whole map. *)
Lemma merge_wf top h b m :
  wf top h → heap_map h = b :: m →
  wf top (Heap (heap_map_addr h) (merge_from b m) (heap_map_size h)).
Proof.
  intros Hwf Hm. pose proof (merge_sublist b m) as Hsub.
  pose proof Hwf as [Hw Hs Hf Hl [H2 _] _]. unfold heap_map_entries in H2. rewrite Hm in *.
  apply wf_remap; rewrite ?Hm; [done|by eapply sublist_all| | | |].
  - split; [|by apply sublist_length in Hsub].
    destruct m as [|e m]; [simpl in H2; lia|].
    pose proof (merge_last b (e :: m)) as Hml.
    destruct (merge_head b (e :: m)) as [t Ht]. rewrite Ht in *.
    destruct t; [|simpl; lia]. exfalso.
    rewrite last_cons_cons in Hml. symmetry in Hml. cbn in Hml.
    apply last_Some in Hml as [l Hml]. rewrite fmap_cons, Hml, fmap_app in Hs.
    apply StronglySorted_inv in Hs as [_ Hs]. apply Forall_app in Hs as [_ Hs].
    cbn in Hs. decompose_bytes. lia.
  - eapply ss_sublist; [|exact Hs]. by apply fmap_sublist.
  - destruct (merge_head b m) as [t ->]. done.
  - apply merge_last.
Qed.

Lemma heap_free_eq h ptr m' b m :
  free_word (length (heap_map h) - 1) (heap_map h) 0 (Z.lor (u32 ptr) used_bit) = Some m' →
  m' = b :: m →
  heap_free h ptr = Some (Heap (heap_map_addr h) (merge_from b m) (heap_map_size h)).
Proof.
  intros Hf ->. unfold heap_free. rewrite Hf. cbn [mbind option_bind].
  pose proof (coalesce_loop [] b m (S (length (b :: m))) ltac:(simpl; lia)) as Hloop.
  cbn [app length] in Hloop |- *. by rewrite Hloop.
Qed.

(** The words before a word of the map are below it. *)
Lemma wf_before top h l1 w l2 :
  wf top h → heap_map h = l1 ++ w :: l2 → Forall (λ w', w' ≠ w) l1.
Proof.
  intros [_ Hs _ _ _ _] Hm. rewrite Hm, fmap_app, fmap_cons in Hs.
  rewrite StronglySorted_app in Hs. destruct Hs as [Hlt _].
  apply Forall_forall. intros w' Hin ->.
  assert (clear_used w < clear_used w); [|lia].
  apply Hlt; [|by left]. apply list_elem_of_fmap_2. done.
Qed.

Lemma heap_free_hit top h l1 w e l2 ptr :
  wf top h → heap_map h = l1 ++ w :: e :: l2 → w = Z.lor (u32 ptr) used_bit →
  ∃ h', heap_free h ptr = Some h' ∧ wf top h' ∧ coalesced (heap_map h') ∧
    heap_map_addr h' = heap_map_addr h ∧ heap_map_size h' = heap_map_size h ∧
    blocks_of true (heap_map h') = blocks_of true (l1 ++ clear_used w :: e :: l2) ∧
    (coalesced (l1 ++ clear_used w :: e :: l2) →
       heap_map h' = l1 ++ clear_used w :: e :: l2) ∧
    ∃ b m, l1 ++ clear_used w :: e :: l2 = b :: m ∧ heap_map h' = merge_from b m.
Proof.
  intros Hwf Hm Hw.
  destruct (wf_split top h l1 w e l2 Hwf Hm) as (Hww & Hwe & Hlt).
  pose proof (free_word_hit (length (heap_map h) - 1) [] l1 w (e :: l2)
    (wf_before top h l1 w (e :: l2) Hwf Hm)) as Hf.
  cbn [app length] in Hf. change (Z.of_nat 0) with 0 in Hf. rewrite <- Hm, Hw in Hf.
  specialize (Hf ltac:(rewrite Hm, length_app; simpl; lia)). rewrite <- Hw in Hf.
  set (h1 := Heap (heap_map_addr h) (l1 ++ clear_used w :: e :: l2) (heap_map_size h)).
  destruct (word_clear w Hww) as (Hwc & Huc & Hcc).
  assert (Hwf1 : wf top h1).
  { pose proof Hwf as [Hw1 Hs1 _ _ [H2 _] _]. unfold heap_map_entries in H2.
    rewrite Hm in *. rewrite length_app in H2. simpl in H2.
    apply wf_remap; rewrite ?Hm; [done| | | | |].
    - apply Forall_app in Hw1 as [? Hw1]. apply Forall_cons_1 in Hw1 as [_ Hw1].
      apply Forall_app; split; [done|]. by constructor.
    - rewrite !length_app. simpl. lia.
    - rewrite fmap_app, !fmap_cons in *. by rewrite Hcc.
    - destruct l1; [|done]. cbn. by rewrite Hcc.
    - by rewrite !last_app_cons, !last_cons_cons. }
  destruct (l1 ++ clear_used w :: e :: l2) as [|b m] eqn:Hbm; [by destruct l1|].
  rewrite (heap_free_eq h ptr _ b m) by (rewrite <- ?Hw; done).
  eexists; split; [done|]. cbn [heap_map heap_map_addr heap_map_size].
  split; [exact (merge_wf top h1 b m Hwf1 eq_refl)|].
  split; [apply merge_coalesced|]. split; [done|split; [done|]].
  split; [apply merge_blocks|]. split; [apply merge_id|]. by exists b, m.
Qed.

(** [heap_free] on every pointer with an even address. *)
Lemma heap_free_miss top h ptr :
  wf top h → (∀ e, (clear_used (Z.lor (u32 ptr) used_bit), e) ∉ blocks_of true (heap_map h)) →
  ∃ h', heap_free h ptr = Some h' ∧ wf top h' ∧ coalesced (heap_map h') ∧
    blocks_of true (heap_map h') = blocks_of true (heap_map h).
Proof.
  intros Hwf Hno. set (a := Z.lor (u32 ptr) used_bit) in *.
  pose proof Hwf as [Hw _ _ [Hl Htop] [H2 _] _]. unfold heap_map_entries in H2.
  assert (Ha : is_used a = true).
  { unfold is_used, a, used_bit. change 1 with (2 ^ 1 - 1) at 2.
    rewrite land_ones_mod by lia. change (2 ^ 1) with 2. rewrite Zmod_odd.
    rewrite <- Z.bit0_odd, Z.lor_spec. by rewrite orb_true_r. }
  assert (Hne : Forall (λ w, w ≠ a) (heap_map h)).
  { apply Forall_forall. intros w Hin ->.
    apply list_elem_of_split in Hin as (l1 & l2 & Hm). destruct l2 as [|e l2].
    - rewrite Hm, last_snoc in Hl. injection Hl as Hl. congruence.
    - apply (Hno (clear_used e)). apply elem_of_blocks. by exists l1, a, e, l2. }
  destruct (heap_map h) as [|b m] eqn:Hm; [simpl in H2; lia|].
  pose proof (free_word_miss (length (b :: m) - 1) [] (b :: m) a Hne ltac:(lia)) as Hf.
  cbn [app] in Hf. change (Z.of_nat (length [])) with 0 in Hf.
  rewrite (heap_free_eq h ptr (b :: m) b m); [|rewrite Hm; exact Hf|done].
  eexists; split; [done|]. split; [by apply merge_wf|].
  split; [apply merge_coalesced|apply merge_blocks].
Qed.

(** ** Blocks do not overlap *)

Lemma blocks_lookup u m b e :
  (b, e) ∈ blocks_of u m →
  ∃ i, (clear_used <$> m) !! i = Some b ∧ (clear_used <$> m) !! S i = Some e.
Proof.
  intros (l1 & w & w' & l2 & -> & _ & -> & ->)%elem_of_blocks. exists (length l1).
  rewrite !list_lookup_fmap. split.
  - by rewrite list_lookup_middle.
  - rewrite lookup_app_r by lia. by replace (S (length l1) - length l1)%nat with 1%nat by lia.
Qed.

Lemma ss_lookup l i j a b :
  StronglySorted Z.lt l → l !! i = Some a → l !! j = Some b → (i < j)%nat → a < b.
Proof.
  intros Hs. revert i j. induction Hs as [|x l Hs IH Hx]; intros i j Hi Hj Hij; [done|].
  destruct j as [|j]; [lia|]. destruct i as [|i]; simpl in *.
  - injection Hi as <-. by apply (proj1 (Forall_lookup _ _) Hx j).
  - apply (IH i j); [done|done|lia].
Qed.

Lemma ss_lookup_le l i j a b :
  StronglySorted Z.lt l → l !! i = Some a → l !! j = Some b → (i ≤ j)%nat → a ≤ b.
Proof.
  intros Hs Hi Hj Hij. destruct (decide (i = j)) as [->|].
  - rewrite Hi in Hj. injection Hj as ->. lia.
  - pose proof (ss_lookup l i j a b Hs Hi Hj ltac:(lia)). lia.
Qed.

Lemma blocks_disjoint top h u u' b e b' e' :
  wf top h → (b, e) ∈ blocks_of u (heap_map h) → (b', e') ∈ blocks_of u' (heap_map h) →
  b = b' ∧ e = e' ∨ e ≤ b' ∨ e' ≤ b.
Proof.
  intros Hwf (i & Hb & He)%blocks_lookup (j & Hb' & He')%blocks_lookup.
  pose proof (wf_sorted top h Hwf) as Hs.
  destruct (lt_eq_lt_dec i j) as [[Hij| ->]|Hij].
  - right. left. by apply (ss_lookup_le _ (S i) j e b' Hs).
  - left. split; congruence.
  - right. right. by apply (ss_lookup_le _ (S j) i e' b Hs).
Qed.


Lemma wf_block_bounds top h u b e :
  wf top h → (b, e) ∈ blocks_of u (heap_map h) →
  heap_map_addr h + heap_map_size h ≤ b ∧ b < e ∧ e ≤ top ∧ top < 2 ^ 32.
Proof.
  intros Hwf (l1 & w & w' & l2 & Hm & _ & -> & ->)%elem_of_blocks.
  pose proof (wf_bounds top h l1 w w' l2 Hwf Hm).
  pose proof (wf_split top h l1 w w' l2 Hwf Hm) as (_ & _ & ?).
  destruct (wf_last top h Hwf) as [Hl _]. apply last_Some in Hl as [l Hl].
  pose proof (wf_words top h Hwf) as Hw. rewrite Hl in Hw.
  apply Forall_app in Hw as [_ Hw]. decompose_bytes.
  match goal with H : word_ok top |- _ => destruct H as [? _] end. lia.
Qed.


Definition small_heap : heap := Heap 0x100000 [0x101000; 0x180000] 0x1000.

(** The invariant of a given heap, by computation. *)
#[export] Instance word_ok_dec w : Decision (word_ok w).
Proof. unfold word_ok. apply _. Defined.

Definition wf_check (top : Z) (h : heap) : bool :=
  bool_decide (Forall word_ok (heap_map h)) &&
  bool_decide (StronglySorted Z.lt (clear_used <$> heap_map h)) &&
  bool_decide (clear_used <$> head (heap_map h) = Some (heap_map_addr h + heap_map_size h)) &&
  bool_decide (last (heap_map h) = Some top ∧ is_used top = false) &&
  bool_decide (2 ≤ heap_map_entries h ∧ 4 * heap_map_entries h ≤ heap_map_size h) &&
  bool_decide (0 < heap_map_addr h ∧ 0 < heap_map_size h ∧
    heap_map_addr h mod 0x1000 = 0 ∧ heap_map_size h mod 0x1000 = 0).

Lemma wf_check_ok top h : wf_check top h = true → wf top h.
Proof.
  unfold wf_check. rewrite !andb_true_iff, !bool_decide_eq_true.
  intros (((((? & ?) & ?) & ?) & ?) & ?). by constructor.
Qed.

Lemma small_heap_wf : wf 0x180000 small_heap.
Proof. apply wf_check_ok. vm_compute. reflexivity. Qed.


Lemma even_word ptr :
  0 < ptr < 2 ^ 32 → ptr mod 2 = 0 →
  Z.lor (u32 ptr) used_bit = ptr + 1 ∧ clear_used (ptr + 1) = ptr ∧
  is_used (ptr + 1) = true.
Proof.
  intros Hp H2. rewrite wrap_small by lia. unfold used_bit.
  assert (Hl : Z.lor ptr 1 = ptr + 1).
  { replace ptr with (Z.shiftl (ptr / 2) 1) at 1 by (rewrite Z.shiftl_mul_pow2 by lia; dlia).
    rewrite lor_shiftl_add by lia. dlia. }
  split; [done|]. split; [rewrite clear_used_eq by dlia; dlia|].
  rewrite is_used_eq. apply Z.eqb_eq. dlia.
Qed.

(** A word with bit 0 set is its address plus one. *)
Lemma used_word w : 0 ≤ w < 2 ^ 32 → is_used w = true → w = clear_used w + 1.
Proof.
  intros Hw Hu. rewrite is_used_eq in Hu. apply Z.eqb_eq in Hu.
  rewrite clear_used_eq by done. dlia.
Qed.

(** [free] takes back exactly one block.  On a well-formed heap it ends
    without an undefined access, and afterwards the heap is well formed and
    no two free blocks are neighbours.  When [ptr] is the begin of an
    allocated block, that block is gone and all the others are as they were;
    when it is not, the allocated blocks are the same as before. *)
Theorem heap_free_correct (top : Z) (h : heap) (ptr : Z)
    (Hwf : wf top h) (Hptr : 0 < ptr < 2 ^ 32) (Heven : ptr mod 2 = 0) :
  ∃ h', free true h ptr = Some h' ∧ wf top h' ∧ coalesced (heap_map h') ∧
    (∀ e, (ptr, e) ∈ blocks_of true (heap_map h) →
       blocks_of true (heap_map h) ≡ₚ (ptr, e) :: blocks_of true (heap_map h')) ∧
    ((∀ e, (ptr, e) ∉ blocks_of true (heap_map h)) →
       blocks_of true (heap_map h') = blocks_of true (heap_map h)).
Proof.
  unfold free. rewrite (proj2 (Z.eqb_neq ptr 0)) by lia. cbn [negb].
  destruct (even_word ptr Hptr Heven) as (Ha & Hc & Hu).
  destruct (decide (ptr ∈ (blocks_of true (heap_map h)).*1)) as [Hin|Hno].
  - apply list_elem_of_fmap in Hin as ([b e] & Heq & Hin). cbn in Heq. subst b.
    pose proof Hin as (l1 & w & w' & l2 & Hm & Huw & Hw & He)%elem_of_blocks.
    destruct (wf_split top h l1 w w' l2 Hwf Hm) as (Hww & _ & _).
    pose proof (used_word w (proj1 Hww) Huw) as Hw1. rewrite <- Hw in Hw1.
    destruct (heap_free_hit top h l1 w w' l2 ptr Hwf Hm ltac:(congruence))
      as (h' & Hf & Hwf' & Hco & _ & _ & Hbl & _).
    exists h'. split; [done|split; [done|split; [done|]]].
    split; [|intros Hall; by destruct (Hall e)]. intros e' Hin'.
    destruct (blocks_disjoint top h true true _ _ _ _ Hwf Hin Hin') as [[_ <-]|Hd].
    2:{ pose proof (wf_block_bounds _ _ _ _ _ Hwf Hin).
        pose proof (wf_block_bounds _ _ _ _ _ Hwf Hin'). lia. }
    rewrite Hbl, Hm. destruct (word_clear w Hww) as (_ & Huc & Hcc).
    rewrite (blocks_of_app true l1 w), (blocks_of_app true l1 (clear_used w)).
    rewrite (blocks_of_last true l1 (clear_used w) w) by done.
    rewrite !blocks_of_cons, Huw, Huc. cbn [Bool.eqb app].
    rewrite <- Hw, <- He. symmetry. apply Permutation_middle.
  - assert (Hno' : ∀ e, (ptr, e) ∉ blocks_of true (heap_map h)).
    { intros e Hin. apply Hno. apply list_elem_of_fmap. by exists (ptr, e). }
    destruct (heap_free_miss top h ptr Hwf) as (h' & Hf & Hwf' & Hco & Hbl).
    { rewrite Ha, Hc. exact Hno'. }
    exists h'. split; [done|split; [done|split; [done|]]]. split; [|done].
    intros e Hin. by destruct (Hno' e).
Qed.

Definition used_heap : heap := Heap 0x100000 [0x101000; 0x17F001; 0x180000] 0x1000.

Lemma used_heap_wf : wf 0x180000 used_heap.
Proof. apply wf_check_ok. vm_compute. reflexivity. Qed.

Lemma heap_free_correct_witness :
  ∃ h', free true used_heap 0x17F000 = Some h' ∧ coalesced (heap_map h') ∧
    heap_map h' = [0x101000; 0x180000].
Proof.
  destruct (heap_free_correct 0x180000 used_heap 0x17F000 used_heap_wf ltac:(lia) eq_refl)
    as (h' & Hf & _ & Hc & _).
  exists h'. split; [exact Hf|split; [exact Hc|]].
  vm_compute in Hf. injection Hf as <-. reflexivity.
Defined.

(** ** Allocation and release *)

Lemma merge_insert b0 m l1 b a e l2 :
  b0 :: m = l1 ++ b :: a :: e :: l2 → is_used b = false → is_used a = false →
  coalesced (l1 ++ b :: e :: l2) → merge_from b0 m = l1 ++ b :: e :: l2.
Proof.
  revert b0 m. induction l1 as [|x l1 IH]; intros b0 m Hm Hb Ha Hc.
  - cbn [app] in Hm. injection Hm as -> ->.
    rewrite merge_from_cons, Hb, Ha. by apply merge_id.
  - cbn [app] in Hm. injection Hm as -> Hm. destruct l1 as [|y l1]; cbn [app] in *.
    + destruct Hc as [Hu Hc]. rewrite Hm, merge_from_cons, Hu.
      f_equal. by apply IH.
    + assert (Hsplit : ∃ z t, l1 ++ b :: a :: e :: l2 = z :: t)
        by (destruct l1; by do 2 eexists).
      destruct Hsplit as (z & t & Hzt).
      assert (Hu : is_used x || is_used y = true)
        by (destruct l1; by destruct Hc).
      assert (Hc' : coalesced (y :: l1 ++ b :: e :: l2))
        by (destruct l1; by destruct Hc).
      rewrite Hm, Hzt, merge_from_cons, Hu. f_equal. rewrite <- Hzt. by apply IH.
Qed.

(** What a successful allocation has found. *)
Lemma heap_alloc_success top h h1 alignment size ptr :
  wf top h → 0 ≤ alignment → 0 ≤ size →
  aligned_alloc true h alignment size = Some (ptr, h1) → ptr ≠ 0 →
  ∃ i addr ins, chosen (heap_map h) (align_of alignment) size i addr ins ∧
    addr mod 16 = 0 ∧ 0 < size ∧
    (grown ← heap_grow h;
     match grown with
     | None => Some (0, h)
     | Some h => heap_place h i addr ins
     end) = Some (ptr, h1).
Proof.
  intros Hwf Hal Hsz Halloc Hptr.
  unfold aligned_alloc, heap_aligned_alloc in Halloc. cbn [negb] in Halloc.
  rewrite !Z.gtb_ltb in Halloc.
  destruct (Z.eqb_spec alignment 0); [by injection Halloc as <- _|].
  destruct (Z.ltb_spec 0x2000 alignment); [by injection Halloc as <- _|].
  cbn [orb] in Halloc.
  destruct (Z.eqb_spec (Z.land alignment (alignment - 1)) 0) as [Hpow|];
    cbn [negb] in Halloc; [|by injection Halloc as <- _].
  fold (align_of alignment) in Halloc. cbv zeta in Halloc.
  destruct (Z.eqb_spec size 0); [by injection Halloc as <- _|].
  destruct (Z.ltb_spec 0x10000000 size); [by injection Halloc as <- _|].
  cbn [orb] in Halloc.
  destruct (align_of_ok alignment ltac:(lia) Hpow) as (Ha & Ha16 & _).
  destruct (wf_room top h Hwf) as [H2 _]. unfold heap_map_entries in H2.
  destruct (heap_search_spec top h (align_of alignment) size (length (heap_map h) - 1) Hwf
    ltac:(lia) ltac:(lia) ltac:(lia)) as (r & Hr & Hch).
  rewrite Hr in Halloc. cbn [mbind option_bind] in Halloc.
  destruct r as [[[i addr] ins]|]; [|by injection Halloc as <- _].
  destruct Hch as [Hch _].
  destruct (Z.eqb_spec addr 0); [by injection Halloc as <- _|].
  exists i, addr, ins. split; [done|].
  destruct Hch as (_ & _ & _ & _ & _ & _ & _ & _ & _ & Hmod & _).
  split; [|split; [lia|done]].
  apply (mod_divide_trans addr (align_of alignment)); [lia|lia|done|done].
Qed.

(** A block that is taken and given back leaves no trace: on a
    well-formed heap whose free blocks are joined and whose map is not full,
    [free] after a successful allocation restores the heap exactly as it
    was. *)
Theorem heap_alloc_free (top : Z) (h h1 : heap) (alignment size ptr : Z)
    (Hwf : wf top h) (Hco : coalesced (heap_map h)) (Hroom : ¬ full h)
    (Hal : 0 ≤ alignment) (Hsz : 0 ≤ size)
    (Halloc : aligned_alloc true h alignment size = Some (ptr, h1)) (Hptr : ptr ≠ 0) :
  free true h1 ptr = Some h.
Proof.
  destruct (heap_alloc_success top h h1 alignment size ptr Hwf Hal Hsz Halloc Hptr)
    as (i & addr & ins & (l1 & b & e & l2 & Hm & -> & Hu & Hba & Hae & _ & _ & ->)
        & H16 & Hpos & Hplace). clear Halloc.
  destruct (heap_grow_spec top h Hwf) as (g & Hg & Hgr). rewrite Hg in Hplace.
  cbn [mbind option_bind] in Hplace. destruct g as [h0|]; [|by destruct Hgr].
  destruct Hgr as (_ & Hrm & _ & [[-> _]|[? _]]); [|done].
  destruct (wf_split top h l1 b e l2 Hwf Hm) as (Hwb & Hwe & Hbe).
  pose proof (word_free b Hwb Hu) as Hcb.
  assert (Hce : clear_used e < 2 ^ 32)
    by (destruct Hwe as [? _]; rewrite clear_used_eq by done; dlia).
  assert (Hb0 : 0 ≤ b) by (by destruct Hwb as [[? _] _]).
  destruct (heap_place_spec top h l1 b e l2 addr Hwf Hrm Hm Hu ltac:(lia) H16)
    as (h' & Hp & Hwf' & _ & Hh').
  rewrite Hp in Hplace. injection Hplace as -> ->.
  destruct (word_set ptr ltac:(lia) H16) as (_ & Hset & Hclr).
  unfold free. rewrite (proj2 (Z.eqb_neq ptr 0)) by done. cbn [negb].
  assert (Hres : ∀ h'', heap_map_addr h'' = heap_map_addr h1 →
    heap_map_size h'' = heap_map_size h1 → heap_map h'' = heap_map h → h'' = h).
  { rewrite Hh'. cbn [heap_map_addr heap_map_size]. intros [? ? ?] ? ? ?.
    destruct h. cbn in *. congruence. }
  destruct (Z.eqb_spec ptr b) as [Heq|Hne].
  - assert (Hm1 : heap_map h1 = l1 ++ Z.lor ptr used_bit :: e :: l2) by (by rewrite Hh').
    destruct (heap_free_hit top h1 _ _ _ _ ptr Hwf' Hm1 ltac:(by rewrite wrap_small by lia))
      as (h'' & -> & _ & _ & Had & Hsi & _ & Hid & _).
    f_equal. apply Hres; [done|done|]. rewrite Hid; rewrite Hclr, Heq, <- Hm; done.
  - assert (Hm1 : heap_map h1 = (l1 ++ [b]) ++ Z.lor ptr used_bit :: e :: l2)
      by (rewrite Hh'; cbn [heap_map]; by rewrite <- app_assoc).
    destruct (heap_free_hit top h1 _ _ _ _ ptr Hwf' Hm1 ltac:(by rewrite wrap_small by lia))
      as (h'' & -> & _ & _ & Had & Hsi & _ & _ & b0 & m & Hbm & Hmm).
    f_equal. apply Hres; [done|done|]. rewrite Hmm, Hm.
    rewrite Hclr, <- app_assoc in Hbm. cbn [app] in Hbm.
    apply (merge_insert b0 m l1 b ptr e l2); [done|done| |by rewrite <- Hm].
    destruct (even_word ptr ltac:(lia) ltac:(dlia)) as (_ & Hc2 & _).
    rewrite is_used_eq. apply Z.eqb_neq. dlia.
Qed.

Lemma heap_alloc_free_witness :
  ∃ ptr h1, aligned_alloc true small_heap 64 5000 = Some (ptr, h1) ∧ ptr = 0x17EC40 ∧
    free true h1 ptr = Some small_heap.
Proof.
  do 2 eexists. split; [vm_compute; reflexivity|]. split; [reflexivity|].
  apply (heap_alloc_free 0x180000 small_heap _ 64 5000 0x17EC40 small_heap_wf).
  - exact I.
  - vm_compute. discriminate.
  - lia.
  - lia.
  - vm_compute. reflexivity.
  - lia.
Defined.

(** ** [heap_usage] *)

(** The bytes in a list of blocks. *)
Definition bytes_in (bs : list (Z * Z)) : Z := foldr (λ b s, b.2 - b.1 + s) 0 bs.

Lemma bytes_in_app l1 l2 : bytes_in (l1 ++ l2) = bytes_in l1 + bytes_in l2.
Proof. unfold bytes_in. induction l1; simpl; lia. Qed.

Lemma usage_loop_spec top h (i : nat) al un :
  wf top h → (i < length (heap_map h))%nat →
  usage_loop (heap_map h) i al un
  = Some (al + bytes_in (blocks_of true (take (S i) (heap_map h))),
          un + bytes_in (blocks_of false (take (S i) (heap_map h)))).
Proof.
  intros Hwf. revert al un. induction i as [|i IH]; intros al un Hi; cbn [usage_loop].
  { destruct (heap_map h) as [|w m]; [simpl in Hi; lia|]. cbn. by rewrite !Z.add_0_r. }
  destruct (rd_split (heap_map h) i Hi) as (l1 & b & e & l2 & Hm & Hl1 & Hb & He).
  destruct (wf_split top h l1 b e l2 Hwf Hm) as (Hwb & Hwe & Hbe).
  rewrite Hb, He. cbn [mbind option_bind].
  assert (Ht1 : take (S i) (heap_map h) = l1 ++ [b]).
  { rewrite Hm, (cons_middle b), app_assoc.
    by rewrite take_app_length' by (rewrite length_app; simpl; lia). }
  assert (Ht2 : take (S (S i)) (heap_map h) = l1 ++ [b; e]).
  { rewrite Hm. replace (l1 ++ b :: e :: l2) with ((l1 ++ [b; e]) ++ l2)
      by (by rewrite <- app_assoc).
    by rewrite take_app_length' by (rewrite length_app; simpl; lia). }
  rewrite Ht2. rewrite !(blocks_of_app _ l1 b [e]), !bytes_in_app.
  rewrite !blocks_of_cons. change (blocks_of _ [e]) with (@nil (Z * Z)). rewrite !app_nil_r.
  pose proof Hwb as [Hb32 _]. destruct Hwe as [He32 _].
  assert (Hcb : 0 ≤ clear_used b) by (rewrite clear_used_eq by done; dlia).
  assert (Hce : clear_used e < 2 ^ 32) by (rewrite clear_used_eq by done; dlia).
  destruct (is_used b) eqn:Hu; cbn [Bool.eqb].
  - rewrite (proj2 (Z.ltb_lt _ _) Hbe), IH, Ht1, wrap_small by lia.
    unfold bytes_in at 4 6. cbn [foldr fst snd]. f_equal. f_equal; lia.
  - rewrite (word_free b Hwb Hu) in *.
    rewrite (proj2 (Z.ltb_lt _ _) Hbe), IH, Ht1, wrap_small by lia.
    unfold bytes_in at 4 6. cbn [foldr fst snd]. f_equal. f_equal; lia.
Qed.

Lemma blocks_total m w t :
  last m = Some t → head m = Some w →
  bytes_in (blocks_of true m) + bytes_in (blocks_of false m) = clear_used t - clear_used w.
Proof.
  revert w. induction m as [|x [|y m] IH]; intros w Hl Hh; [done| |].
  - injection Hl as ->. injection Hh as ->. cbn. lia.
  - injection Hh as ->. rewrite last_cons_cons in Hl. specialize (IH y Hl eq_refl).
    rewrite !blocks_of_cons, !bytes_in_app.
    destruct (is_used w); cbn [Bool.eqb]; unfold bytes_in at 1 3; cbn [foldr fst snd]; lia.
Qed.

(** The accounting is exact: on a well-formed heap [heap_usage] stores
    the number of bytes in the allocated and in the free blocks, and the two
    add up to everything between the map and the end of the heap. *)
Theorem heap_usage_correct (top : Z) (h : heap) (Hwf : wf top h) :
  heap_usage true h
  = Some (bytes_in (blocks_of true (heap_map h)), bytes_in (blocks_of false (heap_map h))) ∧
  bytes_in (blocks_of true (heap_map h)) + bytes_in (blocks_of false (heap_map h))
  = top - (heap_map_addr h + heap_map_size h).
Proof.
  pose proof Hwf as [Hw _ Hf [Hl Htop] [H2 _] _]. unfold heap_map_entries in H2. split.
  - unfold heap_usage. cbn [negb].
    rewrite (usage_loop_spec top) by (done || lia). rewrite take_ge by lia. done.
  - destruct (head (heap_map h)) as [w|] eqn:Hh; [|done]. injection Hf as Hf.
    rewrite (blocks_total _ w top Hl Hh), Hf.
    apply last_Some in Hl as [l Hl]. rewrite Hl in Hw.
    apply Forall_app in Hw as [_ Hw]. decompose_bytes. by rewrite word_free.
Qed.

Lemma heap_usage_correct_witness :
  heap_usage true used_heap = Some (0x1000, 0x7E000) ∧ 0x1000 + 0x7E000 = 0x180000 - 0x101000.
Proof. exact (heap_usage_correct 0x180000 used_heap used_heap_wf). Defined.

(** ** Every history of calls *)

Inductive heap_call :=
| CallAlignedAlloc (alignment size : Z)
| CallMalloc (size : Z)
| CallCalloc (nmemb size : Z)
| CallStrdup (s : option (list Z))
| CallFree (ptr : Z)
| CallStaticPage.

(** A call with the answer of its [mtx_lock]: the pointer (0 for [free]). *)
Definition heap_run (locked : bool) (c : heap_call) (h : heap) : option (Z * heap) :=
  match c with
  | CallAlignedAlloc alignment size => aligned_alloc locked h alignment size
  | CallMalloc size => malloc locked h size
  | CallCalloc nmemb size => '(ptr, _, h) ← calloc locked h nmemb size; Some (ptr, h)
  | CallStrdup s => '(ptr, _, h) ← strdup locked h s; Some (ptr, h)
  | CallFree ptr => h ← free locked h ptr; Some (0, h)
  | CallStaticPage => heap_alloc_static_page locked h
  end.

(** Arguments of type size_t, and strings that end. *)
Definition call_ok (c : heap_call) : Prop :=
  match c with
  | CallAlignedAlloc alignment size => 0 ≤ alignment ∧ 0 ≤ size
  | CallMalloc size => 0 ≤ size
  | CallStrdup (Some s) => 0 ∈ s
  | _ => True
  end.

(** One call *)
Inductive heap_step (h h' : heap) : Prop :=
| heap_step_intro locked c ptr :
    call_ok c → heap_run locked c h = Some (ptr, h') → heap_step h h'.

(** An allocation whose place is in the page that a full map takes meanwhile. *)
Inductive overlap_step (h h' : heap) : Prop :=
| overlap_step_intro c ptr :
    call_ok c → heap_run true c h = Some (ptr, h') → map_overlap h ptr →
    heap_map_addr h' = heap_map_addr h → heap_map_size h' = heap_map_size h + 0x1000 →
    overlap_step h h'.

Lemma alloc_wf top h alignment size :
  wf top h → 0 ≤ alignment → 0 ≤ size →
  ∃ ptr h', heap_aligned_alloc h alignment size = Some (ptr, h') ∧
    (wf top h' ∨ map_overlap h ptr ∧ heap_map_addr h' = heap_map_addr h ∧
                 heap_map_size h' = heap_map_size h + 0x1000).
Proof.
  intros Hwf Hal Hsz.
  destruct (heap_aligned_alloc_spec top h alignment size Hwf Hal Hsz)
    as (ptr & h' & Ha & Hcase). exists ptr, h'. split; [done|].
  destruct Hcase as [(_ & -> & _)|(_ & _ & [[[? _] _]|(Hov & _ & _ & _ & Hmap)])];
    [by left|by left|by right].
Qed.

Lemma string_size_pos n s i size : 0 ≤ i → string_size n s i = Some size → 0 ≤ size.
Proof.
  revert i. induction n as [|n IH]; intros i Hi; [done|]. cbn [string_size].
  destruct (s.[i]) as [c|]; [|done]. cbn [mbind option_bind].
  destruct (c =? 0); [intros [= <-]; lia|]. apply IH. lia.
Qed.

Lemma heap_free_wf top h ptr :
  wf top h → ∃ h', heap_free h ptr = Some h' ∧ wf top h'.
Proof.
  intros Hwf. set (a := Z.lor (u32 ptr) used_bit).
  destruct (decide (clear_used a ∈ (blocks_of true (heap_map h)).*1)) as [Hin|Hno].
  - apply list_elem_of_fmap in Hin as ([b e] & Heq & Hin). cbn in Heq. subst b.
    pose proof Hin as (l1 & w & w' & l2 & Hm & Huw & Hw & He)%elem_of_blocks.
    destruct (wf_split top h l1 w w' l2 Hwf Hm) as (Hww & _ & _).
    pose proof (used_word w (proj1 Hww) Huw) as Hw1.
    assert (Ha32 : 0 ≤ a < 2 ^ 32).
    { apply lor_range; [lia|apply wrap_range; lia|unfold used_bit; lia]. }
    assert (Hau : is_used a = true).
    { unfold is_used, a, used_bit. change 1 with (2 ^ 1 - 1) at 2.
      rewrite land_ones_mod by lia. change (2 ^ 1) with 2. rewrite Zmod_odd.
      rewrite <- Z.bit0_odd, Z.lor_spec. by rewrite orb_true_r. }
    pose proof (used_word a Ha32 Hau) as Ha1.
    destruct (heap_free_hit top h l1 w w' l2 ptr Hwf Hm ltac:(fold a; lia))
      as (h' & Hf & Hwf' & _). by exists h'.
  - destruct (heap_free_miss top h ptr Hwf) as (h' & Hf & Hwf' & _); [|by exists h'].
    intros e Hin. apply Hno. apply list_elem_of_fmap. by exists (clear_used a, e).
Qed.

(** The map moves up by one page. *)
Lemma static_page_wf top h locked :
  wf top h → ∃ ptr h', heap_alloc_static_page locked h = Some (ptr, h') ∧ wf top h' ∧
    (ptr = 0 ∧ h' = h ∨
     ptr = heap_map_addr h ∧ heap_map_addr h' = ptr + 0x1000 ∧
       blocks_of true (heap_map h') = blocks_of true (heap_map h)).
Proof.
  intros Hwf. pose proof Hwf as [Hw Hs Hf Hl [H2 Hr] (Ha & Hsz & Ham & Hsm)].
  unfold heap_alloc_static_page, heap_map_entries in *.
  destruct locked; cbn [negb]; [|by exists 0, h; eauto].
  destruct (heap_map h) as [|w0 [|w1 l]] eqn:Hm; [by simpl in H2|by simpl in H2|].
  destruct (wf_split top h [] w0 w1 l Hwf Hm) as (Hw0 & Hw1 & H01).
  cbn in Hf. injection Hf as Hf.
  change ((w0 :: w1 :: l).[0]) with (Some w0).
  change ((w0 :: w1 :: l).[1]) with (Some w1). cbn [mbind option_bind].
  destruct (is_used w0) eqn:Hu0; [exists 0, h; eauto|].
  pose proof (word_free w0 Hw0 Hu0) as Hfree.
  destruct Hw0 as [Hw0 Hw016]. destruct Hw1 as [Hw1 Hw116].
  pose proof (clear_used_eq w1 Hw1) as Hc1.
  rewrite (wrap_small 32 (w1 - w0)) by dlia.
  destruct (Z.ltb_spec (w1 - w0) 0x2000); [exists 0, h; eauto|].
  rewrite wr_Some by (simpl; lia). cbn [mbind option_bind].
  change (Z.to_nat 0) with 0%nat. cbn [list_insert insert].
  rewrite wrap_small by dlia.
  replace (heap_map_addr h + 0x1000 + heap_map_size h) with (w0 + 0x1000) by lia.
  assert (Hu0' : is_used (w0 + 0x1000) = false).
  { rewrite is_used_eq in *. apply Z.eqb_neq in Hu0. apply Z.eqb_neq. dlia. }
  assert (Hc0' : clear_used (w0 + 0x1000) = w0 + 0x1000).
  { rewrite clear_used_eq by dlia. rewrite is_used_eq in Hu0'. apply Z.eqb_neq in Hu0'. dlia. }
  do 2 eexists. split; [done|]. cbn [heap_map heap_map_addr heap_map_size]. split.
  - constructor; unfold heap_map_entries; cbn [heap_map heap_map_addr heap_map_size].
    + decompose_bytes. constructor; [split; [dlia|rewrite Hc0'; dlia]|by constructor].
    + rewrite !fmap_cons in *. rewrite Hc0'.
      rewrite !StronglySorted_cons, !Forall_cons_iff in *.
      destruct Hs as ((_ & H0l) & H1l & Hs). split_and!; try done; [dlia|].
      eapply Forall_impl; [exact H1l|]. simpl. dlia.
    + cbn. rewrite Hc0'. f_equal. lia.
    + by rewrite last_cons_cons in *.
    + done.
    + split_and!; [lia|lia| |done]. dlia.
  - right. split; [done|split; [done|]]. by rewrite !blocks_of_cons, Hu0, Hu0'.
Qed.

Lemma string_size_ends s :
  0 ∈ s → ∃ size, string_size (length s) s 0 = Some size.
Proof.
  assert (Hgen : ∀ l pre, 0 ∈ l →
    ∃ size, string_size (length l) (pre ++ l) (Z.of_nat (length pre)) = Some size).
  { induction l as [|c l IH]; intros pre Hin; [by apply not_elem_of_nil in Hin|].
    cbn [length string_size]. rewrite rd_app_r by lia. rewrite Z.sub_diag.
    change ((c :: l).[0]) with (Some c). cbn [mbind option_bind].
    destruct (Z.eqb_spec c 0) as [->|Hne]; [by eexists|].
    apply elem_of_cons in Hin as [?|Hin]; [congruence|].
    destruct (IH (pre ++ [c]) Hin) as [size Hs]. exists size.
    rewrite length_app, Nat2Z.inj_add, <- app_assoc in Hs. exact Hs. }
  intros Hin. exact (Hgen s [] Hin).
Qed.

(** A call on a well-formed heap is defined, and leaves a well-formed heap unless
    it is the exception. *)
Lemma heap_run_ok top h locked c :
  wf top h → call_ok c →
  ∃ ptr h', heap_run locked c h = Some (ptr, h') ∧ (wf top h' ∨ overlap_step h h').
Proof.
  intros Hwf Hok.
  assert (Hsame : ∃ ptr h', Some (0, h) = Some (ptr, h') ∧ (wf top h' ∨ overlap_step h h'))
    by (exists 0, h; auto).
  destruct c as [al sz|sz|nm sz|s|p|].
  - destruct locked; [|exact Hsame]. destruct Hok as [Hal Hsz].
    destruct (alloc_wf top h al sz Hwf Hal Hsz) as (ptr & h' & Ha & Hc). exists ptr, h'.
    split; [done|]. destruct Hc as [?|(Ho & ? & ?)]; [by left|right].
    by apply (overlap_step_intro _ _ (CallAlignedAlloc al sz) ptr).
  - destruct locked; [|exact Hsame].
    destruct (alloc_wf top h 16 sz Hwf ltac:(lia) Hok) as (ptr & h' & Ha & Hc). exists ptr, h'.
    split; [done|]. destruct Hc as [?|(Ho & ? & ?)]; [by left|right].
    by apply (overlap_step_intro _ _ (CallMalloc sz) ptr).
  - pose proof (overlap_step_intro h) as Hstep. specialize (λ h', Hstep h' (CallCalloc nm sz)).
    cbn [heap_run call_ok] in *. unfold calloc in *. set (mem_size := u64 (nm * sz)) in *.
    assert (0 ≤ mem_size) by (apply wrap_range; lia).
    destruct (_ || _); [exact Hsame|]. destruct locked; cbn [negb] in *; [|exact Hsame].
    destruct (alloc_wf top h 16 mem_size Hwf ltac:(lia) ltac:(done)) as (ptr & h' & Ha & Hc).
    rewrite Ha in *. cbn [mbind option_bind] in *. exists ptr, h'. split; [done|].
    destruct Hc as [?|(Ho & ? & ?)]; [by left|right; by eapply Hstep].
  - destruct s as [s|]; [|exact Hsame]. destruct (string_size_ends s Hok) as [size Hs].
    pose proof (string_size_pos _ _ _ _ (Z.le_refl 0) Hs).
    pose proof (overlap_step_intro h) as Hstep. specialize (λ h', Hstep h' (CallStrdup (Some s))).
    cbn [heap_run call_ok] in *. unfold strdup in *. rewrite Hs in *. cbn [mbind option_bind] in *.
    destruct locked; cbn [negb] in *; [|exact Hsame].
    destruct (alloc_wf top h 16 size Hwf ltac:(lia) ltac:(done)) as (ptr & h' & Ha & Hc).
    rewrite Ha in *. cbn [mbind option_bind] in *. exists ptr, h'. split; [done|].
    destruct Hc as [?|(Ho & ? & ?)]; [by left|right; by eapply Hstep].
  - cbn [heap_run]. unfold free. destruct (p =? 0); [exact Hsame|].
    destruct locked; cbn [negb]; [|exact Hsame].
    destruct (heap_free_wf top h p Hwf) as (h' & -> & Hwf'). exists 0, h'. auto.
  - destruct (static_page_wf top h locked Hwf) as (ptr & h' & Hp & Hwf' & _).
    exists ptr, h'. auto.
Qed.

Lemma heap_step_wf top h h' : wf top h → heap_step h h' → wf top h' ∨ overlap_step h h'.
Proof.
  intros Hwf [locked c ptr Hok Hrun].
  destruct (heap_run_ok top h locked c Hwf Hok) as (p & h1 & Hrun' & Hc).
  rewrite Hrun in Hrun'. by injection Hrun' as <- <-.
Qed.




(** ** The map that grows into a block *)

(** When only the first block is free, it is split. *)
Lemma alloc_first top h w0 e l2 size :
  wf top h → heap_map h = w0 :: e :: l2 → is_used w0 = false →
  (∀ l b l', e :: l2 = l ++ b :: l' → is_used b = false → l' = []) →
  ¬ full h → 0 < size ≤ 0x10000000 → size mod 16 = 0 → w0 + size < clear_used e →
  heap_aligned_alloc h 16 size
  = Some (clear_used e - size,
          Heap (heap_map_addr h)
            (w0 :: Z.lor (clear_used e - size) used_bit :: e :: l2) (heap_map_size h)).
Proof.
  intros Hwf Hm Hu0 Hused Hnf Hsz H16 Hlt.
  destruct (wf_split top h [] w0 e l2 Hwf Hm) as (Hw0 & He & _).
  pose proof (word_free w0 Hw0 Hu0) as Hc0. destruct Hw0 as [Hw0 _]. destruct He as [He He16].
  unfold heap_aligned_alloc. cbn [Z.eqb Z.gtb Z.compare orb negb Z.ltb].
  change (Z.land 16 (16 - 1) =? 0) with true. change (16 >? 0x2000) with false.
  change (16 =? 0) with false. change (16 <? 0x10) with false. cbn [orb negb]. cbv zeta.
  rewrite Z.gtb_ltb, (proj2 (Z.eqb_neq size 0)), (proj2 (Z.ltb_ge 0x10000000 size)) by lia.
  cbn [orb].
  destruct (wf_room top h Hwf) as [H2 Hr4]. unfold heap_map_entries in H2.
  destruct (heap_search_spec top h 16 size (length (heap_map h) - 1) Hwf
    ltac:(lia) ltac:(lia) ltac:(lia)) as (r & -> & Hr). cbn [mbind option_bind].
  destruct r as [[[i addr] ins]|].
  2:{ exfalso. apply (Hr [] w0 e l2 Hm); [rewrite Hm; simpl; lia|done|].
      exists (clear_used e - size). cbn [fst snd]. split; [lia|split; [lia|dlia]]. }
  destruct Hr as [(l1 & b & e' & l2' & Hm' & -> & Hu & Hba & Hae & Hmod & Hslack & ->) _].
  destruct l1 as [|x l1].
  2:{ rewrite Hm in Hm'. injection Hm' as _ Hm'. by apply Hused in Hm'. }
  rewrite Hm in Hm'. cbn [app] in Hm'. injection Hm' as <- <- <-.
  assert (addr = clear_used e - size) as -> by dlia.
  destruct (wf_size top h Hwf) as (Hp & _).
  rewrite (proj2 (Z.eqb_neq (clear_used e - size) 0)) by lia.
  destruct (heap_grow_spec top h Hwf) as (g & -> & Hg). cbn [mbind option_bind].
  destruct g as [h1|]; [|by destruct Hg]. destruct Hg as (_ & Hroom & _ & [[-> _]|[? _]]); [|done].
  rewrite (proj2 (Z.eqb_neq (clear_used e - size) w0)) by lia. cbn [negb].
  unfold heap_place, map_insert_word. rewrite (proj2 (Z.leb_le _ _) Hroom).
  cbn [mbind option_bind length]. rewrite Hm. cbn [take drop].
  assert (clear_used e < 2 ^ 32) by (rewrite clear_used_eq by done; dlia).
  by rewrite wrap_small by lia.
Qed.

(** The map after [n] blocks of 16 bytes from the end of the heap. *)
Fixpoint small_blocks (n : nat) : list Z :=
  match n with
  | O => [0x200000]
  | S n' => 0x200000 - 16 * Z.of_nat n + 1 :: small_blocks n'
  end.

Definition filled_heap (n : nat) : heap := Heap 0x100000 (0x101000 :: small_blocks n) 0x1000.

Lemma odd_clear z : 0 ≤ z < 2 ^ 32 → z mod 2 = 0 →
  clear_used (z + 1) = z ∧ is_used (z + 1) = true ∧ Z.lor z used_bit = z + 1.
Proof.
  intros Hz H2. destruct (decide (z = 0)) as [->|]; [done|].
  destruct (even_word z ltac:(lia) H2) as (H1 & ? & ?).
  rewrite wrap_small in H1 by lia. done.
Qed.

Lemma small_blocks_head n :
  (n ≤ 1021)%nat →
  ∃ e l, small_blocks n = e :: l ∧ clear_used e = 0x200000 - 16 * Z.of_nat n ∧
    length l = n ∧ (∀ k b k', e :: l = k ++ b :: k' → is_used b = false → k' = []).
Proof.
  induction n as [|n IH]; intros Hn; cbn [small_blocks].
  - exists 0x200000, []. split; [done|split; [done|split; [done|]]].
    intros [|? [|]] b k' [=]; by subst.
  - destruct (IH ltac:(lia)) as (e & l & Hs & Hc & Hl & Hu).
    destruct (odd_clear (0x200000 - 16 * Z.of_nat (S n)) ltac:(lia) ltac:(dlia))
      as (H1 & H2 & _).
    exists (0x200000 - 16 * Z.of_nat (S n) + 1), (small_blocks n).
    split; [done|]. split; [exact H1|]. split; [rewrite Hs; simpl; lia|].
    intros [|y k] b k' Heq Hb; cbn [app] in Heq.
    + injection Heq as <- _. congruence.
    + injection Heq as _ Heq. rewrite Hs in Heq. by eapply Hu.
Qed.

Lemma fill_step n :
  wf 0x200000 (filled_heap n) → (n ≤ 1020)%nat → heap_step (filled_heap n) (filled_heap (S n)).
Proof.
  intros Hwf Hn. destruct (small_blocks_head n ltac:(lia)) as (e & l & Hs & Hc & Hl & Hu).
  assert (Hnf : ¬ full (filled_heap n)).
  { unfold full, heap_map_entries, filled_heap. cbn [heap_map heap_map_size].
    rewrite Hs. simpl length. rewrite Hl. lia. }
  apply (heap_step_intro _ _ true (CallMalloc 16) (clear_used e - 16)).
  - simpl. lia.
  - cbn [heap_run]. unfold malloc. cbn [negb].
    rewrite (alloc_first 0x200000 _ 0x101000 e l 16 Hwf); try done; try lia.
    + unfold filled_heap. cbn [heap_map heap_map_addr heap_map_size small_blocks].
      destruct (odd_clear (clear_used e - 16) ltac:(lia) ltac:(dlia)) as (_ & _ & ->).
      rewrite Hs, Hc. do 4 f_equal. f_equal. lia.
    + unfold filled_heap. cbn [heap_map]. by rewrite Hs.
Qed.

Lemma fill_reach n :
  (n ≤ 1021)%nat → rtc heap_step (filled_heap 0) (filled_heap n) ∧ wf 0x200000 (filled_heap n).
Proof.
  induction n as [|n IH]; intros Hn.
  - split; [done|]. apply wf_check_ok. vm_compute. reflexivity.
  - destruct (IH ltac:(lia)) as [Hr Hwf]. pose proof (fill_step n Hwf ltac:(lia)) as Hs.
    split; [by eapply rtc_r|].
    destruct (heap_step_wf _ _ _ Hwf Hs) as [?|[c ptr _ _ [Hfull _] _ _]]; [done|].
    exfalso. revert Hfull. unfold full, heap_map_entries, filled_heap. cbn [heap_map heap_map_size].
    destruct (small_blocks_head n ltac:(lia)) as (e & l & Hsb & _ & Hl & _). rewrite Hsb.
    cbn [length]. rewrite Hl. lia.
Qed.

(** A full map can grow into memory that it hands out.  There is a
    history of calls on a heap of 1 MiB (1021 blocks of 16 bytes and one large
    block) after which [malloc] of 0x1800 bytes answers a non-null pointer
    inside the map itself: the search chooses the place before
    [heap_aligned_alloc] lets the map take the first page of the first
    block, and the two are not compared again. *)
Theorem heap_map_overlap_reachable :
  ∃ h0 h h' ptr,
    heap_init true true 0x100000 0x200000 = (DE_SUCCESS, Some h0) ∧
    rtc heap_step h0 h ∧
    malloc true h 0x1800 = Some (ptr, h') ∧ ptr ≠ 0 ∧
    heap_map_addr h' ≤ ptr < heap_map_addr h' + heap_map_size h'.
Proof.
  set (h := Heap 0x100000 (0x101000 :: 0x103001 :: small_blocks 1021) 0x1000).
  destruct (fill_reach 1021 ltac:(lia)) as [Hr Hwf].
  assert (Hlast : heap_step (filled_heap 1021) h).
  { destruct (small_blocks_head 1021 ltac:(lia)) as (e & l & Hs & Hc & Hl & Hu).
    assert (Hnf : ¬ full (filled_heap 1021)).
    { unfold full, heap_map_entries, filled_heap. cbn [heap_map heap_map_size].
      rewrite Hs. cbn [length]. rewrite Hl. lia. }
    apply (heap_step_intro _ _ true (CallMalloc 0xF9030) 0x103000).
    - simpl. lia.
    - cbn [heap_run]. unfold malloc. cbn [negb].
      rewrite (alloc_first 0x200000 _ 0x101000 e l 0xF9030 Hwf); try done; try lia.
      + unfold h, filled_heap. cbn [heap_map heap_map_addr heap_map_size].
        rewrite Hs, Hc. reflexivity.
      + unfold filled_heap. cbn [heap_map]. by rewrite Hs. }
  eexists (filled_heap 0), h, _, _. split; [vm_compute; reflexivity|].
  split; [by eapply rtc_r|]. split; [vm_compute; reflexivity|]. split; [done|].
  cbn [heap_map_addr heap_map_size]. lia.
Qed.
