(* ===== verification/Mm.v ===== *)
(** Physical memory: kernel/base/mm.c.

    One bit per page of 4096 bytes, set when the page is not available.  The
    allocator works from the top of memory down and remembers in
    [mm_bitmap_used] how many bytes at the end of the bitmap are full.  The
    64-bit build is modelled; [locked] is the answer of [mtx_lock]. *)

From S2P Require Import Prelude.

Record mm := Mm {
  mm_ready : bool;
  mm_bitmap : list Z;
  mm_bitmap_used : Z }.

Definition mm_bitmap_size (m : mm) : Z := Z.of_nat (length (mm_bitmap m)).

Inductive mm_type :=
| mm_normal | mm_addr36 | mm_addr32 | mm_addr28 | mm_addr24 | mm_addr20 | mm_kernel
| mm_unknown (type : Z).

(** The three loops over a run of [n] pages from bit [b] of byte [i]. *)
Fixpoint clear_loop (n : nat) (bitmap : list Z) (i b : Z) : option (list Z) :=
  match n with
  | O => Some bitmap
  | S n' =>
      val ← bitmap.[i];
      bitmap ← bitmap.[i <- u8 (Z.ldiff val (Z.shiftl 1 b))];
      let b := Z.land (b + 1) 7 in
      clear_loop n' bitmap (if b =? 0 then i + 1 else i) b
  end.

Fixpoint set_loop (n : nat) (bitmap : list Z) (i b : Z) : option (list Z) :=
  match n with
  | O => Some bitmap
  | S n' =>
      val ← bitmap.[i];
      bitmap ← bitmap.[i <- u8 (Z.lor val (Z.shiftl 1 b))];
      let b := Z.land (b + 1) 7 in
      set_loop n' bitmap (if b =? 0 then i + 1 else i) b
  end.

Fixpoint test_loop (n : nat) (bitmap : list Z) (i b : Z) : option bool :=
  match n with
  | O => Some false
  | S n' =>
      val ← bitmap.[i];
      if negb (Z.land val (Z.shiftl 1 b) =? 0) then Some true
      else
        let b := Z.land (b + 1) 7 in
        test_loop n' bitmap (if b =? 0 then i + 1 else i) b
  end.

Definition mm_bitmap_clear (bitmap : list Z) (page_frame page_count : Z) : option (list Z) :=
  clear_loop (Z.to_nat page_count) bitmap (Z.shiftr page_frame 3) (Z.land page_frame 7).

Definition mm_bitmap_set (bitmap : list Z) (page_frame page_count : Z) : option (list Z) :=
  set_loop (Z.to_nat page_count) bitmap (Z.shiftr page_frame 3) (Z.land page_frame 7).

Definition mm_bitmap_test (bitmap : list Z) (page_frame page_count : Z) : option bool :=
  test_loop (Z.to_nat page_count) bitmap (Z.shiftr page_frame 3) (Z.land page_frame 7).

Definition mm_count_table : list Z := [
  0x0001; 0x0002; 0x0004; 0x0008;
  0x0010; 0x0020; 0x0040; 0x0080;
  0x0100; 0x0200; 0x0400].

Definition mm_get_count (order : Z) : option Z :=
  if (order >=? 0) && (order <? 11) then mm_count_table.[order] else Some 0.

(** The chain of comparisons that two functions share: the page frame cut at
    the limit of the type, and [None] for an unknown type. *)
Definition type_limit (type : mm_type) : option (option Z) :=
  match type with
  | mm_normal => Some None
  | mm_addr36 => Some (Some 0x1000000)
  | mm_addr32 => Some (Some 0x100000)
  | mm_addr28 => Some (Some 0x10000)
  | mm_addr24 => Some (Some 0x1000)
  | mm_addr20 => Some (Some 0x100)
  | mm_kernel => Some (Some 0x10000)
  | mm_unknown _ => None
  end.

Definition cut_frame (type : mm_type) (page_frame : Z) : option Z :=
  l ← type_limit type;
  Some (match l with
        | None => page_frame
        | Some l => if page_frame >? l then l else page_frame
        end).

(** The bits of one byte that are zero, from bit [b]; [n] bits left. *)
Fixpoint zero_bits (n : nat) (val b : Z) (pages : Z) : Z :=
  match n with
  | O => pages
  | S n' =>
      zero_bits n' val (b + 1)
        (if Z.land val (Z.shiftl 1 b) =? 0 then pages + 1 else pages)
  end.

Fixpoint count_loop (n : nat) (bitmap : list Z) (i pages : Z) : option Z :=
  match n with
  | O => Some pages
  | S n' => val ← bitmap.[i]; count_loop n' bitmap (i + 1) (zero_bits 8 val 0 pages)
  end.

Definition mm_available_pages (locked : bool) (m : mm) (type : mm_type) : option Z :=
  let page_frame := mm_bitmap_size m * 8 in
  if negb (mm_ready m) then Some 0
  else
    match cut_frame type page_frame with
    | None => Some 0
    | Some page_frame =>
        if negb locked then Some 0
        else count_loop (Z.to_nat (Z.shiftr page_frame 3)) (mm_bitmap m) 0 0
    end.

(** The loop that skips full bytes at the end; [n] is [size].  The answer is
    (mm_bitmap_used, page_frame). *)
Fixpoint skip_full (n : nat) (bitmap : list Z) (used page_frame : Z) : option (Z * Z) :=
  match n with
  | O => Some (used, page_frame)
  | S n' =>
      val ← bitmap.[Z.of_nat n'];
      if val =? 0xFF then skip_full n' bitmap (used + 1) (page_frame - 8)
      else Some (used, page_frame)
  end.

(** The search for one page from frame [n] down: the page and the bitmap. *)
Fixpoint find_page (n : nat) (bitmap : list Z) : option (Z * list Z) :=
  match n with
  | O => Some (0, bitmap)
  | S n' =>
      let page_frame := Z.of_nat n in
      let t := Z.shiftl 1 (Z.land page_frame 7) in
      let i := Z.shiftr page_frame 3 in
      val ← bitmap.[i];
      if Z.land val t =? 0 then
        bitmap ← bitmap.[i <- u8 (Z.lor val t)];
        Some (u64 (page_frame * 0x1000), bitmap)
      else find_page n' bitmap
  end.

Definition mm_alloc_page (locked : bool) (m : mm) : option (Z * mm) :=
  if negb (mm_ready m) then Some (0, m)
  else if negb locked then Some (0, m)
  else
    let size := mm_bitmap_size m - mm_bitmap_used m in
    let page_frame := size * 8 in
    '(used, page_frame) ←
      skip_full (Z.to_nat size) (mm_bitmap m) (mm_bitmap_used m) page_frame;
    let page_frame := if negb (page_frame =? 0) then page_frame - 1 else page_frame in
    '(page, bitmap) ← find_page (Z.to_nat page_frame) (mm_bitmap m);
    Some (page, Mm (mm_ready m) bitmap used).

(** One turn of the search for a run; the state is page_frame. *)
Definition find_run_step (bitmap : list Z) (page_count page_frame : Z)
  : option (ctl Z (Z * list Z)) :=
  if page_frame =? 0 then Some (Done (0, bitmap))
  else
    used ← mm_bitmap_test bitmap page_frame page_count;
    if negb used then
      bitmap ← mm_bitmap_set bitmap page_frame page_count;
      Some (Done (u64 (page_frame * 0x1000), bitmap))
    else Some (Next (u64 (page_frame - page_count))).

Definition mm_alloc_pages (locked : bool) (m : mm) (type : mm_type) (order : Z)
  : option (Z * mm) :=
  page_count ← mm_get_count order;
  if negb (mm_ready m) || (page_count =? 0) then Some (0, m)
  else if negb locked then Some (0, m)
  else
    let size := mm_bitmap_size m - mm_bitmap_used m in
    let page_frame := size * 8 in
    '(used, page_frame) ←
      skip_full (Z.to_nat size) (mm_bitmap m) (mm_bitmap_used m) page_frame;
    let page_frame := default 0 (cut_frame type page_frame) in
    let page_frame :=
      if negb (page_frame =? 0) then Z.ldiff (page_frame - 1) (page_count - 1)
      else page_frame in
    '(page, bitmap) ←
      while (S (Z.to_nat page_frame)) (find_run_step (mm_bitmap m) page_count) page_frame;
    Some (page, Mm (mm_ready m) bitmap used).

Definition mm_free_page (locked : bool) (m : mm) (addr : Z) : option mm :=
  let page_frame := Z.shiftr addr 12 in
  if negb (mm_ready m) || (page_frame =? 0) then Some m
  else
    let i := page_frame / 8 in
    if i >=? mm_bitmap_size m then Some m
    else if negb locked then Some m
    else
      let b := Z.land page_frame 7 in
      val ← (mm_bitmap m).[i];
      bitmap ← (mm_bitmap m).[i <- u8 (Z.ldiff val (Z.shiftl 1 b))];
      let i := mm_bitmap_size m - i - 1 in
      Some (Mm (mm_ready m) bitmap (if mm_bitmap_used m >? i then i else mm_bitmap_used m)).

Definition mm_free_pages (locked : bool) (m : mm) (addr order : Z) : option mm :=
  let page_frame := Z.shiftr addr 12 in
  page_count ← mm_get_count order;
  if negb (mm_ready m) || (page_count =? 0) then Some m
  else if (page_frame =? 0) || negb (Z.land page_frame (page_count - 1) =? 0) then Some m
  else
    let i := (page_frame + (page_count - 1)) / 8 in
    if i >=? mm_bitmap_size m then Some m
    else if negb locked then Some m
    else
      bitmap ← mm_bitmap_clear (mm_bitmap m) page_frame page_count;
      let i := mm_bitmap_size m - i - 1 in
      Some (Mm (mm_ready m) bitmap (if mm_bitmap_used m >? i then i else mm_bitmap_used m)).

(** ** Pages *)

(** The bit of a page; a page outside of the bitmap is not available. *)
Definition page_used (bitmap : list Z) (f : Z) : bool :=
  match bitmap.[f / 8] with
  | Some val => Z.testbit val (f mod 8)
  | None => true
  end.

Definition frames (bitmap : list Z) : Z := 8 * Z.of_nat (length bitmap).

Lemma land_7 x : Z.land x 7 = x mod 8.
Proof. change 7 with (2 ^ 3 - 1). by rewrite land_ones_mod by lia. Qed.

Lemma shiftr_3 x : Z.shiftr x 3 = x / 8.
Proof. by rewrite Z.shiftr_div_pow2 by lia. Qed.

(** The position after one page. *)
Definition next_i (i b : Z) : Z := if Z.land (b + 1) 7 =? 0 then i + 1 else i.

Lemma next_frame i b :
  0 ≤ b < 8 → 8 * next_i i b + Z.land (b + 1) 7 = 8 * i + b + 1 ∧ 0 ≤ Z.land (b + 1) 7 < 8.
Proof.
  intros Hb. unfold next_i. rewrite land_7.
  destruct (Z.eqb_spec ((b + 1) mod 8) 0); dlia.
Qed.

Lemma test_bit val b : 0 ≤ b → (Z.land val (Z.shiftl 1 b) =? 0) = negb (Z.testbit val b).
Proof.
  intros Hb. destruct (Z.testbit val b) eqn:E; simpl.
  - apply Z.eqb_neq. intros H. apply (f_equal (λ z, Z.testbit z b)) in H.
    rewrite Z.land_spec, Z.shiftl_spec, Z.sub_diag, E, Z.bits_0 in H by lia. done.
  - apply Z.eqb_eq, Z.bits_inj_0. intros k. rewrite Z.land_spec.
    destruct (decide (k = b)) as [->|Hk]; [by rewrite E|].
    rewrite andb_false_iff. right. destruct (Z.lt_ge_cases k 0); [by rewrite Z.testbit_neg_r|].
    rewrite Z.shiftl_spec by lia. destruct (Z.lt_ge_cases (k - b) 0);
      [by rewrite Z.testbit_neg_r|]. apply Z.bits_above_log2; [lia|]. simpl. lia.
Qed.

Lemma shiftl_1_bit b k : 0 ≤ b → 0 ≤ k → Z.testbit (Z.shiftl 1 b) k = (k =? b).
Proof.
  intros Hb Hk. rewrite Z.shiftl_spec by lia. destruct (Z.eqb_spec k b) as [->|].
  - by rewrite Z.sub_diag.
  - destruct (Z.lt_ge_cases (k - b) 0); [by rewrite Z.testbit_neg_r|].
    apply Z.bits_above_log2; [lia|]. simpl. lia.
Qed.

Lemma set_bit_byte val b : is_byte val → 0 ≤ b < 8 →
  u8 (Z.lor val (Z.shiftl 1 b)) = Z.lor val (Z.shiftl 1 b) ∧
  is_byte (Z.lor val (Z.shiftl 1 b)).
Proof.
  intros Hv Hb. assert (is_byte (Z.lor val (Z.shiftl 1 b))); [|split; [by apply wrap_small|done]].
  apply (lor_range val (Z.shiftl 1 b) 8); [lia|exact Hv|].
  rewrite Z.shiftl_1_l. split; [apply Z.pow_nonneg; lia|].
  apply Z.pow_lt_mono_r; lia.
Qed.

Lemma clear_bit_byte val b : is_byte val → 0 ≤ b →
  u8 (Z.ldiff val (Z.shiftl 1 b)) = Z.ldiff val (Z.shiftl 1 b) ∧
  is_byte (Z.ldiff val (Z.shiftl 1 b)).
Proof.
  intros Hv Hb. unfold is_byte in *.
  assert (Hn : 0 ≤ Z.ldiff val (Z.shiftl 1 b)) by (apply Z.ldiff_nonneg; lia).
  assert (Hr : Z.ldiff val (Z.shiftl 1 b) < 2 ^ 8).
  { apply bits_high_lt; [lia|done|]. intros k Hk.
    rewrite Z.ldiff_spec, (testbit_high val 8) by lia. done. }
  change (2 ^ 8) with 256 in Hr. split; [apply wrap_small; change (2 ^ 8) with 256|]; lia.
Qed.

Lemma bytes_rd bitmap i val : Forall is_byte bitmap → bitmap.[i] = Some val → is_byte val.
Proof. intros Hb [_ Hv]%rd_Some. exact (proj1 (Forall_lookup _ _) Hb _ _ Hv). Qed.

(** The pages after one byte has changed. *)
Lemma page_used_wr bitmap i x g :
  0 ≤ i < Z.of_nat (length bitmap) →
  page_used (<[Z.to_nat i := x]> bitmap) g
  = if g / 8 =? i then Z.testbit x (g mod 8) else page_used bitmap g.
Proof.
  intros Hi. unfold page_used, rd. destruct (Z.leb_spec 0 (g / 8)) as [Hg|Hg].
  - destruct (Z.eqb_spec (g / 8) i) as [->|Hne].
    + by rewrite list_lookup_insert_eq by lia.
    + by rewrite list_lookup_insert_ne by lia.
  - by rewrite (proj2 (Z.eqb_neq (g / 8) i)) by lia.
Qed.

Lemma page_used_rd bitmap i b val :
  0 ≤ b < 8 → bitmap.[i] = Some val → page_used bitmap (8 * i + b) = Z.testbit val b.
Proof.
  intros Hb Hv. unfold page_used. replace ((8 * i + b) / 8) with i by dlia.
  rewrite Hv. f_equal. dlia.
Qed.

Lemma page_used_set bitmap i b val g :
  bitmap.[i] = Some val → 0 ≤ b < 8 →
  page_used (<[Z.to_nat i := Z.lor val (Z.shiftl 1 b)]> bitmap) g
  = page_used bitmap g || (g =? 8 * i + b).
Proof.
  intros Hv Hb. pose proof (rd_lt _ _ _ Hv) as Hi. rewrite page_used_wr by done.
  destruct (Z.eqb_spec (g / 8) i) as [<-|Hne].
  - unfold page_used. rewrite Hv, Z.lor_spec, shiftl_1_bit by dlia.
    f_equal. destruct (Z.eqb_spec (g mod 8) b), (Z.eqb_spec g (8 * (g / 8) + b)); dlia.
  - rewrite (proj2 (Z.eqb_neq g (8 * i + b))) by dlia. by rewrite orb_false_r.
Qed.

Lemma page_used_clear bitmap i b val g :
  bitmap.[i] = Some val → 0 ≤ b < 8 →
  page_used (<[Z.to_nat i := Z.ldiff val (Z.shiftl 1 b)]> bitmap) g
  = page_used bitmap g && negb (g =? 8 * i + b).
Proof.
  intros Hv Hb. pose proof (rd_lt _ _ _ Hv) as Hi. rewrite page_used_wr by done.
  destruct (Z.eqb_spec (g / 8) i) as [<-|Hne].
  - unfold page_used. rewrite Hv, Z.ldiff_spec, shiftl_1_bit by dlia.
    do 2 f_equal. destruct (Z.eqb_spec (g mod 8) b), (Z.eqb_spec g (8 * (g / 8) + b)); dlia.
  - rewrite (proj2 (Z.eqb_neq g (8 * i + b))) by dlia. by rewrite andb_true_r.
Qed.

(** The run of pages from [f]. *)
Definition in_run (f n g : Z) : bool := (f <=? g) && (g <? f + n).

Lemma in_run_S f n g : 0 ≤ n → in_run f (n + 1) g = (g =? f) || in_run (f + 1) n g.
Proof.
  intros Hn. unfold in_run.
  destruct (Z.leb_spec f g), (Z.leb_spec (f + 1) g), (Z.ltb_spec g (f + (n + 1))),
    (Z.ltb_spec g (f + 1 + n)), (Z.eqb_spec g f); simpl; lia.
Qed.

Lemma set_loop_spec n bitmap i b :
  Forall is_byte bitmap → 0 ≤ i → 0 ≤ b < 8 → 8 * i + b + Z.of_nat n ≤ frames bitmap →
  ∃ bitmap', set_loop n bitmap i b = Some bitmap' ∧ length bitmap' = length bitmap ∧
    Forall is_byte bitmap' ∧
    ∀ g, page_used bitmap' g = page_used bitmap g || in_run (8 * i + b) (Z.of_nat n) g.
Proof.
  unfold frames. revert bitmap i b. induction n as [|n IH]; intros bitmap i b Hby Hi Hb Hle;
    cbn [set_loop].
  { exists bitmap. split; [done|split; [done|split; [done|]]]. intros g. unfold in_run.
    destruct (Z.leb_spec (8 * i + b) g), (Z.ltb_spec g (8 * i + b + Z.of_nat 0));
      rewrite ?orb_false_r; try done. lia. }
  destruct (rd_is_Some bitmap i ltac:(lia)) as [val Hv]. rewrite Hv. cbn [mbind option_bind].
  destruct (set_bit_byte val b (bytes_rd _ _ _ Hby Hv) Hb) as [-> Hbyte].
  rewrite wr_Some by lia. cbn [mbind option_bind]. fold (next_i i b).
  destruct (next_frame i b Hb) as [Hnf Hb'].
  destruct (IH (<[Z.to_nat i:=Z.lor val (Z.shiftl 1 b)]> bitmap) (next_i i b) (Z.land (b + 1) 7))
    as (bitmap' & -> & Hlen & Hby' & Hu).
  - by apply Forall_insert.
  - lia.
  - done.
  - rewrite length_insert. lia.
  - exists bitmap'. rewrite length_insert in Hlen. split; [done|split; [done|split; [done|]]].
    intros g. rewrite Hu, (page_used_set bitmap i b val) by done.
    rewrite Nat2Z.inj_succ, <- Z.add_1_r, in_run_S, Hnf by lia. by rewrite orb_assoc.
Qed.

Lemma clear_loop_spec n bitmap i b :
  Forall is_byte bitmap → 0 ≤ i → 0 ≤ b < 8 → 8 * i + b + Z.of_nat n ≤ frames bitmap →
  ∃ bitmap', clear_loop n bitmap i b = Some bitmap' ∧ length bitmap' = length bitmap ∧
    Forall is_byte bitmap' ∧
    ∀ g, page_used bitmap' g = page_used bitmap g && negb (in_run (8 * i + b) (Z.of_nat n) g).
Proof.
  unfold frames. revert bitmap i b. induction n as [|n IH]; intros bitmap i b Hby Hi Hb Hle;
    cbn [clear_loop].
  { exists bitmap. split; [done|split; [done|split; [done|]]]. intros g. unfold in_run.
    destruct (Z.leb_spec (8 * i + b) g), (Z.ltb_spec g (8 * i + b + Z.of_nat 0));
      rewrite ?andb_true_r; try done. lia. }
  destruct (rd_is_Some bitmap i ltac:(lia)) as [val Hv]. rewrite Hv. cbn [mbind option_bind].
  destruct (clear_bit_byte val b (bytes_rd _ _ _ Hby Hv) ltac:(lia)) as [-> Hbyte].
  rewrite wr_Some by lia. cbn [mbind option_bind]. fold (next_i i b).
  destruct (next_frame i b Hb) as [Hnf Hb'].
  destruct (IH (<[Z.to_nat i:=Z.ldiff val (Z.shiftl 1 b)]> bitmap) (next_i i b) (Z.land (b + 1) 7))
    as (bitmap' & -> & Hlen & Hby' & Hu).
  - by apply Forall_insert.
  - lia.
  - done.
  - rewrite length_insert. lia.
  - exists bitmap'. rewrite length_insert in Hlen. split; [done|split; [done|split; [done|]]].
    intros g. rewrite Hu, (page_used_clear bitmap i b val) by done.
    rewrite Nat2Z.inj_succ, <- Z.add_1_r, in_run_S, Hnf by lia.
    by rewrite negb_orb, andb_assoc.
Qed.

Lemma test_loop_spec n bitmap i b :
  0 ≤ i → 0 ≤ b < 8 → 8 * i + b + Z.of_nat n ≤ frames bitmap →
  ∃ r, test_loop n bitmap i b = Some r ∧
    (r = false ↔ ∀ g, in_run (8 * i + b) (Z.of_nat n) g = true → page_used bitmap g = false).
Proof.
  unfold frames. revert i b. induction n as [|n IH]; intros i b Hi Hb Hle; cbn [test_loop].
  { exists false. split; [done|]. split; [|done]. intros _ g. unfold in_run.
    rewrite andb_true_iff, Z.leb_le, Z.ltb_lt. lia. }
  destruct (rd_is_Some bitmap i ltac:(lia)) as [val Hv]. rewrite Hv. cbn [mbind option_bind].
  rewrite test_bit, negb_involutive by lia.
  pose proof (page_used_rd bitmap i b val Hb Hv) as Hp.
  destruct (next_frame i b Hb) as [Hnf Hb'].
  rewrite Nat2Z.inj_succ, <- Z.add_1_r.
  destruct (Z.testbit val b) eqn:E.
  - exists true. split; [done|]. split; [done|]. intros Hall.
    rewrite (Hall (8 * i + b)) in Hp; [done|]. rewrite in_run_S by lia.
    by rewrite Z.eqb_refl.
  - fold (next_i i b). destruct (IH (next_i i b) (Z.land (b + 1) 7)) as (r & -> & Hr);
      [unfold next_i; destruct (_ =? 0); lia|done|lia|].
    exists r. split; [done|]. rewrite Hr, Hnf. split; intros Hall g Hg.
    + rewrite in_run_S in Hg by lia. apply orb_prop in Hg as [Hg|Hg]; [|by apply Hall].
      apply Z.eqb_eq in Hg. by subst g.
    + apply Hall. rewrite in_run_S by lia. by rewrite Hg, orb_true_r.
Qed.

Lemma frame_split f : 8 * Z.shiftr f 3 + Z.land f 7 = f ∧ 0 ≤ Z.land f 7 < 8.
Proof. rewrite shiftr_3, land_7. dlia. Qed.

Lemma mm_bitmap_set_spec bitmap f n :
  Forall is_byte bitmap → 0 ≤ f → 0 ≤ n → f + n ≤ frames bitmap →
  ∃ bitmap', mm_bitmap_set bitmap f n = Some bitmap' ∧ length bitmap' = length bitmap ∧
    Forall is_byte bitmap' ∧ ∀ g, page_used bitmap' g = page_used bitmap g || in_run f n g.
Proof.
  intros Hby Hf Hn Hle. destruct (frame_split f) as [Hs Hb].
  destruct (set_loop_spec (Z.to_nat n) bitmap (Z.shiftr f 3) (Z.land f 7))
    as (bitmap' & H1 & H2 & H3 & H4); [done|rewrite shiftr_3; dlia|done|lia|].
  exists bitmap'. rewrite Z2Nat.id, Hs in H4 by done. done.
Qed.

Lemma mm_bitmap_clear_spec bitmap f n :
  Forall is_byte bitmap → 0 ≤ f → 0 ≤ n → f + n ≤ frames bitmap →
  ∃ bitmap', mm_bitmap_clear bitmap f n = Some bitmap' ∧ length bitmap' = length bitmap ∧
    Forall is_byte bitmap' ∧
    ∀ g, page_used bitmap' g = page_used bitmap g && negb (in_run f n g).
Proof.
  intros Hby Hf Hn Hle. destruct (frame_split f) as [Hs Hb].
  destruct (clear_loop_spec (Z.to_nat n) bitmap (Z.shiftr f 3) (Z.land f 7))
    as (bitmap' & H1 & H2 & H3 & H4); [done|rewrite shiftr_3; dlia|done|lia|].
  exists bitmap'. rewrite Z2Nat.id, Hs in H4 by done. done.
Qed.

Lemma mm_bitmap_test_spec bitmap f n :
  0 ≤ f → 0 ≤ n → f + n ≤ frames bitmap →
  ∃ r, mm_bitmap_test bitmap f n = Some r ∧
    (r = false ↔ ∀ g, in_run f n g = true → page_used bitmap g = false).
Proof.
  intros Hf Hn Hle. destruct (frame_split f) as [Hs Hb].
  destruct (test_loop_spec (Z.to_nat n) bitmap (Z.shiftr f 3) (Z.land f 7))
    as (r & H1 & H2); [rewrite shiftr_3; dlia|done|lia|].
  exists r. rewrite Z2Nat.id, Hs in H2 by done. done.
Qed.

(** ** The invariant *)

Record mm_ok (m : mm) : Prop := {
  mm_bytes : Forall is_byte (mm_bitmap m);
  mm_used_range : 0 ≤ mm_bitmap_used m ≤ mm_bitmap_size m;
  mm_tail : ∀ f, 8 * (mm_bitmap_size m - mm_bitmap_used m) ≤ f → page_used (mm_bitmap m) f = true;
  mm_aligned : mm_bitmap_size m mod 0x1000 = 0;
  mm_bound : frames (mm_bitmap m) * 0x1000 < 2 ^ 64 }.

Lemma page_used_outside bitmap f : frames bitmap ≤ f → page_used bitmap f = true.
Proof.
  unfold frames. intros Hf. unfold page_used.
  rewrite (proj2 (rd_None bitmap (f / 8))); [done|]. right. dlia.
Qed.

Lemma full_byte bitmap i f :
  bitmap.[i] = Some 0xFF → f / 8 = i → page_used bitmap f = true.
Proof.
  intros Hv Hi. unfold page_used. rewrite Hi, Hv.
  assert (Hr : 0 ≤ f mod 8 < 8) by dlia.
  change 0xFF with (Z.ones 8). by apply Z.ones_spec_low.
Qed.

Lemma skip_full_spec n bitmap used pf :
  (n ≤ length bitmap)%nat → 0 ≤ used → pf = 8 * Z.of_nat n →
  used + Z.of_nat n = Z.of_nat (length bitmap) →
  (∀ f, 8 * Z.of_nat n ≤ f → page_used bitmap f = true) →
  ∃ used' pf', skip_full n bitmap used pf = Some (used', pf') ∧
    used ≤ used' ≤ Z.of_nat (length bitmap) ∧
    pf' = 8 * (Z.of_nat (length bitmap) - used') ∧
    (∀ f, pf' ≤ f → page_used bitmap f = true).
Proof.
  revert used pf. induction n as [|n IH]; intros used pf Hn Hu Hpf Hsum Htail; cbn [skip_full].
  { exists used, pf. split; [done|]. split; [lia|split; [lia|]].
    intros f Hf. apply Htail. lia. }
  destruct (rd_is_Some bitmap (Z.of_nat n) ltac:(lia)) as [val Hv]. rewrite Hv.
  cbn [mbind option_bind]. destruct (Z.eqb_spec val 0xFF) as [->|].
  - destruct (IH (used + 1) (pf - 8)) as (used' & pf' & -> & Hr & Hp & Ht); try lia.
    { intros f Hf. destruct (Z.lt_ge_cases f (8 * Z.of_nat (S n))); [|by apply Htail].
      apply (full_byte bitmap (Z.of_nat n)); [done|dlia]. }
    exists used', pf'. split; [done|]. split; [lia|done].
  - exists used, pf. split; [done|]. split; [lia|split; [lia|]].
    intros f Hf. apply Htail. lia.
Qed.

Lemma mm_skip m :
  mm_ok m →
  ∃ used pf,
    skip_full (Z.to_nat (mm_bitmap_size m - mm_bitmap_used m)) (mm_bitmap m)
      (mm_bitmap_used m) ((mm_bitmap_size m - mm_bitmap_used m) * 8) = Some (used, pf) ∧
    0 ≤ used ≤ mm_bitmap_size m ∧ pf = 8 * (mm_bitmap_size m - used) ∧
    (∀ f, pf ≤ f → page_used (mm_bitmap m) f = true).
Proof.
  intros [Hby Hr Ht _ _]. unfold mm_bitmap_size in *.
  destruct (skip_full_spec (Z.to_nat (Z.of_nat (length (mm_bitmap m)) - mm_bitmap_used m))
    (mm_bitmap m) (mm_bitmap_used m)
    ((Z.of_nat (length (mm_bitmap m)) - mm_bitmap_used m) * 8)) as (used & pf & Hs & Hu & Hp & Hf);
    [lia|lia|lia|lia|intros f Hf; apply Ht; lia|].
  exists used, pf. split; [done|split; [lia|done]].
Qed.

(** The state after a change of the bitmap that keeps the full tail. *)
Lemma mm_ok_change m r bitmap used :
  mm_ok m → length bitmap = length (mm_bitmap m) → Forall is_byte bitmap →
  0 ≤ used ≤ mm_bitmap_size m →
  (∀ f, 8 * (mm_bitmap_size m - used) ≤ f → page_used bitmap f = true) →
  mm_ok (Mm r bitmap used).
Proof.
  intros [? ? ? ? ?] Hl Hby Hu Ht. unfold mm_bitmap_size, frames in *.
  constructor; unfold mm_bitmap_size, frames; cbn [mm_bitmap mm_bitmap_used];
    rewrite ?Hl; done.
Qed.

(** ** One page *)

Lemma find_page_spec n bitmap :
  Forall is_byte bitmap → Z.of_nat n < frames bitmap ∨ n = 0%nat →
  frames bitmap * 0x1000 < 2 ^ 64 →
  ∃ page bitmap', find_page n bitmap = Some (page, bitmap') ∧
    length bitmap' = length bitmap ∧ Forall is_byte bitmap' ∧
    (page = 0 ∧ bitmap' = bitmap ∧
       (∀ f, 0 < f ≤ Z.of_nat n → page_used bitmap f = true) ∨
     ∃ f, page = f * 0x1000 ∧ 0 < f ≤ Z.of_nat n ∧ page_used bitmap f = false ∧
       (∀ g, f < g ≤ Z.of_nat n → page_used bitmap g = true) ∧
       ∀ g, page_used bitmap' g = page_used bitmap g || (g =? f)).
Proof.
  unfold frames. intros Hby Hn Hb. induction n as [|n IH]; cbn [find_page].
  { exists 0, bitmap. do 3 (split; [done|]). left. do 2 (split; [done|]). intros; lia. }
  rewrite shiftr_3, land_7. set (f := Z.of_nat (S n)) in *.
  destruct Hn as [Hn|]; [|done].
  destruct (rd_is_Some bitmap (f / 8) ltac:(dlia)) as [val Hv]. rewrite Hv.
  cbn [mbind option_bind]. rewrite test_bit by dlia.
  assert (Hp : page_used bitmap f = Z.testbit val (f mod 8)) by (unfold page_used; by rewrite Hv).
  destruct (Z.testbit val (f mod 8)) eqn:E; cbn [negb].
  - destruct IH as (page & bitmap' & -> & Hl & Hby' & Hcase); [left; lia|].
    exists page, bitmap'. do 3 (split; [done|]).
    destruct Hcase as [(-> & -> & Hall)|(g & -> & Hg & Hgu & Habove & Hset)]; [left|right].
    + do 2 (split; [done|]). intros h Hh.
      destruct (decide (h = f)) as [->|]; [done|]. apply Hall. lia.
    + exists g. split; [done|]. split; [lia|]. split; [done|]. split; [|done].
      intros h Hh. destruct (decide (h = f)) as [->|]; [done|]. apply Habove. lia.
  - destruct (set_bit_byte val (f mod 8) (bytes_rd _ _ _ Hby Hv) ltac:(dlia)) as [-> Hbyte].
    rewrite wr_Some by dlia. cbn [mbind option_bind].
    do 2 eexists. split; [done|]. split; [by rewrite length_insert|].
    split; [by apply Forall_insert|]. right. exists f.
    split; [apply wrap_small; lia|]. split; [lia|]. split; [done|]. split; [intros; lia|].
    intros g. rewrite (page_used_set bitmap (f / 8) (f mod 8) val) by (done || dlia).
    f_equal. f_equal. dlia.
Qed.

(** [mm_alloc_page] hands out the highest free page.  On every state
    that satisfies the invariant it ends without an undefined access and the
    invariant holds again.  It answers 0 and leaves the bitmap as it was when
    no page above page 0 is free; otherwise the answer is the address of the
    highest free page, and that page is the only one that changes: it is
    marked as used. *)
Theorem mm_alloc_page_correct (m : mm) (Hok : mm_ok m) (Hready : mm_ready m = true) :
  ∃ page m', mm_alloc_page true m = Some (page, m') ∧ mm_ok m' ∧
    (page = 0 ∧ mm_bitmap m' = mm_bitmap m ∧
       (∀ f, 0 < f → page_used (mm_bitmap m) f = true) ∨
     ∃ f, page = f * 0x1000 ∧ 0 < f < frames (mm_bitmap m) ∧
       page_used (mm_bitmap m) f = false ∧
       (∀ g, f < g → page_used (mm_bitmap m) g = true) ∧
       ∀ g, page_used (mm_bitmap m') g = page_used (mm_bitmap m) g || (g =? f)).
Proof.
  unfold mm_alloc_page. rewrite Hready. cbn [negb].
  destruct (mm_skip m Hok) as (used & pf & -> & Hu & Hpf & Htail). cbn [mbind option_bind].
  pose proof Hok as [Hby _ _ _ Hbd]. unfold mm_bitmap_size in *.
  set (n := if negb (pf =? 0) then pf - 1 else pf).
  assert (Hn : n = Z.max 0 (pf - 1)).
  { unfold n. destruct (Z.eqb_spec pf 0); cbn [negb]; lia. }
  destruct (find_page_spec (Z.to_nat n) (mm_bitmap m) Hby) as (page & bitmap & -> & Hl & Hby' & Hcase);
    [unfold frames; lia|done|].
  cbn [mbind option_bind]. do 2 eexists. split; [done|].
  destruct Hcase as [(-> & -> & Hall)|(f & -> & Hf & Hfu & Habove & Hset)].
  - split.
    { apply (mm_ok_change m); try done. unfold mm_bitmap_size. by rewrite <- Hpf. }
    left. do 2 (split; [done|]). intros f Hf.
    destruct (Z.lt_ge_cases f pf); [apply Hall; lia|by apply Htail].
  - split.
    { apply (mm_ok_change m); try done. unfold mm_bitmap_size.
      rewrite <- Hpf. intros g Hg. rewrite Hset. by rewrite Htail. }
    right. exists f. split; [done|]. split; [unfold frames; lia|]. split; [done|].
    split; [|done]. intros g Hg.
    destruct (Z.lt_ge_cases g pf); [apply Habove; lia|by apply Htail].
Qed.

(** ** Runs of pages *)

Lemma mm_get_count_spec order :
  mm_get_count order = Some (if bool_decide (0 ≤ order < 11) then 2 ^ order else 0).
Proof.
  unfold mm_get_count. rewrite Z.geb_leb.
  destruct (Z.leb_spec 0 order), (Z.ltb_spec order 11); cbn [andb];
    [|by rewrite bool_decide_eq_false_2 by lia..].
  rewrite bool_decide_eq_true_2 by lia.
  assert (H11 : all_below 11 (λ o, bool_decide (mm_count_table.[o] = Some (2 ^ o))) = true)
    by (vm_compute; reflexivity).
  pose proof (all_below_spec _ _ H11 order ltac:(lia)) as Hd.
  by apply bool_decide_eq_true_1 in Hd.
Qed.

Lemma align_down x k : 0 ≤ k → Z.ldiff x (2 ^ k - 1) = x - x mod 2 ^ k.
Proof.
  intros Hk. replace (2 ^ k - 1) with (Z.ones k) by (rewrite Z.ones_equiv; lia).
  rewrite Z.ldiff_ones_r, Z.shiftr_div_pow2, Z.shiftl_mul_pow2 by lia.
  pose proof (Z.div_mod x (2 ^ k)). assert (0 < 2 ^ k) by (apply Z.pow_pos_nonneg; lia). lia.
Qed.

(** The pages that a type allows. *)
Definition type_frames (m : mm) (type : mm_type) : Z :=
  match type_limit type with
  | None => 0
  | Some None => frames (mm_bitmap m)
  | Some (Some l) => Z.min l (frames (mm_bitmap m))
  end.

Definition run_free (bitmap : list Z) (f n : Z) : Prop :=
  ∀ g, in_run f n g = true → page_used bitmap g = false.

(** A run of [n] pages that a request for [type] may get. *)
Definition suitable (m : mm) (type : mm_type) (n f : Z) : Prop :=
  0 < f ∧ f mod n = 0 ∧ f + n ≤ type_frames m type ∧ run_free (mm_bitmap m) f n.

Lemma pow_divides k j : 0 ≤ k ≤ j → 2 ^ j mod 2 ^ k = 0.
Proof.
  intros Hk. replace j with (k + (j - k)) by lia. rewrite Z.pow_add_r by lia.
  rewrite Z.mul_comm. apply Z.mod_mul. assert (0 < 2 ^ k) by (apply Z.pow_pos_nonneg; lia). lia.
Qed.

Lemma mod_mod_0 x a b : 0 < a → 0 < b → x mod a = 0 → a mod b = 0 → x mod b = 0.
Proof.
  intros Ha Hb H1 H2. apply Z.mod_divide in H1, H2; [|lia|lia].
  apply Z.mod_divide; [lia|]. by apply (Z.divide_trans b a x).
Qed.

Lemma frames_aligned m k : mm_ok m → 0 ≤ k < 11 → frames (mm_bitmap m) mod 2 ^ k = 0.
Proof.
  intros Hok Hk. pose proof (mm_aligned m Hok) as Ha. unfold frames, mm_bitmap_size in *.
  apply (mod_mod_0 _ (2 ^ 10)); [lia|apply Z.pow_pos_nonneg; lia|dlia|apply pow_divides; lia].
Qed.

(** Between two multiples there is a whole run. *)
Lemma multiple_gap f n x : 0 < n → f mod n = 0 → x mod n = 0 → f < x → f + n ≤ x.
Proof.
  intros Hn Hf Hx Hlt. pose proof (Z.div_mod f n ltac:(lia)).
  pose proof (Z.div_mod x n ltac:(lia)).
  assert (f / n < x / n) by nia. nia.
Qed.

(** A page frame below the cut of the type begins a run within it. *)
Lemma below_type m type k f :
  mm_ok m → 0 ≤ k < 11 → 0 < f → f mod 2 ^ k = 0 →
  f < type_frames m type → f + 2 ^ k ≤ type_frames m type.
Proof.
  intros Hok Hk Hf Hm Hlt. pose proof (frames_aligned m k Hok Hk) as Hfr.
  assert (Hp : 0 < 2 ^ k) by (apply Z.pow_pos_nonneg; lia).
  unfold type_frames in *.
  assert (Hlim : ∀ j, 8 ≤ j → f < Z.min (2 ^ j) (frames (mm_bitmap m)) →
    f + 2 ^ k ≤ Z.min (2 ^ j) (frames (mm_bitmap m))).
  { intros j Hj Hl. destruct (Z.le_gt_cases k j).
    - apply Z.min_glb; (apply multiple_gap; [done|done| |lia]); [apply pow_divides; lia|done].
    - exfalso. assert (2 ^ j < 2 ^ k) by (apply Z.pow_lt_mono_r; lia).
      assert (f mod 2 ^ k = f) by (apply Z.mod_small; lia). lia. }
  destruct type; cbn [type_limit] in *; [by apply multiple_gap| | | | | | |lia].
  - by apply (Hlim 24).
  - by apply (Hlim 20).
  - by apply (Hlim 16).
  - by apply (Hlim 12).
  - by apply (Hlim 8).
  - by apply (Hlim 16).
Qed.

Lemma find_run_spec bitmap k pf0 :
  Forall is_byte bitmap → 0 ≤ k < 11 → frames bitmap mod 2 ^ k = 0 →
  frames bitmap * 0x1000 < 2 ^ 64 → 0 ≤ pf0 → pf0 mod 2 ^ k = 0 →
  pf0 = 0 ∨ pf0 < frames bitmap →
  ∃ page bitmap', while (S (Z.to_nat pf0)) (find_run_step bitmap (2 ^ k)) pf0
      = Some (page, bitmap') ∧
    (page = 0 ∧ bitmap' = bitmap ∧
       (∀ f, 0 < f ≤ pf0 → f mod 2 ^ k = 0 → ¬ run_free bitmap f (2 ^ k)) ∨
     ∃ f, page = f * 0x1000 ∧ 0 < f ≤ pf0 ∧ f mod 2 ^ k = 0 ∧ run_free bitmap f (2 ^ k) ∧
       (∀ g, f < g ≤ pf0 → g mod 2 ^ k = 0 → ¬ run_free bitmap g (2 ^ k)) ∧
       length bitmap' = length bitmap ∧ Forall is_byte bitmap' ∧
       ∀ g, page_used bitmap' g = page_used bitmap g || in_run f (2 ^ k) g).
Proof.
  intros Hby Hk Hfr Hb H0 Hm Hlt.
  assert (Hp : 0 < 2 ^ k) by (apply Z.pow_pos_nonneg; lia).
  destruct (while_total
    (λ pf, 0 ≤ pf ≤ pf0 ∧ pf mod 2 ^ k = 0 ∧
       ∀ f, pf < f ≤ pf0 → f mod 2 ^ k = 0 → ¬ run_free bitmap f (2 ^ k)) Z.to_nat
    (λ r : Z * list Z, r.1 = 0 ∧ r.2 = bitmap ∧
       (∀ f, 0 < f ≤ pf0 → f mod 2 ^ k = 0 → ¬ run_free bitmap f (2 ^ k)) ∨
     ∃ f, r.1 = f * 0x1000 ∧ 0 < f ≤ pf0 ∧ f mod 2 ^ k = 0 ∧ run_free bitmap f (2 ^ k) ∧
       (∀ g, f < g ≤ pf0 → g mod 2 ^ k = 0 → ¬ run_free bitmap g (2 ^ k)) ∧
       length r.2 = length bitmap ∧ Forall is_byte r.2 ∧
       ∀ g, page_used r.2 g = page_used bitmap g || in_run f (2 ^ k) g)
    (find_run_step bitmap (2 ^ k))) with (fuel := S (Z.to_nat pf0)) (s := pf0)
    as ([page bitmap'] & Hw & Hpost); [|split; [lia|split; [done|intros; lia]]|lia|].
  2:{ exists page, bitmap'. done. }
  intros pf (Hr & Hpm & Habove). unfold find_run_step.
  destruct (Z.eqb_spec pf 0) as [->|Hne].
  { eexists; split; [done|]. left. do 2 (split; [done|]). done. }
  assert (Hend : pf + 2 ^ k ≤ frames bitmap) by (apply multiple_gap; [done|done|done|lia]).
  destruct (mm_bitmap_test_spec bitmap pf (2 ^ k)) as (r & -> & Htest); [lia|lia|done|].
  cbn [mbind option_bind]. destruct r; cbn [negb].
  - eexists; split; [done|].
    assert (2 ^ k ≤ pf) by (apply (multiple_gap 0 (2 ^ k) pf); [done|apply Z.mod_0_l; lia|done|lia]).
    rewrite wrap_small by lia. split; [|lia]. split; [lia|]. split.
    + rewrite Zminus_mod, Hpm, Z.mod_same, Z.sub_0_r by lia. apply Z.mod_0_l. lia.
    + intros f Hf Hfm Hrun. destruct (Z.lt_trichotomy f pf) as [Hlt'|[->|Hgt]].
      * assert (f + 2 ^ k ≤ pf) by (by apply multiple_gap). lia.
      * apply (proj2 Htest) in Hrun. done.
      * by apply (Habove f); [lia|..].
  - destruct (mm_bitmap_set_spec bitmap pf (2 ^ k) Hby) as (bitmap' & -> & Hl & Hby' & Hset);
      [lia|lia|done|]. cbn [mbind option_bind]. eexists; split; [done|]. right. exists pf.
    cbn [fst snd]. split; [apply wrap_small; lia|]. split; [lia|]. split; [done|].
    split; [exact (proj1 Htest eq_refl)|]. by split.
Qed.

Lemma mm_alloc_pages_spec (m : mm) (type : mm_type) (order : Z)
    (Hok : mm_ok m) (Hready : mm_ready m = true) :
  ∃ page m', mm_alloc_pages true m type order = Some (page, m') ∧ mm_ok m' ∧
    mm_bitmap_size m' = mm_bitmap_size m ∧
    (page = 0 ∧ mm_bitmap m' = mm_bitmap m ∧
       (0 ≤ order < 11 → ∀ f, ¬ suitable m type (2 ^ order) f) ∨
     0 ≤ order < 11 ∧ ∃ f, page = f * 0x1000 ∧ suitable m type (2 ^ order) f ∧
       (∀ g, f < g → ¬ suitable m type (2 ^ order) g) ∧
       ∀ g, page_used (mm_bitmap m') g
            = page_used (mm_bitmap m) g || in_run f (2 ^ order) g).
Proof.
  unfold mm_alloc_pages. rewrite mm_get_count_spec, Hready. cbn [mbind option_bind negb orb].
  destruct (bool_decide_reflect (0 ≤ order < 11)) as [Ho|Ho].
  2:{ exists 0, m. do 3 (split; [done|]). by left. }
  assert (Hp : 0 < 2 ^ order) by (apply Z.pow_pos_nonneg; lia).
  rewrite (proj2 (Z.eqb_neq (2 ^ order) 0)) by lia.
  destruct (mm_skip m Hok) as (used & pf & -> & Hu & Hpf & Htail). cbn [mbind option_bind].
  set (cut := default 0 (cut_frame type pf)).
  assert (Hcut : cut = Z.min pf (type_frames m type)).
  { unfold cut, cut_frame, type_frames, frames. unfold mm_bitmap_size in *.
    destruct (type_limit type) as [[l|]|]; cbn; [rewrite Z.gtb_ltb; case_match; lia|lia|lia]. }
  set (pf0 := if negb (cut =? 0) then _ else _).
  assert (Hpf0 : 0 ≤ pf0 ∧ pf0 mod 2 ^ order = 0 ∧ (pf0 = 0 ∨ pf0 < cut) ∧
    ∀ f, 0 < f < cut → f mod 2 ^ order = 0 → f ≤ pf0).
  { unfold pf0. destruct (Z.eqb_spec cut 0) as [->|Hne]; cbn [negb].
    - split; [lia|]. split; [apply Z.mod_0_l; lia|]. split; [by left|]. lia.
    - assert (Hc0 : 0 ≤ cut).
      { rewrite Hcut. unfold type_frames, frames. unfold mm_bitmap_size in *.
        destruct type; cbn [type_limit]; lia. }
      rewrite align_down by lia. pose proof (Z.mod_pos_bound (cut - 1) (2 ^ order) Hp).
      pose proof (Z.div_mod (cut - 1) (2 ^ order) ltac:(lia)) as Hdm.
      replace (cut - 1 - (cut - 1) mod 2 ^ order)
        with ((cut - 1) / 2 ^ order * 2 ^ order) by lia.
      assert (0 ≤ (cut - 1) / 2 ^ order) by (apply Z.div_pos; lia).
      split; [nia|]. split; [apply Z.mod_mul; lia|]. split; [right; lia|].
      intros f Hf Hfm. pose proof (Z.div_mod f (2 ^ order) ltac:(lia)).
      assert (f / 2 ^ order ≤ (cut - 1) / 2 ^ order) by (apply Z.div_le_mono; lia). nia. }
  clearbody pf0. destruct Hpf0 as (H0 & Hm0 & Hlt & Hmax).
  pose proof Hok as [Hby _ _ _ Hbd].
  destruct (find_run_spec (mm_bitmap m) order pf0) as (page & bitmap & -> & Hcase);
    [done|done|by apply frames_aligned|done|done|done| |].
  { unfold frames, mm_bitmap_size in *. lia. }
  assert (Hsuit : ∀ f, suitable m type (2 ^ order) f →
    f ≤ pf0 ∧ f mod 2 ^ order = 0 ∧ run_free (mm_bitmap m) f (2 ^ order)).
  { intros f (Hf & Hfm & Hend & Hrun). split; [|done]. apply Hmax; [|done].
    split; [done|]. rewrite Hcut. apply Z.min_glb_lt; [|lia].
    destruct (Z.lt_ge_cases f pf) as [|Hge]; [done|exfalso].
    pose proof (Htail f Hge) as Hused. rewrite Hrun in Hused; [done|].
    unfold in_run. rewrite andb_true_iff, Z.leb_le, Z.ltb_lt. lia. }
  cbn [mbind option_bind]. do 2 eexists. split; [done|].
  destruct Hcase as [(-> & -> & Hnone)|(f & -> & Hf & Hfm & Hrun & Habove & Hl & Hby' & Hset)].
  - split; [apply (mm_ok_change m); try done; by rewrite <- Hpf|]. split; [done|]. left. do 2 (split; [done|]).
    intros _ f Hs. destruct (Hsuit f Hs) as (? & ? & ?). destruct Hs as [? _].
    by apply (Hnone f); [lia|..].
  - split.
    { apply (mm_ok_change m); try done. rewrite <- Hpf. intros g Hg. rewrite Hset.
      by rewrite Htail. }
    split; [unfold mm_bitmap_size; cbn [mm_bitmap]; by rewrite Hl|].
    right. split; [done|]. exists f. split; [done|]. split.
    { split; [lia|]. split; [done|]. split; [|done]. apply below_type; try done; lia. }
    split; [|done]. intros g Hg Hs. destruct (Hsuit g Hs) as (? & ? & ?).
    by apply (Habove g); [lia|..].
Qed.

(** (C38) [mm_alloc_pages] hands out the highest suitable run.  On every state
    that satisfies the invariant it ends without an undefined access and the
    invariant holds again.  For an order from 0 to 10 it answers the address
    of the highest run of 2^order free pages that is aligned to its own size,
    does not contain page 0 and lies below the limit of the memory type, and
    exactly these pages become used; it answers 0 and leaves the bitmap as it
    was when there is no such run, the order is out of range or the type is
    unknown. *)
Theorem mm_alloc_pages_correct (m : mm) (type : mm_type) (order : Z)
    (Hok : mm_ok m) (Hready : mm_ready m = true) :
  ∃ page m', mm_alloc_pages true m type order = Some (page, m') ∧ mm_ok m' ∧
    mm_bitmap_size m' = mm_bitmap_size m ∧
    (page = 0 ∧ mm_bitmap m' = mm_bitmap m ∧
       (0 ≤ order < 11 → ∀ f, ¬ suitable m type (2 ^ order) f) ∨
     0 ≤ order < 11 ∧ ∃ f, page = f * 0x1000 ∧ suitable m type (2 ^ order) f ∧
       (∀ g, f < g → ¬ suitable m type (2 ^ order) g) ∧
       ∀ g, page_used (mm_bitmap m') g
            = page_used (mm_bitmap m) g || in_run f (2 ^ order) g).
Proof. by apply mm_alloc_pages_spec. Qed.

(** ** Release *)

(** [mm_bitmap_used] after the bytes up to [i] may have changed. *)
Lemma free_tail m bitmap i f n :
  mm_ok m → 0 ≤ i < mm_bitmap_size m → 0 ≤ f → f + n ≤ 8 * (i + 1) →
  length bitmap = length (mm_bitmap m) → Forall is_byte bitmap →
  (∀ g, page_used bitmap g = page_used (mm_bitmap m) g && negb (in_run f n g)) →
  let k := mm_bitmap_size m - i - 1 in
  mm_ok (Mm (mm_ready m) bitmap (if mm_bitmap_used m >? k then k else mm_bitmap_used m)).
Proof.
  intros Hok Hi Hf Hn Hl Hby Hset k. pose proof (mm_used_range m Hok) as Hu.
  rewrite Z.gtb_ltb. apply (mm_ok_change m); [done|done|done|case_match; lia|].
  intros g Hg. rewrite Hset.
  assert (Hr : in_run f n g = false).
  { unfold in_run. apply andb_false_iff. right. apply Z.ltb_ge.
    revert Hg. destruct (Z.ltb_spec k (mm_bitmap_used m)); lia. }
  rewrite Hr, andb_true_r. apply (mm_tail m Hok). revert Hg.
  destruct (Z.ltb_spec k (mm_bitmap_used m)); lia.
Qed.

(** A run that [mm_free_pages] accepts. *)
Definition valid_run (m : mm) (f n : Z) : Prop :=
  0 < f ∧ f mod n = 0 ∧ f + n ≤ frames (mm_bitmap m).

Lemma shiftr_12 a : Z.shiftr a 12 = a / 0x1000.
Proof. by rewrite Z.shiftr_div_pow2 by lia. Qed.

Lemma mm_free_pages_spec (m : mm) (addr order : Z)
    (Hok : mm_ok m) (Hready : mm_ready m = true) (Haddr : 0 ≤ addr) :
  ∃ m', mm_free_pages true m addr order = Some m' ∧ mm_ok m' ∧
    mm_bitmap_size m' = mm_bitmap_size m ∧
    (0 ≤ order < 11 ∧ valid_run m (addr / 0x1000) (2 ^ order) ∧
       (∀ g, page_used (mm_bitmap m') g
             = page_used (mm_bitmap m) g && negb (in_run (addr / 0x1000) (2 ^ order) g)) ∨
     ¬ (0 ≤ order < 11 ∧ valid_run m (addr / 0x1000) (2 ^ order)) ∧ m' = m).
Proof.
  unfold mm_free_pages. rewrite mm_get_count_spec, Hready, shiftr_12.
  cbn [mbind option_bind negb orb]. set (f := addr / 0x1000).
  assert (Hf0 : 0 ≤ f) by (unfold f; dlia).
  destruct (bool_decide_reflect (0 ≤ order < 11)) as [Ho|Ho].
  2:{ exists m. do 3 (split; [done|]). right. split; [|done]. by intros [? _]. }
  assert (Hp : 0 < 2 ^ order) by (apply Z.pow_pos_nonneg; lia).
  rewrite (proj2 (Z.eqb_neq (2 ^ order) 0)), land_ones_mod by lia.
  destruct (Z.eqb_spec f 0) as [Hz|Hz]; cbn [orb].
  { exists m. do 3 (split; [done|]). right. split; [|done]. intros (_ & ? & _). lia. }
  destruct (Z.eqb_spec (f mod 2 ^ order) 0) as [Hm|Hm]; cbn [negb].
  2:{ exists m. do 3 (split; [done|]). right. split; [|done]. by intros (_ & _ & ? & _). }
  rewrite Z.geb_leb. unfold mm_bitmap_size.
  pose proof (frames_aligned m order Hok Ho) as Hfr.
  destruct (Z.leb_spec (Z.of_nat (length (mm_bitmap m))) ((f + (2 ^ order - 1)) / 8)) as [Hout|Hin].
  { exists m. do 3 (split; [done|]). right. split; [|done].
    intros (_ & _ & _ & Hle). unfold frames in Hle. dlia. }
  assert (Hend : f + 2 ^ order ≤ frames (mm_bitmap m)) by (unfold frames; dlia).
  destruct (mm_bitmap_clear_spec (mm_bitmap m) f (2 ^ order) (mm_bytes m Hok))
    as (bitmap & -> & Hl & Hby & Hset); [lia|lia|done|].
  cbn [mbind option_bind]. eexists. split; [done|]. split.
  - rewrite <- Hready.
    apply (free_tail m bitmap ((f + (2 ^ order - 1)) / 8) f (2 ^ order));
      try done; unfold mm_bitmap_size; dlia.
  - split; [unfold mm_bitmap_size; cbn [mm_bitmap]; by rewrite Hl|].
    left. split; [done|]. split; [|done]. split; [lia|done].
Qed.

(** [mm_free_pages] gives back exactly the pages of one run.  On every
    state that satisfies the invariant it ends without an undefined access
    and the invariant holds again.  When the address is that of a run of
    2^order pages, aligned to its size, other than page 0 and inside the
    bitmap, its pages become free and nothing else changes; otherwise the
    state stays as it was. *)
Theorem mm_free_pages_correct (m : mm) (addr order : Z)
    (Hok : mm_ok m) (Hready : mm_ready m = true) (Haddr : 0 ≤ addr) :
  ∃ m', mm_free_pages true m addr order = Some m' ∧ mm_ok m' ∧
    mm_bitmap_size m' = mm_bitmap_size m ∧
    (0 ≤ order < 11 ∧ valid_run m (addr / 0x1000) (2 ^ order) ∧
       (∀ g, page_used (mm_bitmap m') g
             = page_used (mm_bitmap m) g && negb (in_run (addr / 0x1000) (2 ^ order) g)) ∨
     ¬ (0 ≤ order < 11 ∧ valid_run m (addr / 0x1000) (2 ^ order)) ∧ m' = m).
Proof. by apply mm_free_pages_spec. Qed.

(** Pages determine the bitmap. *)
Lemma bitmap_ext b1 b2 :
  Forall is_byte b1 → Forall is_byte b2 → length b1 = length b2 →
  (∀ g, 0 ≤ g → page_used b1 g = page_used b2 g) → b1 = b2.
Proof.
  intros Hb1 Hb2 Hl Hg. apply list_eq. intros i.
  destruct (decide (i < length b1)%nat) as [Hi|Hi].
  2:{ rewrite !lookup_ge_None_2 by lia. done. }
  destruct (rd_is_Some b1 (Z.of_nat i) ltac:(lia)) as [v1 Hv1].
  destruct (rd_is_Some b2 (Z.of_nat i) ltac:(lia)) as [v2 Hv2].
  assert (Heq : v1 = v2).
  { pose proof (bytes_rd _ _ _ Hb1 Hv1) as Hr1. pose proof (bytes_rd _ _ _ Hb2 Hv2) as Hr2.
    apply Z.bits_inj'. intros k Hk. destruct (Z.lt_ge_cases k 8).
    - pose proof (Hg (8 * Z.of_nat i + k) ltac:(lia)) as Hbit.
      by rewrite (page_used_rd b1 _ k v1), (page_used_rd b2 _ k v2) in Hbit by (done || lia).
    - by rewrite !(testbit_high _ 8) by (done || lia). }
  apply rd_Some in Hv1 as [_ Hv1]. apply rd_Some in Hv2 as [_ Hv2].
  rewrite Nat2Z.id in *. congruence.
Qed.

(** ** Counting *)

(** The free pages below [n]. *)
Definition free_below (bitmap : list Z) (n : Z) : Z :=
  Z.of_nat (length (filter (λ f, page_used bitmap f = false) (seqZ 0 n))).

Lemma zero_bits_spec n val b pages :
  0 ≤ b → zero_bits n val b pages
  = pages + Z.of_nat (length (filter (λ k, Z.testbit val k = false) (seqZ b (Z.of_nat n)))).
Proof.
  revert b pages. induction n as [|n IH]; intros b pages Hb; cbn [zero_bits].
  { change (seqZ b (Z.of_nat 0)) with (@nil Z). simpl. lia. }
  rewrite IH, test_bit by lia. rewrite (seqZ_cons b) by lia.
  replace (Z.pred (Z.of_nat (S n))) with (Z.of_nat n) by lia.
  rewrite filter_cons. replace (b + 1) with (Z.succ b) by lia.
  destruct (Z.testbit val b); cbn [negb]; case_decide; cbn [length]; try done; lia.
Qed.

Lemma filter_map_length {A B} (f : A → B) (P : B → Prop) `{!∀ x, Decision (P x)} (l : list A) :
  length (filter P (f <$> l)) = length (filter (λ x, P (f x)) l).
Proof.
  induction l as [|x l IH]; [done|]. cbn [fmap list_fmap].
  rewrite !filter_cons. case_decide; cbn [length]; [by f_equal|done].
Qed.

Lemma filter_ext_length {A} (P Q : A → Prop) `{!∀ x, Decision (P x)} `{!∀ x, Decision (Q x)}
    (l : list A) :
  (∀ x, x ∈ l → P x ↔ Q x) → length (filter P l) = length (filter Q l).
Proof.
  induction l as [|x l IH]; intros HPQ; [done|]. rewrite !filter_cons.
  pose proof (HPQ x ltac:(left)) as Hx.
  specialize (IH (λ y Hy, HPQ y ltac:(by right))).
  do 2 case_decide; cbn [length]; try tauto. by rewrite IH.
Qed.

Lemma count_loop_spec n bitmap i pages :
  0 ≤ i → i + Z.of_nat n ≤ Z.of_nat (length bitmap) →
  count_loop n bitmap i pages
  = Some (pages + Z.of_nat (length (filter (λ f, page_used bitmap f = false)
                                      (seqZ (8 * i) (8 * Z.of_nat n))))).
Proof.
  revert i pages. induction n as [|n IH]; intros i pages Hi Hn; cbn [count_loop].
  { change (seqZ (8 * i) (8 * Z.of_nat 0)) with (@nil Z). simpl. do 2 f_equal. lia. }
  destruct (rd_is_Some bitmap i ltac:(lia)) as [val Hv]. rewrite Hv. cbn [mbind option_bind].
  rewrite IH, zero_bits_spec by lia. f_equal.
  replace (8 * Z.of_nat (S n)) with (8 + 8 * Z.of_nat n) by lia.
  rewrite seqZ_app, list.filter_app, length_app by lia.
  replace (8 * i + 8) with (8 * (i + 1)) by lia.
  assert (Heq : length (filter (λ f, page_used bitmap f = false) (seqZ (8 * i) 8))
    = length (filter (λ k, Z.testbit val k = false) (seqZ 0 (Z.of_nat 8)))).
  { rewrite <- (Z.add_0_r (8 * i)), <- fmap_add_seqZ, filter_map_length.
    apply filter_ext_length. intros k Hk%elem_of_seqZ. cbv beta.
    rewrite (page_used_rd bitmap i k val) by (done || lia). done. }
  rewrite Heq. lia.
Qed.

(** [mm_available_pages] counts the free pages: on every state it
    answers exactly the number of free pages below the limit of the type, and
    0 for an unknown type. *)
Theorem mm_available_pages_correct (m : mm) (type : mm_type)
    (Hready : mm_ready m = true) :
  mm_available_pages true m type = Some (free_below (mm_bitmap m) (type_frames m type)).
Proof.
  unfold mm_available_pages, free_below, type_frames, cut_frame. rewrite Hready.
  cbn [negb]. unfold mm_bitmap_size, frames.
  assert (Hcount : ∀ k, 0 ≤ k ≤ Z.of_nat (length (mm_bitmap m)) →
    count_loop (Z.to_nat (Z.shiftr (8 * k) 3)) (mm_bitmap m) 0 0
    = Some (Z.of_nat (length (filter (λ f, page_used (mm_bitmap m) f = false) (seqZ 0 (8 * k)))))).
  { intros k Hk. rewrite shiftr_3. replace (8 * k / 8) with k by dlia.
    rewrite count_loop_spec by lia. by rewrite Z2Nat.id by lia. }
  assert (Hlim : ∀ l, 0 ≤ l → l mod 8 = 0 →
    count_loop (Z.to_nat (Z.shiftr (if Z.of_nat (length (mm_bitmap m)) * 8 >? l then l
                                    else Z.of_nat (length (mm_bitmap m)) * 8) 3)) (mm_bitmap m) 0 0
    = Some (Z.of_nat (length (filter (λ f, page_used (mm_bitmap m) f = false)
        (seqZ 0 (Z.min l (8 * Z.of_nat (length (mm_bitmap m))))))))).
  { intros l Hl Hl8. rewrite Z.gtb_ltb.
    destruct (Z.ltb_spec l (Z.of_nat (length (mm_bitmap m)) * 8)).
    - rewrite Z.min_l by lia. replace l with (8 * (l / 8)) by dlia. apply Hcount. dlia.
    - rewrite Z.min_r by lia.
      replace (Z.of_nat (length (mm_bitmap m)) * 8)
        with (8 * Z.of_nat (length (mm_bitmap m))) by lia. apply Hcount. lia. }
  destruct type; cbn [type_limit mbind option_bind];
    [|by apply Hlim|by apply Hlim|by apply Hlim|by apply Hlim|by apply Hlim|by apply Hlim|done].
  rewrite (Z.mul_comm _ 8). apply Hcount. lia.
Qed.


Lemma alloc_pages_ready m type order page m1 :
  mm_alloc_pages true m type order = Some (page, m1) → mm_ready m1 = mm_ready m.
Proof.
  unfold mm_alloc_pages. destruct (mm_get_count order) as [c|]; [|done]. cbn [mbind option_bind].
  destruct (_ || _); [by intros [= _ <-]|]. cbn [negb].
  destruct (skip_full _ _ _ _) as [[used pf]|]; [|done]. cbn [mbind option_bind].
  destruct (while _ _ _) as [[p b]|]; [|done]. by intros [= _ <-].
Qed.


(** A run that is taken and given back leaves no trace: after a
    successful [mm_alloc_pages], [mm_free_pages] with the same address and
    order restores the bitmap exactly. *)
Theorem mm_alloc_free_pages (m m1 : mm) (type : mm_type) (order page : Z)
    (Hok : mm_ok m) (Hready : mm_ready m = true)
    (Halloc : mm_alloc_pages true m type order = Some (page, m1)) (Hpage : page ≠ 0) :
  ∃ m2, mm_free_pages true m1 page order = Some m2 ∧ mm_ok m2 ∧ mm_bitmap m2 = mm_bitmap m.
Proof.
  pose proof (alloc_pages_ready _ _ _ _ _ Halloc) as Hr1. rewrite Hready in Hr1.
  destruct (mm_alloc_pages_spec m type order Hok Hready) as (p & m1' & Ha & Hok1 & Hs1 & Hcase).
  rewrite Halloc in Ha. injection Ha as <- <-.
  destruct Hcase as [(-> & _)|(Ho & f & -> & (Hf & Hfm & Hend & Hfree) & _ & Hset)]; [done|].
  destruct (mm_free_pages_spec m1 (f * 0x1000) order Hok1 Hr1 ltac:(lia))
    as (m2 & -> & Hok2 & Hs2 & Hcase2). exists m2. do 2 (split; [done|]).
  rewrite Z.div_mul in Hcase2 by lia. unfold mm_bitmap_size in *.
  assert (Hvalid : valid_run m1 f (2 ^ order)).
  { split; [done|split; [done|]]. unfold type_frames, frames in *. rewrite Hs1.
    destruct (type_limit type) as [[l|]|]; [lia|lia|].
    assert (0 < 2 ^ order) by (apply Z.pow_pos_nonneg; lia). lia. }
  destruct Hcase2 as [(_ & _ & Hclear)|[Hno _]]; [|by destruct Hno].
  apply bitmap_ext; [by apply mm_bytes|by apply mm_bytes|lia|].
  intros g _. rewrite Hclear, Hset. destruct (in_run f (2 ^ order) g) eqn:E.
  - by rewrite (Hfree g E).
  - by rewrite orb_false_r, andb_true_r.
Qed.

(** ** Witnesses *)

Definition sample_mm : mm := Mm true (replicate 4094 0xFF ++ [0xF0; 0xFF]) 1.

Lemma sample_mm_ok : mm_ok sample_mm.
Proof.
  constructor; cbn [sample_mm mm_bitmap mm_bitmap_used].
  - apply Forall_app. split; [|repeat (constructor; [done|]); constructor].
    apply Forall_replicate. done.
  - unfold mm_bitmap_size. simpl. lia.
  - intros f Hf. unfold mm_bitmap_size in Hf. cbn [sample_mm mm_bitmap mm_bitmap_used] in Hf.
    change (Z.of_nat (length (replicate 4094 255 ++ [240; 255]))) with 4096 in Hf.
    destruct (Z.lt_ge_cases f 32768) as [Hlt|Hge].
    + apply (full_byte _ 4095); [reflexivity|dlia].
    + apply page_used_outside. exact Hge.
  - done.
  - unfold frames. simpl. lia.
Qed.

Lemma mm_alloc_page_correct_witness :
  ∃ m', mm_alloc_page true sample_mm = Some (32755 * 0x1000, m') ∧ mm_ok m'.
Proof.
  destruct (mm_alloc_page_correct sample_mm sample_mm_ok eq_refl) as (page & m' & Ha & Hok & _).
  exists m'. split; [|exact Hok].
  pose proof (f_equal (option_map fst) Ha) as Hp. vm_compute in Hp. injection Hp as <-.
  exact Ha.
Defined.

Lemma mm_alloc_pages_correct_witness :
  ∃ m', mm_alloc_pages true sample_mm mm_addr28 2 = Some (32752 * 0x1000, m') ∧ mm_ok m'.
Proof.
  destruct (mm_alloc_pages_correct sample_mm mm_addr28 2 sample_mm_ok eq_refl)
    as (page & m' & Ha & Hok & _).
  exists m'. split; [|exact Hok].
  pose proof (f_equal (option_map fst) Ha) as Hp. vm_compute in Hp. injection Hp as <-.
  exact Ha.
Defined.

Lemma mm_free_pages_correct_witness :
  ∃ m', mm_free_pages true sample_mm (32760 * 0x1000) 3 = Some m' ∧ mm_ok m' ∧
    mm_bitmap_used m' = 0.
Proof.
  destruct (mm_free_pages_correct sample_mm (32760 * 0x1000) 3 sample_mm_ok eq_refl
    ltac:(lia)) as (m' & Ha & Hok & _).
  exists m'. split; [exact Ha|split; [exact Hok|]].
  pose proof (f_equal (option_map mm_bitmap_used) Ha) as Hp. vm_compute in Hp.
  injection Hp as Hp. symmetry. exact Hp.
Defined.

Lemma mm_available_pages_correct_witness :
  mm_available_pages true sample_mm mm_normal = Some 4 ∧
  free_below (mm_bitmap sample_mm) (type_frames sample_mm mm_normal) = 4.
Proof.
  pose proof (mm_available_pages_correct sample_mm mm_normal eq_refl) as Ha.
  assert (Hp : mm_available_pages true sample_mm mm_normal = Some 4)
    by (vm_compute; reflexivity).
  split; [exact Hp|]. exact (inj Some _ _ (eq_sym (eq_trans (eq_sym Hp) Ha))).
Defined.

Lemma mm_alloc_free_pages_witness :
  ∃ page m1 m2, mm_alloc_pages true sample_mm mm_normal 2 = Some (page, m1) ∧
    mm_free_pages true m1 page 2 = Some m2 ∧ mm_bitmap m2 = mm_bitmap sample_mm.
Proof.
  destruct (mm_alloc_pages true sample_mm mm_normal 2) as [[page m1]|] eqn:Ha;
    [|vm_compute in Ha; discriminate Ha].
  destruct (mm_alloc_free_pages sample_mm m1 mm_normal 2 page sample_mm_ok eq_refl Ha)
    as (m2 & Hf & _ & Hb).
  - pose proof (f_equal (option_map fst) Ha) as Hp. vm_compute in Hp. injection Hp as <-.
    discriminate.
  - exists page, m1, m2. split; [reflexivity|split; [exact Hf|exact Hb]].
Defined.
