(* ===== verification/MmInit.v ===== *)
(** The start of the physical memory manager: [mm_init] of kernel/base/mm.c.

    The memory map of the firmware is turned into runs of pages, the bitmap is
    placed in the last run that is large enough, and the bits of all runs and
    of the blocks of the heap are cleared.  The 64-bit build is modelled.  What
    comes from outside is a record [boot]: the answers of [spin_trylock],
    [mtx_init], [calloc], [aligned_alloc] and [pg_map_kernel], the map, and how
    a cell of memory reads after a byte was written.  The result shows the
    pages that the manager may hand out, for every map.  The last loop, which
    maps the memory above 4 GiB, reads the table of runs after its release; the
    model of the function ends there, and [map_high] is the loop for a table
    that can be read. *)

From S2P Require Import Prelude Errors Mm.

(** ** Data *)

Record memory_entry := MemoryEntry { me_type : Z; me_base : Z }.

Definition sizeof_memory_entry : Z := 24.

Record mm_run := MmRun { page_frame : Z; page_count : Z }.

Inductive pg_type := pg_normal | pg_extended.

Record boot := Boot {
  run_once_free : bool;
  mtx_success : bool;
  calloc_success : bool;
  memory_map_size : Z;
  memory_map : list memory_entry;
  pg_map_kernel : Z → Z → pg_type → Z;
  cell : Z → Z → Z;
  aligned_alloc : list Z }.

(** [ReadReleased]: the function has come to its last loop, which reads the table
    of [mm_count] runs after it was released: the memory has no defined contents
    any more. *)
Inductive outcome :=
| Panic
| Return (e : de_error) (m : mm)
| ReadReleased (mm_count : nat) (m : mm).

(** ** The memory map *)

Definition type_kernel_reserved : Z := 0xE000FFFF.

Inductive scanned := Unexpected | Continue | Found (r : mm_run).

(** One entry of the kernel's type, from its base and the base behind it. *)
Definition scan_entry (base next : Z) : scanned :=
  if negb (next =? 0) && (base >? next) then Unexpected
  else
    let base := if base <? 0x10000 then 0x10000 else base in
    let base := Z.ldiff (u64 (base + 0x0FFF)) 0x0FFF in
    let next := Z.ldiff next 0x0FFF in
    let next := if next >? 0x800000000000 then 0x800000000000 else next in
    if base >=? next then Continue
    else
      let size := next - base in
      if size <? 0x2000 then Continue
      else Found (MmRun (base / 0x1000) (size / 0x1000)).

(** The loop over the entries from [i], [n] of them left; [None] inside is
    DE_UNEXPECTED.  [mm_array] has room for [map_entries] runs. *)
Fixpoint scan_map (n : nat) (map_entries : Z) (map : list memory_entry) (i : Z)
    (mm_array : list mm_run) : option (option (list mm_run)) :=
  match n with
  | O => Some (Some mm_array)
  | S n' =>
      e ← map.[i];
      if negb (me_type e =? type_kernel_reserved) then scan_map n' map_entries map (i + 1) mm_array
      else
        e' ← map.[i + 1];
        match scan_entry (me_base e) (me_base e') with
        | Unexpected => Some None
        | Continue => scan_map n' map_entries map (i + 1) mm_array
        | Found r =>
            if Z.of_nat (length mm_array) <? map_entries
            then scan_map n' map_entries map (i + 1) (mm_array ++ [r])
            else None
        end
  end.

(** ** The bitmap *)

Definition needed_size (r : mm_run) : Z :=
  let size := page_frame r + page_count r in
  let size := Z.ldiff (size + 7) 7 / 8 in
  Z.ldiff (size + 0x0FFF) 0x0FFF.

Fixpoint bitmap_size (size : Z) (mm_array : list mm_run) : Z :=
  match mm_array with
  | [] => size
  | r :: l => bitmap_size (if size <? needed_size r then needed_size r else size) l
  end.

(** The search for a place, from run [n - 1] down: the address of the bitmap
    in virtual memory (0 for none) and the runs. *)
Fixpoint place_bitmap (n : nat) (map : Z → Z → pg_type → Z) (size : Z) (mm_array : list mm_run)
    : option (Z * list mm_run) :=
  match n with
  | O => Some (0, mm_array)
  | S n' =>
      r ← mm_array.[Z.of_nat n'];
      let bitmap_page_count := size / 0x1000 in
      if page_count r <=? bitmap_page_count then place_bitmap n' map size mm_array
      else
        let addr := u64 (page_frame r * 0x1000) in
        if addr >? 0x7800000000 then place_bitmap n' map size mm_array
        else
          let r := MmRun (page_frame r + bitmap_page_count) (page_count r - bitmap_page_count) in
          mm_array ← mm_array.[Z.of_nat n' <- r];
          Some (map addr size pg_extended, mm_array)
  end.

(** The test that all bits are set, [n] bytes from [t0]. *)
Fixpoint all_set (n : nat) (bitmap : list Z) (t0 : Z) : option bool :=
  match n with
  | O => Some true
  | S n' =>
      val ← bitmap.[t0];
      if negb (val =? 0xFF) then Some false else all_set n' bitmap (t0 + 1)
  end.

Fixpoint clear_runs (mm_array : list mm_run) (bitmap : list Z) : option (list Z) :=
  match mm_array with
  | [] => Some bitmap
  | r :: l =>
      bitmap ← mm_bitmap_clear bitmap (page_frame r) (page_count r);
      clear_runs l bitmap
  end.

(** The blocks of 4 MiB that [aligned_alloc] answers before it fails; the
    answer has the last of them. *)
Fixpoint clear_blocks (blocks : list Z) (heap_reserved : option Z) (bitmap : list Z)
    : option (option Z * list Z) :=
  match blocks with
  | [] => Some (heap_reserved, bitmap)
  | addr :: l =>
      bitmap ← mm_bitmap_clear bitmap (addr / 0x1000) 0x400;
      clear_blocks l (Some addr) bitmap
  end.

Definition give_heap (blocks : list Z) (bitmap : list Z) : option (list Z) :=
  '(heap_reserved, bitmap) ← clear_blocks blocks None bitmap;
  match heap_reserved with
  | Some addr => mm_bitmap_set bitmap (addr / 0x1000) 0x400
  | None => Some bitmap
  end.

(** The loop that maps the runs from 4 GiB on, for the runs that it finds in
    [mm_array]; [false] is DE_MEMORY. *)
Fixpoint map_high (n : nat) (map : Z → Z → pg_type → Z) (mm_array : list mm_run) (i : Z)
    : option bool :=
  match n with
  | O => Some true
  | S n' =>
      r ← mm_array.[i];
      let addr := u64 (page_frame r * 0x1000) in
      if addr >=? 0x100000000 then
        let size := u64 (page_count r * 0x1000) in
        if map addr size pg_normal =? 0 then Some false else map_high n' map mm_array (i + 1)
      else map_high n' map mm_array (i + 1)
  end.

(** ** The whole function *)

Definition mm_init (b : boot) (m : mm) : option outcome :=
  let map_entries := swrap 32 (memory_map_size b / sizeof_memory_entry) in
  if negb (run_once_free b) then Some (Return DE_UNEXPECTED m)
  else if negb (mtx_success b) then Some (Return DE_UNEXPECTED m)
  else if negb (calloc_success b) then Some (Return DE_MEMORY m)
  else
    o ← scan_map (Z.to_nat (map_entries - 1)) map_entries (memory_map b) 0 [];
    match o with
    | None => Some (Return DE_UNEXPECTED m)
    | Some mm_array =>
        let size := bitmap_size 0x2000 mm_array in
        '(address, mm_array) ←
          place_bitmap (length mm_array) (pg_map_kernel b) size mm_array;
        if address =? 0 then Some (Return DE_MEMORY m)
        else
          let bitmap := (λ t, cell b t 0xFF) <$> seqZ 0 size in
          full ← all_set (Z.to_nat size) bitmap 0;
          if negb full then Some Panic
          else
            bitmap ← clear_runs mm_array bitmap;
            bitmap ← give_heap (aligned_alloc b) bitmap;
            let m := Mm true bitmap (mm_bitmap_used m) in
            Some (if (length mm_array =? 0)%nat then Return DE_SUCCESS m
                  else ReadReleased (length mm_array) m)
    end.

(** ** The regions of a map *)

(** The first page of an entry that the manager may use, and the first page
    behind the entry, from the base of the next one. *)
Definition region_first (e : memory_entry) : Z := (Z.max (me_base e) 0x10000 + 0x0FFF) / 0x1000.
Definition region_end (e' : memory_entry) : Z := Z.min (me_base e') 0x800000000000 / 0x1000.

(** The pages that a map gives to the manager: those that lie completely in an
    entry of the kernel's type, from 64 KiB to 128 TiB, in regions of two
    pages at least. *)
Definition usable (map : list memory_entry) (f : Z) : Prop :=
  ∃ i e e', map !! i = Some e ∧ map !! S i = Some e' ∧ me_type e = type_kernel_reserved ∧
    region_first e ≤ f < region_end e' ∧ 2 ≤ region_end e' - region_first e.

(** What the boot loader checks of the map: the bases grow; the last entry is
    the end of the address space, whose base may be 0. *)
Fixpoint map_sorted (map : list memory_entry) : Prop :=
  match map with
  | e :: (e' :: l) as map' =>
      (me_base e ≤ me_base e' ∨ me_base e' = 0 ∧ l = []) ∧ map_sorted map'
  | _ => True
  end.

Definition base_ok (e : memory_entry) : Prop := 0 ≤ me_base e ≤ 2 ^ 64 - 0x1000.

(** The runs of a map, as a reference for the loop. *)
Fixpoint regions (map : list memory_entry) : list mm_run :=
  match map with
  | e :: (e' :: _) as map' =>
      if me_type e =? type_kernel_reserved then
        match scan_entry (me_base e) (me_base e') with
        | Found r => r :: regions map'
        | _ => regions map'
        end
      else regions map'
  | _ => []
  end.

Lemma align_4k x : Z.ldiff x 0x0FFF = x - x mod 0x1000.
Proof. by apply (align_down x 12). Qed.

Lemma scan_entry_spec e e' :
  base_ok e → base_ok e' → me_base e ≤ me_base e' ∨ me_base e' = 0 →
  scan_entry (me_base e) (me_base e')
  = if 2 <=? region_end e' - region_first e
    then Found (MmRun (region_first e) (region_end e' - region_first e)) else Continue.
Proof.
  unfold base_ok, region_end, region_first. intros He He' Hle. unfold scan_entry.
  set (x := me_base e) in *. set (y := me_base e') in *. clearbody x y.
  assert (Hno : negb (y =? 0) && (x >? y) = false).
  { rewrite Z.gtb_ltb. destruct (Z.eqb_spec y 0), (Z.ltb_spec y x); cbn; try done. lia. }
  rewrite Hno. set (x1 := if x <? 0x10000 then _ else _).
  assert (Hx : x1 = Z.max x 0x10000) by (unfold x1; destruct (Z.ltb_spec x 0x10000); lia).
  clearbody x1. subst x1. rewrite wrap_small by lia. rewrite !align_4k.
  set (y1 := if _ >? _ then _ else _).
  assert (Hy : y1 = 0x1000 * (Z.min y 0x800000000000 / 0x1000)).
  { unfold y1. rewrite Z.gtb_ltb. destruct (Z.ltb_spec 0x800000000000 (y - y mod 0x1000)); dlia. }
  clearbody y1. subst y1. set (u := Z.max x 0x10000 + 0x0FFF).
  replace (u - u mod 0x1000) with (0x1000 * (u / 0x1000)) by dlia.
  set (p := u / 0x1000). set (q := _ / 0x1000). clearbody p q. clear u. rewrite Z.geb_leb.
  destruct (Z.leb_spec (0x1000 * q) (0x1000 * p)).
  { rewrite (proj2 (Z.leb_gt 2 (q - p))) by lia. done. }
  destruct (Z.ltb_spec (0x1000 * q - 0x1000 * p) 0x2000), (Z.leb_spec 2 (q - p)); try lia; [done|].
  do 2 f_equal; dlia.
Qed.

Lemma map_sorted_tail e map : map_sorted (e :: map) → map_sorted map.
Proof. destruct map; [done|]. by intros [_ ?]. Qed.

(** The loop answers the regions. *)
Lemma scan_map_regions map rest arr i n entries :
  map_sorted rest → Forall base_ok rest → 0 ≤ i → drop (Z.to_nat i) map = rest →
  n = (length rest - 1)%nat → Z.of_nat (length arr + n) < entries →
  scan_map n entries map i arr = Some (Some (arr ++ regions rest)).
Proof.
  revert arr i n. induction rest as [|e rest IH]; intros arr i n Hs Hb Hi Hd -> Hn.
  { cbn. by rewrite app_nil_r. }
  assert (He : map.[i] = Some e).
  { apply rd_Some. split; [done|]. rewrite <- (Nat.add_0_r (Z.to_nat i)), <- lookup_drop, Hd. done. }
  assert (Hd' : drop (Z.to_nat (i + 1)) map = rest).
  { replace (Z.to_nat (i + 1)) with (Z.to_nat i + 1)%nat by lia. by rewrite <- drop_drop, Hd. }
  destruct rest as [|e' rest]; [cbn; by rewrite app_nil_r|].
  assert (He' : map.[i + 1] = Some e').
  { apply rd_Some. split; [lia|]. rewrite <- (Nat.add_0_r (Z.to_nat (i + 1))), <- lookup_drop, Hd'. done. }
  destruct Hs as [Hle Hs]. apply Forall_cons_1 in Hb as [Hb Hb']. pose proof (Forall_inv Hb') as Hbe.
  cbn [length] in *. replace (S (S (length rest)) - 1)%nat with (S (length rest)) in * by lia.
  cbn [scan_map regions]. rewrite He. cbn [mbind option_bind].
  destruct (Z.eqb_spec (me_type e) type_kernel_reserved); cbn [negb].
  2:{ apply IH; try done; lia. }
  rewrite He'. cbn [mbind option_bind]. rewrite scan_entry_spec by (done || tauto).
  destruct (2 <=? _).
  - rewrite (proj2 (Z.ltb_lt (Z.of_nat (length arr)) entries)) by lia.
    rewrite (IH (arr ++ [_])); try done; rewrite ?length_app; cbn [length]; try lia.
    by rewrite <- app_assoc.
  - apply IH; try done; lia.
Qed.

(** A page in one of the runs. *)
Definition in_runs (l : list mm_run) (f : Z) : bool :=
  existsb (λ r, in_run (page_frame r) (page_count r) f) l.

Lemma in_run_true f n g : in_run f n g = true ↔ f ≤ g < f + n.
Proof. unfold in_run. by rewrite andb_true_iff, Z.leb_le, Z.ltb_lt. Qed.

Lemma usable_cons e e' map f :
  usable (e :: e' :: map) f ↔
  me_type e = type_kernel_reserved ∧ region_first e ≤ f < region_end e' ∧
    2 ≤ region_end e' - region_first e ∨ usable (e' :: map) f.
Proof.
  split.
  - intros (i & x & x' & Hx & Hx' & H). destruct i as [|i].
    + left. cbn in Hx, Hx'. by simplify_eq.
    + right. by exists i, x, x'.
  - intros [H|(i & x & x' & H)]; [by exists 0%nat, e, e'|by exists (S i), x, x'].
Qed.

Lemma regions_cons e e' map :
  map_sorted (e :: e' :: map) → Forall base_ok (e :: e' :: map) →
  regions (e :: e' :: map)
  = (if decide (me_type e = type_kernel_reserved ∧ 2 ≤ region_end e' - region_first e)
     then [MmRun (region_first e) (region_end e' - region_first e)] else [])
    ++ regions (e' :: map).
Proof.
  intros [Hle _] Hb. pose proof (Forall_inv Hb) as He.
  pose proof (Forall_inv (Forall_inv_tail Hb)) as He'. cbn [regions].
  rewrite scan_entry_spec by (done || tauto).
  destruct (Z.eqb_spec (me_type e) type_kernel_reserved), (Z.leb_spec 2 (region_end e' - region_first e));
    case_decide as Hd; try done; exfalso; try (destruct Hd; lia); by apply Hd.
Qed.

Lemma regions_usable map f :
  map_sorted map → Forall base_ok map → in_runs (regions map) f = true ↔ usable map f.
Proof.
  induction map as [|e map IH]; intros Hs Hb.
  { split; [done|]. by intros (i & e & e' & He & _). }
  destruct map as [|e' map].
  { split; [done|]. intros (i & x & x' & _ & Hx' & _). by destruct i. }
  rewrite regions_cons, usable_cons by done. unfold in_runs. rewrite existsb_app, orb_true_iff.
  fold (in_runs (regions (e' :: map)) f).
  rewrite IH by (by eapply map_sorted_tail || by apply (Forall_inv_tail Hb)).
  apply or_iff_compat_r. case_decide as Hd; cbn [existsb]; [|split; [done|tauto]].
  rewrite orb_false_r, in_run_true. cbn [page_frame page_count]. intuition lia.
Qed.

(** Runs in order, from [lo] on and below the limit of the addresses. *)
Fixpoint runs_from (lo : Z) (l : list mm_run) : Prop :=
  match l with
  | [] => True
  | r :: l =>
      lo ≤ page_frame r ∧ 0 < page_count r ∧ page_frame r + page_count r ≤ 0x800000000 ∧
      runs_from (page_frame r + page_count r) l
  end.

Lemma regions_ordered map lo :
  map_sorted map → Forall base_ok map → (∀ e, head map = Some e → lo ≤ region_first e) →
  runs_from lo (regions map).
Proof.
  revert lo. induction map as [|e map IH]; intros lo Hs Hb Hlo; [done|].
  destruct map as [|e' map]; [done|]. rewrite regions_cons by done.
  specialize (Hlo e eq_refl). pose proof (map_sorted_tail _ _ Hs) as Hs'.
  pose proof (Forall_inv_tail Hb) as Hb'. destruct Hs as [Hle _].
  pose proof (Forall_inv Hb') as [Hn _].
  case_decide as Hd; cbn [app runs_from page_frame page_count].
  - replace (region_first e + (region_end e' - region_first e)) with (region_end e') by lia.
    split; [done|]. split; [lia|]. split; [unfold region_end; dlia|].
    apply IH; try done. intros x [= <-]. unfold region_end, region_first. dlia.
  - destruct Hle as [Hle|[_ ->]]; [|done]. apply IH; try done.
    intros x [= <-]. unfold region_first in *. dlia.
Qed.

Lemma in_runs_from lo l f : runs_from lo l → in_runs l f = true → lo ≤ f.
Proof.
  revert lo. induction l as [|r l IH]; intros lo; [done|]. intros (H1 & H2 & H3 & H4).
  unfold in_runs. cbn [existsb]. rewrite orb_true_iff, in_run_true. fold (in_runs l f).
  intros [?|?]; [lia|]. specialize (IH _ H4 H). lia.
Qed.

Lemma runs_from_end lo l : 0 ≤ lo → runs_from lo l →
  Forall (λ r, 0 ≤ page_frame r ∧ 0 < page_count r ∧ page_frame r + page_count r ≤ 0x800000000) l.
Proof.
  revert lo. induction l as [|r l IH]; intros lo Hlo; [by constructor|]. intros (H1 & H2 & H3 & H4).
  constructor; [lia|]. apply (IH (page_frame r + page_count r)); [lia|done].
Qed.

(** The pages of a run that loses its first pages. *)
Lemma in_runs_shrink l1 r l2 lo n g :
  runs_from lo (l1 ++ r :: l2) → 0 ≤ n < page_count r →
  in_runs (l1 ++ MmRun (page_frame r + n) (page_count r - n) :: l2) g
  = in_runs (l1 ++ r :: l2) g && negb (in_run (page_frame r) n g).
Proof.
  revert lo. induction l1 as [|x l1 IH]; intros lo H Hn; cbn [app runs_from] in H;
    destruct H as (H1 & H2 & H3 & H4); unfold in_runs; cbn [app existsb page_frame page_count].
  - fold (in_runs l2 g). destruct (in_runs l2 g) eqn:E.
    + apply (in_runs_from _ _ _ H4) in E. rewrite !orb_true_r. unfold in_run.
      destruct (Z.leb_spec (page_frame r) g), (Z.ltb_spec g (page_frame r + n)); try done; lia.
    + rewrite !orb_false_r. unfold in_run.
      destruct (Z.leb_spec (page_frame r + n) g), (Z.leb_spec (page_frame r) g),
        (Z.ltb_spec g (page_frame r + n)), (Z.ltb_spec g (page_frame r + page_count r)),
        (Z.ltb_spec g (page_frame r + n + (page_count r - n))); try done; lia.
  - fold (in_runs (l1 ++ r :: l2) g).
    fold (in_runs (l1 ++ MmRun (page_frame r + n) (page_count r - n) :: l2) g).
    rewrite (IH _ H4 Hn). destruct (in_run (page_frame x) (page_count x) g) eqn:E; [|done].
    cbn [orb]. apply in_run_true in E. symmetry. apply negb_true_iff, not_true_iff_false.
    rewrite in_run_true. intros Hr.
    assert (Hin : in_runs (l1 ++ r :: l2) g = true).
    { unfold in_runs. rewrite existsb_app. cbn [existsb].
      rewrite (proj2 (in_run_true (page_frame r) (page_count r) g)) by lia. apply orb_true_r. }
    apply (in_runs_from _ _ _ H4) in Hin. lia.
Qed.

(** ** The bitmap and its place *)

Lemma needed_size_spec r :
  0 ≤ page_frame r → 0 < page_count r → page_frame r + page_count r ≤ 0x800000000 →
  needed_size r mod 0x1000 = 0 ∧ page_frame r + page_count r ≤ 8 * needed_size r ∧
  needed_size r ≤ 0x100000000.
Proof.
  intros H1 H2 H3. unfold needed_size. rewrite align_4k, (align_down _ 3) by lia.
  change (2 ^ 3) with 8. set (s := page_frame r + page_count r) in *. clearbody s. dlia.
Qed.

Lemma bitmap_size_spec l size :
  Forall (λ r, 0 ≤ page_frame r ∧ 0 < page_count r ∧ page_frame r + page_count r ≤ 0x800000000) l →
  size mod 0x1000 = 0 → 0 ≤ size ≤ 0x100000000 →
  bitmap_size size l mod 0x1000 = 0 ∧ size ≤ bitmap_size size l ≤ 0x100000000 ∧
  Forall (λ r, page_frame r + page_count r ≤ 8 * bitmap_size size l) l.
Proof.
  revert size. induction l as [|r l IH]; intros size Hl Hm Hs; cbn [bitmap_size].
  { split; [done|]. split; [lia|]. by constructor. }
  apply Forall_cons_1 in Hl as [(H1 & H2 & H3) Hl].
  destruct (needed_size_spec r H1 H2 H3) as (Hn1 & Hn2 & Hn3).
  set (s := if size <? needed_size r then _ else _).
  assert (Hmax : s = Z.max size (needed_size r)) by (unfold s; destruct (Z.ltb_spec size (needed_size r)); lia).
  destruct (IH s Hl) as (Hm' & Hr' & Hf'); [unfold s; by destruct (_ <? _)|lia|].
  split; [done|]. split; [lia|]. constructor; [lia|done].
Qed.

(** Where the bitmap is placed: its pages leave the runs. *)
Lemma place_bitmap_spec n map size l lo :
  (n ≤ length l)%nat → 0 ≤ lo → runs_from lo l → size mod 0x1000 = 0 → 0 ≤ size →
  ∃ a l', place_bitmap n map size l = Some (a, l') ∧ length l' = length l ∧
    (a = 0 ∨ ∃ f, a = map (f * 0x1000) size pg_extended ∧
       (∀ g, in_run f (size / 0x1000) g = true → in_runs l g = true) ∧
       (∀ g, in_runs l' g = in_runs l g && negb (in_run f (size / 0x1000) g)) ∧
       ∀ limit, Forall (λ r, page_frame r + page_count r ≤ limit) l →
         Forall (λ r, 0 ≤ page_frame r ∧ 0 ≤ page_count r ∧ page_frame r + page_count r ≤ limit) l').
Proof.
  intros Hn Hlo Hl Hm Hs. induction n as [|n IH]; cbn [place_bitmap].
  { exists 0, l. split; [done|]. split; [done|]. by left. }
  destruct (rd_is_Some l (Z.of_nat n) ltac:(lia)) as [r Hr]. rewrite Hr. cbn [mbind option_bind].
  destruct (Z.leb_spec (page_count r) (size / 0x1000)) as [|Hc]; [apply IH; lia|].
  pose proof Hr as [_ Hk]%rd_Some. rewrite Nat2Z.id in Hk.
  pose proof (runs_from_end lo l Hlo Hl) as Hall.
  pose proof (proj1 (Forall_lookup _ _) Hall _ _ Hk) as (Hp1 & Hp2 & Hp3).
  rewrite wrap_small by lia. rewrite Z.gtb_ltb.
  destruct (Z.ltb_spec 0x7800000000 (page_frame r * 0x1000)); [apply IH; lia|].
  rewrite wr_Some by lia. cbn [mbind option_bind]. rewrite Nat2Z.id.
  do 2 eexists. split; [done|]. split; [by rewrite length_insert|]. right. exists (page_frame r).
  split; [done|]. set (c := size / 0x1000) in *. assert (Hc0 : 0 ≤ c) by (unfold c; dlia).
  clearbody c. clear IH Hr; apply list_elem_of_split_length in Hk as (l1 & l2 & -> & ->).
  rewrite insert_app_r_alt, Nat.sub_diag by lia. cbn [insert list_insert].
  split; [|split].
  - intros g Hg. unfold in_runs. rewrite existsb_app. cbn [existsb].
    apply in_run_true in Hg. rewrite (proj2 (in_run_true (page_frame r) (page_count r) g)) by lia.
    apply orb_true_r.
  - intros g. apply (in_runs_shrink l1 r l2 lo); [done|lia].
  - intros limit Hlim. apply Forall_app. apply Forall_app in Hlim as [Hl1 Hlim], Hall as [Ha1 Hall].
    apply Forall_cons_1 in Hlim as [Hr' Hl2], Hall as [_ Ha2].
    assert (Hside : ∀ l, Forall (λ r, page_frame r + page_count r ≤ limit) l →
      Forall (λ r, 0 ≤ page_frame r ∧ 0 < page_count r ∧ page_frame r + page_count r ≤ 0x800000000) l →
      Forall (λ r, 0 ≤ page_frame r ∧ 0 ≤ page_count r ∧ page_frame r + page_count r ≤ limit) l).
    { intros l H1 H2. apply Forall_forall. intros x Hx. rewrite Forall_forall in H1, H2.
      specialize (H1 x Hx). specialize (H2 x Hx). cbn in *. lia. }
    split; [by apply Hside|]. constructor; [cbn [page_frame page_count]; lia|by apply Hside].
Qed.

(** ** The bits *)

Lemma all_set_spec n bitmap t0 :
  0 ≤ t0 → t0 + Z.of_nat n ≤ Z.of_nat (length bitmap) →
  ∃ r, all_set n bitmap t0 = Some r ∧
    if r then ∀ t, t0 ≤ t < t0 + Z.of_nat n → bitmap.[t] = Some 0xFF
    else ∃ t, t0 ≤ t < t0 + Z.of_nat n ∧ bitmap.[t] ≠ Some 0xFF.
Proof.
  revert t0. induction n as [|n IH]; intros t0 H0 Hn; cbn [all_set].
  { exists true. split; [done|]. intros; lia. }
  destruct (rd_is_Some bitmap t0 ltac:(lia)) as [val Hv]. rewrite Hv. cbn [mbind option_bind].
  destruct (Z.eqb_spec val 0xFF) as [->|Hne]; cbn [negb].
  - destruct (IH (t0 + 1)) as (r & -> & Hr); [lia|lia|]. exists r. split; [done|].
    destruct r; [|destruct Hr as (t & Ht & Hne); exists t; split; [lia|done]].
    intros t Ht. destruct (decide (t = t0)) as [->|]; [done|apply Hr; lia].
  - exists false. split; [done|]. exists t0. split; [lia|]. rewrite Hv. congruence.
Qed.

Lemma clear_runs_spec l bitmap :
  Forall is_byte bitmap →
  Forall (λ r, 0 ≤ page_frame r ∧ 0 ≤ page_count r ∧ page_frame r + page_count r ≤ frames bitmap) l →
  ∃ bitmap', clear_runs l bitmap = Some bitmap' ∧ length bitmap' = length bitmap ∧
    Forall is_byte bitmap' ∧ ∀ g, page_used bitmap' g = page_used bitmap g && negb (in_runs l g).
Proof.
  revert bitmap. induction l as [|r l IH]; intros bitmap Hb Hl; cbn [clear_runs].
  { exists bitmap. do 3 (split; [done|]). intros g. by rewrite andb_true_r. }
  apply Forall_cons_1 in Hl as [(H1 & H2 & H3) Hl].
  destruct (mm_bitmap_clear_spec bitmap (page_frame r) (page_count r) Hb H1 H2 H3)
    as (b1 & -> & Hl1 & Hb1 & Hu1). cbn [mbind option_bind].
  destruct (IH b1 Hb1) as (b2 & -> & Hl2 & Hb2 & Hu2).
  { revert Hl. unfold frames. by rewrite Hl1. }
  exists b2. split; [done|]. split; [by rewrite Hl2|]. split; [done|]. intros g.
  rewrite Hu2, Hu1. unfold in_runs. cbn [existsb]. by rewrite negb_orb, andb_assoc.
Qed.

(** The pages of the blocks, and of the last one. *)
Definition in_blocks (blocks : list Z) (g : Z) : bool :=
  existsb (λ addr, in_run (addr / 0x1000) 0x400 g) blocks.

Definition in_reserved (heap_reserved : option Z) (g : Z) : bool :=
  match heap_reserved with Some addr => in_run (addr / 0x1000) 0x400 g | None => false end.

Definition block_ok (limit : Z) (addr : Z) : Prop := 0 ≤ addr ∧ addr + 0x400000 ≤ limit.

Lemma block_run limit addr : limit mod 0x1000 = 0 → block_ok limit addr →
  0 ≤ addr / 0x1000 ∧ addr / 0x1000 + 0x400 ≤ limit / 0x1000.
Proof. unfold block_ok. intros. dlia. Qed.

Lemma clear_blocks_spec blocks o bitmap :
  Forall is_byte bitmap → Forall (block_ok (frames bitmap * 0x1000)) blocks →
  ∃ bitmap', clear_blocks blocks o bitmap = Some (from_option Some o (list.last blocks), bitmap') ∧
    length bitmap' = length bitmap ∧ Forall is_byte bitmap' ∧
    ∀ g, page_used bitmap' g = page_used bitmap g && negb (in_blocks blocks g).
Proof.
  revert o bitmap. induction blocks as [|a l IH]; intros o bitmap Hb Hl; cbn [clear_blocks].
  { exists bitmap. do 3 (split; [done|]). intros g. by rewrite andb_true_r. }
  apply Forall_cons_1 in Hl as [Ha Hl]. apply block_run in Ha as [H1 H2]; [|dlia].
  rewrite Z.div_mul in H2 by lia.
  destruct (mm_bitmap_clear_spec bitmap (a / 0x1000) 0x400 Hb H1 ltac:(lia) H2)
    as (b1 & -> & Hl1 & Hb1 & Hu1). cbn [mbind option_bind].
  destruct (IH (Some a) b1 Hb1) as (b2 & -> & Hl2 & Hb2 & Hu2).
  { revert Hl. unfold frames. by rewrite Hl1. }
  exists b2. split; [|split; [by rewrite Hl2|split; [done|]]].
  { do 2 f_equal. destruct l as [|x l]; [done|]. change (list.last (a :: x :: l)) with (list.last (x :: l)).
    destruct (list.last (x :: l)) eqn:E; [done|]. by apply last_None in E. }
  intros g. rewrite Hu2, Hu1. unfold in_blocks. cbn [existsb]. by rewrite negb_orb, andb_assoc.
Qed.

Lemma give_heap_spec blocks bitmap :
  Forall is_byte bitmap → Forall (block_ok (frames bitmap * 0x1000)) blocks →
  ∃ bitmap', give_heap blocks bitmap = Some bitmap' ∧ length bitmap' = length bitmap ∧
    Forall is_byte bitmap' ∧
    ∀ g, page_used bitmap' g
         = page_used bitmap g && negb (in_blocks blocks g) || in_reserved (list.last blocks) g.
Proof.
  intros Hb Hl. unfold give_heap.
  destruct (clear_blocks_spec blocks None bitmap Hb Hl) as (b1 & -> & Hl1 & Hb1 & Hu1).
  cbn [mbind option_bind]. destruct (list.last blocks) as [a|] eqn:E; cbn [from_option in_reserved].
  2:{ exists b1. do 3 (split; [done|]). intros g. by rewrite orb_false_r, Hu1. }
  assert (Ha : block_ok (frames bitmap * 0x1000) a).
  { apply last_Some in E as [l ->]. apply Forall_app in Hl as [_ Hl]. exact (Forall_inv Hl). }
  apply block_run in Ha as [H1 H2]; [|dlia]. rewrite Z.div_mul in H2 by lia.
  destruct (mm_bitmap_set_spec b1 (a / 0x1000) 0x400 Hb1 H1 ltac:(lia)) as (b2 & -> & Hl2 & Hb2 & Hu2).
  { unfold frames in *. by rewrite Hl1. }
  exists b2. split; [done|]. split; [by rewrite Hl2|]. split; [done|]. intros g. by rewrite Hu2, Hu1.
Qed.

(** The last loop ends when the table can be read. *)
Lemma map_high_total n map l i :
  0 ≤ i → i + Z.of_nat n ≤ Z.of_nat (length l) → ∃ r, map_high n map l i = Some r.
Proof.
  revert i. induction n as [|n IH]; intros i Hi Hn; cbn [map_high]; [by eexists|].
  destruct (rd_is_Some l i ltac:(lia)) as [r ->]. cbn [mbind option_bind].
  repeat case_match; try (apply IH; lia). by eexists.
Qed.

(** ** The whole function *)

(** What the manager needs of the map and of the heap: the map is sorted as
    the boot loader checks it, no entry begins in the last page of the
    address space, and the heap lies in the memory that the bitmap always covers
    (the first 256 MiB). *)
Record boot_ok (b : boot) : Prop := {
  boot_size : memory_map_size b = sizeof_memory_entry * Z.of_nat (length (memory_map b));
  boot_count : 0 < Z.of_nat (length (memory_map b)) < 2 ^ 31;
  boot_sorted : map_sorted (memory_map b);
  boot_bases : Forall base_ok (memory_map b);
  boot_heap : Forall (block_ok 0x10000000) (aligned_alloc b) }.

Lemma all_bits_set size bitmap g :
  (∀ t, 0 ≤ t < size → bitmap.[t] = Some 0xFF) → 0 ≤ size → Z.of_nat (length bitmap) = size →
  page_used bitmap g = true.
Proof.
  intros Hall Hs Hl. destruct (decide (0 ≤ g / 8 < size)) as [Hg|Hg].
  - by apply (full_byte bitmap (g / 8)); [apply Hall|].
  - unfold page_used. rewrite (proj2 (rd_None bitmap (g / 8))); [done|]. lia.
Qed.

Lemma regions_length map : (length (regions map) ≤ length map)%nat.
Proof.
  induction map as [|e map IH]; [done|]. destruct map as [|e' map]; [cbn; lia|].
  cbn [regions] in *.
  destruct (me_type e =? _); [destruct (scan_entry (me_base e) _)|]; cbn [length] in *; lia.
Qed.

(** The pages that are free after the start, when the bitmap lies in the [n]
    pages from [f]. *)
Definition free_at_start (b : boot) (f n g : Z) : Prop :=
  (usable (memory_map b) g ∧ in_run f n g = false ∨ in_blocks (aligned_alloc b) g = true) ∧
  in_reserved (list.last (aligned_alloc b)) g = false.

(** The bitmap after the start, from one whose bits are all set. *)
Lemma bits_at_start size bitmap l blocks :
  Z.of_nat (length bitmap) = size → 0x2000 ≤ size →
  (∀ t, 0 ≤ t < size → bitmap.[t] = Some 0xFF) →
  Forall (λ r, 0 ≤ page_frame r ∧ 0 ≤ page_count r ∧ page_frame r + page_count r ≤ 8 * size) l →
  Forall (block_ok 0x10000000) blocks →
  ∃ bitmap', (b ← clear_runs l bitmap; give_heap blocks b) = Some bitmap' ∧
    length bitmap' = length bitmap ∧ Forall is_byte bitmap' ∧
    ∀ g, page_used bitmap' g = false ↔
      (in_runs l g = true ∨ in_blocks blocks g = true) ∧ in_reserved (list.last blocks) g = false.
Proof.
  intros Hl Hs Hall Hruns Hblocks.
  assert (Hbytes : Forall is_byte bitmap).
  { apply Forall_lookup. intros i x Hx. specialize (Hall (Z.of_nat i)).
    assert (bitmap.[Z.of_nat i] = Some x) as Hi by (apply rd_Some; rewrite Nat2Z.id; split; [lia|done]).
    pose proof (rd_lt _ _ _ Hi). rewrite Hall in Hi by lia. injection Hi as <-. done. }
  destruct (clear_runs_spec l bitmap Hbytes) as (b1 & -> & Hl1 & Hb1 & Hu1).
  { unfold frames. by rewrite Hl. }
  cbn [mbind option_bind].
  destruct (give_heap_spec blocks b1 Hb1) as (b2 & -> & Hl2 & Hb2 & Hu2).
  { eapply Forall_impl; [|exact Hblocks]. unfold block_ok, frames. rewrite Hl1, Hl. intros. lia. }
  exists b2. split; [done|]. split; [by rewrite Hl2|]. split; [done|]. intros g.
  rewrite Hu2, Hu1, (all_bits_set size bitmap g) by (done || lia). cbn [andb].
  destruct (in_runs l g), (in_blocks blocks g), (in_reserved _ g); cbn; intuition.
Qed.

(** (C16) The manager starts with exactly the pages it may hand out.  Take a map of
    memory that is sorted, as the boot loader makes it, and has no entry that
    begins in the last page of the address space, and a heap whose blocks lie in the
    first 256 MiB.  Up to its last loop [mm_init] has no undefined access.  It panics only if a cell of memory does not keep
    the bits it was given, and a failure leaves the manager switched off.
    Otherwise it comes to the loop that maps the memory above 4 GiB - which reads
    the table of runs that has just been released - with the manager switched on
    and its invariant established: the bitmap lies in usable pages, and the free
    pages are exactly the usable pages that the bitmap does not take, and the
    pages of the blocks of the heap, except those of the last block, which goes
    back to the heap. *)
Theorem mm_init_correct (b : boot) (m : mm) (Hb : boot_ok b) (Hm : mm_bitmap_used m = 0) :
  ∃ o, mm_init b m = Some o ∧
    match o with
    | Panic => ∃ t, 0 ≤ t ∧ cell b t 0xFF ≠ 0xFF
    | Return e m' =>
        m' = m ∧ (e = DE_UNEXPECTED ∧ run_once_free b && mtx_success b = false ∨ e = DE_MEMORY)
    | ReadReleased n m' =>
        (0 < n ≤ length (memory_map b))%nat ∧ mm_ready m' = true ∧ mm_ok m' ∧
        ∃ f, pg_map_kernel b (f * 0x1000) (mm_bitmap_size m') pg_extended ≠ 0 ∧
          (∀ g, in_run f (mm_bitmap_size m' / 0x1000) g = true → usable (memory_map b) g) ∧
          ∀ g, page_used (mm_bitmap m') g = false ↔
               free_at_start b f (mm_bitmap_size m' / 0x1000) g
    end.
Proof.
  destruct Hb as [Hsize Hcount Hsort Hbases Hheap]. unfold mm_init.
  destruct (run_once_free b); cbn [negb andb]; [|eexists; split; [done|split; [done|auto]]].
  destruct (mtx_success b); cbn [negb andb]; [|eexists; split; [done|split; [done|auto]]].
  destruct (calloc_success b); cbn [negb]; [|eexists; split; [done|split; [done|auto]]].
  set (map := memory_map b) in *. set (N := Z.of_nat (length map)).
  fold N in Hsize, Hcount.
  assert (Hentries : swrap 32 (memory_map_size b / sizeof_memory_entry) = N).
  { rewrite Hsize. unfold sizeof_memory_entry. rewrite Z.mul_comm, Z.div_mul by lia.
    unfold swrap. change (2 ^ (32 - 1)) with (2 ^ 31). fold N. rewrite Z.mod_small by lia. lia. }
  rewrite Hentries, (scan_map_regions map map) by (done || unfold N in *; cbn [length]; lia). cbn [mbind option_bind app].
  assert (Hruns : runs_from 0 (regions map)).
  { apply regions_ordered; [done..|]. intros e _. unfold region_first. dlia. }
  pose proof (runs_from_end 0 _ ltac:(lia) Hruns) as Hends.
  destruct (bitmap_size_spec (regions map) 0x2000 Hends) as (Hmod & Hrange & Hcover); [done|lia|].
  set (size := bitmap_size 0x2000 (regions map)) in *. clearbody size.
  destruct (place_bitmap_spec (length (regions map)) (pg_map_kernel b) size (regions map) 0)
    as (a & l' & -> & Hlen & Hplace); [done|lia|done|done|lia|]. cbn [mbind option_bind].
  destruct (Z.eqb_spec a 0) as [->|Ha]; [eexists; split; [done|split; [done|auto]]|].
  destruct Hplace as [|(f & -> & Hin & Hrest & Hlim)]; [done|].
  specialize (Hlim (8 * size) Hcover).
  set (bitmap := _ <$> seqZ 0 size).
  assert (Hbl : Z.of_nat (length bitmap) = size).
  { unfold bitmap. rewrite length_fmap, length_seqZ. lia. }
  destruct (all_set_spec (Z.to_nat size) bitmap 0) as (full & -> & Hfull); [lia|lia|].
  cbn [mbind option_bind]. rewrite Z2Nat.id in Hfull by lia.
  assert (Hcell : ∀ t, 0 ≤ t < size → bitmap.[t] = Some (cell b t 0xFF)).
  { intros t Ht. unfold bitmap. apply rd_Some. split; [lia|].
    rewrite list_lookup_fmap, lookup_seqZ_lt by lia. cbn. do 2 f_equal. lia. }
  destruct full; cbn [negb].
  2:{ eexists. split; [done|]. destruct Hfull as (t & Ht & Hne). exists t. split; [lia|].
      rewrite Hcell in Hne by lia. congruence. }
  destruct (bits_at_start size bitmap l' (aligned_alloc b)) as (bits & Hbits & Hlb & Hby & Hfree);
    [done|lia|intros t Ht; apply Hfull; lia|done|done|].
  destruct (clear_runs l' bitmap) as [b1|]; [|done]. cbn [mbind option_bind] in *.
  rewrite Hbits. cbn [mbind option_bind].
  assert (Hpos : (length l' ≠ 0)%nat).
  { intros H0. apply length_zero_iff_nil in H0 as ->. cbn in Hlen.
    destruct (regions map) as [|x l]; [|done]. specialize (Hin f).
    rewrite in_run_true in Hin. by specialize (Hin ltac:(dlia)). }
  rewrite (proj2 (Nat.eqb_neq _ 0)) by done. eexists. split; [done|].
  split; [pose proof (regions_length map); lia|]. cbn [mm_ready]. split; [done|].
  unfold mm_bitmap_size. cbn [mm_bitmap mm_bitmap_used].
  replace (Z.of_nat (length bits)) with size by lia. split.
  - constructor; unfold mm_bitmap_size, frames; cbn [mm_bitmap mm_bitmap_used];
      rewrite ?Hm, ?Hlb, ?Hbl; [done|lia| |done|lia].
    intros g Hg. apply page_used_outside. unfold frames. rewrite Hlb. lia.
  - exists f. split; [done|]. split.
    + intros g Hg. by apply regions_usable, Hin.
    + intros g. rewrite Hfree, Hrest. unfold free_at_start.
      rewrite andb_true_iff, negb_true_iff, regions_usable by done. done.
Qed.

(** A machine with 512 MiB: kernel memory from 1 MiB to 2 MiB and from 16 MiB
    to 32 MiB, the heap answers two blocks. *)
Definition example_boot : boot := {|
  run_once_free := true; mtx_success := true; calloc_success := true;
  memory_map_size := 6 * 24;
  memory_map := [
    MemoryEntry 0x80000000 0; MemoryEntry type_kernel_reserved 0x100000;
    MemoryEntry 0x80000000 0x200000; MemoryEntry type_kernel_reserved 0x1000000;
    MemoryEntry 0x80000000 0x2000000; MemoryEntry 0 0x20000000];
  pg_map_kernel := λ addr _ _, addr;
  cell := λ _ v, v;
  aligned_alloc := [0x400000; 0x800000] |}.

Lemma example_boot_ok : boot_ok example_boot.
Proof.
  constructor; cbn [memory_map memory_map_size example_boot aligned_alloc].
  - reflexivity.
  - cbn. lia.
  - cbn. lia.
  - repeat constructor; cbn; lia.
  - repeat constructor; lia.
Qed.

(** The bitmap takes the first two pages at 16 MiB; the second block of the
    heap stays with the heap: 256 + 4096 - 2 + 1024 pages are free. *)
Example mm_init_example :
  match mm_init example_boot (Mm false [] 0) with
  | Some (ReadReleased 2 m) => mm_available_pages true m mm_normal = Some (256 + 4094 + 1024)
  | _ => False
  end.
Proof. vm_compute. reflexivity. Qed.

Lemma mm_init_correct_witness :
  ∃ o, mm_init example_boot (Mm false [] 0) = Some o.
Proof.
  destruct (mm_init_correct example_boot (Mm false [] 0) example_boot_ok eq_refl) as (o & Ho & _).
  by exists o.
Defined.

(** [base_ok] is needed: rounding up a base in the last page of the address
    space wraps to 0, and the run that results is all of the memory that the
    manager supports, page 0 included. *)
Lemma last_page_wraps :
  scan_entry (2 ^ 64 - 0xFFF) (2 ^ 64 - 1) = Found (MmRun 0 0x800000000).
Proof. vm_compute. reflexivity. Qed.
