(* ===== verification/Event.v ===== *)
(** Events: kernel/base/event.c.

    Events live in a store (the memory they are allocated in), an [event_t] is
    an index into it or the null pointer; the memory of a deleted event is free
    and must not be read.  Each critical section between [spin_enter] and
    [spin_leave] is one step, also those of [event_wait_array], which locks one
    event after the other.  Before every step of a waiting task the other tasks
    may do whatever they like; what they do before its [n]-th step is the
    argument [env n]. *)

From S2P Require Import Prelude.

Record event_instance := Event {
  ready : Z;
  manual_reset : bool;
  signaled : bool;
  task : Z }.

Definition EVENT_READY : Z := 0x00657665.

Abbreviation event_t := (option nat).
Abbreviation store := (list event_instance).

Definition event_type_manual_reset : Z := 1.
Definition event_type_set_signaled : Z := 2.

(** What the new event holds; [malloc_ok] is false when there is no memory. *)
Definition event_create (malloc_ok : bool) (type : Z) (s : store) : event_t * store :=
  if malloc_ok then
    (Some (length s),
     s ++ [Event EVENT_READY (negb (Z.land type event_type_manual_reset =? 0))
             (negb (Z.land type event_type_set_signaled =? 0)) 0])
  else (None, s).

(** The tests at the start of the functions: the event when it can be used. *)
Definition event_ready (e : event_t) (s : store) : option event_instance :=
  i ← e;
  x ← s !! i;
  if ready x =? EVENT_READY then Some x else None.

Definition event_delete (e : event_t) (s : store) : store :=
  match e, event_ready e s with
  | Some i, Some x => <[i := Event 0 (manual_reset x) (signaled x) (task x)]> s
  | _, _ => s
  end.

Definition event_reset (e : event_t) (s : store) : store :=
  match e, event_ready e s with
  | Some i, Some x => <[i := Event (ready x) (manual_reset x) false (task x)]> s
  | _, _ => s
  end.

(** The store and the new value of [yield_task]. *)
Definition event_signal (e : event_t) (s : store) (yield_task : Z) : store * Z :=
  match e, event_ready e s with
  | Some i, Some x => (<[i := Event (ready x) (manual_reset x) true 0]> s, task x)
  | _, _ => (s, yield_task)
  end.

(** The function that the scheduler calls for a waiting task: 0 lets it run. *)
Fixpoint any_signaled (events : list event_t) (s : store) : option bool :=
  match events with
  | [] => Some false
  | e :: events' =>
      x ← event_ready e s;
      if signaled x then Some true else any_signaled events' s
  end.

Definition event_wait_array_func (events : list event_t) (s : store)
    (start milliseconds timer_ticks : Z) : option Z :=
  any ← any_signaled events s;
  Some (if (any : bool) then 0
        else if negb (milliseconds =? 0xFFFF) && (u32 (timer_ticks - start) >=? milliseconds)
        then 0 else 1).

(** The critical section of [event_wait_array] for one event: was it signaled, and
    the store.  (The memory of an event that was deleted is [None].) *)
Definition wait_section (me : Z) (e : event_t) (s : store) : option (bool * store) :=
  k ← e;
  x ← event_ready e s;
  let sig := if signaled x && negb (manual_reset x) then false else signaled x in
  Some (signaled x, <[k := Event (ready x) (manual_reset x) sig me]> s).

Section Wait.
Context (me : Z) (env : nat → store → store).

(** The inner loop of [event_wait_array] from index [i]; [n] counts the critical
    sections of the call.  The answer is r, [n] and the store. *)
Fixpoint wait_pass (events : list event_t) (i : Z) (n : nat) (s : store)
  : option (Z * nat * store) :=
  match events with
  | [] => Some (-1, n, s)
  | e :: events' =>
      '(hit, s) ← wait_section me e (env n s);
      if (hit : bool) then Some (i, S n, s) else wait_pass events' (i + 1) (S n) s
  end.

(** The test of the time limit after a pass; [now] is timer_ticks. *)
Definition expired (milliseconds start now : Z) : bool :=
  (milliseconds =? 0) ||
  (negb (milliseconds =? 0xFFFF) && (u32 (now - start) >=? milliseconds)).

(** One turn of the loop; the state is (passes, sections, store), and [ticks p] is
    timer_ticks at the end of pass [p].  The task sleeps before the next turn. *)
Definition wait_step (events : list event_t) (milliseconds start : Z) (ticks : nat → Z)
    (st : nat * nat * store) : option (ctl (nat * nat * store) (Z * store)) :=
  let '(p, n, s) := st in
  '(r, n, s) ← wait_pass events 0 n s;
  if (r >=? 0) || expired milliseconds start (ticks p) then Some (Done (r, s))
  else Some (Next (S p, n, s)).

Definition event_wait_array (fuel : nat) (events : list event_t) (milliseconds : Z)
    (ticks : nat → Z) (start : Z) (s : store) : option (Z * store) :=
  if (length events =? 0)%nat || (256 <? length events)%nat then Some (-2, s)
  else if negb (forallb (λ e, bool_decide (is_Some (event_ready e s))) events) then Some (-3, s)
  else while fuel (wait_step events milliseconds start ticks) (0%nat, 0%nat, s).

Definition event_wait (fuel : nat) (e : event_t) (milliseconds : Z)
    (ticks : nat → Z) (start : Z) (s : store) : option (Z * store) :=
  event_wait_array fuel [e] milliseconds ticks start s.
End Wait.

(** The interrupts that [event_yield] sends: to the processor with the identity
    [id], unless it is not a valid one. *)
Definition yield_send (id : Z) : list (Z * Z) :=
  if id >? 0xFE then []
  else [(Z.lor 0x00004000 0x5F, u32 (Z.shiftl id 24))].

(** [task_switch] is the answer of the scheduler for a task.  The result is the
    new value of [yield_task], the task that was switched to, if any, and the
    values that are written to the interrupt controller. *)
Definition event_yield (yield_task me : Z) (task_switch : Z → bool)
    (apic_bsp_id : Z) (smp_ap_id : list Z) : Z * option Z * list (Z * Z) :=
  let task := yield_task in
  if task =? 0 then (0, None, [])
  else if task =? me then (0, None, [])
  else if negb (task_switch task) then (0, Some task, [])
  else if (length smp_ap_id =? 0)%nat then (0, Some task, [])
  else (0, Some task, (apic_bsp_id :: smp_ap_id) ≫= yield_send).

(** ** Waiting *)

(** The signal of the event that a pointer names. *)
Definition is_signaled (s : store) (e : event_t) : bool :=
  match event_ready e s with Some x => signaled x | None => false end.

Definition usable (s : store) (e : event_t) : Prop := is_Some (event_ready e s).

Lemma event_ready_inv e s x :
  event_ready e s = Some x → ∃ k, e = Some k ∧ s !! k = Some x ∧ ready x = EVENT_READY.
Proof.
  unfold event_ready. destruct e as [k|]; [|done]. cbn [mbind option_bind].
  destruct (s !! k) as [y|] eqn:Hy; [|done]. cbn [mbind option_bind].
  destruct (Z.eqb_spec (ready y) EVENT_READY); [|done]. intros [= ->]. by exists k.
Qed.

(** What a step that sets the signal and the waiting task of the event at [k] does to
    what the others see. *)
Lemma event_ready_insert s k x sig t e :
  event_ready (Some k) s = Some x →
  event_ready e (<[k := Event (ready x) (manual_reset x) sig t]> s)
  = if decide (e = Some k) then Some (Event (ready x) (manual_reset x) sig t) else event_ready e s.
Proof.
  intros Hx. destruct (event_ready_inv _ _ _ Hx) as (k' & [= <-] & Hk & Hr).
  pose proof (lookup_lt_Some _ _ _ Hk) as Hlt.
  destruct (decide (e = Some k)) as [->|Hne]; unfold event_ready.
  - cbn [mbind option_bind]. rewrite list_lookup_insert_eq by done. cbn [mbind option_bind ready].
    by rewrite Hr.
  - destruct e as [j|]; [|done]. cbn [mbind option_bind].
    rewrite list_lookup_insert_ne by congruence. done.
Qed.

(** A section takes at most the signal of its own event, and that one only when it
    resets by itself. *)
Lemma wait_section_ok me e s :
  usable s e →
  ∃ x s', event_ready e s = Some x ∧ wait_section me e s = Some (signaled x, s') ∧
    (∀ f, usable s f → usable s' f) ∧
    (∀ f, f ≠ e → is_signaled s' f = is_signaled s f) ∧
    is_signaled s' e = signaled x && manual_reset x.
Proof.
  intros [x Hx]. destruct (event_ready_inv _ _ _ Hx) as (k & -> & Hk & _).
  unfold wait_section. cbn [mbind option_bind]. rewrite Hx. cbn [mbind option_bind].
  eexists x, _. split; [done|]. split; [done|]. unfold usable, is_signaled. split; [|split].
  - intros f Hf. rewrite event_ready_insert by done. by destruct (decide _).
  - intros f Hf. by rewrite event_ready_insert, decide_False by done.
  - rewrite event_ready_insert, decide_True by done. cbn [signaled].
    by destruct (signaled x), (manual_reset x).
Qed.

Section WaitOk.
Context (me : Z) (env : nat → store → store) (events : list event_t) (s0 : store).

(** What the other tasks do never deletes an event that is waited for. *)
Context (Hkeep : ∀ n s, Forall (usable s) events → Forall (usable (env n s)) events).

(** The store that section [n] of the call finds when the earlier ones have found
    nothing: sections run through the events again and again. *)
Fixpoint found_by (n : nat) : store :=
  match n with
  | O => env 0 s0
  | S k => env n (default (found_by k)
             (snd <$> wait_section me (nth (k mod length events) events None) (found_by k)))
  end.

(** Section [n] finds its event signaled. *)
Definition hits (n : nat) : bool :=
  is_signaled (found_by n) (nth (n mod length events) events None).

Hypothesis (Hall : Forall (usable s0) events) (Hne : (0 < length events)%nat).

(** The event of section [n] *)
Lemma section_event (n : nat) : ∃ e, events !! (n mod length events)%nat = Some e ∧
  nth (n mod length events) events None = e.
Proof.
  pose proof (Nat.mod_upper_bound n (length events) ltac:(lia)) as Hm.
  destruct (lookup_lt_is_Some_2 events _ Hm) as [e He]. exists e. split; [done|].
  by rewrite nth_lookup, He.
Qed.

Lemma found_usable (n : nat) : Forall (usable (found_by n)) events.
Proof.
  induction n as [|n IH]; cbn [found_by]; [by apply Hkeep|]. apply Hkeep.
  destruct (section_event n) as (e & He & ->).
  assert (Hu : usable (found_by n) e) by by apply (proj1 (Forall_lookup _ _) IH _ _ He).
  destruct (wait_section_ok me e _ Hu) as (x & s' & _ & -> & Hk & _). cbn.
  eapply Forall_impl; [|exact IH]. intros f. apply Hk.
Qed.

(** The store before the section, when the ones before it have found nothing. *)
Definition left_by (n : nat) : store :=
  match n with
  | O => s0
  | S k => default (found_by k)
             (snd <$> wait_section me (nth (k mod length events) events None) (found_by k))
  end.

Lemma found_left n : found_by n = env n (left_by n).
Proof. by destruct n. Qed.

(** The rest of a pass from event [i] on: it stops at the first hit. *)
Lemma wait_pass_ok (p i j : nat) :
  (i + j ≤ length events)%nat → (∀ m, (m < j)%nat → hits (p * length events + i + m) = false) →
  wait_pass me env (drop i events) (Z.of_nat i) (p * length events + i) (left_by (p * length events + i))
  = wait_pass me env (drop (i + j) events) (Z.of_nat (i + j)) (p * length events + (i + j))
      (left_by (p * length events + (i + j))).
Proof.
  revert i. induction j as [|j IH]; intros i Hij Hno; [by rewrite Nat.add_0_r|].
  destruct (lookup_lt_is_Some_2 events i ltac:(lia)) as [e He].
  rewrite (drop_S _ e) by done. cbn [wait_pass]. rewrite <- found_left.
  assert (Hmod : ((p * length events + i) mod length events = i)%nat).
  { rewrite Nat.add_comm, Nat.Div0.mod_add. apply Nat.mod_small. lia. }
  assert (Hnth : nth i events None = e) by by rewrite nth_lookup, He.
  assert (Hu : usable (found_by (p * length events + i)) e)
    by by apply (proj1 (Forall_lookup _ _) (found_usable _) _ _ He).
  destruct (wait_section_ok me e _ Hu) as (x & s' & Hx & Hw & _).
  specialize (Hno 0%nat ltac:(lia)) as Hno0. rewrite Nat.add_0_r in Hno0. unfold hits in Hno0.
  rewrite Hmod, Hnth in Hno0. unfold is_signaled in Hno0. rewrite Hx in Hno0.
  rewrite Hw. cbn [mbind option_bind]. rewrite Hno0.
  assert (Hs' : s' = left_by (p * length events + S i)).
  { replace (p * length events + S i)%nat with (S (p * length events + i)) by lia.
    cbn [left_by]. by rewrite Hmod, Hnth, Hw. }
  replace (S (p * length events + i)) with (p * length events + S i)%nat by lia.
  replace (Z.of_nat i + 1) with (Z.of_nat (S i)) by lia.
  rewrite Hs', IH; [by rewrite Nat.add_succ_r|lia|].
  intros m Hm. rewrite <- (Hno (S m)) by lia. f_equal. lia.
Qed.

(** A pass without a hit *)
Lemma wait_pass_quiet p :
  (∀ m, (m < length events)%nat → hits (p * length events + m) = false) →
  wait_pass me env events 0 (p * length events) (left_by (p * length events))
  = Some (-1, (S p * length events)%nat, left_by (S p * length events)).
Proof.
  intros Hno. pose proof (wait_pass_ok p 0 (length events) ltac:(lia)) as Hp.
  rewrite !Nat.add_0_r, drop_0, Nat.add_0_l, drop_all in Hp.
  change (Z.of_nat 0) with 0 in Hp. cbn [wait_pass] in Hp.
  replace (p * length events + length events)%nat with (S p * length events)%nat in Hp by lia.
  by apply Hp.
Qed.

(** A pass whose event [i] is the first hit *)
Lemma wait_pass_hit p i e :
  events !! i = Some e → (∀ m, (m < i)%nat → hits (p * length events + m) = false) →
  hits (p * length events + i) = true →
  ∃ x s', event_ready e (found_by (p * length events + i)) = Some x ∧
    wait_pass me env events 0 (p * length events) (left_by (p * length events))
    = Some (Z.of_nat i, S (p * length events + i), s') ∧
    is_signaled s' e = manual_reset x ∧
    ∀ f, f ≠ e → is_signaled s' f = is_signaled (found_by (p * length events + i)) f.
Proof.
  intros He Hno Hhit. pose proof (lookup_lt_Some _ _ _ He) as Hi.
  pose proof (wait_pass_ok p 0 i ltac:(lia)) as Hp. rewrite !Nat.add_0_r, drop_0, Nat.add_0_l in Hp.
  change (Z.of_nat 0) with 0 in Hp.
  rewrite Hp by done. rewrite (drop_S _ e) by done. cbn [wait_pass]. rewrite <- found_left.
  assert (Hmod : ((p * length events + i) mod length events = i)%nat).
  { rewrite Nat.add_comm, Nat.Div0.mod_add. apply Nat.mod_small. lia. }
  unfold hits in Hhit. rewrite Hmod, nth_lookup, He in Hhit. cbn in Hhit.
  assert (Hu : usable (found_by (p * length events + i)) e)
    by by apply (proj1 (Forall_lookup _ _) (found_usable _) _ _ He).
  destruct (wait_section_ok me e _ Hu) as (x & s' & Hx & Hw & _ & Hoth & Hown).
  unfold is_signaled in Hhit. rewrite Hx in Hhit. rewrite Hw. cbn [mbind option_bind].
  rewrite Hhit in Hown |- *. by exists x, s'.
Qed.

Context (ms start : Z) (ticks : nat → Z).

(** Passes that find nothing in time *)
Lemma wait_passes p fuel :
  (∀ n, (n < p * length events)%nat → hits n = false) →
  (∀ q, (q < p)%nat → expired ms start (ticks q) = false) → (p ≤ fuel)%nat →
  while fuel (wait_step me env events ms start ticks) (0%nat, 0%nat, s0)
  = while (fuel - p) (wait_step me env events ms start ticks)
      (p, (p * length events)%nat, left_by (p * length events)).
Proof.
  induction p as [|p IH]; intros Hno Hex Hf; [by rewrite Nat.sub_0_r|].
  rewrite IH; [|intros n Hn; apply Hno; lia|intros q Hq; apply Hex; lia|lia].
  replace (fuel - p)%nat with (S (fuel - S p)) by lia. cbn [while wait_step].
  rewrite wait_pass_quiet by (intros m Hm; apply Hno; lia). cbn [mbind option_bind].
  rewrite Hex by lia. done.
Qed.
End WaitOk.

(** (C34) A waiting task takes the first signal that one of its critical sections
    finds, and only that one.  The sections of a call of [event_wait_array] run
    through the events again and again, and before each of them the other tasks
    may do anything but delete the events.  Suppose that the passes before [p]
    and the sections of pass [p] before [i] find no signal and that the time is
    not up after a pass before [p].  When section [i] of pass [p] finds its event
    signaled, the call ends there and answers [i]; an event that resets by itself
    has lost its signal, a manual-reset one keeps it, and the signals of the
    others are as that section found them.  When pass [p] finds nothing and the
    time is up, the call ends with -1 and has taken no signal. *)
Theorem event_wait_array_correct (me : Z) (env : nat → store → store) (events : list event_t)
    (ms start : Z) (ticks : nat → Z) (s : store) (p i fuel : nat)
    (Hkeep : ∀ n s, Forall (usable s) events → Forall (usable (env n s)) events)
    (Hlen : (0 < length events ≤ 256)%nat) (Hall : Forall (usable s) events)
    (Hi : (i ≤ length events)%nat)
    (Hquiet : ∀ n, (n < p * length events + i)%nat → hits me env events s n = false)
    (Htime : ∀ q, (q < p)%nat → expired ms start (ticks q) = false)
    (Hfuel : (p < fuel)%nat) :
  (∀ e, events !! i = Some e → hits me env events s (p * length events + i) = true →
     ∃ x s', event_ready e (found_by me env events s (p * length events + i)) = Some x ∧
       event_wait_array me env fuel events ms ticks start s = Some (Z.of_nat i, s') ∧
       is_signaled s' e = manual_reset x ∧
       ∀ f, f ≠ e → is_signaled s' f
                    = is_signaled (found_by me env events s (p * length events + i)) f) ∧
  (i = length events → expired ms start (ticks p) = true →
     ∃ s', event_wait_array me env fuel events ms ticks start s = Some (-1, s') ∧
       ∀ f, is_signaled s' f = is_signaled (found_by me env events s (p * length events + (i - 1))) f).
Proof.
  assert (Hcall : event_wait_array me env fuel events ms ticks start s
    = while (fuel - p) (wait_step me env events ms start ticks)
        (p, (p * length events)%nat, left_by me env events s (p * length events))).
  { unfold event_wait_array. rewrite (proj2 (Nat.eqb_neq _ 0)), (proj2 (Nat.ltb_ge 256 _)) by lia.
    assert (Hr : forallb (λ e, bool_decide (is_Some (event_ready e s))) events = true).
    { apply forallb_forall. intros e He. apply bool_decide_eq_true_2.
      by apply (proj1 (List.Forall_forall _ _) Hall). }
    rewrite Hr. cbn [orb negb]. apply wait_passes; [done|done|lia| |done|lia].
    intros n Hn. apply Hquiet. lia. }
  rewrite Hcall. replace (fuel - p)%nat with (S (fuel - S p)) by lia. cbn [while wait_step]. split.
  - intros e He Hhit.
    destruct (wait_pass_hit me env events s Hkeep Hall ltac:(lia) p i e He) as (x & s' & Hx & -> & Hown & Hoth);
      [intros m Hm; apply Hquiet; lia|done|].
    exists x, s'. split; [done|]. cbn [mbind option_bind].
    by rewrite Z.geb_leb, (proj2 (Z.leb_le 0 _)) by lia.
  - intros -> Hex. rewrite wait_pass_quiet; [|done|done|lia|intros m Hm; apply Hquiet; lia].
    cbn [mbind option_bind]. rewrite Hex, orb_true_r. eexists. split; [done|]. intros f.
    set (n := (p * length events + (length events - 1))%nat).
    replace (S p * length events)%nat with (S n) by lia. cbn [left_by].
    destruct (section_event events ltac:(lia) n) as (e & He & Hnth).
    assert (Hu : usable (found_by me env events s n) e)
      by by apply (proj1 (Forall_lookup _ _) (found_usable me env events s Hkeep Hall ltac:(lia) n) _ _ He).
    specialize (Hquiet n ltac:(lia)). unfold hits in Hquiet. rewrite Hnth in *.
    destruct (wait_section_ok me e _ Hu) as (x & s' & Hx & -> & _ & Hoth & Hown). cbn.
    destruct (decide (f = e)) as [->|Hne]; [|by apply Hoth]. rewrite Hown, Hquiet.
    unfold is_signaled in Hquiet. rewrite Hx in Hquiet. by rewrite Hquiet.
Qed.

(** Two events; the second one, which resets by itself, is signaled between the two
    sections of the second pass. *)
Lemma event_wait_array_correct_witness :
  let s := [Event EVENT_READY true false 0; Event EVENT_READY false false 0] in
  let env := λ n s, if (n =? 3)%nat then (event_signal (Some 1%nat) s 0).1 else s in
  ∃ s', event_wait_array 9 env 5 [Some 0%nat; Some 1%nat] 0xFFFF (λ _, 0) 0 s = Some (1, s') ∧
    is_signaled s' (Some 1%nat) = false.
Proof.
  intros s env.
  assert (Hkeep : ∀ n s, Forall (usable s) [Some 0%nat; Some 1%nat] →
    Forall (usable (env n s)) [Some 0%nat; Some 1%nat]).
  { intros n s1 H1. unfold env. destruct (n =? 3)%nat; [|done]. unfold event_signal.
    destruct (event_ready (Some 1%nat) s1) as [x|] eqn:Hx; [|done].
    eapply Forall_impl; [|exact H1]. intros f Hf. unfold usable.
    cbn [fst]. rewrite event_ready_insert by done. by destruct (decide _). }
  destruct (event_wait_array_correct 9 env [Some 0%nat; Some 1%nat] 0xFFFF 0 (λ _, 0) s 1 1 5) as [Hhit _].
  - exact Hkeep.
  - simpl. lia.
  - repeat constructor; by eexists.
  - simpl. lia.
  - intros n Hn. simpl in Hn. do 3 (destruct n as [|n]; [reflexivity|]). lia.
  - intros q Hq. reflexivity.
  - lia.
  - destruct (Hhit (Some 1%nat) eq_refl eq_refl) as (x & s' & Hx & Hw & Hs & _).
    exists s'. split; [exact Hw|]. rewrite Hs. vm_compute in Hx. injection Hx as <-. reflexivity.
Defined.
