(* ===== verification/Ring.v ===== *)
(** Rings of bytes: an array of [N] bytes with the indices [start] of the first
    byte that waits and [end] behind the last one; [N - 1] bytes fit.  The pipes and
    the pseudo terminals of the kernel keep their bytes in such rings. *)

From S2P Require Import Prelude.

Section Ring.
Variable N : Z.
Hypothesis HN : 1 < N.

(** The [i]-th byte that waits, and all of them in order. *)
Definition queued (start : Z) (base : list Z) (i : nat) : Z :=
  default 0 (base.[(start + Z.of_nat i) mod N]).

Definition queue_length (start end_ : Z) : nat := Z.to_nat ((end_ - start) mod N).

Definition queue (start end_ : Z) (base : list Z) : list Z :=
  queued start base <$> seq 0 (queue_length start end_).

Record ring_ok (start end_ : Z) (base : list Z) : Prop := {
  ring_base : Z.of_nat (length base) = N;
  ring_start : 0 ≤ start < N;
  ring_end : 0 ≤ end_ < N;
  ring_bytes : Forall is_byte base }.

Lemma queue_length_eq s e b : length (queue s e b) = queue_length s e.
Proof. unfold queue. by rewrite length_fmap, length_seq. Qed.

(** Index arithmetic, without division. *)
Lemma ring_next i : 0 ≤ i < N → Z.rem (i + 1) N = if i =? N - 1 then 0 else i + 1.
Proof.
  intros Hi. destruct (Z.eqb_spec i (N - 1)) as [->|].
  - replace (N - 1 + 1) with N by lia. apply Z.rem_same. lia.
  - apply Z.rem_small. lia.
Qed.

Lemma ring_diff a b :
  0 ≤ a < N → 0 ≤ b < N → (a - b) mod N = if b <=? a then a - b else a - b + N.
Proof.
  intros Ha Hb. destruct (Z.leb_spec b a); [apply Z.mod_small; lia|].
  rewrite <- (Z_mod_plus_full _ 1), Z.mod_small; lia.
Qed.

Lemma ring_add a k :
  0 ≤ a < N → 0 ≤ k < N → (a + k) mod N = if a + k <? N then a + k else a + k - N.
Proof.
  intros Ha Hk. destruct (Z.ltb_spec (a + k) N); [apply Z.mod_small; lia|].
  rewrite <- (Z_mod_plus_full _ (-1)), Z.mod_small; lia.
Qed.

Lemma next_range i : 0 ≤ i < N → 0 ≤ Z.rem (i + 1) N < N.
Proof. intros Hi. rewrite ring_next by done. destruct (Z.eqb_spec i (N - 1)); lia. Qed.

(** Decide the cases of the index arithmetic. *)
Local Ltac ring_cases :=
  repeat match goal with
  | |- context [if ?a =? ?b then _ else _] => destruct (Z.eqb_spec a b)
  | |- context [if ?a <=? ?b then _ else _] => destruct (Z.leb_spec a b)
  | |- context [if ?a <? ?b then _ else _] => destruct (Z.ltb_spec a b)
  end; try lia.

Lemma queue_bound s e b : Z.of_nat (length (queue s e b)) ≤ N - 1.
Proof.
  rewrite queue_length_eq. unfold queue_length.
  pose proof (Z.mod_pos_bound (e - s) N ltac:(lia)). lia.
Qed.

Lemma queue_empty s e b : ring_ok s e b → s = e ↔ length (queue s e b) = 0%nat.
Proof.
  intros [_ Hs He _]. rewrite queue_length_eq. unfold queue_length. rewrite ring_diff by done. ring_cases.
Qed.

Lemma queue_full s e b :
  ring_ok s e b → s = Z.rem (e + 1) N ↔ Z.of_nat (length (queue s e b)) = N - 1.
Proof.
  intros [_ Hs He _]. rewrite queue_length_eq. unfold queue_length. rewrite ring_diff, ring_next by done. ring_cases.
Qed.

Lemma pop_length s e :
  0 ≤ s < N → 0 ≤ e < N → s ≠ e →
  Z.to_nat ((e - s) mod N) = S (Z.to_nat ((e - Z.rem (s + 1) N) mod N)).
Proof.
  intros Hs He Hne. rewrite (ring_diff e (Z.rem (s + 1) N)), (ring_diff e s), ring_next
    by (done || by apply next_range). ring_cases.
Qed.

Lemma push_length s e :
  0 ≤ s < N → 0 ≤ e < N → s ≠ Z.rem (e + 1) N →
  Z.to_nat ((Z.rem (e + 1) N - s) mod N) = S (Z.to_nat ((e - s) mod N)).
Proof.
  intros Hs He. rewrite (ring_diff (Z.rem (e + 1) N) s), (ring_diff e s), ring_next
    by (done || by apply next_range). intros Hne. revert Hne. ring_cases.
Qed.

(** The index of a byte after the first one has been taken, and that it is not
    the index of the first. *)
Lemma pop_index s j :
  0 ≤ s < N → 0 ≤ j < N - 1 →
  (Z.rem (s + 1) N + j) mod N = (s + (j + 1)) mod N ∧ 0 ≤ (s + (j + 1)) mod N ∧ (s + (j + 1)) mod N ≠ s.
Proof.
  intros Hs Hj. pose proof (next_range s Hs).
  rewrite (ring_add (Z.rem (s + 1) N) j), (ring_add s (j + 1)), ring_next by lia.
  repeat split; ring_cases.
Qed.

(** A waiting byte is not at [end]; the one behind the last would be. *)
Lemma push_index s e j :
  0 ≤ s < N → 0 ≤ e < N → 0 ≤ j < (e - s) mod N → 0 ≤ (s + j) mod N ∧ (s + j) mod N ≠ e.
Proof.
  intros Hs He. rewrite ring_diff by done. intros Hj.
  assert (j < N) by (revert Hj; ring_cases). rewrite ring_add by lia. revert Hj. ring_cases.
Qed.

Lemma end_index s e : 0 ≤ s < N → 0 ≤ e < N → (s + (e - s) mod N) mod N = e.
Proof.
  intros Hs He. rewrite ring_add; [|done|rewrite ring_diff by done; ring_cases].
  rewrite ring_diff by done. ring_cases.
Qed.

(** Taking a byte at [start]. *)
Lemma queue_pop s e base :
  ring_ok s e base → s ≠ e →
  ∃ b bytes, base.[s] = Some b ∧ is_byte b ∧ base.[s <- 0] = Some bytes ∧
    ring_ok (Z.rem (s + 1) N) e bytes ∧ queue s e base = b :: queue (Z.rem (s + 1) N) e bytes.
Proof.
  intros [Hb Hs He Hf] Hne. destruct (rd_is_Some base s) as [b Hrd]; [lia|].
  exists b, (<[Z.to_nat s := 0]> base). pose proof (proj1 (rd_Some _ _ _) Hrd) as [_ Hl].
  split; [done|]. split; [by apply (Forall_lookup_1 _ _ _ _ Hf Hl)|].
  split; [apply wr_Some; lia|]. split.
  { constructor; [by rewrite length_insert|by apply next_range|done|].
    apply Forall_insert; [done|]. unfold is_byte. lia. }
  unfold queue, queue_length. rewrite pop_length by done. cbn [seq fmap list_fmap]. f_equal.
  - unfold queued. rewrite Z.add_0_r, Z.mod_small by lia. by rewrite Hrd.
  - rewrite <- fmap_S_seq, <- list_fmap_compose. apply list_fmap_ext.
    intros i j [-> Hj]%lookup_seq. unfold compose, queued. f_equal.
    assert (Hi : Z.of_nat i < N - 1).
    { pose proof (next_range s Hs). rewrite ring_diff in Hj by done. revert Hj. rewrite ring_next by done. ring_cases. }
    rewrite !Nat.add_0_l, Nat2Z.inj_succ. unfold Z.succ.
    destruct (pop_index s (Z.of_nat i) Hs ltac:(lia)) as (-> & H0 & Hns).
    unfold rd. rewrite (proj2 (Z.leb_le _ _)) by done. rewrite list_lookup_insert_ne by lia. done.
Qed.

(** Storing a byte at [end]. *)
Lemma queue_push s e base c :
  ring_ok s e base → is_byte c → s ≠ Z.rem (e + 1) N →
  ∃ bytes, base.[e <- c] = Some bytes ∧ ring_ok s (Z.rem (e + 1) N) bytes ∧
    queue s (Z.rem (e + 1) N) bytes = queue s e base ++ [c].
Proof.
  intros [Hb Hs He Hf] Hc Hne. exists (<[Z.to_nat e := c]> base).
  split; [apply wr_Some; lia|]. split.
  { constructor; [by rewrite length_insert|done|by apply next_range|by apply Forall_insert]. }
  unfold queue, queue_length. rewrite push_length by done. rewrite seq_S, fmap_app. cbn [fmap list_fmap]. f_equal.
  - apply list_fmap_ext. intros i j [-> Hj]%lookup_seq. unfold queued. f_equal.
    destruct (push_index s e (Z.of_nat (0 + i)) Hs He ltac:(lia)) as [H0 Hns].
    unfold rd. rewrite (proj2 (Z.leb_le _ _)) by done. rewrite list_lookup_insert_ne by lia. done.
  - f_equal. unfold queued.
    assert (Hm : 0 ≤ (e - s) mod N) by (apply Z.mod_pos_bound; lia).
    rewrite Nat.add_0_l, Z2Nat.id, end_index by done.
    unfold rd. rewrite (proj2 (Z.leb_le _ _)) by lia. rewrite list_lookup_insert_eq by lia. done.
Qed.

(** Moving [end] back drops the bytes behind it. *)
Lemma queue_rewind s e e' base n :
  ring_ok s e base → 0 ≤ e' < N → Z.to_nat ((e' - s) mod N) = n → (n ≤ length (queue s e base))%nat →
  ring_ok s e' base ∧ queue s e' base = take n (queue s e base).
Proof.
  intros [Hb Hs He Hf] Hr Hn Hle. split; [by constructor|].
  rewrite queue_length_eq in Hle. unfold queue. rewrite <- fmap_take, take_seq.
  unfold queue_length at 1. rewrite Hn, Nat.min_l by done. done.
Qed.
End Ring.
