(* ===== verification/Pipe.v ===== *)
(** Pipes: kernel/vfs/pipe.c.

    Reader and writer share a ring of [PIPE_SIZE] bytes.  Both work in critical
    sections of at most 512 bytes: [read_section] and [write_section] are what
    one turn of the outer loops does while it holds the lock, and other tasks
    may run between two of them.  The event of the pipe is one of Event.v;
    which task [event_signal] wakes up is not part of this model. *)

From S2P Require Import Prelude Errors Event Ring.
From stdpp Require Import relations.

#[local] Open Scope Z_scope.

Definition PIPE_SIZE : Z := 4096.

Record pipe_shared_data := Pipe {
  event : event_instance;
  count : Z;
  start : Z;
  end_ : Z;
  base : list Z }.

Inductive pipe_type := pipe_type_read | pipe_type_write.

#[export] Instance pipe_type_eq_dec : EqDecision pipe_type.
Proof. solve_decision. Defined.

(** [event_signal] and [event_reset] on the event of the pipe. *)
Definition signal (d : pipe_shared_data) : pipe_shared_data :=
  let x := event d in
  if ready x =? EVENT_READY
  then Pipe (Event (ready x) (manual_reset x) true 0) (count d) (start d) (end_ d) (base d)
  else d.

Definition reset (d : pipe_shared_data) : pipe_shared_data :=
  let x := event d in
  if ready x =? EVENT_READY
  then Pipe (Event (ready x) (manual_reset x) false (task x)) (count d) (start d) (end_ d) (base d)
  else d.

(** *** Reading *)

(** One turn of the inner loop of [n_read]; the state is
    (data, bytes read so far, b, atomicity) and *size is the number of bytes. *)
Definition read_turn (requested : Z) (s : pipe_shared_data * list Z * Z * Z)
  : option (ctl (pipe_shared_data * list Z * Z * Z) (pipe_shared_data * list Z * Z)) :=
  let '(d, got, b, atomicity) := s in
  if Z.of_nat (length got) <? requested then
    if negb (start d =? end_ d) then
      b ← (base d).[start d];
      bytes ← (base d).[start d <- 0];
      let d := Pipe (event d) (count d) (Z.rem (start d + 1) PIPE_SIZE) (end_ d) bytes in
      let got := got ++ [u8 b] in
      let atomicity := atomicity + 1 in
      Some (if atomicity =? 512 then Done (d, got, b) else Next (d, got, b, atomicity))
    else
      let d := if count d =? 2 then reset d else d in
      Some (Done (d, got, -1))
  else Some (Done (d, got, b)).

(** One critical section: the data, the bytes, b and [true] when the function
    returns DE_EMPTY from it. *)
Definition read_section (requested : Z) (d : pipe_shared_data) (got : list Z) (b : Z)
  : option (pipe_shared_data * list Z * Z * bool) :=
  '(d, got, b) ← while 513 (read_turn requested) (d, got, b, 0);
  if negb (count d =? 2) then
    let d := signal d in
    Some (d, got, b, Z.of_nat (length got) =? 0)
  else Some (d, got, b, false).

Definition read_step (requested : Z) (s : pipe_shared_data * list Z * Z)
  : option (ctl (pipe_shared_data * list Z * Z) (de_error * pipe_shared_data * list Z)) :=
  let '(d, got, b) := s in
  '(d, got, b, empty) ← read_section requested d got b;
  Some (if (empty : bool) then Done (DE_EMPTY, d, got)
        else if (b >=? 0) && (Z.of_nat (length got) <? requested) then Next (d, got, b)
        else Done (DE_SUCCESS, d, got)).

(** The result, the data and the bytes that *size and the buffer tell. *)
Definition n_read (type : pipe_type) (requested : Z) (d : pipe_shared_data)
  : option (de_error * pipe_shared_data * list Z) :=
  match type with
  | pipe_type_write => Some (DE_ACCESS, d, [])
  | pipe_type_read => while (S (Z.to_nat requested)) (read_step requested) (d, [], 0)
  end.

(** *** Writing *)

(** One turn of the inner loop of [n_write]; (data, *size, atomicity). *)
Definition write_turn (requested : Z) (buffer : list Z) (s : pipe_shared_data * Z * Z)
  : option (ctl (pipe_shared_data * Z * Z) (pipe_shared_data * Z * Z)) :=
  let '(d, size, atomicity) := s in
  if size <? requested then
    let new_end := Z.rem (end_ d + 1) PIPE_SIZE in
    if start d =? new_end then Some (Done (d, size, atomicity))
    else
      c ← buffer.[size];
      bytes ← (base d).[end_ d <- c];
      let d := Pipe (event d) (count d) (start d) new_end bytes in
      let atomicity := atomicity + 1 in
      Some (if atomicity =? 512 then Done (d, size + 1, atomicity)
            else Next (d, size + 1, atomicity))
  else Some (Done (d, size, atomicity)).

Inductive write_answer := WriteReturn (e : de_error) | WriteBreak | WriteAgain.

(** One critical section and what follows it: data, *size and the way on. *)
Definition write_section (requested : Z) (buffer : list Z) (d : pipe_shared_data) (size : Z)
  : option (pipe_shared_data * Z * write_answer) :=
  if negb (count d =? 2) then Some (d, size, WriteReturn DE_PIPE)
  else
    let original_end := end_ d in
    '(d, size, atomicity) ← while 513 (write_turn requested buffer) (d, size, 0);
    if (requested <=? 512) && negb (requested =? atomicity) then
      Some (Pipe (event d) (count d) (start d) original_end (base d), 0, WriteReturn DE_RETRY)
    else
      let d := if negb (atomicity =? 0) then signal d else d in
      Some (d, size, if atomicity =? 0 then WriteBreak else WriteAgain).

Definition write_step (requested : Z) (buffer : list Z) (s : pipe_shared_data * Z)
  : option (ctl (pipe_shared_data * Z) (de_error * pipe_shared_data * Z)) :=
  let '(d, size) := s in
  '(d, size, a) ← write_section requested buffer d size;
  Some (match a with
        | WriteReturn e => Done (e, d, size)
        | WriteBreak => Done (DE_SUCCESS, d, size)
        | WriteAgain => if size <? requested then Next (d, size) else Done (DE_SUCCESS, d, size)
        end).

(** The result, the data and *size. *)
Definition n_write (type : pipe_type) (requested : Z) (buffer : list Z) (d : pipe_shared_data)
  : option (de_error * pipe_shared_data * Z) :=
  match type with
  | pipe_type_read => Some (DE_ACCESS, d, 0)
  | pipe_type_write => while (S (Z.to_nat requested)) (write_step requested buffer) (d, 0)
  end.

(** *** Polling, release and creation *)

Definition POLLIN : Z := 0x0001.
Definition POLLOUT : Z := 0x0004.
Definition POLLRDNORM : Z := 0x0040.
Definition POLLWRNORM : Z := 0x0100.

Definition n_poll (type : pipe_type) (events : Z) (d : pipe_shared_data) : Z :=
  let read_ok := match type with
                 | pipe_type_read => negb (start d =? end_ d)
                 | pipe_type_write => false
                 end in
  let write_ok := match type with
                  | pipe_type_read => false
                  | pipe_type_write =>
                      let count := end_ d - start d in
                      let count := if count <? 0 then PIPE_SIZE + end_ d - start d else count in
                      count <? PIPE_SIZE / 2
                  end in
  let r := 0 in
  let r := if read_ok && negb (Z.land events POLLIN =? 0) then Z.lor r POLLIN else r in
  let r := if read_ok && negb (Z.land events POLLRDNORM =? 0) then Z.lor r POLLRDNORM else r in
  let r := if write_ok && negb (Z.land events POLLOUT =? 0) then Z.lor r POLLOUT else r in
  if write_ok && negb (Z.land events POLLWRNORM =? 0) then Z.lor r POLLWRNORM else r.

(** The release of one end; [references] is the answer of
    [vfs_decrement_count].  [None] inside says that the data has been freed. *)
Definition n_release (references : Z) (d : pipe_shared_data) : option pipe_shared_data :=
  if references =? 0 then
    let d := signal (Pipe (event d) (count d - 1) (start d) (end_ d) (base d)) in
    if count d <=? 0 then None else Some d
  else Some d.

(** [vfs_pipe]: the arguments say which of the four allocations succeed. *)
Definition vfs_pipe (data_ok event_ok read_ok write_ok : bool)
  : de_error * option pipe_shared_data :=
  if negb data_ok then (DE_MEMORY, None)
  else if negb event_ok || negb read_ok || negb write_ok then (DE_MEMORY, None)
  else (DE_SUCCESS,
        Some (Pipe (Event EVENT_READY true false 0) 2 0 0 (replicate 4096 0))).

(** ** The ring as a queue *)

(** The bytes that wait in the pipe, in order. *)
Definition queue (d : pipe_shared_data) : list Z := Ring.queue PIPE_SIZE (start d) (end_ d) (base d).

Definition ring_ok (d : pipe_shared_data) : Prop := Ring.ring_ok PIPE_SIZE (start d) (end_ d) (base d).

(** No wake-up is lost: whenever a reader has something to do (bytes to take,
    or the other end is gone), the event is signaled. *)
Record pipe_ok (d : pipe_shared_data) : Prop := {
  pipe_ring : ring_ok d;
  pipe_event : ready (event d) = EVENT_READY;
  pipe_wake : queue d ≠ [] ∨ count d ≠ 2 → signaled (event d) = true }.

Lemma pipe_size_big : 1 < PIPE_SIZE.
Proof. done. Qed.

Lemma pipe_queue_length d : length (queue d) = queue_length PIPE_SIZE (start d) (end_ d).
Proof. apply queue_length_eq. Qed.

Lemma pipe_queue_bound d : (length (queue d) ≤ 4095)%nat.
Proof. pose proof (queue_bound PIPE_SIZE pipe_size_big (start d) (end_ d) (base d)). unfold queue, PIPE_SIZE in *. lia. Qed.

Lemma pipe_empty d : ring_ok d → start d = end_ d ↔ length (queue d) = 0%nat.
Proof. by apply (queue_empty PIPE_SIZE). Qed.

Lemma pipe_full d : ring_ok d → start d = Z.rem (end_ d + 1) PIPE_SIZE ↔ length (queue d) = 4095%nat.
Proof.
  intros Hd. rewrite (queue_full PIPE_SIZE pipe_size_big _ _ _ Hd). change (Ring.queue _ _ _ _) with (queue d).
  unfold PIPE_SIZE. lia.
Qed.

(** Taking a byte at [start]. *)
Lemma pipe_pop d :
  ring_ok d → start d ≠ end_ d →
  ∃ b bytes, (base d).[start d] = Some b ∧ is_byte b ∧ (base d).[start d <- 0] = Some bytes ∧
    let d' := Pipe (event d) (count d) (Z.rem (start d + 1) PIPE_SIZE) (end_ d) bytes in
    ring_ok d' ∧ queue d = b :: queue d'.
Proof. exact (queue_pop PIPE_SIZE pipe_size_big _ _ _). Qed.

(** Storing a byte at [end]. *)
Lemma pipe_push d c :
  ring_ok d → is_byte c → start d ≠ Z.rem (end_ d + 1) PIPE_SIZE →
  ∃ bytes, (base d).[end_ d <- c] = Some bytes ∧
    let d' := Pipe (event d) (count d) (start d) (Z.rem (end_ d + 1) PIPE_SIZE) bytes in
    ring_ok d' ∧ queue d' = queue d ++ [c].
Proof. exact (queue_push PIPE_SIZE pipe_size_big _ _ _ c). Qed.

(** Moving [end] back drops the bytes behind it. *)
Lemma pipe_rewind d e n :
  ring_ok d → 0 ≤ e < 4096 → Z.to_nat ((e - start d) mod PIPE_SIZE) = n →
  (n ≤ length (queue d))%nat →
  let d' := Pipe (event d) (count d) (start d) e (base d) in
  ring_ok d' ∧ queue d' = take n (queue d).
Proof. exact (queue_rewind PIPE_SIZE _ _ e _ n). Qed.

(** ** The critical sections *)

(** What the inner loop of the reader does: it takes bytes until there are
    512, the request is met, or the pipe is empty. *)
Lemma read_loop requested d got b :
  ring_ok d → 0 ≤ b → Z.of_nat (length got) ≤ requested →
  let n := Nat.min 512 (Nat.min (Z.to_nat (requested - Z.of_nat (length got)))
                          (length (queue d))) in
  ∃ d' b', while 513 (read_turn requested) (d, got, b, 0)
             = Some (d', got ++ take n (queue d), b') ∧
    ring_ok d' ∧ queue d' = drop n (queue d) ∧ count d' = count d ∧
    (b' < 0 ↔ (n = length (queue d) ∧ (n < 512)%nat ∧
               Z.of_nat (length got + n) < requested)) ∧
    (event d' = event d ∨ (count d = 2 ∧ queue d' = [] ∧ event d' = event (reset d))).
Proof.
  intros Hd Hb Hg n. set (q := queue d) in *.
  assert (Hn : n = Nat.min 512 (Nat.min (Z.to_nat (requested - Z.of_nat (length got))) (length q)))
    by done.
  assert (Hq : q = queue d) by done. clearbody n q.
  pose (I := λ s : pipe_shared_data * list Z * Z * Z, let '(d1, got1, b1, a) := s in
    ∃ k : nat, a = Z.of_nat k ∧ (k < 512)%nat ∧ (k ≤ n)%nat ∧ 0 ≤ b1 ∧ ring_ok d1 ∧
      got1 = got ++ take k q ∧ queue d1 = drop k q ∧ count d1 = count d ∧ event d1 = event d).
  destruct (while_total I (λ s, Z.to_nat (512 - snd s))
    (λ r : pipe_shared_data * list Z * Z, ∃ d' b', r = (d', got ++ take n q, b') ∧
      ring_ok d' ∧ queue d' = drop n q ∧ count d' = count d ∧
      (b' < 0 ↔ (n = length q ∧ (n < 512)%nat ∧ Z.of_nat (length got + n) < requested)) ∧
      (event d' = event d ∨ (count d = 2 ∧ queue d' = [] ∧ event d' = event (reset d))))
    (read_turn requested)) with (fuel := 513%nat) (s := (d, got, b, 0))
    as ([[d1 got1] b1] & Hw & d' & b' & [= -> -> ->] & Hpost).
  - intros [[[d1 got1] b1] a] (k & -> & Hk & Hkn & Hb1 & Hd1 & -> & Hq1 & Hc1 & He1).
    assert (Hlen : length (take k q) = k) by (rewrite length_take; lia).
    pose proof (f_equal length Hq1) as Hql. rewrite length_drop in Hql.
    cbn [read_turn]. rewrite length_app, Hlen.
    destruct (Z.ltb_spec (Z.of_nat (length got + k)) requested).
    2: { assert (Hkn' : k = n) by lia. eexists; split; [done|]. cbn. rewrite <- Hkn'.
         exists d1, b1. split; [done|]. do 3 (split; [done|]). split; [lia|by left]. }
    destruct (Z.eqb_spec (start d1) (end_ d1)) as [Hse|Hse]; cbn [negb].
    + apply pipe_empty in Hse; [|done]. assert (Hkn' : k = n) by lia.
      eexists; split; [done|]. cbn. rewrite <- Hkn'.
      eexists _, (-1). split; [done|].
      assert (Hq0 : queue d1 = []) by (by apply nil_length_inv).
      destruct (Z.eqb_spec (count d1) 2) as [Hc|Hc].
      * unfold reset. rewrite He1. destruct (Z.eqb_spec (ready (event d)) EVENT_READY).
        -- cbn. split; [destruct Hd1; by constructor|]. split; [exact Hq1|].
           split; [done|]. split; [lia|]. right. split; [congruence|]. done.
        -- split; [done|]. split; [done|]. split; [done|]. split; [lia|]. by left.
      * split; [done|]. split; [done|]. split; [done|]. split; [lia|]. by left.
    + pose proof Hse as Hne. rewrite pipe_empty in Hne by done.
      destruct (pipe_pop d1 Hd1 Hse) as (c & bytes & Hr & Hc & Hwr & Hd2 & Hq2).
      rewrite Hr. cbn [mbind option_bind]. rewrite Hwr. cbn [mbind option_bind].
      unfold wrap. rewrite (Z.mod_small c) by (unfold is_byte in Hc; simpl; lia).
      assert (Hc2 : drop k q = c :: drop (S k) q).
      { rewrite <- Hq1, Hq2. f_equal.
        rewrite <- Nat.add_1_r, <- drop_drop, <- Hq1, Hq2.
        done. }
      assert (Htk : take (S k) q = take k q ++ [c]).
      { apply take_S_r. rewrite <- (Nat.add_0_r k), <- lookup_drop, Hc2. done. }
      rewrite Hq1, Hc2 in Hq2. injection Hq2 as Hq2.
      rewrite <- (app_assoc got), <- Htk.
      destruct (Z.eqb_spec (Z.of_nat k + 1) 512); (eexists; split; [done|]); cbn.
      * assert (Hkn' : S k = n) by lia. rewrite <- Hkn'.
        eexists _, c. split; [done|]. split; [done|]. split; [by symmetry|]. split; [done|].
        split; [unfold is_byte in Hc; lia|]. by left.
      * split; [|lia]. exists (S k). split; [lia|]. split; [lia|]. split; [lia|].
        split; [unfold is_byte in Hc; lia|]. split; [done|]. split; [done|].
        split; [by symmetry|]. done.
  - exists 0%nat. rewrite drop_0, app_nil_r. split; [done|]. split; [lia|]. split; [lia|]. done.
  - cbn. lia.
  - eauto 10.
Qed.

Lemma signal_ready d :
  ready (event d) = EVENT_READY →
  signal d = Pipe (Event EVENT_READY (manual_reset (event d)) true 0)
               (count d) (start d) (end_ d) (base d).
Proof. intros He. unfold signal. rewrite He. done. Qed.

(** One turn of the reader under the lock. *)
Lemma read_section_spec requested d got b :
  pipe_ok d → 0 ≤ b → Z.of_nat (length got) ≤ requested →
  let n := Nat.min 512 (Nat.min (Z.to_nat (requested - Z.of_nat (length got)))
                          (length (queue d))) in
  ∃ d' b', read_section requested d got b
             = Some (d', got ++ take n (queue d), b',
                     negb (count d =? 2) && (Nat.eqb (length got + n) 0)) ∧
    pipe_ok d' ∧ queue d' = drop n (queue d) ∧ count d' = count d ∧
    (b' < 0 ↔ (n = length (queue d) ∧ (n < 512)%nat ∧
               Z.of_nat (length got + n) < requested)).
Proof.
  intros [Hd Hr Hw] Hb Hg n.
  destruct (read_loop requested d got b Hd Hb Hg)
    as (d1 & b1 & Hl & Hd1 & Hq1 & Hc1 & Hb1 & He1).
  fold n in Hl, Hq1, Hb1.
  assert (Hn : (n ≤ length (queue d))%nat) by (subst n; lia). clearbody n.
  unfold read_section. rewrite Hl. cbn [mbind option_bind].
  assert (Hr1 : ready (event d1) = EVENT_READY).
  { destruct He1 as [->|(_ & _ & ->)]; [done|]. unfold reset. rewrite Hr. done. }
  rewrite Hc1. destruct (Z.eqb_spec (count d) 2) as [Hc|Hc]; cbn [negb andb].
  - exists d1, b1. split; [done|]. split; [split; [done|done|]|done].
    intros [Hq|?]; [|lia]. destruct He1 as [->|(_ & ? & _)]; [|done].
    apply Hw. left. intros Hnil. apply Hq. by rewrite Hq1, Hnil, drop_nil.
  - exists (signal d1), b1. rewrite signal_ready by done.
    rewrite length_app, length_take, (Nat.min_l n) by done.
    split.
    { repeat f_equal. destruct (Z.eqb_spec (Z.of_nat (length got + n)) 0);
        destruct (Nat.eqb_spec (length got + n) 0); lia. }
    split; [split; [destruct Hd1; by constructor|done|done]|]. done.
Qed.

(** What the reader gets is a prefix of the queue. *)
Lemma n_read_spec requested d :
  pipe_ok d → 0 ≤ requested →
  let n := Nat.min (Z.to_nat requested) (length (queue d)) in
  ∃ d', n_read pipe_type_read requested d
          = Some (if negb (count d =? 2) && Nat.eqb n 0 then DE_EMPTY else DE_SUCCESS,
                  d', take n (queue d)) ∧
    pipe_ok d' ∧ queue d' = drop n (queue d) ∧ count d' = count d.
Proof.
  intros Hd Hreq n. set (q := queue d). assert (Hq : q = queue d) by done.
  assert (Hn : n = Nat.min (Z.to_nat requested) (length q)) by done. clearbody n q.
  destruct (while_total
    (λ s : pipe_shared_data * list Z * Z, let '(d1, got, b) := s in
       ∃ k, (k ≤ n)%nat ∧ pipe_ok d1 ∧ 0 ≤ b ∧ got = take k q ∧ queue d1 = drop k q ∧
         count d1 = count d)
    (λ s : pipe_shared_data * list Z * Z, Z.to_nat requested - length (snd (fst s)))%nat
    (λ r : de_error * pipe_shared_data * list Z, ∃ d',
       r = (if negb (count d =? 2) && Nat.eqb n 0 then DE_EMPTY else DE_SUCCESS, d', take n q) ∧
       pipe_ok d' ∧ queue d' = drop n q ∧ count d' = count d)
    (read_step requested)) with (fuel := S (Z.to_nat requested)) (s := (d, @nil Z, 0))
    as (r & Hw & d' & -> & Hpost).
  - intros [[d1 got] b] (k & Hk & Hd1 & Hb & -> & Hq1 & Hc1).
    assert (Hlk : length (take k q) = k) by (rewrite length_take; lia).
    destruct (read_section_spec requested d1 (take k q) b Hd1 Hb)
      as (d2 & b2 & Hs & Hd2 & Hq2 & Hc2 & Hb2); [lia|].
    rewrite Hlk, Hq1, length_drop in Hs, Hq2, Hb2.
    set (m := Nat.min 512 (Nat.min (Z.to_nat (requested - Z.of_nat k)) (length q - k))) in *.
    assert (Hm : m = Nat.min 512 (Nat.min (Z.to_nat (requested - Z.of_nat k)) (length q - k)))
      by done. clearbody m.
    rewrite drop_drop in Hq2. rewrite take_take_drop in Hs.
    unfold read_step. rewrite Hs. cbn [mbind option_bind].
    rewrite length_take, Nat.min_l by lia. rewrite Hc1.
    destruct (Z.eqb_spec (count d) 2) as [Hc|Hc]; cbn [negb andb];
      [|destruct (Nat.eqb_spec (k + m) 0) as [Hz|Hz]; cbn [andb]].
    + destruct (Z.geb_spec b2 0), (Z.ltb_spec (Z.of_nat (k + m)) requested); cbn [andb];
        (eexists; split; [done|]); cbn.
      1: { split; [|rewrite !length_take; lia]. exists (k + m)%nat. split; [lia|].
           split; [done|]. split; [lia|]. split; [done|]. split; [done|]. congruence. }
      all: assert (Hkm : (k + m)%nat = n) by lia; rewrite Hkm in *;
        exists d2; split; [done|]; split; [done|]; split; [done|congruence].
    + eexists; split; [done|]. cbn. assert (Hkm : (k + m)%nat = n) by lia.
      rewrite Hkm in *. exists d2. rewrite (proj2 (Nat.eqb_eq n 0)) by lia.
      split; [done|]. split; [done|]. split; [done|congruence].
    + destruct (Z.geb_spec b2 0), (Z.ltb_spec (Z.of_nat (k + m)) requested); cbn [andb];
        (eexists; split; [done|]); cbn.
      1: { split; [|rewrite !length_take; lia]. exists (k + m)%nat. split; [lia|].
           split; [done|]. split; [lia|]. split; [done|]. split; [done|]. congruence. }
      all: assert (Hkm : (k + m)%nat = n) by lia; rewrite Hkm in *;
        rewrite (proj2 (Nat.eqb_neq n 0)) by lia;
        exists d2; split; [done|]; split; [done|]; split; [done|congruence].
  - exists 0%nat. rewrite drop_0. split; [lia|]. split; [done|]. split; [lia|].
    split; [done|]. split; [done|]. done.
  - cbn. lia.
  - eauto.
Qed.

(** What the inner loop of the writer does: it stores bytes until there are
    512, the request is met, or the pipe is full. *)
Lemma write_loop requested buffer d size :
  ring_ok d → Forall is_byte buffer → 0 ≤ size ≤ requested →
  requested ≤ Z.of_nat (length buffer) →
  let n := Nat.min 512 (Nat.min (Z.to_nat (requested - size)) (4095 - length (queue d))) in
  ∃ d', while 513 (write_turn requested buffer) (d, size, 0)
          = Some (d', size + Z.of_nat n, Z.of_nat n) ∧
    ring_ok d' ∧ queue d' = queue d ++ take n (drop (Z.to_nat size) buffer) ∧
    count d' = count d ∧ event d' = event d ∧ start d' = start d.
Proof.
  intros Hd Hbuf Hs Hreq n. set (q := queue d) in *.
  assert (Hn : n = Nat.min 512 (Nat.min (Z.to_nat (requested - size)) (4095 - length q))) by done.
  assert (Hq : q = queue d) by done.
  pose proof (pipe_queue_bound d) as Hqb. rewrite <- Hq in Hqb. clearbody n q.
  set (l := drop (Z.to_nat size) buffer).
  assert (Hl : length l = (length buffer - Z.to_nat size)%nat) by (unfold l; apply length_drop).
  destruct (while_total
    (λ s : pipe_shared_data * Z * Z, let '(d1, size1, a) := s in
      ∃ k : nat, a = Z.of_nat k ∧ size1 = size + Z.of_nat k ∧ (k < 512)%nat ∧ (k ≤ n)%nat ∧
        ring_ok d1 ∧ queue d1 = q ++ take k l ∧ count d1 = count d ∧ event d1 = event d ∧
        start d1 = start d)
    (λ s : pipe_shared_data * Z * Z, Z.to_nat (512 - snd s))
    (λ r : pipe_shared_data * Z * Z, ∃ d', r = (d', size + Z.of_nat n, Z.of_nat n) ∧
      ring_ok d' ∧ queue d' = q ++ take n l ∧ count d' = count d ∧ event d' = event d ∧
      start d' = start d)
    (write_turn requested buffer)) with (fuel := 513%nat) (s := (d, size, 0))
    as (r & Hw & d' & -> & Hpost).
  - intros [[d1 size1] a] (k & -> & -> & Hk & Hkn & Hd1 & Hq1 & Hc1 & He1 & Hs1).
    pose proof (f_equal length Hq1) as Hql. rewrite length_app, length_take in Hql.
    cbn [write_turn]. destruct (Z.ltb_spec (size + Z.of_nat k) requested).
    2: { assert (Hkn' : k = n) by lia. eexists; split; [done|]. cbn. rewrite <- Hkn'. eauto 10. }
    destruct (Z.eqb_spec (start d1) (Z.rem (end_ d1 + 1) PIPE_SIZE)) as [Hf|Hf].
    { apply pipe_full in Hf; [|done]. assert (Hkn' : k = n) by lia.
      eexists; split; [done|]. cbn. rewrite <- Hkn'. eauto 10. }
    pose proof Hf as Hne. rewrite pipe_full in Hne by done.
    pose proof (pipe_queue_bound d1).
    destruct (rd_is_Some buffer (size + Z.of_nat k)) as [c Hc]; [lia|].
    rewrite Hc. cbn [mbind option_bind].
    pose proof (proj1 (rd_Some _ _ _) Hc) as [_ Hl1].
    destruct (pipe_push d1 c Hd1 (Forall_lookup_1 _ _ _ _ Hbuf Hl1) Hf)
      as (bytes & Hwr & Hd2 & Hq2).
    rewrite Hwr. cbn [mbind option_bind].
    assert (Hlk : l !! k = Some c)
      by (unfold l; rewrite lookup_drop; rewrite <- Hl1; f_equal; lia).
    assert (Htk : take (S k) l = take k l ++ [c]) by (by apply take_S_r).
    rewrite Hq1, <- (app_assoc q), <- Htk in Hq2.
    destruct (Z.eqb_spec (Z.of_nat k + 1) 512); (eexists; split; [done|]); cbn.
    + assert (Hkn' : S k = n) by lia. rewrite <- Hkn'.
      eexists. split; [f_equal; [f_equal; lia|lia]|]. done.
    + split; [|lia]. exists (S k). split; [lia|]. split; [lia|]. split; [lia|]. split; [lia|]. done.
  - exists 0%nat. rewrite app_nil_r. split; [done|]. split; [lia|]. split; [lia|]. split; [lia|]. done.
  - cbn. lia.
  - eauto 10.
Qed.

(** The number of bytes that one turn of the writer can store. *)
Definition room (requested size : Z) (d : pipe_shared_data) : nat :=
  Nat.min 512 (Nat.min (Z.to_nat (requested - size)) (4095 - length (queue d))).

(** One turn of the writer under the lock. *)
Lemma write_section_spec requested buffer d size :
  pipe_ok d → Forall is_byte buffer → 0 ≤ size ≤ requested →
  requested ≤ Z.of_nat (length buffer) →
  let n := room requested size d in
  ∃ d' size' a, write_section requested buffer d size = Some (d', size', a) ∧
    pipe_ok d' ∧ count d' = count d ∧
    if negb (count d =? 2) then d' = d ∧ size' = size ∧ a = WriteReturn DE_PIPE
    else if (requested <=? 512) && negb (requested =? Z.of_nat n)
    then queue d' = queue d ∧ size' = 0 ∧ a = WriteReturn DE_RETRY
    else queue d' = queue d ++ take n (drop (Z.to_nat size) buffer) ∧
         size' = size + Z.of_nat n ∧ a = (if Nat.eqb n 0 then WriteBreak else WriteAgain).
Proof.
  intros [Hd Hr Hw] Hbuf Hs Hreq n. unfold write_section.
  destruct (Z.eqb_spec (count d) 2) as [Hc|Hc]; cbn [negb];
    [|exists d, size, (WriteReturn DE_PIPE); done].
  destruct (write_loop requested buffer d size Hd Hbuf Hs Hreq)
    as (d1 & Hl & Hd1 & Hq1 & Hc1 & He1 & Hs1).
  fold (room requested size d) in Hl, Hq1. fold n in Hl, Hq1. rewrite Hl.
  cbn [mbind option_bind]. clearbody n.
  destruct ((requested <=? 512) && negb (requested =? Z.of_nat n)).
  - destruct (pipe_rewind d1 (end_ d) (length (queue d)) Hd1) as [Hd2 Hq2].
    + by destruct Hd as [_ _ ? _].
    + rewrite Hs1, pipe_queue_length. done.
    + rewrite Hq1, length_app. lia.
    + eexists _, _, _. split; [done|]. rewrite Hq1, take_app_length in Hq2.
      split; [|by rewrite Hc1]. split; [done|cbn; by rewrite He1|].
      rewrite Hq2. cbn. rewrite Hc1, He1. done.
  - destruct (Nat.eqb_spec n 0) as [->|Hn].
    + change (negb (Z.of_nat 0 =? 0)) with false. cbn [negb].
      rewrite app_nil_r in Hq1. eexists _, _, _. split; [done|]. split; [|by rewrite app_nil_r].
      split; [done|by rewrite He1|cbn; by rewrite Hq1, He1, Hc1].
    + rewrite (proj2 (Z.eqb_neq (Z.of_nat n) 0)) by lia. cbn [negb].
      rewrite signal_ready by (by rewrite He1).
      eexists _, _, _. split; [done|]. split; [|done].
      split; [destruct Hd1; by constructor|done|done].
Qed.

(** What the writer stores, as a whole call. *)
Lemma n_write_spec requested buffer d :
  pipe_ok d → Forall is_byte buffer → 0 ≤ requested ≤ Z.of_nat (length buffer) →
  let n := Nat.min (Z.to_nat requested) (4095 - length (queue d)) in
  ∃ e d' size, n_write pipe_type_write requested buffer d = Some (e, d', size) ∧
    pipe_ok d' ∧ count d' = count d ∧
    if negb (count d =? 2) then d' = d ∧ size = 0 ∧ e = DE_PIPE
    else if (requested <=? 512) && (Z.of_nat n <? requested)
    then queue d' = queue d ∧ size = 0 ∧ e = DE_RETRY
    else queue d' = queue d ++ take n buffer ∧ size = Z.of_nat n ∧ e = DE_SUCCESS.
Proof.
  intros Hd Hbuf Hreq n. cbn [n_write].
  pose proof (pipe_queue_bound d) as Hqb.
  destruct (Z.eqb_spec (count d) 2) as [Hc|Hc]; cbn [negb].
  2: { destruct (write_section_spec requested buffer d 0 Hd Hbuf) as (d1 & s1 & a & Hs & H1);
         [lia|lia|].
       rewrite (proj2 (Z.eqb_neq (count d) 2)) in H1 by done. cbn [negb] in H1.
       destruct H1 as (Hd1 & Hc1 & -> & -> & ->).
       exists DE_PIPE, d, 0. cbn [while]. unfold write_step. rewrite Hs. done. }
  set (q := queue d) in *. assert (Hq : q = queue d) by done.
  assert (Hn : n = Nat.min (Z.to_nat requested) (4095 - length q)) by done. clearbody n q.
  destruct (while_total
    (λ s : pipe_shared_data * Z, let '(d1, size) := s in
       ∃ k, size = Z.of_nat k ∧ (k ≤ n)%nat ∧ pipe_ok d1 ∧ queue d1 = q ++ take k buffer ∧
         count d1 = 2 ∧ (requested ≤ 512 → k = 0%nat))
    (λ s : pipe_shared_data * Z, Z.to_nat (requested - snd s))
    (λ r : de_error * pipe_shared_data * Z, ∃ e d' size,
       r = (e, d', size) ∧ pipe_ok d' ∧ count d' = 2 ∧
       if (requested <=? 512) && (Z.of_nat n <? requested)
       then queue d' = q ∧ size = 0 ∧ e = DE_RETRY
       else queue d' = q ++ take n buffer ∧ size = Z.of_nat n ∧ e = DE_SUCCESS)
    (write_step requested buffer)) with (fuel := S (Z.to_nat requested)) (s := (d, 0))
    as (r & Hw & e & d' & size & -> & Hpost).
  - intros [d1 size] (k & -> & Hk & Hd1 & Hq1 & Hc1 & Hsmall).
    pose proof (f_equal length Hq1) as Hql. rewrite length_app, length_take in Hql.
    destruct (write_section_spec requested buffer d1 (Z.of_nat k) Hd1 Hbuf)
      as (d2 & s2 & a & Hs & Hd2 & Hc2 & H2); [lia|lia|].
    unfold write_step. rewrite Hs. cbn [mbind option_bind].
    rewrite Hc1 in H2. cbn [negb Z.eqb Pos.eqb] in H2.
    set (m := room requested (Z.of_nat k) d1) in *.
    assert (Hm : m = room requested (Z.of_nat k) d1) by done. unfold room in Hm. clearbody m.
    rewrite Hql, Nat2Z.id in *.
    destruct (Z.leb_spec requested 512) as [H512|H512]; cbn [andb] in *.
    + rewrite Hsmall in * by done.
      destruct (Z.eqb_spec requested (Z.of_nat m)) as [Hrm|Hrm]; cbn [negb] in H2;
        destruct H2 as (Hq2 & -> & ->).
      * destruct (Nat.eqb_spec m 0) as [Hm0|Hm0];
          [|rewrite (proj2 (Z.ltb_ge _ requested)) by lia]; (eexists; split; [done|]); cbn;
          (eexists _, _, _; split; [done|]); (split; [done|]); (split; [congruence|]);
          rewrite (proj2 (Z.ltb_ge _ _)) by lia; (split; [|split; [lia|done]]);
          rewrite Hq2, Hq1, drop_0, take_0, app_nil_r; do 2 f_equal; lia.
      * eexists; split; [done|]. cbn. eexists _, _, _. split; [done|].
        split; [done|]. split; [congruence|]. rewrite (proj2 (Z.ltb_lt _ _)) by lia.
        rewrite Hq2, Hq1, app_nil_r. done.
    + destruct H2 as (Hq2 & -> & ->).
      rewrite Hq1, <- app_assoc, take_take_drop in Hq2.
      destruct (Nat.eqb_spec m 0) as [Hm0|Hm0];
        [|destruct (Z.ltb_spec (Z.of_nat k + Z.of_nat m) requested)];
        (eexists; split; [done|]); cbn.
      2: { split; [|lia]. exists (k + m)%nat. split; [lia|]. split; [lia|]. split; [done|].
           split; [done|]. split; [congruence|lia]. }
      all: assert (Hkm : (k + m)%nat = n) by lia; 
        eexists _, _, _; (split; [done|]); (split; [done|]); (split; [congruence|]);
        split; [rewrite Hq2; do 2 f_equal; lia|split; [lia|done]].
  - exists 0%nat. rewrite app_nil_r. split; [done|]. split; [lia|]. done.
  - cbn. lia.
  - eexists _, _, _. split; [exact Hw|]. rewrite Hc. done.
Qed.

(** ** Interleavings

    A world is the shared data together with all bytes that writers have been
    told to be accepted and all bytes that readers have been given.  One step is one
    critical section of some task. *)

Definition world : Type := pipe_shared_data * list Z * list Z.

(** The bytes of a turn of the writer that stay in the pipe. *)
Definition accepted (buffer : list Z) (size size' : Z) (a : write_answer) : list Z :=
  match a with
  | WriteReturn _ => []
  | _ => take (Z.to_nat (size' - size)) (drop (Z.to_nat size) buffer)
  end.

Inductive pipe_step : world → world → Prop :=
| step_read requested got b d d' got' b' empty w r :
    0 ≤ b → Z.of_nat (length got) ≤ requested →
    read_section requested d got b = Some (d', got', b', empty) →
    pipe_step (d, w, r) (d', w, r ++ drop (length got) got')
| step_write requested buffer size d d' size' a w r :
    Forall is_byte buffer → 0 ≤ size ≤ requested → requested ≤ Z.of_nat (length buffer) →
    write_section requested buffer d size = Some (d', size', a) →
    pipe_step (d, w, r) (d', w ++ accepted buffer size size' a, r)
| step_release references d d' w r :
    n_release references d = Some d' →
    pipe_step (d, w, r) (d', w, r).

Definition world_ok (x : world) : Prop :=
  let '(d, w, r) := x in pipe_ok d ∧ count d ≤ 2 ∧ w = r ++ queue d.

Lemma initial_pipe_ok :
  pipe_ok (Pipe (Event EVENT_READY true false 0) 2 0 0 (replicate 4096 0)).
Proof.
  split; [|done|intros [?|?]; done].
  split; [by vm_compute|done|done|]. cbn [base].
  apply (Forall_replicate is_byte 4096 0). unfold is_byte. lia.
Qed.

Lemma n_release_spec references d :
  pipe_ok d → count d ≤ 2 →
  match n_release references d with
  | None => references = 0 ∧ count d ≤ 1
  | Some d' => pipe_ok d' ∧ queue d' = queue d ∧
               count d' = count d - (if references =? 0 then 1 else 0)
  end.
Proof.
  intros [Hd Hr Hw] Hc. unfold n_release.
  destruct (Z.eqb_spec references 0) as [->|_]; [|by rewrite Z.sub_0_r].
  rewrite signal_ready by done. cbn [count].
  destruct (Z.leb_spec (count d - 1) 0); [lia|].
  split; [|done]. split; [destruct Hd; by constructor|done|done].
Qed.

Lemma pipe_step_ok x y : pipe_step x y → world_ok x → world_ok y.
Proof.
  intros [requested got b d d' got' b' empty w r Hb Hg Hs
         |requested buffer size d d' size' a w r Hbuf Hsz Hreq Hs
         |references d d' w r Hs] (Hd & Hc & ->).
  - destruct (read_section_spec requested d got b Hd Hb Hg)
      as (d1 & b1 & Hs1 & Hd1 & Hq1 & Hc1 & _).
    rewrite Hs in Hs1. injection Hs1 as -> -> -> _.
    split; [done|]. split; [lia|].
    by rewrite drop_app_length, Hq1, <- app_assoc, take_drop.
  - destruct (write_section_spec requested buffer d size Hd Hbuf Hsz Hreq)
      as (d1 & s1 & a1 & Hs1 & Hd1 & Hc1 & H1).
    rewrite Hs in Hs1. injection Hs1 as -> -> ->.
    split; [done|]. split; [lia|]. rewrite <- app_assoc. f_equal.
    destruct (negb (count d =? 2)); [destruct H1 as (-> & -> & ->); apply app_nil_r|].
    destruct (_ && _); [destruct H1 as (-> & -> & ->); apply app_nil_r|].
    destruct H1 as (-> & -> & ->). f_equal. unfold accepted.
    replace (Z.to_nat (size + Z.of_nat (room requested size d) - size))
      with (room requested size d) by lia.
    by destruct (Nat.eqb_spec (room requested size d) 0).
  - pose proof (n_release_spec references d Hd Hc) as Hsp. rewrite Hs in Hsp.
    destruct Hsp as (Hd1 & Hq1 & Hc1). split; [done|]. split; [|by rewrite Hq1].
    destruct (references =? 0); lia.
Qed.

Lemma pipe_steps_ok x y : rtc pipe_step x y → world_ok x → world_ok y.
Proof. induction 1 as [|x y z Hxy _ IH]; [done|]. intros Hx. apply IH, (pipe_step_ok x y Hxy Hx). Qed.

(** ** Polling *)

Lemma land_bit e k :
  0 ≤ k → Z.land e (2 ^ k) = if Z.testbit e k then 2 ^ k else 0.
Proof.
  intros Hk. apply Z.bits_inj'. intros i Hi.
  rewrite Z.land_spec, Z.pow2_bits_eqb by done.
  destruct (Z.eqb_spec k i) as [->|Hne].
  - destruct (Z.testbit e i); [rewrite Z.pow2_bits_true by done|rewrite Z.bits_0]; done.
  - rewrite andb_false_r.
    destruct (Z.testbit e k); [rewrite Z.pow2_bits_false by done|rewrite Z.bits_0]; done.
Qed.

Lemma poll_bits e j k :
  0 ≤ j → 0 ≤ k →
  let r := if negb (Z.land e (2 ^ j) =? 0) then Z.lor 0 (2 ^ j) else 0 in
  (if negb (Z.land e (2 ^ k) =? 0) then Z.lor r (2 ^ k) else r)
  = Z.land e (Z.lor (2 ^ j) (2 ^ k)).
Proof.
  intros Hj Hk r. subst r. rewrite Z.land_lor_distr_r, !land_bit, Z.lor_0_l by done.
  pose proof (Z.pow_pos_nonneg 2 j). pose proof (Z.pow_pos_nonneg 2 k).
  destruct (Z.testbit e j), (Z.testbit e k); rewrite ?Z.eqb_refl; cbn [negb];
    rewrite ?(proj2 (Z.eqb_neq _ 0)) by lia; cbn [negb]; by rewrite ?Z.lor_0_r, ?Z.lor_0_l.
Qed.

(** ** Properties *)

(** [n_read] from a well-formed pipe ends within its fuel, without an
    access outside the ring or a byte beyond the request: it gives exactly the
    first [min requested |queue|] bytes that wait and removes them from the pipe,
    in whatever number of critical sections; the answer is DE_EMPTY exactly
    when the other end is gone and there was nothing to give; the pipe stays
    well formed, so no wake-up is lost.  The writing end refuses. *)
Theorem n_read_correct (requested : Z) (d : pipe_shared_data) :
  pipe_ok d → 0 ≤ requested →
  n_read pipe_type_write requested d = Some (DE_ACCESS, d, []) ∧
  ∃ e d' got, n_read pipe_type_read requested d = Some (e, d', got) ∧
    queue d = got ++ queue d' ∧
    length got = Nat.min (Z.to_nat requested) (length (queue d)) ∧
    (e = DE_EMPTY ↔ count d ≠ 2 ∧ got = []) ∧ (e = DE_EMPTY ∨ e = DE_SUCCESS) ∧
    pipe_ok d' ∧ count d' = count d.
Proof.
  intros Hd Hreq. split; [done|].
  destruct (n_read_spec requested d Hd Hreq) as (d' & Hr & Hd' & Hq' & Hc').
  set (n := Nat.min (Z.to_nat requested) (length (queue d))) in *.
  eexists _, d', _. split; [exact Hr|].
  assert (Hl : length (take n (queue d)) = n) by (rewrite length_take; lia).
  split; [by rewrite Hq', take_drop|]. split; [done|].
  split; [|split; [by destruct (_ && _); [left|right]|done]].
  rewrite <- (length_zero_iff_nil (take n (queue d))), Hl.
  destruct (Z.eqb_spec (count d) 2), (Nat.eqb_spec n 0); cbn;
    (split; [done || (intros _; lia)|intros [??]; done || lia]).
Qed.

(** [n_write] into a well-formed pipe ends within its fuel, without an
    access outside the ring or the buffer.  Without a reader it answers
    DE_PIPE.  A request of at most 512 bytes is atomic: all of it is appended
    to the waiting bytes, or the pipe is left as it was and DE_RETRY is the
    answer.  A larger request appends as many bytes as fit, 4095 being the most
    that can wait.  The reading end refuses. *)
Theorem n_write_correct (requested : Z) (buffer : list Z) (d : pipe_shared_data) :
  pipe_ok d → Forall is_byte buffer → 0 ≤ requested ≤ Z.of_nat (length buffer) →
  n_write pipe_type_read requested buffer d = Some (DE_ACCESS, d, 0) ∧
  ∃ e d' size, n_write pipe_type_write requested buffer d = Some (e, d', size) ∧
    pipe_ok d' ∧ count d' = count d ∧
    queue d' = queue d ++ take (Z.to_nat size) buffer ∧
    (e = DE_PIPE ↔ count d ≠ 2) ∧
    (e = DE_RETRY ↔ count d = 2 ∧ requested ≤ 512 ∧
                    4095 < Z.of_nat (length (queue d)) + requested) ∧
    (e = DE_SUCCESS → size = Z.min requested (4095 - Z.of_nat (length (queue d)))) ∧
    (e ≠ DE_SUCCESS → size = 0).
Proof.
  intros Hd Hbuf Hreq. split; [done|].
  destruct (n_write_spec requested buffer d Hd Hbuf Hreq) as (e & d' & size & Hr & Hd' & Hc' & H).
  exists e, d', size. do 3 (split; [done|]).
  pose proof (pipe_queue_bound d) as Hqb.
  destruct (Z.eqb_spec (count d) 2) as [Hc|Hc]; cbn [negb] in H.
  2: { destruct H as (-> & -> & ->). rewrite app_nil_r. split; [done|]. split; [done|]. split; [|done].
       split; [done|lia]. }
  destruct (Z.leb_spec requested 512); cbn [andb] in H.
  - destruct (Z.ltb_spec (Z.of_nat (Nat.min (Z.to_nat requested) (4095 - length (queue d))))
                requested); destruct H as (-> & -> & ->).
    + rewrite app_nil_r. split; [done|]. split; [done|]. split; [|done]. split; [lia|done].
    + rewrite Nat2Z.id. split; [done|]. split; [done|]. split; [split; [done|lia]|].
      split; [lia|done].
  - destruct H as (-> & -> & ->). rewrite Nat2Z.id. split; [done|]. split; [done|].
    split; [split; [done|lia]|]. split; [lia|done].
Qed.

(** (C17) First in, first out, under every interleaving: after any sequence of
    critical sections of any number of readers, writers and closing tasks on
    the pipe that [vfs_pipe] makes, the bytes that writers had accepted are
    the bytes that readers were given followed by the bytes that wait; and
    whenever bytes wait or an end is gone the event is signaled, so that a
    sleeping task is not left asleep. *)
Theorem pipe_fifo (d0 d : pipe_shared_data) (w r : list Z) :
  vfs_pipe true true true true = (DE_SUCCESS, Some d0) →
  rtc pipe_step (d0, [], []) (d, w, r) →
  w = r ++ queue d ∧
  (queue d ≠ [] ∨ count d ≠ 2 → signaled (event d) = true) ∧
  0 ≤ start d < PIPE_SIZE ∧ 0 ≤ end_ d < PIPE_SIZE ∧ length (base d) = Z.to_nat PIPE_SIZE.
Proof.
  intros [= <-] Hrtc.
  assert (Hok : world_ok (d, w, r)).
  { apply (pipe_steps_ok _ _ Hrtc). split; [exact initial_pipe_ok|]. split; [cbn; lia|done]. }
  destruct Hok as ([[Hb Hs He _] _ Hw] & _ & ->).
  split; [done|]. split; [done|]. split; [done|]. split; [done|]. by rewrite <- Hb, Nat2Z.id.
Qed.

(** [n_poll] tells the truth about the queue: the reading end is ready
    for the asked POLLIN and POLLRDNORM exactly when bytes wait, the writing
    end for the asked POLLOUT and POLLWRNORM exactly when fewer than 2048 bytes
    wait, so that a write of at most 512 bytes after it is stored at once. *)
Theorem n_poll_correct (events : Z) (d : pipe_shared_data) :
  pipe_ok d →
  n_poll pipe_type_read events d
    = (if decide (queue d = []) then 0 else Z.land events (Z.lor POLLIN POLLRDNORM)) ∧
  n_poll pipe_type_write events d
    = (if decide (length (queue d) < 2048)%nat
       then Z.land events (Z.lor POLLOUT POLLWRNORM) else 0).
Proof.
  intros [Hd _ _]. split; unfold n_poll; cbn zeta beta iota.
  - rewrite !andb_false_l. destruct (decide _) as [Hq|Hq].
    + rewrite (proj2 (Z.eqb_eq (start d) (end_ d))); [done|]. apply pipe_empty; [done|]. by rewrite Hq.
    + rewrite (proj2 (Z.eqb_neq (start d) (end_ d))).
      * exact (poll_bits events 0 6 ltac:(lia) ltac:(lia)).
      * intros Hse%pipe_empty; [|done]. by apply nil_length_inv in Hse.
  - rewrite !andb_false_l.
    assert (Hl : Z.of_nat (length (queue d))
                 = if end_ d - start d <? 0 then PIPE_SIZE + end_ d - start d
                   else end_ d - start d).
    { rewrite pipe_queue_length. destruct Hd as [_ Hs He _]. unfold queue_length, PIPE_SIZE in *.
      destruct (Z.ltb_spec (end_ d - start d) 0); dlia. }
    rewrite <- Hl. change (PIPE_SIZE / 2) with 2048.
    destruct (decide _).
    + rewrite (proj2 (Z.ltb_lt _ _)) by lia. exact (poll_bits events 2 8 ltac:(lia) ltac:(lia)).
    + rewrite (proj2 (Z.ltb_ge _ _)) by lia. done.
Qed.

(** *** Concrete runs *)

(** Three bytes wait, across the end of the ring. *)
Definition example_pipe : pipe_shared_data :=
  Pipe (Event EVENT_READY true true 0) 2 4094 1 (9 :: replicate 4093 0 ++ [7; 8]).

Lemma example_queue : queue example_pipe = [7; 8; 9].
Proof. by vm_compute. Qed.

Lemma example_pipe_ok : pipe_ok example_pipe.
Proof.
  split; [|done|done]. split; [by vm_compute|done|done|].
  unfold example_pipe, base. apply Forall_cons. split; [unfold is_byte; lia|].
  apply Forall_app. split.
  - apply (Forall_replicate is_byte 4093 0). unfold is_byte. lia.
  - repeat constructor; unfold is_byte; lia.
Qed.

(** A reader asks for two of the three bytes. *)
Lemma n_read_correct_witness :
  option_map (λ '(e, _, got), (e, got)) (n_read pipe_type_read 2 example_pipe)
    = Some (DE_SUCCESS, [7; 8]) ∧
  n_read pipe_type_write 2 example_pipe = Some (DE_ACCESS, example_pipe, []) ∧
  ∃ e d' got, n_read pipe_type_read 2 example_pipe = Some (e, d', got) ∧
    queue example_pipe = got ++ queue d' ∧
    length got = Nat.min (Z.to_nat 2) (length (queue example_pipe)) ∧
    (e = DE_EMPTY ↔ count example_pipe ≠ 2 ∧ got = []) ∧ (e = DE_EMPTY ∨ e = DE_SUCCESS) ∧
    pipe_ok d' ∧ count d' = count example_pipe.
Proof.
  split; [vm_compute; reflexivity|].
  apply (n_read_correct 2 example_pipe); [exact example_pipe_ok|lia].
Defined.

(** A write of two bytes is stored behind the three. *)
Lemma n_write_correct_witness :
  option_map (λ '(e, d, size), (e, queue d, size)) (n_write pipe_type_write 2 [1; 2] example_pipe)
    = Some (DE_SUCCESS, [7; 8; 9; 1; 2], 2) ∧
  n_write pipe_type_read 2 [1; 2] example_pipe = Some (DE_ACCESS, example_pipe, 0) ∧
  ∃ e d' size, n_write pipe_type_write 2 [1; 2] example_pipe = Some (e, d', size) ∧
    pipe_ok d' ∧ count d' = count example_pipe ∧
    queue d' = queue example_pipe ++ take (Z.to_nat size) [1; 2] ∧
    (e = DE_PIPE ↔ count example_pipe ≠ 2) ∧
    (e = DE_RETRY ↔ count example_pipe = 2 ∧ 2 ≤ 512 ∧
                    4095 < Z.of_nat (length (queue example_pipe)) + 2) ∧
    (e = DE_SUCCESS → size = Z.min 2 (4095 - Z.of_nat (length (queue example_pipe)))) ∧
    (e ≠ DE_SUCCESS → size = 0).
Proof.
  split; [vm_compute; reflexivity|].
  apply (n_write_correct 2 [1; 2] example_pipe);
    [exact example_pipe_ok|repeat constructor; unfold is_byte; lia|cbn; lia].
Defined.

(** Two bytes are written, one is read, and the reading end is closed. *)
Lemma pipe_fifo_witness :
  ∃ d0 d, vfs_pipe true true true true = (DE_SUCCESS, Some d0) ∧
    rtc pipe_step (d0, [], []) (d, [5; 6], [5]) ∧ queue d = [6] ∧
    [5; 6] = [5] ++ queue d ∧
    (queue d ≠ [] ∨ count d ≠ 2 → signaled (event d) = true) ∧
    0 ≤ start d < PIPE_SIZE ∧ 0 ≤ end_ d < PIPE_SIZE ∧ length (base d) = Z.to_nat PIPE_SIZE.
Proof.
  eexists _, (Pipe (Event EVENT_READY true true 0) 1 1 2 (0 :: 6 :: replicate 4094 0)).
  set (d1 := Pipe (Event EVENT_READY true true 0) 2 0 2 (5 :: 6 :: replicate 4094 0)).
  set (d2 := Pipe (Event EVENT_READY true true 0) 2 1 2 (0 :: 6 :: replicate 4094 0)).
  assert (Hrun : rtc pipe_step
    (Pipe (Event EVENT_READY true false 0) 2 0 0 (replicate 4096 0), [], [])
    (Pipe (Event EVENT_READY true true 0) 1 1 2 (0 :: 6 :: replicate 4094 0), [5; 6], [5])).
  { apply rtc_l with (y := (d1, [] ++ accepted [5; 6] 0 2 WriteAgain, [])).
    { apply (step_write 2 [5; 6] 0); [repeat constructor; unfold is_byte; lia|lia|cbn; lia|].
      vm_compute. reflexivity. }
    apply rtc_l with (y := (d2, [5; 6], [] ++ drop (length (@nil Z)) [5])).
    { apply (step_read 1 [] 0 d1 d2 [5] 5 false); [lia|cbn; lia|]. vm_compute. reflexivity. }
    apply rtc_once. apply (step_release 0). vm_compute. reflexivity. }
  split; [reflexivity|]. split; [exact Hrun|]. split; [vm_compute; reflexivity|].
  exact (pipe_fifo _ _ _ _ eq_refl Hrun).
Defined.

Lemma n_poll_correct_witness :
  n_poll pipe_type_read POLLIN example_pipe = POLLIN ∧
  n_poll pipe_type_read POLLIN example_pipe
    = (if decide (queue example_pipe = []) then 0 else Z.land POLLIN (Z.lor POLLIN POLLRDNORM)) ∧
  n_poll pipe_type_write POLLIN example_pipe
    = (if decide (length (queue example_pipe) < 2048)%nat
       then Z.land POLLIN (Z.lor POLLOUT POLLWRNORM) else 0).
Proof.
  split; [vm_compute; reflexivity|].
  exact (n_poll_correct POLLIN example_pipe example_pipe_ok).
Defined.
