(* ===== verification/Pty.v ===== *)
(** Pseudo terminals: kernel/vfs/pty.c.  The main side (a terminal) and the
    secondary side (programs) share two rings of bytes, from the programs to the
    terminal (buffer 0) and from the terminal to the programs (buffer 1), and the
    line that is being edited in canonical mode.

    An operation holds the lock of the data from its start to its end; it is one
    function here.  The event of a ring is one of Event.v.  [signals] is the list
    of the calls of [send_signals], and the numbers of the current task are
    arguments. *)

From S2P Require Import Prelude Errors Event Ring Snprintf.

Definition PTY_BUFFER_SIZE : Z := 16384.
Definition PTY_ICANON_SIZE : Z := 4096.
Definition PTY_ARRAY_COUNT : Z := 64.

Definition TERMIOS_VINTR : nat := 0.
Definition TERMIOS_VQUIT : nat := 1.
Definition TERMIOS_VERASE : nat := 2.
Definition TERMIOS_VKILL : nat := 3.
Definition TERMIOS_VEOF : nat := 4.
Definition TERMIOS_VEOL : nat := 11.
Definition TERMIOS_VWERASE : nat := 14.

Definition TERMIOS_INLCR : Z := 0x0040.
Definition TERMIOS_IGNCR : Z := 0x0080.
Definition TERMIOS_ICRNL : Z := 0x0100.
Definition TERMIOS_OPOST : Z := 0x0001.
Definition TERMIOS_ONLCR : Z := 0x0004.
Definition TERMIOS_B38400 : Z := 15.
Definition TERMIOS_CS8 : Z := 0x0030.
Definition TERMIOS_CREAD : Z := 0x0080.
Definition TERMIOS_IEXTEN : Z := 0x8000.
Definition TERMIOS_ISIG : Z := 0x0001.
Definition TERMIOS_ICANON : Z := 0x0002.
Definition TERMIOS_ECHO : Z := 0x0008.
Definition TERMIOS_ECHOE : Z := 0x0010.
Definition TERMIOS_ECHOK : Z := 0x0020.
Definition TERMIOS_TOSTOP : Z := 0x0100.

Definition SIGINT : Z := 2.
Definition SIGQUIT : Z := 3.
Definition SIGTTIN : Z := 21.
Definition SIGTTOU : Z := 22.

(** The indices of c_cc are constants below its size, 32. *)
Record termios := Termios {
  c_iflag : Z;
  c_oflag : Z;
  c_cflag : Z;
  c_lflag : Z;
  c_cc : list Z }.

Definition cc (t : termios) (i : nat) : Z := nth i (c_cc t) 0.
Definition flag (flags bit : Z) : bool := negb (Z.land flags bit =? 0).

Record winsize := Winsize {
  ws_row : Z;
  ws_col : Z;
  ws_xpixel : Z;
  ws_ypixel : Z }.

Record ring := Ring {
  event : event_instance;
  start : Z;
  end_ : Z;
  base : list Z }.

Record pty_shared_data := Pty {
  buffer0 : ring;
  buffer1 : ring;
  icanon_size : Z;
  icanon_base : list Z;
  eof : bool;
  group : Z;
  term : termios;
  win : winsize;
  signals : list (Z * Z) }.

Definition buffer (d : pty_shared_data) (i : Z) : ring := if i =? 0 then buffer0 d else buffer1 d.

Definition set_buffer (d : pty_shared_data) (i : Z) (b : ring) : pty_shared_data :=
  if i =? 0
  then Pty b (buffer1 d) (icanon_size d) (icanon_base d) (eof d) (group d) (term d) (win d) (signals d)
  else Pty (buffer0 d) b (icanon_size d) (icanon_base d) (eof d) (group d) (term d) (win d) (signals d).

Definition set_icanon (d : pty_shared_data) (size : Z) (bytes : list Z) : pty_shared_data :=
  Pty (buffer0 d) (buffer1 d) size bytes (eof d) (group d) (term d) (win d) (signals d).

Definition set_eof (d : pty_shared_data) (e : bool) : pty_shared_data :=
  Pty (buffer0 d) (buffer1 d) (icanon_size d) (icanon_base d) e (group d) (term d) (win d) (signals d).

(** [send_signals pid sig 0] *)
Definition send (d : pty_shared_data) (pid sig : Z) : pty_shared_data :=
  Pty (buffer0 d) (buffer1 d) (icanon_size d) (icanon_base d) (eof d) (group d) (term d) (win d)
    (signals d ++ [(pid, sig)]).

(** [event_signal] and [event_reset] on the event of a ring. *)
Definition signal (b : ring) : ring :=
  let x := event b in
  if ready x =? EVENT_READY
  then Ring (Event (ready x) (manual_reset x) true 0) (start b) (end_ b) (base b) else b.

Definition reset (b : ring) : ring :=
  let x := event b in
  if ready x =? EVENT_READY
  then Ring (Event (ready x) (manual_reset x) false (task x)) (start b) (end_ b) (base b) else b.

(** ** The rings *)

Definition buffer_state (d : pty_shared_data) (i : Z) : Z :=
  let start := start (buffer d i) in
  let end_ := end_ (buffer d i) in
  let size := end_ - start in
  if size <? 0 then PTY_BUFFER_SIZE + end_ - start else size.

(** The data and the byte, or -1. *)
Definition read_buffer (d : pty_shared_data) (i : Z) : option (pty_shared_data * Z) :=
  let b := buffer d i in
  if negb (start b =? end_ b) then
    c ← (base b).[start b];
    bytes ← (base b).[start b <- 0];
    Some (set_buffer d i (Ring (event b) (Z.rem (start b + 1) PTY_BUFFER_SIZE) (end_ b) bytes), c)
  else Some (set_buffer d i (reset b), -1).

Definition write_buffer (d : pty_shared_data) (i c : Z) : option (pty_shared_data * de_error) :=
  let b := buffer d i in
  let old_end := end_ b in
  let new_end := Z.rem (old_end + 1) PTY_BUFFER_SIZE in
  if start b =? new_end then Some (d, DE_RETRY)
  else
    bytes ← (base b).[old_end <- u8 c];
    let b' := Ring (event b) (start b) new_end bytes in
    Some (set_buffer d i (if start b =? old_end then signal b' else b'), DE_SUCCESS).

(** Bytes whose success is not looked at. *)
Fixpoint write_bytes (d : pty_shared_data) (i : Z) (l : list Z) : option pty_shared_data :=
  match l with
  | [] => Some d
  | c :: l => '(d, _) ← write_buffer d i c; write_bytes d i l
  end.

Definition write_byte_secondary (d : pty_shared_data) (c : Z) : option (pty_shared_data * de_error) :=
  let opost := flag (c_oflag (term d)) TERMIOS_OPOST in
  let onlcr := flag (c_oflag (term d)) TERMIOS_ONLCR in
  if negb opost then write_buffer d 0 c
  else if (c =? 0x0A) && onlcr then
    if buffer_state d 0 >=? PTY_BUFFER_SIZE - 2 then Some (d, DE_RETRY)
    else d ← write_bytes d 0 [0x0D; 0x0A]; Some (d, DE_SUCCESS)
  else write_buffer d 0 c.

Definition write_byte_main (d : pty_shared_data) (c : Z) : option (pty_shared_data * de_error) :=
  write_buffer d 1 c.

(** ** Echo *)

Definition write_echo_main (d : pty_shared_data) (c : Z) : option pty_shared_data :=
  if (c =? 0x0A) && flag (c_lflag (term d)) TERMIOS_ICANON then
    d ← (if flag (c_oflag (term d)) TERMIOS_OPOST && flag (c_oflag (term d)) TERMIOS_ONLCR
         then write_bytes d 0 [0x0D] else Some d);
    write_bytes d 0 [0x0A]
  else if (0 <=? c) && (c <=? 0x1F) then write_bytes d 0 [0x5E; 0x40 + c]
  else if c =? 0x7F then write_bytes d 0 [0x5E; 0x3F]
  else write_bytes d 0 [c].

(** icanon.base[--icanon.size] *)
Definition pop_icanon (d : pty_shared_data) : option (pty_shared_data * Z) :=
  let size := icanon_size d - 1 in
  ic ← (icanon_base d).[size];
  Some (set_icanon d size (icanon_base d), ic).

(** The bytes of a character, from the last one back to the first. *)
Definition continuation_turn (x : pty_shared_data * Z)
  : option (ctl (pty_shared_data * Z) (pty_shared_data * Z)) :=
  let '(d, ic) := x in
  if (Z.land ic 0xC0 =? 0x80) && (icanon_size d >? 0) then
    '(d, ic) ← pop_icanon d;
    Some (Next (d, ic))
  else Some (Done (d, ic)).

Definition pop_character (d : pty_shared_data) : option (pty_shared_data * Z) :=
  '(d, ic) ← pop_icanon d;
  while (S (Z.to_nat (icanon_size d))) continuation_turn (d, ic).

Definition control (ic : Z) : bool := ((0 <=? ic) && (ic <=? 0x1F)) || (ic =? 0x7F).

(** The echo of an erased character. *)
Definition erase_text (erase_character : bool) (c ic : Z) : list Z :=
  if erase_character then
    (if control ic then [0x08; 0x20; 0x08] else []) ++ [0x08; 0x20; 0x08]
  else if (0 <=? c) && (c <=? 0x1F) then [0x5E; 0x40 + c]
  else if c =? 0x7F then [0x5E; 0x3F]
  else [c].

Definition blank (c : Z) : bool := (c =? 0x09) || (c =? 0x20).

(** One turn of the outer loop of [write_erase_main]; (data, word_state, echo). *)
Definition erase_turn (erase_character : bool) (c word : Z) (x : pty_shared_data * bool * bool)
  : option (ctl (pty_shared_data * bool * bool) pty_shared_data) :=
  let '(d, word_state, echo) := x in
  if icanon_size d >? 0 then
    '(d, ic) ← pop_character d;
    let word_state := word_state || negb (blank ic) in
    d ← (if echo then write_bytes d 0 (erase_text erase_character c ic) else Some d);
    if word =? 0 then Some (Done d)
    else
      let echo := if erase_character then echo else false in
      if (word >? 0) && (icanon_size d >? 0) && word_state then
        last ← (icanon_base d).[icanon_size d - 1];
        Some (if blank last then Done d else Next (d, word_state, echo))
      else Some (Next (d, word_state, echo))
  else Some (Done d).

Definition write_erase_main (d : pty_shared_data) (c word : Z) : option pty_shared_data :=
  let c_lflag := c_lflag (term d) in
  let echo := flag c_lflag TERMIOS_ECHO in
  let echoe := flag c_lflag TERMIOS_ECHOE in
  let echok := flag c_lflag TERMIOS_ECHOK in
  let erase_character := (echoe && (word >=? 0)) || (echok && (word <? 0)) in
  while (S (Z.to_nat (icanon_size d))) (erase_turn erase_character c word) (d, false, echo).

(** ** The main side *)

Definition n_read_main_turn (requested : Z) (x : pty_shared_data * list Z)
  : option (ctl (pty_shared_data * list Z) (pty_shared_data * list Z)) :=
  let '(d, got) := x in
  if Z.of_nat (length got) <? requested then
    '(d, c) ← read_buffer d 0;
    Some (if c <? 0 then Done (d, got) else Next (d, got ++ [c]))
  else Some (Done (d, got)).

(** The data and the bytes read. *)
Definition n_read_main (requested : Z) (d : pty_shared_data) : option (pty_shared_data * list Z) :=
  while (S (Z.to_nat requested)) (n_read_main_turn requested) (d, []).

(** The translation of a carriage return and a newline; [None] is a byte that is
    ignored. *)
Definition input_char (t : termios) (c : Z) : option Z :=
  if c =? 0x0A then Some (if flag (c_iflag t) TERMIOS_INLCR then 0x0D else c)
  else if c =? 0x0D then
    if flag (c_iflag t) TERMIOS_IGNCR then None
    else Some (if flag (c_iflag t) TERMIOS_ICRNL then 0x0A else c)
  else Some c.

Definition is_cc (t : termios) (i : nat) (c : Z) : bool := negb (c =? 0) && (c =? cc t i).

(** The signal of a byte, or 0. *)
Definition signal_of (t : termios) (c : Z) : Z :=
  if is_cc t TERMIOS_VQUIT c then SIGQUIT else if is_cc t TERMIOS_VINTR c then SIGINT else 0.

(** p[icanon.size++] = c *)
Definition push_icanon (d : pty_shared_data) (c : Z) : option pty_shared_data :=
  p ← (icanon_base d).[icanon_size d <- u8 c];
  Some (set_icanon d (icanon_size d + 1) p).

(** write_byte_main of the bytes of the line from the index [i] on. *)
Fixpoint write_line (d : pty_shared_data) (i : Z) (n : nat) : option pty_shared_data :=
  match n with
  | O => Some d
  | S n =>
      c ← (icanon_base d).[i];
      '(d, _) ← write_byte_main d c;
      write_line d (i + 1) n
  end.

Definition flush_line (d : pty_shared_data) : option pty_shared_data :=
  d ← write_line d 0 (Z.to_nat (icanon_size d));
  Some (set_icanon d 0 (icanon_base d)).

(** What the byte [c] in canonical mode does: [None] is the end of file on an
    empty line, otherwise echo and end_of_icanon. *)
Definition canonical_char (d : pty_shared_data) (c : Z) (echo : bool)
  : option (pty_shared_data * option (bool * bool)) :=
  let t := term d in
  let shorter := set_icanon d (icanon_size d - 1) (icanon_base d) in
  if c =? 0x0A then Some (d, Some (echo, true))
  else if is_cc t TERMIOS_VEOF c then
    if icanon_size d =? 1 then Some (set_eof (set_icanon d 0 (icanon_base d)) true, None)
    else Some (d, Some (false, true))
  else if is_cc t TERMIOS_VERASE c then
    d ← write_erase_main shorter c 0; Some (d, Some (false, false))
  else if is_cc t TERMIOS_VKILL c then
    d ← write_erase_main shorter c (-1); Some (d, Some (false, false))
  else if is_cc t TERMIOS_VWERASE c then
    d ← write_erase_main shorter c 1; Some (d, Some (false, false))
  else if is_cc t TERMIOS_VEOL c then Some (d, Some (echo, true))
  else Some (d, Some (echo, false)).

Definition end_line (d : pty_shared_data) (c : Z) : option pty_shared_data :=
  last ← (icanon_base d).[icanon_size d - 1];
  d ← (if negb (last =? c) then push_icanon d c else Some d);
  flush_line d.

(** The answer for one byte: go on, or leave the loop with r, the byte counted or
    not. *)
Inductive char_answer := Taken | TakenLast | Refused (r : de_error).

Definition main_char (d : pty_shared_data) (c : Z) : option (pty_shared_data * char_answer) :=
  let echo := flag (c_lflag (term d)) TERMIOS_ECHO in
  match input_char (term d) c with
  | None => Some (d, Taken)
  | Some c =>
      let sig := if flag (c_lflag (term d)) TERMIOS_ISIG then signal_of (term d) c else 0 in
      if negb (sig =? 0) then
        d ← (if echo then write_echo_main d c else Some d);
        let d := if group d >? 1 then send d (- group d) sig else d in
        Some (set_icanon d 0 (icanon_base d), Taken)
      else if flag (c_lflag (term d)) TERMIOS_ICANON then
        if buffer_state d 1 >? PTY_ICANON_SIZE then Some (d, Refused DE_RETRY)
        else
          d ← (if icanon_size d <? PTY_ICANON_SIZE - 1 then push_icanon d c else Some d);
          '(d, a) ← canonical_char d c echo;
          match a with
          | None => Some (d, TakenLast)
          | Some (echo, end_of_icanon) =>
              d ← (if (echo : bool) then write_echo_main d c else Some d);
              d ← (if (end_of_icanon : bool) then end_line d c else Some d);
              Some (d, Taken)
          end
      else
        d ← (if echo then write_echo_main d c else Some d);
        '(d, r) ← write_byte_main d c;
        Some (d, if decide (r = DE_SUCCESS) then Taken else Refused r)
  end.

(** The loop over the bytes: the data, *size and r. *)
Fixpoint main_chars (d : pty_shared_data) (l : list Z) (size : Z)
  : option (pty_shared_data * Z * de_error) :=
  match l with
  | [] => Some (d, size, DE_SUCCESS)
  | c :: l =>
      '(d, a) ← main_char d c;
      match a with
      | Taken => main_chars d l (size + 1)
      | TakenLast => Some (d, size + 1, DE_SUCCESS)
      | Refused r => Some (d, size, r)
      end
  end.

Definition n_write_main (d : pty_shared_data) (bytes : list Z)
  : option (pty_shared_data * Z * de_error) :=
  '(d, size, r) ← main_chars d bytes 0;
  Some (if negb (size =? 0) then set_buffer d 1 (signal (buffer d 1)) else d, size, r).

(** ** The secondary side *)

(** One turn: (data, bytes read). *)
Definition n_read_secondary_turn (icanon : bool) (veof requested : Z) (x : pty_shared_data * list Z)
  : option (ctl (pty_shared_data * list Z) (pty_shared_data * list Z * de_error)) :=
  let '(d, got) := x in
  if Z.of_nat (length got) <? requested then
    '(d, c) ← read_buffer d 1;
    if c <? 0 then
      Some (Done (if eof d then (set_eof d false, got, DE_EMPTY) else (d, got, DE_SUCCESS)))
    else if negb (c =? 0) && (c =? veof) && icanon then Some (Done (d, got, DE_SUCCESS))
    else Some (if c =? 0x0A then Done (d, got ++ [c], DE_SUCCESS) else Next (d, got ++ [c]))
  else Some (Done (d, got, DE_SUCCESS)).

Definition n_read_secondary (id_group requested : Z) (d : pty_shared_data)
  : option (pty_shared_data * list Z * de_error) :=
  let background := (group d >? 0) && negb (group d =? id_group) in
  let d := if background && (id_group >? 1) then send d (- id_group) SIGTTIN else d in
  let requested := if background then 0 else requested in
  let icanon := flag (c_lflag (term d)) TERMIOS_ICANON in
  let veof := cc (term d) TERMIOS_VEOF in
  while (S (Z.to_nat requested)) (n_read_secondary_turn icanon veof requested) (d, []).

Fixpoint secondary_chars (d : pty_shared_data) (l : list Z) (size : Z)
  : option (pty_shared_data * Z * de_error) :=
  match l with
  | [] => Some (d, size, DE_SUCCESS)
  | c :: l =>
      '(d, r) ← write_byte_secondary d c;
      if decide (r ≠ DE_SUCCESS) then Some (d, size, r) else secondary_chars d l (size + 1)
  end.

Definition n_write_secondary (id_group : Z) (d : pty_shared_data) (bytes : list Z)
  : option (pty_shared_data * Z * de_error) :=
  let stopped := (group d >? 0) && flag (c_lflag (term d)) TERMIOS_TOSTOP &&
                 negb (group d =? id_group) && (id_group >? 1) in
  let d := if stopped then send d (- id_group) SIGTTOU else d in
  '(d, size, r) ← secondary_chars d (if stopped then [] else bytes) 0;
  Some (if negb (size =? 0) then set_buffer d 0 (signal (buffer d 0)) else d, size, r).

(** ** Requests *)

(** TCSETS, TCSETSW and TCSETSF: the partial line is delivered when the canonical
    mode ends. *)
Definition set_termios (d : pty_shared_data) (t : termios) : option pty_shared_data :=
  d ← (if flag (c_lflag t) TERMIOS_ICANON then Some d else flush_line d);
  Some (Pty (buffer0 d) (buffer1 d) (icanon_size d) (icanon_base d) (eof d) (group d) t (win d) (signals d)).

(** TIOCGPGRP: no group is the largest number. *)
Definition get_group (d : pty_shared_data) : Z :=
  if group d <=? 0 then Z.shiftr (u64 (0 - 1)) 1 else group d.

(** TIOCSPGRP: [tasks] are the groups and sessions of all tasks. *)
Definition set_group (tasks : list (Z * Z)) (session : Z) (d : pty_shared_data) (g : Z)
  : pty_shared_data * de_error :=
  if existsb (λ x, (fst x =? g) && (snd x =? session)) tasks
  then (Pty (buffer0 d) (buffer1 d) (icanon_size d) (icanon_base d) (eof d) g (term d) (win d) (signals d),
        DE_SUCCESS)
  else (d, DE_ACCESS).

Definition IOCTL (num arg : Z) : Z :=
  Z.lor (Z.lor 0x7D000000 (Z.shiftl (Z.land num 0xFFFF) 8)) (Z.land arg 0xFF).

Definition IOCTL_ARG_POINTER : Z := 0x80.
Definition IOCTL_TCGETS : Z := IOCTL 0x1000 IOCTL_ARG_POINTER.
Definition IOCTL_TCSETS : Z := IOCTL 0x1001 IOCTL_ARG_POINTER.
Definition IOCTL_TCSETSW : Z := IOCTL 0x1002 IOCTL_ARG_POINTER.
Definition IOCTL_TCSETSF : Z := IOCTL 0x1003 IOCTL_ARG_POINTER.
Definition IOCTL_TIOCGWINSZ : Z := IOCTL 0x1010 IOCTL_ARG_POINTER.
Definition IOCTL_TIOCSWINSZ : Z := IOCTL 0x1011 IOCTL_ARG_POINTER.
Definition IOCTL_TIOCGPGRP : Z := IOCTL 0x1020 IOCTL_ARG_POINTER.
Definition IOCTL_TIOCSPGRP : Z := IOCTL 0x1021 IOCTL_ARG_POINTER.

(** What the pointer [arg] of a request leads to. *)
Inductive ioctl_arg := ArgTermios (t : termios) | ArgWinsize (w : winsize) | ArgGroup (g : Z).

Definition set_winsize (d : pty_shared_data) (w : winsize) : pty_shared_data :=
  Pty (buffer0 d) (buffer1 d) (icanon_size d) (icanon_base d) (eof d) (group d) (term d) w (signals d).

(** The data, the object of the pointer and the error code; a request whose
    pointer leads to an object of another type is undefined. *)
Definition n_ioctl (tasks : list (Z * Z)) (session : Z) (d : pty_shared_data) (request : Z) (arg : ioctl_arg)
  : option (pty_shared_data * ioctl_arg * de_error) :=
  if request =? IOCTL_TCGETS then
    match arg with ArgTermios _ => Some (d, ArgTermios (term d), DE_SUCCESS) | _ => None end
  else
    let request := if request =? IOCTL_TCSETSW then IOCTL_TCSETS else request in
    let request := if request =? IOCTL_TCSETSF then IOCTL_TCSETS else request in
    if request =? IOCTL_TCSETS then
      match arg with ArgTermios t => d ← set_termios d t; Some (d, arg, DE_SUCCESS) | _ => None end
    else if request =? IOCTL_TIOCGWINSZ then
      match arg with ArgWinsize _ => Some (d, ArgWinsize (win d), DE_SUCCESS) | _ => None end
    else if request =? IOCTL_TIOCSWINSZ then
      match arg with ArgWinsize w => Some (set_winsize d w, arg, DE_SUCCESS) | _ => None end
    else if request =? IOCTL_TIOCGPGRP then
      match arg with ArgGroup _ => Some (d, ArgGroup (get_group d), DE_SUCCESS) | _ => None end
    else if request =? IOCTL_TIOCSPGRP then
      match arg with
      | ArgGroup g => let '(d, r) := set_group tasks session d g in Some (d, arg, r)
      | _ => None
      end
    else Some (d, arg, DE_UNSUPPORTED).

Inductive pty_type := pty_type_main | pty_type_secondary.

Definition POLLIN : Z := 0x0001.
Definition POLLOUT : Z := 0x0004.
Definition POLLRDNORM : Z := 0x0040.
Definition POLLWRNORM : Z := 0x0100.

Definition n_poll (type : pty_type) (events : Z) (d : pty_shared_data) : Z :=
  let '(r, w) := match type with pty_type_main => (0, 1) | pty_type_secondary => (1, 0) end in
  let count := end_ (buffer d w) - start (buffer d w) in
  let count := if count <? 0 then PTY_BUFFER_SIZE + end_ (buffer d w) - start (buffer d w) else count in
  let read_ok := negb (start (buffer d r) =? end_ (buffer d r)) in
  let write_ok := count <? PTY_ICANON_SIZE in
  let r := if read_ok && negb (Z.land events POLLIN =? 0) then Z.lor 0 POLLIN else 0 in
  let r := if read_ok && negb (Z.land events POLLRDNORM =? 0) then Z.lor r POLLRDNORM else r in
  let r := if write_ok && negb (Z.land events POLLOUT =? 0) then Z.lor r POLLOUT else r in
  if write_ok && negb (Z.land events POLLWRNORM =? 0) then Z.lor r POLLWRNORM else r.

(** ** The names under /dev/pts *)

(** The loop over the digits: pty_i and r. *)
Fixpoint pts_number (name : list Z) (pty_i : Z) (r : de_error) : de_error + Z :=
  match name with
  | [] => if decide (r ≠ DE_SUCCESS) then inl r else inr pty_i
  | c :: name =>
      if (c <? 0x30) || (c >? 0x39) then inl DE_NAME
      else
        let pty_i := pty_i * 10 + (c - 0x30) in
        if pty_i >=? PTY_ARRAY_COUNT then inl DE_NAME else pts_number name pty_i DE_SUCCESS
  end.

(** [n_open_pts]: the name is a string without its null byte; the answer is the
    error or the entry of [pty_array]. *)
Definition n_open_pts {A} (pty_array : list (option A)) (name : list Z) (exclusive : bool)
  : option (de_error + A) :=
  match (match name with
         | 0x30 :: rest => match rest with [] => inr 0 | _ => inl DE_NAME end
         | _ => pts_number name 0 DE_NAME
         end) with
  | inl r => Some (inl r)
  | inr i =>
      p ← pty_array.[i];
      Some (match p with
            | None => inl DE_NAME
            | Some p => if exclusive then inl DE_BUSY else inr p
            end)
  end.

(** The entry of a directory: the error code and the 256 bytes of its name. *)
Definition n_readdir_pts {A} (pty_array : list (option A)) (offset : Z) : option (de_error * list Z) :=
  let name := replicate 256 0 in
  if offset =? 0 then Some (DE_SUCCESS, <[0%nat := 0x2E]> name)
  else if offset =? 1 then Some (DE_SUCCESS, <[0%nat := 0x2E]> (<[1%nat := 0x2E]> name))
  else if u32 (offset - 2) >=? PTY_ARRAY_COUNT then Some (DE_SUCCESS, name)
  else
    p ← pty_array.[offset - 2];
    match p with
    | None => Some (DE_PLACEHOLDER, name)
    | Some _ =>
        '(_, name, _) ← snprintf 64 name 8 [0x25; 0x64; 0] (λ _, Slot (offset - 2) [0]);
        Some (DE_SUCCESS, name)
    end.

(** ** Release *)

(** [n_release]: [references] is the answer of [vfs_decrement_count], [i] the place
    of the pseudo terminal in [pty_array].  With the last reference of a side the
    count of the shared data goes down, and at 0 it is freed: [None]. *)
Definition n_release {A} (type : pty_type) (references i : Z) (pty_array : list (option A)) (count : Z)
  : option (list (option A) * option Z) :=
  if references >? 0 then Some (pty_array, Some count)
  else
    a ← (match type with
         | pty_type_secondary => pty_array.[i <- None]
         | pty_type_main => Some pty_array
         end);
    let count := count - 1 in
    Some (a, if count <=? 0 then None else Some count).

(** ** Creation *)

(** On a structure of zeros. *)
Definition set_default_termios : termios :=
  Termios TERMIOS_ICRNL (Z.lor TERMIOS_ONLCR TERMIOS_OPOST)
    (Z.lor (Z.lor TERMIOS_B38400 TERMIOS_CS8) TERMIOS_CREAD)
    (Z.lor (Z.lor (Z.lor (Z.lor (Z.lor TERMIOS_ECHO TERMIOS_ECHOE) TERMIOS_ECHOK) TERMIOS_ICANON)
       TERMIOS_IEXTEN) TERMIOS_ISIG)
    [0x03; 0x1C; 0x7F; 0x15; 0x04; 0x00; 0x01; 0; 0x11; 0x13; 0x1A; 0x00; 0; 0; 0x17; 0;
     0; 0; 0; 0; 0; 0; 0; 0; 0; 0; 0; 0; 0; 0; 0; 0].

(** The console's rows and columns. *)
Definition set_default_winsize (con_rows con_columns : Z) : winsize :=
  Winsize (u16 con_rows) (u16 con_columns) 0 0.

Definition new_ring : ring :=
  Ring (Event EVENT_READY true false 0) 0 0 (replicate (Z.to_nat PTY_BUFFER_SIZE) 0).

(** The data of a new pseudo terminal. *)
Definition new_pty (t : option termios) (w : winsize) : pty_shared_data :=
  Pty new_ring new_ring 0 (replicate (Z.to_nat PTY_ICANON_SIZE) 0) false 0
    (default set_default_termios t) w [].

(** The first free place of [pty_array]. *)
Fixpoint pty_place {A} (pty_array : list (option A)) (i : Z) : option Z :=
  match pty_array with
  | [] => None
  | None :: _ => Some i
  | Some _ :: l => pty_place l (i + 1)
  end.

(** [pty_create]: whether there is memory for the data and for the nodes and events;
    the answer is the error code, the data with its place, and the array.  The name
    is then opened under /dev/pts, where [n_open_pts] finds the secondary node. *)
Definition pty_create {A} (data_ok rest_ok : bool) (pty_array : list (option A)) (secondary : A)
    (t : option termios) (w : option winsize) (con_rows con_columns : Z)
  : option (de_error * option (pty_shared_data * Z) * list (option A)) :=
  if negb data_ok || negb rest_ok then Some (DE_MEMORY, None, pty_array)
  else
    match pty_place pty_array 0 with
    | None => Some (DE_FULL, None, pty_array)
    | Some i =>
        a ← pty_array.[i <- Some secondary];
        Some (DE_SUCCESS, Some (new_pty t (default (set_default_winsize con_rows con_columns) w), i), a)
    end.
