(* ===== verification/PtyView.v ===== *)
(** Pseudo terminals as lists: the bytes on their way in each direction and the
    line that is being edited, what the rings and the array of Pty.v represent of
    them, and erasing the last characters of the line. *)

From S2P Require Import Prelude Errors Event Ring Pty.

(** ** The view of the terminal as lists *)

(** The bytes on the way to the terminal and to the programs, the line that is
    being edited, and the other fields. *)
Record view := View {
  out : list Z;
  inp : list Z;
  line : list Z;
  v_eof : bool;
  v_group : Z;
  v_term : termios;
  v_win : winsize;
  v_signals : list (Z * Z) }.

Definition with_out (v : view) (l : list Z) : view :=
  View l (inp v) (line v) (v_eof v) (v_group v) (v_term v) (v_win v) (v_signals v).
Definition with_inp (v : view) (l : list Z) : view :=
  View (out v) l (line v) (v_eof v) (v_group v) (v_term v) (v_win v) (v_signals v).
Definition with_line (v : view) (l : list Z) : view :=
  View (out v) (inp v) l (v_eof v) (v_group v) (v_term v) (v_win v) (v_signals v).
Definition with_eof (v : view) (e : bool) : view :=
  View (out v) (inp v) (line v) e (v_group v) (v_term v) (v_win v) (v_signals v).
Definition with_signal (v : view) (x : Z * Z) : view :=
  View (out v) (inp v) (line v) (v_eof v) (v_group v) (v_term v) (v_win v) (v_signals v ++ [x]).

Definition waiting (b : ring) : list Z := queue PTY_BUFFER_SIZE (start b) (end_ b) (base b).

(** A ring is well formed, and no wake-up is lost: when bytes wait, the event is
    signaled. *)
Record buffer_ok (b : ring) (l : list Z) : Prop := {
  b_ring : ring_ok PTY_BUFFER_SIZE (start b) (end_ b) (base b);
  b_bytes : waiting b = l;
  b_event : ready (event b) = EVENT_READY;
  b_wake : l ≠ [] → signaled (event b) = true }.

Record represents (d : pty_shared_data) (v : view) : Prop := {
  r_out : buffer_ok (buffer0 d) (out v);
  r_inp : buffer_ok (buffer1 d) (inp v);
  r_base : length (icanon_base d) = 4096%nat;
  r_bytes : Forall is_byte (icanon_base d);
  r_size : icanon_size d = Z.of_nat (length (line v));
  r_line : take (length (line v)) (icanon_base d) = line v;
  r_eof : eof d = v_eof v;
  r_group : group d = v_group v;
  r_term : term d = v_term v;
  r_win : win d = v_win v;
  r_signals : signals d = v_signals v }.

(** A byte that is dropped when the ring is full *)
Definition append (l : list Z) (c : Z) : list Z :=
  if decide (Z.of_nat (length l) < PTY_BUFFER_SIZE - 1) then l ++ [u8 c] else l.

Definition append_all (l cs : list Z) : list Z := foldl append l cs.

Lemma pty_size_big : 1 < PTY_BUFFER_SIZE.
Proof. done. Qed.

Lemma waiting_bound b l : buffer_ok b l → Z.of_nat (length l) ≤ PTY_BUFFER_SIZE - 1.
Proof. intros Hb. rewrite <- (b_bytes _ _ Hb). apply queue_bound, pty_size_big. Qed.

Lemma u8_byte c : is_byte (u8 c).
Proof. unfold is_byte. apply (wrap_range 8). lia. Qed.

Lemma signal_ok b l : buffer_ok b l → buffer_ok (signal b) l ∧ signaled (event (signal b)) = true.
Proof.
  intros [Hr Hb He Hw]. unfold signal. rewrite He, Z.eqb_refl. split; [by split|done].
Qed.

(** ** The rings *)

(** One byte into a ring. *)
Definition push_ring (b : ring) (c : Z) : option (ring * de_error) :=
  let new_end := Z.rem (end_ b + 1) PTY_BUFFER_SIZE in
  if start b =? new_end then Some (b, DE_RETRY)
  else
    bytes ← (base b).[end_ b <- u8 c];
    let b' := Ring (event b) (start b) new_end bytes in
    Some (if start b =? end_ b then signal b' else b', DE_SUCCESS).

Lemma write_buffer_push d i c :
  write_buffer d i c = ('(b, r) ← push_ring (buffer d i) c;
                        Some (if decide (r = DE_SUCCESS) then set_buffer d i b else d, r)).
Proof.
  unfold write_buffer, push_ring. destruct (start _ =? Z.rem _ _); [done|].
  destruct (wr _ _ _) as [l|]; [|done]. cbn [mbind option_bind]. by rewrite decide_True.
Qed.

Lemma push_ring_ok b l c :
  buffer_ok b l →
  ∃ b' r, push_ring b c = Some (b', r) ∧ buffer_ok b' (append l c) ∧
    (signaled (event b) = true → signaled (event b') = true) ∧
    r = (if decide (Z.of_nat (length l) < PTY_BUFFER_SIZE - 1) then DE_SUCCESS else DE_RETRY) ∧
    (r ≠ DE_SUCCESS → b' = b).
Proof.
  intros [Hr Hb He Hw]. unfold push_ring, append. pose proof (queue_full _ pty_size_big _ _ _ Hr) as Hfull.
  change (queue _ _ _ _) with (waiting b) in Hfull. rewrite Hb in Hfull.
  pose proof (queue_bound _ pty_size_big (start b) (end_ b) (base b)) as Hbound.
  change (queue _ _ _ _) with (waiting b) in Hbound. rewrite Hb in Hbound.
  destruct (Z.eqb_spec (start b) (Z.rem (end_ b + 1) PTY_BUFFER_SIZE)) as [Hf|Hf].
  { apply Hfull in Hf. rewrite !decide_False by lia. exists b, DE_RETRY. by split_and!. }
  rewrite !decide_True by (destruct Hfull; lia).
  destruct (queue_push _ pty_size_big _ _ _ (u8 c) Hr (u8_byte c) Hf) as (bytes & -> & Hr' & Hq).
  cbn [mbind option_bind]. eexists _, _. split; [done|]. fold (waiting b) in Hq. rewrite Hb in Hq.
  destruct (Z.eqb_spec (start b) (end_ b)) as [Hse|Hse].
  - unfold signal. cbn [event]. rewrite He, Z.eqb_refl. by split_and!.
  - split_and!; try done. split; try done. intros _. apply Hw. intros ->. apply Hse.
    apply (queue_empty _ _ _ _ Hr). change (queue _ _ _ _) with (waiting b). by rewrite Hb.
Qed.

Lemma write_buffer_0 d v c :
  represents d v →
  ∃ d', write_buffer d 0 c = Some (d', if decide (Z.of_nat (length (out v)) < PTY_BUFFER_SIZE - 1)
                                        then DE_SUCCESS else DE_RETRY) ∧
    represents d' (with_out v (append (out v) c)) ∧ event (buffer1 d') = event (buffer1 d).
Proof.
  intros [H0 H1 Hl Hb Hs Ht He Hg Htm Hwin Hsg]. destruct (push_ring_ok _ _ c H0) as (b' & r & Hp & Hok & _ & Hr & Hsame).
  rewrite write_buffer_push. change (buffer d 0) with (buffer0 d). rewrite Hp. cbn [mbind option_bind].
  eexists. split; [rewrite <- Hr; reflexivity|]. destruct (decide (r = DE_SUCCESS)); [by split; [split|]|].
  rewrite Hsame in Hok by done. by split; [split|].
Qed.

Lemma write_buffer_1 d v c :
  represents d v →
  ∃ d', write_buffer d 1 c = Some (d', if decide (Z.of_nat (length (inp v)) < PTY_BUFFER_SIZE - 1)
                                        then DE_SUCCESS else DE_RETRY) ∧
    represents d' (with_inp v (append (inp v) c)) ∧
    (signaled (event (buffer1 d)) = true → signaled (event (buffer1 d')) = true).
Proof.
  intros [H0 H1 Hl Hb Hs Ht He Hg Htm Hwin Hsg]. destruct (push_ring_ok _ _ c H1) as (b' & r & Hp & Hok & Hsig & Hr & Hsame).
  rewrite write_buffer_push. change (buffer d 1) with (buffer1 d). rewrite Hp. cbn [mbind option_bind].
  eexists. split; [rewrite <- Hr; reflexivity|]. destruct (decide (r = DE_SUCCESS)); [by split; [split|]|].
  rewrite Hsame in Hok by done. by split; [split|].
Qed.

Lemma write_bytes_0 l d v :
  represents d v →
  ∃ d', write_bytes d 0 l = Some d' ∧ represents d' (with_out v (append_all (out v) l)) ∧
    event (buffer1 d') = event (buffer1 d).
Proof.
  revert d v. induction l as [|c l IH]; intros d v Hd; cbn [write_bytes].
  - exists d. split; [done|]. split; [by destruct v|done].
  - destruct (write_buffer_0 d v c Hd) as (d1 & -> & Hd1 & He1). cbn [mbind option_bind].
    destruct (IH d1 _ Hd1) as (d2 & -> & Hd2 & He2). exists d2. split; [done|]. split; [exact Hd2|congruence].
Qed.

(** The state of a ring as its number of bytes. *)
Lemma buffer_state_ok b l :
  buffer_ok b l →
  (if end_ b - start b <? 0 then PTY_BUFFER_SIZE + end_ b - start b else end_ b - start b) = Z.of_nat (length l).
Proof.
  intros [[_ Hs He _] Hb _ _]. rewrite <- Hb. unfold waiting. rewrite queue_length_eq. unfold queue_length.
  rewrite ring_diff by (done || apply pty_size_big).
  destruct (Z.ltb_spec (end_ b - start b) 0), (Z.leb_spec (start b) (end_ b)); lia.
Qed.

Lemma read_buffer_ok d v i l :
  represents d v → i = 0 ∧ l = out v ∨ i = 1 ∧ l = inp v →
  match l with
  | [] => ∃ d', read_buffer d i = Some (d', -1) ∧ represents d' v ∧ (i = 0 → event (buffer1 d') = event (buffer1 d))
  | c :: l' => is_byte c ∧ ∃ d', read_buffer d i = Some (d', c) ∧
      represents d' (if i =? 0 then with_out v l' else with_inp v l') ∧ event (buffer1 d') = event (buffer1 d)
  end.
Proof.
  intros [H0 H1 Hl Hb Hs Ht He Hg Htm Hwin Hsg] Hi.
  assert (Hbuf : buffer_ok (buffer d i) l) by (destruct Hi as [[-> ->]|[-> ->]]; done).
  destruct Hbuf as [Hr Hq Hev Hw]. unfold read_buffer.
  pose proof (queue_empty _ _ _ _ Hr) as Hemp. change (queue _ _ _ _) with (waiting (buffer d i)) in Hemp.
  rewrite Hq in Hemp. destruct (Z.eqb_spec (start (buffer d i)) (end_ (buffer d i))) as [Hse|Hse]; cbn [negb].
  - destruct l as [|c l]; [|by apply Hemp in Hse]. eexists. split; [done|].
    assert (Hreset : buffer_ok (reset (buffer d i)) []).
    { unfold reset. rewrite Hev, Z.eqb_refl. by split. }
    destruct Hi as [[-> El]|[-> El]]; rewrite El in Hreset; (split; [by split|done]).
  - destruct (queue_pop _ pty_size_big _ _ _ Hr Hse) as (c & bytes & -> & Hc & Hwr & Hr' & Hqq).
    change (queue _ (start (buffer d i)) _ _) with (waiting (buffer d i)) in Hqq. rewrite Hq in Hqq. rewrite Hqq in *.
    cbn [mbind option_bind]. rewrite Hwr. cbn [mbind option_bind]. split; [done|]. eexists. split; [done|].
    set (l' := queue _ _ _ _) in *.
    assert (Hpop : buffer_ok (Ring (event (buffer d i)) (Z.rem (start (buffer d i) + 1) PTY_BUFFER_SIZE) (end_ (buffer d i)) bytes) l').
    { split; [done|done|done|]. intros _. by apply Hw. }
    destruct Hi as [[-> _]|[-> _]]; (split; [by split|done]).
Qed.

(** ** Erasing *)

Definition cont (ic : Z) : bool := Z.land ic 0xC0 =? 0x80.

(** The last character of a line, which is given from its end: the bytes before it,
    and its first byte. *)
Fixpoint last_char (r : list Z) : list Z * Z :=
  match r with
  | [] => ([], 0)
  | c :: r' => match r' with
               | [] => ([], c)
               | _ => if cont c then last_char r' else (r', c)
               end
  end.

(** What an erasing byte leaves of the line (from its end), and its echo: one
    character, the line for a negative [word], a word for a positive one. *)
Fixpoint erase (fuel : nat) (erase_character : bool) (c word : Z) (r : list Z) (word_state echo : bool)
  : list Z * list Z :=
  match fuel, r with
  | S fuel, _ :: _ =>
      let '(r', ic) := last_char r in
      let word_state := word_state || negb (blank ic) in
      let text := if echo then erase_text erase_character c ic else [] in
      if (word =? 0) || (0 <? word) && word_state && match r' with x :: _ => blank x | [] => false end
      then (r', text)
      else
        let '(r'', text') := erase fuel erase_character c word r' word_state (erase_character && echo) in
        (r'', text ++ text')
  | _, _ => (r, [])
  end.

Definition erase_line (t : termios) (c word : Z) (l : list Z) : list Z * list Z :=
  let erase_character := (flag (c_lflag t) TERMIOS_ECHOE && (0 <=? word)) ||
                         (flag (c_lflag t) TERMIOS_ECHOK && (word <? 0)) in
  let '(r, text) := erase (length l) erase_character c word (reverse l) false (flag (c_lflag t) TERMIOS_ECHO) in
  (reverse r, text).

Lemma represents_line d v l n :
  represents d v → n = Z.of_nat (length l) → take (length l) (icanon_base d) = l →
  represents (set_icanon d n (icanon_base d)) (with_line v l).
Proof. intros [] -> Hl. by split. Qed.

Lemma line_prefix d v l1 l2 :
  represents d v → line v = l1 ++ l2 → take (length l1) (icanon_base d) = l1.
Proof.
  intros Hd Hl. pose proof (r_line _ _ Hd) as Ht. rewrite Hl, length_app in Ht.
  apply (f_equal (take (length l1))) in Ht. rewrite take_take, Nat.min_l, take_app_length in Ht by lia. done.
Qed.

Lemma last_byte d v l c :
  represents d v → line v = l ++ [c] → (icanon_base d).[icanon_size d - 1] = Some c.
Proof.
  intros Hd Hl. rewrite (r_size _ _ Hd). pose proof (r_line _ _ Hd) as Ht.
  rewrite Hl, length_app in Ht |- *. cbn [length] in *. apply rd_Some. split; [lia|].
  replace (Z.to_nat (Z.of_nat (length l + 1) - 1)) with (length l) by lia.
  apply (f_equal (λ x, x !! length l)) in Ht. rewrite lookup_take_lt in Ht by lia.
  rewrite Ht. by rewrite lookup_app_r, Nat.sub_diag.
Qed.

Lemma pop_icanon_ok d v l c :
  represents d v → line v = l ++ [c] →
  ∃ d', pop_icanon d = Some (d', c) ∧ represents d' (with_line v l) ∧ buffer1 d' = buffer1 d.
Proof.
  intros Hd Hl. unfold pop_icanon. rewrite (last_byte d v l c) by done. cbn [mbind option_bind].
  eexists. split; [done|]. split; [|done]. apply represents_line; [done| |by eapply line_prefix].
  rewrite (r_size _ _ Hd), Hl, length_app. cbn [length]. lia.
Qed.

Lemma with_line_twice v l l' : with_line (with_line v l) l' = with_line v l'.
Proof. done. Qed.

Lemma continuation_loop r fuel d v ic :
  represents d (with_line v (reverse r)) → (length r < fuel)%nat →
  let '(r', ic') := last_char (ic :: r) in
  ∃ d', while fuel continuation_turn (d, ic) = Some (d', ic') ∧ represents d' (with_line v (reverse r')) ∧
    buffer1 d' = buffer1 d.
Proof.
  revert fuel d ic. induction r as [|c r IH]; intros fuel d ic Hd Hf; (destruct fuel as [|fuel]; [lia|]).
  - cbn [last_char while continuation_turn]. rewrite (r_size _ _ Hd). cbn [line with_line]. rewrite andb_false_r.
    by exists d.
  - cbn [while continuation_turn]. rewrite (r_size _ _ Hd). cbn [line with_line]. rewrite Z.gtb_ltb.
    rewrite (proj2 (Z.ltb_lt 0 _)) by (rewrite length_reverse; cbn; lia). rewrite andb_true_r.
    change (last_char (ic :: c :: r)) with (if cont ic then last_char (c :: r) else (c :: r, ic)).
    change (Z.land ic 0xC0 =? 0x80) with (cont ic). destruct (cont ic); [|by exists d].
    rewrite reverse_cons in Hd.
    destruct (pop_icanon_ok d _ (reverse r) c Hd eq_refl) as (d1 & -> & Hd1 & E1). cbn [mbind option_bind].
    specialize (IH fuel d1 c Hd1). destruct (last_char (c :: r)) as [r' ic']. rewrite <- E1. apply IH. cbn in Hf. lia.
Qed.

Lemma pop_character_ok d v c r :
  represents d (with_line v (reverse (c :: r))) →
  let '(r', ic) := last_char (c :: r) in
  ∃ d', pop_character d = Some (d', ic) ∧ represents d' (with_line v (reverse r')) ∧ buffer1 d' = buffer1 d.
Proof.
  intros Hd. unfold pop_character. rewrite reverse_cons in Hd.
  destruct (pop_icanon_ok d _ (reverse r) c Hd eq_refl) as (d1 & -> & Hd1 & E1). cbn [mbind option_bind].
  rewrite (r_size _ _ Hd1). cbn [line with_line]. rewrite Nat2Z.id, length_reverse.
  pose proof (continuation_loop r (S (length r)) d1 v c Hd1 ltac:(lia)) as Hloop.
  destruct (last_char (c :: r)) as [r' ic]. rewrite <- E1. exact Hloop.
Qed.

Lemma last_char_shorter c r : (length (fst (last_char (c :: r))) ≤ length r)%nat.
Proof.
  revert c. induction r as [|c' r IH]; intros c; [done|].
  change (last_char (c :: c' :: r)) with (if cont c then last_char (c' :: r) else (c' :: r, c)).
  destruct (cont c); [|done]. specialize (IH c'). cbn [length]. lia.
Qed.

Lemma append_all_app l a b : append_all l (a ++ b) = append_all (append_all l a) b.
Proof. unfold append_all. by rewrite foldl_app. Qed.

Lemma erase_loop_ok n ec c word r d v ws echo fuel :
  represents d (with_line v (reverse r)) → (length r ≤ n)%nat → (length r < fuel)%nat →
  ∃ d', while fuel (erase_turn ec c word) (d, ws, echo) = Some d' ∧
    represents d' (with_out (with_line v (reverse (fst (erase n ec c word r ws echo))))
                     (append_all (out v) (snd (erase n ec c word r ws echo)))) ∧
    event (buffer1 d') = event (buffer1 d).
Proof.
  revert r d v ws echo fuel. induction n as [|n IH]; intros r d v ws echo fuel Hd Hn Hf.
  { destruct r; [|cbn in Hn; lia]. destruct fuel as [|fuel]; [lia|]. cbn [while erase_turn].
    rewrite (r_size _ _ Hd). exists d. split; [done|]. split; [by destruct v|done]. }
  destruct fuel as [|fuel]; [lia|]. cbn [while erase_turn]. rewrite (r_size _ _ Hd).
  change (line (with_line v (reverse r))) with (reverse r). rewrite length_reverse, Z.gtb_ltb.
  destruct r as [|b r]; [exists d; split; [done|]; split; [by destruct v|done]|].
  rewrite (proj2 (Z.ltb_lt 0 _)) by (cbn; lia). cbn [erase].
  pose proof (pop_character_ok d v b r Hd) as Hpop. pose proof (last_char_shorter b r) as Hshort.
  destruct (last_char (b :: r)) as [r' ic]. destruct Hpop as (d1 & -> & Hd1 & E1). cbn [fst] in Hshort. cbn [mbind option_bind].
  set (text := if echo then erase_text ec c ic else []).
  assert (Htext : ∃ d2, (if echo then write_bytes d1 0 (erase_text ec c ic) else Some d1) = Some d2 ∧
    represents d2 (with_out (with_line v (reverse r')) (append_all (out v) text)) ∧
    event (buffer1 d2) = event (buffer1 d)).
  { unfold text. destruct echo.
    - destruct (write_bytes_0 (erase_text ec c ic) d1 _ Hd1) as (d2 & -> & Hd2 & E2). exists d2. by rewrite E2, E1.
    - exists d1. split; [done|]. split; [by destruct v|by rewrite E1]. }
  destruct Htext as (d2 & -> & Hd2 & E2). cbn [mbind option_bind].
  destruct (word =? 0); [by exists d2|]. cbn [orb].
  set (ws' := ws || negb (blank ic)).
  replace (if ec then echo else false) with (ec && echo) by by destruct ec.
  set (stop := (0 <? word) && ws' && match r' with x :: _ => blank x | [] => false end).
  assert (Hstep : (if (word >? 0) && (icanon_size d2 >? 0) && ws'
     then last ← (icanon_base d2).[icanon_size d2 - 1];
          Some (if blank last then Done d2 else Next (d2, ws', ec && echo))
     else Some (Next (d2, ws', ec && echo))) = Some (if stop then Done d2 else Next (d2, ws', ec && echo))).
  { unfold stop. rewrite !Z.gtb_ltb. destruct r' as [|x r'].
    - rewrite (r_size _ _ Hd2), andb_false_r. cbn [line with_line with_out reverse length]. by rewrite andb_false_r.
    - rewrite (last_byte d2 _ (reverse r') x Hd2) by apply reverse_cons. rewrite (r_size _ _ Hd2).
      cbn [line with_line with_out]. rewrite length_reverse, (proj2 (Z.ltb_lt 0 (Z.of_nat _))), andb_true_r by (cbn; lia).
      cbn [mbind option_bind]. destruct ((0 <? word) && ws'); cbn [andb]; by destruct (blank x). }
  rewrite Hstep. cbn [mbind option_bind]. destruct stop; [by exists d2|].
  destruct (IH r' d2 (with_out v (append_all (out v) text)) ws' (ec && echo) fuel Hd2) as (d3 & Hw & Hd3 & E3); [cbn in Hn; lia|cbn in Hf; lia|].
  rewrite Hw. exists d3. split; [done|]. rewrite E3, E2. split; [|done].
  destruct (erase n ec c word r' ws' (ec && echo)) as [r'' text']. cbn [fst snd] in *. by rewrite append_all_app.
Qed.

Lemma write_erase_main_ok d v c word :
  represents d v →
  ∃ d', write_erase_main d c word = Some d' ∧
    (let '(l, text) := erase_line (v_term v) c word (line v) in
     represents d' (with_out (with_line v l) (append_all (out v) text))) ∧
    event (buffer1 d') = event (buffer1 d).
Proof.
  intros Hd. unfold write_erase_main, erase_line. rewrite (r_term _ _ Hd), Z.geb_leb.
  assert (Hd' : represents d (with_line v (reverse (reverse (line v))))) by (rewrite reverse_involutive; by destruct v).
  destruct (erase_loop_ok (length (line v)) ((flag (c_lflag (v_term v)) TERMIOS_ECHOE && (0 <=? word)) ||
                             (flag (c_lflag (v_term v)) TERMIOS_ECHOK && (word <? 0))) c word (reverse (line v)) d v false
              (flag (c_lflag (v_term v)) TERMIOS_ECHO) (S (Z.to_nat (icanon_size d))) Hd') as (d' & Hw & Hd1 & E1).
  { by rewrite length_reverse. }
  { rewrite (r_size _ _ Hd), length_reverse. lia. }
  exists d'. split; [done|]. split; [|done]. by destruct (erase _ _ _ _ _ _ _) as [r text].
Qed.
