(* ===== verification/PtyLine.v ===== *)
(** What a byte that is typed does to a pseudo terminal: echo, signals, editing and
    the delivery of the line; [main_char] and [main_chars] of Pty.v do it on the
    arrays, without a bad access. *)

From S2P Require Import Prelude Errors Event Ring Pty PtyView.

(** ** What typing does *)

Definition echo_text (t : termios) (c : Z) : list Z :=
  if (c =? 0x0A) && flag (c_lflag t) TERMIOS_ICANON then
    (if flag (c_oflag t) TERMIOS_OPOST && flag (c_oflag t) TERMIOS_ONLCR then [0x0D] else []) ++ [0x0A]
  else if (0 <=? c) && (c <=? 0x1F) then [0x5E; 0x40 + c]
  else if c =? 0x7F then [0x5E; 0x3F]
  else [c].

Definition echoed (v : view) (c : Z) (echo : bool) : view :=
  if echo then with_out v (append_all (out v) (echo_text (v_term v) c)) else v.

(** The whole line is delivered, with the byte that ends it; nothing is dropped. *)
Definition delivered (v : view) (c : Z) : view :=
  with_line (with_inp v (inp v ++ (if decide (list.last (line v) = Some c) then line v else line v ++ [c]))) [].

Definition erased (v : view) (c word : Z) : view :=
  let '(l, text) := erase_line (v_term v) c word (removelast (line v)) in
  with_out (with_line v l) (append_all (out v) text).

Definition line_room (v : view) : bool := Z.of_nat (length (line v)) <? PTY_ICANON_SIZE - 1.

(** A byte of a line: it is stored while there is room, and then it may edit. *)
Definition edit (v : view) (c : Z) (echo : bool) : view * char_answer :=
  let t := v_term v in
  let v := if line_room v then with_line v (line v ++ [c]) else v in
  if c =? 0x0A then (delivered (echoed v c echo) c, Taken)
  else if is_cc t TERMIOS_VEOF c then
    if decide (length (line v) = 1%nat) then (with_eof (with_line v []) true, TakenLast)
    else (delivered v c, Taken)
  else if is_cc t TERMIOS_VERASE c then (erased v c 0, Taken)
  else if is_cc t TERMIOS_VKILL c then (erased v c (-1), Taken)
  else if is_cc t TERMIOS_VWERASE c then (erased v c 1, Taken)
  else if is_cc t TERMIOS_VEOL c then (delivered (echoed v c echo) c, Taken)
  else (echoed v c echo, Taken).

Definition type_char (v : view) (c : Z) : view * char_answer :=
  let t := v_term v in
  let echo := flag (c_lflag t) TERMIOS_ECHO in
  match input_char t c with
  | None => (v, Taken)
  | Some c =>
      let sig := if flag (c_lflag t) TERMIOS_ISIG then signal_of t c else 0 in
      if negb (sig =? 0) then
        let v := echoed v c echo in
        (with_line (if v_group v >? 1 then with_signal v (- v_group v, sig) else v) [], Taken)
      else if flag (c_lflag t) TERMIOS_ICANON then
        if Z.of_nat (length (inp v)) >? PTY_ICANON_SIZE then (v, Refused DE_RETRY) else edit v c echo
      else
        let v := echoed v c echo in
        if decide (Z.of_nat (length (inp v)) < PTY_BUFFER_SIZE - 1)
        then (with_inp v (inp v ++ [c]), Taken) else (v, Refused DE_RETRY)
  end.

Fixpoint type_chars (v : view) (l : list Z) (size : Z) : view * Z * de_error :=
  match l with
  | [] => (v, size, DE_SUCCESS)
  | c :: l =>
      let '(v, a) := type_char v c in
      match a with
      | Taken => type_chars v l (size + 1)
      | TakenLast => (v, size + 1, DE_SUCCESS)
      | Refused r => (v, size, r)
      end
  end.

(** Between two calls: the line leaves room for a byte, and a line is only kept in
    canonical mode and when the programs have taken most of what was delivered. *)
Record view_ok (v : view) : Prop := {
  v_line : Z.of_nat (length (line v)) ≤ PTY_ICANON_SIZE - 1;
  v_inp : line v ≠ [] → flag (c_lflag (v_term v)) TERMIOS_ICANON = true ∧
            Z.of_nat (length (inp v)) ≤ PTY_ICANON_SIZE }.

(** ** The line *)

Lemma u8_id c : is_byte c → u8 c = c.
Proof. intros Hc. by apply wrap_small. Qed.

Lemma write_echo_main_ok d v c :
  represents d v →
  ∃ d', write_echo_main d c = Some d' ∧ represents d' (echoed v c true) ∧ event (buffer1 d') = event (buffer1 d).
Proof.
  intros Hd. unfold write_echo_main, echoed, echo_text. rewrite (r_term _ _ Hd).
  destruct ((c =? 0x0A) && _).
  - destruct (_ && _); [|by apply write_bytes_0].
    destruct (write_bytes_0 [0x0D] d v Hd) as (d1 & -> & Hd1 & E1). cbn [mbind option_bind].
    destruct (write_bytes_0 [0x0A] d1 _ Hd1) as (d2 & -> & Hd2 & E2). exists d2. by rewrite E2, E1, append_all_app.
  - destruct (_ && _); [by apply write_bytes_0|]. destruct (c =? 0x7F); by apply write_bytes_0.
Qed.

Lemma echo_ok d v c e :
  represents d v →
  ∃ d', (if (e : bool) then write_echo_main d c else Some d) = Some d' ∧ represents d' (echoed v c e) ∧
    event (buffer1 d') = event (buffer1 d).
Proof. intros Hd. destruct e; [by apply write_echo_main_ok|by exists d]. Qed.

Lemma push_icanon_ok d v c :
  represents d v → is_byte c → (length (line v) < 4096)%nat →
  ∃ d', push_icanon d c = Some d' ∧ represents d' (with_line v (line v ++ [c])) ∧ buffer1 d' = buffer1 d.
Proof.
  intros Hd Hc Hl. destruct Hd as [H0 H1 Hlen Hb Hs Ht He Hg Htm Hwin Hsg]. unfold push_icanon.
  rewrite Hs, u8_id by done. rewrite (wr_Some (icanon_base d) (Z.of_nat (length (line v))) c) by lia.
  rewrite Nat2Z.id. cbn [mbind option_bind]. eexists. split; [done|]. split; [|done].
  split; try done; cbn [icanon_base icanon_size set_icanon line with_line].
  - by rewrite length_insert.
  - by apply Forall_insert.
  - rewrite length_app. cbn [length]. lia.
  - rewrite length_app. cbn [length]. rewrite Nat.add_1_r.
    rewrite (take_S_r _ _ c) by (rewrite list_lookup_insert_eq by lia; done). f_equal.
    rewrite take_insert_ge by lia. done.
Qed.

Lemma write_buffer_base d i c d' r :
  write_buffer d i c = Some (d', r) → icanon_base d' = icanon_base d.
Proof.
  rewrite write_buffer_push. destruct (push_ring _ _) as [[b r']|]; [|done]. cbn [mbind option_bind].
  intros [= <- _]. destruct (decide _); [|done]. unfold set_buffer. by destruct (i =? 0).
Qed.

Lemma write_line_ok b a d v :
  represents d v → take (length (a ++ b)) (icanon_base d) = a ++ b →
  Z.of_nat (length (inp v)) + Z.of_nat (length b) ≤ PTY_BUFFER_SIZE - 1 → Forall is_byte b →
  ∃ d', write_line d (Z.of_nat (length a)) (length b) = Some d' ∧ represents d' (with_inp v (inp v ++ b)) ∧
    icanon_base d' = icanon_base d ∧
    (signaled (event (buffer1 d)) = true → signaled (event (buffer1 d')) = true).
Proof.
  revert a d v. induction b as [|c b IH]; intros a d v Hd Ht Hroom Hb; cbn [write_line length].
  - exists d. split; [done|]. split; [rewrite app_nil_r; by destruct v|done].
  - apply list.Forall_cons in Hb as [Hc Hb].
    assert (Hrd : (icanon_base d).[Z.of_nat (length a)] = Some c).
    { apply rd_Some. split; [lia|]. rewrite Nat2Z.id. apply (f_equal (λ x, x !! length a)) in Ht.
      rewrite length_app, lookup_take_lt in Ht by (cbn; lia). rewrite Ht. by rewrite lookup_app_r, Nat.sub_diag. }
    rewrite Hrd. cbn [mbind option_bind]. destruct (write_buffer_1 d v c Hd) as (d1 & Hw & Hd1 & Hs1).
    unfold write_byte_main. rewrite Hw. cbn [mbind option_bind].
    assert (Hbase : icanon_base d1 = icanon_base d) by by eapply write_buffer_base.
    cbn [length] in Hroom. unfold append in Hd1. rewrite decide_True, u8_id in Hd1 by (done || lia).
    destruct (IH (a ++ [c]) d1 _ Hd1) as (d2 & Hw2 & Hd2 & Hb2 & Hs2).
    + rewrite Hbase, <- app_assoc. exact Ht.
    + cbn [inp with_inp]. rewrite length_app. cbn [length]. lia.
    + done.
    + rewrite length_app in Hw2. cbn [length] in Hw2. replace (Z.of_nat (length a + 1)) with (Z.of_nat (length a) + 1) in Hw2 by lia.
      exists d2. split; [done|]. split; [|split; [congruence|auto]].
      cbn [inp with_inp] in Hd2. by rewrite <- app_assoc in Hd2.
Qed.

Lemma line_bytes d v : represents d v → Forall is_byte (line v).
Proof. intros Hd. rewrite <- (r_line _ _ Hd). apply Forall_take, (r_bytes _ _ Hd). Qed.

Lemma flush_line_ok d v :
  represents d v → Z.of_nat (length (inp v)) + Z.of_nat (length (line v)) ≤ PTY_BUFFER_SIZE - 1 →
  ∃ d', flush_line d = Some d' ∧ represents d' (with_line (with_inp v (inp v ++ line v)) []) ∧
    (signaled (event (buffer1 d)) = true → signaled (event (buffer1 d')) = true).
Proof.
  intros Hd Hroom. unfold flush_line. rewrite (r_size _ _ Hd), Nat2Z.id.
  destruct (write_line_ok (line v) [] d v Hd (r_line _ _ Hd) Hroom (line_bytes _ _ Hd)) as (d1 & Hw & Hd1 & Hb & Hs).
  cbn [length] in Hw. change (Z.of_nat 0) with 0 in Hw. rewrite Hw. cbn [mbind option_bind].
  eexists. split; [done|]. split; [|done]. by apply represents_line.
Qed.

Lemma end_line_ok d v c :
  represents d v → is_byte c → line v ≠ [] → Z.of_nat (length (line v)) ≤ PTY_ICANON_SIZE - 1 →
  Z.of_nat (length (inp v)) ≤ PTY_ICANON_SIZE →
  ∃ d', end_line d c = Some d' ∧ represents d' (delivered v c) ∧
    (signaled (event (buffer1 d)) = true → signaled (event (buffer1 d')) = true).
Proof.
  intros Hd Hc Hne Hl Hi. unfold PTY_ICANON_SIZE in *. unfold end_line, delivered.
  destruct (exists_last Hne) as (l & b & El). rewrite (last_byte d v l b Hd El). cbn [mbind option_bind].
  rewrite El, last_snoc. destruct (Z.eqb_spec b c) as [->|Hbc]; cbn [negb mbind option_bind].
  - rewrite decide_True by done. rewrite <- El. apply flush_line_ok; [done|]. unfold PTY_BUFFER_SIZE. lia.
  - rewrite decide_False by congruence. rewrite <- El.
    destruct (push_icanon_ok d v c Hd Hc ltac:(lia)) as (d1 & -> & Hd1 & E1). cbn [mbind option_bind].
    destruct (flush_line_ok d1 _ Hd1) as (d2 & -> & Hd2 & Hs2).
    { cbn [inp line with_line]. rewrite length_app. cbn [length]. unfold PTY_BUFFER_SIZE. lia. }
    exists d2. rewrite E1 in Hs2. done.
Qed.

(** An editing byte is taken from the line before it edits. *)
Lemma erased_ok d v c word :
  represents d v → line v ≠ [] →
  ∃ d', write_erase_main (set_icanon d (icanon_size d - 1) (icanon_base d)) c word = Some d' ∧
    represents d' (erased v c word) ∧ event (buffer1 d') = event (buffer1 d).
Proof.
  intros Hd Hne. destruct (exists_last Hne) as (l & b & El).
  assert (Hd1 : represents (set_icanon d (icanon_size d - 1) (icanon_base d)) (with_line v (removelast (line v)))).
  { rewrite El, removelast_last. apply represents_line; [done| |by eapply line_prefix].
    rewrite (r_size _ _ Hd), El, length_app. cbn [length]. lia. }
  destruct (write_erase_main_ok _ _ c word Hd1) as (d' & Hw & Hd' & E'). exists d'. split; [done|].
  split; [|done]. unfold erased. by destruct (erase_line _ _ _ _) as [r text].
Qed.

Lemma echoed_fields v c e :
  line (echoed v c e) = line v ∧ inp (echoed v c e) = inp v ∧ v_term (echoed v c e) = v_term v ∧
  v_eof (echoed v c e) = v_eof v.
Proof. by destruct e. Qed.

(** The erased line is no longer. *)
Lemma erase_shorter n ec c word r ws echo : (length (fst (erase n ec c word r ws echo)) ≤ length r)%nat.
Proof.
  revert r ws echo. induction n as [|n IH]; intros r ws echo; [done|]. destruct r as [|b r]; [done|]. cbn [erase].
  pose proof (last_char_shorter b r) as Hs. destruct (last_char (b :: r)) as [r' ic]. cbn [fst] in Hs.
  destruct ((word =? 0) || _); [cbn; lia|]. specialize (IH r' (ws || negb (blank ic)) (ec && echo)).
  destruct (erase n ec c word r' _ _) as [r'' text']. cbn [fst] in *. cbn [length]. lia.
Qed.

Lemma erased_fields v c word :
  inp (erased v c word) = inp v ∧ v_term (erased v c word) = v_term v ∧ v_eof (erased v c word) = v_eof v ∧
  (length (line (erased v c word)) ≤ length (removelast (line v)))%nat.
Proof.
  unfold erased, erase_line. set (l := removelast (line v)).
  pose proof (λ ec, erase_shorter (length l) ec c word (reverse l) false (flag (c_lflag (v_term v)) TERMIOS_ECHO)) as Hs.
  match goal with |- context [erase _ ?ec _ _ _ _ _] => specialize (Hs ec) end.
  destruct (erase _ _ _ _ _ _ _) as [r text]. cbn in *. by rewrite !length_reverse in *.
Qed.

Lemma removelast_shorter {A} (l : list A) : (length (removelast l) ≤ pred (length l))%nat.
Proof.
  destruct l as [|x l _] using rev_ind; [done|]. rewrite removelast_last, length_app. cbn. lia.
Qed.

(** ** One byte *)

(** What holds of a byte that is typed: the data, the view after it, the answer. *)
Definition typed (d : pty_shared_data) (v : view) (d' : pty_shared_data) (v' : view) (a : char_answer) : Prop :=
  represents d' v' ∧ view_ok v' ∧
  (signaled (event (buffer1 d)) = true → signaled (event (buffer1 d')) = true) ∧
  (a ≠ TakenLast → v_eof v' = v_eof v) ∧ v_term v' = v_term v.

Lemma delivered_typed d v c d' v0 :
  represents d' (delivered v c) → (signaled (event (buffer1 d)) = true → signaled (event (buffer1 d')) = true) →
  v_eof v = v_eof v0 → v_term v = v_term v0 → typed d v0 d' (delivered v c) Taken.
Proof. intros Hd Hs He Ht. split; [done|]. split; [by split; [cbn; unfold PTY_ICANON_SIZE; lia|]|]. done. Qed.

Lemma canonical_ok d v c :
  represents d v → view_ok v → is_byte c → flag (c_lflag (v_term v)) TERMIOS_ICANON = true →
  Z.of_nat (length (inp v)) ≤ PTY_ICANON_SIZE →
  let echo := flag (c_lflag (v_term v)) TERMIOS_ECHO in
  ∃ d', (d ← (if icanon_size d <? PTY_ICANON_SIZE - 1 then push_icanon d c else Some d);
         '(d, a) ← canonical_char d c echo;
         match a with
         | None => Some (d, TakenLast)
         | Some (echo, end_of_icanon) =>
             d ← (if (echo : bool) then write_echo_main d c else Some d);
             d ← (if (end_of_icanon : bool) then end_line d c else Some d);
             Some (d, Taken)
         end) = Some (d', snd (edit v c echo)) ∧ typed d v d' (fst (edit v c echo)) (snd (edit v c echo)).
Proof.
  intros Hd [Hl _] Hc Hcan Hi echo. unfold edit, line_room.
  assert (Hpush : ∃ d1, (if icanon_size d <? PTY_ICANON_SIZE - 1 then push_icanon d c else Some d) = Some d1 ∧
    represents d1 (if Z.of_nat (length (line v)) <? PTY_ICANON_SIZE - 1 then with_line v (line v ++ [c]) else v) ∧
    buffer1 d1 = buffer1 d).
  { rewrite (r_size _ _ Hd). destruct (Z.ltb_spec (Z.of_nat (length (line v))) (PTY_ICANON_SIZE - 1)); [|by exists d].
    unfold PTY_ICANON_SIZE in *. apply push_icanon_ok; [done|done|lia]. }
  destruct Hpush as (d1 & -> & Hd1 & E1). cbn [mbind option_bind].
  set (v1 := if _ <? _ then _ else _) in *.
  assert (Hv1 : inp v1 = inp v ∧ v_term v1 = v_term v ∧ v_eof v1 = v_eof v ∧ line v1 ≠ [] ∧
            Z.of_nat (length (line v1)) ≤ PTY_ICANON_SIZE - 1).
  { unfold v1. destruct (Z.ltb_spec (Z.of_nat (length (line v))) (PTY_ICANON_SIZE - 1)) as [Hlt|Hge].
    - cbn. rewrite length_app. cbn. split_and!; [done..|by destruct (line v)|lia].
    - split_and!; [done..| |done]. intros E0. rewrite E0 in Hge. unfold PTY_ICANON_SIZE in Hge. cbn in Hge. lia. }
  destruct Hv1 as (Ei & Et & Ee & Hne & Hl1). clearbody v1.
  assert (Hsig : ∀ d', event (buffer1 d') = event (buffer1 d1) →
    signaled (event (buffer1 d)) = true → signaled (event (buffer1 d')) = true) by (intros d' ->; by rewrite E1).
  assert (Hcont : ∀ e, ∃ d', (d ← (if (e : bool) then write_echo_main d1 c else Some d1);
              d ← end_line d c; Some (d, Taken)) = Some (d', Taken) ∧
              typed d v d' (delivered (echoed v1 c e) c) Taken).
  { intros e. destruct (echo_ok d1 v1 c e Hd1) as (d2 & -> & Hd2 & E2). cbn [mbind option_bind].
    destruct (echoed_fields v1 c e) as (F1 & F2 & F3 & F4).
    destruct (end_line_ok d2 _ c Hd2 Hc) as (d3 & -> & Hd3 & Hs3); [by rewrite F1|by rewrite F1|by rewrite F2, Ei|].
    cbn [mbind option_bind]. exists d3. split; [done|]. apply delivered_typed; [done| |congruence|congruence].
    intros Hs. by apply Hs3, (Hsig d2). }
  assert (Herase : ∀ word, ∃ d', (d ← write_erase_main (set_icanon d1 (icanon_size d1 - 1) (icanon_base d1)) c word;
              Some (d, Some (false, false))) = Some (d', Some (false, false)) ∧
              typed d v d' (erased v1 c word) Taken).
  { intros word. destruct (erased_ok d1 v1 c word Hd1 Hne) as (d2 & -> & Hd2 & E2). cbn [mbind option_bind].
    exists d2. split; [done|]. destruct (erased_fields v1 c word) as (F1 & F2 & F3 & F4).
    pose proof (removelast_shorter (line v1)). split; [done|]. split.
    { split; [lia|]. intros _. by rewrite F1, F2, Ei, Et. }
    split; [by apply Hsig|]. split; [congruence|congruence]. }
  assert (Hone : (icanon_size d1 =? 1) = bool_decide (length (line v1) = 1%nat)).
  { rewrite (r_size _ _ Hd1). destruct (Z.eqb_spec (Z.of_nat (length (line v1))) 1), (bool_decide_reflect (length (line v1) = 1%nat)); lia. }
  unfold canonical_char. rewrite (r_term _ _ Hd1), Et, Hone.
  destruct (c =? 0x0A); [exact (Hcont echo)|].
  destruct (is_cc _ TERMIOS_VEOF c).
  { case_bool_decide as Hlen; [|rewrite decide_False by done; exact (Hcont false)].
    rewrite decide_True by done. cbn [mbind option_bind]. eexists. split; [done|]. cbn [fst snd].
    split; [|split; [by split; [cbn; unfold PTY_ICANON_SIZE; lia|]|]].
    - pose proof (represents_line d1 v1 [] 0 Hd1 eq_refl eq_refl) as []. by split.
    - split; [by rewrite <- E1|]. by split. }
  destruct (is_cc _ TERMIOS_VERASE c).
  { destruct (Herase 0) as (d2 & -> & Ht). by exists d2. }
  destruct (is_cc _ TERMIOS_VKILL c).
  { destruct (Herase (-1)) as (d2 & -> & Ht). by exists d2. }
  destruct (is_cc _ TERMIOS_VWERASE c).
  { destruct (Herase 1) as (d2 & -> & Ht). by exists d2. }
  destruct (is_cc _ TERMIOS_VEOL c); [exact (Hcont echo)|].
  cbn [mbind option_bind]. destruct (echo_ok d1 v1 c echo Hd1) as (d2 & -> & Hd2 & E2). cbn [mbind option_bind].
  exists d2. split; [done|]. destruct (echoed_fields v1 c echo) as (F1 & F2 & F3 & F4). cbn [fst snd].
  split; [done|]. split; [split; [by rewrite F1|by rewrite F2, F3, Ei, Et]|]. split; [by apply Hsig|]. split; congruence.
Qed.

Lemma raw_ok d v c :
  represents d v → view_ok v → is_byte c → flag (c_lflag (v_term v)) TERMIOS_ICANON = false →
  let echo := flag (c_lflag (v_term v)) TERMIOS_ECHO in
  let v1 := echoed v c echo in
  let room := decide (Z.of_nat (length (inp v1)) < PTY_BUFFER_SIZE - 1) in
  ∃ d', (d ← (if echo then write_echo_main d c else Some d);
         '(d, r) ← write_byte_main d c;
         Some (d, if decide (r = DE_SUCCESS) then Taken else Refused r)) =
          Some (d', if room then Taken else Refused DE_RETRY) ∧
        typed d v d' (if room then with_inp v1 (inp v1 ++ [c]) else v1) (if room then Taken else Refused DE_RETRY).
Proof.
  intros Hd [Hl Hi] Hc Hraw echo v1 room.
  destruct (echo_ok d v c echo Hd) as (d1 & -> & Hd1 & E1). cbn [mbind option_bind].
  destruct (write_buffer_1 d1 _ c Hd1) as (d2 & Hw & Hd2 & Hs2). unfold write_byte_main. rewrite Hw.
  cbn [mbind option_bind]. fold v1 in Hd1, Hd2. unfold append in Hd2. rewrite u8_id in Hd2 by done.
  destruct (echoed_fields v c echo) as (F1 & F2 & F3 & F4). fold v1 in F1, F2, F3, F4. rewrite E1 in Hs2.
  assert (Hnil : line v1 = []) by (rewrite F1; destruct (line v); [done|destruct Hi; congruence]).
  assert (Hok : ∀ l, view_ok (with_inp v1 l)).
  { intros l. split; cbn [line with_inp]; rewrite Hnil; [unfold PTY_ICANON_SIZE; cbn; lia|done]. }
  fold v1. fold room. unfold room in *. destruct (decide _) as [Hr|Hr].
  - exists d2. split; [done|]. split; [done|]. split; [apply Hok|]. done.
  - exists d2. split; [done|]. replace (with_inp v1 (inp v1)) with v1 in Hd2 by by destruct v1.
    split; [done|]. split; [|done]. specialize (Hok (inp v1)). by destruct v1.
Qed.

Lemma main_char_ok d v c :
  represents d v → view_ok v → is_byte c →
  ∃ d', main_char d c = Some (d', snd (type_char v c)) ∧
    typed d v d' (fst (type_char v c)) (snd (type_char v c)).
Proof.
  intros Hd Hv Hc. unfold main_char, type_char. rewrite (r_term _ _ Hd).
  destruct (input_char (v_term v) c) as [c'|] eqn:Hin; [|by exists d].
  assert (Hc' : is_byte c').
  { unfold input_char, is_byte in *. repeat case_match; simplify_eq/=; lia. }
  clear c Hin Hc. rename c' into c. set (echo := flag (c_lflag (v_term v)) TERMIOS_ECHO).
  set (sig := if flag _ TERMIOS_ISIG then _ else _). destruct (negb (sig =? 0)).
  { destruct (echo_ok d v c echo Hd) as (d1 & -> & Hd1 & E1). cbn [mbind option_bind].
    eexists. split; [reflexivity|]. destruct (echoed_fields v c echo) as (F1 & F2 & F3 & F4).
    assert (Hsend : represents (if group d1 >? 1 then send d1 (- group d1) sig else d1)
      (if v_group (echoed v c echo) >? 1 then with_signal (echoed v c echo) (- v_group (echoed v c echo), sig)
       else echoed v c echo) ∧
      buffer1 (if group d1 >? 1 then send d1 (- group d1) sig else d1) = buffer1 d1).
    { rewrite (r_group _ _ Hd1). destruct (v_group _ >? 1); [|done]. split; [|done]. destruct Hd1. split; try done.
      cbn. by f_equal. }
    destruct Hsend as [Hd2 E2]. cbn [fst snd].
    split; [by apply represents_line|]. split; [by split; [cbn; unfold PTY_ICANON_SIZE; lia|]|].
    split; [cbn [buffer1 set_icanon]; by rewrite E2, E1|].
    split; [intros _|]; destruct (v_group _ >? 1); done. }
  destruct (flag _ TERMIOS_ICANON) eqn:Hcan; cycle 1.
  { destruct (raw_ok d v c Hd Hv Hc' Hcan) as (d' & Hw & Ht). fold echo in Hw, Ht. exists d'.
    destruct (decide _); done. }
  unfold buffer_state. change (buffer d 1) with (buffer1 d). rewrite (buffer_state_ok _ _ (r_inp _ _ Hd)), Z.gtb_ltb.
  destruct (Z.ltb_spec PTY_ICANON_SIZE (Z.of_nat (length (inp v)))); [by exists d|].
  apply (canonical_ok d v c Hd Hv Hc' Hcan ltac:(lia)).
Qed.

Lemma type_char_answer v c v' a :
  type_char v c = (v', a) → (a = TakenLast → v_eof v' = true) ∧ (∀ r, a = Refused r → r = DE_RETRY).
Proof.
  intros Ht. unfold type_char, edit in Ht. split; [intros ->|intros r ->]; repeat case_match; by simplify_eq/=.
Qed.

Lemma main_chars_ok l d v size :
  represents d v → view_ok v → Forall is_byte l → 0 ≤ size →
  let '(v', size', r) := type_chars v l size in
  ∃ d', main_chars d l size = Some (d', size', r) ∧ represents d' v' ∧ view_ok v' ∧
    (signaled (event (buffer1 d)) = true → signaled (event (buffer1 d')) = true) ∧
    v_term v' = v_term v ∧ size ≤ size' ≤ size + Z.of_nat (length l) ∧
    (v_eof v' = v_eof v ∨ size < size') ∧ (r = DE_SUCCESS → size' = size + Z.of_nat (length l) ∨ v_eof v' = true).
Proof.
  revert d v size. induction l as [|c l IH]; intros d v size Hd Hv Hl Hsize; cbn [type_chars main_chars].
  { exists d. split_and!; (done || lia || auto). left. cbn. lia. }
  apply list.Forall_cons in Hl as [Hc Hl].
  destruct (main_char_ok d v c Hd Hv Hc) as (d1 & -> & Hd1 & Hv1 & Hs1 & He1 & Ht1). cbn [mbind option_bind].
  destruct (type_char v c) as [v1 a] eqn:Htype. cbn [fst snd] in *. destruct a as [| |r].
  - specialize (IH d1 v1 (size + 1) Hd1 Hv1 Hl ltac:(lia)). destruct (type_chars v1 l (size + 1)) as [[v2 size2] r].
    destruct IH as (d2 & -> & Hd2 & Hv2 & Hs2 & Ht2 & Hb2 & _ & Hr2). exists d2.
    split; [done|]. split; [done|]. split; [done|]. split; [auto|]. split; [congruence|].
    split; [cbn [length]; lia|]. split; [right; lia|]. intros Hr. destruct (Hr2 Hr); [left; cbn [length]; lia|by right].
  - exists d1. split; [done|]. split; [done|]. split; [done|]. split; [done|]. split; [done|].
    split; [cbn [length]; lia|]. split; [right; lia|]. intros _. right. by apply (type_char_answer v c v1 TakenLast).
  - exists d1. split; [done|]. split; [done|]. split; [done|]. split; [done|]. split; [done|].
    split; [cbn [length]; lia|]. split; [left; by apply He1|]. intros ->. exfalso.
    by pose proof (proj2 (type_char_answer v c v1 _ Htype) _ eq_refl).
Qed.
