(* ===== verification/PtyOps.v ===== *)
(** The operations of a pseudo terminal refine those on lists, over every history
    of calls: lines that are typed are read, output comes out in order, erasing
    takes one character.  At its end the names under /dev/pts. *)

From S2P Require Import Prelude Errors Event Ring Snprintf Pty PtyView PtyLine.

(** ** The operations *)

(** The invariant between two calls: the arrays represent the view, the line fits,
    and an end of file that is pending wakes its reader. *)
Record pty_ok (d : pty_shared_data) (v : view) : Prop := {
  k_data : represents d v;
  k_view : view_ok v;
  k_eof : v_eof v = true → signaled (event (buffer1 d)) = true }.

Lemma signal_1_ok d v :
  represents d v →
  represents (set_buffer d 1 (signal (buffer d 1))) v ∧
  signaled (event (buffer1 (set_buffer d 1 (signal (buffer d 1))))) = true.
Proof.
  intros Hd. destruct (signal_ok _ _ (r_inp _ _ Hd)) as [Hs Hw]. split; [|exact Hw]. destruct Hd. by split.
Qed.

Lemma signal_0_ok d v :
  represents d v →
  represents (set_buffer d 0 (signal (buffer d 0))) v ∧
  event (buffer1 (set_buffer d 0 (signal (buffer d 0)))) = event (buffer1 d).
Proof. intros Hd. destruct (signal_ok _ _ (r_out _ _ Hd)) as [Hs Hw]. split; [|done]. destruct Hd. by split. Qed.

Lemma send_ok d v pid sig : represents d v → represents (send d pid sig) (with_signal v (pid, sig)).
Proof. intros []. split; try done. cbn. by f_equal. Qed.

(** Reading from the main side. *)
Lemma read_main_loop n d v got requested fuel :
  represents d v → requested = Z.of_nat (length got) + Z.of_nat n → (n < fuel)%nat →
  ∃ d', while fuel (n_read_main_turn requested) (d, got) = Some (d', got ++ take n (out v)) ∧
    represents d' (with_out v (drop n (out v))) ∧ event (buffer1 d') = event (buffer1 d).
Proof.
  revert d v got fuel. induction n as [|n IH]; intros d v got fuel Hd -> Hf;
    (destruct fuel as [|fuel]; [lia|]); cbn [while n_read_main_turn].
  { rewrite (proj2 (Z.ltb_ge _ _)) by lia. exists d. rewrite take_0, app_nil_r, drop_0. split; [done|]. by destruct v. }
  rewrite (proj2 (Z.ltb_lt _ _)) by lia. pose proof (read_buffer_ok d v 0 (out v) Hd ltac:(by left)) as Hread.
  destruct (out v) as [|c o] eqn:Eo.
  - destruct Hread as (d1 & -> & Hd1 & E1). cbn [mbind option_bind]. exists d1. cbn [take drop]. rewrite app_nil_r.
    split; [done|]. split; [|by apply E1]. replace (with_out v []) with v by (destruct v; cbn in *; by subst). done.
  - destruct Hread as (Hc & d1 & -> & Hd1 & E1). cbn [mbind option_bind].
    rewrite (proj2 (Z.ltb_ge _ _)) by (destruct Hc; lia). cbn [Z.eqb] in Hd1.
    destruct (IH d1 _ (got ++ [c]) fuel Hd1) as (d2 & Hw & Hd2 & E2); [rewrite length_app; cbn; lia|lia|].
    exists d2. cbn [take drop]. rewrite <- app_assoc in Hw. split; [exact Hw|]. split; [exact Hd2|by rewrite E2].
Qed.

Lemma n_read_main_ok d v requested :
  pty_ok d v → 0 ≤ requested →
  ∃ d', n_read_main requested d = Some (d', take (Z.to_nat requested) (out v)) ∧
    pty_ok d' (with_out v (drop (Z.to_nat requested) (out v))).
Proof.
  intros [Hd [Hl Hi] He] Hr. unfold n_read_main.
  destruct (read_main_loop (Z.to_nat requested) d v [] requested (S (Z.to_nat requested)) Hd) as (d' & -> & Hd' & E1); [cbn; lia|lia|].
  exists d'. split; [done|]. split; [done|by split|]. by rewrite E1.
Qed.

(** What a reader of the secondary side gets: at most a line; the rest of the
    bytes; and whether the bytes ran out. *)
Fixpoint read_line (icanon : bool) (veof : Z) (n : nat) (l : list Z) : list Z * list Z * bool :=
  match n with
  | O => ([], l, false)
  | S n =>
      match l with
      | [] => ([], [], true)
      | c :: l =>
          if negb (c =? 0) && (c =? veof) && icanon then ([], l, false)
          else if c =? 0x0A then ([c], l, false)
          else let '(g, rest, e) := read_line icanon veof n l in (c :: g, rest, e)
      end
  end.

Definition read_result (v : view) (n : nat) : view * list Z * de_error :=
  let '(g, rest, e) := read_line (flag (c_lflag (v_term v)) TERMIOS_ICANON) (cc (v_term v) TERMIOS_VEOF) n (inp v) in
  (with_eof (with_inp v rest) (if e : bool then false else v_eof v), g,
   if e && v_eof v then DE_EMPTY else DE_SUCCESS).

Lemma set_eof_ok d v e : represents d v → represents (set_eof d e) (with_eof v e).
Proof. intros []. by split. Qed.

Lemma read_secondary_loop icanon veof n d v got requested fuel :
  represents d v → requested = Z.of_nat (length got) + Z.of_nat n → (n < fuel)%nat →
  let '(g, rest, e) := read_line icanon veof n (inp v) in
  ∃ d', while fuel (n_read_secondary_turn icanon veof requested) (d, got) =
          Some (d', got ++ g, if e && v_eof v then DE_EMPTY else DE_SUCCESS) ∧
    represents d' (with_eof (with_inp v rest) (if e : bool then false else v_eof v)) ∧
    (e = false → event (buffer1 d') = event (buffer1 d)).
Proof.
  revert d v got fuel. induction n as [|n IH]; intros d v got fuel Hd -> Hf;
    (destruct fuel as [|fuel]; [lia|]); cbn [while n_read_secondary_turn read_line].
  { rewrite (proj2 (Z.ltb_ge _ _)) by lia. exists d. rewrite app_nil_r. split; [done|]. by destruct v. }
  rewrite (proj2 (Z.ltb_lt _ _)) by lia. pose proof (read_buffer_ok d v 1 (inp v) Hd ltac:(by right)) as Hread.
  destruct (inp v) as [|c l] eqn:Ei.
  - destruct Hread as (d1 & -> & Hd1 & E1). cbn [mbind option_bind]. rewrite (r_eof _ _ Hd1), app_nil_r.
    assert (Hv : with_inp v [] = v) by (destruct v; cbn in *; by subst). rewrite Hv.
    destruct (v_eof v) eqn:Ee; cbn [andb].
    + exists (set_eof d1 false). split; [done|]. split; [by apply set_eof_ok|done].
    + exists d1. split; [done|]. split; [|done]. rewrite <- Ee. by destruct v.
  - destruct Hread as (Hc & d1 & -> & Hd1 & E1). cbn [mbind option_bind].
    rewrite (proj2 (Z.ltb_ge _ _)) by (destruct Hc; lia). change (if 1 =? 0 then _ else _) with (with_inp v l) in Hd1.
    destruct (negb (c =? 0) && (c =? veof) && icanon).
    { exists d1. rewrite app_nil_r. split; [done|]. split; [by destruct v|done]. }
    destruct (c =? 0x0A); [exists d1; split; [done|]; split; [by destruct v|done]|].
    specialize (IH d1 _ (got ++ [c]) fuel Hd1 ltac:(rewrite length_app; cbn; lia) ltac:(lia)).
    cbn [inp with_inp] in IH. destruct (read_line icanon veof n l) as [[g rest] e].
    destruct IH as (d2 & Hw & Hd2 & E2). exists d2. rewrite <- app_assoc in Hw. split; [exact Hw|]. split; [exact Hd2|].
    intros He. rewrite E2 by done. done.
Qed.

Lemma read_line_shorter icanon veof n l :
  let '(g, rest, e) := read_line icanon veof n l in
  (length rest ≤ length l)%nat ∧ (length g ≤ n)%nat ∧ (e = true → rest = [] ∧ g = l).
Proof.
  revert l. induction n as [|n IH]; intros l; cbn [read_line]; [by split; [|split]|].
  destruct l as [|c l]; [by split; [|split; [cbn; lia|]]|]. cbn [length].
  destruct (_ && _ && _); [by split; [lia|split; [cbn; lia|]]|].
  destruct (c =? 0x0A); [by split; [lia|split; [cbn; lia|]]|].
  specialize (IH l). destruct (read_line icanon veof n l) as [[g rest] e]. destruct IH as (H1 & H2 & H3).
  split; [lia|]. split; [cbn [length]; lia|]. intros He. destruct (H3 He) as [-> ->]. done.
Qed.

(** The program is in the background of its terminal. *)
Definition background (v : view) (id_group : Z) : bool := (v_group v >? 0) && negb (v_group v =? id_group).

Lemma n_read_secondary_ok d v id_group requested :
  pty_ok d v → 0 ≤ requested →
  let v0 := if background v id_group && (id_group >? 1) then with_signal v (- id_group, SIGTTIN) else v in
  let '(v', g, r) := read_result v0 (if background v id_group then 0%nat else Z.to_nat requested) in
  ∃ d', n_read_secondary id_group requested d = Some (d', g, r) ∧ pty_ok d' v'.
Proof.
  intros [Hd [Hl Hi] He] Hreq v0. unfold n_read_secondary. rewrite (r_group _ _ Hd). fold (background v id_group).
  set (bg := background v id_group) in *.
  set (d0 := if bg && (id_group >? 1) then _ else d).
  assert (H0 : represents d0 v0 ∧ buffer1 d0 = buffer1 d ∧ line v0 = line v ∧ inp v0 = inp v ∧
             v_term v0 = v_term v ∧ v_eof v0 = v_eof v).
  { unfold d0, v0. destruct (bg && _); [|done]. split; [by apply send_ok|done]. }
  destruct H0 as (Hd0 & E0 & F1 & F2 & F3 & F4). clearbody d0 v0.
  replace (if bg then 0 else requested) with (Z.of_nat (if bg then 0%nat else Z.to_nat requested)) by (destruct bg; lia).
  set (n := if bg then 0%nat else _). unfold read_result. rewrite (r_term _ _ Hd0), Nat2Z.id.
  pose proof (read_secondary_loop (flag (c_lflag (v_term v0)) TERMIOS_ICANON) (cc (v_term v0) TERMIOS_VEOF) n d0 v0 []
    (Z.of_nat n) (S n) Hd0 eq_refl (Nat.lt_succ_diag_r _)) as Hloop.
  pose proof (read_line_shorter (flag (c_lflag (v_term v0)) TERMIOS_ICANON) (cc (v_term v0) TERMIOS_VEOF) n (inp v0)) as Hsh.
  destruct (read_line _ _ _ _) as [[g rest] e]. destruct Hloop as (d1 & Hw & Hd1 & E1). destruct Hsh as (Hs & _ & _).
  exists d1. split; [exact Hw|]. split; [done| |].
  - split; cbn [line with_eof with_inp inp v_term]; rewrite ?F1, ?F3; [done|]. intros Hne. destruct (Hi Hne). rewrite F2 in Hs. split; [done|lia].
  - destruct e; [done|]. cbn [v_eof with_eof]. rewrite F4, E1, E0 by done. done.
Qed.

(** Output processing: a newline becomes a carriage return and a newline. *)
Definition post (t : termios) (c : Z) : list Z :=
  if flag (c_oflag t) TERMIOS_OPOST && flag (c_oflag t) TERMIOS_ONLCR && (c =? 0x0A) then [0x0D; 0x0A] else [c].

(** Text is taken byte by byte while what it becomes fits. *)
Fixpoint write_text (t : termios) (o l : list Z) (size : Z) : list Z * Z * de_error :=
  match l with
  | [] => (o, size, DE_SUCCESS)
  | c :: l =>
      if Z.of_nat (length o + length (post t c)) <=? PTY_BUFFER_SIZE - 1
      then write_text t (o ++ post t c) l (size + 1) else (o, size, DE_RETRY)
  end.

Lemma write_byte_secondary_ok d v c :
  represents d v → is_byte c →
  let fits := Z.of_nat (length (out v) + length (post (v_term v) c)) <=? PTY_BUFFER_SIZE - 1 in
  ∃ d', write_byte_secondary d c = Some (d', if fits then DE_SUCCESS else DE_RETRY) ∧
    represents d' (if fits then with_out v (out v ++ post (v_term v) c) else v) ∧ event (buffer1 d') = event (buffer1 d).
Proof.
  intros Hd Hc. unfold write_byte_secondary, post. rewrite (r_term _ _ Hd).
  assert (Hone : ∃ d', write_buffer d 0 c = Some (d', if Z.of_nat (length (out v) + 1) <=? PTY_BUFFER_SIZE - 1
       then DE_SUCCESS else DE_RETRY) ∧
    represents d' (if Z.of_nat (length (out v) + 1) <=? PTY_BUFFER_SIZE - 1 then with_out v (out v ++ [c]) else v) ∧
    event (buffer1 d') = event (buffer1 d)).
  { destruct (write_buffer_0 d v c Hd) as (d' & -> & Hd' & E'). exists d'. unfold append in Hd'. rewrite u8_id in Hd' by done.
    destruct (Z.leb_spec (Z.of_nat (length (out v) + 1)) (PTY_BUFFER_SIZE - 1)).
    - rewrite decide_True by lia. rewrite decide_True in Hd' by lia. done.
    - rewrite decide_False by lia. rewrite decide_False in Hd' by lia. split; [done|]. split; [by destruct v|done]. }
  destruct (flag _ TERMIOS_OPOST); cbn [negb andb]; [|exact Hone].
  rewrite (andb_comm (flag _ TERMIOS_ONLCR)). destruct ((c =? 0x0A) && _); [|exact Hone].
  unfold buffer_state. change (buffer d 0) with (buffer0 d). rewrite (buffer_state_ok _ _ (r_out _ _ Hd)), Z.geb_leb.
  cbn [length]. destruct (Z.leb_spec (PTY_BUFFER_SIZE - 2) (Z.of_nat (length (out v)))).
  { rewrite (proj2 (Z.leb_gt (Z.of_nat (length (out v) + 2)) (PTY_BUFFER_SIZE - 1))) by lia. by exists d. }
  rewrite (proj2 (Z.leb_le (Z.of_nat (length (out v) + 2)) (PTY_BUFFER_SIZE - 1))) by lia.
  destruct (write_bytes_0 [0x0D; 0x0A] d v Hd) as (d' & -> & Hd' & E'). cbn [mbind option_bind]. exists d'.
  split; [done|]. split; [|done]. unfold append_all, append in Hd'. cbn [foldl] in Hd'.
  rewrite (decide_True (P := Z.of_nat (length (out v)) < PTY_BUFFER_SIZE - 1)) in Hd' by lia. rewrite decide_True in Hd' by (rewrite length_app; cbn; lia).
  by rewrite <- app_assoc in Hd'.
Qed.

Lemma secondary_chars_ok l d v size :
  represents d v → Forall is_byte l →
  let '(o, size', r) := write_text (v_term v) (out v) l size in
  ∃ d', secondary_chars d l size = Some (d', size', r) ∧ represents d' (with_out v o) ∧
    event (buffer1 d') = event (buffer1 d).
Proof.
  revert d v size. induction l as [|c l IH]; intros d v size Hd Hl; cbn [write_text secondary_chars].
  { exists d. split; [done|]. split; [by destruct v|done]. }
  apply list.Forall_cons in Hl as [Hc Hl]. destruct (write_byte_secondary_ok d v c Hd Hc) as (d1 & -> & Hd1 & E1).
  cbn [mbind option_bind]. destruct (Z.of_nat _ <=? _).
  - rewrite decide_False by (intros Hn; by apply Hn). specialize (IH d1 _ (size + 1) Hd1 Hl). cbn [out with_out v_term] in IH.
    destruct (write_text _ _ _ _) as [[o size'] r]. destruct IH as (d2 & -> & Hd2 & E2). exists d2.
    split; [done|]. split; [exact Hd2|by rewrite E2].
  - rewrite decide_True by done. exists d1. split; [done|]. split; [by destruct v|done].
Qed.

(** The program in the background that must not write. *)
Definition stopped (v : view) (id_group : Z) : bool :=
  (v_group v >? 0) && flag (c_lflag (v_term v)) TERMIOS_TOSTOP && negb (v_group v =? id_group) && (id_group >? 1).

Lemma n_write_secondary_ok d v id_group bytes :
  pty_ok d v → Forall is_byte bytes →
  let v0 := if stopped v id_group then with_signal v (- id_group, SIGTTOU) else v in
  let '(o, size, r) := write_text (v_term v) (out v) (if stopped v id_group then [] else bytes) 0 in
  ∃ d', n_write_secondary id_group d bytes = Some (d', size, r) ∧ pty_ok d' (with_out v0 o).
Proof.
  intros [Hd [Hl Hi] He] Hb v0. unfold n_write_secondary. rewrite (r_group _ _ Hd), (r_term _ _ Hd).
  fold (stopped v id_group). set (st := stopped v id_group) in *. set (d0 := if st then send _ _ _ else d).
  assert (H0 : represents d0 v0 ∧ event (buffer1 d0) = event (buffer1 d) ∧ line v0 = line v ∧ inp v0 = inp v ∧
             v_term v0 = v_term v ∧ v_eof v0 = v_eof v ∧ out v0 = out v).
  { unfold d0, v0. destruct st; [|done]. split; [by apply send_ok|done]. }
  destruct H0 as (Hd0 & E0 & F1 & F2 & F3 & F4 & F5). clearbody d0 v0.
  pose proof (secondary_chars_ok (if st then [] else bytes) d0 v0 0 Hd0 ltac:(by destruct st)) as Hw. rewrite F3, F5 in Hw.
  destruct (write_text _ _ _ _) as [[o size] r]. destruct Hw as (d1 & -> & Hd1 & E1). cbn [mbind option_bind].
  assert (Hv : view_ok (with_out v0 o)).
  { split; cbn [line inp v_term with_out]; rewrite F1, ?F2, ?F3; done. }
  destruct (negb (size =? 0)).
  - destruct (signal_0_ok _ _ Hd1) as [Hd2 E2]. eexists. split; [done|]. split; [done|done|].
    cbn [v_eof with_out]. by rewrite F4, E2, E1, E0.
  - exists d1. split; [done|]. split; [done|done|]. cbn [v_eof with_out]. by rewrite F4, E1, E0.
Qed.

(** Bytes that are typed. *)
Lemma n_write_main_ok d v bytes :
  pty_ok d v → Forall is_byte bytes →
  let '(v', size, r) := type_chars v bytes 0 in
  ∃ d', n_write_main d bytes = Some (d', size, r) ∧ pty_ok d' v' ∧ 0 ≤ size ≤ Z.of_nat (length bytes) ∧
    (0 < size → signaled (event (buffer1 d')) = true) ∧
    (r = DE_SUCCESS → size = Z.of_nat (length bytes) ∨ v_eof v' = true).
Proof.
  intros [Hd Hv He] Hb. unfold n_write_main. pose proof (main_chars_ok bytes d v 0 Hd Hv Hb ltac:(lia)) as Hm.
  destruct (type_chars v bytes 0) as [[v' size] r]. destruct Hm as (d1 & -> & Hd1 & Hv1 & Hs1 & _ & Hb1 & He1 & Hr1).
  cbn [mbind option_bind]. destruct (Z.eqb_spec size 0) as [->|Hne]; cbn [negb].
  - exists d1. split; [done|]. split; [split; [done|done|]|split; [lia|split; [lia|exact Hr1]]].
    destruct He1 as [->|]; [|lia]. auto.
  - destruct (signal_1_ok _ _ Hd1) as [Hd2 E2]. eexists. split; [done|].
    split; [by split|split; [lia|split; [done|exact Hr1]]].
Qed.

(** New settings: the line is delivered when the canonical mode ends. *)
Definition with_term (v : view) (t : termios) : view :=
  View (out v) (inp v) (line v) (v_eof v) (v_group v) t (v_win v) (v_signals v).

Definition settings (v : view) (t : termios) : view :=
  with_term (if flag (c_lflag t) TERMIOS_ICANON then v else with_line (with_inp v (inp v ++ line v)) []) t.

Lemma set_termios_ok d v t :
  pty_ok d v → ∃ d', set_termios d t = Some d' ∧ pty_ok d' (settings v t).
Proof.
  intros [Hd [Hl Hi] He]. unfold set_termios, settings.
  destruct (flag (c_lflag t) TERMIOS_ICANON) eqn:Ht; cbn [mbind option_bind].
  - eexists. split; [done|]. split; [destruct Hd; by split|split; cbn; [done|]|done]. intros Hn. split; [done|by apply Hi].
  - destruct (flush_line_ok d v Hd) as (d1 & -> & Hd1 & Hs1).
    { destruct (line v) as [|c l] eqn:El; [pose proof (waiting_bound _ _ (r_inp _ _ Hd)); cbn; lia|].
      destruct Hi as [_ Hi]; [done|]. unfold PTY_ICANON_SIZE, PTY_BUFFER_SIZE in *. lia. }
    cbn [mbind option_bind]. eexists. split; [done|]. split; [destruct Hd1; by split| |by auto].
    split; cbn; [unfold PTY_ICANON_SIZE; lia|done].
Qed.

(** ** A new pseudo terminal *)

Definition new_view (t : option termios) (w : winsize) : view :=
  View [] [] [] false 0 (default set_default_termios t) w [].

Lemma new_ring_ok : buffer_ok new_ring [].
Proof.
  split; [split| | |done].
  - by vm_compute.
  - cbn [start new_ring]. unfold PTY_BUFFER_SIZE. lia.
  - cbn [end_ new_ring]. unfold PTY_BUFFER_SIZE. lia.
  - apply Forall_replicate. unfold is_byte. lia.
  - reflexivity.
  - reflexivity.
Qed.

Lemma new_pty_ok t w : pty_ok (new_pty t w) (new_view t w).
Proof.
  split; [|by split; [cbn; unfold PTY_ICANON_SIZE; lia|]|done].
  split; try done; try apply new_ring_ok. cbn [icanon_base new_pty].
  apply Forall_replicate. unfold is_byte. lia.
Qed.

(** ** Histories *)

Inductive request :=
| WriteMain (bytes : list Z)
| ReadMain (requested : Z)
| WriteSecondary (id_group : Z) (bytes : list Z)
| ReadSecondary (id_group requested : Z)
| Ioctl (tasks : list (Z * Z)) (session request : Z) (arg : ioctl_arg).

(** The pointer of a request leads to the object that the request is about. *)
Definition arg_ok (request : Z) (arg : ioctl_arg) : bool :=
  let among l := existsb (Z.eqb request) l in
  match arg with
  | ArgTermios _ => negb (among [IOCTL_TIOCGWINSZ; IOCTL_TIOCSWINSZ; IOCTL_TIOCGPGRP; IOCTL_TIOCSPGRP])
  | ArgWinsize _ =>
      negb (among [IOCTL_TCGETS; IOCTL_TCSETS; IOCTL_TCSETSW; IOCTL_TCSETSF; IOCTL_TIOCGPGRP; IOCTL_TIOCSPGRP])
  | ArgGroup _ =>
      negb (among [IOCTL_TCGETS; IOCTL_TCSETS; IOCTL_TCSETSW; IOCTL_TCSETSF; IOCTL_TIOCGWINSZ; IOCTL_TIOCSWINSZ])
  end.

Definition request_ok (q : request) : Prop :=
  match q with
  | WriteMain bytes | WriteSecondary _ bytes => Forall is_byte bytes
  | ReadMain requested | ReadSecondary _ requested => 0 ≤ requested
  | Ioctl _ _ request arg => arg_ok request arg = true
  end.

(** The bytes read, the number of bytes written and the error code, or the object of
    the request and the error code. *)
Definition answer : Type := (list Z * Z + ioctl_arg) * de_error.

Definition perform (d : pty_shared_data) (q : request) : option (pty_shared_data * answer) :=
  match q with
  | WriteMain bytes => '(d, size, r) ← n_write_main d bytes; Some (d, (inl ([], size), r))
  | ReadMain n => '(d, got) ← n_read_main n d; Some (d, (inl (got, 0), DE_SUCCESS))
  | WriteSecondary g bytes => '(d, size, r) ← n_write_secondary g d bytes; Some (d, (inl ([], size), r))
  | ReadSecondary g n => '(d, got, r) ← n_read_secondary g n d; Some (d, (inl (got, 0), r))
  | Ioctl tasks session request arg =>
      '(d, arg, r) ← n_ioctl tasks session d request arg; Some (d, (inr arg, r))
  end.

Definition with_group (v : view) (g : Z) : view :=
  View (out v) (inp v) (line v) (v_eof v) g (v_term v) (v_win v) (v_signals v).
Definition with_win (v : view) (w : winsize) : view :=
  View (out v) (inp v) (line v) (v_eof v) (v_group v) (v_term v) w (v_signals v).

(** The three requests for settings are one; a program may make a group of its own
    session the one in the foreground; without one the answer is the largest number. *)
Definition ioctl_view (tasks : list (Z * Z)) (session : Z) (v : view) (request : Z) (arg : ioctl_arg)
  : view * ioctl_arg * de_error :=
  match arg with
  | ArgTermios t =>
      if request =? IOCTL_TCGETS then (v, ArgTermios (v_term v), DE_SUCCESS)
      else if existsb (Z.eqb request) [IOCTL_TCSETS; IOCTL_TCSETSW; IOCTL_TCSETSF] then (settings v t, arg, DE_SUCCESS)
      else (v, arg, DE_UNSUPPORTED)
  | ArgWinsize w =>
      if request =? IOCTL_TIOCGWINSZ then (v, ArgWinsize (v_win v), DE_SUCCESS)
      else if request =? IOCTL_TIOCSWINSZ then (with_win v w, arg, DE_SUCCESS)
      else (v, arg, DE_UNSUPPORTED)
  | ArgGroup g =>
      if request =? IOCTL_TIOCGPGRP then (v, ArgGroup (if v_group v <=? 0 then 2 ^ 63 - 1 else v_group v), DE_SUCCESS)
      else if request =? IOCTL_TIOCSPGRP then
        if decide ((g, session) ∈ tasks) then (with_group v g, arg, DE_SUCCESS) else (v, arg, DE_ACCESS)
      else (v, arg, DE_UNSUPPORTED)
  end.

(** The terminal as lists. *)
Definition perform_view (v : view) (q : request) : view * answer :=
  match q with
  | WriteMain bytes => let '(v, size, r) := type_chars v bytes 0 in (v, (inl ([], size), r))
  | ReadMain n => (with_out v (drop (Z.to_nat n) (out v)), (inl (take (Z.to_nat n) (out v), 0), DE_SUCCESS))
  | WriteSecondary g bytes =>
      let '(o, size, r) := write_text (v_term v) (out v) (if stopped v g then [] else bytes) 0 in
      (with_out (if stopped v g then with_signal v (- g, SIGTTOU) else v) o, (inl ([], size), r))
  | ReadSecondary g n =>
      let '(v, got, r) := read_result (if background v g && (g >? 1) then with_signal v (- g, SIGTTIN) else v)
                            (if background v g then 0%nat else Z.to_nat n) in
      (v, (inl (got, 0), r))
  | Ioctl tasks session request arg => let '(v, arg, r) := ioctl_view tasks session v request arg in (v, (inr arg, r))
  end.

Fixpoint history (d : pty_shared_data) (l : list request) : option (pty_shared_data * list answer) :=
  match l with
  | [] => Some (d, [])
  | q :: l => '(d, a) ← perform d q; '(d, al) ← history d l; Some (d, a :: al)
  end.

Fixpoint history_view (v : view) (l : list request) : view * list answer :=
  match l with
  | [] => (v, [])
  | q :: l => let '(v, a) := perform_view v q in let '(v, al) := history_view v l in (v, a :: al)
  end.

Lemma set_group_ok tasks session d v g :
  pty_ok d v →
  let '(d', r) := set_group tasks session d g in
  (if decide ((g, session) ∈ tasks) then r = DE_SUCCESS ∧ pty_ok d' (with_group v g) else r = DE_ACCESS ∧ d' = d).
Proof.
  intros [Hd [Hl Hi] He]. unfold set_group.
  assert (Hex : existsb (λ x, (fst x =? g) && (snd x =? session)) tasks = bool_decide ((g, session) ∈ tasks)).
  { apply eq_true_iff_eq. rewrite existsb_exists, bool_decide_eq_true. split.
    - intros ([a b] & Hx & Hab). apply andb_true_iff in Hab as [Ha%Z.eqb_eq Hb%Z.eqb_eq]. cbn in *. subst.
      by apply list_elem_of_In.
    - intros Hx. exists (g, session). split; [by apply list_elem_of_In|]. by rewrite !Z.eqb_refl. }
  rewrite Hex. case_bool_decide as Hg; [rewrite decide_True by done|by rewrite decide_False by done].
  split; [done|]. split; [destruct Hd; by split|by split|done].
Qed.

Lemma n_ioctl_ok tasks session d v request arg :
  pty_ok d v → arg_ok request arg = true →
  let '(v', arg', r) := ioctl_view tasks session v request arg in
  ∃ d', n_ioctl tasks session d request arg = Some (d', arg', r) ∧ pty_ok d' v'.
Proof.
  intros Hk Harg. unfold n_ioctl, ioctl_view, arg_ok in *. destruct arg as [t|w|g]; cbn [existsb] in *;
    rewrite ?negb_true_iff, ?orb_false_iff in Harg; destruct_and?.
  - destruct (request =? IOCTL_TCGETS); [exists d; by rewrite (r_term _ _ (k_data _ _ Hk))|].
    destruct (set_termios_ok d v t Hk) as (d' & Hset & Hk').
    destruct (request =? IOCTL_TCSETSW); [change (IOCTL_TCSETS =? IOCTL_TCSETSF) with false|];
      [|destruct (request =? IOCTL_TCSETSF)]; cbn [orb]; rewrite ?orb_true_r, ?Z.eqb_refl, ?Hset; try by exists d'.
    destruct (request =? IOCTL_TCSETS); [by exists d'|]. cbn [orb].
    replace (request =? IOCTL_TIOCGWINSZ) with false. replace (request =? IOCTL_TIOCSWINSZ) with false.
    replace (request =? IOCTL_TIOCGPGRP) with false. replace (request =? IOCTL_TIOCSPGRP) with false. by exists d.
  - replace (request =? IOCTL_TCGETS) with false. replace (request =? IOCTL_TCSETSW) with false.
    replace (request =? IOCTL_TCSETSF) with false. replace (request =? IOCTL_TCSETS) with false.
    destruct (request =? IOCTL_TIOCGWINSZ); [exists d; by rewrite (r_win _ _ (k_data _ _ Hk))|].
    destruct (request =? IOCTL_TIOCSWINSZ).
    { exists (set_winsize d w). split; [done|]. destruct Hk as [Hd [Hl Hi] He].
      split; [destruct Hd; by split|by split|done]. }
    replace (request =? IOCTL_TIOCGPGRP) with false. replace (request =? IOCTL_TIOCSPGRP) with false. by exists d.
  - replace (request =? IOCTL_TCGETS) with false. replace (request =? IOCTL_TCSETSW) with false.
    replace (request =? IOCTL_TCSETSF) with false. replace (request =? IOCTL_TCSETS) with false.
    replace (request =? IOCTL_TIOCGWINSZ) with false. replace (request =? IOCTL_TIOCSWINSZ) with false.
    destruct (request =? IOCTL_TIOCGPGRP).
    { exists d. unfold get_group. by rewrite (r_group _ _ (k_data _ _ Hk)). }
    destruct (request =? IOCTL_TIOCSPGRP); [|by exists d].
    pose proof (set_group_ok tasks session d v g Hk) as Hset. destruct (set_group tasks session d g) as [d' r].
    destruct (decide _); destruct Hset as [-> Hk']; [by exists d'|subst; by exists d].
Qed.

Lemma perform_ok d v q :
  pty_ok d v → request_ok q →
  ∃ d', perform d q = Some (d', snd (perform_view v q)) ∧ pty_ok d' (fst (perform_view v q)).
Proof.
  intros Hk Hq. destruct q as [bytes|n|g bytes|g n|tasks session request arg]; cbn [perform perform_view request_ok] in *.
  - pose proof (n_write_main_ok d v bytes Hk Hq) as Hw. destruct (type_chars v bytes 0) as [[v' size] r].
    destruct Hw as (d' & -> & Hk' & _). by exists d'.
  - destruct (n_read_main_ok d v n Hk Hq) as (d' & -> & Hk'). by exists d'.
  - pose proof (n_write_secondary_ok d v g bytes Hk Hq) as Hw. cbv zeta in Hw.
    destruct (write_text _ _ _ _) as [[o size] r]. destruct Hw as (d' & -> & Hk'). by exists d'.
  - pose proof (n_read_secondary_ok d v g n Hk Hq) as Hw. cbv zeta in Hw.
    destruct (read_result _ _) as [[v' got] r]. destruct Hw as (d' & -> & Hk'). by exists d'.
  - pose proof (n_ioctl_ok tasks session d v request arg Hk Hq) as Hw.
    destruct (ioctl_view _ _ _ _ _) as [[v' arg'] r]. destruct Hw as (d' & -> & Hk'). by exists d'.
Qed.

Lemma history_ok l d v :
  pty_ok d v → Forall request_ok l →
  ∃ d', history d l = Some (d', snd (history_view v l)) ∧ pty_ok d' (fst (history_view v l)).
Proof.
  revert d v. induction l as [|q l IH]; intros d v Hk Hl; [by exists d|].
  apply list.Forall_cons in Hl as [Hq Hl]. cbn [history history_view].
  destruct (perform_ok d v q Hk Hq) as (d1 & -> & Hk1). cbn [mbind option_bind].
  destruct (perform_view v q) as [v1 a]. destruct (IH d1 v1 Hk1 Hl) as (d2 & -> & Hk2). cbn [mbind option_bind].
  exists d2. by destruct (history_view v1 l) as [v2 al].
Qed.

(** ** Lines *)

(** A byte without a meaning of its own. *)
Definition ordinary (t : termios) (c : Z) : bool :=
  negb (c =? 0x0A) && negb (c =? 0x0D) &&
  forallb (λ i, negb (is_cc t i c))
    [TERMIOS_VINTR; TERMIOS_VQUIT; TERMIOS_VERASE; TERMIOS_VKILL; TERMIOS_VEOF; TERMIOS_VEOL; TERMIOS_VWERASE].

(** A newline ends a line. *)
Definition newline_ends (t : termios) : bool :=
  negb (flag (c_iflag t) TERMIOS_INLCR) &&
  forallb (λ i, negb (is_cc t i 0x0A)) [TERMIOS_VINTR; TERMIOS_VQUIT; TERMIOS_VEOF].

Lemma ordinary_spec t c :
  ordinary t c = true →
  input_char t c = Some c ∧ signal_of t c = 0 ∧ (c =? 0x0A) = false ∧ is_cc t TERMIOS_VERASE c = false ∧
  is_cc t TERMIOS_VKILL c = false ∧ is_cc t TERMIOS_VEOF c = false ∧ is_cc t TERMIOS_VEOL c = false ∧
  is_cc t TERMIOS_VWERASE c = false.
Proof.
  unfold ordinary, input_char, signal_of. cbn [forallb]. rewrite !andb_true_iff, !negb_true_iff.
  intros [[-> ->] (H1 & H2 & H3 & H4 & H5 & H6 & H7 & _)]. by rewrite H1, H2, H3, H4, H5, H6, H7.
Qed.

Lemma newline_spec t :
  newline_ends t = true →
  input_char t 0x0A = Some 0x0A ∧ signal_of t 0x0A = 0 ∧ is_cc t TERMIOS_VEOF 0x0A = false.
Proof.
  unfold newline_ends, input_char, signal_of. cbn [forallb]. rewrite !andb_true_iff, !negb_true_iff.
  intros [H0 (H1 & H2 & H3 & _)]. cbn [Z.eqb Pos.eqb]. by rewrite H0, H1, H2, H3.
Qed.

Lemma type_ordinary v c :
  flag (c_lflag (v_term v)) TERMIOS_ICANON = true → ordinary (v_term v) c = true →
  Z.of_nat (length (inp v)) ≤ PTY_ICANON_SIZE → Z.of_nat (length (line v)) < PTY_ICANON_SIZE - 1 →
  type_char v c = (echoed (with_line v (line v ++ [c])) c (flag (c_lflag (v_term v)) TERMIOS_ECHO), Taken).
Proof.
  intros Hcan Ho Hi Hl. destruct (ordinary_spec _ _ Ho) as (H1 & H2 & H3 & H4 & H5 & H6 & H7 & H8).
  unfold type_char. rewrite H1, H2, Hcan, !Z.gtb_ltb, (proj2 (Z.ltb_ge _ _) Hi).
  assert (Hsig : (if flag (c_lflag (v_term v)) TERMIOS_ISIG then 0 else 0) = 0) by (by destruct (flag _ TERMIOS_ISIG)).
  rewrite Hsig. cbn [Z.eqb negb].
  unfold edit, line_room. by rewrite (proj2 (Z.ltb_lt _ _) Hl), H3, H6, H4, H5, H8, H7.
Qed.

Lemma type_newline v :
  flag (c_lflag (v_term v)) TERMIOS_ICANON = true → newline_ends (v_term v) = true →
  Z.of_nat (length (inp v)) ≤ PTY_ICANON_SIZE → Forall (λ c, ordinary (v_term v) c = true) (line v) →
  ∃ v', type_char v 0x0A = (v', Taken) ∧ inp v' = inp v ++ line v ++ [0x0A] ∧ line v' = [] ∧
    v_term v' = v_term v ∧ v_group v' = v_group v ∧ v_eof v' = v_eof v.
Proof.
  intros Hcan Hn Hi Hl. destruct (newline_spec _ Hn) as (H1 & H2 & H3).
  unfold type_char. rewrite H1, H2, Hcan, !Z.gtb_ltb, (proj2 (Z.ltb_ge _ _) Hi).
  assert (Hsig : (if flag (c_lflag (v_term v)) TERMIOS_ISIG then 0 else 0) = 0) by (by destruct (flag _ TERMIOS_ISIG)).
  rewrite Hsig. cbn [Z.eqb negb].
  unfold edit. eexists. split; [done|]. set (v1 := if line_room v then _ else v).
  destruct (echoed_fields v1 0x0A (flag (c_lflag (v_term v)) TERMIOS_ECHO)) as (F1 & F2 & F3 & F4).
  cbn [inp line v_term v_group v_eof delivered with_line with_inp]. rewrite F1, F2, F3, F4.
  assert (Hg : v_group (echoed v1 0x0A (flag (c_lflag (v_term v)) TERMIOS_ECHO)) = v_group v1) by (by destruct (flag _ TERMIOS_ECHO)).
  rewrite Hg. unfold v1. destruct (line_room v); cbn [inp line v_term v_group v_eof with_line].
  - by rewrite last_snoc, decide_True.
  - rewrite decide_False; [done|]. intros Hlast. destruct (exists_last (l := line v)) as (l & b & El).
    { intros E0. by rewrite E0 in Hlast. }
    rewrite El, last_snoc in Hlast. injection Hlast as ->. rewrite El in Hl.
    apply Forall_app in Hl as [_ Hl]. apply list.Forall_cons in Hl as [Ho _].
    by destruct (ordinary_spec _ _ Ho) as (_ & _ & ? & _).
Qed.

Lemma type_line l v rest size :
  flag (c_lflag (v_term v)) TERMIOS_ICANON = true → Forall (λ c, ordinary (v_term v) c = true) l →
  Z.of_nat (length (inp v)) ≤ PTY_ICANON_SIZE →
  Z.of_nat (length (line v)) + Z.of_nat (length l) ≤ PTY_ICANON_SIZE - 1 →
  ∃ v', type_chars v (l ++ rest) size = type_chars v' rest (size + Z.of_nat (length l)) ∧
    line v' = line v ++ l ∧ inp v' = inp v ∧ v_term v' = v_term v ∧ v_group v' = v_group v ∧ v_eof v' = v_eof v.
Proof.
  revert v size. induction l as [|c l IH]; intros v size Hcan Ho Hi Hl.
  { exists v. cbn [app length]. by rewrite app_nil_r, Z.add_0_r. }
  apply list.Forall_cons in Ho as [Hc Ho]. cbn [app type_chars length] in *.
  rewrite (type_ordinary v c Hcan Hc Hi) by lia.
  set (e := flag (c_lflag (v_term v)) TERMIOS_ECHO). set (v0 := with_line v (line v ++ [c])).
  destruct (echoed_fields v0 c e) as (F1 & F2 & F3 & F4).
  assert (F5 : v_group (echoed v0 c e) = v_group v) by (by destruct e).
  change (inp v0) with (inp v) in F2. change (v_term v0) with (v_term v) in F3. change (line v0) with (line v ++ [c]) in F1.
  destruct (IH (echoed v0 c e) (size + 1)) as (v' & -> & G1 & G2 & G3 & G4 & G5).
  - by rewrite F3.
  - by rewrite F3.
  - by rewrite F2.
  - rewrite F1, length_app. cbn [length]. lia.
  - exists v'. split; [f_equal; lia|]. rewrite G1, G2, G3, G4, G5, F1, F2, F3, F4, F5, <- app_assoc. done.
Qed.

Lemma read_whole_line t l rest n :
  Forall (λ c, ordinary t c = true) l → newline_ends t = true → (length l < n)%nat →
  read_line true (cc t TERMIOS_VEOF) n (l ++ 0x0A :: rest) = (l ++ [0x0A], rest, false).
Proof.
  intros Hl Hn. destruct (newline_spec t Hn) as (_ & _ & Hveof). unfold is_cc in Hveof.
  revert n. induction Hl as [|c l Hc Hl IH]; intros n Hlen; (destruct n as [|n]; [cbn in Hlen; lia|]); cbn [read_line app].
  - by rewrite andb_true_r, Hveof.
  - destruct (ordinary_spec _ _ Hc) as (_ & _ & -> & _ & _ & Hv & _). unfold is_cc in Hv. rewrite andb_true_r, Hv.
    by rewrite IH by (cbn in Hlen; lia).
Qed.

(** One character is the last of a line. *)
Lemma last_char_eq tl b r :
  Forall (λ x, cont x = true) tl → cont b = false → last_char (tl ++ b :: r) = (r, b).
Proof.
  intros Htl Hb. induction Htl as [|x tl Hx Htl IH]; cbn [app].
  - destruct r; [done|]. cbn [last_char]. by rewrite Hb.
  - destruct (tl ++ b :: r) as [|y l] eqn:El; [by destruct tl|]. change (last_char (x :: y :: l)) with (if cont x then last_char (y :: l) else (y :: l, x)).
    by rewrite Hx.
Qed.

Lemma erase_line_one t c l b tl :
  Forall (λ x, cont x = true) tl → cont b = false → fst (erase_line t c 0 (l ++ b :: tl)) = l.
Proof.
  intros Htl Hb. unfold erase_line.
  replace (reverse (l ++ b :: tl)) with (reverse tl ++ b :: reverse l) by by rewrite reverse_app, reverse_cons, <- app_assoc.
  destruct (length (l ++ b :: tl)) as [|n] eqn:En; [rewrite length_app in En; cbn in En; lia|].
  pose proof (last_char_eq (reverse tl) b (reverse l) ltac:(by apply Forall_reverse) Hb) as Hlast.
  cbn [erase]. destruct (reverse tl ++ b :: reverse l) as [|x r] eqn:Er; [by destruct (reverse tl)|].
  rewrite Hlast. cbn [Z.eqb orb fst]. apply reverse_involutive.
Qed.

(** The byte erases a character when it is typed in canonical mode. *)
Definition erases (t : termios) (c : Z) : bool :=
  is_cc t TERMIOS_VERASE c && negb (c =? 0x0A) && negb (c =? 0x0D) &&
  forallb (λ i, negb (is_cc t i c)) [TERMIOS_VINTR; TERMIOS_VQUIT; TERMIOS_VEOF].

Lemma type_erase d v c :
  pty_ok d v → is_byte c → flag (c_lflag (v_term v)) TERMIOS_ICANON = true → erases (v_term v) c = true →
  Z.of_nat (length (inp v)) ≤ PTY_ICANON_SIZE →
  let v' := erased (if line_room v then with_line v (line v ++ [c]) else v) c 0 in
  ∃ d', n_write_main d [c] = Some (d', 1, DE_SUCCESS) ∧ pty_ok d' v'.
Proof.
  intros Hk Hc Hcan He Hi v'.
  assert (Ht : type_chars v [c] 0 = (v', 1, DE_SUCCESS)).
  { unfold erases in He. cbn [forallb] in He. rewrite !andb_true_iff, !negb_true_iff in He.
    destruct He as [[[H1 H2] H3] (H4 & H5 & H6 & _)]. cbn [type_chars]. unfold type_char, input_char, signal_of.
    rewrite H2, H3, H4, H5, Hcan, !Z.gtb_ltb, (proj2 (Z.ltb_ge _ _) Hi).
    assert (Hsig : (if flag (c_lflag (v_term v)) TERMIOS_ISIG then 0 else 0) = 0) by (by destruct (flag _ TERMIOS_ISIG)).
    rewrite Hsig. cbn [Z.eqb negb]. unfold edit. by rewrite H2, H6, H1. }
  pose proof (n_write_main_ok d v [c] Hk ltac:(by constructor)) as Hw. rewrite Ht in Hw.
  destruct Hw as (d' & -> & Hk' & _). by exists d'.
Qed.

Lemma erased_line v c l b tl x :
  line v = (l ++ b :: tl) ++ [x] → Forall (λ x, cont x = true) tl → cont b = false → line (erased v c 0) = l.
Proof.
  intros El Htl Hb. unfold erased. rewrite El, removelast_last.
  pose proof (erase_line_one (v_term v) c l b tl Htl Hb) as Hone. destruct (erase_line _ _ _ _) as [l' text]. exact Hone.
Qed.

Lemma write_text_spec t l o size :
  let '(o', size', r) := write_text t o l size in
  ∃ k, (k ≤ length l)%nat ∧ size' = size + Z.of_nat k ∧ o' = o ++ concat (map (post t) (take k l)) ∧
    match l !! k with
    | None => r = DE_SUCCESS
    | Some c => r = DE_RETRY ∧ PTY_BUFFER_SIZE - 1 < Z.of_nat (length o' + length (post t c))
    end.
Proof.
  revert o size. induction l as [|c l IH]; intros o size; cbn [write_text].
  { exists 0%nat. cbn. by rewrite app_nil_r, Z.add_0_r. }
  destruct (Z.leb_spec (Z.of_nat (length o + length (post t c))) (PTY_BUFFER_SIZE - 1)).
  - specialize (IH (o ++ post t c) (size + 1)). destruct (write_text _ _ _ _) as [[o' size'] r].
    destruct IH as (k & Hk & -> & -> & Hr). exists (S k). cbn [length take map concat lookup list_lookup].
    rewrite <- app_assoc. split; [lia|]. split; [lia|]. split; [done|]. by rewrite <- app_assoc in Hr.
  - exists 0%nat. cbn [take map concat lookup list_lookup]. rewrite app_nil_r. split; [lia|]. split; [lia|done].
Qed.

(** ** What the terminal promises *)

(** (C18) Over every history of calls, with any settings, a new pseudo terminal answers
    what the terminal of lists answers: no access leaves an array, every loop ends,
    nothing of a line is dropped at its delivery, and afterwards the arrays
    represent the lists.  Whenever there is something to read, bytes or an end of
    file, the event of the reader is signaled. *)
Theorem pty_refines_lists (t : option termios) (w : winsize) (l : list request) :
  Forall request_ok l →
  let '(v, answers) := history_view (new_view t w) l in
  ∃ d, history (new_pty t w) l = Some (d, answers) ∧ represents d v ∧
    (inp v ≠ [] ∨ v_eof v = true → signaled (event (buffer1 d)) = true) ∧
    (out v ≠ [] → signaled (event (buffer0 d)) = true).
Proof.
  intros Hl. destruct (history_ok l _ _ (new_pty_ok t w) Hl) as (d & Hd & [Hr _ He]).
  destruct (history_view (new_view t w) l) as [v answers]. exists d. split; [exact Hd|]. split; [exact Hr|].
  split; [intros [Hi|Hi]; [by apply (b_wake _ _ (r_inp _ _ Hr))|by apply He]|apply (b_wake _ _ (r_out _ _ Hr))].
Qed.

(** (C32) A line of ordinary bytes that is typed in canonical mode, with its newline, is
    what a program in the foreground reads, for every line that fits. *)
Theorem pty_line_roundtrip d v l g n :
  pty_ok d v → flag (c_lflag (v_term v)) TERMIOS_ICANON = true → newline_ends (v_term v) = true →
  line v = [] → inp v = [] → background v g = false →
  Forall is_byte l → Forall (λ c, ordinary (v_term v) c = true) l →
  Z.of_nat (length l) ≤ PTY_ICANON_SIZE - 1 → Z.of_nat (length l) < n →
  ∃ d1 d2, n_write_main d (l ++ [0x0A]) = Some (d1, Z.of_nat (length l) + 1, DE_SUCCESS) ∧
    n_read_secondary g n d1 = Some (d2, l ++ [0x0A], DE_SUCCESS).
Proof.
  intros Hk Hcan Hnl Hline Hinp Hbg Hb Ho Hl Hn.
  destruct (type_line l v [0x0A] 0 Hcan Ho) as (v1 & Ht & G1 & G2 & G3 & G4 & _).
  { rewrite Hinp. by vm_compute. }
  { rewrite Hline. cbn [length]. lia. }
  destruct (type_newline v1) as (v2 & Ht2 & K1 & K2 & K3 & K4 & _); [by rewrite G3|by rewrite G3| | |].
  { rewrite G2, Hinp. by vm_compute. }
  { by rewrite G1, G3, Hline. }
  assert (Htype : type_chars v (l ++ [0x0A]) 0 = (v2, Z.of_nat (length l) + 1, DE_SUCCESS)).
  { rewrite Ht. cbn [type_chars]. by rewrite Ht2. }
  pose proof (n_write_main_ok d v (l ++ [0x0A]) Hk) as Hw. rewrite Htype in Hw.
  destruct Hw as (d1 & -> & Hk1 & _).
  { apply Forall_app. split; [done|]. constructor; [unfold is_byte; lia|done]. }
  assert (Hbg2 : background v2 g = false) by (unfold background in *; by rewrite K4, G4).
  pose proof (n_read_secondary_ok d1 v2 g n Hk1 ltac:(lia)) as Hread. cbv zeta in Hread. rewrite Hbg2 in Hread.
  cbn [andb] in Hread. unfold read_result in Hread.
  rewrite K1, G1, G2, Hline, Hinp, K3, G3, Hcan in Hread. cbn [app] in Hread.
  rewrite (read_whole_line (v_term v) l [] (Z.to_nat n) Ho Hnl) in Hread by lia.
  destruct Hread as (d2 & Hr & _). exists d1, d2. split; [done|exact Hr].
Qed.

(** (C33) The erasing byte removes exactly one character from a line with room: its first
    byte and its continuation bytes. *)
Theorem erase_character_correct d v l b tl c :
  pty_ok d v → is_byte c → flag (c_lflag (v_term v)) TERMIOS_ICANON = true → erases (v_term v) c = true →
  Z.of_nat (length (inp v)) ≤ PTY_ICANON_SIZE → Z.of_nat (length (line v)) < PTY_ICANON_SIZE - 1 →
  line v = l ++ b :: tl → cont b = false → Forall (λ x, cont x = true) tl →
  ∃ d' v', n_write_main d [c] = Some (d', 1, DE_SUCCESS) ∧ pty_ok d' v' ∧ line v' = l ∧ inp v' = inp v.
Proof.
  intros Hk Hc Hcan He Hi Hl El Hb Htl. destruct (type_erase d v c Hk Hc Hcan He Hi) as (d' & Hw & Hk').
  eexists d', _. split; [exact Hw|]. split; [exact Hk'|].
  unfold line_room. rewrite (proj2 (Z.ltb_lt _ _) Hl). split; [|by destruct (erased_fields (with_line v (line v ++ [c])) c 0) as (-> & _)].
  apply (erased_line _ c l b tl c); [cbn; by rewrite El|done|done].
Qed.

(** In a full line the erasing byte is not stored, but the size is counted down for
    it all the same: a byte is lost and one character more. *)
Theorem erase_full_line d v l b tl x c :
  pty_ok d v → is_byte c → flag (c_lflag (v_term v)) TERMIOS_ICANON = true → erases (v_term v) c = true →
  Z.of_nat (length (inp v)) ≤ PTY_ICANON_SIZE → Z.of_nat (length (line v)) = PTY_ICANON_SIZE - 1 →
  line v = (l ++ b :: tl) ++ [x] → cont b = false → Forall (λ x, cont x = true) tl →
  ∃ d' v', n_write_main d [c] = Some (d', 1, DE_SUCCESS) ∧ pty_ok d' v' ∧ line v' = l.
Proof.
  intros Hk Hc Hcan He Hi Hl El Hb Htl. destruct (type_erase d v c Hk Hc Hcan He Hi) as (d' & Hw & Hk').
  eexists d', _. split; [exact Hw|]. split; [exact Hk'|].
  unfold line_room. rewrite (proj2 (Z.ltb_ge _ _)) by lia. by apply (erased_line _ c l b tl x).
Qed.

(** A program's bytes are taken in order, each with its whole expansion or not at
    all; the first that does not fit ends the call with DE_RETRY; the terminal reads
    what waited before and the expansions, in order. *)
Theorem pty_output_roundtrip d v g bytes :
  pty_ok d v → Forall is_byte bytes → stopped v g = false →
  ∃ d1 k r, n_write_secondary g d bytes = Some (d1, Z.of_nat k, r) ∧ (k ≤ length bytes)%nat ∧
    let text := out v ++ concat (map (post (v_term v)) (take k bytes)) in
    match bytes !! k with
    | None => r = DE_SUCCESS
    | Some c => r = DE_RETRY ∧ PTY_BUFFER_SIZE - 1 < Z.of_nat (length text + length (post (v_term v) c))
    end ∧
    ∀ n, 0 ≤ n → ∃ d2, n_read_main n d1 = Some (d2, take (Z.to_nat n) text).
Proof.
  intros Hk Hb Hst. pose proof (n_write_secondary_ok d v g bytes Hk Hb) as Hw. cbv zeta in Hw. rewrite Hst in Hw.
  pose proof (write_text_spec (v_term v) bytes (out v) 0) as Hspec. destruct (write_text _ _ _ _) as [[o size] r].
  destruct Hw as (d1 & -> & Hk1), Hspec as (k & Hkl & -> & -> & Hr). exists d1, k, r. split; [done|]. split; [done|]. split; [done|].
  intros n Hn. destruct (n_read_main_ok d1 _ n Hk1 Hn) as (d2 & Hw & _). by exists d2.
Qed.

(** ** Witnesses *)

Definition vga : winsize := set_default_winsize 25 80.

Definition hello : list request :=
  [WriteMain [0x61; 0x62; 0x7F; 0x63; 0x0D]; ReadSecondary 0 100; WriteSecondary 0 [0x78; 0x0A]; ReadMain 100;
   Ioctl [] 0 IOCTL_TIOCGPGRP (ArgGroup 0)].

Lemma hello_answers :
  snd (history_view (new_view None vga) hello) =
    [(inl ([], 5), DE_SUCCESS); (inl ([0x61; 0x63; 0x0A], 0), DE_SUCCESS); (inl ([], 2), DE_SUCCESS);
     (inl ([0x61; 0x62; 0x08; 0x20; 0x08; 0x63; 0x0D; 0x0A; 0x78; 0x0D; 0x0A], 0), DE_SUCCESS);
       (inr (ArgGroup (2 ^ 63 - 1)), DE_SUCCESS)].
Proof. by vm_compute. Qed.

Lemma pty_refines_lists_witness :
  Forall request_ok hello ∧
  ∃ d, history (new_pty None vga) hello =
    Some (d, [(inl ([], 5), DE_SUCCESS); (inl ([0x61; 0x63; 0x0A], 0), DE_SUCCESS); (inl ([], 2), DE_SUCCESS);
              (inl ([0x61; 0x62; 0x08; 0x20; 0x08; 0x63; 0x0D; 0x0A; 0x78; 0x0D; 0x0A], 0), DE_SUCCESS);
       (inr (ArgGroup (2 ^ 63 - 1)), DE_SUCCESS)]).
Proof.
  assert (Hq : Forall request_ok hello).
  { unfold hello. repeat constructor; cbn [request_ok]; unfold is_byte; lia. }
  split; [exact Hq|]. pose proof (pty_refines_lists None vga hello Hq) as Hr.
  rewrite (surjective_pairing (history_view (new_view None vga) hello)), hello_answers in Hr.
  destruct Hr as (d & Hd & _). exists d. exact Hd.
Defined.

Definition default_view : view := new_view None vga.

Lemma pty_line_roundtrip_witness :
  ∃ d1 d2, n_write_main (new_pty None vga) ([0x68; 0x69] ++ [0x0A]) = Some (d1, 3, DE_SUCCESS) ∧
    n_read_secondary 0 100 d1 = Some (d2, [0x68; 0x69; 0x0A], DE_SUCCESS).
Proof.
  apply (pty_line_roundtrip (new_pty None vga) default_view [0x68; 0x69] 0 100); try reflexivity.
  - apply new_pty_ok.
  - repeat constructor; unfold is_byte; lia.
  - repeat constructor.
  - discriminate.
Defined.

(** A pseudo terminal with a line of [n] bytes. *)
Lemma pty_with_line l :
  Forall is_byte l → Forall (λ c, ordinary set_default_termios c = true) l →
  Z.of_nat (length l) ≤ PTY_ICANON_SIZE - 1 →
  ∃ d v, pty_ok d v ∧ line v = l ∧ inp v = [] ∧ v_term v = set_default_termios.
Proof.
  intros Hb Ho Hl. destruct (type_line l default_view [] 0) as (v & Ht & G1 & G2 & G3 & _); [done|done|by vm_compute|cbn [line default_view new_view length]; lia|].
  pose proof (n_write_main_ok (new_pty None vga) default_view l (new_pty_ok None vga) Hb) as Hw.
  rewrite app_nil_r in Ht. rewrite Ht in Hw. cbn [type_chars] in Hw. destruct Hw as (d & _ & Hk & _).
  by exists d, v.
Qed.

Lemma erase_character_correct_witness :
  ∃ d v, pty_ok d v ∧ line v = [0x61; 0xC3; 0xA4] ∧
    ∃ d' v', n_write_main d [0x7F] = Some (d', 1, DE_SUCCESS) ∧ pty_ok d' v' ∧ line v' = [0x61] ∧ inp v' = inp v.
Proof.
  destruct (pty_with_line [0x61; 0xC3; 0xA4]) as (d & v & Hk & Hl & Hi & Ht).
  { repeat constructor; unfold is_byte; lia. }
  { repeat constructor. }
  { discriminate. }
  exists d, v. split; [exact Hk|]. split; [exact Hl|].
  apply (erase_character_correct d v [0x61] 0xC3 [0xA4] 0x7F); rewrite ?Ht, ?Hi, ?Hl; try reflexivity.
  - exact Hk.
  - unfold is_byte. lia.
  - discriminate.
  - repeat constructor.
Defined.

Lemma erase_full_line_witness :
  ∃ d v, pty_ok d v ∧ line v = replicate 4095 0x61 ∧
    ∃ d' v', n_write_main d [0x7F] = Some (d', 1, DE_SUCCESS) ∧ pty_ok d' v' ∧ line v' = replicate 4093 0x61.
Proof.
  destruct (pty_with_line (replicate 4095 0x61)) as (d & v & Hk & Hl & Hi & Ht).
  { apply Forall_replicate. unfold is_byte. lia. }
  { apply Forall_replicate. reflexivity. }
  { rewrite length_replicate. by vm_compute. }
  exists d, v. split; [exact Hk|]. split; [exact Hl|].
  apply (erase_full_line d v (replicate 4093 0x61) 0x61 [] 0x61 0x7F); rewrite ?Ht, ?Hi, ?Hl; try reflexivity.
  - exact Hk.
  - unfold is_byte. lia.
  - discriminate.
  - constructor.
Defined.

Lemma pty_output_roundtrip_witness :
  ∃ d1 k r, n_write_secondary 0 (new_pty None vga) [0x78; 0x0A] = Some (d1, Z.of_nat k, r) ∧ (k ≤ 2)%nat ∧
    let text := concat (map (post set_default_termios) (take k [0x78; 0x0A])) in
    match [0x78; 0x0A] !! k with
    | None => r = DE_SUCCESS
    | Some c => r = DE_RETRY ∧ PTY_BUFFER_SIZE - 1 < Z.of_nat (length text + length (post set_default_termios c))
    end ∧
    ∀ n, 0 ≤ n → ∃ d2, n_read_main n d1 = Some (d2, take (Z.to_nat n) text).
Proof.
  apply (pty_output_roundtrip (new_pty None vga) default_view 0 [0x78; 0x0A]).
  - apply new_pty_ok.
  - repeat constructor; unfold is_byte; lia.
  - reflexivity.
Defined.

(** ** The names under /dev/pts *)

(** The decimal number of a pseudo terminal. *)
Definition pts_name (i : Z) : list Z :=
  if i <? 10 then [0x30 + i] else [0x30 + i / 10; 0x30 + i mod 10].

Definition pts_index (name : list Z) : de_error + Z :=
  match name with
  | 0x30 :: rest => match rest with [] => inr 0 | _ => inl DE_NAME end
  | _ => pts_number name 0 DE_NAME
  end.

Lemma pts_index_name i : 0 ≤ i < PTY_ARRAY_COUNT → pts_index (pts_name i) = inr i.
Proof.
  intros Hi.
  assert (Hall : forallb (λ i, bool_decide (pts_index (pts_name (Z.of_nat i)) = inr (Z.of_nat i))) (seq 0 64) = true) by by vm_compute.
  rewrite forallb_forall in Hall. specialize (Hall (Z.to_nat i)). rewrite Z2Nat.id in Hall by lia.
  apply bool_decide_eq_true in Hall; [done|]. apply in_seq. unfold PTY_ARRAY_COUNT in Hi. lia.
Qed.

Lemma n_open_pts_index {A} (a : list (option A)) name exclusive :
  n_open_pts a name exclusive =
  match pts_index name with
  | inl r => Some (inl r)
  | inr i =>
      p ← a.[i];
      Some (match p with None => inl DE_NAME | Some p => if (exclusive : bool) then inl DE_BUSY else inr p end)
  end.
Proof. done. Qed.

Lemma pty_place_spec {A} (a : list (option A)) i k :
  pty_place a i = Some k → i ≤ k < i + Z.of_nat (length a) ∧ a.[k - i] = Some None.
Proof.
  revert i. induction a as [|[x|] a IH]; intros i; cbn [pty_place length]; [done| |].
  - intros Hk. destruct (IH _ Hk) as [Hb Ha]. split; [lia|]. apply rd_Some in Ha as [Ha0 Ha]. apply rd_Some.
    split; [lia|]. replace (Z.to_nat (k - i)) with (S (Z.to_nat (k - (i + 1)))) by lia. done.
  - intros [= ->]. split; [lia|]. by rewrite Z.sub_diag.
Qed.

(** A new pseudo terminal is opened by its number; the other numbers keep theirs. *)
Lemma pty_create_open {A} (a a' : list (option A)) s t w rows columns d i r :
  length a = 64%nat → pty_create true true a s t w rows columns = Some (r, Some (d, i), a') →
  d = new_pty t (default (set_default_winsize rows columns) w) ∧ n_open_pts a' (pts_name i) false = Some (inr s) ∧
  ∀ j exclusive, 0 ≤ j < PTY_ARRAY_COUNT → j ≠ i → n_open_pts a' (pts_name j) exclusive = n_open_pts a (pts_name j) exclusive.
Proof.
  intros Ha. unfold pty_create. cbn [negb orb]. destruct (pty_place a 0) as [k|] eqn:Hk; [|done].
  destruct (pty_place_spec a 0 k Hk) as [Hk0 Hkn]. rewrite Z.sub_0_r in *.
  rewrite (wr_Some a k (Some s)) by (rewrite Ha; lia). cbn [mbind option_bind]. intros [= <- <- <- <-].
  rewrite Ha in Hk0. change (0 + Z.of_nat 64) with PTY_ARRAY_COUNT in Hk0. split; [done|].
  rewrite n_open_pts_index, pts_index_name by lia. split.
  - replace (<[Z.to_nat k:=Some s]> a).[k] with (Some (Some s)); [done|].
    symmetry. apply rd_Some. split; [lia|]. apply list_lookup_insert_eq. rewrite Ha. unfold PTY_ARRAY_COUNT in Hk0. lia.
  - intros j e Hj Hne. rewrite !n_open_pts_index, pts_index_name by done. unfold rd.
    rewrite (proj2 (Z.leb_le 0 j)) by lia. by rewrite list_lookup_insert_ne by lia.
Qed.

(** The name that the directory shows for a number. *)
Definition shown_name (i : Z) : list Z := pts_name i ++ replicate (256 - length (pts_name i)) 0.

Lemma readdir_name i :
  0 ≤ i < PTY_ARRAY_COUNT →
  snprintf 64 (replicate 256 0) 8 [0x25; 0x64; 0] (λ _, Slot i [0]) =
    Some (Z.of_nat (length (pts_name i)), shown_name i, []).
Proof.
  intros Hi.
  assert (Hall : forallb (λ i, bool_decide (snprintf 64 (replicate 256 0) 8 [0x25; 0x64; 0] (λ _, Slot (Z.of_nat i) [0]) =
      Some (Z.of_nat (length (pts_name (Z.of_nat i))), shown_name (Z.of_nat i), []))) (seq 0 64) = true) by by vm_compute.
  rewrite forallb_forall in Hall. specialize (Hall (Z.to_nat i)). rewrite Z2Nat.id in Hall by lia.
  apply bool_decide_eq_true in Hall; [done|]. apply in_seq. unfold PTY_ARRAY_COUNT in Hi. lia.
Qed.

(** The directory shows exactly the names that can be opened. *)
Lemma n_readdir_open {A} (a : list (option A)) i :
  length a = 64%nat → 0 ≤ i < PTY_ARRAY_COUNT →
  match a !! Z.to_nat i with
  | Some (Some p) =>
      n_readdir_pts a (i + 2) = Some (DE_SUCCESS, shown_name i) ∧ n_open_pts a (pts_name i) false = Some (inr p)
  | _ =>
      n_readdir_pts a (i + 2) = Some (DE_PLACEHOLDER, replicate 256 0) ∧ n_open_pts a (pts_name i) false = Some (inl DE_NAME)
  end.
Proof.
  intros Ha Hi. assert (Hlt : (Z.to_nat i < length a)%nat) by (unfold PTY_ARRAY_COUNT in Hi; lia).
  destruct (lookup_lt_is_Some_2 _ _ Hlt) as [p Hp]. rewrite Hp.
  assert (Hrd : a.[i] = Some p) by (apply rd_Some; split; [lia|done]).
  rewrite n_open_pts_index, pts_index_name, Hrd by done. unfold n_readdir_pts.
  rewrite (proj2 (Z.eqb_neq (i + 2) 0)), (proj2 (Z.eqb_neq (i + 2) 1)) by lia.
  replace (i + 2 - 2) with i by lia. rewrite wrap_small, Z.geb_leb, (proj2 (Z.leb_gt _ _)), Hrd by (unfold PTY_ARRAY_COUNT in *; lia).
  cbn [mbind option_bind]. destruct p as [p|]; [|done]. by rewrite readdir_name.
Qed.
