(* ===== verification/FatBpb.v ===== *)
(** The BIOS parameter block of a FAT volume: [read_bios_parameter_block] of
    common/fat.c.

    The fields of [struct fat_instance] that it sets are the record [geometry].
    All of them are [unsigned int], and every sum and product of them is taken
    modulo 2^32 as the code takes it. *)

From S2P Require Import Prelude.

(** ** Little-endian numbers *)

Definition B8 (a : list Z) (b c : Z) : option Z :=
  x ← a.[b]; Some (Z.shiftl (Z.land x 0xFF) c).

Definition LE16 (a : list Z) (i : Z) : option Z :=
  b0 ← B8 a i 0; b1 ← B8 a (i + 1) 8; Some (Z.lor b0 b1).

Definition LE32 (a : list Z) (i : Z) : option Z :=
  b0 ← B8 a i 0; b1 ← B8 a (i + 1) 8; b2 ← B8 a (i + 2) 16; b3 ← B8 a (i + 3) 24;
  Some (Z.lor (Z.lor (Z.lor b0 b1) b2) b3).

Definition W_LE16 (a : list Z) (i d : Z) : option (list Z) :=
  a ← a.[i <- Z.land d 0xFF];
  a.[i + 1 <- Z.land (Z.shiftr d 8) 0xFF].

Definition W_LE32 (a : list Z) (i d : Z) : option (list Z) :=
  a ← a.[i <- Z.land d 0xFF];
  a ← a.[i + 1 <- Z.land (Z.shiftr d 8) 0xFF];
  a ← a.[i + 2 <- Z.land (Z.shiftr d 16) 0xFF];
  a.[i + 3 <- Z.land (Z.shiftr d 24) 0xFF].

(** ** The geometry of a volume *)

Inductive fat_type := type_12 | type_16 | type_32.

#[export] Instance fat_type_eq_dec : EqDecision fat_type.
Proof. solve_decision. Defined.

Record geometry := Geometry {
  fs_bytes_per_sector : Z;
  io_mul : Z;
  fs_cluster_sectors : Z;
  fs_reserved_sectors : Z;
  fs_tables : Z;
  fs_directory_entries : Z;
  fs_directory_sectors : Z;
  fs_total_sectors : Z;
  fs_table_sectors : Z;
  fs_table_size : Z;
  fs_data_sectors : Z;
  fs_clusters : Z;
  type : fat_type;
  fs_root_cluster : Z;
  fs_info_sector : Z;
  fs_last_table_sector : Z;
  cluster_size : Z }.

Definition not_power_of_two (v : Z) : bool := negb (Z.land v (v - 1) =? 0).

(** The size of the first read: at least 512 bytes. *)
Definition boot_size (block_size : Z) : option Z :=
  while 16 (λ size, Some (if size <? 512 then Next (size * 2) else Done size)) block_size.

Definition block_size_ok (block_size block_total : Z) : bool :=
  negb ((block_size <? 1) || (block_size >? 4096)) &&
  negb (not_power_of_two block_size) && (block_total <=? 0xFFFFFFFF).

Definition jump_ok (buf : list Z) : option bool :=
  b0 ← buf.[0];
  if b0 =? 0xEB then
    val ← buf.[1];
    Some (negb ((val <? 0x3C) || ((val >=? 0x80) && negb (val =? 0xFE))))
  else if b0 =? 0xE9 then
    val ← LE16 buf 1;
    Some (negb ((val <? 0x3C) || ((val >=? 0x1FD) && negb (val =? 0xFFFD))))
  else Some false.

(** The root directory of FAT12 and FAT16; [None] inside is [return 1]. *)
Definition directory_sectors (entries bytes_per_sector : Z) : option Z :=
  if negb (entries =? 0) then
    let t1 := u32 (entries * 32) in
    if negb (t1 mod bytes_per_sector =? 0) then None else Some (t1 / bytes_per_sector)
  else Some 0.

(** The total number of sectors, from the 16-bit and the 32-bit field. *)
Definition total_sectors (t16 t32 : Z) : option Z :=
  if negb (t16 =? 0) then
    if negb (t32 =? 0) && negb (t32 =? t16) then None else Some t16
  else Some t32.

(** The number of data sectors and of clusters. *)
Definition data_sectors (t1 t2 t3 t4 t5 t6 : Z) : option (Z * Z) :=
  if u32 (u32 (u32 (t1 + u32 (t2 * t3)) + t4) + t5) >? t6 then None
  else
    let val := u32 (t6 - u32 (u32 (t1 + u32 (t2 * t3)) + t4)) in
    let clusters := val / t5 in
    if clusters =? 0 then None else Some (val, clusters).

Definition determine_type (clusters : Z) : fat_type :=
  if clusters <? 4085 then type_12 else if clusters <? 65525 then type_16 else type_32.

(** The tests that depend on the type: the root cluster and the sector of the
    information structure. *)
Definition type_tests (buf : list Z) (t : fat_type) (entries clusters table_size reserved : Z)
  : option (option (Z * Z)) :=
  match t with
  | type_12 | type_16 =>
      if entries =? 0 then Some None
      else if table_size >? 0x20000 then Some None
      else
        let val := match t with
                   | type_12 => u32 (u32 (u32 (clusters + 2) * 3) + 1) / 2
                   | _ => u32 (u32 (clusters + 2) * 2)
                   end in
        Some (if table_size <? val then None else Some (0, 0))
  | type_32 =>
      if negb (entries =? 0) then Some None
      else
        t16 ← LE16 buf 19; s16 ← LE16 buf 22;
        if negb (t16 =? 0) || negb (s16 =? 0) then Some None
        else
          version ← LE16 buf 42;
          if negb (version =? 0) then Some None
          else
            root ← LE32 buf 44;
            if root <? 2 then Some None
            else if u32 (root - 2) >=? clusters then Some None
            else if u32 (clusters + 2) >? 0x0FFFFFF8 then Some None
            else if table_size <? u32 (u32 (clusters + 2) * 4) then Some None
            else
              info ← LE16 buf 48;
              Some (if info =? 0 then None
                    else if info >=? reserved then None
                    else Some (root, info))
  end.

(** [read_bios_parameter_block]: the answer of [fat_get_size], the contents of
    the block buffer after the read when it succeeded, and whether [malloc] of
    the cluster buffer does.  [None] inside is [return 1]. *)
Definition read_bios_parameter_block (get_size : option (Z * Z)) (io_read : option (list Z))
    (malloc_ok : bool) : option (option geometry) :=
  match get_size with
  | None => Some None
  | Some (block_size, block_total) =>
    if negb (block_size_ok block_size block_total) then Some None
    else
    _ ← boot_size block_size;
    match io_read with
    | None => Some None
    | Some buf =>
      jump ← jump_ok buf;
      if negb jump then Some None
      else
      signature ← LE16 buf 510;
      if negb (signature =? 0xAA55) then Some None
      else
      bps ← LE16 buf 11;
      if (bps <? 512) || (bps >? 4096) || not_power_of_two bps then Some None
      else if bps <? block_size then Some None
      else
      let mul := bps / block_size in
      cs ← buf.[13];
      if (cs <? 1) || (cs >? 128) || not_power_of_two cs then Some None
      else
      reserved ← LE16 buf 14;
      if reserved =? 0 then Some None
      else
      tables ← buf.[16];
      if negb (tables =? 1) && negb (tables =? 2) then Some None
      else
      entries ← LE16 buf 17;
      match directory_sectors entries bps with
      | None => Some None
      | Some dir_sectors =>
        t16 ← LE16 buf 19;
        t32 ← LE32 buf 32;
        match total_sectors t16 t32 with
        | None => Some None
        | Some total =>
          if block_total <? total / mul then Some None
          else
          s16 ← LE16 buf 22;
          table_sectors ← (if negb (s16 =? 0) then Some s16 else LE32 buf 36);
          if table_sectors >? 0x40000000 / bps then Some None
          else
          let table_size := u32 (table_sectors * bps) in
          match data_sectors reserved table_sectors tables dir_sectors cs total with
          | None => Some None
          | Some (data, clusters) =>
            let t := determine_type clusters in
            r ← type_tests buf t entries clusters table_size reserved;
            match r with
            | None => Some None
            | Some (root, info) =>
              if negb malloc_ok then Some None
              else Some (Some (Geometry bps mul cs reserved tables entries dir_sectors total
                     table_sectors table_size data clusters t root info
                     (u32 (u32 (reserved + u32 (tables * table_sectors)) - 1))
                     (u32 (bps * cs))))
            end
          end
        end
      end
    end
  end.

(** ** Lemmas *)

Lemma B8_spec a b c :
  0 ≤ c → 0 ≤ b < Z.of_nat (length a) → Forall is_byte a →
  ∃ x, B8 a b c = Some (Z.shiftl x c) ∧ is_byte x ∧ a.[b] = Some x.
Proof.
  intros Hc Hb Ha. destruct (rd_is_Some a b Hb) as [x Hx]. exists x. unfold B8. rewrite Hx.
  cbn [mbind option_bind]. apply rd_Some in Hx as Hx'. destruct Hx' as [_ Hl].
  pose proof (Forall_lookup_1 _ _ _ _ Ha Hl) as Hbyte. split; [|done].
  do 2 f_equal. change 0xFF with (2 ^ 8 - 1). rewrite land_ones_mod by lia.
  by apply Z.mod_small.
Qed.

Lemma LE16_spec a i :
  0 ≤ i → i + 2 ≤ Z.of_nat (length a) → Forall is_byte a →
  ∃ b0 b1, a.[i] = Some b0 ∧ a.[i + 1] = Some b1 ∧ is_byte b0 ∧ is_byte b1 ∧
    LE16 a i = Some (b0 + 256 * b1).
Proof.
  intros Hi Hl Ha. unfold LE16.
  destruct (B8_spec a i 0 ltac:(lia) ltac:(lia) Ha) as (b0 & H0 & Hb0 & Hr0).
  destruct (B8_spec a (i + 1) 8 ltac:(lia) ltac:(lia) Ha) as (b1 & H1 & Hb1 & Hr1).
  exists b0, b1. rewrite H0, H1. cbn [mbind option_bind]. do 4 (split; [done|]). f_equal.
  rewrite Z.shiftl_0_r, Z.lor_comm, (lor_shiftl_add b1 b0 8) by (unfold is_byte in *; lia). lia.
Qed.

Lemma LE16_range a i :
  0 ≤ i → i + 2 ≤ Z.of_nat (length a) → Forall is_byte a →
  ∃ v, LE16 a i = Some v ∧ 0 ≤ v < 65536.
Proof.
  intros Hi Hl Ha. destruct (LE16_spec a i Hi Hl Ha) as (b0 & b1 & _ & _ & H0 & H1 & E).
  exists (b0 + 256 * b1). unfold is_byte in *. split; [done|lia].
Qed.

Lemma LE32_spec a i :
  0 ≤ i → i + 4 ≤ Z.of_nat (length a) → Forall is_byte a →
  ∃ b0 b1 b2 b3, a.[i] = Some b0 ∧ a.[i + 1] = Some b1 ∧ a.[i + 2] = Some b2 ∧
    a.[i + 3] = Some b3 ∧ is_byte b0 ∧ is_byte b1 ∧ is_byte b2 ∧ is_byte b3 ∧
    LE32 a i = Some (b0 + 256 * b1 + 65536 * b2 + 16777216 * b3).
Proof.
  intros Hi Hl Ha. unfold LE32.
  destruct (B8_spec a i 0 ltac:(lia) ltac:(lia) Ha) as (b0 & H0 & Hb0 & Hr0).
  destruct (B8_spec a (i + 1) 8 ltac:(lia) ltac:(lia) Ha) as (b1 & H1 & Hb1 & Hr1).
  destruct (B8_spec a (i + 2) 16 ltac:(lia) ltac:(lia) Ha) as (b2 & H2 & Hb2 & Hr2).
  destruct (B8_spec a (i + 3) 24 ltac:(lia) ltac:(lia) Ha) as (b3 & H3 & Hb3 & Hr3).
  exists b0, b1, b2, b3. rewrite H0, H1, H2, H3. cbn [mbind option_bind].
  do 8 (split; [done|]). f_equal. unfold is_byte in *. rewrite Z.shiftl_0_r.
  rewrite (Z.lor_comm b0), (lor_shiftl_add b1 b0 8) by lia.
  rewrite (Z.lor_comm _ (Z.shiftl b2 16)), (lor_shiftl_add b2 _ 16) by lia.
  rewrite (Z.lor_comm _ (Z.shiftl b3 24)), (lor_shiftl_add b3 _ 24) by lia. lia.
Qed.

Lemma LE32_range a i :
  0 ≤ i → i + 4 ≤ Z.of_nat (length a) → Forall is_byte a →
  ∃ v, LE32 a i = Some v ∧ 0 ≤ v < 2 ^ 32.
Proof.
  intros Hi Hl Ha.
  destruct (LE32_spec a i Hi Hl Ha) as (b0 & b1 & b2 & b3 & _ & _ & _ & _ & H0 & H1 & H2 & H3 & E).
  eexists. split; [exact E|]. unfold is_byte in *. lia.
Qed.

Lemma byte_range a i :
  0 ≤ i < Z.of_nat (length a) → Forall is_byte a → ∃ v, a.[i] = Some v ∧ 0 ≤ v < 256.
Proof.
  intros Hi Ha. destruct (rd_is_Some a i Hi) as [x Hx]. exists x. split; [done|].
  apply rd_Some in Hx as [_ Hl]. exact (Forall_lookup_1 _ _ _ _ Ha Hl).
Qed.

Lemma boot_size_total block_size :
  1 ≤ block_size ≤ 4096 → ∃ s, boot_size block_size = Some s ∧ 512 ≤ s ≤ 4096.
Proof.
  intros Hb. unfold boot_size.
  apply (while_total (λ s, 1 ≤ s ≤ 4096) (λ s, Z.to_nat (10 - Z.log2 s))
           (λ s, 512 ≤ s ≤ 4096)); [|done|].
  - intros s Hs. destruct (Z.ltb_spec s 512); (eexists; split; [done|]); cbn; [|lia].
    split; [lia|]. rewrite Z.mul_comm, Z.log2_double by lia.
    pose proof (Z.log2_le_mono s 511 ltac:(lia)) as Hl. change (Z.log2 511) with 8 in Hl. lia.
  - pose proof (Z.log2_nonneg block_size). lia.
Qed.

(** What [(v & (v - 1)) == 0] says of a number up to 4096. *)
Lemma power_of_two v :
  0 < v ≤ 4096 → not_power_of_two v = false → ∃ k, 0 ≤ k ≤ 12 ∧ v = 2 ^ k.
Proof.
  intros Hv Hp.
  assert (H : all_below 4097 (λ v, (v =? 0) || not_power_of_two v || (v =? 2 ^ Z.log2 v)) = true)
    by (vm_compute; reflexivity).
  pose proof (all_below_spec 4097 _ H v ltac:(lia)) as Hc. cbv beta in Hc.
  rewrite Hp, (proj2 (Z.eqb_neq v 0)) in Hc by lia. cbn in Hc. apply Z.eqb_eq in Hc.
  exists (Z.log2 v). split; [|done]. split; [apply Z.log2_nonneg|].
  pose proof (Z.log2_le_mono v 4096 ltac:(lia)) as Hl. change (Z.log2 4096) with 12 in Hl. lia.
Qed.

(** ** What an accepted volume satisfies *)

(** The number of bytes of the table before the end of entry [off]. *)
Definition entry_end (t : fat_type) (off : Z) : Z :=
  match t with
  | type_12 => off + off / 2 + 2
  | type_16 => 2 * off + 2
  | type_32 => 4 * off + 4
  end.

Record geometry_ok (g : geometry) : Prop := {
  geo_bps : ∃ k, 9 ≤ k ≤ 12 ∧ fs_bytes_per_sector g = 2 ^ k;
  geo_cluster : ∃ k, 0 ≤ k ≤ 7 ∧ fs_cluster_sectors g = 2 ^ k;
  geo_cluster_size : cluster_size g = fs_bytes_per_sector g * fs_cluster_sectors g;
  geo_mul : 1 ≤ io_mul g ≤ 4096;
  geo_reserved : 1 ≤ fs_reserved_sectors g < 65536;
  geo_tables : fs_tables g = 1 ∨ fs_tables g = 2;
  geo_table_sectors : 0 ≤ fs_table_sectors g;
  geo_table_size : fs_table_size g = fs_table_sectors g * fs_bytes_per_sector g ∧
                   fs_table_size g ≤ 0x40000000;
  geo_last_table : fs_last_table_sector g
                   = fs_reserved_sectors g + fs_tables g * fs_table_sectors g - 1;
  geo_directory : 0 ≤ fs_directory_sectors g ∧
    fs_directory_entries g * 32 = fs_directory_sectors g * fs_bytes_per_sector g;
  (** reserved sectors, tables, root directory and data are the volume *)
  geo_total : fs_reserved_sectors g + fs_tables g * fs_table_sectors g
              + fs_directory_sectors g + fs_data_sectors g = fs_total_sectors g;
  geo_total_range : fs_total_sectors g < 2 ^ 32;
  geo_clusters : 1 ≤ fs_clusters g ∧ fs_clusters g = fs_data_sectors g / fs_cluster_sectors g;
  geo_type : type g = determine_type (fs_clusters g);
  (** the table has room for every entry, and for FAT12 and FAT16 it is in the
      buffer of 128 KiB at most *)
  geo_entries : ∀ off, 0 ≤ off < fs_clusters g + 2 → entry_end (type g) off ≤ fs_table_size g;
  geo_small : type g ≠ type_32 → fs_table_size g ≤ 0x20000 ∧ 0 < fs_directory_entries g;
  geo_large : type g = type_32 → fs_directory_entries g = 0 ∧
    2 ≤ fs_root_cluster g < fs_clusters g + 2 ∧
    1 ≤ fs_info_sector g < fs_reserved_sectors g ∧ fs_clusters g + 2 ≤ 0x0FFFFFF8 }.

Lemma data_sectors_spec t1 t2 t3 t4 t5 t6 val clusters :
  0 ≤ t1 < 65536 → 0 ≤ t2 ≤ 2 ^ 21 → 1 ≤ t3 ≤ 2 → 0 ≤ t4 < 65536 → 1 ≤ t5 ≤ 128 →
  0 ≤ t6 < 2 ^ 32 →
  data_sectors t1 t2 t3 t4 t5 t6 = Some (val, clusters) →
  t1 + t3 * t2 + t4 + val = t6 ∧ clusters = val / t5 ∧ 1 ≤ clusters ∧ 0 ≤ val.
Proof.
  intros H1 H2 H3 H4 H5 H6. unfold data_sectors.
  assert (Hp : 0 ≤ t2 * t3 ≤ 2 ^ 22) by nia. change (2 ^ 22) with 4194304 in Hp.
  change (2 ^ 32) with 4294967296 in *.
  rewrite (wrap_small 32 (t2 * t3)), (wrap_small 32 (t1 + _)), (wrap_small 32 (t1 + _ + t4)),
    (wrap_small 32 (t1 + _ + _ + t5)) by (change (2 ^ 32) with 4294967296; lia).
  destruct (Z.gtb_spec (t1 + t2 * t3 + t4 + t5) t6); [done|].
  rewrite wrap_small by (change (2 ^ 32) with 4294967296; lia).
  destruct (Z.eqb_spec ((t6 - (t1 + t2 * t3 + t4)) / t5) 0); [done|]. intros [= <- <-].
  assert (0 ≤ (t6 - (t1 + t2 * t3 + t4)) / t5) by (apply Z.div_pos; lia). lia.
Qed.

(** The table has room for the entries, when the sizes do not wrap. *)
Lemma entries_fit t clusters size off :
  0 ≤ off < clusters + 2 →
  match t with
  | type_12 => (3 * (clusters + 2) + 1) / 2 | type_16 => 2 * (clusters + 2)
  | type_32 => 4 * (clusters + 2)
  end ≤ size →
  entry_end t off ≤ size.
Proof. intros Hoff Hs. destruct t; cbn in *; dlia. Qed.

Lemma type_tests_spec buf clusters table_size reserved entries data cs :
  512 ≤ Z.of_nat (length buf) → Forall is_byte buf →
  1 ≤ clusters → 0 ≤ entries → clusters ≤ data → data + reserved < 2 ^ 32 → cs = 0 →
  let t := determine_type clusters in
  ∃ r, type_tests buf t entries clusters table_size reserved = Some r ∧
    ∀ root info, r = Some (root, info) →
      (∀ off, 0 ≤ off < clusters + 2 → entry_end t off ≤ table_size) ∧
      (t ≠ type_32 → table_size ≤ 0x20000 ∧ 0 < entries) ∧
      (t = type_32 → entries = 0 ∧ 2 ≤ root < clusters + 2 ∧ 1 ≤ info < reserved ∧
                     clusters + 2 ≤ 0x0FFFFFF8).
Proof.
  intros Hl Hbuf Hc He Hd Hr _ t.
  assert (Hsmall : t ≠ type_32 → clusters < 65525).
  { unfold t, determine_type. destruct (Z.ltb_spec clusters 4085); [lia|].
    destruct (Z.ltb_spec clusters 65525); [lia|done]. }
  change (2 ^ 32) with 4294967296 in *.
  destruct t eqn:Et; cbn [type_tests].
  1,2: destruct (Z.eqb_spec entries 0); [by eexists|];
    destruct (Z.gtb_spec table_size 0x20000); [by eexists|];
    specialize (Hsmall ltac:(done)); eexists; (split; [done|]); intros root info Hsome;
    rewrite (wrap_small 32 (clusters + 2)) in Hsome by (change (2 ^ 32) with 4294967296; lia);
    rewrite (wrap_small 32 ((clusters + 2) * _)) in Hsome by (change (2 ^ 32) with 4294967296; lia).
  - rewrite (wrap_small 32 (_ + 1)) in Hsome by (change (2 ^ 32) with 4294967296; lia).

    destruct (Z.ltb_spec table_size (((clusters + 2) * 3 + 1) / 2)); [done|].
    split; [|split; [intros _; lia|done]]. intros off Hoff. apply (entries_fit type_12 clusters); [lia|].
    rewrite (Z.mul_comm 3). lia.
  - destruct (Z.ltb_spec table_size ((clusters + 2) * 2)); [done|].
    split; [|split; [intros _; lia|done]]. intros off Hoff. apply (entries_fit type_16 clusters); lia.
  - destruct (Z.eqb_spec entries 0) as [->|]; cbn [negb]; [|by eexists].
    destruct (LE16_range buf 19 ltac:(lia) ltac:(lia) Hbuf) as (t16 & -> & _).
    destruct (LE16_range buf 22 ltac:(lia) ltac:(lia) Hbuf) as (s16 & -> & _).
    cbn [mbind option_bind]. destruct (_ || _); [by eexists|].
    destruct (LE16_range buf 42 ltac:(lia) ltac:(lia) Hbuf) as (v & -> & _).
    cbn [mbind option_bind]. destruct (negb _); [by eexists|].
    destruct (LE32_range buf 44 ltac:(lia) ltac:(lia) Hbuf) as (root & -> & Hroot).
    cbn [mbind option_bind]. destruct (Z.ltb_spec root 2); [by eexists|].
    change (2 ^ 32) with 4294967296 in Hroot.
    rewrite (wrap_small 32 (root - 2)) by (change (2 ^ 32) with 4294967296; lia).
    destruct (Z.geb_spec (root - 2) clusters); [by eexists|].
    destruct (LE16_range buf 48 ltac:(lia) ltac:(lia) Hbuf) as (info & -> & Hinfo).
    destruct (Z.gtb_spec (u32 (clusters + 2)) 0x0FFFFFF8) as [|Hmax]; [by eexists|].
    destruct (Z.ltb_spec table_size (u32 (u32 (clusters + 2) * 4))) as [|Hsz]; [by eexists|].
    cbn [mbind option_bind]. eexists. split; [done|]. intros root' info'.
    destruct (Z.eqb_spec info 0); [done|]. destruct (Z.geb_spec info reserved); [done|].
    intros [= -> ->].
    rewrite (wrap_small 32 (clusters + 2)) in * by (change (2 ^ 32) with 4294967296; lia).
    rewrite (wrap_small 32 ((clusters + 2) * 4)) in * by (change (2 ^ 32) with 4294967296; lia).
    split; [|split; [done|intros _; lia]]. intros off Hoff.
    apply (entries_fit type_32 clusters); lia.
Qed.

Lemma jump_ok_total buf :
  512 ≤ Z.of_nat (length buf) → Forall is_byte buf → ∃ b, jump_ok buf = Some b.
Proof.
  intros Hl Hbuf. unfold jump_ok.
  destruct (byte_range buf 0 ltac:(lia) Hbuf) as (b0 & -> & _). cbn [mbind option_bind].
  destruct (b0 =? 0xEB).
  - destruct (byte_range buf 1 ltac:(lia) Hbuf) as (b1 & -> & _). by eexists.
  - destruct (b0 =? 0xE9); [|by eexists].
    destruct (LE16_range buf 1 ltac:(lia) ltac:(lia) Hbuf) as (b1 & -> & _). by eexists.
Qed.

Lemma directory_sectors_spec entries bps d :
  0 ≤ entries < 65536 → 512 ≤ bps → directory_sectors entries bps = Some d →
  0 ≤ d < 65536 ∧ entries * 32 = d * bps.
Proof.
  intros He Hb. unfold directory_sectors. destruct (Z.eqb_spec entries 0) as [->|]; cbn [negb];
    [intros [= <-]; lia|].
  rewrite wrap_small by lia. destruct (Z.eqb_spec (entries * 32 mod bps) 0) as [Hm|]; [|done].
  cbn [negb]. intros [= <-]. pose proof (Z.div_mod (entries * 32) bps ltac:(lia)) as Hdm.
  assert (0 ≤ entries * 32 / bps) by (apply Z.div_pos; lia).
  split; [|lia]. split; [lia|]. apply Z.div_lt_upper_bound; nia.
Qed.

Lemma total_sectors_spec t16 t32 t :
  0 ≤ t16 < 65536 → 0 ≤ t32 < 2 ^ 32 → total_sectors t16 t32 = Some t → 0 ≤ t < 2 ^ 32.
Proof.
  intros H1 H2. unfold total_sectors. destruct (negb (t16 =? 0)).
  - destruct (_ && _); [done|]. intros [= <-]. lia.
  - by intros [= <-].
Qed.

Lemma not_pow_bool v : not_power_of_two v = false ∨ not_power_of_two v = true.
Proof. destruct (not_power_of_two v); auto. Qed.

(** What is accepted is sound; nothing outside the sector is read. *)
Lemma read_bpb_spec get_size io_read malloc_ok :
  (∀ bs bt, get_size = Some (bs, bt) → 0 ≤ bs ∧ 0 ≤ bt) →
  (∀ buf, io_read = Some buf → 512 ≤ Z.of_nat (length buf) ∧ Forall is_byte buf) →
  ∃ r, read_bios_parameter_block get_size io_read malloc_ok = Some r ∧
    ∀ g, r = Some g → geometry_ok g ∧
      ∃ bs bt, get_size = Some (bs, bt) ∧ fs_bytes_per_sector g = io_mul g * bs ∧
        fs_total_sectors g / io_mul g ≤ bt.
Proof.
  intros Hget Hio. unfold read_bios_parameter_block.
  destruct get_size as [[bs bt]|]; [|by eexists].
  destruct (Hget bs bt eq_refl) as [Hbs0 Hbt0]. clear Hget.
  destruct (block_size_ok bs bt) eqn:Hbok; cbn [negb]; [|by eexists].
  unfold block_size_ok in Hbok.
  apply andb_prop in Hbok as [[Hb1%negb_true_iff%orb_false_iff Hb2%negb_true_iff]%andb_prop Hb3%Z.leb_le].
  destruct Hb1 as [Hb1%Z.ltb_ge Hb4]. rewrite Z.gtb_ltb in Hb4. apply Z.ltb_ge in Hb4.
  destruct (boot_size_total bs ltac:(lia)) as (sz & -> & _). cbn [mbind option_bind].
  destruct io_read as [buf|]; [|by eexists]. destruct (Hio buf eq_refl) as [Hl Hbuf]. clear Hio.
  destruct (jump_ok_total buf Hl Hbuf) as (j & ->). cbn [mbind option_bind].
  destruct (negb j); [by eexists|].
  destruct (LE16_range buf 510 ltac:(lia) ltac:(lia) Hbuf) as (sig & -> & _). cbn [mbind option_bind].
  destruct (negb _); [by eexists|].
  destruct (LE16_range buf 11 ltac:(lia) ltac:(lia) Hbuf) as (bps & -> & Hbps0). cbn [mbind option_bind].
  destruct (_ || not_power_of_two bps) eqn:Hbps; [by eexists|].
  apply orb_false_iff in Hbps as [[Hbps1%Z.ltb_ge Hbps2]%orb_false_iff Hbps3].
  rewrite Z.gtb_ltb in Hbps2. apply Z.ltb_ge in Hbps2.
  destruct (Z.ltb_spec bps bs) as [|Hbb]; [by eexists|].
  destruct (byte_range buf 13 ltac:(lia) Hbuf) as (cs & -> & Hcs0). cbn [mbind option_bind].
  destruct (_ || not_power_of_two cs) eqn:Hcs; [by eexists|].
  apply orb_false_iff in Hcs as [[Hcs1%Z.ltb_ge Hcs2]%orb_false_iff Hcs3].
  rewrite Z.gtb_ltb in Hcs2. apply Z.ltb_ge in Hcs2.
  destruct (LE16_range buf 14 ltac:(lia) ltac:(lia) Hbuf) as (reserved & -> & Hres). cbn [mbind option_bind].
  destruct (Z.eqb_spec reserved 0); [by eexists|].
  destruct (byte_range buf 16 ltac:(lia) Hbuf) as (tables & -> & Htab). cbn [mbind option_bind].
  destruct (negb (tables =? 1) && negb (tables =? 2)) eqn:Htables; [by eexists|].
  assert (Ht12 : tables = 1 ∨ tables = 2)
    by (destruct (Z.eqb_spec tables 1), (Z.eqb_spec tables 2); auto; done).
  destruct (LE16_range buf 17 ltac:(lia) ltac:(lia) Hbuf) as (entries & -> & Hent). cbn [mbind option_bind].
  destruct (directory_sectors entries bps) as [dir|] eqn:Hdir; [|by eexists].
  destruct (directory_sectors_spec _ _ _ Hent Hbps1 Hdir) as [Hdir1 Hdir2].
  destruct (LE16_range buf 19 ltac:(lia) ltac:(lia) Hbuf) as (t16 & -> & Ht16). cbn [mbind option_bind].
  destruct (LE32_range buf 32 ltac:(lia) ltac:(lia) Hbuf) as (t32 & -> & Ht32). cbn [mbind option_bind].
  destruct (total_sectors t16 t32) as [total|] eqn:Htot; [|by eexists].
  pose proof (total_sectors_spec _ _ _ Ht16 Ht32 Htot) as Htr.
  destruct (Z.ltb_spec bt (total / (bps / bs))) as [|Hdev]; [by eexists|].
  destruct (LE16_range buf 22 ltac:(lia) ltac:(lia) Hbuf) as (s16 & -> & Hs16). cbn [mbind option_bind].
  assert (Hts : ∃ ts, (if negb (s16 =? 0) then Some s16 else LE32 buf 36) = Some ts ∧ 0 ≤ ts < 2 ^ 32).
  { destruct (s16 =? 0); cbn [negb]; [|exists s16; split; [done|lia]]. apply LE32_range; [lia|lia|done]. }
  destruct Hts as (ts & -> & Hts). cbn [mbind option_bind].
  destruct (power_of_two bps ltac:(lia) Hbps3) as (kb & Hkb & Ekb).
  destruct (power_of_two bs ltac:(lia) Hb2) as (kd & Hkd & Ekd).
  destruct (power_of_two cs ltac:(lia) Hcs3) as (kc & Hkc & Ekc).
  assert (Hkb9 : 9 ≤ kb).
  { destruct (Z.le_gt_cases 9 kb); [done|]. assert (2 ^ kb ≤ 2 ^ 8) by (apply Z.pow_le_mono_r; lia).
    change (2 ^ 8) with 256 in *. lia. }
  assert (Hkc7 : kc ≤ 7).
  { destruct (Z.le_gt_cases kc 7); [done|]. assert (2 ^ 8 ≤ 2 ^ kc) by (apply Z.pow_le_mono_r; lia).
    change (2 ^ 8) with 256 in *. lia. }
  assert (Hkdb : kd ≤ kb).
  { apply (Z.pow_le_mono_r_iff 2); lia. }
  assert (Hmul : bps = bps / bs * bs ∧ 1 ≤ bps / bs ≤ 4096).
  { rewrite Ekb, Ekd. rewrite <- Z.pow_sub_r by lia. split.
    - rewrite <- Z.pow_add_r by lia. f_equal. lia.
    - split; [pose proof (Z.pow_pos_nonneg 2 (kb - kd)); lia|].
      change 4096 with (2 ^ 12). apply Z.pow_le_mono_r; lia. }
  destruct (Z.gtb_spec ts (0x40000000 / bps)) as [|Htsz]; [by eexists|].
  assert (Htsz2 : ts * bps ≤ 0x40000000)
    by (pose proof (Z.mul_div_le 0x40000000 bps ltac:(lia)); nia).
  assert (Hts21 : ts ≤ 2 ^ 21).
  { change (2 ^ 21) with 2097152. nia. }
  rewrite (wrap_small 32 (ts * bps)) by (change (2 ^ 32) with 4294967296; nia).
  destruct (data_sectors reserved ts tables dir cs total) as [[data clusters]|] eqn:Hdata; [|by eexists].
  apply data_sectors_spec in Hdata as (Hsum & Hcl & Hcl1 & Hd0); [|lia..].
  assert (Hcd : clusters ≤ data).
  { rewrite Hcl. apply Z.div_le_upper_bound; nia. }
  assert (0 ≤ tables * ts) by nia.
  destruct (type_tests_spec buf clusters (ts * bps) reserved entries data 0 Hl Hbuf Hcl1
              ltac:(lia) Hcd ltac:(lia) eq_refl) as (r & -> & Hr).
  cbn [mbind option_bind]. destruct r as [[root info]|]; [|by eexists].
  destruct (Hr root info eq_refl) as (He1 & He2 & He3). clear Hr.
  destruct (negb malloc_ok); [by eexists|]. eexists. split; [done|]. intros g [= <-].
  split.
  - change (2 ^ 32) with 4294967296 in *. change (2 ^ 21) with 2097152 in *.
    constructor; cbn -[determine_type]; try done.
    + exists kb. split; [lia|done].
    + exists kc. split; [lia|done].
    + apply wrap_small. change (2 ^ 32) with 4294967296. nia.
    + lia.
    + lia.
    + lia.
    + rewrite (wrap_small 32 (tables * ts)), (wrap_small 32 (reserved + _)), wrap_small
        by (change (2 ^ 32) with 4294967296; nia). done.
    + lia.
    + lia.
  - exists bs, bt. cbn. split; [done|]. split; [lia|done].
Qed.

(** ** Properties *)

(** (C35) A volume that [read_bios_parameter_block] accepts has a sound
    geometry.  For every answer of the device and every boot sector, the
    function ends without an access outside the sector.  When it accepts, the
    sizes of sector and cluster are powers of two, no sum or product wrapped
    around, the reserved sectors, the tables, the root directory and the data
    sectors make up the volume exactly, the table has room for the entry of every
    cluster (so that no later access to an entry leaves it), the type is
    the one of the number of clusters and, for FAT32, the root cluster and the
    information sector exist. *)
Theorem bpb_sound (get_size : option (Z * Z)) (io_read : option (list Z)) (malloc_ok : bool) :
  (∀ bs bt, get_size = Some (bs, bt) → 0 ≤ bs ∧ 0 ≤ bt) →
  (∀ buf, io_read = Some buf → 512 ≤ Z.of_nat (length buf) ∧ Forall is_byte buf) →
  ∃ r, read_bios_parameter_block get_size io_read malloc_ok = Some r ∧
    ∀ g, r = Some g → geometry_ok g ∧
      ∃ bs bt, get_size = Some (bs, bt) ∧ fs_bytes_per_sector g = io_mul g * bs ∧
        fs_total_sectors g / io_mul g ≤ bt.
Proof. apply read_bpb_spec. Qed.

(** A boot sector from its fields. *)
Definition sector (fields : list (Z * list Z)) : list Z :=
  foldl (λ buf f, let '(i, bytes) := f in
           foldl (λ b x, <[Z.to_nat (i + fst x) := snd x]> b) buf (imap (λ k v, (Z.of_nat k, v)) bytes))
    (replicate 512 0) fields.

(** A volume of 20480 sectors of 512 bytes, 4 per cluster, with FAT16. *)
Definition fat16_sector : list Z :=
  sector [(0, [0xEB; 0x3C]); (11, [0; 2; 4; 1; 0; 2; 0; 2; 0; 0x50; 0xF8; 20; 0]);
          (510, [0x55; 0xAA])].

Definition fat16_geometry : geometry :=
  Geometry 512 1 4 1 2 512 32 20480 20 10240 20407 5101 type_16 0 0 40 2048.

Lemma fat16_accepted :
  read_bios_parameter_block (Some (512, 20480)) (Some fat16_sector) true
  = Some (Some fat16_geometry).
Proof. vm_compute. reflexivity. Qed.

Lemma fat16_sector_ok : 512 ≤ Z.of_nat (length fat16_sector) ∧ Forall is_byte fat16_sector.
Proof.
  split; [vm_compute; discriminate|].
  assert (H : forallb (λ b, (0 <=? b) && (b <? 256)) fat16_sector = true)
    by (vm_compute; reflexivity).
  rewrite forallb_forall in H. apply Forall_forall. intros b Hb%H. unfold is_byte. lia.
Qed.

Lemma bpb_sound_witness :
  read_bios_parameter_block (Some (512, 20480)) (Some fat16_sector) true
    = Some (Some fat16_geometry) ∧
  ∃ r, read_bios_parameter_block (Some (512, 20480)) (Some fat16_sector) true = Some r ∧
    ∀ g, r = Some g → geometry_ok g ∧
      ∃ bs bt, Some (512, 20480) = Some (bs, bt) ∧ fs_bytes_per_sector g = io_mul g * bs ∧
        fs_total_sectors g / io_mul g ≤ bt.
Proof.
  split; [vm_compute; reflexivity|].
  apply (bpb_sound (Some (512, 20480)) (Some fat16_sector) true).
  - intros bs bt [= <- <-]. lia.
  - intros buf Hbuf. injection Hbuf as <-. exact fat16_sector_ok.
Defined.

(** The test of the volume against the device is off by the square of
    [io_mul]: [block_total] counts blocks of the device and is compared with
    the sectors {e divided} by the blocks per sector, where every access
    multiplies by them.  With sectors of 4096 bytes on a device of 512-byte
    blocks a volume is accepted that is 64 times as large as the device. *)
Theorem bpb_larger_than_device :
  ∃ boot block_total g,
    read_bios_parameter_block (Some (512, block_total)) (Some boot) true = Some (Some g) ∧
    io_mul g = 8 ∧ fs_total_sectors g * io_mul g = 64 * block_total.
Proof.
  exists (sector [(0, [0xEB; 0x3C]); (11, [0; 0x10; 4; 1; 0; 2; 0; 2; 0; 0x50; 0xF8; 3; 0]);
                  (510, [0x55; 0xAA])]), 2560.
  eexists. split; [vm_compute; reflexivity|]. split; reflexivity.
Qed.
