(* ===== verification/FatTable.v ===== *)
(** The file allocation table of a FAT volume: the table, block and cluster
    buffers of common/fat.c and the operations on cluster chains.

    The device behind [fat_io_read] and [fat_io_write] is the interface
    [BlockDevice]; its laws are the class [BlockDeviceOk].  The record [fat] has
    the fields of [struct fat_instance] that these functions change; the fields
    that [read_bios_parameter_block] computed are the argument [g]. *)

From S2P Require Import Prelude FatBpb.

(** ** The device *)

(** [io_read] answers the device, success, and the bytes that are put into the
    buffer; [io_write] the device and success. *)
Class BlockDevice (D : Type) := {
  io_read : D → Z → Z → D * bool * list Z;
  io_write : D → Z → list Z → D * bool }.

Definition FAT_BLOCK_READ_ERROR : Z := 0x10.
Definition FAT_BLOCK_WRITE_ERROR : Z := 0x11.
Definition FAT_INCONSISTENT_STATE : Z := 0x15.
Definition FAT_NOT_ENOUGH_SPACE : Z := 0x18.
Definition FAT_NOT_READY : Z := 0x19.

Record fat := Fat {
  ready : bool;
  table_buffer : list Z;
  table_sectors : list Z;
  table_offset : Z;
  fs_info_free : Z;
  fs_info_next : Z;
  last_allocated : Z;
  block_buffer : list Z;
  block_buffer_lba : Z;
  cluster_buffer : list Z;
  cluster_buffer_lba : Z;
  cluster_sector : Z }.

Definition table_entries (f : fat) : Z := Z.of_nat (length (table_sectors f)).

Definition set_ready (f : fat) (r : bool) : fat :=
  Fat r (table_buffer f) (table_sectors f) (table_offset f) (fs_info_free f) (fs_info_next f)
    (last_allocated f) (block_buffer f) (block_buffer_lba f) (cluster_buffer f)
    (cluster_buffer_lba f) (cluster_sector f).

Definition set_table (f : fat) (buffer sectors : list Z) (offset : Z) : fat :=
  Fat (ready f) buffer sectors offset (fs_info_free f) (fs_info_next f)
    (last_allocated f) (block_buffer f) (block_buffer_lba f) (cluster_buffer f)
    (cluster_buffer_lba f) (cluster_sector f).

Definition set_info (f : fat) (free next : Z) : fat :=
  Fat (ready f) (table_buffer f) (table_sectors f) (table_offset f) free next
    (last_allocated f) (block_buffer f) (block_buffer_lba f) (cluster_buffer f)
    (cluster_buffer_lba f) (cluster_sector f).

Definition set_last_allocated (f : fat) (last : Z) : fat :=
  Fat (ready f) (table_buffer f) (table_sectors f) (table_offset f) (fs_info_free f)
    (fs_info_next f) last (block_buffer f) (block_buffer_lba f) (cluster_buffer f)
    (cluster_buffer_lba f) (cluster_sector f).

Definition set_block (f : fat) (buffer : list Z) (lba : Z) : fat :=
  Fat (ready f) (table_buffer f) (table_sectors f) (table_offset f) (fs_info_free f)
    (fs_info_next f) (last_allocated f) buffer lba (cluster_buffer f)
    (cluster_buffer_lba f) (cluster_sector f).

Definition set_cluster (f : fat) (buffer : list Z) (lba sector : Z) : fat :=
  Fat (ready f) (table_buffer f) (table_sectors f) (table_offset f) (fs_info_free f)
    (fs_info_next f) (last_allocated f) (block_buffer f) (block_buffer_lba f) buffer lba sector.

(** [size] bytes of a buffer from [i]; all of them must exist. *)
Definition slice (l : list Z) (i size : Z) : option (list Z) :=
  if (0 <=? i) && (0 <=? size) && (i + size <=? Z.of_nat (length l))
  then Some (take (Z.to_nat size) (drop (Z.to_nat i) l)) else None.

(** A copy of [data] to the index [i] of a buffer. *)
Definition splice (l : list Z) (i : Z) (data : list Z) : option (list Z) :=
  if (0 <=? i) && (i + Z.of_nat (length data) <=? Z.of_nat (length l))
  then Some (take (Z.to_nat i) l ++ data ++ drop (Z.to_nat i + length data) l) else None.

Section Fat.
Context {D : Type} `{BlockDevice D} (g : geometry).

(** *** The table buffer *)

(** The end of a run of modified sectors that begins before [i]. *)
Fixpoint run_end (n : nat) (sectors : list Z) (i : Z) : option Z :=
  match n with
  | O => Some i
  | S n =>
      if i <? Z.of_nat (length sectors) then
        x ← sectors.[i];
        if x =? 0 then Some i else run_end n sectors (i + 1)
      else Some i
  end.

(** One turn of the loops of [write_table]: the device, i, and success.
    [first] is the sector of the table on the device. *)
Definition write_turn (f : fat) (first : Z) (stop : bool) (x : D * Z)
  : option (ctl (D * Z) (D * bool)) :=
  let '(d, i) := x in
  if i <? table_entries f then
    m ← (table_sectors f).[i];
    if m =? 0 then Some (Next (d, i + 1))
    else
      let lba := (first + i + table_offset f / fs_bytes_per_sector g) * io_mul g in
      j ← run_end (length (table_sectors f)) (table_sectors f) (i + 1);
      data ← slice (table_buffer f) (i * fs_bytes_per_sector g)
               ((j - i) * fs_bytes_per_sector g);
      let '(d, ok) := io_write d lba data in
      Some (if negb ok && stop then Done (d, false) else Next (d, j))
  else Some (Done (d, true)).

Definition write_sectors (f : fat) (first : Z) (stop : bool) (d : D) : option (D * bool) :=
  while (S (length (table_sectors f))) (write_turn f first stop) (d, 0).

(** The device, the instance and the error code. *)
Definition write_table (d : D) (f : fat) : option (D * fat * Z) :=
  '(d, ok) ← write_sectors f (fs_reserved_sectors g) true d;
  if negb ok then Some (d, set_ready f false, FAT_BLOCK_WRITE_ERROR)
  else
    '(d, _) ← (if fs_tables g <? 2 then Some (d, true)
               else write_sectors f (fs_reserved_sectors g + fs_table_sectors g) false d);
    Some (d, set_table f (table_buffer f) (replicate (length (table_sectors f)) 0)
               (table_offset f), 0).

Definition table_buffer_size : Z := 0x00020000.

(** [read_table_buffer]; the buffer exists, as [fat_create] has made it.  The
    results are the device, the instance, the error code and *table_offset. *)
Definition read_table_buffer (d : D) (f : fat) (offset : Z) : option (D * fat * Z * Z) :=
  let off1 := Z.land offset 0x0001FFFF in
  let off2 := Z.land offset 0xFFFE0000 in
  if table_offset f =? off2 then Some (d, f, 0, off1)
  else
    '(d, f, r) ← write_table d f;
    if negb (r =? 0) then
      Some (d, set_table f (replicate (length (table_buffer f)) 0)
                 (replicate (length (table_sectors f)) 0) (table_offset f),
            FAT_BLOCK_WRITE_ERROR, off1)
    else
      let f := set_table f (table_buffer f) (table_sectors f) off2 in
      let lba := (fs_reserved_sectors g + off2 / fs_bytes_per_sector g) * io_mul g in
      let over := off2 + table_buffer_size >? fs_table_size g in
      let f := if over
               then set_table f (replicate (length (table_buffer f)) 0) (table_sectors f) off2
               else f in
      let size := if over then off2 + table_buffer_size - fs_table_size g else 0 in
      if table_buffer_size <? size then Some (d, set_ready f false, FAT_INCONSISTENT_STATE, off1)
      else
        let '(d, ok, data) := io_read d lba (table_buffer_size - size) in
        buffer ← splice (table_buffer f) 0 data;
        let f := set_table f buffer (table_sectors f) off2 in
        Some (if (ok : bool) then (d, f, 0, off1)
              else (d, set_ready f false, FAT_BLOCK_READ_ERROR, off1)).

(** *** The entries *)

Definition get_table_value (d : D) (f : fat) (off : Z) : option (D * fat * Z) :=
  if off >=? u32 (fs_clusters g + 2) then Some (d, f, 1)
  else
    match type g with
    | type_12 =>
        v ← LE16 (table_buffer f) (u32 (off + Z.shiftr off 1));
        let v := if negb (Z.land off 1 =? 0) then Z.shiftr v 4 else v in
        let v := Z.land v 0x0FFF in
        Some (d, f, if v >=? 0x0FF8 then Z.lor v 0x0FFFF000 else v)
    | type_16 =>
        v ← LE16 (table_buffer f) (u32 (Z.shiftl off 1));
        Some (d, f, if v >=? 0xFFF8 then Z.lor v 0x0FFF0000 else v)
    | type_32 =>
        '(d, f, r, add) ← read_table_buffer d f (u32 (Z.shiftl off 2));
        if negb (r =? 0) then Some (d, f, 1)
        else
          v ← LE32 (table_buffer f) add;
          Some (d, f, Z.land v 0x0FFFFFFF)
    end.

(** The accounting of [set_table_value] for FAT32. *)
Definition account (f : fat) (off old_val val : Z) : fat :=
  if negb (fs_info_free f =? 0xFFFFFFFF) then
    let free :=
      if Z.land old_val 0x0FFFFFFF =? 0
      then (if negb (val =? 0) then u32 (fs_info_free f - 1) else fs_info_free f)
      else (if val =? 0 then u32 (fs_info_free f + 1) else fs_info_free f) in
    set_info f free (if negb (val =? 0) then off else fs_info_next f)
  else f.

Definition set_table_value (d : D) (f : fat) (off val : Z) : option (D * fat * Z) :=
  let bps := fs_bytes_per_sector g in
  if off >=? u32 (fs_clusters g + 2) then Some (d, f, FAT_INCONSISTENT_STATE)
  else
    match type g with
    | type_12 =>
        let add := u32 (off + Z.shiftr off 1) in
        old_val ← LE16 (table_buffer f) add;
        let val :=
          if negb (Z.land off 1 =? 0)
          then Z.lor (Z.land (u32 (Z.shiftl val 4)) 0xFFF0) (Z.land old_val 0x000F)
          else Z.lor (Z.land val 0x0FFF) (Z.land old_val 0xF000) in
        let sec := add / bps in
        sectors ← (if add =? bps - 1 then (table_sectors f).[sec + 1 <- 1]
                   else Some (table_sectors f));
        sectors ← sectors.[sec <- 1];
        buffer ← W_LE16 (table_buffer f) add val;
        Some (d, set_table f buffer sectors (table_offset f), 0)
    | type_16 =>
        let add := u32 (Z.shiftl off 1) in
        sectors ← (table_sectors f).[add / bps <- 1];
        buffer ← W_LE16 (table_buffer f) add val;
        Some (d, set_table f buffer sectors (table_offset f), 0)
    | type_32 =>
        '(d, f, r, add) ← read_table_buffer d f (u32 (Z.shiftl off 2));
        if negb (r =? 0) then Some (d, f, r)
        else
          sectors ← (table_sectors f).[add / bps <- 1];
          old_val ← LE32 (table_buffer f) add;
          let f := account f off old_val val in
          let val := Z.lor (Z.land val 0x0FFFFFFF) (Z.land old_val 0xF0000000) in
          buffer ← W_LE32 (table_buffer f) add val;
          Some (d, set_table f buffer sectors (table_offset f), 0)
    end.

(** *** Blocks and clusters *)

Definition read_block (d : D) (f : fat) (lba : Z) : option (D * fat * bool) :=
  let size := fs_bytes_per_sector g in
  if lba =? 0 then Some (d, f, true)
  else if block_buffer_lba f =? lba then Some (d, f, false)
  else if cluster_buffer_lba f =? lba then
    src ← slice (cluster_buffer f) 0 size;
    buffer ← splice (block_buffer f) 0 src;
    Some (d, set_block f buffer lba, false)
  else
    let '(d, ok, data) := io_read d lba size in
    buffer ← splice (block_buffer f) 0 data;
    Some (if (ok : bool) then (d, set_block f buffer lba, false)
          else (d, set_block f buffer 0, true)).

Definition write_block (d : D) (f : fat) (lba : Z) : option (D * fat * bool) :=
  let f := set_cluster f (cluster_buffer f) 0 (cluster_sector f) in
  data ← slice (block_buffer f) 0 (fs_bytes_per_sector g);
  let '(d, ok) := io_write d lba data in
  Some (d, f, negb ok).

Definition read_cluster (d : D) (f : fat) (cluster : Z) (skip_io : bool) : option (D * fat * Z) :=
  if u32 (cluster - 2) >=? fs_clusters g then Some (d, f, FAT_INCONSISTENT_STATE)
  else
    let lba := u32 (fs_total_sectors g - fs_data_sectors g)
               + u32 (u32 (cluster - 2) * fs_cluster_sectors g) in
    let f := set_cluster f (cluster_buffer f) (cluster_buffer_lba f) (u32 lba) in
    if skip_io then Some (d, set_cluster f (cluster_buffer f) 0 (cluster_sector f), 0)
    else
      let lba := lba * io_mul g in
      if cluster_buffer_lba f =? lba then Some (d, f, 0)
      else
        let '(d, ok, data) := io_read d lba (cluster_size g) in
        buffer ← splice (cluster_buffer f) 0 data;
        Some (if (ok : bool) then (d, set_cluster f buffer lba (cluster_sector f), 0)
              else (d, set_cluster f (replicate (length buffer) 0) 0 (cluster_sector f),
                    FAT_BLOCK_READ_ERROR)).

Definition write_cluster (d : D) (f : fat) : option (D * fat * Z) :=
  if cluster_sector f <=? fs_last_table_sector g then Some (d, f, FAT_INCONSISTENT_STATE)
  else
    let lba := cluster_sector f * io_mul g in
    let f := set_block f (block_buffer f) 0 in
    data ← slice (cluster_buffer f) 0 (cluster_size g);
    let '(d, ok) := io_write d lba data in
    Some (d, f, if (ok : bool) then 0 else FAT_BLOCK_WRITE_ERROR).

(** [memset(this_fat->cluster_buffer, 0, cluster_size)] *)
Definition clear_cluster (f : fat) : fat :=
  set_cluster f (replicate (length (cluster_buffer f)) 0) (cluster_buffer_lba f) (cluster_sector f).

(** *** Allocation and chains *)

(** The loops of [allocate_cluster]: the first free entry from [i], [n] left. *)
Fixpoint find_free (n : nat) (d : D) (f : fat) (i : Z) : option (D * fat * option Z) :=
  match n with
  | O => Some (d, f, None)
  | S n =>
      '(d, f, v) ← get_table_value d f i;
      if v =? 0 then Some (d, set_last_allocated f i, Some i)
      else find_free n d f (i + 1)
  end.

(** The device, the instance, the error code and *cluster. *)
Definition allocate_cluster (d : D) (f : fat) : option (D * fat * Z * Z) :=
  let clusters := u32 (fs_clusters g + 2) in
  '(d, f, r) ←
    (if last_allocated f >? 2
     then find_free (Z.to_nat (clusters - last_allocated f)) d f (last_allocated f)
     else Some (d, f, None));
  match r with
  | Some i => Some (d, f, 0, i)
  | None =>
      '(d, f, r) ← find_free (Z.to_nat (clusters - 2)) d f 2;
      Some (match r with
            | Some i => (d, f, 0, i)
            | None => (d, f, FAT_NOT_ENOUGH_SPACE, 0)
            end)
  end.

(** "if (fast == 0 && (r = write_table(fat)) != 0) return r" *)
Definition write_table_unless (fast : bool) (d : D) (f : fat) : option (D * fat * Z) :=
  if fast then Some (d, f, 0) else write_table d f.

Definition append_cluster (d : D) (f : fat) (current_cluster : Z) (fast : bool)
  : option (D * fat * Z) :=
  '(d, f, cluster) ← get_table_value d f current_cluster;
  if (cluster >? 2) && (cluster <? 0x0FFFFFF8) then Some (d, f, FAT_INCONSISTENT_STATE)
  else
    '(d, f, r, cluster) ← allocate_cluster d f;
    if negb (r =? 0) then Some (d, f, FAT_NOT_ENOUGH_SPACE)
    else
      '(d, f, r) ←
        (if fast then Some (d, f, 0)
         else
           '(d, f, r) ← read_cluster d f cluster true;
           if negb (r =? 0) then Some (d, f, r)
           else write_cluster d (clear_cluster f));
      if negb (r =? 0) then Some (d, f, r)
      else
        '(d, f, r) ← set_table_value d f cluster 0x0FFFFFFF;
        if negb (r =? 0) then Some (d, f, r)
        else
          '(d, f, r) ← write_table_unless fast d f;
          if negb (r =? 0) then Some (d, f, r)
          else
            '(d, f, r) ← set_table_value d f current_cluster cluster;
            if negb (r =? 0) then Some (d, f, r)
            else write_table_unless fast d f.

(** One turn of the loop of [delete_clusters]. *)
Definition delete_turn (x : D * fat * Z) : option (ctl (D * fat * Z) (D * fat)) :=
  let '(d, f, cluster) := x in
  if (cluster >=? 2) && (cluster <? 0x0FFFFFF8) then
    '(d, f, r) ← read_cluster d f cluster true;
    '(d, f, _) ← (if r =? 0 then write_cluster d (clear_cluster f) else Some (d, f, 0));
    '(d, f, next_cluster) ← get_table_value d f cluster;
    '(d, f, _) ← set_table_value d f cluster 0;
    Some (Next (d, f, next_cluster))
  else Some (Done (d, f)).

Definition delete_clusters (d : D) (f : fat) (start_cluster : Z) : option (D * fat) :=
  '(d, f) ← while (Z.to_nat (fs_clusters g) + 4) delete_turn (d, f, start_cluster);
  let f := set_last_allocated f 0 in
  '(d, f, _) ← write_table d f;
  Some (d, f).
End Fat.

(** ** The device, specified

    [content] is the device as an array of bytes; a block is [bs] bytes.  This
    is a device that does not fail. *)
Class BlockDeviceOk (D : Type) `{BlockDevice D} (bs : Z) := {
  content : D → Z → Z;
  content_byte : ∀ d a, is_byte (content d a);
  io_read_ok : ∀ d lba size, 0 ≤ lba → 0 ≤ size →
    ∃ d' data, io_read d lba size = (d', true, data) ∧ Z.of_nat (length data) = size ∧
      (∀ j, 0 ≤ j < size → data.[j] = Some (content d (lba * bs + j))) ∧
      (∀ a, content d' a = content d a);
  io_write_ok : ∀ d lba data, 0 ≤ lba → Forall is_byte data →
    ∃ d', io_write d lba data = (d', true) ∧
      ∀ a, content d' a = match data.[a - lba * bs] with
                          | Some x => x
                          | None => content d a
                          end }.

(** A device that is a function from addresses to bytes. *)
Definition memory : Type := Z → Z.

#[export] Instance memory_device : BlockDevice memory := {|
  io_read d lba size :=
    (d, true, (λ j, (d (lba * 512 + j)) mod 256) <$> seqZ 0 size);
  io_write d lba data :=
    (λ a, match data.[a - lba * 512] with Some x => x | None => d a end, true) |}.

#[export] Instance memory_device_ok : BlockDeviceOk memory 512.
Proof.
  refine {| content := λ (d : memory) a, (d a) mod 256 |}.
  - intros d a. unfold is_byte. apply Z.mod_pos_bound. lia.
  - intros d lba size Hl Hs. eexists _, _. split; [reflexivity|].
    rewrite length_fmap, length_seqZ. split; [lia|]. split; [|done].
    intros j Hj. apply rd_Some. split; [lia|]. rewrite list_lookup_fmap.
    rewrite lookup_seqZ_lt by lia. cbn. do 3 f_equal. lia.
  - intros d lba data Hl Hb. eexists. split; [reflexivity|]. intros a. cbv beta.
    destruct (data.[a - lba * 512]) as [x|] eqn:Hx; [|done].
    apply rd_Some in Hx as [_ Hx]. pose proof (Forall_lookup_1 _ _ _ _ Hb Hx).
    apply Z.mod_small. done.
Defined.

(** ** Buffers *)

(** The byte at an index. *)
Definition at_ (l : list Z) (k : Z) : Z := default 0 (l.[k]).

Lemma at_rd l k : 0 ≤ k < Z.of_nat (length l) → l.[k] = Some (at_ l k).
Proof. intros Hk. unfold at_. destruct (rd_is_Some l k Hk) as [x Hx]. by rewrite Hx. Qed.

Lemma at_byte l k : Forall is_byte l → is_byte (at_ l k).
Proof.
  intros Hl. unfold at_. destruct (l.[k]) as [x|] eqn:Hx; cbn; [|unfold is_byte; lia].
  apply rd_Some in Hx as [_ Hx]. by apply (Forall_lookup_1 _ _ _ _ Hl Hx).
Qed.

Lemma at_wr l l' i x k :
  wr l i x = Some l' → 0 ≤ k → at_ l' k = if k =? i then x else at_ l k.
Proof.
  intros Hw Hk. apply wr_Some_inv in Hw as [Hi ->]. unfold at_, rd.
  rewrite (proj2 (Z.leb_le 0 k) Hk). destruct (Z.eqb_spec k i) as [->|Hne].
  - rewrite list_lookup_insert_eq by lia. done.
  - rewrite list_lookup_insert_ne by lia. done.
Qed.

Lemma slice_spec l i size :
  0 ≤ i → 0 ≤ size → i + size ≤ Z.of_nat (length l) →
  ∃ r, slice l i size = Some r ∧ Z.of_nat (length r) = size ∧
    (∀ k, r.[k] = if (0 <=? k) && (k <? size) then l.[i + k] else None) ∧
    (Forall is_byte l → Forall is_byte r).
Proof.
  intros Hi Hs Hl. unfold slice.
  rewrite !(proj2 (Z.leb_le _ _)) by lia. cbn [andb]. eexists. split; [reflexivity|].
  rewrite length_take, length_drop. split; [lia|]. split.
  - intros k. unfold rd. destruct (Z.leb_spec 0 k); cbn [andb]; [|done].
    destruct (Z.ltb_spec k size).
    + rewrite lookup_take_lt, lookup_drop by lia. rewrite (proj2 (Z.leb_le 0 (i + k))) by lia.
      f_equal. lia.
    + rewrite lookup_take_ge by lia. done.
  - auto with bytes.
Qed.

Lemma splice_0 l data :
  (length data ≤ length l)%nat →
  ∃ r, splice l 0 data = Some r ∧ length r = length l ∧
    (∀ k, 0 ≤ k → at_ r k = if k <? Z.of_nat (length data) then at_ data k else at_ l k) ∧
    (Forall is_byte l → Forall is_byte data → Forall is_byte r).
Proof.
  intros Hl. unfold splice. rewrite (proj2 (Z.leb_le _ _)) by lia. cbn [andb].
  rewrite (proj2 (Z.leb_le _ _)) by lia. eexists. split; [reflexivity|].
  change (Z.to_nat 0) with 0%nat. rewrite take_0, app_nil_l, Nat.add_0_l.
  split; [rewrite length_app, length_drop; lia|]. split.
  - intros k Hk. unfold at_. destruct (Z.ltb_spec k (Z.of_nat (length data))).
    + by rewrite rd_app_l by lia.
    + rewrite rd_app_r by lia. unfold rd.
      rewrite !(proj2 (Z.leb_le _ _)) by lia. rewrite lookup_drop. do 2 f_equal. lia.
  - auto with bytes.
Qed.

Lemma at_replicate n k : at_ (replicate n 0) k = 0.
Proof.
  unfold at_. destruct ((replicate n 0).[k]) as [x|] eqn:Hx; [|done].
  apply rd_Some in Hx as [_ Hx]. apply lookup_replicate in Hx as [-> _]. done.
Qed.

Lemma LE16_at l k :
  0 ≤ k → k + 2 ≤ Z.of_nat (length l) → Forall is_byte l →
  LE16 l k = Some (at_ l k + 256 * at_ l (k + 1)).
Proof.
  intros Hk Hl Hb. destruct (LE16_spec l k Hk Hl Hb) as (b0 & b1 & H0 & H1 & _ & _ & ->).
  unfold at_. by rewrite H0, H1.
Qed.

Lemma LE32_at l k :
  0 ≤ k → k + 4 ≤ Z.of_nat (length l) → Forall is_byte l →
  LE32 l k = Some (at_ l k + 256 * at_ l (k + 1) + 65536 * at_ l (k + 2)
                   + 16777216 * at_ l (k + 3)).
Proof.
  intros Hk Hl Hb.
  destruct (LE32_spec l k Hk Hl Hb) as (b0 & b1 & b2 & b3 & H0 & H1 & H2 & H3 & _ & _ & _ & _ & ->).
  unfold at_. by rewrite H0, H1, H2, H3.
Qed.

Lemma land_255 v : Z.land v 0xFF = v mod 256.
Proof. exact (land_ones_mod v 8 ltac:(lia)). Qed.

Lemma W_LE16_at l k v :
  0 ≤ k → k + 2 ≤ Z.of_nat (length l) →
  ∃ l', W_LE16 l k v = Some l' ∧ length l' = length l ∧
    (∀ j, 0 ≤ j → at_ l' j = if j =? k then v mod 256 else if j =? k + 1 then (v / 256) mod 256
                             else at_ l j) ∧
    (Forall is_byte l → Forall is_byte l').
Proof.
  intros Hk Hl. unfold W_LE16. rewrite !land_255, Z.shiftr_div_pow2 by lia. change (2 ^ 8) with 256.
  rewrite wr_Some by lia. cbn [mbind option_bind].
  rewrite wr_Some by (rewrite length_insert; lia). eexists. split; [reflexivity|].
  rewrite !length_insert. split; [done|]. split.
  - intros j Hj. rewrite (at_wr _ _ (k + 1) ((v / 256) mod 256) j
                            (wr_Some (<[Z.to_nat k := v mod 256]> l) (k + 1) _
                               ltac:(rewrite length_insert; lia)) Hj).
    rewrite (at_wr _ _ k (v mod 256) j (wr_Some l k _ ltac:(lia)) Hj).
    destruct (Z.eqb_spec j (k + 1)), (Z.eqb_spec j k); try done. lia.
  - auto with bytes.
Qed.

Lemma W_LE32_at l k v :
  0 ≤ k → k + 4 ≤ Z.of_nat (length l) →
  ∃ l', W_LE32 l k v = Some l' ∧ length l' = length l ∧
    (∀ j, 0 ≤ j → at_ l' j
       = if j =? k then v mod 256 else if j =? k + 1 then (v / 256) mod 256
         else if j =? k + 2 then (v / 65536) mod 256
         else if j =? k + 3 then (v / 16777216) mod 256 else at_ l j) ∧
    (Forall is_byte l → Forall is_byte l').
Proof.
  intros Hk Hl. unfold W_LE32. rewrite !land_255, !Z.shiftr_div_pow2 by lia.
  change (2 ^ 8) with 256. change (2 ^ 16) with 65536. change (2 ^ 24) with 16777216.
  destruct (l.[k <- v mod 256]) as [l1|] eqn:H1; [|rewrite wr_Some in H1 by lia; done].
  pose proof (wr_Some_inv _ _ _ _ H1) as [_ E1]. cbn [mbind option_bind].
  assert (L1 : length l1 = length l) by (rewrite E1; apply length_insert).
  destruct (l1.[k + 1 <- (v / 256) mod 256]) as [l2|] eqn:H2; [|rewrite wr_Some in H2 by lia; done].
  pose proof (wr_Some_inv _ _ _ _ H2) as [_ E2]. cbn [mbind option_bind].
  assert (L2 : length l2 = length l) by (rewrite E2, length_insert; done).
  destruct (l2.[k + 2 <- (v / 65536) mod 256]) as [l3|] eqn:H3;
    [|rewrite wr_Some in H3 by lia; done].
  pose proof (wr_Some_inv _ _ _ _ H3) as [_ E3]. cbn [mbind option_bind].
  assert (L3 : length l3 = length l) by (rewrite E3, length_insert; done).
  rewrite wr_Some by lia. eexists. split; [reflexivity|].
  rewrite length_insert. split; [done|]. split.
  - intros j Hj.
    rewrite (at_wr _ _ (k + 3) ((v / 16777216) mod 256) j (wr_Some l3 (k + 3) _ ltac:(lia)) Hj).
    rewrite (at_wr _ _ _ _ j H3 Hj), (at_wr _ _ _ _ j H2 Hj), (at_wr _ _ _ _ j H1 Hj).
    destruct (Z.eqb_spec j k), (Z.eqb_spec j (k + 1)), (Z.eqb_spec j (k + 2)),
      (Z.eqb_spec j (k + 3)); try done; lia.
  - rewrite E3, E2, E1. auto with bytes.
Qed.

(** ** The state of the table *)

(** The value of an entry, from the bytes of the table. *)
Definition entry_of (t : fat_type) (b : Z → Z) (off : Z) : Z :=
  match t with
  | type_12 =>
      let o := off + off / 2 in
      let w := b o + 256 * b (o + 1) in
      let v := if Z.odd off then w / 16 else w mod 4096 in
      if v >=? 0x0FF8 then v + 0x0FFFF000 else v
  | type_16 =>
      let v := b (2 * off) + 256 * b (2 * off + 1) in
      if v >=? 0xFFF8 then v + 0x0FFF0000 else v
  | type_32 =>
      (b (4 * off) + 256 * b (4 * off + 1) + 65536 * b (4 * off + 2)
       + 16777216 * b (4 * off + 3)) mod 2 ^ 28
  end.

(** What can be read back of a stored value. *)
Definition stored_value (t : fat_type) (v : Z) : Z :=
  match t with
  | type_12 => let v := v mod 4096 in if v >=? 0x0FF8 then v + 0x0FFFF000 else v
  | type_16 => let v := v mod 65536 in if v >=? 0xFFF8 then v + 0x0FFF0000 else v
  | type_32 => v mod 2 ^ 28
  end.

Section Spec.
Context {D : Type} `{HD : BlockDevice D} (bs : Z) `{HDok : !BlockDeviceOk D bs}.
Context (g : geometry) (Hg : geometry_ok g) (Hbs : fs_bytes_per_sector g = io_mul g * bs).

Abbreviation bps := (fs_bytes_per_sector g).
Abbreviation clusters := (fs_clusters g).

(** The address of the first table on the device. *)
Definition table_base : Z := fs_reserved_sectors g * bps.

(** The bytes of the table: those of the buffer where it holds the table, those
    of the device elsewhere. *)
Definition table_byte (d : D) (f : fat) (j : Z) : Z :=
  if (table_offset f <=? j) && (j <? table_offset f + Z.of_nat (length (table_buffer f)))
  then at_ (table_buffer f) (j - table_offset f)
  else content d (table_base + j).

(** The value of the table at a cluster. *)
Definition value (d : D) (f : fat) (off : Z) : Z := entry_of (type g) (table_byte d f) off.

Definition dirty (f : fat) (k : Z) : Prop := at_ (table_sectors f) (k / bps) ≠ 0.

(** The byte of a table of FAT12 at which an entry crosses into the third sector or a
    later one: the code marks the first sector of such an entry only. *)
Definition crossing (j : Z) : Prop := type g = type_12 ∧ j mod bps = 0 ∧ 2 * bps ≤ j ∧ j mod 3 ≠ 0.

Record fat_ok (d : D) (f : fat) : Prop := {
  ok_bytes : Forall is_byte (table_buffer f);
  ok_offset : 0 ≤ table_offset f < fs_table_size g ∧ table_offset f mod 0x20000 = 0;
  ok_small : type g ≠ type_32 →
    table_offset f = 0 ∧ Z.of_nat (length (table_buffer f)) = fs_table_size g;
  ok_large : type g = type_32 → Z.of_nat (length (table_buffer f)) = 0x20000;
  ok_sectors : Z.of_nat (length (table_sectors f)) * bps
               = Z.of_nat (length (table_buffer f));
  (** modified sectors belong to the table *)
  ok_dirty : ∀ i, 0 ≤ i → at_ (table_sectors f) i ≠ 0 →
    table_offset f + (i + 1) * bps ≤ fs_table_size g;
  (** what is not marked as modified is on the device *)
  ok_coherent : ∀ k, 0 ≤ k < Z.of_nat (length (table_buffer f)) →
    table_offset f + k < fs_table_size g → ¬ crossing (table_offset f + k) → ~ dirty f k →
    at_ (table_buffer f) k = content d (table_base + table_offset f + k);
  ok_cluster : Z.of_nat (length (cluster_buffer f)) = cluster_size g ∧
               Forall is_byte (cluster_buffer f) }.

Lemma bps_range : 512 ≤ bps ≤ 4096 ∧ 0x20000 mod bps = 0.
Proof.
  destruct (geo_bps g Hg) as (k & Hk & ->).
  assert (k = 9 ∨ k = 10 ∨ k = 11 ∨ k = 12) as [->|[->|[->| ->]]] by lia; done.
Qed.

Lemma offset_aligned d f : fat_ok d f → table_offset f mod bps = 0.
Proof.
  intros Hok. destruct (ok_offset _ _ Hok) as [_ Hm]. destruct bps_range as [Hb Hd].
  apply Z.mod_divide in Hm; [|lia]. apply Z.mod_divide in Hd; [|lia].
  apply Z.mod_divide; [lia|]. by eapply Z.divide_trans.
Qed.

(** *** Writing modified sectors *)

Lemma run_end_spec n sectors i :
  0 ≤ i → Z.of_nat (length sectors) - i ≤ Z.of_nat n →
  ∃ j, run_end n sectors i = Some j ∧ i ≤ j ∧ (i ≤ Z.of_nat (length sectors) → j ≤ Z.of_nat (length sectors)) ∧
    ∀ k, i ≤ k < j → at_ sectors k ≠ 0.
Proof.
  revert i. induction n as [|n IH]; intros i Hi Hn; cbn [run_end].
  { exists i. split; [done|]. split; [lia|]. split; [done|lia]. }
  destruct (Z.ltb_spec i (Z.of_nat (length sectors))) as [Hlt|];
    [|exists i; split; [done|split; [lia|split; [done|lia]]]].
  rewrite at_rd by lia. cbn [mbind option_bind].
  destruct (Z.eqb_spec (at_ sectors i) 0) as [|Hne];
    [exists i; split; [done|split; [lia|split; [done|lia]]]|].
  destruct (IH (i + 1) ltac:(lia) ltac:(lia)) as (j & Hj & Hij & Hjl & Hk).
  exists j. split; [done|]. split; [lia|]. split; [intros _; apply Hjl; lia|].
  intros k Hkj. destruct (decide (k = i)) as [->|]; [done|]. apply Hk. lia.
Qed.

(** What a loop of [write_table] leaves on the device: the modified sectors of
    the buffer, from the address [first * bps + table_offset]. *)
Definition flushed (f : fat) (first limit : Z) (d : D) (a : Z) : Z :=
  let k := a - (first * bps + table_offset f) in
  if (0 <=? k) && (k <? limit * bps) && negb (at_ (table_sectors f) (k / bps) =? 0)
  then at_ (table_buffer f) k else content d a.

Lemma flushed_more f first d d1 i j :
  0 ≤ i ≤ j → 
  (∀ a, content d1 a = flushed f first i d a) →
  (∀ k, i ≤ k < j → at_ (table_sectors f) k = 0) →
  ∀ a, content d1 a = flushed f first j d a.
Proof.
  intros Hij H1 Hz a. destruct bps_range as [Hb _]. rewrite H1. unfold flushed.
  set (k := a - (first * bps + table_offset f)).
  destruct (Z.leb_spec 0 k); cbn [andb]; [|done].
  destruct (Z.ltb_spec k (i * bps)), (Z.ltb_spec k (j * bps)); cbn [andb]; try done; [nia|].
  rewrite Hz; [done|]. split; [apply Z.div_le_lower_bound; lia|apply Z.div_lt_upper_bound; lia].
Qed.

Lemma write_sectors_ok d f first stop :
  Forall is_byte (table_buffer f) → 0 ≤ first → 0 ≤ table_offset f →
  table_offset f mod bps = 0 →
  Z.of_nat (length (table_sectors f)) * bps = Z.of_nat (length (table_buffer f)) →
  ∃ d', write_sectors g f first stop d = Some (d', true) ∧
    ∀ a, content d' a = flushed f first (Z.of_nat (length (table_sectors f))) d a.
Proof.
  intros Hbytes Hfirst Hoff Hmod Hlen. destruct bps_range as [Hb _].
  set (len := Z.of_nat (length (table_sectors f))) in *.
  destruct (while_total
    (λ x : D * Z, 0 ≤ snd x ≤ len ∧ ∀ a, content (fst x) a = flushed f first (snd x) d a)
    (λ x : D * Z, Z.to_nat (len - snd x))
    (λ r : D * bool, ∃ d', r = (d', true) ∧ ∀ a, content d' a = flushed f first len d a)
    (write_turn g f first stop)) with (fuel := S (length (table_sectors f))) (s := (d, 0))
    as (r & Hw & d' & -> & Hd').
  - intros [d1 i] [Hi H1]. cbn [fst snd] in *. cbn [write_turn]. unfold table_entries. fold len.
    destruct (Z.ltb_spec i len) as [Hlt|Hge].
    2: { eexists; split; [done|]. cbn. exists d1. split; [done|].
         by replace len with i by lia. }
    rewrite at_rd by lia. cbn [mbind option_bind].
    destruct (Z.eqb_spec (at_ (table_sectors f) i) 0) as [Hz|Hnz].
    { eexists; split; [done|]. cbn. split; [|lia]. split; [lia|].
      apply (flushed_more f first d d1 i (i + 1)); [lia|done|].
      intros k Hk. by replace k with i by lia. }
    destruct (run_end_spec (length (table_sectors f)) (table_sectors f) (i + 1)) as
      (j & Hj & Hij & Hjl & Hrun); [lia|lia|]. fold len in Hjl. specialize (Hjl ltac:(lia)).
    rewrite Hj. cbn [mbind option_bind].
    destruct (slice_spec (table_buffer f) (i * bps) ((j - i) * bps)) as
      (data & Hs & Hsl & Hsd & Hsb); [nia|nia|nia|].
    rewrite Hs. cbn [mbind option_bind].
    assert (Hq : 0 ≤ table_offset f / bps) by (apply Z.div_pos; lia).
    destruct (io_write_ok (bs := bs) d1 ((first + i + table_offset f / bps) * io_mul g) data)
      as (d2 & Hwr & Hc2); [pose proof (geo_mul g Hg); nia|by apply Hsb|].
    rewrite Hwr. cbn [negb andb]. eexists; split; [done|]. cbn. split; [|lia]. split; [lia|].
    intros a. rewrite Hc2.
    replace (a - (first + i + table_offset f / bps) * io_mul g * bs)
      with (a - (first * bps + table_offset f) - i * bps).
    2: { pose proof (Z.div_mod (table_offset f) bps ltac:(lia)) as Hdm. rewrite Hmod in Hdm.
         rewrite <- Z.mul_assoc, <- Hbs. lia. }
    rewrite Hsd, H1. unfold flushed. set (k := a - (first * bps + table_offset f)).
    destruct (Z.leb_spec 0 (k - i * bps)) as [Hk0|Hk0], (Z.ltb_spec (k - i * bps) ((j - i) * bps))
      as [Hkj|Hkj]; cbn [andb].
    + rewrite at_rd by nia. rewrite (proj2 (Z.leb_le 0 k)), (proj2 (Z.ltb_lt k (j * bps))) by nia.
      cbn [andb]. assert (Hd : i ≤ k / bps < j)
        by (split; [apply Z.div_le_lower_bound; lia|apply Z.div_lt_upper_bound; lia]).
      rewrite (proj2 (Z.eqb_neq _ _)); [cbn [negb]; f_equal; lia|].
      destruct (decide (k / bps = i)) as [->|]; [done|]. apply Hrun. lia.
    + rewrite (proj2 (Z.ltb_ge k (i * bps))), (proj2 (Z.ltb_ge k (j * bps))) by nia.
      by rewrite !andb_false_r.
    + rewrite (proj2 (Z.ltb_lt k (i * bps))), (proj2 (Z.ltb_lt k (j * bps))) by nia. done.
    + nia.
  - split; [cbn; lia|]. intros a. cbn [fst snd]. unfold flushed. rewrite Z.mul_0_l.
    set (k := a - (first * bps + table_offset f)).
    destruct (Z.leb_spec 0 k); cbn [andb]; [|done]. by rewrite (proj2 (Z.ltb_ge k 0)) by lia.
  - cbn. lia.
  - eauto.
Qed.

Lemma table_ends : (fs_last_table_sector g + 1) * bps
  = table_base + fs_tables g * fs_table_size g.
Proof.
  rewrite (geo_last_table g Hg). unfold table_base. destruct (geo_table_size g Hg) as [-> _]. lia.
Qed.

(** An address that belongs to no table. *)
Definition outside_tables (a : Z) : Prop :=
  a < table_base ∨ (fs_last_table_sector g + 1) * bps ≤ a.

Lemma flushed_outside d0 d f first a :
  fat_ok d0 f →
  (a < first * bps ∨ first * bps + fs_table_size g ≤ a) →
  flushed f first (Z.of_nat (length (table_sectors f))) d a = content d a.
Proof.
  intros Hok Ha. destruct bps_range as [Hb _]. unfold flushed.
  set (k := a - (first * bps + table_offset f)).
  destruct (Z.leb_spec 0 k) as [Hk|]; cbn [andb]; [|done].
  destruct (k <? _); cbn [andb]; [|done].
  destruct (Z.eqb_spec (at_ (table_sectors f) (k / bps)) 0) as [|Hd]; [done|].
  exfalso. destruct (ok_offset _ _ Hok) as [Ho _].
  pose proof (ok_dirty _ _ Hok (k / bps) ltac:(apply Z.div_pos; lia) Hd) as Hdirty.
  pose proof (Z.mul_succ_div_gt k bps ltac:(lia)). lia.
Qed.

Lemma flushed_primary d f j :
  fat_ok d f → 0 ≤ j < fs_table_size g →
  flushed f (fs_reserved_sectors g) (Z.of_nat (length (table_sectors f))) d (table_base + j)
  = if (table_offset f <=? j) && (j <? table_offset f + Z.of_nat (length (table_buffer f)))
       && negb (at_ (table_sectors f) ((j - table_offset f) / bps) =? 0)
    then at_ (table_buffer f) (j - table_offset f) else content d (table_base + j).
Proof.
  intros Hok Hj. unfold flushed, table_base.
  replace (fs_reserved_sectors g * bps + j - (fs_reserved_sectors g * bps + table_offset f))
    with (j - table_offset f) by lia.
  rewrite (ok_sectors _ _ Hok).
  destruct (Z.leb_spec 0 (j - table_offset f)), (Z.leb_spec (table_offset f) j); try lia; [|done].
  destruct (Z.ltb_spec (j - table_offset f) (Z.of_nat (length (table_buffer f)))),
    (Z.ltb_spec j (table_offset f + Z.of_nat (length (table_buffer f)))); try lia; done.
Qed.

Lemma secondary_ok d0 d f :
  fat_ok d0 f →
  ∃ d2 b, (if fs_tables g <? 2 then Some (d, true)
    else write_sectors g f (fs_reserved_sectors g + fs_table_sectors g) false d) = Some (d2, b) ∧
    ∀ a, a < table_base + fs_table_size g ∨ (fs_last_table_sector g + 1) * bps ≤ a →
      content d2 a = content d a.
Proof.
  intros Hok. destruct (ok_offset _ _ Hok) as [Ho _]. pose proof (geo_reserved g Hg) as Hres.
  pose proof (geo_table_sectors g Hg) as Hts. destruct (geo_table_size g Hg) as [Hsz _].
  pose proof table_ends as Hend. unfold table_base in *.
  destruct (Z.ltb_spec (fs_tables g) 2) as [|H2]; [by exists d, true|].
  destruct (write_sectors_ok d f (fs_reserved_sectors g + fs_table_sectors g) false
              (ok_bytes _ _ Hok) ltac:(lia) ltac:(lia) (offset_aligned _ _ Hok)
              (ok_sectors _ _ Hok)) as (d2 & Hw2 & Hc2).
  exists d2, true. split; [done|]. intros a Ha. rewrite Hc2.
  apply (flushed_outside d0); [done|]. destruct (geo_tables g Hg) as [Ht|Ht]; [lia|].
  rewrite Ht in Hend. lia.
Qed.

(** The instance after [write_table]. *)
Definition cleaned (f : fat) : fat :=
  set_table f (table_buffer f) (replicate (length (table_sectors f)) 0) (table_offset f).

(** [write_table] puts the modified sectors on the device and forgets that they
    were modified; the table keeps its value. *)
Lemma write_table_ok d f :
  fat_ok d f →
  ∃ d', write_table g d f = Some (d', cleaned f, 0) ∧ fat_ok d' (cleaned f) ∧
    (∀ j, 0 ≤ j < fs_table_size g → table_byte d' (cleaned f) j = table_byte d f j) ∧
    (∀ a, outside_tables a → content d' a = content d a) ∧
    (∀ j, 0 ≤ j < fs_table_size g → ¬ crossing j → content d' (table_base + j) = table_byte d f j).
Proof.
  intros Hok. pose proof Hok as [Hbytes [Ho Hom] Hsm Hla Hsec Hdi Hco Hcl].
  pose proof (geo_reserved g Hg) as Hres. pose proof table_ends as Hend.
  assert (Htb : table_base = fs_reserved_sectors g * bps) by done.
  destruct (write_sectors_ok d f (fs_reserved_sectors g) true Hbytes ltac:(lia)
              ltac:(lia) (offset_aligned _ _ Hok) Hsec) as (d1 & Hw1 & Hc1).
  destruct (secondary_ok d d1 f Hok) as (d2 & b & Hw2 & Hc2).
  assert (Hp : ∀ j, 0 ≤ j < fs_table_size g → content d2 (table_base + j)
    = if (table_offset f <=? j) && (j <? table_offset f + Z.of_nat (length (table_buffer f)))
         && negb (at_ (table_sectors f) ((j - table_offset f) / bps) =? 0)
      then at_ (table_buffer f) (j - table_offset f) else content d (table_base + j)).
  { intros j Hj. rewrite Hc2 by lia. rewrite Hc1. by apply flushed_primary. }
  assert (Hq : ∀ j, 0 ≤ j < fs_table_size g → ¬ crossing j → content d2 (table_base + j) = table_byte d f j).
  { intros j Hj Hx. rewrite Hp by done. unfold table_byte.
    destruct (Z.leb_spec (table_offset f) j); cbn [andb]; [|done].
    destruct (Z.ltb_spec j (table_offset f + Z.of_nat (length (table_buffer f)))); cbn [andb]; [|done].
    destruct (Z.eqb_spec (at_ (table_sectors f) ((j - table_offset f) / bps)) 0) as [Hz|];
      cbn [negb]; [|done].
    rewrite Hco; [f_equal; lia|lia|lia|by replace (table_offset f + (j - table_offset f)) with j by lia|].
    intros Hd. apply Hd, Hz. }
  exists d2. split; [|split; [|split; [|split]]].
  - unfold write_table. rewrite Hw1. cbn [mbind option_bind negb]. rewrite Hw2. done.
  - split; cbn [cleaned set_table table_buffer table_sectors table_offset cluster_buffer]; try done.
    + by rewrite length_replicate.
    + intros i _ Hi. by rewrite at_replicate in Hi.
    + intros k Hk Hkt Hx _. rewrite <- Z.add_assoc, Hq by (done || lia). unfold table_byte.
      rewrite (proj2 (Z.leb_le _ _)), (proj2 (Z.ltb_lt _ _)) by lia. cbn [andb]. f_equal. lia.
  - intros j Hj. unfold table_byte at 1.
    cbn [cleaned set_table table_buffer table_offset]. rewrite Hp by done. unfold table_byte.
    destruct ((table_offset f <=? j) && (j <? _)); done.
  - intros a Ha. unfold outside_tables in Ha.
    assert (0 ≤ fs_tables g * fs_table_size g - fs_table_size g)
      by (destruct (geo_tables g Hg) as [-> | ->]; lia).
    rewrite Hc2 by lia. rewrite Hc1. apply (flushed_outside d); [done|]. lia.
  - done.
Qed.

(** *** The window of a large table *)

Lemma land_field o n m :
  0 ≤ n → 0 ≤ m →
  Z.land o (Z.shiftl (Z.ones m) n) = 2 ^ n * ((o / 2 ^ n) mod 2 ^ m).
Proof.
  intros Hn Hm. rewrite <- Z.land_ones, <- Z.shiftr_div_pow2, Z.mul_comm by done.
  rewrite <- Z.shiftl_mul_pow2 by done. apply Z.bits_inj'. intros i Hi.
  rewrite Z.land_spec, !Z.shiftl_spec, Z.land_spec by done.
  destruct (Z.lt_ge_cases i n).
  - by rewrite (Z.testbit_neg_r (Z.ones m) (i - n)), !andb_false_r by lia.
  - rewrite Z.shiftr_spec by lia. do 2 f_equal. lia.
Qed.

Lemma window_masks o :
  0 ≤ o < 2 ^ 32 →
  Z.land o 0x1FFFF = o mod 0x20000 ∧ Z.land o 0xFFFE0000 = o - o mod 0x20000.
Proof.
  change (2 ^ 32) with 4294967296. intros Ho. split; [exact (land_ones_mod o 17 ltac:(lia))|].
  change 0xFFFE0000 with (Z.shiftl (Z.ones 15) 17). rewrite land_field by lia.
  change (2 ^ 17) with 0x20000. change (2 ^ 15) with 32768. dlia.
Qed.

(** The same instance but for the table buffer. *)
Definition same_rest (f f' : fat) : Prop :=
  f' = set_table f (table_buffer f') (table_sectors f') (table_offset f').

(** What the operations on the table leave alone. *)
Definition keeps (d : D) (f : fat) (d' : D) (f' : fat) : Prop :=
  fat_ok d' f' ∧ same_rest f f' ∧
  (∀ j, 0 ≤ j < fs_table_size g → table_byte d' f' j = table_byte d f j) ∧
  (∀ a, outside_tables a → content d' a = content d a).

Lemma keeps_refl d f : fat_ok d f → keeps d f d f.
Proof. intros H. split; [done|]. split; [by destruct f|done]. Qed.

Lemma keeps_trans d f d1 f1 d2 f2 :
  keeps d f d1 f1 → keeps d1 f1 d2 f2 → keeps d f d2 f2.
Proof.
  intros (H1 & R1 & V1 & O1) (H2 & R2 & V2 & O2). split; [done|]. split.
  - unfold same_rest in *. rewrite R2, R1. by destruct f.
  - split; [intros j Hj; by rewrite V2, V1|intros a Ha; by rewrite O2, O1].
Qed.

Lemma write_table_keeps d f :
  fat_ok d f → ∃ d', write_table g d f = Some (d', cleaned f, 0) ∧ keeps d f d' (cleaned f).
Proof.
  intros H. destruct (write_table_ok d f H) as (d' & Hw & Hok & Hv & Ho & _).
  exists d'. split; [done|]. split; [done|]. split; [by destruct f|done].
Qed.

(** Moving the window writes it out and reads the other one; the table keeps
    its value. *)
Lemma read_table_buffer_ok d f offset :
  type g = type_32 → fat_ok d f → 0 ≤ offset < fs_table_size g →
  ∃ d' f', read_table_buffer g d f offset = Some (d', f', 0, offset mod 0x20000) ∧
    keeps d f d' f' ∧ table_offset f' = offset - offset mod 0x20000.
Proof.
  intros Ht Hok Ho. destruct (geo_table_size g Hg) as [Hsz Hmax].
  destruct (window_masks offset) as [E1 E2]; [change (2 ^ 32) with 4294967296; lia|].
  unfold read_table_buffer. rewrite E1, E2. set (off2 := offset - offset mod 0x20000).
  assert (Hoff2 : 0 ≤ off2 ≤ offset ∧ off2 mod 0x20000 = 0) by (unfold off2; dlia).
  destruct (Z.eqb_spec (table_offset f) off2) as [Heq|Hne].
  { exists d, f. split; [done|]. split; [by apply keeps_refl|done]. }
  clearbody off2.
  destruct (write_table_ok d f Hok) as (d1 & -> & Hok1 & Hv1 & Hout1 & Hdev1).
  assert (Hnox : ∀ j, ¬ crossing j) by (intros j [Hx _]; congruence). cbn [mbind option_bind Z.eqb negb].
  assert (Hal : off2 mod bps = 0).
  { destruct bps_range as [Hb Hd]. apply Z.mod_divide; [lia|].
    eapply Z.divide_trans; apply Z.mod_divide; [lia|exact Hd|lia|exact (proj2 Hoff2)]. }
  set (over := off2 + table_buffer_size >? fs_table_size g).
  set (size := if over then off2 + table_buffer_size - fs_table_size g else 0).
  cbn [cleaned set_table table_buffer table_sectors].
  set (f2 := if over then _ else _).
  assert (Hsize : 0 ≤ size < 0x20000 ∧ 0x20000 - size = Z.min 0x20000 (fs_table_size g - off2)).
  { unfold size, over, table_buffer_size. destruct (Z.gtb_spec (off2 + 0x20000) (fs_table_size g)); lia. }
  clearbody over size. unfold table_buffer_size.
  assert (Hf2 : Z.of_nat (length (table_buffer f2)) = 0x20000 ∧ Forall is_byte (table_buffer f2)).
  { pose proof (ok_large _ _ Hok Ht). pose proof (ok_bytes _ _ Hok).
    unfold f2. destruct over; cbn [set_table table_buffer]; [|done].
    rewrite length_replicate. split; [done|apply bytes_zeros]. }
  assert (Hf2r : f2 = set_table f (table_buffer f2) (replicate (length (table_sectors f)) 0) off2)
    by (unfold f2; by destruct over).
  clearbody f2. destruct Hf2 as [Hf2l Hf2b]. rewrite (proj2 (Z.ltb_ge _ _)) by lia.
  pose proof (geo_mul g Hg) as Hmul. pose proof (geo_reserved g Hg) as Hres.
  destruct bps_range as [Hb _].
  assert (Hq : 0 ≤ off2 / bps) by (apply Z.div_pos; lia).
  destruct (io_read_ok (bs := bs) d1 ((fs_reserved_sectors g + off2 / bps) * io_mul g)
              (0x20000 - size) ltac:(nia) ltac:(lia)) as (d2 & data & -> & Hdl & Hdata & Hc2).
  assert (Hlba : (fs_reserved_sectors g + off2 / bps) * io_mul g * bs = table_base + off2).
  { rewrite <- Z.mul_assoc, <- Hbs. pose proof (Z.div_mod off2 bps ltac:(lia)) as Hdm.
    unfold table_base. lia. }
  rewrite Hlba in Hdata. clear Hlba.
  destruct (splice_0 (table_buffer f2) data ltac:(lia)) as (buf & -> & Hbl & Hbat & Hbb).
  cbn [mbind option_bind]. eexists _, _. split; [reflexivity|]. split; [|done].
  assert (Hat : ∀ k, 0 ≤ k < 0x20000 → off2 + k < fs_table_size g →
            at_ buf k = content d1 (table_base + off2 + k)).
  { intros k Hk Hkt. rewrite Hbat by lia. rewrite (proj2 (Z.ltb_lt _ _)) by lia.
    unfold at_. rewrite Hdata by lia. done. }
  split; [|split; [|split]].
  - pose proof Hok as [Hbytes [Hfo Hom] Hsm Hla Hsec Hdi Hco Hcl]. rewrite Hf2r.
    split; cbn [set_table table_buffer table_sectors table_offset cluster_buffer].
    + apply Hbb; [done|]. apply Forall_lookup_2. intros i x Hx.
      pose proof (lookup_lt_Some _ _ _ Hx) as Hi.
      specialize (Hdata (Z.of_nat i) ltac:(lia)). apply rd_Some in Hdata as [_ Hdata].
      rewrite Nat2Z.id, Hx in Hdata. injection Hdata as ->. apply content_byte.
    + split; [lia|exact (proj2 Hoff2)].
    + by rewrite Ht.
    + intros _. lia.
    + rewrite length_replicate. rewrite Hsec, (Hla Ht). lia.
    + intros i _ Hi. by rewrite at_replicate in Hi.
    + intros k Hk Hkt _ _. rewrite Hc2. apply Hat; lia.
    + done.
  - rewrite Hf2r. by destruct f.
  - intros j Hj. rewrite <- (Hdev1 j Hj (Hnox j)). unfold table_byte.
    cbn [set_table table_buffer table_offset].
    destruct (Z.leb_spec off2 j); cbn [andb]; [|apply Hc2].
    destruct (Z.ltb_spec j (off2 + Z.of_nat (length buf))); [|apply Hc2].
    rewrite Hat by lia. f_equal. lia.
  - intros a Ha. by rewrite Hc2, Hout1.
Qed.

(** *** The entries *)

Lemma clusters_range : 1 ≤ clusters ∧ clusters + 2 ≤ 0x0FFFFFF8.
Proof.
  destruct (geo_clusters g Hg) as [H1 _]. split; [done|]. pose proof (geo_type g Hg) as Ht.
  unfold determine_type in Ht.
  destruct (Z.ltb_spec clusters 4085); [lia|]. destruct (Z.ltb_spec clusters 65525); [lia|].
  destruct (geo_large g Hg Ht) as (_ & _ & _ & Hmax). lia.
Qed.

Lemma u32_clusters : u32 (clusters + 2) = clusters + 2.
Proof. apply wrap_small. pose proof clusters_range. change (2 ^ 32) with 4294967296. lia. Qed.

Lemma off_in_range off : 0 ≤ off < clusters + 2 → (off >=? u32 (clusters + 2)) = false.
Proof. intros Ho. rewrite u32_clusters, Z.geb_leb. apply Z.leb_gt. lia. Qed.

Lemma table_byte_is_byte d f j : fat_ok d f → is_byte (table_byte d f j).
Proof.
  intros Hok. unfold table_byte. destruct (_ && _); [apply at_byte, (ok_bytes _ _ Hok)|].
  apply content_byte.
Qed.

Lemma table_byte_window d f k :
  0 ≤ k < Z.of_nat (length (table_buffer f)) →
  table_byte d f (table_offset f + k) = at_ (table_buffer f) k.
Proof.
  intros Hk. unfold table_byte. rewrite (proj2 (Z.leb_le _ _)), (proj2 (Z.ltb_lt _ _)) by lia.
  cbn [andb]. f_equal. lia.
Qed.

Lemma table_byte_small d f k :
  type g ≠ type_32 → fat_ok d f → 0 ≤ k < fs_table_size g →
  table_byte d f k = at_ (table_buffer f) k.
Proof.
  intros Ht Hok Hk. destruct (ok_small _ _ Hok Ht) as [Ho Hl].
  rewrite <- (table_byte_window d f k) by lia. by rewrite Ho.
Qed.

(** The bytes an entry is made of. *)
Lemma entry_of_ext t b b' off limit :
  0 ≤ off → entry_end t off ≤ limit →
  (∀ j, 0 ≤ j < limit → b' j = b j) → entry_of t b' off = entry_of t b off.
Proof.
  intros Ho Hl Hb. destruct t; cbn [entry_end entry_of] in *.
  - rewrite !Hb by dlia. done.
  - rewrite !Hb by lia. done.
  - rewrite !Hb by lia. done.
Qed.

Lemma value_keeps d f d' f' off :
  keeps d f d' f' → 0 ≤ off < clusters + 2 → value d' f' off = value d f off.
Proof.
  intros (_ & _ & Hv & _) Ho. apply (entry_of_ext _ _ _ _ (fs_table_size g)); [lia| |done].
  by apply (geo_entries g Hg).
Qed.

Lemma odd_test off : negb (Z.land off 1 =? 0) = Z.odd off.
Proof. rewrite <- Z.bit0_odd. change 1 with (Z.ones 1). rewrite Z.land_ones by lia.
  rewrite Z.bit0_odd. change (2 ^ 1) with 2. rewrite Zmod_odd. by destruct (Z.odd off). Qed.

Lemma lor_high v a n : 0 ≤ n → 0 ≤ v < 2 ^ n → Z.lor v (Z.shiftl a n) = v + a * 2 ^ n.
Proof. intros Hn Hv. rewrite Z.lor_comm, lor_shiftl_add by done. lia. Qed.

(** The value that is read is the value of the table. *)
Lemma get_ok d f off :
  fat_ok d f → 0 ≤ off < clusters + 2 →
  ∃ d' f', get_table_value g d f off = Some (d', f', value d f off) ∧ keeps d f d' f'.
Proof.
  intros Hok Ho. unfold get_table_value. rewrite (off_in_range off Ho).
  pose proof clusters_range as Hcr. pose proof (geo_entries g Hg off Ho) as He.
  pose proof (ok_bytes _ _ Hok) as Hb. unfold value.
  pose proof (table_byte_small d f) as Hsmall. pose proof (table_byte_is_byte d f) as Hbyte.
  destruct (type g) eqn:Ht; cbn [entry_of entry_end] in *.
  - destruct (ok_small _ _ Hok ltac:(by rewrite Ht)) as [_ Hl].
    rewrite Z.shiftr_div_pow2 by lia. change (2 ^ 1) with 2.
    rewrite wrap_small by (change (2 ^ 32) with 4294967296; dlia).
    rewrite LE16_at; [|dlia|lia|done]. rewrite <- !Hsmall by (try done; dlia).
    cbn [mbind option_bind]. rewrite odd_test, Z.shiftr_div_pow2 by lia. change (2 ^ 4) with 16.
    pose proof (Hbyte (off + off / 2) Hok) as B0. pose proof (Hbyte (off + off / 2 + 1) Hok) as B1.
    unfold is_byte in B0, B1.
    set (w := _ + 256 * _) in *. assert (Hw : 0 ≤ w < 65536) by lia. clearbody w.
    exists d, f. split; [|by apply keeps_refl]. do 2 f_equal.
    assert (E : Z.land (if Z.odd off then w / 16 else w) 0xFFF
              = if Z.odd off then w / 16 else w mod 4096).
    { change 0xFFF with (2 ^ 12 - 1). rewrite land_ones_mod by lia. change (2 ^ 12) with 4096.
      destruct (Z.odd off); [|done]. apply Z.mod_small. dlia. }
    rewrite E. set (v := if Z.odd off then _ else _).
    assert (Hv : 0 ≤ v < 4096) by (unfold v; destruct (Z.odd off); dlia). clearbody v.
    destruct (v >=? 0x0FF8); [|done].
    change 0x0FFFF000 with (Z.shiftl 0xFFFF 12) at 1. rewrite lor_high by lia. done.
  - destruct (ok_small _ _ Hok ltac:(by rewrite Ht)) as [_ Hl].
    rewrite Z.shiftl_mul_pow2 by lia. change (2 ^ 1) with 2. rewrite Z.mul_comm.
    rewrite wrap_small by (change (2 ^ 32) with 4294967296; lia).
    rewrite LE16_at; [|lia|lia|done]. rewrite <- !Hsmall by (try done; lia).
    cbn [mbind option_bind].
    pose proof (Hbyte (2 * off) Hok) as B0. pose proof (Hbyte (2 * off + 1) Hok) as B1.
    unfold is_byte in B0, B1. set (w := _ + 256 * _) in *.
    assert (Hw : 0 ≤ w < 65536) by lia. clearbody w.
    exists d, f. split; [|by apply keeps_refl]. do 2 f_equal.
    destruct (w >=? 0xFFF8); [|done].
    change 0x0FFF0000 with (Z.shiftl 0xFFF 16) at 1. rewrite lor_high by lia. done.
  - rewrite Z.shiftl_mul_pow2 by lia. change (2 ^ 2) with 4. rewrite (Z.mul_comm off 4).
    rewrite wrap_small by (change (2 ^ 32) with 4294967296; lia).
    destruct (read_table_buffer_ok d f (4 * off) Ht Hok ltac:(lia)) as (d' & f' & -> & Hk & Hoff).
    cbn [mbind option_bind Z.eqb negb]. pose proof Hk as (Hok' & _ & Hv & _).
    pose proof (ok_large _ _ Hok' Ht) as Hl'. set (add := (4 * off) mod 0x20000) in *.
    assert (Hadd : 0 ≤ add ∧ add + 4 ≤ 0x20000) by (unfold add; dlia). clearbody add.
    rewrite LE32_at; [|lia|lia|apply (ok_bytes _ _ Hok')].
    rewrite <- !(table_byte_window d') by lia. rewrite Hoff.
    cbn [mbind option_bind]. exists d', f'. split; [|done]. do 2 f_equal.
    rewrite <- !Hv by lia. change 0x0FFFFFFF with (2 ^ 28 - 1). rewrite land_ones_mod by lia.
    f_equal. replace (4 * off - add + add) with (4 * off) by lia.
    replace (4 * off - add + (add + 1)) with (4 * off + 1) by lia.
    replace (4 * off - add + (add + 2)) with (4 * off + 2) by lia.
    replace (4 * off - add + (add + 3)) with (4 * off + 3) by lia. done.
Qed.

Lemma get_out_of_range d f off :
  clusters + 2 ≤ off → get_table_value g d f off = Some (d, f, 1).
Proof.
  intros Hoff. unfold get_table_value. rewrite u32_clusters, Z.geb_leb.
  by rewrite (proj2 (Z.leb_le _ _)) by lia.
Qed.

(** The bytes of a table in which a value has been stored. *)
Definition stored (t : fat_type) (b : Z → Z) (off val j : Z) : Z :=
  match t with
  | type_12 =>
      let o := off + off / 2 in
      let w := b o + 256 * b (o + 1) in
      let v := if Z.odd off then 16 * (val mod 4096) + w mod 16
               else val mod 4096 + 4096 * (w / 4096) in
      if j =? o then v mod 256 else if j =? o + 1 then (v / 256) mod 256 else b j
  | type_16 =>
      if j =? 2 * off then val mod 256 else if j =? 2 * off + 1 then (val / 256) mod 256 else b j
  | type_32 =>
      let o := 4 * off in
      let w := b o + 256 * b (o + 1) + 65536 * b (o + 2) + 16777216 * b (o + 3) in
      let v := val mod 2 ^ 28 + 2 ^ 28 * (w / 2 ^ 28) in
      if j =? o then v mod 256 else if j =? o + 1 then (v / 256) mod 256
      else if j =? o + 2 then (v / 65536) mod 256
      else if j =? o + 3 then (v / 16777216) mod 256 else b j
  end.

Ltac eqbs := repeat match goal with |- context [?x =? ?y] => destruct (Z.eqb_spec x y); try lia end.

Lemma bytes_16 v : 0 ≤ v < 65536 → v mod 256 + 256 * ((v / 256) mod 256) = v.
Proof. intros Hv. dlia. Qed.

Lemma bytes_32 v : 0 ≤ v < 4294967296 →
  v mod 256 + 256 * ((v / 256) mod 256) + 65536 * ((v / 65536) mod 256)
  + 16777216 * ((v / 16777216) mod 256) = v.
Proof. intros Hv. dlia. Qed.

Lemma odd_half off : off = 2 * (off / 2) + Z.b2z (Z.odd off).
Proof. pose proof (Z.div_mod off 2 ltac:(lia)) as H2. rewrite Zmod_odd in H2. by destruct (Z.odd off). Qed.

(** Storing a value changes its entry and no other. *)
Lemma stored_entry t b off val o :
  (∀ j, is_byte (b j)) → 0 ≤ off → 0 ≤ o →
  entry_of t (stored t b off val) o = if o =? off then stored_value t val else entry_of t b o.
Proof.
  intros Hb Hoff Ho. unfold is_byte in Hb. destruct t; cbn [entry_of stored stored_value].
  - pose proof (odd_half off) as Eoff. pose proof (odd_half o) as Eo.
    pose proof (Hb (off + off / 2)) as B0. pose proof (Hb (off + off / 2 + 1)) as B1.
    set (w := b (off + off / 2) + 256 * b (off + off / 2 + 1)) in *.
    assert (Hw : 0 ≤ w < 65536) by lia.
    set (v := if Z.odd off then _ else _).
    assert (Hv : 0 ≤ v < 65536) by (unfold v; destruct (Z.odd off); dlia).
    set (x := if Z.odd o then _ else _). set (y := if Z.odd o then (b _ + _) / 16 else _).
    assert (Hx : x = if o =? off then val mod 4096 else y).
    { unfold x, y. destruct (Z.eqb_spec o off) as [->|Hne].
      - rewrite Z.eqb_refl. rewrite (proj2 (Z.eqb_neq (off + off / 2 + 1) (off + off / 2))) by lia.
        rewrite Z.eqb_refl, (bytes_16 v Hv). unfold v.
        destruct (Z.odd off); dlia.
      - set (h := off / 2) in *. set (k := o / 2) in *. clearbody h k.
        destruct (Z.odd o), (Z.odd off); cbn [Z.b2z] in *; eqbs; try done.
        + assert (k = h) as -> by lia. replace (off + h + 1) with (o + h) in * by lia.
          unfold v, w. replace (off + h + 1) with (o + h) by lia.
          pose proof (Hb (off + h)). pose proof (Hb (o + h)). pose proof (Hb (o + h + 1)). dlia.
        + assert (k = h) as -> by lia. unfold v, w. replace (off + h) with (o + h + 1) by lia.
          pose proof (Hb (o + h)). pose proof (Hb (o + h + 1)). pose proof (Hb (o + h + 1 + 1)). dlia. }
    rewrite Hx. by destruct (o =? off).
  - set (x := _ + 256 * _). set (y := b _ + 256 * b _).
    assert (Hx : x = if o =? off then val mod 65536 else y).
    { unfold x, y. destruct (Z.eqb_spec o off) as [->|Hne]; eqbs. dlia. }
    rewrite Hx. by destruct (o =? off).
  - set (w := b (4 * off) + _ + _ + _).
    assert (Hw : 0 ≤ w < 4294967296).
    { pose proof (Hb (4 * off)). pose proof (Hb (4 * off + 1)). pose proof (Hb (4 * off + 2)).
      pose proof (Hb (4 * off + 3)). unfold w. lia. }
    clearbody w. change (2 ^ 28) with 268435456. set (v := val mod _ + _).
    assert (Hv : 0 ≤ v < 4294967296 ∧ v mod 268435456 = val mod 268435456) by (unfold v; dlia).
    destruct Hv as [Hv Hvm]. clearbody v.
    destruct (Z.eqb_spec o off) as [->|Hne]; eqbs. by rewrite bytes_32.
Qed.

(** A store into the buffer that marks the sectors it changes. *)
Lemma store_ok d f buffer sectors :
  fat_ok d f → length buffer = length (table_buffer f) → Forall is_byte buffer →
  length sectors = length (table_sectors f) →
  (∀ i, 0 ≤ i → at_ sectors i ≠ 0 →
     at_ (table_sectors f) i ≠ 0 ∨ table_offset f + (i + 1) * bps ≤ fs_table_size g) →
  (∀ k, 0 ≤ k → ¬ crossing (table_offset f + k) → at_ sectors (k / bps) = 0 →
     at_ (table_sectors f) (k / bps) = 0 ∧ at_ buffer k = at_ (table_buffer f) k) →
  fat_ok d (set_table f buffer sectors (table_offset f)).
Proof.
  intros Hok Hl Hbytes Hls Hdirty Hsame.
  pose proof Hok as [Hb Ho Hsm Hla Hsec Hdi Hco Hcl].
  split; cbn [set_table table_buffer table_sectors table_offset cluster_buffer]; try done.
  - by rewrite Hl.
  - by rewrite Hl.
  - by rewrite Hls, Hl.
  - intros i Hi Hn. destruct (Hdirty i Hi Hn); [by apply Hdi|done].
  - intros k Hk Hkt Hx Hclean.
    unfold dirty in Hclean. cbn [set_table table_sectors] in Hclean.
    destruct (Z.eq_dec (at_ sectors (k / bps)) 0) as [Hz|]; [|done].
    destruct (Hsame k ltac:(lia) Hx Hz) as [Hz' ->].
    apply Hco; [lia|done|done|]. intros Hd. by apply Hd.
Qed.

Lemma wr_at l i x :
  0 ≤ i < Z.of_nat (length l) →
  ∃ l', wr l i x = Some l' ∧ length l' = length l ∧
    ∀ k, 0 ≤ k → at_ l' k = if k =? i then x else at_ l k.
Proof.
  intros Hi. rewrite (wr_Some l i x Hi). eexists. split; [done|].
  split; [apply length_insert|]. intros k Hk. apply (at_wr l); [|done]. by apply wr_Some.
Qed.

(** The sector of an entry that does not cross sectors. *)
Lemma sector_of d f add n :
  fat_ok d f → 0 ≤ add → 1 ≤ n → add + n ≤ Z.of_nat (length (table_buffer f)) →
  table_offset f + add + n ≤ fs_table_size g →
  0 ≤ add / bps < Z.of_nat (length (table_sectors f)) ∧
  table_offset f + (add / bps + 1) * bps ≤ fs_table_size g.
Proof.
  intros Hok Ha Hn Hl Ht. destruct bps_range as [Hb _].
  pose proof (ok_sectors _ _ Hok) as Hsec. pose proof (offset_aligned _ _ Hok) as Hal.
  destruct (geo_table_size g Hg) as [Hsz _].
  pose proof (Z.div_mod (table_offset f) bps ltac:(lia)) as Ho. rewrite Hal in Ho.
  pose proof (Z.div_mod add bps ltac:(lia)) as Hd. pose proof (Z.mod_pos_bound add bps ltac:(lia)) as Hm.
  set (s := add / bps) in *. set (q := table_offset f / bps) in *. clearbody s q.
  assert (Hs0 : 0 ≤ s) by nia. split; [nia|].
  assert (q + s + 1 ≤ fs_table_sectors g); nia.
Qed.

Lemma aligned_same_sector add n k :
  0 ≤ add → add mod n = 0 → (n = 2 ∨ n = 4) → add ≤ k < add + n → k / bps = add / bps.
Proof.
  intros Ha Hm Hn Hk. destruct (geo_bps g Hg) as (e & He & Eb). rewrite Eb.
  assert (e = 9 ∨ e = 10 ∨ e = 11 ∨ e = 12) as Hc by lia.
  destruct Hn as [-> | ->]; destruct Hc as [->|[->|[->| ->]]];
    cbn [Z.pow Z.pow_pos Pos.iter Z.mul Pos.mul] in *; dlia.
Qed.

(** A store of an aligned entry of 2 or 4 bytes. *)
Lemma store_aligned d f add n buffer :
  fat_ok d f → (n = 2 ∨ n = 4) → 0 ≤ add → add mod n = 0 →
  add + n ≤ Z.of_nat (length (table_buffer f)) →
  table_offset f + add + n ≤ fs_table_size g →
  length buffer = length (table_buffer f) → Forall is_byte buffer →
  (∀ k, 0 ≤ k → ~ (add ≤ k < add + n) → at_ buffer k = at_ (table_buffer f) k) →
  ∃ sectors, wr (table_sectors f) (add / bps) 1 = Some sectors ∧
    fat_ok d (set_table f buffer sectors (table_offset f)).
Proof.
  intros Hok Hn Ha Hm Hl Ht Hbl Hbb Hbk.
  destruct (sector_of d f add n Hok Ha ltac:(lia) Hl Ht) as [Hs Hst].
  destruct (wr_at (table_sectors f) (add / bps) 1 Hs) as (sectors & Hw & Hsl & Hsa).
  exists sectors. split; [done|]. destruct bps_range as [Hb _].
  apply store_ok; [done|done|done|done| |].
  - intros i Hi. rewrite Hsa by done. destruct (Z.eqb_spec i (add / bps)) as [->|]; [by right|by left].
  - intros k Hk _. rewrite Hsa by (apply Z.div_pos; lia).
    destruct (Z.eqb_spec (k / bps) (add / bps)) as [|Hne]; [done|]. intros Hz.
    split; [done|]. apply Hbk; [done|]. intros Hin. apply Hne.
    by apply (aligned_same_sector add n k).
Qed.

(** The bytes of the table after a store into the window. *)
Lemma table_byte_set d f buffer sectors j :
  length buffer = length (table_buffer f) →
  table_byte d (set_table f buffer sectors (table_offset f)) j
  = if (table_offset f <=? j) && (j <? table_offset f + Z.of_nat (length (table_buffer f)))
    then at_ buffer (j - table_offset f) else table_byte d f j.
Proof.
  intros Hl. unfold table_byte. cbn [set_table table_buffer table_offset]. rewrite Hl.
  by destruct (_ && _).
Qed.

Lemma stored_small d f buffer sectors b :
  type g ≠ type_32 → fat_ok d f → length buffer = length (table_buffer f) →
  (∀ k, 0 ≤ k < fs_table_size g → at_ buffer k = b k) →
  ∀ j, 0 ≤ j < fs_table_size g →
    table_byte d (set_table f buffer sectors (table_offset f)) j = b j.
Proof.
  intros Ht Hok Hl Hb j Hj. destruct (ok_small _ _ Hok Ht) as [Ho Hlen].
  rewrite table_byte_set by done. rewrite Ho, Hlen.
  rewrite (proj2 (Z.leb_le _ _)), (proj2 (Z.ltb_lt _ _)) by lia. cbn [andb].
  rewrite <- Hb by done. f_equal. lia.
Qed.

(** The fields of the FAT32 information sector after a store. *)
Definition accounted (f : fat) (off old val : Z) : fat :=
  match type g with type_32 => account f off old val | _ => f end.

Lemma account_table f off old val :
  account f off old val
  = set_info f (fs_info_free (account f off old val)) (fs_info_next (account f off old val)).
Proof. unfold account. destruct (negb _); by destruct f. Qed.

Lemma fat_ok_info d f free next : fat_ok d f → fat_ok d (set_info f free next).
Proof. intros Hok. by destruct Hok; split. Qed.

(** What [set_table_value] leaves. *)
Definition updates (d : D) (f : fat) (off val : Z) (d' : D) (f' : fat) : Prop :=
  fat_ok d' f' ∧ same_rest (accounted f off (value d f off) val) f' ∧
  (∀ j, 0 ≤ j < fs_table_size g →
     table_byte d' f' j = stored (type g) (table_byte d f) off val j) ∧
  (∀ a, outside_tables a → content d' a = content d a).

(** The second byte of an entry of FAT12 in another sector than the first. *)
Lemma next_sector_crosses off :
  let add := off + off / 2 in
  type g = type_12 → 0 ≤ off → (add + 1) / bps ≠ add / bps → ¬ crossing (add + 1) →
  (add = bps - 1 → (add + 1) / bps ≠ 1) → False.
Proof.
  intros add Ht Hoff Hne Hx Hfirst. destruct bps_range as [Hb _].
  assert (Hadd : 0 ≤ add ∧ (add + 1) mod 3 ≠ 0) by (unfold add; dlia). destruct Hadd as [Hadd H3]. clearbody add.
  pose proof (Z.div_mod add bps ltac:(lia)) as E. pose proof (Z.mod_pos_bound add bps ltac:(lia)) as Hm.
  set (q := add / bps) in *. set (r := add mod bps) in *. clearbody q r.
  assert (Hr : r = bps - 1).
  { destruct (decide (r = bps - 1)); [done|]. exfalso. apply Hne. symmetry. apply Z.div_unique with (r + 1); lia. }
  assert (E1 : add + 1 = bps * (q + 1)) by lia.
  assert (Hq : (add + 1) / bps = q + 1) by (rewrite E1, Z.mul_comm; apply Z.div_mul; lia).
  apply Hx. split; [done|]. split; [rewrite E1, Z.mul_comm; apply Z.mod_mul; lia|]. split; [|done].
  destruct (decide (q = 0)) as [->|]; [exfalso; apply Hfirst; lia|]. nia.
Qed.

Lemma set_ok_12 d f off val :
  type g = type_12 → fat_ok d f → 0 ≤ off < clusters + 2 → 0 ≤ val < 2 ^ 32 →
  ∃ d' f', set_table_value g d f off val = Some (d', f', 0) ∧ updates d f off val d' f'.
Proof.
  intros Ht Hok Ho Hval. change (2 ^ 32) with 4294967296 in Hval. unfold set_table_value.
  pose proof clusters_range as Hcr. pose proof (geo_entries g Hg off Ho) as He.
  pose proof (ok_bytes _ _ Hok) as Hbytes. destruct bps_range as [Hb _].
  rewrite (off_in_range off Ho), Ht. rewrite Ht in He. cbn [entry_end] in He.
  destruct (ok_small _ _ Hok ltac:(by rewrite Ht)) as [Hoff Hl].
  rewrite Z.shiftr_div_pow2 by lia. change (2 ^ 1) with 2.
  rewrite wrap_small by (change (2 ^ 32) with 4294967296; dlia).
  set (add := off + off / 2) in *. assert (Hadd : 0 ≤ add) by (unfold add; dlia).
  rewrite LE16_at; [|lia|lia|done]. cbn [mbind option_bind]. rewrite odd_test.
  pose proof (at_byte (table_buffer f) add Hbytes) as B0.
  pose proof (at_byte (table_buffer f) (add + 1) Hbytes) as B1. unfold is_byte in B0, B1.
  set (w := at_ _ add + _). set (v := if Z.odd off then _ else _).
  assert (Hw : 0 ≤ w < 65536) by (unfold w; lia).
  assert (Ev : v = if Z.odd off then 16 * (val mod 4096) + w mod 16
                   else val mod 4096 + 4096 * (w / 4096)).
  { unfold v. destruct (Z.odd off).
    - change 0xFFF0 with (Z.shiftl (Z.ones 12) 4). rewrite land_field by lia.
      change 0xF with (2 ^ 4 - 1). rewrite land_ones_mod by lia.
      rewrite Z.mul_comm, <- Z.shiftl_mul_pow2, lor_shiftl_add by (try lia; apply Z.mod_pos_bound; lia).
      rewrite Z.shiftl_mul_pow2 by lia. unfold wrap. change (2 ^ 32) with 4294967296.
      change (2 ^ 4) with 16. change (2 ^ 12) with 4096. dlia.
    - change 0xF000 with (Z.shiftl (Z.ones 4) 12). rewrite land_field by lia.
      change 0xFFF with (2 ^ 12 - 1). rewrite land_ones_mod by lia.
      rewrite (Z.mul_comm (2 ^ 12)), <- Z.shiftl_mul_pow2, lor_high by
        (try lia; apply Z.mod_pos_bound; lia).
      change (2 ^ 4) with 16. change (2 ^ 12) with 4096. dlia. }
  clearbody v. clear Hval.
  destruct (sector_of d f add 2 Hok Hadd ltac:(lia) ltac:(lia) ltac:(lia)) as [Hs Hst].
  assert (H1 : ∃ s1, (if add =? bps - 1 then wr (table_sectors f) (add / bps + 1) 1
                      else Some (table_sectors f)) = Some s1 ∧
    length s1 = length (table_sectors f) ∧
    (∀ i, 0 ≤ i → at_ s1 i ≠ 0 →
      at_ (table_sectors f) i ≠ 0 ∨ table_offset f + (i + 1) * bps ≤ fs_table_size g) ∧
    ∀ i, 0 ≤ i → at_ s1 i = 0 → at_ (table_sectors f) i = 0 ∧ (add = bps - 1 → i ≠ 1)).
  { destruct (Z.eqb_spec add (bps - 1)) as [E|];
      [|exists (table_sectors f); split; [done|]; split; [done|]; split; [by auto|by intros i _ ->]].
    destruct (sector_of d f (add + 1) 1 Hok ltac:(lia) ltac:(lia) ltac:(lia) ltac:(lia)) as [Hs2 Hst2].
    assert (E2 : (add + 1) / bps = add / bps + 1).
    { rewrite E. rewrite (Z.div_small (bps - 1)) by lia.
      replace (bps - 1 + 1) with bps by lia. apply Z.div_same. lia. }
    rewrite E2 in *.
    destruct (wr_at (table_sectors f) (add / bps + 1) 1 Hs2) as (s1 & Hw1 & Hl1 & Ha1).
    assert (E1 : add / bps = 0) by (apply Z.div_small; lia).
    exists s1. split; [done|]. split; [done|]. split; intros i Hi; rewrite Ha1 by done;
      destruct (Z.eqb_spec i (add / bps + 1)) as [->|]; [by right|by left|done|].
    intros Hz. split; [done|lia]. }
  destruct H1 as (s1 & -> & Hl1 & Hd1 & Hz1). cbn [mbind option_bind].
  destruct (wr_at s1 (add / bps) 1 ltac:(lia)) as (s2 & -> & Hl2 & Ha2). cbn [mbind option_bind].
  destruct (W_LE16_at (table_buffer f) add v Hadd ltac:(lia)) as (buf & -> & Hbl & Hba & Hbb).
  cbn [mbind option_bind]. eexists _, _. split; [reflexivity|]. split; [|split; [|split; [|done]]].
  - apply store_ok; [done|done|by apply Hbb|lia| |].
    + intros i Hi. rewrite Ha2 by done. destruct (Z.eqb_spec i (add / bps)) as [->|]; [by right|].
      by apply Hd1.
    + intros k Hk Hx. rewrite Ha2 by (apply Z.div_pos; lia).
      destruct (Z.eqb_spec (k / bps) (add / bps)) as [|Hne]; [done|]. intros Hz.
      destruct (Hz1 (k / bps) ltac:(apply Z.div_pos; lia) Hz) as [Hz2 Hfirst]. split; [done|].
      rewrite Hba by done. destruct (Z.eqb_spec k add) as [->|]; [done|].
      destruct (Z.eqb_spec k (add + 1)) as [->|]; [|done]. exfalso.
      rewrite Hoff, Z.add_0_l in Hx. exact (next_sector_crosses off Ht (proj1 Ho) Hne Hx Hfirst).
  - unfold accounted. rewrite Ht. by destruct f.
  - apply stored_small; [by rewrite Ht|done|done|]. intros k Hk. rewrite Hba by lia.
    unfold stored. rewrite Ht. fold add.
    rewrite !(table_byte_small d f) by (try done; try lia; by rewrite Ht).
    fold w. rewrite Ev. done.
Qed.

Lemma set_ok_16 d f off val :
  type g = type_16 → fat_ok d f → 0 ≤ off < clusters + 2 → 0 ≤ val < 2 ^ 32 →
  ∃ d' f', set_table_value g d f off val = Some (d', f', 0) ∧ updates d f off val d' f'.
Proof.
  intros Ht Hok Ho Hval. unfold set_table_value.
  pose proof clusters_range as Hcr. pose proof (geo_entries g Hg off Ho) as He.
  rewrite (off_in_range off Ho), Ht. rewrite Ht in He. cbn [entry_end] in He.
  destruct (ok_small _ _ Hok ltac:(by rewrite Ht)) as [Hoff Hl].
  rewrite Z.shiftl_mul_pow2 by lia. change (2 ^ 1) with 2. rewrite Z.mul_comm.
  rewrite wrap_small by (change (2 ^ 32) with 4294967296; lia).
  destruct (W_LE16_at (table_buffer f) (2 * off) val ltac:(lia) ltac:(lia))
    as (buf & Hw & Hbl & Hba & Hbb).
  destruct (store_aligned d f (2 * off) 2 buf Hok) as (s & -> & Hok'); try done; try lia.
  { rewrite Z.mul_comm. by apply Z.mod_mul. }
  { apply Hbb, (ok_bytes _ _ Hok). }
  { intros k Hk Hn. rewrite Hba by done. by eqbs. }
  cbn [mbind option_bind]. rewrite Hw. cbn [mbind option_bind].
  eexists _, _. split; [reflexivity|]. split; [done|]. split; [|split; [|done]].
  - unfold accounted. rewrite Ht. by destruct f.
  - apply stored_small; [by rewrite Ht|done|done|]. intros k Hk. rewrite Hba by lia.
    unfold stored. rewrite Ht. rewrite (table_byte_small d f) by (try done; by rewrite Ht). done.
Qed.

Lemma account_low f off old val :
  account f off (Z.land old 0x0FFFFFFF) val = account f off old val.
Proof. unfold account. by rewrite <- Z.land_assoc, Z.land_diag. Qed.

Lemma account_set_table f off old val b s o :
  account (set_table f b s o) off old val = set_table (account f off old val) b s o.
Proof. unfold account. cbn. by destruct (negb (fs_info_free f =? 0xFFFFFFFF)). Qed.

Lemma set_ok_32 d f off val :
  type g = type_32 → fat_ok d f → 0 ≤ off < clusters + 2 → 0 ≤ val < 2 ^ 32 →
  ∃ d' f', set_table_value g d f off val = Some (d', f', 0) ∧ updates d f off val d' f'.
Proof.
  intros Ht Hok Ho Hval. unfold set_table_value.
  pose proof clusters_range as Hcr. pose proof (geo_entries g Hg off Ho) as He.
  rewrite (off_in_range off Ho), Ht. rewrite Ht in He. cbn [entry_end] in He.
  rewrite Z.shiftl_mul_pow2 by lia. change (2 ^ 2) with 4. rewrite (Z.mul_comm off 4).
  rewrite wrap_small by (change (2 ^ 32) with 4294967296; lia).
  destruct (read_table_buffer_ok d f (4 * off) Ht Hok ltac:(lia)) as (d1 & f1 & -> & Hk & Hoff).
  cbn [mbind option_bind Z.eqb negb]. pose proof Hk as (Hok1 & Hr1 & Hv1 & Ho1).
  pose proof (ok_large _ _ Hok1 Ht) as Hl. pose proof (ok_bytes _ _ Hok1) as Hbytes.
  set (add := (4 * off) mod 0x20000) in *.
  assert (Hadd : 0 ≤ add ∧ add + 4 ≤ 0x20000 ∧ add mod 4 = 0) by (unfold add; dlia). clearbody add.
  assert (Hw : ∀ i, 0 ≤ i < 4 → at_ (table_buffer f1) (add + i) = table_byte d f (4 * off + i)).
  { intros i Hi. rewrite <- Hv1, <- (table_byte_window d1) by lia. f_equal. lia. }
  rewrite LE32_at by (try done; lia).
  pose proof (Hw 0 ltac:(lia)) as E0. rewrite !Z.add_0_r in E0.
  rewrite E0, !Hw by lia. set (w := table_byte d f (4 * off) + _ + _ + _).
  assert (Hwr : 0 ≤ w < 4294967296).
  { unfold w. pose proof (table_byte_is_byte d f) as Hb. unfold is_byte in Hb.
    pose proof (Hb (4 * off) Hok). pose proof (Hb (4 * off + 1) Hok).
    pose proof (Hb (4 * off + 2) Hok). pose proof (Hb (4 * off + 3) Hok). lia. }
  set (v := Z.lor (Z.land val 0x0FFFFFFF) (Z.land w 0xF0000000)).
  assert (Ev : v = val mod 2 ^ 28 + 2 ^ 28 * (w / 2 ^ 28)).
  { unfold v. change 0xF0000000 with (Z.shiftl (Z.ones 4) 28). rewrite land_field by lia.
    change 0x0FFFFFFF with (2 ^ 28 - 1). rewrite land_ones_mod by lia.
    rewrite (Z.mul_comm (2 ^ 28)), <- Z.shiftl_mul_pow2, lor_high by
      (try lia; apply Z.mod_pos_bound; lia).
    change (2 ^ 4) with 16. change (2 ^ 28) with 268435456. dlia. }
  assert (Evl : Z.lor (Z.land val 0x0FFFFFFF) (Z.land w 0xF0000000) = v) by done.
  clearbody v. set (f2 := account f1 off w val).
  assert (E2 : table_buffer f2 = table_buffer f1 ∧ table_offset f2 = table_offset f1)
    by (unfold f2; by rewrite account_table).
  destruct E2 as [E2 E3].
  destruct (W_LE32_at (table_buffer f1) add v ltac:(lia) ltac:(lia)) as (buf & Hwr2 & Hbl & Hba & Hbb).
  destruct (store_aligned d1 f1 add 4 buf Hok1) as (s & -> & Hok'); try done; try lia.
  { by apply Hbb. }
  { intros k Hk0 Hn. rewrite Hba by done. by eqbs. }
  cbn [mbind option_bind]. fold f2. rewrite E2, E3, Evl, Hwr2. cbn [mbind option_bind].
  eexists _, _. split; [reflexivity|].
  assert (Ef : set_table f2 buf s (table_offset f1)
    = set_info (set_table f1 buf s (table_offset f1)) (fs_info_free f2) (fs_info_next f2))
    by (unfold f2; rewrite account_table at 1; done).
  split; [|split; [|split; [|done]]].
  - rewrite Ef. by apply fat_ok_info.
  - unfold same_rest, accounted. rewrite Ht. cbn [set_table table_buffer table_sectors table_offset].
    unfold f2, value. rewrite Ht. cbn [entry_of]. fold w.
    rewrite <- (account_low f1 off w val). change 0x0FFFFFFF with (2 ^ 28 - 1).
    rewrite land_ones_mod by lia. rewrite Hr1, account_set_table. done.
  - intros j Hj. rewrite Ef.
    change (table_byte d1 (set_info ?x _ _) j) with (table_byte d1 x j).
    rewrite table_byte_set by done. unfold stored. rewrite Ht. fold w. rewrite <- Ev.
    destruct (Z.leb_spec (table_offset f1) j); cbn [andb].
    + destruct (Z.ltb_spec j (table_offset f1 + Z.of_nat (length (table_buffer f1)))).
      * rewrite Hba by lia. rewrite <- (Hv1 j Hj).
        rewrite <- (table_byte_window d1 f1 (j - table_offset f1)) by lia.
        rewrite Z.add_sub_assoc, Z.add_simpl_l.
        eqbs; done.
      * rewrite Hv1 by lia. by eqbs.
    + rewrite Hv1 by lia. by eqbs.
Qed.

(** A store changes the value of its cluster and no other. *)
Lemma set_ok d f off val :
  fat_ok d f → 0 ≤ off < clusters + 2 → 0 ≤ val < 2 ^ 32 →
  ∃ d' f', set_table_value g d f off val = Some (d', f', 0) ∧ updates d f off val d' f'.
Proof.
  intros Hok Ho Hval. destruct (type g) eqn:Ht;
    [by apply set_ok_12|by apply set_ok_16|by apply set_ok_32].
Qed.

Lemma updates_value d f off val d' f' o :
  fat_ok d f → updates d f off val d' f' → 0 ≤ off < clusters + 2 → 0 ≤ o < clusters + 2 →
  value d' f' o = if o =? off then stored_value (type g) val else value d f o.
Proof.
  intros Hok (_ & _ & Hv & _) Hoff Ho. unfold value.
  rewrite <- (stored_entry (type g) (table_byte d f)); [|intros j; by apply table_byte_is_byte|lia|lia].
  apply (entry_of_ext _ _ _ _ (fs_table_size g)); [lia| |done].
  by apply (geo_entries g Hg).
Qed.

Lemma set_out_of_range d f off val :
  clusters + 2 ≤ off → set_table_value g d f off val = Some (d, f, FAT_INCONSISTENT_STATE).
Proof.
  intros Ho. unfold set_table_value. rewrite u32_clusters, Z.geb_leb.
  by rewrite (proj2 (Z.leb_le _ _)) by lia.
Qed.

(** *** Changes that do not concern the table *)

(** The values of the clusters and what is outside of the tables, preserved. *)
Definition preserves (d : D) (f : fat) (d' : D) (f' : fat) : Prop :=
  fat_ok d' f' ∧ (∀ o, 0 ≤ o < clusters + 2 → value d' f' o = value d f o) ∧
  (∀ a, outside_tables a → content d' a = content d a).

Lemma keeps_preserves d f d' f' : keeps d f d' f' → preserves d f d' f'.
Proof.
  intros Hk. pose proof Hk as (Hok & _ & _ & Ho). split; [done|]. split; [|done].
  intros o. by apply value_keeps.
Qed.

Lemma preserves_refl d f : fat_ok d f → preserves d f d f.
Proof. intros Hok. by apply keeps_preserves, keeps_refl. Qed.

Lemma preserves_trans d f d1 f1 d2 f2 :
  preserves d f d1 f1 → preserves d1 f1 d2 f2 → preserves d f d2 f2.
Proof.
  intros (H1 & V1 & O1) (H2 & V2 & O2). split; [done|].
  split; [intros o Ho; by rewrite V2, V1|intros a Ha; by rewrite O2, O1].
Qed.

(** Another device with the same tables, another instance with the same table. *)
Lemma other_ok d f d' f' :
  fat_ok d f →
  Z.of_nat (length (cluster_buffer f')) = cluster_size g → Forall is_byte (cluster_buffer f') →
  table_buffer f' = table_buffer f → table_sectors f' = table_sectors f →
  table_offset f' = table_offset f →
  (∀ a, table_base ≤ a < table_base + fs_table_size g → content d' a = content d a) →
  fat_ok d' f' ∧ ∀ o, 0 ≤ o < clusters + 2 → value d' f' o = value d f o.
Proof.
  intros Hok Hcl Hcb E1 E2 E3 Hc. split.
  - destruct Hok as [Hb Ho Hsm Hla Hsec Hdi Hco _].
    split; rewrite ?E1, ?E2, ?E3; try done.
    intros k Hk Hkt Hx Hd. unfold dirty in Hd. rewrite E2 in Hd.
    rewrite Hc by lia. by apply Hco.
  - intros o Ho. apply (entry_of_ext _ _ _ _ (fs_table_size g)); [lia|by apply (geo_entries g Hg)|].
    intros j Hj. unfold table_byte. rewrite E1, E3.
    destruct (_ && _); [done|]. apply Hc. lia.
Qed.

Lemma last_preserves d f last : fat_ok d f → preserves d f d (set_last_allocated f last).
Proof.
  intros Hok. destruct (ok_cluster _ _ Hok).
  destruct (other_ok d f d (set_last_allocated f last) Hok) as [? ?]; try done. 
Qed.

(** *** Clusters on the device *)

(** The first sector of the data, and the address of a cluster. *)
Definition data_base : Z := (fs_total_sectors g - fs_data_sectors g) * bps.
Definition cluster_addr (c : Z) : Z := data_base + (c - 2) * cluster_size g.

Lemma data_after_tables : (fs_last_table_sector g + 1) * bps ≤ data_base.
Proof.
  destruct bps_range as [Hb _]. unfold data_base. rewrite (geo_last_table g Hg), <- (geo_total g Hg).
  destruct (geo_directory g Hg) as [Hd _]. nia.
Qed.

Lemma cluster_size_pos : 0 < cluster_size g.
Proof.
  destruct bps_range as [Hb _]. rewrite (geo_cluster_size g Hg).
  destruct (geo_cluster g Hg) as (k & Hk & ->). assert (0 < 2 ^ k) by (apply Z.pow_pos_nonneg; lia). nia.
Qed.

(** The first sector of a cluster. *)
Definition first_sector (c : Z) : Z :=
  fs_total_sectors g - fs_data_sectors g + (c - 2) * fs_cluster_sectors g.

Lemma first_sector_ok c :
  2 ≤ c < clusters + 2 →
  fs_last_table_sector g + 1 ≤ first_sector c < 2 ^ 32 ∧ 0 < first_sector c ∧
  first_sector c * io_mul g * bs = cluster_addr c ∧
  (u32 (c - 2) >=? clusters) = false ∧
  u32 (fs_total_sectors g - fs_data_sectors g) + u32 (u32 (c - 2) * fs_cluster_sectors g)
  = first_sector c.
Proof.
  intros Hc. destruct bps_range as [Hb _]. pose proof clusters_range as Hcr.
  pose proof data_after_tables as Hdat. pose proof (geo_total_range g Hg) as Htr.
  pose proof (geo_total g Hg) as Htot. destruct (geo_clusters g Hg) as [_ Hcl].
  pose proof (geo_table_sectors g Hg) as Hts. destruct (geo_directory g Hg) as [Hdir _].
  pose proof (geo_reserved g Hg) as Hres.
  assert (Hcs : 0 < fs_cluster_sectors g)
    by (destruct (geo_cluster g Hg) as (k & Hk & ->); apply Z.pow_pos_nonneg; lia).
  assert (Hprod : 0 ≤ fs_tables g * fs_table_sectors g)
    by (destruct (geo_tables g Hg) as [-> | ->]; lia).
  assert (Hcd : fs_clusters g * fs_cluster_sectors g ≤ fs_data_sectors g)
    by (rewrite Hcl, Z.mul_comm; apply Z.mul_div_le; lia).
  assert (Hs : fs_last_table_sector g + 1 ≤ first_sector c < 2 ^ 32)
    by (rewrite (geo_last_table g Hg); unfold first_sector; nia).
  split; [done|]. split; [rewrite (geo_last_table g Hg) in Hs; lia|]. split.
  { unfold cluster_addr, data_base, first_sector. rewrite (geo_cluster_size g Hg), Hbs. ring. }
  rewrite (wrap_small 32 (c - 2)) by (change (2 ^ 32) with 4294967296; lia).
  split; [rewrite Z.geb_leb; apply Z.leb_gt; lia|].
  rewrite (wrap_small 32 (fs_total_sectors g - _)), (wrap_small 32 (_ * _)) by nia. done.
Qed.

(** [read_cluster] without its wrap-arounds. *)
Lemma read_cluster_eq d f c skip_io :
  2 ≤ c < clusters + 2 →
  read_cluster g d f c skip_io
  = let s := first_sector c in
    if skip_io then Some (d, set_cluster f (cluster_buffer f) 0 s, 0)
    else
      let f := set_cluster f (cluster_buffer f) (cluster_buffer_lba f) s in
      if cluster_buffer_lba f =? s * io_mul g then Some (d, f, 0)
      else
        let '(d, ok, data) := io_read d (s * io_mul g) (cluster_size g) in
        buffer ← splice (cluster_buffer f) 0 data;
        Some (if (ok : bool) then (d, set_cluster f buffer (s * io_mul g) s, 0)
              else (d, set_cluster f (replicate (length buffer) 0) 0 s, FAT_BLOCK_READ_ERROR)).
Proof.
  intros Hc. destruct (first_sector_ok c Hc) as (Hs & Hpos & _ & E1 & E2). unfold read_cluster.
  rewrite E1, E2, (wrap_small 32 (first_sector c)) by lia. by destruct skip_io.
Qed.

(** [write_cluster] writes the buffer to the cluster. *)
Lemma write_cluster_ok d f c :
  2 ≤ c < clusters + 2 → cluster_sector f = first_sector c →
  Z.of_nat (length (cluster_buffer f)) = cluster_size g → Forall is_byte (cluster_buffer f) →
  ∃ d', write_cluster g d f = Some (d', set_block f (block_buffer f) 0, 0) ∧
    ∀ a, content d' a = if (cluster_addr c <=? a) && (a <? cluster_addr c + cluster_size g)
                        then at_ (cluster_buffer f) (a - cluster_addr c) else content d a.
Proof.
  intros Hc Hsec Hl Hb. destruct (first_sector_ok c Hc) as (Hs & Hpos & Haddr & _ & _).
  pose proof cluster_size_pos as Hcs0. pose proof (geo_mul g Hg) as Hmul.
  destruct (slice_spec (cluster_buffer f) 0 (cluster_size g)) as (data & Hslice & Hdl & Hd & Hdb); [lia..|].
  destruct (io_write_ok (bs := bs) d (first_sector c * io_mul g) data) as (d2 & Hw & Hc2);
    [nia|by apply Hdb|].
  exists d2. split.
  - unfold write_cluster. rewrite Hsec, (proj2 (Z.leb_gt _ _)) by lia.
    cbn [set_block cluster_buffer]. rewrite Hslice. cbn [mbind option_bind]. by rewrite Hw.
  - intros a. rewrite Hc2, Haddr, Hd.
    destruct (Z.leb_spec 0 (a - cluster_addr c)), (Z.leb_spec (cluster_addr c) a); try lia;
    destruct (Z.ltb_spec (a - cluster_addr c) (cluster_size g)),
      (Z.ltb_spec a (cluster_addr c + cluster_size g)); try lia; try done.
    cbn [andb]. by rewrite at_rd by lia.
Qed.

(** A write to a cluster does not concern the tables. *)
Lemma cluster_after_tables c : 2 ≤ c → table_base + fs_table_size g ≤ cluster_addr c.
Proof.
  intros Hc. pose proof data_after_tables as Hdat. pose proof table_ends as Hte.
  pose proof cluster_size_pos as Hcs0. destruct bps_range as [Hb _].
  pose proof (geo_table_sectors g Hg).
  assert (data_base ≤ cluster_addr c) by (unfold cluster_addr; nia).
  assert (fs_table_size g ≤ fs_tables g * fs_table_size g)
    by (destruct (geo_tables g Hg) as [-> | ->]; destruct (geo_table_size g Hg); nia). lia.
Qed.

(** A cluster of zeros is written. *)
Lemma erase_ok d f c :
  fat_ok d f → 2 ≤ c < clusters + 2 →
  ∃ f1 d2 f2, read_cluster g d f c true = Some (d, f1, 0) ∧
    write_cluster g d (clear_cluster f1) = Some (d2, f2, 0) ∧
    fat_ok d2 f2 ∧ (∀ o, 0 ≤ o < clusters + 2 → value d2 f2 o = value d f o) ∧
    last_allocated f2 = last_allocated f ∧
    ∀ a, content d2 a = if (cluster_addr c <=? a) && (a <? cluster_addr c + cluster_size g)
                        then 0 else content d a.
Proof.
  intros Hok Hc. destruct (ok_cluster _ _ Hok) as [Hl Hcb].
  set (f1 := set_cluster f (cluster_buffer f) 0 (first_sector c)).
  assert (Hl1 : Z.of_nat (length (cluster_buffer (clear_cluster f1))) = cluster_size g)
    by (cbn; by rewrite length_replicate).
  destruct (write_cluster_ok d (clear_cluster f1) c Hc eq_refl Hl1 (bytes_zeros _)) as (d2 & Hw & Hc2).
  set (f2 := set_block (clear_cluster f1) (block_buffer f) 0).
  exists f1, d2, f2. split; [by rewrite read_cluster_eq|]. split; [done|].
  assert (Hcont : ∀ a, content d2 a
    = if (cluster_addr c <=? a) && (a <? cluster_addr c + cluster_size g) then 0 else content d a).
  { intros a. rewrite Hc2. destruct (_ && _); [|done]. apply at_replicate. }
  destruct (other_ok d f d2 f2 Hok) as [Hok2 Hv2]; try done.
  - apply bytes_zeros.
  - intros a Ha. rewrite Hcont. pose proof (cluster_after_tables c ltac:(lia)).
    by rewrite (proj2 (Z.leb_gt _ _)) by lia.
Qed.

(** *** Allocation *)

Lemma find_free_ok n d f i :
  fat_ok d f → 0 ≤ i → i + Z.of_nat n ≤ clusters + 2 →
  ∃ d' f' r, find_free g n d f i = Some (d', f', r) ∧ preserves d f d' f' ∧
    match r with
    | Some c => i ≤ c < i + Z.of_nat n ∧ value d f c = 0 ∧ last_allocated f' = c ∧
                (∀ o, i ≤ o < c → value d f o ≠ 0)
    | None => (∀ o, i ≤ o < i + Z.of_nat n → value d f o ≠ 0)
    end.
Proof.
  revert d f i. induction n as [|n IH]; intros d f i Hok Hi Hn.
  { exists d, f, None. split; [done|]. split; [by apply preserves_refl|lia]. }
  cbn [find_free]. destruct (get_ok d f i Hok ltac:(lia)) as (d1 & f1 & -> & Hk).
  apply keeps_preserves in Hk. pose proof Hk as (Hok1 & Hv1 & _). cbn [mbind option_bind].
  destruct (Z.eqb_spec (value d f i) 0) as [Hz|Hnz].
  { exists d1, (set_last_allocated f1 i), (Some i). split; [done|]. split.
    - apply (preserves_trans _ _ _ _ _ _ Hk). by apply last_preserves.
    - split; [lia|]. split; [done|]. split; [done|lia]. }
  destruct (IH d1 f1 (i + 1) Hok1 ltac:(lia) ltac:(lia)) as (d2 & f2 & r & Hf & Hp & Hr).
  exists d2, f2, r. split; [done|]. split; [by apply (preserves_trans _ _ _ _ _ _ Hk)|].
  assert (Hrest : ∀ o hi, hi ≤ i + Z.of_nat (S n) → i ≤ o < hi →
    (∀ o, i + 1 ≤ o < hi → value d1 f1 o ≠ 0) → value d f o ≠ 0).
  { intros o hi Hhi Ho Hall. destruct (decide (o = i)) as [->|]; [done|].
    rewrite <- Hv1 by lia. apply Hall. lia. }
  destruct r as [c|].
  - destruct Hr as (Hc & Hz & Hl & Hb). split; [lia|]. split; [by rewrite <- Hv1 by lia|].
    split; [done|]. intros o Ho. apply (Hrest o c); [lia|done|done].
  - intros o Ho. apply (Hrest o (i + Z.of_nat (S n))); [lia|done|].
    intros o' Ho'. apply Hr. lia.
Qed.

(** Where [allocate_cluster] looks first. *)
Definition first_fit (v : Z → Z) (last c : Z) : Prop :=
  2 ≤ c < clusters + 2 ∧ v c = 0 ∧
  ((2 < last ≤ c ∧ ∀ o, last ≤ o < c → v o ≠ 0) ∨
   ((∀ o, 2 < last ≤ o → o < clusters + 2 → v o ≠ 0) ∧ ∀ o, 2 ≤ o < c → v o ≠ 0)).

Lemma allocate_ok d f :
  fat_ok d f →
  ∃ d' f' r c, allocate_cluster g d f = Some (d', f', r, c) ∧ preserves d f d' f' ∧
    ((r = 0 ∧ first_fit (value d f) (last_allocated f) c ∧ last_allocated f' = c) ∨
     (r = FAT_NOT_ENOUGH_SPACE ∧ c = 0 ∧ ∀ o, 2 ≤ o < clusters + 2 → value d f o ≠ 0)).
Proof.
  intros Hok. unfold allocate_cluster. rewrite u32_clusters. pose proof clusters_range as Hcr.
  set (last := last_allocated f).
  assert (H1 : ∃ d1 f1 r1,
    (if last >? 2 then find_free g (Z.to_nat (clusters + 2 - last)) d f last
     else Some (d, f, None)) = Some (d1, f1, r1) ∧ preserves d f d1 f1 ∧
    match r1 with
    | Some c => 2 < last ≤ c ∧ c < clusters + 2 ∧ value d f c = 0 ∧ last_allocated f1 = c ∧
                (∀ o, last ≤ o < c → value d f o ≠ 0)
    | None => ∀ o, 2 < last ≤ o → o < clusters + 2 → value d f o ≠ 0
    end).
  { destruct (Z.gtb_spec last 2) as [Hl|Hl].
    2: { exists d, f, None. split; [done|]. split; [by apply preserves_refl|]. intros o Ho _. lia. }
    destruct (Z.le_gt_cases (clusters + 2) last) as [Hge|Hlt].
    { replace (Z.to_nat (clusters + 2 - last)) with 0%nat by lia. exists d, f, None.
      split; [done|]. split; [by apply preserves_refl|]. intros o Ho Ho2. lia. }
    destruct (find_free_ok (Z.to_nat (clusters + 2 - last)) d f last Hok ltac:(lia) ltac:(lia))
      as (d1 & f1 & r1 & Hf & Hp & Hr). exists d1, f1, r1. split; [done|]. split; [done|].
    destruct r1 as [c|].
    - destruct Hr as (Hc & Hz & Ha & Hb). repeat (split; [done || lia|]). done.
    - intros o Ho Ho2. apply Hr. lia. }
  destruct H1 as (d1 & f1 & r1 & -> & Hp1 & Hr1). cbn [mbind option_bind].
  destruct r1 as [c|].
  { destruct Hr1 as (Hc & Hc2 & Hz & Ha & Hb). exists d1, f1, 0, c. split; [done|]. split; [done|].
    left. split; [done|]. split; [|done]. split; [lia|]. split; [done|]. by left. }
  pose proof Hp1 as (Hok1 & Hv1 & _).
  destruct (find_free_ok (Z.to_nat (clusters + 2 - 2)) d1 f1 2 Hok1 ltac:(lia) ltac:(lia))
    as (d2 & f2 & r2 & -> & Hp2 & Hr2). cbn [mbind option_bind].
  pose proof (preserves_trans _ _ _ _ _ _ Hp1 Hp2) as Hp.
  destruct r2 as [c|].
  - destruct Hr2 as (Hc & Hz & Ha & Hb). exists d2, f2, 0, c. split; [done|]. split; [done|].
    left. split; [done|]. split; [|done]. split; [lia|].
    split; [by rewrite <- Hv1 by lia|]. right. split; [done|].
    intros o Ho. rewrite <- Hv1 by lia. by apply Hb.
  - exists d2, f2, FAT_NOT_ENOUGH_SPACE, 0. split; [done|]. split; [done|].
    right. split; [done|]. split; [done|]. intros o Ho. rewrite <- Hv1 by lia. apply Hr2. lia.
Qed.

(** *** Chains *)

(** The clusters of the chain from a cluster: the table may be arbitrary, with
    cycles and links to clusters that do not exist. *)
Inductive linked (v : Z → Z) : Z → Z → Prop :=
| linked_here c : 2 ≤ c < clusters + 2 → linked v c c
| linked_next c o : 2 ≤ c < clusters + 2 → linked v (v c) o → linked v c o.

Lemma linked_range v c o : linked v c o → 2 ≤ c < clusters + 2 ∧ 2 ≤ o < clusters + 2.
Proof. induction 1; [done|]. tauto. Qed.

Lemma linked_inv v c o : linked v c o → o = c ∨ linked v (v c) o.
Proof. inversion 1; auto. Qed.

Lemma linked_ext v v' c o :
  (∀ o, 2 ≤ o < clusters + 2 → v' o = v o) → linked v c o → linked v' c o.
Proof.
  intros Hv. induction 1 as [c Hc|c o Hc Hl IH]; [by constructor|].
  apply linked_next; [done|]. by rewrite Hv.
Qed.

Section Cut.
Context (v v' : Z → Z) (c : Z)
  (Hv' : ∀ o, 2 ≤ o < clusters + 2 → v' o = if o =? c then 0 else v o).

(** Cutting the chain after [c] removes nothing that is reached without [c]. *)
Lemma linked_cut x o : linked v x o → linked v' x o ∨ linked v' (v c) o ∨ o = c.
Proof.
  induction 1 as [x Hx|x o Hx Hl IH]; [left; by constructor|].
  destruct IH as [IH|IH]; [|by right]. destruct (Z.eq_dec x c) as [->|Hne]; [by auto|].
  left. apply linked_next; [done|]. by rewrite Hv', (proj2 (Z.eqb_neq _ _)).
Qed.

Lemma linked_cut_here o : linked v c o → o = c ∨ linked v' (v c) o.
Proof.
  intros Hl. pose proof (linked_range _ _ _ Hl) as [Hc _].
  destruct (linked_cut c o Hl) as [H1|[H1|H1]]; auto.
  apply linked_inv in H1 as [H1|H1]; [by left|].
  rewrite Hv', Z.eqb_refl in H1 by done. apply linked_range in H1. lia.
Qed.

Lemma linked_uncut x o : linked v' x o → linked v x o.
Proof.
  induction 1 as [x Hx|x o Hx Hl IH]; [by constructor|].
  rewrite Hv' in Hl, IH by done. destruct (Z.eqb_spec x c) as [->|].
  - apply linked_range in Hl. lia.
  - by apply linked_next.
Qed.
End Cut.

(** *** Deletion *)

Lemma filter_fewer {A} (P Q : A → Prop) `{!∀ x, Decision (P x), !∀ x, Decision (Q x)} (l : list A) :
  (∀ x, x ∈ l → P x → Q x) →
  (length (filter P l) ≤ length (filter Q l))%nat ∧
  ∀ x, x ∈ l → Q x → ~ P x → (length (filter P l) < length (filter Q l))%nat.
Proof.
  induction l as [|y l IH]; intros HPQ; [split; [done|intros x Hx; by apply elem_of_nil in Hx]|].
  destruct IH as [IH1 IH2]; [intros x Hx; apply HPQ; by right|].
  rewrite !filter_cons. pose proof (HPQ y ltac:(by left)) as Hy.
  destruct (decide (P y)), (decide (Q y)); cbn [length]; try tauto.
  - split; [lia|]. intros x [->|Hx]%elem_of_cons HQ HP; [done|]. specialize (IH2 x Hx HQ HP). lia.
  - split; [lia|]. intros x _ _ _. lia.
  - split; [lia|]. intros x [->|Hx]%elem_of_cons HQ HP; [done|]. by apply (IH2 x).
Qed.

(** The number of clusters in use. *)
Definition in_use (v : Z → Z) : nat := length (filter (λ o, v o ≠ 0) (seqZ 2 clusters)).

Lemma in_use_cut v v' c :
  (∀ o, 2 ≤ o < clusters + 2 → v' o = if o =? c then 0 else v o) →
  (in_use v' ≤ in_use v)%nat ∧
  (2 ≤ c < clusters + 2 → v c ≠ 0 → (in_use v' < in_use v)%nat).
Proof.
  intros Hv. unfold in_use.
  destruct (filter_fewer (λ o, v' o ≠ 0) (λ o, v o ≠ 0) (seqZ 2 clusters)) as [H1 H2].
  { intros o Ho. apply elem_of_seqZ in Ho. rewrite Hv by lia. by destruct (o =? c). }
  split; [done|]. intros Hc Hn. apply (H2 c); [apply elem_of_seqZ; lia|done|].
  rewrite Hv, Z.eqb_refl by done. intros Hz. by apply Hz.
Qed.

Lemma in_use_range v : (in_use v ≤ Z.to_nat clusters)%nat.
Proof.
  unfold in_use. etransitivity; [apply length_filter|]. by rewrite length_seqZ.
Qed.

Lemma value_range d f o : fat_ok d f → 0 ≤ o → 0 ≤ value d f o < 2 ^ 28.
Proof.
  intros Hok Ho. change (2 ^ 28) with 268435456. unfold value.
  pose proof (λ j, table_byte_is_byte d f j Hok) as Hb. unfold is_byte in Hb.
  set (b := table_byte d f) in *. clearbody b. destruct (type g); cbn [entry_of].
  - pose proof (Hb (o + o / 2)). pose proof (Hb (o + o / 2 + 1)).
    set (w := b _ + _). assert (0 ≤ w < 65536) by lia. clearbody w.
    destruct (Z.odd o); destruct (_ >=? _); dlia.
  - pose proof (Hb (2 * o)). pose proof (Hb (2 * o + 1)). destruct (_ >=? _); lia.
  - change (2 ^ 28) with 268435456. apply Z.mod_pos_bound. lia.
Qed.

Definition in_cluster (c a : Z) : Prop := cluster_addr c ≤ a < cluster_addr c + cluster_size g.

Lemma in_cluster_inj c o a : in_cluster c a → in_cluster o a → o = c.
Proof. unfold in_cluster, cluster_addr. pose proof cluster_size_pos. nia. Qed.

Lemma in_cluster_data c a : 2 ≤ c → in_cluster c a → data_base ≤ a ∧ outside_tables a.
Proof.
  unfold in_cluster, cluster_addr. intros Hc Ha. pose proof cluster_size_pos.
  assert (data_base ≤ a) by nia. split; [done|]. right. pose proof data_after_tables. lia.
Qed.

Lemma delete_turn_ok d f c :
  fat_ok d f → 2 ≤ c < clusters + 2 →
  ∃ d' f', delete_turn g (d, f, c) = Some (Next (d', f', value d f c)) ∧ fat_ok d' f' ∧
    (∀ o, 0 ≤ o < clusters + 2 → value d' f' o = if o =? c then 0 else value d f o) ∧
    (∀ a, in_cluster c a → content d' a = 0) ∧
    (∀ a, outside_tables a → ~ in_cluster c a → content d' a = content d a).
Proof.
  intros Hok Hc. pose proof clusters_range as Hcr. unfold delete_turn.
  rewrite Z.geb_leb, (proj2 (Z.leb_le _ _)), (proj2 (Z.ltb_lt _ _)) by lia. cbn [andb].
  destruct (erase_ok d f c Hok Hc) as (f1 & d2 & f2 & -> & Hw & Hok2 & Hv2 & _ & Hc2).
  cbn [mbind option_bind Z.eqb]. rewrite Hw. cbn [mbind option_bind].
  destruct (get_ok d2 f2 c Hok2 ltac:(lia)) as (d3 & f3 & -> & Hk3).
  apply keeps_preserves in Hk3 as (Hok3 & Hv3 & Ho3). cbn [mbind option_bind].
  destruct (set_ok d3 f3 c 0 Hok3 ltac:(lia) ltac:(done)) as (d4 & f4 & -> & Hu).
  pose proof Hu as (Hok4 & _ & _ & Ho4). cbn [mbind option_bind].
  rewrite Hv2 by lia. exists d4, f4. split; [done|]. split; [done|]. split; [|split].
  - intros o Ho. rewrite (updates_value d3 f3 c 0 d4 f4 o Hok3 Hu) by lia.
    destruct (o =? c); [by destruct (type g)|]. by rewrite Hv3, Hv2 by lia.
  - intros a Ha. destruct (in_cluster_data c a ltac:(lia) Ha) as [_ Hout].
    rewrite Ho4, Ho3, Hc2 by done. unfold in_cluster in Ha.
    by rewrite (proj2 (Z.leb_le _ _)), (proj2 (Z.ltb_lt _ _)) by lia.
  - intros a Hout Ha. rewrite Ho4, Ho3, Hc2 by done. unfold in_cluster in Ha.
    destruct (Z.leb_spec (cluster_addr c) a), (Z.ltb_spec a (cluster_addr c + cluster_size g));
      try done. exfalso. lia.
Qed.

(** A cluster that does not exist ends the loop. *)
Lemma delete_turn_out d f c :
  clusters + 2 ≤ c < 0x0FFFFFF8 →
  delete_turn g (d, f, c) = Some (Next (d, f, 1)).
Proof.
  intros Hc. unfold delete_turn. pose proof clusters_range as Hcr.
  rewrite Z.geb_leb, (proj2 (Z.leb_le _ _)), (proj2 (Z.ltb_lt _ _)) by lia. cbn [andb].
  unfold read_cluster. rewrite (wrap_small 32 (c - 2)) by (change (2 ^ 32) with 4294967296; lia).
  rewrite Z.geb_leb, (proj2 (Z.leb_le _ _)) by lia. cbn [mbind option_bind].
  change (FAT_INCONSISTENT_STATE =? 0) with false. cbn [mbind option_bind].
  rewrite get_out_of_range by lia. cbn [mbind option_bind]. by rewrite set_out_of_range by lia.
Qed.

(** What [delete_clusters] does of the table [v] and the device [d]. *)
Definition deleted (v : Z → Z) (d : D) (start : Z) (v' : Z → Z) (d' : D) : Prop :=
  (∀ o, linked v start o → v' o = 0 ∧ ∀ a, in_cluster o a → content d' a = 0) ∧
  (∀ o, 0 ≤ o < clusters + 2 →
     (v' o = v o ∧ ∀ a, 2 ≤ o → in_cluster o a → content d' a = content d a) ∨
     (v' o = 0 ∧ linked v start o)) ∧
  (∀ a, outside_tables a → a < data_base → content d' a = content d a).

(** The same, half way, at the cluster [c]. *)
Definition deleting (v : Z → Z) (d : D) (start : Z) (x : D * fat * Z) : Prop :=
  let '(d', f', c) := x in
  fat_ok d' f' ∧ 0 ≤ c ∧
  (∀ o, linked (value d' f') c o → linked v start o) ∧
  (∀ o, linked v start o → linked (value d' f') c o ∨
     (value d' f' o = 0 ∧ ∀ a, in_cluster o a → content d' a = 0)) ∧
  (∀ o, 0 ≤ o < clusters + 2 →
     (value d' f' o = v o ∧ ∀ a, 2 ≤ o → in_cluster o a → content d' a = content d a) ∨
     (value d' f' o = 0 ∧ linked v start o)) ∧
  (∀ a, outside_tables a → a < data_base → content d' a = content d a).

Lemma deleting_step v d start d1 f1 c d2 f2 :
  deleting v d start (d1, f1, c) → 2 ≤ c < clusters + 2 → fat_ok d2 f2 →
  (∀ o, 0 ≤ o < clusters + 2 → value d2 f2 o = if o =? c then 0 else value d1 f1 o) →
  (∀ a, in_cluster c a → content d2 a = 0) →
  (∀ a, outside_tables a → ~ in_cluster c a → content d2 a = content d1 a) →
  deleting v d start (d2, f2, value d1 f1 c).
Proof.
  intros (Hok & _ & HA & HB & HC & HD') Hc Hok2 Hv Hz Hsame.
  assert (Hcut : ∀ o, 2 ≤ o < clusters + 2 → value d2 f2 o = if o =? c then 0 else value d1 f1 o)
    by (intros o Ho; apply Hv; lia).
  assert (Hlc : linked v start c) by (apply HA; by constructor).
  split; [done|]. split; [apply value_range; [done|lia]|]. split; [|split; [|split]].
  - intros o Ho. apply HA. apply linked_next; [done|].
    by apply (linked_uncut _ _ c Hcut).
  - intros o Ho. destruct (HB o Ho) as [Hl|[Hz1 Hz2]].
    + destruct (linked_cut_here _ _ c Hcut o Hl) as [->|Hl2]; [|by left].
      right. rewrite Hcut, Z.eqb_refl by done. done.
    + pose proof (linked_range _ _ _ Ho) as [_ Hro]. right. rewrite Hcut by done.
      split; [by destruct (o =? c)|]. intros a Ha.
      destruct (Z.eq_dec o c) as [->|Hne]; [by apply Hz|].
      destruct (in_cluster_data o a ltac:(lia) Ha) as [_ Hout].
      rewrite Hsame; [by apply Hz2|done|]. intros Ha2. by apply Hne, (in_cluster_inj c o a).
  - intros o Ho. rewrite Hv by done. destruct (Z.eqb_spec o c) as [->|Hne]; [by right|].
    destruct (HC o Ho) as [[H1 H2]|H1]; [left|by right]. split; [done|].
    intros a Ho2 Ha. destruct (in_cluster_data o a ltac:(lia) Ha) as [_ Hout].
    rewrite Hsame; [by apply H2|done|]. intros Ha2. by apply Hne, (in_cluster_inj c o a).
  - intros a Hout Ha. rewrite Hsame; [by apply HD'|done|].
    intros Hin. apply in_cluster_data in Hin; lia.
Qed.

Lemma delete_loop_ok d f start :
  fat_ok d f → 0 ≤ start →
  ∃ d' f', while (Z.to_nat clusters + 4) (delete_turn g) (d, f, start) = Some (d', f') ∧
    fat_ok d' f' ∧ deleted (value d f) d start (value d' f') d'.
Proof.
  intros Hok Hstart.
  destruct (while_total
    (deleting (value d f) d start)
    (λ x : D * fat * Z, let '(d1, f1, c) := x in
       (in_use (value d1 f1) + (if decide (2 ≤ c < 0x0FFFFFF8)%Z then 1 else 0))%nat)
    (λ r : D * fat, let '(d', f') := r in
       fat_ok d' f' ∧ deleted (value d f) d start (value d' f') d')
    (delete_turn g)) with (fuel := (Z.to_nat clusters + 4)%nat) (s := (d, f, start))
    as ([d' f'] & Hw & Hq).
  - intros [[d1 f1] c] HI. pose proof HI as (Hok1 & Hc0 & HA & HB & HC & HD').
    destruct (decide (2 ≤ c < 0x0FFFFFF8)) as [Hc|Hc].
    2: { assert (E : delete_turn g (d1, f1, c) = Some (Done (d1, f1))).
         { unfold delete_turn. rewrite Z.geb_leb.
           destruct (Z.leb_spec 2 c), (Z.ltb_spec c 0x0FFFFFF8); try done. lia. }
         rewrite E. eexists. split; [done|]. split; [done|]. split; [|done].
         intros o Ho. destruct (HB o Ho) as [Hl|]; [|done].
         apply linked_range in Hl as [Hl _]. pose proof clusters_range. lia. }
    destruct (Z.lt_ge_cases c (clusters + 2)) as [Hlt|Hge].
    + destruct (delete_turn_ok d1 f1 c Hok1 ltac:(lia)) as (d2 & f2 & -> & Hok2 & Hv2 & Hz & Hs).
      eexists. split; [done|].
      split; [apply (deleting_step _ _ _ d1 f1 c d2 f2); try done; lia|].
      destruct (in_use_cut (value d1 f1) (value d2 f2) c) as [Hle Hless];
        [intros o Ho; apply Hv2; lia|].
      destruct (Z.eq_dec (value d1 f1 c) 0) as [->|Hnz].
      * destruct (decide _) as [|_]; [lia|]. lia.
      * specialize (Hless ltac:(lia) Hnz). destruct (decide _); lia.
    + rewrite delete_turn_out by lia. eexists. split; [done|]. split.
      * split; [done|]. split; [lia|]. split; [intros o Ho; apply linked_range in Ho; lia|].
        split; [|done]. intros o Ho. destruct (HB o Ho) as [Hl|]; [|by right].
        apply linked_range in Hl. lia.
      * destruct (decide _); lia.
  - cbn [deleting]. split; [done|]. split; [done|]. split; [done|].
    split; [by left|]. split; [|done]. intros o Ho. by left.
  - cbn beta iota. pose proof (in_use_range (value d f)). destruct (decide _); lia.
  - exists d', f'. done.
Qed.

Lemma stored_cluster c : 0 ≤ c < clusters + 2 → stored_value (type g) c = c.
Proof.
  intros Hc. pose proof clusters_range. pose proof (geo_type g Hg) as Ht. unfold determine_type in Ht.
  unfold stored_value. rewrite Ht.
  destruct (Z.ltb_spec clusters 4085).
  - rewrite (Z.mod_small c) by lia. rewrite Z.geb_leb, (proj2 (Z.leb_gt _ _)) by lia. done.
  - destruct (Z.ltb_spec clusters 65525).
    + rewrite (Z.mod_small c) by lia. rewrite Z.geb_leb, (proj2 (Z.leb_gt _ _)) by lia. done.
    + apply Z.mod_small. change (2 ^ 28) with 268435456. lia.
Qed.

(** A new chain link, after the check and the allocation. *)
Lemma write_table_unless_ok fast d f :
  fat_ok d f →
  ∃ d' f', write_table_unless g fast d f = Some (d', f', 0) ∧ keeps d f d' f' ∧
    (fast = false → ∀ j, 0 ≤ j < fs_table_size g → ¬ crossing j →
       content d' (table_base + j) = table_byte d' f' j).
Proof.
  intros Hok. destruct fast; cbn [write_table_unless].
  - exists d, f. split; [done|]. split; [by apply keeps_refl|done].
  - destruct (write_table_ok d f Hok) as (d' & Hw & Hok' & Hv & Ho & Hdev).
    exists d', (cleaned f). split; [done|]. split; [split; [done|split; [by destruct f|done]]|].
    intros _ j Hj Hx. by rewrite Hdev, Hv.
Qed.

Lemma fresh_cluster_ok (fast : bool) d f c :
  fat_ok d f → 2 ≤ c < clusters + 2 →
  ∃ d' f', (if fast then Some (d, f, 0)
            else '(d, f, r) ← read_cluster g d f c true;
                 if negb (r =? 0) then Some (d, f, r) else write_cluster g d (clear_cluster f))
           = Some (d', f', 0) ∧ fat_ok d' f' ∧
    (∀ o, 0 ≤ o < clusters + 2 → value d' f' o = value d f o) ∧
    (∀ a, outside_tables a → content d' a
       = if negb fast && ((cluster_addr c <=? a) && (a <? cluster_addr c + cluster_size g))
         then 0 else content d a).
Proof.
  intros Hok Hc. destruct fast; [by exists d, f|].
  destruct (erase_ok d f c Hok Hc) as (f1 & d2 & f2 & -> & Hw & Hok2 & Hv2 & _ & Hc2).
  exists d2, f2. cbn [mbind option_bind negb Z.eqb]. split; [done|]. split; [done|].
  split; [done|]. intros a _. by rewrite Hc2.
Qed.

(** *** The operations are correct *)

(** (C20) Storing a value in the table and reading any entry back, for FAT12,
    FAT16 and FAT32: the entry that was stored has the value (its low 12, 16 or
    28 bits, with the end-of-chain marks widened), every other entry the value
    it had, whether or not the window of a FAT32 table had to be moved in
    between; nothing outside of the tables is written, and the free count and
    the hint of FAT32 follow. *)
Theorem table_set_get d f off val o :
  fat_ok d f → 0 ≤ off < clusters + 2 → 0 ≤ o < clusters + 2 → 0 ≤ val < 2 ^ 32 →
  ∃ d1 f1 d2 f2,
    set_table_value g d f off val = Some (d1, f1, 0) ∧
    get_table_value g d1 f1 o
      = Some (d2, f2, if o =? off then stored_value (type g) val else value d f o) ∧
    fat_ok d2 f2 ∧ same_rest (accounted f off (value d f off) val) f2 ∧
    (∀ a, outside_tables a → content d2 a = content d a).
Proof.
  intros Hok Hoff Ho Hval.
  destruct (set_ok d f off val Hok Hoff Hval) as (d1 & f1 & Hset & Hu).
  pose proof Hu as (Hok1 & Hr1 & _ & Ho1).
  destruct (get_ok d1 f1 o Hok1 Ho) as (d2 & f2 & Hget & Hok2 & Hr2 & _ & Ho2).
  exists d1, f1, d2, f2. rewrite Hget, (updates_value d f off val d1 f1 o Hok Hu Hoff Ho).
  split; [done|]. split; [done|]. split; [done|]. split.
  - unfold same_rest in *. rewrite Hr2, Hr1. by destruct (accounted f off (value d f off) val).
  - intros a Ha. by rewrite Ho2, Ho1.
Qed.

(** Allocation: the first free cluster from the one allocated last, or
    from the first cluster of the volume when there is none; the table keeps
    its values.  The error says that no cluster is free. *)
Theorem allocate_cluster_correct d f :
  fat_ok d f →
  ∃ d' f' r c, allocate_cluster g d f = Some (d', f', r, c) ∧ preserves d f d' f' ∧
    ((r = 0 ∧ first_fit (value d f) (last_allocated f) c ∧ last_allocated f' = c) ∨
     (r = FAT_NOT_ENOUGH_SPACE ∧ c = 0 ∧ ∀ o, 2 ≤ o < clusters + 2 → value d f o ≠ 0)).
Proof. apply allocate_ok. Qed.

(** (C21) Deleting a chain ends on every table, also when the chain has a cycle
    or leaves the volume.  The clusters of the chain, and no others, become
    free, and their data on the device is erased; the other clusters keep value
    and data.  Afterwards the primary table on the device is that of the memory,
    byte by byte; on volumes with FAT12 this leaves out the bytes at which an
    entry crosses into the third sector of the table or a later one, which the
    code need not write. *)
Theorem delete_clusters_correct d f start :
  fat_ok d f → 0 ≤ start →
  ∃ d' f', delete_clusters g d f start = Some (d', f') ∧ fat_ok d' f' ∧
    last_allocated f' = 0 ∧ deleted (value d f) d start (value d' f') d' ∧
    (∀ j, 0 ≤ j < fs_table_size g → ¬ crossing j → content d' (table_base + j) = table_byte d' f' j).
Proof.
  intros Hok Hstart. unfold delete_clusters.
  destruct (delete_loop_ok d f start Hok Hstart) as (d1 & f1 & -> & Hok1 & HA & HB & HC).
  cbn [mbind option_bind]. destruct (last_preserves d1 f1 0 Hok1) as (Hok2 & Hv2 & _).
  destruct (write_table_ok d1 (set_last_allocated f1 0) Hok2) as (d3 & -> & Hok3 & Hv3 & Ho3 & Hdev).
  cbn [mbind option_bind]. eexists _, _. split; [done|]. split; [done|]. split; [done|].
  assert (Hv : ∀ o, 0 ≤ o < clusters + 2 →
    value d3 (cleaned (set_last_allocated f1 0)) o = value d1 f1 o).
  { intros o Ho. rewrite <- Hv2 by done.
    apply (entry_of_ext _ _ _ _ (fs_table_size g)); [lia|by apply (geo_entries g Hg)|done]. }
  assert (Hin : ∀ o a, 2 ≤ o → in_cluster o a → content d3 a = content d1 a).
  { intros o a Ho Ha. apply Ho3. by apply (in_cluster_data o a). }
  split; [split; [|split]|].
  - intros o Ho. pose proof (linked_range _ _ _ Ho) as [_ Hr]. destruct (HA o Ho) as [H1 H2].
    rewrite Hv by lia. split; [done|]. intros a Ha. rewrite (Hin o) by (try done; lia). by apply H2.
  - intros o Ho. rewrite Hv by done. destruct (HB o Ho) as [[H1 H2]|H1]; [left|by right].
    split; [done|]. intros a H2o Ha. rewrite (Hin o) by done. by apply H2.
  - intros a Hout Ha. rewrite Ho3 by done. by apply HC.
  - intros j Hj Hx. by rewrite Hdev, Hv3.
Qed.

(** (C30) Appending to a chain: a cluster with a link above 2 is refused; otherwise a
    free cluster is allocated, the first one from the last allocated one on,
    marked as the end, and linked from the current cluster; no other entry
    changes.  Without [fast], the new cluster is zeroed on the device before it is
    linked, and the primary table there is that of the memory, but for the bytes
    of FAT12 that [crossing] names.  A full volume is reported and leaves the
    table as it was. *)
Theorem append_cluster_correct d f current fast :
  fat_ok d f → 2 ≤ current < clusters + 2 →
  ∃ d' f' r, append_cluster g d f current fast = Some (d', f', r) ∧ fat_ok d' f' ∧
    ((2 < value d f current < 0x0FFFFFF8 ∧ r = FAT_INCONSISTENT_STATE ∧ preserves d f d' f') ∨
     (~ 2 < value d f current < 0x0FFFFFF8 ∧ r = FAT_NOT_ENOUGH_SPACE ∧ preserves d f d' f' ∧
      ∀ o, 2 ≤ o < clusters + 2 → value d f o ≠ 0) ∨
     (~ 2 < value d f current < 0x0FFFFFF8 ∧ r = 0 ∧ ∃ c,
        first_fit (value d f) (last_allocated f) c ∧
        (∀ o, 0 ≤ o < clusters + 2 → value d' f' o
           = if o =? current then c else if o =? c then 0x0FFFFFFF else value d f o) ∧
        (∀ a, outside_tables a → content d' a
           = if negb fast && ((cluster_addr c <=? a) && (a <? cluster_addr c + cluster_size g))
             then 0 else content d a) ∧
        (fast = false → ∀ j, 0 ≤ j < fs_table_size g → ¬ crossing j →
           content d' (table_base + j) = table_byte d' f' j))).
Proof.
  intros Hok Hcur. unfold append_cluster.
  destruct (get_ok d f current Hok ltac:(lia)) as (d1 & f1 & -> & Hk1).
  pose proof Hk1 as (Hok1 & Hr1 & _). apply keeps_preserves in Hk1.
  pose proof Hk1 as (_ & Hv1 & Ho1). cbn [mbind option_bind].
  destruct ((value d f current >? 2) && (value d f current <? 0x0FFFFFF8)) eqn:Hchk.
  { apply andb_true_iff in Hchk as [H1%Z.gtb_lt H2%Z.ltb_lt]. exists d1, f1, FAT_INCONSISTENT_STATE.
    split; [done|]. split; [done|]. left. split; [lia|done]. }
  assert (Hnot : ~ 2 < value d f current < 0x0FFFFFF8).
  { intros [H1%Z.gtb_lt H2%Z.ltb_lt]. by rewrite H1, H2 in Hchk. }
  destruct (allocate_ok d1 f1 Hok1) as (d2 & f2 & r & c & -> & Hp2 & Hres).
  cbn [mbind option_bind]. pose proof (preserves_trans _ _ _ _ _ _ Hk1 Hp2) as Hp.
  pose proof Hp as (Hok2 & Hv2 & Ho2).
  destruct Hres as [(-> & Hff & _)|(-> & _ & Hfull)].
  2: { exists d2, f2, FAT_NOT_ENOUGH_SPACE. split; [done|]. split; [done|]. right; left.
       split; [done|]. split; [done|]. split; [done|]. intros o Ho. rewrite <- Hv1 by lia. by apply Hfull. }
  pose proof Hff as (Hc & _ & _). pose proof clusters_range as Hcr. cbn [Z.eqb negb].
  destruct (fresh_cluster_ok fast d2 f2 c Hok2 Hc) as (d3 & f3 & -> & Hok3 & Hv3 & Ho3).
  cbn [mbind option_bind Z.eqb negb].
  destruct (set_ok d3 f3 c 0x0FFFFFFF Hok3 ltac:(lia) ltac:(done)) as (d4 & f4 & -> & Hu4).
  pose proof Hu4 as (Hok4 & _ & _ & Ho4). cbn [mbind option_bind Z.eqb negb].
  destruct (write_table_unless_ok fast d4 f4 Hok4) as (d5 & f5 & -> & Hk5 & _).
  apply keeps_preserves in Hk5 as (Hok5 & Hv5 & Ho5). cbn [mbind option_bind Z.eqb negb].
  destruct (set_ok d5 f5 current c Hok5 ltac:(lia)) as (d6 & f6 & -> & Hu6);
    [change (2 ^ 32) with 4294967296; lia|].
  pose proof Hu6 as (Hok6 & _ & _ & Ho6). cbn [mbind option_bind Z.eqb negb].
  destruct (write_table_unless_ok fast d6 f6 Hok6) as (d7 & f7 & -> & Hk7 & Hdev).
  apply keeps_preserves in Hk7 as (Hok7 & Hv7 & Ho7).
  exists d7, f7, 0. split; [done|]. split; [done|]. right; right. split; [done|]. split; [done|].
  exists c. split; [|split; [|split; [|done]]].
  - destruct Hff as (Hc1 & Hz & Hcase). rewrite Hv1 in Hz by lia. split; [done|]. split; [done|].
    assert (Hl : last_allocated f1 = last_allocated f) by (by rewrite Hr1).
    rewrite Hl in Hcase. destruct Hcase as [[Hl1 Hl2]|[Hl1 Hl2]]; [left|right].
    + split; [done|]. intros o Ho. rewrite <- Hv1 by lia. by apply Hl2.
    + split; [intros o Ho Ho'|intros o Ho]; rewrite <- Hv1 by lia; [by apply Hl1|by apply Hl2].
  - intros o Ho. rewrite Hv7, (updates_value d5 f5 current c d6 f6 o Hok5 Hu6) by lia.
    destruct (o =? current); [apply stored_cluster; lia|].
    rewrite Hv5, (updates_value d3 f3 c 0x0FFFFFFF d4 f4 o Hok3 Hu4) by lia.
    destruct (o =? c); [by destruct (type g)|]. by rewrite Hv3, Hv2.
  - intros a Ha. by rewrite Ho7, Ho6, Ho5, Ho4, Ho3, Ho2.
Qed.
End Spec.

(** ** Volumes to evaluate on *)

(** The instance of a volume with an empty table, as after mounting. *)
Definition blank (g : geometry) : fat :=
  let size := match type g with type_32 => 0x20000 | _ => fs_table_size g end in
  Fat true (replicate (Z.to_nat size) 0)
    (replicate (Z.to_nat (size / fs_bytes_per_sector g)) 0) 0 0xFFFFFFFF 0xFFFFFFFF 0
    (replicate (Z.to_nat (fs_bytes_per_sector g)) 0) 0
    (replicate (Z.to_nat (cluster_size g)) 0) 0 0.

Definition zeros : memory := λ _, 0.

Lemma blank_ok g :
  geometry_ok g → 0 < fs_table_size g → 0 ≤ cluster_size g → fat_ok 512 g zeros (blank g).
Proof.
  intros Hg Hpos Hcl. destruct (bps_range g Hg) as [Hb Hd]. destruct (geo_table_size g Hg) as [Hsz _].
  set (size := match type g with type_32 => 0x20000 | _ => fs_table_size g end).
  assert (Hs : 0 ≤ size ∧ size / fs_bytes_per_sector g * fs_bytes_per_sector g = size).
  { unfold size. pose proof (Z.div_mod 0x20000 (fs_bytes_per_sector g) ltac:(lia)).
    assert (fs_table_size g / fs_bytes_per_sector g * fs_bytes_per_sector g = fs_table_size g)
      by (rewrite Hsz, Z.div_mul; lia).
    destruct (type g); lia. }
  assert (0 ≤ size / fs_bytes_per_sector g) by (apply Z.div_pos; lia).
  unfold blank. fold size.
  split; cbn [table_buffer table_sectors table_offset cluster_buffer]; rewrite ?length_replicate.
  - apply bytes_zeros.
  - split; [lia|done].
  - intros Ht. split; [done|]. unfold size in *. destruct (type g); [lia|lia|done].
  - intros Ht. unfold size. by rewrite Ht.
  - lia.
  - intros i _ Hi. by rewrite at_replicate in Hi.
  - intros k _ _ _ _. by rewrite at_replicate.
  - split; [lia|apply bytes_zeros].
Qed.

(** A small volume with FAT12 and three sectors per table. *)
Definition fat12_geometry : geometry :=
  Geometry 512 1 1 1 2 16 1 1008 3 1536 1000 1000 type_12 0 0 6 512.

(** A volume with FAT32, whose table takes three windows. *)
Definition fat32_geometry : geometry :=
  Geometry 512 1 1 32 2 0 0 66658 513 262656 65600 65600 type_32 2 1 1057 512.

Lemma fat12_geometry_ok : geometry_ok fat12_geometry.
Proof.
  split; cbn; try done; try lia; try (by exists 9); try (by exists 0); try (by right).
  intros off Ho. dlia.
Qed.

Lemma fat32_geometry_ok : geometry_ok fat32_geometry.
Proof.
  split; cbn; try done; try lia; try (by exists 9); try (by exists 0); try (by right).
Qed.

Lemma fat12_blank : fat_ok 512 fat12_geometry zeros (blank fat12_geometry).
Proof. apply blank_ok; [apply fat12_geometry_ok|done|done]. Qed.

Lemma fat32_blank : fat_ok 512 fat32_geometry zeros (blank fat32_geometry).
Proof. apply blank_ok; [apply fat32_geometry_ok|done|done]. Qed.

Lemma table_set_get_witness :
  let g := fat32_geometry in let f := blank g in
  0x20000 ≤ 4 * 40000 ∧
  ∃ d1 f1 d2 f2,
    set_table_value g zeros f 40000 7 = Some (d1, f1, 0) ∧
    get_table_value g d1 f1 2
      = Some (d2, f2, if 2 =? 40000 then stored_value (type g) 7 else value 512 g zeros f 2) ∧
    fat_ok 512 g d2 f2 ∧ same_rest (accounted g f 40000 (value 512 g zeros f 40000) 7) f2 ∧
    (∀ a, outside_tables g a → content (bs := 512) d2 a = content (bs := 512) zeros a).
Proof.
  intros g f. split; [lia|].
  apply (table_set_get 512 g fat32_geometry_ok eq_refl zeros f 40000 7 2 fat32_blank);
    [split; [discriminate|reflexivity]|split; [discriminate|reflexivity]|
     split; [discriminate|reflexivity]].
Defined.

Lemma allocate_cluster_correct_witness :
  ∃ d' f' r c, allocate_cluster fat32_geometry zeros (blank fat32_geometry) = Some (d', f', r, c) ∧
    (r = 0 ∨ r = FAT_NOT_ENOUGH_SPACE).
Proof.
  destruct (allocate_cluster_correct 512 fat32_geometry fat32_geometry_ok eq_refl zeros
              (blank fat32_geometry) fat32_blank) as (d' & f' & r & c & H1 & _ & H2).
  exists d', f', r, c. split; [exact H1|]. destruct H2 as [[H2 _]|[H2 _]]; auto.
Defined.

Lemma delete_clusters_correct_witness :
  ∃ d' f', delete_clusters fat12_geometry zeros (blank fat12_geometry) 5 = Some (d', f') ∧
    fat_ok 512 fat12_geometry d' f' ∧ value 512 fat12_geometry d' f' 5 = 0.
Proof.
  destruct (delete_clusters_correct 512 fat12_geometry fat12_geometry_ok eq_refl zeros
              (blank fat12_geometry) 5 fat12_blank ltac:(done)) as (d' & f' & H1 & H2 & _ & H3 & _).
  exists d', f'. split; [exact H1|]. split; [exact H2|]. apply H3. constructor. cbn. lia.
Defined.

Lemma append_cluster_correct_witness :
  ∃ d' f' r,
    append_cluster fat12_geometry zeros (blank fat12_geometry) 5 false = Some (d', f', r) ∧
    fat_ok 512 fat12_geometry d' f'.
Proof.
  destruct (append_cluster_correct 512 fat12_geometry fat12_geometry_ok eq_refl zeros
              (blank fat12_geometry) 5 false fat12_blank ltac:(cbn; lia))
    as (d' & f' & r & H1 & H2 & _).
  exists d', f', r. split; [exact H1|exact H2].
Defined.

(** *** An entry of FAT12 across two sectors *)

(** On a volume with FAT12, an entry that lies across two sectors of the
    table, but for the first such entry, is not written completely: only its
    first sector is marked as modified.  Here the device holds another value
    than the table in memory after the entry was set and the table written. *)
Theorem fat12_straddling_entry_lost :
  ∃ g (d : memory) f off val d1 f1 d2 f2,
    geometry_ok g ∧ fat_ok 512 g d f ∧ type g = type_12 ∧ 2 ≤ off < fs_clusters g + 2 ∧
    (∀ j, content (bs := 512) d (table_base g + j) = 0) ∧
    set_table_value g d f off val = Some (d1, f1, 0) ∧
    write_table g d1 f1 = Some (d2, f2, 0) ∧
    value 512 g d2 f2 off = val ∧
    entry_of type_12 (λ j, content (bs := 512) d2 (table_base g + j)) off ≠ val.
Proof.
  pose proof fat12_geometry_ok as Hg.
  destruct (set_ok 512 fat12_geometry Hg eq_refl zeros (blank fat12_geometry) 682 0xABC fat12_blank)
    as (d1 & f1 & Hset & Hu); [cbn; lia|done|].
  pose proof Hu as (Hok1 & _).
  destruct (write_table_ok 512 fat12_geometry Hg eq_refl d1 f1 Hok1) as (d2 & Hw & Hok2 & Hv & _).
  exists fat12_geometry, zeros, (blank fat12_geometry), 682, 0xABC, d1, f1, d2, (cleaned f1).
  split; [done|]. split; [apply fat12_blank|]. split; [done|]. split; [cbn; lia|].
  split; [done|]. split; [done|]. split; [done|]. split.
  - transitivity (value 512 fat12_geometry d1 f1 682).
    + apply (entry_of_ext _ _ _ _ (fs_table_size fat12_geometry)); [lia|vm_compute; discriminate|done].
    + rewrite (updates_value 512 fat12_geometry Hg zeros (blank fat12_geometry) 682 0xABC d1 f1 682
                 fat12_blank Hu); [done|cbn; lia|cbn; lia].
  - assert (E : d2 = match '(d, f, _) ← set_table_value fat12_geometry zeros (blank fat12_geometry) 682 0xABC;
                     write_table fat12_geometry d f with
                     | Some (d, _, _) => d | None => zeros end)
      by (rewrite Hset; cbn [mbind option_bind]; by rewrite Hw).
    rewrite E. vm_compute. discriminate.
Qed.
