(* ===== verification/FatName.v ===== *)
(** File names of a FAT volume: [fill_path_buffer], [check_reserved_name] and
    [fat_strncmp] of common/fat.c.

    A path is the list of its bytes with the null byte at the end.  The path
    buffer is the list of its 256 entries; an entry holds a component while it
    is read, and the 11 bytes of a directory record afterwards. *)

From S2P Require Import Prelude.
From Stdlib Require Ascii String.
Import String.StringSyntax.
#[local] Open Scope string_scope.
#[local] Open Scope Z_scope.

Definition dot : Z := 0x2E.
Definition slash : Z := 0x2F.
Definition space : Z := 0x20.

(** struct fat_name *)
Record fat_name := FatName {
  name : list Z;
  name_length : Z;
  is_dir : bool }.

(** memset(&path[entries], 0, sizeof(path[0])) *)
Definition clear_name : fat_name := FatName (replicate 12 0) 0 false.

Definition toupper (c : Z) : Z := if (c >=? 0x61) && (c <=? 0x7A) then c - 32 else c.

(** Less, greater, colon, quotation mark; backslash, bar, question mark, asterisk. *)
Definition forbidden (c : Z) : bool :=
  (c =? 0x3C) || (c =? 0x3E) || (c =? 0x3A) || (c =? 0x22) ||
  (c =? 0x5C) || (c =? 0x7C) || (c =? 0x3F) || (c =? 0x2A).

(** The end of a turn of the first loop, for the states 1, 2 and 3: [c] is the
    character, which is a slash for a period at the end of the path. *)
Definition fill_end (path : list fat_name) (entries i state c next length : Z)
  : option (ctl (list fat_name * Z * Z * Z) (list fat_name * option Z)) :=
  if (state =? 1) && (c =? slash) then
    path ← path.[entries <- clear_name];
    Some (Next (path, entries, i + 1, 0))
  else if (state =? 1) && (c =? dot) && negb (next =? 0) then
    Some (Next (path, entries, i + 1, 2))
  else
    let last := (state =? 1) && (c =? dot) in
    let state := if last then 2 else state in
    let c := if last then slash else c in
    if (state =? 2) && (c =? slash) then
      path ← path.[entries <- clear_name];
      '(path, entries) ←
        (if entries >? 0 then
           path ← path.[entries - 1 <- clear_name]; Some (path, entries - 1)
         else Some (path, entries));
      Some (Next (path, entries, i + 1, 0))
    else if c =? slash then
      '(path, entries) ←
        (if length >? 0 then
           e ← path.[entries];
           path ← path.[entries <- FatName (name e) (name_length e) true];
           path ← path.[entries + 1 <- clear_name];
           Some (path, entries + 1)
         else Some (path, entries));
      Some (Next (path, entries, i + 1, 0))
    else if next =? 0 then Some (Done (path, Some (entries + 1)))
    else Some (Next (path, entries, i + 1, 3)).

(** One turn of the first loop: the path buffer, entries, i and state.  The
    answer is [None] for "return 1", or the number of entries. *)
Definition fill_turn (s : list Z) (x : list fat_name * Z * Z * Z)
  : option (ctl (list fat_name * Z * Z * Z) (list fat_name * option Z)) :=
  let '(path, entries, i, state) := x in
  c ← s.[i];
  if c =? 0 then Some (Done (path, Some entries))
  else
    e ← path.[entries];
    if (c <=? 0x20) || (c >? 0x7E) || (entries >=? 255) then Some (Done (path, None))
    else
      let c := toupper c in
      if forbidden c then Some (Done (path, None))
      else if negb (c =? slash) && (name_length e >? 11) then Some (Done (path, None))
      else
        '(path, length) ←
          (if negb (c =? slash) then
             n ← (name e).[name_length e <- c];
             path ← path.[entries <- FatName n (name_length e + 1) (is_dir e)];
             Some (path, name_length e + 1)
           else Some (path, name_length e));
        next ← s.[i + 1];
        if (state =? 0) && (c =? dot) then
          if negb (next =? 0) then Some (Next (path, entries, i + 1, 1))
          else fill_end path entries i 1 slash next length
        else fill_end path entries i state c next length.

(** The last period of a name but for the first byte; 0 if there is none. *)
Fixpoint find_dot (n : nat) (nm : list Z) : option Z :=
  match n with
  | O => Some 0
  | S n' =>
      c ← nm.[Z.of_nat n];
      if c =? dot then Some (Z.of_nat n) else find_dot n' nm
  end.

(** The test for a base name of periods only. *)
Fixpoint only_periods (n : nat) (nm : list Z) (j : Z) : option bool :=
  match n with
  | O => None
  | S n =>
      c ← nm.[j];
      if negb (c =? space) && negb (c =? dot) then Some false
      else if j =? 7 then Some true
      else only_periods n nm (j + 1)
  end.

Fixpoint fat_strncmp (s1 s2 : list Z) (i : Z) (n : nat) : option Z :=
  match n with
  | O => Some 0
  | S n =>
      c1 ← s1.[i];
      c2 ← s2.[i];
      if (n =? 0)%nat || (c1 =? 0) || negb (c1 =? c2) then
        if (c1 =? 0) && (c2 =? 0) then Some 0
        else if c1 <? c2 then Some (-1)
        else if c1 >? c2 then Some 1
        else fat_strncmp s1 s2 (i + 1) n
      else fat_strncmp s1 s2 (i + 1) n
  end.

(** The strings of [names], without their null bytes, and their lengths. *)
Definition reserved_names : list (list Z * nat) := [
  ([0x41; 0x55; 0x58; 0x20], 4%nat); ([0x43; 0x4F; 0x4D; 0x31; 0x20], 5%nat);
  ([0x43; 0x4F; 0x4D; 0x32; 0x20], 5%nat); ([0x43; 0x4F; 0x4D; 0x33; 0x20], 5%nat);
  ([0x43; 0x4F; 0x4D; 0x34; 0x20], 5%nat); ([0x43; 0x4F; 0x4D; 0x35; 0x20], 5%nat);
  ([0x43; 0x4F; 0x4D; 0x36; 0x20], 5%nat); ([0x43; 0x4F; 0x4D; 0x37; 0x20], 5%nat);
  ([0x43; 0x4F; 0x4D; 0x38; 0x20], 5%nat); ([0x43; 0x4F; 0x4D; 0x39; 0x20], 5%nat);
  ([0x43; 0x4F; 0x4E; 0x20], 4%nat); ([0x4C; 0x50; 0x54; 0x31; 0x20], 5%nat);
  ([0x4C; 0x50; 0x54; 0x32; 0x20], 5%nat); ([0x4C; 0x50; 0x54; 0x33; 0x20], 5%nat);
  ([0x4C; 0x50; 0x54; 0x34; 0x20], 5%nat); ([0x4C; 0x50; 0x54; 0x35; 0x20], 5%nat);
  ([0x4C; 0x50; 0x54; 0x36; 0x20], 5%nat); ([0x4C; 0x50; 0x54; 0x37; 0x20], 5%nat);
  ([0x4C; 0x50; 0x54; 0x38; 0x20], 5%nat); ([0x4C; 0x50; 0x54; 0x39; 0x20], 5%nat);
  ([0x4E; 0x55; 0x4C; 0x20], 4%nat); ([0x50; 0x52; 0x4E; 0x20], 4%nat)].

Fixpoint reserved_loop (names : list (list Z * nat)) (nm : list Z) : option bool :=
  match names with
  | [] => Some false
  | (s, n) :: names =>
      r ← fat_strncmp nm s 0 n;
      if r =? 0 then Some true else reserved_loop names nm
  end.

Definition check_reserved_name (nm : list Z) : option bool :=
  c ← nm.[8];
  if negb (c =? space) then Some false else reserved_loop reserved_names nm.

(** The four stores of null bytes from the period on. *)
Definition clear_4 (nm : list Z) (j : Z) : option (list Z) :=
  nm ← nm.[j <- 0];
  nm ← nm.[j + 1 <- 0];
  nm ← nm.[j + 2 <- 0];
  nm.[j + 3 <- 0].

(** The name of a record from a component: one turn of the second loop but for
    the tests at its end. *)
Definition pack_name (e : fat_name) : option (option (list Z)) :=
  let nm := name e in
  j ← find_dot 11 nm;
  if (j >? 8) || ((j =? 0) && (name_length e >? 8)) then Some None
  else if negb (j =? 0) && (name_length e - j >? 4) then Some None
  else
    nm ←
      (if negb (j =? 0) then
         e0 ← nm.[j + 1];
         e1 ← nm.[j + 2];
         e2 ← nm.[j + 3];
         nm ← clear_4 nm j;
         nm ← nm.[8 <- e0];
         nm ← nm.[9 <- e1];
         nm.[10 <- e2]
       else Some nm);
    let nm := ((λ c, if c =? 0 then space else c) <$> take 11 nm) ++ drop 11 nm in
    nm ← nm.[11 <- 0];
    Some (Some nm).

(** One turn of the second loop. *)
Definition pack_turn (e : fat_name) : option (option fat_name) :=
  nm ← pack_name e;
  match nm with
  | None => Some None
  | Some nm =>
      p ← only_periods 8 nm 0;
      if (p : bool) then Some None
      else
        r ← check_reserved_name nm;
        if (r : bool) then Some None
        else Some (Some (FatName nm (name_length e) (is_dir e)))
  end.

(** The second loop, [n] entries from [i]: the path buffer and success. *)
Fixpoint pack_names (n : nat) (path : list fat_name) (i : Z) : option (list fat_name * bool) :=
  match n with
  | O => Some (path, true)
  | S n =>
      e ← path.[i];
      r ← pack_turn e;
      match r with
      | None => Some (path, false)
      | Some e =>
          path ← path.[i <- e];
          pack_names n path (i + 1)
      end
  end.

(** The path buffer, path_entries and the answer.  An entry that is refused is
    left as it was; nothing reads it while path_entries is 0. *)
Definition fill_path_buffer (path : list fat_name) (s : list Z) : option (list fat_name * Z * Z) :=
  path ← path.[0 <- clear_name];
  '(path, r) ← while (S (length s)) (fill_turn s) (path, 0, 0, 0);
  match r with
  | None => Some (path, 0, 1)
  | Some entries =>
      '(path, ok) ← pack_names (Z.to_nat entries) path 0;
      if (ok : bool) then Some (path, entries, if entries =? 0 then 1 else 0)
      else Some (path, 0, 1)
  end.

(** ** The specification *)

(** The characters that no name may have: less, greater, colon, quotation mark,
    backslash, bar, question mark, asterisk. *)
Definition bad_chars : list Z := [0x3C; 0x3E; 0x3A; 0x22; 0x5C; 0x7C; 0x3F; 0x2A].

(** A character of a path. *)
Definition path_char (c : Z) : bool :=
  (0x20 <? c) && (c <=? 0x7E) && bool_decide (c ∉ bad_chars).

Lemma forbidden_spec c : forbidden c = bool_decide (c ∈ bad_chars).
Proof.
  unfold forbidden, bad_chars.
  destruct (bool_decide_reflect (c ∈ [0x3C; 0x3E; 0x3A; 0x22; 0x5C; 0x7C; 0x3F; 0x2A])) as [Hin|Hno].
  - repeat (apply elem_of_cons in Hin as [->|Hin]; [done|]). by apply elem_of_nil in Hin.
  - repeat (apply not_elem_of_cons in Hno as [? Hno]).
    by rewrite !(proj2 (Z.eqb_neq c _)) by done.
Qed.

(** None of the bad characters is a letter. *)
Lemma upper_bad c : toupper c ∈ bad_chars ↔ c ∈ bad_chars.
Proof.
  unfold toupper. destruct (Z.geb_spec c 0x61), (Z.leb_spec c 0x7A); cbn [andb]; [|done..].
  unfold bad_chars. rewrite !elem_of_cons, !elem_of_nil. lia.
Qed.

Lemma path_char_eq c :
  path_char c = (0x20 <? c) && (c <=? 0x7E) && negb (forbidden (toupper c)).
Proof.
  unfold path_char. f_equal. rewrite forbidden_spec.
  destruct (decide (c ∈ bad_chars)) as [Hin|Hno].
  - rewrite bool_decide_eq_false_2 by (intros Hn; by apply Hn).
    by rewrite bool_decide_eq_true_2 by (by apply upper_bad).
  - rewrite bool_decide_eq_true_2 by done.
    by rewrite bool_decide_eq_false_2 by (by rewrite upper_bad).
Qed.

(** The components between the slashes, in capitals; the flag says that a slash
    follows. *)
Fixpoint split_path (s cur : list Z) : list (list Z * bool) :=
  match s with
  | [] => match cur with [] => [] | _ => [(cur, false)] end
  | c :: s => if c =? slash then (cur, true) :: split_path s []
              else split_path s (cur ++ [toupper c])
  end.

(** What a component does to the directories before it. *)
Definition resolve (stack : list (list Z * bool)) (comp : list Z * bool) : list (list Z * bool) :=
  if bool_decide (fst comp = [] ∨ fst comp = [dot]) then stack
  else if bool_decide (fst comp = [dot; dot]) then take (length stack - 1) stack
  else stack ++ [comp].

(** At most 255 levels, and at most 12 characters in a component. *)
Fixpoint walk (comps stack : list (list Z * bool)) : option (list (list Z * bool)) :=
  match comps with
  | [] => Some stack
  | comp :: comps =>
      if (255 <=? length stack)%nat || (12 <? length (fst comp))%nat then None
      else walk comps (resolve stack comp)
  end.

(** The same, character by character. *)
Fixpoint run (s : list Z) (stack : list (list Z * bool)) (cur : list Z)
  : option (list (list Z * bool)) :=
  match s with
  | [] => Some (resolve stack (cur, false))
  | c :: s =>
      if negb (path_char c) || (255 <=? length stack)%nat then None
      else if c =? slash then run s (resolve stack (cur, true)) []
      else if (12 <=? length cur)%nat then None
      else run s stack (cur ++ [toupper c])
  end.

Lemma split_head s cur :
  cur ≠ [] → ∃ l d rest, split_path s cur = (cur ++ l, d) :: rest.
Proof.
  revert cur. induction s as [|c s IH]; intros cur Hc; cbn [split_path].
  - destruct cur as [|x cur]; [done|]. exists [], false, []. by rewrite app_nil_r.
  - destruct (c =? slash); [exists [], true, (split_path s []); by rewrite app_nil_r|].
    destruct (IH (cur ++ [toupper c])) as (l & d & rest & ->); [by destruct cur|].
    exists ([toupper c] ++ l), d, rest. by rewrite <- app_assoc.
Qed.

Lemma run_walk s stack cur :
  (cur ≠ [] → (length stack < 255)%nat) → (length cur ≤ 12)%nat →
  run s stack cur = if forallb path_char s then walk (split_path s cur) stack else None.
Proof.
  revert stack cur. induction s as [|c s IH]; intros stack cur Hst Hl; cbn [run split_path forallb].
  - destruct cur as [|x cur]; cbn [walk]; [done|]. cbn [fst].
    rewrite (proj2 (Nat.leb_gt 255 _)) by (by apply Hst).
    rewrite (proj2 (Nat.ltb_ge 12 _)) by done. done.
  - destruct (path_char c); cbn [negb orb andb]; [|done].
    destruct (Nat.leb_spec 255 (length stack)) as [Hdeep|Hdeep]; cbn [orb].
    + destruct (forallb path_char s); [|done]. destruct (c =? slash).
      * cbn [walk]. by rewrite (proj2 (Nat.leb_le 255 _)).
      * destruct (split_head s (cur ++ [toupper c])) as (l & d & rest & ->); [by destruct cur|].
        cbn [walk]. by rewrite (proj2 (Nat.leb_le 255 _)).
    + destruct (c =? slash).
      * rewrite IH by (done || (cbn; lia)). cbn [walk fst].
        rewrite (proj2 (Nat.leb_gt 255 _)), (proj2 (Nat.ltb_ge 12 _)) by done. done.
      * destruct (Nat.leb_spec 12 (length cur)) as [Hlong|Hshort].
        -- destruct (forallb path_char s); [|done].
           destruct (split_head s (cur ++ [toupper c])) as (l & d & rest & ->); [by destruct cur|].
           cbn [walk fst]. rewrite (proj2 (Nat.ltb_lt 12 _)), orb_true_r; [done|].
           rewrite !length_app. cbn. lia.
        -- apply IH; [done|]. rewrite length_app. cbn. lia.
Qed.

(** ** The first loop *)

(** An entry that holds a component. *)
Definition entry (comp : list Z * bool) : fat_name :=
  FatName (fst comp ++ replicate (12 - length (fst comp)) 0) (Z.of_nat (length (fst comp))) (snd comp).

Definition state_of (cur : list Z) : Z :=
  if bool_decide (cur = []) then 0
  else if bool_decide (cur = [dot]) then 1
  else if bool_decide (cur = [dot; dot]) then 2
  else 3.

(** The path buffer holds the stack and then the component that is read. *)
Record holds (path : list fat_name) (stack : list (list Z * bool)) (cur : list Z) : Prop := {
  holds_length : length path = 256%nat;
  holds_depth : (length stack ≤ 255)%nat;
  holds_short : (length cur ≤ 12)%nat;
  holds_stack : ∀ (k : nat) (comp : list Z * bool), stack !! k = Some comp → path !! k = Some (entry comp);
  holds_current : path !! length stack = Some (entry (cur, false)) }.

Lemma clear_entry : clear_name = entry ([], false).
Proof. done. Qed.

Lemma path_rd (path : list fat_name) i e : path !! i = Some e → path.[Z.of_nat i] = Some e.
Proof. intros Hi. apply rd_Some. split; [lia|]. by rewrite Nat2Z.id. Qed.

Lemma path_wr (path : list fat_name) i e :
  (i < length path)%nat → path.[Z.of_nat i <- e] = Some (<[i := e]> path).
Proof. intros Hi. rewrite wr_Some by lia. by rewrite Nat2Z.id. Qed.

(** A character joins the component. *)
Lemma entry_push cur c :
  (length cur < 12)%nat →
  ∃ n, (name (entry (cur, false))).[Z.of_nat (length cur) <- c] = Some n ∧
    FatName n (Z.of_nat (length cur) + 1) false = entry (cur ++ [c], false).
Proof.
  intros Hl. unfold entry. cbn [name fst snd].
  rewrite wr_Some by (rewrite length_app, length_replicate; lia). eexists. split; [done|].
  rewrite Nat2Z.id, insert_app_r_alt, Nat.sub_diag by lia.
  replace (12 - length cur)%nat with (S (12 - length (cur ++ [c]))) by (rewrite length_app; cbn; lia).
  cbn [replicate]. rewrite length_app. cbn [length]. f_equal; [|lia].
  rewrite <- app_assoc. done.
Qed.

Lemma holds_clear path stack cur :
  holds path stack cur → holds (<[length stack := clear_name]> path) stack [].
Proof.
  intros [Hl Hd Hcl Hs Hc]. split; [by rewrite length_insert|done|cbn; lia|..].
  - intros k comp Hk. pose proof (lookup_lt_Some _ _ _ Hk).
    rewrite list_lookup_insert_ne by lia. by apply Hs.
  - rewrite list_lookup_insert_eq by lia. done.
Qed.

Lemma holds_pop path stack cur :
  holds path stack cur → (0 < length stack)%nat →
  holds (<[(length stack - 1)%nat := clear_name]> (<[length stack := clear_name]> path))
    (take (length stack - 1) stack) [].
Proof.
  intros [Hl Hd Hcl Hs Hc] Hpos. split; [by rewrite !length_insert|rewrite length_take; lia|cbn; lia|..].
  - intros k comp Hk. apply lookup_take_Some in Hk as [Hk Hlt].
    rewrite !list_lookup_insert_ne by lia. by apply Hs.
  - rewrite length_take, Nat.min_l by lia. rewrite list_lookup_insert_eq; [done|].
    rewrite length_insert. lia.
Qed.

Lemma holds_close path stack cur dir :
  holds path stack cur → (length stack < 255)%nat →
  holds (<[S (length stack) := clear_name]> (<[length stack := entry (cur, dir)]> path))
    (stack ++ [(cur, dir)]) [].
Proof.
  intros [Hl Hd Hcl Hs Hc] Hlt. rewrite <- (Nat.add_1_r (length stack)).
  split; [by rewrite !length_insert|rewrite length_app; cbn; lia|cbn; lia|..].
  - intros k comp Hk. apply lookup_app_Some in Hk as [Hk|[Hge Hk]].
    + pose proof (lookup_lt_Some _ _ _ Hk). rewrite !list_lookup_insert_ne by lia. by apply Hs.
    + apply list_lookup_singleton_Some in Hk as [Hk <-]. replace k with (length stack) by lia.
      rewrite list_lookup_insert_ne, list_lookup_insert_eq by lia. done.
  - rewrite length_app. cbn [length]. rewrite list_lookup_insert_eq; [done|].
    rewrite length_insert. lia.
Qed.

Lemma holds_push path stack cur c :
  holds path stack cur → (length cur < 12)%nat →
  ∃ n, (name (entry (cur, false))).[Z.of_nat (length cur) <- c] = Some n ∧
    holds (<[length stack := FatName n (Z.of_nat (length cur) + 1) false]> path) stack (cur ++ [c]).
Proof.
  intros [Hl Hd Hcl Hs Hc] Hlt. destruct (entry_push cur c Hlt) as (n & Hn & En).
  exists n. split; [done|]. rewrite En.
  split; [by rewrite length_insert|done|rewrite length_app; cbn; lia|..].
  - intros k comp Hk. pose proof (lookup_lt_Some _ _ _ Hk).
    rewrite list_lookup_insert_ne by lia. by apply Hs.
  - rewrite list_lookup_insert_eq by lia. done.
Qed.

(** A slash ends the component. *)
Lemma slash_ok path stack cur i next :
  holds path stack cur → (length stack < 255)%nat →
  ∃ path', fill_end path (Z.of_nat (length stack)) i (state_of cur) slash next (Z.of_nat (length cur))
    = Some (Next (path', Z.of_nat (length (resolve stack (cur, true))), i + 1, 0)) ∧
    holds path' (resolve stack (cur, true)) [].
Proof.
  intros Hh Hlt. pose proof (holds_length _ _ _ Hh) as Hl. pose proof (holds_current _ _ _ Hh) as Hc.
  unfold fill_end, resolve, state_of. cbn [fst]. change (slash =? slash) with true.
  change (slash =? dot) with false. rewrite !andb_true_r, !andb_false_r, andb_false_l.
  destruct (decide (cur = [])) as [->|Hne].
  { cbn. eexists. split; [done|done]. }
  rewrite (bool_decide_eq_false_2 (cur = [])) by done.
  destruct (decide (cur = [dot])) as [->|Hne1].
  { rewrite path_wr by lia. cbn. eexists. split; [done|]. by apply (holds_clear _ _ [dot]). }
  rewrite (bool_decide_eq_false_2 (cur = [dot])), (bool_decide_eq_false_2 (cur = [] ∨ _)) by tauto.
  destruct (decide (cur = [dot; dot])) as [->|Hne2].
  { rewrite (bool_decide_eq_true_2 ([dot; dot] = [dot; dot])) by done.
    change (2 =? 1) with false. change (2 =? 2) with true. cbv iota. cbn [andb].
    rewrite path_wr by lia. cbn [mbind option_bind].
    destruct (Z.gtb_spec (Z.of_nat (length stack)) 0) as [Hpos|Hz].
    - replace (Z.of_nat (length stack) - 1) with (Z.of_nat (length stack - 1)) by lia.
      rewrite path_wr by (rewrite length_insert; lia).
      cbn [mbind option_bind]. rewrite length_take, Nat.min_l by lia. eexists. split; [done|].
      apply (holds_pop _ _ [dot; dot]); [done|lia].
    - assert (stack = []) as -> by (apply nil_length_inv; lia). cbn. eexists. split; [done|].
      by apply (holds_clear _ [] [dot; dot]). }
  rewrite (bool_decide_eq_false_2 (cur = [dot; dot])) by done.
  change (3 =? 1) with false. change (3 =? 2) with false. cbn [andb].
  assert (Hlc : (0 < length cur)%nat) by (destruct cur; [done|cbn; lia]).
  rewrite (proj2 (Z.gtb_lt _ _)) by lia. rewrite (path_rd _ _ _ Hc). cbn [mbind option_bind].
  rewrite path_wr by lia. cbn [mbind option_bind].
  replace (Z.of_nat (length stack) + 1) with (Z.of_nat (S (length stack))) by lia.
  rewrite path_wr by (rewrite length_insert; lia). cbn [mbind option_bind].
  rewrite length_app, Nat.add_1_r. eexists. split; [done|].
  apply (holds_close path stack cur true Hh Hlt).
Qed.

Lemma resolve_dots stack cur d d' :
  cur = [dot] ∨ cur = [dot; dot] → resolve stack (cur, d) = resolve stack (cur, d').
Proof. intros [-> | ->]; done. Qed.

(** What one turn leaves of the path. *)
Definition turn_ok (s : list Z) (i : Z) (answer : option (list (list Z * bool)))
    (c : ctl (list fat_name * Z * Z * Z) (list fat_name * option Z)) : Prop :=
  match c with
  | Next (path', e, i', st) => ∃ stack' cur', i' = i + 1 ∧ e = Z.of_nat (length stack') ∧
      st = state_of cur' ∧ holds path' stack' cur' ∧ (s = [] → cur' = []) ∧
      answer = run s stack' cur'
  | Done (path', Some e) => s = [] ∧ ∃ stack', e = Z.of_nat (length stack') ∧
      answer = Some stack' ∧ length path' = 256%nat ∧ (length stack' ≤ 255)%nat ∧
      ∀ (k : nat) comp, stack' !! k = Some comp → path' !! k = Some (entry comp)
  | Done (path', None) => answer = None ∧ length path' = 256%nat
  end.

(** A character that belongs to a component, after it was stored. *)
Lemma stored_char_ok path stack cur c i next s :
  holds path stack (cur ++ [c]) → (length stack < 255)%nat → c ≠ slash →
  (next = 0 ↔ s = []) →
  ∃ r, (if (state_of cur =? 0) && (c =? dot) then
          if negb (next =? 0) then Some (Next (path, Z.of_nat (length stack), i + 1, 1))
          else fill_end path (Z.of_nat (length stack)) i 1 slash next (Z.of_nat (length (cur ++ [c])))
        else fill_end path (Z.of_nat (length stack)) i (state_of cur) c next
               (Z.of_nat (length (cur ++ [c])))) = Some r ∧
    turn_ok s i (run s stack (cur ++ [c])) r.
Proof.
  intros Hh Hlt Hc Hnext. pose proof (holds_length _ _ _ Hh) as Hl.
  destruct (decide (cur = [] ∧ c = dot)) as [[-> ->]|H0].
  { change (state_of []) with 0. cbn [Z.eqb andb app]. change (dot =? dot) with true. cbv iota.
    destruct (Z.eqb_spec next 0) as [Hz|Hnz]; cbn [negb].
    - apply Hnext in Hz as Hs. destruct (slash_ok path stack [dot] i next Hh Hlt) as (p' & E & Hh').
      change (state_of [dot]) with 1 in E. rewrite E. eexists. split; [done|].
      exists (resolve stack ([dot], true)), []. subst s. done.
    - eexists. split; [done|]. exists stack, [dot]. split; [done|]. split; [done|]. split; [done|].
      split; [done|]. split; [|done]. intros E. by apply Hnext in E. }
  assert (E0 : (state_of cur =? 0) && (c =? dot) = false).
  { apply andb_false_iff. unfold state_of. destruct (bool_decide_reflect (cur = [])) as [->|].
    - right. apply Z.eqb_neq. tauto.
    - left. repeat case_bool_decide; done. }
  rewrite E0. clear E0.
  destruct (decide (cur = [dot] ∧ c = dot)) as [[-> ->]|H1].
  { destruct (Z.eqb_spec next 0) as [Hz|Hnz].
    - apply Hnext in Hz as Hs. destruct (slash_ok path stack [dot; dot] i next Hh Hlt) as (p' & E & Hh').
      exists (Next (p', Z.of_nat (length (resolve stack ([dot; dot], true))), i + 1, 0)).
      split.
      + rewrite <- E. unfold fill_end. subst next. done.
      + exists (resolve stack ([dot; dot], true)), []. subst s. done.
    - exists (Next (path, Z.of_nat (length stack), i + 1, 2)). split.
      + unfold fill_end. rewrite (proj2 (Z.eqb_neq next 0)) by done. done.
      + exists stack, [dot; dot]. split; [done|]. split; [done|]. split; [done|].
        split; [done|]. split; [|done]. intros E. by apply Hnext in E. }
  assert (N0 : cur ++ [c] ≠ []) by (by destruct cur).
  assert (N1 : cur ++ [c] ≠ [dot]).
  { intros E. apply (app_inj_tail cur []) in E. by apply H0. }
  assert (N2 : cur ++ [c] ≠ [dot; dot]).
  { intros E. apply (app_inj_tail cur [dot]) in E. by apply H1. }
  assert (E3 : state_of (cur ++ [c]) = 3)
    by (unfold state_of; by rewrite !bool_decide_eq_false_2).
  assert (E1 : (state_of cur =? 1) && (c =? dot) = false).
  { apply andb_false_iff. unfold state_of. destruct (bool_decide_reflect (cur = [])) as [|]; [by left|].
    destruct (bool_decide_reflect (cur = [dot])) as [->|].
    - right. apply Z.eqb_neq. tauto.
    - left. by case_bool_decide. }
  unfold fill_end. rewrite (proj2 (Z.eqb_neq c slash)) by done. rewrite !andb_false_r, E1.
  cbn [andb negb]. rewrite ?(proj2 (Z.eqb_neq c slash)), ?andb_false_r by done.
  destruct (Z.eqb_spec next 0) as [Hz|Hnz]; eexists; (split; [done|]).
  - apply Hnext in Hz as ->. split; [done|]. exists (stack ++ [(cur ++ [c], false)]).
    split; [rewrite length_app; cbn; lia|]. split.
    + cbn [run]. f_equal. unfold resolve. cbn [fst].
      rewrite bool_decide_eq_false_2 by tauto. by rewrite bool_decide_eq_false_2.
    + split; [done|]. split; [rewrite length_app; cbn; lia|].
      intros k comp [Hk|[Hge Hk]]%lookup_app_Some; [by apply (holds_stack _ _ _ Hh)|].
      apply list_lookup_singleton_Some in Hk as [Hk <-]. replace k with (length stack) by lia.
      apply (holds_current _ _ _ Hh).
  - exists stack, (cur ++ [c]). rewrite E3. split; [done|]. split; [done|]. split; [done|].
    split; [done|]. split; [|done]. intros E. by apply Hnext in E.
Qed.

Lemma toupper_slash c : path_char c = true → (toupper c = slash ↔ c = slash).
Proof.
  unfold toupper, slash. intros _.
  destruct (Z.geb_spec c 0x61), (Z.leb_spec c 0x7A); cbn [andb]; lia.
Qed.

(** One turn of the first loop. *)
Lemma fill_turn_ok bytes path stack cur c next s i :
  holds path stack cur →
  bytes.[i] = Some c → bytes.[i + 1] = Some next → c ≠ 0 → (next = 0 ↔ s = []) →
  ∃ r, fill_turn bytes (path, Z.of_nat (length stack), i, state_of cur) = Some r ∧
    turn_ok s i (run (c :: s) stack cur) r.
Proof.
  intros Hh Hc Hn Hnz Hnext. pose proof (holds_length _ _ _ Hh) as Hl.
  unfold fill_turn. rewrite Hc. cbn [mbind option_bind].
  rewrite (proj2 (Z.eqb_neq c 0)) by done. rewrite (path_rd _ _ _ (holds_current _ _ _ Hh)).
  cbn [mbind option_bind run].
  assert (Hbad : negb (path_char c) || (255 <=? length stack)%nat
    = (c <=? 0x20) || (c >? 0x7E) || (Z.of_nat (length stack) >=? 255) || forbidden (toupper c)).
  { rewrite path_char_eq.
    destruct (Z.ltb_spec 0x20 c), (Z.leb_spec c 0x20), (Z.leb_spec c 0x7E), (Z.gtb_spec c 0x7E),
      (Nat.leb_spec 255 (length stack)), (Z.geb_spec (Z.of_nat (length stack)) 255); try lia;
      by destruct (forbidden (toupper c)). }
  rewrite Hbad.
  destruct ((c <=? 0x20) || (c >? 0x7E) || (Z.of_nat (length stack) >=? 255)) eqn:Hb; cbn [orb].
  { eexists. split; [done|]. by split. }
  destruct (forbidden (toupper c)) eqn:Hf; cbn [orb] in Hbad |- *.
  { eexists. split; [done|]. by split. }
  apply orb_false_iff in Hbad as [Hpc%negb_false_iff Hdeep%Nat.leb_gt].
  pose proof (toupper_slash c Hpc) as Hup.
  destruct (Z.eqb_spec c slash) as [->|Hns].
  - rewrite (proj2 Hup eq_refl). change (slash =? slash) with true. change (slash =? dot) with false.
    cbn [negb andb mbind option_bind]. rewrite Hn. cbn [mbind option_bind]. rewrite andb_false_r.
    destruct (slash_ok path stack cur i next Hh Hdeep) as (p' & E & Hh').
    change (name_length (entry (cur, false))) with (Z.of_nat (length cur)). rewrite E.
    eexists. split; [done|]. exists (resolve stack (cur, true)), []. done.
  - assert (Hns' : toupper c ≠ slash) by (intros E; by apply Hns, Hup).
    rewrite (proj2 (Z.eqb_neq _ slash)) by done. cbn [negb andb].
    change (name_length (entry (cur, false))) with (Z.of_nat (length cur)).
    change (is_dir (entry (cur, false))) with false.
    destruct (Z.gtb_spec (Z.of_nat (length cur)) 11) as [Hlong|Hshort].
    { rewrite (proj2 (Nat.leb_le 12 _)) by lia. eexists. split; [done|]. by split. }
    rewrite (proj2 (Nat.leb_gt 12 _)) by lia.
    destruct (holds_push path stack cur (toupper c) Hh ltac:(lia)) as (n & En & Hh').
    rewrite En. cbn [mbind option_bind]. rewrite path_wr by lia. cbn [mbind option_bind].
    rewrite Hn. cbn [mbind option_bind].
    destruct (stored_char_ok _ stack cur (toupper c) i next s Hh' Hdeep Hns' Hnext) as (r & E & Hr).
    rewrite length_app, Nat2Z.inj_add in E. exists r. split; [exact E|done].
Qed.

Lemma fill_turn_end bytes path e i st :
  bytes.[i] = Some 0 → fill_turn bytes (path, e, i, st) = Some (Done (path, Some e)).
Proof. intros Hi. unfold fill_turn. by rewrite Hi. Qed.

(** The first loop computes [run]. *)
Lemma fill_loop_ok s pre path stack cur fuel :
  holds path stack cur → (s = [] → cur = []) → Forall (λ c, c ≠ 0) s →
  (length s < fuel)%nat →
  ∃ path' r, while fuel (fill_turn (pre ++ s ++ [0]))
      (path, Z.of_nat (length stack), Z.of_nat (length pre), state_of cur) = Some (path', r) ∧
    length path' = 256%nat ∧
    match run s stack cur with
    | Some stack' => r = Some (Z.of_nat (length stack')) ∧ (length stack' ≤ 255)%nat ∧
        ∀ (k : nat) comp, stack' !! k = Some comp → path' !! k = Some (entry comp)
    | None => r = None
    end.
Proof.
  revert pre path stack cur fuel.
  induction s as [|c s IH]; intros pre path stack cur fuel Hh Hend Hnz Hfuel;
    (destruct fuel as [|fuel]; [cbn in Hfuel; lia|]); cbn [while].
  { rewrite (Hend eq_refl) in *.
    assert (H0 : (pre ++ [] ++ [0]).[Z.of_nat (length pre)] = Some 0)
      by (rewrite rd_app_r by lia; by rewrite Z.sub_diag).
    rewrite (fill_turn_end _ _ _ _ _ H0).
    cbn. eexists _, _. split; [done|]. split; [apply (holds_length _ _ _ Hh)|]. split; [done|].
    split; [apply (holds_depth _ _ _ Hh)|apply (holds_stack _ _ _ Hh)]. }
  apply Forall_cons_1 in Hnz as [Hc Hnz].
  destruct (rd_is_Some (s ++ [0]) 0) as [next Hnext]; [rewrite length_app; cbn; lia|].
  destruct (fill_turn_ok (pre ++ (c :: s) ++ [0]) path stack cur c next s (Z.of_nat (length pre)))
    as (r & -> & Hr); try done.
  - rewrite rd_app_r, Z.sub_diag by lia. done.
  - rewrite rd_app_r by lia. replace (_ + 1 - _) with 1 by lia. rewrite <- Hnext.
    unfold rd. done.
  - destruct s as [|c' s]; [by injection Hnext as <-|]. injection Hnext as <-.
    apply Forall_cons_1 in Hnz as [Hc' _]. by split.
  - cbn [mbind option_bind]. destruct r as [[[[p' e'] i'] st']|[p' r']]; cbn [turn_ok] in Hr.
    + destruct Hr as (stack' & cur' & -> & -> & -> & Hh' & Hend' & Hrun). rewrite Hrun.
      replace (pre ++ (c :: s) ++ [0]) with ((pre ++ [c]) ++ s ++ [0]) by (by rewrite <- app_assoc).
      replace (Z.of_nat (length pre) + 1) with (Z.of_nat (length (pre ++ [c])))
        by (rewrite length_app; cbn; lia).
      apply IH; try done. cbn in Hfuel. lia.
    + destruct r' as [e|].
      * destruct Hr as (-> & stack' & -> & -> & H1 & H2 & H3). by exists p', (Some (Z.of_nat (length stack'))).
      * destruct Hr as [-> H1]. by exists p', None.
Qed.

(** ** The names of records *)

(** Base name and extension: the last period separates them, unless it is the
    first character. *)
Fixpoint split_dot (comp : list Z) : option (list Z * list Z) :=
  match comp with
  | [] => None
  | c :: comp =>
      match split_dot comp with
      | Some (base, ext) => Some (c :: base, ext)
      | None => if c =? dot then Some ([], comp) else None
      end
  end.

Definition split_name (comp : list Z) : list Z * list Z :=
  match comp with
  | [] => ([], [])
  | c :: comp =>
      match split_dot comp with
      | Some (base, ext) => (c :: base, ext)
      | None => (c :: comp, [])
      end
  end.

Definition pad (n : nat) (l : list Z) : list Z := l ++ replicate (n - length l) space.

(** The 11 bytes of a record, for base names of 8 and extensions of 3
    characters at most. *)
Definition packed (comp : list Z) : option (list Z) :=
  let '(base, ext) := split_name comp in
  if (8 <? length base)%nat || (3 <? length ext)%nat then None
  else Some (pad 8 base ++ pad 3 ext).

Definition is_reserved (nm : list Z) : bool :=
  existsb (λ w : list Z * nat, bool_decide (take (snd w) nm = fst w)) reserved_names.

(** The name of the record of a component: no base name of periods only, and no
    reserved name without extension. *)
Definition record_name (comp : list Z) : option (list Z) :=
  nm ← packed comp;
  if forallb (λ c, (c =? space) || (c =? dot)) (take 8 nm) then None
  else if bool_decide (nm !! 8%nat = Some space) && is_reserved nm then None
  else Some nm.

(** A character of a component. *)
Definition comp_char (c : Z) : Prop := c ≠ 0 ∧ c ≠ space.

(** Evaluate on an explicit list, one unknown character at a time. *)
Ltac eval_tests := lazy -[Z.eqb]; repeat match goal with
  | |- context [Z.eqb ?a ?b] =>
      let v := eval vm_compute in (Z.eqb a b) in
      match v with
      | true => change (Z.eqb a b) with true; lazy -[Z.eqb]
      | false => change (Z.eqb a b) with false; lazy -[Z.eqb]
      end
  | H : comp_char ?c |- context [Z.eqb ?c 0] =>
      rewrite (proj2 (Z.eqb_neq c 0) (proj1 H)); lazy -[Z.eqb]
  end.

Ltac eval_name := eval_tests; try reflexivity;
  match goal with
  | |- context [Z.eqb ?c 46] => is_var c; destruct (Z.eqb c 46); eval_name
  end.

Lemma pack_name_ok comp dir :
  (length comp ≤ 12)%nat → Forall comp_char comp →
  pack_name (entry (comp, dir)) = Some (nm ← packed comp; Some (nm ++ [0])).
Proof.
  intros Hl Hc.
  do 13 (destruct comp as [|? comp];
    [repeat (apply Forall_cons_1 in Hc as [? Hc]); clear Hc Hl; eval_name|]).
  cbn in Hl. lia.
Qed.

Lemma take_S_rd (l : list Z) (j : nat) n c :
  l.[Z.of_nat j] = Some c → take (S n) (drop j l) = c :: take n (drop (S j) l).
Proof.
  intros Hc. apply rd_Some in Hc as [_ Hc]. rewrite Nat2Z.id in Hc.
  by rewrite (drop_S l c j Hc).
Qed.

Lemma only_periods_ok n nm j :
  (0 < n)%nat → (j + n = 8)%nat → (8 ≤ length nm)%nat →
  only_periods n nm (Z.of_nat j)
  = Some (forallb (λ c, (c =? space) || (c =? dot)) (take n (drop j nm))).
Proof.
  revert j. induction n as [|n IH]; intros j Hpos Hj Hl; [lia|]. cbn [only_periods].
  destruct (rd_is_Some nm (Z.of_nat j)) as [c Hc]; [lia|].
  rewrite Hc, (take_S_rd _ _ _ _ Hc). cbn [mbind option_bind forallb].
  rewrite <- negb_orb. destruct ((c =? space) || (c =? dot)); cbn [negb andb]; [|done].
  destruct (Z.eqb_spec (Z.of_nat j) 7) as [E|Hne].
  - replace n with 0%nat by lia. by rewrite take_0.
  - replace (Z.of_nat j + 1) with (Z.of_nat (S j)) by lia. apply IH; lia.
Qed.

Lemma strncmp_ok s1 s2 j n :
  (j + n ≤ length s1)%nat → (j + n ≤ length s2)%nat → Forall (λ c, c ≠ 0) (take n (drop j s1)) →
  ∃ r, fat_strncmp s1 s2 (Z.of_nat j) n = Some r ∧
    (r =? 0) = bool_decide (take n (drop j s1) = take n (drop j s2)).
Proof.
  revert j. induction n as [|n IH]; intros j H1 H2 Hnz; cbn [fat_strncmp].
  { exists 0. split; [done|]. by rewrite !take_0, bool_decide_eq_true_2. }
  destruct (rd_is_Some s1 (Z.of_nat j)) as [c1 Hc1]; [lia|].
  destruct (rd_is_Some s2 (Z.of_nat j)) as [c2 Hc2]; [lia|].
  rewrite Hc1, Hc2. cbn [mbind option_bind].
  rewrite (take_S_rd _ _ _ _ Hc1) in *. rewrite (take_S_rd _ _ _ _ Hc2).
  apply Forall_cons_1 in Hnz as [Hz Hnz]. rewrite (proj2 (Z.eqb_neq c1 0)) by done.
  cbn [orb andb].
  destruct (IH (S j)) as (r & Hr & Er); [lia|lia|done|].
  replace (Z.of_nat j + 1) with (Z.of_nat (S j)) by lia.
  destruct (Z.eqb_spec c1 c2) as [->|Hne]; cbn [negb].
  - exists r. split.
    + rewrite Z.gtb_ltb, Z.ltb_irrefl, Hr. by destruct ((n =? 0)%nat).
    + rewrite Er. apply bool_decide_ext. split; [by intros ->|by intros [= ->]].
  - rewrite orb_true_r. exists (if c1 <? c2 then -1 else 1). split.
    + destruct (Z.ltb_spec c1 c2); [done|]. by rewrite (proj2 (Z.gtb_lt c1 c2)) by lia.
    + rewrite bool_decide_eq_false_2 by (intros [= E _]; done). by destruct (c1 <? c2).
Qed.

Lemma reserved_loop_ok names nm :
  Forall (λ w : list Z * nat, length (fst w) = snd w ∧ (snd w ≤ 8)%nat) names →
  (8 ≤ length nm)%nat → Forall (λ c, c ≠ 0) nm →
  reserved_loop names (nm ++ [0])
  = Some (existsb (λ w : list Z * nat, bool_decide (take (snd w) nm = fst w)) names).
Proof.
  intros Hn Hl Hnz. induction Hn as [|[w n] names [Hw Hle] _ IH]; [done|].
  cbn [reserved_loop existsb fst snd] in *.
  destruct (strncmp_ok (nm ++ [0]) w 0 n) as (r & Hr & Er).
  - rewrite length_app. lia.
  - lia.
  - rewrite drop_0, take_app_le by lia. by apply Forall_take.
  - change (Z.of_nat 0) with 0 in Hr. rewrite Hr. cbn [mbind option_bind]. rewrite Er, !drop_0.
    rewrite take_app_le by lia. rewrite (take_ge w) by lia.
    destruct (decide (take n nm = w)).
    + by rewrite !bool_decide_eq_true_2 by done.
    + by rewrite !bool_decide_eq_false_2 by done.
Qed.

Lemma reserved_names_ok :
  Forall (λ w : list Z * nat, length (fst w) = snd w ∧ (snd w ≤ 8)%nat) reserved_names.
Proof. unfold reserved_names. repeat constructor; cbn; lia. Qed.

Lemma pad_length n l : (length l ≤ n)%nat → length (pad n l) = n.
Proof. intros Hl. unfold pad. rewrite length_app, length_replicate. lia. Qed.

Lemma pad_Forall (P : Z → Prop) n l : Forall P l → P space → Forall P (pad n l).
Proof. intros Hl Hs. apply Forall_app. split; [done|]. by apply Forall_replicate. Qed.

Lemma split_dot_Forall (P : Z → Prop) comp base ext :
  Forall P comp → split_dot comp = Some (base, ext) → Forall P base ∧ Forall P ext.
Proof.
  revert base ext. induction comp as [|c comp IH]; intros base ext Hc Hs; [done|].
  apply Forall_cons_1 in Hc as [Hc Hcomp]. cbn [split_dot] in Hs.
  destruct (split_dot comp) as [[b e]|].
  - injection Hs as <- <-. destruct (IH b e Hcomp eq_refl). auto.
  - destruct (c =? dot); [|done]. by injection Hs as <- <-.
Qed.

Lemma split_name_Forall (P : Z → Prop) comp :
  Forall P comp → Forall P (fst (split_name comp)) ∧ Forall P (snd (split_name comp)).
Proof.
  intros Hc. destruct comp as [|c comp]; [done|]. apply Forall_cons_1 in Hc as [Hc Hcomp].
  cbn [split_name]. destruct (split_dot comp) as [[b e]|] eqn:Hs; cbn [fst snd]; [|auto].
  destruct (split_dot_Forall P comp b e Hcomp Hs). auto.
Qed.

(** What is known of the bytes of a record. *)
Lemma packed_Forall (P : Z → Prop) comp nm :
  Forall P comp → P space → packed comp = Some nm → length nm = 11%nat ∧ Forall P nm.
Proof.
  intros Hc Hs. unfold packed. destruct (split_name_Forall P comp Hc) as [Hb He].
  destruct (split_name comp) as [base ext]. cbn [fst snd] in *.
  destruct (Nat.ltb_spec 8 (length base)), (Nat.ltb_spec 3 (length ext)); cbn [orb]; try done.
  intros [= <-]. split; [rewrite length_app, !pad_length; lia|].
  apply Forall_app. split; by apply pad_Forall.
Qed.

Lemma pack_turn_ok comp dir :
  (length comp ≤ 12)%nat → Forall comp_char comp →
  pack_turn (entry (comp, dir))
  = Some (nm ← record_name comp; Some (FatName (nm ++ [0]) (Z.of_nat (length comp)) dir)).
Proof.
  intros Hl Hc. unfold pack_turn. rewrite pack_name_ok by done. unfold record_name.
  cbn [mbind option_bind]. destruct (packed comp) as [nm|] eqn:Hp; cbn [mbind option_bind]; [|done].
  destruct (packed_Forall (λ c, c ≠ 0) comp nm) as [Hnl Hnz]; [|done|done|].
  { eapply Forall_impl; [|exact Hc]. by intros c [H _]. }
  assert (Ht : take 8 (nm ++ [0]) = take 8 nm) by (apply take_app_le; lia).
  change 0 with (Z.of_nat 0) at 1. rewrite (only_periods_ok 8 _ 0) by (try rewrite length_app; lia).
  rewrite drop_0. cbn [mbind option_bind]. rewrite Ht.
  destruct (forallb _ (take 8 nm)); [done|].
  unfold check_reserved_name.
  destruct (lookup_lt_is_Some_2 nm 8 ltac:(lia)) as [c Hc8].
  assert (Hrd : (nm ++ [0]).[8] = Some c).
  { apply rd_Some. split; [lia|]. by apply lookup_app_l_Some. }
  rewrite Hrd, Hc8. cbn [mbind option_bind].
  destruct (Z.eqb_spec c space) as [->|Hne]; cbn [negb].
  - rewrite reserved_loop_ok by (done || apply reserved_names_ok || lia).
    cbn [mbind option_bind]. rewrite bool_decide_eq_true_2 by done. cbn [andb].
    unfold is_reserved. by destruct (existsb _ _).
  - rewrite bool_decide_eq_false_2 by (by intros [= ->]). done.
Qed.

(** ** The whole function *)

(** A character of a component: printable, no small letter, none of those that
    are not allowed. *)
Definition part_char (c : Z) : Prop :=
  0x20 < c ≤ 0x7E ∧ (c ∉ bad_chars) ∧ c ≠ slash ∧ ~ (0x61 ≤ c ≤ 0x7A).

Definition comp_ok (comp : list Z * bool) : Prop :=
  fst comp ≠ [] ∧ (length (fst comp) ≤ 12)%nat ∧ Forall part_char (fst comp).

Lemma part_char_upper c : path_char c = true → c ≠ slash → part_char (toupper c).
Proof.
  unfold path_char.
  intros [[H1%Z.ltb_lt H2%Z.leb_le]%andb_true_iff H3%bool_decide_eq_true]%andb_true_iff Hs.
  split; [|split; [by rewrite upper_bad|]]; unfold toupper, slash in *;
    destruct (Z.geb_spec c 0x61), (Z.leb_spec c 0x7A); cbn [andb]; lia.
Qed.

Lemma part_comp_char c : part_char c → comp_char c.
Proof. intros (H1 & _). unfold comp_char, space. lia. Qed.

Lemma resolve_ok stack comp :
  Forall comp_ok stack → (length (fst comp) ≤ 12)%nat → Forall part_char (fst comp) →
  Forall comp_ok (resolve stack comp).
Proof.
  intros Hs Hl Hc. unfold resolve. destruct (bool_decide_reflect (fst comp = [] ∨ fst comp = [dot]));
    [done|]. destruct (bool_decide _); [by apply Forall_take|].
  apply Forall_app. split; [done|]. apply Forall_singleton. split; [tauto|done].
Qed.

Lemma run_comps s stack cur stack' :
  run s stack cur = Some stack' → Forall comp_ok stack → (length cur ≤ 12)%nat →
  Forall part_char cur → Forall comp_ok stack'.
Proof.
  revert stack cur. induction s as [|c s IH]; intros stack cur Hr Hs Hl Hc; cbn [run] in Hr.
  { injection Hr as <-. by apply resolve_ok. }
  destruct (path_char c) eqn:Hp; cbn [negb orb] in Hr; [|done].
  destruct (255 <=? length stack)%nat; [done|]. destruct (Z.eqb_spec c slash) as [->|Hns].
  { apply (IH _ _ Hr); [by apply resolve_ok|cbn; lia|done]. }
  destruct (Nat.leb_spec 12 (length cur)); [done|].
  apply (IH _ _ Hr); [done|rewrite length_app; cbn; lia|].
  apply Forall_app. split; [done|]. apply Forall_singleton. by apply part_char_upper.
Qed.

(** The records of the components. *)
Fixpoint records (stack : list (list Z * bool)) : option (list (list Z * bool)) :=
  match stack with
  | [] => Some []
  | comp :: stack =>
      nm ← record_name (fst comp);
      l ← records stack;
      Some ((nm, snd comp) :: l)
  end.

(** The path as the names of the records to follow from the root directory. *)
Definition parse_path (s : list Z) : option (list (list Z * bool)) :=
  if forallb path_char s then
    stack ← walk (split_path s []) [];
    l ← records stack;
    match l with [] => None | _ => Some l end
  else None.

(** An entry holds a record name. *)
Definition holds_record (e : option fat_name) (r : list Z * bool) : Prop :=
  ∃ len, e = Some (FatName (fst r ++ [0]) len (snd r)).

Lemma pack_names_ok stack i path :
  Forall comp_ok stack →
  (∀ (k : nat) comp, stack !! k = Some comp → path !! (i + k)%nat = Some (entry comp)) →
  ∃ path' ok, pack_names (length stack) path (Z.of_nat i) = Some (path', ok) ∧
    match records stack with
    | Some l => ok = true ∧ length l = length stack ∧
        (∀ j, (j < i)%nat → path' !! j = path !! j) ∧
        (∀ (k : nat) r, l !! k = Some r → holds_record (path' !! (i + k)%nat) r)
    | None => ok = false
    end.
Proof.
  intros Hs. revert i path. induction Hs as [|[comp dir] stack (Hne & Hl & Hc) _ IH]; intros i path Hp;
    cbn [length pack_names records].
  { eexists _, _. split; [done|]. done. }
  cbn [fst snd] in *. pose proof (Hp 0%nat _ eq_refl) as H0. rewrite Nat.add_0_r in H0.
  pose proof (lookup_lt_Some _ _ _ H0) as Hi.
  rewrite (path_rd _ _ _ H0). cbn [mbind option_bind]. rewrite pack_turn_ok; [|done|].
  2: { eapply Forall_impl; [|exact Hc]. apply part_comp_char. }
  cbn [mbind option_bind]. destruct (record_name comp) as [nm|]; cbn [mbind option_bind].
  2: { eexists _, _. by split. }
  rewrite path_wr by done. cbn [mbind option_bind].
  replace (Z.of_nat i + 1) with (Z.of_nat (S i)) by lia.
  destruct (IH (S i) (<[i := FatName (nm ++ [0]) (Z.of_nat (length comp)) dir]> path))
    as (path' & ok & -> & Hr).
  { intros k c Hk. rewrite list_lookup_insert_ne by lia.
    replace (S i + k)%nat with (i + S k)%nat by lia. by apply Hp. }
  exists path', ok. split; [done|]. destruct (records stack) as [l|]; cbn [mbind option_bind]; [|done].
  destruct Hr as (-> & Hll & Hlow & Hhigh). split; [done|]. split; [cbn; lia|]. split.
  - intros j Hj. rewrite Hlow by lia. by apply list_lookup_insert_ne; lia.
  - intros [|k] r Hk.
    + injection Hk as <-. rewrite Nat.add_0_r, Hlow by lia.
      rewrite list_lookup_insert_eq by done. by eexists.
    + replace (i + S k)%nat with (S i + k)%nat by lia. by apply Hhigh.
Qed.

Lemma fill_ok path s :
  length path = 256%nat → Forall (λ c, c ≠ 0) s →
  ∃ path' n r, fill_path_buffer path (s ++ [0]) = Some (path', n, r) ∧
    match parse_path s with
    | Some l => r = 0 ∧ n = Z.of_nat (length l) ∧ (length l ≤ 255)%nat ∧
        ∀ (k : nat) rec, l !! k = Some rec → holds_record (path' !! k) rec
    | None => r = 1 ∧ n = 0
    end.
Proof.
  intros Hl Hs. unfold fill_path_buffer, parse_path.
  change (path.[0 <- clear_name]) with (path.[Z.of_nat 0 <- clear_name]).
  rewrite path_wr by lia. cbn [mbind option_bind].
  destruct (fill_loop_ok s [] (<[0%nat := clear_name]> path) [] [] (S (length (s ++ [0]))))
    as (p1 & r1 & Hw & Hl1 & Hr1).
  - split; [by rewrite length_insert|cbn; lia|cbn; lia|done|].
    cbn [length]. by rewrite list_lookup_insert_eq by lia.
  - done.
  - done.
  - rewrite length_app. lia.
  - cbn [app length] in Hw. change (Z.of_nat 0) with 0 in Hw. change (state_of []) with 0 in Hw.
    rewrite Hw. cbn [mbind option_bind].
    pose proof (run_walk s [] [] ltac:(done) ltac:(cbn; lia)) as Hrw.
    destruct (run s [] []) as [stack|] eqn:Hrun.
    + destruct Hr1 as (-> & Hdepth & Hst).
      destruct (forallb path_char s); [|done]. rewrite <- Hrw. cbn [mbind option_bind].
      rewrite Nat2Z.id.
      destruct (pack_names_ok stack 0 p1) as (p2 & ok & Hp & Hr2).
      { apply (run_comps s [] [] stack Hrun); [done|cbn; lia|done]. }
      { done. }
      change (Z.of_nat 0) with 0 in Hp. rewrite Hp. cbn [mbind option_bind].
      destruct (records stack) as [l|]; cbn [mbind option_bind].
      * destruct Hr2 as (-> & Hll & _ & Hrec). rewrite <- Hll in *. eexists _, _, _. split; [done|].
        destruct l as [|rec l]; [done|]. split; [done|]. done.
      * subst ok. by eexists _, _, _.
    + subst r1. eexists _, _, _. split; [done|]. destruct (forallb path_char s); [|done].
      by rewrite <- Hrw.
Qed.

(** ** The properties *)

(** (C23) The path buffer is filled as the path says: the components between the
    slashes, in capitals, with empty ones and "." skipped and ".." removing the
    directory before it, each as the 11 bytes of its record, in order and with
    the mark of a directory where a slash follows.  The function refuses exactly
    the paths that have no such reading, and never leaves the buffer of 256
    entries or the 12 bytes of an entry. *)
Theorem fill_path_buffer_correct path s :
  length path = 256%nat → Forall (λ c, c ≠ 0) s →
  ∃ path' n r, fill_path_buffer path (s ++ [0]) = Some (path', n, r) ∧
    match parse_path s with
    | Some l => r = 0 ∧ n = Z.of_nat (length l) ∧ (length l ≤ 255)%nat ∧
        ∀ (k : nat) rec, l !! k = Some rec → holds_record (path' !! k) rec
    | None => r = 1 ∧ n = 0
    end.
Proof. apply fill_ok. Qed.

(** The bytes for bytes of a string. *)
Definition bytes_of (s : String.string) : list Z :=
  (λ a, Z.of_N (Ascii.N_of_ascii a)) <$> String.list_ascii_of_string s.

Lemma no_null (s : list Z) : forallb (λ c, negb (c =? 0)) s = true → Forall (λ c, c ≠ 0) s.
Proof.
  rewrite forallb_forall. intros Hs. apply Forall_forall. intros c Hc.
  specialize (Hs c Hc). lia.
Qed.

Definition empty_buffer : list fat_name := replicate 256 clear_name.

Lemma fill_path_buffer_correct_witness :
  let s := bytes_of "boot/./x/../dancy.cfg" in
  parse_path s = Some [(bytes_of "BOOT       ", true); (bytes_of "DANCY   CFG", false)] ∧
  ∃ path' n r, fill_path_buffer empty_buffer (s ++ [0]) = Some (path', n, r) ∧
    match parse_path s with
    | Some l => r = 0 ∧ n = Z.of_nat (length l) ∧ (length l ≤ 255)%nat ∧
        ∀ (k : nat) rec, l !! k = Some rec → holds_record (path' !! k) rec
    | None => r = 1 ∧ n = 0
    end.
Proof.
  intros s. split; [vm_compute; reflexivity|].
  apply (fill_path_buffer_correct empty_buffer s); [reflexivity|].
  apply no_null. vm_compute. reflexivity.
Defined.

(** A name of 8 and 3 characters. *)
Definition record_ok (nm : list Z) : Prop :=
  ∃ base ext, nm = pad 8 base ++ pad 3 ext ∧ (1 ≤ length base ≤ 8)%nat ∧ (length ext ≤ 3)%nat ∧
    Forall part_char base ∧ Forall part_char ext ∧ (∃ c, c ∈ base ∧ c ≠ dot) ∧
    (ext = [] → is_reserved nm = false).

Lemma record_name_ok comp nm :
  comp ≠ [] → Forall part_char comp → record_name comp = Some nm → record_ok nm.
Proof.
  intros Hne Hc. unfold record_name, packed.
  destruct (split_name_Forall part_char comp Hc) as [Hb He].
  assert (Hbne : fst (split_name comp) ≠ []).
  { destruct comp as [|c comp]; [done|]. cbn [split_name]. by destruct (split_dot comp) as [[]|]. }
  destruct (split_name comp) as [base ext]. cbn [fst snd] in *.
  destruct (Nat.ltb_spec 8 (length base)) as [|Hb8]; [done|].
  destruct (Nat.ltb_spec 3 (length ext)) as [|He3]; [done|]. cbn [orb mbind option_bind].
  assert (Ht : take 8 (pad 8 base ++ pad 3 ext) = pad 8 base)
    by (rewrite take_app_length'; [done|by rewrite pad_length]).
  rewrite Ht. destruct (forallb _ (pad 8 base)) eqn:Hdots; [done|].
  destruct (bool_decide _ && _) eqn:Hres; [done|]. intros [= <-].
  exists base, ext. split; [done|].
  assert (0 < length base)%nat by (destruct base; [done|cbn; lia]).
  split; [lia|]. split; [done|]. split; [done|]. split; [done|]. split.
  - apply not_true_iff_false in Hdots. destruct (decide (Exists (λ c, c ≠ dot) base)) as [Hex|Hno].
    + apply Exists_exists in Hex as (c & Hin & Hcd). exists c. split; [by apply list_elem_of_In|done].
    + exfalso. apply Hdots. unfold pad. rewrite forallb_app. apply andb_true_iff. split.
      * apply forallb_forall. intros c Hin. apply not_Exists_Forall in Hno; [|apply _].
        rewrite Forall_forall in Hno. specialize (Hno c Hin).
        apply dec_stable in Hno. subst c. done.
      * apply forallb_forall. intros c Hin. apply list_elem_of_In, elem_of_replicate in Hin as [-> _].
        done.
  - intros ->. apply andb_false_iff in Hres as [Hres|Hres]; [|done].
    apply bool_decide_eq_false in Hres. exfalso. apply Hres.
    rewrite lookup_app_r by (by rewrite pad_length). by rewrite pad_length.
Qed.

Lemma records_ok stack l :
  Forall comp_ok stack → records stack = Some l → Forall (λ r, record_ok (fst r)) l.
Proof.
  intros Hs. revert l. induction Hs as [|[comp dir] stack (Hne & _ & Hc) _ IH]; intros l; cbn [records].
  { by intros [= <-]. }
  cbn [fst snd] in *. destruct (record_name comp) as [nm|] eqn:Hnm; cbn [mbind option_bind]; [|done].
  destruct (records stack) as [l'|]; cbn [mbind option_bind]; [|done]. intros [= <-].
  constructor; [by apply (record_name_ok comp)|by apply IH].
Qed.

Lemma parse_path_ok s l : parse_path s = Some l → l ≠ [] ∧ Forall (λ r, record_ok (fst r)) l.
Proof.
  unfold parse_path. pose proof (run_walk s [] [] ltac:(done) ltac:(cbn; lia)) as Hrw.
  destruct (forallb path_char s); [|done]. rewrite <- Hrw.
  destruct (run s [] []) as [stack|] eqn:Hrun; cbn [mbind option_bind]; [|done].
  destruct (records stack) as [l'|] eqn:Hl; cbn [mbind option_bind]; [|done].
  destruct l' as [|r l']; [done|]. intros [= <-]. split; [done|].
  apply (records_ok stack); [|done].
  apply (run_comps s [] [] stack Hrun); [done|cbn; lia|done].
Qed.

(** (C37) After a success the path buffer is well typed: every entry that is
    used is a name of 1 to 8 characters and an extension of at most 3, padded
    with spaces and followed by a null byte; the characters are printable
    capitals and none of those that are not allowed, so no name begins with a
    mark of a free or a deleted record; no name consists of periods, and none
    without extension is reserved for a device. *)
Theorem path_records_valid path s path' n :
  length path = 256%nat → Forall (λ c, c ≠ 0) s →
  fill_path_buffer path (s ++ [0]) = Some (path', n, 0) →
  1 ≤ n ≤ 255 ∧ ∀ k : nat, Z.of_nat k < n → ∃ nm len dir c,
    path' !! k = Some (FatName (nm ++ [0]) len dir) ∧ record_ok nm ∧
    nm !! 0%nat = Some c ∧ c ≠ 0 ∧ c ≠ 0xE5 ∧ c ≠ space.
Proof.
  intros Hl Hs Hfill. destruct (fill_ok path s Hl Hs) as (p & n' & r & Hfill' & Hp).
  rewrite Hfill in Hfill'. injection Hfill' as <- <- <-.
  destruct (parse_path s) as [l|] eqn:Hparse; [|lia].
  destruct Hp as (_ & -> & Hlen & Hrec). destruct (parse_path_ok s l Hparse) as [Hne Hok].
  split; [destruct l; [done|]; cbn [length] in *; lia|]. intros k Hk.
  destruct (lookup_lt_is_Some_2 l k ltac:(lia)) as [[nm dir] Hr].
  destruct (Hrec k _ Hr) as [len E]. pose proof (Forall_lookup_1 _ _ _ _ Hok Hr) as Hnm. cbn [fst snd] in *.
  pose proof Hnm as (base & ext & -> & Hb & _ & Hbc & _).
  destruct base as [|c base]; [cbn in Hb; lia|]. apply Forall_cons_1 in Hbc as [(Hc & _) _].
  exists (pad 8 (c :: base) ++ pad 3 ext), len, dir, c. split; [done|]. split; [done|].
  split; [done|]. unfold space. lia.
Qed.

Lemma path_records_valid_witness :
  let s := bytes_of "boot/dancy.cfg" in
  ∃ path', fill_path_buffer empty_buffer (s ++ [0]) = Some (path', 2, 0) ∧
    ∀ k : nat, Z.of_nat k < 2 → ∃ nm len dir c,
      path' !! k = Some (FatName (nm ++ [0]) len dir) ∧ record_ok nm ∧
      nm !! 0%nat = Some c ∧ c ≠ 0 ∧ c ≠ 0xE5 ∧ c ≠ space.
Proof.
  intros s. eexists. split; [vm_compute; reflexivity|].
  eapply (path_records_valid empty_buffer s); [reflexivity| |vm_compute; reflexivity].
  apply no_null. vm_compute. reflexivity.
Defined.
