(* ===== verification/FatVolume.v ===== *)
(** A mounted FAT volume: the state of [struct fat_instance], the computations
    on it, and the descriptor table of common/fat.c with the operations that
    need nothing else ([fat_close], [fat_eof], [fat_seek], [fat_tell]), the mode
    strings and the timestamps.

    [volume] adds to the record [fat] of FatTable.v the descriptors, the path
    buffer and the flag of the information sector.  The functions of fat.c
    that change it are computations of the state monad [M], whose failure is an
    access out of bounds (or a loop that does not end); the error codes are the
    answers of the computations.  [fat_get_time] and [malloc] are parameters. *)

From S2P Require Import Prelude FatBpb FatTable FatName.

Definition FAT_DIRECTORY_NOT_EMPTY : Z := 0x12.
Definition FAT_FILE_ALREADY_OPEN : Z := 0x13.
Definition FAT_FILE_NOT_FOUND : Z := 0x14.
Definition FAT_INVALID_FILE_NAME : Z := 0x16.
Definition FAT_INVALID_PARAMETERS : Z := 0x17.
Definition FAT_READ_ONLY_FILE : Z := 0x1A.
Definition FAT_READ_ONLY_RECORD : Z := 0x1B.
Definition FAT_SEEK_ERROR : Z := 0x1C.
Definition FAT_DIRECTORY_RECORD : Z := 0x1D.
Definition FAT_FILE_RECORD : Z := 0x1E.

Definition MODE_APPEND : Z := 0x01.
Definition MODE_CREATE : Z := 0x02.
Definition MODE_MODIFY : Z := 0x04.
Definition MODE_READ : Z := 0x08.
Definition MODE_ROOT_DIR : Z := 0x10.
Definition MODE_WRITE : Z := 0x20.

Definition has (mode flag : Z) : bool := negb (Z.land mode flag =? 0).

(** ** The state *)

Record fat_fd := FatFd {
  opened : bool;
  mode : Z;
  record : list Z;
  record_offset : Z;
  record_sector : Z;
  eof : Z;
  offset : Z;
  cluster_idx : Z;
  cluster_val : Z }.

Definition set_opened (e : fat_fd) (x : bool) : fat_fd :=
  FatFd x (mode e) (record e) (record_offset e) (record_sector e) (eof e) (offset e)
    (cluster_idx e) (cluster_val e).
Definition set_mode (e : fat_fd) (x : Z) : fat_fd :=
  FatFd (opened e) x (record e) (record_offset e) (record_sector e) (eof e) (offset e)
    (cluster_idx e) (cluster_val e).
Definition set_record (e : fat_fd) (x : list Z) : fat_fd :=
  FatFd (opened e) (mode e) x (record_offset e) (record_sector e) (eof e) (offset e)
    (cluster_idx e) (cluster_val e).
Definition set_place (e : fat_fd) (off sector : Z) : fat_fd :=
  FatFd (opened e) (mode e) (record e) off sector (eof e) (offset e)
    (cluster_idx e) (cluster_val e).
Definition set_eof (e : fat_fd) (x : Z) : fat_fd :=
  FatFd (opened e) (mode e) (record e) (record_offset e) (record_sector e) x (offset e)
    (cluster_idx e) (cluster_val e).
Definition set_offset (e : fat_fd) (x : Z) : fat_fd :=
  FatFd (opened e) (mode e) (record e) (record_offset e) (record_sector e) (eof e) x
    (cluster_idx e) (cluster_val e).
Definition set_known (e : fat_fd) (idx val : Z) : fat_fd :=
  FatFd (opened e) (mode e) (record e) (record_offset e) (record_sector e) (eof e) (offset e)
    idx val.

(** memset of a descriptor with zeros *)
Definition zero_fd : fat_fd := FatFd false 0 (replicate 32 0) 0 0 0 0 0 0.

Definition sizeof_fat_fd : Z := 64.

(** The last entry of [fds] is the special one. *)
Record volume (D : Type) := Volume {
  dev : D;
  inst : fat;
  fds : list fat_fd;
  path_buffer : list fat_name;
  path_entries : Z;
  fs_info_modified : bool }.
Arguments Volume {D} dev inst fds path_buffer path_entries fs_info_modified.
Arguments dev {D} v.
Arguments inst {D} v.
Arguments fds {D} v.
Arguments path_buffer {D} v.
Arguments path_entries {D} v.
Arguments fs_info_modified {D} v.

Definition fd_entries {D} (v : volume D) : Z := Z.of_nat (length (fds v)) - 1.
Definition fd_special {D} (v : volume D) : Z := fd_entries v.

Definition set_device {D} (v : volume D) (d : D) (f : fat) : volume D :=
  Volume d f (fds v) (path_buffer v) (path_entries v) (fs_info_modified v).
Definition set_fds {D} (v : volume D) (x : list fat_fd) : volume D :=
  Volume (dev v) (inst v) x (path_buffer v) (path_entries v) (fs_info_modified v).
Definition set_path {D} (v : volume D) (x : list fat_name) (n : Z) : volume D :=
  Volume (dev v) (inst v) (fds v) x n (fs_info_modified v).
Definition set_modified {D} (v : volume D) (x : bool) : volume D :=
  Volume (dev v) (inst v) (fds v) (path_buffer v) (path_entries v) x.

(** ** Computations on it *)

Definition M (D A : Type) : Type := volume D → option (volume D * A).

Section Monad.
Context {D : Type}.

Definition ret {A} (a : A) : M D A := λ v, Some (v, a).

Definition bind {A B} (m : M D A) (k : A → M D B) : M D B :=
  λ v, match m v with Some (v', a) => k a v' | None => None end.

Definition get {A} (f : volume D → A) : M D A := λ v, Some (v, f v).

Definition modify (f : volume D → volume D) : M D unit := λ v, Some (f v, tt).

(** An access: undefined when it is out of bounds. *)
Definition access {A} (x : option A) : M D A := λ v, match x with Some a => Some (v, a) | None => None end.

(** A function of the device and the instance. *)
Definition lift {A} (op : D → fat → option (D * fat * A)) : M D A :=
  λ v, match op (dev v) (inst v) with
       | Some (d, f, a) => Some (set_device v d f, a)
       | None => None
       end.

(** this_fat->fd[fd] *)
Definition get_fd (fd : Z) : M D fat_fd := λ v, match (fds v).[fd] with Some e => Some (v, e) | None => None end.

Definition update_fd (fd : Z) (f : fat_fd → fat_fd) : M D unit :=
  λ v, match (fds v).[fd] with
       | Some e => match (fds v).[fd <- f e] with
                   | Some l => Some (set_fds v l, tt)
                   | None => None
                   end
       | None => None
       end.

(** "if ((r = m) != 0) return r" *)
Definition attempt (m k : M D Z) : M D Z := bind m (λ r, if r =? 0 then k else ret r).

(** A loop: [None] also says that the fuel was not enough. *)
Fixpoint loop {S R} (fuel : nat) (body : S → M D (ctl S R)) (s : S) : M D R :=
  match fuel with
  | O => λ _, None
  | Datatypes.S n => bind (body s) (λ c, match c with
                                         | Next s' => loop n body s'
                                         | Done r => ret r
                                         end)
  end.
End Monad.

Declare Scope volume_scope.
Delimit Scope volume_scope with vol.
Notation "'let*' x := m 'in' k" := (bind m (λ x, k))
  (at level 10, x name, m at level 100, k at level 200) : volume_scope.
Notation "'let*' ' p := m 'in' k" := (bind m (λ x, match x with p => k end))
  (at level 10, p pattern, m at level 100, k at level 200) : volume_scope.
Notation "'try*' m 'in' k" := (attempt m k)
  (at level 10, m at level 100, k at level 200) : volume_scope.
Notation "'do*' m 'in' k" := (bind m (λ _, k))
  (at level 10, m at level 100, k at level 200) : volume_scope.
#[local] Open Scope volume_scope.

(** ** The descriptor table *)

Section Descriptors.
Context {D : Type} (malloc : Z → bool).

(** The number of entries of the table that has room for [fd]. *)
Definition new_fd_entries (fd_entries fd : Z) : Z :=
  let n := fd + 2 in
  let n := if n - fd_entries <? 8 then fd_entries + 8 else n in
  if n >? 65536 + 1 then 65536 + 1 else n.

(** The answer is the condition of the caller's "!= 0". *)
Definition check_fd (fd : Z) (opened_ : bool) : M D bool :=
  let* entries := get fd_entries in
  if (fd <? 0) || (fd >=? 65536) then ret true
  else
    let* ok :=
      (if fd >=? entries then
         let n := new_fd_entries entries fd in
         if negb (malloc (n * sizeof_fat_fd)) then ret false
         else
           do* modify (λ v, set_fds v (take (Z.to_nat entries) (fds v)
                             ++ replicate (Z.to_nat (n - entries)) zero_fd)) in
           ret true
       else ret true) in
    if negb ok then ret true
    else
      let* e := get_fd fd in
      ret (negb (Bool.eqb (opened e) opened_)).

(** [get_record] *)
Definition get_record (fd : Z) : M D (list Z) := let* e := get_fd fd in ret (record e).

(** [init_fat_fd] *)
Definition init_fat_fd (fd : Z) : M D unit := update_fd fd (λ _, zero_fd).

Definition is_ready : M D bool := get (λ v, ready (inst v)).

Definition fat_close (fd : Z) : M D Z :=
  let* r := is_ready in
  if negb r then ret FAT_NOT_READY
  else
    let* c1 := check_fd fd true in
    let* c := (if c1 then check_fd fd false else ret false) in
    if c then ret FAT_INVALID_PARAMETERS
    else
      do* update_fd fd (λ e, set_opened e false) in
      ret 0.

Definition fat_eof (fd : Z) : M D bool :=
  let* r := is_ready in
  if negb r then ret false
  else
    let* c := check_fd fd true in
    if c then ret false
    else
      let* e := get_fd fd in
      ret (negb (eof e =? 0)).

Definition maximum_file_size : Z := 0xFFFFFFFF.
Definition maximum_offset : Z := maximum_file_size - 1.

Definition INT_MAX : Z := 2147483647.
Definition UINT_MAX : Z := 4294967295.

(** while (extra_sub--) *)
Fixpoint sub_extra (extra_sub : nat) (off : Z) : option Z :=
  match extra_sub with
  | O => Some off
  | S n => if off =? 0 then None else sub_extra n (off - 1)
  end.

(** The tests of [fat_seek]: [off] is the offset or the size of the file;
    [None] is FAT_SEEK_ERROR. *)
Definition seek_target (eof_ off offset_ whence : Z) : option Z :=
  let '(offset_, extra_sub) :=
    if offset_ <? 0 then
      let val := INT_MAX + offset_ in
      if val <? 0 then (offset_ + - val, - val) else (offset_, 0)
    else (offset_, 0) in
  if whence =? 0 then
    if offset_ <? 0 then None
    else if u32 offset_ >? maximum_offset then None
    else Some (u32 offset_)
  else if (whence =? 1) || (whence =? 2) then
    if offset_ <? 0 then
      let val := u32 (- offset_) in
      if off <? val then None else sub_extra (Z.to_nat extra_sub) (off - val)
    else if eof_ =? 2 then None
    else
      let val := u32 offset_ in
      if negb (off <=? UINT_MAX - val) then None
      else if off + val >? maximum_offset then None
      else Some (off + val)
  else None.

Definition fat_seek (fd offset_ whence : Z) : M D Z :=
  let* r := is_ready in
  if negb r then ret FAT_NOT_READY
  else
    let* c := check_fd fd true in
    if c then ret FAT_INVALID_PARAMETERS
    else
      let* e := get_fd fd in
      let* off := (if whence =? 2 then access (LE32 (record e) 28) else ret (offset e)) in
      match seek_target (eof e) off offset_ whence with
      | None => ret FAT_SEEK_ERROR
      | Some off =>
          do* update_fd fd (λ e, set_eof (set_offset e off) 0) in
          ret 0
      end.

(** The error code and *offset. *)
Definition fat_tell (fd : Z) : M D (Z * option Z) :=
  let* r := is_ready in
  if negb r then ret (FAT_NOT_READY, None)
  else
    let* c := check_fd fd true in
    if c then ret (FAT_INVALID_PARAMETERS, None)
    else
      let* e := get_fd fd in
      ret (0, Some (offset e)).
End Descriptors.

(** ** Mode strings *)

(** The mode and the flags a, b, r, w, plus of [parse_mode]. *)
Record mode_state := ModeState {
  md : Z; m_a : bool; m_b : bool; m_r : bool; m_w : bool; m_plus : bool }.

(** One character: [None] for "return fd_entry->mode = 0, 1". *)
Definition mode_char (s : mode_state) (c : Z) : option mode_state :=
  if c =? 0x61 then
    if m_a s then None
    else Some (ModeState (Z.lor (Z.lor (Z.lor (md s) MODE_APPEND) MODE_CREATE) MODE_MODIFY)
                 true (m_b s) (m_r s) (m_w s) (m_plus s))
  else if c =? 0x62 then
    if m_b s then None else Some (ModeState (md s) (m_a s) true (m_r s) (m_w s) (m_plus s))
  else if c =? 0x72 then
    if m_r s then None
    else Some (ModeState (Z.lor (md s) MODE_READ) (m_a s) (m_b s) true (m_w s) (m_plus s))
  else if c =? 0x77 then
    if m_w s then None
    else Some (ModeState (Z.lor (Z.lor (Z.lor (md s) MODE_CREATE) MODE_MODIFY) MODE_WRITE)
                 (m_a s) (m_b s) (m_r s) true (m_plus s))
  else if c =? 0x2B then
    if m_plus s then None
    else Some (ModeState (Z.lor (md s) MODE_MODIFY) (m_a s) (m_b s) (m_r s) (m_w s) true)
  else None.

Definition mode_end (s : mode_state) : option Z :=
  if Z.b2z (m_a s) + Z.b2z (m_r s) + Z.b2z (m_w s) =? 1 then Some (md s) else None.

Fixpoint mode_loop (str : list Z) (s : mode_state) : option (option Z) :=
  match str with
  | [] => None
  | c :: str =>
      if c =? 0 then Some (mode_end s)
      else
        match mode_char s c with
        | None => Some None
        | Some s => mode_loop str s
        end
  end.

(** The string with its null byte; the answer is the condition of the caller. *)
Definition parse_mode {D} (fd : Z) (str : list Z) : M D bool :=
  let* r := access (mode_loop str (ModeState 0 false false false false false)) in
  do* update_fd fd (λ e, set_mode e (default 0 r)) in
  ret (match r with None => true | Some _ => false end).

(** ** Timestamps *)

Fixpoint parse_digits (str : list Z) (i val : Z) (len : nat) : option Z :=
  match len with
  | O => Some val
  | S len =>
      c ← str.[i];
      if (c <? 0x30) || (c >? 0x39) then Some (-1)
      else parse_digits str (i + 1) (val * 10 + (c - 0x30)) len
  end.

(** [parse_number(&str[i], len)] *)
Definition parse_number (str : list Z) (i : Z) (len : nat) : option Z := parse_digits str i 0 len.

(** The date and time words of the answer of [fat_get_time]; [None] is an error
    of that function. *)
Definition fat_date_time (answer : option (list Z)) : option (Z * Z) :=
  let s := match answer with Some s => s | None => replicate 19 0 end in
  c4 ← s.[4]; c7 ← s.[7]; c10 ← s.[10]; c13 ← s.[13]; c16 ← s.[16];
  let err :=
    match answer with None => true | Some _ => false end ||
    (negb (c4 =? 0x2D) || negb (c7 =? 0x2D)) || negb (c10 =? 0x54) ||
    (negb (c13 =? 0x3A) || negb (c16 =? 0x3A)) in
  year ← parse_number s 0 4;
  mon ← parse_number s 5 2;
  day ← parse_number s 8 2;
  hour ← parse_number s 11 2;
  min ← parse_number s 14 2;
  sec ← parse_number s 17 2;
  let '(year, mon, day, hour, min, sec) :=
    if year >? 2099 then (2099, 12, 31, 23, 59, 58) else (year, mon, day, hour, min, sec) in
  let err := err || negb ((mon >=? 1) && (mon <=? 12)) || negb ((day >=? 1) && (day <=? 31))
    || negb ((hour >=? 0) && (hour <=? 23)) || negb ((min >=? 0) && (min <=? 59))
    || negb ((sec >=? 0) && (sec <=? 59)) in
  let '(year, mon, day, hour, min, sec) :=
    if err || (year <? 1980) then (1980, 1, 1, 0, 0, 0) else (year, mon, day, hour, min, sec) in
  let fat_date := Z.land (u32 day) 0x1F in
  let fat_date := Z.lor fat_date (u32 (Z.shiftl (Z.land (u32 mon) 0x0F) 5)) in
  let fat_date := Z.lor fat_date (u32 (Z.shiftl (Z.land (u32 (u32 year - 1980)) 0x7F) 9)) in
  let fat_time := Z.land (Z.shiftr (u32 sec) 1) 0x1F in
  let fat_time := Z.lor fat_time (u32 (Z.shiftl (Z.land (u32 min) 0x3F) 5)) in
  let fat_time := Z.lor fat_time (u32 (Z.shiftl (Z.land (u32 hour) 0x1F) 11)) in
  Some (fat_date, fat_time).

Definition write_timestamps (answer : option (list Z)) (entry : list Z) (created modified : bool)
  : option (list Z) :=
  '(fat_date, fat_time) ← fat_date_time answer;
  entry ← W_LE16 entry 18 fat_date;
  entry ←
    (if created then
       entry ← W_LE16 entry 14 fat_time;
       W_LE16 entry 16 fat_date
     else Some entry);
  if modified then
    entry ← W_LE16 entry 22 fat_time;
    W_LE16 entry 24 fat_date
  else Some entry.

(** ** Reasoning about computations

    [wp m v Q]: from [v] the computation [m] has no undefined access, ends, and
    leaves a state and an answer with [Q]. *)

Definition wp {D A} (m : M D A) (v : volume D) (Q : volume D → A → Prop) : Prop :=
  ∃ v' a, m v = Some (v', a) ∧ Q v' a.

Section Wp.
Context {D : Type}.
Implicit Types (v : volume D).

Lemma wp_intro {A} (m : M D A) v v' a (Q : volume D → A → Prop) :
  m v = Some (v', a) → Q v' a → wp m v Q.
Proof. intros H1 H2. by exists v', a. Qed.

Lemma wp_mono {A} (m : M D A) v (P Q : volume D → A → Prop) :
  wp m v P → (∀ v' a, P v' a → Q v' a) → wp m v Q.
Proof. intros (v' & a & H1 & H2) HPQ. exists v', a. auto. Qed.

Lemma wp_ret {A} (a : A) v (Q : volume D → A → Prop) : Q v a → wp (ret a) v Q.
Proof. intros HQ. by exists v, a. Qed.

Lemma wp_bind {A B} (m : M D A) (k : A → M D B) v (Q : volume D → B → Prop) :
  wp m v (λ v' a, wp (k a) v' Q) → wp (bind m k) v Q.
Proof.
  intros (v1 & a & H1 & v2 & b & H2 & HQ). exists v2, b. split; [|done].
  unfold bind. by rewrite H1.
Qed.

Lemma wp_get {A} (f : volume D → A) v (Q : volume D → A → Prop) : Q v (f v) → wp (get f) v Q.
Proof. intros HQ. by exists v, (f v). Qed.

Lemma wp_modify (f : volume D → volume D) v (Q : volume D → unit → Prop) :
  Q (f v) tt → wp (modify f) v Q.
Proof. intros HQ. by exists (f v), tt. Qed.

Lemma wp_access {A} (x : option A) a v (Q : volume D → A → Prop) :
  x = Some a → Q v a → wp (access x) v Q.
Proof. intros -> HQ. by exists v, a. Qed.

Lemma wp_lift {A} (op : D → fat → option (D * fat * A)) v d f a (Q : volume D → A → Prop) :
  op (dev v) (inst v) = Some (d, f, a) → Q (set_device v d f) a → wp (lift op) v Q.
Proof. intros E HQ. exists (set_device v d f), a. unfold lift. by rewrite E. Qed.

Lemma wp_get_fd fd v e (Q : volume D → fat_fd → Prop) :
  (fds v).[fd] = Some e → Q v e → wp (get_fd fd) v Q.
Proof. intros E HQ. exists v, e. unfold get_fd. by rewrite E. Qed.

(** The table with one descriptor replaced. *)
Definition with_fd v (fd : Z) (e : fat_fd) : volume D := set_fds v (<[Z.to_nat fd := e]> (fds v)).

Lemma wp_update_fd fd f v e (Q : volume D → unit → Prop) :
  (fds v).[fd] = Some e → Q (with_fd v fd (f e)) tt → wp (update_fd fd f) v Q.
Proof.
  intros E HQ. exists (with_fd v fd (f e)), tt. split; [|done]. unfold update_fd. rewrite E.
  by rewrite wr_Some by (by apply rd_lt in E).
Qed.

Lemma wp_attempt (m k : M D Z) v (Q : volume D → Z → Prop) :
  wp m v (λ v' r, if r =? 0 then wp k v' Q else Q v' r) → wp (attempt m k) v Q.
Proof.
  intros Hm. unfold attempt. apply wp_bind. eapply wp_mono; [exact Hm|]. cbv beta.
  intros v' r. destruct (r =? 0); [done|]. apply wp_ret.
Qed.

(** A loop with an invariant and a measure. *)
Lemma wp_loop {S R} (I : volume D → S → Prop) (m : S → nat) (Q : volume D → R → Prop)
    (body : S → M D (ctl S R)) :
  (∀ v s, I v s → wp (body s) v (λ v' c, match c with
                                         | Next s' => I v' s' ∧ (m s' < m s)%nat
                                         | Done r => Q v' r
                                         end)) →
  ∀ fuel v s, I v s → (m s < fuel)%nat → wp (loop fuel body s) v Q.
Proof.
  intros Hbody fuel. induction fuel as [|fuel IH]; intros v s Hs Hm; [lia|].
  cbn [loop]. apply wp_bind. eapply wp_mono; [by apply Hbody|]. cbv beta.
  intros v' [s'|r]; [|apply wp_ret]. intros [HI Hlt]. apply IH; [done|lia].
Qed.

Lemma fds_with_fd v fd e e0 :
  (fds v).[fd] = Some e0 → (fds (with_fd v fd e)).[fd] = Some e.
Proof.
  intros Hfd. pose proof (rd_lt _ _ _ Hfd). unfold rd, with_fd. cbn [set_fds fds].
  rewrite (proj2 (Z.leb_le 0 fd)) by lia. apply list_lookup_insert_eq. lia.
Qed.

Lemma fds_with_fd_ne v fd j e :
  0 ≤ fd → j ≠ fd → (fds (with_fd v fd e)).[j] = (fds v).[j].
Proof.
  intros Hfd Hne. unfold rd, with_fd. cbn [set_fds fds].
  destruct (Z.leb_spec 0 j); [|done]. apply list_lookup_insert_ne. lia.
Qed.

Lemma with_fd_twice v fd e e' : with_fd (with_fd v fd e) fd e' = with_fd v fd e'.
Proof. unfold with_fd. cbn [set_fds fds]. by rewrite list_insert_insert_eq. Qed.
End Wp.

(** ** The descriptor table *)

Lemma lookup_grow {A} (l : list A) (n k : nat) (x : A) (j : Z) :
  (n ≤ length l)%nat →
  (take n l ++ replicate k x).[j]
  = if j <? Z.of_nat n then l.[j] else if j <? Z.of_nat (n + k) then Some x else None.
Proof.
  intros Hn. destruct (Z.ltb_spec j (Z.of_nat n)) as [Hlt|Hge].
  - rewrite rd_app_l by (rewrite length_take; lia). unfold rd. destruct (Z.leb_spec 0 j); [|done].
    apply lookup_take_lt. lia.
  - rewrite rd_app_r by (rewrite length_take; lia). rewrite length_take, Nat.min_l by done.
    destruct (Z.ltb_spec j (Z.of_nat (n + k))).
    + apply rd_Some. split; [lia|]. apply lookup_replicate. split; [done|lia].
    + apply rd_None. rewrite length_replicate. lia.
Qed.

Section Descriptor_table.
Context {D : Type} (malloc : Z → bool).
Implicit Types (v : volume D).

Lemma new_fd_entries_range entries fd :
  0 ≤ entries ≤ fd → fd < 65536 →
  fd + 1 < new_fd_entries entries fd ≤ 65537.
Proof.
  intros He Hfd. unfold new_fd_entries.
  destruct (Z.ltb_spec (fd + 2 - entries) 8), (Z.gtb_spec (entries + 8) (65536 + 1)),
    (Z.gtb_spec (fd + 2) (65536 + 1)); lia.
Qed.

(** A descriptor inside the table. *)
Lemma check_fd_inside v fd x e :
  (fds v).[fd] = Some e → fd < fd_entries v → fd < 65536 →
  check_fd malloc fd x v = Some (v, negb (Bool.eqb (opened e) x)).
Proof.
  intros He Hin Hmax. pose proof (rd_lt _ _ _ He) as Hr.
  unfold check_fd, bind, get, ret, get_fd.
  rewrite (proj2 (Z.ltb_ge fd 0)), (Z.geb_leb fd 65536), (proj2 (Z.leb_gt 65536 fd)) by lia.
  cbn [orb]. rewrite Z.geb_leb, (proj2 (Z.leb_gt (fd_entries v) fd)) by lia. cbn [negb].
  by rewrite He.
Qed.

(** What [check_fd] can do to the table: nothing, or grow it. *)
Definition grown v v' : Prop :=
  v' = set_fds v (fds v') ∧
  (∀ j, 0 ≤ j < fd_entries v → (fds v').[j] = (fds v).[j]) ∧
  (fds v' = fds v ∨ (fd_entries v < fd_entries v' ∧
                     ∀ j, fd_entries v ≤ j ≤ fd_entries v' → (fds v').[j] = Some zero_fd)).

Lemma check_fd_ok v fd x :
  1 ≤ Z.of_nat (length (fds v)) ≤ 65537 →
  ∃ v' r, check_fd malloc fd x v = Some (v', r) ∧ grown v v' ∧
    1 ≤ Z.of_nat (length (fds v')) ≤ 65537 ∧
    (r = false ↔ 0 ≤ fd < fd_entries v' ∧ ∃ e, (fds v').[fd] = Some e ∧ opened e = x) ∧
    (fd < fd_entries v' ∨ fd < 0 ∨ 65536 ≤ fd ∨
     malloc (new_fd_entries (fd_entries v) fd * sizeof_fat_fd) = false).
Proof.
  intros Hlen. unfold fd_entries.
  assert (Hsame : grown v v) by (split; [by destruct v|split; [done|by left]]).
  destruct (decide (fd < 0 ∨ 65536 ≤ fd)) as [Hout|Hin].
  { exists v, true. split; [|split; [done|split; [done|split; [|lia]]]].
    - unfold check_fd, bind, get, ret. rewrite Z.geb_leb.
      destruct (Z.ltb_spec fd 0), (Z.leb_spec 65536 fd); cbn [orb]; try done. lia.
    - split; [done|]. intros [Hr (e & He & _)]. apply rd_lt in He. lia. }
  destruct (decide (fd < fd_entries v)) as [Hlt|Hge]; unfold fd_entries in *.
  { destruct (rd_is_Some (fds v) fd ltac:(lia)) as [e He]. exists v, (negb (Bool.eqb (opened e) x)).
    split; [by apply check_fd_inside; [|unfold fd_entries; lia|lia]|].
    split; [done|]. split; [done|]. split; [|by left].
    rewrite negb_false_iff, Bool.eqb_true_iff. split; [intros E; split; [lia|by exists e]|].
    intros (_ & e' & He' & E). congruence. }
  set (n := Z.to_nat (Z.of_nat (length (fds v)) - 1)).
  pose proof (new_fd_entries_range (Z.of_nat (length (fds v)) - 1) fd ltac:(lia) ltac:(lia)) as Hnew.
  set (new := new_fd_entries _ fd) in *.
  destruct (malloc (new * sizeof_fat_fd)) eqn:Hm.
  2: { exists v, true. split; [|split; [done|split; [done|split; [|by auto]]]].
       - unfold check_fd, bind, get, ret, fd_entries. fold new. rewrite !Z.geb_leb.
         rewrite (proj2 (Z.ltb_ge fd 0)), (proj2 (Z.leb_gt 65536 fd)) by lia. cbn [orb].
         rewrite (proj2 (Z.leb_le _ fd)) by lia. by rewrite Hm.
       - split; [done|]. intros [Hr _]. lia. }
  set (l := take n (fds v) ++ replicate (Z.to_nat (new - (Z.of_nat (length (fds v)) - 1))) zero_fd).
  assert (Hl : Z.of_nat (length l) = new).
  { unfold l. rewrite length_app, length_take, length_replicate. unfold n. lia. }
  assert (Hat : ∀ j, l.[j] = if j <? Z.of_nat (length (fds v)) - 1 then (fds v).[j]
                           else if j <? new then Some zero_fd else None).
  { intros j. unfold l. rewrite lookup_grow by (unfold n; lia).
    rewrite Nat2Z.inj_add. unfold n.
    rewrite !Z2Nat.id by lia. replace (_ - 1 + _) with new by lia. done. }
  assert (Hfd : l.[fd] = Some zero_fd).
  { rewrite Hat, (proj2 (Z.ltb_ge _ _)), (proj2 (Z.ltb_lt _ _)) by lia. done. }
  exists (set_fds v l), (negb (Bool.eqb false x)). cbn [set_fds fds].
  split; [|split; [|split; [lia|split; [|left; lia]]]].
  - unfold check_fd, bind, get, ret, modify, get_fd, fd_entries. fold new. rewrite !Z.geb_leb.
    rewrite (proj2 (Z.ltb_ge fd 0)), (proj2 (Z.leb_gt 65536 fd)) by lia. cbn [orb].
    rewrite (proj2 (Z.leb_le _ fd)) by lia. rewrite Hm. cbn [negb]. fold n. fold l.
    cbn [set_fds fds]. by rewrite Hfd.
  - split; [done|]. unfold fd_entries. cbn [set_fds fds]. split.
    + intros j Hj. by rewrite Hat, (proj2 (Z.ltb_lt _ _)) by lia.
    + right. split; [lia|]. intros j Hj.
      by rewrite Hat, (proj2 (Z.ltb_ge _ _)), (proj2 (Z.ltb_lt _ _)) by lia.
  - rewrite negb_false_iff, Bool.eqb_true_iff, Hfd. split; [intros <-; split; [lia|by exists zero_fd]|].
    intros (_ & e & [= <-] & <-). done.
Qed.

(** *** Seeking *)

Lemma sub_extra_1 n off :
  0 ≤ off → (n ≤ 1)%nat →
  sub_extra n off = if off <? Z.of_nat n then None else Some (off - Z.of_nat n).
Proof.
  intros Ho Hn. destruct n as [|[|n]]; [|cbn [sub_extra]|lia].
  - cbn [sub_extra]. change (Z.of_nat 0) with 0. rewrite (proj2 (Z.ltb_ge off 0)) by lia. f_equal. lia.
  - change (Z.of_nat 1) with 1. destruct (Z.eqb_spec off 0), (Z.ltb_spec off 1); try lia; done.
Qed.

(** The target of [fat_seek], in arithmetic without bounds: an offset of 32 bits
    with a sign, also the least one, is added to the base. *)
Lemma seek_target_spec eof_ off offset_ whence :
  0 ≤ off < 2 ^ 32 → - 2 ^ 31 ≤ offset_ < 2 ^ 31 →
  seek_target eof_ off offset_ whence
  = let base := if whence =? 0 then 0 else off in
    if ((0 <=? whence) && (whence <=? 2)) && (0 <=? base + offset_) && (base + offset_ <=? maximum_offset)
       && negb ((1 <=? whence) && (0 <=? offset_) && (eof_ =? 2))
    then Some (base + offset_) else None.
Proof.
  change (2 ^ 32) with 4294967296. change (2 ^ 31) with 2147483648. intros Hoff Ho.
  unfold seek_target, maximum_offset, maximum_file_size, INT_MAX, UINT_MAX. cbv zeta.
  set (p := if offset_ <? 0 then _ else _).
  assert (Hp : p = if offset_ =? -2147483648 then (-2147483647, 1) else (offset_, 0)).
  { unfold p. destruct (Z.ltb_spec offset_ 0), (Z.eqb_spec offset_ (-2147483648)) as [->|]; try lia; try done.
    rewrite (proj2 (Z.ltb_ge _ _)) by lia. done. }
  rewrite Hp. clear p Hp.
  assert (Hw : ∀ x, 0 ≤ x < 4294967296 → u32 x = x)
    by (intros x Hx; apply wrap_small; change (2 ^ 32) with 4294967296; lia).
  destruct (decide (whence = 0 ∨ whence = 1 ∨ whence = 2)) as [Hwh|Hwh].
  2: { destruct (offset_ =? _); cbv beta iota zeta;
       repeat match goal with |- context [?x =? ?y] => destruct (Z.eqb_spec x y); [lia|] end;
       destruct (Z.leb_spec 0 whence), (Z.leb_spec whence 2); try lia; done. }
  destruct (Z.eqb_spec offset_ (-2147483648)) as [->|Hmin].
  - destruct Hwh as [->|Hwh]; [done|].
    assert (E : (whence =? 0) = false ∧ (whence =? 1) || (whence =? 2) = true ∧
                (0 <=? whence) && (whence <=? 2) = true)
      by (destruct Hwh as [-> | ->]; done).
    destruct E as (-> & -> & ->). cbn [Z.eqb Pos.eqb Z.ltb Z.leb Z.compare andb].
    rewrite Hw by lia. rewrite andb_false_r, andb_true_r. change (- -2147483647) with 2147483647.
    destruct (Z.ltb_spec off 2147483647), (Z.leb_spec 0 (off + -2147483648)); cbn [andb]; try lia;
      [done|..]; rewrite sub_extra_1 by lia; change (Z.of_nat (Z.to_nat 1)) with 1.
    + rewrite (proj2 (Z.ltb_ge _ _)), (proj2 (Z.leb_le _ _)) by lia. f_equal. lia.
    + by rewrite (proj2 (Z.ltb_lt _ _)) by lia.
  - destruct (Z.eqb_spec whence 0) as [->|Hnz].
    + cbn [Z.leb Z.compare andb]. rewrite Z.add_0_l, andb_true_r.
      destruct (Z.ltb_spec offset_ 0), (Z.leb_spec 0 offset_); try lia; [done|].
      rewrite Hw by lia. rewrite Z.gtb_ltb.
      by rewrite (proj2 (Z.ltb_ge _ _)), (proj2 (Z.leb_le _ _)) by lia.
    + assert (E : (whence =? 1) || (whence =? 2) = true)
        by (destruct (Z.eqb_spec whence 1), (Z.eqb_spec whence 2); lia || done).
      rewrite E. cbv zeta. rewrite !(proj2 (Z.leb_le _ whence)), (proj2 (Z.leb_le whence 2)) by lia.
      cbn [andb].
      destruct (Z.ltb_spec offset_ 0), (Z.leb_spec 0 offset_); try lia; cbn [andb negb].
      * rewrite Hw by lia. rewrite andb_true_r. change (Z.to_nat 0) with 0%nat. cbn [sub_extra].
        destruct (Z.ltb_spec off (- offset_)), (Z.leb_spec 0 (off + offset_)); cbn [andb]; try lia; [done|].
        rewrite (proj2 (Z.leb_le _ _)) by lia. f_equal. lia.
      * destruct (Z.eqb_spec eof_ 2); cbn [negb]; [by rewrite andb_false_r|]. rewrite andb_true_r.
        rewrite Hw by lia. rewrite (proj2 (Z.leb_le 0 (off + offset_))) by lia. cbn [andb].
        rewrite Z.gtb_ltb.
        destruct (Z.leb_spec off (4294967295 - offset_)), (Z.ltb_spec (4294967295 - 1) (off + offset_)),
          (Z.leb_spec (off + offset_) (4294967295 - 1)); cbn [negb]; try lia; done.
Qed.
End Descriptor_table.

(** ** The operations on one descriptor *)

(** A descriptor as every operation leaves it. *)
Record fd_ok (e : fat_fd) : Prop := {
  fd_record : length (record e) = 32%nat ∧ Forall is_byte (record e);
  fd_offset : 0 ≤ offset e < 2 ^ 32;
  fd_eof : eof e = 0 ∨ eof e = 1 }.

(** The size field of a record. *)
Definition record_size (r : list Z) : Z := default 0 (LE32 r 28).
Arguments record_size : simpl never.

Lemma record_size_ok e :
  fd_ok e → LE32 (record e) 28 = Some (record_size (record e)) ∧
            0 ≤ record_size (record e) < 2 ^ 32.
Proof.
  intros [[Hl Hb] _ _]. unfold record_size.
  destruct (LE32_range (record e) 28) as (x & -> & Hx); [lia|rewrite Hl; lia|done|]. done.
Qed.

Section Operations.
Context {D : Type} (malloc : Z → bool).
Implicit Types (v : volume D).

(** The descriptor [fd] is open and has the contents [e]. *)
Definition is_open v (fd : Z) (e : fat_fd) : Prop :=
  ready (inst v) = true ∧ (fds v).[fd] = Some e ∧ fd < fd_entries v ∧ fd < 65536 ∧
  opened e = true ∧ fd_ok e.

Lemma check_fd_open v fd e : is_open v fd e → check_fd malloc fd true v = Some (v, false).
Proof.
  intros (_ & He & H1 & H2 & Ho & _). by rewrite (check_fd_inside malloc v fd true e), Ho.
Qed.

(** The guards at the start of the operations on an open descriptor. *)
Lemma open_guard {A} v fd e (fail1 fail2 k : M D A) :
  is_open v fd e →
  (let* r := is_ready in
   if negb r then fail1 else let* c := check_fd malloc fd true in if c then fail2 else k) v = k v.
Proof.
  intros Ho. unfold bind, is_ready, get. pose proof Ho as (-> & _). cbn [negb].
  by rewrite (check_fd_open v fd e Ho).
Qed.

Lemma run_get_fd {A} v fd e (k : fat_fd → M D A) :
  (fds v).[fd] = Some e → (let* e := get_fd fd in k e) v = k e v.
Proof. intros He. unfold bind, get_fd. by rewrite He. Qed.

Lemma run_access {A B} v (x : option A) a (k : A → M D B) :
  x = Some a → (let* a := access x in k a) v = k a v.
Proof. by intros ->. Qed.

Lemma run_update_fd {A} v fd e f (k : M D A) :
  (fds v).[fd] = Some e → (do* update_fd fd f in k) v = k (with_fd v fd (f e)).
Proof.
  intros He. unfold bind, update_fd. rewrite He. by rewrite wr_Some by (by apply rd_lt in He).
Qed.

(** A descriptor that stays open. *)
Lemma with_fd_open v fd e e' :
  is_open v fd e → opened e' = true → fd_ok e' → is_open (with_fd v fd e') fd e'.
Proof.
  intros (Hr & He & H1 & H2 & _) Ho Hok. split; [done|]. split; [by apply (fds_with_fd v fd e' e)|].
  unfold fd_entries, with_fd in *. cbn [set_fds fds]. by rewrite length_insert.
Qed.

Lemma fat_seek_ok v fd e offset_ whence :
  is_open v fd e → - 2 ^ 31 ≤ offset_ < 2 ^ 31 →
  let base := if whence =? 0 then 0 else if whence =? 1 then offset e
              else record_size (record e) in
  ∃ v' r, fat_seek malloc fd offset_ whence v = Some (v', r) ∧
    if decide (0 ≤ whence ≤ 2 ∧ 0 ≤ base + offset_ ≤ 0xFFFFFFFE)
    then r = 0 ∧ v' = with_fd v fd (set_eof (set_offset e (base + offset_)) 0) ∧
         fat_tell malloc fd v' = Some (v', (0, Some (base + offset_)))
    else r = FAT_SEEK_ERROR ∧ v' = v.
Proof.
  intros Hopen Ho base. pose proof Hopen as (_ & He & _ & _ & Hop & Hok).
  destruct (record_size_ok e Hok) as [Hsize Hsr].
  set (off := if whence =? 2 then record_size (record e) else offset e).
  assert (Hoff : 0 ≤ off < 2 ^ 32)
    by (unfold off; destruct (whence =? 2); [done|apply (fd_offset _ Hok)]).
  assert (Hbase : 0 ≤ whence ≤ 2 → (if whence =? 0 then 0 else off) = base).
  { intros Hw. unfold base, off. destruct (Z.eqb_spec whence 0), (Z.eqb_spec whence 1),
      (Z.eqb_spec whence 2); try done; lia. }
  assert (Heof : (eof e =? 2) = false) by (by destruct (fd_eof _ Hok) as [-> | ->]).
  assert (Hrun : fat_seek malloc fd offset_ whence v
    = match seek_target (eof e) off offset_ whence with
      | None => Some (v, FAT_SEEK_ERROR)
      | Some t => Some (with_fd v fd (set_eof (set_offset e t) 0), 0)
      end).
  { unfold fat_seek. rewrite (open_guard v fd e) by done. rewrite (run_get_fd v fd e) by done.
    assert (Hacc : (if whence =? 2 then access (LE32 (record e) 28) else ret (offset e)) v
                   = Some (v, off))
      by (unfold off; destruct (whence =? 2); unfold access; by rewrite ?Hsize).
    unfold bind at 1. rewrite Hacc. destruct (seek_target _ _ _ _) as [t|]; [|done].
    by rewrite (run_update_fd v fd e). }
  rewrite Hrun, seek_target_spec, Heof, !andb_false_r by done. cbn [negb]. cbv zeta.
  rewrite andb_true_r. unfold maximum_offset, maximum_file_size. change (0xFFFFFFFF - 1) with 0xFFFFFFFE.
  destruct (decide _) as [[Hw Ht]|Hno].
  - rewrite Hbase, !(proj2 (Z.leb_le _ _)) by lia. cbn [andb].
    eexists _, _. split; [done|]. split; [done|]. split; [done|].
    set (e' := set_eof (set_offset e (base + offset_)) 0).
    assert (Hopen' : is_open (with_fd v fd e') fd e').
    { apply (with_fd_open v fd e); [done|done|]. split; [exact (fd_record _ Hok)| |by left].
      cbn. change (2 ^ 32) with 4294967296. lia. }
    unfold fat_tell. rewrite (open_guard _ fd e') by done. by rewrite (run_get_fd _ fd e') by apply Hopen'.
  - exists v, FAT_SEEK_ERROR. split; [|done].
    destruct (Z.leb_spec 0 whence), (Z.leb_spec whence 2); cbn [andb]; try done.
    rewrite Hbase by lia.
    destruct (Z.leb_spec 0 (base + offset_)), (Z.leb_spec (base + offset_) 0xFFFFFFFE); try done. lia.
Qed.

(** Seeking and telling: the target is the start, the current offset or
    the size of the file plus the signed offset, in arithmetic without bounds.
    A target from 0 to the largest offset is taken, clears the end-of-file flag
    and is what [fat_tell] answers; every other target, and every other origin,
    is refused without a change.  This includes the least 32-bit offset, whose
    negation does not fit. *)
Theorem fat_seek_correct v fd e offset_ whence :
  is_open v fd e → - 2 ^ 31 ≤ offset_ < 2 ^ 31 →
  let base := if whence =? 0 then 0 else if whence =? 1 then offset e
              else record_size (record e) in
  ∃ v' r, fat_seek malloc fd offset_ whence v = Some (v', r) ∧
    if decide (0 ≤ whence ≤ 2 ∧ 0 ≤ base + offset_ ≤ 0xFFFFFFFE)
    then r = 0 ∧ v' = with_fd v fd (set_eof (set_offset e (base + offset_)) 0) ∧
         fat_tell malloc fd v' = Some (v', (0, Some (base + offset_)))
    else r = FAT_SEEK_ERROR ∧ v' = v.
Proof. apply fat_seek_ok. Qed.
End Operations.

(** ** Mode strings *)

Definition mode_letters : list Z := [0x61; 0x62; 0x72; 0x77; 0x2B].

Definition mode_kinds : list Z := [0x61; 0x72; 0x77].

(** The flags of a mode string, by the letters in it. *)
Definition mode_value (s : list Z) : Z :=
  let has_ c := Z.b2z (bool_decide (c ∈ s)) in
  let any a b := Z.b2z (bool_decide (a ∈ s) || bool_decide (b ∈ s)) in
  MODE_APPEND * has_ 0x61 + MODE_CREATE * any 0x61 0x77
  + MODE_MODIFY * Z.b2z (bool_decide (0x61 ∈ s) || bool_decide (0x77 ∈ s) || bool_decide (0x2B ∈ s))
  + MODE_READ * has_ 0x72 + MODE_WRITE * has_ 0x77.

(** Letters of the set, each at most once, and exactly one of a, r and w. *)
Definition mode_valid (s : list Z) : Prop :=
  Forall (.∈ mode_letters) s ∧ NoDup s ∧
  length (filter (.∈ mode_kinds) s) = 1%nat.

#[export] Instance mode_valid_dec s : Decision (mode_valid s).
Proof. unfold mode_valid. apply _. Defined.

(** The state of the loop after the letters [l]. *)
Definition mode_of (l : list Z) : mode_state :=
  ModeState (mode_value l) (bool_decide (0x61 ∈ l)) (bool_decide (0x62 ∈ l))
    (bool_decide (0x72 ∈ l)) (bool_decide (0x77 ∈ l)) (bool_decide (0x2B ∈ l)).

Lemma elem_of_snoc (c x : Z) (l : list Z) :
  bool_decide (c ∈ l ++ [x]) = bool_decide (c ∈ l) || (c =? x).
Proof.
  destruct (Z.eqb_spec c x) as [->|Hne].
  - rewrite orb_true_r. apply bool_decide_eq_true_2, elem_of_app. right. by left.
  - rewrite orb_false_r. apply bool_decide_ext. rewrite elem_of_app, list_elem_of_singleton. tauto.
Qed.

Lemma mode_char_of l c :
  mode_char (mode_of l) c
  = if bool_decide (c ∈ mode_letters) && negb (bool_decide (c ∈ l))
    then Some (mode_of (l ++ [c])) else None.
Proof.
  unfold mode_char, mode_of, mode_value. rewrite !elem_of_snoc. cbn [md m_a m_b m_r m_w m_plus].
  destruct (bool_decide_reflect (c ∈ mode_letters)) as [Hin|Hno]; cbn [andb].
  - unfold mode_letters in Hin. rewrite !elem_of_cons, elem_of_nil in Hin.
    destruct Hin as [->|[->|[->|[->|[->|[]]]]]]; cbn [Z.eqb Pos.eqb];
    destruct (bool_decide (0x61 ∈ l)), (bool_decide (0x62 ∈ l)), (bool_decide (0x72 ∈ l)),
      (bool_decide (0x77 ∈ l)), (bool_decide (0x2B ∈ l)); reflexivity.
  - unfold mode_letters in Hno. rewrite !not_elem_of_cons in Hno.
    by rewrite !(proj2 (Z.eqb_neq c _)) by tauto.
Qed.

Lemma mode_filter_snoc l c :
  length (filter (.∈ mode_kinds) (l ++ [c]))
  = (length (filter (.∈ mode_kinds) l)
     + (if bool_decide (c ∈ mode_kinds) then 1 else 0))%nat.
Proof.
  rewrite list.filter_app, length_app, filter_cons, filter_nil. f_equal.
  destruct (decide (c ∈ mode_kinds)) as [Hd|Hd].
  - by rewrite bool_decide_eq_true_2.
  - by rewrite bool_decide_eq_false_2.
Qed.

(** The flags count the letters a, r and w. *)
Lemma mode_count l :
  Forall (.∈ mode_letters) l → NoDup l →
  Z.of_nat (length (filter (.∈ mode_kinds) l))
  = Z.b2z (bool_decide (0x61 ∈ l)) + Z.b2z (bool_decide (0x72 ∈ l)) + Z.b2z (bool_decide (0x77 ∈ l)).
Proof.
  induction l as [|c l IH] using rev_ind; [done|].
  intros [Hl Hc%Forall_cons_1]%Forall_app (Hn & Hnot & _)%list.NoDup_app. destruct Hc as [Hc _].
  assert (Hout : bool_decide (c ∈ l) = false)
    by (apply bool_decide_eq_false_2; intros Hin; apply (Hnot c Hin); by left).
  rewrite mode_filter_snoc, !elem_of_snoc, Nat2Z.inj_add, IH by done.
  unfold mode_letters in Hc. rewrite !elem_of_cons, elem_of_nil in Hc.
  destruct Hc as [->|[->|[->|[->|[->|[]]]]]]; cbn [Z.eqb Pos.eqb]; rewrite ?Hout;
  destruct (bool_decide (0x61 ∈ l)), (bool_decide (0x72 ∈ l)), (bool_decide (0x77 ∈ l));
    try done.
Qed.

Lemma mode_loop_of s l rest :
  0 ∉ s → Forall (.∈ mode_letters) l → NoDup l →
  mode_loop (s ++ 0 :: rest) (mode_of l)
  = Some (if decide (mode_valid (l ++ s)) then Some (mode_value (l ++ s)) else None).
Proof.
  revert l. induction s as [|c s IH]; intros l H0 Hl Hn; cbn [app mode_loop].
  - rewrite app_nil_r. cbn [Z.eqb]. unfold mode_end, mode_of. cbn [m_a m_r m_w md].
    rewrite <- (mode_count l) by done. f_equal.
    destruct (decide (mode_valid l)) as [(_ & _ & E)|Hv].
    + by rewrite E.
    + destruct (Z.eqb_spec (Z.of_nat (length (filter (.∈ mode_kinds) l))) 1) as [E|]; [|done].
      exfalso. apply Hv. split; [done|]. split; [done|lia].
  - apply not_elem_of_cons in H0 as [Hc0 H0]. rewrite (proj2 (Z.eqb_neq c 0)) by done.
    rewrite mode_char_of. destruct (bool_decide_reflect (c ∈ mode_letters)) as [Hc|Hc]; cbn [andb].
    + destruct (bool_decide_reflect (c ∈ l)) as [Hin|Hout]; cbn [negb].
      * rewrite decide_False; [done|]. intros (_ & Hd & _). apply list.NoDup_app in Hd as (_ & Hd & _).
        apply (Hd c Hin). by left.
      * rewrite IH, <- app_assoc; [done|done| |].
        -- apply Forall_app. split; [done|]. apply Forall_cons_2; [done|apply Forall_nil_2].
        -- apply list.NoDup_app. split; [done|]. split; [|apply list.NoDup_singleton].
           intros x Hx ->%list_elem_of_singleton. done.
    + rewrite decide_False; [done|]. intros (Hf & _). apply Forall_app in Hf as [_ Hf].
      by apply Forall_cons_1 in Hf as [Hf _].
Qed.

(** The mode strings: accepted are exactly the strings of the letters a, b,
    r, w and +, each at most once, with one of a, r and w; the mode has the
    flags of its letters. *)
Theorem parse_mode_correct {D} (v : volume D) fd e s rest :
  (fds v).[fd] = Some e → 0 ∉ s →
  parse_mode fd (s ++ 0 :: rest) v
  = Some (if decide (mode_valid s) then (with_fd v fd (set_mode e (mode_value s)), false)
          else (with_fd v fd (set_mode e 0), true)).
Proof.
  intros He H0. unfold parse_mode.
  change (ModeState 0 false false false false false) with (mode_of []).
  erewrite run_access by (apply mode_loop_of; [done|by constructor|by constructor]).
  rewrite (run_update_fd v fd e) by done. cbn [app]. by destruct (decide (mode_valid s)).
Qed.

Lemma parse_mode_correct_witness :
  let v := Volume tt (blank fat12_geometry) [zero_fd] [] 0 false in
  parse_mode 0 ([0x72; 0x62; 0x2B] ++ [0]) v
  = Some (if decide (mode_valid [0x72; 0x62; 0x2B])
          then (with_fd v 0 (set_mode zero_fd (mode_value [0x72; 0x62; 0x2B])), false)
          else (with_fd v 0 (set_mode zero_fd 0), true)) ∧
  mode_value [0x72; 0x62; 0x2B] = MODE_READ + MODE_MODIFY.
Proof.
  intros v. split; [|reflexivity].
  apply (parse_mode_correct v 0 zero_fd [0x72; 0x62; 0x2B] []); [reflexivity|].
  apply (bool_decide_eq_true_1 (0 ∉ [0x72; 0x62; 0x2B])). reflexivity.
Defined.

(** ** Timestamps *)

Definition valid_time (y mo d h mi s : Z) : Prop :=
  1980 ≤ y ≤ 2099 ∧ 1 ≤ mo ≤ 12 ∧ 1 ≤ d ≤ 31 ∧ 0 ≤ h ≤ 23 ∧ 0 ≤ mi ≤ 59 ∧ 0 ≤ s ≤ 59.

Definition two (n : Z) : list Z := [0x30 + n / 10; 0x30 + n mod 10].

(** "YYYY-MM-DDThh:mm:ss" *)
Definition iso (y mo d h mi s : Z) : list Z :=
  two (y / 100) ++ two (y mod 100) ++ [0x2D] ++ two mo ++ [0x2D] ++ two d ++ [0x54]
  ++ two h ++ [0x3A] ++ two mi ++ [0x3A] ++ two s.

Definition date_word (y mo d : Z) : Z := d + 32 * mo + 512 * (y - 1980).
Definition time_word (h mi s : Z) : Z := s / 2 + 32 * mi + 2048 * h.

Lemma field_word a b c n m :
  0 ≤ n ≤ m → m ≤ 31 → 0 ≤ a < 2 ^ n → 0 ≤ b < 2 ^ (m - n) → 0 ≤ c → c * 2 ^ m < 2 ^ 32 →
  Z.lor (Z.lor a (u32 (Z.shiftl b n))) (u32 (Z.shiftl c m)) = a + b * 2 ^ n + c * 2 ^ m.
Proof.
  intros Hn Hm Ha Hb Hc Hcm. assert (0 < 2 ^ n) by (apply Z.pow_pos_nonneg; lia).
  assert (E : 2 ^ m = 2 ^ (m - n) * 2 ^ n) by (rewrite <- Z.pow_add_r by lia; f_equal; lia).
  assert (2 ^ m < 2 ^ 32) by (apply Z.pow_lt_mono_r; lia).
  rewrite !wrap_small by (rewrite Z.shiftl_mul_pow2 by lia; nia).
  rewrite (Z.lor_comm a), lor_shiftl_add, Z.lor_comm, lor_shiftl_add by nia. lia.
Qed.

Lemma date_fields y mo d :
  1980 ≤ y ≤ 2099 → 1 ≤ mo ≤ 12 → 1 ≤ d ≤ 31 →
  Z.lor (Z.lor (Z.land (u32 d) 0x1F) (u32 (Z.shiftl (Z.land (u32 mo) 0x0F) 5)))
    (u32 (Z.shiftl (Z.land (u32 (u32 y - 1980)) 0x7F) 9)) = date_word y mo d.
Proof.
  intros Hy Hm Hd. rewrite (wrap_small 32 d), (wrap_small 32 mo), (wrap_small 32 y),
    (wrap_small 32 (y - 1980)) by (change (2 ^ 32) with 4294967296; lia).
  change 0x1F with (2 ^ 5 - 1). change 0x0F with (2 ^ 4 - 1). change 0x7F with (2 ^ 7 - 1).
  rewrite !land_ones_mod by lia. change (2 ^ 5) with 32. change (2 ^ 4) with 16. change (2 ^ 7) with 128.
  rewrite !(Z.mod_small _ _) by lia. rewrite field_word; unfold date_word; cbn; lia.
Qed.

Lemma time_fields h mi s :
  0 ≤ h ≤ 23 → 0 ≤ mi ≤ 59 → 0 ≤ s ≤ 59 →
  Z.lor (Z.lor (Z.land (Z.shiftr (u32 s) 1) 0x1F) (u32 (Z.shiftl (Z.land (u32 mi) 0x3F) 5)))
    (u32 (Z.shiftl (Z.land (u32 h) 0x1F) 11)) = time_word h mi s.
Proof.
  intros Hh Hm Hs. rewrite (wrap_small 32 s), (wrap_small 32 mi), (wrap_small 32 h)
    by (change (2 ^ 32) with 4294967296; lia).
  rewrite Z.shiftr_div_pow2 by lia. change (2 ^ 1) with 2.
  change 0x1F with (2 ^ 5 - 1). change 0x3F with (2 ^ 6 - 1).
  rewrite !land_ones_mod by lia. change (2 ^ 5) with 32. change (2 ^ 6) with 64.
  rewrite !(Z.mod_small _ _) by dlia. assert (0 ≤ s / 2 < 32) by dlia.
  rewrite field_word; unfold time_word; cbn; lia.
Qed.

Lemma parse_number_total s i n :
  0 ≤ i → i + Z.of_nat n ≤ Z.of_nat (length s) → ∃ x, parse_number s i n = Some x.
Proof.
  unfold parse_number. set (val := 0) at 2. clearbody val. revert i val.
  induction n as [|n IH]; intros i val Hi Hl; cbn [parse_digits]; [by eexists|].
  destruct (rd_is_Some s i ltac:(lia)) as [c ->]. cbn [mbind option_bind].
  destruct (_ || _); [by eexists|]. apply IH; lia.
Qed.

(** The words of an answer are those of a valid time. *)
Lemma fat_date_time_ok answer :
  (∀ s, answer = Some s → length s = 19%nat) →
  ∃ y mo d h mi s, valid_time y mo d h mi s ∧
    fat_date_time answer = Some (date_word y mo d, time_word h mi s).
Proof.
  intros Hlen. unfold fat_date_time.
  set (str := match answer with Some s => s | None => replicate 19 0 end).
  assert (Hl : length str = 19%nat) by (unfold str; destruct answer; [by apply Hlen|done]).
  destruct (rd_is_Some str 4 ltac:(lia)) as [c4 ->], (rd_is_Some str 7 ltac:(lia)) as [c7 ->],
    (rd_is_Some str 10 ltac:(lia)) as [c10 ->], (rd_is_Some str 13 ltac:(lia)) as [c13 ->],
    (rd_is_Some str 16 ltac:(lia)) as [c16 ->].
  destruct (parse_number_total str 0 4 ltac:(lia) ltac:(lia)) as [y ->],
    (parse_number_total str 5 2 ltac:(lia) ltac:(lia)) as [mo ->],
    (parse_number_total str 8 2 ltac:(lia) ltac:(lia)) as [d ->],
    (parse_number_total str 11 2 ltac:(lia) ltac:(lia)) as [h ->],
    (parse_number_total str 14 2 ltac:(lia) ltac:(lia)) as [mi ->],
    (parse_number_total str 17 2 ltac:(lia) ltac:(lia)) as [s ->].
  cbn [mbind option_bind]. set (err := _ || _). clearbody err.
  assert (Hpick : ∃ y' mo' d' h' mi' s',
    (if y >? 2099 then (2099, 12, 31, 23, 59, 58) else (y, mo, d, h, mi, s))
    = (y', mo', d', h', mi', s') ∧ y' ≤ 2099).
  { destruct (Z.gtb_spec y 2099); eexists _, _, _, _, _, _; (split; [done|lia]). }
  destruct Hpick as (y' & mo' & d' & h' & mi' & s' & -> & Hy').
  destruct (_ || (y' <? 1980)) eqn:Herr.
  - exists 1980, 1, 1, 0, 0, 0. split; [unfold valid_time; lia|].
    by rewrite date_fields, time_fields by lia.
  - rewrite !orb_false_iff, !negb_false_iff, !andb_true_iff, !Z.geb_leb, !Z.leb_le, Z.ltb_ge in Herr.
    exists y', mo', d', h', mi', s'. split; [unfold valid_time; lia|].
    by rewrite date_fields, time_fields by lia.
Qed.

Lemma two_digit n : 0 ≤ n < 100 →
  0x30 ≤ 0x30 + n / 10 ≤ 0x39 ∧ 0x30 ≤ 0x30 + n mod 10 ≤ 0x39 ∧
  (0x30 + n / 10 - 0x30) * 10 + (0x30 + n mod 10 - 0x30) = n.
Proof. intros Hn. dlia. Qed.

Lemma digit_test c : 0x30 ≤ c ≤ 0x39 → (c <? 0x30) || (c >? 0x39) = false.
Proof. intros Hc. rewrite Z.gtb_ltb, (proj2 (Z.ltb_ge _ _)), (proj2 (Z.ltb_ge _ _)) by lia. done. Qed.

Lemma parse_two s i n :
  0 ≤ n < 100 → s.[i] = Some (0x30 + n / 10) → s.[i + 1] = Some (0x30 + n mod 10) →
  parse_number s i 2 = Some n.
Proof.
  intros Hn H1 H2. destruct (two_digit n Hn) as (D1 & D2 & E). unfold parse_number.
  cbn [parse_digits]. rewrite H1. cbn [mbind option_bind]. rewrite digit_test by done.
  rewrite H2. cbn [mbind option_bind]. rewrite digit_test by done. f_equal. lia.
Qed.

Lemma parse_four s i n :
  0 ≤ n < 10000 → s.[i] = Some (0x30 + n / 100 / 10) → s.[i + 1] = Some (0x30 + (n / 100) mod 10) →
  s.[i + 1 + 1] = Some (0x30 + n mod 100 / 10) → s.[i + 1 + 1 + 1] = Some (0x30 + (n mod 100) mod 10) →
  parse_number s i 4 = Some n.
Proof.
  intros Hn H1 H2 H3 H4. destruct (two_digit (n / 100) ltac:(dlia)) as (D1 & D2 & E).
  destruct (two_digit (n mod 100) ltac:(dlia)) as (D3 & D4 & E').
  pose proof (Z.div_mod n 100 ltac:(lia)) as Hdm. unfold parse_number. cbn [parse_digits].
  rewrite H1. cbn [mbind option_bind]. rewrite digit_test by done.
  rewrite H2. cbn [mbind option_bind]. rewrite digit_test by done.
  rewrite H3. cbn [mbind option_bind]. rewrite digit_test by done.
  rewrite H4. cbn [mbind option_bind]. rewrite digit_test by done. f_equal. lia.
Qed.

(** A valid answer gives its own words. *)
Lemma fat_date_time_iso y mo d h mi s :
  valid_time y mo d h mi s →
  fat_date_time (Some (iso y mo d h mi s)) = Some (date_word y mo d, time_word h mi s).
Proof.
  intros (Hy & Hmo & Hd & Hh & Hmi & Hs). unfold fat_date_time.
  set (str := iso y mo d h mi s).
  rewrite (parse_four str 0 y), (parse_two str 5 mo), (parse_two str 8 d), (parse_two str 11 h),
    (parse_two str 14 mi), (parse_two str 17 s) by (lia || reflexivity).
  assert (E : str.[4] = Some 0x2D ∧ str.[7] = Some 0x2D ∧ str.[10] = Some 0x54 ∧
              str.[13] = Some 0x3A ∧ str.[16] = Some 0x3A) by (repeat split; reflexivity).
  destruct E as (-> & -> & -> & -> & ->). cbn [mbind option_bind Z.eqb Pos.eqb negb orb].
  rewrite Z.gtb_ltb, (proj2 (Z.ltb_ge _ _)) by lia. rewrite !Z.geb_leb.
  rewrite !(proj2 (Z.leb_le _ _)), (proj2 (Z.ltb_ge _ _)) by lia. cbn [andb negb orb].
  by rewrite date_fields, time_fields by lia.
Qed.

(** *** The record *)

(** The bytes of a record after [write_timestamps]. *)
Definition stamped (date time : Z) (created modified : bool) (b : Z → Z) (k : Z) : Z :=
  if k =? 18 then date mod 256 else if k =? 19 then (date / 256) mod 256
  else if created && (k =? 14) then time mod 256 else if created && (k =? 15) then (time / 256) mod 256
  else if created && (k =? 16) then date mod 256 else if created && (k =? 17) then (date / 256) mod 256
  else if modified && (k =? 22) then time mod 256 else if modified && (k =? 23) then (time / 256) mod 256
  else if modified && (k =? 24) then date mod 256 else if modified && (k =? 25) then (date / 256) mod 256
  else b k.

Lemma write_timestamps_ok answer entry created modified :
  (∀ s, answer = Some s → length s = 19%nat) → 32 ≤ Z.of_nat (length entry) →
  ∃ date time entry', fat_date_time answer = Some (date, time) ∧
    write_timestamps answer entry created modified = Some entry' ∧
    length entry' = length entry ∧ (Forall is_byte entry → Forall is_byte entry') ∧
    ∀ k, 0 ≤ k → at_ entry' k = stamped date time created modified (at_ entry) k.
Proof.
  intros Hans Hl. destruct (fat_date_time_ok answer Hans) as (y & mo & d & h & mi & s & _ & E).
  eexists _, _. set (date := date_word y mo d) in *. set (time := time_word h mi s) in *.
  unfold write_timestamps. rewrite E. cbn [mbind option_bind].
  destruct (W_LE16_at entry 18 date ltac:(lia) ltac:(lia)) as (e1 & -> & L1 & A1 & B1).
  cbn [mbind option_bind].
  assert (H2 : ∃ e2, (if created then e1' ← W_LE16 e1 14 time; W_LE16 e1' 16 date else Some e1) = Some e2 ∧
    length e2 = length e1 ∧ (Forall is_byte e1 → Forall is_byte e2) ∧
    ∀ k, 0 ≤ k → at_ e2 k = if created && (k =? 14) then time mod 256
      else if created && (k =? 15) then (time / 256) mod 256
      else if created && (k =? 16) then date mod 256
      else if created && (k =? 17) then (date / 256) mod 256 else at_ e1 k).
  { destruct created; [|by exists e1].
    destruct (W_LE16_at e1 14 time ltac:(lia) ltac:(lia)) as (e2 & -> & L2 & A2 & B2).
    cbn [mbind option_bind].
    destruct (W_LE16_at e2 16 date ltac:(lia) ltac:(lia)) as (e3 & -> & L3 & A3 & B3).
    exists e3. split; [done|]. split; [congruence|]. split; [by auto|]. intros k Hk.
    rewrite A3, A2 by done. cbn [andb].
    change (16 + 1) with 17. change (14 + 1) with 15.
    destruct (Z.eqb_spec k 14) as [->|]; [done|]. by destruct (Z.eqb_spec k 15) as [->|]. }
  destruct H2 as (e2 & -> & L2 & B2 & A2). cbn [mbind option_bind].
  assert (H3 : ∃ e3, (if modified then e2' ← W_LE16 e2 22 time; W_LE16 e2' 24 date else Some e2) = Some e3 ∧
    length e3 = length e2 ∧ (Forall is_byte e2 → Forall is_byte e3) ∧
    ∀ k, 0 ≤ k → at_ e3 k = if modified && (k =? 22) then time mod 256
      else if modified && (k =? 23) then (time / 256) mod 256
      else if modified && (k =? 24) then date mod 256
      else if modified && (k =? 25) then (date / 256) mod 256 else at_ e2 k).
  { destruct modified; [|by exists e2].
    destruct (W_LE16_at e2 22 time ltac:(lia) ltac:(lia)) as (e3 & -> & L3 & A3 & B3).
    cbn [mbind option_bind].
    destruct (W_LE16_at e3 24 date ltac:(lia) ltac:(lia)) as (e4 & -> & L4 & A4 & B4).
    exists e4. split; [done|]. split; [congruence|]. split; [by auto|]. intros k Hk.
    rewrite A4, A3 by done. cbn [andb].
    change (24 + 1) with 25. change (22 + 1) with 23.
    destruct (Z.eqb_spec k 22) as [->|]; [done|]. by destruct (Z.eqb_spec k 23) as [->|]. }
  destruct H3 as (e3 & -> & L3 & B3 & A3). exists e3. split; [done|]. split; [done|].
  split; [congruence|]. split; [by auto|]. intros k Hk. rewrite A3, A2, A1 by done. unfold stamped.
  change (18 + 1) with 19.
  destruct (Z.eqb_spec k 18) as [->|]; [by destruct created, modified|].
  destruct (Z.eqb_spec k 19) as [->|]; [by destruct created, modified|].
  destruct created; cbn [andb]; [|done].
  destruct (Z.eqb_spec k 14) as [->|]; [by destruct modified|].
  destruct (Z.eqb_spec k 15) as [->|]; [by destruct modified|].
  destruct (Z.eqb_spec k 16) as [->|]; [by destruct modified|].
  destruct (Z.eqb_spec k 17) as [->|]; [by destruct modified|]. done.
Qed.

(** *** The properties *)

(** The descriptor table: [check_fd] refuses exactly the numbers outside
    of 0..65535, the descriptors in the other state, and those there is no
    memory for.  When it grows the table, every descriptor keeps its contents,
    the new ones and the special one are closed and zero, and a number that is
    accepted is never the special entry. *)
Theorem check_fd_correct {D} (malloc : Z → bool) (v : volume D) fd x :
  1 ≤ Z.of_nat (length (fds v)) ≤ 65537 →
  ∃ v' r, check_fd malloc fd x v = Some (v', r) ∧ grown v v' ∧
    1 ≤ Z.of_nat (length (fds v')) ≤ 65537 ∧
    (r = false ↔ 0 ≤ fd < fd_entries v' ∧ ∃ e, (fds v').[fd] = Some e ∧ opened e = x) ∧
    (fd < fd_entries v' ∨ fd < 0 ∨ 65536 ≤ fd ∨
     malloc (new_fd_entries (fd_entries v) fd * sizeof_fat_fd) = false).
Proof. apply check_fd_ok. Qed.

Lemma check_fd_correct_witness :
  let v := Volume tt (blank fat12_geometry) (replicate 9 zero_fd) [] 0 false in
  ∃ v' r, check_fd (λ _, true) 20 false v = Some (v', r) ∧ 1 ≤ Z.of_nat (length (fds v')) ≤ 65537.
Proof.
  intros v. destruct (check_fd_correct (λ _, true) v 20 false ltac:(split; vm_compute; discriminate))
    as (v' & r & H1 & _ & H2 & _).
  exists v', r. split; [exact H1|exact H2].
Defined.

(** Timestamps: whatever [fat_get_time] answers, the two words that are
    stored are those of a valid date and time between 1980 and 2099 (the seconds
    halved), they are those of the answer when it is valid, and no other byte of
    the record changes. *)
Theorem write_timestamps_correct answer entry created modified :
  (∀ s, answer = Some s → length s = 19%nat) → 32 ≤ Z.of_nat (length entry) →
  ∃ y mo d h mi s entry', valid_time y mo d h mi s ∧
    write_timestamps answer entry created modified = Some entry' ∧
    length entry' = length entry ∧
    (∀ k, 0 ≤ k → at_ entry' k
       = stamped (date_word y mo d) (time_word h mi s) created modified (at_ entry) k) ∧
    ∀ y' mo' d' h' mi' s', valid_time y' mo' d' h' mi' s' → answer = Some (iso y' mo' d' h' mi' s') →
      date_word y mo d = date_word y' mo' d' ∧ time_word h mi s = time_word h' mi' s'.
Proof.
  intros Hans Hl. destruct (fat_date_time_ok answer Hans) as (y & mo & d & h & mi & s & Hv & E).
  destruct (write_timestamps_ok answer entry created modified Hans Hl)
    as (date & time & entry' & E' & Hw & Hle & _ & Hat).
  rewrite E in E'. injection E' as <- <-. exists y, mo, d, h, mi, s, entry'.
  split; [done|]. split; [done|]. split; [done|]. split; [done|].
  intros y' mo' d' h' mi' s' Hv' ->. rewrite (fat_date_time_iso y' mo' d' h' mi' s' Hv') in E.
  by injection E.
Qed.

Lemma write_timestamps_correct_witness :
  valid_time 2024 5 6 7 8 9 ∧
  ∃ y mo d h mi s entry', valid_time y mo d h mi s ∧
    write_timestamps (Some (iso 2024 5 6 7 8 9)) (replicate 32 0) true true = Some entry' ∧
    date_word y mo d = date_word 2024 5 6.
Proof.
  assert (Hv : valid_time 2024 5 6 7 8 9) by (unfold valid_time; lia). split; [exact Hv|].
  destruct (write_timestamps_correct (Some (iso 2024 5 6 7 8 9)) (replicate 32 0) true true)
    as (y & mo & d & h & mi & s & entry' & H1 & H2 & _ & _ & H3).
  - intros s [= <-]. reflexivity.
  - vm_compute. discriminate.
  - exists y, mo, d, h, mi, s, entry'. split; [exact H1|]. split; [exact H2|].
    apply (H3 2024 5 6 7 8 9 Hv eq_refl).
Defined.

Lemma fat_seek_correct_witness :
  let e := set_opened zero_fd true in
  let v := Volume tt (blank fat12_geometry) [e; zero_fd] [] 0 false in
  is_open v 0 e ∧
  ∃ v' r, fat_seek (λ _, true) 0 100 1 v = Some (v', r) ∧ r = 0 ∧
    v' = with_fd v 0 (set_eof (set_offset e 100) 0).
Proof.
  intros e v.
  assert (Ho : is_open v 0 e).
  { repeat (split; [reflexivity|]). split; [split; [reflexivity|]|split; [discriminate|reflexivity]|by left].
    apply bytes_zeros. }
  split; [exact Ho|].
  destruct (fat_seek_correct (λ _, true) v 0 e 100 1 Ho) as (v' & r & H1 & H2); [lia|].
  exists v', r. split; [exact H1|].
  destruct (decide _) as [_|Hn]; [|destruct Hn; cbn; lia].
  destruct H2 as (H2 & H3 & _). split; [exact H2|exact H3].
Defined.
