(* ===== verification/FatDir.v ===== *)
(** Directories of a FAT volume: the records, the search for a record or for a
    free place, and the walk along a path with the creation of what is missing
    ([write_record_buffer], [iterate_fixed_root_dir], [iterate_dir],
    [fill_record_buffer] and [read_fixed_root_dir] of common/fat.c). *)

From S2P Require Import Prelude FatBpb FatTable FatName FatVolume.
#[local] Open Scope volume_scope.

(** ** Records *)

(** cluster = (LE16(&record[20]) << 16) | LE16(&record[26]) *)
Definition record_cluster (record : list Z) : option Z :=
  hi ← LE16 record 20;
  lo ← LE16 record 26;
  Some (Z.lor (Z.shiftl hi 16) lo).

Definition set_record_cluster (record : list Z) (cluster : Z) : option (list Z) :=
  record ← W_LE16 record 20 (Z.shiftr cluster 16);
  W_LE16 record 26 (Z.land cluster 0xFFFF).

(** ** The search in a buffer *)

(** The comparison of the 11 bytes of a name, from [k]. *)
Fixpoint same_name (n : nat) (name1 buf : list Z) (j k : Z) : option bool :=
  match n with
  | O => Some true
  | S n =>
      c1 ← name1.[k];
      c2 ← buf.[j + k];
      if c1 =? c2 then same_name n name1 buf j (k + 1) else Some false
  end.

Inductive scan := Found (j : Z) | Stop | Exhausted.

(** One turn of the loops over the records of a buffer: [None] as the name is
    [find_empty]. *)
Definition scan_turn (name : option (list Z)) (buf : list Z) (limit j : Z) : option (ctl Z scan) :=
  if j <? limit then
    b0 ← buf.[j];
    hit ←
      match name with
      | None => Some ((b0 =? 0) || (b0 =? 0xE5))
      | Some name1 =>
          same ← same_name 11 name1 buf j 0;
          attr ← buf.[j + 11];
          Some ((same : bool) && (Z.land attr 0x08 =? 0))
      end;
    if (hit : bool) then Some (Done (Found j))
    else if b0 =? 0 then Some (Done Stop)
    else Some (Next (j + 32))
  else Some (Done Exhausted).

Definition scan_records (name : option (list Z)) (buf : list Z) (limit : Z) : option scan :=
  while (S (Z.to_nat limit)) (scan_turn name buf limit) 0.

Section Directories.
Context {D : Type} `{BlockDevice D} (g : geometry) (get_time : D → option (list Z)).

(** ** Accesses of the instance *)

Definition read_block' (lba : Z) : M D bool := lift (λ d f, read_block g d f lba).
Definition write_block' (lba : Z) : M D bool := lift (λ d f, write_block g d f lba).
Definition read_cluster' (cluster : Z) (skip_io : bool) : M D Z :=
  lift (λ d f, read_cluster g d f cluster skip_io).
Definition write_cluster' : M D Z := lift (write_cluster g).
Definition get_table_value' (off : Z) : M D Z := lift (λ d f, get_table_value g d f off).
Definition set_table_value' (off val : Z) : M D Z := lift (λ d f, set_table_value g d f off val).
Definition write_table' : M D Z := lift (write_table g).
Definition allocate_cluster' : M D (Z * Z) :=
  lift (λ d f, '(d, f, r, c) ← allocate_cluster g d f; Some (d, f, (r, c))).
Definition append_cluster' (cluster : Z) (fast : bool) : M D Z :=
  lift (λ d f, append_cluster g d f cluster fast).
Definition delete_clusters' (cluster : Z) : M D unit :=
  lift (λ d f, '(d, f) ← delete_clusters g d f cluster; Some (d, f, tt)).

Definition get_block_buffer : M D (list Z) := get (λ v, block_buffer (inst v)).
Definition get_cluster_buffer : M D (list Z) := get (λ v, cluster_buffer (inst v)).

(** Stores into the buffers; the fields that say what they hold stay. *)
Definition set_block_buffer (buf : list Z) : M D unit :=
  modify (λ v, set_device v (dev v) (set_block (inst v) buf (block_buffer_lba (inst v)))).
Definition set_cluster_buffer (buf : list Z) : M D unit :=
  modify (λ v, set_device v (dev v)
    (set_cluster (inst v) buf (cluster_buffer_lba (inst v)) (cluster_sector (inst v)))).

(** [write_timestamps] on a record, with the answer of [fat_get_time]. *)
Definition stamp (entry : list Z) (created modified : bool) : M D (list Z) :=
  let* answer := get (λ v, get_time (dev v)) in
  access (write_timestamps answer entry created modified).

Definition fill_path (name : list Z) : M D Z :=
  let* path := get path_buffer in
  let* '(path, entries, r) := access (fill_path_buffer path name) in
  do* modify (λ v, set_path v path entries) in
  ret r.

Definition get_path (i : Z) : M D fat_name :=
  let* path := get path_buffer in
  access (path.[i]).

Definition put_record (fd : Z) (record : list Z) : M D unit :=
  update_fd fd (λ e, set_record e record).

(** ** The record of a descriptor *)

Definition write_record_buffer (fd : Z) : M D Z :=
  let* e := get_fd fd in
  if record_offset e >? fs_bytes_per_sector g then ret FAT_INCONSISTENT_STATE
  else if record_sector e <=? fs_last_table_sector g then ret FAT_INCONSISTENT_STATE
  else
    let lba := record_sector e * io_mul g in
    let* r := read_block' lba in
    if r then ret FAT_BLOCK_READ_ERROR
    else
      let* buf := get_block_buffer in
      let* buf := access (splice buf (record_offset e) (record e)) in
      do* set_block_buffer buf in
      let* w := write_block' lba in
      ret (if w then FAT_BLOCK_WRITE_ERROR else 0).

(** memcpy(record, &buf[j], 32) and the place of the record *)
Definition take_record (fd : Z) (buf : list Z) (j off sector : Z) : M D unit :=
  let* data := access (slice buf j 32) in
  update_fd fd (λ e, set_place (set_record e data) off sector).

(** ** The search in a directory *)

Definition root_sector : Z :=
  u32 (fs_reserved_sectors g + u32 (fs_tables g * fs_table_sectors g)).

(** One sector of the root directory: i and sector. *)
Definition fixed_turn (fd : Z) (name : option (list Z)) (x : Z * Z) : M D (ctl (Z * Z) Z) :=
  let '(i, sector) := x in
  if i <? fs_directory_sectors g then
    let* r := read_block' (sector * io_mul g) in
    if r then ret (Done FAT_BLOCK_READ_ERROR)
    else
      let* buf := get_block_buffer in
      let* s := access (scan_records name buf (fs_bytes_per_sector g)) in
      match s with
      | Found j => do* take_record fd buf j j sector in ret (Done 0)
      | Stop => ret (Done (-1))
      | Exhausted => ret (Next (i + 1, u32 (sector + 1)))
      end
  else ret (Done (-1)).

Definition iterate_fixed_root_dir (fd : Z) (find_empty : bool) : M D Z :=
  let* path := get_path 0 in
  do* update_fd fd (λ e, set_place e 0 0) in
  loop (S (Z.to_nat (fs_directory_sectors g)))
    (fixed_turn fd (if find_empty then None else Some (name path))) (0, root_sector).

(** One cluster of a directory: the cluster and iterate_limit.  The answer of the
    loop is the answer of the function, or the last cluster and the limit. *)
Definition dir_turn (fd : Z) (name : option (list Z)) (x : Z * Z) : M D (ctl (Z * Z) (Z + Z * Z)) :=
  let '(cluster, iterate_limit) := x in
  if iterate_limit =? 0 then ret (Done (inr (cluster, iterate_limit)))
  else
    let* r := read_cluster' cluster false in
    if negb (r =? 0) then ret (Done (inl r))
    else
      let* buf := get_cluster_buffer in
      let* s := access (scan_records name buf (cluster_size g)) in
      match s with
      | Found j =>
          let* sector := get (λ v, cluster_sector (inst v)) in
          do* take_record fd buf j (j mod fs_bytes_per_sector g)
                (u32 (j / fs_bytes_per_sector g + sector)) in
          ret (Done (inl 0))
      | Stop => ret (Done (inl (-1)))
      | Exhausted =>
          let* next_cluster := get_table_value' cluster in
          if (next_cluster <? 2) || (next_cluster >=? 0x0FFFFFF8)
          then ret (Done (inr (cluster, iterate_limit)))
          else ret (Next (next_cluster, iterate_limit - 1))
      end.

(** A negative [path_i] is [find_empty]. *)
Definition iterate_dir (fd path_i cluster : Z) : M D Z :=
  let find_empty := path_i <? 0 in
  let* nm := (if find_empty then ret None else let* p := get_path path_i in ret (Some (name p))) in
  let iterate_limit := 65536 * 32 / cluster_size g in
  let* x := loop (S (Z.to_nat iterate_limit)) (dir_turn fd nm) (cluster, iterate_limit) in
  match x with
  | inl r => ret r
  | inr (cluster, iterate_limit) =>
      do* (if find_empty && negb (iterate_limit =? 0)
           then let* _ := append_cluster' cluster false in ret tt
           else ret tt) in
      ret (-1)
  end.

(** ** The walk along a path *)

(** The test whether another descriptor has the record. *)
Fixpoint open_elsewhere (l : list fat_fd) (j fd off sec : Z) : bool :=
  match l with
  | [] => false
  | e :: l =>
      (negb (j =? fd) && opened e && (record_offset e =? off) && (record_sector e =? sec))
      || open_elsewhere l (j + 1) fd off sec
  end.

(** The first two records of a new directory, after memset. *)
Definition dot_records (answer : option (list Z)) (dir : list Z) (new_cluster parent : Z)
  : option (list Z) :=
  dir ← W_LE32 dir 0 0x2020202E;
  dir ← W_LE32 dir 4 0x20202020;
  dir ← W_LE32 dir 8 0x10202020;
  dir ← write_timestamps answer dir true true;
  dir ← set_record_cluster dir new_cluster;
  first ← slice dir 0 32;
  dir ← splice dir 32 first;
  dir ← W_LE16 dir 32 0x2E2E;
  dir ← W_LE16 dir 52 (Z.shiftr parent 16);
  W_LE16 dir 58 (Z.land parent 0xFFFF).

(** The cluster of a new directory: the error code and the cluster.  The record
    of the descriptor becomes a copy of the "." record. *)
Definition new_directory (fd i cluster : Z) : M D (Z * Z) :=
  let* '(r, new_cluster) := allocate_cluster' in
  if negb (r =? 0) then ret (FAT_NOT_ENOUGH_SPACE, 0)
  else
    let* r :=
      (try* read_cluster' new_cluster true in
       do* modify (λ v, set_device v (dev v) (clear_cluster (inst v))) in
       let* dir := get_cluster_buffer in
       let* answer := get (λ v, get_time (dev v)) in
       let* dir := access (dot_records answer dir new_cluster (if i =? 0 then 0 else cluster)) in
       do* set_cluster_buffer dir in
       try* write_cluster' in
       try* set_table_value' new_cluster 0x0FFFFFFF in
       try* write_table' in
       let* dir := get_cluster_buffer in
       let* first := access (slice dir 0 32) in
       do* put_record fd first in
       ret 0) in
    ret (r, new_cluster).

(** "if (create_record)" *)
Definition create_record (fd i cluster : Z) : M D Z :=
  do* update_fd fd (λ e, set_mode e (Z.lor (mode e) 0x80000000)) in
  let* p := get_path i in
  let* '(r, new_cluster) :=
    (if is_dir p then new_directory fd i cluster
     else
       let* record := get_record fd in
       let* record := stamp record true true in
       let* record := access (record.[11 <- 0]) in
       do* put_record fd record in
       ret (0, 0)) in
  if negb (r =? 0) then ret r
  else
    let* record := get_record fd in
    let* record := access (record.[12 <- 0]) in
    let* name11 := access (slice (name p) 0 11) in
    let* record := access (splice record 0 name11) in
    let* record := access (set_record_cluster record new_cluster) in
    let* record := access (W_LE32 record 28 0) in
    do* put_record fd record in
    write_record_buffer fd.

(** The search for component [i]: the answer r and create_record; [None] is
    "return FAT_FILE_NOT_FOUND". *)
Definition find_record (fd i cluster : Z) (mode_create : bool) : M D (option (Z * bool)) :=
  if (i =? 0) && negb (bool_decide (type g = type_32)) then
    let* r := iterate_fixed_root_dir fd false in
    if r =? -1 then
      if negb mode_create then ret None
      else let* r := iterate_fixed_root_dir fd true in ret (Some (r, true))
    else ret (Some (r, false))
  else
    let* r := iterate_dir fd i cluster in
    if r =? -1 then
      if negb mode_create then ret None
      else
        let* r := iterate_dir fd (-1) cluster in
        let* r := (if negb (r =? 0) then iterate_dir fd (-1) cluster else ret r) in
        ret (Some (r, true))
    else ret (Some (r, false)).

(** One component of the path: i and the cluster of the directory. *)
Definition walk_turn (fd : Z) (mode_create : bool) (x : Z * Z) : M D (ctl (Z * Z) Z) :=
  let '(i, cluster) := x in
  let* entries := get path_entries in
  if i <? entries then
    let* s := find_record fd i cluster mode_create in
    match s with
    | None => ret (Done FAT_FILE_NOT_FOUND)
    | Some (r, create) =>
        if r >? 0 then ret (Done r)
        else
          let* e := get_fd fd in
          let* l := get (λ v, take (Z.to_nat (fd_entries v)) (fds v)) in
          if (i + 1 =? entries) && open_elsewhere l 0 fd (record_offset e) (record_sector e)
          then ret (Done FAT_FILE_ALREADY_OPEN)
          else
            let* r := (if (create : bool) then create_record fd i cluster else ret 0) in
            if negb (r =? 0) then ret (Done r)
            else
              let* record := get_record fd in
              let* attr := access (record.[11]) in
              if negb (i + 1 =? entries) && (Z.land attr 0x10 =? 0)
              then ret (Done FAT_INVALID_FILE_NAME)
              else
                let* cluster := access (record_cluster record) in
                ret (Next (i + 1, cluster))
    end
  else ret (Done 0).

Definition fill_record_buffer (fd : Z) : M D Z :=
  let* e := get_fd fd in
  let* entries := get path_entries in
  loop (S (Z.to_nat entries)) (walk_turn fd (has (mode e) MODE_CREATE)) (0, fs_root_cluster g).
End Directories.
