(* ===== verification/FatFile.v ===== *)
(** Files of a FAT volume: the functions of common/fat.c that the rest of the
    system calls. [fat_create] and [fat_delete] mount and unmount a volume,
    [fat_open], [fat_read], [fat_write], [fat_control], [fat_remove] and
    [fat_rename] work on it; [delete_extra_clusters], [compute_fs_info] and
    [write_fs_info] are their helpers.

    A pointer that may be null is an option.  The answer of [fat_read] and
    [fat_write] is the error code, the final *size, and for [fat_read] the
    contents of the destination buffer. *)

From Stdlib Require String Ascii.
From S2P Require Import Prelude FatBpb FatTable FatName FatVolume FatDir.
#[local] Open Scope volume_scope.
Import String.StringSyntax.
#[local] Bind Scope string_scope with String.string.

(** ** Copies *)

(** *dst++ = byte, when the destination is not null *)
Definition put (dst : option (list Z)) (i : Z) (b : option Z) : option (option (list Z)) :=
  match dst with
  | None => Some None
  | Some l => b ← b; l ← l.[i <- b]; Some (Some l)
  end.

(** The inner loop of the reads, from [off], [n] bytes before the end of the
    source; [done] bytes are read of [limit].  The destination and the number of
    bytes. *)
Fixpoint copy_out (n : nat) (src : list Z) (off : Z) (dst : option (list Z)) (done limit : Z)
  : option (option (list Z) * Z) :=
  match n with
  | O => Some (dst, done)
  | S n =>
      dst ← put dst done (src.[off]);
      let done := done + 1 in
      if negb (done <? limit) then Some (dst, done)
      else copy_out n src (off + 1) dst done limit
  end.

(** memset(buf_ptr, 0, size) when the destination is not null *)
Definition clear_from (dst : option (list Z)) (i size : Z) : option (option (list Z)) :=
  match dst with
  | None => Some None
  | Some l => l ← splice l i (replicate (Z.to_nat size) 0); Some (Some l)
  end.

(** The zeros between the end of the file and the offset: the buffer, offset and
    seek_bytes. *)
Fixpoint fill_seek (n : nat) (buf : list Z) (off seek_bytes : Z) : option (list Z * Z * Z) :=
  match n with
  | O => Some (buf, off, seek_bytes)
  | S n =>
      buf ← buf.[off <- 0];
      let seek_bytes := seek_bytes - 1 in
      if seek_bytes =? 0 then Some (buf, off + 1, seek_bytes)
      else fill_seek n buf (off + 1) seek_bytes
  end.

(** The data of the source, or zeros: the buffer, offset and written. *)
Fixpoint copy_in (n : nat) (buf : list Z) (off : Z) (src : option (list Z)) (written size : Z)
  : option (list Z * Z * Z) :=
  match n with
  | O => Some (buf, off, written)
  | S n =>
      b ← (match src with None => Some 0 | Some s => s.[written] end);
      buf ← buf.[off <- b];
      let written := written + 1 in
      if negb (written <? size) then Some (buf, off + 1, written)
      else copy_in n buf (off + 1) src written size
  end.

(** Zeros up to the end of the buffer. *)
Fixpoint fill_rest (n : nat) (buf : list Z) (off : Z) : option (list Z) :=
  match n with
  | O => Some buf
  | S n => buf ← buf.[off <- 0]; fill_rest n buf (off + 1)
  end.

Section Files.
Context {D : Type} `{BlockDevice D} (g : geometry) (malloc : Z → bool)
  (get_time : D → option (list Z)).

(** The number of clusters of a file. *)
Definition clusters_of (file_size : Z) : Z :=
  let n := file_size / cluster_size g in
  if negb (file_size mod cluster_size g =? 0) then n + 1 else n.

(** ** Truncation *)

(** One turn of the search for the last cluster: i and the cluster; [None] is
    "return". *)
Definition extra_turn (file_size clusters : Z) (x : Z * Z) : M D (ctl (Z * Z) (option Z)) :=
  let '(i, cluster) := x in
  if i <? clusters then
    let* next := get_table_value' g cluster in
    let* go :=
      (if negb (i + 1 <? clusters) then
         let* r := set_table_value' g cluster 0x0FFFFFFF in
         if negb (r =? 0) then ret false
         else
           let used := file_size mod cluster_size g in
           if negb (used =? 0) then
             let* r := read_cluster' g cluster false in
             if r =? 0 then
               let* buf := get_cluster_buffer in
               let* buf := access (splice buf used (replicate (Z.to_nat (cluster_size g - used)) 0)) in
               do* set_cluster_buffer buf in
               do* write_cluster' g in
               ret true
             else ret true
           else ret true
       else ret true) in
    ret (if go then Next (i + 1, next) else Done None)
  else ret (Done (Some cluster)).

Definition delete_extra_clusters (fd : Z) : M D unit :=
  let* record := get_record fd in
  let* cluster := access (record_cluster record) in
  let* file_size := access (LE32 record 28) in
  do* update_fd fd (λ e, set_known e 0 0) in
  if file_size =? 0 then
    let* record := access (W_LE16 record 20 0) in
    let* record := access (W_LE16 record 26 0) in
    do* put_record fd record in
    let* r := write_record_buffer g fd in
    if negb (r =? 0) then
      let* record := get_record fd in
      let* record := access (set_record_cluster record cluster) in
      put_record fd record
    else delete_clusters' g cluster
  else
    let clusters := clusters_of file_size in
    let* r := loop (S (Z.to_nat clusters)) (extra_turn file_size clusters) (0, cluster) in
    match r with
    | None => ret tt
    | Some cluster =>
        if (cluster >=? 2) && (cluster <? 0x0FFFFFF8) then delete_clusters' g cluster
        else ret tt
    end.

(** ** The information sector of FAT32 *)

(** The loop of [compute_fs_info]: offset, total_offset, i, prev, and the two
    results; [None] is "return". *)
Definition info_turn (table_entries : Z) (x : Z * Z * Z * Z * Z * Z)
  : M D (ctl (Z * Z * Z * Z * Z * Z) (option (Z * Z))) :=
  let '(offset, total_offset, i, prev, free, next) := x in
  if i <? table_entries then
    let* table := get (λ v, table_buffer (inst v)) in
    let* val := access (LE32 table offset) in
    let val := Z.land val 0x0FFFFFFF in
    let free' := if val =? 0 then u32 (free + 1) else free in
    let next :=
      if (val =? 0) && (prev >=? 2) && ((prev <=? 0x0FFFFFEF) || (prev >=? 0x0FFFFFF8))
      then u32 (i + 2 - 1) else next in
    let offset := offset + 4 in
    let total_offset := u32 (total_offset + 4) in
    if offset >=? table_buffer_size then
      let* '(r, offset) := lift (λ d f, '(d, f, r, o) ← read_table_buffer g d f total_offset;
                                        Some (d, f, (r, o))) in
      if negb (r =? 0) then ret (Done None)
      else ret (Next (offset, total_offset, i + 1, val, free', next))
    else ret (Next (offset, total_offset, i + 1, val, free', next))
  else ret (Done (Some (free, next))).

Definition set_fs_info (free next : Z) : M D unit :=
  modify (λ v, set_device v (dev v) (set_info (inst v) free next)).

Definition compute_fs_info : M D unit :=
  let entries := u32 (fs_clusters g + 2) in
  let* '(r, offset) := lift (λ d f, '(d, f, r, o) ← read_table_buffer g d f 0;
                                    Some (d, f, (r, o))) in
  if negb (r =? 0) then ret tt
  else
    let* x := loop (S (Z.to_nat entries)) (info_turn entries) (offset, 0, 0, 0, 0, 0xFFFFFFFF) in
    match x with
    | None => ret tt
    | Some (free, next) => set_fs_info free next
    end.

(** The loop of [write_fs_info] that moves the hint. *)
Definition hint_turn (val_next : Z) : M D (ctl Z Z) :=
  if (val_next >? 2) && (val_next <? u32 (fs_clusters g + 2)) then
    let* val := get_table_value' g val_next in
    if (val >=? 2) && (val <=? 0x0FFFFFEF) then ret (Done val_next)
    else ret (Next (val_next - 1))
  else ret (Done val_next).

Definition write_fs_info : M D unit :=
  let lba := fs_info_sector g * io_mul g in
  let* val_free := get (λ v, fs_info_free (inst v)) in
  let* val_next := get (λ v, fs_info_next (inst v)) in
  do* set_fs_info 0xFFFFFFFF 0xFFFFFFFF in
  let* r := read_block' g lba in
  if r then ret tt
  else
    let* buf := get_block_buffer in
    let* s0 := access (LE32 buf 0) in
    if negb (s0 =? 0x41615252) then ret tt
    else
      let* s1 := access (LE32 buf 484) in
      if negb (s1 =? 0x61417272) then ret tt
      else
        let* s2 := access (LE32 buf 508) in
        if negb (s2 =? 0xAA550000) then ret tt
        else
          let* old_free := access (LE32 buf 488) in
          let* old_next := access (LE32 buf 492) in
          do* (if negb (old_free =? 0) && (old_free <=? fs_clusters g) && (old_next >=? 2)
                  && (old_next <? u32 (fs_clusters g + 2))
               then set_fs_info old_free old_next else ret tt) in
          let* val_next := loop (S (Z.to_nat (fs_clusters g + 2))) hint_turn val_next in
          let* buf := get_block_buffer in
          let* buf := access (W_LE32 buf 488 val_free) in
          let* buf := access (W_LE32 buf 492 val_next) in
          do* set_block_buffer buf in
          do* write_block' g lba in
          ret tt.

(** ** Opening *)

(** name[0] != '/' || name[1] != '.' || name[2] != '\0' *)
Definition not_root_name (name : list Z) : option bool :=
  c0 ← name.[0];
  if negb (c0 =? slash) then Some true
  else
    c1 ← name.[1];
    if negb (c1 =? dot) then Some true
    else c2 ← name.[2]; Some (negb (c2 =? 0)).

(** "Delete the existing file data" *)
Definition truncate_file (fd : Z) : M D Z :=
  let* record := get_record fd in
  let* attr := access (record.[11]) in
  let* record := access (record.[11 <- Z.lor attr 0x20]) in
  let* cluster := access (record_cluster record) in
  let* record := access (W_LE16 record 20 0) in
  let* record := access (W_LE16 record 26 0) in
  let* record := access (W_LE32 record 28 0) in
  let* record := stamp get_time record false true in
  do* put_record fd record in
  let* r := write_record_buffer g fd in
  if negb (r =? 0) then ret FAT_BLOCK_WRITE_ERROR
  else
    do* (if negb (cluster =? 0) then delete_clusters' g cluster else ret tt) in
    ret 0.

(** "Truncate the data and write the fs info if needed" *)
Definition open_modify (fd : Z) : M D Z :=
  let* e := get_fd fd in
  if has (mode e) MODE_MODIFY then
    let* attr := access ((record e).[11]) in
    if negb (Z.land attr 0x05 =? 0) then ret FAT_READ_ONLY_FILE
    else
      let truncate_data :=
        has (mode e) MODE_WRITE && (Z.land attr 0x10 =? 0) && negb (has (mode e) 0x80000000) in
      if truncate_data then truncate_file fd else ret 0
  else ret 0.

Definition fat_open (fd : Z) (name mode_string : option (list Z)) : M D Z :=
  let* ready := is_ready in
  if negb ready then ret FAT_NOT_READY
  else
    let* c := check_fd malloc fd false in
    match c, mode_string with
    | true, _ | _, None => ret FAT_INVALID_PARAMETERS
    | false, Some mode_string =>
      do* init_fat_fd fd in
      match name with
      | None => ret FAT_INVALID_FILE_NAME
      | Some name =>
        let* c0 := access (name.[0]) in
        if c0 =? 0 then ret FAT_INVALID_FILE_NAME
        else
          let* bad := parse_mode fd mode_string in
          if bad then ret FAT_INVALID_PARAMETERS
          else
            let* r := fill_path name in
            let* refused :=
              (if negb (r =? 0) then
                 let* other := access (not_root_name name) in
                 if other then ret true
                 else do* update_fd fd (λ e, set_mode e MODE_ROOT_DIR) in ret false
               else ret false) in
            if refused then ret FAT_INVALID_FILE_NAME
            else
              let* e := get_fd fd in
              let* modified := get fs_info_modified in
              do* (if has (mode e) MODE_MODIFY && bool_decide (type g = type_32) && negb modified
                   then do* write_fs_info in modify (λ v, set_modified v true)
                   else ret tt) in
              try* (if has (mode e) MODE_ROOT_DIR then ret 0
                    else fill_record_buffer g get_time fd) in
              try* open_modify fd in
              do* update_fd fd (λ e, set_opened e true) in
              ret 0
      end
    end.

(** ** Reading *)

(** One sector of the root directory: sector, offset, read_bytes, the buffer. *)
Definition root_turn (limit : Z) (x : Z * Z * Z * option (list Z))
  : M D (ctl (Z * Z * Z * option (list Z)) (Z * Z * option (list Z))) :=
  let '(sector, offset, read_bytes, buf) := x in
  if read_bytes <? limit then
    if sector <? fs_last_table_sector g then ret (Done (FAT_INCONSISTENT_STATE, read_bytes, buf))
    else
      let* r := read_block' g (sector * io_mul g) in
      if r then ret (Done (FAT_BLOCK_READ_ERROR, read_bytes, buf))
      else
        let* src := get_block_buffer in
        let* '(buf, read_bytes) :=
          access (copy_out (Z.to_nat (fs_bytes_per_sector g - offset)) src offset buf read_bytes limit) in
        ret (Next (u32 (sector + 1), 0, read_bytes, buf))
  else ret (Done (0, read_bytes, buf)).

Definition read_fixed_root_dir (fd requested_size : Z) (buf : option (list Z))
  : M D (Z * Z * option (list Z)) :=
  let dir_size := u32 (fs_directory_entries g * 32) in
  let* e := get_fd fd in
  let off := offset e in
  if off >=? dir_size then
    let* buf := access (clear_from buf 0 requested_size) in
    do* update_fd fd (λ e, set_eof e 1) in
    ret (0, 0, buf)
  else
    let limit := if requested_size >? dir_size - off then dir_size - off else requested_size in
    let sector := u32 (root_sector g + off / fs_bytes_per_sector g) in
    let* '(r, read_bytes, buf) :=
      loop (S (Z.to_nat limit)) (root_turn limit) (sector, off mod fs_bytes_per_sector g, 0, buf) in
    let* buf := access (if read_bytes <? requested_size
                        then clear_from buf read_bytes (requested_size - read_bytes) else Some buf) in
    do* update_fd fd (λ e, set_offset e (u32 (offset e + read_bytes))) in
    let* e := get_fd fd in
    do* (if offset e >=? dir_size then update_fd fd (λ e, set_eof e 1) else ret tt) in
    ret (r, read_bytes, buf).

(** "Find the first cluster to be read": i and the cluster; the answer is r and
    the cluster. *)
Definition seek_turn (dir : bool) (file_clusters read_index : Z) (x : Z * Z)
  : M D (ctl (Z * Z) (Z * Z)) :=
  let '(i, cluster) := x in
  if i <? file_clusters then
    if i =? read_index then ret (Done (0, cluster))
    else
      let* cluster := get_table_value' g cluster in
      if dir && (cluster >=? 0x0FFFFFF8) then ret (Done (0, cluster))
      else if (cluster <? 2) || (cluster >=? 0x0FFFFFF8) then ret (Done (FAT_INCONSISTENT_STATE, cluster))
      else ret (Next (i + 1, cluster))
  else ret (Done (FAT_INCONSISTENT_STATE, cluster)).

(** One cluster of the data: cluster, offset, read_bytes, the buffer; the answer
    is r, cluster, read_bytes, the buffer. *)
Definition read_turn (fd limit : Z) (x : Z * Z * Z * option (list Z))
  : M D (ctl (Z * Z * Z * option (list Z)) (Z * Z * Z * option (list Z))) :=
  let '(cluster, off, read_bytes, buf) := x in
  if read_bytes <? limit then
    let* r := read_cluster' g cluster false in
    if negb (r =? 0) then ret (Done (r, cluster, read_bytes, buf))
    else
      do* update_fd fd (λ e, set_known e (u32 (offset e + read_bytes) / cluster_size g) cluster) in
      let* src := get_cluster_buffer in
      let* '(buf, read_bytes) :=
        access (copy_out (Z.to_nat (cluster_size g - off)) src off buf read_bytes limit) in
      let* cluster := get_table_value' g cluster in
      if cluster >=? 0x0FFFFFF8 then ret (Done (0, cluster, read_bytes, buf))
      else ret (Next (cluster, 0, read_bytes, buf))
  else ret (Done (0, cluster, read_bytes, buf)).

(** The first cluster, the size and whether it is a directory. *)
Definition read_source (e : fat_fd) : option (Z * Z * bool) :=
  if has (mode e) MODE_ROOT_DIR then Some (fs_root_cluster g, 2097152, true)
  else
    cluster ← record_cluster (record e);
    file_size ← LE32 (record e) 28;
    attr ← (record e).[11];
    Some (if negb (Z.land attr 0x10 =? 0) then (cluster, 2097152, true)
          else (cluster, file_size, false)).

(** The part of [fat_read] after the first cluster is known. *)
Definition read_data (fd requested_size cluster file_size : Z) (dir : bool) (buf : option (list Z))
  : M D (Z * Z * option (list Z)) :=
  let* e := get_fd fd in
  let file_offset := offset e in
  let limit := file_size - file_offset in
  let limit := if limit >? requested_size then requested_size else limit in
  let limit := if dir && (cluster >=? 0x0FFFFFF8) then 0 else limit in
  let* '(r, cluster, read_bytes, buf) :=
    loop (S (Z.to_nat limit)) (read_turn fd limit)
      (cluster, file_offset mod cluster_size g, 0, buf) in
  do* (if dir then
         do* (if (cluster >=? 0x0FFFFFF8) && (u32 (file_offset + read_bytes) mod cluster_size g =? 0)
              then update_fd fd (λ e, set_eof e 1) else ret tt) in
         if (r =? 0) && (read_bytes =? 0) then update_fd fd (λ e, set_eof e 1) else ret tt
       else ret tt) in
  let* buf := access (if read_bytes <? requested_size
                      then clear_from buf read_bytes (requested_size - read_bytes) else Some buf) in
  do* update_fd fd (λ e, set_offset e (u32 (offset e + read_bytes))) in
  let* e := get_fd fd in
  do* (if offset e >=? file_size then update_fd fd (λ e, set_eof e 1) else ret tt) in
  ret (r, read_bytes, buf).

Definition fat_read (fd : Z) (size : option Z) (buf : option (list Z))
  : M D (Z * Z * option (list Z)) :=
  let requested_size := default 0 size in
  let* ready := is_ready in
  if negb ready then
    let* buf := access (clear_from buf 0 requested_size) in
    ret (FAT_NOT_READY, 0, buf)
  else
    let* c := check_fd malloc fd true in
    if c then
      let* buf := access (clear_from buf 0 requested_size) in
      ret (FAT_INVALID_PARAMETERS, 0, buf)
    else if requested_size =? 0 then ret (0, 0, buf)
    else
      let* e := get_fd fd in
      if has (mode e) MODE_ROOT_DIR && negb (bool_decide (type g = type_32))
      then read_fixed_root_dir fd requested_size buf
      else
        let* '(cluster, file_size, dir) := access (read_source e) in
        if negb (eof e =? 0) || (file_size <=? offset e) then
          let* buf := access (clear_from buf 0 requested_size) in
          do* update_fd fd (λ e, set_eof e 1) in
          ret (0, 0, buf)
        else
          let file_clusters := clusters_of file_size in
          let read_index := offset e / cluster_size g in
          let known := negb (cluster_idx e =? 0) && (cluster_idx e <=? read_index) in
          let start := if known then (cluster_idx e, cluster_val e) else (0, cluster) in
          let* '(r, cluster) :=
            loop (S (Z.to_nat file_clusters)) (seek_turn dir file_clusters read_index) start in
          if negb (r =? 0) then ret (r, 0, buf)
          else read_data fd requested_size cluster file_size dir buf.

(** ** Writing *)

(** The new size of the file. *)
Definition extended_size (file_size off requested_size : Z) : Z :=
  let max := maximum_file_size in
  let n := if negb (requested_size <=? max) || negb (u32 requested_size <=? UINT_MAX - off)
              || negb (requested_size + off <=? max) then max else 0 in
  let n := if n =? 0 then u32 (u32 requested_size + off) else n in
  if file_size <? n then n else file_size.

(** "Allocate the first cluster": the error code and the cluster. *)
Definition first_cluster (fd : Z) : M D (Z * Z) :=
  let* '(r, cluster) := allocate_cluster' g in
  if negb (r =? 0) then ret (r, cluster)
  else
    let* r :=
      (try* set_table_value' g cluster 0x0FFFFFFF in
       try* write_table' g in
       let* record := get_record fd in
       let* record := access (set_record_cluster record cluster) in
       do* put_record fd record in
       let* r := write_record_buffer g fd in
       if negb (r =? 0) then
         do* set_table_value' g cluster 0 in
         do* write_table' g in
         let* record := get_record fd in
         let* record := access (W_LE16 record 20 0) in
         let* record := access (W_LE16 record 26 0) in
         do* put_record fd record in
         ret r
       else ret 0) in
    ret (r, cluster).

(** One step along the chain: i, cluster, offset_cluster; the answer is r and
    offset_cluster. *)
Definition chain_turn (iterate_limit write_index file_clusters : Z) (same_size : bool)
  (x : Z * Z * Z) : M D (ctl (Z * Z * Z) (Z * Z)) :=
  let '(i, cluster, offset_cluster) := x in
  if i <? iterate_limit then
    let here := i =? write_index in
    let offset_cluster := if here then cluster else offset_cluster in
    if here && same_size then ret (Done (0, offset_cluster))
    else
      let* next := get_table_value' g cluster in
      if next >=? 0x0FFFFFF8 then
        if i + 1 >=? file_clusters then ret (Done (0, offset_cluster))
        else
          let* r := append_cluster' g cluster true in
          if negb (r =? 0) then ret (Done (r, offset_cluster))
          else
            let* next := get_table_value' g cluster in
            if next <? 2 then ret (Done (FAT_INCONSISTENT_STATE, offset_cluster))
            else ret (Next (i + 1, next, offset_cluster))
      else if next <? 2 then ret (Done (FAT_INCONSISTENT_STATE, offset_cluster))
      else ret (Next (i + 1, next, offset_cluster))
  else ret (Done (0, offset_cluster)).

(** The contents of a cluster in one turn of the write loop: the buffer,
    seek_bytes and written. *)
Definition fill_cluster (cluster_buf : list Z) (off seek_bytes : Z) (src : option (list Z))
    (written size fd_offset original_size : Z) : option (list Z * Z * Z) :=
  '(b, off, seek_bytes) ←
    (if negb (seek_bytes =? 0)
     then fill_seek (Z.to_nat (cluster_size g - off)) cluster_buf off seek_bytes
     else Some (cluster_buf, off, seek_bytes));
  '(b, off, written) ← copy_in (Z.to_nat (cluster_size g - off)) b off src written size;
  b ← (if u32 (fd_offset + written) >=? original_size
       then fill_rest (Z.to_nat (cluster_size g - off)) b off else Some b);
  Some (b, seek_bytes, written).

(** One cluster of the data: offset_cluster, offset, seek_bytes, written and
    written_bytes; the answer is written_bytes. *)
Definition write_turn (fd end_ requested_size original_size : Z) (src : option (list Z))
  (x : Z * Z * Z * Z * Z) : M D (ctl (Z * Z * Z * Z * Z) Z) :=
  let '(offset_cluster, off, seek_bytes, written, written_bytes) := x in
  if written <? end_ then
    let* e := get_fd fd in
    let skip_io := (u32 (offset e + written) >=? original_size) && (off =? 0) in
    let* r := read_cluster' g offset_cluster skip_io in
    if negb (r =? 0) then ret (Done written_bytes)
    else
      do* update_fd fd (λ e, set_known e (u32 (offset e + written_bytes) / cluster_size g)
                               offset_cluster) in
      let* buf := get_cluster_buffer in
      let* '(buf, seek_bytes, written) :=
        access (fill_cluster buf off seek_bytes src written requested_size (offset e) original_size) in
      do* set_cluster_buffer buf in
      let* r := write_cluster' g in
      if negb (r =? 0) then ret (Done written_bytes)
      else
        let* next := get_table_value' g offset_cluster in
        if next >=? 0x0FFFFFF8 then ret (Done written)
        else ret (Next (next, 0, seek_bytes, written, written))
  else ret (Done written_bytes).

(** The end of [fat_write]: the record, the surplus clusters, the offset. *)
Definition write_finish (fd requested_size original_file_size written_bytes : Z) : M D (Z * Z) :=
  let* e := get_fd fd in
  do* (if negb (written_bytes =? 0) then
         let end_ := u32 (offset e + written_bytes) in
         let file_size := if original_file_size <? end_ then end_ else original_file_size in
         let* attr := access ((record e).[11]) in
         let* record := access ((record e).[11 <- Z.lor attr 0x20]) in
         let* record := access (W_LE32 record 28 file_size) in
         put_record fd record
       else ret tt) in
  let* record := get_record fd in
  let* record := stamp get_time record false true in
  do* put_record fd record in
  let* r := write_record_buffer g fd in
  let* written_bytes :=
    (if negb (r =? 0) then
       let new_off := u32 (offset e + written_bytes) in
       let* record := get_record fd in
       let* record := access (W_LE32 record 28 original_file_size) in
       do* put_record fd record in
       ret (if offset e >=? original_file_size then 0
            else if original_file_size <? new_off then original_file_size - offset e
            else written_bytes)
     else ret written_bytes) in
  let* r :=
    (if negb (written_bytes =? requested_size) then
       do* delete_extra_clusters fd in
       ret (if r =? 0 then FAT_NOT_ENOUGH_SPACE else r)
     else ret r) in
  do* update_fd fd (λ e, set_offset e (u32 (offset e + written_bytes))) in
  let* e := get_fd fd in
  do* (if negb (written_bytes =? 0) && (offset e >=? maximum_file_size)
       then update_fd fd (λ e, set_eof e 1) else ret tt) in
  ret (r, written_bytes).

(** The clusters of the file: r and offset_cluster; inside [inl] is a "return". *)
Definition write_chain (fd requested_size record_cluster seek_bytes file_size original_file_size : Z)
  : M D (Z + Z) :=
  if negb (requested_size =? 0) then
    let* e := get_fd fd in
    let iterate_limit := u32 (fs_clusters g + 2) in
    let write_index := (offset e - seek_bytes) / cluster_size g in
    let known := negb (cluster_idx e =? 0) && (cluster_idx e <=? write_index) in
    let start := if known then (cluster_idx e, cluster_val e, 0) else (0, record_cluster, 0) in
    let* '(r, offset_cluster) :=
      loop (S (Z.to_nat iterate_limit))
        (chain_turn iterate_limit write_index (clusters_of file_size)
           (file_size =? original_file_size)) start in
    let* w := write_table' g in
    if negb (w =? 0) then ret (inl FAT_BLOCK_WRITE_ERROR)
    else if (r >? 0) && negb (r =? FAT_NOT_ENOUGH_SPACE) then
      do* delete_extra_clusters fd in
      ret (inl r)
    else ret (inr offset_cluster)
  else ret (inr 0).

Definition fat_write (fd : Z) (size : option Z) (buf : option (list Z)) : M D (Z * Z) :=
  let requested_size := default 0 size in
  let* ready := is_ready in
  if negb ready then ret (FAT_NOT_READY, 0)
  else
    let* c := check_fd malloc fd true in
    if c then ret (FAT_INVALID_PARAMETERS, 0)
    else
      let* e := get_fd fd in
      let* attr := access ((record e).[11]) in
      if negb (Z.land attr 0x10 =? 0) then ret (FAT_READ_ONLY_RECORD, 0)
      else if negb (has (mode e) MODE_MODIFY) then ret (FAT_READ_ONLY_FILE, 0)
      else
        let* cluster := access (record_cluster (record e)) in
        let* original_file_size := access (LE32 (record e) 28) in
        do* (if has (mode e) MODE_APPEND
             then update_fd fd (λ e, set_offset e original_file_size) else ret tt) in
        let* e := get_fd fd in
        let seek_bytes := if offset e >? original_file_size then offset e - original_file_size else 0 in
        let file_size := extended_size original_file_size (offset e) requested_size in
        let* '(r, cluster) :=
          (if negb (requested_size =? 0) && (cluster =? 0) then first_cluster fd
           else ret (0, cluster)) in
        if negb (r =? 0) then ret (r, 0)
        else
          let* x := write_chain fd requested_size cluster seek_bytes file_size original_file_size in
          match x with
          | inl r => ret (r, 0)
          | inr offset_cluster =>
              let* written_bytes :=
                (if offset_cluster >=? 2 then
                   let* record := get_record fd in
                   let* original_size := access (LE32 record 28) in
                   let end_ := if requested_size >? maximum_file_size then maximum_file_size
                               else requested_size in
                   loop (S (Z.to_nat (end_ + seek_bytes)))
                     (write_turn fd end_ requested_size original_size buf)
                     (offset_cluster, (offset e - seek_bytes) mod cluster_size g, seek_bytes, 0, 0)
                 else ret 0) in
              write_finish fd requested_size original_file_size written_bytes
          end.

(** ** Attributes and volume information *)

(** The bytes of the volume label that can be printed. *)
Definition printable (c : Z) : Z := if (c <? 0x20) || (c >? 0x7E) then 0x20 else c.

Fixpoint count_free (n : nat) (i val : Z) : M D Z :=
  match n with
  | O => ret val
  | S n =>
      let* x := get_table_value' g i in
      count_free n (i + 1) (if x =? 0 then u32 (val + 1) else val)
  end.

(** fd = -1 and write = 0: the error code and the 32 bytes. *)
Definition volume_information (record : list Z) : M D (Z * list Z) :=
  do* modify (λ v, set_device v (dev v) (set_block (inst v) (block_buffer (inst v)) 0)) in
  let* '(ok, data) := (λ v, let '(d, ok, data) := io_read (dev v) 0 (fs_bytes_per_sector g) in
                            Some (set_device v d (inst v), (ok, data))) in
  let* buf := get_block_buffer in
  let* buf := access (splice buf 0 data) in
  do* set_block_buffer buf in
  let* zeros := access (splice record 0 (replicate 32 0)) in
  if negb (ok : bool) then ret (FAT_BLOCK_READ_ERROR, zeros)
  else
    let at_label := if bool_decide (type g = type_32) then 0x47 else 0x2B in
    let at_id := if bool_decide (type g = type_32) then 0x43 else 0x27 in
    let* label := access (slice buf at_label 11) in
    let* ident := access (slice buf at_id 4) in
    let* record := access (splice record 0 (printable <$> label)) in
    let* record := access (splice record 0x0C ident) in
    let* record := access (record.[0x0B <- 0]) in
    let* record := access (W_LE32 record 0x10 (fs_bytes_per_sector g)) in
    let* record := access (W_LE32 record 0x14 (cluster_size g)) in
    let* val :=
      (if negb (bool_decide (type g = type_32))
       then count_free (Z.to_nat (u32 (fs_clusters g + 2) - 2)) 2 0
       else
         let* free := get (λ v, fs_info_free (inst v)) in
         do* (if free =? 0xFFFFFFFF then compute_fs_info else ret tt) in
         get (λ v, fs_info_free (inst v))) in
    if val >? fs_clusters g then ret (FAT_INCONSISTENT_STATE, zeros)
    else
      let* record := access (W_LE32 record 0x18 (fs_clusters g - val)) in
      let* record := access (W_LE32 record 0x1C (fs_clusters g)) in
      ret (0, record).

(** "The file size can be truncated" *)
Definition control_truncate (fd : Z) (record : list Z) : M D Z :=
  let* mine := get_record fd in
  let* attr := access (mine.[11]) in
  if Z.land attr 0x10 =? 0 then
    let* old_size := access (LE32 mine 28) in
    let* new_size := access (LE32 record 28) in
    if new_size <? old_size then
      let* mine := stamp get_time mine false true in
      let* mine := access (W_LE32 mine 28 new_size) in
      do* put_record fd mine in
      let* r := write_record_buffer g fd in
      if negb (r =? 0) then
        let* mine := get_record fd in
        let* mine := access (W_LE32 mine 28 old_size) in
        do* put_record fd mine in
        ret FAT_BLOCK_WRITE_ERROR
      else do* delete_extra_clusters fd in ret 0
    else ret 0
  else ret 0.

(** The error code and the caller's record. *)
Definition fat_control (fd : Z) (write : bool) (record : list Z) : M D (Z * list Z) :=
  let* ready := is_ready in
  if negb ready then ret (FAT_NOT_READY, record)
  else if (fd =? -1) && negb write then volume_information record
  else
    let* c := check_fd malloc fd true in
    if c then ret (FAT_INVALID_PARAMETERS, record)
    else
      let* e := get_fd fd in
      if has (mode e) MODE_ROOT_DIR then ret (FAT_INVALID_PARAMETERS, record)
      else
        let* mine := get_record fd in
        if negb write then
          let* record := access (splice record 0 mine) in
          ret (0, record)
        else
          let* a1 := access (mine.[11]) in
          let* a2 := access (record.[11]) in
          let* mine := access (mine.[11 <- Z.lor (Z.land a1 0xD8) (Z.land a2 0x27)]) in
          let* s := access (slice record 13 7) in
          let* mine := access (splice mine 13 s) in
          let* s := access (slice record 22 4) in
          let* mine := access (splice mine 22 s) in
          do* put_record fd mine in
          let* r := write_record_buffer g fd in
          if negb (r =? 0) then ret (FAT_BLOCK_WRITE_ERROR, record)
          else
            let* r := control_truncate fd record in
            ret (r, record).

(** ** Removal *)

(** The records of a directory cluster from [j]: whether all of them are free;
    [None] inside is a byte of 0, the end of the directory. *)
Definition empty_turn (buf : list Z) (j : Z) : option (ctl Z (option bool)) :=
  if j <? cluster_size g then
    c ← buf.[j];
    if c =? 0 then Some (Done None)
    else if negb (c =? 0xE5) then Some (Done (Some false))
    else Some (Next (j + 32))
  else Some (Done (Some true)).

(** One cluster of the directory: dir_cluster, iterate_limit and i; the answer is
    an error code, or the limit. *)
Definition empty_dir_turn (x : Z * Z * Z) : M D (ctl (Z * Z * Z) (Z + Z)) :=
  let '(dir_cluster, iterate_limit, i) := x in
  if iterate_limit =? 0 then ret (Done (inr iterate_limit))
  else
    let* r := read_cluster' g dir_cluster false in
    if negb (r =? 0) then ret (Done (inl r))
    else
      let* buf := get_cluster_buffer in
      let* s := access (while (S (Z.to_nat (cluster_size g))) (empty_turn buf) i) in
      match s with
      | Some false => ret (Done (inl FAT_DIRECTORY_NOT_EMPTY))
      | None => ret (Done (inr iterate_limit))
      | Some true =>
          let* dir_cluster := get_table_value' g dir_cluster in
          if (dir_cluster <? 2) || (dir_cluster >=? 0x0FFFFFF8) then ret (Done (inr iterate_limit))
          else ret (Next (dir_cluster, iterate_limit - 1, 0))
      end.

(** "Delete directories only if they are empty" *)
Definition check_empty (attr cluster : Z) : M D Z :=
  if negb (Z.land attr 0x10 =? 0) && negb (cluster =? 0) then
    let iterate_limit := 65536 * 32 / cluster_size g in
    let* x := loop (S (Z.to_nat iterate_limit)) empty_dir_turn (cluster, iterate_limit, 64) in
    ret (match x with
         | inl r => r
         | inr limit => if limit =? 0 then FAT_INCONSISTENT_STATE else 0
         end)
  else ret 0.

Definition fat_remove (name : list Z) : M D Z :=
  let* ready := is_ready in
  if negb ready then ret FAT_NOT_READY
  else
    let* fd := get fd_special in
    do* init_fat_fd fd in
    do* update_fd fd (λ e, set_mode e MODE_READ) in
    let* r := fill_path name in
    if negb (r =? 0) then ret FAT_INVALID_FILE_NAME
    else
      try* fill_record_buffer g get_time fd in
      let* record := get_record fd in
      let* cluster := access (record_cluster record) in
      let* entries := get path_entries in
      if entries =? 0 then ret FAT_INVALID_PARAMETERS
      else
        let* p := get_path (entries - 1) in
        let* attr := access (record.[11]) in
        if is_dir p && (Z.land attr 0x10 =? 0) then ret FAT_FILE_RECORD
        else if negb (is_dir p) && negb (Z.land attr 0x10 =? 0) then ret FAT_DIRECTORY_RECORD
        else if negb (Z.land attr 0x0C =? 0) then ret FAT_READ_ONLY_RECORD
        else
          try* check_empty attr cluster in
          let* record := access (splice record 0 (0xE5 :: replicate 10 0x20 ++ replicate 21 0)) in
          do* put_record fd record in
          try* write_record_buffer g fd in
          do* delete_clusters' g cluster in
          ret 0.

(** ** Renaming *)

(** "Both files must be in the same directory": components from [i] to the last
    but one. *)
Fixpoint same_directory (n : nat) (old_name new_name : list Z) (i : Z) : M D Z :=
  match n with
  | O => ret 0
  | S n =>
      let* r := (if i >? 0 then fill_path new_name else ret 0) in
      if negb (r =? 0) then ret FAT_INVALID_FILE_NAME
      else
        let* p := get_path i in
        let* buf := access (slice (name p) 0 12) in
        let* r := fill_path old_name in
        if negb (r =? 0) then ret FAT_INVALID_FILE_NAME
        else
          let* p := get_path i in
          let* c := access (fat_strncmp (name p) buf 0 11) in
          if negb (c =? 0) then ret FAT_INVALID_PARAMETERS
          else same_directory n old_name new_name (i + 1)
  end.

Definition fat_rename (old_name new_name : list Z) : M D Z :=
  let* ready := is_ready in
  if negb ready then ret FAT_NOT_READY
  else
    let* fd := get fd_special in
    do* update_fd fd (λ e, set_eof (set_mode (set_offset (set_opened e false) 0) MODE_READ) 0) in
    let* r := fill_path old_name in
    if negb (r =? 0) then ret FAT_INVALID_FILE_NAME
    else
      let* entries := get path_entries in
      if entries =? 0 then ret FAT_INVALID_PARAMETERS
      else
        let* p := get_path (entries - 1) in
        let old_is_dir := is_dir p in
        try* fill_record_buffer g get_time fd in
        let* r := fill_path new_name in
        if negb (r =? 0) then ret FAT_INVALID_FILE_NAME
        else
          let* entries' := get path_entries in
          if negb (entries =? entries') then ret FAT_INVALID_PARAMETERS
          else
            let* p := get_path (entries - 1) in
            if is_dir p && negb old_is_dir then ret FAT_INVALID_PARAMETERS
            else
              let* r := fill_record_buffer g get_time fd in
              if negb (r =? FAT_FILE_NOT_FOUND)
              then ret (if r =? 0 then FAT_INVALID_PARAMETERS else r)
              else
                let* p := get_path (entries - 1) in
                let* fat_new_name := access (slice (name p) 0 12) in
                try* same_directory (Z.to_nat (entries - 1)) old_name new_name 0 in
                let* r := fill_path old_name in
                if negb (r =? 0) then ret FAT_INVALID_FILE_NAME
                else
                  try* fill_record_buffer g get_time fd in
                  let* record := get_record fd in
                  let* record := access (splice record 0 (take 11 fat_new_name)) in
                  do* put_record fd record in
                  write_record_buffer g fd.

(** ** Unmounting *)

(** The device that [fat_delete] leaves; the memory is released. *)
Definition fat_delete (v : volume D) : option D :=
  if fs_info_modified v then
    '(v, _) ← (do* (if fs_info_free (inst v) =? 0xFFFFFFFF then compute_fs_info else ret tt) in
               write_fs_info) v;
    Some (dev v)
  else Some (dev v).
End Files.

(** ** Mounting *)

Section Mount.
Context {D : Type} `{BlockDevice D}.

(** The read of the first block: the device and the contents of the block
    buffer; [None] when it is not read or the read fails. *)
Definition read_boot (get_size : option (Z * Z)) (d : D) : option (D * option (list Z)) :=
  match get_size with
  | None => Some (d, None)
  | Some (block_size, block_total) =>
      if block_size_ok block_size block_total then
        size ← boot_size block_size;
        let '(d, ok, data) := io_read d 0 size in
        buf ← splice (replicate 4096 0) 0 data;
        Some (d, if (ok : bool) then Some buf else None)
      else Some (d, None)
  end.

(** The instance before the table is read. *)
Definition fresh (g : geometry) (block : list Z) (table_size offset : Z) : fat :=
  Fat true (replicate (Z.to_nat table_size) 0)
    (replicate (Z.to_nat (table_size / fs_bytes_per_sector g)) 0) offset 0xFFFFFFFF 0xFFFFFFFF 0
    block 0 (replicate (Z.to_nat (cluster_size g)) 0) 0 0.

(** [read_full_table], the buffers allocated: the device, the instance, and
    whether it failed. *)
Definition read_full_table (g : geometry) (d : D) (f : fat) : option (D * fat * bool) :=
  let lba := io_mul g * fs_reserved_sectors g in
  let '(d, ok, data) := io_read d lba (fs_table_size g) in
  buf ← splice (table_buffer f) 0 data;
  Some (d, set_table f buf (table_sectors f) (table_offset f), negb ok).

(** [alloc n] is the success of the n-th allocation: the instance, the
    descriptors, the block buffer, the path buffer, the cluster buffer, the table
    and its flags. The contents of the cluster buffer are not defined before its
    first use; here they are zeros. *)
Definition fat_create (alloc : nat → bool) (get_size : option (Z * Z)) (d : D)
  : option (D * option (geometry * volume D)) :=
  if negb (alloc 0%nat) || negb (alloc 1%nat) || negb (alloc 2%nat) || negb (alloc 3%nat)
  then Some (d, None)
  else
    '(d, boot) ← read_boot get_size d;
    g ← read_bios_parameter_block get_size boot (alloc 4%nat);
    match g, boot with
    | Some g, Some block =>
        let mount (d : D) (f : fat) :=
          Some (d, Some (g, Volume d f (replicate 9 zero_fd) (replicate 256 clear_name) 0 false)) in
        if negb (alloc 5%nat) || negb (alloc 6%nat) then Some (d, None)
        else if bool_decide (type g = type_32) then
          '(d, f, r, _) ← read_table_buffer g d (fresh g block table_buffer_size 0xF0000000) 0;
          if negb (r =? 0) then Some (d, None) else mount d f
        else
          '(d, f, failed) ← read_full_table g d (fresh g block (fs_table_size g) 0);
          if (failed : bool) then Some (d, None) else mount d f
    | _, _ => Some (d, None)
    end.
End Mount.

(** ** A full volume *)

(** FAT12 of 512-byte clusters with four clusters of data and 16 records in the
    root directory, freshly formatted. *)
Definition tiny_geometry : geometry := Geometry 512 1 1 1 1 16 1 7 1 512 4 4 type_12 0 0 1 512.
Definition tiny_volume : volume memory :=
  Volume zeros (blank tiny_geometry) (replicate 9 zero_fd) (replicate 256 clear_name) 0 false.

Definition c_string (s : String.string) : list Z :=
  ((λ a, Z.of_nat (Ascii.nat_of_ascii a)) <$> String.list_ascii_of_string s) ++ [0].
Definition clock (d : memory) : option (list Z) := Some (take 19 (c_string "2024-05-06T07:08:09")).

(** The file is opened with descriptor 0 and closed: the answer of [fat_open]. *)
Definition touch (name mode_string : String.string) : M memory Z :=
  let* r := fat_open tiny_geometry (λ _, true) clock 0 (Some (c_string name))
              (Some (c_string mode_string)) in
  do* fat_close (λ _, true) 0 in
  ret r.

(** A directory D, a file X of three clusters, and files in D until its only
    cluster is full: then no cluster and no record of D is free. *)
Definition fill_volume : M memory (list Z * Z) :=
  let* r0 := touch "D/" "w" in
  do* fat_open tiny_geometry (λ _, true) clock 0 (Some (c_string "X")) (Some (c_string "w")) in
  let* '(_, written) := fat_write tiny_geometry (λ _, true) clock 0 (Some 1536) None in
  do* fat_close (λ _, true) 0 in
  let* r1 := touch "D/A" "w" in let* r2 := touch "D/B" "w" in let* r3 := touch "D/C" "w" in
  let* r4 := touch "D/D" "w" in let* r5 := touch "D/E" "w" in let* r6 := touch "D/F" "w" in
  let* r7 := touch "D/G" "w" in let* r8 := touch "D/H" "w" in let* r9 := touch "D/I" "w" in
  let* r10 := touch "D/J" "w" in let* r11 := touch "D/K" "w" in let* r12 := touch "D/L" "w" in
  let* r13 := touch "D/M" "w" in let* r14 := touch "D/N" "w" in
  ret ([r0; r1; r2; r3; r4; r5; r6; r7; r8; r9; r10; r11; r12; r13; r14], written).

(** D/A is opened, D/NEW is created, and D/A is opened again; at last /NEW. *)
Definition create_on_full : M memory (Z * Z * Z * Z) :=
  let* before := touch "D/A" "r" in
  let* created := touch "D/NEW" "w" in
  let* after := touch "D/A" "r" in
  let* root := touch "NEW" "r" in
  ret (before, created, after, root).

Definition lost_directory : M memory (list Z * Z * (Z * Z * Z * Z)) :=
  let* filled := fill_volume in
  let* answers := create_on_full in
  ret (filled, answers).

(** Creating a file in a full directory of a full volume, here one of seven clusters: the only record
    that the descriptor knows is that of the directory itself, and it is
    overwritten.  The creation answers success, the files of the directory cannot
    be found any more, and the new file is in the parent directory. *)
Theorem create_on_full_volume_loses_directory :
  ∃ v, lost_directory tiny_volume
       = Some (v, (replicate 15 0, 1536, (0, 0, FAT_FILE_NOT_FOUND, 0))).
Proof.
  assert (E : option_map snd (lost_directory tiny_volume)
            = Some (replicate 15 0, 1536, (0, 0, FAT_FILE_NOT_FOUND, 0))) by (vm_compute; reflexivity).
  destruct (lost_directory tiny_volume) as [[v x]|]; [|done].
  exists v. cbn [option_map snd] in E. by injection E as ->.
Qed.
