(* ===== verification/FatCache.v ===== *)
(** The buffers of a mounted volume: the invariant that the block and cluster
    buffers of common/fat.c hold what the device holds, and the rules of the
    operations of FatTable.v and FatDir.v under this invariant.  The theorems of
    the files FatRead.v and FatWrite.v use these rules and not the definitions. *)

From S2P Require Import Prelude FatBpb FatTable FatName FatVolume FatDir.

Section Cache.
Context {D : Type} `{HD : BlockDevice D} (bs : Z) `{HDok : !BlockDeviceOk D bs}.
Context (g : geometry) (Hg : geometry_ok g) (Hbs : fs_bytes_per_sector g = io_mul g * bs).

Abbreviation bps := (fs_bytes_per_sector g).
Abbreviation clusters := (fs_clusters g).
Abbreviation cluster_addr := (cluster_addr g).
Abbreviation outside_tables := (outside_tables g).
Abbreviation value := (value bs g).
Abbreviation fat_ok := (fat_ok bs g).

(** ** The invariant *)

(** The buffers with an address hold the bytes of the device at the address. *)
Record cache_ok (d : D) (f : fat) : Prop := {
  ca_block : bps ≤ Z.of_nat (length (block_buffer f)) ∧ Forall is_byte (block_buffer f);
  ca_block_lba : block_buffer_lba f ≠ 0 → ∀ j, 0 ≤ j < bps →
    outside_tables (block_buffer_lba f * bs + j) ∧
    at_ (block_buffer f) j = content d (block_buffer_lba f * bs + j);
  ca_cluster_lba : cluster_buffer_lba f ≠ 0 → ∃ c, 2 ≤ c < clusters + 2 ∧
    cluster_buffer_lba f = first_sector g c * io_mul g ∧
    ∀ j, 0 ≤ j < cluster_size g → at_ (cluster_buffer f) j = content d (cluster_addr c + j) }.

Definition good (d : D) (f : fat) : Prop := fat_ok d f ∧ cache_ok d f ∧ ready f = true.

(** The operations on the table leave the buffers alone. *)
Definition io_same (f f' : fat) : Prop :=
  f' = set_last_allocated
         (set_info (set_table f (table_buffer f') (table_sectors f') (table_offset f'))
            (fs_info_free f') (fs_info_next f')) (last_allocated f').

Lemma io_same_fields f f' :
  io_same f f' →
  ready f' = ready f ∧ block_buffer f' = block_buffer f ∧ block_buffer_lba f' = block_buffer_lba f ∧
  cluster_buffer f' = cluster_buffer f ∧ cluster_buffer_lba f' = cluster_buffer_lba f ∧
  cluster_sector f' = cluster_sector f.
Proof. by intros ->. Qed.

Lemma io_same_refl f : io_same f f.
Proof. by destruct f. Qed.

Lemma io_same_trans f1 f2 f3 : io_same f1 f2 → io_same f2 f3 → io_same f1 f3.
Proof. unfold io_same. intros E1 E2. rewrite E2, E1. by destruct f1. Qed.

Lemma io_same_rest f f' : same_rest f f' → io_same f f'.
Proof. unfold same_rest. intros ->. by destruct f. Qed.

Lemma cache_frame d f d' f' :
  io_same f f' → (∀ a, outside_tables a → content d' a = content d a) →
  cache_ok d f → cache_ok d' f'.
Proof.
  intros Hio Hc [Hb Hbl Hcl]. apply io_same_fields in Hio as (_ & E1 & E2 & E3 & E4 & _).
  split; rewrite ?E1, ?E2, ?E3, ?E4; [done| |].
  - intros Hn j Hj. destruct (Hbl Hn j Hj) as [Ho ->]. split; [done|]. by rewrite Hc.
  - intros Hn. destruct (Hcl Hn) as (c & Hr & E & Hat). exists c. split; [done|]. split; [done|].
    intros j Hj. rewrite Hat, Hc; [done| |done].
    apply (in_cluster_data bs g Hg Hbs c); [lia|]. unfold in_cluster. lia.
Qed.

(** A step that changes neither the values of the table nor what is outside of
    the tables. *)
Definition quiet (d : D) (f : fat) (d' : D) (f' : fat) : Prop :=
  good d' f' ∧ (∀ o, 0 ≤ o < clusters + 2 → value d' f' o = value d f o) ∧
  (∀ a, outside_tables a → content d' a = content d a).

Lemma quiet_refl d f : good d f → quiet d f d f.
Proof. done. Qed.

Lemma quiet_trans d f d1 f1 d2 f2 : quiet d f d1 f1 → quiet d1 f1 d2 f2 → quiet d f d2 f2.
Proof.
  intros (_ & V1 & O1) (H2 & V2 & O2). split; [done|].
  split; [intros o Ho; by rewrite V2, V1|intros a Ha; by rewrite O2, O1].
Qed.

Lemma preserves_quiet d f d' f' :
  good d f → preserves bs g d f d' f' → io_same f f' → quiet d f d' f'.
Proof.
  intros (_ & Hca & Hr) (Hok & Hv & Ho) Hio. split; [|done]. split; [done|].
  split; [by eapply cache_frame|]. apply io_same_fields in Hio as (-> & _). done.
Qed.

(** ** The table *)

Lemma get_step d f off :
  good d f → 0 ≤ off < clusters + 2 →
  ∃ d' f', get_table_value g d f off = Some (d', f', value d f off) ∧ quiet d f d' f' ∧ io_same f f'.
Proof.
  intros Hgood Ho. pose proof Hgood as (Hok & _).
  destruct (get_ok bs g Hg Hbs d f off Hok Ho) as (d' & f' & E & Hk).
  pose proof Hk as (_ & Hr & _). apply io_same_rest in Hr. exists d', f'. split; [done|].
  split; [|done]. apply preserves_quiet; [done| |done]. by apply (keeps_preserves bs g Hg).
Qed.

Lemma set_step d f off val :
  good d f → 0 ≤ off < clusters + 2 → 0 ≤ val < 2 ^ 32 →
  ∃ d' f', set_table_value g d f off val = Some (d', f', 0) ∧ good d' f' ∧ io_same f f' ∧
    (∀ o, 0 ≤ o < clusters + 2 →
       value d' f' o = if o =? off then stored_value (type g) val else value d f o) ∧
    (∀ a, outside_tables a → content d' a = content d a).
Proof.
  intros (Hok & Hca & Hrd) Ho Hval.
  destruct (set_ok bs g Hg Hbs d f off val Hok Ho Hval) as (d' & f' & E & Hu).
  pose proof Hu as (Hok' & Hr & _ & Hout).
  assert (Hio : io_same f f').
  { apply (io_same_trans _ (accounted g f off (value d f off) val)); [|by apply io_same_rest].
    unfold accounted. destruct (type g); [apply io_same_refl..|].
    rewrite account_table. reflexivity. }
  exists d', f'. split; [done|]. split; [|split; [done|split; [|done]]].
  - split; [done|]. split; [by eapply cache_frame|].
    apply io_same_fields in Hio as (-> & _). done.
  - intros o Ho'. by apply (updates_value bs g Hg).
Qed.

Lemma write_table_step d f :
  good d f → ∃ d', write_table g d f = Some (d', cleaned f, 0) ∧ quiet d f d' (cleaned f).
Proof.
  intros Hgood. pose proof Hgood as (Hok & _).
  destruct (write_table_keeps bs g Hg Hbs d f Hok) as (d' & E & Hk). exists d'. split; [done|].
  apply preserves_quiet; [done|by apply (keeps_preserves bs g Hg)|by destruct f].
Qed.

Lemma find_free_step n d f i :
  good d f → 0 ≤ i → i + Z.of_nat n ≤ clusters + 2 →
  ∃ d' f' r, find_free g n d f i = Some (d', f', r) ∧ quiet d f d' f' ∧ io_same f f' ∧
    match r with
    | Some c => i ≤ c < i + Z.of_nat n ∧ value d f c = 0
    | None => True
    end.
Proof.
  revert d f i. induction n as [|n IH]; intros d f i Hgood Hi Hn.
  { exists d, f, None. split; [done|]. split; [done|]. split; [apply io_same_refl|done]. }
  cbn [find_free]. destruct (get_step d f i Hgood ltac:(lia)) as (d1 & f1 & -> & Hq & Hio).
  pose proof Hq as (Hgood1 & Hv1 & _). cbn [mbind option_bind].
  destruct (Z.eqb_spec (value d f i) 0) as [Hz|Hnz].
  { exists d1, (set_last_allocated f1 i), (Some i). split; [done|].
    assert (Hio1 : io_same f1 (set_last_allocated f1 i)) by (by destruct f1).
    split; [|split; [by apply (io_same_trans f f1)|split; [lia|done]]].
    apply (quiet_trans _ _ d1 f1 _ _ Hq). apply preserves_quiet; [done| |done].
    apply (last_preserves bs g); [done|apply Hgood1]. }
  destruct (IH d1 f1 (i + 1) Hgood1 ltac:(lia) ltac:(lia)) as (d2 & f2 & r & E & Hq2 & Hio2 & Hr).
  exists d2, f2, r. split; [done|]. split; [by apply (quiet_trans _ _ d1 f1)|].
  split; [by apply (io_same_trans _ f1)|]. destruct r as [c|]; [|done].
  split; [lia|]. rewrite <- Hv1 by lia. apply Hr.
Qed.

Lemma allocate_step d f :
  good d f →
  ∃ d' f' r c, allocate_cluster g d f = Some (d', f', r, c) ∧ quiet d f d' f' ∧ io_same f f' ∧
    ((r = 0 ∧ 2 ≤ c < clusters + 2 ∧ value d f c = 0) ∨
     (r = FAT_NOT_ENOUGH_SPACE ∧ c = 0 ∧ ∀ o, 2 ≤ o < clusters + 2 → value d f o ≠ 0)).
Proof.
  intros Hgood. pose proof Hgood as (Hok & _).
  destruct (allocate_ok bs g Hg Hbs d f Hok) as (d' & f' & r & c & E & Hp & Hr).
  exists d', f', r, c. split; [done|].
  assert (Hio : io_same f f').
  { revert E. unfold allocate_cluster. rewrite (u32_clusters g Hg).
    assert (H1 : ∃ d1 f1 r1,
      (if last_allocated f >? 2
       then find_free g (Z.to_nat (clusters + 2 - last_allocated f)) d f (last_allocated f)
       else Some (d, f, None)) = Some (d1, f1, r1) ∧ good d1 f1 ∧ io_same f f1).
    { destruct (Z.gtb_spec (last_allocated f) 2) as [Hl|Hl].
      2: { exists d, f, None. split; [done|]. split; [done|apply io_same_refl]. }
      destruct (Z.le_gt_cases (clusters + 2) (last_allocated f)).
      { replace (Z.to_nat _) with 0%nat by lia. exists d, f, None.
        split; [done|]. split; [done|apply io_same_refl]. }
      destruct (find_free_step (Z.to_nat (clusters + 2 - last_allocated f)) d f (last_allocated f) Hgood)
        as (d1 & f1 & r1 & E1 & (Hg1 & _) & Hio1 & _); [lia|lia|]. by exists d1, f1, r1. }
    destruct H1 as (d1 & f1 & r1 & -> & Hg1 & Hio1). cbn [mbind option_bind].
    destruct r1 as [c1|]; [by intros [= -> -> _ _]|].
    pose proof (clusters_range g Hg).
    destruct (find_free_step (Z.to_nat (clusters + 2 - 2)) d1 f1 2 Hg1)
      as (d2 & f2 & r2 & -> & _ & Hio2 & _); [lia|lia|]. cbn [mbind option_bind].
    destruct r2; intros [= -> -> _ _]; by apply (io_same_trans _ f1). }
  split; [by apply preserves_quiet|]. split; [done|].
  destruct Hr as [(-> & (Hc & Hz & _) & _)|Hr]; [left|right]; done.
Qed.

(** ** The buffers *)

Lemma io_mul_bs : 0 < bs ∧ 0 < io_mul g ∧ 512 ≤ bps ≤ cluster_size g.
Proof.
  destruct (bps_range g Hg) as [Hb _]. pose proof (geo_mul g Hg) as Hm.
  pose proof (geo_cluster_size g Hg) as Hc.
  assert (1 ≤ fs_cluster_sectors g).
  { destruct (geo_cluster g Hg) as (k & Hk & ->). assert (0 < 2 ^ k) by (apply Z.pow_pos_nonneg; lia). lia. }
  split; [nia|]. split; [lia|nia].
Qed.

Lemma cluster_lba_inj c c' :
  2 ≤ c < clusters + 2 → 2 ≤ c' < clusters + 2 →
  first_sector g c * io_mul g = first_sector g c' * io_mul g → c = c'.
Proof.
  intros Hc Hc' E. destruct (first_sector_ok bs g Hg Hbs c Hc) as (_ & _ & E1 & _).
  destruct (first_sector_ok bs g Hg Hbs c' Hc') as (_ & _ & E2 & _).
  rewrite E, E2 in E1. unfold FatTable.cluster_addr in E1. destruct io_mul_bs as (_ & _ & Hs). nia.
Qed.

(** The bytes of a read into the start of a buffer. *)
Lemma read_into d lba size buf :
  0 ≤ lba → 0 ≤ size ≤ Z.of_nat (length buf) → Forall is_byte buf →
  ∃ d' data buf', io_read d lba size = (d', true, data) ∧ splice buf 0 data = Some buf' ∧
    length buf' = length buf ∧ Forall is_byte buf' ∧ (∀ a, content d' a = content d a) ∧
    ∀ j, 0 ≤ j < size → at_ buf' j = content d (lba * bs + j).
Proof.
  intros Hl Hs Hb. destruct (io_read_ok (bs := bs) d lba size Hl ltac:(lia))
    as (d' & data & E & Hdl & Hdata & Hc).
  destruct (splice_0 buf data ltac:(lia)) as (buf' & E' & Hbl & Hat & Hby).
  exists d', data, buf'. split; [done|]. split; [done|]. split; [done|]. split; [|split; [done|]].
  - apply Hby; [done|]. apply Forall_lookup_2. intros i x Hx.
    pose proof (lookup_lt_Some _ _ _ Hx) as Hi.
    specialize (Hdata (Z.of_nat i) ltac:(lia)). apply rd_Some in Hdata as [_ Hdata].
    rewrite Nat2Z.id, Hx in Hdata. injection Hdata as ->. apply content_byte.
  - intros j Hj. rewrite Hat by lia. rewrite (proj2 (Z.ltb_lt _ _)) by lia.
    unfold at_. by rewrite Hdata by lia.
Qed.

(** An instance with other buffers and a device with the same contents of the
    tables. *)
Lemma good_other d f d' f' :
  good d f → table_buffer f' = table_buffer f → table_sectors f' = table_sectors f →
  table_offset f' = table_offset f → ready f' = ready f →
  Z.of_nat (length (cluster_buffer f')) = cluster_size g → Forall is_byte (cluster_buffer f') →
  (∀ a, table_base g ≤ a < table_base g + fs_table_size g → content d' a = content d a) →
  cache_ok d' f' →
  good d' f' ∧ ∀ o, 0 ≤ o < clusters + 2 → value d' f' o = value d f o.
Proof.
  intros (Hok & _ & Hr) E1 E2 E3 E4 Hl Hb Hc Hca.
  destruct (other_ok bs g Hg d f d' f' Hok Hl Hb E1 E2 E3 Hc) as [Hok' Hv].
  split; [|done]. split; [done|]. split; [done|]. congruence.
Qed.

(** The cluster [c] is in the cluster buffer. *)
Definition loaded (d : D) (f f' : fat) (c : Z) : Prop :=
  f' = set_cluster f (cluster_buffer f') (first_sector g c * io_mul g) (first_sector g c) ∧
  ∀ j, 0 ≤ j < cluster_size g → at_ (cluster_buffer f') j = content d (cluster_addr c + j).

Lemma read_cluster_step d f c :
  good d f → 2 ≤ c < clusters + 2 →
  ∃ d' f', read_cluster g d f c false = Some (d', f', 0) ∧ good d' f' ∧
    (∀ o, 0 ≤ o < clusters + 2 → value d' f' o = value d f o) ∧
    (∀ a, content d' a = content d a) ∧ loaded d f f' c.
Proof.
  intros Hgood Hc. pose proof Hgood as (Hok & Hca & Hr).
  destruct (first_sector_ok bs g Hg Hbs c Hc) as (Hs & Hpos & Haddr & _).
  destruct io_mul_bs as (Hbs0 & Hmul & Hsz). destruct (ok_cluster _ _ _ _ Hok) as [Hl Hb].
  rewrite (read_cluster_eq bs g Hg Hbs d f c false Hc). cbv zeta.
  set (lba := first_sector g c * io_mul g) in *.
  assert (Hlba : 0 < lba) by (unfold lba; nia).
  assert (Hfin : ∀ d' buf, length buf = length (cluster_buffer f) → Forall is_byte buf →
    (∀ a, content d' a = content d a) →
    (∀ j, 0 ≤ j < cluster_size g → at_ buf j = content d (cluster_addr c + j)) →
    let f' := set_cluster f buf lba (first_sector g c) in
    good d' f' ∧ (∀ o, 0 ≤ o < clusters + 2 → value d' f' o = value d f o) ∧
    (∀ a, content d' a = content d a) ∧ loaded d f f' c).
  { intros d' buf Hbl Hbb Hc' Hat f'.
    destruct (good_other d f d' f' Hgood) as [Hg' Hv']; try done.
    - cbn. by rewrite Hbl.
    - destruct Hca as [Hbk Hbk2 _]. split; [done| |].
      + intros Hn j Hj. rewrite Hc'. by apply Hbk2.
      + intros _. exists c. split; [done|]. split; [done|]. intros j Hj. rewrite Hc'. by apply Hat. }
  cbn [set_cluster cluster_buffer_lba cluster_buffer].
  destruct (Z.eqb_spec (cluster_buffer_lba f) lba) as [E|Hne].
  - destruct (ca_cluster_lba _ _ Hca ltac:(lia)) as (c' & Hc' & E' & Hat).
    assert (c = c') as <- by (apply cluster_lba_inj; [done|done|]; rewrite <- E', E; done).
    exists d, (set_cluster f (cluster_buffer f) lba (first_sector g c)). rewrite E. split; [done|].
    by apply Hfin.
  - destruct (read_into d lba (cluster_size g) (cluster_buffer f)) as (d' & data & buf & E & E' & Hbl & Hbb & Hc' & Hat);
      [lia|lia|done|].
    rewrite E. cbv beta iota. rewrite E'. cbn [mbind option_bind]. eexists _, _. split; [done|].
    apply Hfin; [done|done|done|]. intros j Hj. rewrite Hat by done. f_equal. unfold lba. lia.
Qed.

(** The cluster is not read before it is overwritten. *)
Lemma skip_cluster_step d f c :
  good d f → 2 ≤ c < clusters + 2 →
  ∃ f', read_cluster g d f c true = Some (d, f', 0) ∧ good d f' ∧
    (∀ o, 0 ≤ o < clusters + 2 → value d f' o = value d f o) ∧
    f' = set_cluster f (cluster_buffer f) 0 (first_sector g c).
Proof.
  intros Hgood Hc. pose proof Hgood as (Hok & Hca & Hr). destruct (ok_cluster _ _ _ _ Hok) as [Hl Hb].
  rewrite (read_cluster_eq bs g Hg Hbs d f c true Hc). eexists. split; [done|].
  destruct (good_other d f d (set_cluster f (cluster_buffer f) 0 (first_sector g c)) Hgood)
    as [Hg' Hv']; try done.
  destruct Hca as [Hbk Hbk2 _]. by split.
Qed.

(** The buffer, with any contents, is written to the cluster of the last read. *)
Lemma write_cluster_step d f c buf :
  good d f → 2 ≤ c < clusters + 2 → cluster_sector f = first_sector g c →
  (cluster_buffer_lba f = 0 ∨ cluster_buffer_lba f = first_sector g c * io_mul g) →
  Z.of_nat (length buf) = cluster_size g → Forall is_byte buf →
  let f1 := set_cluster f buf (cluster_buffer_lba f) (cluster_sector f) in
  let f2 := set_block f1 (block_buffer f) 0 in
  ∃ d', write_cluster g d f1 = Some (d', f2, 0) ∧ good d' f2 ∧
    (∀ o, 0 ≤ o < clusters + 2 → value d' f2 o = value d f o) ∧
    ∀ a, content d' a = if (cluster_addr c <=? a) && (a <? cluster_addr c + cluster_size g)
                        then at_ buf (a - cluster_addr c) else content d a.
Proof.
  intros Hgood Hc Hsec Hlba Hl Hb f1 f2. pose proof Hgood as (Hok & Hca & Hr).
  destruct (write_cluster_ok bs g Hg Hbs d f1 c Hc Hsec Hl Hb) as (d' & Hw & Hc').
  exists d'. split; [done|]. change (cluster_buffer f1) with buf in Hc'.
  destruct (good_other d f d' f2 Hgood) as [Hg' Hv']; try done.
  - intros a Ha. rewrite Hc'. pose proof (cluster_after_tables bs g Hg Hbs c ltac:(lia)).
    by rewrite (proj2 (Z.leb_gt _ _)) by lia.
  - destruct Hca as [Hbk Hbk2 _]. split; [done|done|].
    intros Hn. exists c. split; [done|]. change (cluster_buffer_lba f2) with (cluster_buffer_lba f) in *.
    split; [by destruct Hlba|]. intros j Hj. change (cluster_buffer f2) with buf. rewrite Hc'.
    rewrite (proj2 (Z.leb_le _ _)), (proj2 (Z.ltb_lt _ _)) by lia. cbn [andb]. f_equal. lia.
Qed.

(** A sector outside of the tables. *)
Definition plain_sector (s : Z) : Prop := 0 < s ∧ ∀ j, 0 ≤ j < bps → outside_tables (s * bps + j).

Lemma sector_addr s : s * io_mul g * bs = s * bps.
Proof. rewrite Hbs. ring. Qed.

Lemma read_block_step d f s :
  good d f → plain_sector s →
  ∃ d' buf, read_block g d f (s * io_mul g) = Some (d', set_block f buf (s * io_mul g), false) ∧
    let f' := set_block f buf (s * io_mul g) in
    good d' f' ∧ (∀ o, 0 ≤ o < clusters + 2 → value d' f' o = value d f o) ∧
    (∀ a, content d' a = content d a) ∧ length buf = length (block_buffer f) ∧ Forall is_byte buf ∧
    ∀ j, 0 ≤ j < bps → at_ buf j = content d (s * bps + j).
Proof.
  intros Hgood [Hs Hout]. pose proof Hgood as (Hok & Hca & Hr).
  destruct io_mul_bs as (Hbs0 & Hmul & Hsz). destruct (ok_cluster _ _ _ _ Hok) as [Hcl Hcb].
  destruct (ca_block _ _ Hca) as [Hbl Hbb]. unfold read_block.
  set (lba := s * io_mul g) in *. assert (Hlba : 0 < lba) by (unfold lba; nia).
  assert (Haddr : lba * bs = s * bps) by apply sector_addr.
  rewrite (proj2 (Z.eqb_neq lba 0)) by lia.
  assert (Hfin : ∀ d' buf, length buf = length (block_buffer f) → Forall is_byte buf →
    (∀ a, content d' a = content d a) →
    (∀ j, 0 ≤ j < bps → at_ buf j = content d (s * bps + j)) →
    let f' := set_block f buf lba in
    good d' f' ∧ (∀ o, 0 ≤ o < clusters + 2 → value d' f' o = value d f o) ∧
    (∀ a, content d' a = content d a) ∧ length buf = length (block_buffer f) ∧ Forall is_byte buf ∧
    ∀ j, 0 ≤ j < bps → at_ buf j = content d (s * bps + j)).
  { intros d' buf Hl Hb Hc' Hat f'. destruct (good_other d f d' f' Hgood) as [Hg' Hv']; try done.
    destruct Hca as [_ _ Hcc]. split; [cbn; rewrite Hl; done| |].
    - intros _ j Hj. change (block_buffer_lba f') with lba. change (block_buffer f') with buf.
      rewrite Haddr, Hc', Hat by done. split; [by apply Hout|done].
    - intros Hn. destruct (Hcc Hn) as (c & Hc & E & Hcat). exists c. split; [done|]. split; [done|].
      intros j Hj. rewrite Hc'. by apply Hcat. }
  destruct (Z.eqb_spec (block_buffer_lba f) lba) as [E|Hne].
  { exists d, (block_buffer f). split; [rewrite <- E; by destruct f|]. apply Hfin; [done|done|done|].
    intros j Hj. destruct (ca_block_lba _ _ Hca ltac:(lia) j Hj) as [_ ->]. by rewrite E, Haddr. }
  destruct (Z.eqb_spec (cluster_buffer_lba f) lba) as [E|Hne'].
  - destruct (slice_spec (cluster_buffer f) 0 bps) as (src & Es & Hsl & Hsd & Hsb); [lia..|].
    rewrite Es. cbn [mbind option_bind].
    destruct (splice_0 (block_buffer f) src ltac:(lia)) as (buf & E' & Hl & Hat & Hby).
    rewrite E'. cbn [mbind option_bind]. exists d, buf. split; [done|].
    apply Hfin; [done|by apply Hby, Hsb|done|]. intros j Hj.
    rewrite Hat by lia. rewrite (proj2 (Z.ltb_lt _ _)) by lia. unfold at_ at 1. rewrite Hsd.
    rewrite (proj2 (Z.leb_le _ _)), (proj2 (Z.ltb_lt _ _)) by lia. cbn [andb].
    destruct (ca_cluster_lba _ _ Hca ltac:(lia)) as (c & Hc & Ec & Hcat).
    destruct (first_sector_ok bs g Hg Hbs c Hc) as (_ & _ & Eaddr & _).
    change (at_ (cluster_buffer f) (0 + j) = content d (s * bps + j)). rewrite Z.add_0_l, Hcat by lia.
    by rewrite <- Eaddr, <- Ec, E, Haddr.
  - destruct (read_into d lba bps (block_buffer f)) as (d' & data & buf & E & E' & Hl & Hbuf & Hc' & Hat);
      [lia|lia|done|].
    rewrite E. cbv beta iota. rewrite E'. cbn [mbind option_bind]. exists d', buf. split; [done|].
    apply Hfin; [done|done|done|]. intros j Hj. by rewrite Hat, Haddr by done.
Qed.

(** A sector is read, changed and written. *)
Lemma write_block_step d f s buf0 buf :
  good d (set_block f buf0 (s * io_mul g)) → plain_sector s →
  length buf = length buf0 → Forall is_byte buf →
  let f1 := set_block f buf (s * io_mul g) in
  let f2 := set_cluster f1 (cluster_buffer f) 0 (cluster_sector f) in
  ∃ d', write_block g d f1 (s * io_mul g) = Some (d', f2, false) ∧ good d' f2 ∧
    (∀ o, 0 ≤ o < clusters + 2 → value d' f2 o = value d f o) ∧
    ∀ a, content d' a = if (s * bps <=? a) && (a <? s * bps + bps)
                        then at_ buf (a - s * bps) else content d a.
Proof.
  intros Hgood [Hs Hout] Hl Hb f1 f2. pose proof Hgood as (Hok & Hca & Hr).
  destruct io_mul_bs as (Hbs0 & Hmul & Hsz). destruct (ok_cluster _ _ _ _ Hok) as [Hcl Hcb].
  destruct (ca_block _ _ Hca) as [Hbl _]. cbn [set_block block_buffer] in Hbl.
  destruct (slice_spec buf 0 bps) as (data & Es & Hdl & Hd & Hdb); [lia|lia|lia|].
  destruct (io_write_ok (bs := bs) d (s * io_mul g) data) as (d' & Hw & Hc'); [nia|by apply Hdb|].
  rewrite sector_addr in Hc'.
  assert (Hcont : ∀ a, content d' a = if (s * bps <=? a) && (a <? s * bps + bps)
                                     then at_ buf (a - s * bps) else content d a).
  { intros a. rewrite Hc', Hd.
    destruct (Z.leb_spec 0 (a - s * bps)), (Z.leb_spec (s * bps) a); try lia;
    destruct (Z.ltb_spec (a - s * bps) bps), (Z.ltb_spec a (s * bps + bps)); try lia; try done.
    cbn [andb]. by rewrite at_rd by lia. }
  exists d'. split.
  { unfold write_block. cbn [set_cluster set_block block_buffer cluster_buffer cluster_sector].
    change (block_buffer f1) with buf. rewrite Es. cbn [mbind option_bind]. by rewrite Hw. }
  destruct (good_other d (set_block f buf0 (s * io_mul g)) d' f2 Hgood) as [Hg' Hv']; try done.
  - intros a Ha. rewrite Hcont. destruct (Z.leb_spec (s * bps) a); cbn [andb]; [|done].
    destruct (Z.ltb_spec a (s * bps + bps)); [|done]. exfalso.
    pose proof (Hout (a - s * bps) ltac:(lia)) as Ho. unfold FatTable.outside_tables in Ho.
    replace (s * bps + (a - s * bps)) with a in Ho by lia.
    pose proof (table_ends g Hg) as Hte. destruct (geo_table_size g Hg) as [Hts _].
    pose proof (geo_table_sectors g Hg).
    assert (fs_table_size g ≤ fs_tables g * fs_table_size g)
      by (destruct (geo_tables g Hg) as [-> | ->]; nia). lia.
  - split; [cbn; rewrite Hl; split; [done|done]| |done].
    intros _ j Hj. cbn [f2 f1 set_cluster set_block block_buffer block_buffer_lba].
    rewrite sector_addr. split; [by apply Hout|]. rewrite Hcont.
    rewrite (proj2 (Z.leb_le _ _)), (proj2 (Z.ltb_lt _ _)) by lia. cbn [andb]. f_equal. lia.
Qed.
End Cache.
