(* ===== verification/FatRead.v ===== *)
(** Reading from a file of a FAT volume: [fat_read] of common/fat.c delivers the
    bytes of the file, as the clusters of its chain hold them on the device. *)

From S2P Require Import Prelude FatBpb FatTable FatName FatVolume FatDir FatCache FatFile.

(** ** The copy of bytes *)

(** What the destination holds: [n] bytes of [f], [z] zeros, and the rest as it
    was. *)
Definition delivered (buf buf' : option (list Z)) (n z : Z) (f : Z → Z) : Prop :=
  match buf, buf' with
  | None, None => True
  | Some l, Some l' => length l' = length l ∧ ∀ j, 0 ≤ j →
      at_ l' j = if j <? n then f j else if j <? n + z then 0 else at_ l j
  | _, _ => False
  end.

Definition room (buf : option (list Z)) (n : Z) : Prop :=
  match buf with None => True | Some l => n ≤ Z.of_nat (length l) end.

Lemma delivered_0 buf f : delivered buf buf 0 0 f.
Proof.
  destruct buf as [l|]; [|done]. split; [done|]. intros j Hj.
  by rewrite !(proj2 (Z.ltb_ge _ _)) by lia.
Qed.

Lemma delivered_room buf buf' n z f m : delivered buf buf' n z f → room buf m → room buf' m.
Proof. destruct buf, buf'; cbn; try done. intros [-> _]. done. Qed.

Lemma copy_out_ok n src off buf buf' done_ limit f :
  0 ≤ off → off + Z.of_nat n ≤ Z.of_nat (length src) → 0 ≤ done_ < limit → room buf limit →
  delivered buf buf' done_ 0 f →
  (∀ j, done_ ≤ j < limit → j - done_ < Z.of_nat n → f j = at_ src (off + (j - done_))) →
  let m := Z.min (done_ + Z.of_nat n) limit in
  ∃ buf'', copy_out n src off buf' done_ limit = Some (buf'', m) ∧ delivered buf buf'' m 0 f.
Proof.
  revert off buf' done_. induction n as [|n IH]; intros off buf' dn Hoff Hsrc Hdn Hroom Hdel Hf m.
  { exists buf'. cbn [copy_out]. replace m with dn by lia. done. }
  cbn [copy_out]. rewrite at_rd by lia.
  assert (H1 : ∃ b1, put buf' dn (Some (at_ src off)) = Some b1 ∧ delivered buf b1 (dn + 1) 0 f).
  { destruct buf as [l|], buf' as [l'|]; cbn in Hdel; try done; [|by exists None].
    destruct Hdel as [Hl Hat]. cbn [put mbind option_bind]. cbn in Hroom.
    destruct (wr_at l' dn (at_ src off)) as (l1 & -> & Hl1 & Hat1); [lia|].
    cbn [mbind option_bind]. exists (Some l1). split; [done|]. split; [congruence|].
    intros j Hj. rewrite Hat1, Hat by done. rewrite !Z.add_0_r.
    destruct (Z.eqb_spec j dn) as [->|Hne].
    - rewrite (proj2 (Z.ltb_lt _ _)), Hf by lia. f_equal. lia.
    - destruct (Z.ltb_spec j dn), (Z.ltb_spec j (dn + 1)); try lia; done. }
  destruct H1 as (b1 & -> & Hd1). cbn [mbind option_bind].
  destruct (Z.ltb_spec (dn + 1) limit) as [Hlt|Hge]; cbn [negb].
  - destruct (IH (off + 1) b1 (dn + 1)) as (b2 & E & Hd2); [lia|lia|lia|done|done| |].
    { intros j Hj Hn. rewrite Hf by lia. f_equal. lia. }
    exists b2. rewrite E. replace (Z.min _ limit) with m in * by lia. done.
  - exists b1. replace m with (dn + 1) by lia. done.
Qed.

Lemma splice_zeros l i n :
  0 ≤ i → 0 ≤ n → i + n ≤ Z.of_nat (length l) →
  ∃ l', splice l i (replicate (Z.to_nat n) 0) = Some l' ∧ length l' = length l ∧
    (∀ j, 0 ≤ j → at_ l' j = if (i <=? j) && (j <? i + n) then 0 else at_ l j) ∧
    (Forall is_byte l → Forall is_byte l').
Proof.
  intros Hi Hn Hl. unfold splice. rewrite length_replicate.
  rewrite !(proj2 (Z.leb_le _ _)) by lia. cbn [andb]. eexists. split; [done|].
  split; [autorewrite with len; lia|]. split; [|eauto 10 with bytes].
  intros j Hj. unfold at_. destruct (Z.leb_spec i j) as [Hij|Hij]; cbn [andb].
  - rewrite rd_app_r by (autorewrite with len; lia). autorewrite with len.
    rewrite Nat.min_l by lia. rewrite Z2Nat.id by lia.
    destruct (Z.ltb_spec j (i + n)).
    + rewrite rd_app_l by (autorewrite with len; lia).
      exact (at_replicate (Z.to_nat n) (j - i)).
    + rewrite rd_app_r by (autorewrite with len; lia). autorewrite with len. unfold rd.
      rewrite !(proj2 (Z.leb_le _ _)) by lia. rewrite lookup_drop. do 2 f_equal. lia.
  - rewrite rd_app_l by (autorewrite with len; lia). unfold rd.
    rewrite !(proj2 (Z.leb_le _ _)) by lia. by rewrite lookup_take_lt by lia.
Qed.

Lemma clear_from_ok buf buf' n z f :
  0 ≤ n → 0 ≤ z → room buf (n + z) → delivered buf buf' n 0 f →
  ∃ buf'', clear_from buf' n z = Some buf'' ∧ delivered buf buf'' n z f.
Proof.
  intros Hn Hz Hroom Hdel. destruct buf as [l|], buf' as [l'|]; cbn in Hdel; try done;
    [|by exists None]. destruct Hdel as [Hl Hat]. cbn in Hroom. cbn [clear_from].
  destruct (splice_zeros l' n z) as (l1 & -> & Hl1 & Hat1 & _); [lia..|].
  cbn [mbind option_bind]. exists (Some l1). split; [done|]. split; [congruence|].
  intros j Hj. rewrite Hat1, Hat by done. rewrite Z.add_0_r.
  destruct (Z.leb_spec n j), (Z.ltb_spec j (n + z)), (Z.ltb_spec j n); try lia; done.
Qed.

(** ** Files *)

Section Read.
Context {D : Type} `{HD : BlockDevice D} (bs : Z) `{HDok : !BlockDeviceOk D bs}.
Context (g : geometry) (Hg : geometry_ok g) (Hbs : fs_bytes_per_sector g = io_mul g * bs).
Context (malloc : Z → bool).

Abbreviation csz := (cluster_size g).
Abbreviation clusters := (fs_clusters g).
Abbreviation value := (value bs g).
Abbreviation good := (good bs g).
Abbreviation quiet := (quiet bs g).

(** A chain of clusters, to its end mark. *)
Record chain (v : Z → Z) (cs : list Z) : Prop := {
  chain_range : ∀ i c, cs.[i] = Some c → 2 ≤ c < clusters + 2;
  chain_next : ∀ i c c', cs.[i] = Some c → cs.[i + 1] = Some c' → v c = c';
  chain_end : ∀ c, cs.[Z.of_nat (length cs) - 1] = Some c → 0x0FFFFFF8 ≤ v c }.

(** The byte [p] of the file with the chain [cs]. *)
Definition file_byte (d : D) (cs : list Z) (p : Z) : Z :=
  content d (cluster_addr g (default 0 (cs.[p / csz])) + p mod csz).

(** The known cluster of a descriptor. *)
Definition known (cs : list Z) (e : fat_fd) : Prop :=
  0 ≤ cluster_idx e ∧ (cluster_idx e ≠ 0 → cs.[cluster_idx e] = Some (cluster_val e)).

(** [fd] is the open file with the contents [e] and the chain [cs]. *)
Record is_file (v : volume D) (fd : Z) (e : fat_fd) (cs : list Z) : Prop := {
  file_open : is_open v fd e;
  file_mode : has (mode e) MODE_ROOT_DIR = false;
  file_attr : Z.land (at_ (record e) 11) 0x10 = 0;
  file_chain : chain (value (dev v) (inst v)) cs;
  file_first : record_cluster (record e) = Some (default 0 (cs.[0]));
  file_size : clusters_of g (record_size (record e)) ≤ Z.of_nat (length cs);
  file_known : known cs e }.

Lemma chain_ext v v' cs :
  (∀ o, 0 ≤ o < clusters + 2 → v' o = v o) → chain v cs → chain v' cs.
Proof.
  intros Hv [Hr Hn He]. split; [done| |].
  - intros i c c' H1 H2. pose proof (Hr i c H1). rewrite Hv by lia. by eapply Hn.
  - intros c Hc. pose proof (Hr _ c Hc). rewrite Hv by lia. by apply He.
Qed.

Lemma csz_pos : 0 < csz.
Proof. exact (cluster_size_pos bs g Hg Hbs). Qed.

Lemma clusters_of_spec size : 0 ≤ size →
  0 ≤ clusters_of g size ∧ size ≤ clusters_of g size * csz ∧
  ∀ p, 0 ≤ p < size → p / csz < clusters_of g size.
Proof.
  intros Hs. pose proof csz_pos as Hc. unfold clusters_of.
  pose proof (Z.div_mod size csz ltac:(lia)) as Hd. pose proof (Z.mod_pos_bound size csz Hc) as Hm.
  assert (Hq : 0 ≤ size / csz) by (apply Z.div_pos; lia).
  destruct (Z.eqb_spec (size mod csz) 0) as [E|Hne]; cbn [negb].
  - split; [done|]. split; [lia|]. intros p Hp. apply Z.div_lt_upper_bound; lia.
  - split; [lia|]. split; [lia|]. intros p Hp. apply Z.div_lt_upper_bound; lia.
Qed.

Lemma with_fd_same (v : volume D) fd e : (fds v).[fd] = Some e → with_fd v fd e = v.
Proof.
  intros He. apply rd_Some in He as [_ He]. unfold with_fd.
  rewrite list_insert_id by done. by destruct v.
Qed.

Lemma set_device_same (v : volume D) : set_device v (dev v) (inst v) = v.
Proof. by destruct v. Qed.

(** *** The cluster at the offset *)

Definition reads_only (v v' : volume D) : Prop :=
  v' = set_device v (dev v') (inst v') ∧ quiet (dev v) (inst v) (dev v') (inst v').

Lemma reads_only_refl v : good (dev v) (inst v) → reads_only v v.
Proof. intros Hgood. split; [by destruct v|by apply quiet_refl]. Qed.

Lemma wp_get_table_value (v v0 : volume D) off (Q : volume D → Z → Prop) :
  reads_only v0 v → 0 ≤ off < clusters + 2 →
  (∀ v', reads_only v0 v' → Q v' (value (dev v0) (inst v0) off)) →
  wp (get_table_value' g off) v Q.
Proof.
  intros [Hv Hq] Ho HQ. pose proof Hq as (Hgood & Hval & _).
  destruct (get_step bs g Hg Hbs (dev v) (inst v) off Hgood Ho) as (d' & f' & E & Hq' & _).
  unfold get_table_value'. eapply wp_lift; [exact E|]. rewrite Hval by done. apply HQ.
  split; [by rewrite Hv|]. by apply (quiet_trans bs g _ _ (dev v) (inst v)).
Qed.

Lemma seek_loop_ok v0 cs i0 c0 file_clusters read_index :
  good (dev v0) (inst v0) → chain (value (dev v0) (inst v0)) cs →
  0 ≤ i0 ≤ read_index → cs.[i0] = Some c0 →
  read_index < file_clusters ≤ Z.of_nat (length cs) →
  wp (loop (S (Z.to_nat file_clusters)) (seek_turn g false file_clusters read_index) (i0, c0)) v0
    (λ v' x, reads_only v0 v' ∧ fst x = 0 ∧ cs.[read_index] = Some (snd x)).
Proof.
  intros Hgood Hch Hi0 Hc0 Hri. pose proof (clusters_range g Hg) as Hcr.
  apply (wp_loop (λ v s, reads_only v0 v ∧ 0 ≤ fst s ≤ read_index ∧ cs.[fst s] = Some (snd s))
           (λ s, Z.to_nat (file_clusters - fst s))).
  - intros v [i c] (Hro & Hi & Hc). cbn [fst snd] in *. cbn [seek_turn].
    rewrite (proj2 (Z.ltb_lt _ _)) by lia.
    destruct (Z.eqb_spec i read_index) as [->|Hne]; [by apply wp_ret|].
    pose proof (chain_range _ _ Hch i c Hc). apply wp_bind.
    apply (wp_get_table_value v v0); [done|lia|]. intros v' Hro'. cbn [andb].
    destruct (rd_is_Some cs (i + 1) ltac:(lia)) as [c' Hc'].
    pose proof (chain_range _ _ Hch (i + 1) c' Hc').
    rewrite (chain_next _ _ Hch i c c' Hc Hc').
    rewrite (proj2 (Z.ltb_ge _ _)), Z.geb_leb, (proj2 (Z.leb_gt _ _)) by lia. cbn [orb].
    apply wp_ret. cbn. split; [|lia]. split; [done|]. split; [lia|done].
  - split; [by apply reads_only_refl|done].
  - cbn. lia.
Qed.

Lemma wp_open_guard {A} v fd e (fail1 fail2 k : M D A) Q :
  is_open v fd e → wp k v Q →
  wp (bind is_ready (λ r, if negb r then fail1
                          else bind (check_fd malloc fd true) (λ c, if c then fail2 else k))) v Q.
Proof. intros Ho (v' & a & E & HQ). exists v', a. split; [|done]. by rewrite (open_guard malloc v fd e). Qed.

Lemma rd_is_Some_2 {A} (l : list A) i : 0 ≤ i < Z.of_nat (length l) → is_Some (l.[i]).
Proof. intros Hi. destruct (rd_is_Some l i Hi) as [x Hx]. by exists x. Qed.

(** *** The data *)

(** The volume while [fd], which was [e], is read. *)
Definition reading (v0 v1 : volume D) (fd : Z) (e : fat_fd) (cs : list Z) : Prop :=
  quiet (dev v0) (inst v0) (dev v1) (inst v1) ∧
  ∃ idx val, v1 = with_fd (set_device v0 (dev v1) (inst v1)) fd (set_known e idx val) ∧
             known cs (set_known e idx val).

Lemma reading_fd v0 v1 fd e cs :
  reading v0 v1 fd e cs → (fds v0).[fd] = Some e →
  ∃ e1, (fds v1).[fd] = Some e1 ∧ offset e1 = offset e ∧
        e1 = set_known e (cluster_idx e1) (cluster_val e1).
Proof.
  intros (_ & idx & val & Hv & _) He. exists (set_known e idx val).
  split; [|done]. rewrite Hv. by apply (fds_with_fd _ fd _ e).
Qed.

Lemma reading_device v0 v1 fd e cs d f :
  reading v0 v1 fd e cs → quiet (dev v1) (inst v1) d f → reading v0 (set_device v1 d f) fd e cs.
Proof.
  intros (Hq & idx & val & Hv & Hk) Hq'. split; [by apply (quiet_trans bs g _ _ (dev v1) (inst v1))|].
  exists idx, val. split; [|done]. by rewrite Hv.
Qed.

Lemma reading_known v0 v1 fd e cs e1 idx val :
  reading v0 v1 fd e cs → (fds v1).[fd] = Some e1 → e1 = set_known e (cluster_idx e1) (cluster_val e1) →
  known cs (set_known e idx val) → reading v0 (with_fd v1 fd (set_known e1 idx val)) fd e cs.
Proof.
  intros (Hq & idx' & val' & Hv & _) He1 E1 Hk. split; [done|]. exists idx, val. split; [|done].
  rewrite E1. rewrite Hv at 1. by rewrite with_fd_twice.
Qed.

Lemma position q off x : 0 < csz → 0 ≤ off + x < csz →
  (csz * q + off + x) / csz = q ∧ (csz * q + off + x) mod csz = off + x.
Proof.
  intros Hc Hx. split.
  - symmetry. apply (Z.div_unique _ csz q (off + x)); lia.
  - symmetry. apply (Z.mod_unique _ csz q (off + x)); lia.
Qed.

Lemma quiet_file_byte d f d' f' cs p :
  quiet d f d' f' → (∀ i c, cs.[i] = Some c → 2 ≤ c < clusters + 2) →
  is_Some (cs.[p / csz]) → file_byte d' cs p = file_byte d cs p.
Proof.
  intros (_ & _ & Ho) Hr [c Hc]. unfold file_byte. rewrite Hc. cbn [default].
  apply Ho. pose proof csz_pos. apply (in_cluster_data bs g Hg Hbs c); [by apply (Hr _ _ Hc)|].
  unfold in_cluster, default. pose proof (Z.mod_pos_bound p csz ltac:(lia)). cbn. lia.
Qed.

Lemma read_loop_ok v0 fd e cs buf limit :
  good (dev v0) (inst v0) → is_file v0 fd e cs →
  0 ≤ limit → offset e + limit ≤ record_size (record e) → room buf limit →
  is_Some (cs.[offset e / csz]) →
  wp (loop (S (Z.to_nat limit)) (read_turn g fd limit)
        (default 0 (cs.[offset e / csz]), offset e mod csz, 0, buf)) v0
    (λ v1 x, let '(r, _, rb, buf') := x in
             reading v0 v1 fd e cs ∧ r = 0 ∧ rb = limit ∧
             delivered buf buf' limit 0 (λ j, file_byte (dev v0) cs (offset e + j))).
Proof.
  intros Hgood Hfile Hlim Hsize Hroom [c0 Hc0]. pose proof csz_pos as Hcsz.
  pose proof (file_open _ _ _ _ Hfile) as (_ & Hfd & _ & _ & _ & Hok).
  pose proof (file_chain _ _ _ _ Hfile) as Hch. pose proof (clusters_range g Hg) as Hcr.
  destruct (record_size_ok e Hok) as [_ Hsr]. pose proof (fd_offset _ Hok) as Hoff.
  pose proof (file_size _ _ _ _ Hfile) as Hlen.
  destruct (clusters_of_spec (record_size (record e)) ltac:(lia)) as (_ & Hcov & Hidx).
  set (pos := offset e) in *. set (fb := λ j, file_byte (dev v0) cs (pos + j)).
  apply (wp_loop (λ v1 s, let '(c, off, rb, buf') := s in
           reading v0 v1 fd e cs ∧ 0 ≤ rb ≤ limit ∧ delivered buf buf' rb 0 fb ∧
           (rb < limit → cs.[(pos + rb) / csz] = Some c ∧ off = (pos + rb) mod csz))
           (λ s, let '(_, _, rb, _) := s in Z.to_nat (limit - rb))).
  2: { split; [|split; [lia|split; [apply delivered_0|]]].
       - split; [by apply quiet_refl|]. exists (cluster_idx e), (cluster_val e).
         pose proof (file_known _ _ _ _ Hfile). destruct e. split; [|done].
         by rewrite set_device_same, with_fd_same.
       - intros _. rewrite Z.add_0_r, Hc0. done. }
  2: { lia. }
  intros v1 [[[c off] rb] buf'] (Hrd & Hrb & Hdel & Hcur). cbn [read_turn].
  destruct (Z.ltb_spec rb limit) as [Hlt|Hge].
  2: { apply wp_ret. replace limit with rb by lia. done. }
  destruct (Hcur Hlt) as [Hc Hoffm]. pose proof (chain_range _ _ Hch _ c Hc) as Hcrange.
  set (q := (pos + rb) / csz) in *.
  pose proof (Z.div_mod (pos + rb) csz ltac:(lia)) as Hdm. fold q in Hdm. rewrite <- Hoffm in Hdm.
  pose proof (Z.mod_pos_bound (pos + rb) csz Hcsz) as Hmb. rewrite <- Hoffm in Hmb.
  assert (Hq0 : 0 ≤ q) by (apply Z.div_pos; lia).
  pose proof Hrd as (Hq1 & _). pose proof Hq1 as (Hgood1 & Hval1 & Hout1).
  destruct (read_cluster_step bs g Hg Hbs (dev v1) (inst v1) c Hgood1 Hcrange)
    as (d2 & f2 & Erd & Hgood2 & Hval2 & Hcon2 & Hload).
  apply wp_bind. eapply (wp_lift _ v1 d2 f2); [exact Erd|]. cbn [Z.eqb negb].
  assert (Hq2 : quiet (dev v1) (inst v1) d2 f2) by (split; [done|]; split; [done|]; intros a _; apply Hcon2).
  pose proof (reading_device _ _ _ _ _ d2 f2 Hrd Hq2) as Hrd2.
  destruct (reading_fd _ _ _ _ _ Hrd2 Hfd) as (e1 & He1 & Hoe & Ee1).
  apply wp_bind. eapply wp_update_fd; [exact He1|]. rewrite Hoe. fold pos.
  rewrite (wrap_small 32 (pos + rb)) by lia. fold q.
  set (v2 := with_fd _ fd _).
  assert (Hrd3 : reading v0 v2 fd e cs).
  { apply (reading_known _ _ _ _ _ e1); [done|done|done|]. split; [done|]. intros _. done. }
  apply wp_bind, wp_get. set (src := cluster_buffer (inst v2)).
  destruct (ok_cluster _ _ _ _ (proj1 Hgood2)) as [Hsl _].
  change (cluster_buffer f2) with src in Hsl.
  destruct (copy_out_ok (Z.to_nat (csz - off)) src off buf buf' rb limit fb)
    as (buf2 & Ecp & Hdel2); [lia|lia|lia|done|done| |].
  { intros j Hj Hn. destruct Hload as [_ Hload]. change (cluster_buffer f2) with src in Hload.
    rewrite Hload by lia. unfold fb, file_byte.
    destruct (position q off (j - rb) Hcsz ltac:(lia)) as [E1 E2].
    replace (csz * q + off + (j - rb)) with (pos + j) in E1, E2 by lia.
    rewrite E1, E2, Hc. cbn [default]. rewrite Hout1; [done|].
    apply (in_cluster_data bs g Hg Hbs c); [lia|]. unfold in_cluster. lia. }
  rewrite Z2Nat.id in Ecp, Hdel2 by lia. set (rb2 := Z.min (rb + (csz - off)) limit) in *.
  apply wp_bind. eapply wp_access; [exact Ecp|]. cbv beta iota.
  pose proof Hrd3 as (Hq3 & _). pose proof Hq3 as (Hgood3 & Hval3 & _).
  destruct (get_step bs g Hg Hbs (dev v2) (inst v2) c Hgood3 ltac:(lia)) as (d4 & f4 & Eg & Hq4 & _).
  apply wp_bind. eapply (wp_lift _ v2 d4 f4); [exact Eg|]. rewrite Hval3 by lia.
  pose proof (reading_device _ _ _ _ _ d4 f4 Hrd3 Hq4) as Hrd4.
  assert (Hnext : rb2 < limit → rb2 = rb + (csz - off) ∧ (pos + rb2) / csz = q + 1 ∧
    (pos + rb2) mod csz = 0 ∧ cs.[q + 1] = Some (value (dev v0) (inst v0) c)).
  { intros Hr2. assert (E : rb2 = rb + (csz - off)) by lia. split; [done|].
    destruct (position (q + 1) 0 0 Hcsz ltac:(lia)) as [E1 E2].
    replace (csz * (q + 1) + 0 + 0) with (pos + rb2) in E1, E2 by lia. rewrite E1, E2.
    split; [done|]. split; [done|].
    pose proof (Hidx (pos + rb2) ltac:(lia)) as Hb. rewrite E1 in Hb.
    destruct (rd_is_Some cs (q + 1) ltac:(lia)) as [c' Hc']. rewrite Hc'. f_equal. symmetry.
    by apply (chain_next _ _ Hch q). }
  destruct (Z.geb_spec (value (dev v0) (inst v0) c) 0x0FFFFFF8) as [Heoc|Hlink].
  - apply wp_ret. split; [done|]. split; [done|].
    assert (E : rb2 = limit).
    { destruct (Z.lt_ge_cases rb2 limit) as [Hr2|]; [exfalso|lia].
      destruct (Hnext Hr2) as (_ & _ & _ & Hc'). pose proof (chain_range _ _ Hch _ _ Hc'). lia. }
    split; [done|]. by rewrite <- E.
  - apply wp_ret. split; [|lia]. split; [done|]. split; [lia|]. split; [done|].
    intros Hr2. destruct (Hnext Hr2) as (_ & -> & -> & Hc'). done.
Qed.

(** ** The property *)

(** The number of bytes that [fat_read] can deliver. *)
Definition readable (e : fat_fd) (requested : Z) : Z :=
  if decide (eof e = 0) then Z.max 0 (Z.min requested (record_size (record e) - offset e)) else 0.

(** The descriptor after the read of [n] bytes. *)
Definition advanced (e e' : fat_fd) (n : Z) : Prop :=
  opened e' = opened e ∧ mode e' = mode e ∧ record e' = record e ∧
  record_offset e' = record_offset e ∧ record_sector e' = record_sector e ∧
  offset e' = offset e + n ∧
  eof e' = if decide (eof e = 0 ∧ offset e + n < record_size (record e)) then 0 else 1.

Lemma is_file_quiet v v' fd e e' cs n :
  is_file v fd e cs → quiet (dev v) (inst v) (dev v') (inst v') →
  v' = with_fd (set_device v (dev v') (inst v')) fd e' →
  advanced e e' n → 0 ≤ n → (n = 0 ∨ offset e + n ≤ record_size (record e)) →
  known cs e' → is_file v' fd e' cs.
Proof.
  intros [Ho Hm Ha Hch Hf Hs _] Hq Hv' (E1 & E2 & E3 & E4 & E5 & E6 & E7) Hn Hrange Hk.
  pose proof Ho as (_ & He & Hent & Hmax & Hop & Hok). destruct (record_size_ok e Hok) as [_ Hsr].
  pose proof (fd_offset _ Hok) as Hoff.
  split; rewrite ?E2, ?E3; try done.
  - assert (Hopen : is_open (set_device v (dev v') (inst v')) fd e).
    { split; [apply Hq|]. by split. }
    rewrite Hv'. apply (with_fd_open _ fd e e' Hopen); [by rewrite E1|].
    split; [rewrite E3; apply (fd_record _ Hok)|lia|].
    rewrite E7. destruct (decide _); auto.
  - apply (chain_ext (value (dev v) (inst v))); [|done]. apply Hq.
Qed.

Lemma fat_read_ok (v : volume D) fd e cs requested buf :
  good (dev v) (inst v) → is_file v fd e cs → 0 < requested → room buf requested →
  let n := readable e requested in
  ∃ v' e' buf', fat_read g malloc fd (Some requested) buf v = Some (v', (0, n, buf')) ∧
    delivered buf buf' n (requested - n) (λ j, file_byte (dev v) cs (offset e + j)) ∧
    v' = with_fd (set_device v (dev v') (inst v')) fd e' ∧ advanced e e' n ∧
    is_file v' fd e' cs ∧ quiet (dev v) (inst v) (dev v') (inst v').
Proof.
  intros Hgood Hfile Hreq Hroom n. pose proof csz_pos as Hcsz.
  pose proof (file_open _ _ _ _ Hfile) as Hopen. pose proof Hopen as (_ & He & _ & _ & _ & Hok).
  destruct (record_size_ok e Hok) as [Hsize Hsr]. pose proof (fd_offset _ Hok) as Hoff.
  destruct (fd_record _ Hok) as [Hrl _].
  pose proof (file_chain _ _ _ _ Hfile) as Hch. pose proof (file_size _ _ _ _ Hfile) as Hlen.
  set (size := record_size (record e)) in *. set (pos := offset e) in *.
  destruct (clusters_of_spec size ltac:(lia)) as (_ & _ & Hidx).
  cut (wp (fat_read g malloc fd (Some requested) buf) v (λ v' x, ∃ e' buf', x = (0, n, buf') ∧
         delivered buf buf' n (requested - n) (λ j, file_byte (dev v) cs (pos + j)) ∧
         v' = with_fd (set_device v (dev v') (inst v')) fd e' ∧ advanced e e' n ∧
         is_file v' fd e' cs ∧ quiet (dev v) (inst v) (dev v') (inst v'))).
  { intros (v' & x & E & e' & buf' & -> & H). by exists v', e', buf'. }
  unfold fat_read. change (default 0 (Some requested)) with requested. cbv zeta.
  apply (wp_open_guard v fd e _ _ _ _ Hopen).
  rewrite (proj2 (Z.eqb_neq requested 0)) by lia. apply wp_bind. eapply wp_get_fd; [exact He|].
  rewrite (file_mode _ _ _ _ Hfile). cbn [andb]. apply wp_bind.
  apply (wp_access _ (default 0 (cs.[0]), size, false)).
  { unfold read_source. rewrite (file_mode _ _ _ _ Hfile), (file_first _ _ _ _ Hfile), Hsize.
    rewrite at_rd by lia. cbn [mbind option_bind]. by rewrite (file_attr _ _ _ _ Hfile). }
  cbv beta iota. fold pos.
  destruct (negb (eof e =? 0) || (size <=? pos)) eqn:Hend.
  - assert (Hn : n = 0).
    { unfold n, readable. fold pos size. destruct (decide (eof e = 0)) as [E|]; [|done].
      rewrite E, Z.eqb_refl in Hend. cbn [negb orb] in Hend. apply Z.leb_le in Hend. lia. }
    destruct (clear_from_ok buf buf 0 requested (λ j, file_byte (dev v) cs (pos + j)))
      as (buf' & Ecl & Hdel); [lia|lia|done|apply delivered_0|].
    apply wp_bind. eapply wp_access; [exact Ecl|]. apply wp_bind. eapply wp_update_fd; [exact He|].
    apply wp_ret. exists (set_eof e 1), buf'. rewrite Hn, Z.sub_0_r. split; [done|]. split; [done|].
    assert (Hadv : advanced e (set_eof e 1) 0).
    { repeat split; cbn; [lia|]. rewrite decide_False; [done|]. intros [E Hlt].
      rewrite E, Z.eqb_refl in Hend. cbn [negb orb] in Hend. apply Z.leb_le in Hend. fold pos size in Hlt. lia. }
    assert (Hv' : with_fd v fd (set_eof e 1) = with_fd (set_device v (dev v) (inst v)) fd (set_eof e 1))
      by (by rewrite set_device_same).
    split; [done|]. split; [done|]. pose proof (quiet_refl bs g _ _ Hgood) as Hq.
    split; [|done]. apply (is_file_quiet v (with_fd v fd (set_eof e 1)) fd e _ cs 0 Hfile Hq Hv' Hadv); [lia|by left|].
    exact (file_known _ _ _ _ Hfile).
  - apply orb_false_iff in Hend as [Heof Hlt]. apply negb_false_iff, Z.eqb_eq in Heof.
    apply Z.leb_gt in Hlt.
    assert (Hn : n = Z.min (size - pos) requested).
    { unfold n, readable. fold pos size. rewrite decide_True by done. lia. }
    set (ri := pos / csz). assert (Hri : 0 ≤ ri) by (apply Z.div_pos; lia).
    specialize (Hidx pos ltac:(lia)). fold ri in Hidx.
    destruct (rd_is_Some cs ri ltac:(lia)) as [cr Hcr].
    destruct (rd_is_Some cs 0 ltac:(lia)) as [c0 Hc0].
    set (kn := negb (cluster_idx e =? 0) && (cluster_idx e <=? ri)).
    assert (Hstart : ∃ i c, (if kn then (cluster_idx e, cluster_val e) else (0, default 0 (cs.[0]))) = (i, c)
              ∧ 0 ≤ i ≤ ri ∧ cs.[i] = Some c).
    { destruct (file_known _ _ _ _ Hfile) as [Hk0 Hk]. unfold kn.
      destruct (Z.eqb_spec (cluster_idx e) 0), (Z.leb_spec (cluster_idx e) ri); cbn [negb andb];
        eexists _, _; (split; [done|]); rewrite ?Hc0; (split; [lia|]); try done; by apply Hk. }
    destruct Hstart as (i & c & Est & Hi & Hc). rewrite Est.
    apply wp_bind. eapply wp_mono; [apply (seek_loop_ok v cs i c); [done|done|done|done|lia]|].
    intros v1 [r cl] (Hro & Hr & Hcl). cbn [fst snd] in Hr, Hcl. rewrite Hr. cbn [Z.eqb negb].
    destruct Hro as [Hv1 Hq1]. pose proof Hq1 as (Hgood1 & Hval1 & Hout1).
    assert (Hfile1 : is_file v1 fd e cs).
    { destruct Hfile as [(Ho1 & Ho2) Hm Ha Hch' Hf Hs Hk]. split; try done.
      - split; [apply Hgood1|]. rewrite Hv1. done.
      - apply (chain_ext (value (dev v) (inst v))); [done|done]. }
    unfold read_data. apply wp_bind.
    eapply wp_get_fd; [apply (file_open _ _ _ _ Hfile1)|]. fold pos. cbn [andb].
    assert (El : (if size - pos >? requested then requested else size - pos) = n).
    { rewrite Hn, Z.gtb_ltb. destruct (Z.ltb_spec requested (size - pos)); lia. }
    rewrite El. assert (Ecl : cl = default 0 (cs.[pos / csz])) by (fold ri; by rewrite Hcl).
    rewrite Ecl. apply wp_bind.
    assert (Hroom' : room buf n) by (destruct buf; cbn in *; lia).
    eapply wp_mono; [apply (read_loop_ok v1 fd e cs buf n Hgood1 Hfile1); [lia| |done|]|].
    { fold pos size. lia. }
    { fold pos ri. by eexists. }
    intros v2 [[[r2 cl2] rb] buf2] (Hrd & -> & -> & Hdel). cbv beta iota. fold pos in Hdel.
    assert (Hdel' : delivered buf buf2 n 0 (λ j, file_byte (dev v) cs (pos + j))).
    { destruct buf as [l|], buf2 as [l2|]; cbn in Hdel |- *; try done. destruct Hdel as [Hl2 Hat].
      split; [done|]. intros j Hj. rewrite Hat by done. destruct (Z.ltb_spec j n); [|done].
      apply (quiet_file_byte _ _ _ _ _ _ Hq1 (chain_range _ _ Hch)).
      destruct (clusters_of_spec size ltac:(lia)) as (_ & _ & Hi2). specialize (Hi2 (pos + j) ltac:(lia)).
      apply rd_is_Some_2. split; [apply Z.div_pos; lia|lia]. }
    apply wp_bind, wp_ret.
    assert (Hclear : ∃ buf3, (if n <? requested then clear_from buf2 n (requested - n) else Some buf2)
              = Some buf3 ∧ delivered buf buf3 n (requested - n) (λ j, file_byte (dev v) cs (pos + j))).
    { destruct (Z.ltb_spec n requested).
      - apply clear_from_ok; [lia|lia|by replace (n + _) with requested by lia|done].
      - exists buf2. split; [done|]. by replace (requested - n) with 0 by lia. }
    destruct Hclear as (buf3 & Eclr & Hdel3). apply wp_bind. eapply wp_access; [exact Eclr|].
    destruct (reading_fd _ _ _ _ _ Hrd (proj1 (proj2 (file_open _ _ _ _ Hfile1))))
      as (e2 & He2 & Hoe & Ee2).
    apply wp_bind. eapply wp_update_fd; [exact He2|]. rewrite Hoe. fold pos.
    rewrite (wrap_small 32 (pos + n)) by lia.
    set (e3 := set_offset e2 (pos + n)). apply wp_bind.
    eapply wp_get_fd; [by apply (fds_with_fd v2 fd e3 e2)|]. apply wp_bind.
    change (offset e3) with (pos + n).
    set (e4 := if pos + n >=? size then set_eof e3 1 else e3).
    apply (wp_mono _ _ (λ v' _, v' = with_fd v2 fd e4)).
    { unfold e4. destruct (pos + n >=? size); [|by apply wp_ret].
      eapply wp_update_fd; [by apply (fds_with_fd v2 fd e3 e2)|]. by rewrite with_fd_twice. }
    intros v3 _ ->. apply wp_ret. exists e4, buf3. split; [done|]. split; [done|].
    destruct Hrd as (Hq2 & idx & val & Hv2 & Hk2).
    assert (Ee : e2 = set_known e idx val).
    { rewrite Hv2 in He2. rewrite (fds_with_fd _ fd _ e) in He2; [by injection He2|].
      rewrite Hv1. done. }
    assert (Hv3 : with_fd v2 fd e4 = with_fd (set_device v (dev v2) (inst v2)) fd e4).
    { rewrite Hv2 at 1. rewrite with_fd_twice, Hv1. done. }
    split; [done|].
    assert (Hadv : advanced e e4 n).
    { unfold e4, e3. rewrite Ee. fold size in Hlt. unfold advanced. fold pos size.
      destruct (Z.geb_spec (pos + n) size) as [Hge|Hl2]; cbn.
      - repeat split. rewrite decide_False; [done|]. lia.
      - repeat split. rewrite Heof, decide_True; [done|]. done. }
    split; [done|]. pose proof (quiet_trans bs g _ _ _ _ _ _ Hq1 Hq2) as Hq.
    split; [|done].
    apply (is_file_quiet v (with_fd v2 fd e4) fd e e4 cs n Hfile Hq Hv3 Hadv); [lia|right; fold pos size; lia|].
    unfold e4, e3. rewrite Ee. by destruct (pos + n >=? size).
Qed.

(** (C3) Reading from a file: [fat_read] delivers the bytes of the file from
    the offset on, as its chain of clusters holds them on the device, as many as
    requested or as there are before the end of the file, and zeros for the rest
    of the request.  It reports that number, moves the offset by it and raises
    the end-of-file flag exactly at the end; the table, everything outside of the
    tables, and the other descriptors stay as they are. The cluster that a
    descriptor remembers may be used, and it stays correct. *)
Theorem fat_read_correct (v : volume D) fd e cs requested buf :
  good (dev v) (inst v) → is_file v fd e cs → 0 < requested → room buf requested →
  let n := readable e requested in
  ∃ v' e' buf', fat_read g malloc fd (Some requested) buf v = Some (v', (0, n, buf')) ∧
    delivered buf buf' n (requested - n) (λ j, file_byte (dev v) cs (offset e + j)) ∧
    v' = with_fd (set_device v (dev v') (inst v')) fd e' ∧ advanced e e' n ∧
    is_file v' fd e' cs ∧ quiet (dev v) (inst v) (dev v') (inst v').
Proof. apply fat_read_ok. Qed.
End Read.

(** ** A volume to evaluate on *)

Lemma blank_good g :
  geometry_ok g → 0 < fs_table_size g → fs_bytes_per_sector g = io_mul g * 512 →
  good 512 g zeros (blank g).
Proof.
  intros Hg Hpos Hbs. pose proof (cluster_size_pos 512 g Hg Hbs). destruct (bps_range g Hg) as [Hb _].
  split; [by apply blank_ok; [|lia|lia]|]. split; [|done].
  split; cbn [blank block_buffer block_buffer_lba cluster_buffer_lba]; [|done..].
  rewrite length_replicate. split; [lia|apply bytes_zeros].
Qed.

(** FAT12 with one file in cluster 2. *)
Definition one_file : memory * fat :=
  match set_table_value fat12_geometry zeros (blank fat12_geometry) 2 0x0FFFFFFF with
  | Some (d, f, _) => (d, f)
  | None => (zeros, blank fat12_geometry)
  end.

Lemma one_file_ok :
  good 512 fat12_geometry (fst one_file) (snd one_file) ∧
  chain fat12_geometry (value 512 fat12_geometry (fst one_file) (snd one_file)) [2].
Proof.
  destruct (set_step 512 fat12_geometry fat12_geometry_ok eq_refl zeros (blank fat12_geometry) 2 0x0FFFFFFF)
    as (d & f & E & Hgood & _ & Hv & _);
    [by apply blank_good; [apply fat12_geometry_ok| |]|cbn; lia|done|].
  unfold one_file. rewrite E. cbn [fst snd]. split; [done|]. split.
  - intros i c Hi. pose proof (rd_lt _ _ _ Hi) as Hr. cbn in Hr. replace i with 0 in Hi by lia.
    injection Hi as <-. cbn. lia.
  - intros i c c' Hi Hi'. apply rd_lt in Hi, Hi'. cbn in Hi, Hi'. lia.
  - intros c Hc. injection Hc as <-. rewrite Hv by (cbn; lia). vm_compute. discriminate.
Qed.

(** A descriptor of the file: 300 bytes, offset 10. *)
Definition small_record : list Z := replicate 26 0 ++ [2; 0; 44; 1; 0; 0].
Definition small_fd : fat_fd := FatFd true MODE_READ small_record 0 0 0 10 0 0.
Definition small_volume : volume memory :=
  Volume (fst one_file) (snd one_file) [small_fd; zero_fd] [] 0 false.

Lemma small_file : is_file 512 fat12_geometry small_volume 0 small_fd [2].
Proof.
  destruct one_file_ok as [(_ & _ & Hr) Hch].
  split; try reflexivity.
  - repeat (split; [done|]). split; [split; [reflexivity|]|split; [discriminate|reflexivity]|by left].
    apply bytes_app; [apply bytes_zeros|].
    repeat (apply Forall_cons_2; [unfold is_byte; lia|]). apply Forall_nil_2.
  - exact Hch.
  - split; [discriminate|]. intros Hn. by destruct Hn.
Qed.

Lemma fat_read_correct_witness :
  let n := readable small_fd 500 in
  good 512 fat12_geometry (dev small_volume) (inst small_volume) ∧ n = 290 ∧
  ∃ v' e' buf',
    fat_read fat12_geometry (λ _, true) 0 (Some 500) None small_volume = Some (v', (0, n, buf')) ∧
    advanced small_fd e' n ∧ is_file 512 fat12_geometry v' 0 e' [2].
Proof.
  intros n. pose proof (proj1 one_file_ok) as Hgood. split; [exact Hgood|]. split; [reflexivity|].
  destruct (fat_read_correct 512 fat12_geometry fat12_geometry_ok eq_refl (λ _, true) small_volume 0
              small_fd [2] 500 None Hgood small_file eq_refl I)
    as (v' & e' & buf' & H1 & _ & _ & H2 & H3 & _).
  exists v', e', buf'. split; [exact H1|]. split; [exact H2|exact H3].
Defined.
