(* ===== verification/FatChain.v ===== *)
(** Chains of clusters that grow: the part of [fat_write] of common/fat.c that
    follows the chain of a file and appends free clusters to it
    ([chain_turn]). *)

From S2P Require Import Prelude FatBpb FatTable FatName FatVolume FatDir FatCache FatFile FatRead.

Section Chain.
Context {D : Type} `{HD : BlockDevice D} (bs : Z) `{HDok : !BlockDeviceOk D bs}.
Context (g : geometry) (Hg : geometry_ok g) (Hbs : fs_bytes_per_sector g = io_mul g * bs).

Abbreviation clusters := (fs_clusters g).
Abbreviation outside_tables := (outside_tables g).
Abbreviation value := (value bs g).
Abbreviation good := (good bs g).
Abbreviation quiet := (quiet bs g).
Abbreviation chain := (chain g).

(** ** Chains *)

(** A chain with an end has no cluster twice: two equal clusters would have
    equal successors up to the end. *)
Lemma chain_shift v cs i j n c :
  chain v cs → cs.[i] = Some c → cs.[j] = Some c → i ≤ j →
  j + Z.of_nat n < Z.of_nat (length cs) → cs.[i + Z.of_nat n] = cs.[j + Z.of_nat n].
Proof.
  intros Hch Hi Hj Hij. induction n as [|n IH]; intros Hn.
  { by rewrite !Z.add_0_r, Hi, Hj. }
  pose proof (rd_lt _ _ _ Hi) as Hi0.
  destruct (rd_is_Some cs (i + Z.of_nat n) ltac:(lia)) as [x Hx].
  destruct (rd_is_Some cs (i + Z.of_nat n + 1) ltac:(lia)) as [y Hy].
  destruct (rd_is_Some cs (j + Z.of_nat n + 1) ltac:(lia)) as [z Hz].
  pose proof (IH ltac:(lia)) as E. rewrite Hx in E. symmetry in E.
  pose proof (chain_next _ _ _ Hch _ _ _ Hx Hy) as E1.
  pose proof (chain_next _ _ _ Hch _ _ _ E Hz) as E2.
  replace (i + Z.of_nat (S n)) with (i + Z.of_nat n + 1) by lia.
  replace (j + Z.of_nat (S n)) with (j + Z.of_nat n + 1) by lia. congruence.
Qed.

Lemma chain_inj v cs i j c :
  chain v cs → cs.[i] = Some c → cs.[j] = Some c → i = j.
Proof.
  intros Hch. assert (Hle : ∀ i j, i < j → cs.[i] = Some c → cs.[j] = Some c → False).
  { intros a b Hab Ha Hb. pose proof (rd_lt _ _ _ Ha). pose proof (rd_lt _ _ _ Hb).
    set (n := Z.to_nat (Z.of_nat (length cs) - 1 - b)).
    pose proof (chain_shift v cs a b n c Hch Ha Hb ltac:(lia) ltac:(lia)) as E.
    replace (b + Z.of_nat n) with (Z.of_nat (length cs) - 1) in E by lia.
    destruct (rd_is_Some cs (Z.of_nat (length cs) - 1) ltac:(lia)) as [x Hx]. rewrite Hx in E.
    destruct (rd_is_Some cs (a + Z.of_nat n + 1) ltac:(lia)) as [y Hy].
    pose proof (chain_next _ _ _ Hch _ _ _ E Hy) as E1. pose proof (chain_end _ _ _ Hch _ Hx).
    pose proof (chain_range _ _ _ Hch _ _ Hy). pose proof (clusters_range g Hg). lia. }
  intros Hi Hj. destruct (Z.lt_trichotomy i j) as [H|[H|H]]; [|done|]; exfalso; eauto.
Qed.

Lemma chain_elem v cs c : chain v cs → c ∈ cs → 2 ≤ c < clusters + 2 ∧ v c ≠ 0.
Proof.
  intros Hch (i & Hi)%list_elem_of_lookup. pose proof (lookup_lt_Some _ _ _ Hi) as Hl.
  assert (Hc : cs.[Z.of_nat i] = Some c) by (apply rd_Some; split; [lia|by rewrite Nat2Z.id]).
  split; [by apply (chain_range _ _ _ Hch _ _ Hc)|].
  destruct (Z.eq_dec (Z.of_nat i) (Z.of_nat (length cs) - 1)) as [E|Hne].
  - rewrite E in Hc. pose proof (chain_end _ _ _ Hch _ Hc). lia.
  - destruct (rd_is_Some cs (Z.of_nat i + 1) ltac:(lia)) as [y Hy].
    rewrite (chain_next _ _ _ Hch _ _ _ Hc Hy). pose proof (chain_range _ _ _ Hch _ _ Hy). lia.
Qed.

Lemma chain_NoDup v cs : chain v cs → NoDup cs.
Proof.
  intros Hch. apply NoDup_alt. intros i j x Hi Hj.
  assert (Z.of_nat i = Z.of_nat j); [|lia].
  apply (chain_inj v cs _ _ x Hch); apply rd_Some; (split; [lia|by rewrite Nat2Z.id]).
Qed.

(** Different free clusters. *)
Record free_list (v : Z → Z) (l : list Z) : Prop := {
  free_NoDup : NoDup l;
  free_range : ∀ c, c ∈ l → 2 ≤ c < clusters + 2 ∧ v c = 0 }.

(** A chain and the free clusters fit into the volume. *)
Lemma chain_free_length v cs l :
  chain v cs → free_list v l → Z.of_nat (length cs + length l) ≤ clusters.
Proof.
  intros Hch [Hnd Hfr]. pose proof (clusters_range g Hg) as Hcr.
  assert (Hsub : cs ++ l ⊆+ seqZ 2 clusters).
  { apply NoDup_submseteq.
    - apply list.NoDup_app. split; [by eapply chain_NoDup|]. split; [|done].
      intros c Hc Hl. apply (chain_elem v) in Hc as [_ Hv]; [|done]. by destruct (Hfr c Hl).
    - intros c Hc. apply elem_of_seqZ. apply elem_of_app in Hc as [Hc|Hc].
      + apply (chain_elem v) in Hc as [Hr _]; [lia|done].
      + apply Hfr in Hc. lia. }
  apply submseteq_length in Hsub. rewrite length_app, length_seqZ in Hsub. lia.
Qed.

(** Free clusters stay when another one is taken. *)
Lemma free_list_take v v' l c :
  free_list v l → (∀ o, 2 ≤ o < clusters + 2 → o ≠ c → v o = 0 → v' o = 0) →
  ∃ l', free_list v' l' ∧ Z.of_nat (length l) ≤ Z.of_nat (length l') + 1.
Proof.
  intros [Hnd Hfr] Hv. exists (filter (λ o, o ≠ c) l). split.
  - split; [by apply list.NoDup_filter|]. intros o [Hne Ho]%list_elem_of_filter.
    destruct (Hfr o Ho) as [Hr Hz]. auto.
  - assert (Hf : (length (filter (λ o, o = c) l) ≤ 1)%nat).
    { assert (Hs : filter (λ o, o = c) l ⊆+ [c]).
      { apply NoDup_submseteq; [by apply list.NoDup_filter|].
        intros o [-> _]%list_elem_of_filter. left. }
      by apply submseteq_length in Hs. }
    pose proof (Permutation_length (filter_app_complement (λ o, o = c) l)) as Hp.
    rewrite length_app in Hp. unfold not in *. lia.
Qed.

(** A free cluster at the end of a chain. *)
Lemma chain_append v v' cs c last :
  chain v cs → cs.[Z.of_nat (length cs) - 1] = Some last → 2 ≤ c < clusters + 2 → v c = 0 →
  (∀ o, 0 ≤ o < clusters + 2 → v' o = if o =? last then c else if o =? c then 0x0FFFFFFF else v o) →
  chain v' (cs ++ [c]).
Proof.
  intros Hch Hlast Hc Hz Hv. pose proof (rd_lt _ _ _ Hlast) as Hlen.
  assert (Hcs : ∀ i x, (cs ++ [c]).[i] = Some x → i < Z.of_nat (length cs) → cs.[i] = Some x).
  { intros i x Hx Hi. by rewrite rd_app_l in Hx. }
  assert (Hin : ∀ i x, cs.[i] = Some x → x ≠ c ∧ 2 ≤ x < clusters + 2).
  { intros i x [_ Hx]%rd_Some. apply list_elem_of_lookup_2 in Hx.
    apply (chain_elem v) in Hx as [Hr Hne]; [|done]. split; [|done]. by intros ->. }
  assert (Hnew : ∀ x, (cs ++ [c]).[Z.of_nat (length cs)] = Some x → x = c).
  { intros x. rewrite rd_app_r by lia. rewrite Z.sub_diag. by intros [= ->]. }
  split.
  - intros i x Hx. pose proof (rd_lt _ _ _ Hx) as Hi. rewrite length_app in Hi. cbn [length] in Hi.
    destruct (Z.lt_ge_cases i (Z.of_nat (length cs))) as [Hl|Hl]; [by eapply Hin, Hcs|].
    replace i with (Z.of_nat (length cs)) in Hx by lia. by rewrite (Hnew x Hx).
  - intros i x y Hx Hy. pose proof (rd_lt _ _ _ Hy) as Hi. rewrite length_app in Hi. cbn [length] in Hi.
    apply Hcs in Hx; [|lia]. destruct (Hin i x Hx) as [Hne Hr]. rewrite Hv by lia.
    destruct (Z.eqb_spec x last) as [->|Hnl].
    + assert (E : i = Z.of_nat (length cs) - 1) by (by apply (chain_inj v cs _ _ last Hch)).
      replace (i + 1) with (Z.of_nat (length cs)) in Hy by lia. symmetry. by apply Hnew.
    + rewrite (proj2 (Z.eqb_neq x c)) by done.
      assert (i + 1 < Z.of_nat (length cs)).
      { destruct (Z.eq_dec i (Z.of_nat (length cs) - 1)) as [->|]; [|lia]. congruence. }
      apply Hcs in Hy; [|done]. by apply (chain_next _ _ _ Hch i).
  - intros x Hx. rewrite length_app in Hx. cbn [length] in Hx.
    replace (Z.of_nat (length cs + 1) - 1) with (Z.of_nat (length cs)) in Hx by lia.
    rewrite (Hnew x Hx), Hv by lia. destruct (Hin _ _ Hlast) as [Hne _].
    rewrite (proj2 (Z.eqb_neq c last)) by done. rewrite Z.eqb_refl. lia.
Qed.

(** ** The steps *)

Lemma append_step d f last :
  good d f → 2 ≤ last < clusters + 2 → 0x0FFFFFF8 ≤ value d f last →
  (∃ o, 2 ≤ o < clusters + 2 ∧ value d f o = 0) →
  ∃ d' f' c, append_cluster g d f last true = Some (d', f', 0) ∧ good d' f' ∧ io_same f f' ∧
    2 ≤ c < clusters + 2 ∧ value d f c = 0 ∧
    (∀ o, 0 ≤ o < clusters + 2 →
       value d' f' o = if o =? last then c else if o =? c then 0x0FFFFFFF else value d f o) ∧
    (∀ a, outside_tables a → content d' a = content d a).
Proof.
  intros Hgood Hlast Hend (o & Ho & Hz). pose proof (clusters_range g Hg) as Hcr. unfold append_cluster.
  destruct (get_step bs g Hg Hbs d f last Hgood ltac:(lia)) as (d1 & f1 & -> & Hq1 & Hio1).
  pose proof Hq1 as (Hgood1 & Hv1 & _). cbn [mbind option_bind].
  rewrite (proj2 (Z.ltb_ge (value d f last) 0x0FFFFFF8)), andb_false_r by done.
  destruct (allocate_step bs g Hg Hbs d1 f1 Hgood1) as (d2 & f2 & r & c & -> & Hq2 & Hio2 & Hres).
  pose proof (quiet_trans bs g _ _ _ _ _ _ Hq1 Hq2) as (Hgood2 & Hv2 & Ho2). cbn [mbind option_bind].
  destruct Hres as [(-> & Hc & Hcz)|(_ & _ & Hfull)].
  2: { exfalso. apply (Hfull o Ho). by rewrite Hv1 by lia. }
  rewrite Hv1 in Hcz by lia. cbn [Z.eqb negb mbind option_bind].
  destruct (set_step bs g Hg Hbs d2 f2 c 0x0FFFFFFF Hgood2 ltac:(lia) ltac:(done))
    as (d3 & f3 & -> & Hgood3 & Hio3 & Hv3 & Ho3).
  cbn [mbind option_bind Z.eqb negb write_table_unless].
  destruct (set_step bs g Hg Hbs d3 f3 last c Hgood3 ltac:(lia))
    as (d4 & f4 & -> & Hgood4 & Hio4 & Hv4 & Ho4); [change (2 ^ 32) with 4294967296; lia|].
  cbn [mbind option_bind Z.eqb negb write_table_unless].
  exists d4, f4, c. split; [done|]. split; [done|].
  split; [apply (io_same_trans _ f1); [done|]; apply (io_same_trans _ f2); [done|]; by apply (io_same_trans _ f3)|].
  split; [done|]. split; [done|]. split.
  - intros x Hx. rewrite Hv4, Hv3, Hv2 by done. rewrite (stored_cluster g Hg) by lia.
    destruct (x =? last); [done|]. destruct (x =? c); [by destruct (type g)|done].
  - intros a Ha. by rewrite Ho4, Ho3, Ho2.
Qed.

(** A volume in which only clusters outside of the chain [cs] and free in [v0]
    were taken, to give the longer chain [cs1]; the contents of the clusters are
    those of [v0]. *)
Record extended (v0 : volume D) (cs : list Z) (free_clusters : Z) (v1 : volume D) (cs1 : list Z) : Prop := {
  ext_volume : v1 = set_device v0 (dev v1) (inst v1);
  ext_good : good (dev v1) (inst v1);
  ext_prefix : cs `prefix_of` cs1;
  ext_chain : chain (value (dev v1) (inst v1)) cs1;
  ext_new : ∀ c, c ∈ cs1 → c ∈ cs ∨ (2 ≤ c < clusters + 2 ∧ value (dev v0) (inst v0) c = 0);
  ext_value : ∀ o, 0 ≤ o < clusters + 2 → o ∉ cs1 →
                value (dev v1) (inst v1) o = value (dev v0) (inst v0) o;
  ext_content : ∀ a, outside_tables a → content (dev v1) a = content (dev v0) a;
  ext_free : ∃ l, free_list (value (dev v1) (inst v1)) l ∧
               Z.of_nat (length cs) + free_clusters ≤ Z.of_nat (length cs1 + length l) }.

Lemma extended_refl v cs l :
  good (dev v) (inst v) → chain (value (dev v) (inst v)) cs → free_list (value (dev v) (inst v)) l →
  extended v cs (Z.of_nat (length l)) v cs.
Proof.
  intros Hgood Hch Hl. split; try done; [by destruct v|by left|]. exists l. split; [done|lia].
Qed.

Lemma extended_quiet v0 cs n v1 cs1 d f :
  extended v0 cs n v1 cs1 → quiet (dev v1) (inst v1) d f → extended v0 cs n (set_device v1 d f) cs1.
Proof.
  intros [Hvol _ Hp Hch Hnew Hval Hcon (l & [Hnd Hfr] & Hl)] (Hgood & Hv & Ho). split; try done.
  - by rewrite Hvol.
  - by apply (chain_ext g (value (dev v1) (inst v1))).
  - intros o Ho' Hn. cbn. rewrite Hv by done. by apply Hval.
  - intros a Ha. cbn. rewrite Ho by done. by apply Hcon.
  - exists l. split; [|done]. split; [done|]. intros c Hc. cbn. destruct (Hfr c Hc) as [Hr Hz].
    by rewrite Hv by lia.
Qed.

Lemma extended_append v0 cs n v1 cs1 last :
  extended v0 cs n v1 cs1 → cs1.[Z.of_nat (length cs1) - 1] = Some last →
  Z.of_nat (length cs1) < Z.of_nat (length cs) + n →
  wp (append_cluster' g last true) v1 (λ v2 r, r = 0 ∧ ∃ c, extended v0 cs n v2 (cs1 ++ [c]) ∧
        value (dev v2) (inst v2) last = c ∧ 2 ≤ c < clusters + 2).
Proof.
  intros [Hvol Hgood Hp Hch Hnew Hval Hcon (l & Hfree & Hl)] Hlast Hn.
  pose proof (chain_range _ _ _ Hch _ _ Hlast) as Hlr.
  assert (Hex : ∃ o, 2 ≤ o < clusters + 2 ∧ value (dev v1) (inst v1) o = 0).
  { destruct l as [|o l]; [cbn [length] in Hl; lia|]. exists o. apply (free_range _ _ Hfree). left. }
  destruct (append_step (dev v1) (inst v1) last Hgood Hlr (chain_end _ _ _ Hch _ Hlast) Hex)
    as (d & f & c & E & Hgood2 & _ & Hc & Hz & Hv2 & Hc2).
  eapply (wp_lift _ v1 d f); [exact E|]. split; [done|]. exists c.
  assert (Hnl : ∀ x, x ∈ cs1 → x ≠ c).
  { intros x Hx ->. by apply (chain_elem _ _ _ Hch) in Hx as [_ Hx]. }
  assert (Hlin : last ∈ cs1) by (apply rd_Some in Hlast as [_ Hlast]; by apply list_elem_of_lookup_2 in Hlast).
  split; [|split; [|done]].
  2: { cbn. rewrite Hv2 by lia. by rewrite Z.eqb_refl. }
  split; cbn.
  - by rewrite Hvol.
  - done.
  - by apply prefix_app_r.
  - by apply (chain_append (value (dev v1) (inst v1)) _ _ _ last).
  - intros x [Hx| ->%list_elem_of_singleton]%elem_of_app; [by apply Hnew|].
    right. split; [done|]. rewrite <- Hval; [done|lia|]. intros Hin. by apply (Hnl c).
  - intros o Ho Hno. rewrite Hv2 by done.
    rewrite (proj2 (Z.eqb_neq o last)), (proj2 (Z.eqb_neq o c)).
    + apply Hval; [done|]. intros Hin. apply Hno, elem_of_app. by left.
    + intros ->. apply Hno, elem_of_app. right. by apply list_elem_of_singleton.
    + intros ->. apply Hno, elem_of_app. by left.
  - intros a Ha. rewrite Hc2 by done. by apply Hcon.
  - destruct (free_list_take (value (dev v1) (inst v1)) (value d f) l c Hfree) as (l' & Hl' & Hle).
    + intros o Ho Hne Hoz. rewrite Hv2 by lia. rewrite (proj2 (Z.eqb_neq o c)) by done.
      destruct (Z.eqb_spec o last) as [->|]; [|done].
      pose proof (chain_end _ _ _ Hch _ Hlast). lia.
    + exists l'. split; [done|]. rewrite length_app. cbn [length]. lia.
Qed.

(** The clusters up to [file_clusters] are there, and the one of the first write. *)
Lemma chain_loop_ok v0 cs l i0 c0 file_clusters write_index same_size :
  good (dev v0) (inst v0) → chain (value (dev v0) (inst v0)) cs →
  free_list (value (dev v0) (inst v0)) l →
  0 ≤ i0 ≤ write_index → cs.[i0] = Some c0 → write_index < file_clusters →
  file_clusters ≤ Z.of_nat (length cs + length l) →
  (same_size = true → file_clusters ≤ Z.of_nat (length cs)) →
  wp (loop (S (Z.to_nat (clusters + 2)))
        (chain_turn g (clusters + 2) write_index file_clusters same_size) (i0, c0, 0)) v0
    (λ v1 x, ∃ cs1, extended v0 cs (Z.of_nat (length l)) v1 cs1 ∧
       file_clusters ≤ Z.of_nat (length cs1) ∧ fst x = 0 ∧ cs1.[write_index] = Some (snd x)).
Proof.
  intros Hgood Hch Hfree Hi0 Hc0 Hwi Hfc Hsame. pose proof (clusters_range g Hg) as Hcr.
  pose proof (chain_free_length _ _ _ Hch Hfree) as Htotal.
  set (n := Z.of_nat (length l)).
  apply (wp_loop (λ v1 s, let '(i, c, oc) := s in ∃ cs1, extended v0 cs n v1 cs1 ∧
             cs1.[i] = Some c ∧ 0 ≤ i ∧ (write_index < i → cs1.[write_index] = Some oc))
           (λ s, let '(i, _, _) := s in Z.to_nat (clusters + 2 - i))).
  2: { exists cs. split; [by apply extended_refl|]. split; [done|]. split; [lia|]. lia. }
  2: { lia. }
  intros v1 [[i c] oc] (cs1 & Hext & Hc & Hi & Hoc). cbn [chain_turn].
  pose proof (ext_chain _ _ _ _ _ Hext) as Hch1. pose proof (rd_lt _ _ _ Hc) as Hil.
  destruct (ext_free _ _ _ _ _ Hext) as (l1 & Hfree1 & Hl1).
  pose proof (chain_free_length _ _ _ Hch1 Hfree1) as Hlen1.
  pose proof (chain_range _ _ _ Hch1 _ _ Hc) as Hcr1.
  rewrite (proj2 (Z.ltb_lt i (clusters + 2))) by lia.
  set (oc' := if i =? write_index then c else oc).
  assert (Hoc' : write_index ≤ i → cs1.[write_index] = Some oc').
  { intros Hle. unfold oc'. destruct (Z.eqb_spec i write_index) as [<-|]; [done|]. apply Hoc. lia. }
  destruct ((i =? write_index) && same_size) eqn:Hend.
  { apply andb_true_iff in Hend as [->%Z.eqb_eq ->]. apply wp_ret. exists cs1. split; [done|].
    split; [|split; [done|apply Hoc'; lia]].
    destruct (ext_prefix _ _ _ _ _ Hext) as [k ->]. rewrite length_app. specialize (Hsame eq_refl). lia. }
  apply wp_bind. unfold get_table_value'.
  destruct (get_step bs g Hg Hbs (dev v1) (inst v1) c (ext_good _ _ _ _ _ Hext) ltac:(lia))
    as (d2 & f2 & E2 & Hq2 & _).
  eapply (wp_lift _ v1 d2 f2); [exact E2|].
  pose proof (extended_quiet _ _ _ _ _ _ _ Hext Hq2) as Hext2.
  pose proof (ext_chain _ _ _ _ _ Hext2) as Hch2.
  set (v2 := set_device v1 d2 f2) in *.
  assert (Hgo : ∀ (v : volume D) cs2 c2, extended v0 cs n v cs2 → cs1 `prefix_of` cs2 →
            cs2.[i + 1] = Some c2 → i < clusters + 2 →
            (∃ cs3, extended v0 cs n v cs3 ∧ cs3.[i + 1] = Some c2 ∧ 0 ≤ i + 1 ∧
                    (write_index < i + 1 → cs3.[write_index] = Some oc')) ∧
            (Z.to_nat (clusters + 2 - (i + 1)) < Z.to_nat (clusters + 2 - i))%nat).
  { intros v cs2 c2 H1 [k ->] H3 H4. split; [|lia]. exists (cs1 ++ k). split; [done|]. split; [done|].
    split; [lia|]. intros Hle. rewrite rd_app_l; [apply Hoc'; lia|].
    specialize (Hoc' ltac:(lia)). apply rd_lt in Hoc'. lia. }
  assert (Hvc : value d2 f2 c = value (dev v1) (inst v1) c) by (apply Hq2; lia).
  destruct (Z.geb_spec (value (dev v1) (inst v1) c) 0x0FFFFFF8) as [Heoc|Hlink].
  - assert (Ei : i = Z.of_nat (length cs1) - 1).
    { destruct (Z.eq_dec i (Z.of_nat (length cs1) - 1)) as [|Hne]; [done|exfalso].
      destruct (rd_is_Some cs1 (i + 1) ltac:(lia)) as [c' Hc'].
      pose proof (chain_next _ _ _ Hch1 _ _ _ Hc Hc'). pose proof (chain_range _ _ _ Hch1 _ _ Hc'). lia. }
    rewrite Z.geb_leb. destruct (Z.leb_spec file_clusters (i + 1)) as [Hdone|Hmore].
    { apply wp_ret. exists cs1. split; [done|]. split; [lia|]. split; [done|]. apply Hoc'. lia. }
    apply wp_bind. eapply wp_mono.
    { apply (extended_append v0 cs n v2 cs1 c Hext2); [by rewrite <- Ei|]. unfold n. lia. }
    intros v3 r (-> & c' & Hext3 & Hv3 & Hc'). cbn [Z.eqb negb].
    apply wp_bind. unfold get_table_value'.
    destruct (get_step bs g Hg Hbs (dev v3) (inst v3) c (ext_good _ _ _ _ _ Hext3) ltac:(lia))
      as (d4 & f4 & E4 & Hq4 & _).
    eapply (wp_lift _ v3 d4 f4); [exact E4|]. rewrite Hv3.
    rewrite (proj2 (Z.ltb_ge c' 2)) by lia. apply wp_ret.
    apply (Hgo _ (cs1 ++ [c']) c'); [by apply extended_quiet|by apply prefix_app_r| |lia].
    rewrite rd_app_r by lia. replace (i + 1 - _) with 0 by lia. done.
  - destruct (Z.eq_dec i (Z.of_nat (length cs1) - 1)) as [->|Hne].
    { pose proof (chain_end _ _ _ Hch1 _ Hc). lia. }
    destruct (rd_is_Some cs1 (i + 1) ltac:(lia)) as [c' Hc'].
    rewrite (chain_next _ _ _ Hch1 _ _ _ Hc Hc'). pose proof (chain_range _ _ _ Hch1 _ _ Hc').
    rewrite (proj2 (Z.ltb_ge c' 2)) by lia. apply wp_ret.
    apply (Hgo _ cs1 c'); [done|done|done|lia].
Qed.
End Chain.
