(* ===== verification/FatWrite.v ===== *)
(** Writing to a file of a FAT volume: [fat_write] of common/fat.c.  What was
    written is read back, and the rest of the file, the gap after the old end
    (zeros), the other clusters and the other records are as they have to be. *)

From S2P Require Import Prelude FatBpb FatTable FatName FatVolume FatDir FatCache FatFile FatRead FatChain.

(** ** The contents of one cluster *)

(** The data of the caller; a null pointer stands for zeros. *)
Definition datum (src : option (list Z)) (j : Z) : Z :=
  match src with None => 0 | Some s => at_ s j end.

Definition enough (src : option (list Z)) (n : Z) : Prop :=
  match src with None => True | Some s => n ≤ Z.of_nat (length s) ∧ Forall is_byte s end.

(** What is written from the old end of the file, or from the offset: [seek]
    zeros and then the data. *)
Definition stream (seek : Z) (src : option (list Z)) (k : Z) : Z :=
  if k <? seek then 0 else datum src (k - seek).

Lemma fill_seek_ok n buf off seek :
  0 ≤ off → off + Z.of_nat n ≤ Z.of_nat (length buf) → 0 < seek →
  let m := Z.min (Z.of_nat n) seek in
  ∃ buf', fill_seek n buf off seek = Some (buf', off + m, seek - m) ∧ length buf' = length buf ∧
    (Forall is_byte buf → Forall is_byte buf') ∧
    ∀ x, 0 ≤ x → at_ buf' x = if (off <=? x) && (x <? off + m) then 0 else at_ buf x.
Proof.
  revert buf off seek. induction n as [|n IH]; intros buf off seek Hoff Hl Hs m; cbn [fill_seek].
  { exists buf. replace m with 0 by lia. rewrite Z.add_0_r, Z.sub_0_r. split; [done|].
    split; [done|]. split; [done|]. intros x Hx.
    destruct (Z.leb_spec off x), (Z.ltb_spec x off); try lia; done. }
  destruct (wr_at buf off 0 ltac:(lia)) as (b1 & E1 & L1 & A1). rewrite E1. cbn [mbind option_bind].
  assert (B1 : Forall is_byte buf → Forall is_byte b1).
  { intros Hb. apply wr_Some_inv in E1 as [_ ->]. apply bytes_insert; [done|unfold is_byte; lia]. }
  destruct (Z.eqb_spec (seek - 1) 0) as [Hz|Hnz].
  - exists b1. replace m with 1 by (unfold m; lia). split; [done|].
    split; [done|]. split; [done|]. intros x Hx. rewrite A1 by done.
    destruct (Z.eqb_spec x off), (Z.leb_spec off x), (Z.ltb_spec x (off + 1)); try lia; done.
  - destruct (IH b1 (off + 1) (seek - 1)) as (b2 & E2 & L2 & B2 & A2); [lia|lia|lia|].
    exists b2. rewrite E2. split; [f_equal; f_equal; [f_equal; lia|lia]|]. split; [congruence|]. split; [by auto|].
    intros x Hx. rewrite A2, A1 by done.
    destruct (Z.leb_spec (off + 1) x), (Z.leb_spec off x), (Z.eqb_spec x off); cbn [andb]; try lia;
      destruct (Z.ltb_spec x (off + 1 + Z.min (Z.of_nat n) (seek - 1))), (Z.ltb_spec x (off + m));
      try lia; done.
Qed.

Lemma copy_in_ok n buf off src written size :
  0 ≤ off → off + Z.of_nat n ≤ Z.of_nat (length buf) → 0 ≤ written < size → enough src size →
  let m := Z.min (Z.of_nat n) (size - written) in
  ∃ buf', copy_in n buf off src written size = Some (buf', off + m, written + m) ∧
    length buf' = length buf ∧ (Forall is_byte buf → Forall is_byte buf') ∧
    ∀ x, 0 ≤ x → at_ buf' x = if (off <=? x) && (x <? off + m) then datum src (written + (x - off))
                              else at_ buf x.
Proof.
  revert buf off written. induction n as [|n IH]; intros buf off written Hoff Hl Hw Hen m; cbn [copy_in].
  { exists buf. replace m with 0 by lia. rewrite !Z.add_0_r. split; [done|]. split; [done|].
    split; [done|]. intros x Hx. destruct (Z.leb_spec off x), (Z.ltb_spec x off); try lia; done. }
  assert (Hb : match src with Some s => s.[written] | None => Some 0 end = Some (datum src written) ∧
               is_byte (datum src written)).
  { destruct src as [s|]; cbn in Hen |- *; [|split; [done|unfold is_byte; lia]].
    split; [apply at_rd; lia|apply at_byte, Hen]. }
  destruct Hb as [Hb Hbyte].
  rewrite Hb. cbn [mbind option_bind].
  destruct (wr_at buf off (datum src written) ltac:(lia)) as (b1 & E1 & L1 & A1).
  rewrite E1. cbn [mbind option_bind].
  assert (B1 : Forall is_byte buf → Forall is_byte b1).
  { intros Hf. apply wr_Some_inv in E1 as [_ ->]. by apply bytes_insert. }
  destruct (Z.ltb_spec (written + 1) size) as [Hlt|Hge]; cbn [negb].
  - destruct (IH b1 (off + 1) (written + 1)) as (b2 & E2 & L2 & B2 & A2); [lia|lia|lia|done|].
    exists b2. rewrite E2. split; [f_equal; f_equal; [f_equal; lia|lia]|]. split; [congruence|]. split; [by auto|].
    intros x Hx. rewrite A2, A1 by done.
    destruct (Z.leb_spec (off + 1) x), (Z.leb_spec off x), (Z.eqb_spec x off); cbn [andb]; try lia;
      destruct (Z.ltb_spec x (off + 1 + Z.min (Z.of_nat n) (size - (written + 1)))),
        (Z.ltb_spec x (off + m)); try lia; try done; f_equal; lia.
  - exists b1. replace m with 1 by (unfold m; lia). split; [done|]. split; [done|]. split; [done|].
    intros x Hx. rewrite A1 by done.
    destruct (Z.eqb_spec x off), (Z.leb_spec off x), (Z.ltb_spec x (off + 1)); try lia; try done.
    cbn [andb]. f_equal. lia.
Qed.

Lemma fill_rest_ok n buf off :
  0 ≤ off → off + Z.of_nat n ≤ Z.of_nat (length buf) →
  ∃ buf', fill_rest n buf off = Some buf' ∧ length buf' = length buf ∧
    (Forall is_byte buf → Forall is_byte buf') ∧
    ∀ x, 0 ≤ x → at_ buf' x = if (off <=? x) && (x <? off + Z.of_nat n) then 0 else at_ buf x.
Proof.
  revert buf off. induction n as [|n IH]; intros buf off Hoff Hl; cbn [fill_rest].
  { exists buf. split; [done|]. split; [done|]. split; [done|]. intros x Hx.
    destruct (Z.leb_spec off x), (Z.ltb_spec x (off + Z.of_nat 0)); try lia; done. }
  destruct (wr_at buf off 0 ltac:(lia)) as (b1 & E1 & L1 & A1). rewrite E1. cbn [mbind option_bind].
  assert (B1 : Forall is_byte buf → Forall is_byte b1).
  { intros Hb. apply wr_Some_inv in E1 as [_ ->]. apply bytes_insert; [done|unfold is_byte; lia]. }
  destruct (IH b1 (off + 1)) as (b2 & E2 & L2 & B2 & A2); [lia|lia|].
  exists b2. split; [done|]. split; [congruence|]. split; [by auto|].
  intros x Hx. rewrite A2, A1 by done.
  destruct (Z.leb_spec (off + 1) x), (Z.leb_spec off x), (Z.eqb_spec x off); cbn [andb]; try lia;
    destruct (Z.ltb_spec x (off + 1 + Z.of_nat n)), (Z.ltb_spec x (off + Z.of_nat (S n)));
    try lia; done.
Qed.

(** One cluster, when [k] of the [seek + size] bytes are done: the next ones,
    and zeros behind them when the old end of the file is passed. *)
Lemma fill_cluster_ok g buf off seek src k size pos old :
  Z.of_nat (length buf) = cluster_size g → 0 ≤ off < cluster_size g → 0 ≤ seek →
  0 ≤ k < seek + size → 0 < size → enough src size → 0 ≤ pos → pos + size < 2 ^ 32 →
  let m := Z.min (cluster_size g - off) (seek + size - k) in
  let k' := k + m in
  let left j := Z.max 0 (seek - j) in
  let written j := Z.max 0 (j - seek) in
  ∃ buf', fill_cluster g buf off (left k) src (written k) size pos old
          = Some (buf', left k', written k') ∧ length buf' = length buf ∧
    (Forall is_byte buf → Forall is_byte buf') ∧
    ∀ x, 0 ≤ x < cluster_size g →
      at_ buf' x = if (off <=? x) && (x <? off + m) then stream seek src (k + (x - off))
                   else if (off + m <=? x) && (old <=? pos + written k') then 0 else at_ buf x.
Proof.
  intros Hl Hoff Hseek Hk Hsize Hen Hpos Hmax m k' left written. unfold fill_cluster.
  set (csz := cluster_size g) in *.
  assert (Elk : left k = Z.max 0 (seek - k)) by done.
  assert (Ewk : written k = Z.max 0 (k - seek)) by done.
  assert (Elk' : left k' = Z.max 0 (seek - k')) by done.
  assert (Ewk' : written k' = Z.max 0 (k' - seek)) by done.
  assert (Ek : k' = k + m) by done. clearbody left written k'.
  set (m1 := Z.min (csz - off) (left k)).
  assert (H1 : ∃ b1, (if negb (left k =? 0) then fill_seek (Z.to_nat (csz - off)) buf off (left k)
                      else Some (buf, off, left k)) = Some (b1, off + m1, left k - m1) ∧
    length b1 = length buf ∧ (Forall is_byte buf → Forall is_byte b1) ∧
    ∀ x, 0 ≤ x → at_ b1 x = if (off <=? x) && (x <? off + m1) then 0 else at_ buf x).
  { destruct (Z.eqb_spec (left k) 0) as [E|Hne]; cbn [negb].
    - exists buf. assert (m1 = 0) as -> by lia. rewrite Z.add_0_r, Z.sub_0_r. split; [done|].
      split; [done|]. split; [done|]. intros x Hx.
      destruct (Z.leb_spec off x), (Z.ltb_spec x off); try lia; done.
    - destruct (fill_seek_ok (Z.to_nat (csz - off)) buf off (left k)) as (b1 & E1 & R1); [lia|lia|lia|].
      rewrite Z2Nat.id in E1, R1 by lia. by exists b1. }
  destruct H1 as (b1 & -> & L1 & B1 & A1). cbn [mbind option_bind].
  set (m2 := Z.min (csz - (off + m1)) (size - written k)).
  destruct (copy_in_ok (Z.to_nat (csz - (off + m1))) b1 (off + m1) src (written k) size)
    as (b2 & E2 & L2 & B2 & A2); [lia|lia|lia|done|].
  rewrite Z2Nat.id in E2, A2 by lia. fold m2 in E2, A2.
  assert (Hm : off + m1 + m2 = off + m ∧ left k - m1 = left k' ∧ written k + m2 = written k') by lia.
  destruct Hm as (Em & -> & Ew). rewrite Em, Ew in E2. rewrite Em in A2. rewrite E2.
  cbn [mbind option_bind].
  rewrite (wrap_small 32 (pos + written k')) by (change (2 ^ 32) with 4294967296 in *; lia).
  assert (H3 : ∃ b3, (if pos + written k' >=? old then fill_rest (Z.to_nat (csz - (off + m))) b2 (off + m)
                      else Some b2) = Some b3 ∧ length b3 = length b2 ∧
    (Forall is_byte b2 → Forall is_byte b3) ∧
    ∀ x, 0 ≤ x < csz → at_ b3 x = if (off + m <=? x) && (old <=? pos + written k') then 0 else at_ b2 x).
  { rewrite Z.geb_leb. destruct (Z.leb_spec old (pos + written k')).
    - destruct (fill_rest_ok (Z.to_nat (csz - (off + m))) b2 (off + m)) as (b3 & E3 & L3 & B3 & A3); [lia|lia|].
      rewrite Z2Nat.id in A3 by lia. exists b3. split; [done|]. split; [done|]. split; [done|].
      intros x Hx. rewrite A3 by lia. rewrite andb_true_r.
      destruct (Z.leb_spec (off + m) x), (Z.ltb_spec x (off + m + (csz - (off + m)))); try lia; done.
    - exists b2. split; [done|]. split; [done|]. split; [done|]. intros x Hx. by rewrite andb_false_r. }
  destruct H3 as (b3 & -> & L3 & B3 & A3). cbn [mbind option_bind]. exists b3. split; [done|].
  split; [congruence|]. split; [by auto|]. intros x Hx. rewrite A3, A2, A1 by lia. unfold stream.
  destruct (Z.leb_spec off x) as [H1|H1]; cbn [andb].
  2: { rewrite (proj2 (Z.leb_gt (off + m) x)), (proj2 (Z.leb_gt (off + m1) x)) by lia. done. }
  destruct (Z.ltb_spec x (off + m)) as [H2|H2]; cbn [andb].
  - rewrite (proj2 (Z.leb_gt (off + m) x)) by lia. cbn [andb].
    destruct (Z.leb_spec (off + m1) x) as [H3|H3]; cbn [andb].
    + rewrite (proj2 (Z.ltb_ge (k + _) seek)) by lia. f_equal. lia.
    + rewrite (proj2 (Z.ltb_lt x (off + m1))), (proj2 (Z.ltb_lt (k + _) seek)) by lia. done.
  - rewrite (proj2 (Z.leb_le (off + m) x)) by lia. cbn [andb].
    destruct (old <=? _); [done|].
    rewrite (proj2 (Z.ltb_ge x (off + m1))) by lia. by destruct (off + m1 <=? x).
Qed.

(** ** Records *)

Definition record_bytes (r : list Z) : Prop := length r = 32%nat ∧ Forall is_byte r.

Lemma record_size_at r :
  record_bytes r →
  record_size r = at_ r 28 + 256 * at_ r 29 + 65536 * at_ r 30 + 16777216 * at_ r 31.
Proof. intros [Hl Hb]. unfold record_size. by rewrite LE32_at by (try done; lia). Qed.

Lemma record_cluster_at r :
  record_bytes r →
  record_cluster r = Some (65536 * (at_ r 20 + 256 * at_ r 21) + (at_ r 26 + 256 * at_ r 27)).
Proof.
  intros [Hl Hb]. unfold record_cluster. rewrite !LE16_at by (try done; lia). cbn [mbind option_bind].
  change (20 + 1) with 21. change (26 + 1) with 27.
  pose proof (at_byte r 20 Hb). pose proof (at_byte r 21 Hb).
  pose proof (at_byte r 26 Hb). pose proof (at_byte r 27 Hb). unfold is_byte in *.
  f_equal. rewrite lor_shiftl_add by lia. change (2 ^ 16) with 65536. ring.
Qed.

Lemma byte_pair x : 0 ≤ x < 65536 → x mod 256 + 256 * ((x / 256) mod 256) = x.
Proof. intros Hx. rewrite (Z.mod_small (x / 256)) by dlia. pose proof (Z.div_mod x 256). lia. Qed.

Lemma set_record_cluster_ok r c :
  record_bytes r → 0 ≤ c < 2 ^ 32 →
  ∃ r', set_record_cluster r c = Some r' ∧ record_bytes r' ∧ record_cluster r' = Some c ∧
    ∀ j, 0 ≤ j → j ≠ 20 → j ≠ 21 → j ≠ 26 → j ≠ 27 → at_ r' j = at_ r j.
Proof.
  intros [Hl Hb] Hc. unfold set_record_cluster.
  destruct (W_LE16_at r 20 (Z.shiftr c 16) ltac:(lia) ltac:(lia)) as (r1 & -> & L1 & A1 & B1).
  cbn [mbind option_bind].
  destruct (W_LE16_at r1 26 (Z.land c 0xFFFF) ltac:(lia) ltac:(lia)) as (r2 & -> & L2 & A2 & B2).
  exists r2. assert (Hr2 : record_bytes r2) by (split; [lia|by auto]).
  split; [done|]. split; [done|]. split.
  - rewrite record_cluster_at by done. change (20 + 1) with 21 in A1. change (26 + 1) with 27 in A2.
    rewrite !A2, !A1 by lia. cbn [Z.eqb Pos.eqb].
    rewrite Z.shiftr_div_pow2 by lia. change 0xFFFF with (2 ^ 16 - 1). rewrite land_ones_mod by lia.
    change (2 ^ 16) with 65536. change (2 ^ 32) with 4294967296 in Hc. f_equal.
    rewrite !byte_pair by dlia. pose proof (Z.div_mod c 65536). lia.
  - intros j Hj N1 N2 N3 N4. rewrite A2, A1 by done.
    by rewrite !(proj2 (Z.eqb_neq _ _)) by lia.
Qed.

Lemma set_size_ok r n :
  record_bytes r → 0 ≤ n < 2 ^ 32 →
  ∃ r', W_LE32 r 28 n = Some r' ∧ record_bytes r' ∧ record_size r' = n ∧
    ∀ j, 0 ≤ j < 28 → at_ r' j = at_ r j.
Proof.
  intros [Hl Hb] Hn.
  destruct (W_LE32_at r 28 n ltac:(lia) ltac:(lia)) as (r1 & E & L1 & A1 & B1). rewrite E.
  exists r1. assert (Hr1 : record_bytes r1) by (split; [lia|by auto]).
  split; [done|]. split; [done|]. split.
  - rewrite record_size_at by done. change (28 + 1) with 29 in A1. change (28 + 2) with 30 in A1. change (28 + 3) with 31 in A1.
    rewrite !A1 by lia. cbn [Z.eqb Pos.eqb]. change (2 ^ 32) with 4294967296 in Hn. dlia.
  - intros j Hj. rewrite A1 by lia. by rewrite !(proj2 (Z.eqb_neq _ _)) by lia.
Qed.

(** The bytes of a record that say where the data is. *)
Lemma same_cluster r r' :
  record_bytes r → record_bytes r' → (∀ j, j = 20 ∨ j = 21 ∨ j = 26 ∨ j = 27 → at_ r' j = at_ r j) →
  record_cluster r' = record_cluster r.
Proof. intros H1 H2 E. rewrite !record_cluster_at by done. by rewrite !E by lia. Qed.

Lemma same_size r r' :
  record_bytes r → record_bytes r' → (∀ j, 28 ≤ j < 32 → at_ r' j = at_ r j) →
  record_size r' = record_size r.
Proof. intros H1 H2 E. rewrite !record_size_at by done. by rewrite !E by lia. Qed.

Lemma stamp_ok {D} (get_time : D → option (list Z)) (v : volume D) r created modified (Q : volume D → list Z → Prop) :
  (∀ d s, get_time d = Some s → length s = 19%nat) → record_bytes r →
  (∀ r', record_bytes r' → (∀ j, 0 ≤ j < 14 ∨ 20 ≤ j < 22 ∨ 26 ≤ j → at_ r' j = at_ r j) → Q v r') →
  wp (stamp get_time r created modified) v Q.
Proof.
  intros Ht [Hl Hb] HQ. unfold stamp. apply wp_bind, wp_get.
  destruct (write_timestamps_ok (get_time (dev v)) r created modified) as (da & ti & r' & _ & E & L & B & A).
  - intros s Hs. by apply (Ht (dev v)).
  - lia.
  - eapply wp_access; [exact E|]. apply HQ; [split; [lia|by auto]|].
    intros j Hj. rewrite A by lia. unfold stamped.
    rewrite !(proj2 (Z.eqb_neq _ _)) by lia. by rewrite !andb_false_r.
Qed.

(** ** A copy into a buffer *)

Lemma splice_at l i data :
  0 ≤ i → i + Z.of_nat (length data) ≤ Z.of_nat (length l) →
  ∃ l', splice l i data = Some l' ∧ length l' = length l ∧
    (Forall is_byte l → Forall is_byte data → Forall is_byte l') ∧
    ∀ j, 0 ≤ j → at_ l' j = if (i <=? j) && (j <? i + Z.of_nat (length data))
                            then at_ data (j - i) else at_ l j.
Proof.
  intros Hi Hl. unfold splice. rewrite !(proj2 (Z.leb_le _ _)) by lia. cbn [andb].
  eexists. split; [done|]. split; [autorewrite with len; lia|]. split; [eauto 10 with bytes|].
  intros j Hj. unfold at_. destruct (Z.leb_spec i j) as [Hij|Hij]; cbn [andb].
  - rewrite rd_app_r by (autorewrite with len; lia). autorewrite with len.
    rewrite Nat.min_l by lia. rewrite Z2Nat.id by lia.
    destruct (Z.ltb_spec j (i + Z.of_nat (length data))).
    + by rewrite rd_app_l by lia.
    + rewrite rd_app_r by lia. unfold rd. rewrite !(proj2 (Z.leb_le _ _)) by lia.
      rewrite lookup_drop. do 2 f_equal. lia.
  - rewrite rd_app_l by (autorewrite with len; lia). unfold rd.
    rewrite !(proj2 (Z.leb_le _ _)) by lia. by rewrite lookup_take_lt by lia.
Qed.

Section Write.
Context {D : Type} `{HD : BlockDevice D} (bs : Z) `{HDok : !BlockDeviceOk D bs}.
Context (g : geometry) (Hg : geometry_ok g) (Hbs : fs_bytes_per_sector g = io_mul g * bs).

Abbreviation bps := (fs_bytes_per_sector g).
Abbreviation csz := (cluster_size g).
Abbreviation clusters := (fs_clusters g).
Abbreviation outside_tables := (outside_tables g).
Abbreviation in_cluster := (in_cluster g).
Abbreviation value := (value bs g).
Abbreviation good := (good bs g).
Abbreviation quiet := (quiet bs g).
Abbreviation chain := (chain g).
Abbreviation free_list := (free_list g).
Abbreviation file_byte := (file_byte bs g).
Abbreviation is_file := (is_file bs g).

(** ** The record on the device *)

(** The address of the record of a descriptor. *)
Definition place (e : fat_fd) : Z := record_sector e * bps + record_offset e.

Definition at_place (e : fat_fd) (a : Z) : bool := (place e <=? a) && (a <? place e + 32).

Definition place_ok (e : fat_fd) : Prop :=
  fs_last_table_sector g < record_sector e ∧ 0 ≤ record_offset e ∧ record_offset e + 32 ≤ bps.

(** The record is not in the cluster. *)
Definition apart (e : fat_fd) (c : Z) : Prop := ∀ a, in_cluster c a → at_place e a = false.

Lemma place_plain e : place_ok e → plain_sector g (record_sector e).
Proof.
  intros (Hs & _). destruct (bps_range g Hg) as [Hb _]. pose proof (geo_last_table g Hg) as Hlt.
  pose proof (geo_reserved g Hg). pose proof (geo_table_sectors g Hg).
  assert (0 ≤ fs_tables g * fs_table_sectors g) by (destruct (geo_tables g Hg) as [-> | ->]; lia).
  split; [lia|]. intros j Hj. right. nia.
Qed.

Lemma write_record_ok (v : volume D) fd e :
  good (dev v) (inst v) → (fds v).[fd] = Some e → record_bytes (record e) → place_ok e →
  wp (write_record_buffer g fd) v (λ v' r, r = 0 ∧ v' = set_device v (dev v') (inst v') ∧
    good (dev v') (inst v') ∧
    (∀ o, 0 ≤ o < clusters + 2 → value (dev v') (inst v') o = value (dev v) (inst v) o) ∧
    ∀ a, content (dev v') a = if at_place e a then at_ (record e) (a - place e) else content (dev v) a).
Proof.
  intros Hgood He [Hrl Hrb] Hpl. pose proof (place_plain e Hpl) as Hplain. destruct Hpl as (Hs & Ho & Hob).
  unfold write_record_buffer. apply wp_bind. eapply wp_get_fd; [exact He|].
  rewrite Z.gtb_ltb, (proj2 (Z.ltb_ge bps (record_offset e))) by lia.
  rewrite (proj2 (Z.leb_gt (record_sector e) _)) by lia. cbv zeta.
  destruct (read_block_step bs g Hg Hbs (dev v) (inst v) (record_sector e) Hgood Hplain)
    as (d1 & buf & E1 & Hgood1 & Hv1 & Hc1 & Hl1 & Hb1 & Hat1).
  apply wp_bind. eapply (wp_lift _ v); [exact E1|]. cbv iota. apply wp_bind, wp_get.
  destruct (ca_block _ _ _ _ (proj1 (proj2 Hgood))) as [Hbl _].
  cbn [set_device inst set_block block_buffer].
  destruct (splice_at buf (record_offset e) (record e)) as (buf2 & E2 & L2 & B2 & A2); [lia|lia|].
  apply wp_bind. eapply wp_access; [exact E2|]. apply wp_bind, wp_modify.
  destruct (write_block_step bs g Hg Hbs d1 (inst v) (record_sector e) buf buf2 Hgood1 Hplain L2 (B2 Hb1 Hrb))
    as (d2 & Ew & Hgood2 & Hv2 & Hc2).
  apply wp_bind. unfold write_block'. eapply wp_lift; [exact Ew|]. apply wp_ret.
  split; [done|]. split; [done|]. split; [done|]. split.
  - intros o Hoo. cbn [set_device dev inst]. rewrite Hv2 by done. by apply Hv1.
  - intros a. cbn [set_device dev]. rewrite Hc2, Hc1. unfold at_place, place. rewrite Hrl in A2.
    destruct (Z.leb_spec (record_sector e * bps) a) as [H1|H1]; cbn [andb].
    2: { by rewrite (proj2 (Z.leb_gt (_ + _) a)) by lia. }
    destruct (Z.ltb_spec a (record_sector e * bps + bps)) as [H2|H2].
    2: { rewrite (proj2 (Z.ltb_ge a (_ + 32))) by lia. by rewrite andb_false_r. }
    rewrite A2 by lia. rewrite Hat1 by lia.
    replace (record_sector e * bps + (a - record_sector e * bps)) with a by lia.
    replace (a - record_sector e * bps - record_offset e) with (a - (record_sector e * bps + record_offset e)) by lia.
    destruct (Z.leb_spec (record_offset e) (a - record_sector e * bps)),
      (Z.leb_spec (record_sector e * bps + record_offset e) a); try lia; try done.
    destruct (Z.ltb_spec (a - record_sector e * bps) (record_offset e + Z.of_nat 32)),
      (Z.ltb_spec a (record_sector e * bps + record_offset e + 32)); try lia; done.
Qed.

(** ** The data *)

(** A cluster in the buffer, or the buffer with any contents for it. *)
Lemma load_ok d f c (skip : bool) :
  good d f → 2 ≤ c < clusters + 2 →
  ∃ d' f', read_cluster g d f c skip = Some (d', f', 0) ∧ good d' f' ∧
    (∀ o, 0 ≤ o < clusters + 2 → value d' f' o = value d f o) ∧
    (∀ a, content d' a = content d a) ∧ cluster_sector f' = first_sector g c ∧
    (cluster_buffer_lba f' = 0 ∨ cluster_buffer_lba f' = first_sector g c * io_mul g) ∧
    (skip = false → ∀ j, 0 ≤ j < csz → at_ (cluster_buffer f') j = content d (cluster_addr g c + j)).
Proof.
  intros Hgood Hc. destruct skip.
  - destruct (skip_cluster_step bs g Hg Hbs d f c Hgood Hc) as (f' & E & Hgood' & Hv & Ef).
    exists d, f'. split; [done|]. split; [done|]. split; [done|]. split; [done|].
    rewrite Ef. split; [done|]. split; [by left|done].
  - destruct (read_cluster_step bs g Hg Hbs d f c Hgood Hc) as (d' & f' & E & Hgood' & Hv & Hc' & Ef & Hat).
    exists d', f'. split; [done|]. split; [done|]. split; [done|]. split; [done|].
    split; [by rewrite Ef|]. split; [right; by rewrite Ef|]. intros _. exact Hat.
Qed.

(** One cluster of a file is replaced. *)
Lemma file_byte_store d d' cs q c buf p :
  cs.[q] = Some c → (∀ i, cs.[i] = Some c → i = q) →
  (∀ i x, cs.[i] = Some x → 2 ≤ x < clusters + 2) →
  (∀ a, content d' a = if (cluster_addr g c <=? a) && (a <? cluster_addr g c + csz)
                       then at_ buf (a - cluster_addr g c) else content d a) →
  is_Some (cs.[p / csz]) →
  file_byte d' cs p = if p / csz =? q then at_ buf (p mod csz) else file_byte d cs p.
Proof.
  intros Hc Hinj Hr Hcon [x Hx]. pose proof (cluster_size_pos bs g Hg Hbs) as Hcsz.
  unfold FatRead.file_byte. rewrite Hx. change (default 0 (Some x)) with x. rewrite Hcon.
  pose proof (Z.mod_pos_bound p csz Hcsz) as Hm.
  destruct (Z.eqb_spec (p / csz) q) as [E|Hne].
  - rewrite E, Hc in Hx. injection Hx as <-.
    rewrite (proj2 (Z.leb_le _ _)), (proj2 (Z.ltb_lt _ _)) by lia. cbn [andb].
    by replace (cluster_addr g c + p mod csz - cluster_addr g c) with (p mod csz) by lia.
  - destruct (Z.leb_spec (cluster_addr g c) (cluster_addr g x + p mod csz)); cbn [andb]; [|done].
    destruct (Z.ltb_spec (cluster_addr g x + p mod csz) (cluster_addr g c + csz)); [|done].
    exfalso. apply Hne, Hinj. rewrite Hx. f_equal.
    apply (in_cluster_inj bs g Hg Hbs c x (cluster_addr g x + p mod csz)); unfold FatTable.in_cluster; lia.
Qed.

(** The state of the write loop after [k] of the [seek + size] bytes: [start] is
    where it began, [old] the old size, [pos] the offset. *)
Record storing (v0 v1 : volume D) (fd : Z) (e : fat_fd) (cs : list Z) (src : option (list Z))
    (start seek old new k : Z) : Prop := {
  st_volume : ∃ idx val, v1 = with_fd (set_device v0 (dev v1) (inst v1)) fd (set_known e idx val) ∧
                (new ≤ k → known cs (set_known e idx val));
  st_good : good (dev v1) (inst v1);
  st_value : ∀ o, 0 ≤ o < clusters + 2 → value (dev v1) (inst v1) o = value (dev v0) (inst v0) o;
  st_before : ∀ p, 0 ≤ p < start → is_Some (cs.[p / csz]) →
                file_byte (dev v1) cs p = file_byte (dev v0) cs p;
  st_data : ∀ p, start ≤ p < start + k → is_Some (cs.[p / csz]) →
              file_byte (dev v1) cs p = stream seek src (p - start);
  st_after : ∀ p, start + k ≤ p < old → is_Some (cs.[p / csz]) →
               file_byte (dev v1) cs p = file_byte (dev v0) cs p;
  st_other : ∀ a, outside_tables a → (∀ c, c ∈ cs → ~ in_cluster c a) →
               content (dev v1) a = content (dev v0) a }.

Section Store.
Context (v0 : volume D) (fd : Z) (e : fat_fd) (cs : list Z) (src : option (list Z)).
Context (start seek old size : Z).
Abbreviation total := (seek + size).
Abbreviation pos := (start + seek).
Abbreviation left k := (Z.max 0 (seek - k)).
Abbreviation written k := (Z.max 0 (k - seek)).
Abbreviation state v1 k := (storing v0 v1 fd e cs src start seek old total k).

Context (Hgood : good (dev v0) (inst v0)) (He : (fds v0).[fd] = Some e) (Hoff : offset e = pos)
  (Hch : chain (value (dev v0) (inst v0)) cs).
Context (Hstart : 0 ≤ start) (Hseek : 0 ≤ seek) (Hsize : 0 < size) (Hgap : seek = 0 ∨ start = old)
  (Hen : enough src size) (Hmax : pos + size < 2 ^ 32)
  (Hroom : ∀ p, 0 ≤ p < pos + size → p / csz < Z.of_nat (length cs)).

Lemma store_room p : 0 ≤ p < pos + size → ∃ c, cs.[p / csz] = Some c.
Proof.
  intros Hp. pose proof (cluster_size_pos bs g Hg Hbs). apply rd_is_Some.
  split; [apply Z.div_pos; lia|by apply Hroom].
Qed.

(** One turn of the loop on the bytes. *)
Lemma store_turn v1 d f k q c buf buf' d' f' idx :
  state v1 k → 0 ≤ k < total →
  q = (start + k) / csz → cs.[q] = Some c →
  let off := (start + k) mod csz in
  let skip := (pos + written k >=? old) && (off =? 0) in
  let m := Z.min (csz - off) (total - k) in
  (∀ a, content d a = content (dev v1) a) →
  (∀ o, 0 ≤ o < clusters + 2 → value d f o = value (dev v1) (inst v1) o) →
  (skip = false → ∀ j, 0 ≤ j < csz → at_ buf j = content d (cluster_addr g c + j)) →
  (∀ x, 0 ≤ x < csz →
      at_ buf' x = if (off <=? x) && (x <? off + m) then stream seek src (k + (x - off))
                   else if (off + m <=? x) && (old <=? pos + written (k + m)) then 0 else at_ buf x) →
  (∀ a, content d' a = if (cluster_addr g c <=? a) && (a <? cluster_addr g c + csz)
                       then at_ buf' (a - cluster_addr g c) else content d a) →
  (∀ o, 0 ≤ o < clusters + 2 → value d' f' o = value d f o) → good d' f' →
  idx = (pos + written k) / csz →
  state (with_fd (set_device v0 d' f') fd (set_known e idx c)) (k + m).
Proof.
  intros [_ _ Hval Hbef Hdat Haft Hoth] Hk Hq Hc off skip m Hcon Hval1 Hbuf Hbuf' Hcon' Hval' Hgood' Hidx.
  pose proof (cluster_size_pos bs g Hg Hbs) as Hcsz.
  pose proof (Z.div_mod (start + k) csz ltac:(lia)) as Hdm. rewrite <- Hq in Hdm. fold off in Hdm.
  pose proof (Z.mod_pos_bound (start + k) csz Hcsz) as Hmb. fold off in Hmb.
  pose proof (chain_range _ _ _ Hch _ _ Hc) as Hcr.
  assert (Hold : ∀ p, file_byte d cs p = file_byte (dev v1) cs p) by (intros p; apply Hcon).
  assert (Hst : ∀ p, is_Some (cs.[p / csz]) → file_byte d' cs p
            = if p / csz =? q then at_ buf' (p mod csz) else file_byte d cs p).
  { intros p Hp. apply (file_byte_store d d' cs q c); [done| |apply (chain_range _ _ _ Hch)|done|done].
    intros i Hi. by apply (chain_inj g Hg _ _ _ _ c Hch). }
  assert (Hin : ∀ p, p / csz = q → p = csz * q + p mod csz ∧ 0 ≤ p mod csz < csz).
  { intros p <-. split; [apply Z.div_mod; lia|by apply Z.mod_pos_bound]. }
  assert (Hkeep : ∀ p, cs.[p / csz] = Some c → skip = false →
            at_ buf (p mod csz) = file_byte (dev v1) cs p).
  { intros p Hp Hs. rewrite (Hbuf Hs) by (by apply Z.mod_pos_bound). rewrite Hcon.
    unfold FatRead.file_byte. by rewrite Hp. }
  assert (Hskip : off ≠ 0 ∨ pos + written k < old → skip = false).
  { unfold skip. rewrite Z.geb_leb. intros [H|H]; [|by rewrite (proj2 (Z.leb_gt _ _)) by lia].
    by rewrite (proj2 (Z.eqb_neq off 0)), andb_false_r. }
  split; cbn [with_fd set_fds set_device dev inst].
  - exists idx, c. split; [done|]. intros Hlast. split; [cbn; rewrite Hidx; apply Z.div_pos; lia|]. intros _.
    cbn [set_known cluster_idx cluster_val]. rewrite Hidx.
    replace ((pos + written k) / csz) with q; [done|].
    apply (Z.div_unique _ csz q (pos + written k - csz * q)); lia.
  - done.
  - intros o Ho. by rewrite Hval', Hval1, Hval.
  - intros p Hp Hs. rewrite Hst by done. destruct (Z.eqb_spec (p / csz) q) as [E|Hne].
    2: { rewrite Hold. by apply Hbef. }
    destruct (Hin p E) as [Ep Hx]. rewrite Hbuf' by done.
    rewrite (proj2 (Z.leb_gt off _)), (proj2 (Z.leb_gt (off + m) _)) by lia. cbn [andb].
    rewrite Hkeep; [by apply Hbef|by rewrite E|]. apply Hskip. lia.
  - intros p Hp Hs. rewrite Hst by done. destruct (Z.eqb_spec (p / csz) q) as [E|Hne].
    + destruct (Hin p E) as [Ep Hx]. rewrite Hbuf' by done.
      destruct (Z.leb_spec off (p mod csz)) as [H1|H1].
      * rewrite (proj2 (Z.ltb_lt (p mod csz) _)) by lia. cbn [andb]. f_equal. lia.
      * rewrite (proj2 (Z.leb_gt (off + m) _)) by lia. cbn [andb].
        rewrite Hkeep; [apply Hdat; [lia|done]|by rewrite E|]. apply Hskip. lia.
    + rewrite Hold. apply Hdat; [|done]. split; [lia|].
      destruct (Z.lt_ge_cases p (start + k)) as [|Hge]; [done|exfalso]. apply Hne. symmetry.
      apply (Z.div_unique p csz q (p - csz * q)); lia.
  - intros p Hp Hs. rewrite Hst by done. destruct (Z.eqb_spec (p / csz) q) as [E|Hne].
    2: { rewrite Hold. apply Haft; [lia|done]. }
    destruct (Hin p E) as [Ep Hx]. rewrite Hbuf' by done.
    rewrite (proj2 (Z.ltb_ge (p mod csz) _)), andb_false_r by lia.
    rewrite (proj2 (Z.leb_gt old _)), andb_false_r by lia.
    rewrite Hkeep; [apply Haft; [lia|done]|by rewrite E|]. apply Hskip. right. lia.
  - intros a Ha Hno. rewrite Hcon'.
    assert (Hcin : c ∈ cs) by (apply rd_Some in Hc as [_ Hc]; by apply list_elem_of_lookup_2 in Hc).
    specialize (Hno c Hcin) as Hnc. unfold FatTable.in_cluster in Hnc.
    destruct (Z.leb_spec (cluster_addr g c) a); cbn [andb]; [|by rewrite Hcon, Hoth].
    destruct (Z.ltb_spec a (cluster_addr g c + csz)); [lia|by rewrite Hcon, Hoth].
Qed.

Lemma storing_fd v1 k :
  state v1 k → ∃ e1, (fds v1).[fd] = Some e1 ∧ offset e1 = pos ∧
    ∀ d f idx val, with_fd (set_device v1 d f) fd (set_known e1 idx val)
                   = with_fd (set_device v0 d f) fd (set_known e idx val).
Proof.
  intros [(idx & val & Hv & _) _ _ _ _ _ _]. exists (set_known e idx val).
  split; [rewrite Hv; by apply (fds_with_fd _ fd _ e)|]. split; [done|].
  intros d f idx' val'. rewrite Hv. apply (with_fd_twice (set_device v0 d f)).
Qed.

Lemma storing_quiet v1 k d f :
  state v1 k → quiet (dev v1) (inst v1) d f → state (set_device v1 d f) k.
Proof.
  intros [(idx & val & Hv & Hk) _ Hval Hbef Hdat Haft Hoth] Hq. pose proof Hq as (Hgood' & Hv' & Ho').
  assert (Hfb : ∀ p, is_Some (cs.[p / csz]) → file_byte d cs p = file_byte (dev v1) cs p).
  { intros p. apply (quiet_file_byte bs g Hg Hbs _ _ _ _ _ _ Hq), (chain_range _ _ _ Hch). }
  split; cbn [set_device dev inst].
  - exists idx, val. split; [by rewrite Hv|done].
  - done.
  - intros o Ho. by rewrite Hv', Hval.
  - intros p Hp Hs. rewrite Hfb by done. by apply Hbef.
  - intros p Hp Hs. rewrite Hfb by done. by apply Hdat.
  - intros p Hp Hs. rewrite Hfb by done. by apply Haft.
  - intros a Ha Hno. rewrite Ho' by done. by apply Hoth.
Qed.

Lemma storing_0 : state v0 0.
Proof.
  split; [|done|done|done| |done|done]; [|intros p Hp; lia].
  exists (cluster_idx e), (cluster_val e). rewrite set_device_same.
  split; [|lia]. rewrite (with_fd_same v0 fd); [done|]. rewrite He. by destruct e.
Qed.

Lemma store_loop_ok c0 :
  cs.[start / csz] = Some c0 →
  wp (loop (S (Z.to_nat total)) (write_turn g fd size size old src) (c0, start mod csz, seek, 0, 0)) v0
    (λ v1 wb, wb = size ∧ state v1 total).
Proof.
  intros Hc0. pose proof (cluster_size_pos bs g Hg Hbs) as Hcsz. pose proof (clusters_range g Hg) as Hcr.
  change (2 ^ 32) with 4294967296 in Hmax.
  apply (wp_loop (λ v1 s, let '(c, off, lf, wr, wb) := s in ∃ k, 0 ≤ k ≤ total ∧ state v1 k ∧
             lf = left k ∧ wr = written k ∧ wb = written k ∧
             (k < total → cs.[(start + k) / csz] = Some c ∧ off = (start + k) mod csz))
           (λ s, let '(_, _, lf, wr, _) := s in Z.to_nat (lf + (size - wr)))).
  2: { exists 0. split; [lia|]. split; [by apply storing_0|]. split; [lia|]. split; [lia|]. split; [lia|].
       by rewrite Z.add_0_r. }
  2: { lia. }
  intros v1 [[[[c off] lf] wr] wb] (k & Hk & Hst & -> & -> & -> & Hcur). cbn [write_turn].
  destruct (Z.ltb_spec (written k) size) as [Hlt|Hge].
  2: { apply wp_ret. assert (k = total) as -> by lia. split; [lia|done]. }
  destruct (Hcur ltac:(lia)) as [Hc ->]. set (q := (start + k) / csz) in *.
  set (off := (start + k) mod csz) in *.
  pose proof (Z.mod_pos_bound (start + k) csz Hcsz) as Hmb. fold off in Hmb.
  pose proof (chain_range _ _ _ Hch _ _ Hc) as Hcrange.
  destruct (storing_fd v1 k Hst) as (e1 & He1 & Ho1 & Hwith).
  apply wp_bind. eapply wp_get_fd; [exact He1|]. rewrite Ho1.
  rewrite (wrap_small 32 (pos + written k)) by lia. cbv zeta.
  set (skip := (pos + written k >=? old) && (off =? 0)).
  destruct (load_ok (dev v1) (inst v1) c skip (st_good _ _ _ _ _ _ _ _ _ _ _ Hst) Hcrange)
    as (d2 & f2 & E2 & Hgood2 & Hval2 & Hcon2 & Hsec & Hlba & Hbuf).
  apply wp_bind. eapply (wp_lift _ v1 d2 f2); [exact E2|]. cbn [Z.eqb negb].
  apply wp_bind. eapply wp_update_fd; [exact He1|]. rewrite Ho1.
  rewrite (wrap_small 32 (pos + written k)) by lia. rewrite Hwith.
  set (e2 := set_known e _ c). apply wp_bind, wp_get.
  cbn [with_fd set_fds set_device inst].
  destruct (ok_cluster _ _ _ _ (proj1 Hgood2)) as [Hbl Hbb].
  destruct (fill_cluster_ok g (cluster_buffer f2) off seek src k size pos old)
    as (buf & Ef & Hlf & Hbf & Haf); [done|lia|done|lia|lia|done|lia|lia|].
  set (m := Z.min (csz - off) (total - k)) in *.
  apply wp_bind. eapply wp_access; [exact Ef|]. cbv beta iota.
  apply wp_bind, wp_modify.
  destruct (write_cluster_step bs g Hg Hbs d2 f2 c buf Hgood2 Hcrange Hsec Hlba)
    as (d3 & Ew & Hgood3 & Hval3 & Hcon3); [lia|by apply Hbf|].
  apply wp_bind. unfold write_cluster'. eapply wp_lift; [exact Ew|]. cbn [Z.eqb negb].
  set (f3 := set_block _ _ 0) in *.
  assert (Hst3 : state (with_fd (set_device v0 d3 f3) fd e2) (k + m)).
  { apply (store_turn v1 d2 f2 k q c (cluster_buffer f2) buf d3 f3); try done; [lia|].
    intros Hs j Hj. rewrite Hcon2. by apply Hbuf. }
  destruct (get_step bs g Hg Hbs d3 f3 c Hgood3 ltac:(lia)) as (d4 & f4 & E4 & Hq4 & _).
  apply wp_bind. unfold get_table_value'. eapply wp_lift; [exact E4|].
  assert (Hv3 : value d3 f3 c = value (dev v0) (inst v0) c).
  { apply (st_value _ _ _ _ _ _ _ _ _ _ _ Hst3). lia. }
  rewrite Hv3. pose proof (storing_quiet _ _ d4 f4 Hst3 Hq4) as Hst4.
  assert (Hnext : k + m < total → cs.[(start + (k + m)) / csz] = Some (value (dev v0) (inst v0) c) ∧
                  0 = (start + (k + m)) mod csz).
  { intros Hm. pose proof (Z.div_mod (start + k) csz ltac:(lia)) as Hdm. fold q in Hdm. fold off in Hdm.
    destruct (position g (q + 1) 0 0 Hcsz ltac:(lia)) as [E1 E3].
    replace (csz * (q + 1) + 0 + 0) with (start + (k + m)) in E1, E3 by lia. rewrite E1, E3.
    split; [|done]. destruct (store_room (start + (k + m)) ltac:(lia)) as [c' Hc']. rewrite E1 in Hc'.
    rewrite Hc'. f_equal. symmetry. by apply (chain_next _ _ _ Hch q). }
  destruct (Z.geb_spec (value (dev v0) (inst v0) c) 0x0FFFFFF8) as [Heoc|Hlink].
  - apply wp_ret. assert (E : k + m = total).
    { destruct (Z.lt_ge_cases (k + m) total) as [Hm|]; [exfalso|lia].
      destruct (Hnext Hm) as [Hc' _]. pose proof (chain_range _ _ _ Hch _ _ Hc'). lia. }
    rewrite E in Hst4 |- *. split; [lia|done].
  - apply wp_ret. split; [|lia]. exists (k + m). split; [lia|]. split; [done|]. done.
Qed.
End Store.

(** ** The file that is written *)

(** An open file that may be modified, its chain, and free clusters. *)
Record writable (v : volume D) (fd : Z) (e : fat_fd) (cs l : list Z) : Prop := {
  wr_good : good (dev v) (inst v);
  wr_file : is_file v fd e cs;
  wr_modify : has (mode e) MODE_MODIFY = true;
  wr_place : place_ok e;
  wr_apart : ∀ c, 2 ≤ c < clusters + 2 → c ∈ cs ∨ value (dev v) (inst v) c = 0 → apart e c;
  wr_free : free_list (value (dev v) (inst v)) l }.

(** What a step outside of the clusters [cs] and the record leaves alone. *)
Definition frame (v v' : volume D) (e : fat_fd) (cs : list Z) : Prop :=
  (∀ o, 0 ≤ o < clusters + 2 → o ∉ cs → value (dev v') (inst v') o = value (dev v) (inst v) o) ∧
  ∀ a, outside_tables a → at_place e a = false → (∀ c, c ∈ cs → ~ in_cluster c a) →
    content (dev v') a = content (dev v) a.

Lemma cluster_outside c a : 2 ≤ c → in_cluster c a → outside_tables a.
Proof. intros Hc Ha. by apply (in_cluster_data bs g Hg Hbs c). Qed.

Lemma apart_file_byte d d' e cs p :
  (∀ i c, cs.[i] = Some c → 2 ≤ c < clusters + 2 ∧ apart e c) → is_Some (cs.[p / csz]) →
  (∀ a, outside_tables a → at_place e a = false → content d' a = content d a) →
  file_byte d' cs p = file_byte d cs p.
Proof.
  intros Hcs [c Hc] Hcon. destruct (Hcs _ _ Hc) as [Hr Hap].
  unfold FatRead.file_byte. rewrite Hc. change (default 0 (Some c)) with c.
  pose proof (cluster_size_pos bs g Hg Hbs) as Hcsz. pose proof (Z.mod_pos_bound p csz Hcsz) as Hm.
  assert (Hin : in_cluster c (cluster_addr g c + p mod csz)) by (unfold FatTable.in_cluster; lia).
  apply Hcon; [apply (cluster_outside c); [lia|done]|by apply Hap].
Qed.

Lemma place_outside e a : place_ok e → at_place e a = true → outside_tables a.
Proof.
  intros Hp [Ha1%Z.leb_le Ha2%Z.ltb_lt]%andb_true_iff. pose proof (place_plain e Hp) as [_ Hpl].
  destruct Hp as (_ & H1 & H2). unfold place in *.
  replace a with (record_sector e * bps + (a - record_sector e * bps)) by lia. apply Hpl. lia.
Qed.

(** *** The first cluster *)

Lemma first_cluster_ok v fd e l :
  writable v fd e [] l → l ≠ [] →
  wp (first_cluster g fd) v (λ v' x, ∃ e' c l', x = (0, c) ∧
    v' = with_fd (set_device v (dev v') (inst v')) fd e' ∧ e' = set_record e (record e') ∧
    record_size (record e') = record_size (record e) ∧ writable v' fd e' [c] l' ∧
    Z.of_nat (length l) ≤ Z.of_nat (length l') + 1 ∧ value (dev v) (inst v) c = 0 ∧
    frame v v' e [c]).
Proof.
  intros [Hgood Hfile Hmod Hpl Hap Hfree] Hne. pose proof (clusters_range g Hg) as Hcr.
  pose proof (file_open _ _ _ _ _ _ Hfile) as Hopen. pose proof Hopen as (_ & He & _ & _ & Hop & Hok).
  destruct Hok as [Hrb Hoff Heof]. unfold first_cluster.
  destruct (allocate_step bs g Hg Hbs (dev v) (inst v) Hgood) as (d1 & f1 & r & c & E1 & Hq1 & _ & Hres).
  destruct Hres as [(-> & Hc & Hz)|(_ & _ & Hfull)].
  2: { destruct l as [|o l]; [done|]. destruct (free_range _ _ _ Hfree o) as [Ho Hz]; [left|].
       by destruct (Hfull o Ho). }
  apply wp_bind. unfold allocate_cluster'. eapply (wp_lift _ v d1 f1); [by rewrite E1|]. cbv beta iota.
  cbn [Z.eqb negb]. pose proof Hq1 as (Hgood1 & Hv1 & Ho1).
  destruct (set_step bs g Hg Hbs d1 f1 c 0x0FFFFFFF Hgood1 ltac:(lia) ltac:(done))
    as (d2 & f2 & E2 & Hgood2 & _ & Hv2 & Ho2).
  destruct (write_table_step bs g Hg Hbs d2 f2 Hgood2) as (d3 & E3 & Hq3).
  pose proof Hq3 as (Hgood3 & Hv3 & Ho3). set (f3 := cleaned f2) in *.
  apply wp_bind. apply wp_attempt. unfold set_table_value'. eapply (wp_lift _ _ d2 f2); [exact E2|].
  cbn [Z.eqb]. apply wp_attempt. unfold write_table'. eapply (wp_lift _ _ d3 f3); [exact E3|].
  cbn [Z.eqb]. set (v3 := set_device v d3 f3).
  apply wp_bind. unfold get_record. apply wp_bind. eapply (wp_get_fd fd v3 e); [exact He|].
  apply wp_ret.
  destruct (set_record_cluster_ok (record e) c Hrb) as (r' & Er & Hrb' & Hcl & Hsame);
    [change (2 ^ 32) with 4294967296; lia|].
  apply wp_bind. eapply wp_access; [exact Er|]. apply wp_bind. unfold put_record.
  eapply (wp_update_fd fd _ v3 e); [exact He|]. set (e' := set_record e r').
  assert (He' : (fds (with_fd v3 fd e')).[fd] = Some e') by (by apply (fds_with_fd v3 fd e' e)).
  apply wp_bind. eapply wp_mono.
  { apply (write_record_ok (with_fd v3 fd e') fd e'); [done|done|done|exact Hpl]. }
  intros v4 r4 (-> & Hvol4 & Hgood4 & Hv4 & Hc4). cbn [Z.eqb negb]. do 2 apply wp_ret.
  assert (Hval : ∀ o, 0 ≤ o < clusters + 2 → value (dev v4) (inst v4) o
            = if o =? c then 0x0FFFFFFF else value (dev v) (inst v) o).
  { intros o Ho. rewrite Hv4 by done. cbn [with_fd set_fds set_device dev inst v3].
    rewrite Hv3, Hv2, Hv1 by done. destruct (o =? c); [by destruct (type g)|done]. }
  assert (Hcon : ∀ a, outside_tables a → at_place e a = false → content (dev v4) a = content (dev v) a).
  { intros a Ha Hp. rewrite Hc4. change (at_place e' a) with (at_place e a). rewrite Hp.
    cbn [with_fd set_fds set_device dev v3]. by rewrite Ho3, Ho2, Ho1. }
  destruct (free_list_take g (value (dev v) (inst v)) (value (dev v4) (inst v4)) l c Hfree)
    as (l' & Hl' & Hlen).
  { intros o Ho Hoc Hoz. rewrite Hval by lia. by rewrite (proj2 (Z.eqb_neq o c)). }
  assert (Hsz : record_size r' = record_size (record e)).
  { apply same_size; [done|done|]. intros j Hj. apply Hsame; lia. }
  exists e', c, l'. split; [done|]. split; [by rewrite Hvol4|]. split; [by destruct e|].
  split; [done|]. split; [|split; [done|split; [done|]]].
  - split; [done| |done|exact Hpl| |done].
    + split.
      * assert (Ho : is_open (with_fd v fd e') fd e').
        { apply (with_fd_open v fd e e' Hopen); [done|]. by split. }
        rewrite Hvol4. split; [apply Hgood4|]. exact (proj2 Ho).
      * apply (file_mode _ _ _ _ _ _ Hfile).
      * cbn [e' set_record record]. rewrite Hsame by lia. apply (file_attr _ _ _ _ _ _ Hfile).
      * split.
        -- intros i x Hx. pose proof (rd_lt _ _ _ Hx) as Hi. cbn in Hi. replace i with 0 in Hx by lia.
           by injection Hx as <-.
        -- intros i x y Hx Hy. apply rd_lt in Hx, Hy. cbn in Hx, Hy. lia.
        -- intros x [= <-]. rewrite Hval by lia. rewrite Z.eqb_refl. lia.
      * exact Hcl.
      * cbn [e' set_record record]. rewrite Hsz.
        pose proof (file_size _ _ _ _ _ _ Hfile) as Hs. cbn [length] in Hs |- *. lia.
      * destruct (file_known _ _ _ _ _ _ Hfile) as [Hk0 Hk]. split; [done|]. intros Hn.
        apply Hk, rd_lt in Hn. cbn in Hn. lia.
    + intros o Ho Hor. apply (Hap o Ho). right. destruct Hor as [->%list_elem_of_singleton|Hoz]; [done|].
      rewrite Hval in Hoz by lia. by destruct (o =? c).
  - split.
    + intros o Ho Hn. rewrite Hval by done. rewrite (proj2 (Z.eqb_neq o c)); [done|].
      intros ->. apply Hn. by apply list_elem_of_singleton.
    + intros a Ha Hp _. by apply Hcon.
Qed.

(** *** The chain *)

Lemma write_chain_ok v fd e cs l size old new seek :
  writable v fd e cs l → cs ≠ [] → 0 < size → 0 ≤ seek ≤ offset e → old ≤ new →
  offset e - seek < new → new < 2 ^ 32 → clusters_of g old ≤ Z.of_nat (length cs) →
  clusters_of g new ≤ Z.of_nat (length cs + length l) →
  wp (write_chain g fd size (default 0 (cs.[0])) seek new old) v (λ v1 x,
    ∃ cs1 oc, x = inr oc ∧ extended bs g v cs (Z.of_nat (length l)) v1 cs1 ∧
      clusters_of g new ≤ Z.of_nat (length cs1) ∧ cs1.[(offset e - seek) / csz] = Some oc).
Proof.
  intros [Hgood Hfile _ _ _ Hfree] Hne Hsize Hseek Hon Hlt Hmax Hold Hroom.
  pose proof (file_open _ _ _ _ _ _ Hfile) as (_ & He & _ & _ & _ & _).
  pose proof (file_chain _ _ _ _ _ _ Hfile) as Hch. pose proof (cluster_size_pos bs g Hg Hbs) as Hcsz.
  unfold write_chain. rewrite (proj2 (Z.eqb_neq size 0)) by lia. cbn [negb].
  apply wp_bind. eapply wp_get_fd; [exact He|]. rewrite (u32_clusters g Hg). cbv zeta.
  set (wi := (offset e - seek) / csz).
  assert (Hwi0 : 0 ≤ wi) by (apply Z.div_pos; lia).
  destruct (clusters_of_spec bs g Hg Hbs new ltac:(lia)) as (_ & _ & Hidx).
  assert (Hwi : wi < clusters_of g new) by (apply Hidx; lia).
  set (kn := negb (cluster_idx e =? 0) && (cluster_idx e <=? wi)).
  assert (Hstart : ∃ i c, (if kn then (cluster_idx e, cluster_val e, 0) else (0, default 0 (cs.[0]), 0))
            = (i, c, 0) ∧ 0 ≤ i ≤ wi ∧ cs.[i] = Some c).
  { destruct (file_known _ _ _ _ _ _ Hfile) as [Hk0 Hk]. unfold kn.
    destruct (Z.eqb_spec (cluster_idx e) 0), (Z.leb_spec (cluster_idx e) wi); cbn [negb andb];
      eexists _, _; (split; [done|]); (split; [lia|]); try by apply Hk.
    all: destruct cs as [|c0 cs']; [done|]; done. }
  destruct Hstart as (i & c & -> & Hi & Hc).
  apply wp_bind. eapply wp_mono.
  { apply (chain_loop_ok bs g Hg Hbs v cs l i c (clusters_of g new) wi (new =? old)); try done.
    intros ->%Z.eqb_eq. done. }
  intros v1 [r oc] (cs1 & Hext & Hlen & Hr & Hoc). cbn [fst snd] in Hr, Hoc. subst r.
  destruct (write_table_step bs g Hg Hbs (dev v1) (inst v1) (ext_good _ _ _ _ _ _ _ Hext)) as (d & E & Hq).
  apply wp_bind. unfold write_table'. eapply (wp_lift _ v1); [exact E|]. cbn [Z.eqb negb Z.gtb Z.compare andb].
  apply wp_ret. exists cs1, oc. split; [done|].
  split; [by apply (extended_quiet bs g)|done].
Qed.

(** *** The record and the offset *)

Section Finish.
Context (malloc : Z → bool) (get_time : D → option (list Z)).
Context (Htime : ∀ d s, get_time d = Some s → length s = 19%nat).

(** The descriptor after a write of [size] bytes. *)
Definition written_fd (e e' : fat_fd) (old size : Z) : Prop :=
  e' = FatFd (opened e) (mode e) (record e') (record_offset e) (record_sector e)
         (if offset e + size >=? maximum_file_size then 1 else eof e) (offset e + size)
         (cluster_idx e) (cluster_val e) ∧
  record_bytes (record e') ∧ record_size (record e') = Z.max old (offset e + size) ∧
  record_cluster (record e') = record_cluster (record e) ∧
  at_ (record e') 11 = Z.lor (at_ (record e) 11) 0x20.

Lemma byte_lor_32 b : is_byte b → is_byte (Z.lor b 0x20) ∧ Z.land (Z.lor b 0x20) 0x10 = Z.land b 0x10.
Proof.
  intros Hb. split.
  - unfold is_byte in *. assert (0 ≤ Z.lor b 0x20) by (apply Z.lor_nonneg; lia).
    split; [done|]. change 256 with (2 ^ 8). destruct (Z.eq_dec (Z.lor b 0x20) 0) as [->|Hne]; [done|].
    apply Z.log2_lt_pow2; [lia|]. rewrite Z.log2_lor by lia.
    apply Z.max_lub_lt; [|done]. destruct (Z.eq_dec b 0) as [->|]; [done|]. apply Z.log2_lt_pow2; lia.
  - rewrite Z.land_lor_distr_l. change (Z.land 0x20 0x10) with 0. apply Z.lor_0_r.
Qed.

Lemma write_finish_ok v fd e old size :
  good (dev v) (inst v) → (fds v).[fd] = Some e → record_bytes (record e) → place_ok e →
  0 ≤ old < 2 ^ 32 → 0 ≤ offset e → 0 < size → offset e + size < 2 ^ 32 →
  wp (write_finish g get_time fd size old size) v (λ v' x, ∃ e', x = (0, size) ∧
    v' = with_fd (set_device v (dev v') (inst v')) fd e' ∧ written_fd e e' old size ∧
    good (dev v') (inst v') ∧
    (∀ o, 0 ≤ o < clusters + 2 → value (dev v') (inst v') o = value (dev v) (inst v) o) ∧
    ∀ a, content (dev v') a = if at_place e a then at_ (record e') (a - place e) else content (dev v) a).
Proof.
  intros Hgood He Hrb Hpl Hold Hoff Hsize Hmax. unfold write_finish.
  apply wp_bind. eapply wp_get_fd; [exact He|].
  rewrite (proj2 (Z.eqb_neq size 0)) by lia. cbn [negb]. rewrite (wrap_small 32 (offset e + size)) by lia.
  cbv zeta. set (n := if old <? offset e + size then offset e + size else old).
  assert (Hn : n = Z.max old (offset e + size)).
  { unfold n. destruct (Z.ltb_spec old (offset e + size)); lia. }
  pose proof Hrb as [Hl Hb].
  destruct (byte_lor_32 (at_ (record e) 11) (at_byte _ _ Hb)) as [Hbl _].
  destruct (wr_at (record e) 11 (Z.lor (at_ (record e) 11) 0x20) ltac:(lia)) as (r1 & E1 & L1 & A1).
  assert (Hr1 : record_bytes r1).
  { split; [lia|]. apply wr_Some_inv in E1 as [_ ->]. by apply bytes_insert. }
  destruct (set_size_ok r1 n Hr1 ltac:(lia)) as (r2 & E2 & Hr2 & Hs2 & A2).
  apply wp_bind. apply wp_bind. eapply wp_access; [apply at_rd; lia|].
  apply wp_bind. eapply wp_access; [exact E1|]. apply wp_bind. eapply wp_access; [exact E2|].
  unfold put_record. eapply wp_update_fd; [exact He|]. set (v1 := with_fd v fd (set_record e r2)).
  assert (He1 : (fds v1).[fd] = Some (set_record e r2)) by (by apply (fds_with_fd v fd _ e)).
  unfold get_record. apply wp_bind, wp_bind. eapply wp_get_fd; [exact He1|]. apply wp_ret.
  apply wp_bind. apply stamp_ok; [done|done|]. intros r3 Hr3 A3. cbn [set_record record] in A3.
  apply wp_bind. eapply wp_update_fd; [exact He1|]. unfold v1. rewrite with_fd_twice.
  set (e3 := set_record (set_record e r2) r3).
  assert (He3 : (fds (with_fd v fd e3)).[fd] = Some e3) by (by apply (fds_with_fd v fd e3 e)).
  apply wp_bind. eapply wp_mono.
  { apply (write_record_ok (with_fd v fd e3) fd e3); [done|done|done|exact Hpl]. }
  intros v4 r (-> & Hvol4 & Hgood4 & Hval4 & Hcon4). cbn [Z.eqb negb].
  apply wp_bind, wp_ret. rewrite Z.eqb_refl. cbn [negb]. apply wp_bind, wp_ret.
  assert (He4 : (fds v4).[fd] = Some e3) by (rewrite Hvol4; exact He3).
  apply wp_bind. eapply wp_update_fd; [exact He4|]. cbn [e3 set_record offset].
  rewrite (wrap_small 32 (offset e + size)) by lia. set (e5 := set_offset e3 (offset e + size)).
  assert (He5 : (fds (with_fd v4 fd e5)).[fd] = Some e5) by (by apply (fds_with_fd v4 fd e5 e3)).
  apply wp_bind. eapply wp_get_fd; [exact He5|].
  rewrite (proj2 (Z.eqb_neq size 0)) by lia. cbn [negb andb]. change (offset e5) with (offset e + size).
  set (e6 := if offset e + size >=? maximum_file_size then set_eof e5 1 else e5).
  apply wp_bind. apply (wp_mono _ _ (λ v' _, v' = with_fd v4 fd e6)).
  { unfold e6. destruct (offset e + size >=? maximum_file_size); [|by apply wp_ret].
    eapply wp_update_fd; [exact He5|]. by rewrite with_fd_twice. }
  intros v5 _ ->. apply wp_ret. exists e6. split; [done|].
  assert (Hrec : record e6 = r3) by (unfold e6; by destruct (offset e + size >=? maximum_file_size)).
  split; [rewrite Hvol4; cbn [with_fd set_fds set_device dev inst]; apply (with_fd_twice (set_device v _ _))|].
  split.
  - split; [unfold e6; by destruct (offset e + size >=? maximum_file_size)|].
    rewrite Hrec. split; [done|]. split.
    + rewrite (same_size r2 r3) by (try done; intros j Hj; apply A3; lia). lia.
    + split; [|rewrite A3, A2, A1 by lia; done].
      apply same_cluster; [done|done|]. intros j Hj. rewrite A3, A2, A1 by lia.
      by rewrite (proj2 (Z.eqb_neq j 11)) by lia.
  - split; [done|]. split; [done|]. intros a. cbn [with_fd set_fds dev]. rewrite Hcon4, Hrec. done.
Qed.

(** *** The file before and after the write *)

(** Where a write begins. *)
Definition write_offset (e : fat_fd) : Z :=
  if has (mode e) MODE_APPEND then record_size (record e) else offset e.

(** The byte [p] of a file of the size [old] with the bytes [f] after [size]
    bytes of [src] are written at [pos]. *)
Definition written_byte (old pos size : Z) (src : option (list Z)) (f : Z → Z) (p : Z) : Z :=
  if p <? pos then if p <? old then f p else 0
  else if p <? pos + size then datum src (p - pos) else f p.

(** The descriptor after a write. *)
Record after_write (e e' : fat_fd) (pos size : Z) : Prop := {
  aw_opened : opened e' = opened e;
  aw_mode : mode e' = mode e;
  aw_place : record_offset e' = record_offset e ∧ record_sector e' = record_sector e;
  aw_offset : offset e' = pos + size;
  aw_eof : eof e' = if pos + size >=? maximum_file_size then 1 else eof e;
  aw_size : record_size (record e') = Z.max (record_size (record e)) (pos + size) }.

Lemma frame_trans v v1 v2 e cs1 cs2 :
  frame v v1 e cs1 → frame v1 v2 e cs2 → (∀ c, c ∈ cs1 → c ∈ cs2) → frame v v2 e cs2.
Proof.
  intros [V1 C1] [V2 C2] Hin. split.
  - intros o Ho Hn. rewrite V2, V1 by (try done; intros Hc; by apply Hn, Hin). done.
  - intros a Ha Hp Hn. rewrite C2 by done. apply C1; [done|done|]. intros c Hc. by apply Hn, Hin.
Qed.

Lemma extended_frame v cs n v1 cs1 e : extended bs g v cs n v1 cs1 → frame v v1 e cs1.
Proof.
  intros Hx. split; [by apply (ext_value _ _ _ _ _ _ _ Hx)|].
  intros a Ha _ _. by apply (ext_content _ _ _ _ _ _ _ Hx).
Qed.

Lemma writable_offset v fd e cs l pos :
  writable v fd e cs l → 0 ≤ pos < 2 ^ 32 →
  writable (with_fd v fd (set_offset e pos)) fd (set_offset e pos) cs l.
Proof.
  intros [Hgood Hfile Hmod Hpl Hap Hfree] Hpos. pose proof (file_open _ _ _ _ _ _ Hfile) as Hopen.
  pose proof Hopen as (_ & _ & _ & _ & Hop & [Hrb Hoff Heof]).
  split; try done. destruct Hfile as [_ Hm Ha Hch Hf Hs Hk]. split; try done.
  apply (with_fd_open v fd e); [done|done|]. by split.
Qed.

Lemma prefix_rd {A} (l l' : list A) i x : l `prefix_of` l' → l.[i] = Some x → l'.[i] = Some x.
Proof. intros [k ->] Hx. pose proof (rd_lt _ _ _ Hx). by rewrite rd_app_l by lia. Qed.

Lemma prefix_elem {A} (l l' : list A) x : l `prefix_of` l' → x ∈ l → x ∈ l'.
Proof. intros [k ->] Hx. apply elem_of_app. by left. Qed.

(** The first cluster is there. *)
Lemma prepare_ok v fd e cs l size :
  writable v fd e cs l → 0 < size → (0 < length cs + length l)%nat →
  wp (if negb (size =? 0) && (default 0 (cs.[0]) =? 0) then first_cluster g fd
      else ret (0, default 0 (cs.[0]))) v
    (λ v1 x, ∃ e1 cs1 l1, x = (0, default 0 (cs1.[0])) ∧ cs1 ≠ [] ∧
       v1 = with_fd (set_device v (dev v1) (inst v1)) fd e1 ∧ e1 = set_record e (record e1) ∧
       record_size (record e1) = record_size (record e) ∧ writable v1 fd e1 cs1 l1 ∧
       (length cs + length l ≤ length cs1 + length l1)%nat ∧ cs `prefix_of` cs1 ∧
       (∀ c, c ∈ cs1 → c ∈ cs ∨ value (dev v) (inst v) c = 0) ∧ frame v v1 e cs1 ∧
       ∀ p, 0 ≤ p < record_size (record e) → file_byte (dev v1) cs1 p = file_byte (dev v) cs p).
Proof.
  intros Hw Hsize Hlen. pose proof (wr_file _ _ _ _ _ Hw) as Hfile.
  rewrite (proj2 (Z.eqb_neq size 0)) by lia. cbn [negb andb].
  pose proof (file_open _ _ _ _ _ _ Hfile) as (_ & He & _ & _ & _ & Hok).
  destruct cs as [|c0 cs'].
  - change (default 0 (([] : list Z).[0]) =? 0) with true. cbn iota. eapply wp_mono.
    { apply (first_cluster_ok v fd e l Hw). destruct l; [cbn in Hlen; lia|done]. }
    intros v1 x (e1 & c & l1 & -> & Hv & Ee & Hs & Hw1 & Hl & Hz & Hfr).
    exists e1, [c], l1. split; [done|]. split; [done|]. split; [done|]. split; [done|]. split; [done|].
    split; [done|]. split; [cbn; lia|]. split; [apply prefix_nil|].
    split; [intros x ->%list_elem_of_singleton; by right|]. split; [done|].
    intros p Hp. exfalso. pose proof (file_size _ _ _ _ _ _ Hfile) as Hsz. cbn in Hsz.
    destruct (clusters_of_spec bs g Hg Hbs (record_size (record e)) ltac:(lia)) as (_ & Hc & _).
    pose proof (cluster_size_pos bs g Hg Hbs). nia.
  - pose proof (chain_range _ _ _ (file_chain _ _ _ _ _ _ Hfile) 0 c0 eq_refl) as Hc0.
    change (default 0 ((c0 :: cs').[0])) with c0. rewrite (proj2 (Z.eqb_neq c0 0)) by lia.
    apply wp_ret. exists e, (c0 :: cs'), l. split; [done|]. split; [done|].
    split; [by rewrite set_device_same, with_fd_same|]. split; [by destruct e|]. split; [done|].
    split; [done|]. split; [done|]. split; [done|]. split; [by left|]. split; [|done]. by split.
Qed.

(** The bytes of the file after the data is stored and the record is written. *)
Lemma written_bytes_ok v1 v2 v3 d fd e1 cs1 cs2 n src old pos size p :
  is_file v1 fd e1 cs1 → record_size (record e1) = old → extended bs g v1 cs1 n v2 cs2 →
  (∀ c, c ∈ cs2 → apart e1 c) →
  let start := Z.min pos old in let seek := Z.max 0 (pos - old) in
  storing v2 v3 fd e1 cs2 src start seek old (seek + size) (seek + size) →
  (∀ a, outside_tables a → at_place e1 a = false → content d a = content (dev v3) a) →
  0 ≤ pos → 0 < size → clusters_of g (Z.max old (pos + size)) ≤ Z.of_nat (length cs2) →
  0 ≤ p < Z.max old (pos + size) →
  file_byte d cs2 p = written_byte old pos size src (file_byte (dev v1) cs1) p.
Proof.
  intros Hfile Hs Hext Hap start seek Hst Hcon Hpos Hsize Hlen Hp.
  pose proof (file_open _ _ _ _ _ _ Hfile) as (_ & _ & _ & _ & _ & Hok1).
  destruct (record_size_ok e1 Hok1) as [_ Hsr]. rewrite Hs in Hsr.
  pose proof (cluster_size_pos bs g Hg Hbs) as Hcsz.
  pose proof (ext_chain _ _ _ _ _ _ _ Hext) as Hch2.
  assert (Hrd : ∀ (cs : list Z) q, 0 ≤ q → q / csz < Z.of_nat (length cs) → is_Some (cs.[q / csz])).
  { intros cs q Hq Hl. apply rd_is_Some_2. split; [apply Z.div_pos; lia|done]. }
  destruct (clusters_of_spec bs g Hg Hbs (Z.max old (pos + size)) ltac:(lia)) as (_ & _ & Hidx2).
  assert (Hin2 : is_Some (cs2.[p / csz])) by (apply Hrd; [lia|]; specialize (Hidx2 p Hp); lia).
  rewrite (apart_file_byte (dev v3) d e1 cs2 p); [|intros i c Hc|done|done].
  2: { split; [by apply (chain_range _ _ _ Hch2 i)|]. apply Hap. apply rd_Some in Hc as [_ Hc].
       by apply list_elem_of_lookup_2 in Hc. }
  assert (Hold : p < old → file_byte (dev v2) cs2 p = file_byte (dev v1) cs1 p).
  { intros Hlt. destruct (clusters_of_spec bs g Hg Hbs old ltac:(lia)) as (_ & _ & Hidx).
    specialize (Hidx p ltac:(lia)). pose proof (file_size _ _ _ _ _ _ Hfile) as Hsz. rewrite Hs in Hsz.
    destruct (Hrd cs1 p ltac:(lia) ltac:(lia)) as [c Hc].
    pose proof (prefix_rd _ _ _ _ (ext_prefix _ _ _ _ _ _ _ Hext) Hc) as Hc2.
    pose proof (chain_range _ _ _ Hch2 _ _ Hc2) as Hr.
    unfold FatRead.file_byte. rewrite Hc, Hc2. change (default 0 (Some c)) with c.
    apply (ext_content _ _ _ _ _ _ _ Hext), (cluster_outside c); [lia|].
    pose proof (Z.mod_pos_bound p csz Hcsz). unfold FatTable.in_cluster. lia. }
  unfold written_byte. destruct (Z.ltb_spec p pos) as [H1|H1].
  - destruct (Z.ltb_spec p old) as [H2|H2].
    + rewrite <- Hold by done. apply (st_before _ _ _ _ _ _ _ _ _ _ _ Hst); [lia|done].
    + rewrite (st_data _ _ _ _ _ _ _ _ _ _ _ Hst) by (try done; lia). unfold stream.
      by rewrite (proj2 (Z.ltb_lt _ _)) by lia.
  - destruct (Z.ltb_spec p (pos + size)) as [H2|H2].
    + rewrite (st_data _ _ _ _ _ _ _ _ _ _ _ Hst) by (try done; lia). unfold stream.
      rewrite (proj2 (Z.ltb_ge _ _)) by lia. f_equal. lia.
    + rewrite (st_after _ _ _ _ _ _ _ _ _ _ _ Hst) by (try done; lia). apply Hold. lia.
Qed.

(** The chain, the known cluster and the record make the descriptor a file again. *)
Lemma written_writable v1 v2 v3 v4 fd e1 e2 e4 cs1 cs2 n l1 l2 old pos size src start seek :
  writable v1 fd e1 cs1 l1 → extended bs g v1 cs1 n v2 cs2 →
  storing v2 v3 fd e1 cs2 src start seek old (seek + size) (seek + size) →
  (∃ idx val, e2 = set_known e1 idx val ∧ known cs2 e2) →
  free_list (value (dev v2) (inst v2)) l2 →
  offset e1 = pos → 0 ≤ pos → 0 < size → pos + size < 2 ^ 32 → written_fd e2 e4 old size →
  good (dev v4) (inst v4) → v4 = with_fd (set_device v1 (dev v4) (inst v4)) fd e4 →
  (∀ o, 0 ≤ o < clusters + 2 → value (dev v4) (inst v4) o = value (dev v3) (inst v3) o) →
  clusters_of g (Z.max old (pos + size)) ≤ Z.of_nat (length cs2) → cs1 ≠ [] →
  writable v4 fd e4 cs2 l2.
Proof.
  intros [Hgood Hfile Hmod Hpl Hap Hfree] Hext Hst (idx & val & E2 & Hk2) Hl2 Hoff Hpos Hsize Hmax
    (E4 & Hrb & Hsz & Hcl & Hattr) Hgood4 Hv4 Hval4 Hlen Hne.
  pose proof (file_open _ _ _ _ _ _ Hfile) as Hopen. pose proof Hopen as (_ & _ & _ & _ & Hop & [Hrb1 _ Heof]).
  assert (Hval : ∀ o, 0 ≤ o < clusters + 2 →
            value (dev v4) (inst v4) o = value (dev v2) (inst v2) o).
  { intros o Ho. rewrite Hval4 by done. by apply (st_value _ _ _ _ _ _ _ _ _ _ _ Hst). }
  pose proof (ext_chain _ _ _ _ _ _ _ Hext) as Hch2.
  rewrite E2 in E4, Hcl, Hattr. cbn [set_known record] in Hcl, Hattr.
  destruct Hrb1 as [Hl1 Hb1].
  destruct (byte_lor_32 (at_ (record e1) 11) (at_byte _ _ Hb1)) as [_ Hland].
  split.
  - done.
  - split.
    + assert (Ho : is_open (set_device v1 (dev v4) (inst v4)) fd e1) by (split; [apply Hgood4|apply Hopen]).
      rewrite Hv4. apply (with_fd_open _ fd e1); [done|by rewrite E4|]. split; [done| |].
      * rewrite E4. cbn. rewrite Hoff. lia.
      * rewrite E4. cbn. destruct (_ >=? _); [by right|done].
    + rewrite E4. apply (file_mode _ _ _ _ _ _ Hfile).
    + rewrite Hattr, Hland. apply (file_attr _ _ _ _ _ _ Hfile).
    + by apply (chain_ext g (value (dev v2) (inst v2))).
    + rewrite Hcl, (file_first _ _ _ _ _ _ Hfile). f_equal.
      destruct (ext_prefix _ _ _ _ _ _ _ Hext) as [k ->]. by destruct cs1.
    + rewrite Hsz. rewrite E2. cbn [set_known offset]. by rewrite Hoff.
    + rewrite E2 in Hk2. rewrite E4. exact Hk2.
  - by rewrite E4.
  - rewrite E4. exact Hpl.
  - intros c Hc Hor. rewrite E4. change (apart e1 c). apply Hap; [done|].
    assert (Hz : value (dev v2) (inst v2) c = 0 → c ∈ cs1 ∨ value (dev v1) (inst v1) c = 0).
    { intros Hz. destruct (decide (c ∈ cs2)) as [Hin|Hnin].
      - by apply (chain_elem g _ _ _ Hch2) in Hin as [_ Hin].
      - right. rewrite <- (ext_value _ _ _ _ _ _ _ Hext) by (try done; lia). done. }
    destruct Hor as [Hin|Hz0]; [|apply Hz; rewrite <- Hval by lia; done].
    destruct (ext_new _ _ _ _ _ _ _ Hext c Hin) as [|[_ Hz1]]; [by left|by right].
  - destruct Hl2 as [Hnd Hfr]. split; [done|]. intros c Hc. destruct (Hfr c Hc) as [Hr Hz].
    split; [done|]. by rewrite Hval by lia.
Qed.

Lemma extended_size_ok old pos size :
  0 ≤ pos → 0 < size → 0 ≤ old → pos + size ≤ 0xFFFFFFFF →
  extended_size old pos size = Z.max old (pos + size).
Proof.
  intros Hp Hs Ho Hmax. unfold extended_size, maximum_file_size, UINT_MAX.
  rewrite !(wrap_small 32 size) by (change (2 ^ 32) with 4294967296; lia).
  rewrite !(proj2 (Z.leb_le _ _)) by lia. cbn [negb orb]. cbn [Z.eqb].
  rewrite (wrap_small 32 (size + pos)) by (change (2 ^ 32) with 4294967296; lia).
  destruct (Z.ltb_spec old (size + pos)); lia.
Qed.

(** The data goes to the clusters of the extended file, and the record follows. *)
Lemma write_data_ok v1 fd e1 cs1 l1 old size src pos :
  writable v1 fd e1 cs1 l1 → cs1 ≠ [] → record_size (record e1) = old → offset e1 = pos →
  0 < size → enough src size → pos + size ≤ 0xFFFFFFFF →
  clusters_of g (Z.max old (pos + size)) ≤ Z.of_nat (length cs1 + length l1) →
  let seek := if pos >? old then pos - old else 0 in
  wp (bind (write_chain g fd size (default 0 (cs1.[0])) seek (Z.max old (pos + size)) old) (λ x,
        match x with
        | inl r => ret (r, 0)
        | inr offset_cluster =>
            bind (if offset_cluster >=? 2 then
                    bind (get_record fd) (λ record, bind (access (LE32 record 28)) (λ original_size,
                      loop (S (Z.to_nat ((if size >? maximum_file_size then maximum_file_size else size) + seek)))
                        (write_turn g fd (if size >? maximum_file_size then maximum_file_size else size)
                           size original_size src)
                        (offset_cluster, (pos - seek) mod csz, seek, 0, 0)))
                  else ret 0)
                 (λ written_bytes, write_finish g get_time fd size old written_bytes)
        end)) v1
    (λ v4 x, ∃ e4 cs2 l2, x = (0, size) ∧ v4 = with_fd (set_device v1 (dev v4) (inst v4)) fd e4 ∧
       after_write e1 e4 pos size ∧ writable v4 fd e4 cs2 l2 ∧
       (length cs1 + length l1 ≤ length cs2 + length l2)%nat ∧ cs1 `prefix_of` cs2 ∧
       (∀ c, c ∈ cs2 → c ∈ cs1 ∨ value (dev v1) (inst v1) c = 0) ∧ frame v1 v4 e1 cs2 ∧
       (∀ p, 0 ≤ p < Z.max old (pos + size) →
          file_byte (dev v4) cs2 p = written_byte old pos size src (file_byte (dev v1) cs1) p) ∧
       ∀ j, 0 ≤ j < 32 → content (dev v4) (place e1 + j) = at_ (record e4) j).
Proof.
  intros Hw Hne Hold Hpos Hsize Hen Hmax Hroom seek. pose proof Hw as [Hgood Hfile Hmod Hpl Hap Hfree].
  pose proof (file_open _ _ _ _ _ _ Hfile) as Hopen. pose proof Hopen as (_ & He & _ & _ & Hop & Hok).
  destruct (record_size_ok e1 Hok) as [Hrs Hsr]. rewrite Hold in Hrs, Hsr.
  pose proof (fd_offset _ Hok) as Hoff. rewrite Hpos in Hoff. change (2 ^ 32) with 4294967296 in *.
  assert (Hseek : seek = Z.max 0 (pos - old)).
  { unfold seek. rewrite Z.gtb_ltb. destruct (Z.ltb_spec old pos); lia. }
  assert (Hstart : pos - seek = Z.min pos old) by lia. clearbody seek.
  pose proof (file_size _ _ _ _ _ _ Hfile) as Hlen1. rewrite Hold in Hlen1.
  apply wp_bind. eapply wp_mono.
  { apply (write_chain_ok v1 fd e1 cs1 l1 size old (Z.max old (pos + size)) seek Hw Hne Hsize);
      rewrite ?Hpos; try done; lia. }
  intros v2 x (cs2 & oc & -> & Hext & Hlen2 & Hoc). rewrite Hpos in Hoc. rewrite Hstart in Hoc |- *.
  pose proof (ext_chain _ _ _ _ _ _ _ Hext) as Hch2.
  pose proof (chain_range _ _ _ Hch2 _ _ Hoc) as Hocr.
  assert (He2 : (fds v2).[fd] = Some e1) by (by rewrite (ext_volume _ _ _ _ _ _ _ Hext)).
  rewrite Z.geb_leb, (proj2 (Z.leb_le 2 oc)) by lia. unfold maximum_file_size.
  rewrite Z.gtb_ltb, (proj2 (Z.ltb_ge 0xFFFFFFFF size)) by lia.
  destruct (clusters_of_spec bs g Hg Hbs (Z.max old (pos + size)) ltac:(lia)) as (_ & _ & Hidx).
  unfold get_record. apply wp_bind, wp_bind, wp_bind. eapply wp_get_fd; [exact He2|]. apply wp_ret.
  apply wp_bind. eapply wp_access; [exact Hrs|].
  replace (size + seek) with (seek + size) by lia. eapply wp_mono.
  { apply (store_loop_ok v2 fd e1 cs2 src (Z.min pos old) seek old size
             (ext_good _ _ _ _ _ _ _ Hext) He2 ltac:(lia) Hch2 ltac:(lia) ltac:(lia) Hsize ltac:(lia) Hen);
      [change (2 ^ 32) with 4294967296; lia| |done].
    intros p Hp. specialize (Hidx p ltac:(lia)). lia. }
  intros v3 wb (-> & Hst). destruct (st_volume _ _ _ _ _ _ _ _ _ _ _ Hst) as (idx & val & Hv3 & Hk3).
  specialize (Hk3 ltac:(lia)). set (e2 := set_known e1 idx val) in *.
  assert (He3 : (fds v3).[fd] = Some e2) by (rewrite Hv3; by apply (fds_with_fd _ fd e2 e1)).
  eapply wp_mono.
  { apply (write_finish_ok v3 fd e2 old size (st_good _ _ _ _ _ _ _ _ _ _ _ Hst) He3);
      [apply (fd_record _ Hok)|exact Hpl|..]; cbn [e2 set_known offset]; rewrite ?Hpos; try lia;
      change (2 ^ 32) with 4294967296; lia. }
  intros v4 x (e4 & -> & Hv4 & Hwf & Hgood4 & Hval4 & Hcon4).
  change (at_place e2) with (at_place e1) in Hcon4. change (place e2) with (place e1) in Hcon4.
  assert (Hv41 : v4 = with_fd (set_device v1 (dev v4) (inst v4)) fd e4).
  { rewrite Hv4 at 1. generalize (dev v4) (inst v4). intros d f.
    rewrite Hv3, (ext_volume _ _ _ _ _ _ _ Hext). apply (with_fd_twice (set_device v1 d f)). }
  destruct (ext_free _ _ _ _ _ _ _ Hext) as (l2 & Hl2 & Hcount).
  assert (Hw4 : writable v4 fd e4 cs2 l2).
  { apply (written_writable v1 v2 v3 v4 fd e1 e2 e4 cs1 cs2 _ l1 l2 old pos size src _ seek Hw Hext Hst);
      try done; try lia. by exists idx, val. }
  assert (Hap2 : ∀ c, c ∈ cs2 → apart e1 c).
  { intros c Hc. destruct (ext_new _ _ _ _ _ _ _ Hext c Hc) as [Hin|[Hr Hz]].
    - destruct (chain_elem g _ _ _ (file_chain _ _ _ _ _ _ Hfile) Hin) as [Hr _].
      apply Hap; [done|by left].
    - apply Hap; [done|by right]. }
  exists e4, cs2, l2. split; [done|]. split; [done|]. split.
  { destruct Hwf as (E4 & Hrb & Hsz & _). cbn [e2 set_known opened mode record_offset record_sector eof offset] in E4, Hsz.
    rewrite Hpos in E4, Hsz. split; [by rewrite E4|by rewrite E4|by rewrite E4|by rewrite E4|by rewrite E4|].
    by rewrite Hsz, Hold. }
  split; [done|]. split; [lia|]. split; [apply (ext_prefix _ _ _ _ _ _ _ Hext)|].
  split. { intros c Hc. destruct (ext_new _ _ _ _ _ _ _ Hext c Hc) as [|[_ Hz]]; [by left|by right]. }
  split; [|split].
  - apply (frame_trans _ v2 _ _ cs2 cs2); [by eapply extended_frame| |done]. split.
    + intros o Ho _. rewrite Hval4 by done. by apply (st_value _ _ _ _ _ _ _ _ _ _ _ Hst).
    + intros a Ha Hp Hn. rewrite Hcon4, Hp. by apply (st_other _ _ _ _ _ _ _ _ _ _ _ Hst).
  - intros p Hp. subst seek.
    apply (written_bytes_ok v1 v2 v3 (dev v4) fd e1 cs1 cs2 (Z.of_nat (length l1)) src old pos size p);
      try done; [|lia]. intros a _ Hpa. by rewrite Hcon4, Hpa.
  - intros j Hj. rewrite Hcon4. unfold at_place.
    rewrite (proj2 (Z.leb_le _ _)), (proj2 (Z.ltb_lt _ _)) by lia. cbn [andb]. f_equal. lia.
Qed.

(** ** The property *)

(** [v'] and the file [e'] with the chain [cs'] are what a write of [size] bytes
    of [src] to the file [e] with the chain [cs] of [v] leaves. *)
Record written_file (v : volume D) (fd : Z) (e : fat_fd) (cs l : list Z) (src : option (list Z)) (size : Z)
    (v' : volume D) (e' : fat_fd) (cs' l' : list Z) : Prop := {
  wf_volume : v' = with_fd (set_device v (dev v') (inst v')) fd e';
  wf_fd : after_write e e' (write_offset e) size;
  wf_writable : writable v' fd e' cs' l';
  wf_free : (length cs + length l ≤ length cs' + length l')%nat;
  wf_prefix : cs `prefix_of` cs';
  wf_new : ∀ c, c ∈ cs' → c ∈ cs ∨ value (dev v) (inst v) c = 0;
  wf_frame : frame v v' e cs';
  wf_bytes : ∀ p, 0 ≤ p < record_size (record e') →
    file_byte (dev v') cs' p
    = written_byte (record_size (record e)) (write_offset e) size src (file_byte (dev v) cs) p;
  wf_record : ∀ j, 0 ≤ j < 32 → content (dev v') (place e + j) = at_ (record e') j }.

Lemma fat_write_ok v fd e cs l src size :
  writable v fd e cs l → 0 < size → enough src size → write_offset e + size ≤ 0xFFFFFFFF →
  clusters_of g (Z.max (record_size (record e)) (write_offset e + size))
    ≤ Z.of_nat (length cs + length l) →
  wp (fat_write g malloc get_time fd (Some size) src) v (λ v' x, ∃ e' cs' l', x = (0, size) ∧
    written_file v fd e cs l src size v' e' cs' l').
Proof.
  intros Hw Hsize Hen Hmax Hroom. pose proof Hw as [_ Hfile Hmod _ _ _].
  pose proof (file_open _ _ _ _ _ _ Hfile) as Hopen. pose proof Hopen as (_ & He & _ & _ & Hop & Hok).
  destruct (record_size_ok e Hok) as [Hrs Hsr]. pose proof (fd_offset _ Hok) as Hoff.
  destruct (fd_record _ Hok) as [Hrl Hrb].
  set (old := record_size (record e)) in *. set (pos := write_offset e) in *.
  assert (Hpos : 0 ≤ pos < 2 ^ 32) by (unfold pos, write_offset; destruct (has (mode e) MODE_APPEND); [exact Hsr|exact Hoff]).
  unfold fat_write. change (default 0 (Some size)) with size.
  apply (wp_open_guard malloc v fd e _ _ _ _ Hopen).
  apply wp_bind. eapply wp_get_fd; [exact He|].
  apply wp_bind. eapply wp_access; [apply at_rd; lia|].
  rewrite (file_attr _ _ _ _ _ _ Hfile), Hmod. cbn [Z.eqb negb].
  apply wp_bind. eapply wp_access; [apply (file_first _ _ _ _ _ _ Hfile)|].
  apply wp_bind. eapply wp_access; [exact Hrs|].
  set (ea := set_offset e pos). set (va := with_fd v fd ea).
  apply wp_bind. apply (wp_mono _ _ (λ v' _, v' = va)).
  { unfold va, ea, pos, write_offset. destruct (has (mode e) MODE_APPEND).
    - eapply wp_update_fd; [exact He|done].
    - apply wp_ret. symmetry. apply with_fd_same. rewrite He. by destruct e. }
  intros v0 _ ->. pose proof (writable_offset v fd e cs l pos Hw Hpos) as Hwa.
  assert (Hea : (fds va).[fd] = Some ea) by (by apply (fds_with_fd v fd ea e)).
  apply wp_bind. eapply wp_get_fd; [exact Hea|]. change (offset ea) with pos. cbv zeta.
  rewrite (extended_size_ok old pos size) by lia.
  destruct (clusters_of_spec bs g Hg Hbs (Z.max old (pos + size)) ltac:(lia)) as (Hcl0 & Hcl1 & _).
  apply wp_bind. eapply wp_mono.
  { apply (prepare_ok va fd ea cs l size Hwa Hsize). pose proof (cluster_size_pos bs g Hg Hbs). nia. }
  intros v1 x (e1 & cs1 & l1 & -> & Hne & Hv1 & Ee1 & Hs1 & Hw1 & Hlen1 & Hpre1 & Hnew1 & Hfr1 & Hby1).
  cbn [Z.eqb negb]. assert (Ho1 : offset e1 = pos) by (by rewrite Ee1).
  eapply wp_mono.
  { apply (write_data_ok v1 fd e1 cs1 l1 old size src pos Hw1 Hne); try done. lia. }
  intros v4 x (e4 & cs4 & l4 & -> & Hv4 & Haw & Hw4 & Hlen4 & Hpre4 & Hnew4 & Hfr4 & Hby4 & Hre4).
  exists e4, cs4, l4. split; [done|].
  assert (Hplace : ∀ a, at_place e1 a = at_place e a) by (intros a; by rewrite Ee1).
  assert (Hframe : ∀ v v' cs, frame v v' e1 cs → frame v v' e cs).
  { intros w w' csx [F1 F2]. split; [done|]. intros a Ha Hp. apply F2; [done|]. by rewrite Hplace. }
  assert (Hsz4 : record_size (record e4) = Z.max old (pos + size)).
  { rewrite (aw_size _ _ _ _ Haw), Hs1. done. }
  split.
  - rewrite Hv4 at 1. generalize (dev v4) (inst v4). intros d f. rewrite Hv1.
    etransitivity; [apply (with_fd_twice (set_device va d f))|apply (with_fd_twice (set_device v d f))].
  - fold pos. destruct Haw as [A1 A2 [A3 A4] A5 A6 A7]. rewrite Ee1 in A1, A2, A3, A4, A6.
    split; [done|done|done|done|done|]. by rewrite A7, Hs1.
  - done.
  - lia.
  - by transitivity cs1.
  - intros c Hc. destruct (Hnew4 c Hc) as [Hin|Hz]; [by apply Hnew1|].
    destruct (decide (c ∈ cs1)) as [Hin|Hnin]; [by apply Hnew1|]. right.
    destruct (chain_elem g _ _ _ (file_chain _ _ _ _ _ _ (wr_file _ _ _ _ _ Hw4)) Hc) as [Hr _].
    rewrite <- Hz. symmetry. apply (proj1 Hfr1); [lia|done].
  - apply (frame_trans v v1 v4 e cs1 cs4); [exact Hfr1|by apply Hframe|].
    intros c Hc. by apply (prefix_elem cs1).
  - intros p Hp. rewrite Hsz4 in Hp. fold old pos. rewrite Hby4 by done. unfold written_byte.
    assert (Hf : p < old → file_byte (dev v1) cs1 p = file_byte (dev v) cs p) by (intros Hlt; apply Hby1; split; [lia|exact Hlt]).
    destruct (Z.ltb_spec p pos), (Z.ltb_spec p old), (Z.ltb_spec p (pos + size)); auto; lia.
  - intros j Hj. replace (place e) with (place e1) by (by rewrite Ee1). by apply Hre4.
Qed.

(** (C2) Writing to a file, when there is room on the volume and below the
    largest file size: [fat_write] writes all the bytes and answers 0.  The bytes
    of the file are then those that were written, zeros between the old end and
    the offset, and the old ones everywhere else; the size, the offset and the
    end-of-file flag follow; the record on the device is that of the descriptor.
    The chain is the old one with clusters that were free, and outside of the
    clusters of the file, the record and the tables nothing changes, nor does the
    table for other clusters.  The file can be written again. *)
Theorem fat_write_correct v fd e cs l src size :
  writable v fd e cs l → 0 < size → enough src size → write_offset e + size ≤ 0xFFFFFFFF →
  clusters_of g (Z.max (record_size (record e)) (write_offset e + size))
    ≤ Z.of_nat (length cs + length l) →
  ∃ v' e' cs' l', fat_write g malloc get_time fd (Some size) src v = Some (v', (0, size)) ∧
    written_file v fd e cs l src size v' e' cs' l'.
Proof.
  intros Hw Hs Hen Hmax Hroom.
  destruct (fat_write_ok v fd e cs l src size Hw Hs Hen Hmax Hroom) as (v' & x & E & e' & cs' & l' & -> & H).
  by exists v', e', cs', l'.
Qed.

(** (C1) What is written is read back: [fat_write] at the offset of a file, then
    [fat_seek] to where the write began, then [fat_read] of as many bytes, all on
    the same descriptor.  The three calls succeed, and the buffer holds what was
    written. *)
Theorem fat_write_seek_read v fd e cs l src size buf :
  writable v fd e cs l → 0 < size → enough src size → write_offset e + size ≤ 0xFFFFFFFF →
  clusters_of g (Z.max (record_size (record e)) (write_offset e + size))
    ≤ Z.of_nat (length cs + length l) →
  write_offset e ≤ INT_MAX → size ≤ Z.of_nat (length buf) →
  ∃ v1 v2 v3 buf', fat_write g malloc get_time fd (Some size) src v = Some (v1, (0, size)) ∧
    fat_seek malloc fd (write_offset e) 0 v1 = Some (v2, 0) ∧
    fat_read g malloc fd (Some size) (Some buf) v2 = Some (v3, (0, size, Some buf')) ∧
    length buf' = length buf ∧ ∀ j, 0 ≤ j < size → at_ buf' j = datum src j.
Proof.
  intros Hw Hsize Hen Hmax Hroom Hint Hbuf. unfold INT_MAX in Hint.
  destruct (fat_write_ok v fd e cs l src size Hw Hsize Hen Hmax Hroom)
    as (v1 & x & E1 & e1 & cs1 & l1 & -> & Hwf).
  pose proof (wf_writable _ _ _ _ _ _ _ _ _ _ _ Hwf) as Hw1.
  pose proof (wr_file _ _ _ _ _ Hw1) as Hfile1. pose proof (file_open _ _ _ _ _ _ Hfile1) as Hopen1.
  set (pos := write_offset e) in *.
  assert (Hpos : 0 ≤ pos).
  { pose proof (file_open _ _ _ _ _ _ (wr_file _ _ _ _ _ Hw)) as (_ & _ & _ & _ & _ & Hok).
    pose proof (fd_offset _ Hok). destruct (record_size_ok e Hok) as [_ Hs].
    unfold pos, write_offset. destruct (has (mode e) MODE_APPEND); lia. }
  destruct (fat_seek_ok malloc v1 fd e1 pos 0 Hopen1 ltac:(lia)) as (v2 & r2 & E2 & H2).
  cbn [Z.eqb] in H2. rewrite decide_True in H2 by lia. destruct H2 as (-> & Hv2 & _).
  set (e2 := set_eof (set_offset e1 (0 + pos)) 0) in *.
  assert (Hfile2 : is_file v2 fd e2 cs1).
  { destruct Hfile1 as [_ Hm Ha Hch Hf Hs Hk]. rewrite Hv2. split; try done.
    destruct Hopen1 as (H1 & H2 & H3 & H4 & H5 & [H6 H7 H8]).
    apply (with_fd_open v1 fd e1); [by repeat (split; [done|])|done|].
    split; [done| |by left]. cbn. change (2 ^ 32) with 4294967296. lia. }
  assert (Hgood2 : good (dev v2) (inst v2)) by (rewrite Hv2; apply (wr_good _ _ _ _ _ Hw1)).
  pose proof (aw_size _ _ _ _ (wf_fd _ _ _ _ _ _ _ _ _ _ _ Hwf)) as Hs1. fold pos in Hs1.
  assert (Hn : readable e2 size = size).
  { unfold readable, e2. cbn [set_eof set_offset eof offset record].
    rewrite decide_True by done. rewrite Hs1. lia. }
  destruct (fat_read_ok bs g Hg Hbs malloc v2 fd e2 cs1 size (Some buf) Hgood2 Hfile2 Hsize Hbuf)
    as (v3 & e3 & buf' & E3 & Hdel & _). rewrite Hn in E3, Hdel.
  destruct buf' as [l'|]; [|done]. destruct Hdel as [Hl' Hat].
  exists v1, v2, v3, l'. split; [done|]. split; [done|]. split; [done|]. split; [done|].
  intros j Hj. rewrite Hat by lia. rewrite (proj2 (Z.ltb_lt _ _)) by lia.
  rewrite Hv2. cbn [with_fd set_fds dev e2 set_eof set_offset offset].
  rewrite (wf_bytes _ _ _ _ _ _ _ _ _ _ _ Hwf) by (rewrite Hs1; lia). fold pos. unfold written_byte.
  rewrite (proj2 (Z.ltb_ge _ _)), (proj2 (Z.ltb_lt _ _)) by lia. f_equal. lia.
Qed.
End Finish.
End Write.

(** ** A file to evaluate on *)

(** The file of FatRead.v, open for appending with the mode a+, its record at the
    start of the root directory. *)
Definition append_fd : fat_fd :=
  FatFd true (Z.lor MODE_APPEND MODE_MODIFY) small_record 0 7 0 10 0 0.
Definition append_volume : volume memory :=
  Volume (fst one_file) (snd one_file) [append_fd; zero_fd] [] 0 false.

Lemma append_file : is_file 512 fat12_geometry append_volume 0 append_fd [2].
Proof.
  destruct one_file_ok as [Hgood Hch]. pose proof Hgood as (_ & _ & Hready).
  destruct (file_open _ _ _ _ _ _ small_file) as (_ & _ & _ & _ & _ & [Hr _ _]).
  split; try reflexivity.
  - split; [exact Hready|]. repeat (split; [reflexivity|]).
    split; [exact Hr|split; [discriminate|reflexivity]|by left].
  - exact Hch.
  - split; [discriminate|]. intros Hn. by destruct Hn.
Qed.

Lemma append_writable : writable 512 fat12_geometry append_volume 0 append_fd [2] [3].
Proof.
  split.
  - exact (proj1 one_file_ok).
  - exact append_file.
  - reflexivity.
  - repeat split; vm_compute; discriminate.
  - intros c Hc _ a Ha. unfold in_cluster, cluster_addr, data_base in Ha. cbn in Ha.
    unfold at_place, place. apply andb_false_iff. right. apply Z.ltb_ge. cbn. lia.
  - split; [apply list.NoDup_singleton|]. intros c ->%list_elem_of_singleton. split; [cbn; lia|].
    vm_compute. reflexivity.
Qed.

Lemma no_clock (d : memory) (s : list Z) : None = Some s → length s = 19%nat.
Proof. discriminate. Qed.

Lemma fat_write_correct_witness :
  writable 512 fat12_geometry append_volume 0 append_fd [2] [3] ∧
  ∃ v' e' cs' l',
    fat_write fat12_geometry (λ _, true) (λ _, None) 0 (Some 700) None append_volume
    = Some (v', (0, 700)) ∧
    written_file 512 fat12_geometry append_volume 0 append_fd [2] [3] None 700 v' e' cs' l'.
Proof.
  split; [exact append_writable|].
  apply (fat_write_correct 512 fat12_geometry fat12_geometry_ok eq_refl (λ _, true) (λ _, None)
           no_clock append_volume 0 append_fd [2] [3] None 700 append_writable);
    [reflexivity|exact I|vm_compute; discriminate|vm_compute; discriminate].
Defined.

Lemma fat_write_seek_read_witness :
  writable 512 fat12_geometry append_volume 0 append_fd [2] [3] ∧
  ∃ v1 v2 v3 buf',
    fat_write fat12_geometry (λ _, true) (λ _, None) 0 (Some 3) (Some [65; 66; 67]) append_volume
    = Some (v1, (0, 3)) ∧
    fat_seek (λ _, true) 0 300 0 v1 = Some (v2, 0) ∧
    fat_read fat12_geometry (λ _, true) 0 (Some 3) (Some [0; 0; 0]) v2 = Some (v3, (0, 3, Some buf')) ∧
    length buf' = 3%nat ∧ ∀ j, 0 ≤ j < 3 → at_ buf' j = datum (Some [65; 66; 67]) j.
Proof.
  split; [exact append_writable|].
  apply (fat_write_seek_read 512 fat12_geometry fat12_geometry_ok eq_refl (λ _, true) (λ _, None)
           no_clock append_volume 0 append_fd [2] [3] (Some [65; 66; 67]) 3 [0; 0; 0] append_writable);
    [reflexivity| |vm_compute; discriminate|vm_compute; discriminate|vm_compute; discriminate|
     vm_compute; discriminate].
  split; [vm_compute; discriminate|]. unfold is_byte.
  repeat (apply Forall_cons_2; [lia|]). apply Forall_nil_2.
Defined.
