(* ===== verification/VfsPath.v ===== *)
(** Path names of the virtual file system: [build_vname_locked] of
    kernel/vfs/vfs.c, and what it makes of a name.  A string is the list of its
    bytes; where the code needs its null byte the list holds it. *)

From S2P Require Import Prelude Errors.

Definition vfs_type_unknown : Z := 0.
Definition vfs_type_directory : Z := 3.

Definition VFS_PATH_COUNT : Z := 32.
Definition VFS_PATH_BUFFER : Z := 1024.

Definition slash : Z := 0x2F.
Definition dot : Z := 0x2E.

(** ** Path names *)

(** vname: the components, the bytes since the last slash (from the pointer [b] or
    [w] on), and the type. A string is here without its null byte. *)
Record vname := Vname {
  components : list (list Z);
  partial : list Z;
  vtype : Z }.

(** "while (count > 0)": the last component is dropped when it is a dot, and with
    the one before it when it is two dots. *)
Definition drop_dots (v : vname) : vname :=
  match reverse (components v) with
  | [] => v
  | p :: rest =>
      if decide (p = [dot]) then Vname (reverse rest) (partial v) vfs_type_directory
      else if decide (p = [dot; dot])
           then Vname (reverse (tail rest)) (partial v) vfs_type_directory
           else Vname (components v) (partial v) 0
  end.

(** A slash or the end of the string: the component is stored when it is not
    empty. *)
Definition end_component (v : vname) : option vname :=
  if Z.of_nat (length (components v)) + 4 >=? VFS_PATH_COUNT then None
  else Some (Vname (if decide (partial v = []) then components v else components v ++ [partial v])
               [] (vtype v)).

(** The components of the working directory; the list is the string and its null
    byte. *)
Fixpoint wd_loop (wd : list Z) (v : vname) : option (option vname) :=
  match wd with
  | [] => None
  | c :: wd =>
      if (c =? slash) || (c =? 0) then
        match end_component v with
        | None => Some None
        | Some v => if c =? 0 then Some (Some v) else wd_loop wd v
        end
      else wd_loop wd (Vname (components v) (partial v ++ [c]) (vtype v))
  end.

(** The loop over the name from the index [i]; [last] is the byte before it. *)
Fixpoint name_loop (name : list Z) (i last : Z) (v : vname) : option (option vname) :=
  match name with
  | [] => None
  | c :: name =>
      if i + 16 >=? VFS_PATH_BUFFER then Some None
      else
        let v := if (c =? slash) || (c =? 0) then end_component v
                 else Some (Vname (components v) (partial v ++ [c]) (vtype v)) in
        match v with
        | None => Some None
        | Some v =>
            let v := drop_dots v in
            if c =? 0
            then Some (Some (if (i >? 0) && (last =? slash)
                             then Vname (components v) (partial v) vfs_type_directory else v))
            else name_loop name (i + 1) c v
        end
  end.

(** [name] is a string with its null byte, [wd] the call of [vfs_realpath] for the
    working directory of the task. *)
Definition build_vname (name : list Z) (wd : option (de_error + list Z)) : option (de_error + vname) :=
  c ← name.[0];
  if c =? 0 then Some (inl DE_PATH)
  else
    v ← (if negb (c =? slash) then
           wd ← wd;
           match wd with
           | inl r => Some (inl r)
           | inr wd =>
               v ← wd_loop (wd ++ [0]) (Vname [] [] 0);
               Some (match v with None => inl DE_PATH | Some v => inr v end)
           end
         else Some (inr (Vname [] [] 0)));
    match v with
    | inl r => Some (inl r)
    | inr v =>
        v ← name_loop name 0 0 v;
        Some (match v with None => inl DE_PATH | Some v => inr v end)
    end.

(** ** What a path name says *)

(** The parts of a string between slashes; [p] is what was read of the current
    one. *)
Fixpoint split_path (p rest : list Z) : list (list Z) :=
  match rest with
  | [] => [p]
  | c :: rest => if c =? slash then p :: split_path [] rest else split_path (p ++ [c]) rest
  end.

Definition dots (c : list Z) : Prop := c = [] ∨ c = [dot] ∨ c = [dot; dot].

#[export] Instance dots_dec c : Decision (dots c).
Proof. unfold dots. apply _. Defined.

(** One part, when the components before it are [acc]: there may be at most 27 of
    them. *)
Definition enter_part (acc : list (list Z)) (c : list Z) : option (list (list Z)) :=
  if decide (28 ≤ length acc)%nat then None
  else Some (if decide (c = [dot; dot]) then take (pred (length acc)) acc
             else if decide (dots c) then acc else acc ++ [c]).

Fixpoint enter_parts (acc : list (list Z)) (l : list (list Z)) : option (list (list Z)) :=
  match l with
  | [] => Some acc
  | c :: l => acc ← enter_part acc c; enter_parts acc l
  end.

(** The path of the components, from the root. *)
Definition render (l : list (list Z)) : list Z := mjoin ((λ c, slash :: c) <$> l).

(** A component of a path. *)
Definition valid_name (c : list Z) : Prop := ~ dots c ∧ Forall (λ b, b ≠ slash ∧ b ≠ 0) c.

(** The components and the type of [name], with the working directory at [wd]. *)
Definition path_spec (name : list Z) (wd : list (list Z)) : de_error + vname :=
  if decide (name = []) then inl DE_PATH
  else if decide (1008 ≤ length name)%nat then inl DE_PATH
  else
    let parts := split_path [] name in
    match enter_parts (if decide (head name = Some slash) then [] else wd) parts with
    | None => inl DE_PATH
    | Some cs =>
        inr (Vname cs [] (if decide (dots (default [] (list.last parts))) then vfs_type_directory else 0))
    end.

(** *** The loops *)

Definition no_dots (l : list (list Z)) : Prop := Forall (λ c, ~ dots c) l.

Lemma drop_dots_clean l p ty :
  no_dots l → drop_dots (Vname l p ty) = Vname l p (if decide (l = []) then ty else 0).
Proof.
  intros Hl. unfold drop_dots. cbn [components partial vtype].
  destruct (reverse l) as [|c r] eqn:E.
  - apply (f_equal reverse) in E. rewrite reverse_involutive in E. subst l. done.
  - apply (f_equal reverse) in E. rewrite reverse_involutive, reverse_cons in E. subst l.
    apply Forall_app in Hl as [_ Hl]. apply Forall_inv in Hl.
    rewrite decide_False by (intros ->; apply Hl; by right; left).
    rewrite decide_False by (intros ->; apply Hl; by right; right).
    rewrite decide_False by (by destruct (reverse r)). done.
Qed.

(** The end of a part: [end_component], and the dots that it may have stored. *)
Lemma end_part l p ty :
  no_dots l →
  match end_component (Vname l p ty) with
  | None => enter_part l p = None
  | Some v => ∃ l', enter_part l p = Some l' ∧ no_dots l' ∧
      drop_dots v = Vname l' [] (if decide (p = []) then if decide (l = []) then ty else 0
                                 else if decide (dots p) then vfs_type_directory else 0)
  end.
Proof.
  intros Hl. unfold end_component, enter_part. cbn [components partial vtype].
  unfold VFS_PATH_COUNT. rewrite Z.geb_leb.
  destruct (Z.leb_spec 32 (Z.of_nat (length l) + 4)) as [H|H]; [by rewrite decide_True by lia|].
  rewrite decide_False by lia.
  destruct (decide (p = [])) as [->|Hp].
  { exists l. rewrite (decide_False (P := [] = [dot; dot])) by done.
    rewrite (decide_True (P := dots [])) by (by left).
    split; [done|]. split; [done|]. by apply drop_dots_clean. }
  unfold drop_dots. cbn [components partial vtype]. rewrite reverse_snoc.
  destruct (decide (p = [dot])) as [->|H1].
  { exists l. rewrite (decide_False (P := [dot] = [dot; dot])) by done.
    rewrite (decide_True (P := dots [dot])) by (by right; left).
    split; [done|]. split; [done|]. by rewrite reverse_involutive. }
  destruct (decide (p = [dot; dot])) as [->|H2].
  { exists (take (pred (length l)) l). split; [done|].
    rewrite (decide_True (P := dots _)) by (by right; right).
    assert (E : reverse (tail (reverse l)) = take (pred (length l)) l).
    { destruct l as [|c l0 _] using rev_ind; [done|]. rewrite reverse_snoc. cbn [tail].
      rewrite reverse_involutive, length_app. cbn [length]. rewrite Nat.add_1_r. cbn [pred].
      by rewrite take_app_length. }
    rewrite E. split; [|done]. by apply Forall_take. }
  assert (Hd : ~ dots p) by (intros [|[|]]; done).
  exists (l ++ [p]). rewrite !(decide_False (P := dots p)) by done.
  split; [done|]. split; [|done].
  apply Forall_app. split; [done|]. by apply Forall_singleton.
Qed.

Lemma split_path_ne p rest : split_path p rest ≠ [].
Proof. revert p. induction rest as [|c rest IH]; intros p; cbn; [done|]. destruct (c =? slash); [done|apply IH]. Qed.

Lemma last_cons_ne {A} (x : A) l : l ≠ [] → list.last (x :: l) = list.last l.
Proof. by destruct l. Qed.

(** The loop over the name does what the parts say. *)
Lemma name_loop_ok rest i last p l ty :
  no_dots l → Forall (λ b, b ≠ 0) rest → 0 ≤ i → (rest = [] → p = [] → 0 < i ∧ last = slash) →
  (p ≠ [] → last ≠ slash) →
  name_loop (rest ++ [0]) i last (Vname l p ty) = Some (
    if decide (i + Z.of_nat (length rest) + 16 < 1024) then
      match enter_parts l (split_path p rest) with
      | None => None
      | Some cs => Some (Vname cs []
          (if decide (dots (default [] (list.last (split_path p rest)))) then vfs_type_directory else 0))
      end
    else None).
Proof.
  revert i last p l ty. induction rest as [|c rest IH]; intros i last p l ty Hl Hz Hi Hlast Hlast'.
  - cbn [name_loop app length split_path enter_parts list.last default mbind option_bind].
    unfold VFS_PATH_BUFFER. rewrite Z.geb_leb.
    destruct (Z.leb_spec 1024 (i + 16)) as [H|H]; [by rewrite decide_False by lia|].
    rewrite decide_True by lia. change ((0 =? slash) || (0 =? 0)) with true. cbn iota.
    pose proof (end_part l p ty Hl) as He. destruct (end_component _) as [v|]; [|by rewrite He].
    destruct He as (l' & -> & Hl' & ->). cbn [mbind option_bind components partial vtype Z.eqb].
    do 2 f_equal. destruct (decide (p = [])) as [->|Hp].
    + destruct (Hlast eq_refl eq_refl) as [H1 ->]. rewrite Z.gtb_ltb, (proj2 (Z.ltb_lt 0 i)), Z.eqb_refl by lia.
      cbn [andb]. by rewrite decide_True by (by left).
    + rewrite (proj2 (Z.eqb_neq last slash)), andb_false_r by auto. done.
  - apply list.Forall_cons in Hz as [Hc Hz]. cbn [name_loop app length split_path].
    unfold VFS_PATH_BUFFER. rewrite Z.geb_leb.
    destruct (Z.leb_spec 1024 (i + 16)) as [H|H]; [by rewrite decide_False by lia|].
    rewrite (proj2 (Z.eqb_neq c 0)), orb_false_r by done.
    replace (i + Z.of_nat (S (length rest))) with (i + 1 + Z.of_nat (length rest)) by lia.
    destruct (Z.eqb_spec c slash) as [->|Hns].
    + pose proof (end_part l p ty Hl) as He. cbn [enter_parts].
      destruct (end_component _) as [v|]; [|rewrite He; cbn [mbind option_bind]; by destruct (decide _)].
      destruct He as (l' & -> & Hl' & ->). cbn [mbind option_bind].
      rewrite IH by (try done; lia). by rewrite (last_cons_ne p) by apply split_path_ne.
    + rewrite drop_dots_clean by done. rewrite IH; [done|done|done|lia| |done].
      intros _ E. by apply app_nil in E as [_ ?].
Qed.

(** The working directory. *)
Lemma wd_name c rest l p ty :
  Forall (λ b, b ≠ slash ∧ b ≠ 0) c →
  wd_loop (c ++ rest) (Vname l p ty) = wd_loop rest (Vname l (p ++ c) ty).
Proof.
  revert p. induction c as [|b c IH]; intros p Hc; [by rewrite app_nil_r|].
  apply list.Forall_cons in Hc as [[H1 H2] Hc]. cbn [wd_loop app].
  rewrite (proj2 (Z.eqb_neq b slash)), (proj2 (Z.eqb_neq b 0)) by done. cbn [orb components partial vtype].
  rewrite IH by done. by rewrite <- app_assoc.
Qed.

Lemma wd_loop_ok cs l p ty :
  Forall valid_name cs →
  let m := (if decide (p = []) then l else l ++ [p]) ++ cs in
  wd_loop (render cs ++ [0]) (Vname l p ty)
  = Some (if decide (28 < length m ∨ 28 ≤ length l)%nat then None else Some (Vname m [] ty)).
Proof.
  revert l p. induction cs as [|c cs IH]; intros l p Hcs m.
  - cbn [render fmap list_fmap mjoin list_join app wd_loop]. change ((0 =? slash) || (0 =? 0)) with true.
    cbn iota. unfold end_component, VFS_PATH_COUNT. cbn [components partial vtype Z.eqb]. rewrite Z.geb_leb.
    unfold m. rewrite app_nil_r.
    destruct (Z.leb_spec 32 (Z.of_nat (length l) + 4)) as [H|H]; [by rewrite decide_True by lia|].
    destruct (decide (p = [])); [rewrite decide_False by lia; done|].
    rewrite decide_False by (rewrite length_app; cbn [length]; lia). done.
  - apply list.Forall_cons in Hcs as [[Hd Hc] Hcs].
    change (render (c :: cs) ++ [0]) with (slash :: (c ++ render cs) ++ [0]).
    cbn [wd_loop]. rewrite Z.eqb_refl. cbn [orb]. unfold end_component at 1, VFS_PATH_COUNT.
    cbn [components partial vtype]. rewrite Z.geb_leb.
    destruct (Z.leb_spec 32 (Z.of_nat (length l) + 4)) as [H|H]; [by rewrite decide_True by lia|].
    change (slash =? 0) with false. cbn iota. rewrite <- app_assoc, wd_name by done. cbn [app].
    rewrite IH by done. assert (Hne : c ≠ []) by (intros ->; apply Hd; by left).
    rewrite (decide_False (P := c = [])) by done. set (l1 := if decide (p = []) then l else l ++ [p]) in *.
    assert (E : (l1 ++ [c]) ++ cs = m) by (unfold m; by rewrite <- app_assoc). rewrite E.
    assert (Hl1 : (length l1 ≤ S (length l) ∧ length m = length l1 + S (length cs))%nat).
    { split; [|by rewrite <- E, !length_app; cbn; lia]. unfold l1.
      destruct (decide (p = [])); rewrite ?length_app; cbn [length]; lia. }
    clearbody l1 m. f_equal. destruct (decide (28 < length m ∨ 28 ≤ length l)%nat),
      (decide (28 < length m ∨ 28 ≤ length l1)%nat); try done; lia.
Qed.

(** The text of a working directory: [vfs_realpath] answers "/" for the root. *)
Definition wd_text (wd : list (list Z)) : list Z := if decide (wd = []) then [slash] else render wd.

Lemma wd_text_loop wd ty :
  Forall valid_name wd →
  wd_loop (wd_text wd ++ [0]) (Vname [] [] ty)
  = Some (if decide (28 < length wd)%nat then None else Some (Vname wd [] ty)).
Proof.
  intros Hwd. unfold wd_text. destruct (decide (wd = [])) as [->|Hne]; [done|].
  rewrite wd_loop_ok by done. rewrite (decide_True (P := [] = [])) by done. cbn [app length].
  destruct (decide (28 < length wd ∨ 28 ≤ 0)%nat), (decide (28 < length wd)%nat); try done; lia.
Qed.

Lemma valid_no_dots l : Forall valid_name l → no_dots l.
Proof. intros Hl. eapply list.Forall_impl; [exact Hl|]. by intros c [Hd _]. Qed.

(** An absolute name, or none. *)
Lemma build_vname_abs name w wd :
  Forall (λ b, b ≠ 0) name → name = [] ∨ head name = Some slash → build_vname (name ++ [0]) w = Some (path_spec name wd).
Proof.
  intros Hn [->|Hs]; [done|]. destruct name as [|c name]; [done|]. injection Hs as ->.
  unfold build_vname, path_spec. change (((slash :: name) ++ [0]).[0]) with (Some slash). cbn [mbind option_bind].
  change (slash =? 0) with false. change (negb (slash =? slash)) with false. cbn [mbind option_bind head].
  rewrite (decide_False (P := slash :: name = [])), (decide_True (P := Some slash = Some slash)) by done.
  rewrite name_loop_ok; [|apply Forall_nil_2|done|lia|done|done]. cbn [mbind option_bind].
  destruct (decide (0 + _ + 16 < 1024)), (decide (1008 ≤ _)%nat); try lia; [|done].
  by destruct (enter_parts _ _).
Qed.

(** A relative name. *)
Lemma build_vname_rel name wd t :
  Forall (λ b, b ≠ 0) name → Forall valid_name wd → name ≠ [] → head name ≠ Some slash →
  wd_loop (t ++ [0]) (Vname [] [] 0) = Some (if decide (28 < length wd)%nat then None else Some (Vname wd [] 0)) →
  build_vname (name ++ [0]) (Some (inr t)) = Some (path_spec name wd).
Proof.
  intros Hn Hwd Hne Hs Ht. destruct name as [|c name]; [done|]. cbn [head] in Hs.
  apply list.Forall_cons in Hn as Hc. destruct Hc as [Hc _].
  unfold build_vname, path_spec. change (((c :: name) ++ [0]).[0]) with (Some c). cbn [mbind option_bind head].
  rewrite (proj2 (Z.eqb_neq c 0)), (proj2 (Z.eqb_neq c slash)) by congruence. cbn [negb]. rewrite Ht. cbn [mbind option_bind].
  rewrite (decide_False (P := c :: name = [])), (decide_False (P := Some c = Some slash)) by done.
  destruct (decide (28 < length wd)%nat) as [Hlong|Hshort].
  - cbn [mbind option_bind]. destruct (decide (1008 ≤ _)%nat); [done|].
    destruct (split_path [] (c :: name)) as [|q qs] eqn:Eq; [by apply split_path_ne in Eq|].
    cbn [enter_parts]. unfold enter_part. by rewrite decide_True by lia.
  - rewrite name_loop_ok; [|by apply valid_no_dots|done|lia|done|done]. cbn [mbind option_bind].
    destruct (decide (0 + _ + 16 < 1024)), (decide (1008 ≤ _)%nat); try lia; [|done].
    by destruct (enter_parts _ _).
Qed.

Lemma build_vname_err name r :
  Forall (λ b, b ≠ 0) name → name ≠ [] → head name ≠ Some slash → build_vname (name ++ [0]) (Some (inl r)) = Some (inl r).
Proof.
  intros Hn Hne Hs. destruct name as [|c name]; [done|]. cbn [head] in Hs.
  apply list.Forall_cons in Hn as [Hc _]. unfold build_vname.
  change (((c :: name) ++ [0]).[0]) with (Some c). cbn [mbind option_bind].
  by rewrite (proj2 (Z.eqb_neq c 0)), (proj2 (Z.eqb_neq c slash)) by congruence.
Qed.

(** The answer when the working directory has an error or a path; [None] is no
    working directory at all, which is the root. *)
Definition path_answer (name : list Z) (wd : de_error + list (list Z)) : de_error + vname :=
  match wd with
  | inr wd => path_spec name wd
  | inl r => if decide (name = [] ∨ head name = Some slash) then path_spec name [] else inl r
  end.

Lemma build_vname_ok name wd w :
  Forall (λ b, b ≠ 0) name →
  match wd with
  | inl r => w = inl r
  | inr ns => Forall valid_name ns ∧ (w = inr (wd_text ns) ∨ ns = [] ∧ w = inr [])
  end →
  build_vname (name ++ [0]) (Some w) = Some (path_answer name wd).
Proof.
  intros Hn Hw. destruct (decide (name = [] ∨ head name = Some slash)) as [Ha|Hr].
  - rewrite (build_vname_abs name _ (match wd with inl _ => [] | inr ns => ns end)) by done.
    unfold path_answer. destruct wd; [by rewrite decide_True|done].
  - destruct wd as [r|ns]; [subst w; unfold path_answer; rewrite decide_False by done; apply build_vname_err; tauto|].
    destruct Hw as [Hns [->|[-> ->]]]; apply build_vname_rel; try tauto; by apply wd_text_loop.
Qed.

(** The components are names. *)
Lemma split_path_valid p rest :
  Forall (λ b, b ≠ slash ∧ b ≠ 0) p → Forall (λ b, b ≠ 0) rest →
  Forall (Forall (λ b, b ≠ slash ∧ b ≠ 0)) (split_path p rest).
Proof.
  revert p. induction rest as [|c rest IH]; intros p Hp Hr; cbn; [by apply Forall_singleton|].
  apply list.Forall_cons in Hr as [Hc Hr]. destruct (Z.eqb_spec c slash).
  - apply list.Forall_cons. split; [done|]. apply IH; [apply Forall_nil_2|done].
  - apply IH; [|done]. apply Forall_app. split; [done|]. by apply Forall_singleton.
Qed.

Lemma enter_parts_valid acc l cs :
  Forall valid_name acc → Forall (Forall (λ b, b ≠ slash ∧ b ≠ 0)) l → enter_parts acc l = Some cs → Forall valid_name cs.
Proof.
  revert acc. induction l as [|c l IH]; intros acc Ha Hl; cbn; [by intros [= <-]|].
  apply list.Forall_cons in Hl as [Hc Hl]. unfold enter_part. destruct (decide (28 ≤ length acc)%nat) as [|Hlt]; [done|].
  cbn [mbind option_bind]. intros He.
  apply IH in He; [done| |done].
  destruct (decide (c = [dot; dot])); [by apply Forall_take|]. destruct (decide (dots c)); [done|].
  apply Forall_app. split; [done|]. by apply Forall_singleton.
Qed.

Lemma path_spec_valid name wd v :
  Forall (λ b, b ≠ 0) name → Forall valid_name wd → path_spec name wd = inr v → Forall valid_name (components v).
Proof.
  intros Hn Hwd. unfold path_spec. destruct (decide _); [done|]. destruct (decide _); [done|].
  destruct (enter_parts _ _) as [cs|] eqn:He; [|done]. intros [= <-]. cbn [components].
  apply enter_parts_valid in He; [done| |by apply split_path_valid; [apply Forall_nil_2|]].
  destruct (decide _); [apply Forall_nil_2|done].
Qed.

(** The path of components reads as those components. *)
Lemma split_name p c rest :
  Forall (λ b, b ≠ slash ∧ b ≠ 0) c → split_path p (c ++ rest) = split_path (p ++ c) rest.
Proof.
  revert p. induction c as [|b c IH]; intros p Hc; [by rewrite app_nil_r|].
  apply list.Forall_cons in Hc as [[Hs _] Hc]. cbn. rewrite (proj2 (Z.eqb_neq b slash)) by done.
  by rewrite IH, <- app_assoc.
Qed.

Lemma split_render p cs : Forall valid_name cs → split_path p (render cs) = p :: cs.
Proof.
  revert p. induction cs as [|c cs IH]; intros p Hcs; [done|]. apply list.Forall_cons in Hcs as [[_ Hc] Hcs].
  change (render (c :: cs)) with (slash :: c ++ render cs). cbn [split_path]. rewrite Z.eqb_refl, split_name by done.
  by rewrite IH.
Qed.

Lemma render_nonzero cs : Forall valid_name cs → Forall (λ b, b ≠ 0) (render cs).
Proof.
  induction 1 as [|c cs [_ Hc] _ IH]; [apply Forall_nil_2|]. change (render (c :: cs)) with (slash :: c ++ render cs).
  apply list.Forall_cons. split; [done|]. apply Forall_app. split; [|done].
  eapply list.Forall_impl; [exact Hc|]. by intros b [_ ?].
Qed.

Lemma enter_parts_names acc cs :
  Forall valid_name cs → (length acc + length cs ≤ 28)%nat → enter_parts acc cs = Some (acc ++ cs).
Proof.
  revert acc. induction cs as [|c cs IH]; intros acc Hcs Hlen; cbn [enter_parts length] in *; [by rewrite app_nil_r|].
  apply list.Forall_cons in Hcs as [[Hd _] Hcs]. unfold enter_part. rewrite decide_False by lia. cbn [mbind option_bind].
  rewrite (decide_False (P := c = [dot; dot])) by (intros ->; apply Hd; by right; right).
  rewrite (decide_False (P := dots c)) by done. rewrite IH; [by rewrite <- app_assoc|done|].
  rewrite length_app. cbn. lia.
Qed.

Lemma path_spec_render cs wd :
  cs ≠ [] → Forall valid_name cs → (length cs ≤ 28)%nat → (length (render cs) < 1008)%nat →
  path_spec (render cs) wd = inr (Vname cs [] 0).
Proof.
  intros Hne Hcs Hlen Htext. unfold path_spec. destruct cs as [|c cs]; [done|].
  change (render (c :: cs)) with (slash :: c ++ render cs) at 1 3. cbn [head].
  rewrite (decide_False (P := _ = [])) by done. rewrite (decide_False (P := (1008 ≤ _)%nat)) by lia.
  rewrite decide_True by done. rewrite split_render by done.
  change (enter_parts [] ([] :: c :: cs)) with (enter_parts [] (c :: cs)). rewrite enter_parts_names by done. cbn [app].
  rewrite (last_cons_ne []) by done. rewrite decide_False; [done|].
  destruct (list.last (c :: cs)) as [e|] eqn:El; [|by apply last_None in El]. apply last_Some_elem_of in El.
  rewrite list.Forall_forall in Hcs. by destruct (Hcs e El).
Qed.

(** (C31) Path names: for every name and every working directory, relative names
    starting from it, [build_vname] splits the name at the slashes, drops empty
    parts and dots, lets two dots remove the component before them, and refuses
    names of 1008 bytes and more and parts behind 28 components.  The type is
    "directory" exactly when the last part is empty or dots. *)
Theorem build_vname_correct name wd :
  Forall (λ b, b ≠ 0) name → Forall valid_name wd →
  build_vname (name ++ [0]) (Some (inr (wd_text wd))) = Some (path_spec name wd).
Proof. intros Hn Hwd. apply (build_vname_ok name (inr wd)); auto. Qed.

(** a/../b from /c *)
Lemma build_vname_correct_witness :
  build_vname ([97; 47; 46; 46; 47; 98] ++ [0]) (Some (inr (wd_text [[99]]))) = Some (inr (Vname [[99]; [98]] [] 0)).
Proof.
  rewrite (build_vname_correct [97; 47; 46; 46; 47; 98] [[99]]); [reflexivity|repeat constructor; lia|].
  apply Forall_singleton. split; [by intros [|[|]]|]. apply Forall_singleton. unfold slash. lia.
Defined.
