(* ===== verification/Vfs.v ===== *)
(** The virtual file system: kernel/vfs/vfs.c.  The tree of the open nodes, the
    reading of path names against it, and opening, releasing, mounting and
    removing.

    A node has an identity (its address); [nodes] holds the structures, and a
    null pointer is [None].  The lists of children are linked through the nodes
    themselves (tree[0] is the owner, tree[1] the next sibling, tree[2] the first
    child), as in the code.  A result [None] of an operation is a panic of the
    kernel ("unexpected tree structure"), the use of a null pointer, or a name
    that does not fit into the 256 bytes of a node.  The tree lock is a mutex that
    is held from the start to the end of an operation; an operation is one
    function here.  What a node's functions n_open, n_release, n_truncate and
    n_remove do is the driver's affair: class [VfsDriver]. *)

From stdpp Require Import gmap.
From S2P Require Import Prelude Errors VfsPath.

Definition vfs_mode_create : Z := 0x0001.
Definition vfs_mode_truncate : Z := 0x0002.
Definition vfs_mode_exclusive : Z := 0x0004.
Definition vfs_mode_write : Z := 0x0800.
Definition vfs_mode_stat_only : Z := 0x1000.

Definition INT_MAX : Z := 2147483647.
Definition UINT_MAX : Z := 4294967295.

(** ** Nodes *)

(** The values of the pointers n_release and _release. *)
Inductive release_function := driver_release | vfs_release | panic_release | no_release.

#[export] Instance release_function_eq_dec : EqDecision release_function.
Proof. solve_decision. Defined.

Record vfs_node := Node {
  count : Z;
  type : Z;
  mode : Z;
  tree0 : option nat;
  tree1 : option nat;
  tree2 : option nat;
  mount : option nat;
  tree_state : Z;
  mount_state : Z;
  old_release : release_function;
  n_release_ptr : release_function;
  stat_of_mount : bool;
  name : list Z }.

Definition set_count (n : vfs_node) (c t : Z) : vfs_node :=
  Node c (type n) (mode n) (tree0 n) (tree1 n) (tree2 n) (mount n) t (mount_state n)
    (old_release n) (n_release_ptr n) (stat_of_mount n) (name n).
Definition set_tree (n : vfs_node) (t0 t1 t2 : option nat) : vfs_node :=
  Node (count n) (type n) (mode n) t0 t1 t2 (mount n) (tree_state n) (mount_state n)
    (old_release n) (n_release_ptr n) (stat_of_mount n) (name n).
Definition set_release (n : vfs_node) (old new : release_function) : vfs_node :=
  Node (count n) (type n) (mode n) (tree0 n) (tree1 n) (tree2 n) (mount n) (tree_state n)
    (mount_state n) old new (stat_of_mount n) (name n).
Definition set_mount (n : vfs_node) (m : option nat) (st : bool) (x : list Z) : vfs_node :=
  Node (count n) (type n) (mode n) (tree0 n) (tree1 n) (tree2 n) m 0 1
    (old_release n) (n_release_ptr n) st x.
Definition set_name (n : vfs_node) (x : list Z) : vfs_node :=
  Node (count n) (type n) (mode n) (tree0 n) (tree1 n) (tree2 n) (mount n) (tree_state n)
    (mount_state n) (old_release n) (n_release_ptr n) (stat_of_mount n) x.

Abbreviation heap := (gmap nat vfs_node).

(** [vfs_init_node]: the cleared node of a driver, with the functions of default.c,
    whose release is one of a driver's. *)
Definition vfs_init_node : vfs_node :=
  Node 0 0 0 None None None None 0 0 no_release driver_release false [].

(** What the functions of the nodes do: [drv_open] is n_open of an owner with a
    name, a type and a mode, and answers an error code and the new node. *)
Class VfsDriver (E : Type) := {
  drv_open : E → heap → nat → list Z → Z → Z → E * heap * de_error * option nat;
  drv_release : E → heap → nat → E * heap;
  drv_truncate : E → heap → nat → E * heap * de_error;
  drv_remove : E → heap → nat → list Z → bool → E * heap * de_error }.

Record vfs (E : Type) := Vfs {
  drivers : E;
  nodes : heap;
  root_node : nat }.
Arguments Vfs {E} _ _ _.
Arguments drivers {E} _.
Arguments nodes {E} _.
Arguments root_node {E} _.

Section Vfs.
Context {E : Type} `{VfsDriver E}.
Implicit Types (s : vfs E).

Definition set_nodes s (h : heap) : vfs E := Vfs (drivers s) h (root_node s).

(** An assignment to fields of the node at [x]. *)
Definition update s (x : nat) (f : vfs_node → vfs_node) : option (vfs E) :=
  n ← nodes s !! x; Some (set_nodes s (<[x := f n]> (nodes s))).

(** *** The tree *)

Definition add_node s (owner node : nat) : option (vfs E) :=
  if decide (owner = node) then None
  else
    o ← nodes s !! owner;
    s ← update s node (λ n, set_tree n (Some owner) (tree2 o) None);
    update s owner (λ o, set_tree o (tree0 o) (tree1 o) (Some node)).

(** The walk along the siblings to [node]: p1, p2 and i; the answer is p1. *)
Definition sibling_turn (h : heap) (node : nat) (x : option nat * nat * Z)
  : option (ctl (option nat * nat * Z) (option nat)) :=
  let '(p1, p2, i) := x in
  if decide (p2 = node) then Some (Done p1)
  else
    n ← h !! p2;
    let i := i + 1 in
    if i =? INT_MAX then None
    else
      next ← tree1 n;
      Some (Next (Some p2, next, i)).

Definition find_sibling (h : heap) (first node : nat) : option (option nat) :=
  while (S (size h)) (sibling_turn h node) (None, first, 0).

Definition remove_leaf_node s (node : nat) : option (vfs E) :=
  n ← nodes s !! node;
  owner ← tree0 n;
  o ← nodes s !! owner;
  if negb (tree_state n =? 0) || bool_decide (is_Some (tree2 n)) then None
  else
    p2 ← tree2 o;
    p1 ← find_sibling (nodes s) p2 node;
    match p1 with
    | None => update s owner (λ o, set_tree o (tree0 o) (tree1 o) (tree1 n))
    | Some p1 => update s p1 (λ p, set_tree p (tree0 p) (tree1 n) (tree2 p))
    end.

Definition find_turn (h : heap) (x : list Z) (y : option nat * Z)
  : option (ctl (option nat * Z) (option nat)) :=
  let '(p, i) := y in
  match p with
  | None => Some (Done None)
  | Some p =>
      n ← h !! p;
      if decide (name n = x) then Some (Done (Some p))
      else if i + 1 =? INT_MAX then None
           else Some (Next (tree1 n, i + 1))
  end.

Definition find_node s (owner : nat) (x : list Z) : option (option nat) :=
  o ← nodes s !! owner;
  while (S (S (size (nodes s)))) (find_turn (nodes s) x) (tree2 o, 0).

(** *** The fields of a node *)

Definition set_n_release s (x : nat) : option (vfs E) :=
  n ← nodes s !! x;
  if decide (n_release_ptr n = vfs_release) then Some s
  else update s x (λ n, set_release n (n_release_ptr n) vfs_release).

Definition unset_n_release s (x : nat) : option (vfs E) :=
  n ← nodes s !! x;
  if decide (n_release_ptr n = vfs_release)
  then update s x (λ n, set_release n panic_release (old_release n))
  else Some s.

Definition set_tree_state s (x : nat) : option (vfs E) :=
  n ← nodes s !! x;
  if tree_state n >? 0 then Some s
  else if decide (n_release_ptr n ≠ vfs_release) then None
  else if tree_state n =? 0 then update s x (λ n, set_count n (count n) 1) else Some s.

Definition incremented (n : vfs_node) : vfs_node :=
  set_count n (if (0 <=? count n) && (count n <? INT_MAX) then count n + 1 else count n)
    (if (tree_state n >? 0) && (tree_state n <? UINT_MAX) then tree_state n + 1 else tree_state n).

Definition decremented (n : vfs_node) : vfs_node :=
  let c := if count n >=? 0 then count n - 1 else count n in
  set_count n (if c <? -1 then -1 else c)
    (if tree_state n >? 0 then tree_state n - 1 else tree_state n).

Definition vfs_increment_count s (x : nat) : option (vfs E * Z) :=
  n ← nodes s !! x;
  s ← update s x incremented;
  Some (s, count (incremented n)).

Definition vfs_decrement_count s (x : nat) : option (vfs E * Z) :=
  n ← nodes s !! x;
  s ← update s x decremented;
  Some (s, count (decremented n)).

(** A call of n_release of the node while the tree is locked: only the function of
    a driver may be called, the one of this file would lock the tree again. *)
Definition call_release s (x : nat) : option (vfs E) :=
  n ← nodes s !! x;
  match n_release_ptr n with
  | driver_release =>
      let '(e, h) := drv_release (drivers s) (nodes s) x in
      Some (Vfs e h (root_node s))
  | _ => None
  end.

(** remove_leaf_node, unset_n_release and n_release of an unused node *)
Definition drop_node s (x : nat) : option (vfs E) :=
  s ← remove_leaf_node s x;
  s ← unset_n_release s x;
  call_release s x.

(** The loops that drop the owners that are not used any more. *)
Definition prune_turn (y : vfs E * option nat) : option (ctl (vfs E * option nat) (vfs E)) :=
  let '(s, owner) := y in
  if decide (owner = Some (root_node s)) then Some (Done s)
  else
    x ← owner;
    n ← nodes s !! x;
    if negb (tree_state n =? 0) || bool_decide (is_Some (tree2 n)) then Some (Done s)
    else if negb (mount_state n =? 0) then Some (Done s)
    else
      s ← drop_node s x;
      Some (Next (s, tree0 n)).

Definition prune s (owner : option nat) : option (vfs E) :=
  while (S (S (size (nodes s)))) prune_turn (s, owner).

(** *** The operations *)

(** [vfs_init]: the root node that the driver made. *)
Definition vfs_init (e : E) (h : heap) (root : nat) : option (vfs E) :=
  n ← h !! root;
  Some (Vfs e (<[root := Node (count n) (type n) (mode n) (tree0 n) (tree1 n) (tree2 n) (mount n)
                           (tree_state n) 1 panic_release vfs_release (stat_of_mount n) (name n)]> h)
          root).

Definition n_release s (x : nat) : option (vfs E) :=
  '(s, _) ← vfs_decrement_count s x;
  n ← nodes s !! x;
  if negb (mount_state n =? 0) then Some s
  else
    s ← (if (tree_state n =? 0) && bool_decide (tree2 n = None) then drop_node s x else Some s);
    prune s (tree0 n).

(** The call of n_release from outside of the tree lock. *)
Definition release s (x : nat) : option (vfs E) :=
  n ← nodes s !! x;
  match n_release_ptr n with
  | vfs_release => n_release s x
  | driver_release => call_release s x
  | _ => None
  end.

Definition vfs_realpath_turn (h : heap) (x : nat * nat) : option (ctl (nat * nat) nat) :=
  let '(n, depth) := x in
  v ← h !! n;
  match tree0 v with
  | None => Some (Done depth)
  | Some o => Some (Next (o, S depth))
  end.

(** n = n->tree[0], [k] times *)
Fixpoint ancestor (h : heap) (k : nat) (n : nat) : option nat :=
  match k with
  | O => Some n
  | S k => v ← h !! n; o ← tree0 v; ancestor h k o
  end.

(** The components from the top: [i] counts up to [depth]; the bytes are at most
    [limit - 1]. *)
Fixpoint realpath_loop (h : heap) (node : nat) (i : nat) (limit : Z) (b : list Z)
  : option (de_error + list Z) :=
  match i with
  | O => Some (inr b)
  | S i =>
      x ← ancestor h i node;
      n ← h !! x;
      if decide (name n = []) then Some (inl DE_UNEXPECTED)
      else if Z.of_nat (length b + S (length (name n))) >=? limit then Some (inl DE_OVERFLOW)
      else realpath_loop h node i limit (b ++ slash :: name n)
  end.

Definition vfs_realpath s (node : option nat) (limit : Z) : option (de_error + list Z) :=
  if limit <? 2 then Some (inl DE_OVERFLOW)
  else
    match node with
    | None => Some (inr [])
    | Some node =>
        depth ← while (S (size (nodes s))) (vfs_realpath_turn (nodes s)) (node, 0%nat);
        if decide (depth = 0%nat) then
          if decide (node ≠ root_node s) then Some (inl DE_UNEXPECTED) else Some (inr [slash])
        else realpath_loop (nodes s) node depth limit []
    end.

(** The new node gets its name and its place in the tree; a name of 256 bytes
    would be written beyond the end of the node. *)
Definition enter_node s (owner x : nat) (n : list Z) : option (vfs E) :=
  s ← set_n_release s x;
  if Z.of_nat (length n) >=? 256 then None
  else
    s ← update s x (λ v, set_name v n);
    add_node s owner x.

(** An opener of a node in the tree. *)
Definition take_node s (x : nat) : option (vfs E) :=
  '(s, _) ← vfs_increment_count s x;
  set_tree_state s x.

Definition open_node s (owner : nat) (n : list Z) (ty md : Z)
  : option (vfs E * de_error * option nat) :=
  let '(e, h, r, x) := drv_open (drivers s) (nodes s) owner n ty md in
  Some (Vfs e h (root_node s), r, x).

(** The last component is there: r = DE_BUSY. *)
Definition busy (md : Z) (v : vfs_node) : bool :=
  let b := negb (Z.land md vfs_mode_exclusive =? 0) || negb (Z.land (mode v) vfs_mode_exclusive =? 0) in
  let b := if negb (mount_state v =? 0) && (Z.land md vfs_mode_create =? 0) && (count v =? 1)
           then false else b in
  if negb (Z.land md vfs_mode_stat_only =? 0) then false else b.

(** The loop over the components from [owner]: the state, r, the owner at the end
    and *node. *)
Fixpoint open_loop s (owner : nat) (l : list (list Z)) (ty md : Z)
  : option (vfs E * de_error * nat * option nat) :=
  match l with
  | [] => Some (s, DE_SUCCESS, owner, None)
  | n :: l =>
      let last_component := bool_decide (l = []) in
      found ← find_node s owner n;
      match found with
      | Some x =>
          if last_component then
            v ← nodes s !! x;
            if busy md v then Some (s, DE_BUSY, owner, None)
            else s ← take_node s x; Some (s, DE_SUCCESS, owner, Some x)
          else open_loop s x l ty md
      | None =>
          '(s, r, x) ← (if last_component then open_node s owner n ty md
                        else open_node s owner n 0 0);
          if decide (r ≠ DE_SUCCESS) then Some (s, r, owner, None)
          else
            x ← x;
            s ← enter_node s owner x n;
            if last_component then s ← take_node s x; Some (s, DE_SUCCESS, owner, Some x)
            else open_loop s x l ty md
      end
  end.

(** The checks before the tree is walked: the type that is asked for, or an
    error. *)
Definition open_checks (v : vname) (ty md : Z) : de_error + Z :=
  let dir := vtype v =? vfs_type_directory in
  let ty := if dir && (ty =? vfs_type_unknown) then vfs_type_directory else ty in
  if dir && negb (ty =? vfs_type_directory) then inl DE_TYPE
  else if negb (Z.land md vfs_mode_write =? 0) && (ty =? vfs_type_directory) then inl DE_DIRECTORY
  else if negb (Z.land md vfs_mode_exclusive =? 0) && (ty =? vfs_type_directory)
          && (Z.land md vfs_mode_create =? 0) then inl DE_ARGUMENT
  else inr ty.

(** The part after the lock is released. *)
Definition open_finish s (r : de_error) (node : option nat) (ty md : Z)
  : option (vfs E * de_error * option nat) :=
  match node with
  | None => Some (s, if decide (r ≠ DE_SUCCESS) then r else DE_UNEXPECTED, None)
  | Some x =>
      n ← nodes s !! x;
      if (ty =? vfs_type_directory) && negb (ty =? type n) then
        s ← release s x; Some (s, DE_FILE, None)
      else if negb (ty =? vfs_type_unknown) && negb (ty =? type n) then
        s ← release s x; Some (s, DE_TYPE, None)
      else if negb (Z.land md vfs_mode_truncate =? 0) then
        let '(e, h, r) := drv_truncate (drivers s) (nodes s) x in
        let s := Vfs e h (root_node s) in
        if decide (r ≠ DE_SUCCESS) then s ← release s x; Some (s, r, None)
        else Some (s, DE_SUCCESS, Some x)
      else Some (s, DE_SUCCESS, Some x)
  end.

(** [wd] is the working directory of the task; the answer is the error code and
    *node. *)
Definition vfs_open s (wd : option nat) (path : list Z) (ty md : Z)
  : option (vfs E * de_error * option nat) :=
  v ← build_vname path (vfs_realpath s wd (VFS_PATH_BUFFER - 16));
  match v with
  | inl r => Some (s, r, None)
  | inr v =>
      match open_checks v ty md with
      | inl r => Some (s, r, None)
      | inr ty =>
          match components v with
          | [] =>
              if negb (ty =? vfs_type_unknown) && negb (ty =? vfs_type_directory)
              then Some (s, DE_TYPE, None)
              else s ← take_node s (root_node s); Some (s, DE_SUCCESS, Some (root_node s))
          | l =>
              '(s, r, owner, node) ← open_loop s (root_node s) l ty md;
              s ← (if decide (r ≠ DE_SUCCESS) then prune s (Some owner) else Some s);
              open_finish s r node ty md
          end
      end
  end.

(** The conditions of vfs_mount for DE_BUSY. *)
Definition mount_busy (target node : vfs_node) : bool :=
  (count target >? 2) || bool_decide (is_Some (tree2 target)) ||
  negb (tree_state target =? 1) || negb (mount_state target =? 0) ||
  bool_decide (is_Some (tree0 node)) || bool_decide (is_Some (tree1 node)) ||
  bool_decide (is_Some (tree2 node)) ||
  negb (tree_state node =? 0) || negb (mount_state node =? 0).

(** [node] takes the place of [target] among its siblings. *)
Definition replace_sibling s (owner target node : nat) : option (vfs E) :=
  o ← nodes s !! owner;
  p2 ← tree2 o;
  s ← (if decide (p2 = target)
       then update s owner (λ o, set_tree o (tree0 o) (tree1 o) (Some node)) else Some s);
  p1 ← find_sibling (nodes s) p2 target;
  match p1 with
  | None => Some s
  | Some p1 => update s p1 (λ p, set_tree p (tree0 p) (Some node) (tree2 p))
  end.

Definition mount_node s (target node : nat) : option (vfs E) :=
  '(s, _) ← vfs_increment_count s node;
  t ← nodes s !! target;
  s ← update s node (λ n, set_tree (set_name n (name t)) (tree0 t) (tree1 t) (tree2 n));
  owner ← tree0 t;
  s ← replace_sibling s owner target node;
  s ← update s target (λ t, set_tree t None None (tree2 t));
  n ← nodes s !! node;
  t ← nodes s !! target;
  if bool_decide (is_Some (tree2 n)) || bool_decide (is_Some (tree2 t)) then None
  else
    update s node (λ n,
      set_release
        (set_mount n (Some target)
           (if type n =? vfs_type_directory then true else stat_of_mount n) (name n))
        panic_release vfs_release).

Definition vfs_mount s (wd : option nat) (path : list Z) (node : nat) : option (vfs E * de_error) :=
  '(s, r, target) ← vfs_open s wd path 0 0;
  if decide (r ≠ DE_SUCCESS) then Some (s, r)
  else
    target ← target;
    if bool_decide (node = root_node s) || bool_decide (target = root_node s)
    then s ← release s target; Some (s, DE_BUSY)
    else
      t ← nodes s !! target;
      n ← nodes s !! node;
      if negb (type t =? type n) &&
         ((type t =? vfs_type_directory) || (type n =? vfs_type_directory))
      then s ← release s target; Some (s, DE_TYPE)
      else if mount_busy t n then s ← release s target; Some (s, DE_BUSY)
      else s ← mount_node s target node; Some (s, DE_SUCCESS).

(** The loop of [vfs_remove]: the state, r and the owner at the end. *)
Fixpoint remove_loop s (owner : nat) (l : list (list Z)) (dir : bool)
  : option (vfs E * de_error * nat) :=
  match l with
  | [] => Some (s, DE_SUCCESS, owner)
  | n :: l =>
      let last_component := bool_decide (l = []) in
      found ← find_node s owner n;
      match found with
      | Some x =>
          if last_component then Some (s, DE_BUSY, owner) else remove_loop s x l dir
      | None =>
          if last_component then
            let '(e, h, r) := drv_remove (drivers s) (nodes s) owner n dir in
            Some (Vfs e h (root_node s), r, owner)
          else
            '(s, r, x) ← open_node s owner n 0 0;
            if decide (r ≠ DE_SUCCESS) then Some (s, r, owner)
            else
              x ← x;
              s ← enter_node s owner x n;
              remove_loop s x l dir
      end
  end.

Definition vfs_remove s (wd : option nat) (path : list Z) (dir : bool) : option (vfs E * de_error) :=
  v ← build_vname path (vfs_realpath s wd (VFS_PATH_BUFFER - 16));
  match v with
  | inl r => Some (s, r)
  | inr v =>
      if negb dir && (vtype v =? vfs_type_directory) then Some (s, DE_TYPE)
      else
        match components v with
        | [] => Some (s, DE_BUSY)
        | l =>
            '(s, r, owner) ← remove_loop s (root_node s) l dir;
            s ← prune s (Some owner);
            Some (s, r)
        end
  end.

Definition vfs_rename s (old_name new_name : list Z) : vfs E * de_error := (s, DE_UNSUPPORTED).
End Vfs.
