(* ===== verification/VfsTree.v ===== *)
(** The tree of the virtual file system: the invariant of the linked nodes of
    Vfs.v, and that the operations keep it, without a panic. *)

From stdpp Require Import gmap.
From S2P Require Import Prelude Errors VfsPath Vfs.

(** ** Drivers

    What the functions of a node may do to the nodes: those in the tree, whose
    n_release is that of the virtual file system, stay as they are.  A node that
    is opened is not in the tree, is not used and has the release function of its
    driver; its name fits into a node.  There is memory for fewer than INT_MAX
    nodes. *)
Class VfsDriverOk (E : Type) `{VfsDriver E} : Prop := {
  drv_open_ok e h owner n ty md e' h' r x :
    drv_open e h owner n ty md = (e', h', r, x) → Z.of_nat (size h) < INT_MAX →
    (∀ y v, h !! y = Some v → n_release_ptr v = vfs_release → h' !! y = Some v) ∧
    Z.of_nat (size h') < INT_MAX ∧
    (r = DE_SUCCESS → Z.of_nat (length n) < 256 ∧ ∃ a v, x = Some a ∧ h' !! a = Some v ∧
       (∀ v0, h !! a = Some v0 → n_release_ptr v0 ≠ vfs_release) ∧
       n_release_ptr v = driver_release ∧ tree_state v = 0 ∧ mount_state v = 0 ∧ 0 ≤ count v ≤ INT_MAX);
  drv_release_ok e h x e' h' :
    drv_release e h x = (e', h') → Z.of_nat (size h) < INT_MAX →
    (∀ y v, h !! y = Some v → n_release_ptr v = vfs_release → h' !! y = Some v) ∧
    Z.of_nat (size h') < INT_MAX;
  drv_truncate_ok e h x e' h' r :
    drv_truncate e h x = (e', h', r) → Z.of_nat (size h) < INT_MAX →
    (∀ y v, h !! y = Some v → n_release_ptr v = vfs_release → h' !! y = Some v) ∧
    Z.of_nat (size h') < INT_MAX;
  drv_remove_ok e h x n dir e' h' r :
    drv_remove e h x n dir = (e', h', r) → Z.of_nat (size h) < INT_MAX →
    (∀ y v, h !! y = Some v → n_release_ptr v = vfs_release → h' !! y = Some v) ∧
    Z.of_nat (size h') < INT_MAX }.

(** ** The invariant *)

(** The siblings from the pointer [p] on. *)
Fixpoint siblings (h : heap) (p : option nat) (l : list nat) : Prop :=
  match l with
  | [] => p = None
  | c :: l => p = Some c ∧ ∃ v, h !! c = Some v ∧ siblings h (tree1 v) l
  end.

(** The children of every node in the tree. *)
Abbreviation kids := (gmap nat (list nat)).

Record node_ok (v : vfs_node) : Prop := {
  no_release_ptr : n_release_ptr v = vfs_release;
  no_state : 0 ≤ tree_state v ≤ UINT_MAX;
  no_count : -1 ≤ count v ≤ INT_MAX;
  no_old : mount_state v = 0 → old_release v = driver_release }.

Section Tree.
Context {E : Type} `{HD : VfsDriver E}.
Implicit Types (s : vfs E) (k : kids).

Record tree_ok s k : Prop := {
  t_node : ∀ x l, k !! x = Some l → ∃ v, nodes s !! x = Some v ∧ node_ok v ∧
             siblings (nodes s) (tree2 v) l ∧ NoDup l;
  t_child : ∀ x l c, k !! x = Some l → c ∈ l → is_Some (k !! c) ∧ ∃ v, nodes s !! c = Some v ∧
              tree0 v = Some x ∧ valid_name (name v) ∧ Z.of_nat (length (name v)) < 256;
  t_names : ∀ x l c c' v v', k !! x = Some l → c ∈ l → c' ∈ l → nodes s !! c = Some v →
              nodes s !! c' = Some v' → name v = name v' → c = c';
  t_owner : ∀ x, is_Some (k !! x) → x = root_node s ∨ ∃ o l, k !! o = Some l ∧ x ∈ l;
  t_root : ∃ l v, k !! root_node s = Some l ∧ nodes s !! root_node s = Some v ∧ tree0 v = None ∧
             mount_state v ≠ 0;
  t_depth : ∃ d : nat → nat, ∀ x l c, k !! x = Some l → c ∈ l → d c = S (d x);
  t_size : Z.of_nat (size (nodes s)) < INT_MAX }.

(** A node that has a reason to be in the tree. *)
Definition used s k (x : nat) : Prop :=
  ∃ v l, nodes s !! x = Some v ∧ k !! x = Some l ∧ (tree_state v ≠ 0 ∨ l ≠ [] ∨ mount_state v ≠ 0).

(** Every node but [o] has one. *)
Definition used_but (o : option nat) s k : Prop := ∀ x, is_Some (k !! x) → Some x ≠ o → used s k x.

(** The nodes of the tree are the same. *)
Record agree k s s' : Prop := {
  ag_root : root_node s' = root_node s;
  ag_nodes : ∀ x, is_Some (k !! x) → nodes s' !! x = nodes s !! x;
  ag_size : Z.of_nat (size (nodes s)) < INT_MAX → Z.of_nat (size (nodes s')) < INT_MAX }.

Lemma agree_refl k s : agree k s s.
Proof. by split. Qed.

Lemma agree_trans k s s1 s2 : agree k s s1 → agree k s1 s2 → agree k s s2.
Proof.
  intros [R1 N1 S1] [R2 N2 S2]. split; [congruence| |auto]. intros x Hx. by rewrite N2, N1.
Qed.

Lemma siblings_ext h h' p l : (∀ c, c ∈ l → h' !! c = h !! c) → siblings h p l → siblings h' p l.
Proof.
  revert p. induction l as [|c l IH]; intros p Hh; cbn; [done|]. intros (-> & v & Hv & Hs).
  split; [done|]. exists v. rewrite Hh by left. split; [done|]. apply IH; [|done].
  intros c' Hc'. apply Hh. by right.
Qed.

Lemma tree_agree s s' k : tree_ok s k → agree k s s' → tree_ok s' k.
Proof.
  intros [Hn Hc Hu Ho Hr Hd Hs] [R N S].
  assert (Hkid : ∀ x l c, k !! x = Some l → c ∈ l → nodes s' !! c = nodes s !! c).
  { intros x l c Hx Hin. apply N. by destruct (Hc x l c Hx Hin). }
  split.
  - intros x l Hx. destruct (Hn x l Hx) as (v & Hv & Hok & Hsib & Hnd). exists v.
    rewrite N by eauto. split; [done|]. split; [done|]. split; [|done].
    apply (siblings_ext (nodes s)); [|done]. intros c Hin. by apply (Hkid x l).
  - intros x l c Hx Hin. rewrite (Hkid x l c Hx Hin). by apply (Hc x l).
  - intros x l c c' v v' Hx H1 H2. rewrite (Hkid x l c Hx H1), (Hkid x l c' Hx H2). by apply (Hu x l).
  - intros x Hx. rewrite R. by apply Ho.
  - rewrite R. destruct Hr as (l & v & H1 & H2 & H3). exists l, v. rewrite N by eauto. done.
  - done.
  - auto.
Qed.

Lemma used_agree o s s' k : used_but o s k → agree k s s' → used_but o s' k.
Proof.
  intros Hu [R N _] x Hx Hne. destruct (Hu x Hx Hne) as (v & l & H1 & H2 & H3).
  exists v, l. by rewrite N.
Qed.

(** A driver keeps the tree. *)
Lemma driver_agree s k e h :
  tree_ok s k →
  (∀ y v, nodes s !! y = Some v → n_release_ptr v = vfs_release → h !! y = Some v) →
  Z.of_nat (size h) < INT_MAX → agree k s (Vfs e h (root_node s)).
Proof.
  intros Ht Hh Hsz. split; [done| |done]. intros x [l Hx].
  destruct (t_node _ _ Ht x l Hx) as (v & Hv & Hok & _). cbn. rewrite Hv.
  apply Hh; [done|]. apply (no_release_ptr _ Hok).
Qed.

(** ** The walk along the siblings *)

Lemma kids_length s k x l : tree_ok s k → k !! x = Some l → (length l ≤ size (nodes s))%nat.
Proof.
  intros Ht Hx. destruct (t_node _ _ Ht x l Hx) as (_ & _ & _ & _ & Hnd).
  rewrite <- (size_dom (D := gset nat)), <- (size_list_to_set (C := gset nat)) by done.
  apply subseteq_size. intros c Hc%elem_of_list_to_set.
  destruct (t_child _ _ Ht x l c Hx Hc) as (_ & v & Hv & _). by apply elem_of_dom_2 in Hv.
Qed.

Lemma find_loop_ok h n l fuel p i :
  siblings h p l → (length l < fuel)%nat → 0 ≤ i → i + Z.of_nat (length l) < INT_MAX →
  ∃ r, while fuel (find_turn h n) (p, i) = Some r ∧
    match r with
    | Some c => c ∈ l ∧ ∃ v, h !! c = Some v ∧ name v = n
    | None => ∀ c v, c ∈ l → h !! c = Some v → name v ≠ n
    end.
Proof.
  revert fuel p i. induction l as [|c l IH]; intros fuel p i; cbn [siblings length].
  - intros -> Hf Hi Hb. destruct fuel as [|fuel]; [lia|]. exists None. split; [done|].
    intros c v Hc. by apply not_elem_of_nil in Hc.
  - intros (-> & v & Hv & Hs) Hf Hi Hb. destruct fuel as [|fuel]; [lia|].
    cbn [while find_turn]. rewrite Hv. cbn [mbind option_bind].
    destruct (decide (name v = n)) as [Hn|Hn].
    { exists (Some c). split; [done|]. split; [left|]. by exists v. }
    rewrite (proj2 (Z.eqb_neq (i + 1) INT_MAX)) by lia. cbn [mbind option_bind].
    destruct (IH fuel (tree1 v) (i + 1) Hs ltac:(lia) ltac:(lia) ltac:(lia)) as (r & Er & Hr).
    exists r. split; [done|]. destruct r as [c'|].
    + destruct Hr as [Hin Hr]. split; [by right|done].
    + intros c' v' [->|Hin]%elem_of_cons Hv'; [congruence|]. by apply (Hr c').
Qed.

Lemma find_node_ok s k o l n :
  tree_ok s k → k !! o = Some l →
  ∃ r, find_node s o n = Some r ∧
    match r with
    | Some c => c ∈ l ∧ ∃ v, nodes s !! c = Some v ∧ name v = n
    | None => ∀ c v, c ∈ l → nodes s !! c = Some v → name v ≠ n
    end.
Proof.
  intros Ht Ho. pose proof (kids_length _ _ _ _ Ht Ho). pose proof (t_size _ _ Ht).
  destruct (t_node _ _ Ht o l Ho) as (v & Hv & _ & Hsib & _). unfold find_node. rewrite Hv.
  cbn [mbind option_bind]. apply find_loop_ok; [done|lia|lia|lia].
Qed.

(** The sibling before [x]. *)
Lemma sibling_loop_ok h x l1 l2 fuel p1 p2 i :
  siblings h (Some p2) (l1 ++ x :: l2) → x ∉ l1 → (length l1 < fuel)%nat → 0 ≤ i →
  i + Z.of_nat (length l1) + 1 < INT_MAX →
  while fuel (sibling_turn h x) (p1, p2, i) = Some (match list.last l1 with Some p => Some p | None => p1 end).
Proof.
  revert fuel p1 p2 i. induction l1 as [|c l1 IH]; intros fuel p1 p2 i Hs Hx Hf Hi Hb.
  - destruct Hs as ([= ->] & _). destruct fuel as [|fuel]; [cbn in Hf; lia|].
    cbn [while sibling_turn]. by rewrite decide_True.
  - destruct Hs as ([= ->] & v & Hv & Hs). cbn [length] in Hf, Hb.
    destruct fuel as [|fuel]; [lia|]. apply not_elem_of_cons in Hx as [Hne Hx].
    cbn [while sibling_turn]. rewrite decide_False by done. rewrite Hv. cbn [mbind option_bind].
    rewrite (proj2 (Z.eqb_neq (i + 1) INT_MAX)) by lia.
    destruct (tree1 v) as [p|] eqn:Hp; [|by destruct l1; destruct Hs].
    cbn [mbind option_bind]. rewrite (IH fuel (Some c) p (i + 1)) by (try done; lia).
    destruct l1 as [|c' l1]; [done|]. rewrite (last_cons_ne c) by done.
    destruct (list.last (c' :: l1)) eqn:El; [done|]. by apply last_None in El.
Qed.

(** ** Nodes that come and go *)

Lemma update_ok s x v f : nodes s !! x = Some v → update s x f = Some (set_nodes s (<[x := f v]> (nodes s))).
Proof. intros Hv. unfold update. by rewrite Hv. Qed.

Lemma owner_unique s k o o' l l' c :
  tree_ok s k → k !! o = Some l → k !! o' = Some l' → c ∈ l → c ∈ l' → o = o'.
Proof.
  intros Ht H1 H2 Hc Hc'. destruct (t_child _ _ Ht _ _ _ H1 Hc) as (_ & v & Hv & E1 & _).
  destruct (t_child _ _ Ht _ _ _ H2 Hc') as (_ & v' & Hv' & E2 & _). congruence.
Qed.

Lemma child_ne s k o l c : tree_ok s k → k !! o = Some l → c ∈ l → c ≠ o.
Proof.
  intros Ht Ho Hc ->. destruct (t_depth _ _ Ht) as [d Hd]. specialize (Hd _ _ _ Ho Hc). lia.
Qed.

Lemma root_no_child s k o l : tree_ok s k → k !! o = Some l → root_node s ∉ l.
Proof.
  intros Ht Ho Hc. destruct (t_root _ _ Ht) as (l0 & v & _ & Hv & E1 & _).
  destruct (t_child _ _ Ht _ _ _ Ho Hc) as (_ & v' & Hv' & E2 & _). congruence.
Qed.

(** A node differs at most in the links to its siblings and children. *)
Definition relinked (v v' : vfs_node) : Prop := ∃ t1 t2, v' = set_tree v (tree0 v) t1 t2.

Lemma relinked_refl v : relinked v v.
Proof. exists (tree1 v), (tree2 v). by destruct v. Qed.

Lemma relinked_ok v v' : relinked v v' →
  (node_ok v → node_ok v') ∧ tree0 v' = tree0 v ∧ name v' = name v ∧ mount_state v' = mount_state v ∧
  tree_state v' = tree_state v ∧ count v' = count v.
Proof. intros (t1 & t2 & ->). split; [|done]. by intros []. Qed.

Lemma siblings_tree1 h h' p l :
  (∀ c v, c ∈ l → h !! c = Some v → ∃ v', h' !! c = Some v' ∧ tree1 v' = tree1 v) →
  siblings h p l → siblings h' p l.
Proof.
  revert p. induction l as [|c l IH]; intros p Hh; cbn; [done|]. intros (-> & v & Hv & Hs).
  split; [done|]. destruct (Hh c v) as (v' & Hv' & E1); [by left|done|]. exists v'. rewrite E1.
  split; [done|]. apply IH; [|done]. intros c' v0 Hc'. apply Hh. by right.
Qed.

(** *** The link to a place among the children *)

(** The nodes after the pointer behind the children [l1] of [o] is set to [ptr]. *)
Definition relink (h : heap) (l1 : list nat) (o : nat) (ptr : option nat) : heap :=
  match list.last l1 with
  | None => alter (λ ov, set_tree ov (tree0 ov) (tree1 ov) ptr) o h
  | Some p => alter (λ pv, set_tree pv (tree0 pv) ptr (tree2 pv)) p h
  end.

Lemma relink_lookup h l1 o ptr y yv :
  h !! y = Some yv →
  ∃ yv', relink h l1 o ptr !! y = Some yv' ∧ relinked yv yv' ∧
    (y ∉ l1 → tree1 yv' = tree1 yv) ∧ (y ≠ o → tree2 yv' = tree2 yv).
Proof.
  intros Hyv. unfold relink. destruct (list.last l1) as [p|] eqn:Hp.
  - destruct (decide (y = p)) as [->|Hyp].
    + rewrite lookup_alter_eq, Hyv. eexists. split; [done|]. split; [by eexists _, _|]. split; [|done].
      intros []. apply last_Some_elem_of in Hp. done.
    + rewrite lookup_alter_ne by done. exists yv. split; [done|]. split; [apply relinked_refl|done].
  - destruct (decide (y = o)) as [->|Hyo].
    + rewrite lookup_alter_eq, Hyv. eexists. split; [done|]. by split; [by eexists _, _|].
    + rewrite lookup_alter_ne by done. exists yv. split; [done|]. split; [apply relinked_refl|done].
Qed.

Lemma relink_size h l1 o ptr : size (relink h l1 o ptr) = size h.
Proof.
  unfold relink. destruct (list.last l1); by rewrite <- !(size_dom (D := gset nat)), dom_alter_L.
Qed.

Lemma siblings_relink h h' p a ptr l0 l2 l2' :
  siblings h p ((l0 ++ [a]) ++ l2) → NoDup (l0 ++ [a]) → siblings h' ptr l2' →
  (∀ c, c ∈ l0 ++ [a] → h' !! c = alter (λ pv, set_tree pv (tree0 pv) ptr (tree2 pv)) a h !! c) →
  siblings h' p ((l0 ++ [a]) ++ l2').
Proof.
  intros Hs Hnd Hl2 Hh. revert p Hs. induction l0 as [|c l0 IH]; intros p; cbn [app siblings].
  - intros (-> & av & Ha & _). split; [done|]. eexists. rewrite Hh by left. rewrite lookup_alter_eq, Ha. by split.
  - cbn [app] in Hnd, Hh. apply list.NoDup_cons in Hnd as [Hnc Hnd]. intros (-> & cv & Hc & Hs). split; [done|]. exists cv.
    rewrite Hh by left. rewrite lookup_alter_ne by (intros <-; apply Hnc, elem_of_app; by right; left).
    split; [done|]. apply IH; [done| |done]. intros y Hy. apply Hh. by right.
Qed.

(** The children [l2'] behind the pointer take the place of [l2]. *)
Lemma relink_siblings h h' o l1 l2 l2' ptr ov ov' :
  h !! o = Some ov → siblings h (tree2 ov) (l1 ++ l2) → NoDup l1 → o ∉ l1 → siblings h' ptr l2' →
  (∀ c, c = o ∨ c ∈ l1 → h' !! c = relink h l1 o ptr !! c) → h' !! o = Some ov' →
  siblings h' (tree2 ov') (l1 ++ l2').
Proof.
  intros Ho Hs Hnd Hol Hl2 Hh Ho'. unfold relink in Hh. destruct (list.last l1) as [p|] eqn:Hp.
  - pose proof Hp as Hp'. apply last_Some in Hp as [l0 ->]. rewrite (Hh o), lookup_alter_ne, Ho in Ho'; [|intros ->|by left].
    + injection Ho' as <-. eapply siblings_relink; [exact Hs|done|done|auto].
    + apply Hol, elem_of_app. by right; left.
  - apply last_None in Hp as ->. rewrite (Hh o), lookup_alter_eq, Ho in Ho' by by left. by injection Ho' as <-.
Qed.

(** *** A new child *)
Section Enter.
Variables (s s' : vfs E) (k : kids) (o x : nat) (l1 l2 : list nat) (v : vfs_node).
Hypotheses (Ht : tree_ok s k) (Ho : k !! o = Some (l1 ++ l2)) (Hx : k !! x = None)
  (R : root_node s' = root_node s)
  (Hy : ∀ y, is_Some (k !! y) → nodes s' !! y = relink (nodes s) l1 o (Some x) !! y)
  (Hx' : nodes s' !! x = Some v) (Hok : node_ok v)
  (E0 : tree0 v = Some o) (E1 : siblings (nodes s) (tree1 v) l2) (E2 : tree2 v = None)
  (Hvn : valid_name (name v)) (Hvl : Z.of_nat (length (name v)) < 256)
  (Hnames : ∀ c cv, c ∈ l1 ++ l2 → nodes s !! c = Some cv → name cv ≠ name v)
  (Hsz : Z.of_nat (size (nodes s')) < INT_MAX).

Lemma enter_rel y yv :
  is_Some (k !! y) → nodes s !! y = Some yv →
  ∃ yv', nodes s' !! y = Some yv' ∧ relinked yv yv' ∧ (y ∉ l1 → tree1 yv' = tree1 yv) ∧ (y ≠ o → tree2 yv' = tree2 yv).
Proof. intros Hk Hyv. rewrite Hy by done. by apply relink_lookup. Qed.

Lemma enter_no_child y ly : k !! y = Some ly → x ∉ ly.
Proof. intros Hly Hin. destruct (t_child _ _ Ht _ _ _ Hly Hin) as ([lx ?] & _). congruence. Qed.

(** Siblings that are not before the new child stay linked. *)
Lemma enter_siblings y ly l p :
  k !! y = Some ly → (∀ c, c ∈ l → c ∈ ly ∧ c ∉ l1) → siblings (nodes s) p l → siblings (nodes s') p l.
Proof.
  intros Hly Hl. apply siblings_tree1. intros c cv Hc Hcv. destruct (Hl c Hc) as [Hcl Hc1].
  destruct (t_child _ _ Ht _ _ _ Hly Hcl) as (Hkc & _).
  destruct (enter_rel c cv Hkc Hcv) as (cv' & ? & _ & Ec & _). eauto.
Qed.

Lemma enter_in y ly c :
  <[o := l1 ++ x :: l2]> (<[x := []]> k) !! y = Some ly → c ∈ ly →
  (y = o ∧ c = x) ∨ ∃ ly', k !! y = Some ly' ∧ c ∈ ly'.
Proof.
  intros Hly Hc. destruct (decide (y = o)) as [->|Hyo].
  - rewrite lookup_insert_eq in Hly. injection Hly as <-.
    apply elem_of_app in Hc as [Hc|[->|Hc]%elem_of_cons]; [right|by left|right];
      (exists (l1 ++ l2); split; [done|]; apply elem_of_app; auto).
  - rewrite lookup_insert_ne in Hly by done. destruct (decide (y = x)) as [->|Hyx].
    + rewrite lookup_insert_eq in Hly. injection Hly as <-. by apply not_elem_of_nil in Hc.
    + rewrite lookup_insert_ne in Hly by done. eauto.
Qed.

Lemma enter_dom y : is_Some (<[o := l1 ++ x :: l2]> (<[x := []]> k) !! y) ↔ y = x ∨ is_Some (k !! y).
Proof.
  destruct (decide (y = o)) as [->|Hyo].
  { rewrite lookup_insert_eq. split; [intros _; right|]; eauto. }
  rewrite lookup_insert_ne by done. destruct (decide (y = x)) as [->|Hyx].
  { rewrite lookup_insert_eq. split; [by left|eauto]. }
  rewrite lookup_insert_ne by done. split; [by right|by intros [->|]].
Qed.

Lemma enter_nodes y ly :
  <[o := l1 ++ x :: l2]> (<[x := []]> k) !! y = Some ly →
  ∃ yv, nodes s' !! y = Some yv ∧ node_ok yv ∧ siblings (nodes s') (tree2 yv) ly ∧ NoDup ly.
Proof.
  intros Hly. assert (Hdis : ∀ a, a ∈ l2 → a ∉ l1).
  { intros a H2 H1. destruct (t_node _ _ Ht o _ Ho) as (_ & _ & _ & _ & Hnd).
    apply list.NoDup_app in Hnd as (_ & N1 & _). by apply (N1 a). }
  destruct (decide (y = o)) as [->|Hyo].
  { rewrite lookup_insert_eq in Hly. injection Hly as <-.
    destruct (t_node _ _ Ht o _ Ho) as (ov & Hov & Hook & Hs & Hnd).
    destruct (enter_rel o ov) as (ov' & Hov' & Hr & _); [eauto|done|]. exists ov'.
    split; [done|]. split; [by apply (relinked_ok ov)|]. apply list.NoDup_app in Hnd as (N1 & N2 & N3). split.
    - eapply (relink_siblings (nodes s) (nodes s') o l1 l2 _ (Some x)); [done|done|done| | |  |done].
      + intros Hol. apply (child_ne s k o _ o Ht Ho); [|done]. apply elem_of_app. by left.
      + split; [done|]. exists v. split; [done|]. apply (enter_siblings o (l1 ++ l2)); [done| |done].
        intros c Hc. split; [apply elem_of_app; by right|by apply Hdis].
      + intros c Hc. apply Hy. destruct Hc as [->|Hc]; [eauto|].
        destruct (t_child _ _ Ht o _ c Ho) as [? _]; [apply elem_of_app; by left|done].
    - apply list.NoDup_app. split; [done|]. split.
      + intros c Hc [->|Hc2]%elem_of_cons; [|by apply (N2 c)]. apply (enter_no_child _ _ Ho), elem_of_app. by left.
      + apply list.NoDup_cons. split; [|done]. intros Hc. apply (enter_no_child _ _ Ho), elem_of_app. by right. }
  rewrite lookup_insert_ne in Hly by done. destruct (decide (y = x)) as [->|Hyx].
  { rewrite lookup_insert_eq in Hly. injection Hly as <-. exists v. split; [done|]. split; [done|].
    split; [by rewrite E2|apply NoDup_nil_2]. }
  rewrite lookup_insert_ne in Hly by done. destruct (t_node _ _ Ht y ly Hly) as (yv & Hyv & Hyok & Hs & Hnd).
  destruct (enter_rel y yv) as (yv' & Hyv' & Hr & _ & E3); [eauto|done|]. exists yv'. rewrite E3 by done.
  split; [done|]. split; [by apply (relinked_ok yv)|]. split; [|done]. apply (enter_siblings y ly); [done| |done].
  intros c Hc. split; [done|]. intros Hc1. apply Hyo, (owner_unique s k y o ly (l1 ++ l2) c); try done.
  apply elem_of_app. by left.
Qed.

(** The name of an old child is the one it had. *)
Lemma enter_name y la a av :
  k !! y = Some la → a ∈ la → nodes s' !! a = Some av → ∃ av0, nodes s !! a = Some av0 ∧ name av = name av0.
Proof.
  intros Hla Ha Hav. destruct (t_child _ _ Ht _ _ _ Hla Ha) as (Hka & av0 & Hav0 & _).
  exists av0. split; [done|]. destruct (enter_rel a av0 Hka Hav0) as (av1 & Hav1 & Hr & _).
  destruct (relinked_ok _ _ Hr) as (_ & _ & <- & _). congruence.
Qed.

Lemma enter_names y ly c c' cv cv' :
  <[o := l1 ++ x :: l2]> (<[x := []]> k) !! y = Some ly → c ∈ ly → c' ∈ ly →
  nodes s' !! c = Some cv → nodes s' !! c' = Some cv' → name cv = name cv' → c = c'.
Proof.
  intros Hly Hc Hc' Hcv Hcv' Hname.
  destruct (enter_in y ly c Hly Hc) as [[-> ->]|(la & Hl1 & Hc1)],
    (enter_in _ ly c' Hly Hc') as [[Q ->]|(lb & Hl2 & Hc2)].
  - done.
  - destruct (enter_name _ _ _ _ Hl2 Hc2 Hcv') as (c0 & H0 & Q0). rewrite Ho in Hl2. injection Hl2 as <-.
    destruct (Hnames c' c0 Hc2 H0). congruence.
  - destruct (enter_name _ _ _ _ Hl1 Hc1 Hcv) as (c0 & H0 & Q0). subst y. rewrite Ho in Hl1. injection Hl1 as <-.
    destruct (Hnames c c0 Hc1 H0). congruence.
  - destruct (enter_name _ _ _ _ Hl1 Hc1 Hcv) as (c0 & H0 & Q0).
    destruct (enter_name _ _ _ _ Hl2 Hc2 Hcv') as (c0' & H0' & Q0'). rewrite Hl1 in Hl2. injection Hl2 as <-.
    eapply (t_names _ _ Ht y la); eauto. congruence.
Qed.

Lemma tree_enter : tree_ok s' (<[o := l1 ++ x :: l2]> (<[x := []]> k)).
Proof.
  assert (Hxo : x ≠ o) by congruence. split; [apply enter_nodes| |apply enter_names| | | |done].
  - intros y ly c Hly Hc. rewrite enter_dom. destruct (enter_in y ly c Hly Hc) as [[-> ->]|(ly' & Hly' & Hc')].
    + split; [by left|]. by exists v.
    + destruct (t_child _ _ Ht _ _ _ Hly' Hc') as (Hkc & cv & Hcv & Q1 & Q2 & Q3). split; [by right|].
      destruct (enter_rel c cv Hkc Hcv) as (cv' & Hcv' & Hr & _). exists cv'.
      destruct (relinked_ok _ _ Hr) as (_ & -> & -> & _). done.
  - intros y [->|Hk]%enter_dom.
    + right. exists o, (l1 ++ x :: l2). rewrite lookup_insert_eq. split; [done|]. apply elem_of_app. by right; left.
    + rewrite R. destruct (t_owner _ _ Ht y Hk) as [->|(z & lz & Hz & Hyz)]; [by left|]. right.
      destruct (decide (z = o)) as [->|Hzo].
      * exists o, (l1 ++ x :: l2). rewrite lookup_insert_eq. rewrite Ho in Hz. injection Hz as <-. split; [done|].
        apply elem_of_app in Hyz as [|]; apply elem_of_app; [by left|by right; right].
      * exists z, lz. rewrite !lookup_insert_ne by congruence. done.
  - rewrite R. destruct (t_root _ _ Ht) as (lr & rv & Hr & Hrv & Q1 & Q2).
    destruct (enter_rel (root_node s) rv) as (rv' & Hrv' & Hrl & _); [eauto|done|].
    destruct (relinked_ok _ _ Hrl) as (_ & E3 & _ & E4 & _).
    destruct (proj2 (enter_dom (root_node s))) as [lr' Hlr']; [right; eauto|]. exists lr', rv'. by rewrite E3, E4.
  - destruct (t_depth _ _ Ht) as [d Hd]. exists (λ y, if decide (y = x) then S (d o) else d y).
    intros y ly c Hly Hc. destruct (enter_in y ly c Hly Hc) as [[-> ->]|(ly' & Hly' & Hc')].
    + rewrite decide_True by done. by rewrite decide_False by done.
    + rewrite !decide_False; [by apply (Hd y ly')|congruence|]. intros ->. by apply (enter_no_child y ly').
Qed.
End Enter.

(** *** A child that leaves *)

Section Leave.
Variables (s s' : vfs E) (k : kids) (o x : nat) (l1 l2 : list nat) (v : vfs_node).
Hypotheses (Ht : tree_ok s k) (Hx : k !! x = Some []) (Ho : k !! o = Some (l1 ++ x :: l2))
  (Hv : nodes s !! x = Some v) (R : root_node s' = root_node s)
  (Hy : ∀ y, is_Some (k !! y) → y ≠ x → nodes s' !! y = relink (nodes s) l1 o (tree1 v) !! y)
  (Hsz : Z.of_nat (size (nodes s')) < INT_MAX).

Lemma leave_ne : x ≠ o.
Proof. apply (child_ne s k o _ x Ht Ho). apply elem_of_app. by right; left. Qed.

Lemma leave_nodup : NoDup (l1 ++ x :: l2).
Proof. by destruct (t_node _ _ Ht o _ Ho) as (_ & _ & _ & _ & ?). Qed.

Lemma leave_rel y yv :
  is_Some (k !! y) → y ≠ x → nodes s !! y = Some yv →
  ∃ yv', nodes s' !! y = Some yv' ∧ relinked yv yv' ∧
    (y ∉ l1 → tree1 yv' = tree1 yv) ∧ (y ≠ o → tree2 yv' = tree2 yv).
Proof.
  intros Hk Hne Hyv. rewrite Hy by done. by apply relink_lookup.
Qed.

Lemma leave_child_ne c : c ∈ l1 ∨ c ∈ l2 → is_Some (k !! c) ∧ c ≠ x.
Proof.
  pose proof leave_nodup as Hnd. apply list.NoDup_app in Hnd as (_ & N2 & [N3 _]%list.NoDup_cons). intros Hc. split.
  - destruct (t_child _ _ Ht o _ c Ho) as [? _]; [|done]. apply elem_of_app. destruct Hc; [by left|by right; right].
  - intros ->. destruct Hc as [Hc|]; [|done]. apply (N2 x Hc). left.
Qed.

(** The siblings behind it *)
Lemma leave_next : siblings (nodes s') (tree1 v) l2.
Proof.
  pose proof leave_nodup as Hnd. apply list.NoDup_app in Hnd as (_ & N2 & _).
  destruct (t_node _ _ Ht o _ Ho) as (ov & _ & _ & Hs & _).
  assert (Hs2 : siblings (nodes s) (tree1 v) l2).
  { clear -Hs Hv. revert Hs. generalize (tree2 ov). induction l1 as [|c l IH]; intros p; cbn.
    - intros (_ & xv & Hxv & Hs). rewrite Hv in Hxv. by injection Hxv as <-.
    - intros (_ & cv & _ & Hs). by apply IH in Hs. }
  revert Hs2. apply siblings_tree1. intros c cv Hc Hcv. destruct (leave_child_ne c) as [Hk Hcx]; [by right|].
  destruct (leave_rel c cv Hk Hcx Hcv) as (cv' & Hcv' & _ & E1 & _). exists cv'. split; [done|]. apply E1.
  intros Hc1. apply (N2 c Hc1). by right.
Qed.

Lemma leave_siblings ov' : nodes s' !! o = Some ov' → siblings (nodes s') (tree2 ov') (l1 ++ l2).
Proof.
  intros Hov'. destruct (t_node _ _ Ht o _ Ho) as (ov & Hov & _ & Hs & Hnd).
  apply list.NoDup_app in Hnd as (N1 & _ & _).
  eapply (relink_siblings (nodes s) (nodes s') o l1 (x :: l2) l2 (tree1 v)); [done|done|done| |apply leave_next| |done].
  - intros Hol. apply (child_ne s k o _ o Ht Ho); [|done]. apply elem_of_app. by left.
  - intros c Hc. apply Hy; [destruct Hc as [->|]; [eauto|by apply leave_child_ne; left]|].
    destruct Hc as [->|]; [apply not_eq_sym, leave_ne|by apply leave_child_ne; left].
Qed.

Lemma leave_in y ly :
  <[o := l1 ++ l2]> (delete x k) !! y = Some ly →
  y ≠ x ∧ ∃ ly', k !! y = Some ly' ∧ (∀ c, c ∈ ly → c ∈ ly' ∧ c ≠ x) ∧ (y ≠ o → ly' = ly).
Proof.
  intros Hly. destruct (decide (y = o)) as [->|Hyo].
  - rewrite lookup_insert_eq in Hly. injection Hly as <-. split; [apply not_eq_sym, leave_ne|].
    exists (l1 ++ x :: l2). split; [done|]. split; [|done]. intros c Hc. pose proof leave_nodup as Hnd.
    apply (proj1 (list.NoDup_app _ _)) in Hnd as (_ & N1 & [N2 _]%list.NoDup_cons).
    apply elem_of_app in Hc as [Hc|Hc]; split.
    + apply elem_of_app. by left.
    + intros ->. apply (N1 x Hc). left.
    + apply elem_of_app. by right; right.
    + by intros ->.
  - rewrite lookup_insert_ne in Hly by done. apply lookup_delete_Some in Hly as [Hne Hly].
    split; [done|]. exists ly. split; [done|]. split; [|done]. intros c Hc. split; [done|]. intros ->.
    destruct Hyo. apply (owner_unique s k y o ly (l1 ++ x :: l2) x Ht Hly Ho Hc). apply elem_of_app. by right; left.
Qed.

Lemma leave_dom y : is_Some (<[o := l1 ++ l2]> (delete x k) !! y) ↔ is_Some (k !! y) ∧ y ≠ x.
Proof.
  destruct (decide (y = o)) as [->|Hyo].
  { rewrite lookup_insert_eq. split; [|by eauto]. intros _. split; [eauto|]. apply not_eq_sym, leave_ne. }
  rewrite lookup_insert_ne by done. destruct (decide (y = x)) as [->|Hyx].
  { rewrite lookup_delete_eq. split; [by intros [? ?]|by intros [_ ?]]. }
  rewrite lookup_delete_ne by done. split; [done|by intros [? _]].
Qed.

Lemma leave_child y ly c :
  <[o := l1 ++ l2]> (delete x k) !! y = Some ly → c ∈ ly →
  ∃ cv cv', nodes s !! c = Some cv ∧ nodes s' !! c = Some cv' ∧ relinked cv cv' ∧
    is_Some (k !! c) ∧ c ≠ x ∧ tree0 cv = Some y ∧ valid_name (name cv) ∧ Z.of_nat (length (name cv)) < 256.
Proof.
  intros Hly Hc. destruct (leave_in y ly Hly) as (_ & ly' & Hly' & Hin & _). destruct (Hin c Hc) as [Hc' Hcx].
  destruct (t_child _ _ Ht _ _ _ Hly' Hc') as (Hkc & cv & Hcv & Q). exists cv.
  destruct (leave_rel c cv Hkc Hcx Hcv) as (cv' & Hcv' & Hr & _). by exists cv'.
Qed.

Lemma tree_leave : tree_ok s' (<[o := l1 ++ l2]> (delete x k)).
Proof.
  split; [| | | | | |done].
  - intros y ly Hly. destruct (leave_in y ly Hly) as (Hyx & ly' & Hly' & _ & Heq).
    destruct (t_node _ _ Ht y ly' Hly') as (yv & Hyv & Hyok & Hs & Hnd).
    destruct (leave_rel y yv) as (yv' & Hyv' & Hr & _ & E2); [eauto|done..|].
    exists yv'. split; [done|]. split; [by apply (relinked_ok yv)|]. destruct (decide (y = o)) as [->|Hyo].
    + rewrite lookup_insert_eq in Hly. injection Hly as <-. split; [by apply leave_siblings|].
      pose proof leave_nodup as Hnd'. apply (proj1 (list.NoDup_app _ _)) in Hnd' as (M1 & M2 & [M3 M4]%list.NoDup_cons).
      apply list.NoDup_app. split; [done|]. split; [|done]. intros c Hc Hc2. apply (M2 c Hc). by right.
    + rewrite (Heq Hyo) in *. split; [|done]. rewrite E2 by done. revert Hs. apply siblings_tree1.
      intros c cv Hc Hcv. destruct (leave_in y ly Hly) as (_ & ly2 & Hly2 & Hin & _).
      destruct (Hin c Hc) as [Hc' Hcx]. destruct (t_child _ _ Ht _ _ _ Hly2 Hc') as (Hkc & _).
      destruct (leave_rel c cv Hkc Hcx Hcv) as (cv' & Hcv' & _ & E1 & _). exists cv'. split; [done|]. apply E1.
      intros Hcl. destruct Hyo. apply (owner_unique s k y o _ _ c Ht Hly2 Ho Hc'). apply elem_of_app. by left.
  - intros y ly c Hly Hc. destruct (leave_child y ly c Hly Hc) as (cv & cv' & _ & Hcv' & Hr & Hkc & Hcx & Q).
    rewrite leave_dom. split; [done|]. exists cv'. by destruct (relinked_ok _ _ Hr) as (_ & -> & -> & _).
  - intros y ly c c' cv cv' Hly Hc Hc' Hcv Hcv' Hname. destruct (leave_in y ly Hly) as (_ & ly' & Hly' & Hin & _).
    destruct (leave_child y ly c Hly Hc) as (cu & cu' & Hcu & Hcu' & Hr & _).
    destruct (leave_child y ly c' Hly Hc') as (cw & cw' & Hcw & Hcw' & Hr' & _).
    destruct (relinked_ok _ _ Hr) as (_ & _ & N1 & _). destruct (relinked_ok _ _ Hr') as (_ & _ & N2 & _).
    apply (t_names _ _ Ht y ly' c c' cu cw Hly'); [by apply Hin|by apply Hin|done|done|congruence].
  - intros y [Hk Hyx]%leave_dom. rewrite R. destruct (t_owner _ _ Ht y Hk) as [->|(z & lz & Hz & Hyz)]; [by left|].
    right. destruct (decide (z = o)) as [->|Hzo].
    + exists o, (l1 ++ l2). rewrite lookup_insert_eq. split; [done|]. rewrite Ho in Hz. injection Hz as <-.
      apply elem_of_app in Hyz as [|[|]%elem_of_cons]; apply elem_of_app; [by left|done|by right].
    + exists z, lz. rewrite lookup_insert_ne, lookup_delete_ne; [done| |done]. intros <-.
      rewrite Hx in Hz. injection Hz as <-. by apply not_elem_of_nil in Hyz.
  - rewrite R. destruct (t_root _ _ Ht) as (lr & rv & Hr & Hrv & Q1 & Q2).
    assert (Hrx : root_node s ≠ x).
    { intros <-. apply (root_no_child _ _ _ _ Ht Ho). apply elem_of_app. by right; left. }
    destruct (leave_rel (root_node s) rv) as (rv' & Hrv' & Hrl & _); [eauto|done|done|].
    destruct (relinked_ok _ _ Hrl) as (_ & E3 & _ & E4 & _).
    destruct (proj2 (leave_dom (root_node s))) as [lr' Hlr']; [by eauto|]. exists lr', rv'. by rewrite E3, E4.
  - destruct (t_depth _ _ Ht) as [d Hd]. exists d. intros y ly c Hly Hc.
    destruct (leave_in y ly Hly) as (_ & ly' & Hly' & Hin & _). apply (Hd y ly'); [done|]. by apply Hin.
Qed.
End Leave.

(** *** The operations that add and remove a node *)
Context {HDO : VfsDriverOk E}.

Lemma open_node_ok s k o n ty md :
  tree_ok s k →
  ∃ s' r x, open_node s o n ty md = Some (s', r, x) ∧ agree k s s' ∧
    (r = DE_SUCCESS → Z.of_nat (length n) < 256 ∧ ∃ a v, x = Some a ∧ k !! a = None ∧ nodes s' !! a = Some v ∧
       n_release_ptr v = driver_release ∧ tree_state v = 0 ∧ mount_state v = 0 ∧ 0 ≤ count v ≤ INT_MAX).
Proof.
  intros Ht. unfold open_node. destruct (drv_open _ _ _ _ _ _) as [[[e h] r] x] eqn:Hd.
  destruct (drv_open_ok _ _ _ _ _ _ _ _ _ _ Hd (t_size _ _ Ht)) as (Hh & Hsz & Hr).
  eexists _, r, x. split; [done|]. split; [by apply driver_agree|]. intros Hs.
  destruct (Hr Hs) as (Hn & a & v & -> & Hv & Hnew & Q). split; [done|]. exists a, v. split; [done|].
  split; [|done]. destruct (k !! a) as [l|] eqn:Hka; [|done].
  destruct (t_node _ _ Ht a l Hka) as (v0 & Hv0 & Hok & _). by destruct (Hnew v0 Hv0), (no_release_ptr _ Hok).
Qed.

(** [s'] has the new leaf [x] as the first child of [o]. *)
Record entered s k (o x : nat) (n : list Z) s' : Prop := {
  en_root : root_node s' = root_node s;
  en_nodes : ∀ y, is_Some (k !! y) → y ≠ o → nodes s' !! y = nodes s !! y;
  en_new : ∃ ov v, nodes s !! o = Some ov ∧
    nodes s' !! o = Some (set_tree ov (tree0 ov) (tree1 ov) (Some x)) ∧ nodes s' !! x = Some v ∧
    tree0 v = Some o ∧ tree1 v = tree2 ov ∧ tree2 v = None ∧ tree_state v = 0 ∧ mount_state v = 0 ∧ name v = n;
  en_size : Z.of_nat (size (nodes s)) < INT_MAX }.

Lemma enter_node_ok s k o l x v n :
  tree_ok s k → k !! o = Some l → k !! x = None → nodes s !! x = Some v →
  n_release_ptr v = driver_release → tree_state v = 0 → mount_state v = 0 → 0 ≤ count v ≤ INT_MAX →
  valid_name n → Z.of_nat (length n) < 256 → (∀ c cv, c ∈ l → nodes s !! c = Some cv → name cv ≠ n) →
  ∃ s', enter_node s o x n = Some s' ∧ entered s k o x n s' ∧ tree_ok s' (<[o := x :: l]> (<[x := []]> k)).
Proof.
  intros Ht Ho Hx Hv Hrel Hts Hms Hc Hvn Hvl Hnames. assert (Hxo : x ≠ o) by congruence.
  destruct (t_node _ _ Ht o l Ho) as (ov & Hov & _).
  set (v' := set_tree (set_name (set_release v driver_release vfs_release) n) (Some o) (tree2 ov) None).
  set (ov' := set_tree ov (tree0 ov) (tree1 ov) (Some x)).
  assert (He : enter_node s o x n = Some (set_nodes s (<[o := ov']> (<[x := v']> (nodes s))))).
  { unfold enter_node, set_n_release. rewrite Hv. cbn [mbind option_bind].
    rewrite Hrel, decide_False, (update_ok _ _ v) by done. cbn [mbind option_bind].
    rewrite Z.geb_leb, (proj2 (Z.leb_gt 256 _)) by lia.
    erewrite update_ok by apply lookup_insert_eq. cbn [mbind option_bind].
    unfold add_node. rewrite decide_False by done. cbn [nodes set_nodes].
    rewrite !lookup_insert_ne by done. rewrite Hov. cbn [mbind option_bind].
    erewrite update_ok by apply lookup_insert_eq. cbn [mbind option_bind].
    erewrite update_ok; cycle 1. { cbn [nodes set_nodes]. rewrite !lookup_insert_ne by done. exact Hov. }
    cbn [nodes set_nodes]. rewrite !insert_insert_eq, Hrel. done. }
  eexists. split; [exact He|].
  assert (Hsz : size (<[o := ov']> (<[x := v']> (nodes s))) = size (nodes s)).
  { rewrite !map_size_insert_Some; [done|by eexists|]. rewrite lookup_insert_ne by done. by eexists. }
  assert (Ex : <[o := ov']> (<[x := v']> (nodes s)) !! x = Some v').
  { by rewrite lookup_insert_ne, lookup_insert_eq. }
  assert (Ey : ∀ y, is_Some (k !! y) → y ≠ o → <[o := ov']> (<[x := v']> (nodes s)) !! y = nodes s !! y).
  { intros y [ly Hy] Hne. rewrite !lookup_insert_ne; congruence. }
  split.
  - split; [done|done| |apply (t_size _ _ Ht)]. exists ov, v'. cbn [nodes set_nodes].
    by rewrite lookup_insert_eq.
  - apply (tree_enter s _ k o x [] l v'); try done; cbn [nodes set_nodes].
    + intros y Hy. unfold relink. cbn [list.last]. destruct (decide (y = o)) as [->|Hyo].
      * by rewrite lookup_insert_eq, lookup_alter_eq, Hov.
      * rewrite lookup_alter_ne by done. by apply Ey.
    + split; [done|cbn; unfold UINT_MAX; lia|cbn; lia|done].
    + destruct (t_node _ _ Ht o l Ho) as (ov1 & Hov1 & _ & Hs & _). rewrite Hov in Hov1. by injection Hov1 as <-.
    + rewrite Hsz. apply (t_size _ _ Ht).
Qed.

Lemma entered_agree s k o x l n s1 s2 :
  entered s k o x n s1 → is_Some (k !! o) → agree (<[o := x :: l]> (<[x := []]> k)) s1 s2 → entered s k o x n s2.
Proof.
  intros [R N (ov & v & H1 & H2 & H3 & Q) S] Ho [R' N' S'].
  assert (Hin : ∀ y, is_Some (k !! y) ∨ y = x → nodes s2 !! y = nodes s1 !! y).
  { intros y Hy. apply N'. destruct (decide (y = o)) as [->|Hyo]; [rewrite lookup_insert_eq; eauto|].
    rewrite lookup_insert_ne by done. destruct (decide (y = x)) as [->|Hyx]; [rewrite lookup_insert_eq; eauto|].
    rewrite lookup_insert_ne by done. by destruct Hy. }
  split; [congruence| | |done].
  - intros y Hy Hne. rewrite Hin by by left. by apply N.
  - exists ov, v. rewrite !Hin by eauto. done.
Qed.

(** An unused node that is not the root has an owner. *)
Lemma has_owner s k x v :
  tree_ok s k → is_Some (k !! x) → x ≠ root_node s → nodes s !! x = Some v →
  ∃ o l1 l2, tree0 v = Some o ∧ k !! o = Some (l1 ++ x :: l2).
Proof.
  intros Ht Hx Hne Hv. destruct (t_owner _ _ Ht x Hx) as [|(o & l & Ho & Hin)]; [done|].
  destruct (t_child _ _ Ht _ _ _ Ho Hin) as (_ & v' & Hv' & E0 & _).
  apply list_elem_of_split in Hin as (l1 & l2 & ->). exists o, l1, l2. split; [congruence|done].
Qed.

Lemma remove_leaf_ok s k o x l1 l2 v :
  tree_ok s k → k !! x = Some [] → k !! o = Some (l1 ++ x :: l2) → nodes s !! x = Some v → tree_state v = 0 →
  remove_leaf_node s x = Some (set_nodes s (relink (nodes s) l1 o (tree1 v))).
Proof.
  intros Ht Hx Ho Hv Hts. destruct (t_node _ _ Ht o _ Ho) as (ov & Hov & _ & Hs & Hnd).
  destruct (t_child _ _ Ht o _ x Ho) as (_ & v' & Hv' & E0 & _); [apply elem_of_app; by right; left|].
  rewrite Hv in Hv'. injection Hv' as <-.
  destruct (t_node _ _ Ht x [] Hx) as (v' & Hv' & _ & E2 & _). rewrite Hv in Hv'. injection Hv' as <-. cbn in E2.
  unfold remove_leaf_node. rewrite Hv. cbn [mbind option_bind]. rewrite E0. cbn [mbind option_bind].
  rewrite Hov. cbn [mbind option_bind]. rewrite Hts, E2. rewrite (bool_decide_eq_false_2 (is_Some None)) by by intros [].
  cbn [Z.eqb negb orb]. destruct (tree2 ov) as [p2|] eqn:Ep; [|by destruct l1; destruct Hs].
  cbn [mbind option_bind]. pose proof (kids_length _ _ _ _ Ht Ho) as Hlen. pose proof (t_size _ _ Ht).
  rewrite length_app in Hlen. cbn [length] in Hlen. unfold find_sibling.
  rewrite (sibling_loop_ok _ _ l1 l2); [|done| |lia|lia|lia].
  2:{ intros Hin. apply (proj1 (list.NoDup_app _ _)) in Hnd as (_ & N1 & _). apply (N1 x Hin). left. }
  cbn [mbind option_bind]. unfold relink. destruct (list.last l1) as [p|] eqn:Hp.
  - destruct (t_child _ _ Ht o _ p Ho) as (_ & pv & Hpv & _); [apply elem_of_app; left; by apply last_Some_elem_of|].
    rewrite (update_ok _ _ pv) by done. do 2 f_equal. apply map_eq. intros y. rewrite lookup_insert, lookup_alter.
    destruct (decide (p = y)) as [<-|]; [by rewrite Hpv|done].
  - rewrite (update_ok _ _ ov) by done. do 2 f_equal. apply map_eq. intros y. rewrite lookup_insert, lookup_alter.
    destruct (decide (o = y)) as [<-|]; [by rewrite Hov|done].
Qed.

Lemma drop_node_ok s k o x l1 l2 v :
  tree_ok s k → k !! x = Some [] → k !! o = Some (l1 ++ x :: l2) → nodes s !! x = Some v →
  tree_state v = 0 → mount_state v = 0 →
  ∃ s', drop_node s x = Some s' ∧ root_node s' = root_node s ∧
    (∀ y, is_Some (k !! y) → y ≠ x → nodes s' !! y = relink (nodes s) l1 o (tree1 v) !! y) ∧
    Z.of_nat (size (nodes s')) < INT_MAX.
Proof.
  intros Ht Hx Ho Hv Hts Hms. unfold drop_node. rewrite (remove_leaf_ok s k o x l1 l2 v) by done.
  cbn [mbind option_bind]. destruct (t_node _ _ Ht x [] Hx) as (v' & Hv' & Hok & _). rewrite Hv in Hv'.
  injection Hv' as <-. pose proof (child_ne s k o _ x Ht Ho) as Hxo.
  assert (Hxin : x ∈ l1 ++ x :: l2) by (apply elem_of_app; by right; left). specialize (Hxo Hxin).
  assert (Hx1 : relink (nodes s) l1 o (tree1 v) !! x = Some v).
  { unfold relink. destruct (list.last l1) as [p|] eqn:Hp; rewrite lookup_alter_ne; try done.
    intros <-. apply last_Some_elem_of in Hp. destruct (t_node _ _ Ht o _ Ho) as (_ & _ & _ & _ & Hnd).
    apply (proj1 (list.NoDup_app _ _)) in Hnd as (_ & N1 & _). apply (N1 p Hp). left. }
  assert (Hrel : ∀ y, is_Some (k !! y) → ∃ yv, relink (nodes s) l1 o (tree1 v) !! y = Some yv ∧ n_release_ptr yv = vfs_release).
  { intros y [ly Hy]. destruct (t_node _ _ Ht y ly Hy) as (yv & Hyv & Hyok & _). unfold relink.
    destruct (list.last l1) as [p|]; rewrite lookup_alter; destruct (decide _) as [->|]; rewrite Hyv;
      (eexists; split; [reflexivity|]; apply (no_release_ptr _ Hyok)). }
  set (h1 := relink (nodes s) l1 o (tree1 v)) in *. unfold unset_n_release. cbn [nodes set_nodes]. rewrite Hx1. cbn [mbind option_bind].
  rewrite (no_release_ptr _ Hok), decide_True, (update_ok _ _ v) by done. cbn [mbind option_bind].
  unfold call_release. cbn [nodes set_nodes]. rewrite lookup_insert_eq. cbn [mbind option_bind n_release_ptr set_release].
  rewrite (no_old _ Hok Hms). destruct (drv_release _ _ _) as [e h] eqn:Hd. eexists. split; [done|].
  assert (Hsz : size (<[x := set_release v panic_release driver_release]> h1) = size (nodes s)).
  { rewrite map_size_insert_Some by by eexists. apply relink_size. }
  destruct (drv_release_ok _ _ _ _ _ Hd) as [Hh Hsz']; [cbn [drivers set_nodes]; rewrite Hsz; apply (t_size _ _ Ht)|].
  split; [done|]. split; [|done]. intros y Hy Hne. cbn [nodes]. destruct (Hrel y Hy) as (yv & Hyv & Hyr).
  rewrite Hyv. apply Hh; [|done]. by rewrite lookup_insert_ne.
Qed.
End Tree.
