(* ===== verification/VfsWalk.v ===== *)
(** Changes of the tree of the virtual file system as a whole: the loops that
    drop the owners nobody uses, the path of every node, and the chains of new
    nodes an operation adds while it walks along a path. *)

From stdpp Require Import gmap.
From S2P Require Import Prelude Errors VfsPath Vfs VfsTree.

Section Walk.
Context {E : Type} `{HDO : VfsDriverOk E}.
Implicit Types (s : vfs E) (k : kids).
(** ** The loops that drop unused owners *)

Lemma kids_size s k : tree_ok s k → (size k ≤ size (nodes s))%nat.
Proof.
  intros Ht. rewrite <- !(size_dom (D := gset nat)). apply subseteq_size. intros x [l Hx]%elem_of_dom.
  destruct (t_node _ _ Ht x l Hx) as (v & Hv & _). by apply elem_of_dom_2 in Hv.
Qed.

Lemma leave_size (k : kids) o l x l' :
  k !! x = Some l → x ≠ o → is_Some (k !! o) → size k = S (size (<[o := l']> (delete x k))).
Proof.
  intros Hx Hne Ho. rewrite map_size_insert_Some by by rewrite lookup_delete_ne.
  assert (E0 : size k ≠ 0%nat) by (intros ->%map_size_empty_inv; by rewrite lookup_empty in Hx).
  rewrite map_size_delete_Some by eauto. lia.
Qed.

(** The nodes of [s'] are nodes of [s], and those that are in use are still
    there. *)
Record keeps s k s' k' : Prop := {
  kp_root : root_node s' = root_node s;
  kp_old : ∀ x, is_Some (k' !! x) → is_Some (k !! x) ∧
             ∃ v v', nodes s !! x = Some v ∧ nodes s' !! x = Some v' ∧ relinked v v';
  kp_in : ∀ x v, is_Some (k !! x) → nodes s !! x = Some v → tree_state v ≠ 0 ∨ mount_state v ≠ 0 → is_Some (k' !! x) }.

Lemma relinked_trans v1 v2 v3 : relinked v1 v2 → relinked v2 v3 → relinked v1 v3.
Proof. intros (a & b & ->) (c & d & ->). by exists c, d. Qed.

Lemma keeps_self s k : tree_ok s k → keeps s k s k.
Proof.
  intros Ht. split; [done| |done]. intros x [l Hx]. split; [eauto|].
  destruct (t_node _ _ Ht x l Hx) as (v & Hv & _). exists v, v. split; [done|]. split; [done|apply relinked_refl].
Qed.

Lemma keeps_after s k s1 k1 s2 k2 : keeps s k s1 k1 → keeps s1 k1 s2 k2 → keeps s k s2 k2.
Proof.
  intros [R1 O1 I1] [R2 O2 I2]. split; [congruence| |].
  - intros x Hx. destruct (O2 x Hx) as (Hx1 & v1 & v2 & H1 & H2 & Hr2).
    destruct (O1 x Hx1) as (Hx0 & v0 & v1' & H0 & H1' & Hr1). split; [done|]. exists v0, v2.
    rewrite H1 in H1'. injection H1' as <-. split; [done|]. split; [done|]. by eapply relinked_trans.
  - intros x v Hx Hv Hu. assert (Hx1 : is_Some (k1 !! x)) by eauto.
    destruct (O1 x Hx1) as (_ & v0 & v1 & H0 & H1 & Hr). rewrite Hv in H0. injection H0 as <-.
    apply (I2 x v1); [done|done|]. by destruct (relinked_ok _ _ Hr) as (_ & _ & _ & -> & -> & _).
Qed.

(** One node is dropped. *)
Lemma drop_ok s k x v :
  tree_ok s k → used_but (Some x) s k → k !! x = Some [] → x ≠ root_node s → nodes s !! x = Some v →
  tree_state v = 0 → mount_state v = 0 →
  ∃ s' k' o, drop_node s x = Some s' ∧ tree0 v = Some o ∧ tree_ok s' k' ∧ used_but (Some o) s' k' ∧
    is_Some (k' !! o) ∧ keeps s k s' k' ∧ size k = S (size k').
Proof.
  intros Ht Hu Hx Hxr Hv Hts Hms.
  destruct (has_owner s k x v Ht) as (o & l1 & l2 & E0 & Ho); [eauto|done|done|].
  destruct (drop_node_ok s k o x l1 l2 v Ht Hx Ho Hv Hts Hms) as (s' & Hd & R & Hy & Hsz).
  assert (Hxo : x ≠ o) by (apply (leave_ne s k o x l1 l2); done).
  exists s', (<[o := l1 ++ l2]> (delete x k)), o. split; [done|]. split; [done|].
  split; [by apply (tree_leave s s' k o x l1 l2 v)|]. split; [|split; [|split]].
  - intros y Hky Hne. apply (leave_dom s k o x l1 l2 Ht Ho) in Hky as [Hky Hyx].
    destruct (Hu y Hky) as (yv & ly & H1 & H2 & H3); [congruence|].
    destruct (leave_rel s s' k o x l1 v Hy y yv Hky Hyx H1) as (yv' & H1' & Hr & _).
    exists yv', ly. split; [done|]. rewrite lookup_insert_ne, lookup_delete_ne by congruence. split; [done|].
    by destruct (relinked_ok _ _ Hr) as (_ & _ & _ & -> & -> & _).
  - rewrite lookup_insert_eq. eauto.
  - split; [done| |].
    + intros y [Hky Hyx]%(leave_dom s k o x l1 l2 Ht Ho). split; [done|]. destruct Hky as [ly Hky].
      destruct (t_node _ _ Ht y ly Hky) as (yv & Hyv & _).
      destruct (leave_rel s s' k o x l1 v Hy y yv) as (yv' & H1' & Hr & _); [eauto|done|done|]. by exists yv, yv'.
    + intros y yv Hky Hyv Hus. apply (leave_dom s k o x l1 l2 Ht Ho). split; [done|]. intros ->.
      rewrite Hv in Hyv. injection Hyv as <-. by destruct Hus.
  - eapply leave_size; eauto.
Qed.

Lemma prune_loop_ok fuel s k o :
  tree_ok s k → used_but (Some o) s k → is_Some (k !! o) → (size k < fuel)%nat →
  ∃ s' k', while fuel prune_turn (s, Some o) = Some s' ∧ tree_ok s' k' ∧ used_but None s' k' ∧ keeps s k s' k'.
Proof.
  revert s k o. induction fuel as [|fuel IH]; intros s k o Ht Hu [l Ho] Hf; [lia|].
  destruct (t_node _ _ Ht o l Ho) as (v & Hv & Hok & Hs & Hnd).
  assert (Hdone : used s k o → while (S fuel) prune_turn (s, Some o) = Some s →
            ∃ s' k', while (S fuel) prune_turn (s, Some o) = Some s' ∧ tree_ok s' k' ∧ used_but None s' k' ∧ keeps s k s' k').
  { intros Huo Hw. exists s, k. split; [done|]. split; [done|]. split; [|by apply keeps_self].
    intros y Hy _. destruct (decide (y = o)) as [->|]; [done|]. apply Hu; congruence. }
  cbn [while prune_turn] in *. destruct (decide (Some o = Some (root_node s))) as [[= ->]|Hne].
  { apply Hdone; [|done]. destruct (t_root _ _ Ht) as (lr & rv & Hr & Hrv & _ & Hm). exists rv, lr. auto. }
  cbn [mbind option_bind] in *. rewrite Hv in *. cbn [mbind option_bind] in *.
  destruct (Z.eqb_spec (tree_state v) 0) as [Hts|Hts]; cbn [negb orb] in *.
  2:{ apply Hdone; [exists v, l; auto|done]. }
  destruct l as [|c l]; cbn [siblings] in Hs.
  2:{ destruct Hs as [E2 _]. rewrite E2 in *. apply Hdone; [exists v, (c :: l); auto|done]. }
  rewrite Hs in *. rewrite (bool_decide_eq_false_2 (is_Some None)) in * by by intros [].
  destruct (Z.eqb_spec (mount_state v) 0) as [Hms|Hms]; cbn [negb orb] in *.
  2:{ apply Hdone; [exists v, []; auto|done]. }
  destruct (drop_ok s k o v) as (s1 & k1 & p & -> & -> & Ht1 & Hu1 & Hp & Hkp & Hsz); try done; [congruence|].
  cbn [mbind option_bind]. destruct (IH s1 k1 p Ht1 Hu1 Hp) as (s' & k' & -> & Ht' & Hu' & Hkp'); [lia|].
  exists s', k'. split; [done|]. split; [done|]. split; [done|]. by eapply keeps_after.
Qed.

Lemma prune_ok s k o :
  tree_ok s k → used_but (Some o) s k → is_Some (k !! o) →
  ∃ s' k', prune s (Some o) = Some s' ∧ tree_ok s' k' ∧ used_but None s' k' ∧ keeps s k s' k'.
Proof.
  intros Ht Hu Ho. pose proof (kids_size _ _ Ht). unfold prune. apply prune_loop_ok; [done|done|done|lia].
Qed.

(** ** The names of the nodes *)

Inductive named s k : nat → list (list Z) → Prop :=
  | named_root : named s k (root_node s) []
  | named_child o l c v ns :
      named s k o ns → k !! o = Some l → c ∈ l → nodes s !! c = Some v → named s k c (ns ++ [name v]).

Lemma named_in s k x ns : tree_ok s k → named s k x ns → is_Some (k !! x).
Proof.
  intros Ht [|o l c v ns' _ Ho Hc _].
  - destruct (t_root _ _ Ht) as (l & v & Hr & _). eauto.
  - by destruct (t_child _ _ Ht _ _ _ Ho Hc).
Qed.

Lemma named_valid s k x ns : tree_ok s k → named s k x ns → Forall valid_name ns.
Proof.
  intros Ht. induction 1 as [|o l c v ns _ IH Ho Hc Hv]; [apply Forall_nil_2|].
  apply Forall_app. split; [done|]. apply Forall_singleton.
  destruct (t_child _ _ Ht _ _ _ Ho Hc) as (_ & v' & Hv' & _ & Hn & _). congruence.
Qed.

(** A path names one node. *)
Lemma named_inj s k x y ns : tree_ok s k → named s k x ns → named s k y ns → x = y.
Proof.
  intros Ht Hx. revert y. induction Hx as [|o l c v ns Hns IH Ho Hc Hv]; intros y Hy.
  - inversion Hy as [|o l c v ns' H1 H2 H3 H4 H5 E']; [done|]. by destruct ns'.
  - inversion Hy as [E'|o' l' c' v' ns' Hns' Ho' Hc' Hv' Ec E']; [by destruct ns|].
    apply app_inj_tail in E' as [-> En]. assert (o = o') as <- by by apply IH.
    rewrite Ho in Ho'. injection Ho' as <-. by apply (t_names _ _ Ht o l c y v v').
Qed.

(** A node has one path. *)
Lemma named_fun s k x ns ns' : tree_ok s k → named s k x ns → named s k x ns' → ns = ns'.
Proof.
  intros Ht Hx. revert ns'. induction Hx as [|o l c v ns Hns IH Ho Hc Hv]; intros ns' Hy.
  - inversion Hy as [|o l c v ns0 H1 Ho Hc H4 Ec]; [done|]. by destruct (root_no_child _ _ _ _ Ht Ho).
  - inversion Hy as [Ec|o' l' c' v' ns0 Hns' Ho' Hc' Hv' Ec E'].
    + subst c. by destruct (root_no_child _ _ _ _ Ht Ho).
    + assert (o = o') as <- by by apply (owner_unique s k o o' l l' c). rewrite (IH ns0) by done. congruence.
Qed.

(** A node keeps its path when the nodes keep their owners and names. *)
Lemma stays_named s k s' k' x ns :
  tree_ok s k → tree_ok s' k' → root_node s' = root_node s →
  (∀ y v, is_Some (k !! y) → is_Some (k' !! y) → nodes s !! y = Some v →
     ∃ v', nodes s' !! y = Some v' ∧ tree0 v' = tree0 v ∧ name v' = name v) →
  named s k x ns → is_Some (k' !! x) → named s' k' x ns.
Proof.
  intros Ht Ht' R Hold. induction 1 as [|o l c v ns Hns IH Ho Hc Hv]; intros Hx.
  - rewrite <- R. constructor.
  - destruct (t_child _ _ Ht _ _ _ Ho Hc) as (Hkc & v3 & Hv3 & E3 & _). rewrite Hv in Hv3. injection Hv3 as <-.
    destruct (Hold c v Hkc Hx Hv) as (v' & Hv' & E0 & <-).
    destruct (t_owner _ _ Ht' c Hx) as [->|(o' & l' & Ho' & Hc')].
    { rewrite R in Hc. by destruct (root_no_child _ _ _ _ Ht Ho). }
    destruct (t_child _ _ Ht' _ _ _ Ho' Hc') as (_ & v2 & Hv2 & E2 & _).
    assert (o' = o) as -> by congruence. apply (named_child _ _ o l'); eauto.
Qed.

Lemma keeps_named s k s' k' x ns :
  tree_ok s k → tree_ok s' k' → keeps s k s' k' → named s k x ns → is_Some (k' !! x) → named s' k' x ns.
Proof.
  intros Ht Ht' [R Hold _]. apply stays_named; [done..|]. intros y v _ Hy Hv.
  destruct (Hold y Hy) as (_ & v0 & v' & Hv0 & Hv' & Hr). rewrite Hv in Hv0. injection Hv0 as <-.
  exists v'. by destruct (relinked_ok _ _ Hr) as (_ & -> & -> & _).
Qed.

Lemma agree_named k s s' x ns : tree_ok s k → agree k s s' → named s k x ns → named s' k x ns.
Proof.
  intros Ht Ha Hn. apply (stays_named s k); [done|by eapply tree_agree|apply (ag_root _ _ _ Ha)| |done|by eapply named_in].
  intros y v Hy _ Hv. exists v. by rewrite (ag_nodes _ _ _ Ha).
Qed.

(** Every node has a path. *)
Lemma named_ex s k x : tree_ok s k → is_Some (k !! x) → ∃ ns, named s k x ns.
Proof.
  intros Ht. destruct (t_depth _ _ Ht) as [d Hd]. remember (d x) as m eqn:Em. revert x Em.
  induction (lt_wf m) as [m _ IH]. intros x -> Hx.
  destruct (t_owner _ _ Ht x Hx) as [->|(o & l & Ho & Hin)]; [eexists; constructor|].
  destruct (IH (d o)) with (x := o) as [ns Hns]; [rewrite (Hd o l x); [lia|done|done]|done|eauto|].
  destruct (t_child _ _ Ht _ _ _ Ho Hin) as (_ & v & Hv & _). exists (ns ++ [name v]). by apply (named_child _ _ o l).
Qed.

(** ** Branches that an operation adds for a while *)

(** [s] has, under the tree of [s0], a chain of new nodes that ends in [o]. *)
Inductive grown s0 (k0 : kids) : vfs E → kids → nat → Prop :=
  | grown_none s o : agree k0 s0 s → is_Some (k0 !! o) → grown s0 k0 s k0 o
  | grown_more s1 k1 o s2 s x l n :
      grown s0 k0 s1 k1 o → agree k1 s1 s2 → k1 !! o = Some l → k1 !! x = None → entered s2 k1 o x n s →
      tree_ok s (<[o := x :: l]> (<[x := []]> k1)) → grown s0 k0 s (<[o := x :: l]> (<[x := []]> k1)) x.

Lemma grown_tree s0 k0 s k o : tree_ok s0 k0 → grown s0 k0 s k o → tree_ok s k ∧ is_Some (k !! o).
Proof.
  intros Ht [s' o' Ha Ho|s1 k1 p s2 s' x l n Hg Ha Hp Hx He Ht']; [split; [by eapply tree_agree|done]|].
  split; [done|]. rewrite lookup_insert_ne, lookup_insert_eq by congruence. eauto.
Qed.

Lemma grown_agree s0 k0 s k o s' : tree_ok s0 k0 → grown s0 k0 s k o → agree k s s' → grown s0 k0 s' k o.
Proof.
  intros Ht [s1 o' Ha Ho|s1 k1 p s2 s2' x l n Hg Ha Hp Hx He Ht'] Ha'.
  - apply grown_none; [by eapply agree_trans|done].
  - eapply grown_more; [exact Hg|exact Ha|done|done| |by eapply tree_agree].
    eapply entered_agree; [exact He|eauto|exact Ha'].
Qed.

(** The end of a chain that is not empty has no children. *)
Lemma grown_leaf s0 k0 s k o l c : grown s0 k0 s k o → k !! o = Some l → c ∈ l → k = k0 ∧ agree k0 s0 s.
Proof.
  intros [s' o' Ha Ho|s1 k1 p s2 s' x l' n Hg Ha Hp Hx He Ht'] Hl Hc; [done|].
  rewrite lookup_insert_ne, lookup_insert_eq in Hl by congruence. injection Hl as <-.
  by apply not_elem_of_nil in Hc.
Qed.

(** What was in the tree is there with its fields. *)
Lemma grown_old s0 k0 s k o y l :
  grown s0 k0 s k o → k0 !! y = Some l →
  (∃ l', k !! y = Some l' ∧ ∀ c, c ∈ l → c ∈ l') ∧
  ∀ v, nodes s0 !! y = Some v → ∃ v', nodes s !! y = Some v' ∧ relinked v v' ∧ tree1 v' = tree1 v.
Proof.
  intros Hg Hy. induction Hg as [s o Ha Ho|s1 k1 p s2 s x l' n Hg IH Ha Hp Hx He Ht'].
  - split; [by exists l|]. intros v Hv. exists v. rewrite (ag_nodes _ _ _ Ha) by eauto.
    split; [done|]. split; [apply relinked_refl|done].
  - destruct IH as [(l1 & Hl1 & Hin) Hv1]. split.
    + destruct (decide (y = p)) as [->|Hyp].
      * exists (x :: l'). rewrite lookup_insert_eq. split; [done|]. intros c Hc. right.
        rewrite Hp in Hl1. injection Hl1 as <-. by apply Hin.
      * exists l1. by rewrite !lookup_insert_ne by congruence.
    + intros v Hv. destruct (Hv1 v Hv) as (v' & Hv' & Hr & E1).
      rewrite <- (ag_nodes _ _ _ Ha) in Hv' by eauto. destruct He as [_ Hn (ov & xv & Hov & Ho' & _) _].
      destruct (decide (y = p)) as [->|Hyp].
      * rewrite Hov in Hv'. injection Hv' as ->. eexists. split; [exact Ho'|].
        split; [|done]. eapply relinked_trans; [exact Hr|]. by eexists _, _.
      * exists v'. by rewrite Hn by eauto.
Qed.

Lemma grown_root s0 k0 s k o : grown s0 k0 s k o → root_node s = root_node s0.
Proof.
  induction 1 as [s o Ha Ho|s1 k1 p s2 s x l' n Hg IH Ha Hp Hx He Ht']; [apply (ag_root _ _ _ Ha)|].
  rewrite (en_root _ _ _ _ _ _ He), (ag_root _ _ _ Ha). done.
Qed.

Lemma grown_used s0 k0 s k o : used_but None s0 k0 → grown s0 k0 s k o → used_but (Some o) s k.
Proof.
  intros Hu. induction 1 as [s o Ha Ho|s1 k1 p s2 s x l n Hg IH Ha Hp Hx He Ht'].
  - intros y Hy _. apply (used_agree None s0); done.
  - intros y Hy Hne. destruct He as [_ Hn (ov & xv & Hov & Ho' & _) _].
    destruct (decide (y = p)) as [->|Hyp].
    { eexists _, (x :: l). split; [exact Ho'|]. rewrite lookup_insert_eq. auto. }
    assert (Hyx : y ≠ x) by congruence. rewrite !lookup_insert_ne in Hy by done.
    destruct (used_agree (Some p) s1 s2 k1 IH Ha y Hy) as (yv & ly & H1 & H2 & H3); [congruence|].
    exists yv, ly. rewrite Hn, !lookup_insert_ne by done. done.
Qed.

(** To drop a new leaf undoes its entry. *)
Lemma entered_drop s k o l x n s' :
  entered s k o x n s' → tree_ok s' (<[o := x :: l]> (<[x := []]> k)) → k !! o = Some l → k !! x = None →
  ∃ v s3, nodes s' !! x = Some v ∧ tree0 v = Some o ∧ tree2 v = None ∧ tree_state v = 0 ∧ mount_state v = 0 ∧
    x ≠ root_node s' ∧ drop_node s' x = Some s3 ∧ agree k s s3.
Proof.
  intros [R N (ov & v & Hov & Ho' & Hv & E0 & E1 & E2 & Hts & Hms & _) Hsz] Ht Ho Hx.
  set (k' := <[o := x :: l]> (<[x := []]> k)) in *. assert (Hox : o ≠ x) by congruence.
  assert (Hkx : k' !! x = Some []) by (by unfold k'; rewrite lookup_insert_ne, lookup_insert_eq).
  assert (Hko : k' !! o = Some ([] ++ x :: l)) by apply lookup_insert_eq.
  destruct (drop_node_ok s' k' o x [] l v Ht Hkx Hko Hv Hts Hms) as (s3 & Hd & R3 & Hy3 & Hsz3).
  exists v, s3. do 5 (split; [done|]). split; [|split; [done|]].
  { intros ->. by apply (root_no_child _ _ _ _ Ht Hko); left. }
  split; [congruence| |done]. intros y Hy. assert (Hyx : y ≠ x) by (intros ->; rewrite Hx in Hy; by destruct Hy).
  rewrite Hy3; [|unfold k'; destruct (decide (y = o)) as [->|]; [rewrite lookup_insert_eq; eauto|by rewrite !lookup_insert_ne]|done].
  unfold relink. cbn [list.last]. destruct (decide (y = o)) as [->|Hyo].
  - rewrite lookup_alter_eq, Ho', Hov, E1. cbn. by destruct ov.
  - rewrite lookup_alter_ne by done. by apply N.
Qed.

(** A node in use stops the loop. *)
Lemma prune_used fuel s k o :
  tree_ok s k → used s k o → (0 < fuel)%nat → while fuel prune_turn (s, Some o) = Some s.
Proof.
  intros Ht (v & l & Hv & Hl & Hus) Hf. destruct fuel as [|fuel]; [lia|]. cbn [while prune_turn].
  destruct (decide _) as [|Hne]; [done|]. cbn [mbind option_bind]. rewrite Hv. cbn [mbind option_bind].
  destruct (t_node _ _ Ht o l Hl) as (v' & Hv' & _ & Hs & _). rewrite Hv in Hv'. injection Hv' as <-.
  destruct (Z.eqb_spec (tree_state v) 0), (Z.eqb_spec (mount_state v) 0); cbn [negb orb]; try done.
  - destruct l as [|c l]; [by destruct Hus as [|[]]|]. destruct Hs as [-> _]. done.
  - by destruct (bool_decide _).
Qed.

(** The loop over the unused owners takes the whole chain back. *)
Lemma grown_prune fuel s0 k0 s k o s' :
  tree_ok s0 k0 → used_but None s0 k0 → grown s0 k0 s k o → agree k s s' → (size k < fuel)%nat →
  ∃ s2, while fuel prune_turn (s', Some o) = Some s2 ∧ agree k0 s0 s2.
Proof.
  intros Ht Hu Hg. revert fuel s'.
  induction Hg as [s o Ha Ho|s1 k1 p s2 s x l n Hg IH Ha Hp Hx He Ht']; intros fuel s' Ha' Hf.
  - assert (Ha2 : agree k0 s0 s') by by eapply agree_trans. exists s'. split; [|done].
    apply (prune_used _ _ k0); [by eapply tree_agree| |lia]. by apply (used_agree None s0).
  - pose proof (tree_agree _ _ _ Ht' Ha') as Ht2.
    assert (He' : entered s2 k1 p x n s') by (eapply entered_agree; eauto).
    destruct (entered_drop _ _ _ _ _ _ _ He' Ht2 Hp Hx) as (v & s3 & Hv & E0 & E2 & Hts & Hms & Hr & Hd & Ha3).
    destruct fuel as [|fuel]; [lia|]. cbn [while prune_turn]. rewrite decide_False by congruence.
    cbn [mbind option_bind]. rewrite Hv. cbn [mbind option_bind]. rewrite Hts, Hms, E2.
    rewrite (bool_decide_eq_false_2 (is_Some None)) by by intros []. cbn [Z.eqb negb orb]. rewrite Hd, E0.
    cbn [mbind option_bind]. apply IH; [by eapply agree_trans|].
    rewrite map_size_insert_Some, map_size_insert_None in Hf; [lia|done|]. rewrite lookup_insert_ne by congruence. eauto.
Qed.

Lemma grown_prune_ok s0 k0 s k o :
  tree_ok s0 k0 → used_but None s0 k0 → grown s0 k0 s k o → ∃ s2, prune s (Some o) = Some s2 ∧ agree k0 s0 s2.
Proof.
  intros Ht Hu Hg. destruct (grown_tree _ _ _ _ _ Ht Hg) as [Ht' _]. pose proof (kids_size _ _ Ht').
  apply (grown_prune _ s0 k0 s k); [done|done|done|apply agree_refl|lia].
Qed.

Lemma grown_named s0 k0 s k o x ns :
  tree_ok s0 k0 → grown s0 k0 s k o → named s0 k0 x ns → named s k x ns.
Proof.
  intros Ht Hg Hn. destruct (grown_tree _ _ _ _ _ Ht Hg) as [Ht1 _]. destruct (named_in _ _ _ _ Ht Hn) as [lx Hx].
  apply (stays_named s0 k0); [done|done|by eapply grown_root| |done|].
  - intros y v [l Hy] _ Hv. destruct (grown_old s0 k0 s k o y l Hg Hy) as [_ Hold].
    destruct (Hold v Hv) as (v' & Hv' & Hr & _). exists v'. by destruct (relinked_ok _ _ Hr) as (_ & -> & -> & _).
  - destruct (grown_old s0 k0 s k o x lx Hg Hx) as [(l' & Hl' & _) _]. eauto.
Qed.

(** One more node of the chain. *)
Lemma grow_ok s0 k0 s k o l n ns ty md s1 x :
  tree_ok s0 k0 → grown s0 k0 s k o → named s k o ns → k !! o = Some l → valid_name n →
  (∀ c cv, c ∈ l → nodes s !! c = Some cv → name cv ≠ n) →
  open_node s o n ty md = Some (s1, DE_SUCCESS, x) →
  ∃ a s2 k2, x = Some a ∧ enter_node s1 o a n = Some s2 ∧ grown s0 k0 s2 k2 a ∧ named s2 k2 a (ns ++ [n]).
Proof.
  intros Ht Hg Hns Hl Hn Hnames Hop. destruct (grown_tree _ _ _ _ _ Ht Hg) as [Ht1 _].
  destruct (open_node_ok s k o n ty md Ht1) as (s1' & r & x' & Hop' & Ha & Hr).
  rewrite Hop in Hop'. injection Hop' as <- <- <-. destruct (Hr eq_refl) as (Hlen & a & v & -> & Hka & Hv & Q1 & Q2 & Q3 & Q4).
  destruct (enter_node_ok s1 k o l a v n) as (s2 & He & Hent & Ht2); try done.
  { by eapply tree_agree. }
  { intros c cv Hc. destruct (t_child _ _ Ht1 _ _ _ Hl Hc) as (Hk & _). rewrite (ag_nodes _ _ _ Ha) by done. by apply Hnames. }
  exists a, s2, (<[o := a :: l]> (<[a := []]> k)). split; [done|]. split; [done|].
  assert (Hg2 : grown s0 k0 s2 (<[o := a :: l]> (<[a := []]> k)) a) by by eapply grown_more.
  split; [done|]. destruct (en_new _ _ _ _ _ _ Hent) as (ov & av & _ & _ & Hav & E0 & _ & _ & _ & _ & En). rewrite <- En.
  assert (Hg1 : grown s k s2 (<[o := a :: l]> (<[a := []]> k)) a).
  { eapply (grown_more _ _ s k o s1); try done. apply grown_none; [apply agree_refl|eauto]. }
  apply (named_child _ _ o (a :: l)); [|apply lookup_insert_eq|left|done].
  by apply (grown_named s k _ _ a).
Qed.
End Walk.
