(* ===== verification/VfsCount.v ===== *)
(** The counters of the nodes of the virtual file system, what a walk along a
    path, a release and a path name do to the tree. *)

From stdpp Require Import gmap.
From S2P Require Import Prelude Errors VfsPath Vfs VfsTree VfsWalk.

Section Operations.
Context {E : Type} `{HDO : VfsDriverOk E}.
Implicit Types (s : vfs E) (k : kids).

(** ** The counters of a node *)

Lemma set_count_node_ok v c t :
  node_ok v → -1 ≤ c ≤ INT_MAX → 0 ≤ t ≤ UINT_MAX → node_ok (set_count v c t).
Proof. intros [] Hc Ht. by split. Qed.

Definition counted s (x : nat) (v : vfs_node) (c t : Z) : vfs E :=
  set_nodes s (<[x := set_count v c t]> (nodes s)).

Lemma counted_size s x v c t : nodes s !! x = Some v → size (nodes (counted s x v c t)) = size (nodes s).
Proof. intros Hv. cbn. apply map_size_insert_Some. eauto. Qed.

Lemma counted_lookup s x v c t y yv :
  nodes s !! x = Some v → nodes s !! y = Some yv →
  ∃ yv', nodes (counted s x v c t) !! y = Some yv' ∧ tree0 yv' = tree0 yv ∧ tree1 yv' = tree1 yv ∧
    tree2 yv' = tree2 yv ∧ name yv' = name yv ∧ mount_state yv' = mount_state yv ∧
    (y ≠ x → yv' = yv) ∧ (y = x → yv' = set_count v c t).
Proof.
  intros Hv Hy. cbn [counted nodes set_nodes]. destruct (decide (y = x)) as [->|Hne].
  - rewrite lookup_insert_eq. rewrite Hv in Hy. injection Hy as <-. by eexists.
  - rewrite lookup_insert_ne by done. exists yv. done.
Qed.

Lemma counted_tree s k x v c t :
  tree_ok s k → is_Some (k !! x) → nodes s !! x = Some v → -1 ≤ c ≤ INT_MAX → 0 ≤ t ≤ UINT_MAX →
  tree_ok (counted s x v c t) k.
Proof.
  intros Ht Hx Hv Hc Hts.
  assert (Hback : ∀ y yv', is_Some (k !! y) → nodes (counted s x v c t) !! y = Some yv' →
            ∃ yv, nodes s !! y = Some yv ∧ name yv' = name yv).
  { intros y yv' [l Hy] Hyv'. destruct (t_node _ _ Ht y l Hy) as (yv & Hyv & _). exists yv. split; [done|].
    destruct (counted_lookup s x v c t y yv Hv Hyv) as (yv2 & Hyv2 & _ & _ & _ & En & _). congruence. }
  split.
  - intros y l Hy. destruct (t_node _ _ Ht y l Hy) as (yv & Hyv & Hok & Hs & Hnd).
    destruct (counted_lookup s x v c t y yv Hv Hyv) as (yv' & Hyv' & _ & _ & E2 & _ & _ & En & Ee).
    exists yv'. rewrite E2. split; [done|]. split; [|split; [|done]].
    + destruct (decide (y = x)) as [->|]; [|by rewrite En]. rewrite Ee by done. apply set_count_node_ok; congruence.
    + revert Hs. apply siblings_tree1. intros a av Ha Hav.
      destruct (counted_lookup s x v c t a av Hv Hav) as (av' & Hav' & _ & E1 & _). eauto.
  - intros y l a Hy Ha. destruct (t_child _ _ Ht y l a Hy Ha) as (Hk & av & Hav & Q). split; [done|].
    destruct (counted_lookup s x v c t a av Hv Hav) as (av' & Hav' & E0 & _ & _ & En & _). exists av'. by rewrite E0, En.
  - intros y l a b av bv Hy Ha Hb Hav Hbv Hn.
    destruct (t_child _ _ Ht y l a Hy Ha) as (Hka & _). destruct (t_child _ _ Ht y l b Hy Hb) as (Hkb & _).
    destruct (Hback a av Hka Hav) as (av0 & Hav0 & E1). destruct (Hback b bv Hkb Hbv) as (bv0 & Hbv0 & E2).
    apply (t_names _ _ Ht y l a b av0 bv0); try done. congruence.
  - apply (t_owner _ _ Ht).
  - destruct (t_root _ _ Ht) as (l & rv & Hl & Hrv & E0 & Em).
    destruct (counted_lookup s x v c t _ rv Hv Hrv) as (rv' & Hrv' & E0' & _ & _ & _ & Em' & _).
    exists l, rv'. rewrite E0', Em'. done.
  - apply (t_depth _ _ Ht).
  - rewrite counted_size by done. apply (t_size _ _ Ht).
Qed.

Lemma counted_named s k x v c t y ns :
  tree_ok s k → tree_ok (counted s x v c t) k → nodes s !! x = Some v →
  named s k y ns → named (counted s x v c t) k y ns.
Proof.
  intros Ht Ht' Hv Hn. apply (stays_named s k); [done|done|done| |done|].
  2:{ by apply (named_in s k y ns). }
  intros z zv _ _ Hz.
  destruct (counted_lookup s x v c t z zv Hv Hz) as (zv' & Hzv' & E0 & _ & _ & En & _). by exists zv'.
Qed.

(** An opener more *)
Definition taken (v : vfs_node) : vfs_node :=
  set_count v (if (0 <=? count v) && (count v <? INT_MAX) then count v + 1 else count v)
    (if tree_state v =? 0 then 1 else if tree_state v <? UINT_MAX then tree_state v + 1 else tree_state v).

Lemma take_node_ok s x v :
  nodes s !! x = Some v → node_ok v → take_node s x = Some (counted s x v (count (taken v)) (tree_state (taken v))).
Proof.
  intros Hv Hok. destruct (no_state _ Hok) as [H0 H1]. unfold take_node, vfs_increment_count. rewrite Hv. cbn [mbind option_bind].
  rewrite (update_ok _ _ v) by done. cbn [mbind option_bind]. unfold set_tree_state. cbn [nodes set_nodes].
  rewrite lookup_insert_eq. cbn [mbind option_bind]. cbn [incremented set_count tree_state n_release_ptr].
  rewrite !Z.gtb_ltb. unfold taken, incremented. cbn [tree_state count set_count]. rewrite Z.gtb_ltb.
  destruct (Z.eqb_spec (tree_state v) 0) as [E0|E0].
  - rewrite E0. cbn [Z.ltb andb Z.compare Z.eqb]. rewrite decide_False by (intros []; apply (no_release_ptr _ Hok)).
    erewrite update_ok by apply lookup_insert_eq. unfold counted. cbn [nodes set_nodes]. by rewrite insert_insert_eq.
  - rewrite (proj2 (Z.ltb_lt 0 (tree_state v))) by lia. cbn [andb].
    rewrite (proj2 (Z.ltb_lt 0 _)) by (destruct (tree_state v <? UINT_MAX); lia). done.
Qed.

Lemma taken_bounds v : node_ok v → -1 ≤ count (taken v) ≤ INT_MAX ∧ 0 < tree_state (taken v) ≤ UINT_MAX.
Proof.
  intros [_ Ht Hc _]. unfold taken. cbn [count tree_state set_count].
  destruct (Z.leb_spec 0 (count v)), (Z.ltb_spec (count v) INT_MAX), (Z.eqb_spec (tree_state v) 0),
    (Z.ltb_spec (tree_state v) UINT_MAX); cbn [andb]; unfold INT_MAX, UINT_MAX in *; lia.
Qed.

Lemma taken_ok v : node_ok v → node_ok (taken v).
Proof.
  intros Hok. destruct (taken_bounds v Hok) as [Hc Ht]. destruct Hok. split; [done|lia|done|done].
Qed.

Lemma take_tree s k x :
  tree_ok s k → is_Some (k !! x) → used_but (Some x) s k →
  ∃ v s', nodes s !! x = Some v ∧ node_ok v ∧ take_node s x = Some s' ∧
    s' = counted s x v (count (taken v)) (tree_state (taken v)) ∧ tree_ok s' k ∧ used_but None s' k.
Proof.
  intros Ht [l Hx] Hu. destruct (t_node _ _ Ht x l Hx) as (v & Hv & Hok & _). exists v.
  destruct (taken_bounds v Hok) as [Hc Hts]. eexists. split; [done|]. split; [done|].
  split; [by apply take_node_ok|]. split; [done|]. split; [apply counted_tree; eauto; lia|].
  intros y Hy _. destruct (decide (y = x)) as [->|Hne].
  - exists (taken v), l. cbn [counted nodes set_nodes]. rewrite lookup_insert_eq. split; [done|]. split; [done|]. left. lia.
  - destruct (Hu y Hy) as (yv & ly & H1 & H2 & H3); [congruence|]. exists yv, ly. cbn [counted nodes set_nodes].
    by rewrite lookup_insert_ne.
Qed.

(** What n_release does to the counters *)
Lemma decrement_ok s x v :
  nodes s !! x = Some v →
  vfs_decrement_count s x = Some (counted s x v (count (decremented v)) (tree_state (decremented v)), count (decremented v)).
Proof. intros Hv. unfold vfs_decrement_count. rewrite Hv. cbn [mbind option_bind]. by rewrite (update_ok _ _ v). Qed.

Lemma decremented_bounds v :
  node_ok v → -1 ≤ count (decremented v) ≤ INT_MAX ∧ 0 ≤ tree_state (decremented v) ≤ UINT_MAX.
Proof.
  intros [_ Ht Hc _]. unfold decremented. cbn [count tree_state set_count]. rewrite Z.geb_leb, Z.gtb_ltb.
  destruct (Z.leb_spec 0 (count v)), (Z.ltb_spec 0 (tree_state v));
    match goal with |- context [?a <? -1] => destruct (Z.ltb_spec a (-1)) end; unfold INT_MAX, UINT_MAX in *; lia.
Qed.

(** A node that is neither at the end of its counters gets its old ones back. *)
Lemma decremented_taken v :
  node_ok v → count v < INT_MAX → tree_state v < UINT_MAX → decremented (taken v) = v.
Proof.
  intros [_ Ht Hc _] H1 H2. unfold decremented, taken. cbn [count tree_state set_count]. rewrite Z.geb_leb, Z.gtb_ltb.
  destruct v as [c ty md t0 t1 t2 m t ms o r st n]. cbn in *.
  rewrite (proj2 (Z.ltb_lt c INT_MAX)), (proj2 (Z.ltb_lt t UINT_MAX)) by lia. unfold set_count; cbn. f_equal.
  - destruct (Z.leb_spec 0 c); cbn [andb].
    + rewrite (proj2 (Z.leb_le 0 (c + 1))) by lia. rewrite (proj2 (Z.ltb_ge (c + 1 - 1) (-1))) by lia. lia.
    + rewrite (proj2 (Z.leb_gt 0 c)) by lia. by rewrite (proj2 (Z.ltb_ge c (-1))) by lia.
  - destruct (Z.eqb_spec t 0) as [->|Hne]; [done|]. rewrite (proj2 (Z.ltb_lt 0 (t + 1))) by lia. lia.
Qed.

(** ** The walk of [vfs_open] along the components *)

Lemma open_loop_ok s0 k0 ty md :
  tree_ok s0 k0 → ∀ l s k o ns, l ≠ [] → grown s0 k0 s k o → named s k o ns → Forall valid_name l →
  ∃ s' r o' x, open_loop s o l ty md = Some (s', r, o', x) ∧
    ((r ≠ DE_SUCCESS ∧ x = None ∧ ∃ k', grown s0 k0 s' k' o') ∨
     (r = DE_SUCCESS ∧ ∃ a s1 k1 v, x = Some a ∧ grown s0 k0 s1 k1 a ∧ named s1 k1 a (ns ++ l) ∧
        nodes s1 !! a = Some v ∧ node_ok v ∧ s' = counted s1 a v (count (taken v)) (tree_state (taken v)))).
Proof.
  intros Ht0. induction l as [|n l IH]; intros s k o ns Hne Hg Hns Hl; [done|]. clear Hne.
  apply list.Forall_cons in Hl as [Hn Hl]. destruct (grown_tree _ _ _ _ _ Ht0 Hg) as [Ht [lo Ho]].
  destruct (find_node_ok s k o lo n Ht Ho) as (found & Hf & Hfound). cbn [open_loop]. rewrite Hf. cbn [mbind option_bind].
  assert (Htake : ∀ s1 k1 a, grown s0 k0 s1 k1 a → named s1 k1 a (ns ++ [n]) →
    ∃ v, nodes s1 !! a = Some v ∧ node_ok v ∧ take_node s1 a = Some (counted s1 a v (count (taken v)) (tree_state (taken v)))).
  { intros s1 k1 a Hg1 _. destruct (grown_tree _ _ _ _ _ Ht0 Hg1) as [Ht1 [la Ha]].
    destruct (t_node _ _ Ht1 a la Ha) as (v & Hv & Hok & _). exists v. split; [done|]. split; [done|]. by apply take_node_ok. }
  destruct found as [c|].
  - destruct Hfound as (Hc & v & Hv & <-). destruct (grown_leaf _ _ _ _ _ _ _ Hg Ho Hc) as [-> Ha].
    assert (Hgc : grown s0 k0 s k0 c). { apply grown_none; [done|]. by destruct (t_child _ _ Ht _ _ _ Ho Hc). }
    assert (Hnc : named s k0 c (ns ++ [name v])) by by apply (named_child _ _ o lo).
    destruct (decide (l = [])) as [->|Hne].
    + rewrite bool_decide_eq_true_2 by done. rewrite Hv. cbn [mbind option_bind]. destruct (busy md v).
      { eexists _, _, _, _. split; [done|]. left. split; [done|]. split; [done|]. by exists k0. }
      destruct (Htake s k0 c Hgc Hnc) as (v' & Hv' & Hok & ->). cbn [mbind option_bind]. eexists _, _, _, _.
      split; [done|]. right. split; [done|]. by exists c, s, k0, v'.
    + rewrite bool_decide_eq_false_2 by done. destruct (IH s k0 c _ Hne Hgc Hnc Hl) as (s' & r & o' & x & Hr & Q).
      exists s', r, o', x. rewrite <- app_assoc in Q. done.
  - set (md' := if bool_decide (l = []) then (ty, md) else (0, 0)).
    assert (Eo : (if bool_decide (l = []) then open_node s o n ty md else open_node s o n 0 0)
                 = open_node s o n (fst md') (snd md')) by (unfold md'; by destruct (bool_decide _)).
    rewrite Eo. destruct (open_node_ok s k o n (fst md') (snd md') Ht) as (s1 & r & x & Hop & Ha & _). rewrite Hop.
    cbn [mbind option_bind]. destruct (decide (r ≠ DE_SUCCESS)) as [Hr|Hr].
    { eexists _, _, _, _. split; [done|]. left. split; [done|]. split; [done|]. exists k. by eapply grown_agree. }
    destruct (decide (r = DE_SUCCESS)) as [->|]; [clear Hr|done].
    destruct (grow_ok s0 k0 s k o lo n ns _ _ s1 x Ht0 Hg Hns Ho Hn Hfound Hop) as (a & s2 & k2 & -> & He & Hg2 & Hn2).
    cbn [mbind option_bind]. rewrite He. cbn [mbind option_bind]. destruct (decide (l = [])) as [->|Hne].
    + rewrite bool_decide_eq_true_2 by done. destruct (Htake s2 k2 a Hg2 Hn2) as (v' & Hv' & Hok & ->). cbn [mbind option_bind].
      eexists _, _, _, _. split; [done|]. right. split; [done|]. by exists a, s2, k2, v'.
    + rewrite bool_decide_eq_false_2 by done. destruct (IH s2 k2 a _ Hne Hg2 Hn2 Hl) as (s' & r & o' & x & Hr & Q).
      exists s', r, o', x. rewrite <- app_assoc in Q. done.
Qed.

(** ** Release *)

(** Every node that is in the tree can count one opener more. *)
Definition room s k : Prop :=
  ∀ x v, is_Some (k !! x) → nodes s !! x = Some v → count v < INT_MAX ∧ tree_state v < UINT_MAX.

Lemma entered_counted s k o x n s' v c t :
  entered s k o x n s' → k !! x = None → nodes s' !! x = Some v → t = 0 → entered s k o x n (counted s' x v c t).
Proof.
  intros [R N (ov & xv & H1 & H2 & H3 & Q) Hsz] Hx Hv ->. rewrite Hv in H3. injection H3 as <-.
  destruct (decide (o = x)) as [->|Hox].
  { exfalso. rewrite Hv in H2. injection H2 as H2. destruct Q as (_ & _ & E2 & _). by rewrite H2 in E2. }
  split; [done| | |done].
  - intros y Hy Hne. cbn. rewrite lookup_insert_ne by (intros ->; rewrite Hx in Hy; by destruct Hy). by apply N.
  - exists ov, (set_count v c 0). cbn. rewrite lookup_insert_ne, lookup_insert_eq by done.
    destruct Q as (? & ? & ? & _ & ? & ?). done.
Qed.

Lemma counted_agree s s' k x v c t v' c' t' :
  agree k (counted s x v c t) s' → is_Some (k !! x) → nodes s !! x = Some v → v' = set_count v c t →
  nodes s' !! x = Some v' ∧ agree k (counted s x v c' t') (counted s' x v' c' t').
Proof.
  intros [R N Hsz] Hx Hv ->. assert (Hv' : nodes s' !! x = Some (set_count v c t)).
  { rewrite N by done. cbn. by rewrite lookup_insert_eq. }
  split; [done|]. split; [done| |].
  - intros y Hy. cbn. destruct (decide (y = x)) as [->|Hne]; [by rewrite !lookup_insert_eq|].
    rewrite !lookup_insert_ne by done. rewrite N by done. cbn. by rewrite lookup_insert_ne.
  - intros Hlt. rewrite (counted_size s') by done. rewrite counted_size in Hlt, Hsz by done. auto.
Qed.

Lemma counted_same s x v : nodes s !! x = Some v → counted s x v (count v) (tree_state v) = s.
Proof.
  intros Hv. unfold counted, set_nodes. rewrite insert_id; [by destruct s|]. rewrite Hv. by destruct v.
Qed.

(** A release after an opening, whatever the driver does in between, gives the tree
    that was there before. *)
Lemma take_release s0 k0 s1 k1 a v s3 :
  tree_ok s0 k0 → used_but None s0 k0 → room s0 k0 → grown s0 k0 s1 k1 a → nodes s1 !! a = Some v →
  agree k1 (counted s1 a v (count (taken v)) (tree_state (taken v))) s3 →
  ∃ s4, release s3 a = Some s4 ∧ agree k0 s0 s4.
Proof.
  intros Ht Hu Hroom Hg Hv Ha. destruct (grown_tree _ _ _ _ _ Ht Hg) as [Ht1 [l Hl]].
  destruct (t_node _ _ Ht1 a l Hl) as (v' & Hv' & Hok & _). rewrite Hv in Hv'. injection Hv' as <-.
  destruct (counted_agree s1 s3 k1 a v _ _ (taken v) (count (decremented (taken v))) (tree_state (decremented (taken v))) Ha)
    as [Hv3 Ha3]; [eauto|done|done|].
  unfold release. rewrite Hv3. cbn [mbind option_bind]. change (n_release_ptr (taken v)) with (n_release_ptr v).
  rewrite (no_release_ptr _ Hok). unfold n_release. rewrite (decrement_ok _ _ _ Hv3). cbn [mbind option_bind].
  set (d := decremented (taken v)) in *. set (s4 := counted s3 a (taken v) _ _) in *.
  assert (Hv4 : nodes s4 !! a = Some d) by (unfold s4; cbn; by rewrite lookup_insert_eq).
  rewrite Hv4. cbn [mbind option_bind].
  change (mount_state d) with (mount_state v). change (tree2 d) with (tree2 v). change (tree0 d) with (tree0 v).
  destruct Hg as [s1 a Ha1 Hka|s1 k1 p s2 s1' x lp n Hg Ha1 Hp Hx He Ht'].
  - destruct (Hroom a v) as [Hc Hts]; [done|by rewrite <- (ag_nodes _ _ _ Ha1)|].
    assert (Ed : d = v) by by apply decremented_taken. rewrite Ed, counted_same in Ha3 by done.
    assert (Ha4 : agree k0 s0 s4) by by eapply agree_trans. rewrite Ed in Hv4 |- *.
    destruct (Z.eqb_spec (mount_state v) 0) as [Hms|Hms]; cbn [negb]; [|by exists s4].
    pose proof (tree_agree _ _ _ Ht Ha4) as Ht4. pose proof (used_agree _ _ _ _ Hu Ha4) as Hu4.
    assert (Hnd : (tree_state v =? 0) && bool_decide (tree2 v = None) = false).
    { destruct (Hu4 a Hka) as (v' & l' & H1 & H2 & H3); [done|]. rewrite Hv4 in H1. injection H1 as <-.
      destruct (Z.eqb_spec (tree_state v) 0); [|done]. destruct (t_node _ _ Ht4 a l' H2) as (v' & H1 & _ & Hs & _).
      rewrite Hv4 in H1. injection H1 as <-. destruct l' as [|c l']; [by destruct H3 as [|[]]|]. by destruct Hs as [-> _]. }
    rewrite Hnd. cbn [mbind option_bind].
    assert (Hroot : a ≠ root_node s4).
    { intros Er. destruct (t_root _ _ Ht4) as (lr & rv & _ & Hrv & _ & Hm). rewrite <- Er in Hrv. congruence. }
    destruct (has_owner s4 k0 a v Ht4 Hka Hroot Hv4) as (o & l1 & l2 & -> & Ho).
    apply (grown_prune_ok s0 k0 s4 k0); [done|done|]. apply grown_none; eauto.
  - destruct (en_new _ _ _ _ _ _ He) as (ov & v' & _ & _ & Hv' & E0 & _ & E2 & Hts & Hms & _).
    rewrite Hv in Hv'. injection Hv' as <-.
    assert (Hd0 : tree_state d = 0) by (unfold d, decremented, taken; cbn; by rewrite Hts).
    destruct (decremented_bounds (taken v)) as [Hdc _]; [by apply taken_ok|].
    assert (Hent : entered s2 k1 p x n s4).
    { eapply entered_agree; [|eauto|exact Ha3]. apply entered_counted; [done|done|done|]. exact Hd0. }
    assert (Ht4 : tree_ok s4 (<[p := x :: lp]> (<[x := []]> k1))).
    { eapply tree_agree; [|exact Ha3]. apply counted_tree; [done|eauto|done|done|]. rewrite Hd0. unfold UINT_MAX; lia. }
    destruct (entered_drop _ _ _ _ _ _ _ Hent Ht4 Hp Hx) as (v4 & s5 & _ & _ & _ & _ & _ & _ & Hd & Ha5).
    rewrite Hms, Hd0, E2, E0. cbn [Z.eqb negb]. rewrite bool_decide_eq_true_2 by done. cbn [andb]. rewrite Hd.
    cbn [mbind option_bind]. apply (grown_prune_ok s0 k0 s5 k1); [done|done|].
    eapply grown_agree; [done|exact Hg|]. by eapply agree_trans.
Qed.

(** A release in general. *)
Lemma release_ok s k x :
  tree_ok s k → used_but None s k → is_Some (k !! x) →
  ∃ v s' k', nodes s !! x = Some v ∧ release s x = Some s' ∧ tree_ok s' k' ∧ used_but None s' k' ∧
    keeps (counted s x v (count (decremented v)) (tree_state (decremented v))) k s' k'.
Proof.
  intros Ht Hu [l Hx]. destruct (t_node _ _ Ht x l Hx) as (v & Hv & Hok & _).
  destruct (decremented_bounds v Hok) as [Hc Hts]. set (d := decremented v) in *.
  assert (Ht1 : tree_ok (counted s x v (count d) (tree_state d)) k) by (apply counted_tree; eauto).
  unfold release. rewrite Hv. cbn [mbind option_bind]. rewrite (no_release_ptr _ Hok). unfold n_release.
  rewrite (decrement_ok _ _ _ Hv). cbn [mbind option_bind]. set (s1 := counted s x v _ _) in *.
  assert (Hv1 : nodes s1 !! x = Some d) by (unfold s1; cbn; by rewrite lookup_insert_eq).
  assert (Hu1 : used_but (Some x) s1 k).
  { intros y Hy Hne. destruct (Hu y Hy) as (yv & ly & H1 & H2 & H3); [done|]. exists yv, ly.
    unfold s1; cbn. by rewrite lookup_insert_ne by congruence. }
  exists v. fold d. rewrite Hv1. cbn [mbind option_bind]. change (mount_state d) with (mount_state v).
  change (tree0 d) with (tree0 v).
  destruct (Z.eqb_spec (mount_state v) 0) as [Hms|Hms]; cbn [negb].
  2:{ exists s1, k. split; [done|]. split; [done|]. split; [done|]. split; [|by apply keeps_self].
      intros y Hy _. destruct (decide (y = x)) as [->|]; [|apply Hu1; congruence]. exists d, l. auto. }
  assert (Hroot : x ≠ root_node s1).
  { intros Er. destruct (t_root _ _ Ht1) as (lr & rv & _ & Hrv & _ & Hm). rewrite <- Er, Hv1 in Hrv. by injection Hrv as <-. }
  destruct (t_node _ _ Ht1 x l Hx) as (v' & Hv' & _ & Hs & _). rewrite Hv1 in Hv'. injection Hv' as <-.
  destruct ((tree_state d =? 0) && bool_decide (tree2 d = None)) eqn:Eb.
  - apply andb_true_iff in Eb as [E1%Z.eqb_eq E2%bool_decide_eq_true].
    assert (l = []) as -> by (destruct l as [|c l]; [done|destruct Hs as [E3 _]; congruence]).
    destruct (drop_ok s1 k x d) as (s2 & k2 & o & -> & E0 & Ht2 & Hu2 & Ho & Hkp & _); try done.
    cbn [mbind option_bind]. change (tree0 d) with (tree0 v) in E0. rewrite E0.
    destruct (prune_ok s2 k2 o Ht2 Hu2 Ho) as (s3 & k3 & -> & Ht3 & Hu3 & Hkp3). exists s3, k3.
    split; [done|]. split; [done|]. split; [done|]. split; [done|]. by eapply keeps_after.
  - destruct (has_owner s1 k x d Ht1 ltac:(eauto) Hroot Hv1) as (o & l1 & l2 & E0 & Ho).
    change (tree0 d) with (tree0 v) in E0. rewrite E0. cbn [mbind option_bind].
    assert (Hu2 : used_but (Some o) s1 k).
    { intros y Hy _. destruct (decide (y = x)) as [->|]; [|apply Hu1; congruence]. exists d, l. split; [done|].
      split; [done|]. apply andb_false_iff in Eb as [E1%Z.eqb_neq|E2%bool_decide_eq_false]; [by left|].
      right; left. intros ->. by cbn in Hs. }
    destruct (prune_ok s1 k o Ht1 Hu2 ltac:(eauto)) as (s3 & k3 & -> & Ht3 & Hu3 & Hkp3). exists s3, k3. done.
Qed.

(** ** The path of a node *)

(** The owners of a node, itself first; [named] from the end. *)
Lemma realpath_depth s k x ns :
  tree_ok s k → named s k x ns → (length ns < size (nodes s))%nat.
Proof.
  intros Ht Hn. destruct (t_depth _ _ Ht) as [d Hd].
  assert (Hch : ∃ c : list nat, length c = S (length ns) ∧ NoDup c ∧ (∀ y, y ∈ c → is_Some (nodes s !! y) ∧ (d y ≤ d x)%nat)).
  { induction Hn as [|o l c v ns Hns IH Ho Hc Hv].
    - exists [root_node s]. split; [done|]. split; [apply list.NoDup_singleton|]. intros y ->%list_elem_of_singleton.
      destruct (t_root _ _ Ht) as (l & v & _ & Hv & _). split; [eauto|lia].
    - destruct IH as (ch & Hlen & Hnd & Hin). pose proof (Hd _ _ _ Ho Hc) as Hdc. exists (c :: ch).
      split; [rewrite length_app; cbn; lia|]. split.
      + apply list.NoDup_cons. split; [|done]. intros Hcc. destruct (Hin c Hcc). lia.
      + intros y [->|Hy]%elem_of_cons; [eauto|]. destruct (Hin y Hy). split; [done|lia]. }
  destruct Hch as (c & Hlen & Hnd & Hin).
  rewrite <- (size_dom (D := gset nat)). assert (length c ≤ size (dom (nodes s)))%nat; [|lia].
  rewrite <- (size_list_to_set (C := gset nat)) by done. apply subseteq_size.
  intros y Hy%elem_of_list_to_set. apply elem_of_dom. by apply Hin.
Qed.

Lemma depth_loop_ok s k x ns fuel m :
  tree_ok s k → named s k x ns → (length ns < fuel)%nat →
  while fuel (vfs_realpath_turn (nodes s)) (x, m) = Some (m + length ns)%nat.
Proof.
  intros Ht Hn. revert fuel m. induction Hn as [|o l c v ns Hns IH Ho Hc Hv]; intros fuel m Hf;
    (destruct fuel as [|fuel]; [lia|]); cbn [while vfs_realpath_turn].
  - destruct (t_root _ _ Ht) as (l & v & _ & Hv & E0 & _). rewrite Hv. cbn [mbind option_bind].
    rewrite E0. cbn [length]. by rewrite Nat.add_0_r.
  - destruct (t_child _ _ Ht _ _ _ Ho Hc) as (_ & v' & Hv' & E0 & _). rewrite Hv'. cbn [mbind option_bind]. rewrite E0.
    cbn [mbind option_bind]. rewrite length_app in Hf |- *. cbn [length] in Hf |- *. rewrite IH by lia. f_equal. lia.
Qed.

(** [i] components are above the node at the end. *)
Lemma ancestor_ok s k x ns ns' :
  tree_ok s k → named s k x (ns ++ ns') → ∃ y, ancestor (nodes s) (length ns') x = Some y ∧ named s k y ns.
Proof.
  intros Ht. revert x. induction ns' as [|n ns' IH] using rev_ind; intros x Hn.
  - rewrite app_nil_r in Hn. by exists x.
  - rewrite app_assoc in Hn. inversion Hn as [Ex En|o l c v ns0 Hns Ho Hc Hv Ec En]; [by destruct (ns ++ ns')|].
    apply app_inj_tail in En as [-> En]. rewrite length_app. cbn [length]. rewrite Nat.add_1_r. cbn [ancestor].
    destruct (t_child _ _ Ht _ _ _ Ho Hc) as (_ & v' & Hv' & E0 & _). rewrite Hv'. cbn [mbind option_bind]. rewrite E0.
    cbn [mbind option_bind]. by apply IH.
Qed.

Lemma render_app l1 l2 : render (l1 ++ l2) = render l1 ++ render l2.
Proof. unfold render. by rewrite fmap_app, join_app. Qed.

Lemma realpath_loop_ok s k x ns ns' limit :
  tree_ok s k → named s k x (ns ++ ns') → (Z.of_nat (length (render ns)) < limit) →
  realpath_loop (nodes s) x (length ns') limit (render ns)
  = Some (if decide (Z.of_nat (length (render (ns ++ ns'))) < limit) then inr (render (ns ++ ns')) else inl DE_OVERFLOW).
Proof.
  intros Ht. revert ns. induction ns' as [|n ns' IH]; intros ns Hn Hlim.
  - rewrite app_nil_r in *. cbn. by rewrite decide_True.
  - cbn [length realpath_loop]. replace (ns ++ n :: ns') with ((ns ++ [n]) ++ ns') in * by by rewrite <- app_assoc.
    destruct (ancestor_ok s k x (ns ++ [n]) ns' Ht Hn) as (y & -> & Hy). cbn [mbind option_bind].
    pose proof (named_valid _ _ _ _ Ht Hy) as Hval. apply Forall_app in Hval as [_ Hval]. apply Forall_inv in Hval as [Hd _].
    inversion Hy as [Ex En|o l c v ns0 Hns Ho Hc Hv Ec En]; [by destruct ns|].
    apply app_inj_tail in En as [-> En]. rewrite Hv. cbn [mbind option_bind]. rewrite En.
    rewrite decide_False by (intros ->; apply Hd; by left).
    assert (Er : render (ns ++ [n]) = render ns ++ slash :: n).
    { rewrite render_app. unfold render at 2. cbn. by rewrite app_nil_r. }
    rewrite Z.geb_leb. destruct (Z.leb_spec limit (Z.of_nat (length (render ns) + S (length n)))) as [Hov|Hfit].
    + rewrite decide_False; [done|]. rewrite render_app, Er, !length_app. cbn [length]. lia.
    + rewrite <- Er. rewrite IH; [done|done|]. rewrite Er, length_app. cbn [length]. lia.
Qed.

(** What [vfs_realpath] promises: the path of the node, when it fits. *)
Lemma realpath_ok s k x ns limit :
  tree_ok s k → named s k x ns → 2 ≤ limit →
  vfs_realpath s (Some x) limit
  = Some (if decide (Z.of_nat (length (wd_text ns)) < limit) then inr (wd_text ns) else inl DE_OVERFLOW).
Proof.
  intros Ht Hn Hlim. unfold vfs_realpath. rewrite (proj2 (Z.ltb_ge limit 2)) by lia.
  pose proof (realpath_depth _ _ _ _ Ht Hn). rewrite (depth_loop_ok s k x ns) by (done || lia). cbn [mbind option_bind].
  cbn [Nat.add]. unfold wd_text. destruct (decide (ns = [])) as [->|Hne].
  - rewrite decide_True by done. assert (x = root_node s) as -> by (eapply named_inj; [done|done|constructor]).
    rewrite decide_False by (intros []; done). by rewrite decide_True by (cbn; lia).
  - rewrite decide_False by by destruct ns. change (@nil Z) with (render []). rewrite <- (app_nil_l ns).
    apply (realpath_loop_ok s k x []); [done|done|cbn; lia].
Qed.
End Operations.
