(* ===== verification/VfsOps.v ===== *)
(** The operations of the virtual file system on its tree: opening, removing,
    releasing and mounting against the paths of the nodes. *)

From stdpp Require Import gmap.
From S2P Require Import Prelude Errors VfsPath Vfs VfsTree VfsWalk VfsCount.

Section Operations.
Context {E : Type} `{HDO : VfsDriverOk E}.
Implicit Types (s : vfs E) (k : kids).

(** ** Path names against the tree *)

(** [w] is what the working directory [wd] of a task stands for: the components of
    its path, or the error of a path that is too long. *)
Definition working_dir s k (wd : option nat) (w : de_error + list (list Z)) : Prop :=
  match wd with
  | None => w = inr []
  | Some x => ∃ ns, named s k x ns ∧
      w = if decide (Z.of_nat (length (wd_text ns)) < VFS_PATH_BUFFER - 16) then inr ns else inl DE_OVERFLOW
  end.

(** The components that a path name stands for. *)
Lemma path_name_ok s k wd w path :
  tree_ok s k → working_dir s k wd w → Forall (λ b, b ≠ 0) path →
  build_vname (path ++ [0]) (vfs_realpath s wd (VFS_PATH_BUFFER - 16)) = Some (path_answer path w) ∧
  ∀ v, path_answer path w = inr v → Forall valid_name (components v).
Proof.
  intros Ht Hw Hp.
  assert (Hval : ∀ ns, w = inr ns → Forall valid_name ns).
  { intros ns ->. destruct wd as [x|]; cbn in Hw; [|injection Hw as ->; apply Forall_nil_2].
    destruct Hw as (ns' & Hn & Hw). destruct (decide _); [|done]. injection Hw as ->. by eapply named_valid. }
  assert (Hcall : ∃ t, vfs_realpath s wd (VFS_PATH_BUFFER - 16) = Some t ∧
    match w with inl r => t = inl r | inr ns => Forall valid_name ns ∧ (t = inr (wd_text ns) ∨ ns = [] ∧ t = inr []) end).
  { destruct wd as [x|]; cbn in Hw.
    - destruct Hw as (ns & Hn & Hw). rewrite (realpath_ok s k x ns) by (done || (unfold VFS_PATH_BUFFER; lia)).
      eexists. split; [done|]. destruct (decide _); subst w; [|done]. split; [by apply Hval|by left].
    - subst w. exists (inr []). split; [done|]. split; [apply Forall_nil_2|by right]. }
  destruct Hcall as (t & -> & Ht'). split; [by apply build_vname_ok|]. intros v Hv. destruct w as [r|ns]; cbn in Hv.
  - destruct (decide _); [|done]. eapply path_spec_valid; [done|apply Forall_nil_2|done].
  - eapply path_spec_valid; [done|by apply Hval|done].
Qed.

(** Errors are not success. *)
Lemma path_answer_err path w r :
  (∀ e, w = inl e → e ≠ DE_SUCCESS) → path_answer path w = inl r → r ≠ DE_SUCCESS.
Proof.
  assert (Hs : ∀ ns r, path_spec path ns = inl r → r = DE_PATH).
  { intros ns r'. unfold path_spec. repeat (destruct (decide _); [by intros [= <-]|]). destruct (enter_parts _ _); by intros [= <-]. }
  intros Hw. destruct w as [e|ns]; cbn; [|by intros ->%Hs]. destruct (decide _); [by intros ->%Hs|].
  intros [= <-]. by apply Hw.
Qed.

Lemma open_checks_err v ty md r : open_checks v ty md = inl r → r ≠ DE_SUCCESS.
Proof. unfold open_checks. repeat (destruct (_ && _); [by intros [= <-]|]). done. Qed.

Lemma working_dir_err s k wd w : working_dir s k wd w → ∀ e, w = inl e → e ≠ DE_SUCCESS.
Proof.
  destruct wd as [x|]; cbn; [|congruence]. intros (ns & _ & Hw) e ->. destruct (decide _); [done|by injection Hw as ->].
Qed.

(** ** Opening *)

(** [a] was just opened from the tree of [s0], and the driver may have been called
    since. *)
Definition opened s0 (k0 : kids) s (a : nat) (ns : list (list Z)) : Prop :=
  ∃ s1 k1 v, grown s0 k0 s1 k1 a ∧ nodes s1 !! a = Some v ∧ named s1 k1 a ns ∧
    agree k1 (counted s1 a v (count (taken v)) (tree_state (taken v))) s.

Lemma opened_release s0 k0 s a ns :
  tree_ok s0 k0 → used_but None s0 k0 → room s0 k0 → opened s0 k0 s a ns →
  ∃ s4, release s a = Some s4 ∧ agree k0 s0 s4.
Proof. intros Ht Hu Hr (s1 & k1 & v & Hg & Hv & _ & Ha). by eapply take_release. Qed.

(** One opener more and one less, where the counters are not at an end: a count
    below zero stays as it is. *)
Definition opener_more (v : vfs_node) : vfs_node :=
  set_count v (if 0 <=? count v then count v + 1 else count v) (tree_state v + 1).
Definition opener_less (v : vfs_node) : vfs_node :=
  set_count v (if 0 <=? count v then count v - 1 else count v) (Z.max 0 (tree_state v - 1)).

Lemma taken_more v :
  node_ok v → count v < INT_MAX → tree_state v < UINT_MAX → taken v = opener_more v.
Proof.
  intros [_ Ht _ _] H1 H2. unfold taken, opener_more.
  rewrite (proj2 (Z.ltb_lt (count v) INT_MAX)), (proj2 (Z.ltb_lt (tree_state v) UINT_MAX)), andb_true_r by done.
  f_equal. destruct (Z.eqb_spec (tree_state v) 0); lia.
Qed.

Lemma decremented_less v : node_ok v → decremented v = opener_less v.
Proof.
  intros [_ Ht Hc _]. unfold decremented, opener_less. rewrite Z.geb_leb, Z.gtb_ltb. f_equal.
  - destruct (Z.leb_spec 0 (count v)); match goal with |- context [?a <? -1] => destruct (Z.ltb_spec a (-1)) end; lia.
  - destruct (Z.ltb_spec 0 (tree_state v)); lia.
Qed.

(** The nodes that the walk added have no opener. *)
Lemma grown_new s0 k0 s k o y :
  grown s0 k0 s k o → is_Some (k !! y) → k0 !! y = None →
  ∃ v, nodes s !! y = Some v ∧ tree_state v = 0.
Proof.
  induction 1 as [s o Ha Ho|s1 k1 p s2 s x l n Hg IH Ha Hp Hx He Ht']; intros Hy H0.
  { rewrite H0 in Hy. by destruct Hy. }
  destruct He as [_ Hn (ov & xv & Hov & Ho' & Hxv & _ & _ & _ & Hts & _) _].
  destruct (decide (y = x)) as [->|Hyx]; [by exists xv|].
  assert (Hk1 : is_Some (k1 !! y)).
  { destruct (decide (y = p)) as [->|]; [eauto|]. by rewrite !lookup_insert_ne in Hy by done. }
  destruct (IH Hk1 H0) as (v & Hv & Hvs). rewrite <- (ag_nodes _ _ _ Ha) in Hv by done.
  destruct (decide (y = p)) as [->|Hyp].
  - rewrite Hov in Hv. injection Hv as ->. by eexists.
  - exists v. by rewrite Hn.
Qed.

(** What an opening does to the counters: [a] has an opener more, the nodes of
    the old tree [k0] keep theirs, and new ones have none but [a] its first. *)
Definition opener_counts s0 (k0 : kids) s (k : kids) (a : nat) : Prop :=
  (∀ y yv, is_Some (k0 !! y) → nodes s0 !! y = Some yv →
     ∃ yv', nodes s !! y = Some yv' ∧ relinked (if decide (y = a) then opener_more yv else yv) yv') ∧
  (∀ y, is_Some (k !! y) → k0 !! y = None →
     ∃ yv', nodes s !! y = Some yv' ∧ tree_state yv' = if decide (y = a) then 1 else 0).

Lemma opened_counts s0 k0 s1 k1 a v s :
  tree_ok s0 k0 → room s0 k0 → grown s0 k0 s1 k1 a → nodes s1 !! a = Some v →
  agree k1 (counted s1 a v (count (taken v)) (tree_state (taken v))) s → opener_counts s0 k0 s k1 a.
Proof.
  intros Ht Hr Hg Hv Ha. destruct (grown_tree _ _ _ _ _ Ht Hg) as [Ht1 Hka].
  assert (Hlook : ∀ y yv, is_Some (k1 !! y) → nodes s1 !! y = Some yv →
    nodes s !! y = Some (if decide (y = a) then taken v else yv)).
  { intros y yv Hy Hyv. rewrite (ag_nodes _ _ _ Ha) by done. cbn [counted nodes set_nodes].
    destruct (decide (y = a)) as [->|]; [by rewrite lookup_insert_eq|by rewrite lookup_insert_ne]. }
  split.
  - intros y yv [l Hy] Hyv. destruct (grown_old s0 k0 s1 k1 a y l Hg Hy) as [(l' & Hl' & _) Hold].
    destruct (Hold yv Hyv) as (yv' & Hyv' & Hrel & _). eexists. split; [by apply Hlook; [eauto|]|].
    destruct (decide (y = a)) as [->|]; [|done]. rewrite Hv in Hyv'. injection Hyv' as <-.
    destruct Hrel as (t1 & t2 & ->). destruct (t_node _ _ Ht1 a l' Hl') as (v' & Hv' & Hok & _).
    rewrite Hv in Hv'. injection Hv' as <-. destruct (Hr a yv ltac:(eauto) Hyv).
    rewrite taken_more by done. by exists t1, t2.
  - intros y Hy H0. destruct (grown_new s0 k0 s1 k1 a y Hg Hy H0) as (yv & Hyv & Hts).
    eexists. split; [by apply Hlook|]. destruct (decide (y = a)) as [->|]; [|done].
    rewrite Hv in Hyv. injection Hyv as ->. unfold taken. cbn [tree_state set_count]. by rewrite Hts.
Qed.

Lemma opened_tree s0 k0 s a ns :
  tree_ok s0 k0 → used_but None s0 k0 → room s0 k0 → opened s0 k0 s a ns →
  ∃ k v, tree_ok s k ∧ used_but None s k ∧ named s k a ns ∧ nodes s !! a = Some v ∧ 0 < tree_state v ∧
    (∀ x ns', named s0 k0 x ns' → named s k x ns') ∧ (∀ s', agree k s s' → opened s0 k0 s' a ns) ∧
    opener_counts s0 k0 s k a.
Proof.
  intros Ht Hu Hr (s1 & k1 & v & Hg & Hv & Hn & Ha). destruct (grown_tree _ _ _ _ _ Ht Hg) as [Ht1 Hk1].
  pose proof (grown_used _ _ _ _ _ Hu Hg) as Hu1.
  destruct (take_tree s1 k1 a Ht1 Hk1 Hu1) as (v' & s2 & Hv' & Hok & _ & -> & Ht2 & Hu2).
  rewrite Hv in Hv'. injection Hv' as <-. exists k1, (taken v).
  split; [by eapply tree_agree|]. split; [by eapply used_agree|].
  split. { eapply agree_named; [exact Ht2|exact Ha|]. by apply counted_named. }
  split. { rewrite (ag_nodes _ _ _ Ha) by done. cbn. by rewrite lookup_insert_eq. }
  split; [apply taken_bounds; done|]. split.
  - intros x ns' Hx. eapply agree_named; [exact Ht2|exact Ha|].
    apply counted_named; [done..|]. by apply (grown_named s0 k0 _ _ a).
  - split; [|by eapply opened_counts]. intros s' Ha'. exists s1, k1, v. do 3 (split; [done|]). by eapply agree_trans.
Qed.

(** The part of [vfs_open] after the walk. *)
Lemma open_finish_ok s0 k0 s a ns ty md :
  tree_ok s0 k0 → used_but None s0 k0 → room s0 k0 → opened s0 k0 s a ns →
  ∃ s' r x, open_finish s DE_SUCCESS (Some a) ty md = Some (s', r, x) ∧
    match x with
    | None => r ≠ DE_SUCCESS ∧ agree k0 s0 s'
    | Some b => r = DE_SUCCESS ∧ b = a ∧ opened s0 k0 s' a ns ∧
        ∃ v, nodes s !! a = Some v ∧ (ty = vfs_type_unknown ∨ type v = ty)
    end.
Proof.
  intros Ht Hu Hr Ho. destruct (opened_tree _ _ _ _ _ Ht Hu Hr Ho) as (k & v & Ht1 & _ & _ & Hv & _ & _ & Hag & _).
  destruct (opened_release _ _ _ _ _ Ht Hu Hr Ho) as (s4 & Hs4 & Ha4).
  unfold open_finish. rewrite Hv. cbn [mbind option_bind]. rewrite Hs4.
  destruct ((ty =? vfs_type_directory) && negb (ty =? type v)) eqn:E1.
  { eexists _, _, _. by split. }
  destruct (negb (ty =? vfs_type_unknown) && negb (ty =? type v)) eqn:E2.
  { eexists _, _, _. by split. }
  assert (Hty : ∃ v0, Some v = Some v0 ∧ (ty = vfs_type_unknown ∨ type v0 = ty)).
  { exists v. split; [done|]. destruct (Z.eqb_spec ty vfs_type_unknown); [by left|]. right.
    by destruct (Z.eqb_spec ty (type v)). }
  destruct (Z.land md vfs_mode_truncate =? 0); cbn [negb].
  { exists s, DE_SUCCESS, (Some a). cbn iota. by split_and!. }
  destruct (drv_truncate _ _ _) as [[e h] r] eqn:Hdrv.
  destruct (drv_truncate_ok _ _ _ _ _ _ Hdrv (t_size _ _ Ht1)) as [Hh Hsz].
  assert (Ho' : opened s0 k0 (Vfs e h (root_node s)) a ns) by by apply Hag, driver_agree.
  destruct (decide (r ≠ DE_SUCCESS)) as [Hre|Hre].
  - destruct (opened_release _ _ _ _ _ Ht Hu Hr Ho') as (s5 & -> & Ha5). eexists _, _, _. by split.
  - eexists _, _, (Some a). cbn iota. by split_and!.
Qed.

(** Opening, when the working directory is known. *)
Lemma open_ok s k wd w path ty md :
  tree_ok s k → used_but None s k → room s k → working_dir s k wd w → Forall (λ b, b ≠ 0) path →
  ∃ s' r x, vfs_open s wd (path ++ [0]) ty md = Some (s', r, x) ∧
    match x with
    | None => r ≠ DE_SUCCESS ∧ agree k s s'
    | Some a => r = DE_SUCCESS ∧ ∃ v, path_answer path w = inr v ∧ opened s k s' a (components v)
    end.
Proof.
  intros Ht Hu Hr Hw Hp. destruct (path_name_ok s k wd w path Ht Hw Hp) as [Hb Hval].
  unfold vfs_open. rewrite Hb. cbn [mbind option_bind]. destruct (path_answer path w) as [r|v] eqn:Ea.
  { assert (Hre : r ≠ DE_SUCCESS).
    { eapply path_answer_err; [by eapply working_dir_err|done]. }
    exists s, r, None. split; [done|]. split; [done|apply agree_refl]. }
  specialize (Hval v eq_refl). destruct (open_checks v ty md) as [r|ty'] eqn:Ec.
  { exists s, r, None. split; [done|]. split; [|apply agree_refl]. by apply open_checks_err in Ec. }
  destruct (t_root _ _ Ht) as (lr & rv & Hlr & _).
  destruct (components v) as [|n l] eqn:Ecs.
  - destruct (negb (ty' =? vfs_type_unknown) && negb (ty' =? vfs_type_directory)).
    { exists s, DE_TYPE, None. split; [done|]. split; [done|apply agree_refl]. }
    assert (Hg : grown s k s k (root_node s)) by (apply grown_none; [apply agree_refl|eauto]).
    destruct (take_tree s k (root_node s)) as (v0 & s1 & Hv0 & Hok & -> & -> & _); [done|eauto| |].
    { intros y Hy _. by apply Hu. }
    cbn [mbind option_bind]. eexists _, _, (Some (root_node s)). split; [done|]. split; [done|]. exists v.
    split; [done|]. rewrite Ecs. exists s, k, v0. split; [done|]. split; [done|]. split; [constructor|apply agree_refl].
  - assert (Hg : grown s k s k (root_node s)) by (apply grown_none; [apply agree_refl|eauto]).
    destruct (open_loop_ok s k ty' md Ht (n :: l) s k (root_node s) [] ltac:(done) Hg (named_root _ _) Hval)
      as (s1 & r & o' & x & -> & [(Hre & -> & k' & Hg')|(-> & a & s2 & k1 & v1 & -> & Hg' & Hn & Hv1 & Hok & ->)]);
      cbn [mbind option_bind].
    + rewrite decide_True by done. destruct (grown_prune_ok s k s1 k' o' Ht Hu Hg') as (s2 & -> & Ha2).
      cbn [mbind option_bind]. exists s2, r, None. unfold open_finish. rewrite decide_True by done. by split.
    + rewrite (decide_False (P := DE_SUCCESS ≠ DE_SUCCESS)) by (intros []; done). cbn [mbind option_bind].
      set (s1 := counted _ _ _ _ _).
      assert (Ho : opened s k s1 a (n :: l)).
      { exists s2, k1, v1. split; [done|]. split; [done|]. split; [done|apply agree_refl]. }
      destruct (open_finish_ok s k s1 a (n :: l) ty' md Ht Hu Hr Ho) as (s' & r & x & -> & Hx).
      exists s', r, x. split; [done|]. destruct x as [b|]; [|done].
      destruct Hx as (-> & -> & Ho' & _). split; [done|]. exists v. by rewrite Ecs.
Qed.

(** A component that the tree has is found. *)
Lemma find_named s k o x ns n l :
  tree_ok s k → named s k o ns → named s k x (ns ++ n :: l) →
  ∃ c, find_node s o n = Some (Some c) ∧ named s k c (ns ++ [n]).
Proof.
  intros Ht Ho Hx. replace (ns ++ n :: l) with ((ns ++ [n]) ++ l) in Hx by by rewrite <- app_assoc.
  destruct (ancestor_ok s k x (ns ++ [n]) l Ht Hx) as (c & _ & Hc). exists c. split; [|done].
  inversion Hc as [Ec En|o' lo c' v ns' Hns' Ho' Hc' Hv Ec En]; [by destruct ns|]. subst c'.
  apply app_inj_tail in En as [-> En]. assert (o' = o) as -> by by eapply named_inj.
  destruct (find_node_ok s k o lo n Ht Ho') as (r & -> & Hr). destruct r as [c'|].
  - destruct Hr as (Hin & v' & Hv' & En'). do 2 f_equal. apply (t_names _ _ Ht o lo c' c v' v); congruence.
  - destruct (Hr c v); done.
Qed.

(** ** Removing *)

Lemma remove_loop_ok s0 k0 dir :
  tree_ok s0 k0 → ∀ l s k o ns, l ≠ [] → grown s0 k0 s k o → named s k o ns → Forall valid_name l →
  ∃ s' r o' k', remove_loop s o l dir = Some (s', r, o') ∧ grown s0 k0 s' k' o' ∧
    ∀ x, named s k x (ns ++ l) → r = DE_BUSY.
Proof.
  intros Ht0. induction l as [|n l IH]; intros s k o ns Hne Hg Hns Hl; [done|]. clear Hne.
  apply list.Forall_cons in Hl as [Hn Hl]. destruct (grown_tree _ _ _ _ _ Ht0 Hg) as [Ht [lo Ho]].
  destruct (find_node_ok s k o lo n Ht Ho) as (found & Hf & Hfound). cbn [remove_loop].
  assert (Hnot : found = None → ∀ x, ~ named s k x (ns ++ n :: l)).
  { intros -> x Hx. destruct (find_named s k o x ns n l Ht Hns Hx) as (c & Hc & _). congruence. }
  rewrite Hf. cbn [mbind option_bind]. destruct found as [c|].
  - destruct Hfound as (Hc & v & Hv & <-). destruct (decide (l = [])) as [->|Hne].
    + rewrite bool_decide_eq_true_2 by done. exists s, DE_BUSY, o, k. done.
    + rewrite bool_decide_eq_false_2 by done. destruct (grown_leaf _ _ _ _ _ _ _ Hg Ho Hc) as [-> Ha].
      assert (Hgc : grown s0 k0 s k0 c). { apply grown_none; [done|]. by destruct (t_child _ _ Ht _ _ _ Ho Hc). }
      destruct (IH s k0 c (ns ++ [name v]) Hne Hgc) as (s' & r & o' & k' & Hr & Hg' & Hb);
        [by apply (named_child _ _ o lo)|done|]. exists s', r, o', k'. rewrite <- app_assoc in Hb. done.
  - destruct (decide (l = [])) as [->|Hne].
    + rewrite bool_decide_eq_true_2 by done. destruct (drv_remove _ _ _ _ _) as [[e h] r] eqn:Hd.
      destruct (drv_remove_ok _ _ _ _ _ _ _ _ Hd (t_size _ _ Ht)) as [Hh Hsz].
      eexists _, r, o, k. split; [done|]. split; [eapply grown_agree; [done|exact Hg|by apply driver_agree]|].
      intros x Hx. by destruct (Hnot eq_refl x).
    + rewrite bool_decide_eq_false_2 by done.
      destruct (open_node_ok s k o n 0 0 Ht) as (s1 & r & x & Hop & Ha & _). rewrite Hop. cbn [mbind option_bind].
      destruct (decide (r ≠ DE_SUCCESS)) as [Hr|Hr].
      { exists s1, r, o, k. split; [done|]. split; [by eapply grown_agree|]. intros y Hy. by destruct (Hnot eq_refl y). }
      destruct (decide (r = DE_SUCCESS)) as [->|]; [clear Hr|done].
      destruct (grow_ok s0 k0 s k o lo n ns _ _ s1 x Ht0 Hg Hns Ho Hn Hfound Hop) as (a & s2 & k2 & -> & He & Hg2 & Hn2).
      cbn [mbind option_bind]. rewrite He. cbn [mbind option_bind].
      destruct (IH s2 k2 a _ Hne Hg2 Hn2 Hl) as (s' & r & o' & k' & Hr & Hg' & _).
      exists s', r, o', k'. split; [done|]. split; [done|]. intros y Hy. by destruct (Hnot eq_refl y).
Qed.

(** Removing never touches a node in use: [vfs_remove] answers for every
    path, the nodes of the tree are afterwards what they were before, those it
    opened on its way are released, and a path that names a node of the tree is
    refused with DE_BUSY. *)
Theorem vfs_remove_correct s k wd w path dir :
  tree_ok s k → used_but None s k → working_dir s k wd w → Forall (λ b, b ≠ 0) path →
  ∃ s' r, vfs_remove s wd (path ++ [0]) dir = Some (s', r) ∧ agree k s s' ∧
    ∀ v x, path_answer path w = inr v → named s k x (components v) →
      r = DE_BUSY ∨ dir = false ∧ vtype v = vfs_type_directory ∧ r = DE_TYPE.
Proof.
  intros Ht Hu Hw Hp. destruct (path_name_ok s k wd w path Ht Hw Hp) as [Hb Hval].
  unfold vfs_remove. rewrite Hb. cbn [mbind option_bind]. destruct (path_answer path w) as [r|v].
  { exists s, r. split; [done|]. split; [apply agree_refl|done]. }
  specialize (Hval v eq_refl). destruct (negb dir && (vtype v =? vfs_type_directory)) eqn:Ed.
  { exists s, DE_TYPE. split; [done|]. split; [apply agree_refl|]. intros v' x [= <-] _. right.
    apply andb_true_iff in Ed as [Ed%negb_true_iff Et%Z.eqb_eq]. done. }
  destruct (components v) as [|n l] eqn:Ec.
  { exists s, DE_BUSY. split; [done|]. split; [apply agree_refl|]. by left. }
  destruct (t_root _ _ Ht) as (lr & rv & Hlr & _).
  assert (Hg : grown s k s k (root_node s)) by (apply grown_none; [apply agree_refl|eauto]).
  destruct (remove_loop_ok s k dir Ht (n :: l) s k (root_node s) [] ltac:(done) Hg (named_root _ _) Hval)
    as (s1 & r & o' & k' & -> & Hg' & Hbusy). cbn [mbind option_bind].
  destruct (grown_prune_ok s k s1 k' o' Ht Hu Hg') as (s2 & -> & Ha2). cbn [mbind option_bind].
  exists s2, r. split; [done|]. split; [done|]. intros v' x [= <-] Hx. left. apply (Hbusy x). by rewrite <- Ec.
Qed.

(** (C6) Opening: [vfs_open] answers for every path, type and mode.  When it
    fails, every node of the tree is as it was.  When it succeeds, the node it
    answers is in the tree at the path the name stands for, the tree is well
    formed with every node in use, and nothing that was in it has another path.
    The counters: the node that is answered has exactly one opener more than
    before (its first one when it is new), every other node has the openers it
    had, and the new owners on the way to it have none. *)
Theorem vfs_open_correct s k wd w path ty md :
  tree_ok s k → used_but None s k → room s k → working_dir s k wd w → Forall (λ b, b ≠ 0) path →
  ∃ s' r x, vfs_open s wd (path ++ [0]) ty md = Some (s', r, x) ∧
    match x with
    | None => r ≠ DE_SUCCESS ∧ agree k s s'
    | Some a => r = DE_SUCCESS ∧ ∃ v k', path_answer path w = inr v ∧ tree_ok s' k' ∧ used_but None s' k' ∧
        named s' k' a (components v) ∧ (∀ y ns, named s k y ns → named s' k' y ns) ∧
        opener_counts s k s' k' a
    end.
Proof.
  intros Ht Hu Hr Hw Hp. destruct (open_ok s k wd w path ty md Ht Hu Hr Hw Hp) as (s' & r & x & Ho & Hx).
  exists s', r, x. split; [done|]. destruct x as [a|]; [|done]. destruct Hx as (-> & v & Hv & Hop). split; [done|].
  destruct (opened_tree _ _ _ _ _ Ht Hu Hr Hop) as (k' & n & Q1 & Q2 & Q3 & _ & _ & Q6 & _ & Q7). by exists v, k'.
Qed.

(** (C7) Opening and releasing: the release of a node that [vfs_open] has just
    answered never panics and gives the tree that was there before the opening,
    node by node: new nodes are gone and the counters are the old ones. *)
Theorem vfs_open_release s k wd w path ty md s' r a :
  tree_ok s k → used_but None s k → room s k → working_dir s k wd w → Forall (λ b, b ≠ 0) path →
  vfs_open s wd (path ++ [0]) ty md = Some (s', r, Some a) →
  ∃ s2, release s' a = Some s2 ∧ agree k s s2.
Proof.
  intros Ht Hu Hr Hw Hp Ho. destruct (open_ok s k wd w path ty md Ht Hu Hr Hw Hp) as (s1 & r1 & x & Ho' & Hx).
  rewrite Ho in Ho'. injection Ho' as <- <- <-. destruct Hx as (_ & v & _ & Hop). by eapply opened_release.
Qed.

(** (C8) Releasing in any order: [n_release] of a node of a well formed tree
    never panics and takes one opener from that node and nothing from any other.
    A node that has an opener or a mount afterwards keeps its place and path;
    every node that is left is in use, so that the node and its owners are
    dropped exactly as far as they have no opener, no mount and no children. *)
Theorem n_release_correct s k x :
  tree_ok s k → used_but None s k → is_Some (k !! x) →
  ∃ s' k', release s x = Some s' ∧ tree_ok s' k' ∧ used_but None s' k' ∧
    (∀ y, is_Some (k' !! y) → is_Some (k !! y) ∧ ∃ yv yv', nodes s !! y = Some yv ∧ nodes s' !! y = Some yv' ∧
       relinked (if decide (y = x) then opener_less yv else yv) yv') ∧
    (∀ y yv, is_Some (k !! y) → nodes s !! y = Some yv →
       (if decide (y = x) then 1 < tree_state yv else tree_state yv ≠ 0) ∨ mount_state yv ≠ 0 → is_Some (k' !! y)) ∧
    (∀ y ns, is_Some (k' !! y) → named s k y ns ↔ named s' k' y ns).
Proof.
  intros Ht Hu Hx. destruct (release_ok s k x Ht Hu Hx) as (v & s' & k' & Hv & Hrel & Ht' & Hu' & Hkp).
  exists s', k'. do 3 (split; [done|]). destruct Hx as [l Hx].
  destruct (t_node _ _ Ht x l Hx) as (v' & Hv' & Hok & _). rewrite Hv in Hv'. injection Hv' as <-.
  assert (Ht1 : tree_ok (counted s x v (count (decremented v)) (tree_state (decremented v))) k).
  { destruct (decremented_bounds v Hok). apply counted_tree; eauto. }
  assert (Hfwd : ∀ y ns, is_Some (k' !! y) → named s k y ns → named s' k' y ns).
  { intros y ns Hy Hn. eapply keeps_named; [exact Ht1|exact Ht'|exact Hkp| |done]. by apply counted_named. }
  split; [|split].
  - intros y Hy. destruct (kp_old _ _ _ _ Hkp y Hy) as (Hky & yv1 & yv' & Hyv1 & Hyv' & Hr). split; [done|].
    cbn [counted nodes set_nodes] in Hyv1. destruct (decide (y = x)) as [->|Hne].
    + rewrite lookup_insert_eq in Hyv1. injection Hyv1 as <-. exists v, yv'. do 2 (split; [done|]).
      by rewrite <- decremented_less.
    + rewrite lookup_insert_ne in Hyv1 by done. by exists yv1, yv'.
  - intros y yv Hy Hyv Hus. destruct (decide (y = x)) as [->|Hne].
    + rewrite Hv in Hyv. injection Hyv as <-. eapply (kp_in _ _ _ _ Hkp x (decremented v)); [done| |].
      { cbn. by rewrite lookup_insert_eq. }
      destruct Hus as [Hus|]; [left|by right]. unfold decremented. cbn [tree_state set_count].
      rewrite Z.gtb_ltb, (proj2 (Z.ltb_lt 0 _)) by lia. lia.
    + eapply (kp_in _ _ _ _ Hkp y yv); [done| |done]. cbn. by rewrite lookup_insert_ne.
  - intros y ns Hy. split; [by apply Hfwd|]. intros Hn.
    destruct (kp_old _ _ _ _ Hkp y Hy) as (Hky & _). destruct (named_ex s k y Ht Hky) as [ns' Hns'].
    by rewrite (named_fun s' k' y ns ns' Ht' Hn) by by apply Hfwd.
Qed.

(** ** The path of a node, read again *)

Lemma open_loop_named s k x ty :
  tree_ok s k → ∀ l o ns, l ≠ [] → named s k o ns → named s k x (ns ++ l) →
  ∃ v o', nodes s !! x = Some v ∧ node_ok v ∧
    open_loop s o l ty vfs_mode_stat_only
    = Some (counted s x v (count (taken v)) (tree_state (taken v)), DE_SUCCESS, o', Some x).
Proof.
  intros Ht. induction l as [|n l IH]; intros o ns Hne Ho Hx; [done|]. clear Hne. cbn [open_loop].
  destruct (find_named s k o x ns n l Ht Ho Hx) as (c & -> & Hc). cbn [mbind option_bind].
  destruct (decide (l = [])) as [->|Hne].
  - rewrite bool_decide_eq_true_2 by done. assert (c = x) as -> by by eapply named_inj.
    destruct (named_in _ _ _ _ Ht Hx) as [lx Hlx]. destruct (t_node _ _ Ht x lx Hlx) as (v & Hv & Hok & _).
    exists v, o. rewrite Hv. cbn [mbind option_bind]. replace (busy vfs_mode_stat_only v) with false by done.
    by rewrite (take_node_ok _ _ v).
  - rewrite bool_decide_eq_false_2 by done. apply (IH c (ns ++ [n])); [done|done|]. by rewrite <- app_assoc.
Qed.

(** (C10) The path of a node: [vfs_realpath] answers the components from the root
    to the node, or DE_OVERFLOW when they do not fit, and with a path of less than
    1008 bytes and at most 28 components, opening that path from any working
    directory finds the same node. *)
Theorem vfs_realpath_correct s k x ns limit :
  tree_ok s k → named s k x ns → 2 ≤ limit →
  vfs_realpath s (Some x) limit
  = Some (if decide (Z.of_nat (length (wd_text ns)) < limit) then inr (wd_text ns) else inl DE_OVERFLOW) ∧
  ∀ wd, (length (wd_text ns) < 1008)%nat → (length ns ≤ 28)%nat →
    ∃ s', vfs_open s wd (wd_text ns ++ [0]) vfs_type_unknown vfs_mode_stat_only = Some (s', DE_SUCCESS, Some x).
Proof.
  intros Ht Hn Hlim. split; [by apply (realpath_ok s k)|]. intros wd Htext Hlen.
  pose proof (named_valid _ _ _ _ Ht Hn) as Hval. unfold vfs_open, wd_text in *.
  destruct (decide (ns = [])) as [->|Hne].
  - assert (x = root_node s) as -> by (eapply named_inj; [done|done|constructor]).
    rewrite (build_vname_abs [slash] _ []) by (by (try (by right); apply Forall_singleton)). cbn [mbind option_bind].
    change (path_spec [slash] []) with (@inr de_error _ (Vname [] [] vfs_type_directory)). cbn iota.
    destruct (t_root _ _ Ht) as (l & v & Hl & Hv & _). destruct (t_node _ _ Ht _ l Hl) as (v' & Hv' & Hok & _).
    change (open_checks _ _ _) with (@inr de_error _ vfs_type_directory). cbn iota. cbn [components].
    change (negb _ && _) with false. cbn iota. rewrite (take_node_ok _ _ v') by done. cbn [mbind option_bind]. eauto.
  - assert (Hz : Forall (λ b, b ≠ 0) (render ns)) by by apply render_nonzero.
    rewrite (build_vname_abs (render ns) _ []); [|done|right; by destruct ns]. cbn [mbind option_bind].
    rewrite path_spec_render by done. change (open_checks _ _ _) with (@inr de_error _ vfs_type_unknown). cbn iota.
    cbn [components]. destruct ns as [|n ns]; [done|].
    destruct (open_loop_named s k x vfs_type_unknown Ht (n :: ns) (root_node s) [] ltac:(done) (named_root _ _) Hn)
      as (v & o' & Hv & _ & ->). cbn [mbind option_bind].
    rewrite (decide_False (P := DE_SUCCESS ≠ DE_SUCCESS)) by (intros []; done). cbn [mbind option_bind].
    unfold open_finish. cbn [counted nodes set_nodes]. rewrite lookup_insert_eq. cbn [mbind option_bind].
    change ((vfs_type_unknown =? vfs_type_directory) && _) with false.
    change (negb (vfs_type_unknown =? vfs_type_unknown)) with false. cbn [andb]. eexists. reflexivity.
Qed.

(** ** Mounting *)

Lemma relink_relink h l1 o p q y : relink (relink h l1 o p) l1 o q !! y = relink h l1 o q !! y.
Proof.
  unfold relink. destruct (list.last l1) as [a|]; [destruct (decide (a = y)) as [->|]|destruct (decide (o = y)) as [->|]];
    rewrite ?lookup_alter_eq, ?lookup_alter_ne by done; try done; by destruct (h !! y).
Qed.

Lemma relink_insert h l1 o q x v y : y ≠ x → relink (<[x := v]> h) l1 o q !! y = relink h l1 o q !! y.
Proof.
  intros Hne.
  unfold relink. destruct (list.last l1) as [a|]; [destruct (decide (a = y)) as [->|]|destruct (decide (o = y)) as [->|]];
    rewrite ?lookup_alter_eq, ?lookup_alter_ne, lookup_insert_ne by done; done.
Qed.

(** The node [x] is at the place of the leaf [a] among the children of [o]. *)
Lemma tree_replace s s' k o a x l1 l2 av xv :
  tree_ok s k → k !! a = Some [] → k !! o = Some (l1 ++ a :: l2) → k !! x = None → nodes s !! a = Some av →
  root_node s' = root_node s →
  (∀ y, is_Some (k !! y) → y ≠ a → nodes s' !! y = relink (nodes s) l1 o (Some x) !! y) →
  nodes s' !! x = Some xv → node_ok xv → tree0 xv = Some o → tree1 xv = tree1 av → tree2 xv = None →
  name xv = name av → Z.of_nat (size (nodes s')) < INT_MAX →
  tree_ok s' (<[o := l1 ++ x :: l2]> (<[x := []]> (<[o := l1 ++ l2]> (delete a k)))).
Proof.
  intros Ht Ha Ho Hx Hav R Hy Hxv Hok E0 E1 E2 En Hsz.
  set (sm := set_nodes s (relink (nodes s) l1 o (tree1 av))).
  assert (Hsm : ∀ y, is_Some (k !! y) → y ≠ a → nodes sm !! y = relink (nodes s) l1 o (tree1 av) !! y) by done.
  assert (Hszm : Z.of_nat (size (nodes sm)) < INT_MAX) by (cbn; rewrite relink_size; apply (t_size _ _ Ht)).
  assert (Htm : tree_ok sm (<[o := l1 ++ l2]> (delete a k))).
  { by apply (tree_leave s sm k o a l1 l2 av). }
  assert (Hin : a ∈ l1 ++ a :: l2) by (apply elem_of_app; by right; left).
  assert (Hxo : x ≠ o) by congruence.
  destruct (t_child _ _ Ht _ _ _ Ho Hin) as (_ & av' & Hav' & _ & Hvn & Hvl). rewrite Hav in Hav'. injection Hav' as <-.
  apply (tree_enter sm s' _ o x l1 l2 xv); try done.
  - apply lookup_insert_eq.
  - rewrite lookup_insert_ne by done. by apply lookup_delete_None; right.
  - intros y [Hk Hya]%(leave_dom s k o a l1 l2 Ht Ho). unfold sm. cbn [nodes set_nodes]. rewrite relink_relink. by apply Hy.
  - rewrite E1. by apply (leave_next s sm k o a l1 l2 av).
  - by rewrite En.
  - by rewrite En.
  - intros c cv Hc Hcv. rewrite En. intros Hname.
    assert (Hc' : c ∈ l1 ∨ c ∈ l2) by by apply elem_of_app.
    destruct (leave_child_ne s k o a l1 l2 Ht Ho c Hc') as [[lc Hkc] Hca].
    destruct (t_node _ _ Ht c lc Hkc) as (cv0 & Hcv0 & _).
    destruct (relink_lookup (nodes s) l1 o (tree1 av) c cv0 Hcv0) as (cv1 & Hcv1 & Hr & _).
    assert (cv1 = cv) as -> by (cbn in Hcv; congruence). destruct (relinked_ok _ _ Hr) as (_ & _ & En0 & _).
    apply Hca, (t_names _ _ Ht o (l1 ++ a :: l2) c a cv0 av); try done; [|congruence].
    apply elem_of_app. destruct Hc'; [by left|by right; right].
Qed.

Lemma alter_insert (h : heap) f y yv : h !! y = Some yv → alter f y h = <[y := f yv]> h.
Proof.
  intros Hy. apply map_eq. intros z. rewrite lookup_insert, lookup_alter. destruct (decide (y = z)) as [<-|]; [by rewrite Hy|done].
Qed.

Lemma siblings_elem h p l c : siblings h p l → c ∈ l → is_Some (h !! c).
Proof.
  revert p. induction l as [|b l IH]; intros p; cbn; [by intros _ ?%not_elem_of_nil|].
  intros (_ & v & Hv & Hs) [->|Hc]%elem_of_cons; [eauto|by eapply IH].
Qed.

Lemma replace_sibling_ok s o a x ov l1 l2 :
  nodes s !! o = Some ov → siblings (nodes s) (tree2 ov) (l1 ++ a :: l2) → a ∉ l1 →
  (length l1 < S (size (nodes s)))%nat → Z.of_nat (length l1) + 1 < INT_MAX →
  replace_sibling s o a x = Some (set_nodes s (relink (nodes s) l1 o (Some x))).
Proof.
  intros Hov Hs Hal Hf Hb. unfold replace_sibling. rewrite Hov. cbn [mbind option_bind].
  destruct (tree2 ov) as [p2|] eqn:Ep; [|by destruct l1; destruct Hs]. cbn [mbind option_bind].
  destruct l1 as [|c l1].
  - destruct Hs as ([= ->] & _). rewrite decide_True, (update_ok _ _ ov) by done. cbn [mbind option_bind].
    unfold find_sibling. cbn [while sibling_turn]. rewrite decide_True by done. cbn [mbind option_bind].
    unfold relink. cbn [list.last]. by rewrite (alter_insert _ _ _ ov).
  - pose proof Hs as Hs'. destruct Hs' as ([= ->] & _).
    rewrite decide_False by (intros ->; apply Hal; left). cbn [mbind option_bind]. unfold find_sibling.
    rewrite (sibling_loop_ok _ _ (c :: l1) l2) by (done || lia). cbn [mbind option_bind]. unfold relink.
    destruct (list.last (c :: l1)) as [p|] eqn:Hp; [|by apply last_None in Hp].
    destruct (siblings_elem _ _ _ p Hs) as [pv Hpv]; [apply elem_of_app; left; by apply last_Some_elem_of|].
    by rewrite (update_ok _ _ pv), (alter_insert _ _ _ pv).
Qed.

(** What [mount_node] makes of the nodes. *)
Lemma mount_node_ok s k o a x l1 l2 av xv :
  tree_ok s k → k !! a = Some [] → k !! o = Some (l1 ++ a :: l2) → k !! x = None → nodes s !! a = Some av →
  nodes s !! x = Some xv → tree_state xv = 0 → tree2 xv = None →
  ∃ s' xv', mount_node s a x = Some s' ∧ root_node s' = root_node s ∧ size (nodes s') = size (nodes s) ∧
    (∀ y, is_Some (k !! y) → y ≠ a → nodes s' !! y = relink (nodes s) l1 o (Some x) !! y) ∧
    nodes s' !! x = Some xv' ∧ tree0 xv' = Some o ∧ tree1 xv' = tree1 av ∧ tree2 xv' = None ∧ name xv' = name av ∧
    n_release_ptr xv' = vfs_release ∧ tree_state xv' = 0 ∧ mount_state xv' = 1 ∧ mount xv' = Some a ∧
    count xv' = count (incremented xv).
Proof.
  intros Ht Ha Ho Hx Hav Hxv Hts E2.
  assert (Hin : a ∈ l1 ++ a :: l2) by (apply elem_of_app; by right; left).
  assert (Hxo : x ≠ o) by congruence. assert (Hxa : x ≠ a) by congruence.
  assert (Hao : a ≠ o) by by apply (child_ne s k o _ a Ht Ho).
  destruct (t_child _ _ Ht _ _ _ Ho Hin) as (_ & av' & Hav' & E0 & _). rewrite Hav in Hav'. injection Hav' as <-.
  destruct (t_node _ _ Ht a [] Ha) as (av' & Hav' & _ & E2a & _). rewrite Hav in Hav'. injection Hav' as <-. cbn in E2a.
  destruct (t_node _ _ Ht o _ Ho) as (ov & Hov & _ & Hs & Hnd).
  apply list.NoDup_app in Hnd as (_ & Hal & _).
  assert (Ha1 : a ∉ l1) by (intros Ha1; apply (Hal a Ha1); left).
  unfold mount_node, vfs_increment_count. rewrite Hxv. cbn [mbind option_bind].
  rewrite (update_ok _ _ xv) by done. cbn [mbind option_bind nodes set_nodes].
  rewrite lookup_insert_ne by done. rewrite Hav. cbn [mbind option_bind].
  erewrite update_ok by apply lookup_insert_eq. cbn [mbind option_bind nodes set_nodes]. rewrite insert_insert_eq, E0.
  cbn [mbind option_bind]. set (x2 := set_tree _ (Some o) _ _).
  assert (Hrep : replace_sibling (set_nodes s (<[x := x2]> (nodes s))) o a x
    = Some (set_nodes s (relink (<[x := x2]> (nodes s)) l1 o (Some x)))).
  { pose proof (kids_length _ _ _ _ Ht Ho) as Hlen. rewrite length_app in Hlen. cbn [length] in Hlen. pose proof (t_size _ _ Ht).
    rewrite (replace_sibling_ok (set_nodes s (<[x := x2]> (nodes s))) o a x ov l1 l2); cbn [nodes set_nodes];
      [reflexivity|by rewrite lookup_insert_ne| |done| |lia].
    - apply (siblings_ext (nodes s)); [|done]. intros c Hc. apply lookup_insert_ne. intros <-.
      destruct (t_child _ _ Ht _ _ _ Ho Hc) as ([? ?] & _). congruence.
    - rewrite map_size_insert_Some by by eexists. lia. }
  change (set_nodes (set_nodes s _) (<[x := x2]> (nodes s))) with (set_nodes s (<[x := x2]> (nodes s))).
  rewrite Hrep. cbn [mbind option_bind]. set (h := relink _ l1 o (Some x)).
  assert (Hh : ∀ y, y ≠ x → h !! y = relink (nodes s) l1 o (Some x) !! y) by (intros y Hy; by apply relink_insert).
  assert (Hhx : h !! x = Some x2).
  { unfold h, relink. destruct (list.last l1) as [p|] eqn:Hp; rewrite lookup_alter_ne; try (by rewrite lookup_insert_eq); try done.
    intros ->. destruct (t_child _ _ Ht o _ x Ho) as ([? ?] & _); [|congruence]. apply elem_of_app; left. by apply last_Some_elem_of. }
  assert (Hha : h !! a = Some av).
  { rewrite Hh by done. unfold relink. destruct (list.last l1) as [p|] eqn:Hp; rewrite lookup_alter_ne; try done.
    intros ->. by apply Ha1, last_Some_elem_of. }
  rewrite (update_ok _ _ av) by done. cbn [mbind option_bind nodes set_nodes].
  rewrite lookup_insert_eq, lookup_insert_ne, Hhx by done. cbn [mbind option_bind tree2 set_tree].
  change (tree2 x2) with (tree2 xv). rewrite E2, E2a. rewrite (bool_decide_eq_false_2 (is_Some None)) by by intros [].
  cbn [orb]. erewrite update_ok; cycle 1. { cbn [nodes set_nodes]. rewrite lookup_insert_ne by done. exact Hhx. }
  eexists _, _. split; [done|]. cbn [nodes set_nodes root_node]. split; [done|]. split.
  { rewrite !map_size_insert_Some; [|by eexists|rewrite lookup_insert_ne by done; by eexists].
    unfold h. rewrite relink_size. apply map_size_insert_Some. by eexists. }
  split. { intros y [ly Hy] Hya. rewrite !lookup_insert_ne by congruence. apply Hh. congruence. }
  rewrite lookup_insert_eq. split; [done|]. repeat (split; [done|]). done.
Qed.

Lemma mount_free av xv :
  mount_busy av xv = false →
  tree2 av = None ∧ mount_state av = 0 ∧ tree0 xv = None ∧ tree2 xv = None ∧ tree_state xv = 0.
Proof.
  unfold mount_busy. intros Hb. repeat (apply orb_false_iff in Hb as [Hb ?]).
  repeat match goal with E : negb (_ =? _) = false |- _ => apply negb_false_iff, Z.eqb_eq in E end.
  assert (Hnone : ∀ p : option nat, bool_decide (is_Some p) = false → p = None).
  { intros [p|] Hsome; [|done]. by rewrite bool_decide_eq_true_2 in Hsome. }
  by split_and!; try apply Hnone.
Qed.

(** The tree after the mount. *)
Lemma mounted_ok s k a x av xv ns :
  tree_ok s k → used_but None s k → named s k a ns → a ≠ root_node s → x ≠ root_node s →
  nodes s !! a = Some av → nodes s !! x = Some xv → -1 ≤ count xv ≤ INT_MAX → mount_busy av xv = false →
  ∃ s' k' xv', mount_node s a x = Some s' ∧ tree_ok s' k' ∧ used_but None s' k' ∧ named s' k' x ns ∧
    nodes s' !! x = Some xv' ∧ mount xv' = Some a ∧ mount_state xv' = 1 ∧
    ∀ y ns', y ≠ a → named s k y ns' → named s' k' y ns'.
Proof.
  intros Ht Hu Hn Har Hxr Hav Hxv Hxc Hb. destruct (mount_free _ _ Hb) as (Ea & _ & Ex0 & Ex2 & Exs).
  destruct (named_in _ _ _ _ Ht Hn) as [la Ha]. destruct (t_node _ _ Ht a la Ha) as (av' & Hav' & _ & Hs & _).
  rewrite Hav in Hav'. injection Hav' as <-. rewrite Ea in Hs.
  assert (la = []) as -> by (destruct la; [done|by destruct Hs]). clear Hs.
  destruct (has_owner s k a av Ht ltac:(eauto) Har Hav) as (o & l1 & l2 & E0 & Ho).
  assert (Hx : k !! x = None).
  { destruct (k !! x) as [lx|] eqn:Hx; [|done]. destruct (has_owner s k x xv Ht ltac:(eauto) Hxr Hxv) as (o' & _ & _ & Eo & _).
    congruence. }
  destruct (mount_node_ok s k o a x l1 l2 av xv Ht Ha Ho Hx Hav Hxv Exs Ex2)
    as (s' & xv' & Hm & R & Hsz & Hy & Hxv' & Q0 & Q1 & Q2 & Qn & Qr & Qs & Qm & Qmt & Qc).
  set (k' := <[o := l1 ++ x :: l2]> (<[x := []]> (<[o := l1 ++ l2]> (delete a k)))).
  assert (Hok : node_ok xv').
  { split; [done|rewrite Qs; unfold UINT_MAX; lia| |rewrite Qm; done]. rewrite Qc. unfold incremented. cbn [count set_count].
    destruct (Z.leb_spec 0 (count xv)), (Z.ltb_spec (count xv) INT_MAX); cbn [andb]; lia. }
  assert (Ht' : tree_ok s' k').
  { apply (tree_replace s s' k o a x l1 l2 av xv'); try done. rewrite Hsz. apply (t_size _ _ Ht). }
  assert (Hao : a ≠ o) by (apply (child_ne s k o _ a Ht Ho), elem_of_app; by right; left).
  assert (Hdom : ∀ y, is_Some (k' !! y) ↔ y = x ∨ (is_Some (k !! y) ∧ y ≠ a)).
  { intros y. unfold k'. rewrite enter_dom by apply lookup_insert_eq. by rewrite (leave_dom s k o a l1 l2 Ht Ho). }
  assert (Hold : ∀ y v, is_Some (k !! y) → y ≠ a → nodes s !! y = Some v →
    ∃ v', nodes s' !! y = Some v' ∧ relinked v v').
  { intros y v Hky Hya Hv. rewrite Hy by done. destruct (relink_lookup _ l1 o (Some x) _ _ Hv) as (v' & ? & ? & _). eauto. }
  assert (Hstay : ∀ y ns', y ≠ a → named s k y ns' → named s' k' y ns').
  { intros y ns' Hya Hny. apply (stays_named s k); [done|done|done| |done|].
    - intros z v Hz Hz' Hv. assert (Hza : z ≠ a) by (apply Hdom in Hz' as [->|[_ ?]]; [rewrite Hx in Hz; by destruct Hz|done]).
      destruct (Hold z v Hz Hza Hv) as (v' & Hv' & Hr). exists v'. by destruct (relinked_ok _ _ Hr) as (_ & -> & -> & _).
    - apply Hdom. right. split; [by eapply named_in|done]. }
  exists s', k', xv'. do 2 (split; [done|]). split; [|split; [|done]].
  - intros y Hky _. destruct (decide (y = x)) as [->|Hyx].
    { exists xv'. destruct Hky as [lx Hlx]. exists lx. rewrite Qm. by split_and!; [..|right; right]. }
    destruct (proj1 (Hdom y) Hky) as [|[Hk0 Hya]]; [done|]. destruct (Hu y Hk0) as (v & l & Hv & Hl & Hus); [done|].
    destruct (Hold y v Hk0 Hya Hv) as (v' & Hv' & Hr). destruct (relinked_ok _ _ Hr) as (_ & _ & _ & Em & Et & _).
    destruct (decide (y = o)) as [->|Hyo].
    + exists v', (l1 ++ x :: l2). unfold k'. rewrite lookup_insert_eq. split_and!; [done|done|]. right; left. by destruct l1.
    + exists v', l. unfold k'. rewrite !lookup_insert_ne, lookup_delete_ne by congruence. by rewrite Em, Et.
  - inversion Hn as [Er En|o' lo c v ns0 Hns0 Ho' Hc Hv Ec En]; [by subst|]. subst c. rewrite Hav in Hv. injection Hv as <-.
    assert (o' = o) as ->. { apply (owner_unique s k o' o lo (l1 ++ a :: l2) a); try done. apply elem_of_app. by right; left. }
    rewrite <- Qn. apply (named_child _ _ o (l1 ++ x :: l2)); [by apply Hstay|unfold k'; apply lookup_insert_eq| |done].
    apply elem_of_app. by right; left.
Qed.

(** What [vfs_mount] asks of the target [t], which it has just opened, and of the
    node [x] that is to take its place. *)
Definition one_opener (tv : vfs_node) : Prop :=
  tree_state tv = 1 ∧ count tv ≤ 2 ∧ tree2 tv = None ∧ mount_state tv = 0.
Definition outside (xv : vfs_node) : Prop :=
  tree0 xv = None ∧ tree1 xv = None ∧ tree2 xv = None ∧ tree_state xv = 0 ∧ mount_state xv = 0.
Definition types_differ (tv xv : vfs_node) : Prop :=
  type tv ≠ type xv ∧ (type tv = vfs_type_directory ∨ type xv = vfs_type_directory).

(** The answer of a mount whose target could be opened. *)
Definition mount_answer s1 (t x : nat) (tv xv : vfs_node) : de_error :=
  if decide (x = root_node s1 ∨ t = root_node s1) then DE_BUSY
  else if decide (types_differ tv xv) then DE_TYPE
  else if decide (one_opener tv ∧ outside xv) then DE_SUCCESS
  else DE_BUSY.

Lemma mount_busy_spec tv xv : mount_busy tv xv = false ↔ one_opener tv ∧ outside xv.
Proof.
  assert (Hp : ∀ p : option nat, bool_decide (is_Some p) = false ↔ p = None).
  { intros [p|]; [rewrite bool_decide_eq_true_2 by done|rewrite bool_decide_eq_false_2 by by intros []]; done. }
  unfold mount_busy, one_opener, outside.
  rewrite !orb_false_iff, !Hp, !negb_false_iff, !Z.eqb_eq, Z.gtb_ltb, Z.ltb_ge. tauto.
Qed.

Lemma types_differ_spec tv xv :
  negb (type tv =? type xv) && ((type tv =? vfs_type_directory) || (type xv =? vfs_type_directory)) = true
  ↔ types_differ tv xv.
Proof. unfold types_differ. rewrite andb_true_iff, orb_true_iff, negb_true_iff, !Z.eqb_eq, Z.eqb_neq. done. Qed.

(** (C9) Mounting: [vfs_mount] answers, without a panic, the error of the opening
    of the target; DE_BUSY when the target or the node is the root; DE_TYPE when
    exactly one of them is a directory; success when the target has no other
    opener, child or mount and the node is outside of the tree; and DE_BUSY
    otherwise.  On success the node is at the place of the target under its name,
    so that the path leads to it, every other node keeps its path, and the tree
    is well formed; on every error the tree is as it was. *)
Theorem vfs_mount_correct s k wd w path x :
  tree_ok s k → used_but None s k → room s k → working_dir s k wd w → Forall (λ b, b ≠ 0) path →
  (∀ s1 t, vfs_open s wd (path ++ [0]) 0 0 = Some (s1, DE_SUCCESS, Some t) →
     ∃ xv, nodes s1 !! x = Some xv ∧ -1 ≤ count xv ≤ INT_MAX) →
  ∃ s' r, vfs_mount s wd (path ++ [0]) x = Some (s', r) ∧
    match vfs_open s wd (path ++ [0]) 0 0 with
    | Some (s1, _, Some t) => ∃ tv xv, nodes s1 !! t = Some tv ∧ nodes s1 !! x = Some xv ∧
        r = mount_answer s1 t x tv xv
    | Some (_, e, None) => r = e ∧ e ≠ DE_SUCCESS
    | None => False
    end ∧
    (r ≠ DE_SUCCESS → agree k s s') ∧
    (r = DE_SUCCESS → ∃ v k' t xv, path_answer path w = inr v ∧ tree_ok s' k' ∧ used_but None s' k' ∧
       named s' k' x (components v) ∧ nodes s' !! x = Some xv ∧ mount xv = Some t ∧ mount_state xv = 1 ∧
       ∀ y ns, y ≠ t → named s k y ns → named s' k' y ns).
Proof.
  intros Ht Hu Hr Hw Hp Hnode. destruct (open_ok s k wd w path 0 0 Ht Hu Hr Hw Hp) as (s1 & r & t & Ho & Hx).
  unfold vfs_mount. rewrite Ho. cbn [mbind option_bind]. destruct t as [a|].
  2:{ destruct Hx as [Hre Ha]. rewrite decide_True by done. exists s1, r. split; [done|]. by split. }
  destruct Hx as (-> & v & Hv & Hop). rewrite (decide_False (P := DE_SUCCESS ≠ DE_SUCCESS)) by (intros []; done).
  cbn [mbind option_bind]. destruct (Hnode s1 a Ho) as (xv & Hxv & Hxc).
  destruct (opened_tree _ _ _ _ _ Ht Hu Hr Hop) as (k1 & av & Ht1 & Hu1 & Hn1 & Hav & _ & Hpres & _).
  destruct (opened_release _ _ _ _ _ Ht Hu Hr Hop) as (s2 & Hs2 & Ha2).
  assert (Hfail : ∀ e, mount_answer s1 a x av xv = e → e ≠ DE_SUCCESS → ∃ s' r',
    (s0 ← release s1 a; Some (s0, e)) = Some (s', r') ∧
    (∃ tv xv0, Some av = Some tv ∧ Some xv = Some xv0 ∧ r' = mount_answer s1 a x tv xv0) ∧
    (r' ≠ DE_SUCCESS → agree k s s') ∧ (r' = DE_SUCCESS → ∃ v k' t xv, path_answer path w = inr v ∧ tree_ok s' k' ∧
       used_but None s' k' ∧ named s' k' x (components v) ∧ nodes s' !! x = Some xv ∧ mount xv = Some t ∧
       mount_state xv = 1 ∧ ∀ y ns, y ≠ t → named s k y ns → named s' k' y ns)).
  { intros e <- Hre. rewrite Hs2. cbn [mbind option_bind]. exists s2, (mount_answer s1 a x av xv).
    split; [done|]. split; [by exists av, xv|]. by split. }
  assert (Hans : mount_answer s1 a x av xv
    = if bool_decide (x = root_node s1) || bool_decide (a = root_node s1) then DE_BUSY
      else if negb (type av =? type xv) && ((type av =? vfs_type_directory) || (type xv =? vfs_type_directory)) then DE_TYPE
      else if mount_busy av xv then DE_BUSY else DE_SUCCESS).
  { unfold mount_answer. destruct (bool_decide _ || bool_decide _) eqn:E1.
    { rewrite decide_True; [done|]. by rewrite orb_true_iff, !bool_decide_eq_true in E1. }
    rewrite decide_False. 2:{ rewrite orb_false_iff, !bool_decide_eq_false in E1. tauto. }
    destruct (negb _ && _) eqn:E2.
    { by rewrite decide_True by by apply types_differ_spec. }
    rewrite decide_False. 2:{ intros Hd%types_differ_spec. congruence. }
    destruct (mount_busy av xv) eqn:E3.
    { rewrite decide_False; [done|]. intros Hd%mount_busy_spec. congruence. }
    by rewrite decide_True by by apply mount_busy_spec. }
  rewrite Hav, Hxv. cbn [mbind option_bind].
  destruct (bool_decide (x = root_node s1) || bool_decide (a = root_node s1)) eqn:Eroot; [by apply Hfail|].
  destruct (negb (type av =? type xv) && _); [by apply Hfail|].
  destruct (mount_busy av xv) eqn:Ebusy; [by apply Hfail|]. clear Hfail.
  apply orb_false_iff in Eroot as [Exr%bool_decide_eq_false Ear%bool_decide_eq_false].
  destruct (mounted_ok s1 k1 a x av xv (components v) Ht1 Hu1 Hn1 Ear Exr Hav Hxv Hxc Ebusy)
    as (s' & k' & xv' & -> & Ht' & Hu' & Hn' & Hxv' & Hm & Hms & Hstay). cbn [mbind option_bind].
  exists s', DE_SUCCESS. split; [done|]. split; [by exists av, xv|]. split; [by intros []|].
  intros _. exists v, k', a, xv'. do 7 (split; [done|]). intros y ns Hya Hny. by apply Hstay, Hpres.
Qed.

(** ** The start *)

(** [vfs_init] makes a tree of the root node alone. *)
Lemma vfs_init_ok e h root n :
  h !! root = Some n → tree0 n = None → tree2 n = None → -1 ≤ count n ≤ INT_MAX → 0 ≤ tree_state n ≤ UINT_MAX →
  Z.of_nat (size h) < INT_MAX →
  ∃ s, vfs_init e h root = Some s ∧ root_node s = root ∧ tree_ok s {[root := []]} ∧ used_but None s {[root := []]} ∧
    ∃ v, nodes s !! root = Some v ∧ count v = count n ∧ tree_state v = tree_state n.
Proof.
  intros Hn E0 E2 Hc Hts Hsz. unfold vfs_init. rewrite Hn. cbn [mbind option_bind]. eexists. split; [done|].
  cbn [root_node nodes]. split; [done|]. set (v := Node _ _ _ _ _ _ _ _ _ _ _ _ _).
  assert (Hv : <[root := v]> h !! root = Some v) by apply lookup_insert_eq.
  assert (Hno : ∀ (x c : nat) l, ({[root := []]} : kids) !! x = Some l → c ∈ l → False).
  { intros x c l [_ <-]%lookup_singleton_Some Hc'. by apply not_elem_of_nil in Hc'. }
  split; [split|split]; cbn [root_node nodes].
  - intros x l [<- <-]%lookup_singleton_Some. exists v. split; [done|]. split; [by split|]. split; [done|apply NoDup_nil_2].
  - intros x l c Hl Hc'. by destruct (Hno x c l).
  - intros x l c c' av bv Hl Hc'. by destruct (Hno x c l).
  - intros x [l [<- _]%lookup_singleton_Some]. by left.
  - exists [], v. split; [apply lookup_singleton_eq|]. split; [done|]. by split.
  - exists (λ _, 0%nat). intros x l c Hl Hc'. by destruct (Hno x c l).
  - by rewrite map_size_insert_Some by eauto.
  - intros x [l [<- <-]%lookup_singleton_Some] _. exists v, []. split; [done|]. split; [apply lookup_singleton_eq|].
    right; right. done.
  - by exists v.
Qed.
End Operations.

(** ** A driver in memory *)

(** The state is the next address; opening makes a directory unless a type is
    asked for, and there is nothing to truncate or remove. *)
Definition ram_node (ty : Z) : vfs_node :=
  let n := vfs_init_node in
  Node (count n) ty (mode n) (tree0 n) (tree1 n) (tree2 n) (mount n) (tree_state n) (mount_state n)
    (old_release n) (n_release_ptr n) (stat_of_mount n) (name n).

#[export] Instance ram_driver : VfsDriver nat := {|
  drv_open e h owner n ty md :=
    if decide (h !! e = None) then
      if (Z.of_nat (length n) <? 256) && (Z.of_nat (size h) + 1 <? INT_MAX)
      then (S e, <[e := ram_node (if ty =? vfs_type_unknown then vfs_type_directory else ty)]> h, DE_SUCCESS, Some e)
      else (e, h, DE_NAME, None)
    else (e, h, DE_MEMORY, None);
  drv_release e h x :=
    match h !! x with
    | Some v => (e, if decide (n_release_ptr v = vfs_release) then h else delete x h)
    | None => (e, h)
    end;
  drv_truncate e h x := (e, h, DE_UNSUPPORTED);
  drv_remove e h x n dir := (e, h, DE_NAME) |}.

#[export] Instance ram_driver_ok : VfsDriverOk nat.
Proof.
  split; unfold drv_open, drv_release, drv_truncate, drv_remove, ram_driver.
  - intros e h owner n ty md e' h' r x. destruct (decide (h !! e = None)) as [He|He]; [|by intros [= <- <- <- <-]; naive_solver].
    destruct (Z.ltb_spec (Z.of_nat (length n)) 256), (Z.ltb_spec (Z.of_nat (size h) + 1) INT_MAX);
      intros [= <- <- <- <-] Hsz; try (split; [done|]; by split).
    split; [|split].
    + intros y v Hy _. by rewrite lookup_insert_ne by congruence.
    + rewrite map_size_insert_None by done. lia.
    + intros _. split; [done|]. eexists e, _. rewrite lookup_insert_eq. do 2 (split; [done|]). split; [congruence|].
      cbn. unfold INT_MAX. split_and!; lia || done.
  - intros e h x e' h'. destruct (h !! x) as [v|] eqn:Hx; [|by intros [= <- <-]].
    destruct (decide _) as [Hv|Hv]; intros [= <- <-] Hsz; [done|]. split.
    + intros y w Hy Hw. rewrite lookup_delete_ne; [done|]. intros ->. congruence.
    + rewrite map_size_delete_Some by eauto. lia.
  - by intros e h x e' h' r [= <- <- <-].
  - by intros e h x n dir e' h' r [= <- <- <-].
Qed.

(** The root node 0, and a directory with the address 9 to mount *)
Definition ram_start : vfs nat :=
  default (Vfs 0%nat ∅ 0%nat) (vfs_init 1%nat {[0%nat := ram_node vfs_type_directory; 9%nat := ram_node vfs_type_directory]} 0%nat).
Definition ram_kids : kids := {[0%nat := []]}.

Lemma ram_start_ok :
  tree_ok ram_start ram_kids ∧ used_but None ram_start ram_kids ∧ room ram_start ram_kids.
Proof.
  destruct (vfs_init_ok 1%nat {[0%nat := ram_node vfs_type_directory; 9%nat := ram_node vfs_type_directory]} 0%nat (ram_node vfs_type_directory))
    as (s & Hs & _ & Ht & Hu & v & Hv & Hc & Hts); try done.
  unfold ram_start. rewrite Hs. split; [done|]. split; [done|].
  intros x w [l Hl] Hw. unfold ram_kids in Hl. apply lookup_singleton_Some in Hl as [<- _]. cbn in Hw. rewrite Hv in Hw. injection Hw as <-. by rewrite Hc, Hts.
Qed.

(** "/a/b" *)
Definition ram_path : list Z := [47; 97; 47; 98].

Lemma vfs_open_correct_witness :
  ∃ s' a k' n, vfs_open ram_start None (ram_path ++ [0]) 2 0 = Some (s', DE_SUCCESS, Some a) ∧
    named s' k' a [[97]; [98]] ∧ nodes s' !! a = Some n ∧ tree_state n = 1 ∧ tree_ok s' k'.
Proof.
  destruct ram_start_ok as (Ht & Hu & Hr).
  destruct (vfs_open_correct ram_start ram_kids None (inr []) ram_path 2 0 Ht Hu Hr eq_refl) as (s' & r & x & Ho & Hx).
  { repeat constructor; lia. }
  vm_compute in Ho. injection Ho as <- <- <-. destruct Hx as (_ & v & k' & Hv & Ht' & _ & Hn & _ & _ & Hnew).
  vm_compute in Hv. injection Hv as <-.
  destruct (Hnew 2%nat (named_in _ _ _ _ Ht' Hn) eq_refl) as (n & Hl & Hts).
  eexists _, _, k', n. split; [vm_compute; reflexivity|]. by split_and!.
Defined.

Definition ram_opened : vfs nat :=
  match vfs_open ram_start None (ram_path ++ [0]) 2 0 with Some (s, _, _) => s | None => ram_start end.

Lemma ram_opened_ok :
  ∃ k, tree_ok ram_opened k ∧ used_but None ram_opened k ∧ named ram_opened k 2%nat [[97]; [98]].
Proof.
  destruct ram_start_ok as (Ht & Hu & Hr).
  destruct (open_ok ram_start ram_kids None (inr []) ram_path 2 0 Ht Hu Hr eq_refl) as (s' & r & x & Ho & Hx).
  { repeat constructor; lia. }
  unfold ram_opened. rewrite Ho. vm_compute in Ho. injection Ho as Es <- <-. destruct Hx as (_ & v & Hv & Hop).
  vm_compute in Hv. injection Hv as <-.
  destruct (opened_tree _ _ _ _ _ Ht Hu Hr Hop) as (k & n & Ht' & Hu' & Hn & _). by exists k.
Qed.

Lemma vfs_open_release_witness :
  ∃ s2, release ram_opened 2%nat = Some s2 ∧ agree ram_kids ram_start s2.
Proof.
  destruct ram_start_ok as (Ht & Hu & Hr).
  apply (vfs_open_release ram_start ram_kids None (inr []) ram_path 2 0 ram_opened DE_SUCCESS 2%nat Ht Hu Hr eq_refl).
  - repeat constructor; lia.
  - vm_compute. reflexivity.
Defined.

Lemma n_release_correct_witness :
  ∃ k s' k', tree_ok ram_opened k ∧ named ram_opened k 2%nat [[97]; [98]] ∧
    release ram_opened 2%nat = Some s' ∧ tree_ok s' k' ∧ used_but None s' k'.
Proof.
  destruct ram_opened_ok as (k & Ht & Hu & Hn).
  destruct (n_release_correct ram_opened k 2%nat Ht Hu (named_in _ _ _ _ Ht Hn)) as (s' & k' & Hr & Ht' & Hu' & _).
  exists k, s', k'. by split_and!.
Defined.

Lemma vfs_remove_correct_witness :
  ∃ s' r, vfs_remove ram_opened None (ram_path ++ [0]) false = Some (s', r) ∧ r = DE_BUSY.
Proof.
  destruct ram_opened_ok as (k & Ht & Hu & Hn).
  destruct (vfs_remove_correct ram_opened k None (inr []) ram_path false Ht Hu eq_refl) as (s' & r & Hr & _ & Hb).
  { repeat constructor; lia. }
  exists s', r. split; [done|]. destruct (Hb (Vname [[97]; [98]] [] 0) 2%nat) as [|(_ & Hv & _)]; [vm_compute; reflexivity|done|done|].
  discriminate Hv.
Defined.

Lemma vfs_realpath_correct_witness :
  vfs_realpath ram_opened (Some 2%nat) 16 = Some (inr ram_path) ∧
  ∃ s', vfs_open ram_opened None (ram_path ++ [0]) vfs_type_unknown vfs_mode_stat_only = Some (s', DE_SUCCESS, Some 2%nat).
Proof.
  destruct ram_opened_ok as (k & Ht & _ & Hn).
  destruct (vfs_realpath_correct ram_opened k 2%nat [[97]; [98]] 16 Ht Hn ltac:(lia)) as [Hp Ho].
  split; [exact Hp|]. apply (Ho None).
  - apply Nat.ltb_lt. reflexivity.
  - apply Nat.leb_le. reflexivity.
Defined.

Lemma vfs_mount_correct_witness :
  ∃ s' k' xv, vfs_mount ram_start None ([47; 109] ++ [0]) 9%nat = Some (s', DE_SUCCESS) ∧ tree_ok s' k' ∧
     named s' k' 9%nat [[109]] ∧ nodes s' !! 9%nat = Some xv ∧ mount_state xv = 1.
Proof.
  destruct ram_start_ok as (Ht & Hu & Hr).
  destruct (vfs_mount_correct ram_start ram_kids None (inr []) [47; 109] 9%nat Ht Hu Hr eq_refl) as (s' & r & Hm & _ & _ & Hs).
  - repeat constructor; lia.
  - intros s1 t Ho. vm_compute in Ho. injection Ho as <- <-. eexists. split; [vm_compute; reflexivity|cbn; unfold INT_MAX; lia].
  - pose proof Hm as Hm'. vm_compute in Hm'. injection Hm' as _ <-.
    destruct (Hs eq_refl) as (v & k' & t & xv & Hv & Ht' & _ & Hn & Hx & _ & Hms & _). vm_compute in Hv. injection Hv as <-.
    exists s', k', xv. by split_and!.
Defined.
