(* ===== verification/FileTable.v ===== *)
(** File descriptors: kernel/syscall/file.c.  The tables of the tasks refer to the
    entries of one table of open files, which count their references and own a
    node of the virtual file system.

    A call is one function: the locks of the entries are taken and left inside of
    it.  A descriptor is a 32-bit word, the address of an entry and the flag
    close-on-exec; [file_table_address] is where the table is linked to.  What
    [vfs_open], [vfs_pipe] and [pty_create] answer is an argument.  [acquired] lists
    the nodes that these functions have handed over, and those that
    [vfs_increment_count] was called for; [released] those whose [n_release] was. *)

From S2P Require Import Prelude Errors VfsPath Vfs.

Definition INT_MAX : Z := 0x7FFFFFFF.
Definition TASK_FD_STATIC_COUNT : Z := 64.
Definition table_mask : Z := 0x0FFFFFFF.
Definition fd_cloexec : Z := 0x80000000.

Definition O_RDONLY : Z := 0.
Definition O_WRONLY : Z := 1.
Definition O_RDWR : Z := 2.
Definition O_ACCMODE : Z := 0x03.
Definition O_CLOEXEC : Z := 0x0010.
Definition O_CREAT : Z := 0x0020.
Definition O_DIRECTORY : Z := 0x0040.
Definition O_EXCL : Z := 0x0080.
Definition O_TRUNC : Z := 0x0400.
Definition O_APPEND : Z := 0x1000.
Definition O_NONBLOCK : Z := 0x2000.

Definition F_DUPFD : Z := 0.
Definition F_DUPFD_CLOEXEC : Z := 1.
Definition F_GETFD : Z := 2.
Definition F_SETFD : Z := 3.
Definition F_GETFL : Z := 4.
Definition F_SETFL : Z := 5.
Definition FD_CLOEXEC : Z := 0x0001.

Definition SEEK_SET : Z := 0.
Definition SEEK_CUR : Z := 1.
Definition SEEK_END : Z := 2.

Definition vfs_type_regular : Z := 1.
Definition vfs_type_block : Z := 5.
Definition vfs_type_message : Z := 7.

(** A flag of a word. *)
Definition has (flags bit : Z) : bool := negb (Z.land flags bit =? 0).

(** The nodes: their types, and the size that [n_stat] tells, if it does. *)
Class NodeInfo (node : Type) := {
  node_type : node → Z;
  node_size : node → option Z }.

Section FileTable.
Context {node : Type} `{NodeInfo node} (file_table_address : Z).

Record file_table_entry := Entry {
  fte_lock : bool;
  fte_count : Z;
  fte_flags : Z;
  fte_offset : Z;
  fte_node : option node }.

(** The part of a task that is about files. *)
Record task_fd := Task {
  fd_state : Z;
  fd_table : list Z;
  wd_node : option node }.

Record files := Files {
  file_table : list file_table_entry;
  tasks : list task_fd;
  acquired : list node;
  released : list node }.

Definition no_entry : file_table_entry := Entry false 0 0 0 None.
Definition no_files : task_fd := Task 0 (replicate (Z.to_nat TASK_FD_STATIC_COUNT) 0) None.

(** [file_init], with [n] tasks that have not opened anything. *)
Definition file_init (n : nat) : files := Files (replicate 4096 no_entry) (replicate n no_files) [] [].

Definition set_entry (s : files) (e : Z) (x : file_table_entry) : option files :=
  l ← (file_table s).[e <- x]; Some (Files l (tasks s) (acquired s) (released s)).

Definition set_task (s : files) (i : Z) (t : task_fd) : option files :=
  l ← (tasks s).[i <- t]; Some (Files (file_table s) l (acquired s) (released s)).

(** Nodes come to the tables. *)
Definition receive (s : files) (l : list node) : files :=
  Files (file_table s) (tasks s) (acquired s ++ l) (released s).

(** [n_release] of a node. *)
Definition release (s : files) (n : option node) : files :=
  match n with
  | Some n => Files (file_table s) (tasks s) (acquired s) (released s ++ [n])
  | None => s
  end.

(** The size of an entry (64-bit build), its address, and the entry that a word
    leads to. *)
Definition entry_size : Z := 32.
Definition entry_address (e : Z) : Z := file_table_address + entry_size * e.

Definition entry_of (t : Z) : option Z :=
  let a := Z.land t table_mask - file_table_address in
  if (0 <=? a) && (a mod entry_size =? 0) && (a / entry_size <? 4096) then Some (a / entry_size) else None.

(** The descriptor [fd] of the task [i], if it is open. *)
Definition descriptor (s : files) (i fd : Z) : option (option Z) :=
  t ← (tasks s).[i];
  if (fd >=? 0) && (fd <? fd_state t) then
    w ← (fd_table t).[fd];
    Some (if negb (w =? 0) then Some w else None)
  else Some None.

(** task->fd.table[fd] = w *)
Definition set_slot (s : files) (i fd w : Z) : option files :=
  t ← (tasks s).[i];
  l ← (fd_table t).[fd <- w];
  set_task s i (Task (fd_state t) l (wd_node t)).

(** ** Entries *)

(** The first index of a list from [i] on with [p]. *)
Fixpoint first_index {A} (p : A → bool) (l : list A) (i : Z) : option Z :=
  match l with
  | [] => None
  | x :: l => if p x then Some i else first_index p l (i + 1)
  end.

(** The first loop takes an entry whose lock is free; the second one, which would
    wait for nobody, finds none when the first has found none. *)
Definition alloc_file_entry (s : files) : option (files * option Z) :=
  match first_index (λ x, negb (fte_lock x)) (file_table s) 0 with
  | None => Some (s, None)
  | Some e =>
      x ← (file_table s).[e];
      s ← set_entry s e (Entry true (fte_count x) (fte_flags x) (fte_offset x) (fte_node x));
      Some (s, Some e)
  end.

Definition file_decrement_count (s : files) (e : Z) : option files :=
  x ← (file_table s).[e];
  let count := if fte_count x >? 0 then fte_count x - 1 else fte_count x in
  if count =? 0 then
    s ← set_entry s e (Entry false 0 0 0 None);
    Some (release s (fte_node x))
  else set_entry s e (Entry (fte_lock x) count (fte_flags x) (fte_offset x) (fte_node x)).

(** ** Descriptors *)

(** The first free descriptor; the table may grow by one. *)
Definition alloc_file_descriptor (s : files) (i : Z) : option (files * Z) :=
  t ← (tasks s).[i];
  match first_index (λ w, w =? 0) (take (Z.to_nat (fd_state t)) (fd_table t)) 0 with
  | Some fd => Some (s, fd)
  | None =>
      if fd_state t <? TASK_FD_STATIC_COUNT then
        s ← set_task s i (Task (fd_state t + 1) (fd_table t) (wd_node t));
        Some (s, fd_state t)
      else Some (s, -1)
  end.

(** task->fd.table[fd] = fte, with close-on-exec if the flags say so. *)
Definition install (s : files) (i fd e flags : Z) : option files :=
  let w := u32 (entry_address e) in
  set_slot s i fd (if has flags O_CLOEXEC then Z.lor w fd_cloexec else w).

Definition file_close (s : files) (i fd : Z) : option (files * de_error) :=
  d ← descriptor s i fd;
  match d with
  | Some t =>
      e ← entry_of t;
      s ← file_decrement_count s e;
      s ← set_slot s i fd 0;
      Some (s, DE_SUCCESS)
  | None => Some (s, DE_ARGUMENT)
  end.

(** [file_open]: [open] is [vfs_open] for a type and a mode.  The answer is the
    descriptor, -1 or what [alloc_file_descriptor] answered, and the error code. *)
Definition file_open (s : files) (i flags : Z) (open : Z → Z → de_error + node)
  : option (files * Z * de_error) :=
  let accmode := Z.land flags O_ACCMODE in
  if negb (accmode =? O_RDONLY) && negb (accmode =? O_WRONLY) && negb (accmode =? O_RDWR)
  then Some (s, -1, DE_ARGUMENT)
  else if has flags O_DIRECTORY && negb (accmode =? O_RDONLY) then Some (s, -1, DE_ARGUMENT)
  else
    let vtype := if has flags O_DIRECTORY then vfs_type_directory else vfs_type_unknown in
    '(s, fte) ← alloc_file_entry s;
    match fte with
    | None => Some (s, -1, DE_MEMORY)
    | Some e =>
        x ← (file_table s).[e];
        match fte_node x with
        | Some _ => Some (s, -1, DE_UNEXPECTED)
        | None =>
            let vmode := if has flags O_CREAT then Z.lor 0 vfs_mode_create else 0 in
            let vmode := if has flags O_TRUNC then Z.lor vmode vfs_mode_truncate else vmode in
            let vmode := if has flags O_EXCL then Z.lor vmode vfs_mode_exclusive else vmode in
            let vmode := if negb (accmode =? O_RDONLY) then Z.lor vmode vfs_mode_write else vmode in
            match open vtype vmode with
            | inl r =>
                s ← set_entry s e (Entry (fte_lock x) 1 flags 0 None);
                s ← file_decrement_count s e;
                Some (s, -1, r)
            | inr n =>
                s ← set_entry s e (Entry (fte_lock x) 1 flags 0 (Some n));
                let s := receive s [n] in
                if (node_type n =? vfs_type_directory) && negb (accmode =? O_RDONLY) then
                  s ← file_decrement_count s e; Some (s, -1, DE_DIRECTORY)
                else
                  '(s, fd) ← alloc_file_descriptor s i;
                  if fd <? 0 then s ← file_decrement_count s e; Some (s, fd, DE_OVERFLOW)
                  else s ← install s i fd e flags; Some (s, fd, DE_SUCCESS)
            end
        end
    end.

(** [file_pipe] and [file_openpty]: the flags of the two entries, those of the
    descriptors, and what the maker of the nodes answers.  The answer is the two
    descriptors and the error code. *)
Definition open_pair (s : files) (i flags0 flags1 flags : Z) (nodes : de_error + node * node)
  : option (files * Z * Z * de_error) :=
  '(s, fte0) ← alloc_file_entry s;
  match fte0 with
  | None => Some (s, -1, -1, DE_MEMORY)
  | Some e0 =>
      x0 ← (file_table s).[e0];
      s ← set_entry s e0 (Entry (fte_lock x0) 1 flags0 0 (fte_node x0));
      '(s, fte1) ← alloc_file_entry s;
      match fte1 with
      | None => s ← file_decrement_count s e0; Some (s, -1, -1, DE_MEMORY)
      | Some e1 =>
          x1 ← (file_table s).[e1];
          s ← set_entry s e1 (Entry (fte_lock x1) 1 flags1 0 (fte_node x1));
          match nodes with
          | inl r =>
              s ← file_decrement_count s e0;
              s ← file_decrement_count s e1;
              Some (s, -1, -1, r)
          | inr (n0, n1) =>
              x0 ← (file_table s).[e0];
              s ← set_entry s e0 (Entry (fte_lock x0) (fte_count x0) (fte_flags x0) (fte_offset x0) (Some n0));
              x1 ← (file_table s).[e1];
              s ← set_entry s e1 (Entry (fte_lock x1) (fte_count x1) (fte_flags x1) (fte_offset x1) (Some n1));
              let s := receive s [n0; n1] in
              '(s, fd0) ← alloc_file_descriptor s i;
              if fd0 <? 0 then
                s ← file_decrement_count s e0;
                s ← file_decrement_count s e1;
                Some (s, fd0, -1, DE_OVERFLOW)
              else
                s ← install s i fd0 e0 flags;
                '(s, fd1) ← alloc_file_descriptor s i;
                if fd1 <? 0 then
                  '(s, _) ← file_close s i fd0;
                  s ← file_decrement_count s e1;
                  Some (s, -1, fd1, DE_OVERFLOW)
                else
                  s ← install s i fd1 e1 flags;
                  Some (s, fd0, fd1, DE_SUCCESS)
          end
      end
  end.

Definition file_pipe (s : files) (i flags : Z) (vfs_pipe : de_error + node * node) :=
  open_pair s i (Z.lor O_RDONLY (Z.land flags O_NONBLOCK)) (Z.lor O_WRONLY (Z.land flags O_NONBLOCK)) flags vfs_pipe.

Definition file_openpty (s : files) (i : Z) (pty_create : de_error + node * node) :=
  open_pair s i O_RDWR O_RDWR 0 pty_create.

(** [file_dup]: the new descriptor, or -1, and the error code. *)
Definition file_dup (s : files) (i fd min_fd max_fd flags : Z) : option (files * Z * de_error) :=
  if (min_fd <? 0) || (min_fd >? max_fd) then Some (s, -1, DE_ARGUMENT)
  else if (fd =? min_fd) && (min_fd =? max_fd) then Some (s, -1, DE_ARGUMENT)
  else
    d ← descriptor s i fd;
    match d with
    | None => Some (s, -1, DE_ARGUMENT)
    | Some t =>
        x ← (tasks s).[i];
        let range := drop (Z.to_nat min_fd) (take (Z.to_nat (Z.min max_fd TASK_FD_STATIC_COUNT)) (fd_table x)) in
        '(s, empty_fd) ←
          match first_index (λ w, w =? 0) range min_fd with
          | Some k => Some (s, k)
          | None =>
              if (min_fd =? max_fd) && (min_fd <? TASK_FD_STATIC_COUNT)
              then '(s, _) ← file_close s i min_fd; Some (s, min_fd)
              else Some (s, -1)
          end;
        e ← entry_of t;
        y ← (file_table s).[e];
        if (empty_fd >=? 0) && (fte_count y <? INT_MAX) then
          x ← (tasks s).[i];
          s ← set_task s i (Task (if fd_state x <? empty_fd + 1 then empty_fd + 1 else fd_state x) (fd_table x) (wd_node x));
          w ← (fd_table x).[empty_fd];
          if negb (w =? 0) then Some (s, -1, DE_UNEXPECTED)
          else
            let w := Z.land t table_mask in
            s ← set_slot s i empty_fd (if has flags O_CLOEXEC then Z.lor w fd_cloexec else w);
            s ← set_entry s e (Entry (fte_lock y) (fte_count y + 1) (fte_flags y) (fte_offset y) (fte_node y));
            Some (s, empty_fd, DE_SUCCESS)
        else Some (s, -1, DE_OVERFLOW)
    end.

(** [file_fcntl]: *retval and the error code. *)
Definition file_fcntl (s : files) (i fd cmd arg : Z) : option (files * Z * de_error) :=
  d ← descriptor s i fd;
  match d with
  | None => Some (s, -1, DE_ARGUMENT)
  | Some t =>
      e ← entry_of t;
      x ← (file_table s).[e];
      if (cmd =? F_DUPFD) || (cmd =? F_DUPFD_CLOEXEC) then
        file_dup s i fd arg INT_MAX (if cmd =? F_DUPFD_CLOEXEC then O_CLOEXEC else 0)
      else if cmd =? F_GETFD then Some (s, if has t fd_cloexec then FD_CLOEXEC else -1, DE_SUCCESS)
      else if cmd =? F_SETFD then
        s ← (if has arg FD_CLOEXEC then set_slot s i fd (Z.lor t fd_cloexec) else Some s);
        Some (s, -1, DE_SUCCESS)
      else if cmd =? F_GETFL then Some (s, fte_flags x, DE_SUCCESS)
      else if cmd =? F_SETFL then
        let flags := u32 (fte_flags x) in
        let flags := Z.lor (Z.ldiff flags O_APPEND) (Z.land arg O_APPEND) in
        let flags := Z.lor (Z.ldiff flags O_NONBLOCK) (Z.land arg O_NONBLOCK) in
        s ← set_entry s e (Entry (fte_lock x) (fte_count x) (swrap 32 flags) (fte_offset x) (fte_node x));
        Some (s, -1, DE_SUCCESS)
      else Some (s, -1, DE_UNSUPPORTED)
  end.

(** ** The offset *)

Definition lseek_allowed (type : Z) : bool :=
  (type =? vfs_type_regular) || (type =? vfs_type_directory) || (type =? vfs_type_block) || (type =? vfs_type_message).

Definition get_file_size (n : node) : Z := default 0 (node_size n).

(** The offset that is asked for, if there is one; the negation of the smallest
    [off_t] is undefined. *)
Definition lseek_target (n : node) (current offset whence : Z) : option (option Z) :=
  let negated := if offset =? - 2 ^ 63 then None else Some (- offset) in
  let back o := s ← negated; Some (if o >=? s then Some (o - s) else None) in
  let ahead o := if o <=? u64 (o + offset) then Some (u64 (o + offset)) else None in
  if (whence =? SEEK_SET) && (offset >=? 0) then Some (Some offset)
  else if (whence =? SEEK_CUR) && (offset <? 0) then back current
  else if (whence =? SEEK_END) && (offset <? 0) then back (get_file_size n)
  else if (whence =? SEEK_CUR) && (offset >=? 0) then Some (ahead current)
  else if (whence =? SEEK_END) && (offset >=? 0) then Some (ahead (get_file_size n))
  else Some None.

(** [file_lseek]: *new_offset and the error code. *)
Definition file_lseek (s : files) (i fd offset whence : Z) : option (files * Z * de_error) :=
  d ← descriptor s i fd;
  match d with
  | None => Some (s, 0, DE_ARGUMENT)
  | Some t =>
      e ← entry_of t;
      x ← (file_table s).[e];
      n ← fte_node x;
      let other := negb (whence =? SEEK_SET) || negb (offset =? 0) in
      if negb (lseek_allowed (node_type n)) then Some (s, 0, DE_ACCESS)
      else if (node_type n =? vfs_type_directory) && other then Some (s, 0, DE_DIRECTORY)
      else if (node_type n =? vfs_type_message) && other then Some (s, 0, DE_ACCESS)
      else
        o ← lseek_target n (fte_offset x) offset whence;
        match o with
        | Some o =>
            s ← set_entry s e (Entry (fte_lock x) (fte_count x) (fte_flags x) o (fte_node x));
            Some (s, o, DE_SUCCESS)
        | None => Some (s, fte_offset x, DE_UNSUPPORTED)
        end
  end.

(** ** Tasks *)

(** file_close for the descriptors from [fd] on, [n] of them, whose words are such
    as [p] asks for. *)
Fixpoint close_slots (p : Z → bool) (s : files) (i fd : Z) (n : nat) : option files :=
  match n with
  | O => Some s
  | S n =>
      t ← (tasks s).[i];
      w ← (fd_table t).[fd];
      s ← (if p w then '(s, _) ← file_close s i fd; Some s else Some s);
      close_slots p s i (fd + 1) n
  end.

Definition fd_release_func (s : files) (i : Z) : option files :=
  t ← (tasks s).[i];
  s ← close_slots (λ w, negb (w =? 0)) s i 0 (Z.to_nat (fd_state t));
  t ← (tasks s).[i];
  s ← set_task s i (Task (fd_state t) (fd_table t) None);
  Some (release s (wd_node t)).

(** The loop of an exec: [dancy_syscall_execve] and [spawn]. *)
Definition exec_close (s : files) (i : Z) : option files :=
  t ← (tasks s).[i];
  close_slots (λ w, has w fd_cloexec) s i 0 (Z.to_nat (fd_state t)).

(** The words for the new task; every entry counts one more. *)
Fixpoint clone_slots (s : files) (l : list Z) : option (files * list Z) :=
  match l with
  | [] => Some (s, [])
  | t :: l =>
      '(s, w) ←
        (if Z.land t table_mask =? 0 then Some (s, t)
         else
           e ← entry_of t;
           x ← (file_table s).[e];
           if (fte_count x >? 0) && (fte_count x <? INT_MAX) then
             s ← set_entry s e (Entry (fte_lock x) (fte_count x + 1) (fte_flags x) (fte_offset x) (fte_node x));
             Some (s, t)
           else Some (s, 0));
      '(s, l) ← clone_slots s l;
      Some (s, w :: l)
  end.

(** [fd_clone_func] from the task [i] to the task [j]. *)
Definition fd_clone_func (s : files) (i j : Z) : option files :=
  t ← (tasks s).[i];
  new ← (tasks s).[j];
  let n := Z.to_nat (fd_state t) in
  '(s, l) ← clone_slots s (take n (fd_table t));
  s ← set_task s j (Task (fd_state t) (l ++ drop n (fd_table new))
        (match wd_node t with Some w => Some w | None => wd_node new end));
  Some (receive s (option_list (wd_node t))).

(** [file_chdir]: [open] is the answer of [vfs_open]. *)
Definition file_chdir (s : files) (i : Z) (open : de_error + node) : option (files * de_error) :=
  t ← (tasks s).[i];
  let state := if fd_state t =? 0 then 1 else fd_state t in
  match open with
  | inl r => s ← set_task s i (Task state (fd_table t) (wd_node t)); Some (s, r)
  | inr n =>
      s ← set_task s i (Task state (fd_table t) (Some n));
      Some (release (receive s [n]) (wd_node t), DE_SUCCESS)
  end.

End FileTable.
