(* ===== verification/FileOk.v ===== *)
(** The invariant of the file descriptors: every entry counts the descriptors that
    refer to it, an entry in use owns a node, and a node is released when its last
    descriptor goes. *)

From stdpp Require Import relations.
From S2P Require Import Prelude Errors VfsPath Vfs FileTable.

Lemma first_index_spec {A} (p : A → bool) l i :
  match first_index p l i with
  | Some k => i ≤ k < i + Z.of_nat (length l) ∧ (∃ x, l !! Z.to_nat (k - i) = Some x ∧ p x = true) ∧
      ∀ j x, l !! j = Some x → Z.of_nat j < k - i → p x = false
  | None => ∀ x, x ∈ l → p x = false
  end.
Proof.
  revert i. induction l as [|x l IH]; intros i; cbn [first_index]; [by intros x ?%elem_of_nil|].
  destruct (p x) eqn:Hp.
  - cbn [length]. split; [lia|]. rewrite Z.sub_diag. split; [by exists x|]. intros j y _ Hj. lia.
  - specialize (IH (i + 1)). destruct (first_index p l (i + 1)) as [k|].
    + destruct IH as (Hk & (y & Hy & Hpy) & Hbef). cbn [length]. split; [lia|]. split.
      * exists y. split; [|done]. replace (Z.to_nat (k - i)) with (S (Z.to_nat (k - (i + 1)))) by lia. done.
      * intros [|j] z Hz Hj; [by injection Hz as <-|]. apply (Hbef j); [done|lia].
    + intros y [->|Hy]%elem_of_cons; [done|by apply IH].
Qed.

Section FileOk.
Context {node : Type} `{!NodeInfo node} (file_table_address : Z).
Abbreviation files := (files (node := node)).
Abbreviation entry_of := (entry_of file_table_address).
Implicit Types (s : files) (t : task_fd (node := node)) (x : file_table_entry (node := node)).

(** The table lies below 256 MiB and not at the null address. *)
Context (address_ok : 0 < file_table_address ∧ file_table_address + 4096 * entry_size ≤ 2 ^ 28).

(** ** Words *)

Lemma entry_of_land w w' : Z.land w table_mask = Z.land w' table_mask → entry_of w = entry_of w'.
Proof. intros Hw. unfold FileTable.entry_of. by rewrite Hw. Qed.

Lemma entry_of_cloexec w : entry_of (Z.lor w fd_cloexec) = entry_of w.
Proof.
  apply entry_of_land. rewrite Z.land_lor_distr_l. change (Z.land fd_cloexec table_mask) with 0. apply Z.lor_0_r.
Qed.

Lemma entry_of_mask w : entry_of (Z.land w table_mask) = entry_of w.
Proof. apply entry_of_land. by rewrite <- Z.land_assoc, Z.land_diag. Qed.

Lemma entry_of_address e : 0 ≤ e < 4096 → entry_of (u32 (entry_address file_table_address e)) = Some e.
Proof.
  intros He. unfold entry_size in address_ok. unfold FileTable.entry_of, entry_address, entry_size.
  rewrite wrap_small by lia. change table_mask with (2 ^ 28 - 1). rewrite land_ones_mod, Z.mod_small by lia.
  replace (file_table_address + 32 * e - file_table_address) with (e * 32) by lia.
  rewrite Z_mod_mult, Z.div_mul, (proj2 (Z.leb_le _ _)), (proj2 (Z.ltb_lt _ _)) by lia. done.
Qed.

Lemma entry_of_range w e : entry_of w = Some e → 0 ≤ e < 4096.
Proof.
  unfold FileTable.entry_of, entry_size. set (a := _ - file_table_address).
  destruct (Z.leb_spec 0 a); [|done]. destruct (a mod 32 =? 0); [|done]. cbn [andb].
  destruct (Z.ltb_spec (a / 32) 4096); [|done]. intros [= <-]. split; [by apply Z.div_pos|lia].
Qed.

Lemma entry_of_0 : entry_of 0 = None.
Proof. unfold FileTable.entry_of. by rewrite Z.land_0_l, (proj2 (Z.leb_gt _ _)) by lia. Qed.

Lemma entry_of_nonzero w e : entry_of w = Some e → (w =? 0) = false ∧ (Z.land w table_mask =? 0) = false.
Proof.
  intros He. split; apply Z.eqb_neq; intros Hw.
  - by rewrite Hw, entry_of_0 in He.
  - rewrite <- entry_of_mask, Hw, entry_of_0 in He. done.
Qed.

(** ** References *)

Definition refers (e w : Z) : nat := if decide (entry_of w = Some e) then 1%nat else 0%nat.
Definition task_refs (e : Z) t : nat := total (refers e) (fd_table t).
Definition refs (e : Z) s : nat := total (task_refs e) (tasks s).

(** The nodes that entries and tasks own. *)
Definition held s : list node := omap fte_node (file_table s) ++ omap wd_node (tasks s).

Definition slot_ok (w : Z) : Prop := w = 0 ∨ is_Some (entry_of w).

Record task_ok t : Prop := {
  t_state : 0 ≤ fd_state t ≤ TASK_FD_STATIC_COUNT;
  t_length : length (fd_table t) = 64%nat;
  t_slots : Forall slot_ok (fd_table t);
  t_rest : ∀ k w, (fd_table t).[k] = Some w → fd_state t ≤ k → w = 0 }.

(** [n] references, of which [m] are descriptors. *)
Definition entry_ok x (n m : nat) : Prop :=
  fte_count x = Z.of_nat n ∧ Z.of_nat n ≤ INT_MAX ∧
  (n = 0%nat → x = no_entry) ∧ ((0 < n)%nat → fte_lock x = true) ∧ ((0 < m)%nat → is_Some (fte_node x)).

(** The invariant inside of a call: [pend] are the references that the call itself
    holds, [debt] the nodes that are stored but not counted as acquired yet. *)
Definition pending (e : Z) (pend : list Z) : nat := total (λ k : Z, if decide (k = e) then 1%nat else 0%nat) pend.

Record files_ok s (pend : list Z) (debt : list node) : Prop := {
  f_table : length (file_table s) = 4096%nat;
  f_tasks : Forall task_ok (tasks s);
  f_entries : ∀ e x, (file_table s).[e] = Some x → entry_ok x (pending e pend + refs e s) (refs e s);
  f_nodes : acquired s ++ debt ≡ₚ held s ++ released s }.

Lemma files_entry s pend o e : files_ok s pend o → 0 ≤ e < 4096 → ∃ x, (file_table s).[e] = Some x.
Proof. intros Hs He. apply rd_is_Some. rewrite (f_table _ _ _ Hs). lia. Qed.

Lemma files_task s pend o i t : files_ok s pend o → (tasks s).[i] = Some t → task_ok t.
Proof.
  intros Hs Hi. apply rd_Some in Hi as [_ Hi]. by apply (Forall_lookup_1 _ _ _ _ (f_tasks _ _ _ Hs) Hi).
Qed.

Lemma refs_set_task s i t t' e :
  (tasks s).[i] = Some t →
  ∃ s', set_task s i t' = Some s' ∧ (refs e s' + task_refs e t = refs e s + task_refs e t')%nat.
Proof.
  intros Hi. unfold set_task. destruct (wr_lookup _ _ _ t' Hi) as (l & -> & -> & Hl). cbn [mbind option_bind].
  eexists. split; [done|]. unfold refs. cbn [tasks]. by apply total_insert.
Qed.

(** A task changes, and with it the references that the call holds and the nodes. *)
Lemma set_task_ok s pend pend' o o' i t t' :
  files_ok s pend o → (tasks s).[i] = Some t → task_ok t' →
  (∀ e, (pending e pend' + task_refs e t' = pending e pend + task_refs e t)%nat) →
  (∀ e x, (file_table s).[e] = Some x → (task_refs e t < task_refs e t')%nat → is_Some (fte_node x)) →
  o' ++ option_list (wd_node t) ≡ₚ o ++ option_list (wd_node t') →
  ∃ s', set_task s i t' = Some s' ∧ file_table s' = file_table s ∧ released s' = released s ∧
    tasks s' = <[Z.to_nat i := t']> (tasks s) ∧ files_ok s' pend' o'.
Proof.
  intros [Ht Hts He Hn] Hi Hok Hp Hnode Ho.
  assert (Hrefs : ∀ e s', tasks s' = <[Z.to_nat i := t']> (tasks s) →
    (refs e s' + task_refs e t = refs e s + task_refs e t')%nat).
  { intros e s' E. unfold refs. rewrite E. apply total_insert. by apply rd_Some in Hi as [_ Hi]. }
  unfold set_task. destruct (wr_lookup _ _ _ t' Hi) as (l & -> & -> & Hl). cbn [mbind option_bind].
  eexists. split; [done|]. split; [done|]. split; [done|]. split; [done|]. split; cbn [file_table tasks released].
  - done.
  - by apply Forall_insert.
  - intros e x Hx. destruct (He e x Hx) as (H1 & H2 & H3 & H4 & H5).
    set (s' := Files _ _ _ _). specialize (Hrefs e s' eq_refl). specialize (Hp e).
    replace (pending e pend' + refs e s')%nat with (pending e pend + refs e s)%nat by lia.
    split_and!; try done. intros Hpos. destruct (decide (task_refs e t < task_refs e t')%nat) as [Hlt|Hge].
    + by apply (Hnode e).
    + apply H5. lia.
  - unfold held in *. cbn [file_table tasks acquired]. pose proof (omap_insert wd_node _ _ _ t' Hl) as Hw.
    rewrite <- (app_assoc (omap fte_node _)) in *. eapply perm_replace; [|exact Hn|exact Hw].
    by rewrite <- !app_assoc, Ho.
Qed.

Lemma release_node_ok s pend o n : files_ok s pend o → files_ok (release s n) pend (o ++ option_list n).
Proof.
  intros [Ht Hts He Hn]. destruct n as [n|]; cbn [release option_list]; [|by rewrite app_nil_r].
  split; try done. unfold held in *. cbn [file_table tasks released acquired]. by rewrite !app_assoc, Hn.
Qed.

(** An entry changes. *)
Lemma set_entry_ok s pend pend' o o' e x x' :
  files_ok s pend o → (file_table s).[e] = Some x →
  entry_ok x' (pending e pend' + refs e s) (refs e s) →
  (∀ k, k ≠ e → pending k pend' = pending k pend) →
  o' ++ option_list (fte_node x) ≡ₚ o ++ option_list (fte_node x') →
  ∃ s', set_entry s e x' = Some s' ∧ file_table s' = <[Z.to_nat e := x']> (file_table s) ∧
    released s' = released s ∧ tasks s' = tasks s ∧ files_ok s' pend' o'.
Proof.
  intros [Ht Hts He Hn] Hx Hok Hp Ho. pose proof (rd_lt _ _ _ Hx) as Hlt.
  unfold set_entry. destruct (wr_lookup _ _ _ x' Hx) as (l & -> & -> & Hl). cbn [mbind option_bind].
  eexists. split; [done|]. split; [done|]. split; [done|]. split; [done|]. split; cbn [file_table tasks released].
  - by rewrite length_insert.
  - done.
  - intros k y Hy. rewrite rd_insert in Hy by done. destruct (decide (e = k)) as [<-|Hne].
    + by injection Hy as <-.
    + rewrite Hp by done. by apply He.
  - unfold held in *. cbn [file_table tasks acquired]. pose proof (omap_insert fte_node _ _ _ x' Hl) as Hw.
    rewrite <- app_assoc in *. eapply (perm_replace (acquired s ++ o) _ []); [|exact Hn|exact Hw].
    by rewrite <- !app_assoc, Ho.
Qed.

Lemma set_entry_release s e x n :
  set_entry (release s n) e x = (s ← set_entry s e x; Some (release s n)).
Proof. unfold set_entry. destruct n; cbn [release file_table]; by destruct (wr _ _ _). Qed.

Lemma set_task_release s i t n :
  set_task (release s n) i t = (s ← set_task s i t; Some (release s n)).
Proof. unfold set_task. destruct n; cbn [release tasks]; by destruct (wr _ _ _). Qed.

Lemma release_tasks s n : tasks (release s n) = tasks s ∧ file_table (release s n) = file_table s.
Proof. by destruct n. Qed.

Lemma pending_cons e k pend : pending e (k :: pend) = ((if decide (k = e) then 1 else 0) + pending e pend)%nat.
Proof. done. Qed.

(** A reference that the call holds is given back. *)
Lemma file_decrement_ok s e pend o :
  files_ok s (e :: pend) o → 0 ≤ e < 4096 →
  ∃ s', file_decrement_count s e = Some s' ∧ tasks s' = tasks s ∧ files_ok s' pend o.
Proof.
  intros Hs He. destruct (files_entry _ _ _ _ Hs He) as (x & Hx).
  destruct (f_entries _ _ _ Hs e x Hx) as (H1 & H2 & H3 & H4 & H5).
  rewrite pending_cons, decide_True in H1, H2, H3, H4 by done.
  set (n := (pending e pend + refs e s)%nat) in *.
  replace (1 + pending e pend + refs e s)%nat with (S n) in * by (unfold n; lia).
  assert (Hp : ∀ k, k ≠ e → pending k pend = pending k (e :: pend)).
  { intros k Hk. by rewrite pending_cons, decide_False by congruence. }
  unfold file_decrement_count. rewrite Hx. cbn [mbind option_bind]. rewrite H1, Z.gtb_ltb, (proj2 (Z.ltb_lt _ _)) by lia.
  replace (Z.of_nat (S n) - 1) with (Z.of_nat n) by lia.
  destruct (Z.eqb_spec (Z.of_nat n) 0) as [Hz|Hz].
  - assert (n = 0%nat) by lia. assert (refs e s = 0%nat) by lia.
    pose proof (release_node_ok _ _ _ (fte_node x) Hs) as Hr. destruct (release_tasks s (fte_node x)) as [E1 E2].
    destruct (set_entry_ok _ _ pend _ o e x no_entry Hr) as (s1 & Hset & Hft & _ & Hts & Hok).
    + by rewrite E2.
    + unfold refs in *. rewrite E1. fold n. split_and!; try done; unfold INT_MAX; cbn [fte_count no_entry]; lia.
    + done.
    + by rewrite app_nil_r.
    + rewrite set_entry_release in Hset. destruct (set_entry s e (Entry false 0 0 0 None)) as [s2|] eqn:Hs2; cbn [mbind option_bind] in *.
      2:{ unfold no_entry in Hset. by rewrite Hs2 in Hset. }
      unfold no_entry in Hset. rewrite Hs2 in Hset. cbn [mbind option_bind] in Hset. injection Hset as ->.
      exists s1. by rewrite Hts, E1.
  - destruct (set_entry_ok s _ pend _ o e x (Entry (fte_lock x) (Z.of_nat n) (fte_flags x) (fte_offset x) (fte_node x)) Hs Hx)
      as (s1 & Hset & _ & _ & Hts & Hok); [|done|done|by exists s1].
    fold n. split_and!; cbn [fte_count fte_lock fte_node]; (done || lia || idtac).
    intros _. apply H4. lia.
Qed.

(** The call gets an entry. *)
Lemma new_entry_ok s e pend o x n flags :
  files_ok s pend o → (file_table s).[e] = Some x → pending e pend = 0%nat → refs e s = 0%nat →
  ∃ s', set_entry s e (Entry true 1 flags 0 n) = Some s' ∧ tasks s' = tasks s ∧ released s' = released s ∧
    file_table s' = <[Z.to_nat e := Entry true 1 flags 0 n]> (file_table s) ∧
    files_ok s' (e :: pend) (o ++ option_list n).
Proof.
  intros Hs Hx Hp Hr. destruct (f_entries _ _ _ Hs e x Hx) as (H1 & H2 & H3 & H4 & H5).
  rewrite Hp, Hr in H3. specialize (H3 eq_refl). subst x.
  destruct (set_entry_ok s pend (e :: pend) o (o ++ option_list n) e no_entry (Entry true 1 flags 0 n) Hs Hx)
    as (s1 & Hset & Hft & Hre & Hts & Hok).
  - rewrite pending_cons, decide_True, Hp, Hr by done. split_and!; cbn; unfold INT_MAX; (done || lia).
  - intros k Hk. by rewrite pending_cons, decide_False by congruence.
  - cbn. by rewrite app_nil_r.
  - exists s1. by split_and!.
Qed.

(** The first free entry, or none when all are in use. *)
Lemma alloc_file_entry_ok s pend o :
  files_ok s pend o →
  (alloc_file_entry s = Some (s, None) ∧ ∀ e x, (file_table s).[e] = Some x → (0 < pending e pend + refs e s)%nat) ∨
  ∃ s1 e, alloc_file_entry s = Some (s1, Some e) ∧ 0 ≤ e < 4096 ∧ (file_table s).[e] = Some no_entry ∧
    pending e pend = 0%nat ∧ refs e s = 0%nat ∧ (file_table s1).[e] = Some (Entry true 0 0 0 None) ∧
    ∀ x, set_entry s1 e x = set_entry s e x.
Proof.
  intros Hs. unfold alloc_file_entry. pose proof (first_index_spec (λ x, negb (fte_lock x)) (file_table s) 0) as Hf.
  destruct (first_index _ _ _) as [e|].
  - destruct Hf as (He & (x & Hx & Hp) & _). rewrite Z.sub_0_r, (f_table _ _ _ Hs) in *. right.
    assert (Hrd : (file_table s).[e] = Some x) by (apply rd_Some; split; [lia|done]).
    rewrite Hrd. cbn [mbind option_bind]. destruct (f_entries _ _ _ Hs e x Hrd) as (H1 & H2 & H3 & H4 & H5).
    destruct (decide (pending e pend + refs e s = 0)%nat) as [Hz|Hz]; cycle 1.
    { rewrite H4 in Hp by lia. done. }
    specialize (H3 Hz). subst x. unfold set_entry at 1. pose proof (rd_lt _ _ _ Hrd) as Hlt.
    rewrite wr_Some by done. cbn [mbind option_bind]. eexists _, e. split; [done|]. split; [lia|]. split; [done|].
    split; [lia|]. split; [lia|]. split.
    + cbn [file_table]. rewrite rd_insert by done. by rewrite decide_True.
    + intros x. unfold set_entry. cbn [file_table tasks released].
      rewrite !wr_Some by (rewrite ?length_insert; done). cbn [mbind option_bind]. by rewrite list_insert_insert_eq.
  - left. split; [done|]. intros e x Hrd. destruct (f_entries _ _ _ Hs e x Hrd) as (_ & _ & H3 & _).
    destruct (decide (pending e pend + refs e s = 0)%nat) as [Hz|Hz]; [|lia].
    apply rd_Some in Hrd as [_ Hl]. apply list_elem_of_lookup_2 in Hl. specialize (Hf _ Hl). by rewrite H3 in Hf.
Qed.

(** A word of a table changes. *)
Lemma set_slot_ok s pend pend' o i t fd w0 w :
  files_ok s pend o → (tasks s).[i] = Some t → (fd_table t).[fd] = Some w0 → slot_ok w → (fd < fd_state t ∨ w = 0) →
  (∀ e, (pending e pend' + refers e w = pending e pend + refers e w0)%nat) →
  (∀ e x, (file_table s).[e] = Some x → entry_of w = Some e → is_Some (fte_node x)) →
  ∃ s', set_slot s i fd w = Some s' ∧ file_table s' = file_table s ∧ released s' = released s ∧
    tasks s' = <[Z.to_nat i := Task (fd_state t) (<[Z.to_nat fd := w]> (fd_table t)) (wd_node t)]> (tasks s) ∧
    files_ok s' pend' o.
Proof.
  intros Hs Hi Hfd Hw Hst Hp Hn. unfold set_slot. rewrite Hi. cbn [mbind option_bind].
  destruct (wr_lookup _ _ _ w Hfd) as (l & -> & -> & Hl). cbn [mbind option_bind].
  pose proof (files_task _ _ _ _ _ Hs Hi) as Ht. pose proof (rd_lt _ _ _ Hfd) as Hlt.
  assert (Hrefs : ∀ e, (task_refs e (Task (fd_state t) (<[Z.to_nat fd := w]> (fd_table t)) (wd_node t)) + refers e w0 =
                        task_refs e t + refers e w)%nat).
  { intros e. unfold task_refs. cbn [fd_table]. by apply total_insert. }
  apply (set_task_ok s pend pend' o o i t); try done.
  - destruct Ht as [H1 H2 H3 H4]. split; cbn [fd_state fd_table]; [done|by rewrite length_insert|by apply Forall_insert|].
    intros k v Hv Hk. rewrite rd_insert in Hv by done. destruct (decide (fd = k)) as [<-|]; [|by eapply H4].
    injection Hv as <-. destruct Hst; [lia|done].
  - intros e. specialize (Hp e). specialize (Hrefs e). lia.
  - intros e x Hx Hgt. apply (Hn e x Hx). specialize (Hrefs e). unfold refers in Hrefs at 2.
    destruct (decide (entry_of w = Some e)); [done|]. lia.
Qed.

Lemma descriptor_ok s pend o i t fd :
  files_ok s pend o → (tasks s).[i] = Some t →
  descriptor s i fd = Some None ∧ (0 ≤ fd < fd_state t → (fd_table t).[fd] = Some 0) ∨
  ∃ w e x, descriptor s i fd = Some (Some w) ∧ 0 ≤ fd < fd_state t ∧ (fd_table t).[fd] = Some w ∧ entry_of w = Some e ∧
    (file_table s).[e] = Some x ∧ (0 < task_refs e t)%nat.
Proof.
  intros Hs Hi. unfold descriptor. rewrite Hi. cbn [mbind option_bind]. destruct (files_task _ _ _ _ _ Hs Hi) as [H1 H2 H3 H4].
  unfold TASK_FD_STATIC_COUNT in H1. rewrite Z.geb_leb.
  destruct (Z.leb_spec 0 fd), (Z.ltb_spec fd (fd_state t)); cbn [andb]; try (left; split; [done|lia]).
  destruct (rd_is_Some (fd_table t) fd) as (w & Hw); [lia|]. rewrite Hw. cbn [mbind option_bind].
  destruct (Z.eqb_spec w 0) as [->|Hne]; cbn [negb]; [by left|]. right.
  assert (Hin : w ∈ fd_table t). { apply rd_Some in Hw as [_ Hw]. by apply list_elem_of_lookup_2 in Hw. }
  destruct (proj1 (list.Forall_forall _ _) H3 w Hin) as [|(e & He)]; [done|].
  destruct (files_entry _ _ _ e Hs (entry_of_range _ _ He)) as (x & Hx). exists w, e, x. split_and!; try done; [lia..|].
  unfold task_refs. pose proof (total_pos (refers e) _ _ Hin) as Hpos. unfold refers at 1 in Hpos.
  rewrite decide_True in Hpos by done. lia.
Qed.

Lemma task_refs_le s i t e : (tasks s).[i] = Some t → (task_refs e t ≤ refs e s)%nat.
Proof. intros Hi. apply rd_Some in Hi as [_ Hi]. apply total_pos. by apply list_elem_of_lookup_2 in Hi. Qed.

(** An entry that a descriptor refers to is in use and owns a node. *)
Lemma referred_entry s pend o i t e x :
  files_ok s pend o → (tasks s).[i] = Some t → (0 < task_refs e t)%nat → (file_table s).[e] = Some x →
  is_Some (fte_node x) ∧ fte_lock x = true ∧ 0 < fte_count x.
Proof.
  intros Hs Hi Hpos Hx. destruct (f_entries _ _ _ Hs e x Hx) as (H1 & H2 & H3 & H4 & H5).
  pose proof (task_refs_le _ _ _ e Hi). split; [apply H5; lia|]. split; [apply H4; lia|lia].
Qed.

(** [file_decrement_count] and a word commute. *)
Lemma decrement_slot s s1 s2 e i fd w :
  set_slot s i fd w = Some s1 → file_decrement_count s1 e = Some s2 →
  ∃ s', file_decrement_count s e = Some s' ∧ set_slot s' i fd w = Some s2.
Proof.
  unfold set_slot. destruct (tasks s).[i] as [t|] eqn:Hi; [|done]. cbn [mbind option_bind].
  destruct (fd_table t).[fd <- w] as [l|] eqn:Hl; [|done]. cbn [mbind option_bind].
  unfold set_task. destruct (wr _ i _) as [ts|] eqn:Hts; [|done]. cbn [mbind option_bind]. intros [= <-].
  unfold file_decrement_count. cbn [file_table]. destruct (file_table s).[e] as [x|]; [|done]. cbn [mbind option_bind].
  unfold set_entry. cbn [file_table tasks released]. destruct (_ =? 0).
  - destruct (wr _ e _) as [ft|]; [|done]. cbn [mbind option_bind]. intros [= <-]. eexists. split; [done|].
    destruct (fte_node x); cbn [release tasks file_table released]; rewrite Hi; cbn [mbind option_bind]; rewrite Hl;
      cbn [mbind option_bind tasks]; by rewrite Hts.
  - destruct (wr _ e _) as [ft|]; [|done]. cbn [mbind option_bind]. intros [= <-]. eexists. split; [done|].
    cbn [tasks file_table released]. rewrite Hi. cbn [mbind option_bind]. rewrite Hl. cbn [mbind option_bind tasks]. by rewrite Hts.
Qed.

Lemma refers_zero e : refers e 0 = 0%nat.
Proof. unfold refers. by rewrite entry_of_0. Qed.

Lemma refers_one e w : entry_of w = Some e → ∀ k, refers k w = if decide (e = k) then 1%nat else 0%nat.
Proof. intros He k. unfold refers. rewrite He. destruct (decide (e = k)) as [->|]; [by rewrite decide_True|by rewrite decide_False by congruence]. Qed.

Lemma file_close_ok s pend o i t fd :
  files_ok s pend o → (tasks s).[i] = Some t →
  (file_close file_table_address s i fd = Some (s, DE_ARGUMENT) ∧ (0 ≤ fd < fd_state t → (fd_table t).[fd] = Some 0)) ∨
  ∃ s', file_close file_table_address s i fd = Some (s', DE_SUCCESS) ∧ files_ok s' pend o ∧ 0 ≤ fd < fd_state t ∧
    (∃ w e, (fd_table t).[fd] = Some w ∧ entry_of w = Some e) ∧
    tasks s' = <[Z.to_nat i := Task (fd_state t) (<[Z.to_nat fd := 0]> (fd_table t)) (wd_node t)]> (tasks s).
Proof.
  intros Hs Hi. unfold file_close. destruct (descriptor_ok s pend o i t fd Hs Hi) as [[-> Hz]|(w & e & x & -> & Hfd & Hw & He & Hx & _)];
    cbn [mbind option_bind]; [by left|]. right. rewrite He. cbn [mbind option_bind].
  destruct (set_slot_ok s pend (e :: pend) o i t fd w 0 Hs Hi Hw) as (s1 & H1 & _ & _ & Ht1 & Hok1).
  - by left.
  - by right.
  - intros k. rewrite refers_zero, pending_cons, (refers_one e w He). lia.
  - intros k y _ Hk. by rewrite entry_of_0 in Hk.
  - destruct (file_decrement_ok s1 e pend o Hok1 (entry_of_range _ _ He)) as (s2 & H2 & Ht2 & Hok2).
    destruct (decrement_slot _ _ _ _ _ _ _ H1 H2) as (s' & -> & Hs'). cbn [mbind option_bind]. rewrite Hs'. cbn [mbind option_bind].
    exists s2. split; [done|]. split; [done|]. split; [done|]. split; [by exists w, e|]. by rewrite Ht2, Ht1.
Qed.

(** The lowest free descriptor, in a table that may grow. *)
Lemma alloc_file_descriptor_ok s pend o i t :
  files_ok s pend o → (tasks s).[i] = Some t →
  (alloc_file_descriptor s i = Some (s, -1) ∧ fd_state t = 64 ∧ ∀ w, w ∈ fd_table t → w ≠ 0) ∨
  ∃ s' fd state, alloc_file_descriptor s i = Some (s', fd) ∧ files_ok s' pend o ∧ 0 ≤ fd < state ∧
    file_table s' = file_table s ∧ (tasks s').[i] = Some (Task state (fd_table t) (wd_node t)) ∧
    (fd_table t).[fd] = Some 0 ∧ ∀ k w, (fd_table t).[k] = Some w → k < fd → w ≠ 0.
Proof.
  intros Hs Hi. unfold alloc_file_descriptor. rewrite Hi. cbn [mbind option_bind].
  destruct (files_task _ _ _ _ _ Hs Hi) as [H1 H2 H3 H4]. unfold TASK_FD_STATIC_COUNT in *.
  pose proof (first_index_spec (λ w, w =? 0) (take (Z.to_nat (fd_state t)) (fd_table t)) 0) as Hf.
  destruct (first_index _ _ _) as [fd|].
  - destruct Hf as (Hfd & (w & Hw & Hw0) & Hbef). rewrite Z.sub_0_r, length_take, H2 in *. right.
    apply Z.eqb_eq in Hw0. subst w. rewrite lookup_take_lt in Hw by lia.
    exists s, fd, (fd_state t). split; [done|]. split; [done|]. split; [lia|]. split; [done|].
    split; [rewrite Hi; by destruct t|]. split; [apply rd_Some; split; [lia|done]|].
    intros k w Hk Hlt. apply rd_Some in Hk as [Hk0 Hk]. apply Z.eqb_neq. apply (Hbef (Z.to_nat k)); [|lia].
    rewrite lookup_take_lt by lia. done.
  - assert (Hfull : ∀ k w, (fd_table t).[k] = Some w → k < fd_state t → w ≠ 0).
    { intros k w Hk Hlt. apply rd_Some in Hk as [Hk0 Hk]. apply Z.eqb_neq. apply Hf.
      apply (list_elem_of_lookup_2 _ (Z.to_nat k)). rewrite lookup_take_lt by lia. done. }
    destruct (Z.ltb_spec (fd_state t) 64); cycle 1.
    { left. split; [done|]. split; [lia|]. intros w Hw. apply list_elem_of_lookup in Hw as (k & Hk).
      pose proof (lookup_lt_Some _ _ _ Hk). apply (Hfull (Z.of_nat k)); [|lia]. apply rd_Some. rewrite Nat2Z.id. split; [lia|done]. }
    right. destruct (rd_is_Some (fd_table t) (fd_state t)) as (w & Hw); [lia|].
    pose proof (H4 _ _ Hw ltac:(lia)). subst w.
    destruct (set_task_ok s pend pend o o i t (Task (fd_state t + 1) (fd_table t) (wd_node t)) Hs Hi)
      as (s' & Hset & Hft & Hre & Hts & Hok); try done.
    + split; cbn [fd_state fd_table]; unfold TASK_FD_STATIC_COUNT; [lia|done|done|]. intros k w Hk Hge. apply (H4 k w Hk). lia.
    + intros e x _ Hlt. unfold task_refs in Hlt. cbn [fd_table] in Hlt. lia.
    + rewrite Hset. cbn [mbind option_bind]. exists s', (fd_state t), (fd_state t + 1). split; [done|]. split; [done|].
      split; [lia|]. split; [done|]. split; [|by split].
      rewrite Hts, rd_insert by (by eapply rd_lt). by rewrite decide_True.
Qed.

Lemma receive_ok s pend l o : files_ok s pend (l ++ o) → files_ok (receive s l) pend o.
Proof. intros [Ht Hts He Hn]. split; try done. cbn [acquired receive]. by rewrite <- app_assoc. Qed.

(** A descriptor for a reference that the call holds. *)
Lemma install_ok s e pend o i t fd flags x :
  files_ok s (e :: pend) o → (tasks s).[i] = Some t → 0 ≤ e < 4096 → (file_table s).[e] = Some x → is_Some (fte_node x) →
  (fd_table t).[fd] = Some 0 → fd < fd_state t →
  ∃ s' w, install file_table_address s i fd e flags = Some s' ∧ files_ok s' pend o ∧ file_table s' = file_table s ∧
    entry_of w = Some e ∧
    tasks s' = <[Z.to_nat i := Task (fd_state t) (<[Z.to_nat fd := w]> (fd_table t)) (wd_node t)]> (tasks s).
Proof.
  intros Hs Hi He Hx Hn Hz Hfd. unfold install. set (w := if has _ _ then _ else _).
  assert (Hw : entry_of w = Some e).
  { unfold w. destruct (has _ _); rewrite ?entry_of_cloexec; by apply entry_of_address. }
  destruct (set_slot_ok s (e :: pend) pend o i t fd 0 w Hs Hi Hz) as (s' & Hset & Hft & _ & Hts & Hok).
  - right. by exists e.
  - by left.
  - intros k. rewrite refers_zero, pending_cons, (refers_one e w Hw). lia.
  - intros k y Hy Hk. assert (k = e) by congruence. subst k. congruence.
  - exists s', w. by split_and!.
Qed.

Lemma decrement_none s e o : files_ok s [e] o → 0 ≤ e < 4096 →
  ∃ s', file_decrement_count s e = Some s' ∧ files_ok s' [] o ∧ tasks s' = tasks s.
Proof. intros Hs He. destruct (file_decrement_ok s e [] o Hs He) as (s' & -> & Ht & Hok). by exists s'. Qed.

Lemma file_open_ok s i t flags open :
  files_ok s [] [] → (tasks s).[i] = Some t →
  ∃ s' fd r, file_open file_table_address s i flags open = Some (s', fd, r) ∧ files_ok s' [] [].
Proof.
  intros Hs Hi. unfold file_open. destruct (negb _ && _ && _); [by eexists _, _, _|]. destruct (has flags O_DIRECTORY && _); [by eexists _, _, _|].
  destruct (alloc_file_entry_ok s [] [] Hs) as [[-> _]|(s1 & e & -> & He & Hx & Hp & Hr & Hx1 & Hset)];
    cbn [mbind option_bind]; [by eexists _, _, _|].
  rewrite Hx1. cbn [mbind option_bind fte_node fte_lock]. set (vt := if has flags O_DIRECTORY then _ else _).
  match goal with |- context [open vt ?m] => set (vm := m) end. destruct (open vt vm) as [r|n].
  - rewrite Hset. destruct (new_entry_ok s e [] [] _ None flags Hs Hx Hp Hr) as (s2 & -> & Ht2 & _ & _ & Hok2). cbn [mbind option_bind].
    destruct (decrement_none s2 e _ Hok2 He) as (s3 & -> & Hok3 & _). cbn [mbind option_bind]. by eexists _, _, _.
  - rewrite Hset. destruct (new_entry_ok s e [] [] _ (Some n) flags Hs Hx Hp Hr) as (s2 & -> & Ht2 & _ & Hft2 & Hok2). cbn [mbind option_bind].
    apply (receive_ok s2 [e] [n] []) in Hok2. set (s3 := receive s2 [n]) in *.
    assert (Hi3 : (tasks s3).[i] = Some t) by (by cbn; rewrite Ht2).
    destruct (_ && _).
    { destruct (decrement_none s3 e _ Hok2 He) as (s4 & -> & Hok4 & _). cbn [mbind option_bind]. by eexists _, _, _. }
    destruct (alloc_file_descriptor_ok s3 [e] [] i t Hok2 Hi3) as [(-> & _)|(s4 & fd & state & -> & Hok4 & Hfd & Hft4 & Hi4 & Hz & _)];
      cbn [mbind option_bind].
    { change (-1 <? 0) with true. cbn iota.
      destruct (decrement_none s3 e _ Hok2 He) as (s4 & -> & Hok4 & _). cbn [mbind option_bind]. by eexists _, _, _. }
    rewrite (proj2 (Z.ltb_ge fd 0)) by lia.
    destruct (install_ok s4 e [] [] i _ fd flags (Entry true 1 flags 0 (Some n)) Hok4 Hi4 He) as (s5 & w & -> & Hok5 & _); try done.
    + rewrite Hft4. unfold s3. cbn [file_table receive]. rewrite Hft2, rd_insert by by eapply rd_lt. by rewrite decide_True.
    + cbn [fd_state]. lia.
    + cbn [mbind option_bind]. by eexists _, _, _.
Qed.

Lemma files_ok_pending s pend pend' o :
  (∀ e, pending e pend' = pending e pend) → files_ok s pend o → files_ok s pend' o.
Proof. intros Hp [Ht Hts He Hn]. split; try done. intros e x Hx. rewrite Hp. by apply He. Qed.

Lemma files_ok_swap s e k o : files_ok s [e; k] o → files_ok s [k; e] o.
Proof. apply files_ok_pending. intros j. rewrite !pending_cons. lia. Qed.

(** The node of an entry that the call holds. *)
Lemma set_node_ok s pend o e x n :
  files_ok s pend o → (file_table s).[e] = Some x → (0 < pending e pend)%nat → fte_node x = None →
  ∃ s', set_entry s e (Entry (fte_lock x) (fte_count x) (fte_flags x) (fte_offset x) (Some n)) = Some s' ∧
    tasks s' = tasks s ∧
    file_table s' = <[Z.to_nat e := Entry (fte_lock x) (fte_count x) (fte_flags x) (fte_offset x) (Some n)]> (file_table s) ∧
    files_ok s' pend (o ++ [n]).
Proof.
  intros Hs Hx Hp Hnone. destruct (f_entries _ _ _ Hs e x Hx) as (H1 & H2 & H3 & H4 & H5).
  destruct (set_entry_ok s pend pend o (o ++ [n]) e x (Entry (fte_lock x) (fte_count x) (fte_flags x) (fte_offset x) (Some n)) Hs Hx)
    as (s1 & Hset & Hft & _ & Hts & Hok).
  - split; [done|]. split; [done|]. split; [lia|]. split; [done|]. intros _. by exists n.
  - done.
  - by rewrite Hnone, app_nil_r.
  - by exists s1.
Qed.

(** The descriptors of a pair. *)
Lemma pair_descriptors_ok s i t e0 e1 x0 x1 flags :
  files_ok s [e0; e1] [] → (tasks s).[i] = Some t → e0 ≠ e1 → 0 ≤ e0 < 4096 → 0 ≤ e1 < 4096 →
  (file_table s).[e0] = Some x0 → (file_table s).[e1] = Some x1 → is_Some (fte_node x0) → is_Some (fte_node x1) →
  ∃ s' fd0 fd1 r,
    ('(s, fd0) ← alloc_file_descriptor s i;
     if fd0 <? 0 then
       s ← file_decrement_count s e0; s ← file_decrement_count s e1; Some (s, fd0, -1, DE_OVERFLOW)
     else
       s ← install file_table_address s i fd0 e0 flags;
       '(s, fd1) ← alloc_file_descriptor s i;
       if fd1 <? 0 then
         '(s, _) ← file_close file_table_address s i fd0; s ← file_decrement_count s e1; Some (s, -1, fd1, DE_OVERFLOW)
       else s ← install file_table_address s i fd1 e1 flags; Some (s, fd0, fd1, DE_SUCCESS)) = Some (s', fd0, fd1, r) ∧
    files_ok s' [] [].
Proof.
  intros Hs Hi Hne He0 He1 Hx0 Hx1 Hn0 Hn1.
  destruct (alloc_file_descriptor_ok s _ [] i t Hs Hi) as [(-> & _)|(s1 & fd0 & st & -> & Hok1 & Hfd & Hft1 & Hi1 & Hz & _)];
    cbn [mbind option_bind].
  { change (-1 <? 0) with true. cbn iota. destruct (file_decrement_ok s e0 [e1] [] Hs He0) as (s2 & -> & Ht2 & Hok2). cbn [mbind option_bind].
    destruct (decrement_none s2 e1 [] Hok2 He1) as (s3 & -> & Hok3 & _). cbn [mbind option_bind]. by eexists _, _, _, _. }
  rewrite (proj2 (Z.ltb_ge fd0 0)) by lia.
  destruct (install_ok s1 e0 [e1] [] i _ fd0 flags x0 Hok1 Hi1 He0) as (s2 & w & -> & Hok2 & Hft2 & Hw & Hts2);
    [by rewrite Hft1|done|done|cbn; lia|]. cbn [mbind option_bind fd_state fd_table wd_node] in *.
  assert (Hi2 : (tasks s2).[i] = Some (Task st (<[Z.to_nat fd0 := w]> (fd_table t)) (wd_node t))).
  { rewrite Hts2, rd_insert by (by eapply rd_lt). by rewrite decide_True. }
  destruct (alloc_file_descriptor_ok s2 _ [] i _ Hok2 Hi2) as [(-> & _)|(s3 & fd1 & st3 & -> & Hok3 & Hfd3 & Hft3 & Hi3 & Hz3 & _)];
    cbn [mbind option_bind].
  { change (-1 <? 0) with true. cbn iota.
    destruct (file_close_ok s2 [e1] [] i _ fd0 Hok2 Hi2) as [[-> _]|(s3 & -> & Hok3 & _)]; cbn [mbind option_bind].
    - destruct (decrement_none s2 e1 [] Hok2 He1) as (s4 & -> & Hok4 & _). cbn [mbind option_bind]. by eexists _, _, _, _.
    - destruct (decrement_none s3 e1 [] Hok3 He1) as (s4 & -> & Hok4 & _). cbn [mbind option_bind]. by eexists _, _, _, _. }
  rewrite (proj2 (Z.ltb_ge fd1 0)) by lia.
  destruct (install_ok s3 e1 [] [] i _ fd1 flags x1 Hok3 Hi3 He1) as (s4 & w4 & -> & Hok4 & _);
    [by rewrite Hft3, Hft2, Hft1|done|done|cbn; lia|]. cbn [mbind option_bind]. by eexists _, _, _, _.
Qed.

Lemma open_pair_ok s i t f0 f1 flags nodes :
  files_ok s [] [] → (tasks s).[i] = Some t →
  ∃ s' fd0 fd1 r, open_pair file_table_address s i f0 f1 flags nodes = Some (s', fd0, fd1, r) ∧ files_ok s' [] [].
Proof.
  intros Hs Hi. unfold open_pair.
  destruct (alloc_file_entry_ok s [] [] Hs) as [[-> _]|(s1 & e0 & -> & He0 & Hx & Hp & Hr & Hx1 & Hset)];
    cbn [mbind option_bind]; [by eexists _, _, _, _|].
  rewrite Hx1. cbn [mbind option_bind fte_node fte_lock]. rewrite Hset.
  destruct (new_entry_ok s e0 [] [] _ None f0 Hs Hx Hp Hr) as (s2 & -> & Ht2 & _ & Hft2 & Hok2). cbn [mbind option_bind app option_list] in *.
  clear s1 Hx1 Hset. assert (Hlt0 : 0 ≤ e0 < Z.of_nat (length (file_table s))) by (by eapply rd_lt).
  destruct (alloc_file_entry_ok s2 [e0] [] Hok2) as [[-> _]|(s3 & e1 & -> & He1 & Hx3 & Hp1 & Hr1 & Hx3' & Hset)];
    cbn [mbind option_bind].
  { destruct (decrement_none s2 e0 _ Hok2 He0) as (s3 & -> & Hok3 & _). cbn [mbind option_bind]. by eexists _, _, _, _. }
  rewrite Hx3'. cbn [mbind option_bind fte_node fte_lock]. rewrite Hset.
  destruct (new_entry_ok s2 e1 [e0] [] _ None f1 Hok2 Hx3 Hp1 Hr1) as (s4 & -> & Ht4 & _ & Hft4 & Hok4). cbn [mbind option_bind app option_list] in *.
  clear s3 Hx3' Hset. assert (Hlt1 : 0 ≤ e1 < Z.of_nat (length (file_table s2))) by (by eapply rd_lt).
  assert (Hne : e0 ≠ e1). { intros ->. rewrite pending_cons, decide_True in Hp1 by done. done. }
  destruct nodes as [r|[n0 n1]].
  { apply files_ok_swap in Hok4. destruct (file_decrement_ok s4 e0 [e1] [] Hok4 He0) as (s5 & -> & _ & Hok5). cbn [mbind option_bind].
    destruct (decrement_none s5 e1 [] Hok5 He1) as (s6 & -> & Hok6 & _). cbn [mbind option_bind]. by eexists _, _, _, _. }
  assert (Hrd0 : (file_table s4).[e0] = Some (Entry true 1 f0 0 None)).
  { rewrite Hft4, rd_insert, decide_False by done. rewrite Hft2, rd_insert by done. by rewrite decide_True. }
  rewrite Hrd0. cbn [mbind option_bind].
  destruct (set_node_ok s4 _ _ e0 _ n0 Hok4 Hrd0) as (s5 & -> & Ht5 & Hft5 & Hok5); [rewrite !pending_cons, (decide_True (P := e0 = e0)); lia || done|done|].
  cbn [mbind option_bind fte_lock fte_count fte_flags fte_offset] in *.
  assert (Hlt4 : 0 ≤ e0 < Z.of_nat (length (file_table s4))) by (by eapply rd_lt).
  assert (Hrd1 : (file_table s5).[e1] = Some (Entry true 1 f1 0 None)).
  { rewrite Hft5, rd_insert, decide_False by done. rewrite Hft4, rd_insert by done. by rewrite decide_True. }
  rewrite Hrd1. cbn [mbind option_bind].
  destruct (set_node_ok s5 _ _ e1 _ n1 Hok5 Hrd1) as (s6 & -> & Ht6 & Hft6 & Hok6); [rewrite !pending_cons, (decide_True (P := e1 = e1)); lia || done|done|].
  cbn [mbind option_bind fte_lock fte_count fte_flags fte_offset option_list app] in *.
  assert (Hlt5 : 0 ≤ e1 < Z.of_nat (length (file_table s5))) by (by eapply rd_lt).
  apply files_ok_swap in Hok6. apply (receive_ok s6 [e0; e1] [n0; n1] []) in Hok6.
  apply (pair_descriptors_ok _ i t e0 e1 (Entry true 1 f0 0 (Some n0)) (Entry true 1 f1 0 (Some n1)) flags Hok6); try done.
  - cbn [tasks receive]. by rewrite Ht6, Ht5, Ht4, Ht2.
  - cbn [file_table receive]. rewrite Hft6, rd_insert, decide_False by done. rewrite Hft5, rd_insert by done. by rewrite decide_True.
  - cbn [file_table receive]. rewrite Hft6, rd_insert by done. by rewrite decide_True.
Qed.

(** One more reference to an entry in use. *)
Lemma add_reference_ok s pend o e x :
  files_ok s pend o → (file_table s).[e] = Some x → 0 < fte_count x < INT_MAX →
  ∃ s', set_entry s e (Entry (fte_lock x) (fte_count x + 1) (fte_flags x) (fte_offset x) (fte_node x)) = Some s' ∧
    tasks s' = tasks s ∧
    file_table s' = <[Z.to_nat e := Entry (fte_lock x) (fte_count x + 1) (fte_flags x) (fte_offset x) (fte_node x)]> (file_table s) ∧
    files_ok s' (e :: pend) o.
Proof.
  intros Hs Hx Hc. destruct (f_entries _ _ _ Hs e x Hx) as (H1 & H2 & H3 & H4 & H5).
  destruct (set_entry_ok s pend (e :: pend) o o e x (Entry (fte_lock x) (fte_count x + 1) (fte_flags x) (fte_offset x) (fte_node x)) Hs Hx)
    as (s1 & Hset & Hft & _ & Hts & Hok).
  - rewrite pending_cons, decide_True by done. split; [cbn; lia|]. split; [lia|]. split; [lia|]. split; [|done].
    intros _. apply H4. lia.
  - intros k Hk. by rewrite pending_cons, decide_False by congruence.
  - done.
  - by exists s1.
Qed.

Lemma slot_entry s s1 s2 e x i fd w :
  set_entry s e x = Some s1 → set_slot s1 i fd w = Some s2 →
  ∃ s', set_slot s i fd w = Some s' ∧ set_entry s' e x = Some s2.
Proof.
  unfold set_entry. destruct (wr (file_table s) e x) as [ft|] eqn:Hft; [|done]. cbn [mbind option_bind]. intros [= <-].
  unfold set_slot. cbn [tasks]. destruct (tasks s).[i] as [t|]; [|done]. cbn [mbind option_bind].
  destruct (wr (fd_table t) fd w) as [l|]; [|done]. cbn [mbind option_bind]. unfold set_task. cbn [tasks].
  destruct (wr (tasks s) i _) as [ts|]; [|done]. cbn [mbind option_bind]. intros [= <-].
  eexists. split; [done|]. cbn [file_table]. by rewrite Hft.
Qed.

(** The end of [file_dup]: the state of the task grows, the word, the count. *)
Lemma dup_finish_ok s i t e y k w w' :
  files_ok s [] [] → (tasks s).[i] = Some t → (fd_table t).[k] = Some 0 → entry_of w = Some e →
  (file_table s).[e] = Some y → 0 < fte_count y < INT_MAX → is_Some (fte_node y) → entry_of w' = Some e →
  ∃ s',
    (x ← (tasks s).[i];
     s ← set_task s i (Task (if fd_state x <? k + 1 then k + 1 else fd_state x) (fd_table x) (wd_node x));
     v ← (fd_table x).[k];
     if negb (v =? 0) then Some (s, -1, DE_UNEXPECTED)
     else
       s ← set_slot s i k w';
       s ← set_entry s e (Entry (fte_lock y) (fte_count y + 1) (fte_flags y) (fte_offset y) (fte_node y));
       Some (s, k, DE_SUCCESS)) = Some (s', k, DE_SUCCESS) ∧ files_ok s' [] [] ∧
    file_table s' = <[Z.to_nat e := Entry (fte_lock y) (fte_count y + 1) (fte_flags y) (fte_offset y) (fte_node y)]> (file_table s) ∧
    tasks s' = <[Z.to_nat i := Task (Z.max (fd_state t) (k + 1)) (<[Z.to_nat k := w']> (fd_table t)) (wd_node t)]> (tasks s).
Proof.
  intros Hs Hi Hk Hw Hy Hc Hn Hw'. rewrite Hi. cbn [mbind option_bind].
  replace (if fd_state t <? k + 1 then k + 1 else fd_state t) with (Z.max (fd_state t) (k + 1)) by (destruct (Z.ltb_spec (fd_state t) (k + 1)); lia).
  destruct (files_task _ _ _ _ _ Hs Hi) as [H1 H2 H3 H4]. pose proof (rd_lt _ _ _ Hk) as Hlt. rewrite H2 in Hlt.
  set (t1 := Task (Z.max (fd_state t) (k + 1)) (fd_table t) (wd_node t)).
  destruct (set_task_ok s [] [] [] [] i t t1 Hs Hi) as (s1 & -> & Hft1 & _ & Hts1 & Hok1); try done.
  { split; cbn [fd_state fd_table t1]; [unfold TASK_FD_STATIC_COUNT in *; lia|done|done|]. intros j v Hj Hge. apply (H4 j v Hj). lia. }
  { intros j x _ Hgt. unfold task_refs in Hgt. cbn [fd_table t1] in Hgt. lia. }
  cbn [mbind option_bind]. rewrite Hk. cbn [mbind option_bind Z.eqb negb].
  assert (Hy1 : (file_table s1).[e] = Some y) by (by rewrite Hft1).
  assert (Hi1 : (tasks s1).[i] = Some t1) by (rewrite Hts1, rd_insert by (by eapply rd_lt); by rewrite decide_True).
  destruct (add_reference_ok s1 [] [] e y Hok1 Hy1 Hc) as (s2 & Hset2 & Hts2 & Hft2 & Hok2).
  assert (Hi2 : (tasks s2).[i] = Some t1) by (by rewrite Hts2).
  destruct (set_slot_ok s2 [e] [] [] i t1 k 0 w' Hok2 Hi2 Hk) as (s3 & Hset3 & Hft3 & _ & Hts3 & Hok3).
  - right. by exists e.
  - left. cbn [fd_state t1]. lia.
  - intros j. rewrite refers_zero, pending_cons, (refers_one e w' Hw'). lia.
  - intros j x Hj Hjw. assert (j = e) by congruence. subst j. rewrite Hft2, rd_insert in Hj by (by eapply rd_lt).
    rewrite decide_True in Hj by done. by injection Hj as <-.
  - destruct (slot_entry _ _ _ _ _ _ _ _ Hset2 Hset3) as (s' & -> & Hs'). cbn [mbind option_bind]. rewrite Hs'. cbn [mbind option_bind].
    exists s3. split; [done|]. split; [done|]. split; [by rewrite Hft3, Hft2, Hft1|].
    rewrite Hts3, Hts2, Hts1. cbn [fd_state fd_table wd_node t1]. by rewrite list_insert_insert_eq.
Qed.

(** Which descriptor [file_dup] takes: the first free one of the range, or the only
    one of the range, which it closes. *)
Lemma dup_choice_ok s i t fd min_fd max_fd w e :
  files_ok s [] [] → (tasks s).[i] = Some t → 0 ≤ min_fd ≤ max_fd → (fd = min_fd → min_fd ≠ max_fd) →
  (fd_table t).[fd] = Some w → entry_of w = Some e →
  let range := drop (Z.to_nat min_fd) (take (Z.to_nat (Z.min max_fd TASK_FD_STATIC_COUNT)) (fd_table t)) in
  ∃ s' k,
    match first_index (λ w, w =? 0) range min_fd with
    | Some k => Some (s, k)
    | None =>
        if (min_fd =? max_fd) && (min_fd <? TASK_FD_STATIC_COUNT)
        then '(s, _) ← file_close file_table_address s i min_fd; Some (s, min_fd)
        else Some (s, -1)
    end = Some (s', k) ∧ files_ok s' [] [] ∧
    (k = -1 ∧ s' = s ∧ (min_fd = max_fd → 64 ≤ min_fd) ∧
       (∀ j v, (fd_table t).[j] = Some v → min_fd ≤ j < max_fd → v ≠ 0) ∨
     min_fd ≤ k < 64 ∧ (k = max_fd ∧ min_fd = max_fd ∨ s' = s ∧ k < max_fd) ∧
       (∃ t', (tasks s').[i] = Some t' ∧ fd_state t' = fd_state t ∧ wd_node t' = wd_node t ∧
          (fd_table t').[k] = Some 0 ∧ ∀ j, j ≠ k → (fd_table t').[j] = (fd_table t).[j]) ∧
       (∀ j v, (fd_table t).[j] = Some v → min_fd ≤ j < k → v ≠ 0)).
Proof.
  intros Hs Hi Hmin Hfd Hw He range. destruct (files_task _ _ _ _ _ Hs Hi) as [H1 H2 H3 H4]. unfold TASK_FD_STATIC_COUNT in *.
  assert (Hrange : ∀ j v, (fd_table t).[j] = Some v → min_fd ≤ j < max_fd → range !! Z.to_nat (j - min_fd) = Some v).
  { intros j v Hj Hb. pose proof (rd_lt _ _ _ Hj). apply rd_Some in Hj as [_ Hj]. unfold range.
    rewrite lookup_drop, lookup_take_lt by lia. by replace (Z.to_nat min_fd + Z.to_nat (j - min_fd))%nat with (Z.to_nat j) by lia. }
  pose proof (first_index_spec (λ w, w =? 0) range min_fd) as Hf. destruct (first_index _ range min_fd) as [k|].
  - destruct Hf as (Hk & (x & Hx & Hx0) & Hbef). apply Z.eqb_eq in Hx0. subst x. unfold range in Hk. rewrite length_drop, length_take, H2 in Hk.
    assert (Hk0 : (fd_table t).[k] = Some 0).
    { unfold range in Hx. rewrite lookup_drop in Hx. apply lookup_take_Some in Hx as [Hx _]. apply rd_Some. split; [lia|].
      by replace (Z.to_nat min_fd + Z.to_nat (k - min_fd))%nat with (Z.to_nat k) in Hx by lia. }
    exists s, k. split; [done|]. split; [done|]. right. split; [lia|]. split; [right; split; [done|lia]|]. split; [by exists t|].
    intros j v Hj Hjk. apply Z.eqb_neq. apply (Hbef (Z.to_nat (j - min_fd))); [|lia]. apply Hrange; [done|lia].
  - assert (Hnone : ∀ j v, (fd_table t).[j] = Some v → min_fd ≤ j < max_fd → v ≠ 0).
    { intros j v Hj Hb. apply Z.eqb_neq. apply Hf. eapply list_elem_of_lookup_2. by apply Hrange. }
    destruct (Z.eqb_spec min_fd max_fd) as [Heq|Hne]; cbn [andb]; cycle 1.
    { exists s, (-1). split; [done|]. split; [done|]. left. by split_and!. }
    destruct (Z.ltb_spec min_fd 64); cycle 1.
    { exists s, (-1). split; [done|]. split; [done|]. left. by split_and!. }
    assert (Hmm : min_fd ≤ min_fd < 64 ∧ ∀ j v, (fd_table t).[j] = Some v → min_fd ≤ j < min_fd → v ≠ 0).
    { split; [lia|]. intros j v _ Hb. lia. }
    destruct Hmm as [Hr1 Hr2].
    destruct (file_close_ok s [] [] i t min_fd Hs Hi) as [[-> Hz]|(s' & -> & Hok & Hfdr & _ & Hts)]; cbn [mbind option_bind].
    + exists s, min_fd. split; [done|]. split; [done|]. right. split; [done|]. split; [left; by split|]. split; [|done]. exists t.
      split; [done|]. split; [done|]. split; [done|]. split; [|done]. destruct (decide (min_fd < fd_state t)); [apply Hz; lia|].
      destruct (rd_is_Some (fd_table t) min_fd) as (v & Hv); [lia|]. rewrite Hv. f_equal. apply (H4 _ _ Hv). lia.
    + exists s', min_fd. split; [done|]. split; [done|]. right. split; [done|]. split; [left; by split|]. split; [|done].
      eexists. rewrite Hts, rd_insert, decide_True by (done || by eapply rd_lt). split; [done|]. cbn [fd_state wd_node fd_table].
      split; [done|]. split; [done|]. rewrite rd_insert, decide_True by (done || lia). split; [done|].
      intros j Hj. by rewrite rd_insert, decide_False by (congruence || lia).
Qed.

Lemma has_cloexec a b : has (if (b : bool) then Z.lor (Z.land a table_mask) fd_cloexec else Z.land a table_mask) fd_cloexec = b.
Proof.
  assert (H0 : Z.land (Z.land a table_mask) fd_cloexec = 0).
  { rewrite <- Z.land_assoc. change (Z.land table_mask fd_cloexec) with 0. apply Z.land_0_r. }
  unfold has. destruct b; [|by rewrite H0]. by rewrite Z.land_lor_distr_l, H0.
Qed.

Lemma task_refs_pos t k w e : (fd_table t).[k] = Some w → entry_of w = Some e → (0 < task_refs e t)%nat.
Proof.
  intros Hk He. apply rd_Some in Hk as [_ Hk]. apply list_elem_of_lookup_2 in Hk.
  pose proof (total_pos (refers e) _ _ Hk) as Hpos. unfold task_refs. rewrite (refers_one e w He), decide_True in Hpos by done. lia.
Qed.

(** Everything [file_dup] does; [t] is the task before the call. *)
Lemma file_dup_ok s i t fd min_fd max_fd flags :
  files_ok s [] [] → (tasks s).[i] = Some t →
  ∃ s' k r, file_dup file_table_address s i fd min_fd max_fd flags = Some (s', k, r) ∧ files_ok s' [] [] ∧
    match r with
    | DE_SUCCESS =>
        min_fd ≤ k < 64 ∧ k ≤ max_fd ∧ k ≠ fd ∧ (k = max_fd → min_fd = max_fd) ∧
        (∀ j v, (fd_table t).[j] = Some v → min_fd ≤ j < k → v ≠ 0) ∧
        ∃ w e w' t', (fd_table t).[fd] = Some w ∧ 0 ≤ fd < fd_state t ∧ entry_of w = Some e ∧ entry_of w' = Some e ∧
          has w' fd_cloexec = has flags O_CLOEXEC ∧
          (tasks s').[i] = Some t' ∧ fd_state t' = Z.max (fd_state t) (k + 1) ∧ (fd_table t').[k] = Some w' ∧
          ∀ j, j ≠ k → (fd_table t').[j] = (fd_table t).[j]
    | _ => k = -1
    end.
Proof.
  intros Hs Hi. unfold file_dup. rewrite Z.gtb_ltb. destruct (Z.ltb_spec min_fd 0); cbn [orb]; [by exists s, (-1), DE_ARGUMENT|].
  destruct (Z.ltb_spec max_fd min_fd); [by exists s, (-1), DE_ARGUMENT|].
  destruct ((fd =? min_fd) && (min_fd =? max_fd)) eqn:Hsame; [by exists s, (-1), DE_ARGUMENT|].
  assert (Hne : fd = min_fd → min_fd ≠ max_fd).
  { intros -> ->. by rewrite !Z.eqb_refl in Hsame. }
  destruct (descriptor_ok s [] [] i t fd Hs Hi) as [[-> _]|(w & e & x & -> & Hfd & Hw & He & Hx & _)]; cbn [mbind option_bind];
    [by exists s, (-1), DE_ARGUMENT|].
  rewrite Hi. cbn [mbind option_bind].
  destruct (dup_choice_ok s i t fd min_fd max_fd w e Hs Hi ltac:(lia) Hne Hw He) as (s1 & k & -> & Hok1 & Hk). cbn [mbind option_bind].
  rewrite He. cbn [mbind option_bind]. destruct (files_entry _ _ _ e Hok1 (entry_of_range _ _ He)) as (y & Hy). rewrite Hy. cbn [mbind option_bind].
  destruct Hk as [(-> & -> & _ & _)|(Hk & Hmax & (t1 & Hi1 & Hst1 & Hwd1 & Hk0 & Hrest) & Hbef)]; [by exists s, (-1), DE_OVERFLOW|].
  assert (Hkfd : k ≠ fd).
  { intros ->. destruct Hmax as [[-> Hmm]|[-> _]]; [by apply Hne|]. rewrite Hi in Hi1. injection Hi1 as <-. rewrite Hw in Hk0.
    injection Hk0 as ->. by rewrite entry_of_0 in He. }
  rewrite Z.geb_leb, (proj2 (Z.leb_le 0 k)) by lia. cbn [andb].
  destruct (Z.ltb_spec (fte_count y) INT_MAX); [|by exists s1, (-1), DE_OVERFLOW].
  assert (Hw1 : (fd_table t1).[fd] = Some w) by (by rewrite Hrest by done).
  destruct (referred_entry s1 [] [] i t1 e y Hok1 Hi1 (task_refs_pos _ _ _ _ Hw1 He) Hy) as (Hn & _ & Hpos).
  set (w' := if has flags O_CLOEXEC then Z.lor (Z.land w table_mask) fd_cloexec else Z.land w table_mask).
  assert (Hw' : entry_of w' = Some e).
  { unfold w'. destruct (has flags O_CLOEXEC); by rewrite ?entry_of_cloexec, entry_of_mask. }
  destruct (dup_finish_ok s1 i t1 e y k w w' Hok1 Hi1 Hk0 He Hy) as (s2 & Hfin & Hok2 & _ & Hts2); [lia|done|done|].
  exists s2, k, DE_SUCCESS. split; [exact Hfin|]. split; [done|]. split; [lia|]. split; [lia|]. split; [done|].
  split; [intros ->; destruct Hmax as [[_ Hmm]|[_ Hlt]]; [done|lia]|]. split; [done|].
  pose proof (rd_lt _ _ _ Hk0) as Hltk. exists w, e, w'. eexists. split; [done|]. split; [done|]. split; [done|]. split; [done|].
  split; [apply has_cloexec|]. split; [rewrite Hts2, rd_insert by (by eapply rd_lt); by rewrite decide_True|].
  cbn [fd_state fd_table]. split; [by rewrite Hst1|]. split; [rewrite rd_insert by done; by rewrite decide_True|].
  intros j Hj. rewrite rd_insert, decide_False by (done || congruence). by apply Hrest.
Qed.

(** An entry keeps its lock, its count and its node. *)
Lemma keep_entry_ok s pend o e x flags offset :
  files_ok s pend o → (file_table s).[e] = Some x →
  ∃ s', set_entry s e (Entry (fte_lock x) (fte_count x) flags offset (fte_node x)) = Some s' ∧ tasks s' = tasks s ∧
    (refs e s + pending e pend ≠ 0)%nat ∧ files_ok s' pend o ∨ (refs e s + pending e pend = 0)%nat.
Proof.
  intros Hs Hx. destruct (f_entries _ _ _ Hs e x Hx) as (H1 & H2 & H3 & H4 & H5).
  destruct (decide (refs e s + pending e pend = 0)%nat) as [Hz|Hz]; [exists s; by right|].
  destruct (set_entry_ok s pend pend o o e x (Entry (fte_lock x) (fte_count x) flags offset (fte_node x)) Hs Hx)
    as (s1 & Hset & Hft & _ & Hts & Hok).
  - split; [done|]. split; [done|]. split; [lia|]. by split.
  - done.
  - done.
  - exists s1. left. by split_and!.
Qed.

Lemma referred_pos s pend o i t e x :
  files_ok s pend o → (tasks s).[i] = Some t → (0 < task_refs e t)%nat → (refs e s + pending e pend ≠ 0)%nat.
Proof. intros _ Hi Hp. pose proof (task_refs_le _ _ _ e Hi). lia. Qed.

Lemma file_fcntl_ok s i t fd cmd arg :
  files_ok s [] [] → (tasks s).[i] = Some t →
  ∃ s' v r, file_fcntl file_table_address s i fd cmd arg = Some (s', v, r) ∧ files_ok s' [] [].
Proof.
  intros Hs Hi. unfold file_fcntl.
  destruct (descriptor_ok s [] [] i t fd Hs Hi) as [[-> _]|(w & e & x & -> & Hfd & Hw & He & Hx & Hpos)]; cbn [mbind option_bind];
    [by eexists _, _, _|].
  rewrite He. cbn [mbind option_bind]. rewrite Hx. cbn [mbind option_bind].
  destruct ((cmd =? F_DUPFD) || (cmd =? F_DUPFD_CLOEXEC)).
  { destruct (file_dup_ok s i t fd arg INT_MAX (if cmd =? F_DUPFD_CLOEXEC then O_CLOEXEC else 0) Hs Hi) as (s' & k & r & -> & Hok & _).
    by exists s', k, r. }
  destruct (cmd =? F_GETFD); [by eexists _, _, _|]. destruct (cmd =? F_SETFD).
  { destruct (has arg FD_CLOEXEC); cbn [mbind option_bind]; [|by eexists _, _, _].
    destruct (set_slot_ok s [] [] [] i t fd w (Z.lor w fd_cloexec) Hs Hi Hw) as (s' & -> & _ & _ & _ & Hok).
    - right. rewrite entry_of_cloexec. by exists e.
    - left. lia.
    - intros k. unfold refers. by rewrite entry_of_cloexec.
    - intros k y Hy Hk. rewrite entry_of_cloexec in Hk. assert (k = e) by congruence. subst k.
      by destruct (referred_entry s [] [] i t e y Hs Hi Hpos Hy).
    - cbn [mbind option_bind]. by eexists _, _, _. }
  destruct (cmd =? F_GETFL); [by eexists _, _, _|]. destruct (cmd =? F_SETFL); [|by eexists _, _, _].
  destruct (keep_entry_ok s [] [] e x
    (swrap 32 (Z.lor (Z.ldiff (Z.lor (Z.ldiff (u32 (fte_flags x)) O_APPEND) (Z.land arg O_APPEND)) O_NONBLOCK) (Z.land arg O_NONBLOCK)))
    (fte_offset x) Hs Hx) as (s' & [(-> & _ & _ & Hok)|Hz]).
  - cbn [mbind option_bind]. by eexists _, _, _.
  - by destruct (referred_pos s [] [] i t e x Hs Hi Hpos).
Qed.

(** The seek whose negated offset is no [off_t], from the current offset or from
    the end. *)
Definition negates_smallest (offset whence : Z) : Prop := offset = - 2 ^ 63 ∧ (whence = SEEK_CUR ∨ whence = SEEK_END).

(** It happens on an open descriptor of a file or a block device. *)
Definition undefined_lseek s (i fd offset whence : Z) : Prop :=
  negates_smallest offset whence ∧
  ∃ t w e x k, (tasks s).[i] = Some t ∧ 0 ≤ fd < fd_state t ∧ (fd_table t).[fd] = Some w ∧
    entry_of w = Some e ∧ (file_table s).[e] = Some x ∧ fte_node x = Some k ∧
    (node_type k = vfs_type_regular ∨ node_type k = vfs_type_block).

Lemma lseek_target_defined (n : node) o offset whence :
  ¬ negates_smallest offset whence → ∃ g, lseek_target n o offset whence = Some g.
Proof.
  intros Hne. unfold lseek_target, negates_smallest in *. destruct (Z.eqb_spec offset (- 2 ^ 63)) as [->|]; cycle 1.
  { cbn [mbind option_bind]. repeat case_match; by eexists. }
  destruct (Z.eqb_spec whence SEEK_CUR) as [->|]; [tauto|]. destruct (Z.eqb_spec whence SEEK_END) as [->|]; [tauto|].
  cbn [andb]. repeat case_match; by eexists.
Qed.

Lemma lseek_target_undefined (n : node) o offset whence :
  negates_smallest offset whence → lseek_target n o offset whence = None.
Proof. intros [-> [-> | ->]]; done. Qed.

Lemma lseek_allowed_cases (type : Z) :
  lseek_allowed type = true →
  type = vfs_type_regular ∨ type = vfs_type_block ∨ type = vfs_type_directory ∨ type = vfs_type_message.
Proof. unfold lseek_allowed. rewrite !orb_true_iff, !Z.eqb_eq. tauto. Qed.

Lemma file_lseek_ok s i t fd offset whence :
  files_ok s [] [] → (tasks s).[i] = Some t →
  (undefined_lseek s i fd offset whence ∧ file_lseek file_table_address s i fd offset whence = None) ∨
  (¬ undefined_lseek s i fd offset whence ∧
   ∃ s' v r, file_lseek file_table_address s i fd offset whence = Some (s', v, r) ∧ files_ok s' [] []).
Proof.
  intros Hs Hi. unfold file_lseek.
  destruct (descriptor_ok s [] [] i t fd Hs Hi) as [[-> Hz]|(w & e & x & -> & Hfd & Hw & He & Hx & Hpos)]; cbn [mbind option_bind].
  { right. split; [|by eexists _, _, _]. intros (_ & t' & w & e & x & k & Ht & Hfd & Hw & He & _). simplify_eq.
    rewrite Hz in Hw by done. simplify_eq. by rewrite entry_of_0 in He. }
  rewrite He. cbn [mbind option_bind]. rewrite Hx. cbn [mbind option_bind].
  destruct (referred_entry s [] [] i t e x Hs Hi Hpos Hx) as ((n & Hn) & _ & _). rewrite Hn. cbn [mbind option_bind].
  assert (Hund : undefined_lseek s i fd offset whence →
    negates_smallest offset whence ∧ (node_type n = vfs_type_regular ∨ node_type n = vfs_type_block)).
  { intros (Hneg & t' & w' & e' & x' & k & Ht & _ & Hw' & He' & Hx' & Hk & Hty). by simplify_eq. }
  destruct (lseek_allowed (node_type n)) eqn:Hall; cbn [negb]; cycle 1.
  { right. split; [|by eexists _, _, _]. intros (_ & [E|E])%Hund; by rewrite E in Hall. }
  destruct ((node_type n =? vfs_type_directory) && _) eqn:Hdir.
  { right. split; [|by eexists _, _, _]. apply andb_true_iff in Hdir as [Hdir%Z.eqb_eq _]. intros (_ & [E|E])%Hund; by rewrite E in Hdir. }
  destruct ((node_type n =? vfs_type_message) && _) eqn:Hmes.
  { right. split; [|by eexists _, _, _]. apply andb_true_iff in Hmes as [Hmes%Z.eqb_eq _]. intros (_ & [E|E])%Hund; by rewrite E in Hmes. }
  assert (Hneg : negates_smallest offset whence → node_type n = vfs_type_regular ∨ node_type n = vfs_type_block).
  { intros [Ho Hw']. destruct (lseek_allowed_cases _ Hall) as [E|[E|[E|E]]]; [by left|by right|exfalso..];
      rewrite E in Hdir, Hmes; rewrite Ho in Hdir, Hmes; destruct Hw' as [-> | ->]; by vm_compute in Hdir, Hmes. }
  assert (Hdec : negates_smallest offset whence ∨ ¬ negates_smallest offset whence).
  { unfold negates_smallest. destruct (decide (offset = - 2 ^ 63)), (decide (whence = SEEK_CUR)), (decide (whence = SEEK_END)); tauto. }
  destruct Hdec as [Hyes|Hno].
  { left. rewrite lseek_target_undefined by done. split; [|done]. split; [done|]. exists t, w, e, x, n. split_and!; try done; try lia. by apply Hneg. }
  right. split; [intros [? _]%Hund; done|].
  destruct (lseek_target_defined n (fte_offset x) offset whence Hno) as ([o|] & ->); cbn [mbind option_bind]; [|by eexists _, _, _].
  destruct (keep_entry_ok s [] [] e x (fte_flags x) o Hs Hx) as (s' & [(Hset & _ & _ & Hok)|Hz]).
  - rewrite Hn in Hset. rewrite Hset. cbn [mbind option_bind]. by eexists _, _, _.
  - by destruct (referred_pos s [] [] i t e x Hs Hi Hpos).
Qed.

(** Closing the descriptors of a range that are such as [p] asks for. *)
Lemma close_slots_ok p n s pend o i t fd :
  files_ok s pend o → (tasks s).[i] = Some t → 0 ≤ fd → fd + Z.of_nat n ≤ fd_state t →
  ∃ s' t', close_slots file_table_address p s i fd n = Some s' ∧ files_ok s' pend o ∧
    tasks s' = <[Z.to_nat i := t']> (tasks s) ∧ fd_state t' = fd_state t ∧ wd_node t' = wd_node t ∧
    ∀ j w, (fd_table t).[j] = Some w → (fd_table t').[j] = Some (if (fd <=? j) && (j <? fd + Z.of_nat n) && p w then 0 else w).
Proof.
  revert s t fd. induction n as [|n IH]; intros s t fd Hs Hi Hfd Hn; cbn [close_slots].
  { exists s, t. split; [done|]. split; [done|]. apply rd_Some in Hi as [_ Hi]. rewrite list_insert_id by done. split_and!; try done.
    intros j w Hj. rewrite Z.add_0_r. destruct (Z.leb_spec fd j), (Z.ltb_spec j fd); cbn [andb]; (lia || done). }
  rewrite Hi. cbn [mbind option_bind]. destruct (files_task _ _ _ _ _ Hs Hi) as [H1 H2 H3 H4]. unfold TASK_FD_STATIC_COUNT in *.
  destruct (rd_is_Some (fd_table t) fd) as (w & Hw); [lia|]. rewrite Hw. cbn [mbind option_bind].
  assert (Hone : ∃ s1 t1, (if p w then '(s, _) ← file_close file_table_address s i fd; Some s else Some s) = Some s1 ∧
    files_ok s1 pend o ∧ (tasks s1).[i] = Some t1 ∧ (∀ u, <[Z.to_nat i := u]> (tasks s1) = <[Z.to_nat i := u]> (tasks s)) ∧
    fd_state t1 = fd_state t ∧ wd_node t1 = wd_node t ∧
    ∀ j v, (fd_table t).[j] = Some v → (fd_table t1).[j] = Some (if (j =? fd) && p w then 0 else v)).
  { destruct (p w) eqn:Hp; cycle 1.
    { exists s, t. split_and!; try done. intros j v Hj. by rewrite andb_false_r. }
    destruct (file_close_ok s pend o i t fd Hs Hi) as [[-> Hz]|(s1 & -> & Hok1 & Hr & _ & Hts)]; cbn [mbind option_bind].
    - exists s, t. split_and!; try done. intros j v Hj. rewrite andb_true_r. destruct (Z.eqb_spec j fd) as [->|]; [|done]. apply Hz. lia.
    - eexists s1, _. split; [done|]. split; [done|]. rewrite Hts. split; [rewrite rd_insert by (by eapply rd_lt); by rewrite decide_True|].
      split; [intros u; by rewrite list_insert_insert_eq|]. cbn [fd_state wd_node fd_table]. split; [done|]. split; [done|].
      intros j v Hj. rewrite rd_insert by lia. rewrite andb_true_r. destruct (decide (fd = j)) as [->|]; [by rewrite Z.eqb_refl|].
      by rewrite (proj2 (Z.eqb_neq j fd)) by congruence. }
  destruct Hone as (s1 & t1 & -> & Hok1 & Hi1 & Hts1 & Hst1 & Hwd1 & Ht1). cbn [mbind option_bind].
  destruct (IH s1 t1 (fd + 1) Hok1 Hi1) as (s2 & t2 & -> & Hok2 & Hts2 & Hst2 & Hwd2 & Ht2); [lia|lia|].
  exists s2, t2. split; [done|]. split; [done|]. split; [by rewrite Hts2|]. split; [congruence|]. split; [congruence|].
  intros j v Hj. specialize (Ht1 j v Hj). rewrite (Ht2 j _ Ht1).
  destruct (Z.eqb_spec j fd) as [->|Hne]; cbn [andb].
  - rewrite Hw in Hj. injection Hj as ->. rewrite (proj2 (Z.leb_gt (fd + 1) fd)), (proj2 (Z.leb_le fd fd)), (proj2 (Z.ltb_lt fd (fd + Z.of_nat (S n)))) by lia.
    done.
  - replace (fd + 1 <=? j) with (fd <=? j) by (destruct (Z.leb_spec fd j), (Z.leb_spec (fd + 1) j); lia).
    by replace (fd + 1 + Z.of_nat n) with (fd + Z.of_nat (S n)) by lia.
Qed.

(** A task without descriptors and without a working directory. *)
Definition idle t : Prop := (∀ k w, (fd_table t).[k] = Some w → w = 0) ∧ wd_node t = None.

Lemma fd_release_ok s i t :
  files_ok s [] [] → (tasks s).[i] = Some t →
  ∃ s' t', fd_release_func file_table_address s i = Some s' ∧ files_ok s' [] [] ∧
    tasks s' = <[Z.to_nat i := t']> (tasks s) ∧ idle t'.
Proof.
  intros Hs Hi. unfold fd_release_func. rewrite Hi. cbn [mbind option_bind].
  destruct (files_task _ _ _ _ _ Hs Hi) as [H1 H2 H3 H4].
  destruct (close_slots_ok (λ w, negb (w =? 0)) (Z.to_nat (fd_state t)) s [] [] i t 0 Hs Hi)
    as (s1 & t1 & -> & Hok1 & Hts1 & Hst1 & Hwd1 & Ht1); [lia|lia|].
  assert (Hi1 : (tasks s1).[i] = Some t1) by (rewrite Hts1, rd_insert by (by eapply rd_lt); by rewrite decide_True).
  cbn [mbind option_bind]. rewrite Hi1. cbn [mbind option_bind].
  pose proof (files_task _ _ _ _ _ Hok1 Hi1) as Hok.
  assert (Hzero : ∀ k w, (fd_table t1).[k] = Some w → w = 0).
  { intros k w Hk. pose proof (rd_lt _ _ _ Hk) as Hlt. rewrite (t_length _ Hok) in Hlt.
    destruct (rd_is_Some (fd_table t) k) as (v & Hv); [lia|]. pose proof (Ht1 k v Hv) as Hk1. rewrite Hk in Hk1. injection Hk1 as ->.
    rewrite Z.add_0_l, Z2Nat.id by lia. destruct (Z.leb_spec 0 k), (Z.ltb_spec k (fd_state t)); cbn [andb]; try lia.
    - destruct (Z.eqb_spec v 0); done.
    - by apply (H4 k v Hv). }
  destruct (release_tasks s1 (wd_node t1)) as [E1 E2].
  destruct (set_task_ok (release s1 (wd_node t1)) [] [] ([] ++ option_list (wd_node t1)) [] i t1 (Task (fd_state t1) (fd_table t1) None)) as
    (s2 & Hset & _ & _ & Hts2 & Hok2).
  - by apply release_node_ok.
  - by rewrite E1.
  - destruct Hok as [J1 J2 J3 J4]. by split.
  - done.
  - intros e x _ Hgt. unfold task_refs in Hgt. cbn [fd_table] in Hgt. lia.
  - by rewrite app_nil_r.
  - rewrite set_task_release in Hset. destruct (set_task s1 i _) as [s3|]; [|done]. cbn [mbind option_bind] in *.
    injection Hset as <-. eexists _, _. split; [done|]. split; [done|]. split; [by rewrite Hts2, E1, Hts1, list_insert_insert_eq|]. by split.
Qed.

Lemma exec_close_ok s i t :
  files_ok s [] [] → (tasks s).[i] = Some t →
  ∃ s' t', exec_close file_table_address s i = Some s' ∧ files_ok s' [] [] ∧ tasks s' = <[Z.to_nat i := t']> (tasks s) ∧
    wd_node t' = wd_node t ∧ ∀ j w, (fd_table t).[j] = Some w → (fd_table t').[j] = Some (if has w fd_cloexec then 0 else w).
Proof.
  intros Hs Hi. unfold exec_close. rewrite Hi. cbn [mbind option_bind].
  destruct (files_task _ _ _ _ _ Hs Hi) as [H1 H2 H3 H4].
  destruct (close_slots_ok (λ w, has w fd_cloexec) (Z.to_nat (fd_state t)) s [] [] i t 0 Hs Hi)
    as (s1 & t1 & -> & Hok1 & Hts1 & Hst1 & Hwd1 & Ht1); [lia|lia|].
  exists s1, t1. split; [done|]. split; [done|]. split; [done|]. split; [done|]. intros j w Hj. rewrite (Ht1 j w Hj), Z.add_0_l, Z2Nat.id by lia.
  pose proof (rd_lt _ _ _ Hj). rewrite (proj2 (Z.leb_le 0 j)) by lia. destruct (Z.ltb_spec j (fd_state t)); [done|].
  rewrite (H4 j w Hj) by lia. done.
Qed.

(** Words for a new task: what of them the entries could count is held by the call. *)
Lemma clone_slots_ok l s pend o :
  files_ok s pend o → Forall slot_ok l → (∀ w e, w ∈ l → entry_of w = Some e → (0 < refs e s)%nat) →
  ∃ s' l' pend', clone_slots file_table_address s l = Some (s', l') ∧ tasks s' = tasks s ∧ files_ok s' pend' o ∧
    (∀ e, pending e pend' = (pending e pend + total (refers e) l')%nat) ∧
    Forall2 (λ w w', w' = w ∨ w' = 0) l l' ∧
    ((∀ e x, (file_table s).[e] = Some x → fte_count x + Z.of_nat (length l) ≤ INT_MAX) → l' = l).
Proof.
  revert s pend. induction l as [|w l IH]; intros s pend Hs Hl Hr; cbn [clone_slots].
  { exists s, [], pend. split; [done|]. split; [done|]. split; [done|]. split; [intros e; cbn; lia|]. by split. }
  apply list.Forall_cons in Hl as [Hw Hl].
  assert (Hone : ∃ s1 w' pend1,
    (if Z.land w table_mask =? 0 then Some (s, w)
     else e ← entry_of w; x ← (file_table s).[e];
          if (fte_count x >? 0) && (fte_count x <? INT_MAX) then
            s ← set_entry s e (Entry (fte_lock x) (fte_count x + 1) (fte_flags x) (fte_offset x) (fte_node x)); Some (s, w)
          else Some (s, 0)) = Some (s1, w') ∧ tasks s1 = tasks s ∧ files_ok s1 pend1 o ∧
    (∀ e, pending e pend1 = (pending e pend + refers e w')%nat) ∧ (w' = w ∨ w' = 0) ∧
    ((∀ e x, (file_table s).[e] = Some x → fte_count x + Z.of_nat (S (length l)) ≤ INT_MAX) →
      w' = w ∧ ∀ e x, (file_table s1).[e] = Some x → fte_count x + Z.of_nat (length l) ≤ INT_MAX)).
  { destruct Hw as [->|[e He]].
    - exists s, 0, pend. rewrite Z.land_0_l. split; [done|]. split; [done|]. split; [done|]. split; [intros e; rewrite refers_zero; lia|].
      split; [by left|]. intros Hc. split; [done|]. intros e x Hx. specialize (Hc e x Hx). lia.
    - destruct (entry_of_nonzero _ _ He) as [_ ->]. rewrite He. cbn [mbind option_bind].
      destruct (files_entry _ _ _ e Hs (entry_of_range _ _ He)) as (x & Hx). rewrite Hx. cbn [mbind option_bind].
      rewrite Z.gtb_ltb. destruct (Z.ltb_spec 0 (fte_count x)) as [Hp|Hp]; cycle 1.
      { destruct (f_entries _ _ _ Hs e x Hx) as (H1 & _). specialize (Hr w e ltac:(by left) He). lia. }
      destruct (Z.ltb_spec (fte_count x) INT_MAX) as [Hm|Hm]; cbn [andb]; cycle 1.
      { exists s, 0, pend. split; [done|]. split; [done|]. split; [done|]. split; [intros k; rewrite refers_zero; lia|]. split; [by right|].
        intros Hc. specialize (Hc e x Hx). lia. }
      destruct (add_reference_ok s pend o e x Hs Hx ltac:(lia)) as (s1 & -> & Hts & Hft & Hok). cbn [mbind option_bind].
      exists s1, w, (e :: pend). split; [done|]. split; [done|]. split; [done|].
      split; [intros k; rewrite pending_cons, (refers_one e w He); lia|]. split; [by left|]. intros Hc. split; [done|].
      intros k y Hy. rewrite Hft, rd_insert in Hy by (by eapply rd_lt). destruct (decide (e = k)) as [<-|].
      + injection Hy as <-. cbn [fte_count]. specialize (Hc e x Hx). lia.
      + specialize (Hc k y Hy). lia. }
  destruct Hone as (s1 & w' & pend1 & -> & Hts1 & Hok1 & Hp1 & Hw' & Hc1). cbn [mbind option_bind].
  destruct (IH s1 pend1 Hok1 Hl) as (s2 & l' & pend2 & -> & Hts2 & Hok2 & Hp2 & Hl' & Hc2).
  { intros v e Hv He. unfold refs. rewrite Hts1. apply (Hr v e); [by right|done]. }
  cbn [mbind option_bind]. exists s2, (w' :: l'), pend2. split; [done|]. split; [congruence|]. split; [done|].
  split; [intros e; rewrite Hp2, Hp1; cbn [total]; lia|]. split; [by constructor|].
  intros Hc. cbn [length] in Hc. destruct (Hc1 Hc) as [-> Hc1']. by rewrite Hc2.
Qed.

Lemma total_take_drop {A} (f : A → nat) n (l : list A) : (total f (take n l) + total f (drop n l) = total f l)%nat.
Proof. by rewrite <- total_app, take_drop. Qed.

(** A new task with the descriptors and the working directory of its maker. *)
Lemma fd_clone_ok s i j t new :
  files_ok s [] [] → (tasks s).[i] = Some t → (tasks s).[j] = Some new → idle new →
  ∃ s' t', fd_clone_func file_table_address s i j = Some s' ∧ files_ok s' [] [] ∧ tasks s' = <[Z.to_nat j := t']> (tasks s) ∧
    fd_state t' = fd_state t ∧ wd_node t' = wd_node t ∧
    ((∀ e x, (file_table s).[e] = Some x → fte_count x + 64 ≤ INT_MAX) → fd_table t' = fd_table t).
Proof.
  intros Hs Hi Hj [Hidle Hwd]. unfold fd_clone_func. rewrite Hi. cbn [mbind option_bind]. rewrite Hj. cbn [mbind option_bind].
  destruct (files_task _ _ _ _ _ Hs Hi) as [H1 H2 H3 H4], (files_task _ _ _ _ _ Hs Hj) as [J1 J2 J3 J4].
  unfold TASK_FD_STATIC_COUNT in *. set (n := Z.to_nat (fd_state t)).
  destruct (clone_slots_ok (take n (fd_table t)) s [] [] Hs) as (s1 & l' & pend & -> & Hts1 & Hok1 & Hp & Hl' & Hc).
  { by apply Forall_take. }
  { intros w e Hw He. apply elem_of_take in Hw as (k & Hk & _). pose proof (task_refs_le s i t e Hi).
    enough (0 < task_refs e t)%nat by lia. apply (task_refs_pos t (Z.of_nat k) w); [|done]. apply rd_Some. rewrite Nat2Z.id. split; [lia|done]. }
  cbn [mbind option_bind].
  assert (Hlen : length l' = n).
  { pose proof (Forall2_length Hl') as Hlen. rewrite length_take in Hlen. lia. }
  assert (Hnil : Forall (λ w, w = 0) (fd_table new)).
  { apply list.Forall_lookup. intros k w Hk. apply (Hidle (Z.of_nat k)). apply rd_Some. rewrite Nat2Z.id. split; [lia|done]. }
  assert (Hzero : ∀ e, task_refs e new = 0%nat ∧ total (refers e) (drop n (fd_table new)) = 0%nat).
  { intros e. assert (H0 : task_refs e new = 0%nat).
    { apply total_zero. intros w Hw. rewrite (proj1 (list.Forall_forall _ _) Hnil w Hw). apply refers_zero. }
    split; [done|]. pose proof (total_take_drop (refers e) n (fd_table new)). unfold task_refs in H0. lia. }
  rewrite Hwd. replace (match wd_node t with Some w => Some w | None => None end) with (wd_node t) by (by destruct (wd_node t)).
  set (t' := Task (fd_state t) (l' ++ drop n (fd_table new)) (wd_node t)).
  assert (Hj1 : (tasks s1).[j] = Some new) by (by rewrite Hts1).
  assert (Hi1 : (tasks s1).[i] = Some t) by (by rewrite Hts1).
  destruct (set_task_ok s1 pend [] [] (option_list (wd_node t)) j new t' Hok1 Hj1) as (s2 & -> & _ & _ & Hts2 & Hok2).
  - split; cbn [fd_state fd_table t']; [done|rewrite length_app, length_drop; lia| |].
    + apply Forall_app. split; [|by apply Forall_drop]. apply list.Forall_forall. intros w' Hw'.
      apply list_elem_of_lookup in Hw' as (k & Hk). destruct (Forall2_lookup_r _ _ _ _ _ Hl' Hk) as (w & Hw & [->| ->]); [|by left].
      apply lookup_take_Some in Hw as [Hw _]. apply list_elem_of_lookup_2 in Hw. by apply (proj1 (list.Forall_forall _ _) H3).
    + intros k w Hk Hge. rewrite rd_app_r in Hk by lia. apply rd_Some in Hk as [_ Hk]. rewrite lookup_drop in Hk.
      apply (proj1 (list.Forall_forall _ _) Hnil). by eapply list_elem_of_lookup_2.
  - intros e. destruct (Hzero e) as [-> H0]. rewrite Hp. unfold task_refs. cbn [fd_table t']. rewrite total_app, H0. unfold pending. cbn [total]. lia.
  - intros e x Hx Hgt. destruct (Hzero e) as [H0 H0']. rewrite H0 in Hgt. unfold task_refs in Hgt. cbn [fd_table t'] in Hgt.
    rewrite total_app, H0' in Hgt.
    assert (Hin : ∃ w, w ∈ l' ∧ entry_of w = Some e).
    { destruct (decide (Exists (λ w, entry_of w = Some e) l')) as [Hex|Hno]; [by apply list.Exists_exists in Hex|].
      exfalso. rewrite (total_zero (refers e) l') in Hgt; [lia|]. intros w Hw. unfold refers. rewrite decide_False; [done|].
      intros He. apply Hno. apply list.Exists_exists. by exists w. }
    destruct Hin as (w' & Hw' & He). apply list_elem_of_lookup in Hw' as (k & Hk).
    destruct (Forall2_lookup_r _ _ _ _ _ Hl' Hk) as (w & Hw & [->| ->]); [|by rewrite entry_of_0 in He].
    apply lookup_take_Some in Hw as [Hw _].
    apply (referred_entry s1 _ _ i t e x Hok1 Hi1); [|done]. apply (task_refs_pos t (Z.of_nat k) w); [|done].
    apply rd_Some. rewrite Nat2Z.id. split; [lia|done].
  - rewrite Hwd. cbn [wd_node t' option_list]. by rewrite app_nil_r.
  - cbn [mbind option_bind]. exists (receive s2 (option_list (wd_node t))), t'. split; [done|].
    split; [apply receive_ok; by rewrite app_nil_r|]. split; [cbn [tasks receive]; by rewrite Hts2, Hts1|]. split; [done|]. split; [done|].
    intros Hcount. cbn [fd_table t']. rewrite Hc; cycle 1.
    { intros e x Hx. specialize (Hcount e x Hx). rewrite length_take. lia. }
    rewrite <- (take_drop n (fd_table t)) at 2. f_equal. apply list_eq_same_length with (n := (64 - n)%nat).
    + rewrite length_drop. lia.
    + rewrite length_drop. lia.
    + intros k x y Hk Hx Hy. rewrite lookup_drop in Hx, Hy.
      rewrite (proj1 (list.Forall_forall _ _) Hnil x) by (by eapply list_elem_of_lookup_2).
      symmetry. apply (H4 (Z.of_nat (n + k))); [|unfold n in *; lia]. apply rd_Some. rewrite Nat2Z.id. split; [lia|done].
Qed.

Lemma file_chdir_ok s i t open :
  files_ok s [] [] → (tasks s).[i] = Some t →
  ∃ s' r, file_chdir s i open = Some (s', r) ∧ files_ok s' [] [].
Proof.
  intros Hs Hi. unfold file_chdir. rewrite Hi. cbn [mbind option_bind]. destruct (files_task _ _ _ _ _ Hs Hi) as [H1 H2 H3 H4].
  set (st := if fd_state t =? 0 then 1 else fd_state t).
  assert (Hst : fd_state t ≤ st ≤ TASK_FD_STATIC_COUNT).
  { unfold st, TASK_FD_STATIC_COUNT in *. destruct (Z.eqb_spec (fd_state t) 0); lia. }
  assert (Htask : ∀ wd, task_ok (Task st (fd_table t) wd)).
  { intros wd. split; cbn [fd_state fd_table]; [lia|done|done|]. intros k w Hk Hge. apply (H4 k w Hk). lia. }
  destruct open as [r|n].
  - destruct (set_task_ok s [] [] [] [] i t (Task st (fd_table t) (wd_node t)) Hs Hi (Htask _)) as (s' & -> & _ & _ & _ & Hok); try done.
    { intros e x _ Hgt. unfold task_refs in Hgt. cbn [fd_table] in Hgt. lia. }
    cbn [mbind option_bind]. by exists s', r.
  - pose proof (release_node_ok s [] [] (wd_node t) Hs) as Hrel. destruct (release_tasks s (wd_node t)) as [E1 E2].
    destruct (set_task_ok (release s (wd_node t)) [] [] ([] ++ option_list (wd_node t)) [n] i t (Task st (fd_table t) (Some n)) Hrel)
      as (s' & Hset & _ & _ & _ & Hok); try done.
    { by rewrite E1. }
    { intros e x _ Hgt. unfold task_refs in Hgt. cbn [fd_table] in Hgt. lia. }
    { apply (Permutation_app_comm [n] (option_list (wd_node t))). }
    rewrite set_task_release in Hset. destruct (set_task s i _) as [s1|]; [|done]. cbn [mbind option_bind] in *. injection Hset as <-.
    eexists _, DE_SUCCESS. split; [done|]. apply (receive_ok _ [] [n] []) in Hok. by destruct (wd_node t).
Qed.

Lemma file_init_ok n : files_ok (file_init n) [] [].
Proof.
  assert (Hz : ∀ e, refs e (file_init n) = 0%nat).
  { intros e. apply total_zero. intros t Ht. cbn [tasks file_init] in Ht. apply elem_of_replicate in Ht as [-> _].
    apply total_zero. intros w Hw. apply elem_of_replicate in Hw as [-> _]. apply refers_zero. }
  split.
  - by vm_compute.
  - apply Forall_replicate. split; cbn [fd_state fd_table no_files]; [unfold TASK_FD_STATIC_COUNT; lia|done| |].
    + apply Forall_replicate. by left.
    + intros k w Hk _. apply rd_Some in Hk as [_ Hk]. by apply lookup_replicate in Hk as [-> _].
  - intros e x Hx. rewrite Hz. apply rd_Some in Hx as [_ Hx]. cbn [file_table file_init] in Hx.
    apply lookup_replicate in Hx as [-> _]. split_and!; (done || cbn; unfold INT_MAX; lia).
  - unfold held. cbn [acquired released file_init file_table tasks].
    assert (Hf : omap fte_node (replicate 4096 (@no_entry node)) = []) by by vm_compute.
    assert (Ht : omap wd_node (replicate n (@no_files node)) = []) by (clear; induction n as [|n IH]; [done|exact IH]).
    by rewrite Hf, Ht.
Qed.

(** ** Histories *)

Inductive call :=
| Open (flags : Z) (vfs_open : Z → Z → de_error + node)
| Close (fd : Z)
| Dup (fd min_fd max_fd flags : Z)
| Fcntl (fd cmd arg : Z)
| Lseek (fd offset whence : Z)
| MakePipe (flags : Z) (vfs_pipe : de_error + node * node)
| MakePty (pty_create : de_error + node * node)
| Chdir (vfs_open : de_error + node)
| Fork (new : Z)
| Exec
| Exit.

(** Two numbers that a call answers, and its error code. *)
Definition perform s (i : Z) (c : call) : option (files * (Z * Z * de_error)) :=
  match c with
  | Open flags vfs_open => '(s, fd, r) ← file_open file_table_address s i flags vfs_open; Some (s, (fd, 0, r))
  | Close fd => '(s, r) ← file_close file_table_address s i fd; Some (s, (0, 0, r))
  | Dup fd min_fd max_fd flags =>
      '(s, k, r) ← file_dup file_table_address s i fd min_fd max_fd flags; Some (s, (k, 0, r))
  | Fcntl fd cmd arg => '(s, v, r) ← file_fcntl file_table_address s i fd cmd arg; Some (s, (v, 0, r))
  | Lseek fd offset whence => '(s, o, r) ← file_lseek file_table_address s i fd offset whence; Some (s, (o, 0, r))
  | MakePipe flags vfs_pipe =>
      '(s, fd0, fd1, r) ← file_pipe file_table_address s i flags vfs_pipe; Some (s, (fd0, fd1, r))
  | MakePty pty_create => '(s, fd0, fd1, r) ← file_openpty file_table_address s i pty_create; Some (s, (fd0, fd1, r))
  | Chdir vfs_open => '(s, r) ← file_chdir s i vfs_open; Some (s, (0, 0, r))
  | Fork new => s ← fd_clone_func file_table_address s i new; Some (s, (0, 0, DE_SUCCESS))
  | Exec => s ← exec_close file_table_address s i; Some (s, (0, 0, DE_SUCCESS))
  | Exit => s ← fd_release_func file_table_address s i; Some (s, (0, 0, DE_SUCCESS))
  end.

(** A new task has no files. *)
Definition call_ok s (c : call) : Prop :=
  match c with
  | Fork new => ∃ t, (tasks s).[new] = Some t ∧ idle t
  | _ => True
  end.

(** The only call without a defined answer. *)
Definition undefined_call s (i : Z) (c : call) : Prop :=
  match c with
  | Lseek fd offset whence => undefined_lseek s i fd offset whence
  | _ => False
  end.

Inductive step s : files → Prop :=
| step_call i c t s' a : (tasks s).[i] = Some t → call_ok s c → perform s i c = Some (s', a) → step s s'.

Lemma decide_lseek (c : call) :
  (∃ fd offset whence, c = Lseek fd offset whence) ∨ ∀ fd offset whence, c ≠ Lseek fd offset whence.
Proof. destruct c; first [right; by intros ???|left; by do 3 eexists]. Qed.

Lemma perform_files_ok s i t c :
  files_ok s [] [] → (tasks s).[i] = Some t → call_ok s c →
  (undefined_call s i c ∧ perform s i c = None) ∨
  (¬ undefined_call s i c ∧ ∃ s' a, perform s i c = Some (s', a) ∧ files_ok s' [] []).
Proof.
  intros Hs Hi Hc. destruct (decide_lseek c) as [(fd & off & wh & ->)|Hc'].
  { cbn [perform undefined_call]. destruct (file_lseek_ok s i t fd off wh Hs Hi) as [[Hu ->]|(Hu & s' & v & r & -> & Hok)]; [by left|].
    right. split; [done|]. by eexists _, _. }
  right. split; [destruct c; try (by intros []); by destruct (Hc' fd offset whence)|]. destruct c as [flags vo|fd|fd mn mx flags|fd cmd arg|fd off wh|flags vp|pc|vo|new| |]; cbn [perform call_ok] in *.
  - destruct (file_open_ok s i t flags vo Hs Hi) as (s' & fd & r & -> & Hok). by eexists _, _.
  - destruct (file_close_ok s [] [] i t fd Hs Hi) as [[-> _]|(s' & -> & Hok & _)]; by eexists _, _.
  - destruct (file_dup_ok s i t fd mn mx flags Hs Hi) as (s' & k & r & -> & Hok & _). by eexists _, _.
  - destruct (file_fcntl_ok s i t fd cmd arg Hs Hi) as (s' & v & r & -> & Hok). by eexists _, _.
  - by destruct (Hc' fd off wh).
  - destruct (open_pair_ok s i t (Z.lor O_RDONLY (Z.land flags O_NONBLOCK)) (Z.lor O_WRONLY (Z.land flags O_NONBLOCK)) flags vp Hs Hi)
      as (s' & fd0 & fd1 & r & Hop & Hok). unfold file_pipe. rewrite Hop. by eexists _, _.
  - destruct (open_pair_ok s i t O_RDWR O_RDWR 0 pc Hs Hi) as (s' & fd0 & fd1 & r & Hop & Hok).
    unfold file_openpty. rewrite Hop. by eexists _, _.
  - destruct (file_chdir_ok s i t vo Hs Hi) as (s' & r & -> & Hok). by eexists _, _.
  - destruct Hc as (t' & Hj & Hidle). destruct (fd_clone_ok s i new t t' Hs Hi Hj Hidle) as (s' & t'' & -> & Hok & _). by eexists _, _.
  - destruct (exec_close_ok s i t Hs Hi) as (s' & t' & -> & Hok & _). by eexists _, _.
  - destruct (fd_release_ok s i t Hs Hi) as (s' & t' & -> & Hok & _). by eexists _, _.
Qed.

Lemma reachable_files_ok n s : rtc step (file_init n) s → files_ok s [] [].
Proof.
  assert (Hall : ∀ s0, rtc step s0 s → files_ok s0 [] [] → files_ok s [] []).
  { induction 1 as [s0|s0 s1 s2 [i c t s' a Hi Hc Hp] _ IH]; intros Hs; [done|]. apply IH.
    destruct (perform_files_ok _ _ _ _ Hs Hi Hc) as [[_ Hp']|(_ & s'' & a' & Hp' & Hok)]; rewrite Hp in Hp'; [done|].
    by injection Hp' as <- <-. }
  intros Hr. apply (Hall _ Hr), file_init_ok.
Qed.

(** ** What the calls promise *)

(** (C19) After every history of calls of any tasks every entry of the table counts
    the descriptors that refer to it; an entry is free exactly when there are none,
    and owns a node otherwise; the nodes that came are those that entries and tasks
    own and those that were released, each as often as it came.  Every further call
    has a defined answer but one: the seek by the smallest [off_t], from the current
    offset or from the end, of a file or a block device, whose offset the code
    negates; no history contains it. *)
Theorem file_tables_invariant n s :
  rtc step (file_init n) s →
  (∀ e x, (file_table s).[e] = Some x →
     fte_count x = Z.of_nat (refs e s) ∧ (fte_count x = 0 → x = no_entry) ∧
     (0 < fte_count x → fte_lock x = true ∧ is_Some (fte_node x))) ∧
  acquired s ≡ₚ held s ++ released s ∧
  ∀ i t c, (tasks s).[i] = Some t → call_ok s c → (perform s i c = None ↔ undefined_call s i c).
Proof.
  intros Hr. pose proof (reachable_files_ok _ _ Hr) as Hs. split; [|split].
  - intros e x Hx. destruct (f_entries _ _ _ Hs e x Hx) as (H1 & H2 & H3 & H4 & H5). cbn [pending total Nat.add] in *.
    split; [done|]. split; [intros H0; apply H3; lia|]. intros Hp. split; [apply H4|apply H5]; lia.
  - pose proof (f_nodes _ _ _ Hs) as Hn. by rewrite app_nil_r in Hn.
  - intros i t c Hi Hc. by destruct (perform_files_ok s i t c Hs Hi Hc) as [[Hu ->]|(Hu & s' & a & -> & _)].
Qed.

(** Closing a descriptor frees its slot and nothing else of the tasks; with the
    last reference the entry is free and its node released, otherwise the count goes
    down and the node stays. *)
Theorem file_close_correct n s i t fd w e x k :
  rtc step (file_init n) s → (tasks s).[i] = Some t → 0 ≤ fd < fd_state t → (fd_table t).[fd] = Some w →
  entry_of w = Some e → (file_table s).[e] = Some x → fte_node x = Some k →
  let last := bool_decide (refs e s = 1%nat) in
  file_close file_table_address s i fd =
    Some (Files
            (<[Z.to_nat e := if last then no_entry
                             else Entry (fte_lock x) (fte_count x - 1) (fte_flags x) (fte_offset x) (fte_node x)]> (file_table s))
            (<[Z.to_nat i := Task (fd_state t) (<[Z.to_nat fd := 0]> (fd_table t)) (wd_node t)]> (tasks s))
            (acquired s) (if last then released s ++ [k] else released s), DE_SUCCESS).
Proof.
  intros Hr Hi Hfd Hw He Hx Hk last. pose proof (reachable_files_ok _ _ Hr) as Hs.
  destruct (f_entries _ _ _ Hs e x Hx) as (H1 & _ & _ & _ & _). cbn [pending total Nat.add] in H1.
  pose proof (task_refs_pos t fd w e Hw He) as Hp. pose proof (task_refs_le s i t e Hi).
  unfold file_close, descriptor. rewrite Hi. cbn [mbind option_bind]. rewrite Z.geb_leb, (proj2 (Z.leb_le 0 fd)), (proj2 (Z.ltb_lt fd _)) by lia.
  cbn [andb]. rewrite Hw. cbn [mbind option_bind]. destruct (entry_of_nonzero _ _ He) as [-> _]. cbn [negb]. rewrite He. cbn [mbind option_bind].
  unfold file_decrement_count. rewrite Hx. cbn [mbind option_bind]. rewrite Z.gtb_ltb, (proj2 (Z.ltb_lt 0 _)) by lia.
  pose proof (rd_lt _ _ _ Hx) as Hlx. pose proof (rd_lt _ _ _ Hi) as Hli. pose proof (rd_lt _ _ _ Hw) as Hlw.
  unfold set_entry, set_slot, set_task. rewrite !wr_Some by done. cbn [mbind option_bind].
  destruct (Z.eqb_spec (fte_count x - 1) 0) as [Hz|Hz]; unfold last.
  - rewrite bool_decide_eq_true_2 by lia. rewrite Hk. cbn [release mbind option_bind tasks file_table]. rewrite Hi. cbn [mbind option_bind].
    rewrite !wr_Some by done. cbn [mbind option_bind tasks]. by rewrite !wr_Some by done.
  - rewrite bool_decide_eq_false_2 by lia. cbn [mbind option_bind tasks file_table]. rewrite Hi. cbn [mbind option_bind].
    rewrite !wr_Some by done. cbn [mbind option_bind tasks]. by rewrite !wr_Some by done.
Qed.

(** A duplicate is the lowest free descriptor of the range, or the only one of
    the range, closed before; it refers to the same entry, has the asked
    close-on-exec flag, and no other descriptor of the task changes. *)
Theorem file_dup_correct n s i t fd min_fd max_fd flags :
  rtc step (file_init n) s → (tasks s).[i] = Some t →
  ∃ s' k r, file_dup file_table_address s i fd min_fd max_fd flags = Some (s', k, r) ∧ files_ok s' [] [] ∧
    match r with
    | DE_SUCCESS =>
        min_fd ≤ k < 64 ∧ k ≤ max_fd ∧ k ≠ fd ∧ (k = max_fd → min_fd = max_fd) ∧
        (∀ j v, (fd_table t).[j] = Some v → min_fd ≤ j < k → v ≠ 0) ∧
        ∃ w e w' t', (fd_table t).[fd] = Some w ∧ 0 ≤ fd < fd_state t ∧ entry_of w = Some e ∧ entry_of w' = Some e ∧
          has w' fd_cloexec = has flags O_CLOEXEC ∧
          (tasks s').[i] = Some t' ∧ fd_state t' = Z.max (fd_state t) (k + 1) ∧ (fd_table t').[k] = Some w' ∧
          ∀ j, j ≠ k → (fd_table t').[j] = (fd_table t).[j]
    | _ => k = -1
    end.
Proof. intros Hr Hi. by apply file_dup_ok, Hi; apply (reachable_files_ok n). Qed.

Lemma task_refs_64 e t : task_ok t → (task_refs e t ≤ 64)%nat.
Proof.
  intros [_ <- _ _]. unfold task_refs. induction (fd_table t) as [|w l IH]; [done|]. cbn [total length].
  unfold refers at 1. destruct (decide _); lia.
Qed.

Lemma refs_bound s pend o e : files_ok s pend o → (refs e s ≤ 64 * length (tasks s))%nat.
Proof.
  intros Hs. unfold refs. pose proof (f_tasks _ _ _ Hs) as Ht. induction Ht as [|t l Ht _ IH]; [done|].
  cbn [total length]. pose proof (task_refs_64 e t Ht). lia.
Qed.

(** (C26) A new task gets every descriptor of its maker, close-on-exec flags
    included, and its working directory; with an exec exactly the descriptors with
    the flag are closed. *)
Theorem fork_exec_correct n s i j t new :
  rtc step (file_init n) s → (tasks s).[i] = Some t → (tasks s).[j] = Some new → idle new → i ≠ j →
  64 * Z.of_nat (length (tasks s)) + 64 ≤ INT_MAX →
  ∃ s1 s2 t2, fd_clone_func file_table_address s i j = Some s1 ∧
    (tasks s1).[i] = Some t ∧ (tasks s1).[j] = Some (Task (fd_state t) (fd_table t) (wd_node t)) ∧
    exec_close file_table_address s1 j = Some s2 ∧ (tasks s2).[i] = Some t ∧ (tasks s2).[j] = Some t2 ∧
    wd_node t2 = wd_node t ∧
    ∀ k w, (fd_table t).[k] = Some w → (fd_table t2).[k] = Some (if has w fd_cloexec then 0 else w).
Proof.
  intros Hr Hi Hj Hidle Hne Hmany. pose proof (reachable_files_ok _ _ Hr) as Hs.
  destruct (fd_clone_ok s i j t new Hs Hi Hj Hidle) as (s1 & t1 & Hcl & Hok1 & Hts1 & Hst & Hwd & Hsame).
  assert (Htab : fd_table t1 = fd_table t).
  { apply Hsame. intros e x Hx. destruct (f_entries _ _ _ Hs e x Hx) as (H1 & _). pose proof (refs_bound _ _ _ e Hs).
    cbn [pending total Nat.add] in H1. lia. }
  assert (Et : t1 = Task (fd_state t) (fd_table t) (wd_node t)) by (destruct t1; cbn in *; by subst).
  pose proof (rd_lt _ _ _ Hj) as Hlj. pose proof (rd_lt _ _ _ Hi) as Hli.
  assert (Hj1 : (tasks s1).[j] = Some t1) by (rewrite Hts1, rd_insert by done; by rewrite decide_True).
  assert (Hi1 : (tasks s1).[i] = Some t) by (rewrite Hts1, rd_insert by done; by rewrite decide_False by congruence).
  destruct (exec_close_ok s1 j t1 Hok1 Hj1) as (s2 & t2 & Hex & Hok2 & Hts2 & Hwd2 & Ht2).
  assert (Hlj1 : 0 ≤ j < Z.of_nat (length (tasks s1))) by (by eapply rd_lt).
  exists s1, s2, t2. split; [done|]. split; [done|]. split; [by rewrite Hj1, Et|]. split; [done|].
  split; [rewrite Hts2, rd_insert by done; by rewrite decide_False by congruence|].
  split; [rewrite Hts2, rd_insert by done; by rewrite decide_True|]. split; [congruence|].
  intros k w Hk. apply Ht2. by rewrite Htab.
Qed.

Lemma lseek_file_passes (type : Z) : type = vfs_type_regular ∨ type = vfs_type_block → negb (lseek_allowed type) = false.
Proof. by intros [-> | ->]. Qed.

Lemma lseek_refused (type : Z) :
  ¬ (type = vfs_type_regular ∨ type = vfs_type_block) → type ≠ vfs_type_directory → type ≠ vfs_type_message →
  negb (lseek_allowed type) = true.
Proof. intros. destruct (lseek_allowed type) eqn:E; [|done]. apply lseek_allowed_cases in E. tauto. Qed.

(** The offset that is asked for is a number of 64 bits, or there is none. *)
Lemma lseek_target_correct (k : node) current offset whence :
  0 ≤ current < 2 ^ 64 → 0 ≤ get_file_size k < 2 ^ 64 → - 2 ^ 63 ≤ offset < 2 ^ 63 → ¬ negates_smallest offset whence →
  lseek_target k current offset whence =
    Some (if decide (0 ≤ whence ≤ 2) then
            let target := (if decide (whence = SEEK_SET) then 0 else if decide (whence = SEEK_CUR) then current else get_file_size k) + offset in
            if decide (0 ≤ target < 2 ^ 64) then Some target else None
          else None).
Proof.
  intros Hc Hsz Ho Hneg. unfold negates_smallest in Hneg.
  assert (Hu : ∀ o, 0 ≤ o < 2 ^ 64 → 0 ≤ offset → u64 (o + offset) = if decide (o + offset < 2 ^ 64) then o + offset else o + offset - 2 ^ 64).
  { intros o Hb H0. destruct (decide _); [apply wrap_small; lia|]. unfold wrap. symmetry. apply Z.mod_unique_pos with (q := 1); lia. }
  unfold SEEK_SET, SEEK_CUR, SEEK_END in *.
  destruct (decide (0 ≤ whence ≤ 2)) as [Hw|Hw]; cycle 1.
  { unfold lseek_target, SEEK_SET, SEEK_CUR, SEEK_END.
    rewrite (proj2 (Z.eqb_neq whence 0)), (proj2 (Z.eqb_neq whence 1)), (proj2 (Z.eqb_neq whence 2)) by lia. done. }
  assert (Hcase : whence = 0 ∨ whence = 1 ∨ whence = 2) by lia.
  unfold lseek_target, SEEK_SET, SEEK_CUR, SEEK_END.
  destruct Hcase as [->|[->| ->]]; cbn [Z.eqb Pos.eqb andb].
  2,3: rewrite (proj2 (Z.eqb_neq offset (- 2 ^ 63))) by lia; cbn [mbind option_bind].
  all: rewrite ?Z.geb_leb; destruct (Z.leb_spec 0 offset), (Z.ltb_spec offset 0); try lia.
  all: repeat case_decide; try lia; try tauto; rewrite ?Hu by lia; repeat case_decide; try lia; rewrite ?Z.add_0_l; try done.
  all: repeat match goal with |- context [?a <=? ?b] => destruct (Z.leb_spec a b) end; try lia; repeat f_equal; lia.
Qed.

(** The entry with a new offset. *)
Definition moved s (e : Z) (x : file_table_entry) (o : Z) : files :=
  Files (<[Z.to_nat e := Entry (fte_lock x) (fte_count x) (fte_flags x) o (fte_node x)]> (file_table s))
        (tasks s) (acquired s) (released s).

(** What a seek answers for a node: files and block devices move to the place that is
    asked for, directories and messages only to their beginning, and pipes,
    terminals and the rest do not move. *)
Definition seek_answer s (e : Z) (x : file_table_entry) (k : node) (offset whence : Z) : option (files * Z * de_error) :=
  let base := if decide (whence = SEEK_SET) then 0 else if decide (whence = SEEK_CUR) then fte_offset x else get_file_size k in
  let rewinds := decide (whence = SEEK_SET ∧ offset = 0) in
  if decide (node_type k = vfs_type_regular ∨ node_type k = vfs_type_block) then
    if decide (offset = - 2 ^ 63 ∧ (whence = SEEK_CUR ∨ whence = SEEK_END)) then None
    else if decide (0 ≤ whence ≤ 2 ∧ 0 ≤ base + offset < 2 ^ 64) then Some (moved s e x (base + offset), base + offset, DE_SUCCESS)
    else Some (s, fte_offset x, DE_UNSUPPORTED)
  else if decide (node_type k = vfs_type_directory) then
    Some (if rewinds then (moved s e x 0, 0, DE_SUCCESS) else (s, 0, DE_DIRECTORY))
  else if decide (node_type k = vfs_type_message) then
    Some (if rewinds then (moved s e x 0, 0, DE_SUCCESS) else (s, 0, DE_ACCESS))
  else Some (s, 0, DE_ACCESS).

(** (C36) The answer of a seek for an open descriptor of every type of node: for files
    and block devices the offset that is asked for, from the beginning, from the
    current offset or from the end of the file, becomes the offset of the entry
    exactly when it is a number of 64 bits that is not negative, and otherwise nothing
    changes; directories and messages accept only their beginning; other nodes refuse.
    Only the smallest [off_t] from the current offset or from the end, whose negation
    overflows, has no defined answer. *)
Theorem file_lseek_correct n s i t fd w e x k offset whence :
  rtc step (file_init n) s → (tasks s).[i] = Some t → 0 ≤ fd < fd_state t → (fd_table t).[fd] = Some w →
  entry_of w = Some e → (file_table s).[e] = Some x → fte_node x = Some k →
  0 ≤ fte_offset x < 2 ^ 64 → 0 ≤ get_file_size k < 2 ^ 64 → - 2 ^ 63 ≤ offset < 2 ^ 63 →
  file_lseek file_table_address s i fd offset whence = seek_answer s e x k offset whence.
Proof.
  intros Hr Hi Hfd Hw He Hx Hk Hcur Hsz Hoff. pose proof (reachable_files_ok _ _ Hr) as Hs. unfold file_lseek, seek_answer.
  destruct (descriptor_ok s [] [] i t fd Hs Hi) as [[_ Hz]|(v & e' & x' & -> & _ & Hv & He' & _ & _)].
  { rewrite Hz in Hw by done. injection Hw as <-. by rewrite entry_of_0 in He. }
  rewrite Hw in Hv. injection Hv as <-. cbn [mbind option_bind]. rewrite He. cbn [mbind option_bind]. rewrite Hx. cbn [mbind option_bind].
  rewrite Hk. cbn [mbind option_bind].
  assert (Hset : ∀ o, set_entry s e (Entry (fte_lock x) (fte_count x) (fte_flags x) o (Some k)) = Some (moved s e x o)).
  { intros o. unfold set_entry, moved. rewrite Hk. by rewrite wr_Some by (by eapply rd_lt). }
  assert (Hrewind : negb (whence =? SEEK_SET) || negb (offset =? 0) = negb (bool_decide (whence = SEEK_SET ∧ offset = 0))).
  { repeat case_bool_decide; destruct (Z.eqb_spec whence SEEK_SET), (Z.eqb_spec offset 0); cbn [negb orb]; tauto. }
  rewrite Hrewind. destruct (decide (node_type k = vfs_type_regular ∨ node_type k = vfs_type_block)) as [Htype|Htype].
  - rewrite lseek_file_passes by done. rewrite (proj2 (Z.eqb_neq _ _)), (proj2 (Z.eqb_neq _ _)) by (by destruct Htype as [-> | ->]).
    cbn [andb]. destruct (decide (offset = - 2 ^ 63 ∧ _)) as [Hneg|Hneg]; [by rewrite lseek_target_undefined|].
    rewrite lseek_target_correct by done. cbn [mbind option_bind]. cbv zeta.
    set (base := if decide (whence = SEEK_SET) then _ else _).
    destruct (decide (0 ≤ whence ≤ 2)) as [Hwh|Hwh]; [|by rewrite decide_False by tauto].
    destruct (decide (0 ≤ base + offset < 2 ^ 64)) as [Ht|Ht]; [|by rewrite decide_False by tauto].
    by rewrite decide_True, Hset by done.
  - assert (Hpass : node_type k = vfs_type_directory ∨ node_type k = vfs_type_message →
      whence = SEEK_SET ∧ offset = 0 → lseek_target k (fte_offset x) offset whence = Some (Some 0)) by (by intros _ [-> ->]).
    destruct (decide (node_type k = vfs_type_directory)) as [Hd|Hd]; [rewrite Hd in *|destruct (decide (node_type k = vfs_type_message)) as [Hm|Hm]; [rewrite Hm in *|]].
    1,2: destruct (decide (whence = SEEK_SET ∧ offset = 0)) as [Hy|Hy];
      [rewrite bool_decide_true by done|rewrite bool_decide_false by done]; cbn [negb andb]; [rewrite Hpass by (auto; done)|done];
      cbn; by rewrite Hset.
    rewrite lseek_refused; [done|tauto..].
Qed.

(** F_SETFD can set the close-on-exec flag of a descriptor; it never clears it. *)
Theorem setfd_never_clears n s i t fd w arg :
  rtc step (file_init n) s → (tasks s).[i] = Some t → 0 ≤ fd < fd_state t → (fd_table t).[fd] = Some w → w ≠ 0 →
  ∃ s' t' w' v, file_fcntl file_table_address s i fd F_SETFD arg = Some (s', v, DE_SUCCESS) ∧
    (tasks s').[i] = Some t' ∧ (fd_table t').[fd] = Some w' ∧
    has w' fd_cloexec = has w fd_cloexec || has arg FD_CLOEXEC.
Proof.
  intros Hr Hi Hfd Hw Hne. pose proof (reachable_files_ok _ _ Hr) as Hs. unfold file_fcntl.
  destruct (descriptor_ok s [] [] i t fd Hs Hi) as [[_ Hz]|(v & e & x & -> & _ & Hv & He & Hx & Hpos)].
  { rewrite Hz in Hw by done. congruence. }
  rewrite Hw in Hv. injection Hv as <-. cbn [mbind option_bind]. rewrite He. cbn [mbind option_bind]. rewrite Hx. cbn [mbind option_bind].
  change ((F_SETFD =? F_DUPFD) || (F_SETFD =? F_DUPFD_CLOEXEC)) with false. change (F_SETFD =? F_GETFD) with false.
  change (F_SETFD =? F_SETFD) with true. cbn iota.
  destruct (has arg FD_CLOEXEC) eqn:Ha; cbn [mbind option_bind].
  - destruct (set_slot_ok s [] [] [] i t fd w (Z.lor w fd_cloexec) Hs Hi Hw) as (s' & -> & _ & _ & Hts & Hok).
    + right. rewrite entry_of_cloexec. by exists e.
    + left. lia.
    + intros k. unfold refers. by rewrite entry_of_cloexec.
    + intros k y Hy Hk. rewrite entry_of_cloexec in Hk. assert (k = e) by congruence. subst k.
      by destruct (referred_entry s [] [] i t e y Hs Hi Hpos Hy).
    + cbn [mbind option_bind]. eexists s', _, _, _. split; [done|]. split; [rewrite Hts, rd_insert by (by eapply rd_lt); by rewrite decide_True|].
      cbn [fd_table]. split; [rewrite rd_insert by (by eapply rd_lt); by rewrite decide_True|].
      rewrite orb_true_r. unfold has. rewrite Z.land_lor_distr_l, Z.land_diag. apply negb_true_iff, Z.eqb_neq. intros H0.
      apply Z.lor_eq_0_iff in H0 as [_ H0]. done.
  - exists s, t, w, (-1). rewrite orb_false_r. by split_and!.
Qed.

End FileOk.

(** ** Witnesses *)

(** Nodes are the sizes of regular files. *)
#[local] Instance demo_nodes : NodeInfo Z := {| node_type _ := vfs_type_regular; node_size n := Some n |}.

Definition demo_address : Z := 0x100000.

Lemma demo_address_ok : 0 < demo_address ∧ demo_address + 4096 * entry_size ≤ 2 ^ 28.
Proof. by vm_compute. Qed.

Definition demo_open : call (node := Z) := Open (Z.lor O_RDWR O_CLOEXEC) (λ _ _, inr 100).

(** Two tasks; the first one has opened a file of 100 bytes. *)
Definition demo : files (node := Z) :=
  default (file_init 2) (fst <$> perform demo_address (file_init 2) 0 demo_open).

Lemma demo_performed : perform demo_address (file_init 2) 0 demo_open = Some (demo, (0, 0, DE_SUCCESS)).
Proof. vm_compute. reflexivity. Qed.

Lemma demo_reachable : rtc (step demo_address) (file_init 2) demo.
Proof.
  eapply rtc_once, (step_call demo_address _ 0 demo_open no_files).
  - vm_compute. reflexivity.
  - done.
  - apply demo_performed.
Qed.

Definition demo_task : task_fd (node := Z) := Task 1 (0x80100000 :: replicate 63 0) None.
Definition demo_entry : file_table_entry (node := Z) := Entry true 1 (Z.lor O_RDWR O_CLOEXEC) 0 (Some 100).

Lemma file_tables_invariant_witness :
  rtc (step demo_address) (file_init 2) demo ∧
  (∀ e x, (file_table demo).[e] = Some x →
     fte_count x = Z.of_nat (refs demo_address e demo) ∧ (fte_count x = 0 → x = no_entry) ∧
     (0 < fte_count x → fte_lock x = true ∧ is_Some (fte_node x))) ∧
  acquired demo ≡ₚ held demo ++ released demo ∧
  ∀ i t c, (tasks demo).[i] = Some t → call_ok demo c →
    (perform demo_address demo i c = None ↔ undefined_call demo_address demo i c).
Proof. split; [apply demo_reachable|]. apply (file_tables_invariant demo_address demo_address_ok 2 demo demo_reachable). Defined.

Lemma file_close_correct_witness :
  ∃ s', file_close demo_address demo 0 0 = Some (s', DE_SUCCESS) ∧ released s' = [100].
Proof.
  pose proof (file_close_correct demo_address demo_address_ok 2 demo 0 demo_task 0 0x80100000 0 demo_entry 100 demo_reachable) as Hc.
  eexists. split.
  - apply Hc; vm_compute; done.
  - vm_compute. reflexivity.
Defined.

Lemma file_dup_correct_witness :
  ∃ s' k r, file_dup demo_address demo 0 0 5 63 0 = Some (s', k, r) ∧ files_ok demo_address s' [] [].
Proof.
  assert (Hi : (tasks demo).[0] = Some demo_task) by (vm_compute; reflexivity).
  destruct (file_dup_correct demo_address demo_address_ok 2 demo 0 demo_task 0 5 63 0 demo_reachable Hi) as (s' & k & r & Hd & Hok & _).
  exists s', k, r. split; [exact Hd|exact Hok].
Defined.

Lemma fork_exec_correct_witness :
  ∃ s1 s2 t2, fd_clone_func demo_address demo 0 1 = Some s1 ∧ exec_close demo_address s1 1 = Some s2 ∧
    (tasks s2).[1] = Some t2 ∧ (fd_table t2).[0] = Some 0.
Proof.
  assert (Hidle : idle (no_files (node := Z))).
  { split; [|reflexivity]. intros k w Hk. apply rd_Some in Hk as [_ Hk]. apply lookup_replicate in Hk. apply Hk. }
  destruct (fork_exec_correct demo_address demo_address_ok 2 demo 0 1 demo_task no_files demo_reachable) as
    (s1 & s2 & t2 & H1 & _ & _ & H2 & _ & H3 & _ & H4); [vm_compute; done|vm_compute; done|exact Hidle|done|vm_compute; done|].
  exists s1, s2, t2. split; [exact H1|]. split; [exact H2|]. split; [exact H3|]. apply (H4 0 0x80100000). vm_compute. reflexivity.
Defined.

Lemma file_lseek_correct_witness :
  ∃ s', file_lseek demo_address demo 0 0 (-30) SEEK_END = Some (s', 70, DE_SUCCESS).
Proof.
  eexists.
  pose proof (file_lseek_correct demo_address demo_address_ok 2 demo 0 demo_task 0 0x80100000 0 demo_entry 100 (-30) SEEK_END demo_reachable) as Hl.
  rewrite Hl; vm_compute; done.
Defined.

Lemma setfd_never_clears_witness :
  ∃ s' t' w' v, file_fcntl demo_address demo 0 0 F_SETFD 0 = Some (s', v, DE_SUCCESS) ∧
    (tasks s').[0] = Some t' ∧ (fd_table t').[0] = Some w' ∧ has w' fd_cloexec = true.
Proof.
  apply (setfd_never_clears demo_address demo_address_ok 2 demo 0 demo_task 0 0x80100000 0 demo_reachable); vm_compute; done.
Defined.
