(* ===== verification/FileIo.v ===== *)
(** Reading and writing through descriptors: [file_read] and [file_write] of
    kernel/syscall/file.c, over the nodes and events of the system (class
    [NodeIo]).  A call that waits repeats the operation of the node until it is
    done, interrupted or not allowed to wait; it ends when the node makes progress
    (class [Progress]). *)

From S2P Require Import Prelude Errors VfsPath Vfs FileTable FileOk.

Definition vfs_type_buffer : Z := 2.
Definition vfs_type_character : Z := 4.

(** The operations of the nodes, what they wait for, and the signals of the task, in
    a world that all of them change. *)
Class NodeIo (world node : Type) := {
  n_read : world → node → Z → Z → world * list Z * de_error;
  n_write : world → node → Z → list Z → world * Z * de_error;
  n_append : world → node → list Z → world * Z * de_error;
  n_size : world → node → option Z;
  internal_event : node → bool;
  event_wait : world → node → world;
  task_yield : world → world;
  task_signaled : world → bool;
  kmsg_first : world → node → Z }.

Section FileIo.
Context {world node : Type} `{!NodeInfo node} `{!NodeIo world node} (file_table_address : Z).
Abbreviation files := (files (node := node)).
Implicit Types (w : world) (s : files).

Definition detect_interrupt w (r : de_error) : de_error :=
  if decide (r ≠ DE_SUCCESS ∧ r ≠ DE_RETRY) then r
  else if task_signaled w then DE_INTERRUPT else DE_SUCCESS.

Definition set_offset s (e : Z) (o : Z) : option files :=
  x ← (file_table s).[e];
  set_entry s e (Entry (fte_lock x) (fte_count x) (fte_flags x) o (fte_node x)).

(** ** Reading *)

(** One turn of [call_n_read] for a node of messages: one message, or a place
    without one, which is skipped. *)
Definition message_turn (n : node) (e size : Z) (x : world * files)
  : option (ctl (world * files) (world * files * list Z * de_error)) :=
  let '(w, s) := x in
  y ← (file_table s).[e];
  let '(w, bytes, r) := n_read w n (fte_offset y) size in
  let offset := u64 (fte_offset y + (if Z.of_nat (length bytes) =? 0 then 0 else 1)) in
  if bool_decide (r = DE_PLACEHOLDER) && (Z.of_nat (length bytes) =? 0) then
    let offset := u64 (offset + 1) in
    let first := kmsg_first w n in
    s ← set_offset s e (if offset <? first then first else offset);
    Some (if task_signaled w then Done (w, s, [], DE_INTERRUPT) else Next (w, s))
  else
    s ← set_offset s e offset;
    Some (Done (w, s, bytes, r)).

Definition call_n_read (fuel : nat) (n : node) (e size : Z) w s : option (world * files * list Z * de_error) :=
  if node_type n =? vfs_type_message then while fuel (message_turn n e size) (w, s)
  else let '(w, bytes, r) := n_read w n 0 size in Some (w, s, bytes, r).

(** The loop of [file_read]; the bytes of the last call, and the error code. *)
Definition read_turn (fuel : nat) (n : node) (e size : Z) (nonblock : bool) (x : world * files * list Z * de_error)
  : option (ctl (world * files * list Z * de_error) (world * files * list Z * de_error)) :=
  let '(w, s, bytes, r) := x in
  if negb (Z.of_nat (length bytes) =? 0) then Some (Done x)
  else if decide (r = DE_EMPTY) then Some (Done (w, s, bytes, DE_SUCCESS))
  else if nonblock then Some (Done x)
  else
    let r := detect_interrupt w r in
    if decide (r ≠ DE_SUCCESS) then Some (Done (w, s, bytes, r))
    else
      let w := if internal_event n then event_wait w n else task_yield w in
      '(w, s, bytes, r) ← call_n_read fuel n e size w s;
      Some (if negb (internal_event n) && (Z.of_nat (length bytes) =? 0) && bool_decide (r = DE_SUCCESS)
            then Done (w, s, bytes, r) else Next (w, s, bytes, r)).

Definition block_capability (n : node) : bool :=
  (node_type n =? vfs_type_buffer) || (node_type n =? vfs_type_character).

(** The world, the tables, the bytes and the error code. *)
Definition file_read (fuel : nat) w s (i fd size : Z) : option (world * files * list Z * de_error) :=
  d ← descriptor s i fd;
  match d with
  | None => Some (w, s, [], DE_ARGUMENT)
  | Some t =>
      e ← entry_of file_table_address t;
      x ← (file_table s).[e];
      n ← fte_node x;
      let f := fte_flags x in
      if Z.land f O_ACCMODE =? O_WRONLY then Some (w, s, [], DE_ARGUMENT)
      else if negb (block_capability n || (node_type n =? vfs_type_message)) then
        let '(w, bytes, r) := n_read w n (fte_offset x) size in
        s ← set_offset s e (u64 (fte_offset x + Z.of_nat (length bytes)));
        Some (w, s, bytes, r)
      else
        '(w, s, bytes, r) ← call_n_read fuel n e size w s;
        while fuel (read_turn fuel n e size (has f O_NONBLOCK)) (w, s, bytes, r)
  end.

(** ** Writing *)

Definition write_node (append : bool) w (n : node) (bytes : list Z) : world * Z * de_error :=
  if append then n_append w n bytes else n_write w n 0 bytes.

(** The loop of [file_write]: the world, the bytes that the last call was given, how
    many it took, how many all calls took, and the error code. *)
Definition write_turn (n : node) (append nonblock : bool) (x : world * list Z * Z * Z * de_error)
  : option (ctl (world * list Z * Z * Z * de_error) (world * Z * de_error)) :=
  let '(w, ptr, size, total, r) := x in
  if size =? Z.of_nat (length ptr) then Some (Done (w, total, r))
  else if nonblock then Some (Done (w, total, r))
  else
    let r := detect_interrupt w r in
    if decide (r ≠ DE_SUCCESS) then Some (Done (w, total, r))
    else if size >? Z.of_nat (length ptr) then Some (Done (w, total, DE_UNEXPECTED))
    else
      let w := if size =? 0 then task_yield w else w in
      let ptr := drop (Z.to_nat size) ptr in
      let '(w, size, r) := write_node append w n ptr in
      Some (Next (w, ptr, size, total + size, r)).

(** The world, the tables, *size and the error code; with DE_PIPE the task also gets
    SIGPIPE. *)
Definition file_write (fuel : nat) w s (i fd : Z) (buffer : list Z) : option (world * files * Z * de_error) :=
  d ← descriptor s i fd;
  match d with
  | None => Some (w, s, 0, DE_ARGUMENT)
  | Some t =>
      e ← entry_of file_table_address t;
      x ← (file_table s).[e];
      n ← fte_node x;
      let f := fte_flags x in
      if Z.land f O_ACCMODE =? O_RDONLY then Some (w, s, 0, DE_ARGUMENT)
      else if negb (block_capability n) then
        if has f O_APPEND then
          let '(w, size, r) := n_append w n buffer in
          s ← set_offset s e (default 0 (n_size w n));
          Some (w, s, size, r)
        else
          let '(w, size, r) := n_write w n (fte_offset x) buffer in
          s ← set_offset s e (u64 (fte_offset x + size));
          Some (w, s, size, r)
      else
        let append := has f O_APPEND in
        let '(w, size, r) := write_node append w n buffer in
        '(w, total, r) ← while fuel (write_turn n append (has f O_NONBLOCK)) (w, buffer, size, size, r);
        Some (w, s, total, r)
  end.

(** ** Progress *)

(** A node that takes the bytes in order, and loses patience: when it takes nothing
    without an error, the next turn after a yield is nearer to an answer. *)
Class TakesBytes (append : bool) (n : node) := {
  accepted : world → list Z;
  write_patience : world → nat;
  write_takes w bytes w' k r : write_node append w n bytes = (w', k, r) →
    0 ≤ k ≤ Z.of_nat (length bytes) ∧ accepted w' = accepted w ++ take (Z.to_nat k) bytes;
  write_progress w bytes w' r : write_node append w n bytes = (w', 0, r) → bytes ≠ [] →
    r = DE_SUCCESS ∨ r = DE_RETRY → (write_patience (task_yield w') < write_patience w)%nat;
  yield_accepted w : accepted (task_yield w) = accepted w }.

Lemma detect_interrupt_success w r : detect_interrupt w r = DE_SUCCESS → r = DE_SUCCESS ∨ r = DE_RETRY.
Proof. unfold detect_interrupt. destruct (decide (_ ∧ _)) as [H|H]; [tauto|]. intros _. destruct (decide (r = DE_SUCCESS)); [tauto|]. destruct (decide (r = DE_RETRY)); tauto. Qed.

(** What holds at the end of the loop: the node has taken [k] of the bytes, in
    order, and not all of them only without waiting or after an error. *)
Definition write_done (before : list Z) (after : list Z) (buffer : list Z) (k : Z) (r : de_error) (nonblock : bool) : Prop :=
  0 ≤ k ≤ Z.of_nat (length buffer) ∧ after = before ++ take (Z.to_nat k) buffer ∧
  (k < Z.of_nat (length buffer) → nonblock = true ∨ r ≠ DE_SUCCESS ∧ r ≠ DE_RETRY).

Lemma waiting_write_ok append nonblock n `{!TakesBytes append n} before buffer :
  ∀ m p w ptr size done r,
    (length ptr ≤ m)%nat → (size = 0 → (write_patience (task_yield w) < p)%nat ∨ ¬ (r = DE_SUCCESS ∨ r = DE_RETRY) ∨ ptr = []) →
    buffer = done ++ ptr → 0 ≤ size ≤ Z.of_nat (length ptr) →
    accepted w = before ++ done ++ take (Z.to_nat size) ptr →
    ∃ fuel0, ∀ fuel, (fuel0 ≤ fuel)%nat → ∃ w' k r',
      while fuel (write_turn n append nonblock) (w, ptr, size, Z.of_nat (length done) + size, r) = Some (w', k, r') ∧
      write_done before (accepted w') buffer k r' nonblock.
Proof.
  induction m as [m IHm] using (well_founded_induction lt_wf).
  induction p as [p IHp] using (well_founded_induction lt_wf).
  intros w ptr size done r Hm Hp Hbuf Hsize Hacc.
  assert (Hend : write_done before (accepted w) buffer (Z.of_nat (length done) + size) r nonblock ∨
                 size ≠ Z.of_nat (length ptr) ∧ nonblock = false).
  { destruct (decide (size = Z.of_nat (length ptr))) as [He|He]; [left|destruct nonblock; [left|by right]].
    all: split; [rewrite Hbuf, length_app; lia|]; split; [|rewrite Hbuf, length_app; (lia || by left)].
    all: rewrite Hacc, Hbuf, take_app; f_equal; f_equal; [rewrite take_ge by lia; done|f_equal; lia]. }
  destruct Hend as [Hend|[Hne ->]].
  { destruct (Z.eqb_spec size (Z.of_nat (length ptr))) as [He|He].
    - exists 1%nat. intros [|fuel] Hf; [lia|]. cbn [while write_turn]. rewrite (proj2 (Z.eqb_eq _ _) He). by eexists _, _, _.
    - destruct nonblock.
      + exists 1%nat. intros [|fuel] Hf; [lia|]. cbn [while write_turn]. rewrite (proj2 (Z.eqb_neq _ _) He). by eexists _, _, _.
      + destruct Hend as (_ & _ & Hr). rewrite Hbuf, length_app in Hr. destruct Hr as [|[H1 H2]]; [lia|done|].
        exists 1%nat. intros [|fuel] Hf; [lia|]. cbn [while write_turn]. rewrite (proj2 (Z.eqb_neq _ _) He). unfold detect_interrupt.
        rewrite (decide_True (P := r ≠ DE_SUCCESS ∧ r ≠ DE_RETRY)), decide_True by done. eexists _, _, _. split; [done|].
        split; [rewrite Hbuf, length_app; lia|]. split; [|by intros _; right].
        rewrite Hacc, Hbuf, take_app. f_equal. f_equal; [rewrite take_ge by lia; done|f_equal; lia]. }
  destruct (decide (detect_interrupt w r = DE_SUCCESS)) as [Hd|Hd]; cycle 1.
  { exists 1%nat. intros [|fuel] Hf; [lia|]. cbn [while write_turn]. rewrite (proj2 (Z.eqb_neq _ _) Hne), decide_True by done.
    eexists _, _, _. split; [done|]. split; [rewrite Hbuf, length_app; lia|]. split.
    - rewrite Hacc, Hbuf, take_app. f_equal. f_equal; [rewrite take_ge by lia; done|f_equal; lia].
    - intros _. right. unfold detect_interrupt in *. destruct (decide (r ≠ DE_SUCCESS ∧ r ≠ DE_RETRY)); [tauto|].
      by destruct (task_signaled w). }
  set (w1 := if size =? 0 then task_yield w else w). set (ptr' := drop (Z.to_nat size) ptr).
  destruct (write_node append w1 n ptr') as [[w2 k] r2] eqn:Hwrite.
  destruct (write_takes _ _ _ _ _ Hwrite) as [Hk Hacc2].
  assert (Hacc1 : accepted w1 = accepted w) by (unfold w1; destruct (size =? 0); [apply yield_accepted|done]).
  assert (Hlen : length ptr' = (length ptr - Z.to_nat size)%nat) by (unfold ptr'; by rewrite length_drop).
  assert (Hrec : ∃ fuel0, ∀ fuel, (fuel0 ≤ fuel)%nat → ∃ w' k' r', while fuel (write_turn n append false)
      (w2, ptr', k, Z.of_nat (length (done ++ take (Z.to_nat size) ptr)) + k, r2) = Some (w', k', r') ∧
      write_done before (accepted w') buffer k' r' false).
  { assert (Hbuf' : buffer = (done ++ take (Z.to_nat size) ptr) ++ ptr') by (unfold ptr'; by rewrite <- app_assoc, take_drop).
    assert (Hacc' : accepted w2 = before ++ (done ++ take (Z.to_nat size) ptr) ++ take (Z.to_nat k) ptr').
    { by rewrite Hacc2, Hacc1, Hacc, <- !app_assoc. }
    destruct (Z.eqb_spec size 0) as [->|Hpos].
    - destruct (Hp eq_refl) as [Hpat|[Hbad|Hnil]]; [|by destruct (Hbad (detect_interrupt_success _ _ Hd))|by rewrite Hnil in Hne].
      apply (IHp (write_patience (task_yield w)) Hpat); [lia| |done|done|done].
      intros ->. destruct (decide (r2 = DE_SUCCESS ∨ r2 = DE_RETRY)) as [Hr2|Hr2]; [left|by right; left].
      apply (write_progress w1 ptr' w2 r2 Hwrite); [|done]. intros Hnil. rewrite Hnil in Hlen. cbn in Hlen. lia.
    - apply (IHm (length ptr') ltac:(lia) (S (write_patience (task_yield w2)))); [lia| |done|done|done]. intros _. left. lia. }
  destruct Hrec as (fuel0 & Hrec). exists (S fuel0). intros [|fuel] Hf; [lia|]. cbn [while write_turn].
  rewrite (proj2 (Z.eqb_neq _ _) Hne), decide_False by (by intros Hn; apply Hn).
  rewrite Z.gtb_ltb, (proj2 (Z.ltb_ge _ _)) by lia. fold w1. fold ptr'. rewrite Hwrite.
  replace (Z.of_nat (length done) + size + k) with (Z.of_nat (length (done ++ take (Z.to_nat size) ptr)) + k)
    by (rewrite length_app, length_take; lia).
  apply Hrec. lia.
Qed.

(** A node that hands out bytes, and loses patience. *)
Definition wait_for (n : node) w : world := if internal_event n then event_wait w n else task_yield w.

Class GivesBytes (n : node) (size : Z) := {
  delivered : world → list Z;
  read_patience : world → nat;
  read_gives w w' bytes r : n_read w n 0 size = (w', bytes, r) →
    Z.of_nat (length bytes) ≤ size ∧ delivered w' = delivered w ++ bytes;
  read_progress w w' r : n_read w n 0 size = (w', [], r) → r = DE_SUCCESS ∨ r = DE_RETRY →
    (read_patience (wait_for n w') < read_patience w)%nat;
  wait_delivered w : delivered (wait_for n w) = delivered w }.

(** What [file_read] gives is what the node has handed out; nothing only at an end
    of the data, without waiting, after an error or a signal, or from a node without
    an event. *)
Definition read_done (before after bytes : list Z) (size : Z) (r : de_error) (n : node) (nonblock : bool) : Prop :=
  Z.of_nat (length bytes) ≤ size ∧ after = before ++ bytes ∧
  (bytes = [] → nonblock = true ∨ r = DE_SUCCESS ∨ r ≠ DE_RETRY).

Lemma waiting_read_ok n e size nonblock s `{!GivesBytes n size} before :
  (node_type n =? vfs_type_message) = false → 0 ≤ size →
  ∀ p w bytes r,
    (bytes = [] → (read_patience (wait_for n w) < p)%nat ∨ ¬ (r = DE_SUCCESS ∨ r = DE_RETRY)) →
    Z.of_nat (length bytes) ≤ size → delivered w = before ++ bytes →
    ∃ fuel0, ∀ fuel1 fuel, (fuel0 ≤ fuel)%nat → ∃ w' bytes' r',
      while fuel (read_turn fuel1 n e size nonblock) (w, s, bytes, r) = Some (w', s, bytes', r') ∧
      read_done before (delivered w') bytes' size r' n nonblock.
Proof.
  intros Hmsg Hsize. induction p as [p IH] using (well_founded_induction lt_wf). intros w bytes r Hp Hlen Hdel.
  destruct (decide (bytes = [])) as [->|Hne]; cycle 1.
  { exists 1%nat. intros fuel1 [|fuel] Hf; [lia|]. cbn [while read_turn].
    rewrite (proj2 (Z.eqb_neq _ 0)) by (destruct bytes; [done|cbn; lia]). cbn [negb]. eexists _, _, _. by split. }
  destruct (decide (r = DE_EMPTY)) as [->|Hempty].
  { exists 1%nat. intros fuel1 [|fuel] Hf; [lia|]. cbn [while read_turn length]. change (negb (Z.of_nat 0 =? 0)) with false. cbn iota.
    rewrite decide_True by done. eexists _, _, _. split; [done|]. split; [done|]. split; [done|]. intros _. right. by left. }
  destruct nonblock.
  { exists 1%nat. intros fuel1 [|fuel] Hf; [lia|]. cbn [while read_turn length]. change (negb (Z.of_nat 0 =? 0)) with false. cbn iota.
    rewrite decide_False by done. eexists _, _, _. split; [done|]. split; [done|]. split; [done|]. intros _. by left. }
  destruct (decide (detect_interrupt w r = DE_SUCCESS)) as [Hd|Hd]; cycle 1.
  { exists 1%nat. intros fuel1 [|fuel] Hf; [lia|]. cbn [while read_turn length]. change (negb (Z.of_nat 0 =? 0)) with false. cbn iota.
    rewrite decide_False, decide_True by done. eexists _, _, _. split; [done|]. split; [done|]. split; [done|]. intros _. right. right.
    unfold detect_interrupt in *. destruct (decide (r ≠ DE_SUCCESS ∧ r ≠ DE_RETRY)); [tauto|]. by destruct (task_signaled w). }
  destruct (Hp eq_refl) as [Hpat|Hbad]; [|by destruct (Hbad (detect_interrupt_success _ _ Hd))].
  destruct (n_read (wait_for n w) n 0 size) as [[w2 bytes2] r2] eqn:Hread.
  destruct (read_gives _ _ _ _ Hread) as [Hlen2 Hdel2]. rewrite wait_delivered, Hdel, app_nil_r in Hdel2.
  destruct (IH (read_patience (wait_for n w)) Hpat w2 bytes2 r2) as (fuel0 & Hrec).
  { intros ->. destruct (decide (r2 = DE_SUCCESS ∨ r2 = DE_RETRY)) as [Hr2|Hr2]; [left|by right]. by apply (read_progress _ _ r2 Hread). }
  { done. }
  { done. }
  exists (S fuel0). intros fuel1 [|fuel] Hf; [lia|]. cbn [while read_turn length]. change (negb (Z.of_nat 0 =? 0)) with false. cbn iota.
  rewrite decide_False, decide_False by (done || (by intros Hn; apply Hn)). unfold call_n_read. rewrite Hmsg.
  change (if internal_event n then event_wait w n else task_yield w) with (wait_for n w). rewrite Hread. cbn [mbind option_bind].
  destruct (negb (internal_event n) && _ && _) eqn:Hstop; [|apply Hrec; lia].
  eexists _, _, _. split; [done|]. split; [done|]. split; [done|]. intros _. right. left.
  apply andb_true_iff in Hstop as [_ Hstop]. by apply bool_decide_eq_true in Hstop.
Qed.

Context (address_ok : 0 < file_table_address ∧ file_table_address + 4096 * entry_size ≤ 2 ^ 28).

(** The node and the flags behind a descriptor. *)
Definition open_node s (i fd : Z) (n : node) (flags : Z) : Prop :=
  ∃ t v e x, (tasks s).[i] = Some t ∧ 0 ≤ fd < fd_state t ∧ (fd_table t).[fd] = Some v ∧
    entry_of file_table_address v = Some e ∧ (file_table s).[e] = Some x ∧ fte_node x = Some n ∧ fte_flags x = flags.

Lemma open_node_lookup s i fd n flags :
  open_node s i fd n flags →
  ∃ v e x, descriptor s i fd = Some (Some v) ∧ entry_of file_table_address v = Some e ∧ (file_table s).[e] = Some x ∧
    fte_node x = Some n ∧ fte_flags x = flags.
Proof using address_ok.
  intros (t & v & e & x & Hi & Hfd & Hv & He & Hx & Hn & Hf). exists v, e, x. split; [|done]. unfold descriptor.
  rewrite Hi. cbn [mbind option_bind]. rewrite Z.geb_leb, (proj2 (Z.leb_le 0 fd)), (proj2 (Z.ltb_lt fd _)) by lia. cbn [andb].
  rewrite Hv. cbn [mbind option_bind]. by destruct (entry_of_nonzero file_table_address address_ok _ _ He) as [-> _].
Qed.

(** (C27) A write to a pipe or a terminal that takes the bytes in order and makes
    progress ends; the node has taken exactly the bytes that are counted, each once
    and in order, over however many turns; fewer than all only when the descriptor
    must not wait, after an error or because of a signal. *)
Theorem file_write_complete s w i fd n flags buffer `{!TakesBytes (has flags O_APPEND) n} :
  open_node s i fd n flags → block_capability n = true → Z.land flags O_ACCMODE ≠ O_RDONLY →
  ∃ fuel0, ∀ fuel, (fuel0 ≤ fuel)%nat → ∃ w' k r,
    file_write fuel w s i fd buffer = Some (w', s, k, r) ∧
    write_done (accepted w) (accepted w') buffer k r (has flags O_NONBLOCK).
Proof using address_ok.
  intros Hopen Hblock Hacc. destruct (open_node_lookup _ _ _ _ _ Hopen) as (v & e & x & Hdesc & He & Hx & Hn & Hf).
  destruct (write_node (has flags O_APPEND) w n buffer) as [[w1 k1] r1] eqn:Hwrite.
  destruct (write_takes _ _ _ _ _ Hwrite) as [Hk Hacc1].
  destruct (waiting_write_ok (has flags O_APPEND) (has flags O_NONBLOCK) n (accepted w) buffer (length buffer)
    (S (write_patience (task_yield w1))) w1 buffer k1 [] r1) as (fuel0 & Hloop); [done|intros _; left; lia|done|done|done|].
  exists fuel0. intros fuel Hfuel. destruct (Hloop fuel Hfuel) as (w2 & k2 & r2 & Hw & Hdone). exists w2, k2, r2. split; [|done].
  unfold file_write. rewrite Hdesc. cbn [mbind option_bind]. rewrite He. cbn [mbind option_bind]. rewrite Hx. cbn [mbind option_bind].
  rewrite Hn. cbn [mbind option_bind]. rewrite Hf, (proj2 (Z.eqb_neq _ _) Hacc), Hblock. cbn [negb]. rewrite Hwrite.
  cbn [length] in Hw. rewrite Z.add_0_l in Hw. by rewrite Hw.
Qed.

(** A read from a pipe or a terminal ends with what the node has handed out. *)
Theorem file_read_complete s w i fd n flags size `{!GivesBytes n size} :
  open_node s i fd n flags → block_capability n = true → Z.land flags O_ACCMODE ≠ O_WRONLY → 0 ≤ size →
  ∃ fuel0, ∀ fuel, (fuel0 ≤ fuel)%nat → ∃ w' bytes r,
    file_read fuel w s i fd size = Some (w', s, bytes, r) ∧
    read_done (delivered w) (delivered w') bytes size r n (has flags O_NONBLOCK).
Proof using address_ok.
  intros Hopen Hblock Hacc Hsize. destruct (open_node_lookup _ _ _ _ _ Hopen) as (v & e & x & Hdesc & He & Hx & Hn & Hf).
  assert (Hmsg : (node_type n =? vfs_type_message) = false).
  { unfold block_capability in Hblock. apply Z.eqb_neq. intros Hm. by rewrite Hm in Hblock. }
  destruct (n_read w n 0 size) as [[w1 bytes1] r1] eqn:Hread. destruct (read_gives _ _ _ _ Hread) as [Hlen1 Hdel1].
  destruct (waiting_read_ok n e size (has flags O_NONBLOCK) s (delivered w) Hmsg Hsize (S (read_patience (wait_for n w1))) w1 bytes1 r1)
    as (fuel0 & Hloop); [intros _; left; lia|done|done|].
  exists fuel0. intros fuel Hfuel. destruct (Hloop fuel fuel Hfuel) as (w2 & bytes2 & r2 & Hw & Hdone). exists w2, bytes2, r2. split; [|done].
  unfold file_read. rewrite Hdesc. cbn [mbind option_bind]. rewrite He. cbn [mbind option_bind]. rewrite Hx. cbn [mbind option_bind].
  rewrite Hn. cbn [mbind option_bind]. rewrite Hf, (proj2 (Z.eqb_neq _ _) Hacc), Hblock. cbn [negb orb]. unfold call_n_read at 1. rewrite Hmsg, Hread.
  exact Hw.
Qed.

End FileIo.

(** ** Witnesses *)

(** A pipe that takes two bytes at every second call. *)
#[local] Instance slow_nodes : NodeInfo unit := {| node_type _ := vfs_type_buffer; node_size _ := None |}.

#[local] Instance slow_io : NodeIo (list Z * bool) unit := {|
  n_read w _ _ _ := (w, [], DE_EMPTY);
  n_write w _ _ bytes := let '(l, ready) := w in
    if (ready : bool) then ((l ++ take 2 bytes, false), Z.of_nat (length (take 2 bytes)), DE_SUCCESS)
    else ((l, true), 0, DE_RETRY);
  n_append w _ _ := (w, 0, DE_UNSUPPORTED);
  n_size _ _ := None;
  internal_event _ := false;
  event_wait w _ := w;
  task_yield w := w;
  task_signaled _ := false;
  kmsg_first _ _ := 0 |}.

#[local] Instance slow_takes : TakesBytes false tt.
Proof.
  refine {| accepted (w : list Z * bool) := fst w; write_patience (w : list Z * bool) := if snd w then 0%nat else 1%nat |}; try done.
  - intros [l [|]] bytes w' k r [= <- <- <-]; cbn [fst].
    + rewrite Nat2Z.id, length_take. split; [lia|]. f_equal. by destruct bytes as [|a [|b bytes]].
    + split; [lia|]. by rewrite app_nil_r.
  - intros [l [|]] bytes w' r Hw Hne _.
    + destruct bytes as [|b bytes]; [done|]. exfalso. injection Hw as _ Hk _. destruct bytes; cbn in Hk; lia.
    + injection Hw as <- <-. cbn. lia.
Defined.

Definition slow_files : files := Files [Entry true 1 O_WRONLY 0 (Some tt)] [Task 1 (0x00100000 :: replicate 63 0) None] [] [].

Lemma file_write_complete_witness :
  ∃ fuel0, ∀ fuel, (fuel0 ≤ fuel)%nat → ∃ w' k r,
    file_write demo_address fuel ([], false) slow_files 0 0 [1; 2; 3] = Some (w', slow_files, k, r) ∧
    write_done [] (fst w') [1; 2; 3] k r false.
Proof.
  apply (file_write_complete (TakesBytes0 := slow_takes) demo_address demo_address_ok slow_files ([], false) 0 0 tt O_WRONLY [1; 2; 3]).
  - exists (Task 1 (0x00100000 :: replicate 63 0) None), 0x00100000, 0, (Entry true 1 O_WRONLY 0 (Some tt)).
    split_and!; try done; vm_compute; done.
  - reflexivity.
  - discriminate.
Defined.

Example slow_write : file_write demo_address 10 ([], false) slow_files 0 0 [1; 2; 3] = Some (([1; 2; 3], false), slow_files, 3, DE_SUCCESS).
Proof. vm_compute. reflexivity. Qed.
