(* ===== verification/Sched.v ===== *)
(** The scheduler: kernel/sched/sched.c.

    The tasks of the ring [task_read_next] runs through are a list, without the
    current task and from its successor on; a task is its index.  What
    [task_check_event] answers of a task is the argument [blocked]; whether the
    next call of [task_switch] succeeds is the argument [switch], which may
    depend on the switches that were tried before.  The model is one call of
    [yield] during which no other processor changes the ring. *)

From S2P Require Import Prelude Errors.

(** enum sched_priority, kernel/sched.h *)
Inductive sched_priority :=
| sched_priority_kernel
| sched_priority_high
| sched_priority_normal
| sched_priority_low.

#[export] Instance sched_priority_eq_dec : EqDecision sched_priority.
Proof. solve_decision. Defined.

(** The value of an enumerator: a lower one is more urgent. *)
Definition rank (p : sched_priority) : Z :=
  match p with
  | sched_priority_kernel => 0
  | sched_priority_high => 1
  | sched_priority_normal => 2
  | sched_priority_low => 3
  end.

(** The members of struct task that the scheduler uses; [state] is
    [sched.state], a 32-bit counter. *)
Record task := Task {
  priority : sched_priority;
  stopped : bool;
  uniproc : bool;
  state : Z }.

Definition set_state (t : task) (s : Z) : task := Task (priority t) (stopped t) (uniproc t) s.

(** The ring and the tasks [task_switch] was called with, in order. *)
Record world := World { tasks : list task; tried : list nat }.

(** The four local variables of the search. *)
Record found := Found {
  next_kernel : option nat;
  next_high : option nat;
  next_normal : option nat;
  next_low : option nat }.

Inductive outcome :=
| Busy              (* the lock of the current task is taken *)
| Switched (i : nat)
| Stayed
| Idled.            (* task_idle was called *)

(** The static variables [run_once] (as a flag) and [sched_lock], and whether
    [kernel->scheduler.yield] is [yield]. *)
Record sched := Sched { run_once : bool; sched_lock : bool; yield_installed : bool }.

Definition sched_init (s : sched) : de_error * sched :=
  if run_once s then (DE_UNEXPECTED, s) else (DE_SUCCESS, Sched true false true).

Section Yield.
Context (blocked : nat → bool) (switch : list nat → nat → bool).

Definition try_switch (w : world) (i : nat) : world * bool :=
  (World (tasks w) (tried w ++ [i]), switch (tried w) i).

(** next->sched.state = s *)
Definition put_state (w : world) (i : nat) (s : Z) : option world :=
  t ← tasks w !! i;
  Some (World (<[i := set_state t s]> (tasks w)) (tried w)).

(** "if (!best) best = next; if (best->sched.state < state) best = next" *)
Definition longer (ts : list task) (best : option nat) (i : nat) (st : Z) : option (option nat) :=
  let b := default i best in
  t ← ts !! b;
  Some (Some (if state t <? st then i else b)).

(** One of the four blocks of the search. *)
Definition consider (ts : list task) (p : sched_priority) (best : option nat) (i : nat) (t : task)
    (st : Z) : option (option nat) :=
  if bool_decide (priority t = p) then
    if blocked i then Some best else longer ts best i st
  else Some best.

(** The blocks in their order: a block that has a task ends the turn. *)
Definition classify (ts : list task) (f : found) (i : nat) (t : task) (st : Z) : option found :=
  k ← consider ts sched_priority_kernel (next_kernel f) i t st;
  let f := Found k (next_high f) (next_normal f) (next_low f) in
  if k is Some _ then Some f
  else
    h ← consider ts sched_priority_high (next_high f) i t st;
    let f := Found k h (next_normal f) (next_low f) in
    if h is Some _ then Some f
    else
      n ← consider ts sched_priority_normal (next_normal f) i t st;
      let f := Found k h n (next_low f) in
      if n is Some _ then Some f
      else
        l ← consider ts sched_priority_low (next_low f) i t st;
        Some (Found k h n l).

(** One turn of the inner loop; the task that was switched to, if any. *)
Definition scan_turn (w : world) (f : found) (i : nat) : option (world * found * option nat) :=
  t ← tasks w !! i;
  if stopped t then
    w ← put_state w i 0;
    Some (w, f, None)
  else
    '(w, ok) ← (if uniproc t then w ← put_state w i 0; Some (try_switch w i)
                else Some (w, false));
    if (ok : bool) then Some (w, f, Some i)
    else
      t ← tasks w !! i;
      let st := u32 (state t + 1) in
      w ← put_state w i st;
      f ← classify (tasks w) f i t st;
      Some (w, f, None).

Fixpoint scan (ring : list nat) (w : world) (f : found) : option (world * found * option nat) :=
  match ring with
  | [] => Some (w, f, None)
  | i :: ring =>
      '(w, f, r) ← scan_turn w f i;
      match r with
      | Some _ => Some (w, f, r)
      | None => scan ring w f
      end
  end.

(** The cases after the search, the most urgent first: the answer is the task
    that was switched to, or whether to search again. *)
Fixpoint cases (current : sched_priority) (runnable : bool) (cs : list (sched_priority * option nat))
    (w : world) : option (world * (nat + bool)) :=
  match cs with
  | [] => Some (w, inr false)
  | (p, next) :: cs =>
      match next with
      | Some i =>
          w ← put_state w i 0;
          let '(w, ok) := try_switch w i in
          Some (w, if (ok : bool) then inl i else inr true)
      | None =>
          if runnable && bool_decide (current = p) then Some (w, inr false)
          else cases current runnable cs w
      end
  end.

(** One turn of the loop for finding the next task. *)
Definition search_turn (current : sched_priority) (runnable : bool) (x : world * Z)
  : option (ctl (world * Z) (world * option nat)) :=
  let '(w, search_task) := x in
  if negb (Z.land search_task 1 =? 0) && (search_task <? 8) then
    '(w, f, r) ← scan (seq 0 (length (tasks w))) w (Found None None None None);
    match r with
    | Some i => Some (Done (w, Some i))
    | None =>
        let search_task := search_task + 1 in
        '(w, r) ← cases current runnable
                    [(sched_priority_kernel, next_kernel f); (sched_priority_high, next_high f);
                     (sched_priority_normal, next_normal f); (sched_priority_low, next_low f)] w;
        Some (match r with
              | inl i => Done (w, Some i)
              | inr again => if (again : bool) then Next (w, search_task + 1) else Done (w, None)
              end)
    end
  else Some (Done (w, None)).

(** The loop that looks for the task that waits longest. *)
Fixpoint starved (ts : list task) (ring : list nat) (best : option nat) : option (option nat) :=
  match ring with
  | [] => Some best
  | i :: ring =>
      t ← ts !! i;
      best ← (if blocked i then Some best else longer ts best i (state t));
      starved ts ring best
  end.

(** [yield]; [count] is the static variable, [locked] says that the lock of the
    current task is taken. *)
Definition yield (current : sched_priority) (runnable locked : bool) (count : Z) (w : world)
  : option (outcome * Z * world) :=
  if locked then Some (Busy, count, w)
  else
    let count := u32 (count + 1) in
    '(w, r) ←
      (if Z.land count 0x1F =? 0 then
         s ← starved (tasks w) (seq 0 (length (tasks w))) None;
         match s with
         | Some i =>
             w ← put_state w i 0;
             let '(w, ok) := try_switch w i in
             Some (w, if (ok : bool) then Some i else None)
         | None => Some (w, None)
         end
       else Some (w, None));
    match r with
    | Some i => Some (Switched i, count, w)
    | None =>
        '(w, r) ← while 5 (search_turn current runnable) (w, 1);
        Some (match r with
              | Some i => Switched i
              | None => if runnable then Stayed else Idled
              end, count, w)
    end.
End Yield.

(** ** The reference *)

Definition state_of (ts : list task) (i : nat) : Z := from_option state 0 (ts !! i).

(** The first task with the greatest counter. *)
Fixpoint longest (ts : list task) (l : list nat) : option nat :=
  match l with
  | [] => None
  | i :: l =>
      match longest ts l with
      | Some j => if state_of ts j <=? state_of ts i then Some i else Some j
      | None => Some i
      end
  end.

(** One search counts for every task that is not stopped. *)
Definition age (t : task) : task :=
  if stopped t then set_state t 0
  else set_state t (u32 ((if uniproc t then 0 else state t) + 1)).

Lemma longest_snoc ts l i :
  longest ts (l ++ [i])
  = match longest ts l with
    | Some b => if state_of ts b <? state_of ts i then Some i else Some b
    | None => Some i
    end.
Proof.
  induction l as [|j l IH]; [done|]. cbn [app longest]. rewrite IH.
  destruct (longest ts l) as [b|].
  - destruct (Z.ltb_spec (state_of ts b) (state_of ts i)),
      (Z.leb_spec (state_of ts b) (state_of ts j)), (Z.leb_spec (state_of ts i) (state_of ts j)),
      (Z.ltb_spec (state_of ts j) (state_of ts i)); try done; try lia;
      destruct (Z.leb_spec (state_of ts b) (state_of ts j)); try done; try lia;
      destruct (Z.ltb_spec (state_of ts b) (state_of ts i)); try done; lia.
  - destruct (Z.leb_spec (state_of ts i) (state_of ts j)),
      (Z.ltb_spec (state_of ts j) (state_of ts i)); try done; lia.
Qed.

Lemma longest_spec ts l i :
  longest ts l = Some i → i ∈ l ∧ ∀ j, j ∈ l → state_of ts j ≤ state_of ts i.
Proof.
  revert i. induction l as [|j l IH]; intros i Hi; [done|]. cbn [longest] in Hi.
  destruct (longest ts l) as [b|] eqn:Hb.
  - destruct (IH b eq_refl) as [Hin Hmax].
    destruct (Z.leb_spec (state_of ts b) (state_of ts j)); injection Hi as <-.
    + split; [by left|]. intros k [->|Hk]%elem_of_cons; [lia|]. specialize (Hmax k Hk). lia.
    + split; [by right|]. intros k [->|Hk]%elem_of_cons; [lia|]. by apply Hmax.
  - injection Hi as <-. split; [by left|]. intros k [->|Hk]%elem_of_cons; [lia|].
    destruct l as [|x l]; [by apply elem_of_nil in Hk|]. cbn [longest] in Hb.
    destruct (longest ts l); [by destruct (_ <=? _)|done].
Qed.

Lemma longest_None ts l : longest ts l = None ↔ l = [].
Proof.
  split; [|by intros ->]. destruct l as [|x l]; [done|]. cbn [longest].
  destruct (longest ts l); [by destruct (_ <=? _)|done].
Qed.

Section Spec.
Context (blocked : nat → bool) (switch : list nat → nat → bool).

(** A task of a class that may run. *)
Definition candidate (ts : list task) (p : sched_priority) (i : nat) : bool :=
  match ts !! i with
  | Some t => negb (stopped t) && bool_decide (priority t = p) && negb (blocked i)
  | None => false
  end.

Definition candidates (ts : list task) (p : sched_priority) (n : nat) : list nat :=
  filter (λ i, Is_true (candidate ts p i)) (seq 0 n).

(** The task to run: of the most urgent class that has one, the one that waits
    longest. *)
Definition reference (ts : list task) : option nat :=
  let pick p := longest ts (candidates ts p (length ts)) in
  match pick sched_priority_kernel with
  | Some i => Some i
  | None =>
      match pick sched_priority_high with
      | Some i => Some i
      | None =>
          match pick sched_priority_normal with
          | Some i => Some i
          | None => pick sched_priority_low
          end
      end
  end.

Definition slot (f : found) (p : sched_priority) : option nat :=
  match p with
  | sched_priority_kernel => next_kernel f
  | sched_priority_high => next_high f
  | sched_priority_normal => next_normal f
  | sched_priority_low => next_low f
  end.

(** The slots after [k] turns: a slot counts while those before it are empty. *)
Definition slots_ok (ts : list task) (f : found) (k : nat) : Prop :=
  ∀ p, (∀ q, rank q < rank p → slot f q = None) → slot f p = longest ts (candidates ts p k).

Lemma candidates_S ts p k :
  candidates ts p (S k) = candidates ts p k ++ (if candidate ts p k then [k] else []).
Proof.
  unfold candidates. rewrite seq_S, list.filter_app. f_equal. cbn [Nat.add].
  rewrite filter_cons. by destruct (candidate ts p k).
Qed.

Lemma candidates_lt ts p k i : i ∈ candidates ts p k → (i < k)%nat ∧ candidate ts p i = true.
Proof.
  unfold candidates. rewrite list_elem_of_filter, elem_of_seq. intros [Hc Hi].
  apply Is_true_true in Hc. split; [lia|done].
Qed.

Lemma candidate_ex ts p i : candidate ts p i = true → ∃ t, ts !! i = Some t ∧
  stopped t = false ∧ priority t = p ∧ blocked i = false.
Proof.
  unfold candidate. destruct (ts !! i) as [t|]; [|done].
  intros [[Hs%negb_true_iff Hp%bool_decide_eq_true]%andb_true_iff Hb%negb_true_iff]%andb_true_iff.
  by exists t.
Qed.

(** One block, when the list agrees with the final one so far. *)
Lemma consider_ok ts ats p best i t :
  (∀ j, (j ≤ i)%nat → ts !! j = ats !! j) → ats !! i = Some (set_state t (state_of ats i)) →
  stopped t = false → best = longest ats (candidates ats p i) →
  consider blocked ts p best i t (state_of ats i) = Some (longest ats (candidates ats p (S i))).
Proof.
  intros Hag Hi Hs ->. unfold consider. rewrite candidates_S.
  assert (Hc : candidate ats p i = bool_decide (priority t = p) && negb (blocked i)).
  { unfold candidate. rewrite Hi. cbn [set_state stopped priority]. by rewrite Hs. }
  rewrite Hc. destruct (bool_decide (priority t = p)); cbn [andb]; [|by rewrite app_nil_r].
  destruct (blocked i); cbn [negb]; [by rewrite app_nil_r|].
  rewrite longest_snoc. unfold longer. destruct (longest ats (candidates ats p i)) as [b|] eqn:Hb.
  - apply longest_spec in Hb as [Hin _]. apply candidates_lt in Hin as [Hlt Hcb].
    apply candidate_ex in Hcb as (tb & Htb & _). change (default i (Some b)) with b.
    rewrite Hag, Htb by lia. cbn [mbind option_bind].
    assert (E : state tb = state_of ats b) by (unfold state_of; by rewrite Htb).
    rewrite E. by destruct (_ <? _).
  - change (default i None) with i. rewrite Hag, Hi by lia. cbn [mbind option_bind set_state state].
    by destruct (_ <? _).
Qed.

Lemma longest_before ts p i :
  longest ts (candidates ts p (S i)) = None → longest ts (candidates ts p i) = None.
Proof. rewrite !longest_None, candidates_S. intros [H1 _]%app_eq_nil. done. Qed.

Lemma classify_ok ts ats f i t :
  (∀ j, (j ≤ i)%nat → ts !! j = ats !! j) → ats !! i = Some (set_state t (state_of ats i)) →
  stopped t = false → slots_ok ats f i →
  ∃ f', classify blocked ts f i t (state_of ats i) = Some f' ∧ slots_ok ats f' (S i).
Proof.
  intros Hag Hi Hs Hf. destruct f as [k h n l]. unfold classify. cbn [next_kernel next_high next_normal next_low].
  pose proof (λ p best, consider_ok ts ats p best i t Hag Hi Hs) as Hc.
  assert (Hk : k = longest ats (candidates ats sched_priority_kernel i)).
  { apply (Hf sched_priority_kernel). intros q Hq. destruct q; cbn in Hq; lia. }
  rewrite (Hc _ _ Hk). cbn [mbind option_bind].
  destruct (longest ats (candidates ats sched_priority_kernel (S i))) as [k'|] eqn:Ek.
  { eexists. split; [done|]. intros p Hp. destruct p; [done|..];
      specialize (Hp sched_priority_kernel ltac:(cbn; lia)); done. }
  rewrite (longest_before _ _ _ Ek) in Hk. subst k.
  assert (Hh : h = longest ats (candidates ats sched_priority_high i)).
  { apply (Hf sched_priority_high). intros q Hq. destruct q; cbn in Hq; try lia; done. }
  rewrite (Hc _ _ Hh). cbn [mbind option_bind].
  destruct (longest ats (candidates ats sched_priority_high (S i))) as [h'|] eqn:Eh.
  { eexists. split; [done|]. intros p Hp. destruct p; [done|done|..];
      specialize (Hp sched_priority_high ltac:(cbn; lia)); done. }
  rewrite (longest_before _ _ _ Eh) in Hh. subst h.
  assert (Hn : n = longest ats (candidates ats sched_priority_normal i)).
  { apply (Hf sched_priority_normal). intros q Hq. destruct q; cbn in Hq; try lia; done. }
  rewrite (Hc _ _ Hn). cbn [mbind option_bind].
  destruct (longest ats (candidates ats sched_priority_normal (S i))) as [n'|] eqn:En.
  { eexists. split; [done|]. intros p Hp. destruct p; [done|done|done|].
    specialize (Hp sched_priority_normal ltac:(cbn; lia)); done. }
  rewrite (longest_before _ _ _ En) in Hn. subst n.
  assert (Hl : l = longest ats (candidates ats sched_priority_low i)).
  { apply (Hf sched_priority_low). intros q Hq. destruct q; cbn in Hq; try lia; done. }
  rewrite (Hc _ _ Hl). cbn [mbind option_bind]. eexists. split; [done|].
  intros p _. by destruct p.
Qed.

(** *** One search *)

(** The switches that were tried and failed. *)
Definition failed (tr : list nat) : Prop :=
  ∀ l1 i l2, tr = l1 ++ i :: l2 → switch l1 i = false.

Lemma failed_nil : failed [].
Proof. intros [|] i l2 H1; done. Qed.

Lemma failed_snoc tr i : failed tr → switch tr i = false → failed (tr ++ [i]).
Proof.
  intros Hf Hi l1 j l2 E.
  destruct l2 as [|x l2 _] using rev_ind.
  - apply app_inj_tail in E as [-> ->]. done.
  - rewrite app_comm_cons, app_assoc in E. apply app_inj_tail in E as [-> _]. by apply (Hf _ _ l2).
Qed.

(** The ring after [k] turns. *)
Definition aged (ts : list task) (k : nat) : list task := (age <$> take k ts) ++ drop k ts.

Lemma aged_lookup ts k j :
  aged ts k !! j = if decide (j < k)%nat then age <$> ts !! j else ts !! j.
Proof.
  unfold aged. destruct (decide (j < k)%nat) as [Hlt|Hge].
  - destruct (ts !! j) as [t|] eqn:Ht; cbn [fmap option_fmap option_map].
    + pose proof (lookup_lt_Some _ _ _ Ht). rewrite lookup_app_l.
      * by rewrite list_lookup_fmap, lookup_take_lt, Ht.
      * rewrite length_fmap, length_take. lia.
    + apply lookup_ge_None_1 in Ht. apply lookup_ge_None_2.
      rewrite length_app, length_fmap, length_take, length_drop. lia.
  - destruct (le_lt_dec (length ts) j).
    + rewrite (lookup_ge_None_2 ts) by done. apply lookup_ge_None_2.
      rewrite length_app, length_fmap, length_take, length_drop. lia.
    + rewrite lookup_app_r; rewrite length_fmap, length_take; [|lia].
      rewrite lookup_drop. f_equal. lia.
Qed.

Lemma length_aged ts k : length (aged ts k) = length ts.
Proof. unfold aged. rewrite length_app, length_fmap, length_take, length_drop. lia. Qed.

Lemma aged_S ts k t t' :
  ts !! k = Some t → age t = t' → <[k := t']> (aged ts k) = aged ts (S k).
Proof.
  intros Ht <-. apply list_eq. intros j. rewrite aged_lookup.
  destruct (decide (j = k)) as [->|Hne].
  - rewrite list_lookup_insert_eq by (rewrite length_aged; by apply lookup_lt_Some in Ht).
    rewrite decide_True by lia. by rewrite Ht.
  - rewrite list_lookup_insert_ne, aged_lookup by done.
    destruct (decide (j < k)%nat), (decide (j < S k)%nat); try done; lia.
Qed.

Lemma put_state_Some w i t s :
  tasks w !! i = Some t → put_state w i s = Some (World (<[i := set_state t s]> (tasks w)) (tried w)).
Proof. intros Ht. unfold put_state. by rewrite Ht. Qed.

Lemma age_fields t : stopped (age t) = stopped t ∧ uniproc (age t) = uniproc t ∧
  priority (age t) = priority t.
Proof. unfold age. by destruct (stopped t) eqn:E. Qed.

Lemma state_of_aged ts k t : ts !! k = Some t → state_of (age <$> ts) k = state (age t).
Proof. intros Ht. unfold state_of. by rewrite list_lookup_fmap, Ht. Qed.

Lemma slots_ok_stopped ts f k t :
  ts !! k = Some t → stopped t = true → slots_ok ts f k → slots_ok ts f (S k).
Proof.
  intros Ht Hs Hf p Hp. rewrite candidates_S. replace (candidate ts p k) with false.
  - rewrite app_nil_r. by apply Hf.
  - unfold candidate. by rewrite Ht, Hs.
Qed.

(** The tried switches of a turn that goes on. *)
Definition goes_on (t : task) (w w' : world) : Prop :=
  failed (tried w') ∧ tried w `prefix_of` tried w' ∧
  (tried w' = [] → tried w = [] ∧ (stopped t = true ∨ uniproc t = false)).

Definition turned (ts : list task) (f : found) (k : nat) (t : task) (w : world)
    (x : world * found * option nat) : Prop :=
  let '(w', f', r) := x in
  match r with
  | Some i => i = k ∧ stopped t = false ∧ uniproc t = true ∧ switch (tried w) k = true ∧
              tried w' = tried w ++ [k]
  | None => tasks w' = aged ts (S k) ∧ slots_ok (age <$> ts) f' (S k) ∧ goes_on t w w'
  end.

(** The rest of a turn, after a possible switch to a task of one processor. *)
Lemma count_turn_ok w0 ts k t s tr f :
  ts !! k = Some t → stopped t = false → s = (if uniproc t then 0 else state t) →
  tasks w0 = <[k := set_state t s]> (aged ts k) → tried w0 = tr →
  slots_ok (age <$> ts) f k →
  ∃ f', (t ← tasks w0 !! k;
         let st := u32 (state t + 1) in
         w ← put_state w0 k st;
         f ← classify blocked (tasks w) f k t st;
         Some (w, f, @None nat)) = Some (World (aged ts (S k)) tr, f', None) ∧
    slots_ok (age <$> ts) f' (S k).
Proof.
  intros Ht Hs Es Hw Htr Hf. pose proof (lookup_lt_Some _ _ _ Ht) as Hlt.
  assert (Hk : tasks w0 !! k = Some (set_state t s))
    by (rewrite Hw, list_lookup_insert_eq; [done|by rewrite length_aged]).
  rewrite Hk. cbn [mbind option_bind]. rewrite (put_state_Some _ _ _ _ Hk).
  cbn [mbind option_bind tasks set_state state]. rewrite Hw, list_insert_insert_eq, Htr.
  assert (Ea : age t = set_state t (u32 (s + 1))) by (unfold age; by rewrite Hs, Es).
  change (set_state (set_state t s) (u32 (s + 1))) with (set_state t (u32 (s + 1))).
  rewrite (aged_S ts k t _ Ht Ea).
  assert (Est : u32 (s + 1) = state_of (age <$> ts) k)
    by (rewrite (state_of_aged _ _ t Ht), Ea; done).
  rewrite Est.
  destruct (classify_ok (aged ts (S k)) (age <$> ts) f k (set_state t s)) as (f' & -> & Hf').
  - intros j Hj. rewrite aged_lookup, decide_True, list_lookup_fmap by lia. done.
  - rewrite list_lookup_fmap, Ht. cbn. by rewrite <- Est, Ea.
  - done.
  - done.
  - exists f'. cbn [mbind option_bind]. done.
Qed.

Lemma scan_turn_ok w f k ts t :
  tasks w = aged ts k → ts !! k = Some t → failed (tried w) → slots_ok (age <$> ts) f k →
  ∃ x, scan_turn blocked switch w f k = Some x ∧ turned ts f k t w x.
Proof.
  intros Hw Ht Hf Hsl. unfold scan_turn.
  assert (Hk : tasks w !! k = Some t).
  { rewrite Hw, aged_lookup. by rewrite decide_False by lia. }
  rewrite Hk. cbn [mbind option_bind]. destruct (stopped t) eqn:Hs.
  { rewrite (put_state_Some _ _ _ _ Hk). cbn [mbind option_bind]. eexists. split; [done|].
    split; [|split; [|split; [done|split; [done|auto]]]].
    - cbn [tasks]. rewrite Hw. apply aged_S with (t := t); [done|]. unfold age. by rewrite Hs.
    - apply (slots_ok_stopped _ _ _ (age t)); [by rewrite list_lookup_fmap, Ht| |done].
      destruct (age_fields t) as [-> _]. done. }
  destruct (uniproc t) eqn:Hu.
  - rewrite (put_state_Some _ _ _ _ Hk). cbn [mbind option_bind try_switch tasks tried].
    destruct (switch (tried w) k) eqn:Hsw.
    { eexists. split; [done|]. done. }
    destruct (count_turn_ok (World (<[k := set_state t 0]> (tasks w)) (tried w ++ [k])) ts k t 0
                (tried w ++ [k]) f Ht Hs) as (f' & E & Hf'); [by rewrite Hu|cbn; by rewrite Hw|done|done|].
    cbn [tasks] in E. rewrite E. eexists. split; [done|]. split; [done|]. split; [done|].
    split; [by apply failed_snoc|]. cbn [tried]. split; [by apply prefix_app_r|].
    intros E0. by destruct (tried w).
  - cbn [mbind option_bind].
    destruct (count_turn_ok w ts k t (state t) (tried w) f Ht Hs) as (f' & E & Hf');
      [by rewrite Hu| |done|done|].
    { rewrite Hw. symmetry. apply list_insert_id. rewrite aged_lookup, decide_False by lia.
      rewrite Ht. by destruct t. }
    cbn zeta in E. rewrite E. eexists. split; [done|]. split; [done|]. split; [done|]. split; [done|split; [done|auto]].
Qed.

(** The result of a search: a switch to a task of one processor, or the slots. *)
Definition scanned (ts : list task) (w : world) (x : world * found * option nat) : Prop :=
  let '(w', f', r) := x in
  match r with
  | Some i => ∃ t tr, ts !! i = Some t ∧ stopped t = false ∧ uniproc t = true ∧
                tried w' = tr ++ [i] ∧ failed tr ∧ switch tr i = true ∧ tried w `prefix_of` tr
  | None => tasks w' = age <$> ts ∧ slots_ok (age <$> ts) f' (length ts) ∧ failed (tried w') ∧
            tried w `prefix_of` tried w' ∧
            (tried w' = [] → tried w = [] ∧
               ∀ i t, ts !! i = Some t → stopped t = true ∨ uniproc t = false)
  end.

Lemma scan_from ts n k w f :
  (k + n = length ts)%nat → tasks w = aged ts k → failed (tried w) → slots_ok (age <$> ts) f k →
  ∃ x, scan blocked switch (seq k n) w f = Some x ∧
    let '(w', f', r) := x in
    match r with
    | Some i => ∃ t tr, ts !! i = Some t ∧ stopped t = false ∧ uniproc t = true ∧
                  tried w' = tr ++ [i] ∧ failed tr ∧ switch tr i = true ∧ tried w `prefix_of` tr
    | None => tasks w' = age <$> ts ∧ slots_ok (age <$> ts) f' (length ts) ∧ failed (tried w') ∧
              tried w `prefix_of` tried w' ∧
              (tried w' = [] → tried w = [] ∧ ∀ i t, (k ≤ i)%nat → ts !! i = Some t →
                 stopped t = true ∨ uniproc t = false)
    end.
Proof.
  revert k w f. induction n as [|n IH]; intros k w f Hkn Hw Hf Hsl; cbn [seq scan].
  { eexists. split; [done|]. replace k with (length ts) in * by lia. split; [|split; [done|split; [done|split; [done|]]]].
    - rewrite Hw. unfold aged. by rewrite firstn_all, drop_all, app_nil_r.
    - intros E. split; [done|]. intros i t Hi Ht. apply lookup_lt_Some in Ht. lia. }
  destruct (lookup_lt_is_Some_2 ts k ltac:(lia)) as [t Ht].
  destruct (scan_turn_ok w f k ts t Hw Ht Hf Hsl) as ([[w1 f1] r1] & -> & Hturn).
  cbn [mbind option_bind]. destruct r1 as [i|].
  { destruct Hturn as (-> & Hs & Hu & Hsw & Htr). eexists. split; [done|]. by exists t, (tried w). }
  destruct Hturn as (Hw1 & Hsl1 & Hf1 & Hp1 & Htr1).
  destruct (IH (S k) w1 f1 ltac:(lia) Hw1 Hf1 Hsl1) as ([[w2 f2] r2] & -> & Hx).
  eexists. split; [done|]. destruct r2 as [i|].
  { destruct Hx as (ti & tr & H1 & H2 & H3 & H4 & H5 & H6 & H7). exists ti, tr.
    repeat (split; [done|]). by etransitivity. }
  destruct Hx as (H1 & H2 & H3 & Hp2 & H4). split; [done|]. split; [done|]. split; [done|].
  split; [by etransitivity|].
  intros E. destruct (H4 E) as [E1 Hrest]. destruct (Htr1 E1) as [E0 Hk]. split; [done|].
  intros i ti Hi Hti. destruct (decide (i = k)) as [->|]; [|apply (Hrest i ti); [lia|done]].
  rewrite Ht in Hti. by injection Hti as <-.
Qed.

Lemma slots_ok_0 ts : slots_ok ts (Found None None None None) 0.
Proof. intros p _. by destruct p. Qed.

Lemma scan_ok w :
  failed (tried w) →
  ∃ x, scan blocked switch (seq 0 (length (tasks w))) w (Found None None None None) = Some x ∧
    scanned (tasks w) w x.
Proof.
  intros Hf.
  destruct (scan_from (tasks w) (length (tasks w)) 0 w (Found None None None None)) as (x & Hx & Hp);
    [done|done|done|apply slots_ok_0|].
  exists x. split; [done|]. destruct x as [[w' f'] [i|]]; [done|].
  destruct Hp as (H1 & H2 & H3 & Hp & H4). split; [done|]. split; [done|]. split; [done|]. split; [done|].
  intros E. destruct (H4 E) as [E0 Hall]. split; [done|]. intros i t. apply Hall. lia.
Qed.

(** *** The choice *)

Lemma pick_None ts p :
  longest ts (candidates ts p (length ts)) = None →
  ∀ j t, ts !! j = Some t → stopped t = false → blocked j = false → priority t ≠ p.
Proof.
  intros Hn%longest_None j t Hj Hs Hb Hp.
  assert (Hin : j ∈ candidates ts p (length ts)).
  { unfold candidates. apply list_elem_of_filter. split.
    - unfold candidate. rewrite Hj, Hs, Hb, bool_decide_eq_true_2 by done. done.
    - apply elem_of_seq. apply lookup_lt_Some in Hj. lia. }
  rewrite Hn in Hin. by apply elem_of_nil in Hin.
Qed.

Lemma pick_Some ts p i :
  longest ts (candidates ts p (length ts)) = Some i →
  (∃ t, ts !! i = Some t ∧ stopped t = false ∧ blocked i = false ∧ priority t = p) ∧
  ∀ j t, ts !! j = Some t → stopped t = false → blocked j = false → priority t = p →
    state t ≤ state_of ts i.
Proof.
  intros [Hin Hmax]%longest_spec. split.
  - apply candidates_lt in Hin as [_ Hc]. apply candidate_ex in Hc as (t & H1 & H2 & H3 & H4).
    by exists t.
  - intros j t Hj Hs Hb Hp. assert (Hj' : state_of ts j = state t) by (unfold state_of; by rewrite Hj).
    rewrite <- Hj'. apply Hmax. unfold candidates. apply list_elem_of_filter. split.
    + unfold candidate. rewrite Hj, Hs, Hb, bool_decide_eq_true_2 by done. done.
    + apply elem_of_seq. apply lookup_lt_Some in Hj. lia.
Qed.

(** The most urgent of the tasks that may run. *)
Definition most_urgent (ts : list task) (i : nat) : Prop :=
  ∃ t, ts !! i = Some t ∧ stopped t = false ∧ blocked i = false ∧
    ∀ j tj, ts !! j = Some tj → stopped tj = false → blocked j = false →
      rank (priority t) ≤ rank (priority tj) ∧
      (priority tj = priority t → state tj ≤ state t).

Lemma pick_urgent ts p i :
  longest ts (candidates ts p (length ts)) = Some i →
  (∀ j t, ts !! j = Some t → stopped t = false → blocked j = false → rank p ≤ rank (priority t)) →
  most_urgent ts i.
Proof.
  intros [(t & Ht & Hs & Hb & <-) Hmax]%pick_Some Hp. exists t. split; [done|]. split; [done|].
  split; [done|]. intros j tj Hj Hsj Hbj. split; [by apply (Hp j)|]. intros E.
  replace (state t) with (state_of ts i) by (unfold state_of; by rewrite Ht). by apply (Hmax j).
Qed.

Ltac other_ranks := intros j t Hj Hs Hb; repeat match goal with
  | H : longest _ (candidates _ _ _) = None |- _ => pose proof (pick_None _ _ H j t Hj Hs Hb); clear H
  end; destruct (priority t); cbn; try done; lia.

Lemma reference_Some ts i : reference ts = Some i → most_urgent ts i.
Proof.
  unfold reference. cbv zeta.
  destruct (longest ts (candidates ts sched_priority_kernel _)) as [k|] eqn:Hk.
  { intros [= <-]. apply (pick_urgent _ _ _ Hk). other_ranks. }
  destruct (longest ts (candidates ts sched_priority_high _)) as [h|] eqn:Hh.
  { intros [= <-]. apply (pick_urgent _ _ _ Hh). other_ranks. }
  destruct (longest ts (candidates ts sched_priority_normal _)) as [n|] eqn:Hn.
  { intros [= <-]. apply (pick_urgent _ _ _ Hn). other_ranks. }
  intros Hl. apply (pick_urgent _ _ _ Hl). other_ranks.
Qed.

Lemma reference_None ts : reference ts = None →
  ∀ j t, ts !! j = Some t → stopped t = true ∨ blocked j = true.
Proof.
  unfold reference. cbv zeta.
  destruct (longest ts (candidates ts sched_priority_kernel _)) as [k|] eqn:Hk; [done|].
  destruct (longest ts (candidates ts sched_priority_high _)) as [h|] eqn:Hh; [done|].
  destruct (longest ts (candidates ts sched_priority_normal _)) as [n|] eqn:Hn; [done|].
  intros Hl j t Hj. destruct (stopped t) eqn:Hs; [by left|right].
  destruct (blocked j) eqn:Hb; [done|].
  pose proof (pick_None _ _ Hk j t Hj Hs Hb). pose proof (pick_None _ _ Hh j t Hj Hs Hb).
  pose proof (pick_None _ _ Hn j t Hj Hs Hb). pose proof (pick_None _ _ Hl j t Hj Hs Hb).
  by destruct (priority t).
Qed.

(** *** The cases after a search *)

Definition slots (f : found) : list (sched_priority * option nat) :=
  [(sched_priority_kernel, next_kernel f); (sched_priority_high, next_high f);
   (sched_priority_normal, next_normal f); (sched_priority_low, next_low f)].

(** The current task gives way to [i]. *)
Definition gives_way (current : sched_priority) (runnable : bool) (ts : list task) (i : nat) : Prop :=
  ∀ t, ts !! i = Some t → runnable = true → rank (priority t) ≤ rank current.

Definition decided (current : sched_priority) (runnable : bool) (w w' : world) (r : nat + bool) : Prop :=
  match r with
  | inl i => reference (tasks w) = Some i ∧ gives_way current runnable (tasks w) i ∧
             switch (tried w) i = true ∧ tried w' = tried w ++ [i]
  | inr true => ∃ i t, reference (tasks w) = Some i ∧ switch (tried w) i = false ∧
                  tried w' = tried w ++ [i] ∧ tasks w !! i = Some t ∧
                  tasks w' = <[i := set_state t 0]> (tasks w)
  | inr false => w' = w ∧ ∀ i t, reference (tasks w) = Some i → tasks w !! i = Some t →
                   runnable = true ∧ rank current < rank (priority t)
  end.

(** A case whose slot has a task. *)
Lemma case_hit current runnable p i cs w :
  (∃ t, tasks w !! i = Some t ∧ priority t = p) → reference (tasks w) = Some i →
  (runnable = true → rank p ≤ rank current) →
  ∃ w' r, cases switch current runnable ((p, Some i) :: cs) w = Some (w', r) ∧
    decided current runnable w w' r.
Proof.
  intros (t & Ht & Hp) Href Hgw. cbn [cases]. rewrite (put_state_Some _ _ _ _ Ht).
  cbn [mbind option_bind try_switch tasks tried].
  destruct (switch (tried w) i) eqn:Hsw; eexists _, _; split; try done.
  - split; [done|]. split; [|done]. intros t' Ht' Hr. rewrite Ht in Ht'. injection Ht' as <-.
    rewrite Hp. by apply Hgw.
  - exists i, t. done.
Qed.

(** A case whose slot is empty: the current task keeps the processor if it is
    of this class. *)
Lemma case_miss current runnable p cs w :
  cases switch current runnable ((p, None) :: cs) w
  = if runnable && bool_decide (current = p) then Some (w, inr false)
    else cases switch current runnable cs w.
Proof. done. Qed.

Lemma kept_ok current runnable w :
  runnable = true →
  (∀ j t, tasks w !! j = Some t → stopped t = false → blocked j = false → rank current < rank (priority t)) →
  decided current runnable w w (inr false).
Proof.
  intros Hr Hall. split; [done|]. intros i t Href Ht. split; [done|].
  apply reference_Some in Href as (t' & Ht' & Hs & Hb & _). rewrite Ht in Ht'. injection Ht' as <-.
  by apply (Hall i).
Qed.

Lemma slot_first ts f p :
  slots_ok ts f (length ts) → (∀ q, rank q < rank p → slot f q = None) →
  slot f p = longest ts (candidates ts p (length ts)).
Proof. intros Hf. apply Hf. Qed.

Lemma not_current (runnable : bool) (current p : sched_priority) :
  runnable && bool_decide (current = p) = false → runnable = true → current ≠ p.
Proof. intros Hn -> ->. by rewrite bool_decide_eq_true_2 in Hn. Qed.

Lemma is_current (runnable : bool) (current p : sched_priority) :
  runnable && bool_decide (current = p) = true → runnable = true ∧ current = p.
Proof. intros [-> Hc%bool_decide_eq_true]%andb_true_iff. done. Qed.

Lemma pick_priority ts p i :
  longest ts (candidates ts p (length ts)) = Some i → ∃ t, ts !! i = Some t ∧ priority t = p.
Proof. intros [(t & H1 & _ & _ & H2) _]%pick_Some. by exists t. Qed.

Ltac rank_of_current := intros Hr;
  repeat match goal with
  | H : ?r && bool_decide (_ = _) = false |- _ => pose proof (not_current _ _ _ H Hr); clear H
  end; match goal with |- rank _ ≤ rank ?c => destruct c; cbn; try done; lia end.

Ltac keeps_running H := apply is_current in H as [? ->]; eexists _, _; split; [done|];
  apply kept_ok; [done|]; other_ranks.

Lemma cases_ok current runnable w f :
  slots_ok (tasks w) f (length (tasks w)) →
  ∃ w' r, cases switch current runnable (slots f) w = Some (w', r) ∧
    decided current runnable w w' r.
Proof.
  intros Hf. unfold slots. pose proof (λ p, slot_first (tasks w) f p Hf) as Hslot. clear Hf.
  pose proof (Hslot sched_priority_kernel ltac:(intros []; cbn; lia)) as Ek. cbn [slot] in Ek.
  assert (Href : ∀ i, reference (tasks w) = i → reference (tasks w) = i) by done.
  unfold reference in Href at 1. cbv zeta in Href.
  destruct (longest (tasks w) (candidates _ sched_priority_kernel _)) as [k|] eqn:Hk; rewrite Ek.
  { apply case_hit; [by apply pick_priority|by apply Href|rank_of_current]. }
  rewrite case_miss. destruct (_ && _) eqn:Ck; [keeps_running Ck|].
  pose proof (Hslot sched_priority_high ltac:(intros []; cbn; try lia; done)) as Eh. cbn [slot] in Eh.
  destruct (longest (tasks w) (candidates _ sched_priority_high _)) as [h|] eqn:Hh; rewrite Eh.
  { apply case_hit; [by apply pick_priority|by apply Href|rank_of_current]. }
  rewrite case_miss. destruct (_ && bool_decide (current = sched_priority_high)) eqn:Ch;
    [keeps_running Ch|].
  pose proof (Hslot sched_priority_normal ltac:(intros []; cbn; try lia; done)) as En. cbn [slot] in En.
  destruct (longest (tasks w) (candidates _ sched_priority_normal _)) as [n|] eqn:Hn; rewrite En.
  { apply case_hit; [by apply pick_priority|by apply Href|rank_of_current]. }
  rewrite case_miss. destruct (_ && bool_decide (current = sched_priority_normal)) eqn:Cn;
    [keeps_running Cn|].
  pose proof (Hslot sched_priority_low ltac:(intros []; cbn; try lia; done)) as El. cbn [slot] in El.
  destruct (longest (tasks w) (candidates _ sched_priority_low _)) as [l|] eqn:Hl; rewrite El.
  { apply case_hit; [by apply pick_priority|by apply Href|rank_of_current]. }
  rewrite case_miss. specialize (Href None eq_refl).
  assert (Hd : decided current runnable w w (inr false)).
  { split; [done|]. intros i t Hi. by rewrite Href in Hi. }
  cbn [cases]. destruct (runnable && bool_decide (current = sched_priority_low)); eexists _, _; (split; [done|exact Hd]).
Qed.

(** *** The loop *)

Definition static (t : task) : sched_priority * bool * bool := (priority t, stopped t, uniproc t).

(** The same tasks, but for their counters. *)
Definition same_tasks (ts ts' : list task) : Prop := static <$> ts' = static <$> ts.

Lemma same_tasks_lookup ts ts' i t' :
  same_tasks ts ts' → ts' !! i = Some t' → ∃ t, ts !! i = Some t ∧ static t' = static t.
Proof.
  intros Hs Ht. assert (E : (static <$> ts) !! i = Some (static t'))
    by (rewrite <- Hs, list_lookup_fmap, Ht; done).
  apply list_lookup_fmap_Some in E as (t & E1 & E2). by exists t.
Qed.

Lemma same_tasks_sym ts ts' : same_tasks ts ts' → same_tasks ts' ts.
Proof. done. Qed.

#[export] Instance same_tasks_equiv : Equivalence same_tasks.
Proof.
  split; [by intros ts|by intros ts ts'|]. unfold same_tasks. intros ts1 ts2 ts3 H1 H2. congruence.
Qed.

Lemma same_tasks_age ts : same_tasks ts (age <$> ts).
Proof.
  unfold same_tasks. rewrite <- list_fmap_compose. apply list_fmap_ext. intros i t _.
  destruct (age_fields t) as (E1 & E2 & E3). unfold compose, static. by rewrite E1, E2, E3.
Qed.

Lemma same_tasks_put ts i t s : ts !! i = Some t → same_tasks ts (<[i := set_state t s]> ts).
Proof.
  intros Ht. unfold same_tasks. rewrite list_fmap_insert. apply list_insert_id.
  by rewrite list_lookup_fmap, Ht.
Qed.

(** Nothing can run in place of the current task. *)
Definition nothing_to_run (current : sched_priority) (runnable : bool) (ts : list task) : Prop :=
  ∀ i t, ts !! i = Some t → stopped t = false →
    uniproc t = false ∧
    (blocked i = false → runnable = true ∧ rank current < rank (priority t)).

(** The switch to [i], after the failed ones of [tr]. *)
Definition chosen (current : sched_priority) (runnable : bool) (ts0 : list task) (tr : list nat) (i : nat)
  : Prop :=
  failed tr ∧ switch tr i = true ∧
  ((∃ t, ts0 !! i = Some t ∧ stopped t = false ∧ uniproc t = true) ∨
   (∃ ts, same_tasks ts0 ts ∧ (tr = [] → ts = ts0) ∧ reference (age <$> ts) = Some i ∧
      gives_way current runnable ts0 i)).

Definition searched (current : sched_priority) (runnable : bool) (w0 : world) (x : world * option nat) : Prop :=
  let '(w', r) := x in
  match r with
  | Some i => ∃ tr, tried w' = tr ++ [i] ∧ tried w0 `prefix_of` tr ∧
                chosen current runnable (tasks w0) tr i
  | None => failed (tried w') ∧ tried w0 `prefix_of` tried w' ∧
            (tried w' = [] → nothing_to_run current runnable (tasks w0))
  end.

Definition searching (w0 : world) (x : world * Z) : Prop :=
  let '(w, st) := x in
  failed (tried w) ∧ tried w0 `prefix_of` tried w ∧ same_tasks (tasks w0) (tasks w) ∧
  ((st = 1 ∧ w = w0) ∨ ((st = 3 ∨ st = 5 ∨ st = 7 ∨ st = 9) ∧ tried w ≠ [])).

Lemma app_snoc_nonempty {A} (l : list A) x : l ++ [x] ≠ [].
Proof. by destruct l. Qed.

Lemma gives_way_same current runnable ts ts' i :
  same_tasks ts ts' → gives_way current runnable ts' i → gives_way current runnable ts i.
Proof.
  intros Hs Hg t Ht Hr. destruct (same_tasks_lookup _ _ i t (symmetry Hs) Ht) as (t' & Ht' & E).
  injection E as Ep _ _. rewrite Ep. by apply (Hg t').
Qed.

(** A whole search and its case. *)
Lemma search_turn_ok current runnable w0 w st :
  searching w0 (w, st) →
  ∃ c, search_turn blocked switch current runnable (w, st) = Some c ∧
    match c with
    | Next (w', st') => searching w0 (w', st') ∧ st' = st + 2 ∧ st < 9
    | Done x => searched current runnable w0 x
    end.
Proof.
  intros (Hf & Hpre & Hsame & Hst). unfold search_turn.
  destruct (Z.eqb_spec st 9) as [->|Hn9].
  { eexists. split; [done|]. split; [done|]. split; [done|]. intros E. destruct Hst as [[H1 _]|[_ H1]]; done. }
  assert (Hcond : negb (Z.land st 1 =? 0) && (st <? 8) = true)
    by (destruct Hst as [[-> _]|[[->|[->|[->| ->]]] _]]; done).
  rewrite Hcond. destruct (scan_ok w Hf) as ([[w1 f1] r1] & -> & Hsc). cbn [mbind option_bind].
  destruct r1 as [i|].
  { destruct Hsc as (t & tr & Ht & Hs & Hu & Htr & Hftr & Hsw & Hp). eexists. split; [done|].
    exists tr. split; [done|]. split; [by etransitivity|]. split; [done|]. split; [done|]. left.
    destruct (same_tasks_lookup _ _ _ _ Hsame Ht) as (t0 & Ht0 & [= _ E2 E3]).
    exists t0. split; [done|]. by rewrite <- E2, <- E3. }
  destruct Hsc as (Hw1 & Hsl & Hf1 & Hp1 & Htr1).
  assert (Hpre1 : tried w0 `prefix_of` tried w1) by (by etransitivity).
  destruct (cases_ok current runnable w1 f1) as (w2 & r2 & Hc & Hd);
    [by rewrite Hw1, length_fmap|].
  fold (slots f1). rewrite Hc. cbn [mbind option_bind].
  assert (Hs1 : same_tasks (tasks w0) (tasks w1))
    by (rewrite Hw1; etransitivity; [exact Hsame|apply same_tasks_age]).
  destruct r2 as [i|[]]; cbn [decided] in Hd; eexists; (split; [done|]).
  - destruct Hd as (Href & Hg & Hsw & Htr). exists (tried w1). split; [done|]. split; [done|]. split; [done|].
    split; [done|]. right. exists (tasks w). split; [done|]. rewrite <- Hw1. split; [|split; [done|]].
    + intros E. destruct (Htr1 E) as [E0 _]. destruct Hst as [[_ ->]|[_ Hne]]; done.
    + by apply (gives_way_same _ _ _ (tasks w1)).
  - destruct Hd as (i & t & Href & Hsw & Htr & Ht & Hput). split; [|split; [lia|lia]].
    split; [rewrite Htr; by apply failed_snoc|].
    split; [rewrite Htr; by apply prefix_app_r|]. split.
    + etransitivity; [exact Hs1|]. rewrite Hput. by apply same_tasks_put.
    + right. split; [lia|]. rewrite Htr. apply app_snoc_nonempty.
  - destruct Hd as (-> & Hnone). split; [done|]. split; [done|]. intros E. destruct (Htr1 E) as [E0 Huni].
    intros i t Ht Hs. destruct (same_tasks_lookup _ _ _ _ (symmetry Hs1) Ht) as (t1 & Ht1 & [= Ep Es Eu]).
    assert (Hu : uniproc t = false).
    { destruct (same_tasks_lookup _ _ _ _ (symmetry Hsame) Ht) as (t2 & Ht2 & [= _ Es2 Eu2]).
      destruct (Huni i t2 Ht2) as [H1|H1]; congruence. }
    split; [done|]. intros Hb.
    destruct (reference (tasks w1)) as [k|] eqn:Href.
    + pose proof (reference_Some _ _ Href) as (tk & Htk & _ & _ & Hmax).
      destruct (Hnone k tk eq_refl Htk) as [Hr Hrk]. split; [done|].
      destruct (Hmax i t1 Ht1 ltac:(congruence) Hb) as [Hle _]. rewrite Ep. lia.
    + destruct (reference_None _ Href i t1 Ht1); congruence.
Qed.

Lemma search_loop_ok current runnable w0 :
  failed (tried w0) →
  ∃ x, while 5 (search_turn blocked switch current runnable) (w0, 1) = Some x ∧
    searched current runnable w0 x.
Proof.
  intros Hf.
  apply (while_total (searching w0) (λ x : world * Z, Z.to_nat ((9 - snd x) / 2))).
  - intros [w st] HI. destruct (search_turn_ok current runnable w0 w st HI) as (c & -> & Hc).
    exists c. split; [done|]. destruct c as [[w' st']|x]; [|done].
    destruct Hc as (H1 & -> & Hlt). split; [done|]. cbn [snd].
    destruct HI as (_ & _ & _ & [[-> _]|[[->|[->|[->| ->]]] _]]); vm_compute; lia.
  - split; [done|]. split; [done|]. split; [done|by left].
  - vm_compute. lia.
Qed.

(** *** The task that waits longest *)

Lemma starved_ok ts n k best :
  (k + n = length ts)%nat →
  best = longest ts (filter (λ i, blocked i = false) (seq 0 k)) →
  starved blocked ts (seq k n) best
  = Some (longest ts (filter (λ i, blocked i = false) (seq 0 (length ts)))).
Proof.
  revert k best. induction n as [|n IH]; intros k best Hkn Hb; cbn [seq starved].
  { replace (length ts) with k by lia. by rewrite Hb. }
  destruct (lookup_lt_is_Some_2 ts k ltac:(lia)) as [t Ht]. rewrite Ht. cbn [mbind option_bind].
  assert (E : (if blocked k then Some best else longer ts best k (state t))
    = Some (longest ts (filter (λ i, blocked i = false) (seq 0 (S k))))).
  { rewrite seq_S, list.filter_app, filter_cons, <- Hb || rewrite seq_S, list.filter_app, filter_cons.
    cbn [Nat.add]. destruct (blocked k) eqn:Hbk.
    - rewrite decide_False by done. by rewrite filter_nil, app_nil_r, <- Hb.
    - rewrite decide_True, filter_nil, longest_snoc, <- Hb by done. unfold longer.
      assert (Et : state_of ts k = state t) by (unfold state_of; by rewrite Ht). rewrite Et.
      destruct best as [b|].
      + symmetry in Hb. apply longest_spec in Hb as [Hin _].
        apply list_elem_of_filter in Hin as [_ Hin%elem_of_seq].
        change (default k (Some b)) with b.
        destruct (lookup_lt_is_Some_2 ts b) as [tb Htb]; [lia|]. rewrite Htb.
        cbn [mbind option_bind]. unfold state_of. rewrite Htb. cbn. by destruct (_ <? _).
      + change (default k None) with k. rewrite Ht. cbn [mbind option_bind].
        by destruct (_ <? _). }
  rewrite E. cbn [mbind option_bind]. apply IH; [lia|done].
Qed.

(** *** The search is the reference *)

(** The slot the cases look at first. *)
Definition first_slot (f : found) : option nat :=
  match next_kernel f with
  | Some i => Some i
  | None =>
      match next_high f with
      | Some i => Some i
      | None => match next_normal f with Some i => Some i | None => next_low f end
      end
  end.

Lemma first_slot_ok ts f : slots_ok ts f (length ts) → first_slot f = reference ts.
Proof.
  intros Hf. unfold first_slot, reference. cbv zeta.
  pose proof (λ p, slot_first ts f p Hf) as Hslot. clear Hf.
  rewrite <- (Hslot sched_priority_kernel) by (intros []; cbn; lia). cbn [slot].
  destruct (next_kernel f) eqn:Hk; [done|].
  rewrite <- (Hslot sched_priority_high) by (intros []; cbn; try lia; done). cbn [slot].
  destruct (next_high f) eqn:Hh; [done|].
  rewrite <- (Hslot sched_priority_normal) by (intros []; cbn; try lia; done). cbn [slot].
  destruct (next_normal f) eqn:Hn; [done|].
  by rewrite <- (Hslot sched_priority_low) by (intros []; cbn; try lia; done).
Qed.

(** (C25) The search of the scheduler, one pass over the ring with four
    candidates and early ends of turns, finds exactly the task of the
    reference: of the most urgent class with a task that may run, the first of
    those with the greatest counter.  It counts once for every task that is not
    stopped.  The only other way out is a successful switch to a task that is
    bound to the first processor. *)
Theorem search_reference ts :
  ∃ w f r,
    scan blocked switch (seq 0 (length ts)) (World ts []) (Found None None None None)
      = Some (w, f, r) ∧
    match r with
    | None => tasks w = age <$> ts ∧ first_slot f = reference (age <$> ts)
    | Some i => ∃ t tr, ts !! i = Some t ∧ stopped t = false ∧ uniproc t = true ∧
                  tried w = tr ++ [i] ∧ failed tr ∧ switch tr i = true
    end.
Proof.
  destruct (scan_ok (World ts []) failed_nil) as ([[w f] r] & Hs & Hsc).
  exists w, f, r. split; [exact Hs|]. destruct r as [i|].
  - destruct Hsc as (t & tr & H1 & H2 & H3 & H4 & H5 & H6 & _). by exists t, tr.
  - destruct Hsc as (H1 & H2 & _). split; [done|]. apply first_slot_ok. by rewrite length_fmap.
Qed.

(** No task that may run waits longer. *)
Definition waits_longest (ts : list task) (i : nat) : Prop :=
  blocked i = false ∧ (i < length ts)%nat ∧
  ∀ j, (j < length ts)%nat → blocked j = false → state_of ts j ≤ state_of ts i.

Lemma starved_spec ts :
  ∃ s, starved blocked ts (seq 0 (length ts)) None = Some s ∧
    match s with
    | Some i => waits_longest ts i
    | None => ∀ j, (j < length ts)%nat → blocked j = true
    end.
Proof.
  rewrite (starved_ok ts (length ts) 0 None) by done. eexists. split; [done|].
  destruct (longest ts _) as [i|] eqn:Hi.
  - apply longest_spec in Hi as [Hin Hmax].
    apply list_elem_of_filter in Hin as [Hb Hin%elem_of_seq].
    split; [done|]. split; [lia|]. intros j Hj Hbj. apply Hmax.
    apply list_elem_of_filter. split; [done|]. apply elem_of_seq. lia.
  - apply longest_None in Hi. intros j Hj. destruct (blocked j) eqn:Hb; [done|].
    assert (Hin : j ∈ filter (λ i, blocked i = false) (seq 0 (length ts)))
      by (apply list_elem_of_filter; split; [done|apply elem_of_seq; lia]).
    rewrite Hi in Hin. by apply elem_of_nil in Hin.
Qed.

(** Every 32nd call begins with the task that waits longest. *)
Definition fair (ts : list task) (count : Z) (tr : list nat) : Prop :=
  Z.land count 0x1F = 0 → ∀ j, (j < length ts)%nat → blocked j = false →
    ∃ i l, tr = i :: l ∧ waits_longest ts i.

(** The reasons for a switch to [i] after the failed ones of [tr]. *)
Definition justified (current : sched_priority) (runnable : bool) (ts : list task) (count : Z)
    (tr : list nat) (i : nat) : Prop :=
  (Z.land count 0x1F = 0 ∧ tr = [] ∧ waits_longest ts i) ∨
  (∃ t, ts !! i = Some t ∧ stopped t = false ∧ uniproc t = true) ∨
  (∃ ts', same_tasks ts ts' ∧ (tr = [] → ts' = ts) ∧ most_urgent (age <$> ts') i ∧
     gives_way current runnable ts i).

(** The outcome of a call that has taken the lock. *)
Definition yielded (current : sched_priority) (runnable : bool) (ts : list task) (count : Z)
    (o : outcome) (w : world) : Prop :=
  fair ts count (tried w) ∧
  match o with
  | Busy => False
  | Switched i => ∃ tr, tried w = tr ++ [i] ∧ failed tr ∧ switch tr i = true ∧
                    justified current runnable ts count tr i
  | Stayed => runnable = true ∧ failed (tried w) ∧
              (tried w = [] → nothing_to_run current runnable ts)
  | Idled => runnable = false ∧ failed (tried w) ∧
             (tried w = [] → nothing_to_run current runnable ts)
  end.

(** A search that begins after the attempts [tried w] on the same tasks. *)
Lemma finish_ok current (runnable : bool) ts count w :
  failed (tried w) → same_tasks ts (tasks w) → (tried w = [] → tasks w = ts) →
  fair ts count (tried w) ∨ tried w = [] ∧ Z.land count 0x1F ≠ 0 →
  ∃ o w', ('(w, r) ← while 5 (search_turn blocked switch current runnable) (w, 1);
           Some (match r with Some i => Switched i | None => if runnable then Stayed else Idled end,
                 count, w)) = Some (o, count, w') ∧ yielded current runnable ts count o w'.
Proof.
  intros Hf Hsame Hempty Hfair.
  destruct (search_loop_ok current runnable w Hf) as ([w' r] & -> & Hs). cbn [mbind option_bind].
  eexists _, w'. split; [done|].
  assert (Hpre : tried w `prefix_of` tried w' → fair ts count (tried w')).
  { intros [l El] Hc j Hj Hb. destruct Hfair as [Hfair|[_ Hn]]; [|done].
    destruct (Hfair Hc j Hj Hb) as (i & l0 & E & Hwl). exists i, (l0 ++ l). by rewrite El, E. }
  destruct r as [i|].
  - destruct Hs as (tr & Htr & Hp & Hftr & Hsw & Hj). split.
    { apply Hpre. rewrite Htr. by apply prefix_app_r. }
    exists tr. split; [done|]. split; [done|]. split; [done|]. right.
    assert (Htr0 : tr = [] → tasks w = ts).
    { intros ->. apply Hempty. by apply prefix_nil_inv in Hp. }
    destruct Hj as [(t & Ht & H1 & H2)|(ts' & Hs' & Ht' & Href & Hg)]; [left|right].
    + destruct (same_tasks_lookup _ _ _ _ Hsame Ht) as (t0 & Ht0 & [= _ E2 E3]).
      exists t0. split; [done|]. by rewrite <- E2, <- E3.
    + exists ts'. split; [by etransitivity|]. split; [intros E; rewrite Ht', Htr0; done|].
      split; [by apply reference_Some|]. by apply (gives_way_same _ _ _ (tasks w)).
  - destruct Hs as (Hf' & Hp & Hn). split; [by apply Hpre|].
    assert (Hn' : tried w' = [] → nothing_to_run current runnable ts).
    { intros E. assert (E0 : tried w = []) by (rewrite E in Hp; by apply prefix_nil_inv in Hp).
      rewrite <- (Hempty E0). by apply Hn. }
    by destruct runnable.
Qed.

(** (C24) One call of [yield].  It ends.  A switch to a task is justified: it is
    the task that waits longest, in every 32nd call; or it is bound to the first
    processor; or it is the most urgent of the tasks that may run, the one with
    the greatest counter in its class, and no less urgent than the current task
    if that can go on.  Every switch tried before it failed.  In every 32nd call
    the task that waits longest is tried first, whatever its class.  If no
    switch was tried, there is no task that could run in place of the current
    one; the processor idles only if the current task cannot run either. *)
Theorem yield_correct current runnable locked count ts :
  ∃ o count' w', yield blocked switch current runnable locked count (World ts []) = Some (o, count', w') ∧
    if locked then o = Busy ∧ count' = count ∧ w' = World ts []
    else count' = u32 (count + 1) ∧ yielded current runnable ts count' o w'.
Proof.
  unfold yield. destruct locked; [by eexists _, _, _|]. set (c := u32 (count + 1)). clearbody c.
  pose proof (finish_ok current runnable ts c) as Hlast.
  destruct (Z.eqb_spec (Z.land c 0x1F) 0) as [Hc|Hc].
  2: { destruct (Hlast (World ts [])) as (o & w' & E & H1); [apply failed_nil|done|done|by right|].
       exists o, c, w'. by split; [exact E|]. }
  cbn [tasks]. destruct (starved_spec ts) as (s & -> & Hs). cbn [mbind option_bind].
  destruct s as [i|].
  - pose proof Hs as (_ & Hlt & _). destruct (lookup_lt_is_Some_2 ts i Hlt) as [t Ht].
    assert (Hfirst : fair ts c [i]) by (intros _ j Hj Hb; by exists i, []).
    rewrite (put_state_Some (World ts []) i t 0 Ht). cbn [mbind option_bind try_switch tasks tried app].
    destruct (switch [] i) eqn:Hsw; cbn [mbind option_bind].
    + eexists _, _, _. split; [done|]. split; [done|]. split; [done|].
      exists []. split; [done|]. split; [apply failed_nil|]. split; [done|]. by left.
    + destruct (Hlast (World (<[i := set_state t 0]> ts) [i])) as (o & w' & E & H1); cbn [tried tasks].
      * by apply (failed_snoc [] i failed_nil).
      * by apply same_tasks_put.
      * done.
      * by left.
      * exists o, c, w'. by split; [exact E|].
  - destruct (Hlast (World ts [])) as (o & w' & E & H1); [apply failed_nil|done|done| |].
    { left. intros _ j Hj Hb. by rewrite Hs in Hb. }
    exists o, c, w'. by split; [exact E|].
Qed.
End Spec.

(** Two tasks of one class take turns; a less urgent one waits. *)
Example round_robin :
  let ts := [Task sched_priority_normal false false 3; Task sched_priority_low false false 9;
             Task sched_priority_normal false false 7] in
  yield (λ _, false) (λ _ _, true) sched_priority_normal true false 0 (World ts [])
  = Some (Switched 2, 1, World [Task sched_priority_normal false false 4;
                               Task sched_priority_low false false 10;
                               Task sched_priority_normal false false 0] [2%nat]).
Proof. vm_compute. reflexivity. Qed.
