(* ===== verification/HddPart.v ===== *)
(** The partitions of hard disks: kernel/misc/hdd_part.c.

    The table of partitions is read from the first sector and from the chain of
    extended boot records, the partitions are checked against each other and
    mounted as block devices of their own.  The other components are an
    interface, the record [calls]: opening, releasing and mounting nodes, and
    the operations of the device, which may answer anything.  Theorems: the
    mounted partitions lie in the device and are pairwise disjoint, so that
    access through one of them never touches another; the chain ends when no
    record of it is empty, and need not end otherwise. *)

From S2P Require Import Prelude Errors FatBpb.

(** ** Data *)

Record hdd_partition {Node : Type} := HddPartition {
  hp_offset : Z;
  hp_size : Z;
  hp_block_size : Z;
  hp_dev_node : option Node;
  hp_legacy_type : Z }.
Arguments hdd_partition : clear implicits.

Definition no_partition {Node} : hdd_partition Node := HddPartition Node 0 0 0 None 0.

(** The two addresses of an entry as (cylinder, head, sector). *)
Record hdd_legacy_entry := LegacyEntry {
  he_status : Z;
  he_type : Z;
  he_chs : (Z * Z * Z) * (Z * Z * Z);
  he_lba : Z;
  he_sectors : Z }.

Definition no_entry : hdd_legacy_entry := LegacyEntry 0 0 ((0, 0, 0), (0, 0, 0)) 0 0.

Definition HDD_PARTITION_COUNT : Z := 32.

(** What the code calls: [S] is the rest of the system.  A read answers the
    number of bytes it reports and the bytes that it puts into the buffer;
    mounting a node of a partition (whose counter is 1) answers the counter. *)
Record calls (S Node : Type) := Calls {
  vfs_open : S → list Z → bool → S * de_error * Node;
  node_release : S → Node → S;
  vfs_increment_count : S → Node → S;
  vfs_mount : S → list Z → hdd_partition Node → S * de_error * Z;
  dev_stat : S → Node → S * de_error * (Z * Z);
  dev_read : S → Node → Z → Z → S * de_error * (Z * list Z);
  dev_write : S → Node → Z → list Z → S * de_error * Z;
  malloc : S → S * bool }.
Arguments vfs_open {S Node} _ _ _ _.
Arguments node_release {S Node} _ _ _.
Arguments vfs_increment_count {S Node} _ _ _.
Arguments vfs_mount {S Node} _ _ _ _.
Arguments dev_stat {S Node} _ _ _.
Arguments dev_read {S Node} _ _ _ _ _.
Arguments dev_write {S Node} _ _ _ _ _.
Arguments malloc {S Node} _ _.

(** ** The node of a partition *)

(** The arguments of a read or write: [inl size] when nothing is left, else
    the offset on the device and the size. *)
Definition hdd_args {Node} (hp : hdd_partition Node) (offset size : Z) : Z + Z * Z :=
  if offset >=? hp_size hp then inl 0
  else
    let size := if size >? u64 (hp_size hp - offset) then u64 (hp_size hp - offset) else size in
    inr (u64 (hp_offset hp + offset), size).

(** ** The table *)

(** The comparison of the two addresses: [true] for DE_UNSUPPORTED. *)
Fixpoint chs_backwards (l : list (Z * Z)) : bool :=
  match l with
  | [] => false
  | (a, b) :: l => if a <? b then false else if a >? b then true else chs_backwards l
  end.

Definition read_chs (buffer : list Z) (p : Z) (j : Z) : option (Z * Z * Z) :=
  let a := j * 4 + 1 in
  b0 ← buffer.[p + a];
  b1 ← buffer.[p + (a + 1)];
  b2 ← buffer.[p + (a + 2)];
  Some (Z.lor b2 (Z.shiftl (Z.land b1 0xC0) 2), b0, Z.land b1 0x3F).

(** One entry of the table: [None] inside is DE_UNSUPPORTED; the answer has the
    entry and the number of extended partitions. *)
Definition read_entry (buffer : list Z) (ebr_mode : bool) (i extended_found : Z)
    : option (option (hdd_legacy_entry * Z)) :=
  let p := 446 + i * 16 in
  status ← buffer.[p];
  if (status >=? 0x01) && (status <=? 0x7F) then Some None
  else
    type ← buffer.[p + 4];
    lba ← LE32 buffer (p + 8);
    sectors ← LE32 buffer (p + 12);
    if type =? 0x00 then
      if negb (lba =? 0) || negb (sectors =? 0) then Some None
      else Some (Some (LegacyEntry status type ((0, 0, 0), (0, 0, 0)) lba sectors, extended_found))
    else if (i >=? 2) && ebr_mode then Some None
    else
      let extended := (type =? 0x05) || (type =? 0x0F) in
      if extended && negb (extended_found =? 0) then Some None
      else
        let extended_found := if extended then extended_found + 1 else extended_found in
        if (lba =? 0) || (sectors =? 0) then Some None
        else
          '(c0, h0, s0) ← read_chs buffer p 0;
          if s0 =? 0 then Some None
          else
            '(c1, h1, s1) ← read_chs buffer p 1;
            if s1 =? 0 then Some None
            else if chs_backwards [(c0, c1); (h0, h1); (s0, s1)] then Some None
            else
              Some (Some (LegacyEntry status type ((c0, h0, s0), (c1, h1, s1)) lba sectors,
                          extended_found)).

Fixpoint read_entries (n : nat) (buffer : list Z) (ebr_mode : bool) (i extended_found : Z)
    : option (option (list hdd_legacy_entry)) :=
  match n with
  | O => Some (Some [])
  | S n' =>
      o ← read_entry buffer ebr_mode i extended_found;
      match o with
      | None => Some None
      | Some (e, extended_found) =>
          l ← read_entries n' buffer ebr_mode (i + 1) extended_found;
          Some (e' ← l; Some (e :: e'))
      end
  end.

Definition read_legacy_table (buffer : list Z) (ebr_mode : bool)
    : option (option (list hdd_legacy_entry)) :=
  x ← buffer.[510];
  if negb (x =? 0x55) then Some None
  else
    y ← buffer.[511];
    if negb (y =? 0xAA) then Some None
    else read_entries 4 buffer ebr_mode 0 0.

Definition is_extended (type : Z) : bool := (type =? 0x05) || (type =? 0x0F).

Section HddPart.
Context {S Node : Type} (c : calls S Node).
Abbreviation partition := (hdd_partition Node).

Definition n_read (s : S) (hp : partition) (offset size : Z) : option (S * de_error * (Z * list Z)) :=
  match hdd_args hp offset size with
  | inl size => Some (s, DE_SUCCESS, (size, []))
  | inr (offset, size) => node ← hp_dev_node hp; Some (dev_read c s node offset size)
  end.

(** The bytes of the caller beyond the size that [hdd_args] allows are not
    passed on. *)
Definition n_write (s : S) (hp : partition) (offset : Z) (bytes : list Z)
    : option (S * de_error * Z) :=
  match hdd_args hp offset (Z.of_nat (length bytes)) with
  | inl size => Some (s, DE_SUCCESS, size)
  | inr (offset, size) =>
      node ← hp_dev_node hp; Some (dev_write c s node offset (take (Z.to_nat size) bytes))
  end.

(** Release of the node of a partition with [count] owners: the counter, and 0
    says that the node is gone, and its hold on the device with it. *)
Definition n_release (s : S) (hp : partition) (count : Z) : option (S * Z) :=
  let count := count - 1 in
  if count =? 0 then node ← hp_dev_node hp; Some (node_release c s node, count)
  else Some (s, count).

Definition n_stat (s : S) (hp : partition) : option (S * de_error * (Z * Z)) :=
  node ← hp_dev_node hp;
  let '(s, r, (size, block_size)) := dev_stat c s node in
  Some (s, r, if decide (r = DE_SUCCESS) then (hp_size hp, block_size) else (size, block_size)).

(** ** Reading sectors *)

(** The bytes of a read in the buffer of 4096 bytes. *)
Definition fill (buffer data : list Z) : option (list Z) :=
  if (length data <=? length buffer)%nat then Some (data ++ drop (length data) buffer) else None.

Definition read_sector (s : S) (dev : partition) (buffer : list Z) (lba : Z)
    : option (S * de_error * list Z) :=
  node ← hp_dev_node dev;
  let offset := u64 (lba * hp_block_size dev) in
  let '(s, r, (size, data)) := dev_read c s node offset (hp_block_size dev) in
  buffer ← fill buffer data;
  if decide (r = DE_SUCCESS) then Some (s, r, buffer)
  else if negb (size =? hp_block_size dev) then Some (s, DE_BLOCK_READ, buffer)
  else Some (s, DE_SUCCESS, buffer).

(** ** Primary and extended partitions *)

Definition set_partition (partitions : list partition) (i offset size type : Z)
    : option (list partition) :=
  p ← partitions.[i];
  partitions.[i <- HddPartition Node offset size (hp_block_size p) (hp_dev_node p) type].

(** The loop over the primary entries from [i]: the partitions and the first
    block of the extended partition (0 for none); [None] inside is
    DE_UNSUPPORTED. *)
Fixpoint primary (table : list hdd_legacy_entry) (i : Z) (dev_size : Z)
    (partitions : list partition) (ebr : option Z) : option (option (list partition * option Z)) :=
  match table with
  | [] => Some (Some (partitions, ebr))
  | e :: table =>
      if he_type e =? 0 then primary table (i + 1) dev_size partitions ebr
      else
        let offset := u64 (he_lba e * 512) in
        let size := u64 (he_sectors e * 512) in
        if u64 (offset + size) >? dev_size then Some None
        else if is_extended (he_type e) then
          primary table (i + 1) dev_size partitions (Some (he_lba e))
        else
          partitions ← set_partition partitions (i + 1) offset size (he_type e);
          primary table (i + 1) dev_size partitions ebr
  end.

(** The state of the loop over the extended boot records. *)
Record ebr_state := EbrState {
  es_s : S;
  es_buffer : list Z;
  es_partitions : list partition;
  es_lba : Z;
  es_count : Z }.

Definition finish (s : S) (buffer : list Z) (partitions : list partition) (r : de_error)
    : option (ctl ebr_state (S * list Z * list partition * de_error)) :=
  Some (Done (s, buffer, partitions, r)).

Definition ebr_turn (ebr_base_lba : Z) (dev : partition) (t : ebr_state)
    : option (ctl ebr_state (S * list Z * list partition * de_error)) :=
  let 'EbrState s buffer partitions lba ebr_count := t in
  '(s, r, buffer) ← read_sector s dev buffer lba;
  if decide (r ≠ DE_SUCCESS) then finish s buffer partitions r
  else
    table ← read_legacy_table buffer true;
    match table with
    | None => finish s buffer partitions DE_UNSUPPORTED
    | Some table =>
        e ← table.[0];
        ebr ← table.[1];
        let link partitions ebr_count :=
          if negb (is_extended (he_type ebr)) then finish s buffer partitions DE_SUCCESS
          else if u64 (ebr_base_lba + he_lba ebr) >? 0xFFFFFFFF then
            finish s buffer partitions DE_UNSUPPORTED
          else
            Some (Next (EbrState s buffer partitions (u32 (he_lba ebr + u32 ebr_base_lba)) ebr_count))
        in
        if negb (he_type e =? 0x00) then
          let offset := u64 (u64 (lba + he_lba e) * 512) in
          let size := u64 (he_sectors e * 512) in
          if u64 (offset + size) >? hp_size dev then finish s buffer partitions DE_UNSUPPORTED
          else
            let ebr_count := ebr_count + 1 in
            if ebr_count + 4 >=? HDD_PARTITION_COUNT then finish s buffer partitions DE_SUCCESS
            else
              partitions ← set_partition partitions (ebr_count + 4) offset size (he_type e);
              link partitions ebr_count
        else link partitions ebr_count
    end.

(** [fuel] bounds the number of extended boot records. *)
Definition handle_legacy (fuel : nat) (s : S) (buffer : list Z) (partitions : list partition)
    : option (S * list Z * list partition * de_error) :=
  dev ← partitions.[0];
  table ← read_legacy_table buffer false;
  match table with
  | None => Some (s, buffer, partitions, DE_UNSUPPORTED)
  | Some table =>
      o ← primary table 0 (hp_size dev) partitions None;
      match o with
      | None => Some (s, buffer, partitions, DE_UNSUPPORTED)
      | Some (partitions, None) => Some (s, buffer, partitions, DE_SUCCESS)
      | Some (partitions, Some lba) =>
          while fuel (ebr_turn lba dev) (EbrState s buffer partitions lba 0)
      end
  end.

Definition handle_guid (s : S) (buffer : list Z) (partitions : list partition)
    : option (S * list Z * list partition * de_error) :=
  Some (s, buffer, partitions, DE_UNSUPPORTED).

(** ** Mounting *)

Definition mount_partition (s : S) (name : list Z) (hp : partition) : option (S * de_error) :=
  let '(s, r, node) := vfs_open c s name true in
  if decide (r ≠ DE_SUCCESS) then Some (s, r)
  else
    let s := node_release c s node in
    let '(s, allocated) := malloc c s in
    if negb allocated then Some (s, DE_MEMORY)
    else
      dev_node ← hp_dev_node hp;
      let s := vfs_increment_count c s dev_node in
      let '(s, r, count) := vfs_mount c s name hp in
      '(s, _) ← n_release s hp count;
      Some (s, r).

(** The test of partition [i] against the others, from partition [j] on. *)
Fixpoint conflicts (i t1 : Z) (j : Z) (others : list partition) : bool :=
  match others with
  | [] => false
  | q :: others =>
      let t0 := hp_offset q in
      if (t0 =? t1) && negb (j =? i) then true
      else if (t0 <? t1) && (u64 (t0 + hp_size q) >? t1) then true
      else conflicts i t1 (j + 1) others
  end.

(** [l] has the partitions from [i] on. *)
Fixpoint any_conflict (i : Z) (l partitions : list partition) : bool :=
  match l with
  | [] => false
  | p :: l =>
      if hp_offset p =? 0 then any_conflict (i + 1) l partitions
      else if conflicts i (hp_offset p) 1 partitions then true
      else any_conflict (i + 1) l partitions
  end.

(** [snprintf] with "%d", for numbers below 100. *)
Definition number (i : Z) : list Z :=
  if i <? 10 then [48 + i] else [48 + i / 10; 48 + i mod 10].

Fixpoint mount_all (s : S) (dev_name : list Z) (dev : partition) (i : Z) (l : list partition)
    : option (S * de_error) :=
  match l with
  | [] => Some (s, DE_SUCCESS)
  | p :: l =>
      if hp_offset p =? 0 then mount_all s dev_name dev (i + 1) l
      else
        let p := HddPartition Node (hp_offset p) (hp_size p) (hp_block_size dev) (hp_dev_node dev)
                   (hp_legacy_type p) in
        '(s, r) ← mount_partition s (dev_name ++ number i) p;
        if decide (r ≠ DE_SUCCESS ∧ r ≠ DE_BUSY) then Some (s, r)
        else mount_all s dev_name dev (i + 1) l
  end.

(** The text "EFI PART". *)
Definition guid_signature : list Z := [69; 70; 73; 32; 80; 65; 82; 84].

(** The partitions that a device has: everything of [handle_device] before
    they are mounted. *)
Definition scan_device (fuel : nat) (s : S) (buffer : list Z) (partitions : list partition)
    : option (S * list Z * list partition * de_error) :=
  dev ← partitions.[0];
  '(s, r, buffer) ← read_sector s dev buffer 1;
  if decide (r ≠ DE_SUCCESS) then Some (s, buffer, partitions, r)
  else
    '(s, buffer, partitions, r) ←
      (if decide (take 8 buffer = guid_signature) then handle_guid s buffer partitions
       else
         '(s, r, buffer) ← read_sector s dev buffer 0;
         if decide (r ≠ DE_SUCCESS) then Some (s, buffer, partitions, r)
         else handle_legacy fuel s buffer partitions);
    if decide (r ≠ DE_SUCCESS) then Some (s, buffer, partitions, r)
    else if any_conflict 1 (drop 1 partitions) (drop 1 partitions)
    then Some (s, buffer, partitions, DE_UNSUPPORTED)
    else Some (s, buffer, partitions, DE_SUCCESS).

Definition handle_device (fuel : nat) (s : S) (dev_name : list Z) (buffer : list Z)
    (partitions : list partition) : option (S * de_error) :=
  '(s, buffer, partitions, r) ← scan_device fuel s buffer partitions;
  if decide (r ≠ DE_SUCCESS) then Some (s, r)
  else
    dev ← partitions.[0];
    mount_all s dev_name dev 1 (drop 1 partitions).

(** ** All devices *)

(** "/dev/hd" and "/dev/sd" *)
Definition hd_prefix : list Z := [47; 100; 101; 118; 47; 104; 100].
Definition sd_prefix : list Z := [47; 100; 101; 118; 47; 115; 100].

(** The name and the next state; [None] is DE_OVERFLOW. *)
Definition get_device_name (state : Z) : option (list Z) * Z :=
  if state <? 4 then (Some (hd_prefix ++ [97 + state]), state + 1)
  else if state <? 16 then (Some (sd_prefix ++ [97 + (state - 4)]), state + 1)
  else (None, 0).

(** The body of the loop, with the state for the next turn. *)
Definition handle_name (fuel : nat) (s : S) (dev_name : list Z) (state : Z)
    : option (ctl (S * Z) (S * de_error)) :=
  let '(s, r, dev_node) := vfs_open c s dev_name false in
  if decide (r = DE_NAME) then Some (Next (s, state))
  else if decide (r ≠ DE_SUCCESS) then Some (Done (s, r))
  else
    let '(s, r, (size, block_size)) := dev_stat c s dev_node in
    if decide (r ≠ DE_SUCCESS) then Some (Done (node_release c s dev_node, r))
    else if (size <? 0x10000) || (block_size <? 512) then
      Some (Next (node_release c s dev_node, state))
    else
      let partitions :=
        HddPartition Node 0 size block_size (Some dev_node) 0
        :: replicate (Z.to_nat (HDD_PARTITION_COUNT - 1)) no_partition in
      '(s, r) ← handle_device fuel s dev_name (replicate (Z.to_nat 0x1000) 0) partitions;
      let s := node_release c s dev_node in
      if decide (r ≠ DE_SUCCESS ∧ r ≠ DE_UNSUPPORTED) then Some (Done (s, r))
      else Some (Next (s, state)).

Definition device_turn (fuel : nat) (t : S * Z) : option (ctl (S * Z) (S * de_error)) :=
  let '(s, state) := t in
  let '(name, state) := get_device_name state in
  match name with
  | None => Some (Done (s, DE_SUCCESS))
  | Some dev_name => handle_name fuel s dev_name state
  end.

Definition find_partitions (fuel : nat) (s : S) : option (S * de_error) :=
  let '(s, allocated) := malloc c s in
  if negb allocated then Some (s, DE_MEMORY)
  else
    let '(s, allocated) := malloc c s in
    if negb allocated then Some (s, DE_MEMORY)
    else while 17 (device_turn fuel) (s, 0).

Definition hdd_part_init (fuel : nat) (run_once_free : bool) (s : S) : option (S * de_error) :=
  if negb run_once_free then Some (s, DE_UNEXPECTED) else find_partitions fuel s.
End HddPart.

(** ** Entries and tables *)

(** An entry that is in use has a first sector and a length, both of 32 bits. *)
Definition entry_ok (e : hdd_legacy_entry) : Prop :=
  he_type e ≠ 0 → 0 < he_lba e < 2 ^ 32 ∧ 0 < he_sectors e < 2 ^ 32.

Definition buffer_ok (buffer : list Z) : Prop := length buffer = Z.to_nat 0x1000 ∧ Forall is_byte buffer.

Lemma read_chs_total buffer p j :
  0 ≤ p → 0 ≤ j ≤ 1 → p + 16 ≤ Z.of_nat (length buffer) → ∃ c h s, read_chs buffer p j = Some (c, h, s).
Proof.
  intros Hp Hj Hl. unfold read_chs.
  destruct (rd_is_Some buffer (p + (j * 4 + 1)) ltac:(lia)) as [b0 ->].
  destruct (rd_is_Some buffer (p + (j * 4 + 1 + 1)) ltac:(lia)) as [b1 ->].
  destruct (rd_is_Some buffer (p + (j * 4 + 1 + 2)) ltac:(lia)) as [b2 ->]. cbn. by do 3 eexists.
Qed.

Lemma read_entry_spec buffer ebr_mode i found :
  buffer_ok buffer → 0 ≤ i < 4 →
  ∃ o, read_entry buffer ebr_mode i found = Some o ∧
    match o with Some (e, _) => entry_ok e | None => True end.
Proof.
  intros [Hl Hb] Hi. unfold read_entry.
  destruct (rd_is_Some buffer (446 + i * 16) ltac:(lia)) as [st ->]. cbn [mbind option_bind].
  destruct (_ && _); [by eexists|].
  destruct (rd_is_Some buffer (446 + i * 16 + 4) ltac:(lia)) as [ty ->].
  destruct (LE32_range buffer (446 + i * 16 + 8)) as (lba & -> & Hlba); [lia|lia|done|].
  destruct (LE32_range buffer (446 + i * 16 + 12)) as (sec & -> & Hsec); [lia|lia|done|].
  cbn [mbind option_bind]. destruct (Z.eqb_spec ty 0) as [->|Hty].
  { destruct (_ || _); eexists; split; done. }
  destruct (_ && _); [by eexists|]. destruct (_ && _); [by eexists|].
  destruct (Z.eqb_spec lba 0), (Z.eqb_spec sec 0); cbn [orb]; try by eexists.
  destruct (read_chs_total buffer (446 + i * 16) 0) as (c0 & h0 & s0 & ->); [lia..|].
  cbn [mbind option_bind]. destruct (s0 =? 0); [by eexists|].
  destruct (read_chs_total buffer (446 + i * 16) 1) as (c1 & h1 & s1 & ->); [lia..|].
  cbn [mbind option_bind]. destruct (s1 =? 0); [by eexists|].
  destruct (chs_backwards _); [by eexists|]. eexists. split; [done|].
  intros _. cbn [he_lba he_sectors]. lia.
Qed.

Lemma read_entries_spec n buffer ebr_mode i found :
  buffer_ok buffer → 0 ≤ i → i + Z.of_nat n ≤ 4 →
  ∃ o, read_entries n buffer ebr_mode i found = Some o ∧
    match o with Some l => length l = n ∧ Forall entry_ok l | None => True end.
Proof.
  intros Hb. revert i found. induction n as [|n IH]; intros i found Hi Hn; cbn [read_entries].
  { eexists. split; [done|]. split; [done|by constructor]. }
  destruct (read_entry_spec buffer ebr_mode i found Hb) as (o & -> & Ho); [lia|].
  cbn [mbind option_bind]. destruct o as [[e f]|]; [|by eexists].
  destruct (IH (i + 1) f) as (o & -> & Hl); [lia|lia|]. cbn [mbind option_bind].
  destruct o as [l|]; cbn; [|by eexists]. eexists. split; [done|]. destruct Hl as [<- Hl].
  split; [done|]. by constructor.
Qed.

Lemma read_legacy_table_spec buffer ebr_mode :
  buffer_ok buffer →
  ∃ o, read_legacy_table buffer ebr_mode = Some o ∧
    match o with Some l => length l = 4%nat ∧ Forall entry_ok l | None => True end.
Proof.
  intros Hb. unfold read_legacy_table. pose proof Hb as [Hl _].
  destruct (rd_is_Some buffer 510 ltac:(lia)) as [x ->]. cbn [mbind option_bind].
  destruct (negb (x =? 0x55)); [by eexists|].
  destruct (rd_is_Some buffer 511 ltac:(lia)) as [y ->]. cbn [mbind option_bind].
  destruct (negb (y =? 0xAA)); [by eexists|]. by apply read_entries_spec.
Qed.

(** ** What the devices promise *)

(** A record of the chain that has a link has a partition, too. *)
Definition chain_record (buffer : list Z) : Prop :=
  ∀ e0 e1 l, read_legacy_table buffer true = Some (Some (e0 :: e1 :: l)) →
    he_type e0 ≠ 0 ∨ is_extended (he_type e1) = false.

(** A device puts at most the bytes that were asked for into the buffer, its
    size is a 64-bit number and its blocks have at most 4096 bytes; the
    records that it holds are [chain_record]s (a failed read may leave the
    buffer as it was). *)
Class DevicesOk {S Node} (c : calls S Node) : Prop := {
  read_data : ∀ s node offset size s' r z data,
    dev_read c s node offset size = (s', r, (z, data)) →
    Z.of_nat (length data) ≤ Z.max 0 size ∧ Forall is_byte data;
  read_chain : ∀ s node offset size s' r z data buffer buffer',
    chain_record buffer → dev_read c s node offset size = (s', r, (z, data)) →
    fill buffer data = Some buffer' → chain_record buffer';
  stat_sizes : ∀ s node s' r z block_size,
    dev_stat c s node = (s', r, (z, block_size)) → 0 ≤ z < 2 ^ 64 ∧ block_size ≤ 0x1000 }.

(** ** Partitions in a device of [size] bytes *)

Definition part_ok {Node} (size : Z) (p : hdd_partition Node) : Prop :=
  hp_offset p = 0 ∧ hp_size p = 0 ∨
  0 < hp_offset p ∧ 0 < hp_size p ∧ hp_offset p + hp_size p ≤ size ∧
  hp_offset p + hp_size p < 2 ^ 43.

(** The whole device, and behind it the partitions. *)
Record parts_ok {Node} (dev : hdd_partition Node) (l : list (hdd_partition Node)) : Prop := {
  parts_length : length l = Z.to_nat HDD_PARTITION_COUNT;
  parts_dev : l !! 0%nat = Some dev;
  parts_each : ∀ i p, l !! i = Some p → i ≠ 0%nat → part_ok (hp_size dev) p }.

(** [p] and [q] share no byte. *)
Definition disjoint_parts {Node} (p q : hdd_partition Node) : Prop :=
  hp_offset p + hp_size p ≤ hp_offset q ∨ hp_offset q + hp_size q ≤ hp_offset p.

Section HddPartProofs.
Context {Sys Node : Type} (c : calls Sys Node) `{!DevicesOk c}.
Abbreviation partition := (hdd_partition Node).
Implicit Types (s : Sys) (p dev : partition) (l : list partition).

Lemma set_partition_ok dev l i offset size type :
  parts_ok dev l → 1 ≤ i < HDD_PARTITION_COUNT →
  0 < offset → 0 < size → offset + size ≤ hp_size dev → offset + size < 2 ^ 43 →
  ∃ l', set_partition l i offset size type = Some l' ∧ parts_ok dev l'.
Proof.
  intros [Hl Hd He] Hi H1 H2 H3 H4. unfold HDD_PARTITION_COUNT in *. unfold set_partition.
  destruct (rd_is_Some l i ltac:(lia)) as [p ->]. cbn [mbind option_bind].
  rewrite wr_Some by lia. eexists. split; [done|]. constructor.
  - by rewrite length_insert.
  - by rewrite list_lookup_insert_ne by lia.
  - intros j q Hj Hne. destruct (decide (j = Z.to_nat i)) as [->|Hn].
    + rewrite list_lookup_insert_eq in Hj by lia. injection Hj as <-. by right.
    + rewrite list_lookup_insert_ne in Hj by lia. by apply (He j).
Qed.

Lemma fill_spec (buffer data : list Z) :
  buffer_ok buffer → Z.of_nat (length data) ≤ 0x1000 → Forall is_byte data →
  ∃ buffer', fill buffer data = Some buffer' ∧ buffer_ok buffer'.
Proof.
  intros [Hl Hb] Hd Hby. unfold fill. rewrite (proj2 (Nat.leb_le _ _)) by lia.
  eexists. split; [done|]. split.
  - rewrite length_app, length_drop. lia.
  - apply Forall_app. split; [done|by apply bytes_drop].
Qed.

Lemma read_sector_spec s dev node (buffer : list Z) lba :
  hp_dev_node dev = Some node → hp_block_size dev ≤ 0x1000 →
  buffer_ok buffer → chain_record buffer →
  ∃ s' r buffer', read_sector c s dev buffer lba = Some (s', r, buffer') ∧
    buffer_ok buffer' ∧ chain_record buffer'.
Proof.
  intros Hn Hbs Hb Hch. unfold read_sector. rewrite Hn. cbn [mbind option_bind].
  destruct (dev_read c s node _ _) as [[s' r] [z data]] eqn:E.
  pose proof (read_data _ _ _ _ _ _ _ _ E) as [Hd Hby].
  destruct (fill_spec buffer data Hb ltac:(lia) Hby) as (b' & Hf & Hb'). rewrite Hf.
  cbn [mbind option_bind]. pose proof (read_chain _ _ _ _ _ _ _ _ _ _ Hch E Hf).
  case_decide; [|destruct (negb _)]; by do 3 eexists.
Qed.

Lemma primary_spec (table : list hdd_legacy_entry) i dev l ebr :
  parts_ok dev l → Forall entry_ok table → 0 ≤ i → i + Z.of_nat (length table) ≤ 4 →
  (∀ lba, ebr = Some lba → 0 ≤ lba < 2 ^ 32) →
  ∃ o, primary table i (hp_size dev) l ebr = Some o ∧
    match o with
    | Some (l', ebr') => parts_ok dev l' ∧ ∀ lba, ebr' = Some lba → 0 ≤ lba < 2 ^ 32
    | None => True
    end.
Proof.
  revert i l ebr. induction table as [|e table IH]; intros i l ebr Hl He Hi Hn Hebr; cbn [primary].
  { eexists. by split. }
  apply Forall_cons_1 in He as [He Het]. cbn [length] in Hn.
  destruct (Z.eqb_spec (he_type e) 0) as [|Hty]; [apply IH; (done || lia)|].
  destruct (He Hty) as [Hlba Hsec].
  rewrite (wrap_small 64 (he_lba e * 512)), (wrap_small 64 (he_sectors e * 512)), (wrap_small 64 (_ + _)) by lia. rewrite Z.gtb_ltb.
  destruct (Z.ltb_spec (hp_size dev) (he_lba e * 512 + he_sectors e * 512)); [by eexists|].
  destruct (is_extended (he_type e)).
  - apply IH; try done; try lia. intros lba [= <-]. lia.
  - destruct (set_partition_ok dev l (i + 1) (he_lba e * 512) (he_sectors e * 512) (he_type e) Hl)
      as (l' & -> & Hl'); [unfold HDD_PARTITION_COUNT; lia|lia|lia|lia|lia|].
    cbn [mbind option_bind]. apply IH; (done || lia).
Qed.

(** The chain of extended boot records ends. *)
Lemma ebr_loop_spec s (buffer : list Z) dev node l lba0 fuel :
  hp_dev_node dev = Some node → hp_block_size dev ≤ 0x1000 → 0 ≤ lba0 < 2 ^ 32 →
  parts_ok dev l → buffer_ok buffer → chain_record buffer → (28 < fuel)%nat →
  ∃ s' buffer' l' r,
    while fuel (ebr_turn c lba0 dev) (EbrState s buffer l lba0 0) = Some (s', buffer', l', r) ∧
    parts_ok dev l'.
Proof.
  intros Hn Hbs H0 Hl Hb Hcr Hfuel.
  destruct (while_total
    (λ t : ebr_state (S:=Sys) (Node:=Node),
       (buffer_ok (es_buffer t) ∧ chain_record (es_buffer t)) ∧ parts_ok dev (es_partitions t) ∧
       0 ≤ es_lba t < 2 ^ 32 ∧ 0 ≤ es_count t ≤ 28)
    (λ t, Z.to_nat (28 - es_count t))
    (λ r : Sys * list Z * list partition * de_error, parts_ok dev r.1.2)
    (ebr_turn c lba0 dev)) with (fuel := fuel) (s := EbrState s buffer l lba0 0)
    as ([[[s' b'] l'] r] & Hw & Hpost); [|cbn; split; [done|split; [done|lia]]|cbn; lia|].
  2:{ by exists s', b', l', r. }
  clear - H0 Hn Hbs DevicesOk0.
  intros [s buffer l lba n] ([Hb Hcr] & Hl & Hlba & Hc). cbn [es_buffer es_partitions es_lba es_count] in *.
  unfold ebr_turn, finish.
  destruct (read_sector_spec s dev node buffer lba Hn Hbs Hb Hcr) as (s' & r & b' & -> & Hb' & Hch).
  cbn [mbind option_bind]. case_decide as Hr; [by eexists|].
  destruct (read_legacy_table_spec b' true Hb') as (o & Ho & Hspec). rewrite Ho. cbn [mbind option_bind].
  destruct o as [t|]; [|by eexists].
  destruct t as [|e t]; [by destruct Hspec|]. destruct t as [|ebr t]; [by destruct Hspec|].
  destruct Hspec as [_ Hok]. apply Forall_cons_1 in Hok as [He Hok]. apply Forall_cons_1 in Hok as [Hebr _].
  pose proof (Hch _ _ _ Ho) as Hlink.
  change ((e :: ebr :: t).[0]) with (Some e). change ((e :: ebr :: t).[1]) with (Some ebr).
  cbn [mbind option_bind].
  destruct (Z.eqb_spec (he_type e) 0) as [Hz|Hty]; cbn [negb].
  { destruct Hlink as [?|E]; [done|]. rewrite E. cbn [negb]. by eexists. }
  destruct (He Hty) as [Hel Hes]. rewrite (wrap_small 64 (lba + he_lba e)) by lia.
  rewrite (wrap_small 64 ((lba + he_lba e) * 512)), (wrap_small 64 (he_sectors e * 512)) by lia.
  rewrite (wrap_small 64 ((lba + he_lba e) * 512 + he_sectors e * 512)) by lia. rewrite Z.gtb_ltb.
  destruct (Z.ltb_spec (hp_size dev) ((lba + he_lba e) * 512 + he_sectors e * 512)); [by eexists|].
  rewrite Z.geb_leb. unfold HDD_PARTITION_COUNT at 1.
  destruct (Z.leb_spec 32 (n + 1 + 4)); [by eexists|].
  destruct (set_partition_ok dev l (n + 1 + 4) ((lba + he_lba e) * 512) (he_sectors e * 512) (he_type e) Hl)
    as (l' & -> & Hl'); [unfold HDD_PARTITION_COUNT; lia|lia|lia|lia|lia|]. cbn [mbind option_bind].
  destruct (is_extended (he_type ebr)) eqn:Ex; cbn [negb]; [|by eexists].
  assert (Hebl : 0 < he_lba ebr < 2 ^ 32).
  { apply Hebr. intros E. rewrite E in Ex. done. }
  rewrite Z.gtb_ltb. destruct (Z.ltb_spec 0xFFFFFFFF (u64 (lba0 + he_lba ebr))); [by eexists|].
  eexists. split; [done|]. cbn [es_buffer es_partitions es_lba es_count].
  split; [|lia]. split; [done|]. split; [done|]. split; [apply wrap_range; lia|lia].
Qed.

Lemma handle_legacy_spec s (buffer : list Z) dev node l fuel :
  hp_dev_node dev = Some node → hp_block_size dev ≤ 0x1000 →
  parts_ok dev l → buffer_ok buffer → chain_record buffer → (28 < fuel)%nat →
  ∃ s' buffer' l' r, handle_legacy c fuel s buffer l = Some (s', buffer', l', r) ∧ parts_ok dev l'.
Proof.
  intros Hn Hbs Hl Hb Hcr Hfuel. unfold handle_legacy.
  assert (l.[0] = Some dev) as -> by (apply rd_Some; split; [lia|by apply Hl]). cbn [mbind option_bind].
  destruct (read_legacy_table_spec buffer false Hb) as (o & -> & Hspec). cbn [mbind option_bind].
  destruct o as [t|]; [|by do 4 eexists]. destruct Hspec as [Ht Hok].
  destruct (primary_spec t 0 dev l None Hl Hok) as (o & -> & Ho); [lia|lia|done|].
  cbn [mbind option_bind]. destruct o as [x|]; [|by do 4 eexists]. destruct x as [l' o]. destruct o as [lba|]; [|destruct Ho; by do 4 eexists].
  destruct Ho as [Hl' Hlba]. specialize (Hlba lba eq_refl). by apply (ebr_loop_spec _ _ _ node).
Qed.

Lemma conflicts_false i t1 j l k q :
  conflicts i t1 j l = false → l !! k = Some q →
  (hp_offset q = t1 → j + Z.of_nat k = i) ∧
  (hp_offset q < t1 → u64 (hp_offset q + hp_size q) ≤ t1).
Proof.
  revert j k. induction l as [|x l IH]; intros j k; [done|]. cbn [conflicts].
  destruct (Z.eqb_spec (hp_offset x) t1), (Z.eqb_spec j i), (Z.ltb_spec (hp_offset x) t1); cbn [andb negb];
    rewrite ?Z.gtb_ltb; try done;
    try (destruct (Z.ltb_spec t1 (u64 (hp_offset x + hp_size x))); [done|]);
    (destruct k as [|k]; cbn [lookup list_lookup];
      [intros _ [= <-]; split; lia
      |intros Hc Hq; destruct (IH (j + 1) k Hc Hq); split; intros; lia]).
Qed.

Lemma any_conflict_false i l l2 k p :
  any_conflict i l l2 = false → l !! k = Some p → hp_offset p ≠ 0 →
  conflicts (i + Z.of_nat k) (hp_offset p) 1 l2 = false.
Proof.
  revert i k. induction l as [|x l IH]; intros i k; [done|]. cbn [any_conflict].
  destruct k as [|k]; cbn [lookup list_lookup].
  - intros Hc [= <-] Hne. rewrite (proj2 (Z.eqb_neq _ _)) in Hc by done.
    rewrite Z.add_0_r. by destruct (conflicts _ _ _ _).
  - intros Hc Hp Hne. replace (i + Z.of_nat (S k)) with (i + 1 + Z.of_nat k) by lia.
    apply IH; [|done..]. destruct (_ =? _); [done|]. by destruct (conflicts _ _ _ _).
Qed.

(** A table without conflicts has disjoint partitions. *)
Lemma no_conflict_disjoint dev l i j p q :
  parts_ok dev l → any_conflict 1 (drop 1 l) (drop 1 l) = false →
  l !! S i = Some p → l !! S j = Some q → i ≠ j → disjoint_parts p q.
Proof.
  intros Hok Hc Hp Hq Hij.
  destruct (parts_each _ _ Hok _ _ Hp ltac:(lia)) as [[Hp0 Hps]|(Hp1 & Hp2 & Hp3 & Hp4)],
    (parts_each _ _ Hok _ _ Hq ltac:(lia)) as [[Hq0 Hqs]|(Hq1 & Hq2 & Hq3 & Hq4)];
    unfold disjoint_parts; try lia.
  assert (Hdp : drop 1 l !! i = Some p) by (by rewrite lookup_drop).
  assert (Hdq : drop 1 l !! j = Some q) by (by rewrite lookup_drop).
  pose proof (any_conflict_false 1 _ _ i p Hc Hdp ltac:(lia)) as Hcp.
  pose proof (any_conflict_false 1 _ _ j q Hc Hdq ltac:(lia)) as Hcq.
  destruct (conflicts_false _ _ _ _ j q Hcp Hdq) as [He1 Hl1].
  destruct (conflicts_false _ _ _ _ i p Hcq Hdp) as [_ Hl2].
  rewrite wrap_small in Hl1, Hl2 by lia.
  destruct (Z.lt_trichotomy (hp_offset p) (hp_offset q)) as [?|[?|?]]; lia.
Qed.

(** What a device with partitions looks like: the partitions lie in the device
    and are pairwise disjoint. *)
Definition partitioned dev l : Prop :=
  parts_ok dev l ∧
  ∀ i j p q, l !! S i = Some p → l !! S j = Some q → i ≠ j → disjoint_parts p q.

Lemma scan_device_spec s (buffer : list Z) dev node l fuel :
  hp_dev_node dev = Some node → hp_block_size dev ≤ 0x1000 →
  parts_ok dev l → buffer_ok buffer → chain_record buffer → (28 < fuel)%nat →
  ∃ s' buffer' l' r, scan_device c fuel s buffer l = Some (s', buffer', l', r) ∧
    parts_ok dev l' ∧ (r = DE_SUCCESS → partitioned dev l').
Proof.
  intros Hn Hbs Hl Hb Hcr Hfuel. unfold scan_device.
  assert (l.[0] = Some dev) as -> by (apply rd_Some; split; [lia|by apply Hl]). cbn [mbind option_bind].
  destruct (read_sector_spec s dev node buffer 1 Hn Hbs Hb Hcr) as (s1 & r1 & b1 & -> & Hb1 & Hcr1).
  cbn [mbind option_bind]. case_decide; [by do 4 eexists|].
  case_decide as Hg; unfold handle_guid; cbn [mbind option_bind].
  { case_decide; [|done]. by do 4 eexists. }
  destruct (read_sector_spec s1 dev node b1 0 Hn Hbs Hb1 Hcr1) as (s2 & r2 & b2 & -> & Hb2 & Hcr2).
  cbn [mbind option_bind].
  assert (∃ s' b' l' r,
    (if decide (r2 ≠ DE_SUCCESS) then Some (s2, b2, l, r2) else handle_legacy c fuel s2 b2 l)
    = Some (s', b', l', r) ∧ parts_ok dev l') as (s3 & b3 & l3 & r3 & -> & Hl3).
  { case_decide; [by do 4 eexists|]. by apply (handle_legacy_spec _ _ _ node). }
  cbn [mbind option_bind]. case_decide; [by do 4 eexists|].
  destruct (any_conflict _ _ _) eqn:Hc; [by do 4 eexists|].
  do 4 eexists. split; [done|]. split; [done|]. intros _. split; [done|].
  intros i j p q. by apply (no_conflict_disjoint dev).
Qed.

Lemma mount_all_total s name dev node i l :
  hp_dev_node dev = Some node → ∃ s' r, mount_all c s name dev i l = Some (s', r).
Proof.
  intros Hn. revert s i. induction l as [|p l IH]; intros s i; cbn [mount_all]; [by do 2 eexists|].
  destruct (_ =? _); [apply IH|]. rewrite Hn. unfold mount_partition, n_release. cbn [hp_dev_node].
  destruct (vfs_open c s _ true) as [[s1 r1] n1].
  case_decide; cbn [mbind option_bind]; [case_decide; [by do 2 eexists|apply IH]|].
  destruct (malloc c _) as [s2 []]; cbn [negb mbind option_bind];
    [|case_decide; [by do 2 eexists|apply IH]].
  destruct (vfs_mount c _ _ _) as [[s3 r3] n3].
  destruct (_ =? 0); cbn [mbind option_bind]; (case_decide; [by do 2 eexists|apply IH]).
Qed.

Lemma handle_device_total s name (buffer : list Z) dev node l fuel :
  hp_dev_node dev = Some node → hp_block_size dev ≤ 0x1000 →
  parts_ok dev l → buffer_ok buffer → chain_record buffer → (28 < fuel)%nat →
  ∃ s' r, handle_device c fuel s name buffer l = Some (s', r).
Proof.
  intros Hn Hbs Hl Hb Hcr Hf. unfold handle_device.
  destruct (scan_device_spec s buffer dev node l fuel) as (s1 & b1 & l1 & r1 & -> & Hl1 & _); try done.
  cbn [mbind option_bind]. case_decide; [by do 2 eexists|].
  assert (l1.[0] = Some dev) as -> by (apply rd_Some; split; [lia|by apply Hl1]). cbn [mbind option_bind].
  by apply (mount_all_total _ _ _ node).
Qed.

(** The table of a device before it is read. *)
Definition blank (size block_size : Z) (node : Node) : list partition :=
  HddPartition Node 0 size block_size (Some node) 0
  :: replicate (Z.to_nat (HDD_PARTITION_COUNT - 1)) no_partition.

Lemma blank_disk_ok size block_size node :
  parts_ok (HddPartition Node 0 size block_size (Some node) 0) (blank size block_size node).
Proof.
  constructor; [done|done|]. intros i p Hp Hi. destruct i as [|i]; [done|].
  cbn [blank lookup list_lookup] in Hp. apply lookup_replicate in Hp as [-> _]. by left.
Qed.

Lemma blank_buffer : buffer_ok (replicate (Z.to_nat 0x1000) 0).
Proof. split; [by rewrite length_replicate|apply bytes_zeros]. Qed.

Lemma blank_record : chain_record (replicate (Z.to_nat 0x1000) 0).
Proof. intros e0 e1 l H. vm_compute in H. done. Qed.

(** (C15) Reading the table of partitions of any device.  Whatever the device
    answers (it keeps to the sizes of [DevicesOk], and no record of the chain
    is empty and has a link), the computation ends after at most 29 records
    and has no undefined access.  If it succeeds, every partition lies in the
    device and no two of them share a byte; hence an access that [hdd_args]
    lets through one partition stays in that partition, and accesses through
    two partitions never touch the same byte of the device. *)
Theorem partitions_isolated (s : Sys) (size block_size : Z) (node : Node) (fuel : nat)
    (Hsize : 0 ≤ size) (Hbs : block_size ≤ 0x1000) (Hfuel : (28 < fuel)%nat) :
  ∃ s' buffer l r,
    scan_device c fuel s (replicate (Z.to_nat 0x1000) 0) (blank size block_size node)
      = Some (s', buffer, l, r) ∧
    (r = DE_SUCCESS → ∀ i p o n o1 n1,
      l !! S i = Some p → 0 ≤ o → 0 ≤ n → hdd_args p o n = inr (o1, n1) →
      hp_offset p ≤ o1 ∧ 0 ≤ n1 ≤ n ∧ o1 + n1 ≤ hp_offset p + hp_size p ≤ size ∧
      ∀ j q o' n' o2 n2,
        i ≠ j → l !! S j = Some q → 0 ≤ o' → 0 ≤ n' → hdd_args q o' n' = inr (o2, n2) →
        o1 + n1 ≤ o2 ∨ o2 + n2 ≤ o1).
Proof.
  set (dev := HddPartition Node 0 size block_size (Some node) 0).
  destruct (scan_device_spec s (replicate (Z.to_nat 0x1000) 0) dev node (blank size block_size node) fuel)
    as (s' & b & l & r & Hscan & _ & Hok);
    [done|done|apply blank_disk_ok|apply blank_buffer|apply blank_record|done|].
  exists s', b, l, r. split; [done|]. intros Hr. destruct (Hok Hr) as [Hparts Hdis].
  assert (Hargs : ∀ i p o n o1 n1, l !! S i = Some p → 0 ≤ o → 0 ≤ n → hdd_args p o n = inr (o1, n1) →
    hp_offset p ≤ o1 ∧ 0 ≤ n1 ≤ n ∧ o1 + n1 ≤ hp_offset p + hp_size p ≤ size).
  { intros i p o n o1 n1 Hp Ho Hn Ha.
    pose proof (parts_each _ _ Hparts _ _ Hp ltac:(lia)) as Hpart. cbn [dev hp_size] in Hpart.
    unfold hdd_args in Ha. rewrite Z.geb_leb, Z.gtb_ltb in Ha.
    destruct (Z.leb_spec (hp_size p) o); [done|]. destruct Hpart as [|(H1 & H2 & H3 & H4)]; [lia|].
    rewrite !wrap_small in Ha by lia.
    destruct (Z.ltb_spec (hp_size p - o) n); injection Ha as <- <-; lia. }
  intros i p o n o1 n1 Hp Ho Hn Ha. destruct (Hargs _ _ _ _ _ _ Hp Ho Hn Ha) as (H1 & H2 & H3).
  do 3 (split; [done|]). intros j q o' n' o2 n2 Hij Hq Ho' Hn' Ha'.
  destruct (Hargs _ _ _ _ _ _ Hq Ho' Hn' Ha') as (H4 & H5 & H6).
  destruct (Hdis i j p q Hp Hq Hij); lia.
Qed.

Lemma handle_name_total s name state fuel :
  (28 < fuel)%nat →
  ∃ r, handle_name c fuel s name state = Some r ∧
    match r with Next t => t.2 = state | Done _ => True end.
Proof.
  intros Hf. unfold handle_name. destruct (vfs_open c s name false) as [[s1 r1] n1].
  case_decide; [by eexists|]. case_decide; [by eexists|].
  destruct (dev_stat c s1 n1) as [[s2 r2] [size bs]] eqn:E.
  pose proof (stat_sizes _ _ _ _ _ _ E) as [_ Hbs].
  case_decide; [by eexists|]. destruct (_ || _); [by eexists|].
  destruct (handle_device_total s2 name (replicate (Z.to_nat 0x1000) 0)
    (HddPartition Node 0 size bs (Some n1) 0) n1 (blank size bs n1) fuel) as (s3 & r3 & H3);
    [done|done|apply blank_disk_ok|apply blank_buffer|apply blank_record|done|].
  unfold blank in H3. rewrite H3. cbn [mbind option_bind]. case_decide; by eexists.
Qed.

(** All devices are handled, whatever the other components answer. *)
Theorem find_partitions_total (s : Sys) (fuel : nat) (Hfuel : (28 < fuel)%nat) :
  ∃ s' r, find_partitions c fuel s = Some (s', r).
Proof.
  unfold find_partitions. destruct (malloc c s) as [s1 []]; cbn [negb]; [|by do 2 eexists].
  destruct (malloc c s1) as [s2 []]; cbn [negb]; [|by do 2 eexists].
  destruct (while_total (λ t : Sys * Z, 0 ≤ t.2 ≤ 16) (λ t, Z.to_nat (16 - t.2)) (λ _ : Sys * de_error, True)
    (device_turn c fuel)) with (fuel := 17%nat) (s := (s2, 0)) as ([s' r] & -> & _);
    [|cbn; lia|cbn; lia|by do 2 eexists].
  clear s s1 s2. intros [s state] Hst. cbn [fst snd] in Hst. unfold device_turn, get_device_name.
  assert (Hnext : state < 16 → ∀ name, ∃ r, handle_name c fuel s name (state + 1) = Some r ∧ match r with
    | Next t => 0 ≤ t.2 ≤ 16 ∧ (Z.to_nat (16 - t.2) < Z.to_nat (16 - state))%nat | Done _ => True end).
  { intros Hlt name. destruct (handle_name_total s name (state + 1) fuel Hfuel) as (r & Hr & Hpost).
    exists r. split; [exact Hr|]. destruct r as [t|]; [|done]. rewrite Hpost. lia. }
  destruct (Z.ltb_spec state 4); [apply Hnext; lia|].
  destruct (Z.ltb_spec state 16); [by apply Hnext|]. by eexists.
Qed.
End HddPartProofs.

(** ** Errors of reading *)

(** [read_sector] does not report what went wrong (its first test is
    inverted): a read that succeeds with any number of bytes, even none, and a
    read that fails with the full size both count as success, and the caller
    goes on with what the buffer holds. *)
Theorem read_sector_hides_errors {Sys Node} (c : calls Sys Node) (s s' : Sys)
    (dev : hdd_partition Node) (node : Node) (buffer buffer' data : list Z) (lba z : Z) (r : de_error)
    (Hnode : hp_dev_node dev = Some node)
    (Hread : dev_read c s node (u64 (lba * hp_block_size dev)) (hp_block_size dev) = (s', r, (z, data)))
    (Hfill : fill buffer data = Some buffer')
    (Hcase : r = DE_SUCCESS ∨ z = hp_block_size dev) :
  read_sector c s dev buffer lba = Some (s', DE_SUCCESS, buffer').
Proof.
  unfold read_sector. rewrite Hnode. cbn [mbind option_bind]. rewrite Hread, Hfill.
  cbn [mbind option_bind]. case_decide as Hr; [by rewrite Hr|].
  destruct Hcase as [?|Hz]; [done|]. by rewrite Hz, Z.eqb_refl.
Qed.

(** ** Concrete disks *)

Definition entry_bytes (type lba sectors : Z) : list Z :=
  [0; 0; 1; 0; type; 0; 1; 0; lba; 0; 0; 0; sectors; 0; 0; 0].

Definition sector (entries : list (list Z)) : list Z :=
  replicate 446 0 ++ concat entries ++ replicate (64 - 16 * length entries) 0 ++ [0x55; 0xAA].

(** A disk with blocks of 512 bytes; every other component answers success. *)
Definition disk (sectors : Z → list Z) : calls unit unit := {|
  vfs_open := λ s _ _, (s, DE_SUCCESS, tt);
  node_release := λ s _, s;
  vfs_increment_count := λ s _, s;
  vfs_mount := λ s _ _, (s, DE_SUCCESS, 2);
  dev_stat := λ s _, (s, DE_SUCCESS, (0x10000, 512));
  dev_read := λ s _ offset size,
    if size =? 512 then (s, DE_SUCCESS, (512, sectors (offset / 512))) else (s, DE_ARGUMENT, (0, []));
  dev_write := λ s _ _ _, (s, DE_READ_ONLY, 0);
  malloc := λ s, (s, true) |}.

(** One primary partition, and two in an extended one. *)
Definition good_sectors (lba : Z) : list Z :=
  if lba =? 0 then sector [entry_bytes 6 10 5; entry_bytes 5 20 10]
  else if lba =? 20 then sector [entry_bytes 6 1 2; entry_bytes 5 4 3]
  else if lba =? 24 then sector [entry_bytes 6 1 2]
  else replicate 512 0.

Lemma good_disk_ok : DevicesOk (disk good_sectors).
Proof.
  constructor.
  - cbn [dev_read disk]. intros s node offset size s' r z data H.
    destruct (Z.eqb_spec size 512) as [->|]; simplify_eq; [|split; [cbn; lia|constructor]].
    assert (Hs : length (good_sectors (offset / 512)) = 512%nat ∧
      Forall is_byte (good_sectors (offset / 512))).
    { unfold good_sectors. repeat case_match;
        (split; [reflexivity|apply (bool_decide_unpack _); vm_compute; exact I]). }
    destruct Hs as [-> Hs]. split; [lia|done].
  - cbn [dev_read disk]. intros s node offset size s' r z data buffer buffer' Hch H Hf.
    destruct (size =? 512); simplify_eq; unfold fill in Hf; (case_match; [|done]); simplify_eq.
    + intros e0 e1 l. unfold good_sectors.
      repeat case_match; intros Ht; vm_compute in Ht; simplify_eq; cbn; auto.
    + exact Hch.
  - cbn [dev_stat disk]. intros. simplify_eq. lia.
Qed.

Lemma partitions_isolated_witness :
  ∃ s' buffer l r,
    scan_device (disk good_sectors) 29 tt (replicate (Z.to_nat 0x1000) 0) (blank 0x10000 512 tt)
      = Some (s', buffer, l, r).
Proof.
  destruct (@partitions_isolated unit unit (disk good_sectors) good_disk_ok tt 0x10000 512 tt 29
    ltac:(lia) ltac:(lia) ltac:(lia)) as (s' & b & l & r & H & _).
  by exists s', b, l, r.
Defined.

Example good_disk_partitions :
  match scan_device (disk good_sectors) 29 tt (replicate (Z.to_nat 0x1000) 0) (blank 0x10000 512 tt) with
  | Some (_, _, l, r) =>
      (r, (λ p, (hp_offset p, hp_size p)) <$> take 8 l) =
      (DE_SUCCESS, [(0, 0x10000); (5120, 2560); (0, 0); (0, 0); (0, 0);
                    (10752, 1024); (12800, 1024); (0, 0)])
  | None => False
  end.
Proof. vm_compute. reflexivity. Qed.

(** The chain of this disk ends in a record that is empty and whose link leads
    to the record itself. *)
Definition cyclic_sectors (lba : Z) : list Z :=
  if lba =? 0 then sector [entry_bytes 5 2 10]
  else if (lba =? 2) || (lba =? 3) then sector [replicate 16 0; entry_bytes 5 1 1]
  else replicate 512 0.

(** The state of the loop at the record. *)
Definition cyclic_state : ebr_state (S:=unit) (Node:=unit) :=
  EbrState tt (cyclic_sectors 3 ++ replicate 3584 0) (blank 0x10000 512 tt) 3 0.

Definition cyclic_dev : hdd_partition unit := HddPartition unit 0 0x10000 512 (Some tt) 0.

Lemma cyclic_turn :
  ebr_turn (disk cyclic_sectors) 2 cyclic_dev cyclic_state = Some (Next cyclic_state).
Proof. vm_compute. reflexivity. Qed.

(** The first sector, and the state of the loop before its first turn. *)
Definition cyclic_buffer : list Z := cyclic_sectors 0 ++ replicate 3584 0.

Lemma cyclic_loop fuel :
  while fuel (ebr_turn (disk cyclic_sectors) 2 cyclic_dev)
    (EbrState tt cyclic_buffer (blank 0x10000 512 tt) 2 0) = None.
Proof.
  assert (Hloop : ∀ n, while n (ebr_turn (disk cyclic_sectors) 2 cyclic_dev) cyclic_state = None).
  { induction n as [|n IH]; [done|]. cbn [while]. rewrite cyclic_turn. exact IH. }
  destruct fuel as [|n]; [done|]. cbn [while].
  assert (ebr_turn (disk cyclic_sectors) 2 cyclic_dev
    (EbrState tt cyclic_buffer (blank 0x10000 512 tt) 2 0)
    = Some (Next cyclic_state)) as -> by (vm_compute; reflexivity). exact (Hloop n).
Qed.

(** (C29) The chain need not end: on this disk a turn of the loop leads from its
    state to the same state, so that no number of turns is enough, and the
    start of the system never comes to an end. *)
Theorem ebr_cycle_never_ends :
  ebr_turn (disk cyclic_sectors) 2 cyclic_dev cyclic_state = Some (Next cyclic_state) ∧
  ∀ fuel, handle_device (disk cyclic_sectors) fuel tt [] (replicate (Z.to_nat 0x1000) 0)
            (blank 0x10000 512 tt) = None.
Proof.
  split; [exact cyclic_turn|]. intros fuel. unfold handle_device, scan_device.
  change ((blank 0x10000 512 tt).[0]) with (Some cyclic_dev). cbn [mbind option_bind].
  assert (read_sector (disk cyclic_sectors) tt cyclic_dev (replicate (Z.to_nat 0x1000) 0) 1
    = Some (tt, DE_SUCCESS, replicate (Z.to_nat 0x1000) 0)) as -> by (vm_compute; reflexivity).
  cbn [mbind option_bind]. rewrite decide_False by (intros H; by apply H).
  rewrite decide_False by (vm_compute; discriminate).
  assert (read_sector (disk cyclic_sectors) tt cyclic_dev (replicate (Z.to_nat 0x1000) 0) 0
    = Some (tt, DE_SUCCESS, cyclic_buffer)) as -> by (vm_compute; reflexivity).
  cbn [mbind option_bind]. rewrite decide_False by (intros H; by apply H).
  unfold handle_legacy.
  change ((blank 0x10000 512 tt).[0]) with (Some cyclic_dev). cbn [mbind option_bind].
  assert (read_legacy_table cyclic_buffer false
    = Some (Some [LegacyEntry 0 5 ((0, 0, 1), (0, 0, 1)) 2 10; no_entry; no_entry; no_entry])) as ->
    by (vm_compute; reflexivity).
  cbn [mbind option_bind].
  assert (primary [LegacyEntry 0 5 ((0, 0, 1), (0, 0, 1)) 2 10; no_entry; no_entry; no_entry] 0
    (hp_size cyclic_dev) (blank 0x10000 512 tt) None = Some (Some (blank 0x10000 512 tt, Some 2))) as ->
    by (vm_compute; reflexivity).
  cbn [mbind option_bind]. by rewrite cyclic_loop.
Qed.
