(* ===== verification/Coff.v ===== *)
(** The loader of executables: kernel/misc/coff.c, and the relocation routine
    of kernel/lib/a64/coff.asm (64-bit build).

    The memory of the task is a map from addresses to bytes; an access to an
    address that is not in it is [None].  The file and the paging component are
    arguments: the answers of the [k]-th [n_read] and of the [k]-th
    [pg_map_user].  Theorems: whatever the file holds, the loader accesses
    mapped memory only and changes nothing outside of the user's addresses; a
    loaded program starts in its text section; a program without relocations
    is in memory byte by byte as it is in the file. *)

From S2P Require Import Prelude Errors.
From stdpp Require Import gmap.
#[local] Open Scope Z_scope.

(** ** Memory *)

Abbreviation mem := (gmap Z Z).

(** A little-endian number of [n] bytes. *)
Fixpoint ld (n : nat) (m : mem) (a : Z) : option Z :=
  match n with
  | O => Some 0
  | S n' => b ← m !! a; r ← ld n' m (a + 1); Some (b + 256 * r)
  end.

Fixpoint st (n : nat) (m : mem) (a v : Z) : option mem :=
  match n with
  | O => Some m
  | S n' =>
      match m !! a with
      | Some _ => st n' (<[a := v mod 256]> m) (a + 1) (v / 256)
      | None => None
      end
  end.

(** The bytes of a list, as [n_read] and [memset] write them. *)
Fixpoint st_bytes (m : mem) (a : Z) (l : list Z) : option mem :=
  match l with
  | [] => Some m
  | b :: l =>
      match m !! a with
      | Some _ => st_bytes (<[a := b]> m) (a + 1) l
      | None => None
      end
  end.

Fixpoint ld_bytes (n : nat) (m : mem) (a : Z) : option (list Z) :=
  match n with
  | O => Some []
  | S n' => b ← m !! a; l ← ld_bytes n' m (a + 1); Some (b :: l)
  end.

(** New memory, cleared. *)
Fixpoint map_zero (n : nat) (m : mem) (a : Z) : mem :=
  match n with
  | O => m
  | S n' => <[a := 0]> (map_zero n' m (a + 1))
  end.

(** ** The outside *)

Record world := World {
  has_cr3 : bool;
  pg_map_success : nat → Z → Z → bool;
  n_read : nat → Z → Z → de_error * Z * list Z }.

(** ** Data *)

(** What the code keeps of each of .text, .rdata and .data (and the size and
    address of .bss). *)
Record section := Section_ {
  vaddr : Z;
  size : Z;
  aligned_size : Z;
  sec : Z;
  rel : Z;
  nrel : Z;
  rel_size : Z;
  stack_vaddr : Z }.

Record coff := Coff {
  text : section;
  rdata : section;
  data : section;
  bss_vaddr : Z;
  bss_aligned_size : Z;
  symbol_vaddr : Z;
  symbol_table : Z;
  symbol_count : Z;
  stack_aligned_size : Z }.

(** ** Computations

    A computation has the memory as its state.  It ends early with an error
    code; [Halt] is the endless loop of the relocation routine, which the code
    never leaves: not an ending of it. *)

Inductive stop := Error (r : de_error) | Halt.

Definition M (A : Type) : Type := mem → option (mem * (stop + A)).

Definition ret {A} (x : A) : M A := λ m, Some (m, inr x).
Definition fail {A} (r : de_error) : M A := λ m, Some (m, inl (Error r)).
Definition halt {A} : M A := λ m, Some (m, inl Halt).

Definition bind {A B} (x : M A) (f : A → M B) : M B := λ m,
  match x m with
  | None => None
  | Some (m, inl e) => Some (m, inl e)
  | Some (m, inr a) => f a m
  end.

Notation "'let?' p := x 'in' k" := (bind x (λ p, k))
  (at level 10, p pattern, x at level 100, k at level 200) : c_scope.
Notation "'do?' x 'in' k" := (bind x (λ _, k))
  (at level 10, x at level 100, k at level 200) : c_scope.

(** Accesses to memory. *)
Definition load (n : nat) (a : Z) : M Z := λ m, x ← ld n m a; Some (m, inr x).
Definition loads (n : nat) (a : Z) : M (list Z) := λ m, l ← ld_bytes n m a; Some (m, inr l).
Definition store (n : nat) (a v : Z) : M unit := λ m, m ← st n m a v; Some (m, inr tt).
Definition stores (a : Z) (l : list Z) : M unit := λ m, m ← st_bytes m a l; Some (m, inr tt).

Definition check (b : bool) (r : de_error) : M unit := if b then ret tt else fail r.

(** [pg_map_user], with the answer that is not NULL or not. *)
Definition pg_map_user (w : world) (k : nat) (vaddr size : Z) : M bool := λ m,
  if (size =? 0) || (vaddr <? 0x10000000) then Some (m, inr false)
  else if negb (pg_map_success w k vaddr size) then Some (m, inr false)
  else
    let vaddr_beg := Z.ldiff vaddr 0x0FFF in
    let vaddr_end := Z.ldiff (vaddr + size + 0x0FFF) 0x0FFF in
    Some (map_zero (Z.to_nat (vaddr_end - vaddr_beg)) m vaddr_beg, inr true).

(** ** The header *)

Definition coff_native_signature : Z := 0x8664.

(** "__start" and the null byte *)
Definition coff_start : list Z := [95; 95; 115; 116; 97; 114; 116; 0].

(** ".text", ".rdata", ".data" and ".bss" with their null bytes *)
Definition name_text : list Z := [46; 116; 101; 120; 116; 0].
Definition name_rdata : list Z := [46; 114; 100; 97; 116; 97; 0].
Definition name_data : list Z := [46; 100; 97; 116; 97; 0].
Definition name_bss : list Z := [46; 98; 115; 115; 0].

(** [memcmp] with a constant: equal? *)
Definition same_bytes (a : Z) (l : list Z) : M bool :=
  let? x := loads (length l) a in ret (bool_decide (x = l)).

Definition check_name (a : Z) (l : list Z) : M unit :=
  let? same := same_bytes a l in check same DE_COFF_SECTION.

Definition check_flags (a flags : Z) : M unit :=
  let? x := load 4 a in check (Z.land x 0xFF0FFFFF =? flags) DE_COFF_FLAG.

Definition coff_validate (obj : Z) : M unit :=
  let? signature := load 2 obj in
  do? check (signature =? coff_native_signature) DE_COFF_SIGNATURE in
  let? sections := load 2 (obj + 2) in
  do? check (sections =? 4) DE_COFF_SECTION in
  let? b16 := load 1 (obj + 16) in
  do? check (b16 =? 0) DE_COFF_HEADER in
  let? b17 := load 1 (obj + 17) in
  do? check (b17 =? 0) DE_COFF_HEADER in
  do? check_name (obj + 20) name_text in
  do? check_name (obj + 60) name_rdata in
  do? check_name (obj + 100) name_data in
  do? check_name (obj + 140) name_bss in
  do? check_flags (obj + (20 + 36)) 0x60000020 in
  do? check_flags (obj + (60 + 36)) 0x40000040 in
  do? check_flags (obj + (100 + 36)) 0xC0000040 in
  check_flags (obj + (140 + 36)) 0xC0000080.

(** The size, the file positions and the number of relocations of section
    [i]. *)
Definition read_section (obj i : Z) : M section :=
  let? size := load 4 (obj + (20 + i * 40 + 16)) in
  let? sec := load 4 (obj + (20 + i * 40 + 20)) in
  let? rel := load 4 (obj + (20 + i * 40 + 24)) in
  let? nrel := load 2 (obj + (20 + i * 40 + 32)) in
  ret (Section_ 0 size 0 sec rel nrel 0 0).

Definition align (x : Z) : Z := Z.ldiff (x + 0x0FFF) 0x0FFF.

Definition with_sizes (s : section) : section :=
  Section_ (vaddr s) (size s) (align (size s)) (sec s) (rel s) (nrel s) (nrel s * 10) (stack_vaddr s).

(** The sizes of the sections and of the stack, which holds the relocations
    and the symbols for a while. *)
Definition section_sizes (text rdata data bss : section) (symbol_table symbol_count : Z) : M coff :=
  let bss_aligned := if align (size bss) =? 0 then 0x1000 else align (size bss) in
  let total_size := align (size text) + align (size rdata) + align (size data) + bss_aligned in
  do? check (total_size <=? 0x60000000) DE_COFF_SIZE in
  let stack_size :=
    0x1000 + symbol_count * 18 + nrel text * 10 + nrel rdata * 10 + nrel data * 10 in
  let stack_aligned := align stack_size in
  do? check (0x1000 <? stack_aligned) DE_UNEXPECTED in
  do? check (stack_aligned <=? 0x08000000) DE_COFF_SIZE in
  ret (Coff (with_sizes text) (with_sizes rdata) (with_sizes data)
            0 bss_aligned 0 symbol_table symbol_count stack_aligned).

Definition read_header (obj : Z) : M coff :=
  let? symbol_table := load 4 (obj + 8) in
  let? symbol_count := load 4 (obj + 12) in
  do? check (4 <=? symbol_count) DE_COFF_SYMBOL in
  let? text := read_section obj 0 in
  let? rdata := read_section obj 1 in
  let? data := read_section obj 2 in
  let? bss := read_section obj 3 in
  do? check ((sec bss =? 0) && (rel bss =? 0) && (nrel bss =? 0)) DE_COFF_SECTION in
  section_sizes text rdata data bss symbol_table symbol_count.

(** ** Memory for the program *)

(** One mapping: the address, 0 for an empty one. *)
Definition map_section (w : world) (k : nat) (vaddr aligned : Z) : M Z :=
  if aligned =? 0 then ret 0
  else
    let? mapped := pg_map_user w k vaddr aligned in
    do? check mapped DE_MEMORY in
    ret vaddr.

Definition place (s : section) (vaddr stack_vaddr : Z) : section :=
  Section_ vaddr (size s) (aligned_size s) (sec s) (rel s) (nrel s) (rel_size s) stack_vaddr.

Definition coff_allocate (w : world) (c : coff) : M coff :=
  let stack0 := 0x80000000 - stack_aligned_size c in
  do? map_section w 1 stack0 (stack_aligned_size c - 0x1000) in
  do? check (0x78000000 <=? stack0) DE_UNEXPECTED in
  let stack1 := stack0 + rel_size (text c) in
  let stack2 := stack1 + rel_size (rdata c) in
  let stack3 := stack2 + rel_size (data c) in
  let vaddr := 0x10000000 in
  let? text_vaddr := map_section w 2 vaddr (aligned_size (text c)) in
  let vaddr := vaddr + aligned_size (text c) in
  let? rdata_vaddr := map_section w 3 vaddr (aligned_size (rdata c)) in
  let vaddr := vaddr + aligned_size (rdata c) in
  let? data_vaddr := map_section w 4 vaddr (aligned_size (data c)) in
  let vaddr := vaddr + aligned_size (data c) in
  let? bss_vaddr := map_section w 5 vaddr (bss_aligned_size c) in
  let vaddr := vaddr + bss_aligned_size c in
  do? check (vaddr <? 0x78000000) DE_UNEXPECTED in
  ret (Coff (place (text c) text_vaddr stack0) (place (rdata c) rdata_vaddr stack1)
            (place (data c) data_vaddr stack2) bss_vaddr (bss_aligned_size c) stack3
            (symbol_table c) (symbol_count c) (stack_aligned_size c)).

(** ** Reading *)

(** [n_read] into memory: the code and the number of bytes. *)
Definition read_file (w : world) (k : nat) (offset size vaddr : Z) : M (de_error * Z) :=
  let '(r, s, bytes) := n_read w k offset size in
  do? stores vaddr bytes in ret (r, s).

Definition coff_copy (w : world) (k : nat) (offset size vaddr : Z) : M unit :=
  let? (r, s) := read_file w k offset size vaddr in
  do? check (bool_decide (r = DE_SUCCESS)) r in
  check (s =? size) DE_COFF_FORMAT.

(** A part of the file that may be empty. *)
Definition copy_part (w : world) (k : nat) (offset size vaddr : Z) : M unit :=
  if size =? 0 then ret tt else coff_copy w k offset size vaddr.

Definition copy_file (w : world) (c : coff) : M unit :=
  do? copy_part w 1 (sec (text c)) (size (text c)) (vaddr (text c)) in
  do? copy_part w 2 (sec (rdata c)) (size (rdata c)) (vaddr (rdata c)) in
  do? copy_part w 3 (sec (data c)) (size (data c)) (vaddr (data c)) in
  do? copy_part w 4 (rel (text c)) (rel_size (text c)) (stack_vaddr (text c)) in
  do? copy_part w 5 (rel (rdata c)) (rel_size (rdata c)) (stack_vaddr (rdata c)) in
  do? copy_part w 6 (rel (data c)) (rel_size (data c)) (stack_vaddr (data c)) in
  coff_copy w 7 (symbol_table c) (u32 (symbol_count c * 18)) (symbol_vaddr c).

(** ** Symbols *)

(** The value of a symbol, and the start address after it. *)
Definition symbol_value (c : coff) (st_ start val section_number : Z) : M (Z * Z) :=
  if section_number =? 1 then
    let val := val + vaddr (text c) in
    let? class := load 1 (st_ + 16) in
    if (start =? 0) && (class =? 2) then
      let? same := same_bytes st_ coff_start in
      ret (val, if same : bool then val else start)
    else ret (val, start)
  else if section_number =? 2 then ret (val + vaddr (rdata c), start)
  else if section_number =? 3 then ret (val + vaddr (data c), start)
  else if section_number =? 4 then ret (val + bss_vaddr c, start)
  else ret (val, start).

(** [n] symbols from [st_] on. *)
Fixpoint symbols (n : nat) (c : coff) (st_ start : Z) : M Z :=
  match n with
  | O => ret start
  | S n' =>
      let? val := load 4 (st_ + 8) in
      let? section_number := load 2 (st_ + 12) in
      let? aux := load 1 (st_ + 17) in
      do? check (aux =? 0) DE_COFF_SYMBOL in
      do? check (negb (section_number =? 0)) DE_COFF_EXTERNAL in
      let? (val, start) := symbol_value c st_ start val section_number in
      do? store 4 (st_ + 8) val in
      symbols n' c (st_ + 18) start
  end.

(** ** Relocation *)

(** "add [edi], eax" for 4 bytes *)
Definition add32 (edi eax : Z) : M unit :=
  let? x := load 4 edi in store 4 edi (u32 (x + eax)).

(** [coff_relocate] of coff.asm; an unknown type ends in an endless loop. *)
Definition coff_relocate (base reloc symbol : Z) : M unit :=
  let? eax := load 4 (symbol + 8) in
  let? v := load 4 reloc in
  let edi := u32 (u32 base + v) in
  let? ecx := load 2 (reloc + 8) in
  if ecx =? 0 then ret tt
  else if ecx =? 1 then let? x := load 8 edi in store 8 edi (u64 (x + eax))
  else if ecx =? 2 then add32 edi eax
  else if ecx =? 3 then add32 edi (u32 (eax - u32 base))
  else if ecx <=? 9 then add32 edi (u32 (eax - u32 (edi + ecx)))
  else halt.

(** The relocations of one section, [n] of them from [reloc] on. *)
Fixpoint relocate (n : nat) (c : coff) (s : section) (reloc : Z) : M unit :=
  match n with
  | O => ret tt
  | S n' =>
      let? st_v := load 4 reloc in
      let? st_i := load 4 (reloc + 4) in
      do? check (st_v <? size s) DE_COFF_RELOCATION in
      do? check (st_i <? symbol_count c) DE_COFF_RELOCATION in
      do? coff_relocate (vaddr s) reloc (symbol_vaddr c + u32 (st_i * 18)) in
      relocate n' c s (reloc + 10)
  end.

Definition relocate_section (c : coff) (s : section) : M unit :=
  relocate (Z.to_nat (nrel s)) c s (stack_vaddr s).

(** ** The whole loader *)

(** The check of the start address and the clearing of the stack. *)
Definition coff_finish (c : coff) (start_addr : Z) : M unit :=
  do? check ((0x10000000 <=? start_addr) && (vaddr (text c) <=? start_addr)) DE_COFF_START in
  do? check (start_addr <? vaddr (text c) + size (text c)) DE_COFF_START in
  stores (stack_vaddr (text c)) (replicate (Z.to_nat (stack_aligned_size c)) 0).

(** The header of the file, checked. *)
Definition coff_open (w : world) (obj : Z) : M coff :=
  do? check (has_cr3 w) DE_UNINITIALIZED in
  let? mapped := pg_map_user w 0 obj 0x1000 in
  do? check mapped DE_MEMORY in
  let? (r, size) := read_file w 0 0 180 obj in
  do? check (bool_decide (r = DE_SUCCESS)) r in
  do? check (size =? 180) DE_COFF_SIZE in
  do? coff_validate obj in
  read_header obj.

(** The start address of the loaded program. *)
Definition coff_load_executable (w : world) : M Z :=
  let? c := coff_open w 0x7FFFF000 in
  let? c := coff_allocate w c in
  do? copy_file w c in
  let? start_addr := symbols (Z.to_nat (symbol_count c)) c (symbol_vaddr c) 0 in
  do? relocate_section c (text c) in
  do? relocate_section c (rdata c) in
  do? relocate_section c (data c) in
  do? coff_finish c start_addr in
  ret start_addr.

(** ** Memory that is kept *)

(** The addresses of user programs. *)
Definition user (a : Z) : Prop := 0x10000000 ≤ a < 0x80000000.

Definition mem_bytes (m : mem) : Prop := ∀ a b, m !! a = Some b → is_byte b.
Definition mapped (lo hi : Z) (m : mem) : Prop := ∀ a, lo ≤ a < hi → is_Some (m !! a).

(** A change of the memory that writes within [W] only and unmaps nothing. *)
Record step (W : Z → Prop) (m m' : mem) : Prop := {
  step_kept : ∀ a, is_Some (m !! a) → is_Some (m' !! a);
  step_same : ∀ a, ¬ W a → m' !! a = m !! a;
  step_bytes : mem_bytes m → mem_bytes m' }.

Lemma step_refl W m : step W m m.
Proof. by constructor. Qed.

Lemma step_trans W m1 m2 m3 : step W m1 m2 → step W m2 m3 → step W m1 m3.
Proof.
  intros [K1 S1 B1] [K2 S2 B2]. constructor; [by auto| |by auto].
  intros a Ha. rewrite S2 by done. by apply S1.
Qed.

Lemma step_weaken (W W' : Z → Prop) m m' : (∀ a, W a → W' a) → step W m m' → step W' m m'.
Proof. intros HW [K Sm B]. constructor; [done| |done]. intros a Ha. apply Sm. auto. Qed.

Lemma mapped_step W lo hi m m' : step W m m' → mapped lo hi m → mapped lo hi m'.
Proof. intros Hs Hm a Ha. apply (step_kept _ _ _ Hs). by apply Hm. Qed.

Lemma mapped_sub lo hi lo' hi' m : mapped lo hi m → lo ≤ lo' → hi' ≤ hi → mapped lo' hi' m.
Proof. intros Hm H1 H2 a Ha. apply Hm. lia. Qed.

Lemma mapped_app lo mid hi m : mapped lo mid m → mapped mid hi m → mapped lo hi m.
Proof. intros H1 H2 a Ha. destruct (Z.lt_ge_cases a mid); [apply H1|apply H2]; lia. Qed.

(** ** Accesses *)

Lemma ld_spec n m a :
  mem_bytes m → mapped a (a + Z.of_nat n) m → ∃ v, ld n m a = Some v ∧ 0 ≤ v < 256 ^ Z.of_nat n.
Proof.
  intros Hb. revert a. induction n as [|n IH]; intros a Hm; cbn [ld].
  { exists 0. split; [done|]. cbn. lia. }
  destruct (Hm a ltac:(lia)) as [b Hx]. rewrite Hx. cbn [mbind option_bind].
  destruct (IH (a + 1)) as (r & -> & Hr); [intros c Hc; apply Hm; lia|].
  cbn [mbind option_bind]. eexists. split; [done|]. pose proof (Hb _ _ Hx) as Hbyte.
  unfold is_byte in Hbyte. rewrite Nat2Z.inj_succ, Z.pow_succ_r by lia. lia.
Qed.

Lemma ld_bytes_spec n m a :
  mapped a (a + Z.of_nat n) m → ∃ l, ld_bytes n m a = Some l.
Proof.
  revert a. induction n as [|n IH]; intros a Hm; cbn [ld_bytes]; [by eexists|].
  destruct (Hm a ltac:(lia)) as [b ->]. cbn [mbind option_bind].
  destruct (IH (a + 1)) as (l & ->); [intros c Hc; apply Hm; lia|]. by eexists.
Qed.

Lemma insert_step (W : Z → Prop) (m : mem) a v : W a → is_byte v → step W m (<[a := v]> m).
Proof.
  intros Ha Hv. constructor.
  - intros c Hc. destruct (decide (c = a)) as [->|Hne];
      [rewrite lookup_insert_eq; by eexists|by rewrite lookup_insert_ne].
  - intros c Hc. rewrite lookup_insert_ne; [done|]. by intros ->.
  - intros Hb c x Hx. apply lookup_insert_Some in Hx as [[_ <-]|[_ Hx]]; [done|by apply (Hb c)].
Qed.

Lemma st_bytes_spec (W : Z → Prop) m a l :
  mapped a (a + Z.of_nat (length l)) m → Forall is_byte l →
  (∀ c, a ≤ c < a + Z.of_nat (length l) → W c) →
  ∃ m', st_bytes m a l = Some m' ∧ step W m m' ∧
    ∀ c, m' !! c = if bool_decide (a ≤ c < a + Z.of_nat (length l)) then l !! Z.to_nat (c - a) else m !! c.
Proof.
  revert m a. induction l as [|b l IH]; intros m a Hm Hl HW; cbn [st_bytes].
  { exists m. split; [done|]. split; [apply step_refl|]. intros c. cbn [length].
    by rewrite bool_decide_eq_false_2 by lia. }
  cbn [length] in *. destruct (Hm a ltac:(lia)) as [x Hx]. rewrite Hx.
  apply Forall_cons_1 in Hl as [Hb Hl].
  pose proof (insert_step W m a b (HW a ltac:(lia)) Hb) as Hs.
  destruct (IH (<[a := b]> m) (a + 1)) as (m' & -> & Hs' & Hlook).
  - apply (mapped_step _ _ _ _ _ Hs). intros c Hc. apply Hm. lia.
  - done.
  - intros c Hc. apply HW. lia.
  - exists m'. split; [done|]. split; [by apply (step_trans _ _ _ _ Hs)|]. intros c. rewrite Hlook.
    destruct (decide (c = a)) as [->|Hne].
    + rewrite bool_decide_eq_false_2, bool_decide_eq_true_2, Z.sub_diag by lia.
      by rewrite lookup_insert_eq.
    + destruct (bool_decide_reflect (a + 1 ≤ c < a + 1 + Z.of_nat (length l))) as [Hc|Hc].
      * rewrite bool_decide_eq_true_2 by lia.
        replace (Z.to_nat (c - a)) with (S (Z.to_nat (c - (a + 1)))) by lia. done.
      * rewrite bool_decide_eq_false_2 by lia. by rewrite lookup_insert_ne.
Qed.

Lemma st_spec (W : Z → Prop) n m a v :
  mapped a (a + Z.of_nat n) m → (∀ c, a ≤ c < a + Z.of_nat n → W c) →
  ∃ m', st n m a v = Some m' ∧ step W m m'.
Proof.
  revert m a v. induction n as [|n IH]; intros m a v Hm HW; cbn [st].
  { exists m. split; [done|apply step_refl]. }
  destruct (Hm a ltac:(lia)) as [x ->].
  assert (Hs : step W m (<[a := v mod 256]> m)).
  { apply insert_step; [apply HW; lia|]. unfold is_byte. dlia. }
  destruct (IH (<[a := v mod 256]> m) (a + 1) (v / 256)) as (m' & -> & Hs').
  - apply (mapped_step _ _ _ _ _ Hs). intros c Hc. apply Hm. lia.
  - intros c Hc. apply HW. lia.
  - exists m'. split; [done|]. by apply (step_trans _ _ _ _ Hs).
Qed.

Lemma map_zero_spec (W : Z → Prop) n m a :
  (∀ c, a ≤ c < a + Z.of_nat n → W c) →
  step W m (map_zero n m a) ∧
  ∀ c, map_zero n m a !! c = if bool_decide (a ≤ c < a + Z.of_nat n) then Some 0 else m !! c.
Proof.
  revert a. induction n as [|n IH]; intros a HW; cbn [map_zero].
  { split; [apply step_refl|]. intros c. by rewrite bool_decide_eq_false_2 by lia. }
  destruct (IH (a + 1)) as [Hs Hl]; [intros c Hc; apply HW; lia|]. split.
  - apply (step_trans _ _ _ _ Hs). apply insert_step; [apply HW; lia|done].
  - intros c. destruct (decide (c = a)) as [->|Hne].
    + by rewrite lookup_insert_eq, bool_decide_eq_true_2 by lia.
    + rewrite lookup_insert_ne, Hl by done. do 2 case_bool_decide; try done; lia.
Qed.

(** ** Rules for computations

    [wp W x m Q]: [x] from memory [m] has no undefined access, writes within
    [W] only, and its answer and memory satisfy [Q] if it does not stop.  It is
    caught in the endless loop of the relocation routine only when the memory
    holds a relocation of an unknown type. *)

(** A record of the relocation tables, which are in the stack of the program below
    the page of the header: the address, the symbol and the type. *)
Definition unknown_type (m : mem) : Prop :=
  ∃ reloc v i t, 0x78000000 ≤ reloc ∧ reloc + 10 ≤ 0x7FFFF000 ∧
    ld 4 m reloc = Some v ∧ ld 4 m (reloc + 4) = Some i ∧ ld 2 m (reloc + 8) = Some t ∧ 9 < t.

Definition wp {A} (W : Z → Prop) (x : M A) (m : mem) (Q : A → mem → Prop) : Prop :=
  ∃ m' r, x m = Some (m', r) ∧ step W m m' ∧
    match r with inr a => Q a m' | inl (Error _) => True | inl Halt => unknown_type m' end.

Section Rules.
Context (W : Z → Prop).
Implicit Types (m : mem).

Lemma run_ret {A} (a : A) m (Q : A → mem → Prop) : Q a m → wp W (ret a) m Q.
Proof. intros HQ. exists m, (inr a). split; [done|]. split; [apply step_refl|done]. Qed.

Lemma wp_halt {A} m (Q : A → mem → Prop) : unknown_type m → wp W halt m Q.
Proof. intros Hu. exists m, (inl Halt). split; [done|]. split; [apply step_refl|done]. Qed.

Lemma run_bind {A B} (x : M A) (f : A → M B) m (Q : B → mem → Prop) :
  wp W x m (λ a m', step W m m' → wp W (f a) m' Q) → wp W (bind x f) m Q.
Proof.
  intros (m1 & r & Hx & Hs & Hr). unfold wp, bind. rewrite Hx.
  destruct r as [e|a]; [by exists m1, (inl e)|].
  destruct (Hr Hs) as (m2 & r & Hf & Hs2 & Hpost). exists m2, r.
  split; [done|]. split; [by apply (step_trans _ _ _ _ Hs)|done].
Qed.

Lemma run_mono {A} (x : M A) m (Q Q' : A → mem → Prop) :
  wp W x m Q → (∀ a m', step W m m' → Q a m' → Q' a m') → wp W x m Q'.
Proof.
  intros (m' & r & Hx & Hs & Hr) HQ. exists m', r. split; [done|]. split; [done|].
  destruct r; [done|by apply HQ].
Qed.

Lemma wp_check b r m (Q : unit → mem → Prop) : (b = true → Q tt m) → wp W (check b r) m Q.
Proof.
  intros HQ. destruct b; [by apply run_ret, HQ|].
  exists m, (inl (Error r)). split; [done|]. split; [apply step_refl|done].
Qed.

Lemma wp_load n a m (Q : Z → mem → Prop) :
  mem_bytes m → mapped a (a + Z.of_nat n) m →
  (∀ v, ld n m a = Some v → 0 ≤ v < 256 ^ Z.of_nat n → Q v m) → wp W (load n a) m Q.
Proof.
  intros Hb Hm HQ. destruct (ld_spec n m a Hb Hm) as (v & Hv & Hr).
  exists m, (inr v). unfold load. rewrite Hv. split; [done|]. split; [apply step_refl|by apply HQ].
Qed.

Lemma wp_same a l m (Q : bool → mem → Prop) :
  mapped a (a + Z.of_nat (length l)) m → (∀ b, Q b m) → wp W (same_bytes a l) m Q.
Proof.
  intros Hm HQ. destruct (ld_bytes_spec _ _ _ Hm) as [x Hx]. apply run_bind.
  exists m, (inr x). unfold loads. rewrite Hx. split; [done|]. split; [apply step_refl|].
  intros _. apply run_ret, HQ.
Qed.

Lemma wp_store n a v m (Q : unit → mem → Prop) :
  mapped a (a + Z.of_nat n) m → (∀ c, a ≤ c < a + Z.of_nat n → W c) →
  (∀ m', step W m m' → Q tt m') → wp W (store n a v) m Q.
Proof.
  intros Hm HW HQ. destruct (st_spec W n m a v Hm HW) as (m' & Hm' & Hs).
  exists m', (inr tt). unfold store. rewrite Hm'. split; [done|]. split; [done|by apply HQ].
Qed.

Lemma wp_stores a l m (Q : unit → mem → Prop) :
  mapped a (a + Z.of_nat (length l)) m → Forall is_byte l →
  (∀ c, a ≤ c < a + Z.of_nat (length l) → W c) →
  (∀ m', step W m m' →
     (∀ c, m' !! c = if bool_decide (a ≤ c < a + Z.of_nat (length l))
                     then l !! Z.to_nat (c - a) else m !! c) → Q tt m') →
  wp W (stores a l) m Q.
Proof.
  intros Hm Hl HW HQ. destruct (st_bytes_spec W m a l Hm Hl HW) as (m' & Hm' & Hs & Hlook).
  exists m', (inr tt). unfold stores. rewrite Hm'. split; [done|]. split; [done|by apply HQ].
Qed.
End Rules.

Lemma wp_weaken {A} (W W' : Z → Prop) (x : M A) m Q :
  (∀ a, W a → W' a) → wp W x m Q → wp W' x m Q.
Proof.
  intros HW (m' & r & Hx & Hs & Hr). exists m', r. split; [done|].
  split; [by apply (step_weaken W)|done].
Qed.

(** ** The header *)

(** The file answers at most the bytes that were asked for. *)
Definition file_ok (w : world) : Prop :=
  ∀ k offset size r s l, 0 ≤ size → n_read w k offset size = (r, s, l) →
    Z.of_nat (length l) ≤ size ∧ Forall is_byte l.

Definition obj_page : Z := 0x7FFFF000.

(** The memory around a header at [obj_page]. *)
Definition header_mem (m : mem) : Prop := mem_bytes m ∧ mapped obj_page 0x80000000 m.

Lemma header_load W n o m (Q : Z → mem → Prop) :
  header_mem m → 0 ≤ o → o + Z.of_nat n ≤ 0x1000 →
  (∀ v, ld n m (obj_page + o) = Some v → 0 ≤ v < 256 ^ Z.of_nat n → Q v m) →
  wp W (load n (obj_page + o)) m Q.
Proof.
  intros [Hb Hm] H0 Hn HQ. apply wp_load; [done| |done].
  apply (mapped_sub _ _ _ _ _ Hm); unfold obj_page; lia.
Qed.

Lemma header_name W o l m :
  header_mem m → 0 ≤ o → o + Z.of_nat (length l) ≤ 0x1000 →
  wp W (check_name (obj_page + o) l) m (λ _ m', m' = m).
Proof.
  intros [Hb Hm] H0 Hn. apply run_bind, wp_same.
  - apply (mapped_sub _ _ _ _ _ Hm); unfold obj_page; lia.
  - intros b _. by apply wp_check.
Qed.

Lemma header_flags W o flags m :
  header_mem m → 0 ≤ o → o + 4 ≤ 0x1000 →
  wp W (check_flags (obj_page + o) flags) m (λ _ m', m' = m).
Proof.
  intros Hm H0 Hn. apply run_bind, header_load; [done..|]. intros v _ _ _. by apply wp_check.
Qed.

(** One step of a computation that reads the header only. *)
Ltac header_step :=
  match goal with
  | |- wp _ (bind (load _ obj_page) _) _ _ =>
      rewrite <- (Z.add_0_r obj_page); apply run_bind, header_load;
        [done|lia|cbn; lia|intros ? ? ? _]
  | |- wp _ (bind (load _ _) _) _ _ =>
      apply run_bind, header_load; [done|lia|cbn; lia|intros ? ? ? _]
  | |- wp _ (bind (check _ _) _) _ _ => apply run_bind, wp_check; intros ? _
  | |- wp _ (bind (check_name _ _) _) _ _ =>
      apply run_bind; eapply run_mono; [apply header_name; [done|lia|cbn; lia]|intros ? ? _ -> _]
  | |- wp _ (bind (check_flags _ _) _) _ _ =>
      apply run_bind; eapply run_mono; [apply header_flags; [done|lia|lia]|intros ? ? _ -> _]
  end.

Lemma coff_validate_spec W m :
  header_mem m → wp W (coff_validate obj_page) m (λ _ m', m' = m).
Proof. intros Hm. unfold coff_validate. repeat header_step. by apply header_flags. Qed.

(** What a section header holds. *)
Record section_at (m : mem) (i : Z) (s : section) : Prop := {
  at_size : ld 4 m (obj_page + (20 + i * 40 + 16)) = Some (size s);
  at_sec : ld 4 m (obj_page + (20 + i * 40 + 20)) = Some (sec s);
  at_nrel : ld 2 m (obj_page + (20 + i * 40 + 32)) = Some (nrel s);
  at_size_range : 0 ≤ size s < 2 ^ 32;
  at_nrel_range : 0 ≤ nrel s < 2 ^ 16;
  at_vaddr : vaddr s = 0 }.

Lemma section_read_spec W m i :
  header_mem m → 0 ≤ i < 4 →
  wp W (read_section obj_page i) m (λ s m', m' = m ∧ section_at m i s).
Proof.
  intros Hm Hi. unfold read_section. repeat header_step. apply run_ret. split; [done|].
  by constructor.
Qed.

Lemma align_spec x : align x mod 0x1000 = 0 ∧ x ≤ align x < x + 0x1000.
Proof.
  unfold align. change 0x0FFF with (2 ^ 12 - 1). rewrite Z.ldiff_land.
  assert (H : ∀ y, Z.land y (Z.lnot (2 ^ 12 - 1)) = y - y mod 2 ^ 12).
  { intros y. rewrite <- Z.ldiff_land. change (2 ^ 12 - 1) with (Z.ones 12).
    rewrite Z.ldiff_ones_r, Z.shiftl_mul_pow2, Z.shiftr_div_pow2 by lia. dlia. }
  rewrite H. change (2 ^ 12) with 0x1000. change (0x1000 - 1) with 0x0FFF. dlia.
Qed.

(** The sizes that a valid header has. *)
Definition sizes_ok (s : section) : Prop :=
  0 ≤ size s ≤ aligned_size s ∧ aligned_size s mod 0x1000 = 0 ∧
  (size s = 0 → aligned_size s = 0) ∧ 0 ≤ nrel s ∧ rel_size s = nrel s * 10.

Record header_ok (m : mem) (c : coff) : Prop := {
  ho_text : ∃ s, section_at m 0 s ∧ text c = with_sizes s;
  ho_rdata : ∃ s, section_at m 1 s ∧ rdata c = with_sizes s;
  ho_data : ∃ s, section_at m 2 s ∧ data c = with_sizes s;
  ho_bss : 0x1000 ≤ bss_aligned_size c ∧ bss_aligned_size c mod 0x1000 = 0;
  ho_total : aligned_size (text c) + aligned_size (rdata c) + aligned_size (data c)
             + bss_aligned_size c ≤ 0x60000000;
  ho_symbols : 0 ≤ symbol_count c;
  ho_stack : stack_aligned_size c ≤ 0x08000000 ∧ stack_aligned_size c mod 0x1000 = 0 ∧
    0x1000 + symbol_count c * 18 + nrel (text c) * 10 + nrel (rdata c) * 10 + nrel (data c) * 10
    ≤ stack_aligned_size c ∧ 0x1000 < stack_aligned_size c }.

Lemma with_sizes_ok m i s : section_at m i s → sizes_ok (with_sizes s).
Proof.
  intros [_ _ _ Hs Hn _]. destruct (align_spec (size s)). unfold sizes_ok, with_sizes; cbn.
  split; [lia|]. split; [done|]. split; [|lia]. intros ->. done.
Qed.

Lemma read_header_spec W m :
  header_mem m → wp W (read_header obj_page) m (λ c m', m' = m ∧ header_ok m c).
Proof.
  intros Hm. unfold read_header. do 3 header_step.
  apply run_bind. eapply run_mono; [apply section_read_spec; [done|lia]|intros tx ? _ [-> Ht] _].
  apply run_bind. eapply run_mono; [apply section_read_spec; [done|lia]|intros rx ? _ [-> Hr] _].
  apply run_bind. eapply run_mono; [apply section_read_spec; [done|lia]|intros dx ? _ [-> Hd] _].
  apply run_bind. eapply run_mono; [apply section_read_spec; [done|lia]|intros bx ? _ [-> Hbss] _].
  header_step. unfold section_sizes. repeat header_step. apply run_ret. split; [done|].
  pose proof (align_spec (size bx)) as [Hba Hbs]. pose proof (at_size_range _ _ _ Hbss).
  set (stack_size := 0x1000 + _ + _ + _ + _) in *. pose proof (align_spec stack_size) as [Hsa Hss].
  rewrite ?Z.leb_le, ?Z.ltb_lt in *.
  constructor; cbn [text rdata data bss_aligned_size symbol_count stack_aligned_size
    with_sizes aligned_size nrel] in *.
  - by exists tx.
  - by exists rx.
  - by exists dx.
  - destruct (Z.eqb_spec (align (size bx)) 0); [done|]. split; [dlia|done].
  - done.
  - lia.
  - split; [lia|]. split; [done|]. split; [unfold stack_size in *; lia|lia].
Qed.

(** ** Opening *)

Lemma wp_map W w k vaddr size m (Q : bool → mem → Prop) :
  Q false m →
  (∀ m', 0x10000000 ≤ vaddr → size ≠ 0 → step W m m' →
     (∀ c, m' !! c = if bool_decide (Z.ldiff vaddr 0x0FFF ≤ c < align (vaddr + size))
                     then Some 0 else m !! c) → Q true m') →
  (∀ c, 0x10000000 ≤ vaddr → Z.ldiff vaddr 0x0FFF ≤ c < align (vaddr + size) → W c) →
  wp W (pg_map_user w k vaddr size) m Q.
Proof.
  intros Hf Ht HW. unfold wp, pg_map_user.
  assert (Hno : ∃ m' r, Some (m, inr false : stop + bool) = Some (m', r) ∧ step W m m' ∧
    match r with inr a => Q a m' | inl (Error _) => True | inl Halt => unknown_type m' end)
    by (exists m, (inr false); split; [done|]; split; [apply step_refl|done]).
  destruct (Z.eqb_spec size 0), (Z.ltb_spec vaddr 0x10000000); cbn [orb]; try exact Hno.
  destruct (negb _); [exact Hno|]. fold (align (vaddr + size)).
  set (beg := Z.ldiff vaddr 0x0FFF) in *. set (end_ := align (vaddr + size)) in *.
  destruct (map_zero_spec W (Z.to_nat (end_ - beg)) m beg) as [Hs Hl].
  { intros c Hc. apply HW; lia. }
  do 2 eexists. split; [done|]. split; [exact Hs|]. apply Ht; try done.
  intros c. rewrite Hl. do 2 case_bool_decide; try done; lia.
Qed.

Lemma wp_read_file W w k offset size vaddr m (Q : de_error * Z → mem → Prop) :
  file_ok w → 0 ≤ size → mapped vaddr (vaddr + size) m → (∀ c, vaddr ≤ c < vaddr + size → W c) →
  (∀ r s l m', n_read w k offset size = (r, s, l) → step W m m' →
     (∀ c, m' !! c = if bool_decide (vaddr ≤ c < vaddr + Z.of_nat (length l))
                     then l !! Z.to_nat (c - vaddr) else m !! c) → Q (r, s) m') →
  wp W (read_file w k offset size vaddr) m Q.
Proof.
  intros Hw H0 Hm HW HQ. unfold read_file. destruct (n_read w k offset size) as [[r s] l] eqn:E.
  pose proof (Hw _ _ _ _ _ _ H0 E) as [Hlen Hby]. apply run_bind, wp_stores; [|done| |].
  - apply (mapped_sub _ _ _ _ _ Hm); lia.
  - intros c Hc. apply HW. lia.
  - intros m' Hs Hl _. apply run_ret. by apply (HQ r s l).
Qed.

Lemma obj_page_aligned : Z.ldiff obj_page 0x0FFF = obj_page ∧ align (obj_page + 0x1000) = 0x80000000.
Proof. done. Qed.

Lemma coff_open_spec w m :
  file_ok w → mem_bytes m →
  wp user (coff_open w obj_page) m (λ c m', header_mem m' ∧ header_ok m' c ∧
    ∃ l, n_read w 0 0 180 = (DE_SUCCESS, 180, l) ∧
      ∀ i, 0 ≤ i < Z.of_nat (length l) → m' !! (obj_page + i) = l !! Z.to_nat i).
Proof.
  intros Hw Hb. unfold coff_open. apply run_bind, wp_check. intros _ _.
  apply run_bind, wp_map; [| |].
  - intros _. apply run_bind, wp_check. done.
  - intros m1 _ _ Hs1 Hl1 _. apply run_bind, wp_check. intros _ _.
    destruct obj_page_aligned as [E1 E2]. rewrite E1, E2 in Hl1.
    assert (Hm1 : mapped obj_page 0x80000000 m1).
    { intros a Ha. rewrite Hl1, bool_decide_eq_true_2 by done. by eexists. }
    apply run_bind, wp_read_file; [done|lia| | |].
    + apply (mapped_sub _ _ _ _ _ Hm1); unfold obj_page; lia.
    + intros c Hc. unfold user, obj_page in *. lia.
    + intros r s l m2 Hread Hs2 Hl2 _. apply run_bind, wp_check. intros Hr%bool_decide_eq_true_1 _.
      apply run_bind, wp_check. intros Hsz%Z.eqb_eq _. subst r s.
      assert (Hh : header_mem m2).
      { split; [by apply (step_bytes _ _ _ Hs2), (step_bytes _ _ _ Hs1)|].
        by apply (mapped_step _ _ _ _ _ Hs2). }
      apply run_bind. eapply run_mono; [by apply coff_validate_spec|]. intros _ ? _ -> _.
      eapply run_mono; [by apply read_header_spec|]. intros c ? _ [-> Hc].
      split; [done|]. split; [done|]. exists l. split; [done|]. intros i Hi.
      rewrite Hl2, bool_decide_eq_true_2 by lia. f_equal. lia.
  - intros c _ Hc. destruct obj_page_aligned as [E1 E2]. rewrite E1, E2 in Hc.
    unfold user, obj_page in *. lia.
Qed.

(** ** The layout of a program *)

(** A section in the image that ends at [hi]; .bss has at least one page behind
    it. *)
Definition placed (hi : Z) (s : section) : Prop :=
  0 ≤ size s ∧
  (size s = 0 ∨ 0x10000000 ≤ vaddr s ∧ vaddr s + aligned_size s + 0x1000 ≤ hi ∧
                size s ≤ aligned_size s).

(** The relocations of a section in the stack of the program, below the
    symbols. *)
Definition stacked (c : coff) (s : section) : Prop :=
  0 ≤ nrel s ∧ rel_size s = nrel s * 10 ∧
  stack_vaddr (text c) ≤ stack_vaddr s ∧ stack_vaddr s + nrel s * 10 ≤ symbol_vaddr c.

Record layout (hi : Z) (c : coff) (m : mem) : Prop := {
  lay_bytes : mem_bytes m;
  lay_image : mapped 0x10000000 hi m;
  lay_hi : hi ≤ 0x70000000;
  lay_text : placed hi (text c) ∧ stacked c (text c);
  lay_rdata : placed hi (rdata c) ∧ stacked c (rdata c);
  lay_data : placed hi (data c) ∧ stacked c (data c);
  lay_apart : (size (rdata c) ≠ 0 → 0x10000000 + size (text c) ≤ vaddr (rdata c)) ∧
    (size (data c) ≠ 0 → 0x10000000 + size (text c) ≤ vaddr (data c));
  lay_symbols : 0 ≤ symbol_count c ∧ symbol_vaddr c + symbol_count c * 18 ≤ obj_page;
  lay_low : 0x78000000 ≤ stack_vaddr (text c);
  lay_top : stack_aligned_size c = 0x80000000 - stack_vaddr (text c);
  lay_stack : mapped (stack_vaddr (text c)) 0x80000000 m }.

Lemma layout_step hi c W m m' : step W m m' → layout hi c m → layout hi c m'.
Proof.
  intros Hs []. constructor; try done.
  - by apply (step_bytes _ _ _ Hs).
  - by apply (mapped_step _ _ _ _ _ Hs).
  - by apply (mapped_step _ _ _ _ _ Hs).
Qed.

Lemma aligned_ldiff x : x mod 0x1000 = 0 → Z.ldiff x 0x0FFF = x ∧ align x = x.
Proof.
  intros Hx. pose proof (align_spec x) as [H1 H2].
  assert (align x = x) as Ha by dlia. split; [|done]. unfold align in Ha.
  change 0x0FFF with (Z.ones 12). rewrite Z.ldiff_ones_r, Z.shiftl_mul_pow2, Z.shiftr_div_pow2 by lia.
  change (2 ^ 12) with 0x1000. dlia.
Qed.

(** One mapping: its pages are cleared, everything else is as it was. *)
Lemma map_section_spec w k a n m :
  a mod 0x1000 = 0 → n mod 0x1000 = 0 → 0 ≤ n → a + n ≤ 0x80000000 →
  wp user (map_section w k a n) m (λ v m',
    (n = 0 ∧ v = 0 ∨ v = a) ∧ (n ≠ 0 → 0x10000000 ≤ a) ∧
    ∀ c, m' !! c = if bool_decide (a ≤ c < a + n) then Some 0 else m !! c).
Proof.
  intros Ha Hn H0 Hle. unfold map_section.
  destruct (aligned_ldiff a Ha) as [E1 _]. destruct (aligned_ldiff (a + n)) as [_ E2]; [dlia|].
  destruct (Z.eqb_spec n 0) as [->|Hne].
  { apply run_ret. split; [by left|]. split; [done|]. intros c.
    by rewrite bool_decide_eq_false_2 by lia. }
  apply run_bind, wp_map.
  - intros _. apply run_bind, wp_check. done.
  - intros m' Hlo _ Hs Hl _. rewrite E1, E2 in Hl. apply run_bind, wp_check. intros _ _.
    apply run_ret. split; [by right|]. by split.
  - rewrite E1, E2. intros c Hlo Hc. unfold user. lia.
Qed.

Lemma mapped_zeroed a n (m m' : mem) :
  (∀ c, m' !! c = if bool_decide (a ≤ c < a + n) then Some 0 else m !! c) → mapped a (a + n) m'.
Proof. intros H c Hc. rewrite H, bool_decide_eq_true_2 by done. by eexists. Qed.

Lemma placed_section hi s v st_ :
  sizes_ok s → (aligned_size s = 0 ∧ v = 0 ∨ 0x10000000 ≤ v ∧ v + aligned_size s + 0x1000 ≤ hi) →
  placed hi (place s v st_).
Proof.
  intros ([H0 Hle] & _ & Hz & _) [[Hn ->]|[Hlo Hhi]]; unfold placed; cbn [size vaddr aligned_size place].
  - split; [done|]. left. lia.
  - split; [done|]. right. lia.
Qed.

(** The addresses that a program gets. *)
Lemma coff_allocate_spec w c m :
  header_mem m → header_ok m c →
  wp user (coff_allocate w c) m (λ c' m', ∃ hi, layout hi c' m' ∧
    (∃ s, section_at m 0 s ∧ size (text c') = size s ∧ sec (text c') = sec s ∧ nrel (text c') = nrel s) ∧
    (∃ s, section_at m 1 s ∧ nrel (rdata c') = nrel s) ∧
    (∃ s, section_at m 2 s ∧ nrel (data c') = nrel s) ∧
    (size (text c') ≠ 0 → vaddr (text c') = 0x10000000)).
Proof.
  intros [Hb Hm] [(ts & Hts & Ht) (rs & Hrs & Hr) (ds & Hds & Hd) [Hbss Hbm] Htot Hsym (Hs1 & Hs2 & Hs3 & Hs4)].
  pose proof (with_sizes_ok _ _ _ Hts) as Hto. pose proof (with_sizes_ok _ _ _ Hrs) as Hro.
  pose proof (with_sizes_ok _ _ _ Hds) as Hdo. rewrite <- Ht in Hto. rewrite <- Hr in Hro. rewrite <- Hd in Hdo.
  pose proof Hto as (Ht1 & Ht2 & Ht3 & Ht4 & Ht5). pose proof Hro as (Hr1 & Hr2 & Hr3 & Hr4 & Hr5).
  pose proof Hdo as (Hd1 & Hd2 & Hd3 & Hd4 & Hd5).
  unfold coff_allocate. set (stack0 := 0x80000000 - stack_aligned_size c).
  assert (Hst0 : stack0 mod 0x1000 = 0) by (unfold stack0; dlia).
  set (ta := aligned_size (text c)) in *. set (ra := aligned_size (rdata c)) in *.
  set (da := aligned_size (data c)) in *. set (ba := bss_aligned_size c) in *.
  apply run_bind. eapply run_mono; [apply map_section_spec; [done|dlia|lia|lia]|].
  intros _ m1 Hk1 (_ & _ & Hl1) _. pose proof (mapped_zeroed _ _ _ _ Hl1) as Hm1.
  apply run_bind, wp_check. intros _ _.
  apply run_bind. eapply run_mono; [apply map_section_spec; [done|done|lia|lia]|].
  intros tv m2 Hk2 (Htv & _ & Hl2) _. pose proof (mapped_zeroed _ _ _ _ Hl2) as Hm2.
  apply run_bind. eapply run_mono; [apply map_section_spec; [dlia|done|lia|lia]|].
  intros rv m3 Hk3 (Hrv & _ & Hl3) _. pose proof (mapped_zeroed _ _ _ _ Hl3) as Hm3.
  apply run_bind. eapply run_mono; [apply map_section_spec; [dlia|done|lia|lia]|].
  intros dv m4 Hk4 (Hdv & _ & Hl4) _. pose proof (mapped_zeroed _ _ _ _ Hl4) as Hm4.
  apply run_bind. eapply run_mono; [apply map_section_spec; [dlia|done|lia|lia]|].
  intros bv m5 Hk5 (_ & _ & Hl5) _. pose proof (mapped_zeroed _ _ _ _ Hl5) as Hm5.
  apply run_bind, wp_check. intros _ _. apply run_ret.
  assert (K45 : step user m1 m5) by (eapply step_trans; [exact Hk2|]; eapply step_trans; [exact Hk3|];
    by eapply step_trans).
  exists (0x10000000 + ta + ra + da + ba). split; [|split; [|split; [|split]]].
  - constructor; cbn [text rdata data symbol_count symbol_vaddr stack_aligned_size place stack_vaddr nrel].
    + apply (step_bytes _ _ _ K45), (step_bytes _ _ _ Hk1), Hb.
    + apply (mapped_app _ (0x10000000 + ta)).
      { apply (mapped_step _ _ _ _ _ Hk5), (mapped_step _ _ _ _ _ Hk4), (mapped_step _ _ _ _ _ Hk3), Hm2. }
      apply (mapped_app _ (0x10000000 + ta + ra)).
      { apply (mapped_step _ _ _ _ _ Hk5), (mapped_step _ _ _ _ _ Hk4), Hm3. }
      apply (mapped_app _ (0x10000000 + ta + ra + da)); [|exact Hm5].
      apply (mapped_step _ _ _ _ _ Hk5), Hm4.
    + lia.
    + split; [apply placed_section; [done|fold ta; lia]|].
      unfold stacked; cbn [nrel rel_size stack_vaddr text symbol_vaddr place]; lia.
    + split; [apply placed_section; [done|fold ra; lia]|].
      unfold stacked; cbn [nrel rel_size stack_vaddr text symbol_vaddr place]; lia.
    + split; [apply placed_section; [done|fold da; lia]|].
      unfold stacked; cbn [nrel rel_size stack_vaddr text symbol_vaddr place]; lia.
    + cbn [size vaddr place]. split; intros Hne; lia.
    + unfold obj_page. lia.
    + lia.
    + unfold stack0. lia.
    + apply (mapped_step _ _ _ _ _ K45). apply (mapped_app _ obj_page).
      * apply (mapped_sub _ _ _ _ _ Hm1); unfold obj_page, stack0; lia.
      * by apply (mapped_step _ _ _ _ _ Hk1).
  - exists ts. rewrite Ht. by cbn.
  - exists rs. rewrite Hr. by cbn.
  - exists ds. rewrite Hd. by cbn.
  - cbn [text place size vaddr]. intros Hne. destruct Htv as [[Hz _]|Hv]; [|done]. lia.
Qed.

(** ** Reading the file *)

Lemma copy_part_spec W w k offset n a m :
  file_ok w → 0 ≤ n → (n ≠ 0 → mapped a (a + n) m ∧ ∀ c, a ≤ c < a + n → W c) →
  wp W (copy_part w k offset n a) m (λ _ m', n ≠ 0 → ∃ l, n_read w k offset n = (DE_SUCCESS, n, l) ∧
    ∀ i, 0 ≤ i < Z.of_nat (length l) → m' !! (a + i) = l !! Z.to_nat i).
Proof.
  intros Hw H0 Hn. unfold copy_part. destruct (Z.eqb_spec n 0) as [->|Hne]; [by apply run_ret|].
  destruct (Hn Hne) as [Hm HW]. apply run_bind, wp_read_file; [done|done|done|done|].
  intros r s l m' Hread _ Hl _. apply run_bind, wp_check. intros Hr%bool_decide_eq_true_1 _.
  apply wp_check. intros Hs%Z.eqb_eq _. subst r s. exists l. split; [done|].
  intros i Hi. rewrite Hl, bool_decide_eq_true_2 by lia. f_equal. lia.
Qed.

(** What the computation may write: the image from [lo] on and the stack. *)
Definition from (lo : Z) (a : Z) : Prop := lo ≤ a < 0x80000000.

Lemma copy_stack_spec w k offset c s hi lo m :
  file_ok w → layout hi c m → stacked c s → lo ≤ 0x78000000 →
  wp (from lo) (copy_part w k offset (rel_size s) (stack_vaddr s)) m (λ _ m', step (from lo) m m').
Proof.
  intros Hw [] (H1 & H2 & H3 & H4) Hlo. unfold obj_page in *.
  assert (Hwp : wp (from lo) (copy_part w k offset (rel_size s) (stack_vaddr s)) m (λ _ _, True)).
  { eapply run_mono; [apply copy_part_spec; [done|lia|]|done]. intros _. split.
    - apply (mapped_sub _ _ _ _ _ lay_stack0); lia.
    - intros x Hx. unfold from. lia. }
  eapply run_mono; [exact Hwp|]. by intros.
Qed.

Lemma copy_section_spec w k c s hi lo m :
  file_ok w → layout hi c m → placed hi s → (size s ≠ 0 → lo ≤ vaddr s) →
  wp (from lo) (copy_part w k (sec s) (size s) (vaddr s)) m
    (λ _ m', step (from lo) m m' ∧ (size s ≠ 0 →
       ∃ l, n_read w k (sec s) (size s) = (DE_SUCCESS, size s, l) ∧
         ∀ i, 0 ≤ i < Z.of_nat (length l) → m' !! (vaddr s + i) = l !! Z.to_nat i)).
Proof.
  intros Hw [] (H0 & Hp) Hlo. eapply run_mono; [apply copy_part_spec; [done|done|]|].
  - intros Hne. destruct Hp as [|(H1 & H2 & H3)]; [done|]. split.
    + apply (mapped_sub _ _ _ _ _ lay_image0); lia.
    + intros x Hx. unfold from. lia.
  - intros u m' Hs Hl. by split.
Qed.

(** ** Symbols *)

Lemma symbol_value_spec W c a start val sn m :
  mem_bytes m → mapped a (a + 18) m →
  wp W (symbol_value c a start val sn) m (λ _ m', m' = m).
Proof.
  intros Hb Hm. unfold symbol_value. destruct (sn =? 1).
  - apply run_bind, wp_load; [done|apply (mapped_sub _ _ _ _ _ Hm); lia|]. intros cl _ _ _.
    destruct (_ && _); [|by apply run_ret].
    apply run_bind, wp_same; [apply (mapped_sub _ _ _ _ _ Hm); cbn; lia|]. intros b _. by apply run_ret.
  - destruct (sn =? 2); [by apply run_ret|]. destruct (sn =? 3); [by apply run_ret|].
    destruct (sn =? 4); by apply run_ret.
Qed.

Lemma symbols_spec n hi c a start lo m :
  layout hi c m → lo ≤ 0x78000000 → stack_vaddr (text c) ≤ a → a + Z.of_nat n * 18 ≤ obj_page →
  wp (from lo) (symbols n c a start) m (λ _ _, True).
Proof.
  intros Hl Hlo. revert a start m Hl.
  induction n as [|n IH]; intros a start m Hl Ha Hn; cbn [symbols]; [by apply run_ret|].
  pose proof (lay_stack _ _ _ Hl) as Hst. pose proof (lay_bytes _ _ _ Hl) as Hb.
  pose proof (lay_low _ _ _ Hl) as Hlow. unfold obj_page in *.
  assert (Hmap : mapped a (a + 18) m) by (apply (mapped_sub _ _ _ _ _ Hst); lia).
  apply run_bind, wp_load; [done|apply (mapped_sub _ _ _ _ _ Hmap); lia|]. intros val _ Hval _.
  apply run_bind, wp_load; [done|apply (mapped_sub _ _ _ _ _ Hmap); lia|]. intros sn _ _ _.
  apply run_bind, wp_load; [done|apply (mapped_sub _ _ _ _ _ Hmap); lia|]. intros aux _ _ _.
  apply run_bind, wp_check. intros _ _. apply run_bind, wp_check. intros _ _.
  apply run_bind. eapply run_mono; [by apply symbol_value_spec|]. intros [v start'] ? _ -> _.
  apply run_bind, wp_store; [apply (mapped_sub _ _ _ _ _ Hmap); lia|intros x Hx; unfold from; lia|].
  intros m' Hs _. apply IH; [by apply (layout_step _ _ _ _ _ Hs)|lia|lia].
Qed.

(** ** Relocation *)

Lemma add32_spec W a eax m :
  mem_bytes m → mapped a (a + 4) m → (∀ c, a ≤ c < a + 4 → W c) →
  wp W (add32 a eax) m (λ _ _, True).
Proof.
  intros Hb Hm HW. apply run_bind, wp_load; [done|done|]. intros v _ _ _. by apply wp_store.
Qed.

(** A relocation changes at most 8 bytes from its target on. *)
Lemma coff_relocate_spec W base reloc symbol m :
  mem_bytes m → mapped reloc (reloc + 10) m → mapped (symbol + 8) (symbol + 12) m →
  0x78000000 ≤ reloc → reloc + 10 ≤ 0x7FFFF000 →
  (∀ v, ld 4 m reloc = Some v → mapped (u32 (u32 base + v)) (u32 (u32 base + v) + 8) m ∧
     ∀ c, u32 (u32 base + v) ≤ c < u32 (u32 base + v) + 8 → W c) →
  wp W (coff_relocate base reloc symbol) m (λ _ _, True).
Proof.
  intros Hb Hr Hs Hlo Hhi Ht. unfold coff_relocate.
  apply run_bind, wp_load; [done|by apply (mapped_sub _ _ _ _ _ Hs); lia|]. intros eax _ _ _.
  apply run_bind, wp_load; [done|by apply (mapped_sub _ _ _ _ _ Hr); lia|]. intros v Hv _ _.
  destruct (Ht v Hv) as [Hm HW]. set (edi := u32 (u32 base + v)) in *.
  apply run_bind, wp_load; [done|by apply (mapped_sub _ _ _ _ _ Hr); lia|]. intros ecx Hecx _ _.
  assert (Hadd : ∀ x, wp W (add32 edi x) m (λ _ _, True)).
  { intros x. apply add32_spec; [done|apply (mapped_sub _ _ _ _ _ Hm); lia|].
    intros c Hc. apply HW. lia. }
  destruct (ecx =? 0); [by apply run_ret|]. destruct (ecx =? 1).
  { apply run_bind, wp_load; [done|done|]. intros x _ _ _. by apply wp_store. }
  destruct (ecx =? 2); [apply Hadd|]. destruct (ecx =? 3); [apply Hadd|].
  destruct (Z.leb_spec ecx 9); [apply Hadd|]. apply wp_halt.
  destruct (ld_spec 4 m (reloc + 4) Hb) as (i & Hi & _); [apply (mapped_sub _ _ _ _ _ Hr); lia|].
  by exists reloc, v, i, ecx.
Qed.

Lemma relocate_spec n hi c s a m :
  layout hi c m → placed hi s → stack_vaddr (text c) ≤ a → a + Z.of_nat n * 10 ≤ symbol_vaddr c →
  wp user (relocate n c s a) m (λ _ _, True).
Proof.
  intros Hl Hp. revert a m Hl. induction n as [|n IH]; intros a m Hl Ha Hn; cbn [relocate].
  { by apply run_ret. }
  pose proof (lay_stack _ _ _ Hl) as Hst. pose proof (lay_bytes _ _ _ Hl) as Hb.
  pose proof (lay_low _ _ _ Hl) as Hlow. pose proof (lay_symbols _ _ _ Hl) as [Hs0 Hs1].
  pose proof (lay_hi _ _ _ Hl) as Hhi. pose proof (lay_image _ _ _ Hl) as Him. unfold obj_page in *.
  assert (Hmap : mapped a (a + 10) m) by (apply (mapped_sub _ _ _ _ _ Hst); lia).
  apply run_bind, wp_load; [done|apply (mapped_sub _ _ _ _ _ Hmap); lia|]. intros v Hv Hvr _.
  apply run_bind, wp_load; [done|apply (mapped_sub _ _ _ _ _ Hmap); lia|]. intros i _ Hir _.
  apply run_bind, wp_check. intros Hv'%Z.ltb_lt _. apply run_bind, wp_check. intros Hi'%Z.ltb_lt _.
  destruct Hp as [H0 [|(Hp1 & Hp2 & Hp3)]]; [lia|].
  apply run_bind. eapply run_mono; [apply coff_relocate_spec; [done|done| |lia|lia|]|].
  - rewrite wrap_small by lia. apply (mapped_sub _ _ _ _ _ Hst); lia.
  - intros v2 Hv2. rewrite Hv2 in Hv. injection Hv as ->.
    rewrite (wrap_small 32 (vaddr s)), wrap_small by lia. split.
    + apply (mapped_sub _ _ _ _ _ Him); lia.
    + intros x Hx. unfold user. lia.
  - intros _ m' Hs _ _. apply IH; [by apply (layout_step _ _ _ _ _ Hs)|lia|lia].
Qed.

Lemma relocate_section_spec hi c s m :
  layout hi c m → placed hi s → stacked c s →
  wp user (relocate_section c s) m (λ _ m', layout hi c m' ∧ (nrel s = 0 → m' = m)).
Proof.
  intros Hl Hp (H1 & H2 & H3 & H4). unfold relocate_section.
  destruct (decide (nrel s = 0)) as [->|Hne].
  { cbn. by apply run_ret. }
  eapply run_mono; [apply (relocate_spec _ hi); [done|done|lia|lia]|].
  intros _ m' Hs _. split; [by apply (layout_step _ _ _ _ _ Hs)|done].
Qed.

(** ** The end *)

Lemma coff_finish_spec hi c start m :
  layout hi c m →
  wp (from 0x78000000) (coff_finish c start) m (λ _ m',
    0x10000000 ≤ start ∧ vaddr (text c) ≤ start < vaddr (text c) + size (text c) ∧
    ∀ a, stack_vaddr (text c) ≤ a < 0x80000000 → m' !! a = Some 0).
Proof.
  intros Hl. pose proof (lay_low _ _ _ Hl) as Hlow. pose proof (lay_top _ _ _ Hl) as Htop.
  pose proof (lay_symbols _ _ _ Hl) as [Hs0 Hs1]. unfold obj_page in *.
  pose proof (lay_text _ _ _ Hl) as (_ & Hk1 & Hk2 & Hk3 & Hk4).
  apply run_bind, wp_check. intros [H1%Z.leb_le H2%Z.leb_le]%andb_prop _.
  apply run_bind, wp_check. intros H3%Z.ltb_lt _.
  apply wp_stores; rewrite ?length_replicate.
  - apply (mapped_sub _ _ _ _ _ (lay_stack _ _ _ Hl)); lia.
  - apply bytes_zeros.
  - intros x Hx. unfold from. lia.
  - intros m' _ Hl'. split; [done|]. split; [done|]. intros a Ha.
    rewrite Hl', bool_decide_eq_true_2 by lia. apply lookup_replicate_2. lia.
Qed.

(** ** The loader *)

Lemma from_user lo a : 0x10000000 ≤ lo → from lo a → user a.
Proof. unfold from, user. lia. Qed.

(** The bytes of the text section, as the file answered them. *)
Definition text_loaded (w : world) (c : coff) (m : mem) : Prop :=
  size (text c) ≠ 0 → ∃ l, n_read w 1 (sec (text c)) (size (text c)) = (DE_SUCCESS, size (text c), l) ∧
    ∀ i, 0 ≤ i < Z.of_nat (length l) → m !! (vaddr (text c) + i) = l !! Z.to_nat i.

Lemma text_loaded_step w c m m' :
  file_ok w → 0 ≤ size (text c) → vaddr (text c) = 0x10000000 ∨ size (text c) = 0 →
  step (from (0x10000000 + size (text c))) m m' → text_loaded w c m → text_loaded w c m'.
Proof.
  intros Hw H0 Hv Hs Ht Hne. destruct (Ht Hne) as (l & Hl & Hc). exists l. split; [done|].
  intros i Hi. rewrite (step_same _ _ _ Hs); [by apply Hc|].
  destruct Hv as [Hv|]; [|done]. pose proof (Hw _ _ _ _ _ _ H0 Hl) as [Hlen _]. unfold from. lia.
Qed.

(** Reading everything: the text section comes first, and nothing that
    follows touches it. *)
Lemma copy_file_spec w hi c m :
  file_ok w → layout hi c m → (size (text c) ≠ 0 → vaddr (text c) = 0x10000000) →
  size (text c) ≤ 0x60000000 →
  wp user (copy_file w c) m (λ _ m', layout hi c m' ∧ text_loaded w c m').
Proof.
  intros Hw Hl Hv Hsz. pose proof (lay_text _ _ _ Hl) as [Htp Hts].
  pose proof (lay_rdata _ _ _ Hl) as [Hrp Hrs]. pose proof (lay_data _ _ _ Hl) as [Hdp Hds].
  pose proof (lay_apart _ _ _ Hl) as [Hra Hda]. pose proof (lay_symbols _ _ _ Hl) as [Hs0 Hs1].
  pose proof (proj1 Htp) as Ht0. set (lo := 0x10000000 + size (text c)) in *.
  unfold copy_file. apply run_bind.
  eapply run_mono; [apply (copy_section_spec w 1 c (text c) hi 0x10000000); [done|done|done|]|].
  { intros Hne. by rewrite Hv. }
  intros _ m1 Hk1 [_ Htext] _. pose proof (layout_step _ _ _ _ _ Hk1 Hl) as Hl1.
  apply (wp_weaken (from lo)); [intros a; apply from_user; unfold lo; lia|].
  assert (Hrest : wp (from lo) (do? copy_part w 2 (sec (rdata c)) (size (rdata c)) (vaddr (rdata c)) in
    do? copy_part w 3 (sec (data c)) (size (data c)) (vaddr (data c)) in
    do? copy_part w 4 (rel (text c)) (rel_size (text c)) (stack_vaddr (text c)) in
    do? copy_part w 5 (rel (rdata c)) (rel_size (rdata c)) (stack_vaddr (rdata c)) in
    do? copy_part w 6 (rel (data c)) (rel_size (data c)) (stack_vaddr (data c)) in
    coff_copy w 7 (symbol_table c) (u32 (symbol_count c * 18)) (symbol_vaddr c)) m1 (λ _ _, True)).
  { apply run_bind. eapply run_mono; [apply (copy_section_spec w 2 c (rdata c) hi); done|].
    intros _ m2 Hk2 _ _. pose proof (layout_step _ _ _ _ _ Hk2 Hl1) as Hl2.
    apply run_bind. eapply run_mono; [apply (copy_section_spec w 3 c (data c) hi); done|].
    intros _ m3 Hk3 _ _. pose proof (layout_step _ _ _ _ _ Hk3 Hl2) as Hl3.
    apply run_bind. eapply run_mono; [apply (copy_stack_spec w 4 _ c _ hi); (done || unfold lo; lia)|].
    intros _ m4 Hk4 _ _. pose proof (layout_step _ _ _ _ _ Hk4 Hl3) as Hl4.
    apply run_bind. eapply run_mono; [apply (copy_stack_spec w 5 _ c _ hi); (done || unfold lo; lia)|].
    intros _ m5 Hk5 _ _. pose proof (layout_step _ _ _ _ _ Hk5 Hl4) as Hl5.
    apply run_bind. eapply run_mono; [apply (copy_stack_spec w 6 _ c _ hi); (done || unfold lo; lia)|].
    intros _ m6 Hk6 _ _. pose proof (layout_step _ _ _ _ _ Hk6 Hl5) as Hl6.
    pose proof (lay_low _ _ _ Hl) as Hlow. destruct Hds as (Hd1 & Hd2 & Hd3 & Hd4). unfold obj_page in *.
    rewrite wrap_small by lia. apply run_bind, wp_read_file; [done|lia| | |].
    - apply (mapped_sub _ _ _ _ _ (lay_stack _ _ _ Hl6)); lia.
    - intros x Hx. unfold from, lo. lia.
    - intros r s l m' _ _ _ _. apply run_bind, wp_check. intros _ _. by apply wp_check. }
  eapply run_mono; [exact Hrest|]. intros _ m' Hk _. split; [by apply (layout_step _ _ _ _ _ Hk)|].
  apply (text_loaded_step w c m1); [done|done| |done|done].
  destruct (decide (size (text c) = 0)); [by right|left; by apply Hv].
Qed.

(** A number of the header, from the bytes of the file. *)
Fixpoint number (l : list Z) : Z :=
  match l with [] => 0 | b :: l => b + 256 * number l end.

Definition field (n : nat) (l : list Z) (o : Z) : Z := number (take n (drop (Z.to_nat o) l)).

Lemma ld_field n m a l o :
  (∀ i, 0 ≤ i < Z.of_nat (length l) → m !! (a + i) = l !! Z.to_nat i) →
  0 ≤ o → o + Z.of_nat n ≤ Z.of_nat (length l) → ld n m (a + o) = Some (field n l o).
Proof.
  intros Hl. unfold field. revert o. induction n as [|n IH]; intros o H0 Hn; [done|]. cbn [ld].
  destruct (lookup_lt_is_Some_2 l (Z.to_nat o)) as [b Hb]; [lia|].
  rewrite Hl, Hb by lia. cbn [mbind option_bind]. rewrite (drop_S l b) by done.
  cbn [take number]. replace (a + o + 1) with (a + (o + 1)) by lia. rewrite IH by lia.
  cbn [mbind option_bind]. replace (Z.to_nat (o + 1)) with (S (Z.to_nat o)) by lia. done.
Qed.

(** The text section of a loaded program: where it starts, and its bytes when
    nothing was relocated; [l] is the header. *)
Definition program_loaded (w : world) (l : list Z) (start : Z) (m : mem) : Prop :=
  let text_size := field 4 l 36 in
  0x10000000 ≤ start < 0x10000000 + text_size ∧
  (field 2 l 52 = 0 → field 2 l 92 = 0 → field 2 l 132 = 0 →
   ∃ t, n_read w 1 (field 4 l 40) text_size = (DE_SUCCESS, text_size, t) ∧
     ∀ i, 0 ≤ i < Z.of_nat (length t) → m !! (0x10000000 + i) = t !! Z.to_nat i).

Lemma coff_load_spec w m :
  file_ok w → mem_bytes m →
  wp user (coff_load_executable w) m (λ start m',
    ∃ l, n_read w 0 0 180 = (DE_SUCCESS, 180, l) ∧
    (∃ stack, 0x78000000 ≤ stack ≤ obj_page ∧ ∀ a, stack ≤ a < 0x80000000 → m' !! a = Some 0) ∧
    0x10000000 ≤ start < 0x70000000 ∧ is_Some (m' !! start) ∧
    (length l = 180%nat → program_loaded w l start m')).
Proof.
  intros Hw Hb. unfold coff_load_executable. apply run_bind.
  eapply run_mono; [by apply coff_open_spec|]. intros c0 m1 _ (Hh & Hho & l & Hl & Hobj) _.
  apply run_bind. eapply run_mono; [by apply coff_allocate_spec|].
  intros c m2 _ (hi & Hlay & (ts & Hts & E1 & E2 & E3) & (rs & Hrs & E4) & (ds & Hds & E5) & Hv) _.
  pose proof (lay_text _ _ _ Hlay) as [Htp Hts']. pose proof (lay_hi _ _ _ Hlay) as Hhi.
  pose proof (lay_symbols _ _ _ Hlay) as [Hs0 Hs1].
  assert (Hsz : size (text c) ≤ 0x60000000).
  { destruct Htp as [_ [->|(? & ? & ?)]]; lia. }
  apply run_bind. eapply run_mono; [by apply copy_file_spec|]. intros _ m3 _ (Hl3 & Htext3) _.
  set (lo := 0x10000000 + size (text c)). destruct Htp as [Ht0 Htp].
  assert (Hlo : lo ≤ 0x78000000) by (unfold lo; lia).
  assert (Hv' : vaddr (text c) = 0x10000000 ∨ size (text c) = 0).
  { destruct (decide (size (text c) = 0)); [by right|left; by apply Hv]. }
  apply run_bind. apply (wp_weaken (from lo)); [intros a; apply from_user; unfold lo; lia|].
  eapply run_mono.
  { apply (symbols_spec _ hi); [done|done| |].
    - destruct Hts' as (? & ? & ? & ?). lia.
    - rewrite Z2Nat.id by lia. exact Hs1. }
  intros start m4 Hk4 _. intros _. pose proof (layout_step _ _ _ _ _ Hk4 Hl3) as Hl4.
  pose proof (text_loaded_step _ _ _ _ Hw Ht0 Hv' Hk4 Htext3) as Htext4.
  pose proof (lay_rdata _ _ _ Hlay) as [Hrp Hrs']. pose proof (lay_data _ _ _ Hlay) as [Hdp Hds'].
  apply run_bind. eapply run_mono; [by apply (relocate_section_spec hi)|]. intros _ m5 _ [Hl5 Hm5] _.
  apply run_bind. eapply run_mono; [by apply (relocate_section_spec hi)|]. intros _ m6 _ [Hl6 Hm6] _.
  apply run_bind. eapply run_mono; [by apply (relocate_section_spec hi)|]. intros _ m7 _ [Hl7 Hm7] _.
  apply run_bind. apply (wp_weaken (from 0x78000000)); [intros a; by apply from_user|].
  eapply run_mono; [by apply (coff_finish_spec hi)|]. intros _ m8 Hk8 (H1 & H2 & Hzero) _.
  apply run_ret. exists l. split; [done|].
  assert (Hv1 : vaddr (text c) = 0x10000000) by (destruct Hv'; lia). rewrite Hv1 in H2.
  split; [|split; [|split]].
  - exists (stack_vaddr (text c)). split; [|done].
    pose proof (lay_low _ _ _ Hlay). destruct Hts' as (? & ? & ? & ?). lia.
  - lia.
  - apply (mapped_step _ _ _ _ _ Hk8 (lay_image _ _ _ Hl7)). destruct Htp; lia.
  - intros H180. unfold program_loaded.
    pose proof (at_size _ _ _ Hts) as F1. pose proof (at_sec _ _ _ Hts) as F2.
    pose proof (at_nrel _ _ _ Hts) as F3. pose proof (at_nrel _ _ _ Hrs) as F4.
    pose proof (at_nrel _ _ _ Hds) as F5.
    rewrite (ld_field 4 _ _ l) in F1, F2 by (done || lia).
    rewrite (ld_field 2 _ _ l) in F3, F4, F5 by (done || lia).
    injection F1 as F1. injection F2 as F2. injection F3 as F3. injection F4 as F4. injection F5 as F5.
    change (20 + 0 * 40 + 16) with 36 in F1. change (20 + 0 * 40 + 20) with 40 in F2.
    change (20 + 0 * 40 + 32) with 52 in F3. change (20 + 1 * 40 + 32) with 92 in F4.
    change (20 + 2 * 40 + 32) with 132 in F5.
    rewrite F1, F2, F3, F4, F5, <- E1, <- E2, <- E3, <- E4, <- E5. split; [lia|].
    intros N1 N2 N3. assert (m7 = m4) as Hm74 by (rewrite Hm7, Hm6, Hm5; done).
    destruct (Htext4 ltac:(lia)) as (t & Ht & Hbytes). exists t. split; [done|].
    intros i Hi. rewrite (step_same _ _ _ Hk8), Hm74, <- Hv1; [by apply Hbytes|].
    pose proof (Hw _ _ _ _ _ _ Ht0 Ht) as [Hlen _]. unfold from. lia.
Qed.


(** (C28) A loaded program is the program of the file: it starts inside of its text
    section, whose length the header gives, and when the header announces no
    relocations, the text section is in memory byte by byte as the file
    answered it. *)
Theorem coff_load_image (w : world) (m m' : mem) (start : Z) (l : list Z)
    (Hw : file_ok w) (Hm : mem_bytes m)
    (Hload : coff_load_executable w m = Some (m', inr start))
    (Hheader : n_read w 0 0 180 = (DE_SUCCESS, 180, l)) (Hl : length l = 180%nat) :
  program_loaded w l start m'.
Proof.
  destruct (coff_load_spec w m Hw Hm) as (m1 & r & Hr & _ & Hpost).
  rewrite Hload in Hr. injection Hr as <- <-.
  destruct Hpost as (l1 & Hl1 & _ & _ & _ & Hp). rewrite Hheader in Hl1. injection Hl1 as <-. by apply Hp.
Qed.

(** ** Concrete programs *)

Fixpoint le (n : nat) (v : Z) : list Z :=
  match n with O => [] | S n' => v mod 256 :: le n' (v / 256) end.

Definition pad (n : nat) (l : list Z) : list Z := l ++ replicate (n - length l) 0.

Definition section_header (name : list Z) (size sec rel nrel flags : Z) : list Z :=
  pad 8 name ++ le 4 0 ++ le 4 0 ++ le 4 size ++ le 4 sec ++ le 4 rel ++ le 4 0 ++ le 2 nrel ++ le 2 0
  ++ le 4 flags.

Definition symbol (name : list Z) (value section class : Z) : list Z :=
  pad 8 name ++ le 4 value ++ le 2 section ++ le 2 0 ++ [class; 0].

(** 16 bytes of text at 180, one relocation (of [type]) at 196 if [nrel] is 1,
    four symbols at 206. *)
Definition program (nrel type : Z) : list Z :=
  le 2 coff_native_signature ++ le 2 4 ++ le 4 0 ++ le 4 206 ++ le 4 4 ++ le 2 0 ++ le 2 0
  ++ section_header name_text 16 180 196 nrel 0x60000020
  ++ section_header name_rdata 0 0 0 0 0x40000040
  ++ section_header name_data 0 0 0 0 0xC0000040
  ++ section_header name_bss 0 0 0 0 0xC0000080
  ++ [1; 2; 3; 4; 5; 6; 7; 8; 9; 10; 11; 12; 13; 14; 15; 16]
  ++ le 4 8 ++ le 4 1 ++ le 2 type
  ++ symbol [46] 0 1 3 ++ symbol coff_start 4 1 2 ++ symbol [97] 0 1 2 ++ symbol [98] 0 4 2.

Definition program_world (file : list Z) : world := {|
  has_cr3 := true;
  pg_map_success := λ _ _ _, true;
  n_read := λ _ offset size,
    let l := take (Z.to_nat size) (drop (Z.to_nat offset) file) in
    (DE_SUCCESS, Z.of_nat (length l), if 0 <=? size then l else []) |}.

Lemma program_world_ok file : Forall is_byte file → file_ok (program_world file).
Proof.
  intros Hf k offset size r s l H0 H. cbn [n_read program_world] in H. injection H as _ _ <-.
  rewrite (proj2 (Z.leb_le _ _)) by done. split; [rewrite length_take; lia|].
  apply bytes_take. by apply bytes_drop.
Qed.

Lemma program_bytes nrel type :
  0 ≤ nrel ≤ 1 → 0 ≤ type < 256 → Forall is_byte (program nrel type).
Proof.
  intros H1 H2. unfold program.
  assert (Hle : ∀ n v, Forall is_byte (le n v)).
  { induction n as [|n IH]; intros v; cbn [le]; constructor; [unfold is_byte; dlia|apply IH]. }
  assert (Hpad : ∀ n l, Forall is_byte l → Forall is_byte (pad n l)).
  { intros n l Hl. apply Forall_app. split; [done|apply bytes_zeros]. }
  assert (Hnames : Forall is_byte (name_text ++ name_rdata ++ name_data ++ name_bss ++ coff_start)).
  { apply (bool_decide_unpack _). vm_compute. exact I. }
  rewrite !Forall_app in Hnames. destruct Hnames as (? & ? & ? & ? & ?).
  unfold section_header, symbol.
  repeat (apply Forall_app; split); try (apply Hle || (by apply Hpad));
    try apply Hpad; apply (bool_decide_unpack _); vm_compute; exact I.
Qed.

Definition loaded (x : option (mem * (stop + Z))) : bool :=
  match x with Some (_, inr _) => true | _ => false end.

Example program_loads : loaded (coff_load_executable (program_world (program 0 0)) ∅) = true.
Proof. vm_compute. reflexivity. Qed.


Lemma coff_load_image_witness :
  match coff_load_executable (program_world (program 0 0)) ∅ with
  | Some (m', inr start) => program_loaded (program_world (program 0 0)) (take 180 (program 0 0)) start m'
  | _ => False
  end.
Proof.
  pose proof program_loads as Hload. revert Hload.
  destruct (coff_load_executable (program_world (program 0 0)) ∅) as [[m' [e|start]]|] eqn:E;
    intros Hload; [discriminate Hload| |discriminate Hload].
  apply (coff_load_image _ ∅); [| |exact E|reflexivity|reflexivity].
  - apply program_world_ok, program_bytes; lia.
  - intros a b H. by rewrite lookup_empty in H.
Defined.

(** The type of a relocation is not checked: the task that loads this file
    never leaves the kernel, instead of the file being refused. *)
Theorem unknown_relocation_halts :
  match coff_load_executable (program_world (program 1 10)) ∅ with
  | Some (_, inl Halt) => True
  | _ => False
  end.
Proof. vm_compute. exact I. Qed.
