(* ===== verification/Arg.v ===== *)
(** Arguments of programs: kernel/syscall/arg.c (64-bit build).

    [arg_create] puts the arguments, the environment and the path of a program
    into one block, with pointers that are valid at the address at which
    [arg_copy] maps the block for the new program; [arg_set_cmdline] builds the
    command line of the task from them.  A string is a list of bytes without
    the null byte.  The answers of [vfs_realpath], of the checks of user memory
    and of the allocator are arguments.  Theorem: a program that follows the
    pointers reads exactly the vectors that were passed. *)

From S2P Require Import Prelude Errors.

(** ** Words and strings in a block *)

(** The eight bytes of a word. *)
Fixpoint le (n : nat) (v : Z) : list Z :=
  match n with O => [] | S n' => v mod 256 :: le n' (v / 256) end.

Definition word (v : Z) : list Z := le 8 v.

(** Bytes written from position [i] on, one after the other. *)
Fixpoint put (block : list Z) (i : Z) (l : list Z) : option (list Z) :=
  match l with
  | [] => Some block
  | b :: l => block ← block.[i <- b]; put block (i + 1) l
  end.

Definition sizeof_arg_header : Z := 32.
Definition sizeof_pointer : Z := 8.

(** The four words of [arg_header]. *)
Definition ah_argc : Z := 0.
Definition ah_argv : Z := 8.
Definition ah_envp : Z := 16.
Definition ah_size : Z := 24.

(** ** Creation *)

(** A string of user memory: [inl] is the error of [pg_check_user_string]. *)
Abbreviation user_string := (de_error + list Z)%type.

Definition INT_MAX : Z := 2147483647.

(** The loop that adds up the sizes: also the strings that were checked. *)
Fixpoint check_strings (l : list user_string) (size : Z) : de_error + Z * list (list Z) :=
  match l with
  | [] => inr (size, [])
  | inl r :: _ => inl r
  | inr s :: l =>
      let count := Z.of_nat (length s) in
      if negb (swrap 32 size <? INT_MAX - count) then inl DE_OVERFLOW
      else
        match check_strings l (size + (count + 1)) with
        | inl r => inl r
        | inr (size, ss) => inr (size, s :: ss)
        end
  end.

(** What the loop that copies strings knows: the block, the position [p] for
    the next string and the position of the next pointer. *)
Definition put_string (base : Z) (x : list Z * Z * Z) (s : list Z) : option (list Z * Z * Z) :=
  let '(block, p, pointer) := x in
  block ← put block pointer (word (u64 (base + p)));
  block ← put block p (s ++ [0]);
  Some (block, p + Z.of_nat (length s) + 1, pointer + sizeof_pointer).

Fixpoint put_strings (base : Z) (x : list Z * Z * Z) (l : list (list Z)) : option (list Z * Z * Z) :=
  match l with
  | [] => Some x
  | s :: l => x ← put_string base x s; put_strings base x l
  end.

Inductive created := Panic | Created (r : de_error) (block : list Z).

(** The part of [arg_create] that fills the block. *)
Definition fill_block (path : list Z) (argv envp : list (list Z)) (size total_size : Z)
    : option created :=
  let argv_count := Z.of_nat (length argv) in
  let envp_count := Z.of_nat (length envp) in
  let block := replicate (Z.to_nat total_size) 0 in
  let base := 0x80000000 - total_size in
  block ← put block ah_argc (word argv_count);
  block ← put block ah_size (word total_size);
  let p := sizeof_arg_header in
  let argv_pointer := p in
  block ← put block ah_argv (word (u64 (base + p)));
  let p := sizeof_arg_header + (argv_count + 3) * sizeof_pointer in
  let envp_pointer := p in
  block ← put block ah_envp (word (u64 (base + p)));
  let p := p + (envp_count + 1) * sizeof_pointer in
  x ← put_string base (block, p, argv_pointer) path;
  '(block, p, _) ← put_strings base x argv;
  '(block, p, _) ← put_strings base (block, p, envp_pointer) envp;
  if negb (p =? size) then Some Panic
  else
    block ← put block ah_argv (word (u64 (base + sizeof_arg_header + 8)));
    Some (Created DE_SUCCESS block).

Definition alloc_size (size : Z) : Z := Z.land (size + 0x1F) 0xFFFFFFE0.

(** The answer of the retried allocation. *)
Fixpoint retry (n : nat) (i : nat) (allocated : nat → bool) : bool :=
  match n with
  | O => false
  | S n' => if allocated i then true else retry n' (S i) allocated
  end.

Definition retry_count : nat := 4096.

(** [path] is the answer of [vfs_realpath], or the command line of the task
    when there is no node; [argv] and [envp] are [None] for NULL and [Some
    (inl r)] when the check of the vector fails. *)
Definition arg_create (path : de_error + list Z) (argv envp : option (de_error + list user_string))
    (allocated : nat → bool) : option created :=
  let vector v := match v with None => inr [] | Some v => v end in
  match path, vector argv, vector envp with
  | inl r, _, _ => Some (Created r [])
  | inr _, inl r, _ => Some (Created r [])
  | inr _, inr _, inl r => Some (Created r [])
  | inr path, inr argv, inr envp =>
      let argv_count := Z.of_nat (length argv) in
      let envp_count := Z.of_nat (length envp) in
      if (argv_count >? 0xFFFF) || (envp_count >? 0xFFFF) then Some (Created DE_OVERFLOW [])
      else
        let size := sizeof_arg_header + (argv_count + 3) * sizeof_pointer
                    + (envp_count + 1) * sizeof_pointer + (Z.of_nat (length path) + 1) in
        match check_strings argv size with
        | inl r => Some (Created r [])
        | inr (size, argv) =>
            match check_strings envp size with
            | inl r => Some (Created r [])
            | inr (size, envp) =>
                if size >? 0x04000000 then Some (Created DE_OVERFLOW [])
                else if negb (retry retry_count 0 allocated) then Some (Created DE_MEMORY [])
                else fill_block path argv envp size (alloc_size size)
            end
        end
  end.

(** ** Copying to the new program *)

(** A word of a block. *)
Fixpoint number (l : list Z) : Z :=
  match l with [] => 0 | b :: l => b + 256 * number l end.

Definition word_at (block : list Z) (i : Z) : option Z :=
  if (0 <=? i) && (i + 8 <=? Z.of_nat (length block))
  then Some (number (take 8 (drop (Z.to_nat i) block))) else None.

(** The answer, the stack pointer, and the memory of the program from its
    address on; [mapped] is the answer of [pg_map_user]. *)
Definition arg_copy (block : list Z) (mapped : Z → Z → bool)
    : option (de_error * Z * option (Z * list Z)) :=
  size ← word_at block ah_size;
  let base := u64 (0x80000000 - size) in
  let user_sp := u64 (base - sizeof_pointer) in
  if negb (Z.land base 0x1F =? 0) || (base <? 0x7C000000) || (base >=? 0x80000000) then
    Some (DE_UNEXPECTED, user_sp, None)
  else
    block ← put block ah_size (word 0);
    if negb (mapped (base - 0x2000) (size + 0x2000)) then Some (DE_MEMORY, user_sp, None)
    else
      if Z.of_nat (length block) <? size then None
      else Some (DE_SUCCESS, user_sp, Some (base, take (Z.to_nat size) block)).

(** For scripts: the path becomes an argument, and takes the place of the
    first one. *)
Definition arg_enable_path (block : list Z) : option (list Z) :=
  argc ← word_at block ah_argc;
  block ← put block ah_argc (word (u64 (argc + 1)));
  argv ← word_at block ah_argv;
  block ← put block ah_argv (word (u64 (argv - 8)));
  p0 ← word_at block sizeof_arg_header;
  put block (sizeof_arg_header + 8) (word p0).

(** ** The command line *)

Definition TASK_CMD_STATIC_SIZE : Z := 32.

(** "/bin/ld-dancy" *)
Definition ld_dancy : list Z := [47; 98; 105; 110; 47; 108; 100; 45; 100; 97; 110; 99; 121].

(** The size of the line: empty arguments are left out. *)
Fixpoint line_size (args : list (list Z)) (buffer_size : Z) : Z :=
  match args with
  | [] => buffer_size
  | s :: args =>
      let add := Z.of_nat (length s) in
      line_size args (if negb (add =? 0) then buffer_size + (add + 1) else buffer_size)
  end.

Fixpoint put_args (args : list (list Z)) (buffer : list Z) (size : Z) : option (list Z * Z) :=
  match args with
  | [] => Some (buffer, size)
  | s :: args =>
      if decide (s = []) then put_args args buffer size
      else
        buffer ← put buffer size (s ++ [0]);
        put_args args buffer (size + Z.of_nat (length s) + 1)
  end.

Inductive cmdline := CmdPanic | CmdError (r : de_error) | CmdLine (buffer : list Z).

(** The line for the path and the arguments behind the first one; [_line] is the
    static buffer of the task. *)
Definition build_line (path : list Z) (args : list (list Z)) (_line : list Z)
    (allocated : nat → bool) (junk : Z → Z) : option cmdline :=
  let buffer_size := 1 + (Z.of_nat (length path) + 1) in
  if (buffer_size <=? 2) || (buffer_size >=? 256) then Some (CmdError DE_UNEXPECTED)
  else
    let buffer_size := line_size args buffer_size in
    let large := buffer_size >? TASK_CMD_STATIC_SIZE in
    if large && negb (retry retry_count 0 allocated) then Some (CmdError DE_MEMORY)
    else
      first ← _line.[0];
      let buffer :=
        if large then junk <$> seqZ 0 buffer_size
        else if negb (first =? 0) then replicate (Z.to_nat TASK_CMD_STATIC_SIZE) 0
        else _line in
      buffer ← put buffer 0 (path ++ [0]);
      '(buffer, size) ← put_args args buffer (Z.of_nat (length path) + 1);
      buffer ← buffer.[size <- 0];
      if negb (size + 1 =? buffer_size) then Some CmdPanic else Some (CmdLine buffer).

(** [realpath] is the answer for the node, [None] without a node; then [line] is
    the command line of the task; [before] is the string of the pointer in
    front of [argv]. *)
Definition arg_set_cmdline (realpath : option (de_error + list Z)) (line : list Z)
    (before : list Z) (argv : list (list Z)) (_line : list Z) (allocated : nat → bool) (junk : Z → Z)
    : option cmdline :=
  match realpath with
  | None =>
      let path := take 255 line in
      let argv := if decide (path = ld_dancy) then before :: argv else argv in
      build_line path (drop 1 argv) _line allocated junk
  | Some (inl r) => Some (CmdError r)
  | Some (inr path) => build_line path (drop 1 argv) _line allocated junk
  end.

(** ** Writing *)

Lemma length_le n v : length (le n v) = n.
Proof. revert v. induction n as [|n IH]; intros v; cbn [le length]; [done|by rewrite IH]. Qed.

Lemma number_le n v : 0 ≤ v < 256 ^ Z.of_nat n → number (le n v) = v.
Proof.
  revert v. induction n as [|n IH]; intros v Hv; cbn [le number]; [cbn in Hv; lia|].
  rewrite Nat2Z.inj_succ, Z.pow_succ_r in Hv by lia. rewrite IH by dlia. dlia.
Qed.

(** Writing over a part of the block that has the length of the text. *)
Lemma put_app a b c l i :
  i = Z.of_nat (length a) → length b = length l → put (a ++ b ++ c) i l = Some (a ++ l ++ c).
Proof.
  revert a b i. induction l as [|x l IH]; intros a b i -> Hb; cbn [put].
  { by destruct b. }
  destruct b as [|y b]; [done|]. rewrite wr_Some by (rewrite !length_app; cbn; lia).
  cbn [mbind option_bind]. rewrite Nat2Z.id, insert_app_r_alt, Nat.sub_diag by lia. cbn [app].
  change (<[0%nat:=x]> (y :: b ++ c)) with (x :: b ++ c).
  replace (a ++ x :: b ++ c) with ((a ++ [x]) ++ b ++ c) by (by rewrite <- app_assoc).
  rewrite (IH (a ++ [x]) b) by (try rewrite length_app; cbn in *; lia). by rewrite <- app_assoc.
Qed.

(** The texts and the pointers of strings that begin at [p]. *)
Definition texts (l : list (list Z)) : list Z := concat ((λ s, s ++ [0]) <$> l).

Fixpoint pointers (base p : Z) (l : list (list Z)) : list Z :=
  match l with
  | [] => []
  | s :: l => u64 (base + p) :: pointers base (p + Z.of_nat (length s) + 1) l
  end.

Definition words (l : list Z) : list Z := concat (word <$> l).

Lemma length_words l : length (words l) = (8 * length l)%nat.
Proof. induction l as [|x l IH]; [done|]. unfold words in *. cbn. lia. Qed.

Lemma length_pointers base p l : length (pointers base p l) = length l.
Proof. revert p. induction l as [|s l IH]; intros p; cbn; [done|by rewrite IH]. Qed.

Lemma texts_cons s l : texts (s :: l) = s ++ [0] ++ texts l.
Proof. unfold texts. cbn. by rewrite <- app_assoc. Qed.

Lemma put_string_spec base s A P B T C p pointer :
  pointer = Z.of_nat (length A) → length P = 8%nat →
  p = Z.of_nat (length (A ++ P ++ B)) → length T = S (length s) →
  put_string base (A ++ P ++ B ++ T ++ C, p, pointer) s
  = Some (A ++ word (u64 (base + p)) ++ B ++ (s ++ [0]) ++ C, p + Z.of_nat (length s) + 1, pointer + 8).
Proof.
  intros Hptr HP Hp HT. unfold put_string.
  rewrite (put_app A P) by (done || (unfold word; rewrite length_le; lia)). cbn [mbind option_bind].
  replace (A ++ word (u64 (base + p)) ++ B ++ T ++ C)
    with ((A ++ word (u64 (base + p)) ++ B) ++ T ++ C) by (by rewrite <- !app_assoc).
  rewrite (put_app _ T).
  - cbn [mbind option_bind]. by rewrite <- !app_assoc.
  - rewrite Hp, !length_app. unfold word. rewrite length_le. lia.
  - rewrite length_app. cbn. lia.
Qed.

(** The loop over a vector: its pointers and its texts are in place. *)
Lemma put_strings_spec base l A P B T C p pointer :
  pointer = Z.of_nat (length A) → length P = (8 * length l)%nat →
  p = Z.of_nat (length (A ++ P ++ B)) → length T = length (texts l) →
  put_strings base (A ++ P ++ B ++ T ++ C, p, pointer) l
  = Some (A ++ words (pointers base p l) ++ B ++ texts l ++ C,
          p + Z.of_nat (length (texts l)), pointer + 8 * Z.of_nat (length l)).
Proof.
  revert A P B T p pointer. induction l as [|s l IH]; intros A P B T p pointer Hptr HP Hp HT;
    cbn [put_strings].
  { destruct P, T; try done. cbn. do 3 f_equal; lia. }
  rewrite texts_cons in HT. rewrite !length_app in HT. cbn [length] in HT, HP.
  rewrite <- (take_drop 8 P), <- (take_drop (S (length s)) T).
  set (P1 := take 8 P). set (P2 := drop 8 P). set (T1 := take _ T). set (T2 := drop _ T).
  assert (H1 : length P1 = 8%nat) by (unfold P1; rewrite length_take; lia).
  assert (H2 : length P2 = (8 * length l)%nat) by (unfold P2; rewrite length_drop; lia).
  assert (H3 : length T1 = S (length s)) by (unfold T1; rewrite length_take; lia).
  assert (H4 : length T2 = length (texts l)) by (unfold T2; rewrite length_drop; lia).
  assert (Hlen : length P = (length P1 + length P2)%nat) by lia.
  clearbody P1 P2 T1 T2.
  replace (A ++ (P1 ++ P2) ++ B ++ (T1 ++ T2) ++ C) with (A ++ P1 ++ (P2 ++ B) ++ T1 ++ (T2 ++ C))
    by (by rewrite <- !app_assoc).
  rewrite put_string_spec; [|done|done|rewrite Hp, !length_app; lia|done]. cbn [mbind option_bind].
  set (w := word (u64 (base + p))).
  assert (Hw : length w = 8%nat) by (unfold w, word; by rewrite length_le).
  replace (A ++ w ++ (P2 ++ B) ++ (s ++ [0]) ++ T2 ++ C)
    with ((A ++ w) ++ P2 ++ (B ++ s ++ [0]) ++ T2 ++ C) by (by rewrite <- !app_assoc).
  rewrite IH; [|rewrite length_app; lia|done|rewrite Hp, !length_app; cbn [length]; lia|done].
  rewrite texts_cons. cbn [pointers]. unfold words at 2. cbn [fmap list_fmap concat]. fold w.
  fold (words (pointers base (p + Z.of_nat (length s) + 1) l)).
  f_equal. f_equal; [f_equal|].
  - by rewrite <- !app_assoc.
  - rewrite !length_app. cbn [length]. lia.
  - cbn [length]. lia.
Qed.

(** ** The finished block *)

Definition zeros (n : nat) : list Z := replicate n 0.

(** The block of a path and two vectors, mapped at [base]: the header, the
    pointers (one in front of the arguments for the path, two null pointers
    behind them, one behind the environment) and the texts.  [size_word] is the
    last word of the header. *)
Definition block_of (path : list Z) (argv envp : list (list Z)) (total_size size_word : Z) : list Z :=
  let base := 0x80000000 - total_size in
  let argc := Z.of_nat (length argv) in
  let envp_pointer := sizeof_arg_header + (argc + 3) * sizeof_pointer in
  let p := envp_pointer + (Z.of_nat (length envp) + 1) * sizeof_pointer in
  let p1 := p + Z.of_nat (length path) + 1 in
  let p2 := p1 + Z.of_nat (length (texts argv)) in
  let used := p2 + Z.of_nat (length (texts envp)) in
  word argc ++ word (u64 (base + sizeof_arg_header + 8)) ++ word (u64 (base + envp_pointer))
  ++ word size_word
  ++ word (u64 (base + p)) ++ words (pointers base p1 argv) ++ zeros 16
  ++ words (pointers base p2 envp) ++ zeros 8
  ++ (path ++ [0]) ++ texts argv ++ texts envp ++ zeros (Z.to_nat (total_size - used)).

Definition block_size (path : list Z) (argv envp : list (list Z)) : Z :=
  sizeof_arg_header + (Z.of_nat (length argv) + 3) * sizeof_pointer
  + (Z.of_nat (length envp) + 1) * sizeof_pointer + (Z.of_nat (length path) + 1)
  + Z.of_nat (length (texts argv)) + Z.of_nat (length (texts envp)).

Lemma length_word v : length (word v) = 8%nat.
Proof. apply length_le. Qed.

Lemma length_zeros n : length (zeros n) = n.
Proof. apply length_replicate. Qed.

Lemma zeros_app n m : zeros (n + m) = zeros n ++ zeros m.
Proof. unfold zeros. by rewrite <- replicate_add. Qed.

(** Writing, with the parts of the block named. *)
Lemma put_at A P C block i l :
  block = A ++ P ++ C → i = Z.of_nat (length A) → length P = length l →
  put block i l = Some (A ++ l ++ C).
Proof. intros ->. apply put_app. Qed.

Lemma fill_block_spec path argv envp total_size :
  block_size path argv envp ≤ total_size →
  fill_block path argv envp (block_size path argv envp) total_size
  = Some (Created DE_SUCCESS (block_of path argv envp total_size total_size)).
Proof.
  intros Hsize. unfold fill_block, block_of.
  unfold block_size in *. unfold sizeof_arg_header, sizeof_pointer, ah_argc, ah_argv, ah_envp, ah_size in *.
  set (base := 0x80000000 - total_size).
  set (na := length argv) in *. set (ne := length envp) in *.
  set (used := _ + Z.of_nat (length (texts envp))) in Hsize.
  match goal with |- context [total_size - ?u] => replace u with used by (unfold used; lia) end.
  set (R := Z.to_nat (total_size - used)).
  replace (replicate (Z.to_nat total_size) 0) with (zeros 8 ++ zeros 8 ++ zeros 8 ++ zeros 8 ++
    zeros 8 ++ zeros (8 * na) ++ zeros 16 ++ zeros (8 * ne) ++ zeros 8 ++
    zeros (S (length path)) ++ zeros (length (texts argv)) ++ zeros (length (texts envp)) ++ zeros R).
  2:{ rewrite <- !zeros_app. unfold zeros. f_equal. unfold R, used. lia. }
  assert (L8 : length (zeros 8) = 8%nat) by done. assert (L16 : length (zeros 16) = 16%nat) by done.
  pose proof (length_zeros (8 * na)) as La. pose proof (length_zeros (8 * ne)) as Le.
  pose proof (length_zeros (S (length path))) as Lp.
  pose proof (length_zeros (length (texts argv))) as Lta.
  pose proof (length_zeros (length (texts envp))) as Lte.
  set (z1 := zeros 8) at 1. set (z2 := zeros 8) at 1. set (z3 := zeros 8) at 1. set (z4 := zeros 8) at 1.
  set (z5 := zeros 8) at 1. set (za := zeros (8 * na)) in *. set (z16 := zeros 16) in *.
  set (ze := zeros (8 * ne)) in *. set (z9 := zeros 8) at 1.
  set (zp := zeros (S (length path))) in *. set (zta := zeros (length (texts argv))) in *.
  set (zte := zeros (length (texts envp))) in *. set (zR := zeros R).
  assert (length z1 = 8%nat ∧ length z2 = 8%nat ∧ length z3 = 8%nat ∧ length z4 = 8%nat ∧
    length z5 = 8%nat ∧ length z9 = 8%nat) as (L1 & L2 & L3 & L4 & L5 & L9) by done.
  change (zeros 8) with z9.
  clearbody z1 z2 z3 z4 z5 z9 za z16 ze zp zta zte zR. clear L8.
  set (T := z5 ++ za ++ z16 ++ ze ++ z9 ++ zp ++ zta ++ zte ++ zR).
  set (w1 := word (Z.of_nat na)). set (w4 := word total_size).
  set (w2 := word (u64 (base + 32))).
  set (w3 := word (u64 (base + (32 + (Z.of_nat na + 3) * 8)))).
  set (w2' := word (u64 (base + 32 + 8))).
  assert (length w1 = 8%nat ∧ length w2 = 8%nat ∧ length w3 = 8%nat ∧ length w4 = 8%nat ∧
    length w2' = 8%nat) as (W1 & W2 & W3 & W4 & W2') by (repeat split; apply length_word).
  rewrite (put_at [] z1 (z2 ++ z3 ++ z4 ++ T)) by (done || (by rewrite W1)).
  cbn [mbind option_bind app].
  rewrite (put_at (w1 ++ z2 ++ z3) z4 T);
    [|by rewrite <- !app_assoc|rewrite !length_app; lia|by rewrite W4]. cbn [mbind option_bind].
  rewrite <- !app_assoc.
  rewrite (put_at w1 z2 (z3 ++ w4 ++ T)); [|done|by rewrite W1|by rewrite W2]. cbn [mbind option_bind].
  rewrite (put_at (w1 ++ w2) z3 (w4 ++ T)); [|by rewrite <- !app_assoc|rewrite !length_app; lia|by rewrite W3].
  cbn [mbind option_bind]. rewrite <- !app_assoc. unfold T. clear T.
  (* the path *)
  replace (w1 ++ w2 ++ w3 ++ w4 ++ z5 ++ za ++ z16 ++ ze ++ z9 ++ zp ++ zta ++ zte ++ zR)
    with ((w1 ++ w2 ++ w3 ++ w4) ++ z5 ++ (za ++ z16 ++ ze ++ z9) ++ zp ++ zta ++ zte ++ zR)
    by (by rewrite <- !app_assoc).
  rewrite put_string_spec; [|rewrite !length_app; lia|done|rewrite !length_app; lia|done].
  cbn [mbind option_bind].
  set (p := 32 + (Z.of_nat na + 3) * 8 + (Z.of_nat ne + 1) * 8).
  set (w5 := word (u64 (base + p))). assert (W5 : length w5 = 8%nat) by apply length_word.
  set (path0 := path ++ [0]). assert (P0 : length path0 = S (length path)).
  { unfold path0. rewrite length_app. cbn. lia. }
  (* the arguments *)
  replace ((w1 ++ w2 ++ w3 ++ w4) ++ w5 ++ (za ++ z16 ++ ze ++ z9) ++ path0 ++ zta ++ zte ++ zR)
    with ((w1 ++ w2 ++ w3 ++ w4 ++ w5) ++ za ++ (z16 ++ ze ++ z9 ++ path0) ++ zta ++ zte ++ zR)
    by (by rewrite <- !app_assoc).
  rewrite put_strings_spec; [|rewrite !length_app; lia|done|rewrite !length_app; lia|done].
  cbn [mbind option_bind].
  set (pa := words (pointers base (p + Z.of_nat (length path) + 1) argv)).
  assert (PA : length pa = (8 * na)%nat) by (unfold pa; by rewrite length_words, length_pointers).
  (* the environment *)
  replace ((w1 ++ w2 ++ w3 ++ w4 ++ w5) ++ pa ++ (z16 ++ ze ++ z9 ++ path0) ++ texts argv ++ zte ++ zR)
    with ((w1 ++ w2 ++ w3 ++ w4 ++ w5 ++ pa ++ z16) ++ ze ++ (z9 ++ path0 ++ texts argv) ++ zte ++ zR)
    by (by rewrite <- !app_assoc).
  rewrite put_strings_spec; [|rewrite !length_app; lia|done|rewrite !length_app; lia|done].
  cbn [mbind option_bind].
  rewrite (proj2 (Z.eqb_eq _ _)) by (unfold used, p; lia). cbn [negb].
  rewrite <- !app_assoc. rewrite (put_at w1 w2 _ _ 8 w2' eq_refl) by (rewrite ?W1, ?W2, ?W2'; done).
  cbn [mbind option_bind]. unfold path0. by rewrite <- !app_assoc.
Qed.

(** ** Reading *)

Lemma word_at_app A v C i :
  i = Z.of_nat (length A) → 0 ≤ v < 2 ^ 64 → word_at (A ++ word v ++ C) i = Some v.
Proof.
  intros -> Hv. unfold word_at. rewrite (proj2 (Z.leb_le 0 _)) by lia.
  rewrite (proj2 (Z.leb_le _ _)) by (rewrite !length_app, length_word; lia). cbn [andb].
  rewrite Nat2Z.id, drop_app_length, take_app_length' by (by rewrite length_word).
  f_equal. by apply number_le.
Qed.

(** What a program reads: a string up to its null byte, and a vector up to the
    null pointer, in memory that is mapped at [base]. *)
Fixpoint read_string (n : nat) (mem : list Z) (i : Z) : option (list Z) :=
  match n with
  | O => None
  | S n' => b ← mem.[i]; if b =? 0 then Some [] else s ← read_string n' mem (i + 1); Some (b :: s)
  end.

Fixpoint read_vector (n : nat) (mem : list Z) (base a : Z) : option (list (list Z)) :=
  match n with
  | O => None
  | S n' =>
      pointer ← word_at mem (a - base);
      if pointer =? 0 then Some []
      else
        s ← read_string (length mem) mem (pointer - base);
        l ← read_vector n' mem base (a + 8);
        Some (s :: l)
  end.

Definition clean (s : list Z) : Prop := Forall (λ b, b ≠ 0) s.

Lemma read_string_app n A s C i :
  i = Z.of_nat (length A) → clean s → (length s < n)%nat →
  read_string n (A ++ s ++ [0] ++ C) i = Some s.
Proof.
  revert n A i. induction s as [|b s IH]; intros n A i -> Hs Hn; (destruct n as [|n]; [lia|]); cbn [read_string].
  - rewrite rd_app_r, Z.sub_diag by lia. done.
  - apply Forall_cons_1 in Hs as [Hb Hs]. rewrite rd_app_r, Z.sub_diag by lia.
    change (((b :: s) ++ [0] ++ C).[0]) with (Some b). cbn [mbind option_bind].
    rewrite (proj2 (Z.eqb_neq _ _)) by done. cbn [length] in Hn.
    replace (A ++ (b :: s) ++ [0] ++ C) with ((A ++ [b]) ++ s ++ [0] ++ C) by (by rewrite <- app_assoc).
    by rewrite IH by (done || (rewrite ?length_app; cbn; lia)).
Qed.

Lemma read_vector_app n mem base l A B C D a p :
  mem = A ++ words (pointers base p l) ++ word 0 ++ C → a = base + Z.of_nat (length A) →
  mem = B ++ texts l ++ D → p = Z.of_nat (length B) →
  0 < base → base + Z.of_nat (length mem) < 2 ^ 64 → Forall clean l → (length l < n)%nat →
  read_vector n mem base a = Some l.
Proof.
  revert n A B a p. induction l as [|s l IH]; intros n A B a p Hm1 Ha Hm2 Hp Hb0 Hb1 Hl Hn;
    (destruct n as [|n]; [lia|]); cbn [read_vector].
  - rewrite Hm1 at 1. change (words (pointers base p [])) with (@nil Z). cbn [app].
    rewrite word_at_app by lia. done.
  - apply Forall_cons_1 in Hl as [Hs Hl]. cbn [length] in Hn.
    assert (Hrange : Z.of_nat (length B) + Z.of_nat (length s) < Z.of_nat (length mem)).
    { rewrite Hm2, texts_cons, !length_app. cbn. lia. }
    cbn [pointers] in Hm1. unfold words in Hm1. cbn [fmap list_fmap concat] in Hm1.
    fold (words (pointers base (p + Z.of_nat (length s) + 1) l)) in Hm1.
    rewrite (wrap_small 64 (base + p)) in Hm1 by lia.
    rewrite Hm1 at 1. rewrite <- app_assoc, word_at_app by lia. cbn [mbind option_bind].
    rewrite (proj2 (Z.eqb_neq _ _)) by lia.
    rewrite texts_cons in Hm2. rewrite <- !app_assoc in Hm2.
    rewrite Hm2 at 2. rewrite read_string_app by (done || lia). cbn [mbind option_bind].
    rewrite (IH n (A ++ word (base + p)) (B ++ s ++ [0]) (a + 8) (p + Z.of_nat (length s) + 1));
      try done; try lia.
    + rewrite Hm1. by rewrite <- !app_assoc.
    + rewrite length_app, length_word. lia.
    + rewrite Hm2. by rewrite <- !app_assoc.
    + rewrite !length_app. cbn. lia.
Qed.

(** ** The whole way *)

Lemma check_strings_spec l size :
  0 ≤ size → size + Z.of_nat (length (texts l)) ≤ 0x04000000 →
  check_strings (inr <$> l) size = inr (size + Z.of_nat (length (texts l)), l).
Proof.
  revert size. induction l as [|s l IH]; intros size H0 Hs; cbn [check_strings fmap list_fmap].
  { do 2 f_equal. change (length (texts [])) with 0%nat. lia. }
  rewrite texts_cons in *. rewrite !length_app in *. cbn [length] in *.
  assert (swrap 32 size = size) as ->.
  { unfold swrap. change (2 ^ (32 - 1)) with 0x80000000. rewrite Z.mod_small by lia. lia. }
  rewrite (proj2 (Z.ltb_lt _ _)) by (unfold INT_MAX; lia). cbn [negb].
  change (list_fmap _ _ inr l) with (@inr de_error _ <$> l). rewrite IH by lia. do 2 f_equal. lia.
Qed.

Lemma alloc_size_spec size :
  0 < size ≤ 0x04000000 →
  alloc_size size mod 32 = 0 ∧ size ≤ alloc_size size ≤ 0x04000000.
Proof.
  intros Hs. unfold alloc_size. set (x := size + 0x1F).
  assert (Hl : Z.land x 0xFFFFFFE0 = Z.shiftl (Z.land (Z.shiftr x 5) (Z.ones 27)) 5).
  { change 0xFFFFFFE0 with (Z.shiftl (Z.ones 27) 5). apply Z.bits_inj'. intros k Hk.
    rewrite Z.land_spec, !Z.shiftl_spec, Z.land_spec by lia.
    destruct (Z.lt_ge_cases k 5).
    - rewrite (Z.testbit_neg_r (Z.ones 27)), !andb_false_r by lia. done.
    - rewrite Z.shiftr_spec by lia. by replace (k - 5 + 5) with k by lia. }
  rewrite Hl, Z.land_ones, Z.shiftl_mul_pow2, Z.shiftr_div_pow2 by lia.
  change (2 ^ 5) with 32. change (2 ^ 27) with 0x8000000.
  rewrite (Z.mod_small (x / 32)) by (unfold x; dlia). unfold x. dlia.
Qed.

Lemma length_block path argv envp total_size size_word :
  block_size path argv envp ≤ total_size →
  Z.of_nat (length (block_of path argv envp total_size size_word)) = total_size.
Proof.
  intros Hs. unfold block_of, block_size, sizeof_arg_header, sizeof_pointer in *. cbv zeta.
  rewrite !length_app, !length_words, !length_pointers, !length_word, !length_zeros. cbn [length]. lia.
Qed.

(** The header of a block. *)
Lemma block_header path argv envp total_size :
  ∃ C, ∀ x, block_of path argv envp total_size x
  = word (Z.of_nat (length argv)) ++ word (u64 (0x80000000 - total_size + sizeof_arg_header + 8))
    ++ word (u64 (0x80000000 - total_size
                  + (sizeof_arg_header + (Z.of_nat (length argv) + 3) * sizeof_pointer)))
    ++ word x ++ C.
Proof. eexists. intros x. reflexivity. Qed.

(** The memory of the new program, as [arg_copy] leaves it. *)
Lemma arg_copy_spec path argv envp total_size mapped :
  block_size path argv envp ≤ total_size → total_size mod 32 = 0 → 0 < total_size ≤ 0x04000000 →
  (∀ a n, mapped a n = true) →
  arg_copy (block_of path argv envp total_size total_size) mapped
  = Some (DE_SUCCESS, 0x80000000 - total_size - 8,
          Some (0x80000000 - total_size, block_of path argv envp total_size 0)).
Proof.
  intros Hs Hmod Hr Hmap. unfold arg_copy.
  destruct (block_header path argv envp total_size) as (C & Hx).
  set (w1 := word (Z.of_nat (length argv))) in *. set (w2 := word (u64 _)) in Hx.
  set (w3 := word (u64 _)) in Hx.
  assert (length w1 = 8%nat ∧ length w2 = 8%nat ∧ length w3 = 8%nat) as (L1 & L2 & L3)
    by (repeat split; apply length_word).
  assert (Hword : word_at (block_of path argv envp total_size total_size) ah_size = Some total_size).
  { rewrite Hx. replace (w1 ++ w2 ++ w3 ++ word total_size ++ C)
      with ((w1 ++ w2 ++ w3) ++ word total_size ++ C) by (by rewrite <- !app_assoc).
    apply word_at_app; [rewrite !length_app; unfold ah_size; lia|lia]. }
  rewrite Hword. cbn [mbind option_bind]. unfold sizeof_pointer.
  rewrite (wrap_small 64 (0x80000000 - total_size)), wrap_small by lia.
  change 0x1F with (2 ^ 5 - 1) at 1. rewrite land_ones_mod by lia.
  rewrite (proj2 (Z.eqb_eq _ 0)) by (change (2 ^ 5) with 32; dlia).
  rewrite (proj2 (Z.ltb_ge _ _)), Z.geb_leb, (proj2 (Z.leb_gt _ _)) by lia. cbn [negb orb].
  assert (Hput : put (block_of path argv envp total_size total_size) ah_size (word 0)
    = Some (block_of path argv envp total_size 0)).
  { rewrite !Hx. rewrite (put_at (w1 ++ w2 ++ w3) (word total_size) C).
    - by rewrite <- !app_assoc.
    - by rewrite <- !app_assoc.
    - rewrite !length_app. unfold ah_size. lia.
    - by rewrite !length_word. }
  rewrite Hput. cbn [mbind option_bind]. rewrite Hmap. cbn [negb].
  pose proof (length_block path argv envp total_size 0 Hs) as Hlen.
  rewrite (proj2 (Z.ltb_ge _ _)) by lia. by rewrite take_ge by lia.
Qed.

(** What a program finds in the block. *)
Lemma block_vectors path argv envp total_size :
  let base := 0x80000000 - total_size in
  let mem := block_of path argv envp total_size 0 in
  block_size path argv envp ≤ total_size → total_size ≤ 0x04000000 →
  clean path → Forall clean argv → Forall clean envp →
  read_vector (S (length argv)) mem base (base + 40) = Some argv ∧
  read_vector (S (length envp)) mem base
    (base + (sizeof_arg_header + (Z.of_nat (length argv) + 3) * sizeof_pointer)) = Some envp ∧
  (pointer ← word_at mem 32; read_string (length mem) mem (pointer - base)) = Some path.
Proof.
  intros base mem Hs Ht Hpath Hargv Henvp.
  pose proof (length_block path argv envp total_size 0 Hs) as Hlen. fold mem in Hlen.
  set (na := length argv) in *. set (ne := length envp) in *.
  set (p := 32 + (Z.of_nat na + 3) * 8 + (Z.of_nat ne + 1) * 8).
  set (p1 := p + Z.of_nat (length path) + 1). set (p2 := p1 + Z.of_nat (length (texts argv))).
  set (w1 := word (Z.of_nat na)). set (w2 := word (u64 (base + 32 + 8))).
  set (w3 := word (u64 (base + (32 + (Z.of_nat na + 3) * 8)))).
  set (w5 := word (u64 (base + p))).
  set (pa := words (pointers base p1 argv)). set (pe := words (pointers base p2 envp)).
  set (R := zeros (Z.to_nat (total_size - (p2 + Z.of_nat (length (texts envp)))))).
  assert (Hmem : mem = w1 ++ w2 ++ w3 ++ word 0 ++ w5 ++ pa ++ zeros 16 ++ pe ++ zeros 8
    ++ (path ++ [0]) ++ texts argv ++ texts envp ++ R) by reflexivity.
  assert (length w1 = 8%nat ∧ length w2 = 8%nat ∧ length w3 = 8%nat ∧ length w5 = 8%nat
    ∧ length pa = (8 * na)%nat ∧ length pe = (8 * ne)%nat) as (L1 & L2 & L3 & L5 & La & Le).
  { repeat split; try apply length_word;
      unfold pa, pe; by rewrite length_words, length_pointers. }
  assert (Hbs : Z.of_nat (length mem) = total_size) by exact Hlen.
  unfold block_size, sizeof_arg_header, sizeof_pointer in *. fold na ne in Hs |- *.
  clearbody mem. change (zeros 16) with (word 0 ++ word 0) in Hmem. change (zeros 8) with (word 0) in Hmem.
  split; [|split].
  - apply (read_vector_app _ _ _ _ (w1 ++ w2 ++ w3 ++ word 0 ++ w5)
      (w1 ++ w2 ++ w3 ++ word 0 ++ w5 ++ pa ++ word 0 ++ word 0 ++ pe ++ word 0 ++ path ++ [0])
      (word 0 ++ pe ++ word 0 ++ (path ++ [0]) ++ texts argv ++ texts envp ++ R) (texts envp ++ R) _ p1);
      try done; try (rewrite ?length_app, ?length_word; cbn [length]; unfold p1, p, base; lia).
    all: rewrite Hmem; fold pa; by rewrite <- !app_assoc.
  - apply (read_vector_app _ _ _ _ (w1 ++ w2 ++ w3 ++ word 0 ++ w5 ++ pa ++ word 0 ++ word 0)
      (w1 ++ w2 ++ w3 ++ word 0 ++ w5 ++ pa ++ word 0 ++ word 0 ++ pe ++ word 0 ++ path ++ [0] ++ texts argv)
      ((path ++ [0]) ++ texts argv ++ texts envp ++ R) R _ p2);
      try done; try (rewrite ?length_app, ?length_word; cbn [length]; unfold p2, p1, p, base; lia).
    all: rewrite Hmem; fold pe; by rewrite <- !app_assoc.
  - assert (Hw : word_at mem 32 = Some (base + p)).
    { rewrite Hmem. unfold w5. rewrite (wrap_small 64 (base + p)) by (unfold base, p; lia).
      replace (w1 ++ w2 ++ w3 ++ word 0 ++ word (base + p) ++ pa ++ _)
        with ((w1 ++ w2 ++ w3 ++ word 0) ++ word (base + p) ++ pa ++ (word 0 ++ word 0) ++ pe ++ word 0
              ++ (path ++ [0]) ++ texts argv ++ texts envp ++ R) by (by rewrite <- !app_assoc).
      apply word_at_app; [rewrite ?length_app, ?length_word; lia|unfold base, p; lia]. }
    rewrite Hw. cbn [mbind option_bind]. replace (base + p - base) with p by lia.
    replace mem with ((w1 ++ w2 ++ w3 ++ word 0 ++ w5 ++ pa ++ word 0 ++ word 0 ++ pe ++ word 0)
      ++ path ++ [0] ++ texts argv ++ texts envp ++ R) at 2 by (rewrite Hmem; by rewrite <- !app_assoc).
    apply read_string_app; [rewrite !length_app, ?length_word; unfold p; lia|done|].
    unfold p in *. lia.
Qed.

(** (C14) Arguments arrive.  For every path and all vectors of strings that fit
    ([arg_create] refuses larger ones), the block that [arg_create] makes is
    accepted by [arg_copy] (the test for an unexpected address never fails),
    and in the memory that the new program gets, the header has the number of
    arguments, and a program that follows its pointers reads exactly the
    vectors that were passed; the pointer in front of the arguments leads to
    the path. *)
Theorem arg_roundtrip (path : list Z) (argv envp : list (list Z))
    (allocated : nat → bool) (mapped : Z → Z → bool)
    (Hpath : clean path) (Hargv : Forall clean argv) (Henvp : Forall clean envp)
    (Hargc : Z.of_nat (length argv) ≤ 0xFFFF) (Henvc : Z.of_nat (length envp) ≤ 0xFFFF)
    (Hsize : block_size path argv envp ≤ 0x04000000)
    (Halloc : retry retry_count 0 allocated = true) (Hmap : ∀ a n, mapped a n = true) :
  ∃ block base mem a e,
    arg_create (inr path) (Some (inr (inr <$> argv))) (Some (inr (inr <$> envp))) allocated
      = Some (Created DE_SUCCESS block) ∧
    arg_copy block mapped = Some (DE_SUCCESS, base - 8, Some (base, mem)) ∧
    word_at mem ah_argc = Some (Z.of_nat (length argv)) ∧
    word_at mem ah_argv = Some a ∧ word_at mem ah_envp = Some e ∧
    read_vector (S (length argv)) mem base a = Some argv ∧
    read_vector (S (length envp)) mem base e = Some envp ∧
    (pointer ← word_at mem (a - 8 - base); read_string (length mem) mem (pointer - base)) = Some path.
Proof.
  set (size := block_size path argv envp) in *.
  assert (Hpos : 0 < size).
  { unfold size, block_size, sizeof_arg_header, sizeof_pointer. lia. }
  destruct (alloc_size_spec size ltac:(lia)) as [Hmod Halign]. set (total := alloc_size size) in *.
  set (base := 0x80000000 - total).
  exists (block_of path argv envp total total), base, (block_of path argv envp total 0), (base + 40),
    (base + (sizeof_arg_header + (Z.of_nat (length argv) + 3) * sizeof_pointer)).
  assert (Hcreate : arg_create (inr path) (Some (inr (inr <$> argv))) (Some (inr (inr <$> envp))) allocated
    = Some (Created DE_SUCCESS (block_of path argv envp total total))).
  { unfold arg_create. rewrite !length_fmap, !Z.gtb_ltb, !(proj2 (Z.ltb_ge _ _)) by lia. cbn [orb].
    rewrite check_strings_spec by (unfold size, block_size, sizeof_arg_header, sizeof_pointer in *; lia).
    rewrite check_strings_spec by (unfold size, block_size, sizeof_arg_header, sizeof_pointer in *; lia).
    fold size. fold (block_size path argv envp). change (block_size path argv envp) with size.
    rewrite Z.gtb_ltb, (proj2 (Z.ltb_ge _ _)) by lia. rewrite Halloc. cbn [negb]. fold total.
    apply fill_block_spec. fold size. lia. }
  split; [exact Hcreate|]. split; [apply arg_copy_spec; (done || fold size; lia)|].
  destruct (block_vectors path argv envp total) as (H1 & H2 & H3);
    [fold size; lia|lia|done|done|done|].
  destruct (block_header path argv envp total) as (C & Hb). specialize (Hb 0). fold base in Hb, H1, H2, H3.
  assert (Ha : u64 (base + sizeof_arg_header + 8) = base + 40).
  { unfold sizeof_arg_header, base. rewrite wrap_small by lia. lia. }
  assert (He : u64 (base + (sizeof_arg_header + (Z.of_nat (length argv) + 3) * sizeof_pointer))
    = base + (sizeof_arg_header + (Z.of_nat (length argv) + 3) * sizeof_pointer)).
  { unfold sizeof_arg_header, sizeof_pointer, base. apply wrap_small. lia. }
  rewrite Ha, He in Hb.
  split; [|split; [|split; [|split; [exact H1|split; [exact H2|]]]]].
  - rewrite Hb. apply (word_at_app []); [done|lia].
  - rewrite Hb. apply word_at_app; [by rewrite length_word|unfold base; lia].
  - rewrite Hb, app_assoc. apply word_at_app; [by rewrite length_app, !length_word|].
    unfold sizeof_arg_header, sizeof_pointer, base. lia.
  - replace (base + 40 - 8 - base) with 32 by lia. exact H3.
Qed.

Lemma arg_roundtrip_witness :
  ∃ block, arg_create (inr [47; 97]) (Some (inr [inr [97]; inr [98; 99]])) (Some (inr [inr [88; 61]]))
             (λ _, true) = Some (Created DE_SUCCESS block).
Proof.
  destruct (arg_roundtrip [47; 97] [[97]; [98; 99]] [[88; 61]] (λ _, true) (λ _ _, true))
    as (block & _ & _ & _ & _ & H & _).
  - repeat constructor; lia.
  - repeat constructor; lia.
  - repeat constructor; lia.
  - cbn. lia.
  - cbn. lia.
  - vm_compute. discriminate.
  - reflexivity.
  - reflexivity.
  - exists block. exact H.
Defined.

(** ** The command line *)

Abbreviation nonempty := (filter (λ s : list Z, s ≠ [])).

Lemma nonempty_cons s args :
  nonempty (s :: args) = if decide (s = []) then nonempty args else s :: nonempty args.
Proof. rewrite filter_cons. do 2 case_decide; (done || tauto). Qed.

Lemma line_size_spec args n : line_size args n = n + Z.of_nat (length (texts (nonempty args))).
Proof.
  revert n. induction args as [|s args IH]; intros n; cbn [line_size].
  { change (length (texts (nonempty []))) with 0%nat. lia. }
  rewrite IH, nonempty_cons. destruct s as [|b s]; case_decide; try done; cbn [length].
  rewrite texts_cons, !length_app. cbn [length].
  rewrite (proj2 (Z.eqb_neq _ _)) by lia. cbn [negb]. lia.
Qed.

Lemma put_args_spec args A T C n :
  n = Z.of_nat (length A) → length T = length (texts (nonempty args)) →
  put_args args (A ++ T ++ C) n
  = Some (A ++ texts (nonempty args) ++ C, n + Z.of_nat (length (texts (nonempty args)))).
Proof.
  revert A T n. induction args as [|s args IH]; intros A T n Hn HT; cbn [put_args].
  { destruct T; [|done]. cbn. do 2 f_equal. lia. }
  rewrite nonempty_cons in *. case_decide as Hs; [by apply IH|].
  rewrite texts_cons, !length_app in *. cbn [length] in *.
  rewrite <- (take_drop (S (length s)) T).
  assert (H1 : length (take (S (length s)) T) = S (length s)) by (rewrite length_take; lia).
  assert (H2 : length (drop (S (length s)) T) = length (texts (nonempty args)))
    by (rewrite length_drop; lia).
  set (T1 := take _ T) in *. set (T2 := drop _ T) in *. clearbody T1 T2.
  rewrite (put_at A T1 (T2 ++ C)); [|by rewrite <- app_assoc|done|rewrite length_app; cbn; lia].
  cbn [mbind option_bind].
  replace (A ++ (s ++ [0]) ++ T2 ++ C) with ((A ++ s ++ [0]) ++ T2 ++ C) by (by rewrite <- !app_assoc).
  rewrite IH; [|rewrite !length_app; cbn; lia|done].
  rewrite <- !app_assoc. do 2 f_equal. lia.
Qed.

(** The command line of a task is its path and its arguments, empty ones left
    out, each with a null byte behind it, and one more null byte at the end.
    For a path of at most 253 bytes, any arguments and an allocation that
    succeeds, [build_line] never writes outside of its buffer, never panics,
    and the buffer begins with exactly this text. *)
Theorem build_line_correct (path : list Z) (args : list (list Z)) (_line : list Z)
    (allocated : nat → bool) (junk : Z → Z)
    (Hpath : 1 ≤ Z.of_nat (length path) ≤ 253) (Hline : length _line = 32%nat)
    (Halloc : retry retry_count 0 allocated = true) :
  ∃ rest, build_line path args _line allocated junk
          = Some (CmdLine (texts (path :: nonempty args) ++ [0] ++ rest)).
Proof.
  unfold build_line. rewrite Z.geb_leb.
  rewrite (proj2 (Z.leb_gt _ 2)), (proj2 (Z.leb_gt 256 _)) by lia. cbn [orb].
  rewrite line_size_spec. set (t := texts (nonempty args)).
  set (size := 1 + (Z.of_nat (length path) + 1) + Z.of_nat (length t)).
  rewrite Halloc. cbn [negb]. rewrite andb_false_r. rewrite Z.gtb_ltb. unfold TASK_CMD_STATIC_SIZE.
  destruct (rd_is_Some _line 0) as [first ->]; [lia|]. cbn [mbind option_bind].
  set (buffer := if 32 <? size then _ else _).
  assert (∃ P T x rest, buffer = P ++ T ++ [x] ++ rest ∧ length P = S (length path) ∧
    length T = length t) as (P & T & x & n & -> & HP & HT).
  { assert (Hb : ∃ b n, buffer = b ++ n ∧ Z.of_nat (length b) = size).
    { assert (Hlen : size ≤ Z.of_nat (length buffer)).
      { unfold buffer. destruct (Z.ltb_spec 32 size); [rewrite length_fmap, length_seqZ; lia|].
        destruct (negb _); [rewrite length_replicate; lia|lia]. }
      exists (take (Z.to_nat size) buffer), (drop (Z.to_nat size) buffer).
      rewrite take_drop. split; [done|]. rewrite length_take. lia. }
    destruct Hb as (b & n & -> & Hb).
    destruct (lookup_lt_is_Some_2 b (S (length path) + length t)%nat) as [x Hx]; [lia|].
    exists (take (S (length path)) b), (take (length t) (drop (S (length path)) b)), x, n.
    rewrite !length_take, length_drop. split; [|lia].
    assert (Hd : drop (S (length path) + length t) b = [x]).
    { rewrite (drop_S b x) by done. f_equal. apply drop_ge. lia. }
    rewrite <- Hd, <- drop_drop. by rewrite (app_assoc (take (length t) _)), take_drop, app_assoc, take_drop. }
  rewrite (put_at [] P (T ++ [x] ++ n)) by (done || (rewrite length_app; cbn; lia)).
  cbn [mbind option_bind app].
  rewrite (put_args_spec args (path ++ [0]) T); [|rewrite length_app; cbn; lia|done].
  cbn [mbind option_bind]. fold t. rewrite wr_Some by (rewrite !length_app; cbn; lia).
  cbn [mbind option_bind]. rewrite (proj2 (Z.eqb_eq _ _)) by (unfold size; lia). cbn [negb].
  exists n. rewrite texts_cons. fold t. do 2 f_equal.
  replace ((path ++ [0]) ++ t ++ x :: n) with (((path ++ [0]) ++ t) ++ x :: n)
    by (by rewrite <- !app_assoc).
  rewrite insert_app_r_alt by (rewrite !length_app; cbn; lia).
  replace (Z.to_nat _ - _)%nat with 0%nat by (rewrite !length_app; cbn; lia).
  by rewrite <- !app_assoc.
Qed.
